(* ===== verification/_CoqProject ===== *)
-Q . S2P
Prelude.v
Font.v
GuiState.v
Draw.v
DrawFacts.v
Gui.v
WindowQueue.v
Repaint.v
WindowSyscalls.v
Incremental.v
GuiWitness.v
Events.v
Mouse.v
MouseFacts.v
Clicks.v
Kbd.v
KbdFacts.v
Typing.v
InputWitness.v
Editor.v
Pipe.v
Log.v
LogFacts.v
LogTxn.v
Bio.v
BioFacts.v
Ide.v
IdeFacts.v
CString.v
Boot.v
Devices.v
Grep.v
Fs.v
FsFacts.v
FsFile.v
FsWitness.v
Vm.v
VmFacts.v
Segments.v
Startup.v
File.v
FileFacts.v
Proc.v
ProcTable.v
ProcFacts.v
ProcInv.v
ProcWitness.v
Printf.v
Console.v
ConsoleFacts.v
ConsoleLine.v
Umalloc.v
UmallocHeap.v
Sh.v
ShFacts.v
ShRound.v
ShRun.v
Syscall.v
Sysfile.v
Exec.v
InodeRefs.v
SysfileRefs.v
SysfileCalls.v
SysfileTxn.v
DirFacts.v
SysfileWitness.v
ProcRefs.v
ExecFacts.v
Trap.v
Bitmap.v
Explorer.v
Folder.v
Mp.v
Mkfs.v
MkfsTree.v
MkfsAppend.v
MkfsFacts.v
MkfsImage.v
Programs.v
Apps.v
