(* ===== verification/Prelude.v ===== *)
(** * Verification of xv6 with a graphical user interface

    The program is the xv6 kernel for x86, extended with a window system
    (windows, mouse, keyboard, pictures) and its user programs: a shell, the
    utilities, a desktop and a file manager.  All sources are C files under
    src/src/.  This library models them as executable definitions over explicit
    states and proves what makes them correct.

    ** How the C code is modelled

    Code that reads and writes a state is a function in the monad [M] of this
    file; its outcomes are a normal return, a call of [panic], undefined
    behaviour ([Fault]: a null or wild pointer, an index outside an array) and
    [OutOfFuel].  Integers are [Z], with the wrap-around of their width written
    out ([u8], [u32], [s32], ...) wherever it can matter; memory, disks and the
    screen are maps from addresses to bytes or pixels.  Loops that are not
    structural carry a step bound.  Theorems that a routine returns are total:
    they give the result for every sufficient bound, and the bounds in the
    definitions (the length of a list, the size of a table plus one, 1024 for
    the short strings of the file manager) are shown to be enough.  In the
    process, pipe, disk and file system models a wait for another process also
    ends a segment of code; interleavings are sequences of such segments
    ([OutOfFuel] as the result of a whole call there means that the caller
    sleeps).

    ** The parts

    Window system.
    - [Font]: the glyph table of character.h.
    - [GuiState]: the structures of gui.h, window.h and mouse.h, user memory as
      typed objects per address space, the pixel buffers.
    - [Draw], [Gui]: the painters and the two-layer composition of gui.c.
    - [WindowQueue]: the pool and the doubly linked stack of windows of window.c
      and its system calls.
    - [Mouse], [Kbd]: the drivers mouse.c and kbd.c, hit testing, clicks, text
      editing.
    - [Events]: the event loop of uwindow.c and the file-system-changed call.
    - [DrawFacts], [Repaint], [Incremental], [WindowSyscalls], [MouseFacts],
      [Clicks], [KbdFacts], [Typing]: a repaint shows the picture of
      all windows, redrawing only the top window gives the same picture (of any
      window but one that fills the screen), the
      calls refine an abstract stack of windows, clicks and keys reach the
      program they are meant for, each pending event runs its handler.
    - [GuiWitness], [InputWitness]: concrete screens and input.

    Disk and file system.
    - [Log], [LogFacts], [LogTxn]: the write-ahead log of log.c; commit is atomic
      under a crash at any point, concurrent operations share a commit (within
      nine blocks each on the log that mkfs lays out).
    - [Bio], [BioFacts]: the buffer cache of bio.c over memide.c implements the
      cache interface that the other parts use.
    - [Ide], [IdeFacts]: the interrupt-driven driver ide.c serves its queue in
      order under every interleaving (the drive is an interface, class [Drive],
      whose commands may fail).
    - [Fs], [FsFacts], [FsFile], [DirFacts], [FsWitness]: fs.c; a file is an array
      of bytes through its tree of blocks, a directory a map from names to
      inodes.
    - [File], [FileFacts]: the open-file table of file.c.
    - [Pipe]: pipe.c under every interleaving: first in, first out, no wakeup lost.
    - [Sysfile], [InodeRefs], [SysfileRefs], [SysfileCalls], [SysfileTxn],
      [SysfileWitness]: the calls of sysfile.c keep every reference count true
      and write the disk only inside transactions.
    - [Mkfs], [MkfsTree], [MkfsAppend], [MkfsFacts], [MkfsImage]: mkfs.c;
      the image it builds satisfies the invariants assumed of [Fs], and the
      kernel reads back the files that were put in.

    Processes and machine.
    - [Proc], [ProcTable], [ProcFacts], [ProcInv], [ProcWitness]: proc.c and
      spinlock.c on several CPUs; invariants over all interleavings.
    - [ProcRefs]: processes and file system calls together; the reference counts
      are exact from boot on.
    - [Segments]: segments, gates and the task segment (mmu.h, seginit and
      switchuvm of vm.c, tvinit of trap.c) and the local interrupt controllers
      (lapic.c); the kernel is entered at its vectors only.
    - [Startup]: the start of the other processors (main.c).
    - [Vm], [VmFacts]: kalloc.c and vm.c on physical memory as bytes; mapping
      pages, and the kernel's half of every address space.
    - [Syscall]: argument checks and dispatch of syscall.c,
      sysproc.c.
    - [Exec], [ExecFacts]: exec.c; the new program finds its arguments.
    - [Trap]: trap.c, the clock, killing and preempting; a trap is followed
      through the yield to its return.
    - [Mp]: mp.c, the search for the processors.
    - [Boot]: bootmain.c; the segments of the kernel are in memory when it is
      entered.
    - [Devices]: ioapic.c, picirq.c, timer.c and the clock of lapic.c; lines are
      routed as asked, the time read is a time of the clock.
    - [Console], [ConsoleFacts], [ConsoleLine]: console.c and uart.c.

    Libraries and user programs.
    - [CString]: string.c and ulib.c.
    - [Printf]: printf.c and cprintf; the output is the rendering of the format.
    - [Umalloc], [UmallocHeap]: umalloc.c.
    - [Sh], [ShFacts], [ShRound], [ShRun]: the parser of sh.c, and [runcmd] as a
      tree of programs whose descriptors are wired as the command is written.
    - [Grep]: the matcher of grep.c decides its regular expressions;
      the loops of grep.c and wc.c over the reads of a file.
    - [Editor]: opening and saving a text in editor.c.
    - [Bitmap]: bitmap.c.
    - [Programs]: cat, echo, rm, mkdir, ln, kill, ls, init and zombie over an
      interface of the system calls they make (class [Os]).
    - [Explorer], [Folder]: explorer.c and
      desktop.c.
    - [Apps]: the windows that imageviewer.c, desktop.c, explorer.c and editor.c
      make in their memory and pass to the kernel; they come on top of the stack
      of windows, with pictures read by [Bitmap] (class [Pictures]).

    A file with the suffix Facts (or another suffix than the part itself) holds
    the invariants and theorems of the part, a file with the suffix Witness
    concrete states on which the theorems apply.

    ** What is not modelled

    Assembly files and the switch of stacks itself; the function main of main.c
    (it calls the initialisations one after the other; the start of the other
    processors is modelled); the main functions of grep.c and wc.c
    (they open the files named and call the parts above); the test
    programs (usertests.c, forktest.c, stressfs.c).  In modelled files: console
    messages during boot, and the size of the arrays that pictures are read
    into. *)
From Stdlib Require Export ZArith Lia.
From stdpp Require Export base gmap strings numbers.
From stdpp Require Export list.
Open Scope Z_scope.
Set Default Goal Selector "!".

(** ** Outcomes of C code

    [Ok] is a normal return.  [Panic] is a call of the kernel's [panic].
    [Fault] is behaviour C does not define (a null or wild dereference, an
    access outside an array).  [OutOfFuel] is produced only by loops whose
    model carries a step bound. *)
Inductive outcome (A : Type) : Type :=
| Ok (a : A)
| Panic (msg : string)
| Fault
| OutOfFuel.
Arguments Ok {A} a.
Arguments Panic {A} msg.
Arguments Fault {A}.
Arguments OutOfFuel {A}.

(** Code that reads and writes a state [S], returns an [A] and may fail. *)
Definition M (S A : Type) : Type := S -> outcome (A * S).

Definition M_bind {S A B} (c : M S A) (k : A -> M S B) : M S B :=
  fun s => match c s with
           | Ok (a, s') => k a s'
           | Panic msg => Panic msg
           | Fault => Fault
           | OutOfFuel => OutOfFuel
           end.
Definition ret {S A} (a : A) : M S A := fun s => Ok (a, s).
Definition get {S} : M S S := fun s => Ok (s, s).
Definition gets {S A} (f : S -> A) : M S A := fun s => Ok (f s, s).
Definition put {S} (s : S) : M S unit := fun _ => Ok (tt, s).
Definition modify {S} (f : S -> S) : M S unit := fun s => Ok (tt, f s).
Definition panic {S A} (msg : string) : M S A := fun _ => Panic msg.
Definition fault {S A} : M S A := fun _ => Fault.
Definition out_of_fuel {S A} : M S A := fun _ => OutOfFuel.
Definition of_option {S A} (o : option A) : M S A :=
  match o with Some a => ret a | None => fault end.

(** Run code on a component [T] of a larger state [S]. *)
Definition zoom {S T A} (view : S -> T) (update : T -> S -> S) (c : M T A) : M S A :=
  fun s => match c (view s) with
           | Ok (a, t) => Ok (a, update t s)
           | Panic msg => Panic msg
           | Fault => Fault
           | OutOfFuel => OutOfFuel
           end.

Declare Scope code_scope.
Delimit Scope code_scope with code.
Notation "x <- c ;; k" := (M_bind c (fun x => k))
  (at level 100, c at next level, right associativity) : code_scope.
Notation "'let*' pat := c 'in' k" := (M_bind c (fun x => match x with pat => k end))
  (at level 100, pat strict pattern, c at level 100, k at level 100) : code_scope.
Notation "c ;;; k" := (M_bind c (fun _ => k))
  (at level 100, right associativity) : code_scope.
Notation "'when' b 'do' c" := (if b then c else ret tt)
  (at level 99, b at level 99, c at level 99) : code_scope.
Open Scope code_scope.

(** ** Total-correctness triples *)

(** From every state satisfying [P] the code returns normally, with [Q]. *)
Definition triple {S A} (P : S -> Prop) (c : M S A) (Q : A -> S -> Prop) : Prop :=
  forall s, P s -> exists a s', c s = Ok (a, s') /\ Q a s'.

Section Triples.
Context {S A B : Type}.
Implicit Types (c : M S A) (s : S).

Lemma bind_Ok c (k : A -> M S B) s a s' :
  c s = Ok (a, s') -> M_bind c k s = k a s'.
Proof. intros H. unfold M_bind. by rewrite H. Qed.

Lemma bind_inv c (k : A -> M S B) s b s'' :
  M_bind c k s = Ok (b, s'') ->
  exists a s', c s = Ok (a, s') /\ k a s' = Ok (b, s'').
Proof.
  unfold M_bind. destruct (c s) as [[a s']| | |] eqn:E; intros H; try done.
  by exists a, s'.
Qed.

Lemma triple_bind P c Q (k : A -> M S B) R :
  triple P c Q -> (forall a, triple (Q a) (k a) R) -> triple P (M_bind c k) R.
Proof.
  intros Hc Hk s HP. destruct (Hc s HP) as (a & s' & E & HQ).
  rewrite (bind_Ok _ _ _ _ _ E). by apply Hk.
Qed.

Lemma triple_conseq (P P' : S -> Prop) c (Q Q' : A -> S -> Prop) :
  triple P c Q -> (forall s, P' s -> P s) -> (forall a s, Q a s -> Q' a s) ->
  triple P' c Q'.
Proof.
  intros Hc HP HQ s Hs. destruct (Hc s (HP s Hs)) as (a & s' & ? & ?).
  exists a, s'. auto.
Qed.

Lemma triple_ret (P : S -> Prop) (a : A) : triple P (ret a) (fun b s => b = a /\ P s).
Proof. intros s Hs. by exists a, s. Qed.
End Triples.

Lemma bind_assoc {S A B C} (c : M S A) (k : A -> M S B) (h : B -> M S C) s :
  M_bind (M_bind c k) h s = M_bind c (fun a => M_bind (k a) h) s.
Proof. unfold M_bind. by destruct (c s) as [[]| | |]. Qed.

Lemma bind_ext {S A B} (c : M S A) (k h : A -> M S B) s :
  (forall a s', c s = Ok (a, s') -> k a s' = h a s') -> M_bind c k s = M_bind c h s.
Proof. intros H. unfold M_bind. destruct (c s) as [[a s']| | |] eqn:E; auto. Qed.
Lemma bind_cong {S A B} (c d : M S A) (k : A -> M S B) s :
  c s = d s -> M_bind c k s = M_bind d k s.
Proof. unfold M_bind. by intros ->. Qed.

(** ** Relations between the states before and after

    [respects R c]: every run of [c] that returns relates its states by [R].
    For a preorder [R] this follows from the parts of [c]. *)
Definition respects {S A} (R : S -> S -> Prop) (c : M S A) : Prop :=
  forall s a s', c s = Ok (a, s') -> R s s'.

Section Respects.
Context {S : Type} {R : S -> S -> Prop} `{!PreOrder R}.
Lemma respects_ret {A} (a : A) : respects R (ret a).
Proof. intros s x s' [= <- <-]. reflexivity. Qed.
Lemma respects_get : respects R get.
Proof. intros s x s' [= <- <-]. reflexivity. Qed.
Lemma respects_gets {A} (f : S -> A) : respects R (gets f).
Proof. intros s x s' [= <- <-]. reflexivity. Qed.
Lemma respects_panic {A} msg : respects R (@panic S A msg).
Proof. intros s x s' [=]. Qed.
Lemma respects_fault {A} : respects R (@fault S A).
Proof. intros s x s' [=]. Qed.
Lemma respects_out_of_fuel {A} : respects R (@out_of_fuel S A).
Proof. intros s x s' [=]. Qed.
Lemma respects_of_option {A} (o : option A) : respects R (@of_option S A o).
Proof. destruct o; [apply respects_ret | apply respects_fault]. Qed.
Lemma respects_bind {A B} (c : M S A) (k : A -> M S B) :
  respects R c -> (forall a, respects R (k a)) -> respects R (M_bind c k).
Proof.
  intros Hc Hk s b s' H. unfold M_bind in H. destruct (c s) as [[a s1]| | |] eqn:E; try discriminate.
  transitivity s1; [by eapply Hc | by eapply Hk].
Qed.
Lemma respects_modify (f : S -> S) : (forall s, R s (f s)) -> respects R (modify f).
Proof. intros H s x s' [= <- <-]. apply H. Qed.
End Respects.
(** Go through the code with these rules, [tac] at the calls. *)
Ltac respects_with tac :=
  repeat first
    [ progress intros
    | apply respects_ret | apply respects_get | apply respects_gets | apply respects_panic
    | apply respects_fault | apply respects_out_of_fuel | apply respects_of_option
    | tac
    | apply respects_bind
    | match goal with
      | |- respects _ (if ?b then _ else _) => destruct b
      | |- respects _ (match ?x with _ => _ end) => destruct x
      end ].

(** ** C integers *)

Definition u8 (z : Z) : Z := z mod 2 ^ 8.
Definition u16 (z : Z) : Z := z mod 2 ^ 16.
Definition u32 (z : Z) : Z := z mod 2 ^ 32.
(** Conversion to [int]: two's complement. *)
Definition s32 (z : Z) : Z := (z + 2 ^ 31) mod 2 ^ 32 - 2 ^ 31.
(** A [char] read as a signed value. *)
Definition schar (z : Z) : Z := (z + 2 ^ 7) mod 2 ^ 8 - 2 ^ 7.
(** C truth values. *)
Definition c_bool (b : bool) : Z := if b then 1 else 0.
Definition truthy (z : Z) : bool := negb (z =? 0).

Lemma u32_small z : 0 <= z < 2 ^ 32 -> u32 z = z.
Proof. intros. by apply Z.mod_small. Qed.
Lemma u32_range z : 0 <= u32 z < 2 ^ 32.
Proof. apply Z.mod_pos_bound. lia. Qed.
Lemma u8_range z : 0 <= u8 z < 2 ^ 8.
Proof. apply Z.mod_pos_bound. lia. Qed.
Lemma s32_small z : - 2 ^ 31 <= z < 2 ^ 31 -> s32 z = z.
Proof. intros. unfold s32. rewrite Z.mod_small; lia. Qed.
Lemma s32_range z : - 2 ^ 31 <= s32 z < 2 ^ 31.
Proof.
  unfold s32. pose proof (Z.mod_pos_bound (z + 2 ^ 31) (2 ^ 32) ltac:(lia)). lia.
Qed.
Lemma u32_add_l a b : u32 (u32 a + b) = u32 (a + b).
Proof. unfold u32. by rewrite Zplus_mod_idemp_l. Qed.
Lemma u32_sub_l a b : u32 (u32 a - b) = u32 (a - b).
Proof. unfold u32. by rewrite Zminus_mod_idemp_l. Qed.
Lemma u32_sub_r a b : u32 (a - u32 b) = u32 (a - b).
Proof. unfold u32. by rewrite Zminus_mod_idemp_r. Qed.

(** ** Loops *)

(** [for (i = lo; i < hi; i++) a = f(i, a);] *)
Definition zfor {A} (lo hi : Z) (f : Z -> A -> A) (a : A) : A :=
  fold_left (fun acc i => f i acc) (seqZ lo (hi - lo)) a.

(** The same loop around code with effects. *)
Fixpoint mfor_list {S} (l : list Z) (f : Z -> M S unit) : M S unit :=
  match l with
  | [] => ret tt
  | i :: l' => f i ;;; mfor_list l' f
  end.
Definition mfor {S} (lo hi : Z) (f : Z -> M S unit) : M S unit :=
  mfor_list (seqZ lo (hi - lo)) f.
Lemma respects_mfor {S} (R : S -> S -> Prop) `{!PreOrder R} lo hi (f : Z -> M S unit) :
  (forall i, respects R (f i)) -> respects R (mfor lo hi f).
Proof.
  intros H. unfold mfor. induction (seqZ lo (hi - lo)) as [|i l IH]; [apply respects_ret|].
  apply respects_bind; [apply H | done].
Qed.

Lemma zfor_nil {A} lo hi (f : Z -> A -> A) a : hi <= lo -> zfor lo hi f a = a.
Proof. intros. unfold zfor. by rewrite seqZ_nil by lia. Qed.

Lemma zfor_step {A} lo hi (f : Z -> A -> A) a :
  lo < hi -> zfor lo hi f a = zfor (lo + 1) hi f (f lo a).
Proof.
  intros. unfold zfor. rewrite seqZ_cons by lia. simpl.
  replace (hi - (lo + 1)) with (Z.pred (hi - lo)) by lia.
  by replace (Z.succ lo) with (lo + 1) by lia.
Qed.

(** The loop rule: [P i a] holds when the loop variable is about to be [i]. *)
Lemma zfor_ind {A} (P : Z -> A -> Prop) lo hi f a :
  lo <= hi -> P lo a ->
  (forall i a, lo <= i < hi -> P i a -> P (i + 1) (f i a)) ->
  P hi (zfor lo hi f a).
Proof.
  intros Hle. remember (Z.to_nat (hi - lo)) as n eqn:Hn.
  revert lo a Hle Hn. induction n as [|n IH]; intros lo a Hle Hn HP Hstep.
  - rewrite zfor_nil by lia. by replace hi with lo by lia.
  - rewrite zfor_step by lia. apply IH; [lia | lia | apply Hstep; [lia | done] |].
    intros i b Hi Hb. apply Hstep; [lia | done].
Qed.

Lemma zfor_inv {A} (P : A -> Prop) lo hi f (a : A) :
  P a -> (forall i a, lo <= i < hi -> P a -> P (f i a)) -> P (zfor lo hi f a).
Proof.
  intros HP Hstep. destruct (decide (lo <= hi)).
  - by apply (zfor_ind (fun _ => P)); [lia | |].
  - by rewrite zfor_nil by lia.
Qed.

Lemma zfor_ext {A} lo hi (f g : Z -> A -> A) a :
  (forall i b, lo <= i < hi -> f i b = g i b) -> zfor lo hi f a = zfor lo hi g a.
Proof.
  intros H. destruct (decide (lo <= hi)); [|by rewrite !zfor_nil by lia].
  remember (Z.to_nat (hi - lo)) as n eqn:Hn. revert lo a l H Hn.
  induction n as [|n IH]; intros lo a l H Hn; [by rewrite !zfor_nil by lia|].
  rewrite !(zfor_step lo) by lia. rewrite H by lia.
  apply IH; [lia | | lia]. intros i b Hi. apply H. lia.
Qed.

Lemma zfor_snoc {A} lo hi (f : Z -> A -> A) a :
  lo <= hi -> zfor lo (hi + 1) f a = f hi (zfor lo hi f a).
Proof.
  intros Hle. remember (Z.to_nat (hi - lo)) as n eqn:Hn.
  revert lo a Hle Hn. induction n as [|n IH]; intros lo a Hle Hn.
  - replace hi with lo by lia. rewrite zfor_step, !zfor_nil by lia. done.
  - rewrite zfor_step by lia. rewrite (zfor_step lo hi) by lia. apply IH; lia.
Qed.

(** ** Memory as a total function of addresses *)

Definition upd {A} (m : Z -> A) (a : Z) (v : A) : Z -> A :=
  fun b => if b =? a then v else m b.

Lemma upd_eq {A} (m : Z -> A) a v : upd m a v a = v.
Proof. unfold upd. by rewrite Z.eqb_refl. Qed.
Lemma upd_ne {A} (m : Z -> A) a b v : b <> a -> upd m a v b = m b.
Proof. intros. unfold upd. by destruct (Z.eqb_spec b a). Qed.
Lemma upd_self {A} (f : Z -> A) a z : upd f a (f a) z = f z.
Proof. unfold upd. by destruct (Z.eqb_spec z a) as [->|]. Qed.
(** Two chains of updates agree at every point. *)
Ltac upd_cases :=
  intros z; unfold upd in *; repeat case Z.eqb_spec; intros; subst; try done; try lia; try congruence.

(** Testing one bit of a word. *)
Lemma land_bit f k : 0 <= k -> (Z.land f (2 ^ k) =? 0) = negb (Z.testbit f k).
Proof.
  intros Hk. destruct (Z.testbit f k) eqn:E; simpl.
  - apply Z.eqb_neq. intros H. apply (f_equal (fun z => Z.testbit z k)) in H.
    by rewrite Z.land_spec, E, Z.pow2_bits_true, Z.bits_0 in H by lia.
  - apply Z.eqb_eq, Z.bits_inj. intros j. rewrite Z.land_spec, Z.pow2_bits_eqb, Z.bits_0 by lia.
    destruct (Z.eqb_spec k j) as [->|]; [by rewrite E | apply andb_false_r].
Qed.

(** ** Arrays: an access outside is [None] *)
Definition arr_get (t : list Z) (i : Z) : option Z :=
  if i <? 0 then None else t !! Z.to_nat i.
Definition arr_set (t : list Z) (i v : Z) : option (list Z) :=
  if (i <? 0) || (Z.of_nat (length t) <=? i) then None else Some (<[Z.to_nat i := v]> t).
Lemma arr_get_app l x r : arr_get (l ++ x :: r) (Z.of_nat (length l)) = Some x.
Proof.
  unfold arr_get. destruct (Z.ltb_spec (Z.of_nat (length l)) 0); [lia|].
  rewrite Nat2Z.id. by apply list_lookup_middle.
Qed.
Lemma arr_set_app l x r v :
  arr_set (l ++ x :: r) (Z.of_nat (length l)) v = Some (l ++ v :: r).
Proof.
  unfold arr_set. rewrite length_app. simpl.
  destruct (Z.ltb_spec (Z.of_nat (length l)) 0); [lia|].
  destruct (Z.leb_spec (Z.of_nat (length l + S (length r))) (Z.of_nat (length l))); [lia|].
  simpl. rewrite Nat2Z.id. by rewrite insert_app_r_alt, Nat.sub_diag by lia.
Qed.
Lemma arr_set_out t i v : Z.of_nat (length t) <= i -> arr_set t i v = None.
Proof.
  intros H. unfold arr_set. destruct (Z.leb_spec (Z.of_nat (length t)) i); [|lia].
  by rewrite orb_true_r.
Qed.

(** ** Lists *)
Section Lists.
Context {A : Type} (P : A -> Prop) `{forall x, Decision (P x)}.
Lemma filter_all (l : list A) : Forall P l -> filter P l = l.
Proof.
  induction 1 as [|x l Hx _ IH]; [done|]. by rewrite filter_cons_True, IH.
Qed.
Lemma filter_none (l : list A) : Forall (fun x => ~ P x) l -> filter P l = [].
Proof.
  induction 1 as [|x l Hx _ IH]; [done|]. by rewrite filter_cons_False, IH.
Qed.
End Lists.

Lemma zfor_ext_inv {A} (P : A -> Prop) lo hi (f g : Z -> A -> A) a :
  P a -> (forall i b, lo <= i < hi -> P b -> f i b = g i b /\ P (g i b)) ->
  zfor lo hi f a = zfor lo hi g a /\ P (zfor lo hi g a).
Proof.
  intros Ha H. destruct (decide (lo <= hi)) as [Hle|]; [|by rewrite !zfor_nil by lia].
  remember (Z.to_nat (hi - lo)) as n eqn:Hn. revert lo a Hle Ha H Hn.
  induction n as [|n IH]; intros lo a Hle Ha H Hn; [by rewrite !zfor_nil by lia|].
  destruct (H lo a ltac:(lia) Ha) as [E Hg].
  rewrite !(zfor_step lo), E by lia. apply IH; [lia | done | | lia].
  intros i b Hi. apply H. lia.
Qed.

(** ** Automation *)

(** Case analysis on the first boolean comparison or [if] of the goal. *)
Ltac case_if :=
  match goal with
  | |- context [if ?b then _ else _] => destruct b eqn:?
  end.
(** Turn boolean comparisons on [Z] in the context into propositions. *)
Ltac zbool :=
  repeat match goal with
  | H : (_ =? _) = true |- _ => apply Z.eqb_eq in H
  | H : (_ =? _) = false |- _ => apply Z.eqb_neq in H
  | H : (_ <? _) = true |- _ => apply Z.ltb_lt in H
  | H : (_ <? _) = false |- _ => apply Z.ltb_ge in H
  | H : (_ <=? _) = true |- _ => apply Z.leb_le in H
  | H : (_ <=? _) = false |- _ => apply Z.leb_gt in H
  | H : (_ >=? _) = true |- _ => rewrite Z.geb_leb in H
  | H : (_ >=? _) = false |- _ => rewrite Z.geb_leb in H
  | H : (_ >? _) = true |- _ => rewrite Z.gtb_ltb in H
  | H : (_ >? _) = false |- _ => rewrite Z.gtb_ltb in H
  | H : andb _ _ = true |- _ => apply andb_true_iff in H as [? ?]
  | H : orb _ _ = false |- _ => apply orb_false_iff in H as [? ?]
  | H : negb _ = true |- _ => apply negb_true_iff in H
  | H : negb _ = false |- _ => apply negb_false_iff in H
  end.
(** Split a successful run of a sequence into its steps. *)
Ltac minv :=
  repeat match goal with
  | H : M_bind _ _ _ = Ok _ |- _ =>
      apply bind_inv in H; destruct H as (? & ? & ? & H)
  | H : ret _ _ = Ok _ |- _ => unfold ret in H; simplify_eq
  | H : gets _ _ = Ok _ |- _ => unfold gets in H; simplify_eq
  | H : modify _ _ = Ok _ |- _ => unfold modify in H; simplify_eq
  | H : panic _ _ = Ok _ |- _ => unfold panic in H; discriminate H
  | H : fault _ = Ok _ |- _ => unfold fault in H; discriminate H
  end.

Create HintDb xv6.
#[export] Hint Resolve u32_range u8_range s32_range : xv6.
Create Rewrite HintDb xv6_rw.
#[export] Hint Rewrite @upd_eq : xv6_rw.
