(* ===== verification/Font.v ===== *)
(** * Font: the bitmap font of character.h

    [character[95][18][9]] of src/src/character.h, row by row: glyph [ord] is
    the picture of ASCII code [0x20 + ord], 18 rows of 9 pixels.  The table is
    split in octets of codes.  The initialiser of the glyph of 'C' has only 17
    rows; C fills the missing one with zeros, which [glyph_row] does for any
    missing row or pixel. *)
From S2P Require Import Prelude.

Definition CHARACTER_WIDTH : Z := 9.
Definition CHARACTER_HEIGHT : Z := 18.

(** A row is written as its list of pixels. *)
Definition glyph : Type := list (list Z).

Definition glyphs_20 : list glyph := [
  (* 0x20 space *)
  [
     [0;0;0;0;0;0;0;0;0];
     [0;0;0;0;0;0;0;0;0];
     [0;0;0;0;0;0;0;0;0];
     [0;0;0;0;0;0;0;0;0];
     [0;0;0;0;0;0;0;0;0];
     [0;0;0;0;0;0;0;0;0];
     [0;0;0;0;0;0;0;0;0];
     [0;0;0;0;0;0;0;0;0];
     [0;0;0;0;0;0;0;0;0];
     [0;0;0;0;0;0;0;0;0];
     [0;0;0;0;0;0;0;0;0];
     [0;0;0;0;0;0;0;0;0];
     [0;0;0;0;0;0;0;0;0];
     [0;0;0;0;0;0;0;0;0];
     [0;0;0;0;0;0;0;0;0];
     [0;0;0;0;0;0;0;0;0];
     [0;0;0;0;0;0;0;0;0];
     [0;0;0;0;0;0;0;0;0] ];
  (* 0x21 ! *)
  [
     [0;0;0;0;0;0;0;0;0];
     [0;0;0;0;0;0;0;0;0];
     [0;0;0;0;0;0;0;0;0];
     [0;0;0;0;0;0;0;0;0];
     [0;1;1;0;0;0;0;0;0];
     [0;1;1;0;0;0;0;0;0];
     [0;1;1;0;0;0;0;0;0];
     [0;1;1;0;0;0;0;0;0];
     [0;1;1;0;0;0;0;0;0];
     [0;1;1;0;0;0;0;0;0];
     [0;1;1;0;0;0;0;0;0];
     [0;0;0;0;0;0;0;0;0];
     [0;1;1;0;0;0;0;0;0];
     [0;1;1;0;0;0;0;0;0];
     [0;0;0;0;0;0;0;0;0];
     [0;0;0;0;0;0;0;0;0];
     [0;0;0;0;0;0;0;0;0];
     [0;0;0;0;0;0;0;0;0] ];
  (* 0x22 double quote *)
  [
     [0;0;0;0;0;0;0;0;0];
     [0;0;0;0;0;0;0;0;0];
     [0;0;0;0;0;0;0;0;0];
     [0;0;0;0;0;0;0;0;0];
     [0;1;1;0;1;1;0;0;0];
     [0;1;1;0;1;1;0;0;0];
     [0;1;1;0;1;1;0;0;0];
     [0;0;0;0;0;0;0;0;0];
     [0;0;0;0;0;0;0;0;0];
     [0;0;0;0;0;0;0;0;0];
     [0;0;0;0;0;0;0;0;0];
     [0;0;0;0;0;0;0;0;0];
     [0;0;0;0;0;0;0;0;0];
     [0;0;0;0;0;0;0;0;0];
     [0;0;0;0;0;0;0;0;0];
     [0;0;0;0;0;0;0;0;0];
     [0;0;0;0;0;0;0;0;0];
     [0;0;0;0;0;0;0;0;0] ];
  (* 0x23 # *)
  [
     [0;0;0;0;0;0;0;0;0];
     [0;0;0;0;0;0;0;0;0];
     [0;0;0;0;0;0;0;0;0];
     [0;0;0;0;0;0;0;0;0];
     [0;0;1;1;0;1;1;0;0];
     [0;0;1;1;0;1;1;1;0];
     [0;1;1;1;1;1;1;1;0];
     [0;0;1;1;0;1;1;0;0];
     [0;0;1;1;0;1;1;0;0];
     [0;1;1;1;1;1;1;1;0];
     [0;1;1;1;1;1;1;1;0];
     [0;0;1;1;0;1;1;0;0];
     [0;0;1;1;0;1;1;0;0];
     [0;0;0;0;0;0;0;0;0];
     [0;0;0;0;0;0;0;0;0];
     [0;0;0;0;0;0;0;0;0];
     [0;0;0;0;0;0;0;0;0];
     [0;0;0;0;0;0;0;0;0] ];
  (* 0x24 $ *)
  [
     [0;0;0;0;0;0;0;0;0];
     [0;0;0;0;0;0;0;0;0];
     [0;0;0;0;0;0;0;0;0];
     [0;0;0;1;1;0;0;0;0];
     [0;0;1;1;1;1;0;0;0];
     [0;1;1;1;1;1;1;0;0];
     [0;1;1;1;1;0;0;0;0];
     [0;1;1;1;1;0;0;0;0];
     [0;0;1;1;1;1;0;0;0];
     [0;0;0;1;1;1;1;0;0];
     [0;0;0;1;1;1;1;0;0];
     [0;1;1;1;1;1;1;0;0];
     [0;0;1;1;1;1;0;0;0];
     [0;0;0;1;1;0;0;0;0];
     [0;0;0;0;0;0;0;0;0];
     [0;0;0;0;0;0;0;0;0];
     [0;0;0;0;0;0;0;0;0];
     [0;0;0;0;0;0;0;0;0] ];
  (* 0x25 % *)
  [
     [0;0;0;0;0;0;0;0;0];
     [0;0;0;0;0;0;0;0;0];
     [0;0;0;0;0;0;0;0;0];
     [0;0;0;0;0;0;0;0;0];
     [0;1;1;1;0;0;1;1;0];
     [1;1;0;1;0;1;1;1;0];
     [1;1;0;1;1;1;1;0;0];
     [0;1;0;1;1;1;1;0;0];
     [0;1;1;1;1;1;1;0;0];
     [0;0;0;1;1;1;0;1;0];
     [0;0;0;1;1;1;0;1;1];
     [0;0;1;1;1;1;0;1;1];
     [0;1;1;0;0;1;1;1;0];
     [0;0;0;0;0;0;0;0;0];
     [0;0;0;0;0;0;0;0;0];
     [0;0;0;0;0;0;0;0;0];
     [0;0;0;0;0;0;0;0;0];
     [0;0;0;0;0;0;0;0;0] ];
  (* 0x26 & *)
  [
     [0;0;0;0;0;0;0;0;0];
     [0;0;0;0;0;0;0;0;0];
     [0;0;0;0;0;0;0;0;0];
     [0;0;0;0;0;0;0;0;0];
     [0;0;1;1;1;0;0;0;0];
     [0;1;1;0;1;1;0;0;0];
     [1;1;0;1;1;0;1;1;0];
     [0;1;1;1;0;0;1;1;0];
     [1;1;1;1;1;0;1;1;0];
     [1;1;0;0;1;1;1;1;0];
     [1;1;0;0;0;1;1;1;0];
     [1;1;0;0;0;1;1;1;0];
     [0;1;1;1;1;1;0;1;1];
     [0;0;0;0;0;0;0;0;0];
     [0;0;0;0;0;0;0;0;0];
     [0;0;0;0;0;0;0;0;0];
     [0;0;0;0;0;0;0;0;0];
     [0;0;0;0;0;0;0;0;0] ];
  (* 0x27 quote *)
  [
     [0;0;0;0;0;0;0;0;0];
     [0;0;0;0;0;0;0;0;0];
     [0;0;0;0;0;0;0;0;0];
     [0;0;0;0;0;0;0;0;0];
     [0;1;1;0;0;0;0;0;0];
     [0;1;1;0;0;0;0;0;0];
     [0;1;1;0;0;0;0;0;0];
     [0;0;0;0;0;0;0;0;0];
     [0;0;0;0;0;0;0;0;0];
     [0;0;0;0;0;0;0;0;0];
     [0;0;0;0;0;0;0;0;0];
     [0;0;0;0;0;0;0;0;0];
     [0;0;0;0;0;0;0;0;0];
     [0;0;0;0;0;0;0;0;0];
     [0;0;0;0;0;0;0;0;0];
     [0;0;0;0;0;0;0;0;0];
     [0;0;0;0;0;0;0;0;0];
     [0;0;0;0;0;0;0;0;0] ]].

Definition glyphs_28 : list glyph := [
  (* 0x28 open parenthesis *)
  [
     [0;0;0;0;0;0;0;0;0];
     [0;0;0;0;0;0;0;0;0];
     [0;0;0;0;0;0;0;0;0];
     [0;0;0;0;0;0;0;0;0];
     [0;0;0;1;1;0;0;0;0];
     [0;0;1;1;0;0;0;0;0];
     [0;0;1;1;0;0;0;0;0];
     [0;1;1;0;0;0;0;0;0];
     [0;1;1;0;0;0;0;0;0];
     [0;1;1;0;0;0;0;0;0];
     [0;1;1;0;0;0;0;0;0];
     [0;1;1;0;0;0;0;0;0];
     [0;1;1;1;0;0;0;0;0];
     [0;0;1;1;0;0;0;0;0];
     [0;0;0;1;1;0;0;0;0];
     [0;0;0;0;0;0;0;0;0];
     [0;0;0;0;0;0;0;0;0];
     [0;0;0;0;0;0;0;0;0] ];
  (* 0x29 close parenthesis *)
  [
     [0;0;0;0;0;0;0;0;0];
     [0;0;0;0;0;0;0;0;0];
     [0;0;0;0;0;0;0;0;0];
     [0;0;0;0;0;0;0;0;0];
     [1;1;0;0;0;0;0;0;0];
     [0;1;1;0;0;0;0;0;0];
     [0;1;1;0;0;0;0;0;0];
     [0;0;1;1;0;0;0;0;0];
     [0;0;1;1;0;0;0;0;0];
     [0;0;1;1;0;0;0;0;0];
     [0;0;1;1;0;0;0;0;0];
     [0;0;1;1;0;0;0;0;0];
     [0;1;1;1;0;0;0;0;0];
     [0;1;1;0;0;0;0;0;0];
     [1;1;0;0;0;0;0;0;0];
     [0;0;0;0;0;0;0;0;0];
     [0;0;0;0;0;0;0;0;0];
     [0;0;0;0;0;0;0;0;0] ];
  (* 0x2a star *)
  [
     [0;0;0;0;0;0;0;0;0];
     [0;0;0;0;0;0;0;0;0];
     [0;0;0;0;0;0;0;0;0];
     [0;0;1;1;0;0;0;0;0];
     [0;0;1;1;0;0;0;0;0];
     [1;1;1;1;1;1;0;0;0];
     [0;0;1;1;0;0;0;0;0];
     [0;1;1;1;1;0;0;0;0];
     [0;1;0;0;1;0;0;0;0];
     [0;0;0;0;0;0;0;0;0];
     [0;0;0;0;0;0;0;0;0];
     [0;0;0;0;0;0;0;0;0];
     [0;0;0;0;0;0;0;0;0];
     [0;0;0;0;0;0;0;0;0];
     [0;0;0;0;0;0;0;0;0];
     [0;0;0;0;0;0;0;0;0];
     [0;0;0;0;0;0;0;0;0];
     [0;0;0;0;0;0;0;0;0] ];
  (* 0x2b + *)
  [
     [0;0;0;0;0;0;0;0;0];
     [0;0;0;0;0;0;0;0;0];
     [0;0;0;0;0;0;0;0;0];
     [0;0;0;0;0;0;0;0;0];
     [0;0;0;0;0;0;0;0;0];
     [0;0;0;0;0;0;0;0;0];
     [0;0;0;0;1;1;0;0;0];
     [0;0;0;0;1;1;0;0;0];
     [0;0;0;0;1;1;0;0;0];
     [0;1;1;1;1;1;1;1;1];
     [0;0;0;0;1;1;0;0;0];
     [0;0;0;0;1;1;0;0;0];
     [0;0;0;0;1;1;0;0;0];
     [0;0;0;0;0;0;0;0;0];
     [0;0;0;0;0;0;0;0;0];
     [0;0;0;0;0;0;0;0;0];
     [0;0;0;0;0;0;0;0;0];
     [0;0;0;0;0;0;0;0;0] ];
  (* 0x2c , *)
  [
     [0;0;0;0;0;0;0;0;0];
     [0;0;0;0;0;0;0;0;0];
     [0;0;0;0;0;0;0;0;0];
     [0;0;0;0;0;0;0;0;0];
     [0;0;0;0;0;0;0;0;0];
     [0;0;0;0;0;0;0;0;0];
     [0;0;0;0;0;0;0;0;0];
     [0;0;0;0;0;0;0;0;0];
     [0;0;0;0;0;0;0;0;0];
     [0;0;0;0;0;0;0;0;0];
     [0;0;0;0;0;0;0;0;0];
     [0;0;0;0;0;0;0;0;0];
     [0;0;1;1;0;0;0;0;0];
     [0;1;1;1;0;0;0;0;0];
     [0;1;1;0;0;0;0;0;0];
     [0;0;0;0;0;0;0;0;0];
     [0;0;0;0;0;0;0;0;0];
     [0;0;0;0;0;0;0;0;0] ];
  (* 0x2d - *)
  [
     [0;0;0;0;0;0;0;0;0];
     [0;0;0;0;0;0;0;0;0];
     [0;0;0;0;0;0;0;0;0];
     [0;0;0;0;0;0;0;0;0];
     [0;0;0;0;0;0;0;0;0];
     [0;0;0;0;0;0;0;0;0];
     [0;0;0;0;0;0;0;0;0];
     [0;0;0;0;0;0;0;0;0];
     [0;1;1;1;1;0;0;0;0];
     [0;1;1;1;1;0;0;0;0];
     [0;0;0;0;0;0;0;0;0];
     [0;0;0;0;0;0;0;0;0];
     [0;0;0;0;0;0;0;0;0];
     [0;0;0;0;0;0;0;0;0];
     [0;0;0;0;0;0;0;0;0];
     [0;0;0;0;0;0;0;0;0];
     [0;0;0;0;0;0;0;0;0];
     [0;0;0;0;0;0;0;0;0] ];
  (* 0x2e . *)
  [
     [0;0;0;0;0;0;0;0;0];
     [0;0;0;0;0;0;0;0;0];
     [0;0;0;0;0;0;0;0;0];
     [0;0;0;0;0;0;0;0;0];
     [0;0;0;0;0;0;0;0;0];
     [0;0;0;0;0;0;0;0;0];
     [0;0;0;0;0;0;0;0;0];
     [0;0;0;0;0;0;0;0;0];
     [0;0;0;0;0;0;0;0;0];
     [0;0;0;0;0;0;0;0;0];
     [0;0;0;0;0;0;0;0;0];
     [0;1;1;0;0;0;0;0;0];
     [0;1;1;0;0;0;0;0;0];
     [0;0;0;0;0;0;0;0;0];
     [0;0;0;0;0;0;0;0;0];
     [0;0;0;0;0;0;0;0;0];
     [0;0;0;0;0;0;0;0;0];
     [0;0;0;0;0;0;0;0;0] ];
  (* 0x2f / *)
  [
     [0;0;0;0;0;0;0;0;0];
     [0;0;0;0;0;0;0;0;0];
     [0;0;0;0;0;0;0;0;0];
     [0;0;0;0;0;0;0;0;0];
     [0;0;0;0;0;1;1;0;0];
     [0;0;0;0;1;1;0;0;0];
     [0;0;0;0;1;1;0;0;0];
     [0;0;0;0;1;1;0;0;0];
     [0;0;0;1;1;0;0;0;0];
     [0;0;0;1;1;0;0;0;0];
     [0;0;0;1;1;0;0;0;0];
     [0;0;1;1;0;0;0;0;0];
     [0;0;1;1;0;0;0;0;0];
     [0;0;1;1;0;0;0;0;0];
     [0;1;1;0;0;0;0;0;0];
     [0;0;0;0;0;0;0;0;0];
     [0;0;0;0;0;0;0;0;0];
     [0;0;0;0;0;0;0;0;0] ]].

Definition glyphs_30 : list glyph := [
  (* 0x30 0 *)
  [
     [0;0;0;0;0;0;0;0;0];
     [0;0;0;0;0;0;0;0;0];
     [0;0;0;0;0;0;0;0;0];
     [0;0;0;0;0;0;0;0;0];
     [0;0;1;1;1;1;0;0;0];
     [0;1;1;1;1;1;1;0;0];
     [0;1;1;0;0;1;1;0;0];
     [0;1;1;0;0;1;1;0;0];
     [0;1;1;0;0;1;1;0;0];
     [0;1;1;0;0;1;1;0;0];
     [0;1;1;0;0;1;1;0;0];
     [0;1;1;1;1;1;1;0;0];
     [0;0;1;1;1;1;0;0;0];
     [0;0;0;0;0;0;0;0;0];
     [0;0;0;0;0;0;0;0;0];
     [0;0;0;0;0;0;0;0;0];
     [0;0;0;0;0;0;0;0;0];
     [0;0;0;0;0;0;0;0;0] ];
  (* 0x31 1 *)
  [
     [0;0;0;0;0;0;0;0;0];
     [0;0;0;0;0;0;0;0;0];
     [0;0;0;0;0;0;0;0;0];
     [0;0;0;0;0;0;0;0;0];
     [0;0;1;1;1;0;0;0;0];
     [0;1;1;1;1;0;0;0;0];
     [0;0;0;1;1;0;0;0;0];
     [0;0;0;1;1;0;0;0;0];
     [0;0;0;1;1;0;0;0;0];
     [0;0;0;1;1;0;0;0;0];
     [0;0;0;1;1;0;0;0;0];
     [0;0;0;1;1;0;0;0;0];
     [0;1;1;1;1;1;1;0;0];
     [0;0;0;0;0;0;0;0;0];
     [0;0;0;0;0;0;0;0;0];
     [0;0;0;0;0;0;0;0;0];
     [0;0;0;0;0;0;0;0;0];
     [0;0;0;0;0;0;0;0;0] ];
  (* 0x32 2 *)
  [
     [0;0;0;0;0;0;0;0;0];
     [0;0;0;0;0;0;0;0;0];
     [0;0;0;0;0;0;0;0;0];
     [0;0;0;0;0;0;0;0;0];
     [0;0;1;1;1;1;0;0;0];
     [0;1;1;0;0;1;1;0;0];
     [0;0;0;0;0;1;1;0;0];
     [0;0;0;0;0;1;1;0;0];
     [0;0;0;0;1;1;0;0;0];
     [0;0;0;1;1;1;0;0;0];
     [0;0;1;1;1;0;0;0;0];
     [0;0;1;1;0;0;0;0;0];
     [0;1;1;1;1;1;1;0;0];
     [0;0;0;0;0;0;0;0;0];
     [0;0;0;0;0;0;0;0;0];
     [0;0;0;0;0;0;0;0;0];
     [0;0;0;0;0;0;0;0;0];
     [0;0;0;0;0;0;0;0;0] ];
  (* 0x33 3 *)
  [
     [0;0;0;0;0;0;0;0;0];
     [0;0;0;0;0;0;0;0;0];
     [0;0;0;0;0;0;0;0;0];
     [0;0;0;0;0;0;0;0;0];
     [0;0;1;1;1;1;0;0;0];
     [0;1;1;0;0;1;1;0;0];
     [0;0;0;0;0;1;1;0;0];
     [0;0;0;0;0;1;1;0;0];
     [0;0;1;1;1;1;0;0;0];
     [0;0;0;0;0;1;1;0;0];
     [0;0;0;0;0;1;1;0;0];
     [0;1;1;0;0;1;1;0;0];
     [0;0;1;1;1;1;0;0;0];
     [0;0;0;0;0;0;0;0;0];
     [0;0;0;0;0;0;0;0;0];
     [0;0;0;0;0;0;0;0;0];
     [0;0;0;0;0;0;0;0;0];
     [0;0;0;0;0;0;0;0;0] ];
  (* 0x34 4 *)
  [
     [0;0;0;0;0;0;0;0;0];
     [0;0;0;0;0;0;0;0;0];
     [0;0;0;0;0;0;0;0;0];
     [0;0;0;0;0;0;0;0;0];
     [0;0;0;0;1;1;0;0;0];
     [0;0;0;1;1;1;0;0;0];
     [0;0;1;1;1;1;0;0;0];
     [0;0;1;1;1;1;0;0;0];
     [0;1;1;0;1;1;0;0;0];
     [1;1;0;0;1;1;0;0;0];
     [1;1;1;1;1;1;1;0;0];
     [0;0;0;0;1;1;0;0;0];
     [0;0;0;0;1;1;0;0;0];
     [0;0;0;0;1;1;0;0;0];
     [0;0;0;0;0;0;0;0;0];
     [0;0;0;0;0;0;0;0;0];
     [0;0;0;0;0;0;0;0;0];
     [0;0;0;0;0;0;0;0;0] ];
  (* 0x35 5 *)
  [
     [0;0;0;0;0;0;0;0;0];
     [0;0;0;0;0;0;0;0;0];
     [0;0;0;0;0;0;0;0;0];
     [0;0;0;0;0;0;0;0;0];
     [0;1;1;1;1;1;1;0;0];
     [0;1;1;0;0;0;0;0;0];
     [0;1;1;0;0;0;0;0;0];
     [0;1;1;1;1;1;0;0;0];
     [0;0;0;0;1;1;1;0;0];
     [0;0;0;0;0;1;1;0;0];
     [0;0;0;0;0;1;1;0;0];
     [0;1;1;0;1;1;1;0;0];
     [0;0;1;1;1;1;0;0;0];
     [0;0;0;0;0;0;0;0;0];
     [0;0;0;0;0;0;0;0;0];
     [0;0;0;0;0;0;0;0;0];
     [0;0;0;0;0;0;0;0;0];
     [0;0;0;0;0;0;0;0;0] ];
  (* 0x36 6 *)
  [
     [0;0;0;0;0;0;0;0;0];
     [0;0;0;0;0;0;0;0;0];
     [0;0;0;0;0;0;0;0;0];
     [0;0;0;1;1;1;1;0;0];
     [0;0;1;1;1;1;0;0;0];
     [0;1;1;1;0;0;0;0;0];
     [0;1;1;0;0;0;0;0;0];
     [0;1;1;1;1;1;0;0;0];
     [0;1;1;0;0;1;1;0;0];
     [0;1;1;0;0;1;1;0;0];
     [0;1;1;0;0;1;1;0;0];
     [0;1;1;1;0;1;1;0;0];
     [0;0;1;1;1;1;0;0;0];
     [0;0;0;0;0;0;0;0;0];
     [0;0;0;0;0;0;0;0;0];
     [0;0;0;0;0;0;0;0;0];
     [0;0;0;0;0;0;0;0;0];
     [0;0;0;0;0;0;0;0;0] ];
  (* 0x37 7 *)
  [
     [0;0;0;0;0;0;0;0;0];
     [0;0;0;0;0;0;0;0;0];
     [0;0;0;0;0;0;0;0;0];
     [0;0;0;0;0;0;0;0;0];
     [0;1;1;1;1;1;1;0;0];
     [0;1;0;0;0;1;1;0;0];
     [0;0;0;0;1;1;1;0;0];
     [0;0;0;0;1;1;0;0;0];
     [0;0;0;0;1;1;0;0;0];
     [0;0;0;1;1;0;0;0;0];
     [0;0;0;1;1;0;0;0;0];
     [0;0;0;1;1;0;0;0;0];
     [0;0;1;1;0;0;0;0;0];
     [0;0;0;0;0;0;0;0;0];
     [0;0;0;0;0;0;0;0;0];
     [0;0;0;0;0;0;0;0;0];
     [0;0;0;0;0;0;0;0;0];
     [0;0;0;0;0;0;0;0;0] ]].

Definition glyphs_38 : list glyph := [
  (* 0x38 8 *)
  [
     [0;0;0;0;0;0;0;0;0];
     [0;0;0;0;0;0;0;0;0];
     [0;0;0;0;0;0;0;0;0];
     [0;0;1;1;1;1;0;0;0];
     [0;1;1;0;0;1;1;0;0];
     [0;1;1;0;0;1;1;0;0];
     [0;1;1;0;0;1;1;0;0];
     [0;1;1;1;1;1;0;0;0];
     [0;0;1;1;1;1;0;0;0];
     [0;1;1;0;0;1;1;0;0];
     [0;1;1;0;0;1;1;0;0];
     [0;1;1;0;0;1;1;0;0];
     [0;0;1;1;1;1;0;0;0];
     [0;0;0;0;0;0;0;0;0];
     [0;0;0;0;0;0;0;0;0];
     [0;0;0;0;0;0;0;0;0];
     [0;0;0;0;0;0;0;0;0];
     [0;0;0;0;0;0;0;0;0] ];
  (* 0x39 9 *)
  [
     [0;0;0;0;0;0;0;0;0];
     [0;0;0;0;0;0;0;0;0];
     [0;0;0;0;0;0;0;0;0];
     [0;0;0;0;0;0;0;0;0];
     [0;0;1;1;1;1;0;0;0];
     [0;1;1;0;1;1;1;0;0];
     [0;1;1;0;0;1;1;0;0];
     [0;1;1;0;0;1;1;0;0];
     [0;1;1;0;0;1;1;0;0];
     [0;0;1;1;1;1;1;0;0];
     [0;0;0;0;0;1;1;0;0];
     [0;0;0;0;0;1;1;0;0];
     [0;0;0;1;1;1;0;0;0];
     [0;1;1;1;1;0;0;0;0];
     [0;0;0;0;0;0;0;0;0];
     [0;0;0;0;0;0;0;0;0];
     [0;0;0;0;0;0;0;0;0];
     [0;0;0;0;0;0;0;0;0] ];
  (* 0x3a : *)
  [
     [0;0;0;0;0;0;0;0;0];
     [0;0;0;0;0;0;0;0;0];
     [0;0;0;0;0;0;0;0;0];
     [0;0;0;0;0;0;0;0;0];
     [0;0;0;0;0;0;0;0;0];
     [0;0;0;0;0;0;0;0;0];
     [0;0;0;0;0;0;0;0;0];
     [0;1;1;0;0;0;0;0;0];
     [0;1;1;0;0;0;0;0;0];
     [0;0;0;0;0;0;0;0;0];
     [0;0;0;0;0;0;0;0;0];
     [0;1;1;0;0;0;0;0;0];
     [0;1;1;0;0;0;0;0;0];
     [0;0;0;0;0;0;0;0;0];
     [0;0;0;0;0;0;0;0;0];
     [0;0;0;0;0;0;0;0;0];
     [0;0;0;0;0;0;0;0;0];
     [0;0;0;0;0;0;0;0;0] ];
  (* 0x3b ; *)
  [
     [0;0;0;0;0;0;0;0;0];
     [0;0;0;0;0;0;0;0;0];
     [0;0;0;0;0;0;0;0;0];
     [0;0;0;0;0;0;0;0;0];
     [0;0;0;0;0;0;0;0;0];
     [0;0;0;0;0;0;0;0;0];
     [0;0;0;0;0;0;0;0;0];
     [0;1;1;0;0;0;0;0;0];
     [0;1;1;0;0;0;0;0;0];
     [0;0;0;0;0;0;0;0;0];
     [0;0;0;0;0;0;0;0;0];
     [0;0;0;0;0;0;0;0;0];
     [0;0;1;0;0;0;0;0;0];
     [0;1;1;0;0;0;0;0;0];
     [0;1;1;0;0;0;0;0;0];
     [1;0;0;0;0;0;0;0;0];
     [0;0;0;0;0;0;0;0;0];
     [0;0;0;0;0;0;0;0;0] ];
  (* 0x3c < *)
  [
     [0;0;0;0;0;0;0;0;0];
     [0;0;0;0;0;0;0;0;0];
     [0;0;0;0;0;0;0;0;0];
     [0;0;0;0;0;0;0;0;0];
     [0;0;0;0;0;0;0;0;0];
     [0;0;0;0;0;0;1;0;0];
     [0;0;0;0;0;1;1;0;0];
     [0;0;0;0;1;1;0;0;0];
     [0;0;0;1;1;0;0;0;0];
     [0;0;1;1;0;0;0;0;0];
     [0;0;0;1;1;0;0;0;0];
     [0;0;0;0;1;1;0;0;0];
     [0;0;0;0;0;1;1;0;0];
     [0;0;0;0;0;0;1;0;0];
     [0;0;0;0;0;0;0;0;0];
     [0;0;0;0;0;0;0;0;0];
     [0;0;0;0;0;0;0;0;0];
     [0;0;0;0;0;0;0;0;0] ];
  (* 0x3d = *)
  [
     [0;0;0;0;0;0;0;0;0];
     [0;0;0;0;0;0;0;0;0];
     [0;0;0;0;0;0;0;0;0];
     [0;0;0;0;0;0;0;0;0];
     [0;0;0;0;0;0;0;0;0];
     [0;0;0;0;0;0;0;0;0];
     [0;0;0;0;0;0;0;0;0];
     [0;1;1;1;1;1;1;1;0];
     [0;0;0;0;0;0;0;0;0];
     [0;0;0;0;0;0;0;0;0];
     [0;1;1;1;1;1;1;1;0];
     [0;0;0;0;0;0;0;0;0];
     [0;0;0;0;0;0;0;0;0];
     [0;0;0;0;0;0;0;0;0];
     [0;0;0;0;0;0;0;0;0];
     [0;0;0;0;0;0;0;0;0];
     [0;0;0;0;0;0;0;0;0];
     [0;0;0;0;0;0;0;0;0] ];
  (* 0x3e > *)
  [
     [0;0;0;0;0;0;0;0;0];
     [0;0;0;0;0;0;0;0;0];
     [0;0;0;0;0;0;0;0;0];
     [0;0;0;0;0;0;0;0;0];
     [0;0;0;0;0;0;0;0;0];
     [0;0;1;0;0;0;0;0;0];
     [0;0;0;1;1;0;0;0;0];
     [0;0;0;0;1;1;0;0;0];
     [0;0;0;0;0;1;1;0;0];
     [0;0;0;0;0;0;1;1;0];
     [0;0;0;0;0;1;1;0;0];
     [0;0;0;0;1;1;0;0;0];
     [0;0;0;1;1;0;0;0;0];
     [0;0;1;0;0;0;0;0;0];
     [0;0;0;0;0;0;0;0;0];
     [0;0;0;0;0;0;0;0;0];
     [0;0;0;0;0;0;0;0;0];
     [0;0;0;0;0;0;0;0;0] ];
  (* 0x3f ? *)
  [
     [0;0;0;0;0;0;0;0;0];
     [0;0;0;0;0;0;0;0;0];
     [0;0;0;0;0;0;0;0;0];
     [0;0;1;1;1;1;0;0;0];
     [0;1;1;1;1;1;1;0;0];
     [0;1;1;0;0;1;1;0;0];
     [0;0;0;0;0;1;1;0;0];
     [0;0;0;0;0;1;1;0;0];
     [0;0;0;0;1;1;0;0;0];
     [0;0;0;1;1;0;0;0;0];
     [0;0;0;1;1;0;0;0;0];
     [0;0;0;0;0;0;0;0;0];
     [0;0;0;1;1;0;0;0;0];
     [0;0;0;1;1;0;0;0;0];
     [0;0;0;0;0;0;0;0;0];
     [0;0;0;0;0;0;0;0;0];
     [0;0;0;0;0;0;0;0;0];
     [0;0;0;0;0;0;0;0;0] ]].

Definition glyphs_40 : list glyph := [
  (* 0x40 @ *)
  [
     [0;0;0;0;0;0;0;0;0];
     [0;0;0;0;0;0;0;0;0];
     [0;0;0;0;0;0;0;0;0];
     [0;0;0;0;0;0;0;0;0];
     [0;0;1;1;1;1;1;1;0];
     [1;1;1;0;0;0;1;1;1];
     [1;1;1;1;1;1;1;1;1];
     [1;1;1;1;0;1;1;0;1];
     [1;1;1;0;0;1;1;0;1];
     [1;1;1;0;0;1;1;0;1];
     [1;1;1;0;1;1;1;0;1];
     [1;1;1;1;1;1;1;1;1];
     [1;1;1;0;0;0;0;0;0];
     [0;0;1;1;1;1;1;1;0];
     [0;0;0;0;0;0;0;0;0];
     [0;0;0;0;0;0;0;0;0];
     [0;0;0;0;0;0;0;0;0];
     [0;0;0;0;0;0;0;0;0] ];
  (* 0x41 A *)
  [
     [0;0;0;0;0;0;0;0;0];
     [0;0;0;0;0;0;0;0;0];
     [0;0;0;0;0;0;0;0;0];
     [0;0;0;0;0;0;0;0;0];
     [0;0;0;0;1;1;0;0;0];
     [0;0;0;1;1;1;1;0;0];
     [0;0;0;1;1;1;1;0;0];
     [0;0;0;1;1;1;1;0;0];
     [0;0;1;1;0;0;1;1;0];
     [0;0;1;1;0;0;1;1;0];
     [0;1;1;1;1;1;1;1;1];
     [0;1;1;0;0;0;1;1;1];
     [0;1;0;0;0;0;0;1;1];
     [0;0;0;0;0;0;0;0;0];
     [0;0;0;0;0;0;0;0;0];
     [0;0;0;0;0;0;0;0;0];
     [0;0;0;0;0;0;0;0;0];
     [0;0;0;0;0;0;0;0;0] ];
  (* 0x42 B *)
  [
     [0;0;0;0;0;0;0;0;0];
     [0;0;0;0;0;0;0;0;0];
     [0;0;0;0;0;0;0;0;0];
     [0;0;0;0;0;0;0;0;0];
     [0;1;1;1;1;1;0;0;0];
     [0;1;1;0;0;1;1;0;0];
     [0;1;1;0;0;1;1;0;0];
     [0;1;1;0;0;1;1;0;0];
     [0;1;1;1;1;1;0;0;0];
     [0;1;1;0;0;1;1;0;0];
     [0;1;1;0;0;1;1;0;0];
     [0;1;1;0;0;1;1;0;0];
     [0;1;1;1;1;1;0;0;0];
     [0;0;0;0;0;0;0;0;0];
     [0;0;0;0;0;0;0;0;0];
     [0;0;0;0;0;0;0;0;0];
     [0;0;0;0;0;0;0;0;0];
     [0;0;0;0;0;0;0;0;0] ];
  (* 0x43 C *)
  [
     [0;0;0;0;0;0;0;0;0];
     [0;0;0;0;0;0;0;0;0];
     [0;0;0;0;0;0;0;0;0];
     [0;0;0;0;0;0;0;0;0];
     [0;0;0;1;1;1;1;0;0];
     [0;0;1;1;0;0;1;1;0];
     [0;1;1;0;0;0;0;0;0];
     [0;1;1;0;0;0;0;0;0];
     [0;1;1;0;0;0;0;0;0];
     [0;1;1;0;0;0;0;0;0];
     [0;1;1;0;0;0;0;0;0];
     [0;0;1;1;0;0;1;1;0];
     [0;0;0;1;1;1;1;0;0];
     [0;0;0;0;0;0;0;0;0];
     [0;0;0;0;0;0;0;0;0];
     [0;0;0;0;0;0;0;0;0];
     [0;0;0;0;0;0;0;0;0] ];
  (* 0x44 D *)
  [
     [0;0;0;0;0;0;0;0;0];
     [0;0;0;0;0;0;0;0;0];
     [0;0;0;0;0;0;0;0;0];
     [0;0;0;0;0;0;0;0;0];
     [0;1;1;1;1;1;1;0;0];
     [0;1;1;0;0;1;1;1;0];
     [0;1;1;0;0;0;0;1;1];
     [0;1;1;0;0;0;0;1;1];
     [0;1;1;0;0;0;0;1;1];
     [0;1;1;0;0;0;0;1;1];
     [0;1;1;0;0;0;0;1;1];
     [0;1;1;0;0;0;1;1;0];
     [0;1;1;1;1;1;1;0;0];
     [0;0;0;0;0;0;0;0;0];
     [0;0;0;0;0;0;0;0;0];
     [0;0;0;0;0;0;0;0;0];
     [0;0;0;0;0;0;0;0;0];
     [0;0;0;0;0;0;0;0;0] ];
  (* 0x45 E *)
  [
     [0;0;0;0;0;0;0;0;0];
     [0;0;0;0;0;0;0;0;0];
     [0;0;0;0;0;0;0;0;0];
     [0;0;0;0;0;0;0;0;0];
     [0;1;1;1;1;1;1;0;0];
     [0;1;1;0;0;0;0;0;0];
     [0;1;1;0;0;0;0;0;0];
     [0;1;1;0;0;0;0;0;0];
     [0;1;1;1;1;1;1;0;0];
     [0;1;1;0;0;0;0;0;0];
     [0;1;1;0;0;0;0;0;0];
     [0;1;1;0;0;0;0;0;0];
     [0;1;1;1;1;1;1;0;0];
     [0;0;0;0;0;0;0;0;0];
     [0;0;0;0;0;0;0;0;0];
     [0;0;0;0;0;0;0;0;0];
     [0;0;0;0;0;0;0;0;0];
     [0;0;0;0;0;0;0;0;0] ];
  (* 0x46 F *)
  [
     [0;0;0;0;0;0;0;0;0];
     [0;0;0;0;0;0;0;0;0];
     [0;0;0;0;0;0;0;0;0];
     [0;0;0;0;0;0;0;0;0];
     [0;1;1;1;1;1;1;0;0];
     [0;1;1;0;0;0;1;0;0];
     [0;1;1;0;0;0;0;0;0];
     [0;1;1;0;0;0;0;0;0];
     [0;1;1;1;1;1;0;0;0];
     [0;1;1;0;0;0;0;0;0];
     [0;1;1;0;0;0;0;0;0];
     [0;1;1;0;0;0;0;0;0];
     [0;1;1;0;0;0;0;0;0];
     [0;0;0;0;0;0;0;0;0];
     [0;0;0;0;0;0;0;0;0];
     [0;0;0;0;0;0;0;0;0];
     [0;0;0;0;0;0;0;0;0];
     [0;0;0;0;0;0;0;0;0] ];
  (* 0x47 G *)
  [
     [0;0;0;0;0;0;0;0;0];
     [0;0;0;0;0;0;0;0;0];
     [0;0;0;0;0;0;0;0;0];
     [0;0;0;0;0;0;0;0;0];
     [0;0;0;1;1;1;1;0;0];
     [0;0;1;1;1;0;0;1;0];
     [0;1;1;0;0;0;0;0;0];
     [0;1;1;0;0;0;0;0;0];
     [0;1;1;0;0;1;1;1;0];
     [0;1;1;0;0;0;1;1;0];
     [0;1;1;0;0;0;1;1;0];
     [0;0;1;1;1;0;1;1;0];
     [0;0;0;1;1;1;1;0;0];
     [0;0;0;0;0;0;0;0;0];
     [0;0;0;0;0;0;0;0;0];
     [0;0;0;0;0;0;0;0;0];
     [0;0;0;0;0;0;0;0;0];
     [0;0;0;0;0;0;0;0;0] ]].

Definition glyphs_48 : list glyph := [
  (* 0x48 H *)
  [
     [0;0;0;0;0;0;0;0;0];
     [0;0;0;0;0;0;0;0;0];
     [0;0;0;0;0;0;0;0;0];
     [0;0;0;0;0;0;0;0;0];
     [0;1;1;0;0;0;1;1;0];
     [0;1;1;0;0;0;1;1;0];
     [0;1;1;0;0;0;1;1;0];
     [0;1;1;0;0;0;1;1;0];
     [0;1;1;1;1;1;1;1;0];
     [0;1;1;0;0;0;1;1;0];
     [0;1;1;0;0;0;1;1;0];
     [0;1;1;0;0;0;1;1;0];
     [0;1;1;0;0;0;1;1;0];
     [0;0;0;0;0;0;0;0;0];
     [0;0;0;0;0;0;0;0;0];
     [0;0;0;0;0;0;0;0;0];
     [0;0;0;0;0;0;0;0;0];
     [0;0;0;0;0;0;0;0;0] ];
  (* 0x49 I *)
  [
     [0;0;0;0;0;0;0;0;0];
     [0;0;0;0;0;0;0;0;0];
     [0;0;0;0;0;0;0;0;0];
     [0;0;0;0;0;0;0;0;0];
     [0;0;1;1;1;1;0;0;0];
     [0;0;0;1;1;0;0;0;0];
     [0;0;0;1;1;0;0;0;0];
     [0;0;0;1;1;0;0;0;0];
     [0;0;0;1;1;0;0;0;0];
     [0;0;0;1;1;0;0;0;0];
     [0;0;0;1;1;0;0;0;0];
     [0;0;0;1;1;0;0;0;0];
     [0;0;1;1;1;1;0;0;0];
     [0;0;0;0;0;0;0;0;0];
     [0;0;0;0;0;0;0;0;0];
     [0;0;0;0;0;0;0;0;0];
     [0;0;0;0;0;0;0;0;0];
     [0;0;0;0;0;0;0;0;0] ];
  (* 0x4a J *)
  [
     [0;0;0;0;0;0;0;0;0];
     [0;0;0;0;0;0;0;0;0];
     [0;0;0;0;0;0;0;0;0];
     [0;0;0;0;0;0;0;0;0];
     [0;0;1;1;1;1;0;0;0];
     [0;0;0;1;1;0;0;0;0];
     [0;0;0;1;1;0;0;0;0];
     [0;0;0;1;1;0;0;0;0];
     [0;0;0;1;1;0;0;0;0];
     [0;0;0;1;1;0;0;0;0];
     [0;0;0;1;1;0;0;0;0];
     [1;0;0;1;1;0;0;0;0];
     [0;1;1;1;0;0;0;0;0];
     [0;0;0;0;0;0;0;0;0];
     [0;0;0;0;0;0;0;0;0];
     [0;0;0;0;0;0;0;0;0];
     [0;0;0;0;0;0;0;0;0];
     [0;0;0;0;0;0;0;0;0] ];
  (* 0x4b K *)
  [
     [0;0;0;0;0;0;0;0;0];
     [0;0;0;0;0;0;0;0;0];
     [0;0;0;0;0;0;0;0;0];
     [0;0;0;0;0;0;0;0;0];
     [0;1;1;0;0;0;1;1;1];
     [0;1;1;0;0;1;1;1;0];
     [0;1;1;0;1;1;1;0;0];
     [0;1;1;1;1;1;0;0;0];
     [0;1;1;1;1;0;0;0;0];
     [0;1;1;1;1;1;0;0;0];
     [0;1;1;0;1;1;1;0;0];
     [0;1;1;0;0;1;1;1;0];
     [0;1;1;0;0;0;1;1;1];
     [0;0;0;0;0;0;0;0;0];
     [0;0;0;0;0;0;0;0;0];
     [0;0;0;0;0;0;0;0;0];
     [0;0;0;0;0;0;0;0;0];
     [0;0;0;0;0;0;0;0;0] ];
  (* 0x4c L *)
  [
     [0;0;0;0;0;0;0;0;0];
     [0;0;0;0;0;0;0;0;0];
     [0;0;0;0;0;0;0;0;0];
     [0;0;0;0;0;0;0;0;0];
     [0;1;1;0;0;0;0;0;0];
     [0;1;1;0;0;0;0;0;0];
     [0;1;1;0;0;0;0;0;0];
     [0;1;1;0;0;0;0;0;0];
     [0;1;1;0;0;0;0;0;0];
     [0;1;1;0;0;0;0;0;0];
     [0;1;1;0;0;0;0;0;0];
     [0;1;1;0;0;0;0;0;0];
     [0;1;1;1;1;1;1;0;0];
     [0;0;0;0;0;0;0;0;0];
     [0;0;0;0;0;0;0;0;0];
     [0;0;0;0;0;0;0;0;0];
     [0;0;0;0;0;0;0;0;0];
     [0;0;0;0;0;0;0;0;0] ];
  (* 0x4d M *)
  [
     [0;0;0;0;0;0;0;0;0];
     [0;0;0;0;0;0;0;0;0];
     [0;0;0;0;0;0;0;0;0];
     [0;0;0;0;0;0;0;0;0];
     [0;1;1;0;0;0;1;1;0];
     [0;1;1;0;0;0;1;1;0];
     [0;1;1;1;0;1;1;1;0];
     [0;1;1;1;0;1;1;1;0];
     [0;1;1;1;1;1;1;1;0];
     [0;1;1;0;1;0;1;1;0];
     [0;1;1;0;0;0;1;1;0];
     [0;1;1;0;0;0;1;1;0];
     [0;1;1;0;0;0;1;1;0];
     [0;0;0;0;0;0;0;0;0];
     [0;0;0;0;0;0;0;0;0];
     [0;0;0;0;0;0;0;0;0];
     [0;0;0;0;0;0;0;0;0];
     [0;0;0;0;0;0;0;0;0] ];
  (* 0x4e N *)
  [
     [0;0;0;0;0;0;0;0;0];
     [0;0;0;0;0;0;0;0;0];
     [0;0;0;0;0;0;0;0;0];
     [0;0;0;0;0;0;0;0;0];
     [1;1;0;0;0;1;1;0;0];
     [1;1;1;0;0;1;1;0;0];
     [1;1;1;0;0;1;1;0;0];
     [1;1;1;1;0;1;1;0;0];
     [1;1;0;1;0;1;1;0;0];
     [1;1;0;1;1;1;1;0;0];
     [1;1;0;0;1;1;1;0;0];
     [1;1;0;0;1;1;1;0;0];
     [1;1;0;0;0;1;1;0;0];
     [0;0;0;0;0;0;0;0;0];
     [0;0;0;0;0;0;0;0;0];
     [0;0;0;0;0;0;0;0;0];
     [0;0;0;0;0;0;0;0;0];
     [0;0;0;0;0;0;0;0;0] ];
  (* 0x4f O *)
  [
     [0;0;0;0;0;0;0;0;0];
     [0;0;0;0;0;0;0;0;0];
     [0;0;0;0;0;0;0;0;0];
     [0;0;0;0;0;0;0;0;0];
     [0;0;0;1;1;1;0;0;0];
     [0;0;1;1;0;1;1;0;0];
     [0;1;1;0;0;0;1;1;0];
     [0;1;1;0;0;0;1;1;0];
     [0;1;1;0;0;0;1;1;0];
     [0;1;1;0;0;0;1;1;0];
     [0;1;1;0;0;0;1;1;0];
     [0;0;1;1;0;1;1;0;0];
     [0;0;0;1;1;1;0;0;0];
     [0;0;0;0;0;0;0;0;0];
     [0;0;0;0;0;0;0;0;0];
     [0;0;0;0;0;0;0;0;0];
     [0;0;0;0;0;0;0;0;0];
     [0;0;0;0;0;0;0;0;0] ]].

Definition glyphs_50 : list glyph := [
  (* 0x50 P *)
  [
     [0;0;0;0;0;0;0;0;0];
     [0;0;0;0;0;0;0;0;0];
     [0;0;0;0;0;0;0;0;0];
     [0;0;0;0;0;0;0;0;0];
     [0;1;1;1;1;1;0;0;0];
     [0;1;1;0;0;1;1;0;0];
     [0;1;1;0;0;1;1;0;0];
     [0;1;1;0;0;1;1;0;0];
     [0;1;1;1;1;1;1;0;0];
     [0;1;1;1;1;1;0;0;0];
     [0;1;1;0;0;0;0;0;0];
     [0;1;1;0;0;0;0;0;0];
     [0;1;1;0;0;0;0;0;0];
     [0;1;1;0;0;0;0;0;0];
     [0;0;0;0;0;0;0;0;0];
     [0;0;0;0;0;0;0;0;0];
     [0;0;0;0;0;0;0;0;0];
     [0;0;0;0;0;0;0;0;0] ];
  (* 0x51 Q *)
  [
     [0;0;0;0;0;0;0;0;0];
     [0;0;0;0;0;0;0;0;0];
     [0;0;0;0;0;0;0;0;0];
     [0;0;0;0;0;0;0;0;0];
     [0;0;1;1;1;1;1;0;0];
     [0;1;1;0;0;0;1;1;0];
     [1;1;0;0;0;0;0;1;1];
     [1;1;0;0;0;0;0;1;1];
     [1;1;0;0;0;0;0;1;1];
     [1;1;0;0;0;0;0;1;1];
     [1;1;0;0;0;0;0;1;1];
     [0;1;1;0;0;0;1;1;0];
     [0;1;1;1;1;1;1;1;0];
     [0;0;1;1;1;1;1;0;0];
     [0;0;0;0;0;0;1;1;1];
     [0;0;0;0;0;0;0;0;0];
     [0;0;0;0;0;0;0;0;0];
     [0;0;0;0;0;0;0;0;0] ];
  (* 0x52 R *)
  [
     [0;0;0;0;0;0;0;0;0];
     [0;0;0;0;0;0;0;0;0];
     [0;0;0;0;0;0;0;0;0];
     [0;1;1;1;1;1;0;0;0];
     [0;1;1;1;1;1;1;0;0];
     [0;1;1;0;0;0;1;1;0];
     [0;1;1;0;0;0;1;1;0];
     [0;1;1;0;0;1;1;1;0];
     [0;1;1;1;1;1;0;0;0];
     [0;1;1;0;1;1;1;0;0];
     [0;1;1;0;0;1;1;1;0];
     [0;1;1;0;0;0;1;1;0];
     [0;1;1;0;0;0;0;1;1];
     [0;0;0;0;0;0;0;0;0];
     [0;0;0;0;0;0;0;0;0];
     [0;0;0;0;0;0;0;0;0];
     [0;0;0;0;0;0;0;0;0];
     [0;0;0;0;0;0;0;0;0] ];
  (* 0x53 S *)
  [
     [0;0;0;0;0;0;0;0;0];
     [0;0;0;0;0;0;0;0;0];
     [0;0;0;0;0;0;0;0;0];
     [0;0;0;0;0;0;0;0;0];
     [0;0;1;1;1;1;0;0;0];
     [0;1;1;0;0;1;1;0;0];
     [0;1;1;0;0;0;0;0;0];
     [0;1;1;0;0;0;0;0;0];
     [0;0;1;1;1;0;0;0;0];
     [0;0;0;1;1;1;0;0;0];
     [0;0;0;0;0;1;1;0;0];
     [0;0;0;0;0;1;1;0;0];
     [0;1;1;0;0;1;1;0;0];
     [0;0;1;1;1;1;0;0;0];
     [0;0;0;0;0;0;0;0;0];
     [0;0;0;0;0;0;0;0;0];
     [0;0;0;0;0;0;0;0;0];
     [0;0;0;0;0;0;0;0;0] ];
  (* 0x54 T *)
  [
     [0;0;0;0;0;0;0;0;0];
     [0;0;0;0;0;0;0;0;0];
     [0;0;0;0;0;0;0;0;0];
     [0;0;0;0;0;0;0;0;0];
     [1;1;1;1;1;1;1;1;0];
     [0;0;0;1;1;0;0;0;0];
     [0;0;0;1;1;0;0;0;0];
     [0;0;0;1;1;0;0;0;0];
     [0;0;0;1;1;0;0;0;0];
     [0;0;0;1;1;0;0;0;0];
     [0;0;0;1;1;0;0;0;0];
     [0;0;0;1;1;0;0;0;0];
     [0;0;0;1;1;0;0;0;0];
     [0;0;0;0;0;0;0;0;0];
     [0;0;0;0;0;0;0;0;0];
     [0;0;0;0;0;0;0;0;0];
     [0;0;0;0;0;0;0;0;0];
     [0;0;0;0;0;0;0;0;0] ];
  (* 0x55 U *)
  [
     [0;0;0;0;0;0;0;0;0];
     [0;0;0;0;0;0;0;0;0];
     [0;0;0;0;0;0;0;0;0];
     [0;0;0;0;0;0;0;0;0];
     [0;1;1;0;0;0;0;1;1];
     [0;1;1;0;0;0;0;1;1];
     [0;1;1;0;0;0;0;1;1];
     [0;1;1;0;0;0;0;1;1];
     [0;1;1;0;0;0;0;1;1];
     [0;1;1;0;0;0;0;1;1];
     [0;1;1;0;0;0;0;1;1];
     [0;1;1;1;0;0;1;1;1];
     [0;0;1;1;1;1;1;1;0];
     [0;0;0;0;0;0;0;0;0];
     [0;0;0;0;0;0;0;0;0];
     [0;0;0;0;0;0;0;0;0];
     [0;0;0;0;0;0;0;0;0];
     [0;0;0;0;0;0;0;0;0] ];
  (* 0x56 V *)
  [
     [0;0;0;0;0;0;0;0;0];
     [0;0;0;0;0;0;0;0;0];
     [0;0;0;0;0;0;0;0;0];
     [0;0;0;0;0;0;0;0;0];
     [1;1;0;0;0;0;1;1;0];
     [1;1;0;0;0;0;1;1;0];
     [0;1;1;0;0;0;1;0;0];
     [0;1;1;0;0;1;1;0;0];
     [0;1;1;0;0;1;1;0;0];
     [0;0;1;1;0;1;1;0;0];
     [0;0;1;1;1;1;0;0;0];
     [0;0;1;1;1;1;0;0;0];
     [0;0;0;1;1;0;0;0;0];
     [0;0;0;0;0;0;0;0;0];
     [0;0;0;0;0;0;0;0;0];
     [0;0;0;0;0;0;0;0;0];
     [0;0;0;0;0;0;0;0;0];
     [0;0;0;0;0;0;0;0;0] ];
  (* 0x57 W *)
  [
     [0;0;0;0;0;0;0;0;0];
     [0;0;0;0;0;0;0;0;0];
     [0;0;0;0;0;0;0;0;0];
     [1;0;0;0;0;0;1;0;0];
     [1;0;0;0;0;0;1;0;0];
     [1;1;0;0;0;1;1;0;0];
     [1;1;0;1;0;1;1;0;0];
     [0;1;0;1;0;1;0;0;0];
     [0;1;1;0;1;1;0;0;0];
     [0;0;1;0;1;0;0;0;0];
     [0;0;0;0;0;0;0;0;0];
     [0;0;0;0;0;0;0;0;0];
     [0;0;0;0;0;0;0;0;0];
     [0;0;0;0;0;0;0;0;0];
     [0;0;0;0;0;0;0;0;0];
     [0;0;0;0;0;0;0;0;0];
     [0;0;0;0;0;0;0;0;0];
     [0;0;0;0;0;0;0;0;0] ]].

Definition glyphs_58 : list glyph := [
  (* 0x58 X *)
  [
     [0;0;0;0;0;0;0;0;0];
     [0;0;0;0;0;0;0;0;0];
     [0;0;0;0;0;0;0;0;0];
     [0;0;0;0;0;0;0;0;0];
     [0;1;0;0;0;0;0;1;0];
     [0;1;1;0;0;0;1;1;0];
     [0;0;1;1;0;1;1;0;0];
     [0;0;0;1;1;1;0;0;0];
     [0;0;0;0;1;0;0;0;0];
     [0;0;0;1;1;1;0;0;0];
     [0;0;1;1;0;1;1;0;0];
     [0;1;1;0;0;0;1;1;0];
     [0;1;0;0;0;0;0;1;0];
     [0;0;0;0;0;0;0;0;0];
     [0;0;0;0;0;0;0;0;0];
     [0;0;0;0;0;0;0;0;0];
     [0;0;0;0;0;0;0;0;0];
     [0;0;0;0;0;0;0;0;0] ];
  (* 0x59 Y *)
  [
     [0;0;0;0;0;0;0;0;0];
     [0;0;0;0;0;0;0;0;0];
     [0;0;0;0;0;0;0;0;0];
     [0;0;0;0;0;0;0;0;0];
     [1;1;0;0;0;0;1;1;0];
     [0;1;1;0;0;1;1;0;0];
     [0;1;1;0;0;1;1;0;0];
     [0;0;1;1;1;1;0;0;0];
     [0;0;1;1;1;1;0;0;0];
     [0;0;0;1;1;0;0;0;0];
     [0;0;0;1;1;0;0;0;0];
     [0;0;0;1;1;0;0;0;0];
     [0;0;0;1;1;0;0;0;0];
     [0;0;0;0;0;0;0;0;0];
     [0;0;0;0;0;0;0;0;0];
     [0;0;0;0;0;0;0;0;0];
     [0;0;0;0;0;0;0;0;0];
     [0;0;0;0;0;0;0;0;0] ];
  (* 0x5a Z *)
  [
     [0;0;0;0;0;0;0;0;0];
     [0;0;0;0;0;0;0;0;0];
     [0;0;0;0;0;0;0;0;0];
     [0;0;0;0;0;0;0;0;0];
     [0;1;1;1;1;1;1;1;0];
     [0;0;0;0;0;1;1;0;0];
     [0;0;0;0;0;1;1;0;0];
     [0;0;0;0;1;1;0;0;0];
     [0;0;0;0;1;0;0;0;0];
     [0;0;0;1;1;0;0;0;0];
     [0;0;1;1;0;0;0;0;0];
     [0;1;1;0;0;0;0;0;0];
     [0;1;1;1;1;1;1;1;0];
     [0;0;0;0;0;0;0;0;0];
     [0;0;0;0;0;0;0;0;0];
     [0;0;0;0;0;0;0;0;0];
     [0;0;0;0;0;0;0;0;0];
     [0;0;0;0;0;0;0;0;0] ];
  (* 0x5b [ *)
  [
     [0;0;0;0;0;0;0;0;0];
     [0;0;0;0;0;0;0;0;0];
     [0;0;0;0;0;0;0;0;0];
     [0;0;0;0;0;0;0;0;0];
     [0;0;1;1;1;0;0;0;0];
     [0;0;1;1;0;0;0;0;0];
     [0;0;1;1;0;0;0;0;0];
     [0;0;1;1;0;0;0;0;0];
     [0;0;1;1;0;0;0;0;0];
     [0;0;1;1;0;0;0;0;0];
     [0;0;1;1;0;0;0;0;0];
     [0;0;1;1;0;0;0;0;0];
     [0;0;1;1;0;0;0;0;0];
     [0;0;1;1;0;0;0;0;0];
     [0;0;1;1;1;0;0;0;0];
     [0;0;0;0;0;0;0;0;0];
     [0;0;0;0;0;0;0;0;0];
     [0;0;0;0;0;0;0;0;0] ];
  (* 0x5c backslash *)
  [
     [0;0;0;0;0;0;0;0;0];
     [0;0;0;0;0;0;0;0;0];
     [0;0;0;0;0;0;0;0;0];
     [0;0;0;0;0;0;0;0;0];
     [1;1;0;0;0;0;0;0;0];
     [0;1;1;0;0;0;0;0;0];
     [0;1;1;0;0;0;0;0;0];
     [0;1;1;0;0;0;0;0;0];
     [0;0;1;1;0;0;0;0;0];
     [0;0;1;1;0;0;0;0;0];
     [0;0;1;1;0;0;0;0;0];
     [0;0;0;1;1;0;0;0;0];
     [0;0;0;1;1;0;0;0;0];
     [0;0;0;1;1;0;0;0;0];
     [0;0;0;0;1;1;0;0;0];
     [0;0;0;0;0;0;0;0;0];
     [0;0;0;0;0;0;0;0;0];
     [0;0;0;0;0;0;0;0;0] ];
  (* 0x5d ] *)
  [
     [0;0;0;0;0;0;0;0;0];
     [0;0;0;0;0;0;0;0;0];
     [0;0;0;0;0;0;0;0;0];
     [0;0;0;0;0;0;0;0;0];
     [0;1;1;1;0;0;0;0;0];
     [0;0;1;1;0;0;0;0;0];
     [0;0;1;1;0;0;0;0;0];
     [0;0;1;1;0;0;0;0;0];
     [0;0;1;1;0;0;0;0;0];
     [0;0;1;1;0;0;0;0;0];
     [0;0;1;1;0;0;0;0;0];
     [0;0;1;1;0;0;0;0;0];
     [0;0;1;1;0;0;0;0;0];
     [0;0;1;1;0;0;0;0;0];
     [0;1;1;1;0;0;0;0;0];
     [0;0;0;0;0;0;0;0;0];
     [0;0;0;0;0;0;0;0;0];
     [0;0;0;0;0;0;0;0;0] ];
  (* 0x5e ^ *)
  [
     [0;0;0;0;0;0;0;0;0];
     [0;0;0;0;0;0;0;0;0];
     [0;0;0;0;0;0;0;0;0];
     [0;0;0;0;0;0;0;0;0];
     [0;0;0;0;1;1;0;0;0];
     [0;0;0;1;1;1;1;0;0];
     [0;0;1;1;0;0;1;1;0];
     [0;1;1;0;0;0;0;1;1];
     [0;1;0;0;0;0;0;0;1];
     [0;0;0;0;0;0;0;0;0];
     [0;0;0;0;0;0;0;0;0];
     [0;0;0;0;0;0;0;0;0];
     [0;0;0;0;0;0;0;0;0];
     [0;0;0;0;0;0;0;0;0];
     [0;0;0;0;0;0;0;0;0];
     [0;0;0;0;0;0;0;0;0];
     [0;0;0;0;0;0;0;0;0];
     [0;0;0;0;0;0;0;0;0] ];
  (* 0x5f _ *)
  [
     [0;0;0;0;0;0;0;0;0];
     [0;0;0;0;0;0;0;0;0];
     [0;0;0;0;0;0;0;0;0];
     [0;0;0;0;0;0;0;0;0];
     [0;0;0;0;0;0;0;0;0];
     [0;0;0;0;0;0;0;0;0];
     [0;0;0;0;0;0;0;0;0];
     [0;0;0;0;0;0;0;0;0];
     [0;0;0;0;0;0;0;0;0];
     [0;0;0;0;0;0;0;0;0];
     [0;0;0;0;0;0;0;0;0];
     [0;0;0;0;0;0;0;0;0];
     [0;0;0;0;0;0;0;0;0];
     [0;1;1;1;1;1;1;0;0];
     [0;1;1;1;1;1;1;0;0];
     [0;0;0;0;0;0;0;0;0];
     [0;0;0;0;0;0;0;0;0];
     [0;0;0;0;0;0;0;0;0] ]].

Definition glyphs_60 : list glyph := [
  (* 0x60 ` *)
  [
     [0;0;0;0;0;0;0;0;0];
     [0;0;0;0;0;0;0;0;0];
     [0;0;0;0;0;0;0;0;0];
     [0;1;1;1;0;0;0;0;0];
     [0;0;1;1;1;0;0;0;0];
     [0;0;0;0;0;0;0;0;0];
     [0;0;0;0;0;0;0;0;0];
     [0;0;0;0;0;0;0;0;0];
     [0;0;0;0;0;0;0;0;0];
     [0;0;0;0;0;0;0;0;0];
     [0;0;0;0;0;0;0;0;0];
     [0;0;0;0;0;0;0;0;0];
     [0;0;0;0;0;0;0;0;0];
     [0;0;0;0;0;0;0;0;0];
     [0;0;0;0;0;0;0;0;0];
     [0;0;0;0;0;0;0;0;0];
     [0;0;0;0;0;0;0;0;0];
     [0;0;0;0;0;0;0;0;0] ];
  (* 0x61 a *)
  [
     [0;0;0;0;0;0;0;0;0];
     [0;0;0;0;0;0;0;0;0];
     [0;0;0;0;0;0;0;0;0];
     [0;0;0;0;0;0;0;0;0];
     [0;0;0;0;0;0;0;0;0];
     [0;0;0;0;0;0;0;0;0];
     [0;0;0;1;1;1;0;0;0];
     [0;0;1;0;0;1;1;0;0];
     [0;0;0;0;0;1;1;0;0];
     [0;0;0;1;1;1;1;0;0];
     [0;0;1;1;0;1;1;0;0];
     [0;0;1;1;0;1;1;0;0];
     [0;0;1;1;1;1;1;0;0];
     [0;0;0;0;0;0;0;0;0];
     [0;0;0;0;0;0;0;0;0];
     [0;0;0;0;0;0;0;0;0];
     [0;0;0;0;0;0;0;0;0];
     [0;0;0;0;0;0;0;0;0] ];
  (* 0x62 b *)
  [
     [0;0;0;0;0;0;0;0;0];
     [0;0;0;0;0;0;0;0;0];
     [0;0;0;0;0;0;0;0;0];
     [0;1;1;0;0;0;0;0;0];
     [0;1;1;0;0;0;0;0;0];
     [0;1;1;0;0;0;0;0;0];
     [0;1;1;0;0;0;0;0;0];
     [0;1;1;1;1;1;1;0;0];
     [0;1;1;1;0;1;1;1;0];
     [0;1;1;0;0;0;1;1;0];
     [0;1;1;0;0;0;1;1;0];
     [0;1;1;1;0;1;1;1;0];
     [0;1;1;1;1;1;1;0;0];
     [0;0;0;0;0;0;0;0;0];
     [0;0;0;0;0;0;0;0;0];
     [0;0;0;0;0;0;0;0;0];
     [0;0;0;0;0;0;0;0;0];
     [0;0;0;0;0;0;0;0;0] ];
  (* 0x63 c *)
  [
     [0;0;0;0;0;0;0;0;0];
     [0;0;0;0;0;0;0;0;0];
     [0;0;0;0;0;0;0;0;0];
     [0;0;0;0;0;0;0;0;0];
     [0;0;0;0;0;0;0;0;0];
     [0;0;0;0;0;0;0;0;0];
     [0;0;0;0;0;0;0;0;0];
     [0;0;1;1;1;1;1;0;0];
     [0;1;1;1;0;0;0;0;0];
     [0;1;1;0;0;0;0;0;0];
     [0;1;1;0;0;0;0;0;0];
     [0;1;1;1;0;0;0;0;0];
     [0;0;1;1;1;1;1;0;0];
     [0;0;0;0;0;0;0;0;0];
     [0;0;0;0;0;0;0;0;0];
     [0;0;0;0;0;0;0;0;0];
     [0;0;0;0;0;0;0;0;0];
     [0;0;0;0;0;0;0;0;0] ];
  (* 0x64 d *)
  [
     [0;0;0;0;0;0;0;0;0];
     [0;0;0;0;0;0;0;0;0];
     [0;0;0;0;0;0;0;0;0];
     [0;0;0;0;0;0;1;1;0];
     [0;0;0;0;0;0;1;1;0];
     [0;0;0;0;0;0;1;1;0];
     [0;0;0;0;0;0;1;1;0];
     [0;0;1;1;1;1;1;1;0];
     [0;1;1;1;0;0;1;1;0];
     [0;1;1;0;0;0;1;1;0];
     [0;1;1;0;0;0;1;1;0];
     [0;1;1;1;0;1;1;1;0];
     [0;0;1;1;1;1;1;1;0];
     [0;0;0;0;0;0;0;0;0];
     [0;0;0;0;0;0;0;0;0];
     [0;0;0;0;0;0;0;0;0];
     [0;0;0;0;0;0;0;0;0];
     [0;0;0;0;0;0;0;0;0] ];
  (* 0x65 e *)
  [
     [0;0;0;0;0;0;0;0;0];
     [0;0;0;0;0;0;0;0;0];
     [0;0;0;0;0;0;0;0;0];
     [0;0;0;0;0;0;0;0;0];
     [0;0;0;0;0;0;0;0;0];
     [0;0;0;0;0;0;0;0;0];
     [0;0;1;1;1;1;0;0;0];
     [0;1;1;0;0;1;1;0;0];
     [0;1;1;0;0;1;1;0;0];
     [0;1;1;1;1;1;1;0;0];
     [0;1;1;0;0;0;0;0;0];
     [0;1;1;0;0;0;1;0;0];
     [0;0;1;1;1;1;0;0;0];
     [0;0;0;0;0;0;0;0;0];
     [0;0;0;0;0;0;0;0;0];
     [0;0;0;0;0;0;0;0;0];
     [0;0;0;0;0;0;0;0;0];
     [0;0;0;0;0;0;0;0;0] ];
  (* 0x66 f *)
  [
     [0;0;0;0;0;0;0;0;0];
     [0;0;0;0;0;0;0;0;0];
     [0;0;0;0;0;0;0;0;0];
     [0;0;0;1;1;1;0;0;0];
     [0;0;1;1;0;0;0;0;0];
     [0;0;1;1;0;0;0;0;0];
     [0;0;1;1;0;0;0;0;0];
     [0;1;1;1;1;1;0;0;0];
     [0;0;1;1;0;0;0;0;0];
     [0;0;1;1;0;0;0;0;0];
     [0;0;1;1;0;0;0;0;0];
     [0;0;1;1;0;0;0;0;0];
     [0;0;1;1;0;0;0;0;0];
     [0;0;0;0;0;0;0;0;0];
     [0;0;0;0;0;0;0;0;0];
     [0;0;0;0;0;0;0;0;0];
     [0;0;0;0;0;0;0;0;0];
     [0;0;0;0;0;0;0;0;0] ];
  (* 0x67 g *)
  [
     [0;0;0;0;0;0;0;0;0];
     [0;0;0;0;0;0;0;0;0];
     [0;0;0;0;0;0;0;0;0];
     [0;0;0;0;0;0;0;0;0];
     [0;0;0;0;0;0;0;0;0];
     [0;0;0;0;0;0;0;0;0];
     [0;0;0;0;0;0;0;0;0];
     [0;0;1;1;1;1;1;1;0];
     [0;1;1;1;0;0;1;1;0];
     [0;1;1;0;0;0;1;1;0];
     [0;1;1;0;0;0;1;1;0];
     [0;1;1;1;0;1;1;1;0];
     [0;0;1;1;1;1;1;1;0];
     [0;0;0;0;0;0;1;1;0];
     [0;1;1;0;0;1;1;1;0];
     [0;0;1;1;1;1;1;0;0];
     [0;0;0;0;0;0;0;0;0];
     [0;0;0;0;0;0;0;0;0] ]].

Definition glyphs_68 : list glyph := [
  (* 0x68 h *)
  [
     [0;0;0;0;0;0;0;0;0];
     [0;0;0;0;0;0;0;0;0];
     [0;0;0;0;0;0;0;0;0];
     [0;1;1;0;0;0;0;0;0];
     [0;1;1;0;0;0;0;0;0];
     [0;1;1;0;0;0;0;0;0];
     [0;1;1;0;0;0;0;0;0];
     [0;1;1;1;1;1;0;0;0];
     [0;1;1;1;0;1;1;0;0];
     [0;1;1;0;0;1;1;0;0];
     [0;1;1;0;0;1;1;0;0];
     [0;1;1;0;0;1;1;0;0];
     [0;1;1;0;0;1;1;0;0];
     [0;0;0;0;0;0;0;0;0];
     [0;0;0;0;0;0;0;0;0];
     [0;0;0;0;0;0;0;0;0];
     [0;0;0;0;0;0;0;0;0];
     [0;0;0;0;0;0;0;0;0] ];
  (* 0x69 i *)
  [
     [0;0;0;0;0;0;0;0;0];
     [0;0;0;0;0;0;0;0;0];
     [0;0;0;0;0;0;0;0;0];
     [0;0;1;1;0;0;0;0;0];
     [0;0;1;1;0;0;0;0;0];
     [0;0;0;0;0;0;0;0;0];
     [0;0;0;0;0;0;0;0;0];
     [0;1;1;1;0;0;0;0;0];
     [0;0;1;1;0;0;0;0;0];
     [0;0;1;1;0;0;0;0;0];
     [0;0;1;1;0;0;0;0;0];
     [0;0;1;1;0;0;0;0;0];
     [0;0;1;1;1;1;0;0;0];
     [0;0;0;0;0;0;0;0;0];
     [0;0;0;0;0;0;0;0;0];
     [0;0;0;0;0;0;0;0;0];
     [0;0;0;0;0;0;0;0;0];
     [0;0;0;0;0;0;0;0;0] ];
  (* 0x6a j *)
  [
     [0;0;0;0;0;0;0;0;0];
     [0;0;0;0;0;0;0;0;0];
     [0;0;0;0;0;0;0;0;0];
     [0;0;1;1;0;0;0;0;0];
     [0;0;1;1;0;0;0;0;0];
     [0;0;0;0;0;0;0;0;0];
     [0;0;0;0;0;0;0;0;0];
     [0;1;1;1;0;0;0;0;0];
     [0;0;1;1;0;0;0;0;0];
     [0;0;1;1;0;0;0;0;0];
     [0;0;1;1;0;0;0;0;0];
     [0;0;1;1;0;0;0;0;0];
     [0;0;1;1;0;0;0;0;0];
     [0;0;1;1;0;0;0;0;0];
     [0;0;1;1;0;0;0;0;0];
     [1;1;1;0;0;0;0;0;0];
     [0;0;0;0;0;0;0;0;0];
     [0;0;0;0;0;0;0;0;0] ];
  (* 0x6b k *)
  [
     [0;0;0;0;0;0;0;0;0];
     [0;0;0;0;0;0;0;0;0];
     [0;0;0;0;0;0;0;0;0];
     [0;1;1;0;0;0;0;0;0];
     [0;1;1;0;0;0;0;0;0];
     [0;1;1;0;0;0;0;0;0];
     [0;1;1;0;0;0;0;0;0];
     [0;1;1;0;0;1;1;0;0];
     [0;1;1;0;1;1;0;0;0];
     [0;1;1;1;1;0;0;0;0];
     [0;1;1;1;1;0;0;0;0];
     [0;1;1;1;1;1;0;0;0];
     [0;1;1;0;1;1;1;0;0];
     [0;0;0;0;0;0;0;0;0];
     [0;0;0;0;0;0;0;0;0];
     [0;0;0;0;0;0;0;0;0];
     [0;0;0;0;0;0;0;0;0];
     [0;0;0;0;0;0;0;0;0] ];
  (* 0x6c l *)
  [
     [0;0;0;0;0;0;0;0;0];
     [0;0;0;0;0;0;0;0;0];
     [0;0;0;0;0;0;0;0;0];
     [0;0;1;1;1;0;0;0;0];
     [0;0;0;1;1;0;0;0;0];
     [0;0;0;1;1;0;0;0;0];
     [0;0;0;1;1;0;0;0;0];
     [0;0;0;1;1;0;0;0;0];
     [0;0;0;1;1;0;0;0;0];
     [0;0;0;1;1;0;0;0;0];
     [0;0;0;1;1;0;0;0;0];
     [0;0;0;1;1;0;0;0;0];
     [0;0;0;1;1;1;1;0;0];
     [0;0;0;0;0;0;0;0;0];
     [0;0;0;0;0;0;0;0;0];
     [0;0;0;0;0;0;0;0;0];
     [0;0;0;0;0;0;0;0;0];
     [0;0;0;0;0;0;0;0;0] ];
  (* 0x6d m *)
  [
     [0;0;0;0;0;0;0;0;0];
     [0;0;0;0;0;0;0;0;0];
     [0;0;0;0;0;0;0;0;0];
     [0;0;0;0;0;0;0;0;0];
     [0;0;0;0;0;0;0;0;0];
     [0;0;0;0;0;0;0;0;0];
     [0;0;0;0;0;0;0;0;0];
     [0;0;1;1;1;1;1;1;0];
     [0;1;1;0;1;1;0;1;1];
     [0;1;1;0;1;1;0;1;1];
     [0;1;1;0;1;1;0;1;1];
     [0;1;1;0;1;1;0;1;1];
     [0;1;1;0;1;1;0;1;1];
     [0;0;0;0;0;0;0;0;0];
     [0;0;0;0;0;0;0;0;0];
     [0;0;0;0;0;0;0;0;0];
     [0;0;0;0;0;0;0;0;0];
     [0;0;0;0;0;0;0;0;0] ];
  (* 0x6e n *)
  [
     [0;0;0;0;0;0;0;0;0];
     [0;0;0;0;0;0;0;0;0];
     [0;0;0;0;0;0;0;0;0];
     [0;0;0;0;0;0;0;0;0];
     [0;0;0;0;0;0;0;0;0];
     [0;0;0;0;0;0;0;0;0];
     [0;0;0;0;0;0;0;0;0];
     [0;1;1;1;1;1;0;0;0];
     [0;1;1;1;0;1;1;0;0];
     [0;1;1;0;0;1;1;0;0];
     [0;1;1;0;0;1;1;0;0];
     [0;1;1;0;0;1;1;0;0];
     [0;1;1;0;0;1;1;0;0];
     [0;0;0;0;0;0;0;0;0];
     [0;0;0;0;0;0;0;0;0];
     [0;0;0;0;0;0;0;0;0];
     [0;0;0;0;0;0;0;0;0];
     [0;0;0;0;0;0;0;0;0] ];
  (* 0x6f o *)
  [
     [0;0;0;0;0;0;0;0;0];
     [0;0;0;0;0;0;0;0;0];
     [0;0;0;0;0;0;0;0;0];
     [0;0;0;0;0;0;0;0;0];
     [0;0;0;0;0;0;0;0;0];
     [0;0;0;0;0;0;0;0;0];
     [0;0;0;1;1;1;0;0;0];
     [0;0;1;1;1;1;1;0;0];
     [0;1;1;0;0;0;1;1;0];
     [0;1;1;0;0;0;1;1;0];
     [0;1;1;0;0;0;1;1;0];
     [0;1;1;0;0;0;1;1;0];
     [0;0;1;1;1;1;1;0;0];
     [0;0;0;1;1;1;0;0;0];
     [0;0;0;0;0;0;0;0;0];
     [0;0;0;0;0;0;0;0;0];
     [0;0;0;0;0;0;0;0;0];
     [0;0;0;0;0;0;0;0;0] ]].

Definition glyphs_70 : list glyph := [
  (* 0x70 p *)
  [
     [0;0;0;0;0;0;0;0;0];
     [0;0;0;0;0;0;0;0;0];
     [0;0;0;0;0;0;0;0;0];
     [0;0;0;0;0;0;0;0;0];
     [0;0;0;0;0;0;0;0;0];
     [0;0;0;0;0;0;0;0;0];
     [0;0;0;0;0;0;0;0;0];
     [0;1;1;1;1;1;1;0;0];
     [0;1;1;1;0;0;1;1;0];
     [0;1;1;0;0;0;1;1;0];
     [0;1;1;0;0;0;1;1;0];
     [0;1;1;0;0;1;1;1;0];
     [0;1;1;1;1;1;1;0;0];
     [0;1;1;0;0;0;0;0;0];
     [0;1;1;0;0;0;0;0;0];
     [0;1;1;0;0;0;0;0;0];
     [0;1;1;0;0;0;0;0;0];
     [0;0;0;0;0;0;0;0;0] ];
  (* 0x71 q *)
  [
     [0;0;0;0;0;0;0;0;0];
     [0;0;0;0;0;0;0;0;0];
     [0;0;0;0;0;0;0;0;0];
     [0;0;0;0;0;0;0;0;0];
     [0;0;0;0;0;0;0;0;0];
     [0;0;0;0;0;0;0;0;0];
     [0;0;0;0;0;0;0;0;0];
     [0;0;1;1;1;1;1;1;0];
     [0;1;1;1;0;0;1;1;0];
     [0;1;1;0;0;0;1;1;0];
     [0;1;1;0;0;0;1;1;0];
     [0;1;1;1;0;1;1;1;0];
     [0;0;1;1;1;1;1;1;0];
     [0;0;0;0;0;0;1;1;0];
     [0;0;0;0;0;0;1;1;0];
     [0;0;0;0;0;0;1;1;0];
     [0;0;0;0;0;0;0;0;0];
     [0;0;0;0;0;0;0;0;0] ];
  (* 0x72 r *)
  [
     [0;0;0;0;0;0;0;0;0];
     [0;0;0;0;0;0;0;0;0];
     [0;0;0;0;0;0;0;0;0];
     [0;0;0;0;0;0;0;0;0];
     [0;0;0;0;0;0;0;0;0];
     [0;0;0;0;0;0;0;0;0];
     [0;0;0;0;0;0;0;0;0];
     [0;0;1;1;1;1;1;0;0];
     [0;0;1;1;1;0;0;0;0];
     [0;0;1;1;0;0;0;0;0];
     [0;0;1;1;0;0;0;0;0];
     [0;0;1;1;0;0;0;0;0];
     [0;0;1;1;0;0;0;0;0];
     [0;0;0;0;0;0;0;0;0];
     [0;0;0;0;0;0;0;0;0];
     [0;0;0;0;0;0;0;0;0];
     [0;0;0;0;0;0;0;0;0];
     [0;0;0;0;0;0;0;0;0] ];
  (* 0x73 s *)
  [
     [0;0;0;0;0;0;0;0;0];
     [0;0;0;0;0;0;0;0;0];
     [0;0;0;0;0;0;0;0;0];
     [0;0;0;0;0;0;0;0;0];
     [0;0;0;0;0;0;0;0;0];
     [0;0;0;0;0;0;0;0;0];
     [0;0;1;1;1;0;0;0;0];
     [0;1;1;0;0;1;0;0;0];
     [0;1;1;0;0;0;0;0;0];
     [0;0;1;1;0;0;0;0;0];
     [0;0;0;1;1;0;0;0;0];
     [0;0;0;0;1;1;0;0;0];
     [0;1;0;0;1;1;0;0;0];
     [0;0;1;1;1;0;0;0;0];
     [0;0;0;0;0;0;0;0;0];
     [0;0;0;0;0;0;0;0;0];
     [0;0;0;0;0;0;0;0;0];
     [0;0;0;0;0;0;0;0;0] ];
  (* 0x74 t *)
  [
     [0;0;0;0;0;0;0;0;0];
     [0;0;0;0;0;0;0;0;0];
     [0;0;0;0;0;0;0;0;0];
     [0;0;0;0;0;0;0;0;0];
     [0;0;0;0;0;0;0;0;0];
     [0;0;1;1;0;0;0;0;0];
     [0;0;1;1;0;0;0;0;0];
     [1;1;1;1;1;1;1;0;0];
     [0;0;1;1;0;0;0;0;0];
     [0;0;1;1;0;0;0;0;0];
     [0;0;1;1;0;0;0;0;0];
     [0;0;1;1;0;0;1;0;0];
     [0;0;1;1;1;1;0;0;0];
     [0;0;0;0;0;0;0;0;0];
     [0;0;0;0;0;0;0;0;0];
     [0;0;0;0;0;0;0;0;0];
     [0;0;0;0;0;0;0;0;0];
     [0;0;0;0;0;0;0;0;0] ];
  (* 0x75 u *)
  [
     [0;0;0;0;0;0;0;0;0];
     [0;0;0;0;0;0;0;0;0];
     [0;0;0;0;0;0;0;0;0];
     [0;0;0;0;0;0;0;0;0];
     [0;0;0;0;0;0;0;0;0];
     [0;0;0;0;0;0;0;0;0];
     [0;0;0;0;0;0;0;0;0];
     [0;1;1;0;0;1;1;0;0];
     [0;1;1;0;0;1;1;0;0];
     [0;1;1;0;0;1;1;0;0];
     [0;1;1;0;0;1;1;0;0];
     [0;1;1;0;0;1;1;0;0];
     [0;0;1;1;1;0;1;0;0];
     [0;0;0;0;0;0;0;0;0];
     [0;0;0;0;0;0;0;0;0];
     [0;0;0;0;0;0;0;0;0];
     [0;0;0;0;0;0;0;0;0];
     [0;0;0;0;0;0;0;0;0] ];
  (* 0x76 v *)
  [
     [0;0;0;0;0;0;0;0;0];
     [0;0;0;0;0;0;0;0;0];
     [0;0;0;0;0;0;0;0;0];
     [0;0;0;0;0;0;0;0;0];
     [0;0;0;0;0;0;0;0;0];
     [0;0;0;0;0;0;0;0;0];
     [0;0;0;0;0;0;0;0;0];
     [1;1;0;0;0;1;1;0;0];
     [1;1;0;0;0;1;1;0;0];
     [0;1;0;0;0;1;0;0;0];
     [0;1;1;0;1;1;0;0;0];
     [0;0;1;1;1;0;0;0;0];
     [0;0;1;1;1;0;0;0;0];
     [0;0;0;1;0;0;0;0;0];
     [0;0;0;0;0;0;0;0;0];
     [0;0;0;0;0;0;0;0;0];
     [0;0;0;0;0;0;0;0;0];
     [0;0;0;0;0;0;0;0;0] ];
  (* 0x77 w *)
  [
     [0;0;0;0;0;0;0;0;0];
     [0;0;0;0;0;0;0;0;0];
     [0;0;0;0;0;0;0;0;0];
     [0;0;0;0;0;0;0;0;0];
     [0;0;0;0;0;0;0;0;0];
     [1;0;0;0;0;0;0;0;1];
     [1;1;0;0;0;0;0;1;1];
     [1;1;0;0;1;0;0;1;1];
     [1;1;0;0;1;0;0;1;1];
     [0;1;0;1;1;1;0;1;0];
     [0;1;1;1;1;1;1;1;0];
     [0;1;1;1;0;1;1;1;0];
     [0;0;1;0;0;0;1;0;0];
     [0;0;0;0;0;0;0;0;0];
     [0;0;0;0;0;0;0;0;0];
     [0;0;0;0;0;0;0;0;0];
     [0;0;0;0;0;0;0;0;0];
     [0;0;0;0;0;0;0;0;0] ]].

Definition glyphs_78 : list glyph := [
  (* 0x78 x *)
  [
     [0;0;0;0;0;0;0;0;0];
     [0;0;0;0;0;0;0;0;0];
     [0;0;0;0;0;0;0;0;0];
     [0;0;0;0;0;0;0;0;0];
     [0;0;0;0;0;0;0;0;0];
     [0;0;0;0;0;0;0;0;0];
     [0;0;0;0;0;0;0;0;0];
     [0;1;0;0;0;1;0;0;0];
     [0;1;1;0;1;1;0;0;0];
     [0;0;1;1;1;0;0;0;0];
     [0;0;1;1;1;0;0;0;0];
     [0;1;1;0;1;1;0;0;0];
     [0;1;0;0;0;1;0;0;0];
     [0;0;0;0;0;0;0;0;0];
     [0;0;0;0;0;0;0;0;0];
     [0;0;0;0;0;0;0;0;0];
     [0;0;0;0;0;0;0;0;0];
     [0;0;0;0;0;0;0;0;0] ];
  (* 0x79 y *)
  [
     [0;0;0;0;0;0;0;0;0];
     [0;0;0;0;0;0;0;0;0];
     [0;0;0;0;0;0;0;0;0];
     [0;0;0;0;0;0;0;0;0];
     [0;0;0;0;0;0;0;0;0];
     [0;0;0;0;0;0;0;0;0];
     [0;0;0;0;0;0;0;0;0];
     [1;0;0;0;0;0;1;0;0];
     [1;1;0;0;0;1;1;0;0];
     [0;1;0;0;0;1;1;0;0];
     [0;1;1;0;1;1;0;0;0];
     [0;0;1;1;1;0;0;0;0];
     [0;0;0;1;1;0;0;0;0];
     [0;0;0;1;0;0;0;0;0];
     [0;0;1;1;0;0;0;0;0];
     [0;1;1;0;0;0;0;0;0];
     [0;0;0;0;0;0;0;0;0];
     [0;0;0;0;0;0;0;0;0] ];
  (* 0x7a z *)
  [
     [0;0;0;0;0;0;0;0;0];
     [0;0;0;0;0;0;0;0;0];
     [0;0;0;0;0;0;0;0;0];
     [0;0;0;0;0;0;0;0;0];
     [0;0;0;0;0;0;0;0;0];
     [0;0;0;0;0;0;0;0;0];
     [0;0;0;0;0;0;0;0;0];
     [0;1;1;1;1;1;0;0;0];
     [0;0;0;0;1;1;0;0;0];
     [0;0;0;1;1;0;0;0;0];
     [0;0;1;1;0;0;0;0;0];
     [0;1;1;0;0;0;0;0;0];
     [0;1;1;1;1;1;0;0;0];
     [0;0;0;0;0;0;0;0;0];
     [0;0;0;0;0;0;0;0;0];
     [0;0;0;0;0;0;0;0;0];
     [0;0;0;0;0;0;0;0;0];
     [0;0;0;0;0;0;0;0;0] ];
  (* 0x7b { *)
  [
     [0;0;0;0;0;0;0;0;0];
     [0;0;0;0;0;0;0;0;0];
     [0;0;0;0;0;0;0;0;0];
     [0;0;0;0;0;0;0;0;0];
     [0;0;1;1;1;0;0;0;0];
     [0;0;1;1;0;0;0;0;0];
     [0;0;1;1;0;0;0;0;0];
     [0;0;1;1;0;0;0;0;0];
     [0;0;1;0;0;0;0;0;0];
     [0;1;1;0;0;0;0;0;0];
     [0;0;1;0;0;0;0;0;0];
     [0;0;1;1;0;0;0;0;0];
     [0;0;1;1;0;0;0;0;0];
     [0;0;1;1;0;0;0;0;0];
     [0;0;1;1;1;0;0;0;0];
     [0;0;0;0;0;0;0;0;0];
     [0;0;0;0;0;0;0;0;0];
     [0;0;0;0;0;0;0;0;0] ];
  (* 0x7c | *)
  [
     [0;0;0;0;0;0;0;0;0];
     [0;0;0;0;0;0;0;0;0];
     [0;0;0;0;0;0;0;0;0];
     [0;1;1;0;0;0;0;0;0];
     [0;1;1;0;0;0;0;0;0];
     [0;1;1;0;0;0;0;0;0];
     [0;1;1;0;0;0;0;0;0];
     [0;1;1;0;0;0;0;0;0];
     [0;1;1;0;0;0;0;0;0];
     [0;1;1;0;0;0;0;0;0];
     [0;1;1;0;0;0;0;0;0];
     [0;1;1;0;0;0;0;0;0];
     [0;1;1;0;0;0;0;0;0];
     [0;1;1;0;0;0;0;0;0];
     [0;1;1;0;0;0;0;0;0];
     [0;1;1;0;0;0;0;0;0];
     [0;0;0;0;0;0;0;0;0];
     [0;0;0;0;0;0;0;0;0] ];
  (* 0x7d } *)
  [
     [0;0;0;0;0;0;0;0;0];
     [0;0;0;0;0;0;0;0;0];
     [0;0;0;0;0;0;0;0;0];
     [0;0;0;0;0;0;0;0;0];
     [1;1;1;0;0;0;0;0;0];
     [0;1;1;0;0;0;0;0;0];
     [0;1;1;0;0;0;0;0;0];
     [0;1;1;0;0;0;0;0;0];
     [0;0;1;0;0;0;0;0;0];
     [0;0;1;1;0;0;0;0;0];
     [0;0;1;0;0;0;0;0;0];
     [0;1;1;0;0;0;0;0;0];
     [0;1;1;0;0;0;0;0;0];
     [0;1;1;0;0;0;0;0;0];
     [1;1;1;0;0;0;0;0;0];
     [0;0;0;0;0;0;0;0;0];
     [0;0;0;0;0;0;0;0;0];
     [0;0;0;0;0;0;0;0;0] ];
  (* 0x7e ~ *)
  [
     [0;0;0;0;0;0;0;0;0];
     [0;0;0;0;0;0;0;0;0];
     [0;0;0;0;0;0;0;0;0];
     [0;0;0;0;0;0;0;0;0];
     [0;0;0;0;0;0;0;0;0];
     [0;0;0;0;0;0;0;0;0];
     [0;0;0;0;0;0;0;0;0];
     [0;0;0;0;0;0;0;0;0];
     [0;1;1;1;1;0;1;1;0];
     [1;1;0;1;1;1;1;0;0];
     [0;0;0;0;0;0;0;0;0];
     [0;0;0;0;0;0;0;0;0];
     [0;0;0;0;0;0;0;0;0];
     [0;0;0;0;0;0;0;0;0];
     [0;0;0;0;0;0;0;0;0];
     [0;0;0;0;0;0;0;0;0];
     [0;0;0;0;0;0;0;0;0];
     [0;0;0;0;0;0;0;0;0] ]].

Definition character : list glyph :=
  glyphs_20
  ++ glyphs_28
  ++ glyphs_30
  ++ glyphs_38
  ++ glyphs_40
  ++ glyphs_48
  ++ glyphs_50
  ++ glyphs_58
  ++ glyphs_60
  ++ glyphs_68
  ++ glyphs_70
  ++ glyphs_78.

(** [character[ord][i][j]]; entries the initialiser leaves out are zero. *)
Definition glyph_row (ord i : Z) : list Z :=
  nth (Z.to_nat i) (nth (Z.to_nat ord) character []) [].
Definition pixel (ord i j : Z) : Z := nth (Z.to_nat j) (glyph_row ord i) 0.

(** The table has the 95 printable ASCII codes, all within 18 by 9 pixels. *)
Lemma character_shape :
  length character = 95%nat /\
  Forall (fun g => (length g <= 18)%nat /\ Forall (fun r => length r = 9%nat) g) character.
Proof.
  split; [by vm_compute|].
  assert (H : forallb (fun g => (length g <=? 18)%nat
                        && forallb (fun r => (length r =? 9)%nat) g) character = true)
    by by vm_compute.
  apply Is_true_true, forallb_True in H. eapply Forall_impl; [exact H|].
  intros g [H1 H2]%andb_True. split; [by apply Nat.leb_le, Is_true_true|].
  apply forallb_True in H2. eapply Forall_impl; [exact H2|].
  intros r Hr. by apply Nat.eqb_eq, Is_true_true.
Qed.
