(* ===== verification/GuiState.v ===== *)
(** * GuiState: the data of the window system

    The structs of src/src/gui.h, window.h and mouse.h, the globals of gui.c,
    window.c, mouse.c and kbd.c, and the two things the window system reaches
    outside the kernel: the video memory and the memory of the processes that
    own windows.

    User memory is a store of typed objects addressed by (process, address).
    A user pointer is an address, 0 is null; it is followed in the address
    space that the last [switchuvm] installed, so code that forgets to switch
    reads another process's objects or faults. *)
From S2P Require Import Prelude.

(** ** Constants (gui.h, window.h, mouse.h) *)
Definition SCREEN_WIDTH : Z := 1280.
Definition SCREEN_HEIGHT : Z := 1024.
Definition CAPTION_HEIGHT : Z := 30.
Definition MENU_HEIGHT : Z := 70.
Definition BORDER_WIDTH : Z := 10.
Definition FOOTER_HEIGHT : Z := 25.
Definition MAX_WINDOW_NUM : Z := 32.
Definition MAX_WIDGET_NUM : Z := 32.
Definition MAX_STRING_NUM : Z := 256.
Definition MOUSE_WIDTH : Z := 14.
Definition MOUSE_HEIGHT : Z := 28.

(** A 24-bit pixel: [unsigned char B, G, R]. *)
Record RGB := mkRGB { rB : Z; rG : Z; rR : Z }.
#[export] Instance RGB_eq_dec : EqDecision RGB.
Proof. solve_decision. Defined.

(** [handlerFunction] is a code pointer of the owning process. *)
Record Handler := mkHandler { triggered : Z; handlerFunction : Z }.

(** ** Widgets (window.h) *)
Module Label.
Record t := mk {
leftTopX : Z; leftTopY : Z; width : Z; height : Z;
text : list Z }.
End Label.

Module TextBox.
Record t := mk {
fixed : Z;
leftTopX : Z; leftTopY : Z; width : Z; height : Z; cursor : Z;
textLength : Z;
text : list Z }.
Definition set_text (x : list Z) (b : t) : t :=
mk (fixed b) (leftTopX b) (leftTopY b) (width b) (height b) (cursor b) (textLength b) x.
Definition set_cursor (c : Z) (b : t) : t :=
mk (fixed b) (leftTopX b) (leftTopY b) (width b) (height b) c (textLength b) (text b).
Definition set_textLength (n : Z) (b : t) : t :=
mk (fixed b) (leftTopX b) (leftTopY b) (width b) (height b) (cursor b) n (text b).
End TextBox.

Module Button.
Record t := mk {
image : Z;
leftTopX : Z; leftTopY : Z; width : Z; height : Z;
text : list Z;
onLeftClickHandler : Handler }.
Definition set_triggered (v : Z) (b : t) : t :=
mk (image b) (leftTopX b) (leftTopY b) (width b) (height b) (text b)
   (mkHandler v (handlerFunction (onLeftClickHandler b))).
End Button.

Module ImageView.
Record t := mk {
leftTopX : Z; leftTopY : Z; width : Z; height : Z;
alphaBG : Z;
image : Z;
onLeftClickHandler : Handler }.
Definition set_triggered (v : Z) (b : t) : t :=
mk (leftTopX b) (leftTopY b) (width b) (height b) (alphaBG b) (image b)
   (mkHandler v (handlerFunction (onLeftClickHandler b))).
End ImageView.

Module IconView.
Record t := mk {
leftTopX : Z; leftTopY : Z; width : Z; height : Z;
image : Z;
text : list Z;
onLeftDoubleClickHandler : Handler }.
Definition set_triggered (v : Z) (b : t) : t :=
mk (leftTopX b) (leftTopY b) (width b) (height b) (image b) (text b)
   (mkHandler v (handlerFunction (onLeftDoubleClickHandler b))).
End IconView.

(** [struct Widget]: the tag and the union of pointers, as one tagged value.
    [W_other] is a tag outside the enum (the [default] of the switches). *)
Inductive Widget :=
| W_label (p : Z)
| W_textBox (p : Z)
| W_button (p : Z)
| W_imageView (p : Z)
| W_iconView (p : Z)
| W_other (type p : Z).

Module Window.
Record t := mk {
show : Z;
hasCaption : Z; hasMenu : Z; hasFooter : Z;
last_leftTopX : Z; last_leftTopY : Z;
leftTopX : Z; leftTopY : Z; width : Z; height : Z;
caption : list Z;
widgetsNum : Z;
widgets : list Widget;
onFileSystemChangedHandler : Handler }.
Definition set_last (x y : Z) (w : t) : t :=
mk (show w) (hasCaption w) (hasMenu w) (hasFooter w) x y
   (leftTopX w) (leftTopY w) (width w) (height w) (caption w)
   (widgetsNum w) (widgets w) (onFileSystemChangedHandler w).
Definition set_pos (x y : Z) (w : t) : t :=
mk (show w) (hasCaption w) (hasMenu w) (hasFooter w) (last_leftTopX w) (last_leftTopY w)
   x y (width w) (height w) (caption w)
   (widgetsNum w) (widgets w) (onFileSystemChangedHandler w).
Definition set_fs_triggered (v : Z) (w : t) : t :=
mk (show w) (hasCaption w) (hasMenu w) (hasFooter w) (last_leftTopX w) (last_leftTopY w)
   (leftTopX w) (leftTopY w) (width w) (height w) (caption w)
   (widgetsNum w) (widgets w)
   (mkHandler v (handlerFunction (onFileSystemChangedHandler w))).
End Window.

(** ** The window queue (window.h, window.c) *)

(** Addresses of queue nodes: the head [&windowQueue] and [windowLine + i]. *)
Inductive wptr := Head | Line (i : Z).
#[export] Instance wptr_eq_dec : EqDecision wptr.
Proof. solve_decision. Defined.

(** [struct WindowQueue]; [proc] is an index of the process table. *)
Record WindowQueue := mkWQ {
  wq_proc : option nat;
  wq_window : Z;
  wq_next : option wptr;
  wq_prev : option wptr }.
Definition empty_wq : WindowQueue := mkWQ None 0 None None.

Record wqueue := mkWqueue {
  windowLine : list WindowQueue;
  windowQueue : WindowQueue;
  lastWindow : option wptr }.

(** ** The mouse (mouse.h, statics of mouse.c) *)
Record mouseinfo := mkMouse {
  x_position : Z; y_position : Z;
  last_draw_x : Z; last_draw_y : Z;
  m_event : Z }.

Record mousestate := mkMouseState {
  to_read : Z;
  left_down : Z; right_down : Z;
  x_sign : Z; y_sign : Z; x_overflow : Z; y_overflow : Z;
  counter : Z; isdraw : Z;
  dis_x : Z; dis_y : Z;
  left_btn_down : Z; down_pos_x : Z; down_pos_y : Z; right_btn_down : Z;
  last_tick : Z; event : Z; drag_state : Z;
  pwque : option wptr }.

(** ** User memory and address spaces *)
Inductive uobj :=
| U_window (w : Window.t)
| U_label (l : Label.t)
| U_textBox (b : TextBox.t)
| U_button (b : Button.t)
| U_imageView (v : ImageView.t)
| U_iconView (v : IconView.t)
| U_image (px : Z -> RGB).

Inductive lockname := gui_lock | window_lock | mouse_lock.
#[export] Instance lockname_eq_dec : EqDecision lockname.
Proof. solve_decision. Defined.

(** Current process, loaded page table ([None]: the kernel's), and the
    processes whose [pgdir] is not null. *)
Record cpustate := mkCpu {
  proc : option nat;
  cr3 : option nat;
  pgdirs : gset nat }.

(** ** The whole state *)
Record gstate := mkG {
  g_wq : wqueue;
  g_vram : Z -> RGB;
  g_mouse : mouseinfo;
  g_ms : mousestate;
  g_shift : Z;
  focusIcon : Z;
  background : Z -> RGB;
  isBg : Z -> Z;
  g_umem : gmap (nat * Z) uobj;
  g_cpu : cpustate;
  g_locks : list lockname }.

Definition set_wq (x : wqueue) (g : gstate) : gstate :=
  mkG x (g_vram g) (g_mouse g) (g_ms g) (g_shift g) (focusIcon g) (background g) (isBg g)
      (g_umem g) (g_cpu g) (g_locks g).
Definition set_vram (x : Z -> RGB) (g : gstate) : gstate :=
  mkG (g_wq g) x (g_mouse g) (g_ms g) (g_shift g) (focusIcon g) (background g) (isBg g)
      (g_umem g) (g_cpu g) (g_locks g).
Definition set_mouse (x : mouseinfo) (g : gstate) : gstate :=
  mkG (g_wq g) (g_vram g) x (g_ms g) (g_shift g) (focusIcon g) (background g) (isBg g)
      (g_umem g) (g_cpu g) (g_locks g).
Definition set_ms (x : mousestate) (g : gstate) : gstate :=
  mkG (g_wq g) (g_vram g) (g_mouse g) x (g_shift g) (focusIcon g) (background g) (isBg g)
      (g_umem g) (g_cpu g) (g_locks g).
Definition set_shift (x : Z) (g : gstate) : gstate :=
  mkG (g_wq g) (g_vram g) (g_mouse g) (g_ms g) x (focusIcon g) (background g) (isBg g)
      (g_umem g) (g_cpu g) (g_locks g).
Definition set_focus (f : Z) (bg : Z -> RGB) (isb : Z -> Z) (g : gstate) : gstate :=
  mkG (g_wq g) (g_vram g) (g_mouse g) (g_ms g) (g_shift g) f bg isb
      (g_umem g) (g_cpu g) (g_locks g).
Definition set_umem (x : gmap (nat * Z) uobj) (g : gstate) : gstate :=
  mkG (g_wq g) (g_vram g) (g_mouse g) (g_ms g) (g_shift g) (focusIcon g) (background g) (isBg g)
      x (g_cpu g) (g_locks g).
Definition set_cpu (x : cpustate) (g : gstate) : gstate :=
  mkG (g_wq g) (g_vram g) (g_mouse g) (g_ms g) (g_shift g) (focusIcon g) (background g) (isBg g)
      (g_umem g) x (g_locks g).
Definition set_locks (x : list lockname) (g : gstate) : gstate :=
  mkG (g_wq g) (g_vram g) (g_mouse g) (g_ms g) (g_shift g) (focusIcon g) (background g) (isBg g)
      (g_umem g) (g_cpu g) x.

Definition G : Type -> Type := M gstate.

(** ** Locks, as one flow of control sees them

    [acquire] panics when the lock is already held by this CPU and [release]
    when it is not (spinlock.c). *)
Definition acquire (l : lockname) : G unit := fun g =>
  if decide (l ∈ g_locks g) then Panic "acquire"
  else Ok (tt, set_locks (l :: g_locks g) g).
Definition release (l : lockname) : G unit := fun g =>
  if decide (l ∈ g_locks g) then Ok (tt, set_locks (filter (fun k => k <> l) (g_locks g)) g)
  else Panic "release".

(** ** Address spaces (vm.c) *)

(** [switchuvm(p)] reads [proc->kstack] of the *current* process before it
    looks at [p->pgdir], so both pointers are followed. *)
Definition switchuvm (p : option nat) : G unit := fun g =>
  match proc (g_cpu g), p with
  | None, _ => Fault
  | Some _, None => Fault
  | Some _, Some i =>
      if decide (i ∈ pgdirs (g_cpu g))
      then Ok (tt, set_cpu (mkCpu (proc (g_cpu g)) (Some i) (pgdirs (g_cpu g))) g)
      else Panic "switchuvm: no pgdir"
  end.
Definition switchkvm : G unit :=
  modify (fun g => set_cpu (mkCpu (proc (g_cpu g)) None (pgdirs (g_cpu g))) g).
(** [if (proc == 0) switchkvm(); else switchuvm(proc);] *)
Definition switch_back : G unit := fun g =>
  match proc (g_cpu g) with
  | None => switchkvm g
  | Some _ => switchuvm (proc (g_cpu g)) g
  end.

(** ** Loads and stores of user objects *)
Definition uload (a : Z) : G uobj := fun g =>
  match cr3 (g_cpu g) with
  | None => Fault
  | Some i => match g_umem g !! (i, a) with Some o => Ok (o, g) | None => Fault end
  end.
Definition ustore (a : Z) (o : uobj) : G unit := fun g =>
  match cr3 (g_cpu g) with
  | None => Fault
  | Some i => match g_umem g !! (i, a) with
              | Some _ => Ok (tt, set_umem (<[(i, a) := o]> (g_umem g)) g)
              | None => Fault
              end
  end.
Definition load_window (a : Z) : G Window.t :=
  o <- uload a ;; match o with U_window w => ret w | _ => fault end.
Definition load_label (a : Z) : G Label.t :=
  o <- uload a ;; match o with U_label w => ret w | _ => fault end.
Definition load_textBox (a : Z) : G TextBox.t :=
  o <- uload a ;; match o with U_textBox w => ret w | _ => fault end.
Definition load_button (a : Z) : G Button.t :=
  o <- uload a ;; match o with U_button w => ret w | _ => fault end.
Definition load_imageView (a : Z) : G ImageView.t :=
  o <- uload a ;; match o with U_imageView w => ret w | _ => fault end.
Definition load_iconView (a : Z) : G IconView.t :=
  o <- uload a ;; match o with U_iconView w => ret w | _ => fault end.
Definition load_image (a : Z) : G (Z -> RGB) :=
  o <- uload a ;; match o with U_image w => ret w | _ => fault end.

(** Element [k] of the array [widgets[MAX_WIDGET_NUM]]. *)
Definition widget_at (w : Window.t) (k : Z) : G Widget :=
  if (k <? 0) || (MAX_WIDGET_NUM <=? k) then fault
  else of_option (Window.widgets w !! Z.to_nat k).

(** ** Queue nodes *)
Definition node_of (q : wqueue) (p : wptr) : option WindowQueue :=
  match p with
  | Head => Some (windowQueue q)
  | Line i => if i <? 0 then None else windowLine q !! Z.to_nat i
  end.
Definition node (p : wptr) : G WindowQueue := fun g =>
  match node_of (g_wq g) p with Some n => Ok (n, g) | None => Fault end.
(** A possibly null pointer, followed. *)
Definition deref (p : option wptr) : G WindowQueue :=
  match p with Some q => node q | None => fault end.
Definition store_node (q : wqueue) (p : wptr) (n : WindowQueue) : wqueue :=
  match p with
  | Head => mkWqueue (windowLine q) n (lastWindow q)
  | Line i => mkWqueue (<[Z.to_nat i := n]> (windowLine q)) (windowQueue q) (lastWindow q)
  end.
(** Replace the node at [p] by [f] of it. *)
Definition update_node (p : option wptr) (f : WindowQueue -> WindowQueue) : G unit :=
  match p with
  | None => fault
  | Some q => n <- node q ;; modify (fun g => set_wq (store_node (g_wq g) q (f n)) g)
  end.
Definition with_next (p : option wptr) (n : WindowQueue) : WindowQueue :=
  mkWQ (wq_proc n) (wq_window n) p (wq_prev n).
Definition with_prev (p : option wptr) (n : WindowQueue) : WindowQueue :=
  mkWQ (wq_proc n) (wq_window n) (wq_next n) p.
Definition with_owner (p : option nat) (w : Z) (n : WindowQueue) : WindowQueue :=
  mkWQ p w (wq_next n) (wq_prev n).
Definition set_lastWindow (p : option wptr) : G unit :=
  modify (fun g => set_wq (mkWqueue (windowLine (g_wq g)) (windowQueue (g_wq g)) p) g).
