(* ===== verification/Draw.v ===== *)
(** * Draw: the drawing routines of gui.c

    src/src/gui.c, lines 42-450: everything that paints into one of the three
    screen-sized buffers.  Video memory is one array of pixels; [screen],
    [screen_temp1] and [screen_temp2] are the offsets of the three buffers in
    it, and a pointer [t] into a buffer is an offset too.  Writing outside a
    buffer therefore lands in its neighbour, as it does in the machine.
    Coordinates are C [int]s computed exactly; division truncates. *)
From S2P Require Import Prelude Font GuiState.

Definition vram : Type := Z -> RGB.

(** ** [initGUI]: the three buffers, in pixels from [PhysBasePtr] *)
Definition sizeof_RGB : Z := 3.
Definition screen : Z := 0.
Definition screen_temp1 : Z := Z.quot 0x3c0000 sizeof_RGB.
Definition screen_temp2 : Z := Z.quot 0x780000 sizeof_RGB.
Definition totalPels : Z := SCREEN_WIDTH * SCREEN_HEIGHT.

(** ** Pixels *)
Definition isAlpha (c : RGB) : Z :=
  if (rR c =? rG c) && (rR c =? rB c) && (rR c =? 0) then 1 else 0.
Definition drawPoint (t r g b : Z) (m : vram) : vram := upd m t (mkRGB b g r).

(** [strlen] of a NUL-terminated array; [None] when there is no NUL. *)
Fixpoint strlen (s : list Z) : option Z :=
  match s with
  | [] => None
  | c :: s' => if c =? 0 then Some 0 else option_map (Z.add 1) (strlen s')
  end.

(** ** Text *)
Definition column_used (ord j : Z) : bool :=
  existsb (fun i => pixel ord i j =? 1) (seqZ 0 CHARACTER_HEIGHT).

(** The pixels of column [j] (lines 100-105). *)
Definition drawColumn (buf x y ord r g b j : Z) (m : vram) : vram :=
  zfor 0 CHARACTER_HEIGHT (fun i m =>
    let t := buf + (y + i) * SCREEN_WIDTH + x + j in
    if pixel ord i j =? 1 then drawPoint t r g b m else m) m.
(** [flag] at column [j] (lines 80-95): the first two columns are always kept,
    a later one when it has a pixel. *)
Definition next_flag (ord j flag : Z) : Z :=
  if j >? 1 then c_bool (column_used ord j) else flag.

Definition drawCharacter (buf x y ch r g b : Z) (m : vram) : Z * vram :=
  let ord := schar ch - 0x20 in
  if (ord >? 94) || (ord <? 0) then (-1, m)
  else
    let '(tem_width, _, m) :=
      zfor 0 CHARACTER_WIDTH (fun j '(tem_width, flag, m) =>
        if next_flag ord j flag =? 1
        then (tem_width + 1, next_flag ord j flag, drawColumn buf x y ord r g b j m)
        else (tem_width, next_flag ord j flag, m)) (0, 1, m)
    in (tem_width + 2, m).

Fixpoint drawCharacters_at (pos_x buf x y : Z) (str : list Z) (r g b : Z) : M vram unit :=
  match str with
  | [] => fault
  | ch :: str' =>
      if ch =? 0 then ret tt
      else fun m =>
        let '(w, m') := drawCharacter buf (x + pos_x) y ch r g b m in
        drawCharacters_at (pos_x + w) buf x y str' r g b m'
  end.
Definition drawCharacters (buf x y : Z) (str : list Z) (r g b : Z) : M vram unit :=
  drawCharacters_at 0 buf x y str r g b.

(** ** Rectangles *)

(** The double loop shared by the painters: rows [j], columns [i]; [t] starts
    each row at [start j] and moves right by one pixel per column. *)
Definition paint (j0 j1 i0 i1 : Z) (start : Z -> Z) (color : Z -> Z -> RGB)
    (m : vram) : vram :=
  zfor j0 j1 (fun j m =>
    zfor i0 i1 (fun i m => upd m (start j + (i - i0)) (color j i)) m) m.
Definition rgb (r g b : Z) : RGB := mkRGB b g r.

Definition drawLabel (buf : Z) (label : Label.t) (window : Window.t) (m : vram) : vram :=
  paint 0 (Label.height label) 0 (Label.width label)
    (fun j => buf + (Window.leftTopY window + Label.leftTopY label + j) * SCREEN_WIDTH
              + Window.leftTopX window + Label.leftTopX label)
    (fun _ _ => rgb 0xc8 0xc8 0xc8) m.

Definition drawCursor (buf : Z) (tb : TextBox.t) (window : Window.t) (lines pos_x : Z)
    (m : vram) : vram :=
  let t := buf + (Window.leftTopY window + TextBox.leftTopY tb + lines * 18) * SCREEN_WIDTH
           + Window.leftTopX window + TextBox.leftTopX tb + pos_x in
  zfor 0 CHARACTER_HEIGHT (fun s m => drawPoint (t + s * SCREEN_WIDTH) 0 0 0 m) m.

(** The [while] loop of [drawTextBox] from character [i] of the text on. *)
Fixpoint drawText (buf : Z) (tb : TextBox.t) (window : Window.t)
    (text : list Z) (i j pos_x : Z) : M vram unit :=
  match text with
  | [] => fault
  | c :: text' =>
      if c =? 0 then ret tt
      else
        let '(pos_x, j) :=
          if pos_x >? TextBox.width tb - 9 then (9, j + 1) else (pos_x, j) in
        if c =? 10 then
          let pos_x := 9 in
          let j := j + 1 in
          (when i =? TextBox.cursor tb - 1 do modify (drawCursor buf tb window j pos_x)) ;;;
          match text' with
          | [] => fault
          | d :: _ => if d =? 0 then ret tt
                      else drawText buf tb window text' (i + 1) j pos_x
          end
        else fun m =>
          let '(w, m) :=
            drawCharacter buf (Window.leftTopX window + TextBox.leftTopX tb + pos_x)
              (Window.leftTopY window + TextBox.leftTopY tb + j * CHARACTER_HEIGHT)
              c 0 0 0 m in
          let pos_x := pos_x + w in
          ((when i =? TextBox.cursor tb - 1 do modify (drawCursor buf tb window j pos_x)) ;;;
           drawText buf tb window text' (i + 1) j pos_x) m
  end.

Definition drawTextBox (buf : Z) (tb : TextBox.t) (window : Window.t) : M vram unit :=
  let row j := buf + (Window.leftTopY window + TextBox.leftTopY tb + j) * SCREEN_WIDTH
               + Window.leftTopX window + TextBox.leftTopX tb in
  modify (paint 0 (TextBox.height tb) 0 (TextBox.width tb) row
            (fun _ _ => rgb 0xff 0xff 0xff)) ;;;
  modify (zfor 0 (TextBox.height tb) (fun j m =>
            drawPoint (row j + (TextBox.width tb - 1)) 0xcc 0xcc 0xcc
              (drawPoint (row j) 0xcc 0xcc 0xcc m))) ;;;
  modify (zfor 0 (TextBox.width tb - 1) (fun i m =>
            drawPoint (row 0 + i) 0xcc 0xcc 0xcc m)) ;;;
  modify (zfor 0 (TextBox.width tb - 1) (fun i m =>
            drawPoint (row (TextBox.height tb - 1) + i) 0xcc 0xcc 0xcc m)) ;;;
  drawText buf tb window (TextBox.text tb) 0 0 9 ;;;
  when TextBox.cursor tb =? 0 do modify (drawCursor buf tb window 0 9).

(** Copy a bottom-up image of [width] columns, skipping the pixels [skip]. *)
Definition blit (width height : Z) (image : Z -> RGB) (skip : RGB -> bool)
    (start : Z -> Z) (m : vram) : vram :=
  zfor 0 height (fun j m =>
    zfor 0 width (fun i m =>
      let t2 := image ((height - 1 - j) * width + i) in
      if skip t2 then m else upd m (start j + i) t2) m) m.

(** [image] is [None] when [button->image] is null. *)
Definition drawButton (buf : Z) (button : Button.t) (image : option (Z -> RGB))
    (window : Window.t) : M vram unit :=
  let row j := buf + (Window.leftTopY window + Button.leftTopY button + j) * SCREEN_WIDTH
               + Window.leftTopX window + Button.leftTopX button in
  (match image with
   | Some px => modify (blit (Button.width button) (Button.height button) px
                          (fun c => negb (isAlpha c =? 0)) row)
   | None => modify (paint 0 (Button.height button) 0 (Button.width button) row
                       (fun _ _ => rgb 0xc8 0xc8 0xc8))
   end) ;;;
  if truthy (Window.hasMenu window) then
    drawCharacters buf
      (Window.leftTopX window + Button.leftTopX button + Button.width button + 10)
      (Window.leftTopY window + Button.leftTopY button + Z.quot (Button.height button) 3)
      (Button.text button) 0 0 0
  else
    len <- of_option (strlen (Button.text button)) ;;
    drawCharacters buf
      (Window.leftTopX window + Button.leftTopX button
       + Z.quot (Button.width button) 2 - Z.quot (len * 9) 2)
      (Window.leftTopY window + Button.leftTopY button + Z.quot (Button.height button) 3)
      (Button.text button) 0 0 0.

Definition drawImageView (buf : Z) (v : ImageView.t) (image : Z -> RGB)
    (window : Window.t) (m : vram) : vram :=
  blit (ImageView.width v) (ImageView.height v) image
    (fun c => truthy (ImageView.alphaBG v) && truthy (isAlpha c))
    (fun j => buf + (Window.leftTopY window + ImageView.leftTopY v + j) * SCREEN_WIDTH
              + Window.leftTopX window + ImageView.leftTopX v) m.

Definition drawIconView (buf : Z) (v : IconView.t) (image : Z -> RGB)
    (window : Window.t) : M vram unit :=
  modify (blit (IconView.width v) (IconView.height v) image
            (fun c => negb (isAlpha c =? 0))
            (fun j => buf + (Window.leftTopY window + IconView.leftTopY v + j) * SCREEN_WIDTH
                      + Window.leftTopX window + IconView.leftTopX v)) ;;;
  len <- of_option (strlen (IconView.text v)) ;;
  drawCharacters buf
    (Window.leftTopX window + IconView.leftTopX v
     + Z.quot (IconView.width v) 2 - Z.quot (len * 9) 2)
    (Window.leftTopY window + IconView.leftTopY v + IconView.height v + 5)
    (IconView.text v) 0 0 0.

(** ** Window decoration *)
Definition frame_color (focus : bool) : RGB :=
  if focus then rgb 226 149 91 else rgb 0xbb 0xbb 0xbb.

(** The bytes of the string literal "COOL GUI\0". *)
Definition footer_text : list Z := [67; 79; 79; 76; 32; 71; 85; 73; 0; 0].

Section Window_decoration.
Variables (buf : Z) (window : Window.t) (focus : bool).
Let x := Window.leftTopX window.
Let y := Window.leftTopY window.
Let w := Window.width window.
Let h := Window.height window.
(** [t = buf + (window->leftTopY + j) * SCREEN_WIDTH + window->leftTopX] *)
Definition row_start (j : Z) : Z := buf + (y + j) * SCREEN_WIDTH + x.

(** Lines 313-356: the caption bar and the body. *)
Definition drawBody : M vram unit :=
if Window.hasCaption window =? 1 then
  modify (paint 0 CAPTION_HEIGHT 0 w row_start (fun _ _ => frame_color focus)) ;;;
  len <- of_option (strlen (Window.caption window)) ;;
  drawCharacters buf (x + Z.quot w 2 - Z.quot (len * 9) 2) (y + 5)
    (Window.caption window) 0 0 0 ;;;
  modify (paint CAPTION_HEIGHT (h - BORDER_WIDTH) 0 w row_start (fun j _ =>
    if (j <? CAPTION_HEIGHT + MENU_HEIGHT) && truthy (Window.hasMenu window)
    then rgb 220 226 241
    else if (j =? CAPTION_HEIGHT + MENU_HEIGHT) && truthy (Window.hasMenu window)
    then rgb 0xcc 0xcc 0xcc
    else rgb 0xff 0xff 0xff))
else
  modify (paint 0 h 0 w row_start (fun _ _ => rgb 0xff 0xff 0xff)).

(** Lines 357-393: the three borders. *)
Definition drawBorder : M vram unit :=
modify (paint CAPTION_HEIGHT (h - BORDER_WIDTH + 1) 0 BORDER_WIDTH row_start
          (fun _ _ => frame_color focus)) ;;;
modify (paint CAPTION_HEIGHT (h - BORDER_WIDTH + 1) (w - BORDER_WIDTH) w
          (fun j => row_start j + w - BORDER_WIDTH) (fun _ _ => frame_color focus)) ;;;
modify (paint (h - BORDER_WIDTH - 1) h 0 w row_start (fun _ _ => frame_color focus)).

(** Lines 394-432: the inner grey outline and the white outline around it. *)
Definition drawShadow : M vram unit :=
let grey := rgb 0xcc 0xcc 0xcc in
let white := rgb 0xff 0xff 0xff in
modify (paint 0 1 0 w row_start (fun _ _ => grey)) ;;;
modify (paint (h - 1) h 0 w row_start (fun _ _ => grey)) ;;;
modify (zfor 0 h (fun j m =>
  upd (upd m (row_start j) grey) (row_start j + w - 1) grey)) ;;;
modify (paint (-1) 0 (-1) (w + 1) (fun j => row_start j - 1) (fun _ _ => white)) ;;;
modify (paint h (h + 1) (-1) (w + 1) (fun j => row_start j - 1) (fun _ _ => white)) ;;;
modify (zfor (-1) (h + 1) (fun j m =>
  upd (upd m (row_start j - 1) white) (row_start j + w) white)).

(** Lines 433-449: the footer bar. *)
Definition drawFooter : M vram unit :=
if truthy (Window.hasFooter window) then
  modify (zfor (h - BORDER_WIDTH - FOOTER_HEIGHT - 1) (h - BORDER_WIDTH) (fun j m =>
    zfor (BORDER_WIDTH + 1) (w - BORDER_WIDTH + 1) (fun i m =>
      let t := row_start j + BORDER_WIDTH + (i - (BORDER_WIDTH + 1)) in
      let m := if j =? h - BORDER_WIDTH - FOOTER_HEIGHT - 1
               then upd m (t - SCREEN_WIDTH) (rgb 0xcc 0xcc 0xcc) else m in
      upd m t (rgb 220 226 241)) m)) ;;;
  len <- of_option (strlen footer_text) ;;
  drawCharacters buf (x + w - len * 9 - 20) (y + h - 30) footer_text 0 0 0
else ret tt.

Definition drawWindow : M vram unit :=
drawBody ;;; drawBorder ;;; drawShadow ;;; drawFooter.
End Window_decoration.
