(* ===== verification/DrawFacts.v ===== *)
(** * DrawFacts: what the drawing routines write, and where

    Every painter of gui.c writes a fixed list of (offset, colour) pairs
    relative to the buffer it is given, whatever the buffer holds.  [script]
    states this together with a predicate on the offsets; bounds and the
    agreement of two buffers painted alike both follow from it.  The second
    part gives the exact contents after the rectangle loops. *)
From S2P Require Import Prelude Font GuiState Draw.

(** ** Scripts of writes *)
Definition run_writes (buf : Z) (l : list (Z * RGB)) (m : vram) : vram :=
  fold_left (fun m w => upd m (buf + w.1) w.2) l m.

(** [f] performs, in any buffer, the same writes, at offsets satisfying [P]. *)
Definition script (P : Z -> Prop) (f : Z -> vram -> vram) : Prop :=
  exists l, Forall (fun w => P w.1) l /\ forall buf m, f buf m = run_writes buf l m.
(** The same for code in the error monad: it returns, having run the script. *)
Definition mscript (P : Z -> Prop) (c : Z -> M vram unit) : Prop :=
  exists l, Forall (fun w => P w.1) l /\
            forall buf m, c buf m = Ok (tt, run_writes buf l m).

Section Scripts.
Implicit Types (P : Z -> Prop) (buf : Z) (m : vram).

Lemma run_writes_app buf l1 l2 m :
  run_writes buf (l1 ++ l2) m = run_writes buf l2 (run_writes buf l1 m).
Proof. apply fold_left_app. Qed.

Lemma run_writes_frame P buf l m a :
  Forall (fun w => P w.1) l -> ~ P (a - buf) -> run_writes buf l m a = m a.
Proof.
  intros HF HP. revert m. induction HF as [|[o c] l Ho _ IH]; intros m; [done|].
  simpl. rewrite IH. apply upd_ne. intros ->. apply HP.
  by replace (buf + o - buf) with o by lia.
Qed.

Lemma run_writes_agree b1 b2 l m1 m2 p :
  m1 (b1 + p) = m2 (b2 + p) -> run_writes b1 l m1 (b1 + p) = run_writes b2 l m2 (b2 + p).
Proof.
  revert m1 m2. induction l as [|[o c] l IH]; intros m1 m2 H; [done|].
  simpl. apply IH. unfold upd.
  destruct (Z.eqb_spec (b1 + p) (b1 + o)), (Z.eqb_spec (b2 + p) (b2 + o)); lia || done.
Qed.

Lemma script_id P : script P (fun _ m => m).
Proof. by exists []. Qed.

Lemma script_upd P (t : Z -> Z) o c :
  (forall buf, t buf = buf + o) -> P o -> script P (fun buf m => upd m (t buf) c).
Proof.
  intros Ht Ho. exists [(o, c)]. split; [by constructor|].
  intros. simpl. by rewrite Ht.
Qed.

Lemma script_comp P f g :
  script P f -> script P g -> script P (fun buf m => g buf (f buf m)).
Proof.
  intros (l1 & F1 & E1) (l2 & F2 & E2). exists (l1 ++ l2).
  split; [by apply Forall_app|]. intros. by rewrite run_writes_app, <- E1, <- E2.
Qed.

Lemma script_zfor P lo hi (f : Z -> Z -> vram -> vram) :
  (forall i, lo <= i < hi -> script P (fun buf => f buf i)) ->
  script P (fun buf m => zfor lo hi (f buf) m).
Proof.
  intros H. destruct (decide (lo <= hi)) as [Hle|]; cycle 1.
  { exists []. split; [done|]. intros. by rewrite zfor_nil by lia. }
  remember (Z.to_nat (hi - lo)) as n eqn:Hn. revert lo Hle Hn H.
  induction n as [|n IH]; intros lo Hle Hn H.
  { exists []. split; [done|]. intros. by rewrite zfor_nil by lia. }
  destruct (H lo ltac:(lia)) as (l1 & F1 & E1).
  destruct (IH (lo + 1)) as (l2 & F2 & E2); [lia | lia | |].
  { intros i Hi. apply H. lia. }
  exists (l1 ++ l2). split; [by apply Forall_app|]. intros.
  by rewrite zfor_step, run_writes_app, <- E1, <- E2 by lia.
Qed.

Lemma mscript_modify P f : script P f -> mscript P (fun buf => modify (f buf)).
Proof.
  intros (l & F & E). exists l. split; [done|].
  intros. unfold modify. by rewrite E.
Qed.

Lemma mscript_ret P : mscript P (fun _ => ret tt).
Proof. by exists []. Qed.

Lemma mscript_seq P c d :
  mscript P c -> mscript P d -> mscript P (fun buf => c buf ;;; d buf).
Proof.
  unfold M_bind. intros (l1 & F1 & E1) (l2 & F2 & E2).
  exists (l1 ++ l2). split; [by apply Forall_app|].
  intros. by rewrite E1, E2, run_writes_app.
Qed.

Lemma mscript_of_option {A} P (o : option A) (k : Z -> A -> M vram unit) :
  is_Some o -> (forall x, o = Some x -> mscript P (fun buf => k buf x)) ->
  mscript P (fun buf => x <- of_option o ;; k buf x).
Proof. intros [x ->] H. by apply (H x). Qed.

Lemma mscript_when P (b : bool) c :
  mscript P c -> mscript P (fun buf => when b do c buf).
Proof. intros H. destruct b; [done | apply mscript_ret]. Qed.

(** What a script leaves alone, and two buffers painted by one script. *)
Lemma mscript_frame P c buf m :
  mscript P c -> exists m', c buf m = Ok (tt, m') /\ forall a, ~ P (a - buf) -> m' a = m a.
Proof.
  intros (l & F & E). eexists. split; [apply E|].
  intros a HP. by eapply run_writes_frame.
Qed.

Lemma mscript_agree P c b1 b2 m1 m2 :
  mscript P c -> exists m1' m2', c b1 m1 = Ok (tt, m1') /\ c b2 m2 = Ok (tt, m2') /\
    forall p, m1 (b1 + p) = m2 (b2 + p) -> m1' (b1 + p) = m2' (b2 + p).
Proof.
  intros (l & F & E). do 2 eexists. split; [apply E|]. split; [apply E|].
  intros p. apply run_writes_agree.
Qed.
End Scripts.

Create HintDb draw.
#[export] Hint Resolve script_id mscript_ret mscript_modify mscript_seq mscript_when : draw.

(** ** Rectangles and images *)
Lemma script_paint P j0 j1 i0 i1 (start : Z -> Z -> Z) (so : Z -> Z) color :
  (forall buf j, start buf j = buf + so j) ->
  (forall j i, j0 <= j < j1 -> i0 <= i < i1 -> P (so j + (i - i0))) ->
  script P (fun buf => paint j0 j1 i0 i1 (start buf) color).
Proof.
  intros Hs HP. unfold paint. apply script_zfor. intros j Hj.
  apply script_zfor. intros i Hi.
  apply (script_upd _ _ (so j + (i - i0))); [intros; rewrite Hs; lia | by apply HP].
Qed.

Lemma script_blit P w h image skip (start : Z -> Z -> Z) (so : Z -> Z) :
  (forall buf j, start buf j = buf + so j) ->
  (forall j i, 0 <= j < h -> 0 <= i < w -> P (so j + i)) ->
  script P (fun buf => blit w h image skip (start buf)).
Proof.
  intros Hs HP. unfold blit. apply script_zfor. intros j Hj.
  apply script_zfor. intros i Hi. destruct (skip _); [apply script_id|].
  apply (script_upd _ _ (so j + i)); [intros; rewrite Hs; lia | by apply HP].
Qed.

(** ** Text *)

(** The loop of [drawCharacter] without the painting. *)
Definition width_step (ord j : Z) (s : Z * Z) : Z * Z :=
  if next_flag ord j s.2 =? 1 then (s.1 + 1, next_flag ord j s.2)
  else (s.1, next_flag ord j s.2).
(** The advance of glyph [ord]: the number of columns it keeps plus 2. *)
Definition advance (ord : Z) : Z :=
  (zfor 0 CHARACTER_WIDTH (width_step ord) (0, 1)).1 + 2.
Definition char_width (ch : Z) : Z :=
  let ord := schar ch - 0x20 in
  if (ord >? 94) || (ord <? 0) then -1 else advance ord.

Section Characters.
Variables (P : Z -> Prop) (x y ch r g b : Z).
Hypothesis HP : forall i j, 0 <= i < CHARACTER_HEIGHT -> 0 <= j < CHARACTER_WIDTH ->
  P ((y + i) * SCREEN_WIDTH + x + j).

Lemma drawColumn_script ord j :
  0 <= j < CHARACTER_WIDTH -> script P (fun buf => drawColumn buf x y ord r g b j).
Proof using HP.
  intros Hj. apply (script_zfor P 0 CHARACTER_HEIGHT (fun buf i m =>
    if pixel ord i j =? 1 then drawPoint (buf + (y + i) * SCREEN_WIDTH + x + j) r g b m
    else m)).
  intros i Hi. destruct (_ =? 1); [|apply script_id].
  apply (script_upd _ _ ((y + i) * SCREEN_WIDTH + x + j)); [intros; lia | by apply HP].
Qed.

Lemma char_loop_script ord n lo s :
  lo + Z.of_nat n = CHARACTER_WIDTH -> 0 <= lo ->
  exists l, Forall (fun w => P w.1) l /\ forall buf m,
    zfor lo CHARACTER_WIDTH (fun j '(tem_width, flag, m) =>
      if next_flag ord j flag =? 1
      then (tem_width + 1, next_flag ord j flag, drawColumn buf x y ord r g b j m)
      else (tem_width, next_flag ord j flag, m)) (s, m)
    = (zfor lo CHARACTER_WIDTH (width_step ord) s, run_writes buf l m).
Proof using HP.
  revert lo s. induction n as [|n IH]; intros lo [w f] Hn Hlo.
  { exists []. split; [done|]. intros. by rewrite !zfor_nil by lia. }
  destruct (drawColumn_script ord lo ltac:(lia)) as (l1 & F1 & E1).
  destruct (IH (lo + 1) (width_step ord lo (w, f))) as (l2 & F2 & E2); [lia | lia |].
  exists ((if next_flag ord lo f =? 1 then l1 else []) ++ l2). split.
  { apply Forall_app. split; [|done]. by case_if. }
  intros buf m. rewrite zfor_step, (zfor_step lo), run_writes_app, <- E2 by lia.
  unfold width_step; simpl. case_if; [by rewrite E1 | done].
Qed.

Lemma drawCharacter_script :
  exists l, Forall (fun w => P w.1) l /\ forall buf m,
    drawCharacter buf x y ch r g b m = (char_width ch, run_writes buf l m).
Proof using HP.
  unfold drawCharacter, char_width. destruct (_ || _); [by exists []|].
  destruct (char_loop_script (schar ch - 0x20) 9 0 (0, 1)) as (l & F & E); [done | done |].
  exists l. split; [done|]. intros. rewrite E. unfold advance.
  by destruct (zfor 0 CHARACTER_WIDTH _ (0, 1)) as [w f].
Qed.
End Characters.

Lemma advance_range ord : 0 <= ord <= 94 -> 4 <= advance ord <= 11.
Proof.
  intros H.
  assert (Hall : forallb (fun o => (4 <=? advance o) && (advance o <=? 11)) (seqZ 0 95) = true)
    by by vm_compute.
  rewrite forallb_forall in Hall.
  specialize (Hall ord). rewrite andb_true_iff, !Z.leb_le in Hall.
  apply Hall. apply list_elem_of_In, elem_of_seqZ. lia.
Qed.

Lemma char_width_range ch : -1 <= char_width ch <= 11.
Proof.
  unfold char_width. destruct (_ || _) eqn:E; [lia|]. zbool.
  pose proof (advance_range (schar ch - 32) ltac:(lia)). lia.
Qed.

Lemma drawCharacters_at_script P x y str r g b pos :
  is_Some (strlen str) ->
  (forall p i j, pos - Z.of_nat (length str) <= p <= pos + 11 * Z.of_nat (length str) ->
     0 <= i < CHARACTER_HEIGHT -> 0 <= j < CHARACTER_WIDTH ->
     P ((y + i) * SCREEN_WIDTH + (x + p) + j)) ->
  mscript P (fun buf => drawCharacters_at pos buf x y str r g b).
Proof.
  revert pos. induction str as [|ch str IH]; intros pos Hlen HP.
  { by destruct Hlen. }
  simpl in *. destruct (ch =? 0); [apply mscript_ret|].
  destruct (drawCharacter_script P (x + pos) y ch r g b) as (l1 & F1 & E1).
  { intros i j Hi Hj. apply (HP pos i j); [lia | done | done]. }
  pose proof (char_width_range ch) as Hw.
  destruct (IH (pos + char_width ch)) as (l2 & F2 & E2).
  { by destruct (strlen str); [|destruct Hlen]. }
  { intros p i j Hp Hi Hj. apply HP; [lia | done | done]. }
  exists (l1 ++ l2). split; [by apply Forall_app|].
  intros. by rewrite E1, E2, run_writes_app.
Qed.

Lemma strlen_bound s n : strlen s = Some n -> 0 <= n < Z.of_nat (length s).
Proof.
  revert n. induction s as [|c s IH]; intros n; [done|]. simpl.
  destruct (c =? 0); [intros; simplify_eq; lia|].
  destruct (strlen s) as [k|]; [|done]. simpl. intros. simplify_eq.
  specialize (IH k eq_refl). lia.
Qed.

(** ** The contents after a rectangle loop *)

(** One row: columns [i0..i1) from address [s] on; [None] leaves a pixel. *)
Lemma row_spec i0 i1 s (c : Z -> option RGB) (m : vram) a :
  zfor i0 i1 (fun i m => match c i with Some v => upd m (s + (i - i0)) v | None => m end) m a
  = if (s <=? a) && (a <? s + (i1 - i0)) then default (m a) (c (a - s + i0)) else m a.
Proof.
  destruct (decide (i0 <= i1)) as [Hle|]; cycle 1.
  { rewrite zfor_nil by lia. destruct (_ && _) eqn:E; [zbool; lia|done]. }
  apply (zfor_ind (fun i m' => m' a =
    if (s <=? a) && (a <? s + (i - i0)) then default (m a) (c (a - s + i0)) else m a)); [done| |].
  { destruct (_ && _) eqn:E; [zbool; lia | done]. }
  intros i m' Hi IH. destruct (decide (a = s + (i - i0))) as [->|Hne].
  - replace (s + (i - i0) - s + i0) with i in * by lia.
    replace (_ && _) with true by (symmetry; rewrite andb_true_iff, Z.leb_le, Z.ltb_lt; lia).
    replace (_ && _) with false in IH
      by (symmetry; rewrite andb_false_iff, Z.leb_gt, Z.ltb_ge; lia).
    by destruct (c i); [rewrite upd_eq | rewrite IH].
  - transitivity (m' a); [by destruct (c i); [rewrite upd_ne by done|]|].
    rewrite IH. replace (a <? s + (i + 1 - i0)) with (a <? s + (i - i0)); [done|].
    destruct (Z.ltb_spec a (s + (i - i0))), (Z.ltb_spec a (s + (i + 1 - i0))); lia || done.
Qed.

(** Rows [j0..j1) one screen line apart, no wider than the screen. *)
Lemma rect_spec j0 j1 i0 i1 s0 (c : Z -> Z -> option RGB) (m : vram) a :
  i1 - i0 <= SCREEN_WIDTH ->
  zfor j0 j1 (fun j m => zfor i0 i1 (fun i m =>
    match c j i with Some v => upd m (s0 + j * SCREEN_WIDTH + (i - i0)) v | None => m end) m) m a
  = let q := (a - s0) `div` SCREEN_WIDTH in
    let r := (a - s0) `mod` SCREEN_WIDTH in
    if (j0 <=? q) && (q <? j1) && (r <? i1 - i0) then default (m a) (c q (r + i0)) else m a.
Proof.
  intros Hw. simpl. set (q := (a - s0) / SCREEN_WIDTH). set (r := (a - s0) mod SCREEN_WIDTH).
  assert (Ha : a = s0 + q * SCREEN_WIDTH + r /\ 0 <= r < SCREEN_WIDTH).
  { pose proof (Z.div_mod (a - s0) SCREEN_WIDTH ltac:(done)).
    pose proof (Z.mod_pos_bound (a - s0) SCREEN_WIDTH ltac:(done)). subst q r. lia. }
  destruct Ha as [Ha Hr]. clearbody q r.
  destruct (decide (j0 <= j1)) as [Hle|]; cycle 1.
  { rewrite zfor_nil by lia. destruct (_ && _) eqn:E; [zbool; lia|done]. }
  apply (zfor_ind (fun j m' => m' a =
    if (j0 <=? q) && (q <? j) && (r <? i1 - i0) then default (m a) (c q (r + i0)) else m a));
    [done| |].
  { destruct (_ && _) eqn:E; [zbool; lia | done]. }
  intros j m' Hj IH. rewrite row_spec, IH. clear IH. unfold SCREEN_WIDTH in *.
  destruct (decide (q = j)) as [->|Hne].
  - replace (a - (s0 + j * 1280) + i0) with (r + i0) by lia.
    destruct (Z.ltb_spec r (i1 - i0)).
    + replace (_ && _) with true by (symmetry; rewrite andb_true_iff, Z.leb_le, Z.ltb_lt; lia).
      replace (j <? j + 1) with true by (symmetry; apply Z.ltb_lt; lia).
      replace (j <? j) with false by (symmetry; apply Z.ltb_ge; lia).
      replace (j0 <=? j) with true by (symmetry; apply Z.leb_le; lia). done.
    + replace (_ && _) with false by (symmetry; rewrite andb_false_iff, Z.leb_gt, Z.ltb_ge; lia).
      by rewrite !andb_false_r.
  - replace ((s0 + j * 1280 <=? a) && _) with false
      by (symmetry; rewrite andb_false_iff, Z.leb_gt, Z.ltb_ge; lia).
    by replace (q <? j + 1) with (q <? j)
      by (destruct (Z.ltb_spec q j), (Z.ltb_spec q (j + 1)); lia || done).
Qed.

Lemma blit_spec w h image skip s0 (m : vram) a :
  w <= SCREEN_WIDTH ->
  blit w h image skip (fun j => s0 + j * SCREEN_WIDTH) m a
  = let j := (a - s0) `div` SCREEN_WIDTH in
    let i := (a - s0) `mod` SCREEN_WIDTH in
    let p := image ((h - 1 - j) * w + i) in
    if (0 <=? j) && (j <? h) && (i <? w) && negb (skip p) then p else m a.
Proof.
  intros Hw.
  pose proof (rect_spec 0 h 0 w s0 (fun j i =>
    let p := image ((h - 1 - j) * w + i) in if skip p then None else Some p) m a
    ltac:(lia)) as E.
  simpl in E |- *. rewrite Z.add_0_r, Z.sub_0_r in E.
  transitivity (zfor 0 h (fun j m => zfor 0 w (fun i m =>
     match (if skip (image ((h - 1 - j) * w + i)) then None
            else Some (image ((h - 1 - j) * w + i))) with
     | Some v => upd m (s0 + j * SCREEN_WIDTH + (i - 0)) v | None => m end) m) m a).
  { unfold blit. apply (f_equal (fun k => k a)). apply zfor_ext. intros j b _. apply zfor_ext. intros i b' _.
    rewrite Z.sub_0_r. destruct (skip (image ((h - 1 - j) * w + i))); done. }
  rewrite E. destruct (_ && _); simpl; [|done].
  by destruct (skip _).
Qed.

(** ** Offsets inside a buffer *)
Definition in_buffer (o : Z) : Prop := 0 <= o < totalPels.

(** Solve "offset in buffer" goals for rows and columns bounded in the context. *)
Ltac in_buffer :=
  unfold in_buffer, totalPels, SCREEN_WIDTH, SCREEN_HEIGHT, CHARACTER_HEIGHT,
    CHARACTER_WIDTH, CAPTION_HEIGHT, MENU_HEIGHT, BORDER_WIDTH, FOOTER_HEIGHT in *;
  Z.to_euclidean_division_equations; lia.

(** A window at least one pixel inside the screen and large enough for its
    caption, borders and footer, with a terminated caption. *)
Definition well_placed (w : Window.t) : Prop :=
  1 <= Window.leftTopX w /\ Window.leftTopX w + Window.width w <= SCREEN_WIDTH - 1 /\
  1 <= Window.leftTopY w /\ Window.leftTopY w + Window.height w <= SCREEN_HEIGHT - 1 /\
  20 <= Window.width w /\ 40 <= Window.height w /\
  Z.of_nat (length (Window.caption w)) <= MAX_STRING_NUM /\
  is_Some (strlen (Window.caption w)).

Section Window_scripts.
Variables (w : Window.t) (focus : bool).
Hypothesis Hw : well_placed w.

Lemma row_start_offset buf j :
  row_start buf w j = buf + ((Window.leftTopY w + j) * SCREEN_WIDTH + Window.leftTopX w).
Proof using. unfold row_start. lia. Qed.

(** Rectangles whose rows start [d] pixels right of the window's edge. *)
Lemma window_rect d j0 j1 i0 i1 (start : Z -> Z -> Z) color :
  (forall buf j, start buf j = row_start buf w j + d) ->
  -1 <= j0 -> j1 <= Window.height w + 1 ->
  -1 <= d -> d + (i1 - i0) <= Window.width w + 1 ->
  mscript in_buffer (fun buf => modify (paint j0 j1 i0 i1 (start buf) color)).
Proof using Hw.
  intros Hs ????. destruct Hw as (?&?&?&?&?&?&?&?). apply mscript_modify.
  apply (script_paint _ _ _ _ _ _
    (fun j => (Window.leftTopY w + j) * SCREEN_WIDTH + Window.leftTopX w + d)).
  - intros. rewrite Hs, row_start_offset. lia.
  - intros. in_buffer.
Qed.

Lemma window_pixel d j (t : Z -> Z) c :
  (forall buf, t buf = row_start buf w j + d) ->
  -1 <= j <= Window.height w -> -1 <= d <= Window.width w ->
  script in_buffer (fun buf m => upd m (t buf) c).
Proof using Hw.
  intros Ht ??. destruct Hw as (?&?&?&?&?&?&?&?).
  apply (script_upd _ _ ((Window.leftTopY w + j) * SCREEN_WIDTH + Window.leftTopX w + d)).
  - intros. rewrite Ht, row_start_offset. lia.
  - in_buffer.
Qed.

(** Two pixels in every row [lo..hi). *)
Lemma window_columns lo hi d1 d2 (t1 t2 : Z -> Z -> Z) c1 c2 :
  (forall buf j, t1 buf j = row_start buf w j + d1) ->
  (forall buf j, t2 buf j = row_start buf w j + d2) ->
  -1 <= lo -> hi <= Window.height w + 1 ->
  -1 <= d1 <= Window.width w -> -1 <= d2 <= Window.width w ->
  mscript in_buffer (fun buf => modify (zfor lo hi (fun j m =>
    upd (upd m (t1 buf j) c1) (t2 buf j) c2))).
Proof using Hw.
  intros H1 H2 ????. apply mscript_modify, script_zfor. intros j Hj.
  apply (script_comp _ (fun buf m => upd m (t1 buf j) c1) (fun buf m => upd m (t2 buf j) c2)).
  - by apply (window_pixel d1 j); [|lia|].
  - by apply (window_pixel d2 j); [|lia|].
Qed.

Lemma drawBody_script : mscript in_buffer (fun buf => drawBody buf w focus).
Proof using Hw.
  pose proof Hw as (?&?&?&?&?&?&?&Hs). unfold drawBody.
  case_if; [|apply (window_rect 0); [intros; lia | lia..]].
  apply mscript_seq; [apply (window_rect 0); [intros; lia | in_buffer..]|].
  apply mscript_of_option; [done|]. intros len Hlen%strlen_bound.
  apply mscript_seq; [|apply (window_rect 0); [intros; lia | in_buffer..]].
  apply drawCharacters_at_script; [done|]. intros.
  unfold MAX_STRING_NUM in *. in_buffer.
Qed.

Lemma drawBorder_script : mscript in_buffer (fun buf => drawBorder buf w focus).
Proof using Hw.
  pose proof Hw as (?&?&?&?&?&?&?&_). unfold drawBorder.
  apply mscript_seq; [apply (window_rect 0); [intros; lia | in_buffer..]|].
  apply mscript_seq; [|apply (window_rect 0); [intros; lia | in_buffer..]].
  apply (window_rect (Window.width w - BORDER_WIDTH)); [intros; lia | in_buffer..].
Qed.

Lemma drawShadow_script : mscript in_buffer (fun buf => drawShadow buf w).
Proof using Hw.
  pose proof Hw as (?&?&?&?&?&?&?&_). unfold drawShadow.
  apply mscript_seq; [apply (window_rect 0); [intros; lia | lia..]|].
  apply mscript_seq; [apply (window_rect 0); [intros; lia | lia..]|].
  apply mscript_seq.
  { apply (window_columns _ _ 0 (Window.width w - 1)); intros; lia. }
  apply mscript_seq; [apply (window_rect (-1)); [intros; lia | lia..]|].
  apply mscript_seq; [apply (window_rect (-1)); [intros; lia | lia..]|].
  apply (window_columns _ _ (-1) (Window.width w)); intros; lia.
Qed.

Lemma drawFooter_script : mscript in_buffer (fun buf => drawFooter buf w).
Proof using Hw.
  pose proof Hw as (?&?&?&?&?&?&?&_). unfold drawFooter.
  case_if; [|apply mscript_ret]. apply mscript_seq.
  - apply mscript_modify, script_zfor. intros j Hj.
    apply (script_zfor in_buffer (BORDER_WIDTH + 1) (Window.width w - BORDER_WIDTH + 1)
      (fun buf i m => let t := row_start buf w j + BORDER_WIDTH + (i - (BORDER_WIDTH + 1)) in
        upd (if j =? Window.height w - BORDER_WIDTH - FOOTER_HEIGHT - 1
             then upd m (t - SCREEN_WIDTH) (rgb 204 204 204) else m) t (rgb 220 226 241))).
    intros i Hi. cbv zeta.
    apply (script_comp _ (fun buf m =>
        if j =? Window.height w - BORDER_WIDTH - FOOTER_HEIGHT - 1
        then upd m (row_start buf w j + BORDER_WIDTH + (i - (BORDER_WIDTH + 1)) - SCREEN_WIDTH)
               (rgb 204 204 204) else m)
      (fun buf m => upd m (row_start buf w j + BORDER_WIDTH + (i - (BORDER_WIDTH + 1)))
                      (rgb 220 226 241))).
    + case_if; [|apply script_id]. zbool.
      apply (window_pixel (i - 1) (j - 1)); [|in_buffer..].
      intros. rewrite !row_start_offset. in_buffer.
    + apply (window_pixel (i - 1) j); [intros|..]; in_buffer.
  - apply mscript_of_option; [done|]. intros len Hlen. simpl in Hlen. simplify_eq.
    apply drawCharacters_at_script; [done|]. intros p i j Hp Hi Hj. simpl in Hp. in_buffer.
Qed.

Lemma drawWindow_script : mscript in_buffer (fun buf => drawWindow buf w focus).
Proof using Hw.
  unfold drawWindow.
  auto using mscript_seq, drawBody_script, drawBorder_script, drawShadow_script,
    drawFooter_script.
Qed.
End Window_scripts.

(** Drawing a window that is at least one pixel inside the screen (and tall
    and wide enough for its decorations, with a terminated caption) returns
    normally and writes only inside the target buffer: every pixel before
    [buf] and from [buf + SCREEN_WIDTH * SCREEN_HEIGHT] on is unchanged. *)
Theorem drawWindow_in_buffer buf w focus m :
  well_placed w ->
  exists m', drawWindow buf w focus m = Ok (tt, m') /\
    forall a, a < buf \/ buf + totalPels <= a -> m' a = m a.
Proof.
  intros Hw. destruct (mscript_frame _ _ buf m (drawWindow_script w focus Hw)) as (m' & E & F).
  exists m'. split; [done|]. intros a Ha. apply F. unfold in_buffer. lia.
Qed.

(** A bottom-up image is shown upright: after [drawImageView] of an image no
    wider than the screen, the pixel in row [j], column [i] of the view is the
    image pixel in row [height - 1 - j], unless alpha blending is on and that
    pixel is black; every pixel outside the view's rectangle is unchanged. *)
Theorem drawImageView_upright buf v image window m j i :
  ImageView.width v <= SCREEN_WIDTH ->
  0 <= i < SCREEN_WIDTH ->
  let a := buf + (Window.leftTopY window + ImageView.leftTopY v + j) * SCREEN_WIDTH
           + Window.leftTopX window + ImageView.leftTopX v + i in
  let p := image ((ImageView.height v - 1 - j) * ImageView.width v + i) in
  drawImageView buf v image window m a
  = if (0 <=? j) && (j <? ImageView.height v) && (i <? ImageView.width v)
       && negb (truthy (ImageView.alphaBG v) && truthy (isAlpha p))
    then p else m a.
Proof.
  intros Hw Hi a p. unfold drawImageView.
  set (s0 := buf + (Window.leftTopY window + ImageView.leftTopY v) * SCREEN_WIDTH
             + Window.leftTopX window + ImageView.leftTopX v).
  transitivity (blit (ImageView.width v) (ImageView.height v) image
    (fun c => truthy (ImageView.alphaBG v) && truthy (isAlpha c))
    (fun j => s0 + j * SCREEN_WIDTH) m a).
  { apply (f_equal (fun k => k a)). unfold blit. apply zfor_ext. intros j' b _.
    apply zfor_ext. intros i' b' _. by replace (buf + _ + _ + _) with (s0 + j' * SCREEN_WIDTH)
      by (subst s0; ring). }
  rewrite blit_spec by done. cbv zeta.
  replace (a - s0) with (i + j * SCREEN_WIDTH) by (subst a s0; ring).
  rewrite Z.div_add, Z.mod_add, Z.div_small, Z.mod_small by (done || lia).
  by rewrite Z.add_0_l.
Qed.

