(* ===== verification/Gui.v ===== *)
(** * Gui: composing the screen (src/src/gui.c, lines 452-784)

    Windows are drawn bottom-up into [screen_temp1] (all but the last) and
    [screen_temp2] (plus the last one); [screen] is a copy of [screen_temp2]
    with the mouse pointer on top.  The queue loops carry a bound on the
    number of nodes they visit; [queue_fuel] exceeds the 33 nodes that exist. *)
From S2P Require Import Prelude Font GuiState Draw.

Definition draw {A} (c : M vram A) : G A := zoom g_vram set_vram c.
Definition queue_fuel : nat := 40.

(** ** Widgets: the switch in [drawBackWindows] and [drawLastWindow] *)
Definition drawWidget (buf : Z) (window : Window.t) (wd : Widget) : G unit :=
  match wd with
  | W_label p => l <- load_label p ;; draw (modify (drawLabel buf l window))
  | W_textBox p => b <- load_textBox p ;; draw (drawTextBox buf b window)
  | W_button p =>
      b <- load_button p ;;
      px <- (if Button.image b =? 0 then ret None
             else px <- load_image (Button.image b) ;; ret (Some px)) ;;
      draw (drawButton buf b px window)
  | W_imageView p =>
      v <- load_imageView p ;;
      px <- load_image (ImageView.image v) ;;
      draw (modify (drawImageView buf v px window))
  | W_iconView p =>
      v <- load_iconView p ;;
      px <- load_image (IconView.image v) ;;
      draw (drawIconView buf v px window)
  | W_other _ _ => ret tt
  end.

Definition drawWindowFull (buf : Z) (a : Z) (focus : bool) : G unit :=
  window <- load_window a ;;
  if Window.show window =? 1 then
    draw (drawWindow buf window focus) ;;;
    mfor 0 (Window.widgetsNum window) (fun k =>
      wd <- widget_at window k ;; drawWidget buf window wd)
  else ret tt.

(** ** Lines 452-492 *)
Fixpoint drawBackWindows_loop (fuel : nat) (p : option wptr) : G unit :=
  match fuel with
  | O => out_of_fuel
  | S fuel =>
      n <- deref p ;;
      last <- gets (fun g => lastWindow (g_wq g)) ;;
      if decide (wq_next n = last) then ret tt
      else
        let p := wq_next n in
        n <- deref p ;;
        switchuvm (wq_proc n) ;;;
        (if wq_window n =? 0 then ret tt
         else drawWindowFull screen_temp1 (wq_window n) false) ;;;
        drawBackWindows_loop fuel p
  end.
Definition drawBackWindows : G unit :=
  drawBackWindows_loop queue_fuel (Some Head) ;;; switch_back.

(** ** Lines 494-515: erase the last window from [screen_temp2] *)
Definition restoreRect (lx ly w h : Z) (m : vram) : vram :=
  zfor (-1) (h + 1) (fun j m =>
    zfor (-1) (w + 1) (fun i m =>
      upd m (screen_temp2 + (ly + j) * SCREEN_WIDTH + lx - 1 + (i + 1))
            (m (screen_temp1 + (ly + j) * SCREEN_WIDTH + lx - 1 + (i + 1)))) m) m.
Definition removeLastWindow : G unit :=
  last <- gets (fun g => lastWindow (g_wq g)) ;;
  n <- deref last ;;
  switchuvm (wq_proc n) ;;;
  w <- load_window (wq_window n) ;;
  draw (modify (restoreRect (Window.last_leftTopX w) (Window.last_leftTopY w)
                  (Window.width w) (Window.height w))) ;;;
  switch_back.

(** ** Lines 517-554 *)
Definition drawLastWindow : G unit :=
  last <- gets (fun g => lastWindow (g_wq g)) ;;
  n <- deref last ;;
  switchuvm (wq_proc n) ;;;
  (if wq_window n =? 0 then ret tt
   else drawWindowFull screen_temp2 (wq_window n) true) ;;;
  w <- load_window (wq_window n) ;;
  ustore (wq_window n)
    (U_window (Window.set_last (Window.leftTopX w) (Window.leftTopY w) w)) ;;;
  switch_back.

(** ** The mouse pointer *)

(** [for (i = lo; i < hi; i++) if (stop(i)) break; else a = f(i, a);] *)
Fixpoint break_list {A} (l : list Z) (stop : Z -> bool) (f : Z -> A -> A) (a : A) : A :=
  match l with
  | [] => a
  | i :: l' => if stop i then a else break_list l' stop f (f i a)
  end.
Definition zfor_break {A} (lo hi : Z) (stop : Z -> bool) (f : Z -> A -> A) (a : A) : A :=
  break_list (seqZ lo (hi - lo)) stop f a.

(** Rows and columns of the pointer, cut at the screen's edges. *)
Definition mouse_rows (y lo hi : Z) (f : Z -> vram -> vram) : vram -> vram :=
  zfor_break lo hi (fun j => y + j >=? SCREEN_HEIGHT) f.
Definition mouse_cols (x hi : Z) (f : Z -> vram -> vram) : vram -> vram :=
  zfor_break 0 hi (fun i => x + i >=? SCREEN_WIDTH) f.

(** Lines 556-580, for the position where the pointer was last drawn. *)
Definition removeMouse_at (x y : Z) (m : vram) : vram :=
  mouse_rows y 0 MOUSE_HEIGHT (fun j =>
    mouse_cols x MOUSE_WIDTH (fun i m =>
      upd m (screen + (y + j) * SCREEN_WIDTH + x + i)
            (m (screen_temp2 + (y + j) * SCREEN_WIDTH + x + i)))) m.

(** [dm[14][14]]: the pointer shown while dragging. *)
Definition dm : list (list Z) := [
  [0; 0; 0; 0; 0; 1; 1; 1; 1; 0; 0; 0; 0; 0];
  [0; 0; 0; 0; 1; 1; 2; 2; 1; 1; 0; 0; 0; 0];
  [0; 0; 0; 1; 2; 2; 2; 2; 2; 2; 1; 0; 0; 0];
  [0; 0; 1; 2; 2; 2; 2; 2; 2; 2; 2; 1; 0; 0];
  [0; 1; 2; 2; 2; 2; 2; 2; 2; 2; 2; 2; 1; 0];
  [1; 1; 2; 2; 2; 2; 2; 2; 2; 2; 2; 2; 1; 1];
  [1; 2; 2; 2; 2; 2; 2; 2; 2; 2; 2; 2; 2; 1];
  [1; 2; 2; 2; 2; 2; 2; 2; 2; 2; 2; 2; 2; 1];
  [1; 1; 2; 2; 2; 2; 2; 2; 2; 2; 2; 2; 1; 1];
  [0; 1; 2; 2; 2; 2; 2; 2; 2; 2; 2; 2; 1; 0];
  [0; 0; 1; 2; 2; 2; 2; 2; 2; 2; 2; 1; 0; 0];
  [0; 0; 0; 1; 2; 2; 2; 2; 2; 2; 1; 0; 0; 0];
  [0; 0; 0; 0; 1; 1; 2; 2; 1; 1; 0; 0; 0; 0];
  [0; 0; 0; 0; 0; 1; 1; 1; 1; 0; 0; 0; 0; 0]].
Definition dm_at (i j : Z) : Z := nth (Z.to_nat j) (nth (Z.to_nat i) dm []) 0.

Definition MOUSE_DRAGGING : Z := 7.

(** Lines 587-648. *)
Definition drawMouse_at (x y event : Z) (m : vram) : vram :=
  let white := rgb 0xff 0xff 0xff in
  let black := rgb 0 0 0 in
  let t i j := screen + (y + j) * SCREEN_WIDTH + x + i in
  if event =? MOUSE_DRAGGING then
    mouse_rows y 0 (Z.quot MOUSE_HEIGHT 2) (fun j =>
      mouse_cols x MOUSE_WIDTH (fun i m =>
        let m := if dm_at i j =? 2 then upd m (t i j) white else m in
        if dm_at i j =? 1 then upd m (t i j) black else m)) m
  else
    let m := mouse_rows y 0 (Z.quot MOUSE_HEIGHT 2) (fun j =>
      mouse_cols x j (fun i m =>
        if (i =? 0) || (i =? j - 1)
           || ((j =? Z.quot MOUSE_HEIGHT 2 - 1) && (i >=? Z.quot MOUSE_WIDTH 2))
        then upd m (t i j) white else upd m (t i j) black)) m in
    mouse_rows y (Z.quot MOUSE_HEIGHT 2) (Z.quot MOUSE_HEIGHT 2 + Z.quot MOUSE_HEIGHT 4)
      (fun j =>
        mouse_cols x (MOUSE_WIDTH + Z.quot MOUSE_WIDTH 2 - 1 - j) (fun i m =>
          if (i =? 0) || (i =? MOUSE_WIDTH + Z.quot MOUSE_WIDTH 2 - 2 - j)
          then upd m (t i j) white else upd m (t i j) black)) m.

Definition removeMouse : G unit :=
  modify (fun g => set_vram
    (removeMouse_at (last_draw_x (g_mouse g)) (last_draw_y (g_mouse g)) (g_vram g)) g).
Definition drawMouse : G unit :=
  modify (fun g =>
    let mi := g_mouse g in
    set_mouse (mkMouse (x_position mi) (y_position mi) (x_position mi) (y_position mi)
                 (m_event mi))
      (set_vram (drawMouse_at (x_position mi) (y_position mi) (m_event mi) (g_vram g)) g)).

(** ** Whole-buffer copies: [memset] to 0 and [memmove] of [totalPels] pixels *)
Definition clearBuffer (dst : Z) (m : vram) : vram :=
  fun a => if (dst <=? a) && (a <? dst + totalPels) then mkRGB 0 0 0 else m a.
Definition copyBuffer (dst src : Z) (m : vram) : vram :=
  fun a => if (dst <=? a) && (a <? dst + totalPels) then m (src + (a - dst)) else m a.

(** ** Lines 654-686 *)
Definition updateBackWindows : G unit :=
  acquire gui_lock ;;;
  draw (modify (clearBuffer screen_temp1)) ;;;
  drawBackWindows ;;;
  draw (modify (copyBuffer screen_temp2 screen_temp1)) ;;;
  drawLastWindow ;;;
  draw (modify (copyBuffer screen screen_temp2)) ;;;
  drawMouse ;;;
  release gui_lock.

Definition updateLastWindow : G unit :=
  acquire gui_lock ;;;
  removeLastWindow ;;;
  drawLastWindow ;;;
  draw (modify (copyBuffer screen screen_temp2)) ;;;
  drawMouse ;;;
  release gui_lock.

Definition updateMouse : G unit :=
  acquire gui_lock ;;; removeMouse ;;; drawMouse ;;; release gui_lock.

(** ** Icon focus (lines 688-784) *)
Definition focus_size : Z := 96 * 96.

(** [image[(95-y)*96+x] = background[i]] for every [i]. *)
Definition restoreImage (bg : Z -> RGB) (px : Z -> RGB) : Z -> RGB :=
  zfor 0 focus_size (fun i px =>
    upd px ((95 - Z.quot i 96) * 96 + Z.rem i 96) (bg i)) px.
(** [if (isBg[i]) image[i] = 0; isBg[i] = 0;] for every [i]. *)
Definition clearBg (s : (Z -> RGB) * (Z -> Z)) : (Z -> RGB) * (Z -> Z) :=
  zfor 0 focus_size (fun i '(px, isb) =>
    (if truthy (isb i) then upd px i (mkRGB 0 0 0) else px, upd isb i 0)) s.
(** Lines 724-736: remember the screen under the icon, paint its transparent
    pixels in the highlight colour. *)
Definition highlight (vm : vram) (x0 y0 : Z)
    (s : (Z -> RGB) * (Z -> RGB) * (Z -> Z)) : (Z -> RGB) * (Z -> RGB) * (Z -> Z) :=
  zfor 0 focus_size (fun i '(px, bg, isb) =>
    let x := x0 + Z.rem i 96 in
    let y := y0 + Z.quot i 96 in
    let bg := upd bg i (vm (screen_temp2 + y * SCREEN_WIDTH + x)) in
    if truthy (isAlpha (px i))
    then (upd px i (rgb 226 149 91), bg, upd isb i 1)
    else (px, bg, isb)) s.

(** [drawIconView(screen_temp2, icon, window); drawIconView(screen, icon, window);] *)
Definition drawIconTwice (icon : IconView.t) (px : Z -> RGB) (window : Window.t) : G unit :=
  draw (drawIconView screen_temp2 icon px window) ;;;
  draw (drawIconView screen icon px window).

(** Put the picture of the focused icon back and show it (lines 702-711, 757-766). *)
Definition unhighlight (focused : Z) (window : Window.t) : G unit :=
  old <- load_iconView focused ;;
  px <- load_image (IconView.image old) ;;
  bg <- gets background ;;
  ustore (IconView.image old) (U_image (restoreImage bg px)) ;;;
  drawIconTwice old (restoreImage bg px) window.

(** The loop over [isBg] (lines 712-721, 768-777).  With no focused icon the
    write to [focusIcon->image] goes through a null pointer. *)
Definition clearBgLoop (focused : Z) : G unit :=
  if focused =? 0 then
    mfor 0 focus_size (fun i =>
      isb <- gets isBg ;;
      if truthy (isb i) then fault
      else modify (fun g => set_focus (focusIcon g) (background g) (upd (isBg g) i 0) g))
  else
    old <- load_iconView focused ;;
    px <- load_image (IconView.image old) ;;
    isb <- gets isBg ;;
    ustore (IconView.image old) (U_image (clearBg (px, isb)).1) ;;;
    modify (fun g => set_focus (focusIcon g) (background g) (clearBg (px, isb)).2 g).

Definition focusIconView (icon : Z) : G unit :=
  acquire gui_lock ;;;
  last <- gets (fun g => lastWindow (g_wq g)) ;;
  n <- deref last ;;
  switchuvm (wq_proc n) ;;;
  focused <- gets focusIcon ;;
  if negb (focused =? 0) && (focused =? icon) then release gui_lock
  else
    (if focused =? 0 then ret tt
     else window <- load_window (wq_window n) ;;
          unhighlight focused window ;;; clearBgLoop focused) ;;;
    modify (fun g => set_focus icon (background g) (isBg g) g) ;;;
    window <- load_window (wq_window n) ;;
    ic <- load_iconView icon ;;
    px <- load_image (IconView.image ic) ;;
    s <- get ;;
    let '(px', bg, isb) :=
      highlight (g_vram s) (Window.leftTopX window + IconView.leftTopX ic)
        (Window.leftTopY window + IconView.leftTopY ic)
        (px, background s, isBg s) in
    ustore (IconView.image ic) (U_image px') ;;;
    modify (fun g => set_focus icon bg isb g) ;;;
    drawIconTwice ic px' window ;;;
    switch_back ;;;
    release gui_lock.

Definition focusDismiss : G unit :=
  acquire gui_lock ;;;
  last <- gets (fun g => lastWindow (g_wq g)) ;;
  n <- deref last ;;
  switchuvm (wq_proc n) ;;;
  focused <- gets focusIcon ;;
  (if focused =? 0 then ret tt
   else window <- load_window (wq_window n) ;; unhighlight focused window) ;;;
  clearBgLoop focused ;;;
  modify (fun g => set_focus 0 (background g) (isBg g) g) ;;;
  switch_back ;;;
  release gui_lock.
