(* ===== verification/WindowQueue.v ===== *)
(** * WindowQueue: the stack of windows (src/src/window.c)

    [windowLine] is a pool of 32 nodes; the nodes in use form a doubly linked
    list that starts at [windowQueue] and ends at [lastWindow], the window on
    top.  The functions below follow the pointers as the code does.

    The argument of a system call is what [argint(0, ...)] fetched: [None]
    when the fetch failed. *)
From S2P Require Import Prelude Font GuiState Draw Gui.

Definition initWindow : G unit :=
  modify (set_wq (mkWqueue (replicate (Z.to_nat MAX_WINDOW_NUM) empty_wq) empty_wq (Some Head))).

(** Lines 39-47: the first free slot, or -1. *)
Fixpoint first_free (l : list WindowQueue) (i : Z) : Z :=
  match l with
  | [] => -1
  | n :: l' => if decide (wq_proc n = None) then i else first_free l' (i + 1)
  end.
Definition acquireWindow : G Z := gets (fun g => first_free (windowLine (g_wq g)) 0).

(** Lines 49-61. *)
Fixpoint find_end (fuel : nat) (p : option wptr) : G (option wptr) :=
  match fuel with
  | O => out_of_fuel
  | S fuel =>
      n <- deref p ;;
      match wq_next n with
      | None => ret p
      | next => find_end fuel next
      end
  end.
Definition addWindow (x : Z) : G unit :=
  p <- find_end queue_fuel (Some Head) ;;
  let q := p in
  update_node p (with_next (Some (Line x))) ;;;
  let p := Some (Line x) in
  update_node p (with_prev q) ;;;
  update_node p (with_next None) ;;;
  set_lastWindow (Some (Line x)).

Definition sys_createWindow (arg : option Z) : G Z :=
  match arg with
  | None => ret (-1)
  | Some window =>
      acquire window_lock ;;;
      hWind <- acquireWindow ;;
      if hWind <? 0 then release window_lock ;;; ret hWind
      else
        me <- gets (fun g => proc (g_cpu g)) ;;
        update_node (Some (Line hWind)) (with_owner me window) ;;;
        addWindow hWind ;;;
        release window_lock ;;;
        updateBackWindows ;;;
        ret hWind
  end.

(** Lines 85-112; [true] when the window was found and unlinked. *)
Fixpoint unlinkWindow (fuel : nat) (p : option wptr) (hWind : Z) : G bool :=
  match fuel with
  | O => out_of_fuel
  | S fuel =>
      n <- deref p ;;
      match wq_next n with
      | None => ret false
      | Some next =>
          if decide (next = Line hWind) then
            update_node (Some next) (with_owner None 0) ;;;
            last <- gets (fun g => lastWindow (g_wq g)) ;;
            (if decide (Some next = last) then set_lastWindow p else ret tt) ;;;
            nn <- node next ;;
            update_node p (with_next (wq_next nn)) ;;;
            (match wq_next nn with
             | Some _ => update_node (wq_next nn) (with_prev p)
             | None => ret tt
             end) ;;;
            ret true
          else unlinkWindow fuel (Some next) hWind
      end
  end.
Definition sys_deleteWindow (arg : option Z) : G Z :=
  match arg with
  | None => ret (-1)
  | Some hWind =>
      acquire window_lock ;;;
      found <- unlinkWindow queue_fuel (Some Head) hWind ;;
      release window_lock ;;;
      if (found : bool) then updateBackWindows ;;; ret 0 else ret (-1)
  end.

Definition sys_updateWindow (arg : option Z) : G Z :=
  match arg with
  | None => ret (-1)
  | Some hWind =>
      acquire window_lock ;;;
      last <- gets (fun g => lastWindow (g_wq g)) ;;
      (if decide (Some (Line hWind) = last) then updateLastWindow else updateBackWindows) ;;;
      release window_lock ;;;
      ret 0
  end.

(** Lines 130-147, on the window at user address [a]. *)
Definition clamp_move (pos len d limit : Z) : Z :=
  let d := if pos + d <? 0 then - pos else d in
  if pos + len + d >=? limit then limit - (pos + len) else d.
Definition moveWindow (a fx fy tx ty isdraw : Z) : G unit :=
  w <- load_window a ;;
  let dx := clamp_move (Window.leftTopX w) (Window.width w) (tx - fx) SCREEN_WIDTH in
  let dy := clamp_move (Window.leftTopY w) (Window.height w) (ty - fy) SCREEN_HEIGHT in
  ustore a (U_window (Window.set_pos (Window.leftTopX w + dx) (Window.leftTopY w + dy) w)) ;;;
  (if truthy isdraw then updateLastWindow else ret tt).

(** Lines 149-167. *)
Fixpoint find_back (fuel : nat) (p : option wptr) (q : wptr) : G (option wptr) :=
  match fuel with
  | O => out_of_fuel
  | S fuel =>
      match p with
      | None => ret None
      | Some p' => if decide (p' = q) then ret p
                   else n <- node p' ;; find_back fuel (wq_prev n) q
      end
  end.
Definition reorderQueue (q : wptr) : G unit :=
  acquire window_lock ;;;
  last <- gets (fun g => lastWindow (g_wq g)) ;;
  p <- find_back queue_fuel last q ;;
  n <- deref p ;;
  update_node (wq_prev n) (with_next (wq_next n)) ;;;
  n <- deref p ;;
  update_node (wq_next n) (with_prev (wq_prev n)) ;;;
  update_node last (with_next (Some q)) ;;;
  update_node (Some q) (with_prev last) ;;;
  update_node (Some q) (with_next None) ;;;
  set_lastWindow (Some q) ;;;
  release window_lock ;;;
  updateBackWindows.

(** ** The abstract window stack

    From bottom to top, the windows on the screen: the slot that names the
    window, its owner and the address of its description. *)
Record entry := mkEntry { e_slot : Z; e_proc : nat; e_window : Z }.
#[export] Instance entry_eq_dec : EqDecision entry.
Proof. solve_decision. Defined.

Module Spec.
Definition slots (st : list entry) : list Z := map e_slot st.
(** The lowest slot number not in use. *)
Definition fresh_slot (st : list entry) : option Z :=
head (filter (fun i => i ∉ slots st) (seqZ 0 MAX_WINDOW_NUM)).
Definition create (p : nat) (w : Z) (st : list entry) : Z * list entry :=
match fresh_slot st with
| None => (-1, st)
| Some i => (i, st ++ [mkEntry i p w])
end.
Definition remove (h : Z) (st : list entry) : Z * list entry :=
if decide (h ∈ slots st) then (0, filter (fun e => e_slot e <> h) st) else (-1, st).
(** Bring the window in slot [h] to the top. *)
Definition raise (h : Z) (st : list entry) : list entry :=
filter (fun e => e_slot e <> h) st ++ filter (fun e => e_slot e = h) st.
End Spec.

(** ** Representation *)

(** The pointers along the queue: the head, then the nodes. *)
Definition path (st : list entry) : list wptr := Head :: map (fun e => Line (e_slot e)) st.
Arguments path : simpl never.

(** The pointers and the owner stored in a node. *)
Definition link_of (q : wqueue) (p : wptr) : option (option wptr * option wptr) :=
  (fun n => (wq_next n, wq_prev n)) <$> node_of q p.
Definition owner_of (q : wqueue) (p : wptr) : option (option nat * Z) :=
  (fun n => (wq_proc n, wq_window n)) <$> node_of q p.

Definition prev_at (ps : list wptr) (k : nat) : option wptr :=
  match k with O => None | S k' => ps !! k' end.
(** Node number [k] of the path points to its neighbours. *)
Definition links (q : wqueue) (ps : list wptr) : Prop :=
  forall k p, ps !! k = Some p -> link_of q p = Some (ps !! S k, prev_at ps k).

Record queue_rep (q : wqueue) (st : list entry) : Prop := mkRep {
  rep_pool : length (windowLine q) = Z.to_nat MAX_WINDOW_NUM;
  rep_nodup : NoDup (Spec.slots st);
  rep_range : Forall (fun e => 0 <= e_slot e < MAX_WINDOW_NUM) st;
  rep_links : links q (path st);
  rep_last : lastWindow q = last (path st);
  (** the head node belongs to no process *)
  rep_head : owner_of q Head = Some (None, 0);
  (** used nodes belong to a process and describe a window *)
  rep_used : Forall (fun e =>
    owner_of q (Line (e_slot e)) = Some (Some (e_proc e), e_window e)) st;
  rep_free : forall i, 0 <= i < MAX_WINDOW_NUM -> i ∉ Spec.slots st ->
    exists w, owner_of q (Line i) = Some (None, w) }.

(** ** Pointer updates *)
Definition upd_node (q : wqueue) (p : wptr) (f : WindowQueue -> WindowQueue) : wqueue :=
  match node_of q p with Some n => store_node q p (f n) | None => q end.

Section Updates.
Implicit Types (q : wqueue) (p : wptr).

Lemma node_of_upd q p f p' :
  node_of (upd_node q p f) p' = if decide (p' = p) then f <$> node_of q p' else node_of q p'.
Proof.
  unfold upd_node. destruct (node_of q p) as [n|] eqn:E.
  - destruct p as [|i]; simpl in *.
    + simplify_eq. by destruct p'; repeat case_decide.
    + destruct p' as [|j]; simpl; [by repeat case_decide|].
      destruct (Z.ltb_spec i 0); [done|]. destruct (Z.ltb_spec j 0).
      * case_decide; [simplify_eq; lia | done].
      * case_decide; simplify_eq.
        -- rewrite list_lookup_insert_eq by by eapply lookup_lt_Some. by rewrite E.
        -- apply list_lookup_insert_ne. intros ?%Z2Nat.inj; [congruence | lia | lia].
  - case_decide; [|done]. subst. by rewrite E.
Qed.

Lemma update_node_run g p f :
  is_Some (node_of (g_wq g) p) ->
  update_node (Some p) f g = Ok (tt, set_wq (upd_node (g_wq g) p f) g).
Proof.
  intros [n E]. unfold update_node, node, M_bind, modify, upd_node. by rewrite E.
Qed.

Lemma link_of_next q p x p' :
  link_of (upd_node q p (with_next x)) p' =
    if decide (p' = p) then (fun l => (x, l.2)) <$> link_of q p' else link_of q p'.
Proof.
  unfold link_of. rewrite node_of_upd. case_decide; [|done].
  by destruct (node_of q p').
Qed.
Lemma link_of_prev q p x p' :
  link_of (upd_node q p (with_prev x)) p' =
    if decide (p' = p) then (fun l => (l.1, x)) <$> link_of q p' else link_of q p'.
Proof.
  unfold link_of. rewrite node_of_upd. case_decide; [|done].
  by destruct (node_of q p').
Qed.
Lemma link_of_owner q p o w p' :
  link_of (upd_node q p (with_owner o w)) p' = link_of q p'.
Proof.
  unfold link_of. rewrite node_of_upd. case_decide; [|done].
  by destruct (node_of q p').
Qed.
Lemma owner_of_next q p x p' : owner_of (upd_node q p (with_next x)) p' = owner_of q p'.
Proof.
  unfold owner_of. rewrite node_of_upd. case_decide; [|done].
  by destruct (node_of q p').
Qed.
Lemma owner_of_prev q p x p' : owner_of (upd_node q p (with_prev x)) p' = owner_of q p'.
Proof.
  unfold owner_of. rewrite node_of_upd. case_decide; [|done].
  by destruct (node_of q p').
Qed.
Lemma owner_of_owner q p o w p' :
  owner_of (upd_node q p (with_owner o w)) p' =
    if decide (p' = p) then (fun _ => (o, w)) <$> owner_of q p' else owner_of q p'.
Proof.
  unfold owner_of. rewrite node_of_upd. case_decide; [|done].
  by destruct (node_of q p').
Qed.
Lemma upd_node_last q p f : lastWindow (upd_node q p f) = lastWindow q.
Proof. unfold upd_node. destruct (node_of q p); [|done]. by destruct p. Qed.
Lemma upd_node_pool q p f :
  length (windowLine (upd_node q p f)) = length (windowLine q).
Proof.
  unfold upd_node. destruct (node_of q p); [|done]. destruct p; simpl; [done|].
  apply length_insert.
Qed.
Lemma node_link q p : is_Some (node_of q p) <-> is_Some (link_of q p).
Proof. unfold link_of. by rewrite fmap_is_Some. Qed.
Lemma node_owner q p : is_Some (node_of q p) <-> is_Some (owner_of q p).
Proof. unfold owner_of. by rewrite fmap_is_Some. Qed.
End Updates.

Create Rewrite HintDb wq.
#[export] Hint Rewrite link_of_next link_of_prev link_of_owner owner_of_next owner_of_prev
  owner_of_owner upd_node_last upd_node_pool : wq.

(** ** Lists of pointers *)
Section Links.
Implicit Types (q : wqueue) (ps : list wptr) (p x : wptr).

Lemma links_node q ps p : links q ps -> p ∈ ps -> is_Some (node_of q p).
Proof.
  intros H [k Hk]%list_elem_of_lookup. apply node_link. rewrite (H k p Hk). by eexists.
Qed.

(** Link a new node [x] after the last one. *)
Definition append_node q (lst x : wptr) : wqueue :=
  upd_node (upd_node (upd_node q lst (with_next (Some x))) x (with_prev (Some lst)))
    x (with_next None).

Lemma links_append q ps lst x :
  links q ps -> NoDup ps -> last ps = Some lst -> x ∉ ps -> is_Some (node_of q x) ->
  links (append_node q lst x) (ps ++ [x]).
Proof.
  intros HL Hnd Hlast Hx [[? ?] Hn]%node_link k p Hk. unfold append_node.
  autorewrite with wq. rewrite last_lookup in Hlast.
  pose proof (lookup_lt_Some _ _ _ Hlast) as Hlen.
  apply lookup_app_Some in Hk as [Hk|[Hge Hk]].
  - assert (p <> x) by (intros ->; apply Hx; by eapply list_elem_of_lookup_2).
    rewrite !(decide_False (P := p = x)) by done.
    pose proof (lookup_lt_Some _ _ _ Hk).
    assert (prev_at (ps ++ [x]) k = prev_at ps k) as ->.
    { destruct k as [|k]; [done|]. simpl. apply lookup_app_l. lia. }
    rewrite (HL k p Hk). case_decide as Hp; simpl.
    + subst p. pose proof (NoDup_lookup _ _ _ _ Hnd Hk Hlast) as ->.
      by rewrite lookup_app_r, Nat.succ_pred, Nat.sub_diag by lia.
    + assert (k <> pred (length ps)) by congruence.
      by rewrite lookup_app_l by lia.
  - assert (k = length ps /\ p = x) as [-> ->].
    { destruct (k - length ps)%nat eqn:E; simpl in Hk; [|done].
      simplify_eq. split; [lia | done]. }
    rewrite !(decide_True (P := x = x)) by done.
    assert (x <> lst) by (intros ->; apply Hx; by eapply list_elem_of_lookup_2).
    rewrite (decide_False (P := x = lst)) by done. rewrite Hn. simpl.
    f_equal. f_equal; [symmetry; apply lookup_ge_None; rewrite length_app; simpl; lia|].
    destruct (length ps) as [|m] eqn:E; [lia|]. simpl in *.
    by rewrite lookup_app_l by lia.
Qed.

(** Unlink the successor of [p]; [r] is the node after it. *)
Definition unlink_after q p (r : option wptr) : wqueue :=
  match r with
  | Some r' => upd_node (upd_node q p (with_next r)) r' (with_prev (Some p))
  | None => upd_node q p (with_next None)
  end.

Lemma links_unlink q ps k p x :
  links q ps -> NoDup ps -> ps !! k = Some p -> ps !! S k = Some x ->
  links (unlink_after q p (ps !! S (S k))) (delete (S k) ps).
Proof.
  intros HL Hnd Hp Hx j y Hy.
  set (j' := if decide (j < S k)%nat then j else S j).
  assert (Hy' : ps !! j' = Some y).
  { subst j'. rewrite list_lookup_delete in Hy. by case_decide. }
  assert (Hlk : link_of q y = Some (ps !! S j', prev_at ps j')) by by apply HL.
  assert (Hyp : y = p <-> j = k).
  { split; intros ->.
    - pose proof (NoDup_lookup _ _ _ _ Hnd Hy' Hp). subst j'. case_decide; lia.
    - subst j'. rewrite decide_True in Hy' by lia. congruence. }
  assert (Hyr : Some y = ps !! S (S k) <-> j = S k).
  { split; intros Hr.
    - symmetry in Hr. pose proof (NoDup_lookup _ _ _ _ Hnd Hy' Hr).
      subst j'. case_decide; lia.
    - subst j j'. rewrite decide_False in Hy' by lia. done. }
  assert (Hprev : prev_at (delete (S k) ps) j =
            if decide (j = S k) then Some p else prev_at ps j').
  { destruct j as [|i]; cbn [prev_at].
    - subst j'. by repeat case_decide; try lia.
    - rewrite list_lookup_delete. subst j'. repeat case_decide; simpl; try lia; try done.
      congruence. }
  assert (Hnext : delete (S k) ps !! S j =
            if decide (j = k) then ps !! S (S k) else ps !! S j').
  { rewrite list_lookup_delete. subst j'. repeat case_decide; try lia; try done.
    congruence. }
  rewrite Hprev, Hnext. unfold unlink_after.
  destruct (ps !! S (S k)) as [r|] eqn:Hr; autorewrite with wq;
    rewrite Hlk, (decide_ext (y = p) (j = k)) by done.
  - rewrite (decide_ext (y = r) (j = S k)) by (rewrite <- Hyr; split; congruence).
    by repeat case_decide; subst; try lia.
  - assert (j <> S k) by (rewrite <- Hyr; done).
    by repeat case_decide; subst; try lia.
Qed.
End Links.

(** ** The representation, through each pointer surgery *)
Definition with_last (q : wqueue) (x : option wptr) : wqueue :=
  mkWqueue (windowLine q) (windowQueue q) x.

Lemma link_of_last q x p : link_of (with_last q x) p = link_of q p.
Proof. by destruct p. Qed.
Lemma owner_of_last q x p : owner_of (with_last q x) p = owner_of q p.
Proof. by destruct p. Qed.
#[export] Hint Rewrite link_of_last owner_of_last : wq.

Section Rep.
Implicit Types (q : wqueue) (st : list entry) (e : entry) (i h : Z).

Lemma path_app st st' : path (st ++ st') = path st ++ map (fun e => Line (e_slot e)) st'.
Proof. unfold path. by rewrite map_app. Qed.
Lemma elem_of_path i st : Line i ∈ path st <-> i ∈ Spec.slots st.
Proof.
  unfold path, Spec.slots. rewrite elem_of_cons, !list_elem_of_fmap.
  split; [intros [?|(e & ? & ?)] | intros (e & ? & ?)]; naive_solver.
Qed.
Lemma NoDup_path st : NoDup (Spec.slots st) -> NoDup (path st).
Proof.
  intros H. unfold path. constructor.
  - rewrite list_elem_of_fmap. naive_solver.
  - unfold Spec.slots in H. replace (map (fun e => Line (e_slot e)) st)
      with (Line <$> (map e_slot st)) by apply map_map.
    apply NoDup_fmap_2; [|done]. intros ??. congruence.
Qed.
Lemma last_path_Some st : exists p, last (path st) = Some p.
Proof. apply last_is_Some. done. Qed.
Lemma path_S st k : path st !! S k = ((fun e => Line (e_slot e)) <$> (st !! k)).
Proof. apply list_lookup_fmap. Qed.
Lemma path_delete st k : path (delete k st) = delete (S k) (path st).
Proof.
  unfold path. simpl. f_equal. revert k. induction st as [|e st IH]; intros [|k]; simpl;
    try done. by f_equal.
Qed.
Lemma slots_delete st k e :
  st !! k = Some e -> NoDup (Spec.slots st) ->
  (e_slot e ∉ Spec.slots (delete k st)) /\
  (forall i, i ∈ Spec.slots st <-> i = e_slot e \/ i ∈ Spec.slots (delete k st)).
Proof.
  intros Hk Hnd. apply list_elem_of_split_length in Hk as (l1 & l2 & -> & ->).
  rewrite delete_middle. unfold Spec.slots in *. rewrite !map_app in *. simpl in *.
  apply NoDup_app in Hnd as (_ & H1 & [H2 _]%NoDup_cons).
  split; [rewrite elem_of_app; set_solver|]. intros. rewrite !elem_of_app. set_solver.
Qed.
Lemma slot_inj st e e' :
  NoDup (Spec.slots st) -> e ∈ st -> e' ∈ st -> e_slot e = e_slot e' -> e = e'.
Proof.
  intros Hnd [k Hk]%list_elem_of_lookup [k' Hk']%list_elem_of_lookup Heq.
  assert (Spec.slots st !! k = Some (e_slot e)) as H1
    by (unfold Spec.slots; by rewrite list_lookup_fmap, Hk).
  assert (Spec.slots st !! k' = Some (e_slot e)) as H2
    by (unfold Spec.slots; rewrite list_lookup_fmap, Hk'; simpl; congruence).
  pose proof (NoDup_lookup _ _ _ _ Hnd H1 H2). subst k'. congruence.
Qed.
Lemma last_elem st e : last st = Some e -> e ∈ st.
Proof. rewrite last_lookup. apply list_elem_of_lookup_2. Qed.
Lemma filter_delete st k e :
  st !! k = Some e -> NoDup (Spec.slots st) ->
  filter (fun e' => e_slot e' <> e_slot e) st = delete k st /\
  filter (fun e' => e_slot e' = e_slot e) st = [e].
Proof.
  intros Hk Hnd. apply list_elem_of_split_length in Hk as (l1 & l2 & -> & ->).
  rewrite delete_middle. unfold Spec.slots in Hnd. rewrite map_app in Hnd. simpl in Hnd.
  apply NoDup_app in Hnd as (_ & H1 & [H2 _]%NoDup_cons).
  assert (Forall (fun e' => e_slot e' <> e_slot e) l1 /\
          Forall (fun e' => e_slot e' <> e_slot e) l2) as [F1 F2].
  { rewrite !Forall_forall. split; intros x Hx Heq.
    - apply (H1 (e_slot e)); [|set_solver]. rewrite <- Heq. by apply list_elem_of_fmap_2.
    - apply H2. rewrite <- Heq. by apply list_elem_of_fmap_2. }
  rewrite !filter_app, !filter_cons.
  rewrite decide_False by naive_solver. rewrite decide_True by done.
  rewrite !(filter_all (fun e' => e_slot e' <> e_slot e)) by done.
  rewrite !(filter_none (fun e' => e_slot e' = e_slot e));
    [done | eapply Forall_impl; [exact F2 | naive_solver]
     | eapply Forall_impl; [exact F1 | naive_solver]].
Qed.
End Rep.

Section Rep_surgery.
Variables (q : wqueue) (st : list entry).
Hypothesis HR : queue_rep q st.

Lemma rep_node i : 0 <= i < MAX_WINDOW_NUM -> is_Some (node_of q (Line i)).
Proof using HR.
  intros Hi. simpl. destruct (Z.ltb_spec i 0); [lia|].
  apply lookup_lt_is_Some. rewrite (rep_pool _ _ HR). lia.
Qed.

Lemma rep_create i p w :
  0 <= i < MAX_WINDOW_NUM -> i ∉ Spec.slots st -> forall lst, last (path st) = Some lst ->
  queue_rep
    (with_last (append_node (upd_node q (Line i) (with_owner (Some p) w)) lst (Line i))
       (Some (Line i)))
    (st ++ [mkEntry i p w]).
Proof using HR.
  intros Hi Hfresh lst Hlst. destruct HR as [Hpool Hnd Hrange Hlinks Hlast Hhead Hused Hfree].
  assert (Hnew : Line i ∉ path st) by by rewrite elem_of_path.
  rewrite Forall_forall in Hused.
  split; unfold append_node; simpl.
  - by autorewrite with wq.
  - unfold Spec.slots in *. rewrite map_app. apply NoDup_app.
    split; [done|]. split; [set_solver|]. apply NoDup_singleton.
  - apply Forall_app. by split; [|constructor].
  - rewrite path_app. cbn [map e_slot]. intros k y Hk. rewrite link_of_last.
    apply (links_append _ (path st)); auto using NoDup_path.
    + intros k' y' Hk'. autorewrite with wq. by apply Hlinks.
    + rewrite node_of_upd, decide_True, fmap_is_Some by done. by apply rep_node.
  - rewrite path_app. cbn [map e_slot]. by rewrite last_snoc.
  - autorewrite with wq. by rewrite decide_False.
  - apply Forall_app. split.
    + apply Forall_forall. intros e He. autorewrite with wq.
      rewrite decide_False; [by apply Hused|]. intros Heq. simplify_eq.
      apply Hfresh. by apply list_elem_of_fmap_2.
    + constructor; [|done]. simpl. autorewrite with wq. rewrite decide_True by done.
      apply rep_node in Hi as [[??] ?]%node_owner. unfold owner_of in *. by simplify_option_eq.
  - intros j Hj Hnj. autorewrite with wq. unfold Spec.slots in *. rewrite map_app in Hnj.
    rewrite decide_False by (intros Heq; simplify_eq; apply Hnj; set_solver).
    apply Hfree; [done|]. set_solver.
Qed.

(** Unlinking the window at position [k]; [p] precedes it on the path. *)
Definition unlinked (p : wptr) (k : nat) (x : wptr) : wqueue :=
  let q1 := upd_node q x (with_owner None 0) in
  let q2 := if decide (Some x = lastWindow q1) then with_last q1 (Some p) else q1 in
  unlink_after q2 p (path st !! S (S k)).

Lemma unlinked_link p k x y :
  link_of (unlinked p k x) y = link_of (unlink_after q p (path st !! S (S k))) y.
Proof using.
  unfold unlinked, unlink_after.
  destruct (path st !! S (S k)); case_decide; by autorewrite with wq.
Qed.
Lemma unlinked_owner p k x y :
  owner_of (unlinked p k x) y =
    if decide (y = x) then (fun _ => (None, 0)) <$> owner_of q y else owner_of q y.
Proof using.
  unfold unlinked, unlink_after.
  destruct (path st !! S (S k)); case_decide; by autorewrite with wq.
Qed.
Lemma unlinked_pool p k x : length (windowLine (unlinked p k x)) = length (windowLine q).
Proof using.
  unfold unlinked, unlink_after.
  destruct (path st !! S (S k)); case_decide; simpl; autorewrite with wq; simpl;
    by autorewrite with wq.
Qed.
Lemma unlinked_last p k x :
  lastWindow (unlinked p k x) =
    if decide (Some x = lastWindow q) then Some p else lastWindow q.
Proof using.
  unfold unlinked, unlink_after. rewrite upd_node_last.
  destruct (path st !! S (S k)); case_decide; autorewrite with wq; simpl;
    by autorewrite with wq.
Qed.

Lemma rep_unlink k e p :
  st !! k = Some e -> path st !! k = Some p ->
  queue_rep (unlinked p k (Line (e_slot e))) (delete k st).
Proof using HR.
  intros He Hp. destruct HR as [Hpool Hnd Hrange Hlinks Hlast Hhead Hused Hfree].
  destruct (slots_delete _ _ _ He Hnd) as [Hnot Hslots]. rewrite Forall_forall in Hused.
  assert (Hx : path st !! S k = Some (Line (e_slot e))) by by rewrite path_S, He.
  assert (Hsub : delete k st ⊆+ st) by apply submseteq_delete.
  split.
  - by rewrite unlinked_pool.
  - unfold Spec.slots in *. eapply sublist_NoDup; [exact Hnd|].
    apply fmap_sublist, sublist_delete.
  - by apply Forall_delete.
  - rewrite path_delete. intros j y Hy. rewrite unlinked_link.
    by eapply links_unlink; eauto using NoDup_path.
  - rewrite unlinked_last, path_delete, Hlast, !last_lookup, length_delete by by eexists.
    pose proof (lookup_lt_Some _ _ _ Hx). rewrite list_lookup_delete. case_decide as Hc.
    + rewrite <- Hx in Hc. pose proof Hc as Hc'. rewrite Hx in Hc'. symmetry in Hc'.
      pose proof (NoDup_lookup _ _ _ _ (NoDup_path _ Hnd) Hx Hc').
      rewrite decide_True by lia. rewrite <- Hp. f_equal. lia.
    + assert (S k <> pred (length (path st))) by congruence.
      rewrite decide_False by lia. f_equal. lia.
  - rewrite unlinked_owner. by rewrite decide_False.
  - apply Forall_forall. intros e' He'. rewrite unlinked_owner, decide_False.
    + apply Hused. by eapply elem_of_submseteq.
    + intros Heq. simplify_eq. apply Hnot. rewrite <- Heq. by apply list_elem_of_fmap_2.
  - intros j Hj Hnj. rewrite unlinked_owner. case_decide as Hc.
    + simplify_eq. pose proof (rep_node _ Hj) as [[??] ?]%node_owner.
      exists 0. unfold owner_of in *. by simplify_option_eq.
    + apply Hfree; [done|]. rewrite Hslots. naive_solver.
Qed.
End Rep_surgery.

(** ** Running the queue operations *)
Lemma last_path_Line st e : last st = Some e -> last (path st) = Some (Line (e_slot e)).
Proof.
  intros [st' ->]%last_Some. rewrite path_app. cbn [map]. apply last_snoc.
Qed.

Lemma link_node q p l : link_of q p = Some l ->
  exists n, node_of q p = Some n /\ wq_next n = l.1 /\ wq_prev n = l.2.
Proof.
  unfold link_of. destruct (node_of q p) as [n|]; [|done]. intros. simplify_option_eq.
  by exists n.
Qed.

Lemma rep_entry q st k e : queue_rep q st -> st !! k = Some e ->
  node_of q (Line (e_slot e)) = Some (mkWQ (Some (e_proc e)) (e_window e) (path st !! S (S k)) (path st !! k)).
Proof.
  intros Hrep He.
  assert (Hx : path st !! S k = Some (Line (e_slot e))) by by rewrite path_S, He.
  destruct (link_node _ _ _ (rep_links _ _ Hrep _ _ Hx)) as (n & Hn & Hnext & Hprev).
  pose proof (rep_used _ _ Hrep) as Hu. rewrite Forall_forall in Hu.
  specialize (Hu e (list_elem_of_lookup_2 _ _ _ He)). unfold owner_of in Hu.
  rewrite Hn in Hu |- *. simpl in *. destruct n; simpl in *. by simplify_eq.
Qed.
Lemma node_run g p n : node_of (g_wq g) p = Some n -> node p g = Ok (n, g).
Proof. intros E. unfold node. by rewrite E. Qed.

Lemma acquire_run l g : l ∉ g_locks g -> acquire l g = Ok (tt, set_locks (l :: g_locks g) g).
Proof. intros. unfold acquire. by rewrite decide_False. Qed.

(** [acquire] then [release] restores the list of held locks. *)
Lemma release_run l g ls :
  l ∉ ls -> g_locks g = l :: ls -> release l g = Ok (tt, set_locks ls g).
Proof.
  intros Hl Hg. unfold release. rewrite Hg, decide_True by set_solver.
  rewrite filter_cons_False by auto. rewrite filter_all; [done|].
  apply Forall_forall. intros x Hx ->. done.
Qed.

Lemma find_end_run g ps p k fuel :
  links (g_wq g) ps -> ps !! k = Some p -> (length ps - k <= fuel)%nat ->
  find_end fuel (Some p) g = Ok (last ps, g).
Proof.
  intros HL. revert k p. induction fuel as [|fuel IH]; intros k p Hk Hf.
  { pose proof (lookup_lt_Some _ _ _ Hk). lia. }
  destruct (link_node _ _ _ (HL k p Hk)) as (n & Hn & Hnext & _). simpl in Hnext.
  simpl. rewrite (bind_Ok _ _ _ _ _ (node_run _ _ _ Hn)), Hnext.
  destruct (ps !! S k) as [p'|] eqn:Hk'; [apply (IH (S k)); [done | lia]|].
  pose proof (lookup_lt_Some _ _ _ Hk). apply lookup_ge_None in Hk'.
  unfold ret. rewrite last_lookup, <- Hk. do 3 f_equal. lia.
Qed.

Lemma path_length st : length (path st) = S (length st).
Proof. unfold path. simpl. by rewrite length_map. Qed.

Lemma rep_length q st : queue_rep q st -> (length st <= 32)%nat.
Proof.
  intros HR. destruct HR as [_ Hnd Hrange _ _ _ _ _].
  assert (Hsub : Spec.slots st ⊆+ seqZ 0 MAX_WINDOW_NUM).
  { apply NoDup_submseteq; [done|]. intros i (e & -> & He)%list_elem_of_fmap.
    rewrite Forall_forall in Hrange. apply elem_of_seqZ. specialize (Hrange e He). lia. }
  apply submseteq_length in Hsub. unfold Spec.slots in Hsub.
  rewrite length_map, length_seqZ in Hsub. done.
Qed.

Lemma first_free_spec l i (P : Z -> Prop) `{forall x, Decision (P x)} :
  (forall k n, l !! k = Some n -> wq_proc n = None <-> P (i + Z.of_nat k)) ->
  first_free l i = default (-1) (head (filter P (seqZ i (Z.of_nat (length l))))).
Proof.
  revert i. induction l as [|n l IH]; intros i HP; [done|]. simpl first_free.
  rewrite seqZ_cons by (simpl; lia). rewrite filter_cons.
  pose proof (HP 0%nat n eq_refl) as H0. rewrite Z.add_0_r in H0.
  rewrite (decide_ext _ _ _ _ H0). case_decide; [done|].
  rewrite IH.
  - replace (Z.pred (Z.of_nat (length (n :: l)))) with (Z.of_nat (length l)) by (simpl; lia).
    done.
  - intros k m Hk. rewrite (HP (S k) m Hk). by replace (i + 1 + Z.of_nat k)
      with (i + Z.of_nat (S k)) by lia.
Qed.

Lemma acquireWindow_run g st :
  queue_rep (g_wq g) st ->
  acquireWindow g = Ok (default (-1) (Spec.fresh_slot st), g).
Proof.
  intros HR. unfold acquireWindow, gets, Spec.fresh_slot.
  rewrite (first_free_spec _ _ (fun i => i ∉ Spec.slots st)).
  - rewrite (rep_pool _ _ HR). done.
  - intros k n Hk. rewrite Z.add_0_l.
    assert (Hn : node_of (g_wq g) (Line (Z.of_nat k)) = Some n).
    { simpl. destruct (Z.ltb_spec (Z.of_nat k) 0); [lia|]. by rewrite Nat2Z.id. }
    pose proof (lookup_lt_Some _ _ _ Hk) as Hlt. rewrite (rep_pool _ _ HR) in Hlt.
    split.
    + intros Hp (e & He & Hin)%list_elem_of_fmap.
      pose proof (rep_used _ _ HR) as Hu. rewrite Forall_forall in Hu.
      specialize (Hu e Hin). rewrite <- He in Hu. unfold owner_of in Hu.
      by simplify_option_eq.
    + intros Hf. destruct (rep_free _ _ HR (Z.of_nat k) ltac:(lia) Hf) as [w Hw].
      unfold owner_of in Hw. by simplify_option_eq.
Qed.

Lemma fresh_slot_spec st i :
  Spec.fresh_slot st = Some i -> 0 <= i < MAX_WINDOW_NUM /\ (i ∉ Spec.slots st).
Proof.
  unfold Spec.fresh_slot. intros H.
  assert (Hin : i ∈ filter (fun i => i ∉ Spec.slots st) (seqZ 0 MAX_WINDOW_NUM)).
  { destruct (filter _ _); simplify_option_eq. apply list_elem_of_here. }
  apply list_elem_of_filter in Hin as [? ?%elem_of_seqZ]. split; [lia | done].
Qed.

Lemma addWindow_run g st i lst :
  links (g_wq g) (path st) -> (length st <= 32)%nat -> last (path st) = Some lst ->
  is_Some (node_of (g_wq g) (Line i)) -> (Line i ∉ path st) ->
  addWindow i g =
    Ok (tt, set_wq (with_last (append_node (g_wq g) lst (Line i)) (Some (Line i))) g).
Proof.
  intros HL Hlen Hlst Hi Hnew. unfold addWindow.
  rewrite (bind_Ok _ _ _ _ _ (find_end_run g (path st) Head 0 queue_fuel HL eq_refl
    ltac:(rewrite path_length; unfold queue_fuel; lia))).
  rewrite Hlst. cbv zeta.
  assert (Hl : is_Some (node_of (g_wq g) lst)).
  { apply (links_node _ (path st)); [done|]. rewrite last_lookup in Hlst.
    by eapply list_elem_of_lookup_2. }
  rewrite (bind_Ok _ _ _ _ _ (update_node_run _ _ _ Hl)).
  erewrite bind_Ok; [|apply update_node_run; cbn [g_wq set_wq]; rewrite node_of_upd;
    case_decide; by rewrite ?fmap_is_Some].
  erewrite bind_Ok; [|apply update_node_run; cbn [g_wq set_wq]; rewrite !node_of_upd;
    repeat case_decide; by rewrite ?fmap_is_Some].
  done.
Qed.

(** The pointer surgery of lines 92-100 once the window is found. *)
Lemma unlink_step g st k p e :
  queue_rep (g_wq g) st -> path st !! k = Some p -> st !! k = Some e ->
  (let next := Line (e_slot e) in
   update_node (Some next) (with_owner None 0) ;;;
   last <- gets (fun g => lastWindow (g_wq g)) ;;
   (if decide (Some next = last) then set_lastWindow (Some p) else ret tt) ;;;
   nn <- node next ;;
   update_node (Some p) (with_next (wq_next nn)) ;;;
   (match wq_next nn with
    | Some _ => update_node (wq_next nn) (with_prev (Some p))
    | None => ret tt
    end) ;;;
   ret true) g
  = Ok (true, set_wq (unlinked (g_wq g) st p k (Line (e_slot e))) g).
Proof.
  intros HR Hp He. pose proof (rep_links _ _ HR) as HL. cbv zeta.
  assert (Hx : path st !! S k = Some (Line (e_slot e))) by by rewrite path_S, He.
  pose proof (links_node _ _ _ HL (list_elem_of_lookup_2 _ _ _ Hx)) as Hxn.
  pose proof (links_node _ _ _ HL (list_elem_of_lookup_2 _ _ _ Hp)) as Hpn.
  rewrite (bind_Ok _ _ _ _ _ (update_node_run _ _ _ Hxn)).
  unfold gets at 1, M_bind at 1. cbn [g_wq set_wq].
  set (q1 := upd_node (g_wq g) (Line (e_slot e)) (with_owner None 0)).
  set (q2 := if decide (Some (Line (e_slot e)) = lastWindow q1)
             then with_last q1 (Some p) else q1).
  erewrite (bind_Ok _ _ _ _ (set_wq q2 g));
    [|subst q2; case_decide; reflexivity].
  assert (Hq2 : forall y, link_of q2 y = link_of (g_wq g) y).
  { intros y. subst q2 q1. case_decide; by autorewrite with wq. }
  pose proof (HL _ _ Hx) as Hlx. rewrite <- Hq2 in Hlx.
  destruct (link_node _ _ _ Hlx) as (n & Hn & Hnext & _). cbn [fst] in Hnext.
  rewrite (bind_Ok _ _ _ _ _ (node_run (set_wq q2 g) _ _ Hn)), Hnext.
  assert (Hp2 : is_Some (node_of q2 p)) by (apply node_link; rewrite Hq2; by apply node_link).
  rewrite (bind_Ok _ _ _ _ _ (update_node_run (set_wq q2 g) _ _ Hp2)).
  unfold unlinked. fold q1. fold q2. unfold unlink_after.
  destruct (path st !! S (S k)) as [r|] eqn:Hr; [|done].
  pose proof (links_node _ _ _ HL (list_elem_of_lookup_2 _ _ _ Hr)) as Hrn.
  erewrite bind_Ok; [reflexivity|]. rewrite update_node_run; [done|].
  cbn [g_wq set_wq]. rewrite node_of_upd.
  assert (is_Some (node_of q2 r)) by (apply node_link; rewrite Hq2; by apply node_link).
  case_decide; by rewrite ?fmap_is_Some.
Qed.

Lemma unlinkWindow_run g st fuel k p :
  queue_rep (g_wq g) st -> path st !! k = Some p -> (length st - k < fuel)%nat ->
  forall h, (forall j e, (j < k)%nat -> st !! j = Some e -> e_slot e <> h) ->
  unlinkWindow fuel (Some p) h g =
    match list_find (fun e => e_slot e = h) (drop k st) with
    | None => Ok (false, g)
    | Some (d, _) =>
        match path st !! (k + d)%nat with
        | Some pp => Ok (true, set_wq (unlinked (g_wq g) st pp (k + d) (Line h)) g)
        | None => Fault
        end
    end.
Proof.
  intros HR. revert k p. induction fuel as [|fuel IH]; intros k p Hk Hf h Hbefore; [lia|].
  pose proof (rep_links _ _ HR) as HL.
  destruct (link_node _ _ _ (HL k p Hk)) as (n & Hn & Hnext & Hprev).
  cbn [fst snd] in Hnext, Hprev. cbn [unlinkWindow].
  rewrite (bind_Ok _ _ _ _ _ (node_run _ _ _ Hn)), Hnext, path_S.
  destruct (st !! k) as [e|] eqn:He; cbn [fmap option_fmap option_map]; cycle 1.
  { by rewrite drop_ge by by apply lookup_ge_None. }
  rewrite (drop_S _ _ _ He). cbn [list_find].
  rewrite (decide_ext (Line (e_slot e) = Line h) (e_slot e = h)) by (split; congruence).
  case_decide as Hh; cycle 1.
  { assert (Hk1 : path st !! S k = Some (Line (e_slot e))) by by rewrite path_S, He.
    rewrite (IH (S k) _ Hk1); [| pose proof (lookup_lt_Some _ _ _ He); lia |].
    - destruct (list_find _ (drop (S k) st)) as [[d ?]|]; [|done].
      replace (S k + d)%nat with (k + S d)%nat by lia. done.
    - intros j e' Hj Hje. destruct (decide (j = k)); [congruence|].
      apply (Hbefore j); [lia|done]. }
  rewrite Nat.add_0_r, Hk. subst h.
  by apply unlink_step.
Qed.

(** ** Bringing a window to the top *)

Lemma find_back_run g ps k j fuel q :
  links (g_wq g) ps -> NoDup ps -> ps !! j = Some q -> (j <= k < length ps)%nat ->
  (k - j < fuel)%nat ->
  find_back fuel (ps !! k) q g = Ok (Some q, g).
Proof.
  intros HL Hnd Hj. revert k. induction fuel as [|fuel IH]; intros k Hk Hf; [lia|].
  destruct (lookup_lt_is_Some_2 ps k) as [p Hp]; [lia|]. cbn [find_back]. rewrite Hp.
  case_decide as Hpq; [by subst|].
  assert (k <> j) by congruence.
  destruct (link_node _ _ _ (HL k p Hp)) as (n & Hn & _ & Hprev). cbn [snd] in Hprev.
  rewrite (bind_Ok _ _ _ _ _ (node_run _ _ _ Hn)), Hprev.
  destruct k as [|k]; [lia|]. cbn [prev_at]. apply IH; lia.
Qed.

Definition raised (q : wqueue) (p lst x : wptr) (r : option wptr) : wqueue :=
  with_last (append_node (unlink_after q p r) lst x) (Some x).

Lemma unlink_after_owner q p r y : owner_of (unlink_after q p r) y = owner_of q y.
Proof. unfold unlink_after. destruct r; by autorewrite with wq. Qed.
Lemma raised_owner q p lst x r y : owner_of (raised q p lst x r) y = owner_of q y.
Proof.
  unfold raised, append_node. autorewrite with wq. apply unlink_after_owner.
Qed.

Lemma rep_raise q st k e p lst :
  queue_rep q st -> st !! k = Some e -> path st !! k = Some p ->
  last (path st) = Some lst -> lst <> Line (e_slot e) ->
  queue_rep (raised q p lst (Line (e_slot e)) (path st !! S (S k))) (delete k st ++ [e]).
Proof.
  intros [Hpool Hnd Hrange Hlinks Hlast Hhead Hused Hfree] He Hp Hlst Hne.
  destruct (slots_delete _ _ _ He Hnd) as [Hnot Hslots].
  assert (Hx : path st !! S k = Some (Line (e_slot e))) by by rewrite path_S, He.
  assert (Hperm : delete k st ++ [e] ≡ₚ st).
  { rewrite Permutation_app_comm. symmetry. by apply delete_Permutation. }
  assert (Hin : forall i, i ∈ Spec.slots (delete k st ++ [e]) <-> i ∈ Spec.slots st).
  { intros i. unfold Spec.slots. by rewrite Hperm. }
  assert (Hlst' : last (path (delete k st)) = Some lst).
  { rewrite last_lookup in Hlst. rewrite path_delete, last_lookup, length_delete, list_lookup_delete by by eexists.
    pose proof (lookup_lt_Some _ _ _ Hx). rewrite decide_False.
    - rewrite <- Hlst. f_equal. lia.
    - intros ?. apply Hne.
      assert (pred (length (path st)) = S k) as Heq by lia. rewrite Heq in Hlst. congruence. }
  split.
  - unfold raised, append_node, unlink_after. cbn [with_last windowLine].
    destruct (path st !! S (S k)); by autorewrite with wq.
  - unfold Spec.slots. by rewrite Hperm.
  - by rewrite Hperm.
  - unfold raised. intros j y Hy. rewrite link_of_last.
    rewrite path_app in Hy |- *. cbn [map] in Hy |- *.
    apply (links_append _ (path (delete k st))); try done.
    + rewrite path_delete. eapply links_unlink; eauto using NoDup_path.
    + apply NoDup_path. unfold Spec.slots in *. eapply sublist_NoDup; [exact Hnd|].
      apply fmap_sublist, sublist_delete.
    + by rewrite elem_of_path.
    + apply node_owner. rewrite unlink_after_owner. apply node_owner.
      eapply links_node; [done|]. by eapply list_elem_of_lookup_2.
  - unfold raised. simpl. rewrite path_app. cbn [map]. by rewrite last_snoc.
  - by rewrite raised_owner.
  - rewrite Hperm. eapply Forall_impl; [exact Hused|]. simpl. intros e' <-.
    apply raised_owner.
  - intros i Hi Hni. rewrite raised_owner. apply Hfree; [done|]. by rewrite <- Hin.
Qed.

(** Lines 149-166, everything but the repaint. *)
Lemma reorderQueue_run g st k e p lst :
  queue_rep (g_wq g) st -> st !! k = Some e -> path st !! k = Some p ->
  last (path st) = Some lst -> lst <> Line (e_slot e) -> window_lock ∉ g_locks g ->
  reorderQueue (Line (e_slot e)) g =
    updateBackWindows
      (set_wq (raised (g_wq g) p lst (Line (e_slot e)) (path st !! S (S k))) g).
Proof.
  intros HR He Hp Hlst Hne Hlock. unfold reorderQueue.
  rewrite (bind_Ok _ _ _ _ _ (acquire_run _ _ Hlock)).
  set (g1 := set_locks _ g). pose proof (rep_links _ _ HR) as HL.
  pose proof (NoDup_path _ (rep_nodup _ _ HR)) as Hnd.
  assert (Hx : path st !! S k = Some (Line (e_slot e))) by by rewrite path_S, He.
  pose proof (lookup_lt_Some _ _ _ Hx) as Hlt.
  pose proof (rep_length _ _ HR) as Hlen. rewrite path_length in Hlt.
  unfold gets at 1, M_bind at 1. cbn [g_wq set_locks g1].
  rewrite (rep_last _ _ HR), last_lookup.
  rewrite (bind_Ok _ _ _ _ _ (find_back_run g1 (path st) (pred (length (path st))) (S k)
    queue_fuel _ HL Hnd Hx
    ltac:(rewrite path_length; lia) ltac:(rewrite path_length; unfold queue_fuel; lia))).
  rewrite <- last_lookup, Hlst.
  destruct (link_node _ _ _ (HL _ _ Hx)) as (n & Hn & Hnext & Hprev).
  cbn [fst snd prev_at] in Hnext, Hprev. rewrite Hp in Hprev.
  pose proof (links_node _ _ _ HL (list_elem_of_lookup_2 _ _ _ Hx)) as Hxn.
  pose proof (links_node _ _ _ HL (list_elem_of_lookup_2 _ _ _ Hp)) as Hpn.
  assert (exists r, path st !! S (S k) = Some r) as [r Hr].
  { apply lookup_lt_is_Some. rewrite last_lookup, path_length in Hlst. rewrite path_length.
    destruct (decide (S k = length st)) as [Heq|]; [|lia]. simpl in Hlst. congruence. }
  pose proof (links_node _ _ _ HL (list_elem_of_lookup_2 _ _ _ Hr)) as Hrn.
  assert (Hpx : Line (e_slot e) <> p).
  { intros Heq. rewrite Heq in Hx. pose proof (NoDup_lookup _ _ _ _ Hnd Hx Hp). lia. }
  assert (Hln : is_Some (node_of (g_wq g) lst)).
  { eapply links_node; [done|]. rewrite last_lookup in Hlst. by eapply list_elem_of_lookup_2. }
  unfold deref. rewrite (bind_Ok _ _ _ _ _ (node_run g1 _ _ Hn)), Hprev, Hnext, Hr.
  rewrite (bind_Ok _ _ _ _ _ (update_node_run g1 _ _ Hpn)).
  erewrite bind_Ok; [|apply node_run; cbn [g_wq set_wq set_locks g1];
    rewrite node_of_upd, decide_False by done; exact Hn].
  rewrite Hnext, Hprev, Hr.
  do 4 (erewrite bind_Ok; [|apply update_node_run; cbn [g_wq set_wq set_locks g1];
    rewrite !node_of_upd; repeat case_decide; by rewrite ?fmap_is_Some]).
  erewrite bind_Ok; [|reflexivity].
  erewrite bind_Ok; [|by eapply release_run]. by destruct g.
Qed.
