(* ===== verification/Repaint.v ===== *)
(** * Repaint: what is on the screen after each update

    Three results about gui.c's updates.  The mouse pointer can be moved
    without repainting: outside the pointer's rectangle the screen is always
    a copy of [screen_temp2].  A full repaint always completes when the
    windows and their widgets exist, and shows exactly the picture obtained
    by painting every window, bottom to top, on one black canvas.  A repaint
    leaves the window queue, the current address space and the locks alone. *)
From S2P Require Import Prelude Font GuiState Draw DrawFacts Gui WindowQueue.

(** ** The pointer *)
Section Break_loops.
Context {A : Type}.
Implicit Types (f : Z -> A -> A) (a : A).

(** A loop that breaks at a limit is the loop up to that limit. *)
Lemma zfor_break_limit lo hi y L f a :
  zfor_break lo hi (fun j => y + j >=? L) f a = zfor lo (Z.min hi (L - y)) f a.
Proof.
  unfold zfor_break. remember (Z.to_nat (hi - lo)) as n eqn:Hn.
  revert lo a Hn. induction n as [|n IH]; intros lo a Hn.
  { rewrite seqZ_nil, zfor_nil by lia. done. }
  rewrite seqZ_cons by lia. simpl. rewrite Z.geb_leb. destruct (Z.leb_spec L (y + lo)).
  { by rewrite zfor_nil by lia. }
  rewrite zfor_step by lia. replace (Z.pred (hi - lo)) with (hi - (lo + 1)) by lia.
  replace (Z.succ lo) with (lo + 1) by lia. apply IH. lia.
Qed.
End Break_loops.

(** Offset [p] is under a pointer drawn at [(x, y)]. *)
Definition under_pointer (x y p : Z) : Prop :=
  exists i j, 0 <= i < MOUSE_WIDTH /\ 0 <= j < MOUSE_HEIGHT /\
    x + i < SCREEN_WIDTH /\ y + j < SCREEN_HEIGHT /\ p = (y + j) * SCREEN_WIDTH + x + i.

(** [setMousePosition] leaves the pointer in this range. *)
Definition pointer_on (x y : Z) : Prop := 0 <= x <= SCREEN_WIDTH /\ 0 <= y <= SCREEN_HEIGHT.

(** Away from the pointer the screen shows [screen_temp2]. *)
Definition shown_except (P : Z -> Prop) (m : vram) : Prop :=
  forall p, 0 <= p < totalPels -> ~ P p -> m (screen + p) = m (screen_temp2 + p).
Definition shown (g : gstate) : Prop :=
  shown_except (under_pointer (last_draw_x (g_mouse g)) (last_draw_y (g_mouse g))) (g_vram g).

Lemma screen_temp2_far p : 0 <= p -> totalPels < screen_temp2 + p.
Proof. intros. unfold totalPels, screen_temp2. cbv -[Z.add Z.lt Z.le]. lia. Qed.

(** The rectangle loop of [removeMouse], with the source fixed. *)
Lemma removeMouse_at_fixed x y m :
  pointer_on x y ->
  removeMouse_at x y m =
    zfor 0 (Z.min MOUSE_HEIGHT (SCREEN_HEIGHT - y)) (fun j m' =>
      zfor 0 (Z.min MOUSE_WIDTH (SCREEN_WIDTH - x)) (fun i m' =>
        upd m' (y * SCREEN_WIDTH + x + j * SCREEN_WIDTH + (i - 0))
          (m (screen_temp2 + (y + j) * SCREEN_WIDTH + x + i))) m') m.
Proof.
  intros [Hx Hy]. unfold removeMouse_at, mouse_rows. rewrite zfor_break_limit.
  set (P := fun m' : vram => forall a, totalPels < a -> m' a = m a).
  apply (zfor_ext_inv P); [done|]. intros j b Hj Hb. unfold mouse_cols.
  rewrite zfor_break_limit. apply (zfor_ext_inv P); [done|]. intros i b' Hi Hb'.
  assert (Hsrc : totalPels < screen_temp2 + (y + j) * SCREEN_WIDTH + x + i).
  { rewrite <- !Z.add_assoc. apply screen_temp2_far. unfold SCREEN_WIDTH in *. lia. }
  rewrite (Hb' _ Hsrc). split.
  - f_equal. unfold screen. ring.
  - intros a Ha. rewrite upd_ne; [by apply Hb'|].
    unfold totalPels, MOUSE_HEIGHT, MOUSE_WIDTH, SCREEN_WIDTH, SCREEN_HEIGHT in *. lia.
Qed.

Lemma removeMouse_at_spec x y m a :
  pointer_on x y ->
  (under_pointer x y a -> removeMouse_at x y m a = m (screen_temp2 + a)) /\
  (~ under_pointer x y a -> removeMouse_at x y m a = m a).
Proof.
  intros HP. rewrite removeMouse_at_fixed by done.
  pose proof (rect_spec 0 (Z.min MOUSE_HEIGHT (SCREEN_HEIGHT - y)) 0
    (Z.min MOUSE_WIDTH (SCREEN_WIDTH - x)) (y * SCREEN_WIDTH + x)
    (fun j i => Some (m (screen_temp2 + (y + j) * SCREEN_WIDTH + x + i))) m a
    ltac:(unfold MOUSE_WIDTH, SCREEN_WIDTH; lia)) as E.
  cbv beta iota zeta in E. rewrite E. clear E.
  set (q := _ `div` _). set (r := _ `mod` _).
  assert (Ha : a = (y + q) * SCREEN_WIDTH + x + r /\ 0 <= r < SCREEN_WIDTH).
  { pose proof (Z.div_mod (a - (y * SCREEN_WIDTH + x)) SCREEN_WIDTH ltac:(done)).
    pose proof (Z.mod_pos_bound (a - (y * SCREEN_WIDTH + x)) SCREEN_WIDTH ltac:(done)).
    subst q r. lia. }
  destruct Ha as [Ha Hr]. clearbody q r. destruct HP as [Hx Hy].
  assert (Hin : under_pointer x y a <->
    0 <= q < Z.min MOUSE_HEIGHT (SCREEN_HEIGHT - y) /\ r < Z.min MOUSE_WIDTH (SCREEN_WIDTH - x)).
  { unfold under_pointer, MOUSE_WIDTH, MOUSE_HEIGHT, SCREEN_WIDTH, SCREEN_HEIGHT in *. split.
    - intros (i & j & ?). lia.
    - intros ?. exists r, q. lia. }
  split; intros Hu; rewrite Hin in Hu; destruct (_ && _) eqn:E; zbool; simpl; try lia; try done.
  - rewrite Ha. f_equal. lia.
Qed.

(** The loops of [drawMouse] write under the pointer only. *)
Section Pointer_frame.
Variables (x y a : Z) (m : vram).
Hypothesis Hout : ~ under_pointer x y a.

Lemma pointer_pixel_frame i j c m' :
  0 <= i < MOUSE_WIDTH -> 0 <= j < MOUSE_HEIGHT ->
  x + i < SCREEN_WIDTH -> y + j < SCREEN_HEIGHT -> m' a = m a ->
  upd m' (screen + (y + j) * SCREEN_WIDTH + x + i) c a = m a.
Proof using Hout.
  intros. rewrite upd_ne; [done|]. intros ->. apply Hout. exists i, j.
  unfold screen. lia.
Qed.

Lemma pointer_loop_frame lo hi (hic : Z -> Z) (body : Z -> Z -> vram -> vram) m' :
  0 <= lo -> hi <= MOUSE_HEIGHT -> (forall j, lo <= j < hi -> hic j <= MOUSE_WIDTH) ->
  (forall i j m', 0 <= i < MOUSE_WIDTH -> 0 <= j < MOUSE_HEIGHT ->
     x + i < SCREEN_WIDTH -> y + j < SCREEN_HEIGHT -> m' a = m a -> body j i m' a = m a) ->
  m' a = m a ->
  mouse_rows y lo hi (fun j => mouse_cols x (hic j) (body j)) m' a = m a.
Proof using.
  intros Hlo Hhi Hc Hbody Hm. unfold mouse_rows. rewrite zfor_break_limit.
  apply (zfor_inv (fun m' => m' a = m a)); [done|]. intros j b Hj Hb.
  unfold mouse_cols. rewrite zfor_break_limit.
  specialize (Hc j ltac:(lia)).
  apply (zfor_inv (fun m' => m' a = m a)); [done|]. intros i b' Hi Hb'.
  apply Hbody; try done; lia.
Qed.

Lemma drawMouse_at_frame ev : drawMouse_at x y ev m a = m a.
Proof using Hout.
  unfold drawMouse_at. case_if.
  - apply (pointer_loop_frame 0 (Z.quot MOUSE_HEIGHT 2) (fun _ => MOUSE_WIDTH) (fun j i m' =>
      let t := screen + (y + j) * SCREEN_WIDTH + x + i in
      let m'' := if dm_at i j =? 2 then upd m' t (rgb 255 255 255) else m' in
      if dm_at i j =? 1 then upd m'' t (rgb 0 0 0) else m'')); try done.
    intros. cbv zeta. repeat case_if; auto using pointer_pixel_frame.
  - cbv zeta.
    apply (pointer_loop_frame (Z.quot MOUSE_HEIGHT 2) _
      (fun j => MOUSE_WIDTH + Z.quot MOUSE_WIDTH 2 - 1 - j) (fun j i m' =>
        if (i =? 0) || (i =? MOUSE_WIDTH + Z.quot MOUSE_WIDTH 2 - 2 - j)
        then upd m' (screen + (y + j) * SCREEN_WIDTH + x + i) (rgb 255 255 255)
        else upd m' (screen + (y + j) * SCREEN_WIDTH + x + i) (rgb 0 0 0))); try done.
    + intros j. cbv -[Z.le Z.lt Z.sub Z.add]. lia.
    + intros. case_if; auto using pointer_pixel_frame.
    + apply (pointer_loop_frame 0 _ (fun j => j) (fun j i m' =>
        if (i =? 0) || (i =? j - 1)
           || ((j =? Z.quot MOUSE_HEIGHT 2 - 1) && (i >=? Z.quot MOUSE_WIDTH 2))
        then upd m' (screen + (y + j) * SCREEN_WIDTH + x + i) (rgb 255 255 255)
        else upd m' (screen + (y + j) * SCREEN_WIDTH + x + i) (rgb 0 0 0))); try done.
      * intros j. cbv -[Z.le Z.lt Z.sub Z.add]. lia.
      * intros. case_if; auto using pointer_pixel_frame.
Qed.
End Pointer_frame.

Lemma under_pointer_range x y p : pointer_on x y -> under_pointer x y p -> 0 <= p < totalPels.
Proof.
  unfold under_pointer, pointer_on, totalPels, MOUSE_WIDTH, MOUSE_HEIGHT, SCREEN_WIDTH,
    SCREEN_HEIGHT. intros ? (i & j & ?). lia.
Qed.

Lemma under_pointer_dec x y p :
  pointer_on x y -> under_pointer x y p \/ ~ under_pointer x y p.
Proof.
  intros HP.
  assert (H : under_pointer x y p <->
    x <= p mod SCREEN_WIDTH < x + MOUSE_WIDTH /\ y <= p `div` SCREEN_WIDTH < y + MOUSE_HEIGHT
    /\ p `div` SCREEN_WIDTH < SCREEN_HEIGHT).
  { unfold pointer_on, under_pointer, MOUSE_WIDTH, MOUSE_HEIGHT, SCREEN_WIDTH, SCREEN_HEIGHT in *.
    split.
    - intros (i & j & ?). Z.to_euclidean_division_equations. lia.
    - intros. exists (p mod 1280 - x), (p `div` 1280 - y).
      Z.to_euclidean_division_equations. lia. }
  rewrite H. lia.
Qed.

Lemma shown_draw x y ev m :
  pointer_on x y -> shown_except (fun _ => False) m ->
  shown_except (under_pointer x y) (drawMouse_at x y ev m).
Proof.
  intros HP Hs p Hp Hu. rewrite !drawMouse_at_frame; [by apply Hs; auto| |].
  - intros H%under_pointer_range; [|done]. pose proof (screen_temp2_far p). lia.
  - by replace (screen + p) with p by done.
Qed.

Lemma shown_remove x y m :
  pointer_on x y -> shown_except (under_pointer x y) m ->
  shown_except (fun _ => False) (removeMouse_at x y m).
Proof.
  intros HP Hs p Hp _.
  assert (Hfar : ~ under_pointer x y (screen_temp2 + p)).
  { intros H%under_pointer_range; [|done]. pose proof (screen_temp2_far p). lia. }
  rewrite (proj2 (removeMouse_at_spec x y m (screen_temp2 + p) HP) Hfar).
  destruct (under_pointer_dec x y p HP) as [Hu|Hu].
  - by apply (removeMouse_at_spec x y m p HP).
  - rewrite (proj2 (removeMouse_at_spec x y m (screen + p) HP) Hu). by apply Hs.
Qed.

Lemma updateMouse_run g :
  gui_lock ∉ g_locks g ->
  let mi := g_mouse g in
  updateMouse g = Ok (tt,
    set_mouse (mkMouse (x_position mi) (y_position mi) (x_position mi) (y_position mi)
                 (m_event mi))
      (set_vram (drawMouse_at (x_position mi) (y_position mi) (m_event mi)
                   (removeMouse_at (last_draw_x mi) (last_draw_y mi) (g_vram g))) g)).
Proof.
  intros Hl mi. unfold updateMouse. rewrite (bind_Ok _ _ _ _ _ (acquire_run _ _ Hl)).
  unfold M_bind at 1, removeMouse, modify. unfold M_bind at 1, drawMouse, modify.
  erewrite release_run by done. by destruct g.
Qed.

(** Moving the pointer never damages the picture and never needs a repaint:
    if, before [updateMouse], the screen equals [screen_temp2] everywhere but
    under the pointer as last drawn, then [updateMouse] returns, the same
    holds for the pointer's new place, [screen_temp2] and [screen_temp1] are
    untouched, and so is everything but the screen and the drawn position. *)
Theorem updateMouse_shown g :
  gui_lock ∉ g_locks g ->
  pointer_on (last_draw_x (g_mouse g)) (last_draw_y (g_mouse g)) ->
  pointer_on (x_position (g_mouse g)) (y_position (g_mouse g)) ->
  shown g ->
  exists g', updateMouse g = Ok (tt, g') /\ shown g' /\
    last_draw_x (g_mouse g') = x_position (g_mouse g) /\
    last_draw_y (g_mouse g') = y_position (g_mouse g) /\
    (forall a, totalPels <= a -> g_vram g' a = g_vram g a) /\
    g' = set_mouse (g_mouse g') (set_vram (g_vram g') g).
Proof.
  intros Hl Hlast Hpos Hs. eexists. split; [by apply updateMouse_run|].
  cbn [g_mouse g_vram set_mouse set_vram last_draw_x last_draw_y].
  split; [|split; [done|split; [done|split]]].
  - by apply shown_draw, shown_remove.
  - intros a Ha.
    rewrite drawMouse_at_frame by (intros ?%under_pointer_range; [lia | done]).
    apply removeMouse_at_spec; [done|]. intros ?%under_pointer_range; [lia | done].
  - done.
Qed.

(** ** Painting one window, as a function of the memory it lives in *)
Section Painting.
Variables (um : gmap (nat * Z) uobj) (i : nat).

Definition paint_widget (window : Window.t) (wd : Widget) (buf : Z) : M vram unit :=
  match wd with
  | W_label p =>
      match um !! (i, p) with Some (U_label l) => modify (drawLabel buf l window) | _ => fault end
  | W_textBox p =>
      match um !! (i, p) with Some (U_textBox b) => drawTextBox buf b window | _ => fault end
  | W_button p =>
      match um !! (i, p) with
      | Some (U_button b) =>
          if Button.image b =? 0 then drawButton buf b None window
          else match um !! (i, Button.image b) with
               | Some (U_image px) => drawButton buf b (Some px) window
               | _ => fault
               end
      | _ => fault
      end
  | W_imageView p =>
      match um !! (i, p) with
      | Some (U_imageView v) =>
          match um !! (i, ImageView.image v) with
          | Some (U_image px) => modify (drawImageView buf v px window)
          | _ => fault
          end
      | _ => fault
      end
  | W_iconView p =>
      match um !! (i, p) with
      | Some (U_iconView v) =>
          match um !! (i, IconView.image v) with
          | Some (U_image px) => drawIconView buf v px window
          | _ => fault
          end
      | _ => fault
      end
  | W_other _ _ => ret tt
  end.

Fixpoint paint_widgets (window : Window.t) (l : list Widget) (buf : Z) : M vram unit :=
  match l with
  | [] => ret tt
  | wd :: l' => paint_widget window wd buf ;;; paint_widgets window l' buf
  end.

(** The window at address [a], if it is to be shown, then its widgets. *)
Definition paint_window (a : Z) (focus : bool) (buf : Z) : M vram unit :=
  match um !! (i, a) with
  | Some (U_window w) =>
      if Window.show w =? 1 then
        drawWindow buf w focus ;;;
        paint_widgets w (take (Z.to_nat (Window.widgetsNum w)) (Window.widgets w)) buf
      else ret tt
  | _ => fault
  end.

(** The objects a window refers to exist and its strings are terminated. *)
Definition widget_ok (wd : Widget) : Prop :=
  match wd with
  | W_label p => exists l, um !! (i, p) = Some (U_label l)
  | W_textBox p =>
      exists b, um !! (i, p) = Some (U_textBox b) /\ is_Some (strlen (TextBox.text b))
  | W_button p =>
      exists b, um !! (i, p) = Some (U_button b) /\ is_Some (strlen (Button.text b)) /\
        (Button.image b = 0 \/ exists px, um !! (i, Button.image b) = Some (U_image px))
  | W_imageView p =>
      exists v px, um !! (i, p) = Some (U_imageView v) /\
        um !! (i, ImageView.image v) = Some (U_image px)
  | W_iconView p =>
      exists v px, um !! (i, p) = Some (U_iconView v) /\ is_Some (strlen (IconView.text v)) /\
        um !! (i, IconView.image v) = Some (U_image px)
  | W_other _ _ => True
  end.
Definition window_ok (a : Z) : Prop :=
  a <> 0 /\ exists w, um !! (i, a) = Some (U_window w) /\
    is_Some (strlen (Window.caption w)) /\
    length (Window.widgets w) = Z.to_nat MAX_WIDGET_NUM /\
    Window.widgetsNum w <= MAX_WIDGET_NUM /\
    Forall widget_ok (take (Z.to_nat (Window.widgetsNum w)) (Window.widgets w)).
End Painting.

(** ** Every painter runs a script *)
Definition anywhere (o : Z) : Prop := True.

Section Painters.
Variables (window : Window.t).

Lemma paint_anywhere j0 j1 i0 i1 (start : Z -> Z -> Z) (so : Z -> Z) color :
  (forall buf j, start buf j = buf + so j) ->
  mscript anywhere (fun buf => modify (paint j0 j1 i0 i1 (start buf) color)).
Proof using. intros H. apply mscript_modify. by apply (script_paint _ _ _ _ _ _ so). Qed.
Lemma blit_anywhere w h image skip (start : Z -> Z -> Z) (so : Z -> Z) :
  (forall buf j, start buf j = buf + so j) ->
  mscript anywhere (fun buf => modify (blit w h image skip (start buf))).
Proof using. intros H. apply mscript_modify. by apply (script_blit _ _ _ _ _ _ so). Qed.
Lemma upd_anywhere (t : Z -> Z) o c :
  (forall buf, t buf = buf + o) -> script anywhere (fun buf m => upd m (t buf) c).
Proof using. intros H. by apply (script_upd _ _ o). Qed.
Lemma text_anywhere (pos x y : Z) str r g b :
  is_Some (strlen str) ->
  mscript anywhere (fun buf => drawCharacters_at pos buf x y str r g b).
Proof using. intros. by apply drawCharacters_at_script. Qed.

Lemma drawCursor_anywhere tb lines pos_x :
  mscript anywhere (fun buf => modify (drawCursor buf tb window lines pos_x)).
Proof using.
  apply mscript_modify. unfold drawCursor. cbv zeta. apply script_zfor. intros s _.
  apply (upd_anywhere _ ((Window.leftTopY window + TextBox.leftTopY tb + lines * 18)
    * SCREEN_WIDTH + Window.leftTopX window + TextBox.leftTopX tb + pos_x + s * SCREEN_WIDTH)).
  intros. lia.
Qed.

Lemma drawText_anywhere tb text : is_Some (strlen text) -> forall i j pos_x,
  mscript anywhere (fun buf => drawText buf tb window text i j pos_x).
Proof using.
  induction text as [|c text IH]; intros Hlen i j pos_x; [by destruct Hlen|].
  simpl in Hlen |- *. destruct (c =? 0); [apply mscript_ret|].
  assert (Ht : is_Some (strlen text)) by by destruct (strlen text); [|destruct Hlen].
  destruct (if pos_x >? TextBox.width tb - 9 then _ else _) as [pos_x' j'].
  destruct (c =? 10).
  - apply mscript_seq; [apply mscript_when, drawCursor_anywhere|].
    destruct text as [|d text']; [by destruct Ht|].
    destruct (d =? 0); [apply mscript_ret | by apply IH].
  - destruct (drawCharacter_script anywhere
      (Window.leftTopX window + TextBox.leftTopX tb + pos_x')
      (Window.leftTopY window + TextBox.leftTopY tb + j' * CHARACTER_HEIGHT) c 0 0 0)
      as (l1 & F1 & E1); [done|].
    destruct (mscript_seq anywhere
      (fun buf => when i =? TextBox.cursor tb - 1 do
         modify (drawCursor buf tb window j' (pos_x' + char_width c)))
      (fun buf => drawText buf tb window text (i + 1) j' (pos_x' + char_width c)))
      as (l2 & F2 & E2).
    { apply mscript_when, drawCursor_anywhere. }
    { by apply IH. }
    exists (l1 ++ l2). split; [by apply Forall_app|]. intros buf m.
    by rewrite E1, run_writes_app, <- E2.
Qed.

Lemma drawTextBox_anywhere tb :
  is_Some (strlen (TextBox.text tb)) -> mscript anywhere (fun buf => drawTextBox buf tb window).
Proof using.
  intros Ht. unfold drawTextBox. cbv zeta.
  set (o j := (Window.leftTopY window + TextBox.leftTopY tb + j) * SCREEN_WIDTH
    + Window.leftTopX window + TextBox.leftTopX tb).
  apply mscript_seq; [apply (paint_anywhere _ _ _ _ _ o); intros; subst o; cbv beta; lia|].
  apply mscript_seq.
  { apply mscript_modify, script_zfor. intros j _.
    apply (script_comp _ (fun buf m => upd m (buf + (Window.leftTopY window +
      TextBox.leftTopY tb + j) * SCREEN_WIDTH + Window.leftTopX window + TextBox.leftTopX tb)
      (mkRGB 204 204 204)) (fun buf m => upd m (buf + (Window.leftTopY window +
      TextBox.leftTopY tb + j) * SCREEN_WIDTH + Window.leftTopX window + TextBox.leftTopX tb
      + (TextBox.width tb - 1)) (mkRGB 204 204 204))).
    - apply (upd_anywhere _ (o j)). intros; subst o; cbv beta; lia.
    - apply (upd_anywhere _ (o j + (TextBox.width tb - 1))). intros; subst o; cbv beta; lia. }
  apply mscript_seq.
  { apply mscript_modify, script_zfor. intros j _.
    apply (upd_anywhere _ (o 0 + j)). intros; subst o; cbv beta; lia. }
  apply mscript_seq.
  { apply mscript_modify, script_zfor. intros j _.
    apply (upd_anywhere _ (o (TextBox.height tb - 1) + j)). intros; subst o; cbv beta; lia. }
  apply mscript_seq; [by apply drawText_anywhere|].
  apply mscript_when, drawCursor_anywhere.
Qed.

Lemma drawButton_anywhere b px :
  is_Some (strlen (Button.text b)) -> mscript anywhere (fun buf => drawButton buf b px window).
Proof using.
  intros Ht. unfold drawButton. cbv zeta.
  set (o j := (Window.leftTopY window + Button.leftTopY b + j) * SCREEN_WIDTH
    + Window.leftTopX window + Button.leftTopX b).
  apply mscript_seq.
  - destruct px; [apply (blit_anywhere _ _ _ _ _ o) | apply (paint_anywhere _ _ _ _ _ o)];
      intros; subst o; cbv beta; lia.
  - case_if; [by apply text_anywhere|].
    apply mscript_of_option; [done|]. intros. by apply text_anywhere.
Qed.

Lemma drawIconView_anywhere v px :
  is_Some (strlen (IconView.text v)) ->
  mscript anywhere (fun buf => drawIconView buf v px window).
Proof using.
  intros Ht. unfold drawIconView. apply mscript_seq.
  - apply (blit_anywhere _ _ _ _ _ (fun j => (Window.leftTopY window + IconView.leftTopY v + j)
      * SCREEN_WIDTH + Window.leftTopX window + IconView.leftTopX v)). intros; lia.
  - apply mscript_of_option; [done|]. intros. by apply text_anywhere.
Qed.

Lemma paint_widget_anywhere um i wd :
  widget_ok um i wd -> mscript anywhere (paint_widget um i window wd).
Proof using.
  unfold paint_widget. destruct wd as [p|p|p|p|p|? p]; simpl.
  - intros [l ->]. apply (paint_anywhere _ _ _ _ _ (fun j =>
      (Window.leftTopY window + Label.leftTopY l + j) * SCREEN_WIDTH
      + Window.leftTopX window + Label.leftTopX l)). intros; lia.
  - intros (b & -> & ?). by apply drawTextBox_anywhere.
  - intros (b & -> & ? & [->|[px ->]]); [by apply drawButton_anywhere|].
    case_if; by apply drawButton_anywhere.
  - intros (v & px & -> & ->). apply (blit_anywhere _ _ _ _ _ (fun j =>
      (Window.leftTopY window + ImageView.leftTopY v + j) * SCREEN_WIDTH
      + Window.leftTopX window + ImageView.leftTopX v)). intros; lia.
  - intros (v & px & -> & ? & ->). by apply drawIconView_anywhere.
  - intros _. apply mscript_ret.
Qed.
End Painters.

Section Paint_window.
Variables (w : Window.t) (focus : bool).
Hypothesis Hcap : is_Some (strlen (Window.caption w)).

Lemma rows_anywhere d j0 j1 i0 i1 (start : Z -> Z -> Z) color :
  (forall buf j, start buf j = row_start buf w j + d) ->
  mscript anywhere (fun buf => modify (paint j0 j1 i0 i1 (start buf) color)).
Proof using.
  intros H. apply (paint_anywhere _ _ _ _ _ (fun j =>
    (Window.leftTopY w + j) * SCREEN_WIDTH + Window.leftTopX w + d)).
  intros. rewrite H, row_start_offset. lia.
Qed.
Lemma dot_anywhere d j (t : Z -> Z) c :
  (forall buf, t buf = row_start buf w j + d) ->
  script anywhere (fun buf m => upd m (t buf) c).
Proof using.
  intros H. apply (upd_anywhere _ ((Window.leftTopY w + j) * SCREEN_WIDTH
    + Window.leftTopX w + d)). intros. rewrite H, row_start_offset. lia.
Qed.
Lemma columns_anywhere lo hi d1 d2 (t1 t2 : Z -> Z -> Z) c1 c2 :
  (forall buf j, t1 buf j = row_start buf w j + d1) ->
  (forall buf j, t2 buf j = row_start buf w j + d2) ->
  mscript anywhere (fun buf => modify (zfor lo hi (fun j m =>
    upd (upd m (t1 buf j) c1) (t2 buf j) c2))).
Proof using.
  intros H1 H2. apply mscript_modify, script_zfor. intros j _.
  apply (script_comp _ (fun buf m => upd m (t1 buf j) c1) (fun buf m => upd m (t2 buf j) c2));
    by eapply dot_anywhere.
Qed.

Lemma drawFooter_anywhere : mscript anywhere (fun buf => drawFooter buf w).
Proof using.
  unfold drawFooter. case_if; [|apply mscript_ret]. apply mscript_seq.
  - apply mscript_modify, script_zfor. intros j _.
    apply (script_zfor anywhere (BORDER_WIDTH + 1) (Window.width w - BORDER_WIDTH + 1)
      (fun buf i m => let t := row_start buf w j + BORDER_WIDTH + (i - (BORDER_WIDTH + 1)) in
        upd (if j =? Window.height w - BORDER_WIDTH - FOOTER_HEIGHT - 1
             then upd m (t - SCREEN_WIDTH) (rgb 204 204 204) else m) t (rgb 220 226 241))).
    intros i _. cbv zeta.
    apply (script_comp _ (fun buf m =>
        if j =? Window.height w - BORDER_WIDTH - FOOTER_HEIGHT - 1
        then upd m (row_start buf w j + BORDER_WIDTH + (i - (BORDER_WIDTH + 1)) - SCREEN_WIDTH)
               (rgb 204 204 204) else m)
      (fun buf m => upd m (row_start buf w j + BORDER_WIDTH + (i - (BORDER_WIDTH + 1)))
                      (rgb 220 226 241))).
    + case_if; [|apply script_id]. apply (dot_anywhere (i - 1 - SCREEN_WIDTH) j).
      unfold BORDER_WIDTH. intros; lia.
    + apply (dot_anywhere (i - 1) j). unfold BORDER_WIDTH. intros; lia.
  - apply mscript_of_option; [done|]. intros. by apply text_anywhere.
Qed.

Lemma drawWindow_anywhere : mscript anywhere (fun buf => drawWindow buf w focus).
Proof using Hcap.
  unfold drawWindow. apply mscript_seq.
  { unfold drawBody. case_if; [|apply (rows_anywhere 0); intros; lia].
    apply mscript_seq; [apply (rows_anywhere 0); intros; lia|].
    apply mscript_of_option; [done|]. intros len _.
    apply mscript_seq; [by apply text_anywhere | apply (rows_anywhere 0); intros; lia]. }
  apply mscript_seq.
  { unfold drawBorder. apply mscript_seq; [apply (rows_anywhere 0); intros; lia|].
    apply mscript_seq; [|apply (rows_anywhere 0); intros; lia].
    apply (rows_anywhere (Window.width w - BORDER_WIDTH)); intros; lia. }
  apply mscript_seq; [|apply drawFooter_anywhere].
  unfold drawShadow. do 2 (apply mscript_seq; [apply (rows_anywhere 0); intros; lia|]).
  apply mscript_seq; [apply (columns_anywhere _ _ 0 (Window.width w - 1)); intros; lia|].
  do 2 (apply mscript_seq; [apply (rows_anywhere (-1)); intros; lia|]).
  apply (columns_anywhere _ _ (-1) (Window.width w)); intros; lia.
Qed.
End Paint_window.

Lemma paint_widgets_anywhere um i w l :
  Forall (widget_ok um i) l -> mscript anywhere (paint_widgets um i w l).
Proof.
  induction 1 as [|wd l Hwd _ IH]; [apply mscript_ret|].
  apply (mscript_seq _ (paint_widget um i w wd)); [by apply paint_widget_anywhere | done].
Qed.

Lemma paint_window_anywhere um i a focus :
  window_ok um i a -> mscript anywhere (paint_window um i a focus).
Proof.
  intros (Ha & w & Hw & Hcap & _ & _ & Hwd). unfold paint_window. rewrite Hw.
  case_if; [|apply mscript_ret].
  apply (mscript_seq _ (fun buf => drawWindow buf w focus)); [by apply drawWindow_anywhere|].
  by apply paint_widgets_anywhere.
Qed.

(** ** The kernel's painting code is the painting above *)
Section Bridge.
Variables (g : gstate) (i : nat).
Hypothesis Hcr3 : cr3 (g_cpu g) = Some i.

Lemma uload_run a o : g_umem g !! (i, a) = Some o -> uload a g = Ok (o, g).
Proof using Hcr3. intros H. unfold uload. by rewrite Hcr3, H. Qed.

Lemma drawWidget_run buf w wd m :
  widget_ok (g_umem g) i wd ->
  drawWidget buf w wd (set_vram m g) =
    draw (paint_widget (g_umem g) i w wd buf) (set_vram m g).
Proof using Hcr3.
  assert (Hu : forall a o, g_umem g !! (i, a) = Some o ->
    uload a (set_vram m g) = Ok (o, set_vram m g)).
  { intros a o H. unfold uload. simpl. by rewrite Hcr3, H. }
  unfold drawWidget, paint_widget. destruct wd as [p|p|p|p|p|? p]; simpl.
  - intros [l H]. by rewrite (bind_Ok _ _ _ l (set_vram m g)), H
      by (unfold load_label; by rewrite (bind_Ok _ _ _ _ _ (Hu _ _ H))).
  - intros (b & H & _). by rewrite (bind_Ok _ _ _ b (set_vram m g)), H
      by (unfold load_textBox; by rewrite (bind_Ok _ _ _ _ _ (Hu _ _ H))).
  - intros (b & H & _ & Himg). rewrite (bind_Ok _ _ _ b (set_vram m g)), H
      by (unfold load_button; by rewrite (bind_Ok _ _ _ _ _ (Hu _ _ H))).
    destruct (Z.eqb_spec (Button.image b) 0); [done|]. destruct Himg as [|[px Hpx]]; [done|].
    rewrite Hpx. erewrite bind_Ok; [reflexivity|].
    rewrite (bind_Ok _ _ _ px (set_vram m g)); [done|].
    unfold load_image. by rewrite (bind_Ok _ _ _ _ _ (Hu _ _ Hpx)).
  - intros (v & px & H & Hpx). rewrite (bind_Ok _ _ _ v (set_vram m g)), H
      by (unfold load_imageView; by rewrite (bind_Ok _ _ _ _ _ (Hu _ _ H))).
    by rewrite (bind_Ok _ _ _ px (set_vram m g)), Hpx
      by (unfold load_image; by rewrite (bind_Ok _ _ _ _ _ (Hu _ _ Hpx))).
  - intros (v & px & H & _ & Hpx). rewrite (bind_Ok _ _ _ v (set_vram m g)), H
      by (unfold load_iconView; by rewrite (bind_Ok _ _ _ _ _ (Hu _ _ H))).
    by rewrite (bind_Ok _ _ _ px (set_vram m g)), Hpx
      by (unfold load_image; by rewrite (bind_Ok _ _ _ _ _ (Hu _ _ Hpx))).
  - intros _. unfold draw, zoom. simpl. by destruct g.
Qed.

Lemma draw_Ok {A} (c : M vram A) m m' x :
  c m = Ok (x, m') -> draw c (set_vram m g) = Ok (x, set_vram m' g).
Proof using. intros H. unfold draw, zoom. simpl. by rewrite H. Qed.

Lemma widget_loop_run w buf n : forall lo m,
  Forall (widget_ok (g_umem g) i) (take n (drop lo (Window.widgets w))) ->
  (lo + n <= length (Window.widgets w))%nat ->
  length (Window.widgets w) = Z.to_nat MAX_WIDGET_NUM ->
  mfor_list (seqZ (Z.of_nat lo) (Z.of_nat n))
    (fun k => wd <- widget_at w k ;; drawWidget buf w wd) (set_vram m g) =
  draw (paint_widgets (g_umem g) i w (take n (drop lo (Window.widgets w))) buf) (set_vram m g).
Proof using Hcr3.
  induction n as [|n IH]; intros lo m Hok Hlen Hmax.
  { unfold draw, zoom. simpl. by destruct g. }
  destruct (lookup_lt_is_Some_2 (Window.widgets w) lo) as [wd Hwd]; [lia|].
  rewrite (drop_S _ _ _ Hwd) in Hok |- *. simpl take in Hok |- *.
  apply Forall_cons in Hok as [Hok1 Hok].
  rewrite seqZ_cons by lia. simpl mfor_list. simpl paint_widgets.
  assert (Hat : widget_at w (Z.of_nat lo) = ret wd).
  { unfold widget_at, MAX_WIDGET_NUM in *. rewrite Nat2Z.id, Hwd.
    replace (_ || _) with false; [done|]. symmetry.
    rewrite orb_false_iff, Z.ltb_ge, Z.leb_gt. lia. }
  destruct (paint_widget_anywhere w _ _ _ Hok1) as (l & _ & E).
  erewrite bind_Ok; cycle 1.
  { rewrite Hat. unfold M_bind at 1, ret. rewrite drawWidget_run by done.
    apply draw_Ok, E. }
  replace (Z.succ (Z.of_nat lo)) with (Z.of_nat (S lo)) by lia.
  replace (Z.pred (Z.of_nat (S n))) with (Z.of_nat n) by lia.
  rewrite IH by (done || lia). unfold draw, zoom, M_bind. simpl. by rewrite E.
Qed.

Lemma drawWindowFull_run buf a focus :
  window_ok (g_umem g) i a ->
  drawWindowFull buf a focus g = draw (paint_window (g_umem g) i a focus buf) g.
Proof using Hcr3.
  intros (Ha & w & Hw & Hcap & Hlen & Hnum & Hwd). unfold drawWindowFull, paint_window.
  rewrite Hw, (bind_Ok _ _ _ w g)
    by (unfold load_window; by rewrite (bind_Ok _ _ _ _ _ (uload_run _ _ Hw))).
  case_if; [|unfold draw, zoom; simpl; by destruct g].
  destruct (drawWindow_anywhere w focus Hcap) as (l & _ & E).
  assert (Hg : g = set_vram (g_vram g) g) by by destruct g.
  rewrite Hg at 1. rewrite (bind_Ok _ _ _ _ _ (draw_Ok _ _ _ _ (E buf (g_vram g)))).
  unfold mfor. rewrite Z.sub_0_r.
  transitivity (draw (paint_widgets (g_umem g) i w
    (take (Z.to_nat (Window.widgetsNum w)) (Window.widgets w)) buf)
    (set_vram (run_writes buf l (g_vram g)) g)).
  - rewrite <- (drop_0 (Window.widgets w)) in Hwd |- * at 1.
    rewrite <- (widget_loop_run _ _ _ 0); try done.
    + f_equal. change (Z.of_nat 0) with 0. destruct (decide (0 <= Window.widgetsNum w)).
      * by rewrite Z2Nat.id.
      * rewrite !seqZ_nil by lia. done.
    + unfold MAX_WIDGET_NUM in *. lia.
  - unfold draw, zoom, M_bind. simpl. rewrite E. done.
Qed.
End Bridge.

(** ** The whole stack *)

(** Windows bottom to top, none of them focused. *)
Fixpoint paint_back (um : gmap (nat * Z) uobj) (st : list entry) (buf : Z) : M vram unit :=
  match st with
  | [] => ret tt
  | e :: st' => paint_window um (e_proc e) (e_window e) false buf ;;; paint_back um st' buf
  end.
(** The picture of a stack: all windows on one black canvas, the top one focused. *)
Definition picture (um : gmap (nat * Z) uobj) (back : list entry) (top : entry) :
    outcome (unit * vram) :=
  (paint_back um back 0 ;;; paint_window um (e_proc top) (e_window top) true 0)
    (fun _ => mkRGB 0 0 0).

(** A process can be switched to and its window painted. *)
Definition paintable (g : gstate) (e : entry) : Prop :=
  e_proc e ∈ pgdirs (g_cpu g) /\ window_ok (g_umem g) (e_proc e) (e_window e).

Record repaint_ready (g : gstate) (me : nat) (back : list entry) (top : entry) : Prop := mkReady {
  ready_rep : queue_rep (g_wq g) (back ++ [top]);
  ready_proc : proc (g_cpu g) = Some me;
  ready_me : me ∈ pgdirs (g_cpu g);
  ready_windows : Forall (paintable g) (back ++ [top]) }.

(** Only video memory and the loaded page table differ from [g]. *)
Definition drawn (g : gstate) (m : vram) (c : option nat) : gstate :=
  set_cpu (mkCpu (proc (g_cpu g)) c (pgdirs (g_cpu g))) (set_vram m g).

Section Switching.
Variables (g : gstate) (me : nat).
Hypotheses (Hme : proc (g_cpu g) = Some me) (Hpg : me ∈ pgdirs (g_cpu g)).

Lemma switchuvm_run i m c : i ∈ pgdirs (g_cpu g) ->
  switchuvm (Some i) (drawn g m c) = Ok (tt, drawn g m (Some i)).
Proof using Hme.
  intros Hi. unfold switchuvm, drawn. simpl. rewrite Hme, decide_True by done. done.
Qed.
Lemma switch_back_run m c : switch_back (drawn g m c) = Ok (tt, drawn g m (Some me)).
Proof using Hme Hpg.
  unfold switch_back. unfold drawn at 1. simpl. rewrite Hme. by apply switchuvm_run.
Qed.
Lemma drawn_id : g = drawn g (g_vram g) (cr3 (g_cpu g)).
Proof using. clear. destruct g as [? ? ? ? ? ? ? ? ? []]. done. Qed.
Lemma draw_drawn {A} (k : M vram A) m c x m' :
  k m = Ok (x, m') -> draw k (drawn g m c) = Ok (x, drawn g m' c).
Proof using. intros E. unfold draw, zoom. simpl. by rewrite E. Qed.

(** Painting the window of entry [e] into [buf]. *)
Lemma paint_entry_run e buf focus m c l :
  paintable g e ->
  (forall b m, paint_window (g_umem g) (e_proc e) (e_window e) focus b m
               = Ok (tt, run_writes b l m)) ->
  (switchuvm (Some (e_proc e)) ;;;
   (if e_window e =? 0 then ret tt else drawWindowFull buf (e_window e) focus)) (drawn g m c)
  = Ok (tt, drawn g (run_writes buf l m) (Some (e_proc e))).
Proof using Hme.
  intros [Hp Hw] E. rewrite (bind_Ok _ _ _ _ _ (switchuvm_run _ m c Hp)).
  destruct (Z.eqb_spec (e_window e) 0) as [H0|_]; [by destruct Hw|].
  rewrite (drawWindowFull_run (drawn g m (Some (e_proc e))) (e_proc e) eq_refl) by done.
  apply draw_drawn, E.
Qed.
End Switching.

Section Back_windows.
Variables (g : gstate) (me : nat) (back : list entry) (top : entry).
Hypothesis HR : repaint_ready g me back top.

Lemma path_cur k e : (back ++ [top]) !! k = Some e ->
  node_of (g_wq g) (Line (e_slot e)) =
    Some (mkWQ (Some (e_proc e)) (e_window e)
            (path (back ++ [top]) !! S (S k)) (path (back ++ [top]) !! k)).
Proof using HR.
  intros He. exact (rep_entry _ _ _ _ (ready_rep _ _ _ _ HR) He).
Qed.

Lemma path_next k p : path (back ++ [top]) !! k = Some p ->
  exists n, node_of (g_wq g) p = Some n /\ wq_next n = path (back ++ [top]) !! S k.
Proof using HR.
  intros Hp. destruct (link_node _ _ _ (rep_links _ _ (ready_rep _ _ _ _ HR) _ _ Hp))
    as (n & ? & ? & _). by exists n.
Qed.

Lemma last_top : lastWindow (g_wq g) = Some (Line (e_slot top)).
Proof using HR.
  rewrite (rep_last _ _ (ready_rep _ _ _ _ HR)). apply last_path_Line, last_snoc.
Qed.

Lemma not_top k e : back !! k = Some e -> e_slot e <> e_slot top.
Proof using HR.
  intros He Heq. pose proof (rep_nodup _ _ (ready_rep _ _ _ _ HR)) as Hnd.
  unfold Spec.slots in Hnd. rewrite map_app in Hnd. apply NoDup_app in Hnd as (_ & Hd & _).
  apply (Hd (e_slot e)); [|rewrite Heq; set_solver].
  apply list_elem_of_fmap_2. by eapply list_elem_of_lookup_2.
Qed.

Lemma drawBackWindows_loop_run n : forall k p m c fuel,
  (length back - k = n)%nat -> (k <= length back)%nat -> (n < fuel)%nat ->
  path (back ++ [top]) !! k = Some p ->
  exists l c', (forall b m, paint_back (g_umem g) (drop k back) b m = Ok (tt, run_writes b l m)) /\
    drawBackWindows_loop fuel (Some p) (drawn g m c)
    = Ok (tt, drawn g (run_writes screen_temp1 l m) c').
Proof using HR.
  induction n as [|n IH]; intros k p m c fuel Hn Hk Hf Hp;
    (destruct fuel as [|fuel]; [lia|]);
    destruct (path_next _ _ Hp) as (nd & Hnd & Hnext); cbn [drawBackWindows_loop].
  - exists [], c. split; [by rewrite drop_ge by lia|].
    erewrite bind_Ok; [|by apply node_run]. unfold gets, M_bind at 1.
    cbn [g_wq drawn set_cpu set_vram]. rewrite last_top, Hnext, path_S.
    rewrite lookup_app_r by lia. replace (k - length back)%nat with 0%nat by lia. simpl.
    by rewrite decide_True.
  - destruct (lookup_lt_is_Some_2 back k) as [e He]; [lia|].
    assert (He' : (back ++ [top]) !! k = Some e) by by rewrite lookup_app_l by lia.
    assert (Hok : paintable g e).
    { pose proof (ready_windows _ _ _ _ HR) as Hw. rewrite Forall_forall in Hw.
      by eapply Hw, list_elem_of_lookup_2. }
    destruct (paint_window_anywhere _ _ _ false (proj2 Hok)) as (l1 & _ & E1).
    assert (Hp' : path (back ++ [top]) !! S k = Some (Line (e_slot e)))
      by by rewrite path_S, He'.
    destruct (IH (S k) _ (run_writes screen_temp1 l1 m) (Some (e_proc e)) fuel
      ltac:(lia) ltac:(lia) ltac:(lia) Hp') as (l2 & c' & E2 & Hrun).
    exists (l1 ++ l2), c'. split.
    { intros b m'. rewrite (drop_S _ _ _ He). simpl.
      by rewrite (bind_Ok _ _ _ _ _ (E1 b m')), E2, run_writes_app. }
    erewrite bind_Ok; [|by apply node_run]. unfold gets, M_bind at 1.
    cbn [g_wq drawn set_cpu set_vram]. rewrite last_top, Hnext, Hp'.
    rewrite decide_False by (intros ?; simplify_eq; by eapply not_top).
    erewrite bind_Ok; [|apply node_run; by apply (path_cur k)]. cbn [wq_proc wq_window].
    rewrite <- bind_assoc.
    erewrite bind_Ok; [|by apply (paint_entry_run g me (ready_proc _ _ _ _ HR))].
    rewrite Hrun, run_writes_app. done.
Qed.
End Back_windows.

(** The top window remembers where it was drawn. *)
Definition top_drawn (um : gmap (nat * Z) uobj) (top : entry) (w : Window.t) :=
  <[(e_proc top, e_window top) :=
      U_window (Window.set_last (Window.leftTopX w) (Window.leftTopY w) w)]> um.

Section Update.
Variables (g : gstate) (me : nat) (back : list entry) (top : entry).
Hypothesis HR : repaint_ready g me back top.

Lemma top_paintable : paintable g top.
Proof using HR.
  pose proof (ready_windows _ _ _ _ HR) as Hw. apply Forall_app in Hw as [_ Hw].
  by apply Forall_cons in Hw as [? _].
Qed.
Lemma top_node : exists nx pv, node_of (g_wq g) (Line (e_slot top)) =
    Some (mkWQ (Some (e_proc top)) (e_window top) nx pv).
Proof using HR.
  do 2 eexists. apply (path_cur _ _ _ _ HR (length back)).
  by rewrite lookup_app_r, Nat.sub_diag by lia.
Qed.

Lemma drawLastWindow_run m c :
  exists l w, g_umem g !! (e_proc top, e_window top) = Some (U_window w) /\
    (forall b m, paint_window (g_umem g) (e_proc top) (e_window top) true b m
                 = Ok (tt, run_writes b l m)) /\
    drawLastWindow (drawn g m c) =
      Ok (tt, set_umem (top_drawn (g_umem g) top w)
                (drawn g (run_writes screen_temp2 l m) (Some me))).
Proof using HR.
  destruct top_paintable as [Hp Hok].
  destruct (paint_window_anywhere _ _ _ true Hok) as (l & _ & E).
  destruct Hok as (H0 & w & Hw & _). exists l, w. split; [done|]. split; [done|].
  destruct top_node as (nx & pv & Hn). unfold drawLastWindow, gets, M_bind at 1.
  cbn [g_wq drawn set_cpu set_vram]. rewrite (last_top _ _ _ _ HR).
  erewrite bind_Ok; [|by apply node_run]. cbn [wq_proc wq_window].
  rewrite <- bind_assoc.
  erewrite bind_Ok; [|apply (paint_entry_run g me (ready_proc _ _ _ _ HR)); [|exact E];
    apply top_paintable].
  erewrite bind_Ok.
  2:{ unfold load_window. erewrite bind_Ok; [|apply (uload_run _ (e_proc top)); [done|exact Hw]].
      reflexivity. }
  erewrite bind_Ok.
  2:{ unfold ustore. cbn [g_cpu drawn set_cpu cr3 g_umem set_vram]. rewrite Hw. reflexivity. }
  pose proof (switch_back_run (set_umem (top_drawn (g_umem g) top w) g) me
    (ready_proc _ _ _ _ HR) (ready_me _ _ _ _ HR) (run_writes screen_temp2 l m)
    (Some (e_proc top))) as Hsb.
  exact Hsb.
Qed.

Lemma drawBackWindows_run m c :
  exists l, (forall b m, paint_back (g_umem g) back b m = Ok (tt, run_writes b l m)) /\
    drawBackWindows (drawn g m c) = Ok (tt, drawn g (run_writes screen_temp1 l m) (Some me)).
Proof using HR.
  pose proof (rep_length _ _ (ready_rep _ _ _ _ HR)) as Hlen. rewrite length_app in Hlen.
  simpl in Hlen.
  destruct (drawBackWindows_loop_run _ _ _ _ HR _ 0 Head m c queue_fuel eq_refl
    ltac:(lia) ltac:(unfold queue_fuel; lia) eq_refl) as (l & c' & E & Hrun).
  exists l. split; [done|]. unfold drawBackWindows. rewrite (bind_Ok _ _ _ _ _ Hrun).
  apply (switch_back_run g me); [apply (ready_proc _ _ _ _ HR) | apply (ready_me _ _ _ _ HR)].
Qed.
End Update.

Lemma copyBuffer_at dst src m p :
  0 <= p < totalPels -> copyBuffer dst src m (dst + p) = m (src + p).
Proof.
  intros Hp. unfold copyBuffer.
  replace (_ && _) with true by (symmetry; rewrite andb_true_iff, Z.leb_le, Z.ltb_lt; lia).
  f_equal. lia.
Qed.
Lemma copyBuffer_out dst src m a :
  a < dst \/ dst + totalPels <= a -> copyBuffer dst src m a = m a.
Proof.
  intros Ha. unfold copyBuffer.
  replace (_ && _) with false; [done|].
  symmetry. rewrite andb_false_iff, Z.leb_gt, Z.ltb_ge. lia.
Qed.
Lemma clearBuffer_at dst m p : 0 <= p < totalPels -> clearBuffer dst m (dst + p) = mkRGB 0 0 0.
Proof.
  intros Hp. unfold clearBuffer.
  by replace (_ && _) with true by (symmetry; rewrite andb_true_iff, Z.leb_le, Z.ltb_lt; lia).
Qed.
Lemma shown_copy m : shown_except (fun _ => False) (copyBuffer screen screen_temp2 m).
Proof.
  intros p Hp _. rewrite copyBuffer_at by done. symmetry. apply copyBuffer_out.
  pose proof (screen_temp2_far p). unfold screen. lia.
Qed.

(** The last steps of both updates: show [screen_temp2], draw the pointer. *)
Definition present (g : gstate) : gstate :=
  let mi := g_mouse g in
  set_mouse (mkMouse (x_position mi) (y_position mi) (x_position mi) (y_position mi) (m_event mi))
    (set_vram (drawMouse_at (x_position mi) (y_position mi) (m_event mi)
                 (copyBuffer screen screen_temp2 (g_vram g))) g).

Lemma present_run g ls :
  gui_lock ∉ ls -> g_locks g = gui_lock :: ls ->
  (draw (modify (copyBuffer screen screen_temp2)) ;;; drawMouse ;;; release gui_lock) g
  = Ok (tt, set_locks ls (present g)).
Proof.
  intros Hl Hg. unfold draw, zoom, modify, drawMouse. unfold M_bind at 1. simpl.
  unfold M_bind. simpl. unfold modify. by erewrite release_run by done.
Qed.

Lemma present_shown g :
  pointer_on (x_position (g_mouse g)) (y_position (g_mouse g)) -> shown (present g).
Proof. intros HP. unfold shown, present. simpl. by apply shown_draw, shown_copy. Qed.
Lemma present_temp g a :
  pointer_on (x_position (g_mouse g)) (y_position (g_mouse g)) -> totalPels <= a ->
  g_vram (present g) a = g_vram g a.
Proof.
  intros HP Ha. unfold present. simpl.
  rewrite drawMouse_at_frame by (intros ?%under_pointer_range; [lia | done]).
  apply copyBuffer_out. unfold screen. lia.
Qed.

Lemma ready_locks g me back top ls :
  repaint_ready g me back top -> repaint_ready (set_locks ls g) me back top.
Proof. by intros [? ? ? ?]; split. Qed.

Lemma updateBackWindows_run g me back top :
  repaint_ready g me back top -> gui_lock ∉ g_locks g ->
  exists lb lt w, g_umem g !! (e_proc top, e_window top) = Some (U_window w) /\
    (forall b m, paint_back (g_umem g) back b m = Ok (tt, run_writes b lb m)) /\
    (forall b m, paint_window (g_umem g) (e_proc top) (e_window top) true b m
                 = Ok (tt, run_writes b lt m)) /\
    updateBackWindows g = Ok (tt, present (set_umem (top_drawn (g_umem g) top w)
      (drawn g (run_writes screen_temp2 lt (copyBuffer screen_temp2 screen_temp1
        (run_writes screen_temp1 lb (clearBuffer screen_temp1 (g_vram g))))) (Some me)))).
Proof.
  intros HR Hl. unfold updateBackWindows. rewrite (bind_Ok _ _ _ _ _ (acquire_run _ _ Hl)).
  pose proof (ready_locks _ _ _ _ (gui_lock :: g_locks g) HR) as HR1.
  set (g1 := set_locks _ g) in *. rewrite (drawn_id g1).
  erewrite bind_Ok; [|by apply draw_drawn].
  destruct (drawBackWindows_run g1 me back top HR1 (clearBuffer screen_temp1 (g_vram g1))
    (cr3 (g_cpu g1))) as (lb & Elb & Hrun).
  rewrite (bind_Ok _ _ _ _ _ Hrun). erewrite bind_Ok; [|by apply draw_drawn].
  destruct (drawLastWindow_run g1 me back top HR1 (copyBuffer screen_temp2 screen_temp1
    (run_writes screen_temp1 lb (clearBuffer screen_temp1 (g_vram g1)))) (Some me))
    as (lt & w & Hw & Elt & Hrun2).
  rewrite (bind_Ok _ _ _ _ _ Hrun2). exists lb, lt, w.
  split; [done|]. split; [done|]. split; [done|].
  by rewrite (present_run _ (g_locks g)).
Qed.

(** C5 A full repaint always completes and shows the right picture.  When every
    window of the stack belongs to a process with a page table and refers to
    existing, terminated objects, [updateBackWindows] returns; [screen_temp2]
    then holds, pixel for pixel, the picture painted by drawing every window
    bottom to top on one black canvas, and the screen shows it everywhere but
    under the pointer. *)
Theorem updateBackWindows_picture g me back top :
  repaint_ready g me back top -> gui_lock ∉ g_locks g ->
  pointer_on (x_position (g_mouse g)) (y_position (g_mouse g)) ->
  exists g' pic, updateBackWindows g = Ok (tt, g') /\
    picture (g_umem g) back top = Ok (tt, pic) /\
    (forall p, 0 <= p < totalPels -> g_vram g' (screen_temp2 + p) = pic p) /\
    shown g'.
Proof.
  intros HR Hl HP. destruct (updateBackWindows_run g me back top HR Hl)
    as (lb & lt & w & Hw & Eb & Et & Hrun).
  eexists _, _. split; [exact Hrun|]. split.
  { unfold picture. rewrite (bind_Ok _ _ _ _ _ (Eb _ _)). apply Et. }
  split; [|by apply present_shown].
  intros p Hp. rewrite present_temp; [|done | pose proof (screen_temp2_far p); lia].
  simpl. replace p with (0 + p) at 2 by lia. apply run_writes_agree.
  rewrite copyBuffer_at by done. apply run_writes_agree. by apply clearBuffer_at.
Qed.

(** A full repaint changes nothing but the picture: the window queue, the
    locks, the current process, the focused icon and all user memory are as
    before, except that the top window records the position it was drawn at,
    and the address space of the running process is the one loaded again. *)
Theorem updateBackWindows_frame g me back top :
  repaint_ready g me back top -> gui_lock ∉ g_locks g ->
  exists g' w, updateBackWindows g = Ok (tt, g') /\
    g_umem g !! (e_proc top, e_window top) = Some (U_window w) /\
    g_umem g' = <[(e_proc top, e_window top) :=
       U_window (Window.set_last (Window.leftTopX w) (Window.leftTopY w) w)]> (g_umem g) /\
    g_wq g' = g_wq g /\ g_locks g' = g_locks g /\
    g_cpu g' = mkCpu (Some me) (Some me) (pgdirs (g_cpu g)) /\
    g_ms g' = g_ms g /\ g_shift g' = g_shift g /\ focusIcon g' = focusIcon g.
Proof.
  intros HR Hl. destruct (updateBackWindows_run g me back top HR Hl)
    as (lb & lt & w & Hw & Eb & Et & Hrun).
  eexists _, w. split; [exact Hrun|]. split; [done|]. split; [done|].
  do 2 (split; [done|]). split; [|done].
  simpl. by rewrite (ready_proc _ _ _ _ HR).
Qed.

(** ** An empty stack cannot be repainted *)

Lemma loop_empty fuel g :
  queue_rep (g_wq g) [] -> drawBackWindows_loop (S fuel) (Some Head) g = Fault.
Proof.
  intros HR. pose proof (rep_last _ _ HR) as Hlast. unfold path in Hlast. simpl in Hlast.
  destruct (link_node _ _ _ (rep_links _ _ HR 0%nat Head eq_refl)) as (n & Hn & Hnext & _).
  cbn [drawBackWindows_loop]. rewrite (bind_Ok _ _ _ _ _ (node_run _ _ _ Hn)).
  unfold gets, M_bind at 1. by rewrite Hlast, Hnext.
Qed.

(** When no window is left (the only one was deleted), a full repaint never
    returns normally: the loop steps past the end of the queue and follows a
    null pointer. *)
Theorem updateBackWindows_empty_faults g :
  queue_rep (g_wq g) [] -> gui_lock ∉ g_locks g -> updateBackWindows g = Fault.
Proof.
  intros HR Hl. unfold updateBackWindows. rewrite (bind_Ok _ _ _ _ _ (acquire_run _ _ Hl)).
  unfold draw at 1, zoom, modify. unfold M_bind at 1. unfold drawBackWindows, queue_fuel.
  unfold M_bind at 1 2. by rewrite loop_empty.
Qed.
