(* ===== verification/WindowSyscalls.v ===== *)
(** * WindowSyscalls: the window system calls implement a stack of windows

    The calls of src/src/window.c, run on the linked queue, against the
    abstract stack of WindowQueue.v's module [Spec]: each call returns, gives
    the result of the specification, and leaves a queue that represents the
    specification's new stack.  Sequences of calls compose. *)
From S2P Require Import Prelude Font GuiState Draw DrawFacts Gui WindowQueue Repaint.

(** ** The invariant between calls *)
Record wm_inv (g : gstate) (me : nat) (st : list entry) : Prop := mkInv {
  inv_rep : queue_rep (g_wq g) st;
  inv_gui : gui_lock ∉ g_locks g;
  inv_window : window_lock ∉ g_locks g;
  inv_proc : proc (g_cpu g) = Some me;
  inv_me : me ∈ pgdirs (g_cpu g);
  inv_windows : Forall (paintable g) st }.

(** Recording the position of the top window keeps every window paintable. *)
Section Memory.
Variables (um : gmap (nat * Z) uobj) (top : entry) (w : Window.t).
Hypothesis Htop : um !! (e_proc top, e_window top) = Some (U_window w).
Let um' := top_drawn um top w.

Lemma top_drawn_other k o :
  um !! k = Some o -> (forall w', o <> U_window w') -> um' !! k = Some o.
Proof using Htop.
  intros Hk Ho. subst um'. unfold top_drawn. rewrite lookup_insert_ne; [done|].
  intros Heq. rewrite <- Heq in Hk. rewrite Htop in Hk. simplify_eq. by apply (Ho w).
Qed.
Lemma widget_ok_top i wd : widget_ok um i wd -> widget_ok um' i wd.
Proof using Htop.
  destruct wd; simpl.
  - intros [l ?]. exists l. by apply top_drawn_other.
  - intros (b & ? & ?). exists b. by split; [apply top_drawn_other|].
  - intros (b & ? & ? & Himg). exists b. split; [by apply top_drawn_other|]. split; [done|].
    destruct Himg as [|[px ?]]; [by left|]. right. exists px. by apply top_drawn_other.
  - intros (v & px & ? & ?). exists v, px. split; by apply top_drawn_other.
  - intros (v & px & ? & ? & ?). exists v, px.
    split; [by apply top_drawn_other|]. split; [done|]. by apply top_drawn_other.
  - done.
Qed.
Lemma window_ok_top i a : window_ok um i a -> window_ok um' i a.
Proof using Htop.
  intros (H0 & w0 & Hw0 & Hcap & Hlen & Hnum & Hwd). split; [done|].
  assert (Hf : Forall (widget_ok um' i)
    (take (Z.to_nat (Window.widgetsNum w0)) (Window.widgets w0))).
  { eapply Forall_impl; [exact Hwd|]. intros wd. apply widget_ok_top. }
  destruct (decide ((i, a) = (e_proc top, e_window top))) as [Heq|Hne].
  - assert (w0 = w) as -> by congruence. eexists. split.
    + subst um'. unfold top_drawn. rewrite Heq. apply lookup_insert_eq.
    + done.
  - exists w0. split; [|done]. subst um'. unfold top_drawn. by rewrite lookup_insert_ne.
Qed.
End Memory.

(** What a repaint with [top] as the top window does to the rest of the state. *)
Record repainted (g g' : gstate) (me : nat) (top : entry) (w : Window.t) : Prop := mkRepainted {
  rp_window : g_umem g !! (e_proc top, e_window top) = Some (U_window w);
  rp_umem : g_umem g' = top_drawn (g_umem g) top w;
  rp_wq : g_wq g' = g_wq g;
  rp_locks : g_locks g' = g_locks g;
  rp_cpu : g_cpu g' = mkCpu (Some me) (Some me) (pgdirs (g_cpu g));
  rp_ms : g_ms g' = g_ms g;
  rp_x : x_position (g_mouse g') = x_position (g_mouse g);
  rp_y : y_position (g_mouse g') = y_position (g_mouse g);
  rp_focus : focusIcon g' = focusIcon g;
  rp_isBg : isBg g' = isBg g }.

(** A repaint restores the invariant. *)
Lemma repaint_inv g me back top :
  wm_inv g me (back ++ [top]) ->
  exists g' w, updateBackWindows g = Ok (tt, g') /\ wm_inv g' me (back ++ [top]) /\
    repainted g g' me top w /\
    (forall i a, window_ok (g_umem g) i a -> window_ok (g_umem g') i a).
Proof.
  intros [Hrep Hgui Hwin Hproc Hme Hws].
  destruct (updateBackWindows_run g me back top) as (lb & lt & w & Hw & _ & _ & Hrun); [by split | done |].
  eexists _, w. split; [exact Hrun|].
  assert (Hok : forall i a, window_ok (g_umem g) i a ->
                window_ok (top_drawn (g_umem g) top w) i a).
  { intros i a. by apply window_ok_top. }
  split; [|split; [|done]].
  - split; simpl; try done.
    eapply Forall_impl; [exact Hws|]. intros e [? ?]. split; [done|]. by apply Hok.
  - split; try done. simpl. by rewrite Hproc.
Qed.

(** ** Creation *)
Lemma owned_lookup q i p w j :
  is_Some (node_of q (Line i)) ->
  is_Some (node_of (upd_node q (Line i) (with_owner p w)) (Line j)) <-> is_Some (node_of q (Line j)).
Proof. intros. rewrite node_of_upd. case_decide; [by rewrite fmap_is_Some | done]. Qed.

Lemma createWindow_refines g me st w :
  wm_inv g me st -> window_ok (g_umem g) me w ->
  exists g', sys_createWindow (Some w) g = Ok ((Spec.create me w st).1, g') /\
    wm_inv g' me (Spec.create me w st).2 /\ g_locks g' = g_locks g /\
    (forall i a, window_ok (g_umem g) i a -> window_ok (g_umem g') i a) /\
    (g_umem g' = g_umem g \/ exists w', g_umem g !! (me, w) = Some (U_window w') /\ g_umem g' = top_drawn (g_umem g) (mkEntry 0 me w) w').
Proof.
  intros Hinv Hok. pose proof Hinv as [Hrep Hgui Hwin Hproc Hme Hws].
  unfold sys_createWindow, Spec.create.
  rewrite (bind_Ok _ _ _ _ _ (acquire_run _ _ Hwin)).
  set (g1 := set_locks _ g).
  rewrite (bind_Ok _ _ _ _ _ (acquireWindow_run g1 st Hrep)).
  destruct (Spec.fresh_slot st) as [i|] eqn:Hi; cbn [default from_option id]; cycle 1.
  { simpl. rewrite (bind_Ok _ _ _ _ _ (release_run _ g1 (g_locks g) Hwin eq_refl)).
    exists g. split; [by destruct g|]. split; [done|]. split; [done|]. split; [done|by left]. }
  apply fresh_slot_spec in Hi as [Hi Hfresh].
  destruct (Z.ltb_spec i 0); [lia|]. erewrite bind_Ok; [|reflexivity].
  pose proof (rep_node _ _ Hrep i Hi) as Hnode.
  rewrite (bind_Ok _ _ _ _ _ (update_node_run g1 _ _ Hnode)).
  cbn [g_cpu set_locks g1]. rewrite Hproc.
  destruct (last_path_Some st) as [lst Hlst].
  erewrite bind_Ok; cycle 1.
  { apply (addWindow_run _ st i lst).
    - intros k p Hk. cbn [g_wq set_wq g1 set_locks]. autorewrite with wq. by apply (rep_links _ _ Hrep).
    - by apply (rep_length (g_wq g)).
    - done.
    - by apply owned_lookup.
    - by rewrite elem_of_path. }
  erewrite bind_Ok; [|by apply (release_run _ _ (g_locks g) Hwin)].
  cbn [g_wq set_wq set_locks g1]. set (g2 := set_locks _ _).
  destruct (repaint_inv g2 me st (mkEntry i me w)) as (g' & w' & Hrun & Hinv' & Hrp & Hmem).
  { split; try done.
    - by apply rep_create.
    - apply Forall_app. split; [exact Hws|]. by constructor. }
  rewrite (bind_Ok _ _ _ _ _ Hrun). exists g'. split; [done|]. split; [done|]. split; [by rewrite (rp_locks _ _ _ _ _ Hrp)|]. split; [done|].
  right. exists w'. exact (conj (rp_window _ _ _ _ _ Hrp) (rp_umem _ _ _ _ _ Hrp)).
Qed.

(** ** Deletion *)
Lemma list_find_slot st h :
  NoDup (Spec.slots st) ->
  match list_find (fun e => e_slot e = h) st with
  | None => h ∉ Spec.slots st
  | Some (k, e) => h ∈ Spec.slots st /\ st !! k = Some e /\ e_slot e = h /\
                   filter (fun e => e_slot e <> h) st = delete k st
  end.
Proof.
  intros Hnd. destruct (list_find _ st) as [[k e]|] eqn:E.
  - apply list_find_Some in E as (He & Hh & _). subst h.
    split; [apply list_elem_of_fmap_2; by eapply list_elem_of_lookup_2|].
    do 2 (split; [done|]). by apply filter_delete.
  - apply list_find_None in E. intros (e & Heq & He)%list_elem_of_fmap.
    rewrite Forall_forall in E. by apply (E e He).
Qed.

Lemma deleteWindow_refines g me st h :
  wm_inv g me st -> (Spec.remove h st).2 <> [] ->
  exists g', sys_deleteWindow (Some h) g = Ok ((Spec.remove h st).1, g') /\
    wm_inv g' me (Spec.remove h st).2 /\ g_locks g' = g_locks g /\
    (forall i a, window_ok (g_umem g) i a -> window_ok (g_umem g') i a).
Proof.
  intros Hinv. pose proof Hinv as [Hrep Hgui Hwin Hproc Hme Hws].
  unfold sys_deleteWindow, Spec.remove.
  rewrite (bind_Ok _ _ _ _ _ (acquire_run _ _ Hwin)). set (g1 := set_locks _ g).
  pose proof (rep_length _ _ Hrep) as Hlen.
  pose proof (unlinkWindow_run g1 st queue_fuel 0 Head Hrep eq_refl
    ltac:(unfold queue_fuel; lia) h ltac:(lia)) as Hrun. rewrite drop_0 in Hrun.
  pose proof (list_find_slot st h (rep_nodup _ _ Hrep)) as Hfind.
  destruct (list_find _ st) as [[k e]|]; cycle 1.
  { rewrite decide_False by done. intros _. rewrite (bind_Ok _ _ _ _ _ Hrun).
    rewrite (bind_Ok _ _ _ _ _ (release_run _ g1 (g_locks g) Hwin eq_refl)).
    exists g. split; [by destruct g|]. by split. }
  destruct Hfind as (Hin & He & <- & Hdel). rewrite decide_True by done. rewrite Hdel. simpl snd.
  intros Hne. destruct (lookup_lt_is_Some_2 (path st) k) as [p Hp].
  { rewrite path_length. apply lookup_lt_Some in He. lia. }
  change (0 + k)%nat with k in Hrun. rewrite Hp in Hrun. rewrite (bind_Ok _ _ _ _ _ Hrun).
  erewrite bind_Ok; [|by apply (release_run _ _ (g_locks g) Hwin)]. cbv iota.
  set (g2 := set_locks _ _).
  destruct (exists_last Hne) as (back & top & Hst).
  destruct (repaint_inv g2 me back top) as (g' & w & Hrun' & Hinv' & Hrp & Hmem).
  { rewrite <- Hst. split; try done.
    - by apply rep_unlink.
    - by apply Forall_delete. }
  rewrite (bind_Ok _ _ _ _ _ Hrun'). exists g'. rewrite Hst.
  split; [done|]. split; [done|]. split; [|done].
  by rewrite (rp_locks _ _ _ _ _ Hrp).
Qed.

(** ** Raising a window *)
Lemma reorderQueue_refines g me st e top :
  wm_inv g me st -> e ∈ st -> last st = Some top -> e <> top ->
  exists g' q w, reorderQueue (Line (e_slot e)) g = Ok (tt, g') /\
    wm_inv g' me (Spec.raise (e_slot e) st) /\ repainted (set_wq q g) g' me e w /\
    (forall i a, window_ok (g_umem g) i a -> window_ok (g_umem g') i a).
Proof.
  intros [Hrep Hgui Hwin Hproc Hme Hws] [k Hk]%list_elem_of_lookup Htop Hne.
  pose proof (rep_nodup _ _ Hrep) as Hnd.
  destruct (lookup_lt_is_Some_2 (path st) k) as [p Hp].
  { rewrite path_length. apply lookup_lt_Some in Hk. lia. }
  assert (Hslot : Line (e_slot top) <> Line (e_slot e)).
  { intros Heq. simplify_eq. apply Hne. symmetry. apply (slot_inj st); try done.
    - by apply last_elem.
    - by eapply list_elem_of_lookup_2. }
  erewrite reorderQueue_run; [|done|exact Hk|exact Hp|by apply last_path_Line|done|done].
  unfold Spec.raise. destruct (filter_delete st k e Hk Hnd) as [-> ->].
  set (g2 := set_wq _ g).
  destruct (repaint_inv g2 me (delete k st) e) as (g' & w & Hrun' & Hinv' & Hrp & Hmem).
  { split; try done.
    - apply rep_raise; try done. by apply last_path_Line.
    - rewrite Forall_forall in Hws. apply Forall_app. split.
      + apply Forall_delete, Forall_forall. exact Hws.
      + constructor; [|done]. by eapply Hws, list_elem_of_lookup_2. }
  by exists g', (raised (g_wq g) p (Line (e_slot top)) (Line (e_slot e)) (path st !! S (S k))), w.
Qed.

(** ** Sequences of calls *)
Inductive wop :=
| OpCreate (window : Z)
| OpDelete (hWind : Z)
| OpRaise (hWind : Z).

(** The kernel's code for an operation; raising returns nothing. *)
Definition exec (op : wop) : G Z :=
  match op with
  | OpCreate w => sys_createWindow (Some w)
  | OpDelete h => sys_deleteWindow (Some h)
  | OpRaise h => reorderQueue (Line h) ;;; ret 0
  end.
Fixpoint exec_all (ops : list wop) : G (list Z) :=
  match ops with
  | [] => ret []
  | op :: ops' => r <- exec op ;; rs <- exec_all ops' ;; ret (r :: rs)
  end.

(** The abstract stack, step by step. *)
Definition spec_step (me : nat) (op : wop) (st : list entry) : Z * list entry :=
  match op with
  | OpCreate w => Spec.create me w st
  | OpDelete h => Spec.remove h st
  | OpRaise h => (0, Spec.raise h st)
  end.
Fixpoint spec_all (me : nat) (ops : list wop) (st : list entry) : list Z * list entry :=
  match ops with
  | [] => ([], st)
  | op :: ops' =>
      let '(r, st') := spec_step me op st in
      let '(rs, st'') := spec_all me ops' st' in (r :: rs, st'')
  end.

(** What the callers guarantee: created windows exist, the last window is not
    deleted, and only a window below the top is raised. *)
Definition op_ok (um : gmap (nat * Z) uobj) (me : nat) (op : wop) (st : list entry) : Prop :=
  match op with
  | OpCreate w => window_ok um me w
  | OpDelete h => (Spec.remove h st).2 <> []
  | OpRaise h => h ∈ Spec.slots st /\ e_slot <$> last st <> Some h
  end.
Fixpoint ops_ok (um : gmap (nat * Z) uobj) (me : nat) (ops : list wop) (st : list entry) : Prop :=
  match ops with
  | [] => True
  | op :: ops' => op_ok um me op st /\ ops_ok um me ops' (spec_step me op st).2
  end.

Lemma exec_refines g me st op :
  wm_inv g me st -> op_ok (g_umem g) me op st ->
  exists g', exec op g = Ok ((spec_step me op st).1, g') /\
    wm_inv g' me (spec_step me op st).2 /\ g_locks g' = g_locks g /\
    (forall i a, window_ok (g_umem g) i a -> window_ok (g_umem g') i a).
Proof.
  intros Hinv Hok. destruct op as [w|h|h]; simpl in *.
  - destruct (createWindow_refines g me st w Hinv Hok) as (g' & ? & ? & ? & ? & _). by exists g'.
  - by apply deleteWindow_refines.
  - destruct Hok as [(e & -> & He)%list_elem_of_fmap Hlast].
    destruct (last st) as [top|] eqn:Htop; cycle 1.
    { apply last_None in Htop. subst st. by apply elem_of_nil in He. }
    destruct (reorderQueue_refines g me st e top Hinv He Htop)
      as (g' & q & w & Hrun & Hinv' & Hrp & ?).
    { intros ->. done. }
    rewrite (bind_Ok _ _ _ _ _ Hrun). exists g'. split; [done|]. split; [done|]. split; [|done].
    by rewrite (rp_locks _ _ _ _ _ Hrp).
Qed.

Lemma ops_ok_mono um um' me ops : forall st,
  (forall i a, window_ok um i a -> window_ok um' i a) ->
  ops_ok um me ops st -> ops_ok um' me ops st.
Proof.
  induction ops as [|op ops IH]; intros st Hm; [done|]. intros [Hop Hrest].
  split; [|by apply IH]. destruct op; simpl in *; auto.
Qed.

Lemma exec_all_run me ops : forall g st,
  wm_inv g me st -> ops_ok (g_umem g) me ops st ->
  exists g', exec_all ops g = Ok ((spec_all me ops st).1, g') /\
    wm_inv g' me (spec_all me ops st).2 /\ g_locks g' = g_locks g.
Proof.
  induction ops as [|op ops IH]; intros g st Hinv Hok; [by exists g|].
  destruct Hok as [Hop Hrest]. simpl.
  destruct (exec_refines g me st op Hinv Hop) as (g1 & Hrun & Hinv1 & Hlk & Hmem).
  rewrite (bind_Ok _ _ _ _ _ Hrun). destruct (spec_step me op st) as [r st'].
  destruct (IH g1 st' Hinv1) as (g2 & Hrun2 & Hinv2 & Hlk2).
  { by eapply ops_ok_mono. }
  rewrite (bind_Ok _ _ _ _ _ Hrun2). destruct (spec_all me ops st') as [rs st''].
  exists g2. split; [done|]. split; [done|]. simpl in *. congruence.
Qed.

Lemma initWindow_rep g :
  exists g', initWindow g = Ok (tt, g') /\ queue_rep (g_wq g') [].
Proof.
  eexists. split; [reflexivity|]. split; cbn [g_wq set_wq]; try done.
  - constructor.
  - intros k p Hk. destruct k as [|k]; [|by rewrite path_S in Hk].
    unfold path in Hk. simpl in Hk. by simplify_eq.
  - intros i Hi _. exists 0. unfold owner_of, node_of.
    destruct (Z.ltb_spec i 0); [lia|]. cbn [windowLine].
    rewrite lookup_replicate_2 by (unfold MAX_WINDOW_NUM in *; lia). done.
Qed.

(** C1 The window calls implement a stack of windows.  From a queue that
    represents a stack, every sequence of creations, deletions and raises that
    respects the callers' obligations runs to completion, returns call by call
    what the abstract stack returns (the lowest free handle or -1 for a
    creation, 0 or -1 for a deletion), and ends in a well-formed doubly linked
    queue that represents the abstract stack's final value, with all windows
    still paintable and no lock left held. *)
Theorem window_calls_refine_stack g me ops st :
  wm_inv g me st -> ops_ok (g_umem g) me ops st ->
  exists g', exec_all ops g = Ok ((spec_all me ops st).1, g') /\
    wm_inv g' me (spec_all me ops st).2 /\ g_locks g' = g_locks g.
Proof. apply exec_all_run. Qed.

(** ** Handles *)
Lemma fresh_slot_None st : Spec.fresh_slot st = None <->
  forall i, 0 <= i < MAX_WINDOW_NUM -> i ∈ Spec.slots st.
Proof.
  unfold Spec.fresh_slot. split.
  - intros H i Hi. destruct (decide (i ∈ Spec.slots st)) as [|Hn]; [done|].
    assert (Hin : i ∈ filter (fun i => i ∉ Spec.slots st) (seqZ 0 MAX_WINDOW_NUM)).
    { apply list_elem_of_filter. split; [done|]. apply elem_of_seqZ. lia. }
    destruct (filter _ _); [by apply elem_of_nil in Hin | done].
  - intros H. rewrite filter_none; [done|]. apply Forall_forall.
    intros i Hi%elem_of_seqZ Hn. apply Hn, H. lia.
Qed.

(** A handle is unique and in range, and creation fails only when the pool is
    full: [sys_createWindow] returns a slot between 0 and 31 that no open window
    has, now shown on top of all others; or -1 when 32 windows are open, leaving
    the state as it was. *)
Theorem createWindow_handle g me st w :
  wm_inv g me st -> window_ok (g_umem g) me w ->
  exists h g', sys_createWindow (Some w) g = Ok (h, g') /\
    ((h = -1 /\ length st = 32%nat /\ wm_inv g' me st) \/
     (0 <= h < MAX_WINDOW_NUM /\ (h ∉ Spec.slots st) /\
      wm_inv g' me (st ++ [mkEntry h me w]))).
Proof.
  intros Hinv Hok. destruct (createWindow_refines g me st w Hinv Hok) as (g' & Hrun & Hinv' & _).
  eexists _, g'. split; [exact Hrun|]. unfold Spec.create in *.
  destruct (Spec.fresh_slot st) as [i|] eqn:Hi.
  - right. simpl in *. by destruct (fresh_slot_spec st i Hi).
  - left. split; [done|]. split; [|done].
    pose proof (rep_length _ _ (inv_rep _ _ _ Hinv)) as Hle.
    assert (Hsub : seqZ 0 MAX_WINDOW_NUM ⊆+ Spec.slots st).
    { apply NoDup_submseteq; [apply NoDup_seqZ|]. intros i' Hi'%elem_of_seqZ.
      apply fresh_slot_None; [done | lia]. }
    apply submseteq_length in Hsub. unfold Spec.slots in Hsub.
    rewrite length_map, length_seqZ in Hsub. unfold MAX_WINDOW_NUM in Hsub. simpl in Hsub. lia.
Qed.

(** ** Moving a window *)
Lemma clamp_move_spec pos len d limit :
  0 <= len <= limit ->
  pos + clamp_move pos len d limit = Z.max 0 (Z.min (limit - len) (pos + d)).
Proof.
  intros H. unfold clamp_move. rewrite Z.geb_leb.
  destruct (Z.ltb_spec (pos + d) 0).
  - destruct (Z.leb_spec limit (pos + len + - pos)); lia.
  - destruct (Z.leb_spec limit (pos + len + d)); lia.
Qed.

(** Dragging cannot push a window off the screen: [moveWindow] on a window no
    larger than the screen moves it by the pointer's displacement, clamped so
    that the window lies within the screen, and changes nothing else. *)
Theorem moveWindow_on_screen g i a w fx fy tx ty :
  cr3 (g_cpu g) = Some i -> g_umem g !! (i, a) = Some (U_window w) ->
  0 <= Window.width w <= SCREEN_WIDTH -> 0 <= Window.height w <= SCREEN_HEIGHT ->
  let x' := Z.max 0 (Z.min (SCREEN_WIDTH - Window.width w) (Window.leftTopX w + (tx - fx))) in
  let y' := Z.max 0 (Z.min (SCREEN_HEIGHT - Window.height w) (Window.leftTopY w + (ty - fy))) in
  moveWindow a fx fy tx ty 0 g =
    Ok (tt, set_umem (<[(i, a) := U_window (Window.set_pos x' y' w)]> (g_umem g)) g).
Proof.
  intros Hcr Hw Hwd Hht x' y'. unfold moveWindow.
  rewrite (bind_Ok _ _ _ w g)
    by (unfold load_window; by rewrite (bind_Ok _ _ _ _ _ (uload_run _ _ Hcr _ _ Hw))).
  cbv zeta. rewrite !clamp_move_spec by done. fold x' y'.
  erewrite bind_Ok; [reflexivity|]. unfold ustore. by rewrite Hcr, Hw.
Qed.
