(* ===== verification/Incremental.v ===== *)
(** * Incremental: redrawing the top window only

    [updateLastWindow] (gui.c) repaints the top window without repainting the
    windows below it: it erases the window from [screen_temp2] with the pixels
    of [screen_temp1] at the place where the window was last drawn, then draws
    it again.  As long as a window paints inside its own outline this gives
    the same picture as a full repaint, also after the window has moved. *)
From S2P Require Import Prelude Font GuiState Draw DrawFacts Gui WindowQueue Repaint.

(** The pixels of a window placed at [(x, y)], with its one-pixel outline. *)
Definition in_outline (x y w h p : Z) : Prop :=
  exists i j, -1 <= i <= w /\ -1 <= j <= h /\ p = (y + j) * SCREEN_WIDTH + x + i.

(** A window this size leaves room for its outline on the screen.  Nothing is
    said of its place: the outline of a window at an edge crosses that edge. *)
Definition outline_small (w h : Z) : Prop :=
  0 <= w <= SCREEN_WIDTH - 2 /\ 0 <= h <= SCREEN_HEIGHT - 2.

(** An outline of this place and size lies on the screen. *)
Definition outline_fits (x y w h : Z) : Prop :=
  1 <= x /\ x + w <= SCREEN_WIDTH - 1 /\ 1 <= y /\ y + h <= SCREEN_HEIGHT - 1 /\ 0 <= w /\ 0 <= h.

Lemma fits_small x y w h : outline_fits x y w h -> outline_small w h.
Proof. unfold outline_fits, outline_small. lia. Qed.

Lemma in_outline_range x y w h p :
  outline_fits x y w h -> in_outline x y w h p -> 0 <= p < totalPels.
Proof.
  unfold outline_fits, in_outline, totalPels, SCREEN_WIDTH, SCREEN_HEIGHT.
  intros ? (i & j & ?). lia.
Qed.

(** Two pixels of such an outline are less than one screen apart. *)
Lemma in_outline_span x y w h p q :
  outline_small w h -> in_outline x y w h p -> in_outline x y w h q -> q - p < totalPels.
Proof.
  unfold outline_small, in_outline, totalPels, SCREEN_WIDTH, SCREEN_HEIGHT.
  intros ? (i & j & ?) (i' & j' & ?). lia.
Qed.

Lemma in_outline_iff x y w h p :
  outline_small w h ->
  in_outline x y w h p <->
    let d := p - ((y - 1) * SCREEN_WIDTH + x - 1) in
    0 <= d `div` SCREEN_WIDTH < h + 2 /\ d mod SCREEN_WIDTH < w + 2.
Proof.
  unfold outline_small, in_outline, SCREEN_WIDTH, SCREEN_HEIGHT. intros Hf. cbv zeta. split.
  - intros (i & j & Hi & Hj & ->). Z.to_euclidean_division_equations. lia.
  - intros H. set (d := p - ((y - 1) * 1280 + x - 1)) in *.
    exists (d mod 1280 - 1), (d `div` 1280 - 1). subst d.
    Z.to_euclidean_division_equations. lia.
Qed.
Lemma in_outline_dec x y w h p :
  outline_small w h -> in_outline x y w h p \/ ~ in_outline x y w h p.
Proof. intros H. rewrite in_outline_iff by done. cbv zeta. lia. Qed.

(** ** Erasing *)

(** The loop of [removeLastWindow] may write into [screen_temp1], at an edge,
    but never over a pixel it has still to read. *)
Lemma restoreRect_fixed lx ly w h m :
  outline_small w h ->
  restoreRect lx ly w h m =
    zfor (-1) (h + 1) (fun j m' => zfor (-1) (w + 1) (fun i m' =>
      upd m' (screen_temp2 + ly * SCREEN_WIDTH + lx - 1 + j * SCREEN_WIDTH + (i - -1))
        (m (screen_temp1 + (ly + j) * SCREEN_WIDTH + lx - 1 + (i + 1)))) m') m.
Proof.
  intros Hf. unfold restoreRect.
  set (P := fun m' : vram => forall q, in_outline lx ly w h q ->
    m' (screen_temp1 + q) = m (screen_temp1 + q)).
  apply (zfor_ext_inv P); [done|]. intros j b Hj Hb.
  apply (zfor_ext_inv P); [done|]. intros i b' Hi Hb'.
  set (p := (ly + j) * SCREEN_WIDTH + lx + i).
  assert (Hp : in_outline lx ly w h p) by (exists i, j; subst p; lia).
  replace (screen_temp1 + (ly + j) * SCREEN_WIDTH + lx - 1 + (i + 1)) with (screen_temp1 + p)
    by (subst p; ring).
  replace (screen_temp2 + (ly + j) * SCREEN_WIDTH + lx - 1 + (i + 1)) with (screen_temp2 + p)
    by (subst p; ring).
  rewrite Hb' by done. split.
  - f_equal. subst p. ring.
  - intros q Hq. rewrite upd_ne; [by apply Hb'|].
    assert (screen_temp2 = screen_temp1 + totalPels) by done.
    pose proof (in_outline_span _ _ _ _ _ _ Hf Hp Hq). lia.
Qed.

Lemma restoreRect_spec lx ly w h m a :
  outline_small w h ->
  (in_outline lx ly w h (a - screen_temp2) ->
   restoreRect lx ly w h m a = m (screen_temp1 + (a - screen_temp2))) /\
  (~ in_outline lx ly w h (a - screen_temp2) -> restoreRect lx ly w h m a = m a).
Proof.
  intros Hf. rewrite restoreRect_fixed by done.
  pose proof (rect_spec (-1) (h + 1) (-1) (w + 1) (screen_temp2 + ly * SCREEN_WIDTH + lx - 1)
    (fun j i => Some (m (screen_temp1 + (ly + j) * SCREEN_WIDTH + lx - 1 + (i + 1)))) m a
    ltac:(unfold outline_small, SCREEN_WIDTH in *; lia)) as E.
  cbv beta iota zeta in E. rewrite E. clear E. rewrite in_outline_iff by done. cbv zeta.
  replace (a - screen_temp2 - ((ly - 1) * SCREEN_WIDTH + lx - 1))
    with (a - (screen_temp2 + ly * SCREEN_WIDTH + lx - 1) + 1 * SCREEN_WIDTH) by ring.
  rewrite Z.div_add, Z.mod_add by done.
  set (q := _ `div` _). set (r := _ `mod` _).
  assert (Ha : a = screen_temp2 + (ly + q) * SCREEN_WIDTH + lx - 1 + r).
  { pose proof (Z.div_mod (a - (screen_temp2 + ly * SCREEN_WIDTH + lx - 1)) SCREEN_WIDTH
      ltac:(done)). subst q r. lia. }
  clearbody q r.
  split; intros Hin; destruct (_ && _) eqn:E; zbool; simpl; try lia; try done.
  - rewrite Ha. f_equal. lia.
Qed.

(** ** The two layers *)

(** The top window paints inside its outline only. *)
Definition confined (um : gmap (nat * Z) uobj) (top : entry) (w : Window.t) : Prop :=
  forall b m m', paint_window um (e_proc top) (e_window top) true b m = Ok (tt, m') ->
  forall a, ~ in_outline (Window.leftTopX w) (Window.leftTopY w) (Window.width w)
              (Window.height w) (a - b) -> m' a = m a.

(** [screen_temp1] holds the windows below the top one, and [screen_temp2]
    differs from it only where the top window was last drawn. *)
Record layered (g : gstate) (back : list entry) (w : Window.t) : Prop := mkLayered {
  layer_back : exists pic, paint_back (g_umem g) back 0 (fun _ => mkRGB 0 0 0) = Ok (tt, pic) /\
    forall p, 0 <= p < totalPels -> g_vram g (screen_temp1 + p) = pic p;
  layer_top : forall p, 0 <= p < totalPels ->
    ~ in_outline (Window.last_leftTopX w) (Window.last_leftTopY w) (Window.width w)
        (Window.height w) p ->
    g_vram g (screen_temp2 + p) = g_vram g (screen_temp1 + p) }.

Lemma removeLastWindow_run g me back top w :
  repaint_ready g me back top -> g_umem g !! (e_proc top, e_window top) = Some (U_window w) ->
  removeLastWindow g = Ok (tt, drawn g
    (restoreRect (Window.last_leftTopX w) (Window.last_leftTopY w) (Window.width w)
       (Window.height w) (g_vram g)) (Some me)).
Proof.
  intros HR Hw. destruct (top_node _ _ _ _ HR) as (nx & pv & Hn).
  unfold removeLastWindow. rewrite (drawn_id g) at 1. unfold gets, M_bind at 1.
  cbn [g_wq drawn set_cpu set_vram]. rewrite (last_top _ _ _ _ HR).
  erewrite bind_Ok; [|by apply node_run]. cbn [wq_proc wq_window].
  erewrite bind_Ok; [|apply (switchuvm_run g me (ready_proc _ _ _ _ HR));
    apply (top_paintable _ _ _ _ HR)].
  erewrite bind_Ok.
  2:{ unfold load_window. erewrite bind_Ok; [|apply (uload_run _ (e_proc top)); [done|exact Hw]].
      reflexivity. }
  erewrite bind_Ok; [|by apply draw_drawn].
  apply switch_back_run; [apply (ready_proc _ _ _ _ HR) | apply (ready_me _ _ _ _ HR)].
Qed.

Lemma ready_drawn g me back top m :
  repaint_ready g me back top -> repaint_ready (drawn g m (Some me)) me back top.
Proof. by intros [? ? ? ?]; split. Qed.

Lemma updateLastWindow_run g me back top w :
  repaint_ready g me back top -> gui_lock ∉ g_locks g ->
  g_umem g !! (e_proc top, e_window top) = Some (U_window w) ->
  exists l, (forall b m, paint_window (g_umem g) (e_proc top) (e_window top) true b m
                         = Ok (tt, run_writes b l m)) /\
    updateLastWindow g = Ok (tt, present (set_umem (top_drawn (g_umem g) top w)
      (drawn g (run_writes screen_temp2 l
        (restoreRect (Window.last_leftTopX w) (Window.last_leftTopY w) (Window.width w)
           (Window.height w) (g_vram g))) (Some me)))).
Proof.
  intros HR Hl Hw. unfold updateLastWindow. rewrite (bind_Ok _ _ _ _ _ (acquire_run _ _ Hl)).
  pose proof (ready_locks _ _ _ _ (gui_lock :: g_locks g) HR) as HR1.
  set (g1 := set_locks _ g) in *.
  rewrite (bind_Ok _ _ _ _ _ (removeLastWindow_run g1 me back top w HR1 Hw)).
  destruct (drawLastWindow_run g1 me back top HR1 (restoreRect (Window.last_leftTopX w)
    (Window.last_leftTopY w) (Window.width w) (Window.height w) (g_vram g1)) (Some me))
    as (l & w' & Hw' & E & Hrun).
  assert (w' = w) as -> by (cbn [g_umem set_locks g1] in Hw'; congruence).
  rewrite (bind_Ok _ _ _ _ _ Hrun). exists l. split; [done|].
  by rewrite (present_run _ (g_locks g)).
Qed.

(** C9 Redrawing only the top window is as good as a full repaint, also after it
    has moved, wherever it was and is: on the screen's edges too.  If
    [screen_temp1] holds the lower windows and [screen_temp2] differs from it
    only inside the outline where the top window was last drawn, and the window
    is at most 1278 wide and 1022 high (every window but the desktop, which
    fills the screen), [updateLastWindow] returns, and [screen_temp2] then
    holds exactly the picture of the whole stack that a full repaint produces,
    shown on the screen everywhere but under the pointer. *)
Theorem updateLastWindow_picture g me back top w :
  repaint_ready g me back top -> gui_lock ∉ g_locks g ->
  pointer_on (x_position (g_mouse g)) (y_position (g_mouse g)) ->
  g_umem g !! (e_proc top, e_window top) = Some (U_window w) ->
  layered g back w ->
  outline_small (Window.width w) (Window.height w) ->
  exists g' pic, updateLastWindow g = Ok (tt, g') /\
    picture (g_umem g) back top = Ok (tt, pic) /\
    (forall p, 0 <= p < totalPels -> g_vram g' (screen_temp2 + p) = pic p) /\ shown g'.
Proof.
  intros HR Hl HP Hw [(bpic & Ebp & Hb) Ht] Hf.
  destruct (updateLastWindow_run g me back top w HR Hl Hw) as (l & E & Hrun).
  eexists _, _. split; [exact Hrun|]. split.
  { unfold picture. rewrite (bind_Ok _ _ _ _ _ Ebp). apply E. }
  split; [|by apply present_shown].
  intros p Hp. rewrite present_temp; [|done | pose proof (screen_temp2_far p); lia].
  simpl. replace p with (0 + p) at 2 by lia. apply run_writes_agree.
  rewrite Z.add_0_l, <- Hb by done.
  destruct (restoreRect_spec (Window.last_leftTopX w) (Window.last_leftTopY w) (Window.width w)
    (Window.height w) (g_vram g) (screen_temp2 + p) Hf) as [Hin Hout].
  replace (screen_temp2 + p - screen_temp2) with p in Hin, Hout by lia.
  destruct (in_outline_dec (Window.last_leftTopX w) (Window.last_leftTopY w) (Window.width w)
    (Window.height w) p Hf) as [Hi|Hi].
  - by apply Hin.
  - rewrite Hout by done. by apply Ht.
Qed.

(** At the upper edge, where [moveWindow] puts a window dragged above the
    screen, the row above the window is row -1 of [screen_temp2], which is the
    last row of [screen_temp1]: erasing the window overwrites that part of the
    picture of the lower windows with what the screen itself shows there.  The
    redraw at hand does not read it, but later ones do. *)
Theorem removal_at_upper_edge g me back top w i :
  repaint_ready g me back top ->
  g_umem g !! (e_proc top, e_window top) = Some (U_window w) ->
  outline_small (Window.width w) (Window.height w) ->
  Window.last_leftTopY w = 0 -> -1 <= i <= Window.width w ->
  let p := (SCREEN_HEIGHT - 1) * SCREEN_WIDTH + Window.last_leftTopX w + i in
  exists g', removeLastWindow g = Ok (tt, g') /\
    g_vram g' (screen_temp1 + p) = g_vram g p.
Proof.
  intros HR Hw Hf H0 Hi p. eexists. split; [by eapply removeLastWindow_run|].
  cbn [g_vram drawn set_cpu set_vram].
  destruct (restoreRect_spec (Window.last_leftTopX w) (Window.last_leftTopY w) (Window.width w)
    (Window.height w) (g_vram g) (screen_temp1 + p) Hf) as [Hin _].
  assert (H1 : screen_temp1 + p - screen_temp2 = p - totalPels).
  { assert (screen_temp2 = screen_temp1 + totalPels) by done. lia. }
  rewrite H1 in Hin. rewrite Hin.
  - f_equal. assert (screen_temp1 = totalPels) by done. lia.
  - exists i, (-1). subst p. rewrite H0. unfold outline_small, totalPels in *. lia.
Qed.

(** ** The layers are kept *)

(** Recording the drawn position changes no window's picture. *)
Lemma drawText_last buf tb x y win text : forall i j pos_x m,
  drawText buf tb (Window.set_last x y win) text i j pos_x m
  = drawText buf tb win text i j pos_x m.
Proof.
  induction text as [|c text IH]; intros i j pos_x m; [done|]. cbn [drawText].
  destruct (c =? 0); [done|].
  destruct (if pos_x >? TextBox.width tb - 9 then _ else _) as [px j'].
  destruct (c =? 10).
  - unfold M_bind. destruct (i =? TextBox.cursor tb - 1); simpl;
      (destruct text as [|d text']; [done|]); destruct (d =? 0); try done; apply IH.
  - cbn [Window.leftTopX Window.leftTopY Window.set_last].
    destruct (drawCharacter _ _ _ _ _ _ _ _) as [cw m']. unfold M_bind.
    destruct (i =? TextBox.cursor tb - 1); simpl; apply IH.
Qed.
Lemma drawTextBox_last buf tb x y win m :
  drawTextBox buf tb (Window.set_last x y win) m = drawTextBox buf tb win m.
Proof.
  unfold drawTextBox. cbv zeta. unfold M_bind, modify.
  cbn [Window.leftTopX Window.leftTopY Window.set_last]. by rewrite drawText_last.
Qed.

Section Top_drawn.
Variables (um : gmap (nat * Z) uobj) (top : entry) (w : Window.t).
Hypothesis Htop : um !! (e_proc top, e_window top) = Some (U_window w).

Lemma top_drawn_lookup k :
  top_drawn um top w !! k = um !! k \/
  (um !! k = Some (U_window w) /\ top_drawn um top w !! k =
     Some (U_window (Window.set_last (Window.leftTopX w) (Window.leftTopY w) w))).
Proof using Htop.
  unfold top_drawn. destruct (decide ((e_proc top, e_window top) = k)) as [<-|].
  - right. by rewrite lookup_insert_eq.
  - left. by rewrite lookup_insert_ne.
Qed.

Lemma paint_widget_top i x y wd buf win m :
  paint_widget (top_drawn um top w) i (Window.set_last x y win) wd buf m
  = paint_widget um i win wd buf m.
Proof using Htop.
  assert (Hl : forall k, top_drawn um top w !! k = um !! k \/
    exists w1 w2, um !! k = Some (U_window w1) /\
      top_drawn um top w !! k = Some (U_window w2)).
  { intros k. destruct (top_drawn_lookup k) as [->|[-> ->]]; eauto. }
  destruct wd as [p|p|p|p|p|? p]; simpl; try done;
    (destruct (Hl (i, p)) as [->|(? & ? & -> & ->)]; [|done]); try done;
    destruct (um !! (i, p)) as [[]|]; try done.
  - apply drawTextBox_last.
  - case_if; [done|]. by destruct (Hl (i, Button.image b)) as [->|(? & ? & -> & ->)].
  - by destruct (Hl (i, ImageView.image v)) as [->|(? & ? & -> & ->)].
  - by destruct (Hl (i, IconView.image v)) as [->|(? & ? & -> & ->)].
Qed.

Lemma paint_window_top i a focus buf m :
  paint_window (top_drawn um top w) i a focus buf m = paint_window um i a focus buf m.
Proof using Htop.
  assert (Hws : forall win x y l buf m,
    paint_widgets (top_drawn um top w) i (Window.set_last x y win) l buf m
    = paint_widgets um i win l buf m).
  { intros win x y l b. induction l as [|wd l IH]; [done|]. intros m'. simpl. unfold M_bind.
    rewrite paint_widget_top. by destruct (paint_widget _ _ _ _ _ _) as [[]| | |]. }
  assert (Hid : forall win, win = Window.set_last (Window.last_leftTopX win)
    (Window.last_leftTopY win) win) by by intros [].
  unfold paint_window. destruct (top_drawn_lookup (i, a)) as [->|[-> ->]].
  - destruct (um !! (i, a)) as [[]|]; try done. case_if; [|done].
    unfold M_bind. destruct (drawWindow _ _ _ _) as [[]| | |]; try done.
    rewrite (Hid w0) at 1. by rewrite Hws.
  - cbn [Window.show Window.set_last]. case_if; [|done]. unfold M_bind.
    change (drawWindow buf (Window.set_last (Window.leftTopX w) (Window.leftTopY w) w) focus m)
      with (drawWindow buf w focus m).
    destruct (drawWindow _ _ _ _) as [[]| | |]; try done.
Qed.

Lemma paint_back_top st buf m :
  paint_back (top_drawn um top w) st buf m = paint_back um st buf m.
Proof using Htop.
  revert m. induction st as [|e st IH]; [done|]. intros m. simpl. unfold M_bind.
  rewrite paint_window_top. by destruct (paint_window _ _ _ _ _ _) as [[]| | |].
Qed.
End Top_drawn.

Definition drawn_window (w : Window.t) : Window.t :=
  Window.set_last (Window.leftTopX w) (Window.leftTopY w) w.
Definition window_fits (w : Window.t) : Prop :=
  outline_fits (Window.leftTopX w) (Window.leftTopY w) (Window.width w) (Window.height w).

(** Drawing a confined top window over a copy of the back layer. *)
Lemma layered_after g me back top w l (m : vram) :
  g_umem g !! (e_proc top, e_window top) = Some (U_window w) ->
  (exists pic, paint_back (g_umem g) back 0 (fun _ => mkRGB 0 0 0) = Ok (tt, pic) /\
     forall p, 0 <= p < totalPels -> m (screen_temp1 + p) = pic p) ->
  (forall p, 0 <= p < totalPels -> m (screen_temp2 + p) = m (screen_temp1 + p)) ->
  (forall b m, paint_window (g_umem g) (e_proc top) (e_window top) true b m
               = Ok (tt, run_writes b l m)) ->
  confined (g_umem g) top w -> window_fits w ->
  pointer_on (x_position (g_mouse g)) (y_position (g_mouse g)) ->
  layered (present (set_umem (top_drawn (g_umem g) top w)
    (drawn g (run_writes screen_temp2 l m) (Some me)))) back (drawn_window w).
Proof.
  intros Hw (pic & Ep & Hp) Hcopy E Hc Hf HP.
  assert (Hframe : forall a, ~ in_outline (Window.leftTopX w) (Window.leftTopY w)
    (Window.width w) (Window.height w) (a - screen_temp2) -> run_writes screen_temp2 l m a = m a).
  { intros a Ha. by apply (Hc screen_temp2 m _ (E _ _)). }
  assert (Hback : forall p, 0 <= p < totalPels ->
    run_writes screen_temp2 l m (screen_temp1 + p) = m (screen_temp1 + p)).
  { intros p Hr. apply Hframe. intros Hin%in_outline_range; [|done].
    assert (screen_temp2 = screen_temp1 + totalPels) by done. lia. }
  assert (Hbig : forall p, 0 <= p -> totalPels <= screen_temp1 + p).
  { intros. assert (screen_temp1 = totalPels) as -> by done. lia. }
  split; [|intros p Hr Ho].
  - exists pic. split.
    + cbn [g_umem present set_mouse set_vram set_umem]. rewrite paint_back_top by done. done.
    + intros p Hr. rewrite present_temp by (done || by apply Hbig; lia). simpl.
      rewrite Hback by done. by apply Hp.
  - rewrite !present_temp by (done || (by apply Hbig; lia) || (pose proof (screen_temp2_far p); lia)).
    simpl. rewrite Hback, Hframe by (done || by replace (screen_temp2 + p - screen_temp2) with p by lia).
    by apply Hcopy.
Qed.

(** Both kinds of update keep the two layers in step: after a full repaint,
    and after a redraw of the top window alone, [screen_temp1] holds the lower
    windows and [screen_temp2] differs from it only within the outline of the
    top window at its recorded position, provided that window lies with its
    outline inside the screen, where it was and where it is, and paints inside
    its outline.  So redraws away from the edges can follow one another. *)
Theorem updates_keep_layers g me back top w :
  repaint_ready g me back top -> gui_lock ∉ g_locks g ->
  pointer_on (x_position (g_mouse g)) (y_position (g_mouse g)) ->
  g_umem g !! (e_proc top, e_window top) = Some (U_window w) ->
  confined (g_umem g) top w -> window_fits w ->
  (exists g', updateBackWindows g = Ok (tt, g') /\ layered g' back (drawn_window w)) /\
  (layered g back w ->
   outline_fits (Window.last_leftTopX w) (Window.last_leftTopY w) (Window.width w)
     (Window.height w) ->
   exists g', updateLastWindow g = Ok (tt, g') /\ layered g' back (drawn_window w)).
Proof.
  intros HR Hl HP Hw Hc Hf. split.
  - destruct (updateBackWindows_run g me back top HR Hl)
      as (lb & lt & w' & Hw' & Eb & Et & Hrun). assert (w' = w) as -> by congruence.
    eexists. split; [exact Hrun|]. apply layered_after; try done.
    + eexists. split; [apply Eb|]. intros p Hp.
      rewrite copyBuffer_out by (assert (screen_temp2 = screen_temp1 + totalPels) by done; lia).
      replace p with (0 + p) at 2 by lia. apply run_writes_agree. by apply clearBuffer_at.
    + intros p Hp. rewrite copyBuffer_at by done. symmetry. apply copyBuffer_out.
      assert (screen_temp2 = screen_temp1 + totalPels) by done. lia.
  - intros [(bpic & Ebp & Hb) Ht] Hlf. pose proof (fits_small _ _ _ _ Hlf) as Hsm.
    destruct (updateLastWindow_run g me back top w HR Hl Hw) as (l & E & Hrun).
    eexists. split; [exact Hrun|].
    assert (Hr := fun p => restoreRect_spec (Window.last_leftTopX w) (Window.last_leftTopY w)
      _ _ (g_vram g) p Hsm).
    assert (H12 : screen_temp2 = screen_temp1 + totalPels) by done.
    assert (Hback : forall p, 0 <= p < totalPels -> restoreRect (Window.last_leftTopX w)
      (Window.last_leftTopY w) (Window.width w) (Window.height w) (g_vram g) (screen_temp1 + p)
      = g_vram g (screen_temp1 + p)).
    { intros p Hp. apply (proj2 (Hr _)). intros Hin%in_outline_range; [|done]. lia. }
    apply layered_after; try done.
    + exists bpic. split; [done|]. intros p Hp. rewrite Hback by done. by apply Hb.
    + intros p Hp. rewrite Hback by done. destruct (Hr (screen_temp2 + p)) as [Hin Hout].
      replace (screen_temp2 + p - screen_temp2) with p in Hin, Hout by lia.
      destruct (in_outline_dec (Window.last_leftTopX w) (Window.last_leftTopY w)
        (Window.width w) (Window.height w) p Hsm) as [H|H].
      * by apply Hin.
      * rewrite Hout by done. by apply Ht.
Qed.

(** ** Undecorated windows are confined *)
Section Plain.
Variables (w : Window.t).
Hypotheses (Hw : BORDER_WIDTH <= Window.width w) (Hh : BORDER_WIDTH + 1 <= Window.height w)
  (Hcap : Window.hasCaption w <> 1) (Hfoot : Window.hasFooter w = 0).
Let out := in_outline (Window.leftTopX w) (Window.leftTopY w) (Window.width w) (Window.height w).

Lemma outline_rect d j0 j1 i0 i1 (start : Z -> Z -> Z) color :
  (forall buf j, start buf j = row_start buf w j + d) ->
  -1 <= j0 -> j1 <= Window.height w + 1 -> -1 <= d -> d + (i1 - i0) <= Window.width w + 1 ->
  mscript out (fun buf => modify (paint j0 j1 i0 i1 (start buf) color)).
Proof using.
  intros Hs ????. apply mscript_modify.
  apply (script_paint _ _ _ _ _ _
    (fun j => (Window.leftTopY w + j) * SCREEN_WIDTH + Window.leftTopX w + d)).
  - intros. rewrite Hs, row_start_offset. lia.
  - intros j i Hj Hi. exists (d + (i - i0)), j. lia.
Qed.
Lemma outline_columns lo hi d1 d2 (t1 t2 : Z -> Z -> Z) c1 c2 :
  (forall buf j, t1 buf j = row_start buf w j + d1) ->
  (forall buf j, t2 buf j = row_start buf w j + d2) ->
  -1 <= lo -> hi <= Window.height w + 1 ->
  -1 <= d1 <= Window.width w -> -1 <= d2 <= Window.width w ->
  mscript out (fun buf => modify (zfor lo hi (fun j m =>
    upd (upd m (t1 buf j) c1) (t2 buf j) c2))).
Proof using.
  intros H1 H2 ????. apply mscript_modify, script_zfor. intros j Hj.
  apply (script_comp _ (fun buf m => upd m (t1 buf j) c1) (fun buf m => upd m (t2 buf j) c2)).
  - apply (script_upd _ _ ((Window.leftTopY w + j) * SCREEN_WIDTH + Window.leftTopX w + d1)).
    + intros. rewrite H1, row_start_offset. lia.
    + exists d1, j. lia.
  - apply (script_upd _ _ ((Window.leftTopY w + j) * SCREEN_WIDTH + Window.leftTopX w + d2)).
    + intros. rewrite H2, row_start_offset. lia.
    + exists d2, j. lia.
Qed.

Lemma plain_script focus : mscript out (fun buf => drawWindow buf w focus).
Proof using Hw Hh Hcap Hfoot.
  unfold BORDER_WIDTH in *. unfold drawWindow. apply mscript_seq.
  { unfold drawBody. destruct (Z.eqb_spec (Window.hasCaption w) 1); [done|].
    apply (outline_rect 0); [intros; lia | lia..]. }
  apply mscript_seq.
  { unfold drawBorder, BORDER_WIDTH, CAPTION_HEIGHT.
    apply mscript_seq; [apply (outline_rect 0); [intros; lia | lia..]|].
    apply mscript_seq; [|apply (outline_rect 0); [intros; lia | lia..]].
    apply (outline_rect (Window.width w - 10)); [intros; lia | lia..]. }
  apply mscript_seq; cycle 1.
  { unfold drawFooter. rewrite Hfoot. apply mscript_ret. }
  unfold drawShadow. do 2 (apply mscript_seq; [apply (outline_rect 0); [intros; lia | lia..]|]).
  apply mscript_seq; [apply (outline_columns _ _ 0 (Window.width w - 1)); intros; lia|].
  do 2 (apply mscript_seq; [apply (outline_rect (-1)); [intros; lia | lia..]|]).
  apply (outline_columns _ _ (-1) (Window.width w)); intros; lia.
Qed.
End Plain.

Lemma plain_confined um top w :
  um !! (e_proc top, e_window top) = Some (U_window w) ->
  BORDER_WIDTH <= Window.width w -> BORDER_WIDTH + 1 <= Window.height w ->
  Window.hasCaption w <> 1 -> Window.hasFooter w = 0 -> Window.widgetsNum w = 0 ->
  confined um top w.
Proof.
  intros Hlk Hw Hh Hcap Hfoot Hnum b m m'. unfold paint_window. rewrite Hlk, Hnum.
  destruct (mscript_frame _ _ b m (plain_script w Hw Hh Hcap Hfoot true)) as (m1 & E & F).
  case_if.
  - rewrite (bind_Ok _ _ _ _ _ E). simpl. unfold ret. intros. simplify_eq. by apply F.
  - unfold ret. intros. by simplify_eq.
Qed.
