(* ===== verification/GuiWitness.v ===== *)
(** * GuiWitness: concrete screens on which the window-system theorems apply

    A machine with one process, two windows in its memory, and the queue as
    [initWindow] leaves it or with one window open. *)
From S2P Require Import Prelude Font GuiState Draw DrawFacts Gui WindowQueue Repaint.
From S2P Require Import WindowSyscalls Incremental.

Definition no_handler : Handler := mkHandler 0 0.
(** A shown window with a caption "A", a menu and a footer, and no widgets. *)
Definition demo_window : Window.t :=
  Window.mk 1 1 1 1 100 100 100 100 300 200 [65; 0] 0 (replicate 32 (W_other 9 0)) no_handler.
(** A window without decorations. *)
Definition plain_window : Window.t :=
  Window.mk 1 0 0 0 50 60 70 80 300 200 [0] 0 (replicate 32 (W_other 9 0)) no_handler.
Definition demo_um : gmap (nat * Z) uobj :=
  <[(1%nat, 100) := U_window demo_window]> (<[(1%nat, 200) := U_window plain_window]> ∅).
Definition empty_queue : wqueue :=
  mkWqueue (replicate 32 empty_wq) empty_wq (Some Head).
Definition demo_ms : mousestate := mkMouseState 0 0 0 0 0 0 0 0 0 0 0 0 0 0 0 0 0 0 None.
Definition demo_cpu : cpustate := mkCpu (Some 1%nat) (Some 1%nat) {[ 1%nat ]}.
Definition demo (q : wqueue) : gstate :=
  mkG q (fun _ => mkRGB 0 0 0) (mkMouse 640 512 640 512 0) demo_ms 0 0
    (fun _ => mkRGB 0 0 0) (fun _ => 0) demo_um demo_cpu [].

Lemma demo_empty_rep : queue_rep empty_queue [].
Proof.
  destruct (initWindow_rep (demo empty_queue)) as (g' & E & H).
  unfold initWindow, modify in E. simplify_eq. exact H.
Qed.

Definition open_in (w : Z) : wqueue :=
  with_last (append_node (upd_node empty_queue (Line 0) (with_owner (Some 1%nat) w))
    Head (Line 0)) (Some (Line 0)).
Lemma demo_open_rep w : queue_rep (open_in w) [mkEntry 0 1 w].
Proof. apply (rep_create _ [] demo_empty_rep 0 1 w); [done | by apply not_elem_of_nil | done]. Qed.

Lemma demo_window_ok q w : w = 100 \/ w = 200 -> window_ok (g_umem (demo q)) 1 w.
Proof.
  intros [-> | ->]; (split; [done|]);
    [exists demo_window | exists plain_window];
    (split; [vm_compute; reflexivity|]); (split; [by eexists|]); by repeat split.
Qed.
Lemma demo_paintable q w : w = 100 \/ w = 200 -> paintable (demo q) (mkEntry 0 1 w).
Proof. intros. split; [simpl; set_solver | by apply demo_window_ok]. Qed.

Lemma demo_inv_empty : wm_inv (demo empty_queue) 1 [].
Proof.
  split; simpl; [apply demo_empty_rep | apply not_elem_of_nil | apply not_elem_of_nil
    | done | set_solver | done].
Qed.
Lemma demo_ready w : w = 100 \/ w = 200 -> repaint_ready (demo (open_in w)) 1 [] (mkEntry 0 1 w).
Proof.
  intros Hw. split; simpl; [apply demo_open_rep | done | set_solver |].
  constructor; [by apply demo_paintable | done].
Qed.
Lemma demo_pointer q :
  pointer_on (x_position (g_mouse (demo q))) (y_position (g_mouse (demo q))).
Proof. done. Qed.

(** ** Drawing *)
Lemma drawWindow_in_buffer_witness :
  exists m', drawWindow screen_temp2 demo_window true (fun _ => mkRGB 0 0 0) = Ok (tt, m') /\
    forall a, a < screen_temp2 \/ screen_temp2 + totalPels <= a -> m' a = mkRGB 0 0 0.
Proof.
  apply (drawWindow_in_buffer screen_temp2 demo_window true (fun _ => mkRGB 0 0 0)).
  repeat split; try (vm_compute; congruence). by eexists.
Defined.

Definition demo_view : ImageView.t := ImageView.mk 5 6 2 3 1 0 no_handler.
Lemma drawImageView_upright_witness :
  drawImageView screen_temp1 demo_view (fun k => mkRGB k 1 1) demo_window (fun _ => mkRGB 9 9 9)
    (screen_temp1 + (100 + 6 + 0) * SCREEN_WIDTH + 100 + 5 + 1) = mkRGB 5 1 1.
Proof.
  etransitivity.
  - apply (drawImageView_upright screen_temp1 demo_view (fun k => mkRGB k 1 1) demo_window
      (fun _ => mkRGB 9 9 9) 0 1); [vm_compute; congruence | vm_compute; split; congruence].
  - reflexivity.
Defined.

(** ** Updates *)
Lemma updateMouse_shown_witness :
  exists g', updateMouse (demo empty_queue) = Ok (tt, g') /\ shown g'.
Proof.
  destruct (updateMouse_shown (demo empty_queue)) as (g' & H1 & H2 & _).
  - apply not_elem_of_nil.
  - done.
  - done.
  - done.
  - by exists g'.
Defined.

Lemma updateBackWindows_picture_witness :
  exists g' pic, updateBackWindows (demo (open_in 100)) = Ok (tt, g') /\
    picture demo_um [] (mkEntry 0 1 100) = Ok (tt, pic) /\ shown g'.
Proof.
  destruct (updateBackWindows_picture (demo (open_in 100)) 1 [] (mkEntry 0 1 100))
    as (g' & pic & H1 & H2 & _ & H3).
  - apply demo_ready. by left.
  - apply not_elem_of_nil.
  - apply demo_pointer.
  - exists g', pic. exact (conj H1 (conj H2 H3)).
Defined.

Lemma updateBackWindows_frame_witness :
  exists g', updateBackWindows (demo (open_in 100)) = Ok (tt, g') /\ g_wq g' = open_in 100.
Proof.
  destruct (updateBackWindows_frame (demo (open_in 100)) 1 [] (mkEntry 0 1 100))
    as (g' & w & H1 & _ & _ & H2 & _).
  - apply demo_ready. by left.
  - apply not_elem_of_nil.
  - exists g'. exact (conj H1 H2).
Defined.

Lemma updateBackWindows_empty_faults_witness : updateBackWindows (demo empty_queue) = Fault.
Proof.
  apply updateBackWindows_empty_faults; [apply demo_empty_rep | apply not_elem_of_nil].
Defined.

(** ** Window calls *)
Lemma window_calls_refine_stack_witness :
  exists g', exec_all [OpCreate 100; OpCreate 200; OpRaise 0; OpDelete 1] (demo empty_queue)
             = Ok ([0; 1; 0; 0], g') /\ wm_inv g' 1 [mkEntry 0 1 100].
Proof.
  destruct (window_calls_refine_stack (demo empty_queue) 1
    [OpCreate 100; OpCreate 200; OpRaise 0; OpDelete 1] []) as (g' & H1 & H2 & _).
  - apply demo_inv_empty.
  - split; [apply demo_window_ok; by left|].
    split; [apply demo_window_ok; by right|].
    split; [split; [apply list_elem_of_here | vm_compute; congruence]|].
    split; [vm_compute; congruence | done].
  - exists g'. split; [exact H1 | exact H2].
Defined.

Lemma createWindow_handle_witness :
  exists h g', sys_createWindow (Some 100) (demo empty_queue) = Ok (h, g') /\
    wm_inv g' 1 ([] ++ [mkEntry h 1 100]).
Proof.
  destruct (createWindow_handle (demo empty_queue) 1 [] 100) as (h & g' & H1 & H2).
  - apply demo_inv_empty.
  - apply demo_window_ok. by left.
  - exists h, g'. split; [exact H1|]. destruct H2 as [(_ & H & _)|(_ & _ & H)]; [discriminate H|].
    exact H.
Defined.

Lemma moveWindow_on_screen_witness :
  exists g', moveWindow 100 0 0 2000 (-500) 0 (demo empty_queue) = Ok (tt, g') /\
    g_umem g' = <[(1%nat, 100) := U_window (Window.set_pos 980 0 demo_window)]> demo_um.
Proof.
  eexists. split.
  - apply (moveWindow_on_screen (demo empty_queue) 1 100 demo_window 0 0 2000 (-500));
      vm_compute; (reflexivity || (split; congruence)).
  - reflexivity.
Defined.

(** ** Incremental redraws *)
Lemma demo_confined q : confined (g_umem (demo q)) (mkEntry 0 1 200) plain_window.
Proof. by apply plain_confined. Qed.
Lemma demo_fits : window_fits plain_window.
Proof. done. Qed.

Lemma updates_keep_layers_witness :
  exists g', updateBackWindows (demo (open_in 200)) = Ok (tt, g') /\
    layered g' [] (drawn_window plain_window).
Proof.
  destruct (updates_keep_layers (demo (open_in 200)) 1 [] (mkEntry 0 1 200) plain_window)
    as [H _].
  - apply demo_ready. by right.
  - apply not_elem_of_nil.
  - apply demo_pointer.
  - reflexivity.
  - apply demo_confined.
  - apply demo_fits.
  - exact H.
Defined.

Lemma demo_layered : layered (demo (open_in 200)) [] plain_window.
Proof.
  split; [|done]. eexists. by split.
Qed.
Lemma updateLastWindow_picture_witness :
  exists g' pic, updateLastWindow (demo (open_in 200)) = Ok (tt, g') /\
    picture demo_um [] (mkEntry 0 1 200) = Ok (tt, pic) /\ shown g'.
Proof.
  destruct (updateLastWindow_picture (demo (open_in 200)) 1 [] (mkEntry 0 1 200) plain_window)
    as (g' & pic & H1 & H2 & _ & H3).
  - apply demo_ready. by right.
  - apply not_elem_of_nil.
  - apply demo_pointer.
  - reflexivity.
  - apply demo_layered.
  - vm_compute. repeat split; congruence.
  - exists g', pic. exact (conj H1 (conj H2 H3)).
Defined.
