(* ===== verification/Events.v ===== *)
(** * Events: the event loop of a window program (src/src/uwindow.c,
    sys_fileSystemChanged of src/src/sysfile.c)

    A program runs with its own page table, so its loads and stores are those
    of the kernel on user memory (GuiState).  A handler is named by its
    function pointer; [call f i a] runs handler [f] on widget number [i] of the
    window at [a]. *)
From S2P Require Import Prelude Font GuiState Draw Gui WindowQueue Repaint WindowSyscalls Incremental GuiWitness.

(** ** The kernel: a change of the file system *)

(** The loop of lines 453-458; interrupts are off, no lock is taken. *)
Fixpoint notify_loop (fuel : nat) (p : option wptr) : G unit :=
  match fuel with
  | O => out_of_fuel
  | S fuel =>
      n <- deref p ;;
      match wq_next n with
      | None => ret tt
      | Some next =>
          m <- node next ;;
          switchuvm (wq_proc m) ;;;
          w <- load_window (wq_window m) ;;
          ustore (wq_window m) (U_window (Window.set_fs_triggered 1 w)) ;;;
          notify_loop fuel (Some next)
      end
  end.
Definition sys_fileSystemChanged : G Z :=
  notify_loop queue_fuel (Some Head) ;;;
  switch_back ;;;
  ret 0.

(** ** The program *)
Section Program.
Context (call : Z -> Z -> Z -> G unit).

(** Run the handler [h] of widget [i] when it was triggered, then [clear]. *)
Definition run_handler (h : Handler) (i a : Z) (clear : G unit) : G unit :=
  if (triggered h =? 1) && negb (handlerFunction h =? 0) then call (handlerFunction h) i a ;;; clear else ret tt.
(** The widget [i] as it is now. *)
Definition widget_now (a i : Z) : G Widget := w <- load_window a ;; widget_at w i.
(** The body of the loop (lines 19-43).  After the handler the widget is found
    again through the window. *)
Definition handle_widget (a i : Z) : G unit :=
  x <- widget_now a i ;;
  match x with
  | W_button p =>
      b <- load_button p ;;
      run_handler (Button.onLeftClickHandler b) i a
        (x <- widget_now a i ;;
         match x with
         | W_button p => b <- load_button p ;; ustore p (U_button (Button.set_triggered 0 b))
         | _ => fault
         end)
  | W_imageView p =>
      b <- load_imageView p ;;
      run_handler (ImageView.onLeftClickHandler b) i a
        (x <- widget_now a i ;;
         match x with
         | W_imageView p => b <- load_imageView p ;; ustore p (U_imageView (ImageView.set_triggered 0 b))
         | _ => fault
         end)
  | W_iconView p =>
      b <- load_iconView p ;;
      run_handler (IconView.onLeftDoubleClickHandler b) i a
        (x <- widget_now a i ;;
         match x with
         | W_iconView p => b <- load_iconView p ;; ustore p (U_iconView (IconView.set_triggered 0 b))
         | _ => fault
         end)
  | _ => ret tt
  end.
(** The loop (lines 18-45); a widget past the end of the array faults, so it
    has at most MAX_WIDGET_NUM rounds. *)
Fixpoint handle_widgets (fuel : nat) (a i : Z) : G unit :=
  match fuel with
  | O => out_of_fuel
  | S fuel =>
      w <- load_window a ;;
      if i <? Window.widgetsNum w then handle_widget a i ;;; handle_widgets fuel a (i + 1) else ret tt
  end.
Definition handleEvent (a : Z) : G unit :=
  w <- load_window a ;;
  run_handler (Window.onFileSystemChangedHandler w) 0 a
    (w <- load_window a ;; ustore a (U_window (Window.set_fs_triggered 0 w))) ;;;
  handle_widgets (Z.to_nat (MAX_WIDGET_NUM + 2)) a 0.
End Program.

(** [readBitmapFile] (bitmap.c) is an argument of [addCloseButton]: it stores
    the picture of a file and returns its height and width. *)
Definition addCloseButton (readBitmapFile : list Z -> Z -> G (option (Z * Z))) (a view image : Z) : G unit :=
  w <- load_window a ;;
  v <- load_imageView view ;;
  ustore view (U_imageView (ImageView.mk (Window.width w - 25) 5 0 0 1 image (mkHandler 0 0))) ;;;
  r <- readBitmapFile [99; 114; 111; 115; 115; 46; 98; 109; 112] image ;;
  v <- load_imageView view ;;
  ustore view (U_imageView (match r with
    | Some (h, wd) => ImageView.mk (ImageView.leftTopX v) (ImageView.leftTopY v) wd h (ImageView.alphaBG v) (ImageView.image v)
                        (ImageView.onLeftClickHandler v)
    | None => v
    end)) ;;;
  w <- load_window a ;;
  if (Window.widgetsNum w <? 0) || (MAX_WIDGET_NUM <=? Window.widgetsNum w) then fault
  else
    ustore a (U_window (Window.mk (Window.show w) (Window.hasCaption w) (Window.hasMenu w) (Window.hasFooter w)
      (Window.last_leftTopX w) (Window.last_leftTopY w) (Window.leftTopX w) (Window.leftTopY w) (Window.width w) (Window.height w)
      (Window.caption w) (Window.widgetsNum w + 1) (<[Z.to_nat (Window.widgetsNum w) := W_imageView view]> (Window.widgets w))
      (Window.onFileSystemChangedHandler w))).

(** * Every event reaches its handler, once *)
(** ** What is pending *)
Definition fires (h : Handler) : bool := (triggered h =? 1) && negb (handlerFunction h =? 0).
Definition handler_of (o : uobj) : option Handler :=
  match o with
  | U_button b => Some (Button.onLeftClickHandler b)
  | U_imageView v => Some (ImageView.onLeftClickHandler v)
  | U_iconView v => Some (IconView.onLeftDoubleClickHandler v)
  | U_window w => Some (Window.onFileSystemChangedHandler w)
  | _ => None
  end.
Definition clear_obj (o : uobj) : uobj :=
  match o with
  | U_button b => U_button (Button.set_triggered 0 b)
  | U_imageView v => U_imageView (ImageView.set_triggered 0 v)
  | U_iconView v => U_iconView (IconView.set_triggered 0 v)
  | U_window w => U_window (Window.set_fs_triggered 0 w)
  | o => o
  end.
(** The objects of widgets that react to the mouse. *)
Definition reactive (x : Widget) : option Z :=
  match x with W_button p | W_imageView p | W_iconView p => Some p | _ => None end.
Definition widget_ready (um : gmap (nat * Z) uobj) (me : nat) (x : Widget) : Prop :=
  match x with
  | W_button p => exists b, um !! (me, p) = Some (U_button b)
  | W_imageView p => exists b, um !! (me, p) = Some (U_imageView b)
  | W_iconView p => exists b, um !! (me, p) = Some (U_iconView b)
  | _ => True
  end.
(** A pending event: the handler, the number of the widget, the object. *)
Definition event_of (um : gmap (nat * Z) uobj) (me : nat) (i p : Z) : list (Z * Z * Z) :=
  match um !! (me, p) ≫= handler_of with
  | Some h => if fires h then [(handlerFunction h, i, p)] else []
  | None => []
  end.
Fixpoint pending_from (um : gmap (nat * Z) uobj) (me : nat) (l : list Widget) (i : Z) : list (Z * Z * Z) :=
  match l with
  | [] => []
  | x :: l' => (match reactive x with Some p => event_of um me i p | None => [] end) ++ pending_from um me l' (i + 1)
  end.

Section Loop.
Context (call : Z -> Z -> Z -> G unit) (me : nat) (a : Z).
Definition clear (p : Z) : G unit := o <- uload p ;; ustore p (clear_obj o).
(** The handlers one after the other, each event cleared after its handler. *)
Fixpoint run_events (l : list (Z * Z * Z)) : G unit :=
  match l with [] => ret tt | (f, i, p) :: l' => call f i a ;;; clear p ;;; run_events l' end.
Lemma run_events_app l1 l2 g : run_events (l1 ++ l2) g = (run_events l1 ;;; run_events l2) g.
Proof.
  revert g. induction l1 as [|[[f i] p] l1 IH]; intros g; [done|]. cbn [app run_events]. rewrite !bind_assoc.
  apply bind_ext. intros [] g1 _. rewrite !bind_assoc. apply bind_ext. intros [] g2 _. apply IH.
Qed.

(** The program's memory: the window [w] with its first [widgetsNum] widgets. *)
Record program (g : gstate) (w : Window.t) : Prop := mkProg {
  pr_cr3 : cr3 (g_cpu g) = Some me;
  pr_window : g_umem g !! (me, a) = Some (U_window w);
  pr_num : 0 <= Window.widgetsNum w <= MAX_WIDGET_NUM /\ length (Window.widgets w) = Z.to_nat MAX_WIDGET_NUM;
  pr_ready : Forall (widget_ready (g_umem g) me) (take (Z.to_nat (Window.widgetsNum w)) (Window.widgets w)) }.
Definition widgets_of (w : Window.t) : list Widget := take (Z.to_nat (Window.widgetsNum w)) (Window.widgets w).
(** The handlers of the program leave the window and its widgets as they are. *)
Definition keeps (w : Window.t) : Prop := forall f i g g', call f i a g = Ok (tt, g') ->
  cr3 (g_cpu g') = cr3 (g_cpu g) /\ g_umem g' !! (me, a) = g_umem g !! (me, a) /\
  forall p, p ∈ omap reactive (widgets_of w) -> g_umem g' !! (me, p) = g_umem g !! (me, p).

Lemma uload_at g p o : cr3 (g_cpu g) = Some me -> g_umem g !! (me, p) = Some o -> uload p g = Ok (o, g).
Proof. intros H1 H2. unfold uload. by rewrite H1, H2. Qed.
Lemma ustore_at g p o o' : cr3 (g_cpu g) = Some me -> g_umem g !! (me, p) = Some o ->
  ustore p o' g = Ok (tt, set_umem (<[(me, p) := o']> (g_umem g)) g).
Proof. intros H1 H2. unfold ustore. by rewrite H1, H2. Qed.
Lemma load_window_at g w : program g w -> load_window a g = Ok (w, g).
Proof. intros [H1 H2 _ _]. unfold load_window. by rewrite (bind_Ok _ _ _ _ _ (uload_at _ _ _ H1 H2)). Qed.
Lemma widget_now_at g w i x : program g w -> widgets_of w !! i = Some x -> widget_now a (Z.of_nat i) g = Ok (x, g).
Proof.
  intros Hp Hx. unfold widget_now. rewrite (bind_Ok _ _ _ _ _ (load_window_at _ _ Hp)). unfold widget_at.
  destruct (pr_num _ _ Hp) as [Hn Hl]. unfold widgets_of in Hx. apply lookup_take_Some in Hx as [Hx Hi].
  assert (Z.of_nat i < MAX_WIDGET_NUM) by lia. rewrite (proj2 (Z.ltb_ge (Z.of_nat i) 0)), (proj2 (Z.leb_gt MAX_WIDGET_NUM _)) by lia.
  cbn [orb]. by rewrite Nat2Z.id, Hx.
Qed.

Lemma program_agree g g' w : program g w -> cr3 (g_cpu g') = cr3 (g_cpu g) -> g_umem g' !! (me, a) = g_umem g !! (me, a) ->
  (forall x p, x ∈ widgets_of w -> reactive x = Some p -> widget_ready (g_umem g) me x -> widget_ready (g_umem g') me x) -> program g' w.
Proof.
  intros [H1 H2 H3 H4] Hc Ha Hr. split; [congruence | congruence | done|]. apply Forall_forall. intros x Hx.
  rewrite Forall_forall in H4. specialize (H4 x Hx). destruct (reactive x) as [p|] eqn:Ex; [by eapply Hr | by destruct x].
Qed.
Lemma ready_same um um' x : (forall p, reactive x = Some p -> um' !! (me, p) = um !! (me, p)) -> widget_ready um me x -> widget_ready um' me x.
Proof. destruct x; cbn; intros H; try done; by rewrite (H _ eq_refl). Qed.
Section Kept.
Context (w : Window.t) (Hkeep : keeps w).
Lemma program_called f i g g' : program g w -> call f i a g = Ok (tt, g') -> program g' w.
Proof using Hkeep.
  intros Hp Hc. destruct (Hkeep _ _ _ _ Hc) as (H1 & H2 & H3). eapply program_agree; [exact Hp | done | done|].
  intros x p Hx Ex. apply ready_same. intros q Eq. apply H3. apply list_elem_of_omap. by exists x.
Qed.
Lemma cleared g p o : cr3 (g_cpu g) = Some me -> g_umem g !! (me, p) = Some o ->
  clear p g = Ok (tt, set_umem (<[(me, p) := clear_obj o]> (g_umem g)) g).
Proof using. intros H1 H2. unfold clear. rewrite (bind_Ok _ _ _ _ _ (uload_at _ _ _ H1 H2)). by apply (ustore_at _ _ o). Qed.
Lemma handle_widget_run g i x : program g w -> widgets_of w !! i = Some x ->
  handle_widget call a (Z.of_nat i) g =
  run_events (match reactive x with Some p => event_of (g_umem g) me (Z.of_nat i) p | None => [] end) g.
Proof using Hkeep.
  intros Hp Hx. unfold handle_widget. rewrite (bind_Ok _ _ _ _ _ (widget_now_at g w i x Hp Hx)).
  pose proof (list_elem_of_lookup_2 _ _ _ Hx) as Hin. pose proof (pr_ready _ _ Hp) as Hall. rewrite Forall_forall in Hall.
  specialize (Hall x Hin).
  assert (Hcall : forall f p g', reactive x = Some p -> call f (Z.of_nat i) a g = Ok (tt, g') ->
    program g' w /\ g_umem g' !! (me, p) = g_umem g !! (me, p)).
  { intros f p g' Ep Hc. split; [by eapply program_called|]. apply (Hkeep _ _ _ _ Hc). apply list_elem_of_omap. by exists x. }
  destruct x as [p|p|p|p|p|ty p]; cbn [reactive widget_ready] in *; try done; destruct Hall as [b Hb];
    unfold event_of; rewrite Hb; cbn [mbind option_bind handler_of];
    [unfold load_button | unfold load_imageView | unfold load_iconView];
    rewrite bind_assoc, (bind_Ok _ _ _ _ _ (uload_at _ _ _ (pr_cr3 _ _ Hp) Hb)); (erewrite bind_Ok; [|reflexivity]);
    unfold run_handler, fires; (destruct (_ && _); [|done]); cbn [run_events]; apply bind_ext; intros [] g' Hc;
    destruct (Hcall _ p g' eq_refl Hc) as [Hp' Hb']; rewrite Hb in Hb';
    rewrite (bind_Ok _ _ _ _ _ (widget_now_at g' w i _ Hp' Hx));
    [unfold load_button | unfold load_imageView | unfold load_iconView];
    rewrite bind_assoc, (bind_Ok _ _ _ _ _ (uload_at _ _ _ (pr_cr3 _ _ Hp') Hb')); (erewrite bind_Ok; [|reflexivity]);
    rewrite (bind_Ok _ _ _ _ _ (cleared _ _ _ (pr_cr3 _ _ Hp') Hb')); by apply (ustore_at _ _ _ _ (pr_cr3 _ _ Hp') Hb').
Qed.
(** One widget done: the program goes on, and the other objects are as before. *)
Lemma after_widget g g' i x : program g w -> widgets_of w !! i = Some x ->
  run_events (match reactive x with Some p => event_of (g_umem g) me (Z.of_nat i) p | None => [] end) g = Ok (tt, g') ->
  program g' w /\ forall p, p ∈ omap reactive (widgets_of w) -> reactive x <> Some p -> g_umem g' !! (me, p) = g_umem g !! (me, p).
Proof using Hkeep.
  intros Hp Hx Hrun. destruct (reactive x) as [p|] eqn:Ex; [|by injection Hrun as <-].
  pose proof (list_elem_of_lookup_2 _ _ _ Hx) as Hin. pose proof (pr_ready _ _ Hp) as Hall. rewrite Forall_forall in Hall.
  assert (Hobj : exists o, g_umem g !! (me, p) = Some o /\ handler_of o <> None /\ (forall w', o <> U_window w')).
  { specialize (Hall x Hin). destruct x; cbn in Ex, Hall; try done; injection Ex as ->; destruct Hall as [b Hb]; by eexists. }
  destruct Hobj as (o & Ho & Hh & Hnw). unfold event_of in Hrun. rewrite Ho in Hrun. cbn [mbind option_bind] in Hrun.
  destruct (handler_of o) as [h|]; [|done]. destruct (fires h); [|by injection Hrun as <-]. cbn [run_events] in Hrun.
  apply bind_inv in Hrun as ([] & g1 & Hc & Hrun). destruct (Hkeep _ _ _ _ Hc) as (H1 & H2 & H3).
  assert (Ho1 : g_umem g1 !! (me, p) = Some o) by (rewrite H3; [done | apply list_elem_of_omap; by exists x]).
  pose proof (program_called _ _ _ _ Hp Hc) as Hp1.
  rewrite (bind_Ok _ _ _ _ _ (cleared _ _ _ (pr_cr3 _ _ Hp1) Ho1)) in Hrun. injection Hrun as <-. cbn [g_umem set_umem].
  assert (Hpa : p <> a) by (intros ->; rewrite (pr_window _ _ Hp1) in Ho1; injection Ho1 as <-; by eapply Hnw).
  split.
  - eapply program_agree; [exact Hp1 | done | |].
    + cbn. rewrite lookup_insert_ne; [done|]. congruence.
    + intros y q Hy Eq. cbn. destruct (decide (q = p)) as [->|Hqp]; [|apply ready_same; intros q' Eq'; apply lookup_insert_ne; congruence].
      destruct y; cbn in *; try done; injection Eq as ->; intros [b Hb]; rewrite Ho1 in Hb; injection Hb as ->;
        (eexists; apply lookup_insert_eq).
  - intros q Hq Hne. rewrite lookup_insert_ne by congruence. by apply H3.
Qed.
End Kept.

Lemma pending_agree um um' l : forall i, (forall p, p ∈ omap reactive l -> um' !! (me, p) = um !! (me, p)) ->
  pending_from um' me l i = pending_from um me l i.
Proof.
  induction l as [|x l IH]; intros i Hag; [done|]. cbn [pending_from]. cbn [omap list_omap] in Hag. f_equal.
  - destruct (reactive x) as [p|]; [|done]. unfold event_of. by rewrite Hag by set_solver.
  - apply IH. intros p Hp. apply Hag. destruct (reactive x); set_solver.
Qed.
Lemma handle_widgets_run w (Hkeep : keeps w) l : forall i g fuel, program g w -> drop i (widgets_of w) = l ->
  NoDup (omap reactive (widgets_of w)) -> (length l < fuel)%nat ->
  handle_widgets call fuel a (Z.of_nat i) g = run_events (pending_from (g_umem g) me l (Z.of_nat i)) g.
Proof.
  induction l as [|x l IH]; intros i g fuel Hp Hl Hnd Hf; (destruct fuel as [|fuel]; [cbn in Hf; lia|]); cbn [handle_widgets];
    rewrite (bind_Ok _ _ _ _ _ (load_window_at _ _ Hp)); destruct (pr_num _ _ Hp) as [Hn Hlen].
  - assert (length (widgets_of w) <= i)%nat by (apply (f_equal length) in Hl; rewrite length_drop in Hl; cbn in Hl; lia).
    unfold widgets_of in *. rewrite length_take in *. rewrite (proj2 (Z.ltb_ge _ _)) by lia. done.
  - assert (Hx : widgets_of w !! i = Some x) by (rewrite <- (Nat.add_0_r i), <- lookup_drop, Hl; done).
    pose proof (lookup_lt_Some _ _ _ Hx) as Hi. unfold widgets_of in Hi. rewrite length_take in Hi.
    rewrite (proj2 (Z.ltb_lt _ _)) by lia. cbn [pending_from]. rewrite run_events_app.
    rewrite (bind_cong _ _ _ _ (handle_widget_run w Hkeep g i x Hp Hx)). apply bind_ext. intros [] g' Hrun.
    destruct (after_widget w Hkeep g g' i x Hp Hx Hrun) as [Hp' Hsame].
    assert (Hd : drop (S i) (widgets_of w) = l).
    { replace (S i) with (i + 1)%nat by lia. rewrite <- drop_drop, Hl. done. }
    replace (Z.of_nat i + 1) with (Z.of_nat (S i)) by lia. rewrite (IH (S i) g' fuel Hp' Hd Hnd) by (cbn in Hf; lia).
    f_equal. apply pending_agree. intros p Hpl. apply Hsame.
    + rewrite <- (take_drop i (widgets_of w)), omap_app, Hl. cbn [omap list_omap]. destruct (reactive x); set_solver.
    + intros Ex. rewrite <- (take_drop i (widgets_of w)), omap_app, Hl in Hnd. cbn [omap list_omap] in Hnd. rewrite Ex in Hnd.
      apply NoDup_app in Hnd as (_ & _ & Hnd). apply NoDup_cons in Hnd as [Hnd _]. done.
Qed.

(** The event loop runs every pending handler once.  In a program whose
    window shows well-formed widgets, no object in two of them, and whose
    handlers leave the window and its widgets alone, a turn of [handleEvent] is
    exactly: the handler of a file system change when one is pending, then, in
    the order of the widgets, the handler of each button, image and icon that
    was clicked, and after each handler its event is cleared. *)
Theorem handleEvent_runs_pending g w : keeps w -> program g w -> NoDup (omap reactive (widgets_of w)) ->
  handleEvent call a g = run_events (event_of (g_umem g) me 0 a ++ pending_from (g_umem g) me (widgets_of w) 0) g.
Proof.
  intros Hkeep Hp Hnd. unfold handleEvent. rewrite (bind_Ok _ _ _ _ _ (load_window_at _ _ Hp)).
  rewrite run_events_app. destruct (pr_num _ _ Hp) as [Hn Hlen].
  assert (Hle : forall w', widgets_of w' = widgets_of w -> (length (widgets_of w') < Z.to_nat (MAX_WIDGET_NUM + 2))%nat).
  { intros w' ->. unfold widgets_of. rewrite length_take. unfold MAX_WIDGET_NUM in *. lia. }
  unfold event_of. rewrite (pr_window _ _ Hp). cbn [mbind option_bind handler_of]. unfold run_handler, fires.
  destruct (_ && _); cbn [run_events].
  - rewrite !bind_assoc. apply bind_ext. intros [] g1 Hc. destruct (Hkeep _ _ _ _ Hc) as (H1 & H2 & H3).
    pose proof (program_called w Hkeep _ _ _ _ Hp Hc) as Hp1. rewrite !bind_assoc.
    rewrite (bind_Ok _ _ _ _ _ (load_window_at _ _ Hp1)).
    rewrite (bind_Ok _ _ _ _ _ (cleared _ _ _ (pr_cr3 _ _ Hp1) (pr_window _ _ Hp1))).
    rewrite (bind_Ok _ _ _ _ _ (ustore_at _ _ _ _ (pr_cr3 _ _ Hp1) (pr_window _ _ Hp1))). cbn [clear_obj].
    rewrite (bind_Ok (ret tt) (fun _ => run_events _) _ tt _ eq_refl).
    set (w' := Window.set_fs_triggered 0 w). set (g2 := set_umem _ g1).
    assert (Hra : forall p, p ∈ omap reactive (widgets_of w) -> p <> a).
    { intros p (x & Hx & Ex)%list_elem_of_omap ->. pose proof (pr_ready _ _ Hp1) as Hall. rewrite Forall_forall in Hall.
      specialize (Hall x Hx). pose proof (pr_window _ _ Hp1) as Hw.
      destruct x; cbn in *; try done; injection Ex as ->; destruct Hall as [b Hb]; congruence. }
    assert (Hp2 : program g2 w').
    { split; [apply Hp1 | cbn; by rewrite lookup_insert_eq | exact (pr_num _ _ Hp1)|].
      apply Forall_forall. intros x Hx. pose proof (pr_ready _ _ Hp1) as Hall. rewrite Forall_forall in Hall.
      eapply ready_same; [|exact (Hall x Hx)]. intros p Ex. cbn. rewrite lookup_insert_ne; [done|].
      pose proof (Hra p ltac:(apply list_elem_of_omap; by exists x)). congruence. }
    change 0 with (Z.of_nat 0). rewrite (handle_widgets_run w' Hkeep (widgets_of w') 0 g2) by (try done; by apply Hle).
    f_equal. apply pending_agree. intros p Hpw. cbn. pose proof (Hra p Hpw). rewrite lookup_insert_ne by congruence. by apply H3.
  - do 2 (erewrite bind_Ok; [|reflexivity]). change 0 with (Z.of_nat 0).
    apply (handle_widgets_run w Hkeep (widgets_of w) 0 g); try done. by apply Hle.
Qed.
End Loop.

(** ** A change of the file system *)
Definition told (o : uobj) : uobj := match o with U_window w => U_window (Window.set_fs_triggered 1 w) | o => o end.
Definition key_of (e : entry) : nat * Z := (e_proc e, e_window e).
Definition notified (um : gmap (nat * Z) uobj) (st : list entry) : gmap (nat * Z) uobj :=
  foldl (fun m e => alter told (key_of e) m) um st.
Lemma told_twice o : told (told o) = told o.
Proof. by destruct o. Qed.
Lemma notified_at st : forall um k, notified um st !! k = if decide (k ∈ key_of <$> st) then told <$> um !! k else um !! k.
Proof.
  induction st as [|e st IH]; intros um k; [done|]. cbn [notified foldl]. fold (notified (alter told (key_of e) um) st).
  rewrite IH. rewrite fmap_cons. destruct (decide (k = key_of e)) as [->|Hne].
  - rewrite (decide_True (P := key_of e ∈ key_of e :: _)) by set_solver. rewrite lookup_alter_eq.
    destruct (um !! key_of e) as [o|]; cbn; case_decide; try done. by rewrite told_twice.
  - rewrite lookup_alter_ne by done. repeat case_decide; set_solver.
Qed.
Definition with_mem (g : gstate) (um : gmap (nat * Z) uobj) (c : option nat) : gstate :=
  set_cpu (mkCpu (proc (g_cpu g)) c (pgdirs (g_cpu g))) (set_umem um g).

Section Notify.
Context (g : gstate) (me : nat) (st : list entry).
Context (Hrep : queue_rep (g_wq g) st) (Hme : proc (g_cpu g) = Some me) (Hpg : me ∈ pgdirs (g_cpu g)).
Context (Hwin : Forall (fun e => e_proc e ∈ pgdirs (g_cpu g) /\ exists w, g_umem g !! key_of e = Some (U_window w)) st).
Lemma notify_loop_run n : forall k p c fuel, path st !! k = Some p -> (length st - k = n)%nat -> (n < fuel)%nat -> exists c',
  notify_loop fuel (Some p) (with_mem g (notified (g_umem g) (take k st)) c) = Ok (tt, with_mem g (notified (g_umem g) st) c').
Proof using Hrep Hme Hwin.
  induction n as [|n IH]; intros k p c fuel Hk Hn Hf; (destruct fuel as [|fuel]; [lia|]); cbn [notify_loop deref];
    destruct (link_node _ _ _ (rep_links _ _ Hrep k p Hk)) as (nd & Hnd & Hnext & _); cbn [fst] in Hnext;
    rewrite (bind_Ok _ _ _ _ _ (node_run (with_mem g _ c) _ _ Hnd)), Hnext.
  - rewrite (lookup_ge_None_2 (path st) (S k)) by (rewrite path_length; lia). rewrite take_ge by lia. by exists c.
  - destruct (lookup_lt_is_Some_2 st k ltac:(lia)) as [e He]. rewrite path_S, He. cbn [fmap option_fmap option_map].
    rewrite (bind_Ok _ _ _ _ _ (node_run (with_mem g _ c) _ _ (rep_entry _ _ _ _ Hrep He))). cbn [wq_proc wq_window].
    pose proof Hwin as Hall. rewrite Forall_forall in Hall. destruct (Hall e (list_elem_of_lookup_2 _ _ _ He)) as [Hpd [w Hw]].
    set (um := notified (g_umem g) (take k st)).
    assert (Hsw : switchuvm (Some (e_proc e)) (with_mem g um c) = Ok (tt, with_mem g um (Some (e_proc e)))).
    { unfold switchuvm, with_mem. cbn. rewrite Hme, decide_True by done. done. }
    rewrite (bind_Ok _ _ _ _ _ Hsw).
    assert (Hum : exists w', um !! key_of e = Some (U_window w') /\ told (U_window w') = U_window (Window.set_fs_triggered 1 w')).
    { unfold um. rewrite notified_at, Hw. case_decide; by eexists. }
    destruct Hum as (w' & Hum & Htold).
    unfold load_window. rewrite bind_assoc.
    rewrite (bind_Ok _ _ _ _ _ (uload_at (e_proc e) (with_mem g um (Some (e_proc e))) (e_window e) _ eq_refl Hum)).
    erewrite bind_Ok; [|reflexivity].
    rewrite (bind_Ok _ _ _ _ _ (ustore_at (e_proc e) (with_mem g um (Some (e_proc e))) (e_window e) _ _ eq_refl Hum)).
    replace (set_umem _ _) with (with_mem g (notified (g_umem g) (take (S k) st)) (Some (e_proc e))).
    { apply (IH (S k)); [by rewrite path_S, He | lia | lia]. }
    rewrite (take_S_r _ _ _ He). unfold notified at 1. rewrite foldl_app. cbn [foldl]. fold (notified (g_umem g) (take k st)). fold um.
    assert (Halt : alter told (key_of e) um = <[(e_proc e, e_window e) := U_window (Window.set_fs_triggered 1 w')]> um); [|by rewrite Halt].
    apply map_eq. intros j. destruct (decide (j = key_of e)) as [->|Hj].
    + rewrite lookup_alter_eq. unfold key_of in *. by rewrite lookup_insert_eq, Hum.
    + unfold key_of in *. rewrite lookup_alter_ne by done. by rewrite lookup_insert_ne.
Qed.
End Notify.

(** A change of the file system reaches every window.  For a queue that
    represents a stack of windows whose owners are alive, [fileSystemChanged]
    returns 0 and changes only the windows of the stack: in each of them the
    event is pending, so that the next turn of its program's event loop begins
    with the window's handler. *)
Theorem fileSystemChanged_notifies g me st : queue_rep (g_wq g) st -> proc (g_cpu g) = Some me -> me ∈ pgdirs (g_cpu g) ->
  Forall (fun e => e_proc e ∈ pgdirs (g_cpu g) /\ exists w, g_umem g !! key_of e = Some (U_window w)) st ->
  exists um, sys_fileSystemChanged g = Ok (0, with_mem g um (Some me)) /\
    (forall k, k ∉ key_of <$> st -> um !! k = g_umem g !! k) /\
    forall e w, e ∈ st -> g_umem g !! key_of e = Some (U_window w) ->
      um !! key_of e = Some (U_window (Window.set_fs_triggered 1 w)) /\
      let f := handlerFunction (Window.onFileSystemChangedHandler w) in
      (f <> 0 -> event_of um (e_proc e) 0 (e_window e) = [(f, 0, e_window e)]).
Proof.
  intros Hrep Hme Hpg Hwin. exists (notified (g_umem g) st). split; [|split].
  - unfold sys_fileSystemChanged.
    destruct (notify_loop_run g me st Hrep Hme Hwin (length st) 0 Head (cr3 (g_cpu g)) queue_fuel eq_refl) as [c' Hrun].
    { lia. } { pose proof (rep_length _ _ Hrep). unfold queue_fuel. lia. }
    assert (Hg : with_mem g (notified (g_umem g) (take 0 st)) (cr3 (g_cpu g)) = g) by (destruct g as [? ? ? ? ? ? ? ? ? []]; done).
    rewrite Hg in Hrun. rewrite (bind_Ok _ _ _ _ _ Hrun).
    assert (Hb : switch_back (with_mem g (notified (g_umem g) st) c') = Ok (tt, with_mem g (notified (g_umem g) st) (Some me))).
    { unfold switch_back, switchuvm, with_mem. cbn. rewrite Hme, decide_True by done. done. }
    by rewrite (bind_Ok _ _ _ _ _ Hb).
  - intros k Hk. by rewrite notified_at, decide_False.
  - intros e w He Hw.
    assert (Hk : notified (g_umem g) st !! key_of e = Some (U_window (Window.set_fs_triggered 1 w))).
    { rewrite notified_at, decide_True by (by apply list_elem_of_fmap_2). by rewrite Hw. }
    split; [done|]. intros f Hf. unfold event_of. unfold key_of in Hk. rewrite Hk. cbn [mbind option_bind handler_of Window.set_fs_triggered Window.onFileSystemChangedHandler].
    unfold fires. cbn. fold f. by rewrite (proj2 (Z.eqb_neq f 0) Hf).
Qed.

(** ** Witnesses: a program with one button, clicked, while a file changed *)
Definition clicked : Button.t := Button.mk 0 0 0 10 10 [0] (mkHandler 1 900).
Definition button_window : Window.t :=
  Window.mk 1 0 0 0 0 0 0 0 300 200 [0] 1 (W_button 300 :: replicate 31 (W_other 9 0)) (mkHandler 0 800).
Definition button_program : gstate :=
  set_umem (<[(1%nat, 100) := U_window button_window]> (<[(1%nat, 300) := U_button clicked]> ∅)) (demo (open_in 100)).
(** The handlers store their number. *)
Definition note (f i a : Z) : G unit := modify (set_shift f).
Lemma button_program_ok : program 1 100 button_program button_window.
Proof.
  split; [done | by vm_compute | split; [unfold MAX_WIDGET_NUM; cbn; lia | done]|]. repeat constructor. cbn. exists clicked. by vm_compute.
Qed.
Lemma handleEvent_runs_pending_witness :
  handleEvent note 100 button_program = run_events note 100 [(900, 0, 300)] button_program.
Proof.
  rewrite (handleEvent_runs_pending note 1 100 button_program button_window).
  - by vm_compute.
  - intros f i g g' [= <-]. done.
  - exact button_program_ok.
  - cbn. apply NoDup_singleton.
Defined.
Lemma fileSystemChanged_notifies_witness : exists um,
  sys_fileSystemChanged button_program = Ok (0, with_mem button_program um (Some 1%nat)) /\ event_of um 1 0 100 = [(800, 0, 100)].
Proof.
  destruct (fileSystemChanged_notifies button_program 1 [mkEntry 0 1 100]) as (um & Hrun & _ & H).
  - apply demo_open_rep.
  - done.
  - cbn. set_solver.
  - apply Forall_singleton. split; [cbn; set_solver|]. exists button_window. by vm_compute.
  - exists um. split; [exact Hrun|]. apply (H (mkEntry 0 1 100) button_window); [set_solver | by vm_compute | done].
Defined.

(** An event that arrives while its handler runs is lost: the handler here
    reports another change of the file system, and afterwards nothing is
    pending. *)
Definition changed_again (f i a : Z) : G unit := sys_fileSystemChanged ;;; ret tt.
Definition busy_program : gstate :=
  set_umem (<[(1%nat, 100) := U_window (Window.mk 1 0 0 0 0 0 0 0 300 200 [0] 0 (replicate 32 (W_other 9 0)) (mkHandler 1 800))]> ∅)
    (demo (open_in 100)).
Theorem event_during_handler_lost :
  match handleEvent changed_again 100 busy_program with
  | Ok (_, g') => event_of (g_umem g') 1 0 100 = []
  | _ => False
  end.
Proof. by vm_compute. Qed.
