(* ===== verification/Mouse.v ===== *)
(** * Mouse: packets, events and clicks (src/src/mouse.c)

    The interrupt handler assembles three-byte packets, a small state machine
    turns button samples into clicks, double clicks and drags, and the
    handlers find the window and widget under the pointer.  The values read
    from the controller's ports are arguments. *)
From S2P Require Import Prelude Font GuiState Draw Gui WindowQueue.

(** ** mouse.h *)
Definition READ_MOUSE_INFO : Z := 1.
Definition READ_X_MOVEMENT : Z := 2.
Definition READ_Y_MOVEMENT : Z := 3.
Definition LEFT_CLICK : Z := 4.
Definition RIGHT_CLICK : Z := 5.
Definition LEFT_DOUBLE_CLICK : Z := 6.

(** Updates of the file's statics, one per assigned group. *)
Module MS.
Definition set_to_read (v : Z) (s : mousestate) : mousestate :=
mkMouseState v (left_down s) (right_down s) (x_sign s) (y_sign s) (x_overflow s) (y_overflow s)
  (counter s) (isdraw s) (dis_x s) (dis_y s) (left_btn_down s) (down_pos_x s) (down_pos_y s)
  (right_btn_down s) (last_tick s) (event s) (drag_state s) (pwque s).
Definition set_info (ld rd xs ys xo yo tr : Z) (s : mousestate) : mousestate :=
mkMouseState tr ld rd xs ys xo yo
  (counter s) (isdraw s) (dis_x s) (dis_y s) (left_btn_down s) (down_pos_x s) (down_pos_y s)
  (right_btn_down s) (last_tick s) (event s) (drag_state s) (pwque s).
Definition set_dis (dx dy tr : Z) (s : mousestate) : mousestate :=
mkMouseState tr (left_down s) (right_down s) (x_sign s) (y_sign s) (x_overflow s) (y_overflow s)
  (counter s) (isdraw s) dx dy (left_btn_down s) (down_pos_x s) (down_pos_y s)
  (right_btn_down s) (last_tick s) (event s) (drag_state s) (pwque s).
Definition set_buttons (lb px py rb lt ev : Z) (s : mousestate) : mousestate :=
mkMouseState (to_read s) (left_down s) (right_down s) (x_sign s) (y_sign s) (x_overflow s)
  (y_overflow s) (counter s) (isdraw s) (dis_x s) (dis_y s) lb px py rb lt ev
  (drag_state s) (pwque s).
Definition set_drag (d : Z) (p : option wptr) (s : mousestate) : mousestate :=
mkMouseState (to_read s) (left_down s) (right_down s) (x_sign s) (y_sign s) (x_overflow s)
  (y_overflow s) (counter s) (isdraw s) (dis_x s) (dis_y s) (left_btn_down s) (down_pos_x s)
  (down_pos_y s) (right_btn_down s) (last_tick s) (event s) d p.
Definition set_counter (c i : Z) (s : mousestate) : mousestate :=
mkMouseState (to_read s) (left_down s) (right_down s) (x_sign s) (y_sign s) (x_overflow s)
  (y_overflow s) c i (dis_x s) (dis_y s) (left_btn_down s) (down_pos_x s)
  (down_pos_y s) (right_btn_down s) (last_tick s) (event s) (drag_state s) (pwque s).
End MS.
Definition update_ms (f : mousestate -> mousestate) : G unit :=
  modify (fun g => set_ms (f (g_ms g)) g).

(** ** Hit testing *)
Definition in_rect (x y left top width height : Z) : bool :=
  (x >=? left) && (x <? left + width) && (y >=? top) && (y <? top + height).

Definition inWindowRange (window : Window.t) (x y : Z) : Z :=
  if in_rect x y (Window.leftTopX window) (Window.leftTopY window) (Window.width window)
       (Window.height window) then 1 else 0.

Definition inWidgetRange (window : Window.t) (widget : Widget) (x y : Z) : G Z :=
  match widget with
  | W_button p =>
      b <- load_button p ;;
      ret (if in_rect x y (Window.leftTopX window + Button.leftTopX b)
                (Window.leftTopY window + Button.leftTopY b) (Button.width b) (Button.height b)
           then 1 else 0)
  | W_imageView p =>
      v <- load_imageView p ;;
      ret (if in_rect x y (Window.leftTopX window + ImageView.leftTopX v)
                (Window.leftTopY window + ImageView.leftTopY v) (ImageView.width v)
                (ImageView.height v) then 1 else 0)
  | W_iconView p =>
      v <- load_iconView p ;;
      ret (if in_rect x y (Window.leftTopX window + IconView.leftTopX v)
                (Window.leftTopY window + IconView.leftTopY v) (IconView.width v)
                (IconView.height v) then 1 else 0)
  | _ => ret 0
  end.

(** Lines 97-113, from node [p] backwards. *)
Fixpoint clicked_from (fuel : nat) (p : option wptr) (x y : Z) : G (option wptr) :=
  match p with
  | None => ret None
  | Some q =>
      match fuel with
      | O => out_of_fuel
      | S fuel =>
          n <- node q ;;
          switchuvm (wq_proc n) ;;;
          w <- load_window (wq_window n) ;;
          if truthy (inWindowRange w x y) then ret (Some q)
          else clicked_from fuel (wq_prev n) x y
      end
  end.
Definition getClickedWindowQueue : G (option wptr) :=
  g <- get ;;
  clicked_from queue_fuel (lastWindow (g_wq g)) (x_position (g_mouse g)) (y_position (g_mouse g)).

(** Lines 115-128: the widgets [n - 1], [n - 2], ..., 0. *)
Fixpoint clicked_widget (n : nat) (w : Window.t) (x y : Z) : G (option Widget) :=
  match n with
  | O => ret None
  | S k =>
      wd <- widget_at w (Z.of_nat k) ;;
      r <- inWidgetRange w wd x y ;;
      if truthy r then ret (Some wd) else clicked_widget k w x y
  end.
Definition getClickedWidget (a : Z) : G (option Widget) :=
  w <- load_window a ;;
  g <- get ;;
  clicked_widget (Z.to_nat (Window.widgetsNum w)) w (x_position (g_mouse g))
    (y_position (g_mouse g)).

(** ** Handlers *)
Definition trigger_button (p : Z) : G unit :=
  b <- load_button p ;; ustore p (U_button (Button.set_triggered 1 b)).
Definition trigger_imageView (p : Z) : G unit :=
  v <- load_imageView p ;; ustore p (U_imageView (ImageView.set_triggered 1 v)).
Definition trigger_iconView (p : Z) : G unit :=
  v <- load_iconView p ;; ustore p (U_iconView (IconView.set_triggered 1 v)).

(** Lines 153-180: what the click does inside the window at node [n]. *)
Definition click_widget (pwidget : option Widget) (owner : option nat) : G unit :=
  match pwidget with
  | Some (W_button p) => focusDismiss ;;; switchuvm owner ;;; trigger_button p
  | Some (W_imageView p) => focusDismiss ;;; switchuvm owner ;;; trigger_imageView p
  | Some (W_iconView p) => focusIconView p
  | _ => focusDismiss ;;; switchuvm owner
  end.

Definition handleLeftClick : G unit :=
  pwindowQueue <- getClickedWindowQueue ;;
  match pwindowQueue with
  | None => switch_back
  | Some q =>
      last <- gets (fun g => lastWindow (g_wq g)) ;;
      if bool_decide (Some q <> last) && bool_decide (q = Line 0) then switch_back
      else
        (if bool_decide (Some q <> last) && bool_decide (q <> Line 0) then
           focusDismiss ;;; reorderQueue q ;;; n <- node q ;; switchuvm (wq_proc n)
         else ret tt) ;;;
        n <- node q ;;
        pwidget <- getClickedWidget (wq_window n) ;;
        click_widget pwidget (wq_proc n) ;;;
        switch_back
  end.

Definition handleLeftDoubleClick : G unit :=
  pwindowQueue <- getClickedWindowQueue ;;
  (match pwindowQueue with
   | None => ret tt
   | Some q =>
       focusDismiss ;;;
       n <- node q ;;
       switchuvm (wq_proc n) ;;;
       pwidget <- getClickedWidget (wq_window n) ;;
       match pwidget with
       | Some (W_iconView p) => trigger_iconView p
       | _ => ret tt
       end
   end) ;;;
  switch_back.

Definition handleRightClick : G unit :=
  pwindowQueue <- getClickedWindowQueue ;;
  (match pwindowQueue with
   | None => ret tt
   | Some q => n <- node q ;; getClickedWidget (wq_window n) ;;; ret tt
   end) ;;;
  switch_back.

(** Lines 236-257. *)
Fixpoint dragged_from (fuel : nat) (p : option wptr) (x y : Z) : G (option wptr) :=
  match p with
  | None => ret None
  | Some q =>
      match fuel with
      | O => out_of_fuel
      | S fuel =>
          n <- node q ;;
          switchuvm (wq_proc n) ;;;
          w <- load_window (wq_window n) ;;
          if truthy (inWindowRange w x y)
          then ret (if y <=? Window.leftTopY w + CAPTION_HEIGHT then Some q else None)
          else dragged_from fuel (wq_prev n) x y
      end
  end.
Definition getDraggedWindowQueue : G (option wptr) :=
  g <- get ;;
  let x := down_pos_x (g_ms g) in
  let y := down_pos_y (g_ms g) in
  if negb (truthy x) || negb (truthy y) then ret None
  else dragged_from queue_fuel (lastWindow (g_wq g)) x y.

Definition handleMouseDrag : G unit :=
  g <- get ;;
  (if drag_state (g_ms g) =? 0 then
     p <- getDraggedWindowQueue ;;
     match p with
     | Some q =>
         update_ms (MS.set_drag 1 p) ;;;
         last <- gets (fun g => lastWindow (g_wq g)) ;;
         if bool_decide (Some q <> last) && bool_decide (q <> Line 0)
         then reorderQueue q else ret tt
     | None => update_ms (MS.set_drag 2 None)
     end
   else if drag_state (g_ms g) =? 1 then
     n <- deref (pwque (g_ms g)) ;;
     switchuvm (wq_proc n) ;;;
     let c := Z.rem (counter (g_ms g) + 1) 20 in
     let d := if c =? 0 then 1 else 0 in
     update_ms (MS.set_counter c d) ;;;
     moveWindow (wq_window n) (x_position (g_mouse g)) (y_position (g_mouse g))
       (down_pos_x (g_ms g)) (down_pos_y (g_ms g)) d
   else ret tt) ;;;
  switch_back.

(** ** Position *)
Definition clamp (v limit : Z) : Z :=
  let v := if v <? 0 then 0 else v in if v >? limit then limit else v.
Definition setMousePosition (x y : Z) : G unit :=
  modify (fun g => set_mouse (mkMouse (clamp x SCREEN_WIDTH) (clamp y SCREEN_HEIGHT)
    (last_draw_x (g_mouse g)) (last_draw_y (g_mouse g)) (m_event (g_mouse g))) g) ;;;
  updateMouse.
Definition moveMousePosition (x y : Z) : G unit :=
  g <- get ;; setMousePosition (x_position (g_mouse g) + x) (y_position (g_mouse g) + y).
(** Everything but the port writes and the interrupt enabling. *)
Definition mouseinit : G unit :=
  setMousePosition (Z.quot SCREEN_WIDTH 2) (Z.quot SCREEN_HEIGHT 2).

(** ** Events: lines 310-361 *)

(** The left button (lines 312-347): new [left_btn_down], [down_pos_x],
    [down_pos_y], [last_tick] and [event]. [tick] and the difference are
    [uint]s. [last_event] is [mouse_info.event]. *)
Definition left_button (tick x y last_event : Z) (s : mousestate) : Z * Z * Z * Z * Z :=
  if truthy (left_down s) then
    if negb (truthy (left_btn_down s)) then (1, x, y, last_tick s, 0)
    else (left_btn_down s, x, y, last_tick s, MOUSE_DRAGGING)
  else if truthy (left_btn_down s) then
    let ev := if u32 (tick - last_tick s) <=? 30 then LEFT_DOUBLE_CLICK
              else if last_event =? MOUSE_DRAGGING then 0 else LEFT_CLICK in
    (0, 0, 0, if ev =? LEFT_DOUBLE_CLICK then -30 else s32 tick, ev)
  else (left_btn_down s, down_pos_x s, down_pos_y s, last_tick s, 0).
(** The right button (lines 348-360). *)
Definition right_button (ev : Z) (s : mousestate) : Z * Z :=
  if truthy (right_down s) then
    (if negb (truthy (right_btn_down s)) then 1 else right_btn_down s, ev)
  else if truthy (right_btn_down s) then (0, RIGHT_CLICK)
  else (right_btn_down s, ev).
Definition next_ms (tick x y last_event : Z) (s : mousestate) : mousestate :=
  let '(lb, px, py, lt, ev) := left_button tick x y last_event s in
  let '(rb, ev) := right_button ev s in
  MS.set_buttons lb px py rb lt ev s.

(** Lines 362-383. *)
Definition dispatch_event : G unit :=
  ev <- gets (fun g => event (g_ms g)) ;;
  (when ev =? LEFT_CLICK do handleLeftClick) ;;;
  (when ev =? LEFT_DOUBLE_CLICK do handleLeftDoubleClick) ;;;
  (when ev =? MOUSE_DRAGGING do handleMouseDrag) ;;;
  (when ev =? RIGHT_CLICK do handleRightClick) ;;;
  (when ev =? 0 do
     (d <- gets (fun g => drag_state (g_ms g)) ;;
      (when d =? 1 do updateLastWindow) ;;;
      modify (fun g => set_ms (MS.set_drag 0 (pwque (g_ms g)) (g_ms g)) g))).

Definition updateMouseEvent (tick x y : Z) : G unit :=
  modify (fun g =>
    let s := next_ms tick x y (m_event (g_mouse g)) (g_ms g) in
    let mi := g_mouse g in
    set_ms s (set_mouse (mkMouse (x_position mi) (y_position mi) (last_draw_x mi)
                           (last_draw_y mi) (event s)) g)) ;;;
  dispatch_event.

(** ** The interrupt handler (lines 386-436)

    [status] and [data] are what [inb(0x64)] and [inb(0x60)] return. *)
Definition bit (ch mask : Z) : Z := if Z.land ch mask =? 0 then 0 else 1.
Definition signed_dis (ch sign : Z) : Z := if sign =? 1 then s32 (u32 (ch - 256)) else s32 ch.

Definition mouseint (tick status data : Z) : G unit :=
  if Z.land status 1 =? 0 then update_ms (MS.set_to_read READ_MOUSE_INFO)
  else
    acquire mouse_lock ;;;
    g <- get ;;
    let s := g_ms g in
    let ch := data in
    if to_read s =? READ_MOUSE_INFO then
      if (Z.land ch 0x08 =? 0) || negb (Z.land ch 0x04 =? 0) then release mouse_lock
      else
        update_ms (MS.set_info (bit ch 0x01) (bit ch 0x02) (bit ch 0x10) (bit ch 0x20)
                     (bit ch 0x40) (bit ch 0x80) READ_X_MOVEMENT) ;;;
        release mouse_lock
    else if to_read s =? READ_X_MOVEMENT then
      update_ms (fun s => MS.set_dis (signed_dis ch (x_sign s)) (dis_y s) READ_Y_MOVEMENT s) ;;;
      release mouse_lock
    else if to_read s =? READ_Y_MOVEMENT then
      update_ms (fun s =>
        MS.set_dis (dis_x s) (- signed_dis ch (y_sign s)) READ_MOUSE_INFO s) ;;;
      release mouse_lock ;;;
      g <- get ;;
      updateMouseEvent tick (x_position (g_mouse g) + dis_x (g_ms g))
        (y_position (g_mouse g) + dis_y (g_ms g)) ;;;
      g <- get ;;
      moveMousePosition (dis_x (g_ms g)) (dis_y (g_ms g))
    else ret tt.
