(* ===== verification/MouseFacts.v ===== *)
(** * MouseFacts: the mouse driver's theorems

    The packet decoder, the click recogniser, the pointer's range and the
    search for the window and widget under the pointer. *)
From S2P Require Import Prelude Font GuiState Draw DrawFacts Gui WindowQueue Repaint.
From S2P Require Import WindowSyscalls Mouse.

(** ** Packets *)

(** A first byte the driver accepts: sync bit set, middle button up. *)
Definition sync_byte (b : Z) : bool := negb (Z.land b 0x08 =? 0) && (Z.land b 0x04 =? 0).

(** Nine-bit two's complement, the sign coming from the first byte. *)
Definition nine_bit (sign b : Z) : Z := b - 256 * sign.

Lemma signed_dis_spec ch sign :
  0 <= ch < 256 -> sign = 0 \/ sign = 1 -> signed_dis ch sign = nine_bit sign ch.
Proof.
  intros Hc [-> | ->]; unfold signed_dis, nine_bit; simpl.
  - rewrite s32_small; lia.
  - unfold s32, u32. rewrite Zplus_mod_idemp_l. rewrite Z.mod_small; lia.
Qed.

Lemma bit_01 ch mask : bit ch mask = 0 \/ bit ch mask = 1.
Proof. unfold bit. case_if; auto. Qed.

Section Decoder.
Variables (g : gstate).
Hypothesis (Hl : mouse_lock ∉ g_locks g).

Lemma lock_cycle (k : G unit) (f : mousestate -> mousestate) :
  (update_ms f ;;; release mouse_lock ;;; k) (set_locks (mouse_lock :: g_locks g) g)
  = k (set_ms (f (g_ms g)) g).
Proof using Hl.
  unfold update_ms, modify. unfold M_bind at 1.
  erewrite bind_Ok; [|by apply (release_run _ _ (g_locks g) Hl)]. done.
Qed.
Lemma lock_cycle_ret (f : mousestate -> mousestate) :
  (update_ms f ;;; release mouse_lock) (set_locks (mouse_lock :: g_locks g) g)
  = Ok (tt, set_ms (f (g_ms g)) g).
Proof using Hl.
  unfold update_ms, modify. unfold M_bind at 1.
  erewrite release_run by done. by destruct g.
Qed.

(** The first byte. *)
Lemma mouseint_info tick status b0 :
  Z.land status 1 <> 0 -> to_read (g_ms g) = READ_MOUSE_INFO -> sync_byte b0 = true ->
  mouseint tick status b0 g = Ok (tt, set_ms (MS.set_info (bit b0 0x01) (bit b0 0x02)
    (bit b0 0x10) (bit b0 0x20) (bit b0 0x40) (bit b0 0x80) READ_X_MOVEMENT (g_ms g)) g).
Proof using Hl.
  intros Hs Hr Hb. unfold mouseint. destruct (Z.eqb_spec (Z.land status 1) 0); [done|].
  rewrite (bind_Ok _ _ _ _ _ (acquire_run _ _ Hl)). erewrite bind_Ok; [|reflexivity].
  cbn [g_ms set_locks]. rewrite Hr. cbv zeta. simpl (_ =? _).
  unfold sync_byte in Hb. apply andb_true_iff in Hb as [Hb1 Hb2].
  apply negb_true_iff in Hb1. rewrite Hb1, Hb2. simpl orb. cbv iota. apply lock_cycle_ret.
Qed.
(** A byte out of step is dropped. *)
Lemma mouseint_drop tick status b0 :
  Z.land status 1 <> 0 -> to_read (g_ms g) = READ_MOUSE_INFO -> sync_byte b0 = false ->
  mouseint tick status b0 g = Ok (tt, g).
Proof using Hl.
  intros Hs Hr Hb. unfold mouseint. destruct (Z.eqb_spec (Z.land status 1) 0); [done|].
  rewrite (bind_Ok _ _ _ _ _ (acquire_run _ _ Hl)). erewrite bind_Ok; [|reflexivity].
  cbn [g_ms set_locks]. rewrite Hr. cbv zeta. simpl (_ =? _). cbv iota.
  replace (_ || _) with true.
  - erewrite release_run by done. by destruct g.
  - unfold sync_byte in Hb. destruct (Z.land b0 8 =? 0), (Z.land b0 4 =? 0); done.
Qed.
Lemma mouseint_x tick status b1 :
  Z.land status 1 <> 0 -> to_read (g_ms g) = READ_X_MOVEMENT ->
  mouseint tick status b1 g = Ok (tt, set_ms (MS.set_dis (signed_dis b1 (x_sign (g_ms g)))
    (dis_y (g_ms g)) READ_Y_MOVEMENT (g_ms g)) g).
Proof using Hl.
  intros Hs Hr. unfold mouseint. destruct (Z.eqb_spec (Z.land status 1) 0); [done|].
  rewrite (bind_Ok _ _ _ _ _ (acquire_run _ _ Hl)). erewrite bind_Ok; [|reflexivity].
  cbn [g_ms set_locks]. rewrite Hr. cbv zeta. simpl (_ =? _). cbv iota.
  by rewrite lock_cycle_ret.
Qed.
Lemma mouseint_y tick status b2 :
  Z.land status 1 <> 0 -> to_read (g_ms g) = READ_Y_MOVEMENT ->
  let s := MS.set_dis (dis_x (g_ms g)) (- signed_dis b2 (y_sign (g_ms g))) READ_MOUSE_INFO
             (g_ms g) in
  mouseint tick status b2 g =
    (updateMouseEvent tick (x_position (g_mouse g) + dis_x s) (y_position (g_mouse g) + dis_y s) ;;;
     g <- get ;; moveMousePosition (dis_x (g_ms g)) (dis_y (g_ms g))) (set_ms s g).
Proof using Hl.
  intros Hs Hr s. unfold mouseint. destruct (Z.eqb_spec (Z.land status 1) 0); [done|].
  rewrite (bind_Ok _ _ _ _ _ (acquire_run _ _ Hl)). erewrite bind_Ok; [|reflexivity].
  cbn [g_ms set_locks]. rewrite Hr. cbv zeta. simpl (_ =? _). cbv iota.
  rewrite lock_cycle. erewrite bind_Ok; [|reflexivity]. done.
Qed.
End Decoder.

(** Packet decoding.  Starting between packets, a three-byte packet whose
    first byte has the sync bit (and not the middle button) moves the pointer
    exactly once, by the packet's nine-bit two's complement displacements with
    y growing downwards, after handling the event for the button bits; the
    driver is again between packets. *)
Theorem mouse_packet g tick st0 st1 st2 b0 b1 b2 :
  mouse_lock ∉ g_locks g -> to_read (g_ms g) = READ_MOUSE_INFO ->
  Z.land st0 1 <> 0 -> Z.land st1 1 <> 0 -> Z.land st2 1 <> 0 ->
  sync_byte b0 = true -> 0 <= b1 < 256 -> 0 <= b2 < 256 ->
  let dx := nine_bit (bit b0 0x10) b1 in
  let dy := - nine_bit (bit b0 0x20) b2 in
  let s := MS.set_dis dx dy READ_MOUSE_INFO
             (MS.set_info (bit b0 0x01) (bit b0 0x02) (bit b0 0x10) (bit b0 0x20)
                (bit b0 0x40) (bit b0 0x80) READ_MOUSE_INFO (g_ms g)) in
  (mouseint tick st0 b0 ;;; mouseint tick st1 b1 ;;; mouseint tick st2 b2) g =
    (updateMouseEvent tick (x_position (g_mouse g) + dx) (y_position (g_mouse g) + dy) ;;;
     g <- get ;; moveMousePosition (dis_x (g_ms g)) (dis_y (g_ms g))) (set_ms s g) /\
  -256 <= dx <= 255 /\ -255 <= dy <= 256 /\ to_read s = READ_MOUSE_INFO.
Proof.
  intros Hl Hr H0 H1 H2 Hb Hb1 Hb2 dx dy s.
  rewrite (bind_Ok _ _ _ _ _ (mouseint_info g Hl tick st0 b0 H0 Hr Hb)).
  erewrite bind_Ok; [|by apply mouseint_x].
  rewrite mouseint_y by done. split.
  - cbn [g_ms set_ms MS.set_dis MS.set_info x_sign y_sign dis_x dis_y g_mouse x_position y_position].
    rewrite !signed_dis_spec by (done || apply bit_01). done.
  - subst dx dy. unfold nine_bit.
    destruct (bit_01 b0 0x10) as [-> | ->], (bit_01 b0 0x20) as [-> | ->];
      (split; [lia|]); (split; [lia | done]).
Qed.

(** ** Clicks, double clicks and drags *)

(** A sample is a time and a position; a gesture presses the left button,
    moves while it is down, and releases it. *)
Definition sample : Type := Z * Z * Z.
Definition tick_of (a : sample) : Z := a.1.1.
Record gesture := mkGesture { press : sample; moves : list sample; release_at : sample }.

(** One packet with the left button [down] and the right button up. *)
Definition feed (a : sample) (down mev : Z) (s : mousestate) : mousestate :=
  next_ms (tick_of a) a.1.2 a.2 mev
    (MS.set_info down 0 (x_sign s) (y_sign s) (x_overflow s) (y_overflow s) (to_read s) s).
(** The events of a list of samples, and the state after them; [mev] is
    [mouse_info.event]. *)
Fixpoint feed_moves (l : list sample) (mev : Z) (s : mousestate) : list Z * Z * mousestate :=
  match l with
  | [] => ([], mev, s)
  | a :: l' =>
      let s' := feed a 1 mev s in
      let '(evs, mev', s'') := feed_moves l' (event s') s' in (event s' :: evs, mev', s'')
  end.
Fixpoint feed_gestures (l : list gesture) (mev : Z) (s : mousestate) : list Z :=
  match l with
  | [] => []
  | x :: l' =>
      let s1 := feed (press x) 1 mev s in
      let '(evs, mev2, s2) := feed_moves (moves x) (event s1) s1 in
      let s3 := feed (release_at x) 0 mev2 s2 in
      event s1 :: evs ++ event s3 :: feed_gestures l' (event s3) s3
  end.

(** What a user should see: a release within 30 ticks of the previous one
    ends a double click, after which counting starts afresh; otherwise it
    ends a drag or is a single click. *)
Definition within (prev : option Z) (t : Z) : bool :=
  match prev with Some p => t - p <=? 30 | None => false end.
Fixpoint gesture_spec (l : list gesture) (prev : option Z) : list Z :=
  match l with
  | [] => []
  | x :: l' =>
      let t := tick_of (release_at x) in
      let double := within prev t in
      let ended := if double then LEFT_DOUBLE_CLICK
                   else match moves x with [] => LEFT_CLICK | _ => 0 end in
      0 :: map (fun _ => MOUSE_DRAGGING) (moves x) ++
      ended :: gesture_spec l' (if double then None else Some t)
  end.

(** Release times grow and fit in an [int]. *)
Fixpoint times_ok (lo : Z) (l : list gesture) : Prop :=
  match l with
  | [] => True
  | x :: l' => lo <= tick_of (release_at x) < 2 ^ 31 /\ times_ok (tick_of (release_at x)) l'
  end.

(** [last_tick] encodes the time of the previous release. *)
Definition last_tick_is (prev : option Z) (s : mousestate) : Prop :=
  last_tick s = default (-30) prev.

Lemma double_test prev t s :
  last_tick_is prev s -> default 1 prev <= t < 2 ^ 31 -> 1 <= default 1 prev ->
  (u32 (t - last_tick s) <=? 30) = within prev t.
Proof.
  unfold last_tick_is. intros -> Ht Hp. unfold within. destruct prev as [p|]; simpl in *.
  - by rewrite u32_small by lia.
  - rewrite u32_small by lia. apply Z.leb_gt. lia.
Qed.

Lemma feed_moves_run l : forall mev s,
  left_btn_down s = 1 -> right_btn_down s = 0 ->
  exists s', feed_moves l mev s =
    (map (fun _ => MOUSE_DRAGGING) l, match l with [] => mev | _ => MOUSE_DRAGGING end, s') /\
    left_btn_down s' = 1 /\ right_btn_down s' = 0 /\ last_tick s' = last_tick s.
Proof.
  induction l as [|a l IH]; intros mev s Hb Hr; [by exists s|].
  set (s1 := feed a 1 mev s).
  assert (H1 : s1 = MS.set_buttons 1 a.1.2 a.2 0 (last_tick s) MOUSE_DRAGGING
    (MS.set_info 1 0 (x_sign s) (y_sign s) (x_overflow s) (y_overflow s) (to_read s) s)).
  { subst s1. unfold feed, next_ms, left_button, right_button. simpl. by rewrite Hb, Hr. }
  destruct (IH (event s1) s1) as (s' & E & ? & ? & Hl); [by rewrite H1 | by rewrite H1 |].
  exists s'. simpl. fold s1. rewrite E, H1. rewrite H1 in Hl. simpl in *.
  by destruct l.
Qed.

(** C22 The click recogniser implements the gesture specification: for every
    sequence of press/move/release gestures of the left button with growing
    release times, the events produced packet by packet are a silent press,
    one drag per move, and at each release a double click when the previous
    release (since the last double click) was at most 30 ticks ago, otherwise
    nothing after a drag and a single click without one. *)
Theorem click_recogniser l mev s prev :
  left_btn_down s = 0 -> right_btn_down s = 0 ->
  last_tick_is prev s -> 1 <= default 1 prev -> times_ok (default 1 prev) l ->
  feed_gestures l mev s = gesture_spec l prev.
Proof.
  revert mev s prev. induction l as [|x l IH]; intros mev s prev Hb Hr Hlt Hp Hok; [done|].
  destruct Hok as [Ht Hok]. cbn [feed_gestures gesture_spec].
  set (s1 := feed (press x) 1 mev s).
  assert (H1 : s1 = MS.set_buttons 1 (press x).1.2 (press x).2 0 (last_tick s) 0
    (MS.set_info 1 0 (x_sign s) (y_sign s) (x_overflow s) (y_overflow s) (to_read s) s)).
  { subst s1. unfold feed, next_ms, left_button, right_button. simpl. by rewrite Hb, Hr. }
  destruct (feed_moves_run (moves x) (event s1) s1) as (s2 & E & Hb2 & Hr2 & Hl2);
    [by rewrite H1 | by rewrite H1 |].
  rewrite E. set (mev2 := match moves x with [] => _ | _ => _ end).
  set (s3 := feed (release_at x) 0 mev2 s2).
  assert (Hlt2 : last_tick_is prev s2).
  { unfold last_tick_is. rewrite Hl2, H1. done. }
  set (t := tick_of (release_at x)) in *.
  set (ended := if within prev t then LEFT_DOUBLE_CLICK
                else match moves x with [] => LEFT_CLICK | _ => 0 end).
  assert (H3 : s3 = MS.set_buttons 0 0 0 0 (if within prev t then -30 else t) ended
    (MS.set_info 0 0 (x_sign s2) (y_sign s2) (x_overflow s2) (y_overflow s2) (to_read s2) s2)).
  { subst s3. unfold feed, next_ms, left_button, right_button. simpl. rewrite Hb2, Hr2. simpl.
    fold t. rewrite (double_test prev t s2) by done. subst ended mev2. rewrite H1.
    rewrite (s32_small t) by lia.
    destruct (within prev t); [done|]. by destruct (moves x). }
  replace (event s1) with 0 by by rewrite H1. replace (event s3) with ended by by rewrite H3.
  f_equal. f_equal. f_equal. apply IH; rewrite ?H3; try done.
  - unfold last_tick_is. simpl. by destruct (within prev t).
  - simpl. destruct (within prev t); simpl; lia.
  - simpl. destruct (within prev t); simpl; [|done].
    destruct l as [|y l']; [done|]. destruct Hok as [? ?]. split; [lia | done].
Qed.

(** ** The window under the pointer *)
Definition covers (um : gmap (nat * Z) uobj) (x y : Z) (e : entry) : Prop :=
  match um !! (e_proc e, e_window e) with
  | Some (U_window w) =>
      in_rect x y (Window.leftTopX w) (Window.leftTopY w) (Window.width w) (Window.height w) = true
  | _ => False
  end.
#[export] Instance covers_dec um x y e : Decision (covers um x y e).
Proof. unfold covers. destruct (um !! _) as [[]|]; apply _. Defined.

(** The highest window of the stack at a point. *)
Definition topmost (um : gmap (nat * Z) uobj) (x y : Z) (st : list entry) : option entry :=
  last (filter (covers um x y) st).

Lemma rep_node_at q st k e :
  queue_rep q st -> st !! k = Some e ->
  node_of q (Line (e_slot e)) =
    Some (mkWQ (Some (e_proc e)) (e_window e) (path st !! S (S k)) (path st !! k)).
Proof.
  intros Hrep He. assert (Hx : path st !! S k = Some (Line (e_slot e))) by by rewrite path_S, He.
  destruct (link_node _ _ _ (rep_links _ _ Hrep _ _ Hx)) as (n & Hn & Hnext & Hprev).
  pose proof (rep_used _ _ Hrep) as Hu. rewrite Forall_forall in Hu.
  specialize (Hu e (list_elem_of_lookup_2 _ _ _ He)). unfold owner_of in Hu.
  rewrite Hn in Hu |- *. simpl in *. destruct n; simpl in *. by simplify_eq.
Qed.

Section Hit.
Variables (g : gstate) (me : nat) (st : list entry) (x y : Z).
Hypothesis Hinv : wm_inv g me st.

Lemma clicked_from_run fuel : forall k m c, (k <= length st)%nat -> (k < fuel)%nat ->
  clicked_from fuel (path st !! k) x y (drawn g m c) =
    match topmost (g_umem g) x y (take k st) with
    | Some e => Ok (Some (Line (e_slot e)), drawn g m (Some (e_proc e)))
    | None => Fault
    end.
Proof using Hinv.
  destruct Hinv as [Hrep Hgui Hwin Hproc Hme Hws].
  induction fuel as [|fuel IH]; intros k m c Hk Hf; [lia|].
  destruct k as [|k].
  - cbn [clicked_from]. unfold path. simpl.
    pose proof (rep_head _ _ Hrep) as Hh. unfold owner_of in Hh.
    destruct (node_of (g_wq g) Head) as [n|] eqn:Hn; [|done]. simpl in Hh. simplify_eq.
    rewrite (bind_Ok _ _ _ _ _ (node_run (drawn g m c) _ _ Hn)).
    unfold M_bind, switchuvm. simpl. rewrite Hproc. by destruct n; simplify_eq/=.
  - destruct (lookup_lt_is_Some_2 st k) as [e He]; [lia|].
    rewrite path_S, He. cbn [fmap option_fmap option_map clicked_from].
    rewrite (bind_Ok _ _ _ _ _ (node_run (drawn g m c) _ _ (rep_node_at _ _ _ _ Hrep He))).
    cbn [wq_proc wq_window wq_prev].
    rewrite Forall_forall in Hws. pose proof (Hws e (list_elem_of_lookup_2 _ _ _ He)) as [Hp Hok].
    erewrite bind_Ok; [|by apply (switchuvm_run g me Hproc)].
    destruct Hok as (_ & w & Hw & _).
    erewrite bind_Ok.
    2:{ unfold load_window. erewrite bind_Ok; [|apply (uload_run _ (e_proc e)); [done|exact Hw]].
        reflexivity. }
    rewrite (take_S_r _ _ _ He). unfold topmost. rewrite filter_app, filter_cons, filter_nil.
    assert (Hcov : covers (g_umem g) x y e <-> in_rect x y (Window.leftTopX w)
      (Window.leftTopY w) (Window.width w) (Window.height w) = true)
      by (unfold covers; by rewrite Hw).
    unfold inWindowRange. destruct (in_rect _ _ _ _ _ _) in Hcov |- *; simpl.
    + by rewrite decide_True, last_snoc by by apply Hcov.
    + rewrite decide_False, app_nil_r by by rewrite Hcov. apply IH; lia.
Qed.

Lemma getClickedWindowQueue_run :
  x = x_position (g_mouse g) -> y = y_position (g_mouse g) ->
  getClickedWindowQueue g =
    match topmost (g_umem g) x y st with
    | Some e => Ok (Some (Line (e_slot e)), drawn g (g_vram g) (Some (e_proc e)))
    | None => Fault
    end.
Proof using Hinv.
  intros Hx Hy. unfold getClickedWindowQueue. erewrite bind_Ok; [|reflexivity].
  rewrite <- Hx, <- Hy.
  pose proof (inv_rep _ _ _ Hinv) as Hrep. pose proof (rep_length _ _ Hrep) as Hlen.
  rewrite (rep_last _ _ Hrep), last_lookup, path_length. simpl pred.
  rewrite (drawn_id g) at 1. rewrite clicked_from_run by (unfold queue_fuel; lia).
  by rewrite take_ge by lia.
Qed.
End Hit.

(** A click goes to the topmost window under the pointer: with a well-formed
    queue, [getClickedWindowQueue] returns the node of the highest window of
    the stack whose rectangle contains the pointer, with that window's address
    space loaded and nothing else changed. *)
Theorem clicked_window_topmost g me st e :
  wm_inv g me st ->
  topmost (g_umem g) (x_position (g_mouse g)) (y_position (g_mouse g)) st = Some e ->
  getClickedWindowQueue g =
    Ok (Some (Line (e_slot e)),
        set_cpu (mkCpu (proc (g_cpu g)) (Some (e_proc e)) (pgdirs (g_cpu g))) g).
Proof.
  intros Hinv Htop. rewrite (getClickedWindowQueue_run g me st _ _ Hinv eq_refl eq_refl). rewrite Htop. by destruct g.
Qed.

Lemma topmost_None um x y st :
  topmost um x y st = None <-> Forall (fun e => ~ covers um x y e) st.
Proof.
  unfold topmost. rewrite last_None. split.
  - intros Hf. apply Forall_forall. intros e He Hc.
    assert (e ∈ filter (covers um x y) st) as Hin by (by apply list_elem_of_filter).
    rewrite Hf in Hin. by apply elem_of_nil in Hin.
  - intros. by apply filter_none.
Qed.

(** A click at the right edge crashes the kernel.  [setMousePosition] lets the
    pointer reach column 1280, which no window that lies on the screen covers;
    the search then walks past the bottom window to the head of the queue and
    follows its null process, so [handleLeftClick] does not return. *)
Theorem click_at_right_edge_faults g me st :
  wm_inv g me st ->
  Forall (fun e => forall w, g_umem g !! (e_proc e, e_window e) = Some (U_window w) ->
            Window.leftTopX w + Window.width w <= SCREEN_WIDTH) st ->
  x_position (g_mouse g) = clamp 1300 SCREEN_WIDTH ->
  handleLeftClick g = Fault.
Proof.
  intros Hinv Hws Hx. unfold handleLeftClick. unfold M_bind at 1.
  rewrite (getClickedWindowQueue_run g me st _ _ Hinv eq_refl eq_refl).
  replace (topmost _ _ _ _) with (@None entry); [done|]. symmetry. apply topmost_None.
  rewrite Forall_forall in Hws |- *. intros e He. specialize (Hws e He). unfold covers.
  destruct (g_umem g !! _) as [[w| | | | | |]|]; auto. specialize (Hws w eq_refl).
  rewrite Hx. unfold in_rect, clamp. simpl. intros H. zbool. unfold SCREEN_WIDTH in *. lia.
Qed.

(** ** The pointer's range *)
Lemma clamp_range v limit : 0 <= limit -> 0 <= clamp v limit <= limit.
Proof.
  intros. unfold clamp. destruct (Z.ltb_spec v 0); rewrite Z.gtb_ltb.
  - destruct (Z.ltb_spec limit 0); lia.
  - destruct (Z.ltb_spec limit v); lia.
Qed.

(** Wherever the mouse is moved, the pointer stays on the screen and the
    picture stays intact: [moveMousePosition] by any displacement returns, the
    new position is in range, and the screen equals [screen_temp2] everywhere
    but under the pointer, whenever this held before. *)
Theorem moveMousePosition_shown g dx dy :
  gui_lock ∉ g_locks g ->
  pointer_on (last_draw_x (g_mouse g)) (last_draw_y (g_mouse g)) -> shown g ->
  exists g', moveMousePosition dx dy g = Ok (tt, g') /\ shown g' /\
    pointer_on (x_position (g_mouse g')) (y_position (g_mouse g')) /\
    last_draw_x (g_mouse g') = x_position (g_mouse g') /\
    last_draw_y (g_mouse g') = y_position (g_mouse g') /\ g_locks g' = g_locks g.
Proof.
  intros Hl Hp Hs. unfold moveMousePosition. erewrite bind_Ok; [|reflexivity].
  unfold setMousePosition. erewrite bind_Ok; [|reflexivity].
  set (x := clamp (x_position (g_mouse g) + dx) SCREEN_WIDTH).
  set (y := clamp (y_position (g_mouse g) + dy) SCREEN_HEIGHT).
  assert (Hon : pointer_on x y) by (split; apply clamp_range; done).
  eexists. split; [by apply updateMouse_run|].
  cbn [g_mouse g_vram set_mouse set_vram x_position y_position last_draw_x last_draw_y m_event].
  split; [by apply shown_draw, shown_remove | done].
Qed.
