(* ===== verification/Clicks.v ===== *)
(** * Clicks: from a click to the program that owns the window

    The widget search of mouse.c and the left-click handler from end to end:
    the clicked window comes to the top of the stack and the topmost button
    under the pointer is marked as triggered in its owner's memory, from where
    the owner's event loop (uwindow.c) calls its handler. *)
From S2P Require Import Prelude Font GuiState Draw DrawFacts Gui WindowQueue Repaint.
From S2P Require Import WindowSyscalls Mouse MouseFacts.

(** ** The widget under the pointer *)
Definition hit (um : gmap (nat * Z) uobj) (i : nat) (w : Window.t) (x y : Z) (wd : Widget) : bool :=
  let at_ left top width height :=
    in_rect x y (Window.leftTopX w + left) (Window.leftTopY w + top) width height in
  match wd with
  | W_button p =>
      match um !! (i, p) with
      | Some (U_button b) =>
          at_ (Button.leftTopX b) (Button.leftTopY b) (Button.width b) (Button.height b)
      | _ => false
      end
  | W_imageView p =>
      match um !! (i, p) with
      | Some (U_imageView v) =>
          at_ (ImageView.leftTopX v) (ImageView.leftTopY v) (ImageView.width v) (ImageView.height v)
      | _ => false
      end
  | W_iconView p =>
      match um !! (i, p) with
      | Some (U_iconView v) =>
          at_ (IconView.leftTopX v) (IconView.leftTopY v) (IconView.width v) (IconView.height v)
      | _ => false
      end
  | _ => false
  end.
Definition window_widgets (w : Window.t) : list Widget :=
  take (Z.to_nat (Window.widgetsNum w)) (Window.widgets w).
(** The last drawn, hence topmost, clickable widget at a point. *)
Definition top_widget (um : gmap (nat * Z) uobj) (i : nat) (w : Window.t) (x y : Z) :
    option Widget :=
  last (filter (fun wd => hit um i w x y wd = true) (window_widgets w)).

Lemma load_run {A} g i a o (f : uobj -> G A) :
  cr3 (g_cpu g) = Some i -> g_umem g !! (i, a) = Some o -> (o <- uload a ;; f o) g = f o g.
Proof. intros Hc Ho. by rewrite (bind_Ok _ _ _ _ _ (uload_run g i Hc _ _ Ho)). Qed.

Lemma inWidgetRange_run g i w wd x y :
  cr3 (g_cpu g) = Some i -> widget_ok (g_umem g) i wd ->
  inWidgetRange w wd x y g = Ok (if hit (g_umem g) i w x y wd then 1 else 0, g).
Proof.
  intros Hc. destruct wd as [p|p|p|p|p|? p]; simpl; try done.
  - intros (b & Hb & _). rewrite Hb. erewrite bind_Ok; [reflexivity|].
    unfold load_button. by rewrite (load_run _ i _ _ _ Hc Hb).
  - intros (v & px & Hv & _). rewrite Hv. erewrite bind_Ok; [reflexivity|].
    unfold load_imageView. by rewrite (load_run _ i _ _ _ Hc Hv).
  - intros (v & px & Hv & _). rewrite Hv. erewrite bind_Ok; [reflexivity|].
    unfold load_iconView. by rewrite (load_run _ i _ _ _ Hc Hv).
Qed.

Lemma clicked_widget_run g i w x y n :
  cr3 (g_cpu g) = Some i -> (n <= length (Window.widgets w))%nat ->
  length (Window.widgets w) = Z.to_nat MAX_WIDGET_NUM ->
  Forall (widget_ok (g_umem g) i) (take n (Window.widgets w)) ->
  clicked_widget n w x y g =
    Ok (last (filter (fun wd => hit (g_umem g) i w x y wd = true) (take n (Window.widgets w))), g).
Proof.
  intros Hc Hn Hlen. induction n as [|n IH]; intros Hok; [done|].
  destruct (lookup_lt_is_Some_2 (Window.widgets w) n) as [wd Hwd]; [lia|].
  rewrite (take_S_r _ _ _ Hwd) in Hok |- *. apply Forall_app in Hok as [Hok Hok1].
  apply Forall_cons in Hok1 as [Hok1 _]. cbn [clicked_widget].
  assert (Hat : widget_at w (Z.of_nat n) = ret wd).
  { unfold widget_at, MAX_WIDGET_NUM in *. rewrite Nat2Z.id, Hwd.
    replace (_ || _) with false; [done|]. symmetry.
    rewrite orb_false_iff, Z.ltb_ge, Z.leb_gt. lia. }
  rewrite Hat. unfold ret at 1, M_bind at 1.
  rewrite (bind_Ok _ _ _ _ _ (inWidgetRange_run _ _ w _ x y Hc Hok1)).
  rewrite filter_app, filter_cons, filter_nil.
  destruct (hit _ _ _ _ _ wd); simpl.
  - by rewrite last_snoc.
  - rewrite app_nil_r. apply IH; [lia | done].
Qed.

Lemma getClickedWidget_run g i a w :
  cr3 (g_cpu g) = Some i -> window_ok (g_umem g) i a ->
  g_umem g !! (i, a) = Some (U_window w) ->
  getClickedWidget a g =
    Ok (top_widget (g_umem g) i w (x_position (g_mouse g)) (y_position (g_mouse g)), g).
Proof.
  intros Hc (_ & w' & Hw' & _ & Hlen & Hnum & Hok) Hw. assert (w' = w) as -> by congruence.
  unfold getClickedWidget. erewrite bind_Ok.
  2:{ unfold load_window. rewrite (load_run _ i _ _ _ Hc Hw). reflexivity. }
  erewrite bind_Ok; [|reflexivity].
  apply clicked_widget_run; try done. unfold MAX_WIDGET_NUM in *. lia.
Qed.

(** A click selects the topmost widget: in a window whose objects exist,
    [getClickedWidget] returns the last button, image or icon of the window's
    list whose rectangle contains the pointer (the one drawn on top), or null
    when there is none, and changes nothing. *)
Theorem clicked_widget_topmost g i a w :
  cr3 (g_cpu g) = Some i -> window_ok (g_umem g) i a ->
  g_umem g !! (i, a) = Some (U_window w) ->
  getClickedWidget a g =
    Ok (top_widget (g_umem g) i w (x_position (g_mouse g)) (y_position (g_mouse g)), g).
Proof. apply getClickedWidget_run. Qed.

(** ** No icon is focused *)
Definition idle (g : gstate) : Prop := focusIcon g = 0 /\ forall i, isBg g i = 0.

Lemma clear_loop_idle l g :
  idle g ->
  exists isb, mfor_list l (fun i =>
      isb <- gets isBg ;;
      if truthy (isb i) then fault
      else modify (fun g => set_focus (focusIcon g) (background g) (upd (isBg g) i 0) g)) g
    = Ok (tt, set_focus 0 (background g) isb g) /\ forall i, isb i = 0.
Proof.
  revert g. induction l as [|i l IH]; intros g [Hf Hb].
  - exists (isBg g). split; [|done]. rewrite <- Hf. by destruct g.
  - cbn [mfor_list]. set (g1 := set_focus (focusIcon g) (background g) (upd (isBg g) i 0) g).
    erewrite (bind_Ok _ _ _ tt g1) by (unfold M_bind, gets; by rewrite Hb).
    destruct (IH g1) as (isb & E & H0).
    { split; [done|]. intros k. simpl. unfold upd. case_if; [done | apply Hb]. }
    exists isb. split; [|done]. rewrite E. by destruct g.
Qed.

Lemma focusDismiss_idle g me back top :
  repaint_ready g me back top -> gui_lock ∉ g_locks g -> idle g ->
  exists isb, focusDismiss g =
      Ok (tt, set_focus 0 (background g) isb (drawn g (g_vram g) (Some me))) /\
    forall i, isb i = 0.
Proof.
  intros HR Hl Hidle. unfold focusDismiss. rewrite (bind_Ok _ _ _ _ _ (acquire_run _ _ Hl)).
  pose proof (ready_locks _ _ _ _ (gui_lock :: g_locks g) HR) as HR1.
  set (g1 := set_locks _ g) in *.
  destruct (top_node _ _ _ _ HR1) as (nx & pv & Hn).
  erewrite bind_Ok; [|reflexivity]. rewrite (last_top _ _ _ _ HR1).
  erewrite bind_Ok; [|by apply node_run]. cbn [wq_proc]. rewrite (drawn_id g1).
  erewrite bind_Ok; [|apply (switchuvm_run g1 me (ready_proc _ _ _ _ HR1));
    apply (top_paintable _ _ _ _ HR1)].
  erewrite bind_Ok; [|reflexivity]. replace (focusIcon _) with 0 by (symmetry; apply Hidle).
  simpl (0 =? 0). cbv iota. erewrite bind_Ok; [|reflexivity]. unfold clearBgLoop.
  simpl (0 =? 0). cbv iota.
  destruct (clear_loop_idle (seqZ 0 (focus_size - 0)) (drawn g1 (g_vram g1) (Some (e_proc top)))
    Hidle) as (isb & E & H0).
  exists isb. split; [|done]. unfold mfor. rewrite (bind_Ok _ _ _ _ _ E).
  erewrite bind_Ok; [|reflexivity].
  pose proof (switch_back_run (set_focus 0 (background g) isb g1) me (ready_proc _ _ _ _ HR1)
    (ready_me _ _ _ _ HR1) (g_vram g1) (Some (e_proc top))) as Hsb.
  erewrite bind_Ok; [|exact Hsb]. erewrite release_run by done. by destruct g.
Qed.

(** ** The left click *)
Lemma inv_ready g me back top : wm_inv g me (back ++ [top]) -> repaint_ready g me back top.
Proof. by intros [? ? ? ? ? ?]; split. Qed.
Lemma inv_drawn g me st m c : wm_inv g me st -> wm_inv (drawn g m c) me st.
Proof. by intros [? ? ? ? ? ?]; split. Qed.
Lemma inv_focus g me st f bg isb : wm_inv g me st -> wm_inv (set_focus f bg isb g) me st.
Proof. by intros [? ? ? ? ? ?]; split. Qed.

Lemma raise_top back top : NoDup (Spec.slots (back ++ [top])) ->
  Spec.raise (e_slot top) (back ++ [top]) = back ++ [top].
Proof.
  intros Hnd. unfold Spec.raise.
  destruct (filter_delete (back ++ [top]) (length back) top) as [-> ->]; [|done|].
  - by rewrite lookup_app_r, Nat.sub_diag by lia.
  - by rewrite delete_middle, app_nil_r.
Qed.
Lemma raise_snoc st e : e ∈ st -> NoDup (Spec.slots st) ->
  exists back, Spec.raise (e_slot e) st = back ++ [e].
Proof.
  intros [k Hk]%list_elem_of_lookup Hnd. unfold Spec.raise.
  destruct (filter_delete st k e Hk Hnd) as [_ ->]. by eexists.
Qed.

(** Memory in which only the drawn position of [e]'s window may have changed. *)
Definition redrawn (um um' : gmap (nat * Z) uobj) (e : entry) : Prop :=
  um' = um \/ exists w, um !! (e_proc e, e_window e) = Some (U_window w) /\ um' = top_drawn um e w.

(** The state in which the handler looks for the clicked widget. *)
Record fronted (g g1 : gstate) (me : nat) (st : list entry) (e : entry) : Prop := mkFronted {
  fr_inv : wm_inv g1 me (Spec.raise (e_slot e) st);
  fr_idle : idle g1;
  fr_x : x_position (g_mouse g1) = x_position (g_mouse g);
  fr_y : y_position (g_mouse g1) = y_position (g_mouse g);
  fr_cr3 : cr3 (g_cpu g1) = Some (e_proc e);
  fr_mem : redrawn (g_umem g) (g_umem g1) e;
  fr_locks : g_locks g1 = g_locks g }.

(** [focusDismiss(); switchuvm(owner)] with no focused icon. *)
Lemma dismiss_switch g me back top i :
  wm_inv g me (back ++ [top]) -> idle g -> i ∈ pgdirs (g_cpu g) ->
  exists isb, (focusDismiss ;;; switchuvm (Some i)) g =
      Ok (tt, set_focus 0 (background g) isb (drawn g (g_vram g) (Some i))) /\
    forall k, isb k = 0.
Proof.
  intros Hinv Hidle Hi.
  destruct (focusDismiss_idle g me back top (inv_ready _ _ _ _ Hinv) (inv_gui _ _ _ Hinv) Hidle)
    as (isb & E & H0).
  exists isb. split; [|done]. rewrite (bind_Ok _ _ _ _ _ E).
  pose proof (switchuvm_run (set_focus 0 (background g) isb g) me (inv_proc _ _ _ Hinv) i
    (g_vram g) (Some me) Hi) as Hs. exact Hs.
Qed.

(** Lines 146-151. *)
Lemma bring_to_front g me st e top :
  wm_inv g me st -> idle g -> e ∈ st -> last st = Some top -> e <> top ->
  exists g1, (focusDismiss ;;; reorderQueue (Line (e_slot e)) ;;;
              n <- node (Line (e_slot e)) ;; switchuvm (wq_proc n)) g = Ok (tt, g1) /\
    fronted g g1 me st e.
Proof.
  intros Hinv Hidle He Htop Hne.
  pose proof Htop as [back ->]%last_Some.
  destruct (focusDismiss_idle g me back top (inv_ready _ _ _ _ Hinv) (inv_gui _ _ _ Hinv) Hidle)
    as (isb & E & H0).
  rewrite (bind_Ok _ _ _ _ _ E). set (g0 := set_focus _ _ _ _).
  assert (Hinv0 : wm_inv g0 me (back ++ [top])) by by apply inv_focus, inv_drawn.
  destruct (reorderQueue_refines g0 me (back ++ [top]) e top Hinv0 He Htop Hne)
    as (g1 & q & w & Hrun & Hinv1 & Hrp & _).
  rewrite (bind_Ok _ _ _ _ _ Hrun).
  destruct (raise_snoc _ e He (rep_nodup _ _ (inv_rep _ _ _ Hinv))) as [back' Hr].
  rewrite Hr in Hinv1.
  destruct (top_node _ _ _ _ (inv_ready _ _ _ _ Hinv1)) as (nx & pv & Hn).
  rewrite (bind_Ok _ _ _ _ _ (node_run _ _ _ Hn)). cbn [wq_proc].
  destruct (top_paintable _ _ _ _ (inv_ready _ _ _ _ Hinv1)) as [Hp _].
  exists (drawn g1 (g_vram g1) (Some (e_proc e))). split.
  { rewrite (drawn_id g1) at 1. by apply (switchuvm_run g1 me (inv_proc _ _ _ Hinv1)). }
  destruct Hrp as [Hw Hum Hwq Hlk Hcpu Hms Hx Hy Hf Hb]. split; try done.
  - rewrite Hr. by apply inv_drawn.
  - split; [done|]. intros k. cbn [isBg drawn set_cpu set_vram]. rewrite Hb. apply H0.
  - right. by exists w.
Qed.

(** Lines 146-151 whether or not the window is already on top. *)
Lemma click_front g me st e :
  wm_inv g me st -> idle g -> e ∈ st -> e_slot e <> 0 \/ last st = Some e ->
  exists g1,
    (if bool_decide (Some (Line (e_slot e)) <> lastWindow (g_wq g))
        && bool_decide (Line (e_slot e) <> Line 0)
     then focusDismiss ;;; reorderQueue (Line (e_slot e)) ;;;
          n <- node (Line (e_slot e)) ;; switchuvm (wq_proc n)
     else ret tt) (drawn g (g_vram g) (Some (e_proc e))) = Ok (tt, g1) /\
    fronted g g1 me st e.
Proof.
  intros Hinv Hidle He Hor. pose proof (inv_rep _ _ _ Hinv) as Hrep.
  destruct (last st) as [top|] eqn:Htop; cycle 1.
  { apply last_None in Htop. subst st. by apply elem_of_nil in He. }
  assert (Hlast : lastWindow (g_wq g) = Some (Line (e_slot top))).
  { rewrite (rep_last _ _ Hrep). by apply last_path_Line. }
  rewrite Hlast. destruct (decide (e = top)) as [->|Hne].
  - rewrite bool_decide_eq_false_2 by (intros H; by apply H). simpl.
    eexists. split; [reflexivity|]. pose proof Htop as [back ->]%last_Some.
    split; try done.
    + rewrite raise_top by apply (rep_nodup _ _ Hrep). by apply inv_drawn.
    + by left.
  - assert (e_slot e <> 0) by (destruct Hor; [done | congruence]).
    rewrite (bool_decide_eq_true_2 (Line _ <> Line 0)) by congruence.
    rewrite bool_decide_eq_true_2.
    + destruct (bring_to_front (drawn g (g_vram g) (Some (e_proc e))) me st e top)
        as (g1 & E & [? ? ? ? ? ? ?]); [by apply inv_drawn | done | done | done | done |].
      exists g1. by split.
    + intros Heq. simplify_eq. apply Hne. apply (slot_inj st); try done.
      * apply (rep_nodup _ _ Hrep).
      * by apply last_elem.
Qed.

(** What a click does to the object of a button or an image. *)
Definition click_target (wd : Widget) : option Z := match wd with W_button p | W_imageView p => Some p | _ => None end.
Definition triggered_object (wd : Widget) (o : uobj) : option uobj :=
  match wd, o with
  | W_button _, U_button b => Some (U_button (Button.set_triggered 1 b))
  | W_imageView _, U_imageView v => Some (U_imageView (ImageView.set_triggered 1 v))
  | _, _ => None
  end.

(** Marking it keeps every window paintable. *)
Section Trigger.
Variables (um : gmap (nat * Z) uobj) (k : nat * Z) (wd : Widget) (o o' : uobj).
Hypotheses (Ho : um !! k = Some o) (Ho' : triggered_object wd o = Some o').
Let um' := <[k := o']> um.

Lemma trigger_other j x :
  um !! j = Some x -> (forall b, x <> U_button b) -> (forall v, x <> U_imageView v) -> um' !! j = Some x.
Proof using Ho Ho'.
  intros Hj Hb Hv. subst um'. rewrite lookup_insert_ne; [done|]. intros ->.
  rewrite Ho in Hj. simplify_eq. destruct wd, x; cbn in Ho'; try done; [by eapply Hb|by eapply Hv].
Qed.
Lemma trigger_image i p : (exists px, um !! (i, p) = Some (U_image px)) -> exists px, um' !! (i, p) = Some (U_image px).
Proof using Ho Ho'. intros [px Hpx]. exists px. by apply trigger_other. Qed.
Lemma trigger_button_at j b : um !! j = Some (U_button b) ->
  exists b', um' !! j = Some (U_button b') /\ Button.text b' = Button.text b /\ Button.image b' = Button.image b.
Proof using Ho Ho'.
  intros Hj. subst um'. destruct (decide (k = j)) as [<-|Hne]; [|exists b; by rewrite lookup_insert_ne].
  rewrite lookup_insert_eq. rewrite Ho in Hj. simplify_eq. destruct wd; cbn in Ho'; simplify_eq. by eexists.
Qed.
Lemma trigger_view_at j v : um !! j = Some (U_imageView v) ->
  exists v', um' !! j = Some (U_imageView v') /\ ImageView.image v' = ImageView.image v.
Proof using Ho Ho'.
  intros Hj. subst um'. destruct (decide (k = j)) as [<-|Hne]; [|exists v; by rewrite lookup_insert_ne].
  rewrite lookup_insert_eq. rewrite Ho in Hj. simplify_eq. destruct wd; cbn in Ho'; simplify_eq. by eexists.
Qed.
Lemma trigger_window_ok i a : window_ok um i a -> window_ok um' i a.
Proof using Ho Ho'.
  intros (H0 & w & Hw & Hcap & Hlen & Hnum & Hwd). split; [done|].
  exists w. split; [by apply trigger_other|]. do 3 (split; [done|]).
  eapply Forall_impl; [exact Hwd|]. intros [p|p|p|p|p|? p]; simpl; try done.
  - intros [l ?]. exists l. by apply trigger_other.
  - intros (t & ? & ?). exists t. by split; [apply trigger_other|].
  - intros (b & Hb & Ht & Himg). destruct (trigger_button_at _ b Hb) as (b' & Hb' & Et & Ei). exists b'. rewrite Et, Ei. split; [done|]. split; [done|].
    destruct Himg as [|Himg]; [by left|]. right. by apply trigger_image.
  - intros (v & px & Hv & Hp). destruct (trigger_view_at _ v Hv) as (v' & Hv' & Ei).
    destruct (trigger_image i (ImageView.image v)) as [px' Hpx']; [by eexists|]. exists v', px'. by rewrite Ei.
  - intros (v & px & ? & ? & ?). exists v, px.
    split; [by apply trigger_other|]. split; [done | by apply trigger_other].
Qed.
End Trigger.

(** The search sees the same widgets before and after the repaint. *)
Lemma top_widget_redrawn um um' e i w x y :
  redrawn um um' e -> um !! (i, e_window e) = Some (U_window w) -> i = e_proc e ->
  exists w', um' !! (i, e_window e) = Some (U_window w') /\
    top_widget um' i w' x y = top_widget um i w x y.
Proof.
  intros [->|(w0 & Hw0 & ->)] Hw ->; [by exists w|].
  assert (w0 = w) as -> by congruence.
  eexists. split; [unfold top_drawn; apply lookup_insert_eq|].
  unfold top_widget. f_equal. unfold window_widgets. cbn [Window.widgetsNum Window.widgets Window.set_last].
  apply list_filter_iff. intros wd.
  assert (Hl : forall k, top_drawn um e w !! k = um !! k \/
    exists w1 w2, um !! k = Some (U_window w1) /\ top_drawn um e w !! k = Some (U_window w2)).
  { intros k. unfold top_drawn. destruct (decide ((e_proc e, e_window e) = k)) as [<-|].
    - right. rewrite lookup_insert_eq. eauto.
    - left. by rewrite lookup_insert_ne. }
  destruct wd as [p|p|p|p|p|? p]; simpl; try done;
    by destruct (Hl (e_proc e, p)) as [->|(? & ? & -> & ->)].
Qed.

(** Lines 157-168 and the switch back, for a button or an image. *)
Lemma click_object_run g me back e wd p o o' :
  wm_inv g me (back ++ [e]) -> idle g -> click_target wd = Some p -> g_umem g !! (e_proc e, p) = Some o ->
  triggered_object wd o = Some o' ->
  exists g', (click_widget (Some wd) (Some (e_proc e)) ;;; switch_back) g = Ok (tt, g') /\
    wm_inv g' me (back ++ [e]) /\
    g_umem g' = <[(e_proc e, p) := o']> (g_umem g) /\
    g_locks g' = g_locks g.
Proof.
  intros Hinv Hidle Hp Ho Ho'. destruct (top_paintable _ _ _ _ (inv_ready _ _ _ _ Hinv)) as [Hpg _].
  destruct (dismiss_switch g me back e (e_proc e) Hinv Hidle Hpg) as (isb & E & H0).
  set (g1 := set_focus 0 (background g) isb (drawn g (g_vram g) (Some (e_proc e)))) in *.
  assert (Hc : cr3 (g_cpu g1) = Some (e_proc e)) by done.
  set (um' := <[(e_proc e, p) := o']> (g_umem g)).
  set (g2 := set_umem um' (set_focus 0 (background g) isb g)).
  assert (Hinv2 : wm_inv g2 me (back ++ [e])).
  { destruct Hinv as [? ? ? ? ? Hws]. split; try done.
    eapply Forall_impl; [exact Hws|]. intros e' [? ?]. split; [done|]. by apply (trigger_window_ok _ _ wd o). }
  exists (drawn g2 (g_vram g) (Some me)). split; [|split; [by apply inv_drawn | done]].
  assert (Hst : ustore p o' g1 = Ok (tt, set_umem um' g1)).
  { unfold ustore. rewrite Hc. cbn [g_umem set_focus drawn set_cpu set_vram g1]. by rewrite Ho. }
  transitivity ((ustore p o' ;;; switch_back) g1).
  - apply bind_inv in E as (x & g' & E1 & E2). destruct wd; cbn in Hp; simplify_eq; destruct o; cbn in Ho'; simplify_eq; cbn [click_widget];
      rewrite bind_assoc, (bind_Ok _ _ _ _ _ E1), bind_assoc, (bind_Ok _ _ _ _ _ E2);
      [unfold trigger_button, load_button | unfold trigger_imageView, load_imageView]; rewrite bind_assoc;
      (erewrite bind_Ok; [reflexivity | by rewrite (load_run _ (e_proc e) _ _ _ Hc Ho)]).
  - rewrite (bind_Ok _ _ _ _ _ Hst).
    apply (switch_back_run g2 me (inv_proc _ _ _ Hinv2) (inv_me _ _ _ Hinv2) (g_vram g) (Some (e_proc e))).
Qed.

Lemma topmost_elem um x y st e : topmost um x y st = Some e -> e ∈ st.
Proof. unfold topmost. by intros [_ H]%last_elem%list_elem_of_filter. Qed.

(** The whole handler, with the memory it leaves. *)
Lemma left_click_run g me st e w wd p o o' :
  wm_inv g me st -> idle g ->
  topmost (g_umem g) (x_position (g_mouse g)) (y_position (g_mouse g)) st = Some e ->
  e_slot e <> 0 \/ last st = Some e ->
  g_umem g !! (e_proc e, e_window e) = Some (U_window w) ->
  top_widget (g_umem g) (e_proc e) w (x_position (g_mouse g)) (y_position (g_mouse g)) = Some wd ->
  click_target wd = Some p -> g_umem g !! (e_proc e, p) = Some o -> triggered_object wd o = Some o' ->
  exists g' um, handleLeftClick g = Ok (tt, g') /\
    wm_inv g' me (Spec.raise (e_slot e) st) /\ redrawn (g_umem g) um e /\
    g_umem g' = <[(e_proc e, p) := o']> um /\ g_locks g' = g_locks g.
Proof.
  intros Hinv Hidle Htop Hor Hw Hwd Hp Ho Ho'.
  pose proof (topmost_elem _ _ _ _ _ Htop) as He.
  unfold handleLeftClick. erewrite bind_Ok; cycle 1.
  { rewrite (getClickedWindowQueue_run g me st _ _ Hinv eq_refl eq_refl), Htop. reflexivity. }
  cbv iota. erewrite bind_Ok; [|reflexivity]. cbn [g_wq drawn set_cpu set_vram].
  replace (bool_decide (Some (Line (e_slot e)) <> lastWindow (g_wq g))
           && bool_decide (Line (e_slot e) = Line 0)) with false; cycle 1.
  { symmetry. apply andb_false_iff. destruct Hor as [Hs|Hs].
    - right. apply bool_decide_eq_false_2. congruence.
    - left. apply bool_decide_eq_false_2. intros H. apply H.
      rewrite (rep_last _ _ (inv_rep _ _ _ Hinv)). symmetry. by apply last_path_Line. }
  cbv iota. destruct (click_front g me st e Hinv Hidle He Hor) as (g1 & E1 & Hf).
  rewrite (bind_Ok _ _ _ _ _ E1). destruct Hf as [Hinv1 Hidle1 Hx Hy Hc Hmem Hlk].
  destruct (raise_snoc st e He (rep_nodup _ _ (inv_rep _ _ _ Hinv))) as [back Hr].
  rewrite Hr in Hinv1 |- *.
  destruct (top_node _ _ _ _ (inv_ready _ _ _ _ Hinv1)) as (nx & pv & Hn).
  rewrite (bind_Ok _ _ _ _ _ (node_run _ _ _ Hn)). cbn [wq_proc wq_window].
  destruct (top_widget_redrawn _ _ e (e_proc e) w (x_position (g_mouse g))
    (y_position (g_mouse g)) Hmem Hw eq_refl) as (w1 & Hw1 & Htw).
  destruct (top_paintable _ _ _ _ (inv_ready _ _ _ _ Hinv1)) as [_ Hok1].
  rewrite (bind_Ok _ _ _ _ _ (getClickedWidget_run g1 (e_proc e) _ w1 Hc Hok1 Hw1)).
  rewrite Hx, Hy, Htw, Hwd.
  assert (Ho1 : g_umem g1 !! (e_proc e, p) = Some o).
  { destruct Hmem as [->|(w0 & Hw0 & ->)]; [done|]. apply top_drawn_other; [done|done|]. by destruct wd, o. }
  destruct (click_object_run g1 me back e wd p o o' Hinv1 Hidle1 Hp Ho1 Ho') as (g2 & E2 & Hinv2 & Hum & Hlk2).
  exists g2, (g_umem g1). split; [exact E2|]. split; [done|]. split; [done|]. split; [done|congruence].
Qed.

(** The desktop stays at the back: clicking the window in slot 0 while
    another window is on top changes neither the stack nor any memory. *)
Lemma left_click_desktop g me st e top :
  wm_inv g me st -> e_slot e = 0 -> last st = Some top -> e_slot top <> 0 ->
  topmost (g_umem g) (x_position (g_mouse g)) (y_position (g_mouse g)) st = Some e ->
  exists g', handleLeftClick g = Ok (tt, g') /\ g' = set_cpu (g_cpu g') g /\
    g_cpu g' = mkCpu (Some me) (Some me) (pgdirs (g_cpu g)).
Proof.
  intros Hinv Hs Hlast Hne Htop. unfold handleLeftClick. erewrite bind_Ok; cycle 1.
  { rewrite (getClickedWindowQueue_run g me st _ _ Hinv eq_refl eq_refl), Htop. reflexivity. }
  cbv iota. erewrite bind_Ok; [|reflexivity]. cbn [g_wq drawn set_cpu set_vram].
  rewrite (rep_last _ _ (inv_rep _ _ _ Hinv)), (last_path_Line _ _ Hlast), Hs.
  rewrite !bool_decide_eq_true_2 by congruence. simpl andb. cbv iota.
  eexists. split.
  - apply (switch_back_run g me (inv_proc _ _ _ Hinv) (inv_me _ _ _ Hinv)).
  - split; [by destruct g|]. simpl. by rewrite (inv_proc _ _ _ Hinv).
Qed.

Lemma slot0_or_raised st e :
  (e_slot e = 0 /\ last st <> Some e) \/ (e_slot e <> 0 \/ last st = Some e).
Proof.
  destruct (decide (e_slot e = 0)); [|by right; left].
  destruct (decide (last st = Some e)); [by right; right | by left].
Qed.

(** The same for any window in slot 0 that is not on top. *)
Lemma left_click_behind g me st e :
  wm_inv g me st -> e_slot e = 0 -> last st <> Some e ->
  topmost (g_umem g) (x_position (g_mouse g)) (y_position (g_mouse g)) st = Some e ->
  exists g', handleLeftClick g = Ok (tt, g') /\ g' = set_cpu (g_cpu g') g /\ wm_inv g' me st.
Proof.
  intros Hinv Hs Hb Htop. pose proof (topmost_elem _ _ _ _ _ Htop) as He.
  destruct (last st) as [top|] eqn:Hlast; cycle 1.
  { apply last_None in Hlast. subst st. by apply elem_of_nil in He. }
  destruct (left_click_desktop g me st e top) as (g' & E & Hg & Hc); try done.
  { intros H0. apply Hb. f_equal. apply (slot_inj st); try done; try congruence.
    - apply (rep_nodup _ _ (inv_rep _ _ _ Hinv)).
    - by apply last_elem. }
  exists g'. split; [done|]. split; [done|]. rewrite Hg, Hc.
  rewrite <- (inv_proc _ _ _ Hinv) at 1. by apply (inv_drawn g me st (g_vram g) (Some me)).
Qed.

(** C10 A click reaches the program, end to end.  Let no icon be focused, and let
    the topmost widget, at the pointer, of the topmost window under the pointer
    be a button or an image (such as the cross that closes a window).  Then
    [handleLeftClick] returns and leaves no lock held.  When that window is the
    one in slot 0, the desktop, and another window is on top, nothing happens:
    the desktop is not raised and no memory, queue or picture changes.
    Otherwise that window is now on top of the stack (all others keeping their
    order), the handler of the widget is marked triggered in its owner's memory,
    and the queue and all windows are still well formed. *)
Theorem left_click_widget g me st e w wd p o o' :
  wm_inv g me st -> idle g ->
  topmost (g_umem g) (x_position (g_mouse g)) (y_position (g_mouse g)) st = Some e ->
  g_umem g !! (e_proc e, e_window e) = Some (U_window w) ->
  top_widget (g_umem g) (e_proc e) w (x_position (g_mouse g)) (y_position (g_mouse g)) = Some wd ->
  click_target wd = Some p -> g_umem g !! (e_proc e, p) = Some o -> triggered_object wd o = Some o' ->
  exists g', handleLeftClick g = Ok (tt, g') /\ g_locks g' = g_locks g /\
    (e_slot e = 0 /\ last st <> Some e ->
       g' = set_cpu (g_cpu g') g /\ wm_inv g' me st) /\
    (e_slot e <> 0 \/ last st = Some e ->
       wm_inv g' me (Spec.raise (e_slot e) st) /\ g_umem g' !! (e_proc e, p) = Some o').
Proof.
  intros Hinv Hidle Htop Hw Hwd Hp Ho Ho'.
  destruct (slot0_or_raised st e) as [[H0 Hb]|Hor].
  - destruct (left_click_behind g me st e Hinv H0 Hb Htop) as (g' & E & Hg & Hi).
    exists g'. split; [done|]. split; [by rewrite Hg|]. split; [done|]. by intros [].
  - destruct (left_click_run g me st e w wd p o o') as (g' & um & E & Hi & _ & Hum & Hlk); try done.
    exists g'. split; [done|]. split; [done|]. split; [by intros [? ?]; destruct Hor|].
    intros _. split; [done|]. rewrite Hum. apply lookup_insert_eq.
Qed.
