(* ===== verification/Kbd.v ===== *)
(** * Kbd: the keyboard driver and text boxes (src/src/kbd.c, kbd.h)

    The scan-code machine with its modifier state, and the editing of the
    text box of the top window.  The text of a box is a C array of 256
    characters; an access outside it is a fault. *)
From S2P Require Import Prelude Font GuiState Draw Gui WindowQueue.

(** ** Editing a text box *)

(** [for (i = len; i > pos; i--) text[i] = text[i - 1];] with [k = len - pos]. *)
Fixpoint shift_right (k : nat) (pos : Z) (t : list Z) : option (list Z) :=
  match k with
  | O => Some t
  | S k' =>
      v ← arr_get t (pos + Z.of_nat k - 1);
      t' ← arr_set t (pos + Z.of_nat k) v;
      shift_right k' pos t'
  end.
(** [for (i = lo; i < len; i++) text[i] = text[i + 1];] with [k = len - lo]. *)
Fixpoint shift_left (k : nat) (lo : Z) (t : list Z) : option (list Z) :=
  match k with
  | O => Some t
  | S k' =>
      v ← arr_get t (lo + 1);
      t' ← arr_set t lo v;
      shift_left k' (lo + 1) t'
  end.

Definition insertText (b : TextBox.t) (ch : Z) : option TextBox.t :=
  let pos := TextBox.cursor b in
  let len := TextBox.textLength b + 1 in
  t ← shift_right (Z.to_nat (len - pos)) pos (TextBox.text b);
  t ← arr_set t (if len >? pos then pos else len) (schar ch);
  Some (TextBox.set_text t (TextBox.set_textLength len (TextBox.set_cursor (pos + 1) b))).

(** [None] inside [Some] when nothing is deleted. *)
Definition deleteText (b : TextBox.t) : option (option TextBox.t) :=
  let pos := TextBox.cursor b in
  let len := TextBox.textLength b in
  if pos =? 0 then Some None
  else
    t ← shift_left (Z.to_nat (len - (pos - 1))) (pos - 1) (TextBox.text b);
    Some (Some (TextBox.set_text t
      (TextBox.set_textLength (len - 1) (TextBox.set_cursor (pos - 1) b)))).

(** Lines 69-76 and 92-99: from [i] back to a newline; the index where the
    scan stops (-1 at the start of the text) and the characters passed. *)
Fixpoint scan_back (n : nat) (i lineIndex : Z) (t : list Z) : option (Z * Z) :=
  match n with
  | O => Some (i, lineIndex)
  | S n' =>
      c ← arr_get t i;
      if c =? 10 then Some (i, lineIndex) else scan_back n' (i - 1) (lineIndex + 1) t
  end.
(** Lines 100-106: [inl j] at a newline or at the end, [inr tt] at a NUL. *)
Fixpoint scan_newline (n : nat) (j : Z) (t : list Z) : option (Z + unit) :=
  match n with
  | O => Some (inl j)
  | S n' =>
      c ← arr_get t j;
      if c =? 10 then Some (inl j) else if c =? 0 then Some (inr tt)
      else scan_newline n' (j + 1) t
  end.
(** Lines 107-111. *)
Fixpoint scan_line_end (n : nat) (i : Z) (t : list Z) : option Z :=
  match n with
  | O => Some i
  | S n' =>
      c ← arr_get t i;
      if (c =? 10) || (c =? 0) then Some i else scan_line_end n' (i + 1) t
  end.

(** Lines 67-89: the new cursor, [None] inside when the cursor is in the
    first line. *)
Definition cursor_up (b : TextBox.t) : option (option Z) :=
  let t := TextBox.text b in
  '(i, lineIndex) ← scan_back (Z.to_nat (TextBox.cursor b)) (TextBox.cursor b - 1) 0 t;
  if i =? -1 then Some None
  else
    '(j, _) ← scan_back (Z.to_nat i) (i - 1) 0 t;
    Some (Some (if i <? j + 1 + lineIndex then i else j + 1 + lineIndex)).
(** Lines 90-117. *)
Definition cursor_down (b : TextBox.t) : option (option Z) :=
  let t := TextBox.text b in
  let len := TextBox.textLength b in
  '(i, lineIndex) ← scan_back (Z.to_nat (TextBox.cursor b)) (TextBox.cursor b - 1) 0 t;
  r ← scan_newline (Z.to_nat (len + 1 - (i + 1))) (i + 1) t;
  match r with
  | inr _ => Some None
  | inl j =>
      i ← scan_line_end (Z.to_nat (len + 1 - (j + 1))) (j + 1) t;
      Some (Some (if i <? j + 1 + lineIndex then i else j + 1 + lineIndex))
  end.

(** The new box, if the key changes it and the window is redrawn. *)
Definition moveText (b : TextBox.t) (ch : Z) : option (option TextBox.t) :=
  if TextBox.textLength b =? 0 then Some None
  else if ch =? 228 then
    Some (Some (if TextBox.cursor b >? 0 then TextBox.set_cursor (TextBox.cursor b - 1) b else b))
  else if ch =? 229 then
    c ← arr_get (TextBox.text b) (TextBox.cursor b);
    Some (if negb (c =? 0) && negb (c =? 10)
          then Some (TextBox.set_cursor (TextBox.cursor b + 1) b) else None)
  else if ch =? 226 then
    r ← cursor_up b; Some (match r with Some c => Some (TextBox.set_cursor c b) | None => None end)
  else if ch =? 227 then
    r ← cursor_down b; Some (match r with Some c => Some (TextBox.set_cursor c b) | None => None end)
  else Some None.

(** Lines 135-141 on the contents of the box. *)
Definition editKey (b : TextBox.t) (ch : Z) : option (option TextBox.t) :=
  if (ch <? 225) && negb (ch =? 8) then b' ← insertText b ch; Some (Some b')
  else if ch =? 8 then deleteText b
  else if (ch =? 226) || (ch =? 227) || (ch =? 228) || (ch =? 229) then moveText b ch
  else Some None.

(** ** The same on the box at user address [a] *)
Definition store_and_redraw (a : Z) (r : option TextBox.t) : G unit :=
  match r with
  | None => ret tt
  | Some b => ustore a (U_textBox b) ;;; updateLastWindow
  end.
Definition insertCharacter (a ch : Z) : G unit :=
  b <- load_textBox a ;; b' <- of_option (insertText b ch) ;; store_and_redraw a (Some b').
Definition deleteCharacter (a : Z) : G unit :=
  b <- load_textBox a ;; r <- of_option (deleteText b) ;; store_and_redraw a r.
Definition moveCursor (a ch : Z) : G unit :=
  b <- load_textBox a ;; r <- of_option (moveText b ch) ;; store_and_redraw a r.

(** Lines 125-132: the first text box of the window. *)
Fixpoint first_textBox (l : list Z) (w : Window.t) : G Z :=
  match l with
  | [] => ret 0
  | k :: l' =>
      wd <- widget_at w k ;;
      match wd with W_textBox p => ret p | _ => first_textBox l' w end
  end.

Definition keyboardHandler (ch : Z) : G unit :=
  last <- gets (fun g => lastWindow (g_wq g)) ;;
  n <- deref last ;;
  switchuvm (wq_proc n) ;;;
  w <- load_window (wq_window n) ;;
  textbox <- first_textBox (seqZ 0 (Window.widgetsNum w)) w ;;
  (if textbox =? 0 then ret tt
   else
     (if (ch <? 225) && negb (ch =? 8) then insertCharacter textbox ch
      else if ch =? 8 then deleteCharacter textbox else ret tt) ;;;
     (if (ch =? 226) || (ch =? 227) || (ch =? 228) || (ch =? 229)
      then moveCursor textbox ch else ret tt)) ;;;
  switch_back.

(** ** kbd.h *)
Definition SHIFT : Z := 1.
Definition CTL : Z := 2.
Definition ALT : Z := 4.
Definition CAPSLOCK : Z := 8.
Definition NUMLOCK : Z := 16.
Definition SCROLLLOCK : Z := 32.
Definition E0ESC : Z := 64.
Definition KEY_UP : Z := 0xE2.
Definition KEY_DN : Z := 0xE3.
Definition KEY_LF : Z := 0xE4.
Definition KEY_RT : Z := 0xE5.

(** No character for this key. *)
Definition NO : Z := 0.

(** Designated initialisers; every other entry is 0. *)
Fixpoint table (l : list (Z * Z)) (i : Z) : Z :=
  match l with
  | [] => 0
  | (k, v) :: l' => if i =? k then v else table l' i
  end.
Definition shiftcode : Z -> Z :=
  table [(0x1D, CTL); (0x2A, SHIFT); (0x36, SHIFT); (0x38, ALT); (0x9D, CTL); (0xB8, ALT)].
Definition togglecode : Z -> Z :=
  table [(0x3A, CAPSLOCK); (0x45, NUMLOCK); (0x46, SCROLLLOCK)].
Definition normalmap_low : list Z := [
  NO; 0x1B; 0x31; 0x32; 0x33; 0x34; 0x35; 0x36;
  0x37; 0x38; 0x39; 0x30; 0x2D; 0x3D; 0x08; 0x09;
  0x71; 0x77; 0x65; 0x72; 0x74; 0x79; 0x75; 0x69;
  0x6F; 0x70; 0x5B; 0x5D; 0x0A; NO; 0x61; 0x73;
  0x64; 0x66; 0x67; 0x68; 0x6A; 0x6B; 0x6C; 0x3B;
  0x27; 0x60; NO; 0x5C; 0x7A; 0x78; 0x63; 0x76;
  0x62; 0x6E; 0x6D; 0x2C; 0x2E; 0x2F; NO; 0x2A;
  NO; 0x20; NO; NO; NO; NO; NO; NO;
  NO; NO; NO; NO; NO; NO; NO; 0x37;
  0x38; 0x39; 0x2D; 0x34; 0x35; 0x36; 0x2B; 0x31;
  0x32; 0x33; 0x30; 0x2E; NO; NO; NO; NO].
Definition normalmap_high : list (Z * Z) :=
  [(0x9C, 0x0A); (0xB5, 0x2F); (0xC8, 0xE2); (0xD0, 0xE3); (0xC9, 0xE6); (0xD1, 0xE7); (0xCB, 0xE4); (0xCD, 0xE5); (0x97, 0xE0); (0xCF, 0xE1); (0xD2, 0xE8); (0xD3, 0xE9)].
Definition normalmap (i : Z) : Z :=
  match normalmap_low !! Z.to_nat i with Some c => c | None => table normalmap_high i end.
Definition shiftmap_low : list Z := [
  NO; 0x1B; 0x21; 0x40; 0x23; 0x24; 0x25; 0x5E;
  0x26; 0x2A; 0x28; 0x29; 0x5F; 0x2B; 0x08; 0x09;
  0x51; 0x57; 0x45; 0x52; 0x54; 0x59; 0x55; 0x49;
  0x4F; 0x50; 0x7B; 0x7D; 0x0A; NO; 0x41; 0x53;
  0x44; 0x46; 0x47; 0x48; 0x4A; 0x4B; 0x4C; 0x3A;
  0x22; 0x7E; NO; 0x7C; 0x5A; 0x58; 0x43; 0x56;
  0x42; 0x4E; 0x4D; 0x3C; 0x3E; 0x3F; NO; 0x2A;
  NO; 0x20; NO; NO; NO; NO; NO; NO;
  NO; NO; NO; NO; NO; NO; NO; 0x37;
  0x38; 0x39; 0x2D; 0x34; 0x35; 0x36; 0x2B; 0x31;
  0x32; 0x33; 0x30; 0x2E; NO; NO; NO; NO].
Definition shiftmap_high : list (Z * Z) :=
  [(0x9C, 0x0A); (0xB5, 0x2F); (0xC8, 0xE2); (0xD0, 0xE3); (0xC9, 0xE6); (0xD1, 0xE7); (0xCB, 0xE4); (0xCD, 0xE5); (0x97, 0xE0); (0xCF, 0xE1); (0xD2, 0xE8); (0xD3, 0xE9)].
Definition shiftmap (i : Z) : Z :=
  match shiftmap_low !! Z.to_nat i with Some c => c | None => table shiftmap_high i end.
Definition ctlmap_low : list Z := [
  NO; NO; NO; NO; NO; NO; NO; NO;
  NO; NO; NO; NO; NO; NO; NO; NO;
  0x11; 0x17; 0x05; 0x12; 0x14; 0x19; 0x15; 0x09;
  0x0F; 0x10; NO; NO; 0x0D; NO; 0x01; 0x13;
  0x04; 0x06; 0x07; 0x08; 0x0A; 0x0B; 0x0C; NO;
  NO; NO; NO; 0x1C; 0x1A; 0x18; 0x03; 0x16;
  0x02; 0x0E; 0x0D; NO; NO; 0xEF; NO; NO].
Definition ctlmap_high : list (Z * Z) :=
  [(0x9C, 0x0D); (0xB5, 0xEF); (0xC8, 0xE2); (0xD0, 0xE3); (0xC9, 0xE6); (0xD1, 0xE7); (0xCB, 0xE4); (0xCD, 0xE5); (0x97, 0xE0); (0xCF, 0xE1); (0xD2, 0xE8); (0xD3, 0xE9)].
Definition ctlmap (i : Z) : Z :=
  match ctlmap_low !! Z.to_nat i with Some c => c | None => table ctlmap_high i end.

(** [charcode[shift & (CTL | SHIFT)]] *)
Definition charcode (i data : Z) : Z :=
  if i =? 0 then normalmap data else if i =? 1 then shiftmap data else ctlmap data.

(** ** Scan codes (lines 156-183)

    [shift] and [data] give the new [shift] and the character to handle; [None]
    when the interrupt handler returns before it has one. *)
Definition kbd_decode (shift data : Z) : Z * option Z :=
  if data =? 0xE0 then (Z.lor shift E0ESC, None)
  else if negb (Z.land data 0x80 =? 0) then
    let data := if Z.land shift E0ESC =? 0 then Z.land data 0x7F else data in
    (Z.land shift (u32 (Z.lnot (Z.lor (shiftcode data) E0ESC))), None)
  else
    let '(data, shift) :=
      if Z.land shift E0ESC =? 0 then (data, shift)
      else (Z.lor data 0x80, Z.land shift (u32 (Z.lnot E0ESC))) in
    let shift := Z.lor shift (shiftcode data) in
    let shift := Z.lxor shift (togglecode data) in
    let c := charcode (Z.land shift (Z.lor CTL SHIFT)) data in
    let c :=
      if Z.land shift CAPSLOCK =? 0 then c
      else if (97 <=? c) && (c <=? 122) then u32 (c + (65 - 97))
      else if (65 <=? c) && (c <=? 90) then u32 (c + (97 - 65))
      else c in
    (shift, Some c).

(** [st] and [data] are what [inb(KBSTATP)] and [inb(KBDATAP)] return. *)
Definition kbdintr (st data : Z) : G unit :=
  if Z.land st 1 =? 0 then ret tt
  else
    g <- get ;;
    let '(shift, c) := kbd_decode (g_shift g) data in
    modify (set_shift shift) ;;;
    match c with
    | Some c => if truthy c then keyboardHandler (u8 c) else ret tt
    | None => ret tt
    end.
