(* ===== verification/KbdFacts.v ===== *)
(** * KbdFacts: text boxes as a text with a cursor; scan codes

    A text box refines a pair of strings, the text before and after the
    cursor.  The editing loops of kbd.c insert, delete and move in it; the
    array holds 255 characters and one more is written outside it. *)
From S2P Require Import Prelude Font GuiState Draw DrawFacts Gui WindowQueue Kbd.

(** Arithmetic on the lengths of concatenated lists. *)
Ltac lengths := do 4 (rewrite ?length_app in *; simpl in *); lia.

(** ** Arrays *)
Section Arrays.
Implicit Types (l r t : list Z) (x v : Z).

(** The loops of [insertCharacter] and [deleteCharacter] on a split array. *)
Lemma shift_right_spec l m : forall c r,
  shift_right (length m) (Z.of_nat (length l)) (l ++ m ++ c :: r) =
    Some (l ++ (default c (head m)) :: m ++ r).
Proof.
  induction m as [|v m IH] using rev_ind; intros c r; [done|].
  rewrite length_app. simpl. rewrite Nat.add_1_r. cbn [shift_right].
  replace (Z.of_nat (length l) + Z.of_nat (S (length m)) - 1)
    with (Z.of_nat (length (l ++ m))) by (rewrite length_app; lia).
  replace (l ++ (m ++ [v]) ++ c :: r) with ((l ++ m) ++ v :: c :: r)
    by (rewrite <- !(assoc_L (++)); done).
  rewrite arr_get_app. simpl.
  replace (Z.of_nat (length l) + Z.of_nat (S (length m)))
    with (Z.of_nat (length ((l ++ m) ++ [v]))) by (rewrite !length_app; simpl; lia).
  replace ((l ++ m) ++ v :: c :: r) with (((l ++ m) ++ [v]) ++ c :: r)
    by (rewrite <- !(assoc_L (++)); done).
  rewrite arr_set_app. simpl. rewrite <- !(assoc_L (++)). simpl. rewrite IH.
  do 2 f_equal. destruct m; simpl; f_equal.
Qed.

Lemma shift_left_spec m : forall l x r,
  shift_left (length m) (Z.of_nat (length l)) (l ++ x :: m ++ r) =
    Some (l ++ m ++ default x (last m) :: r).
Proof.
  induction m as [|v m IH]; intros l x r; [done|]. cbn [shift_left length].
  replace (Z.of_nat (length l) + 1) with (Z.of_nat (length (l ++ [x])))
    by (rewrite length_app; simpl; lia).
  replace (l ++ x :: (v :: m) ++ r) with ((l ++ [x]) ++ v :: m ++ r)
    by (rewrite <- (assoc_L (++)); done).
  rewrite arr_get_app. simpl.
  replace ((l ++ [x]) ++ v :: m ++ r) with (l ++ x :: v :: m ++ r)
    by (rewrite <- (assoc_L (++)); done).
  rewrite arr_set_app. simpl.
  replace (length (l ++ [x])) with (length (l ++ [v])) by by rewrite !length_app.
  replace (l ++ v :: v :: m ++ r) with ((l ++ [v]) ++ v :: m ++ r)
    by (rewrite <- (assoc_L (++)); done).
  rewrite IH. rewrite <- (assoc_L (++)). simpl. do 4 f_equal.
  rewrite last_cons. by destruct (last m).
Qed.
End Arrays.

(** ** The text and the cursor *)

(** [b] holds the text [bef ++ aft] with the cursor in between. *)
Definition holds (b : TextBox.t) (bef aft : list Z) : Prop :=
  (exists rest, TextBox.text b = bef ++ aft ++ 0 :: rest) /\
  length (TextBox.text b) = Z.to_nat MAX_STRING_NUM /\
  TextBox.cursor b = Z.of_nat (length bef) /\
  TextBox.textLength b = Z.of_nat (length (bef ++ aft)) /\
  Forall (fun c => c <> 0) (bef ++ aft).

Lemma schar_nonzero ch : 0 < ch < 256 -> schar ch <> 0.
Proof.
  intros H. unfold schar. Z.to_euclidean_division_equations. lia.
Qed.

Lemma insertText_holds b bef aft ch :
  holds b bef aft -> (length (bef ++ aft) < 255)%nat -> 0 < ch < 256 ->
  exists b', insertText b ch = Some b' /\ holds b' (bef ++ [schar ch]) aft.
Proof.
  unfold holds, MAX_STRING_NUM. intros ((rest & Ht) & Hlen & Hc & Hl & Hnz) Hroom Hch.
  unfold insertText. rewrite Hc, Hl, Ht.
  rewrite Ht, !length_app in Hlen. simpl in Hlen. rewrite length_app in Hroom |- *.
  destruct rest as [|c rest]; [simpl in Hlen; lia|].
  replace (Z.to_nat _) with (length (aft ++ [0])) by (rewrite length_app; simpl; lia).
  replace (bef ++ aft ++ 0 :: c :: rest) with (bef ++ (aft ++ [0]) ++ c :: rest)
    by by rewrite <- (assoc_L (++)).
  rewrite shift_right_spec. simpl.
  destruct (Z.gtb_spec (Z.of_nat (length bef + length aft) + 1) (Z.of_nat (length bef))); [|lia].
  rewrite arr_set_app. simpl. eexists. split; [reflexivity|].
  split; [|split; [|split; [|split]]]; cbn [TextBox.text TextBox.cursor TextBox.textLength
    TextBox.set_text TextBox.set_textLength TextBox.set_cursor].
  - exists rest. rewrite <- !(assoc_L (++)). done.
  - lengths.
  - rewrite length_app. simpl. lia.
  - rewrite !length_app. simpl. lia.
  - apply Forall_app in Hnz as [? ?]. rewrite <- (assoc_L (++)). apply Forall_app.
    split; [done|]. constructor; [by apply schar_nonzero | done].
Qed.

Lemma insertText_full b bef aft ch :
  holds b bef aft -> length (bef ++ aft) = 255%nat -> insertText b ch = None.
Proof.
  unfold holds, MAX_STRING_NUM. intros ((rest & Ht) & Hlen & Hc & Hl & Hnz) Hfull.
  unfold insertText. rewrite Hc, Hl, Hfull.
  rewrite length_app in Hfull.
  destruct (Z.to_nat (Z.of_nat 255 + 1 - Z.of_nat (length bef))) as [|k] eqn:Hk; [lia|].
  cbn [shift_right]. destruct (arr_get (TextBox.text b) _); simpl; [|done].
  rewrite arr_set_out; [done|]. rewrite Hlen. lia.
Qed.

Lemma deleteText_holds b bef c aft :
  holds b (bef ++ [c]) aft ->
  exists b', deleteText b = Some (Some b') /\ holds b' bef aft.
Proof.
  unfold holds, MAX_STRING_NUM. intros ((rest & Ht) & Hlen & Hc & Hl & Hnz). unfold deleteText. rewrite Hc, Hl, Ht.
  rewrite Ht in Hlen. rewrite !length_app in *. simpl in *.
  destruct (Z.eqb_spec (Z.of_nat (length bef + 1)) 0); [lia|].
  replace (Z.of_nat (length bef + 1) - 1) with (Z.of_nat (length bef)) by lia.
  replace (Z.to_nat _) with (length (aft ++ [0])) by (rewrite length_app; simpl; lia).
  replace ((bef ++ [c]) ++ aft ++ 0 :: rest) with (bef ++ c :: (aft ++ [0]) ++ rest)
    by by rewrite <- !(assoc_L (++)).
  rewrite shift_left_spec, last_snoc. simpl. eexists. split; [reflexivity|].
  split; [|split; [|split; [|split]]]; cbn [TextBox.text TextBox.cursor TextBox.textLength
    TextBox.set_text TextBox.set_textLength TextBox.set_cursor].
  - exists (0 :: rest). by rewrite <- !(assoc_L (++)).
  - lengths.
  - done.
  - lia.
  - rewrite <- (assoc_L (++)) in Hnz. apply Forall_app in Hnz as [? Hnz].
    apply Forall_app. split; [done|]. simpl in Hnz. by apply Forall_cons in Hnz as [_ ?].
Qed.

(** ** Scanning for lines *)
Definition no_newline (l : list Z) : Prop := Forall (fun c => c <> 10) l.
(** [p] ends where a line begins. *)
Definition line_start (p : list Z) : Prop := p = [] \/ last p = Some 10.

Lemma scan_back_spec p m : no_newline m -> line_start p -> forall r li,
  scan_back (length (p ++ m)) (Z.of_nat (length (p ++ m)) - 1) li (p ++ m ++ r) =
    Some (Z.of_nat (length p) - 1, li + Z.of_nat (length m)).
Proof.
  intros Hm Hp. induction m as [|c m IH] using rev_ind; intros r li.
  - rewrite app_nil_r. simpl. rewrite Z.add_0_r. destruct Hp as [->|Hp]; [done|].
    apply last_Some in Hp as [p' ->]. rewrite length_app. simpl. rewrite Nat.add_1_r.
    cbn [scan_back]. replace (Z.of_nat (S (length p')) - 1) with (Z.of_nat (length p')) by lia.
    rewrite <- (assoc_L (++)). simpl. rewrite arr_get_app. simpl. do 2 f_equal.
  - apply Forall_app in Hm as [Hm Hc]. apply Forall_cons in Hc as [Hc _].
    rewrite !length_app. simpl. rewrite Nat.add_1_r, Nat.add_succ_r. cbn [scan_back].
    replace (Z.of_nat (S (length p + length m)) - 1) with (Z.of_nat (length (p ++ m)))
      by (rewrite length_app; lia).
    replace (p ++ (m ++ [c]) ++ r) with ((p ++ m) ++ c :: r) by by rewrite <- !(assoc_L (++)).
    rewrite arr_get_app. simpl. destruct (Z.eqb_spec c 10); [done|].
    rewrite <- length_app. rewrite <- (assoc_L (++)). rewrite IH by done. do 2 f_equal. lia.
Qed.

Lemma scan_newline_spec m : Forall (fun c => c <> 10 /\ c <> 0) m -> forall p x r n,
  (length m < n)%nat -> x = 10 \/ x = 0 ->
  scan_newline n (Z.of_nat (length p)) (p ++ m ++ x :: r) =
    Some (if x =? 10 then inl (Z.of_nat (length (p ++ m))) else inr tt).
Proof.
  induction 1 as [|c m [Hc1 Hc2] _ IH]; intros p x r n Hn Hx;
    (destruct n as [|n]; [simpl in *; lia|]); simpl app; cbn [scan_newline]; rewrite arr_get_app; simpl.
  - rewrite app_nil_r. by destruct Hx as [-> | ->].
  - destruct (Z.eqb_spec c 10); [done|]. destruct (Z.eqb_spec c 0); [done|].
    replace (Z.of_nat (length p) + 1) with (Z.of_nat (length (p ++ [c])))
      by (rewrite length_app; simpl; lia).
    replace (p ++ c :: m ++ x :: r) with ((p ++ [c]) ++ m ++ x :: r) by by rewrite <- (assoc_L (++)).
    rewrite IH by (simpl in *; done || lia). by rewrite <- (assoc_L (++)).
Qed.
Lemma scan_line_end_spec m : Forall (fun c => c <> 10 /\ c <> 0) m -> forall p x r n,
  (length m < n)%nat -> x = 10 \/ x = 0 ->
  scan_line_end n (Z.of_nat (length p)) (p ++ m ++ x :: r) = Some (Z.of_nat (length (p ++ m))).
Proof.
  induction 1 as [|c m [Hc1 Hc2] _ IH]; intros p x r n Hn Hx;
    (destruct n as [|n]; [simpl in *; lia|]); simpl app; cbn [scan_line_end]; rewrite arr_get_app; simpl.
  - rewrite app_nil_r. by destruct Hx as [-> | ->].
  - destruct (Z.eqb_spec c 10); [done|]. destruct (Z.eqb_spec c 0); [done|].
    replace (Z.of_nat (length p) + 1) with (Z.of_nat (length (p ++ [c])))
      by (rewrite length_app; simpl; lia).
    replace (p ++ c :: m ++ x :: r) with ((p ++ [c]) ++ m ++ x :: r) by by rewrite <- (assoc_L (++)).
    simpl orb. rewrite IH by (simpl in *; done || lia). by rewrite <- (assoc_L (++)).
Qed.

(** ** Cursor keys *)
Lemma min_if i k : (if i <? k then i else k) = Z.min i k.
Proof. destruct (Z.ltb_spec i k); lia. Qed.

(** The cursor column [col] of the current line, under line [l1]. *)
Lemma cursor_up_spec b pre l1 col aft :
  holds b (pre ++ l1 ++ 10 :: col) aft -> line_start pre -> no_newline l1 -> no_newline col ->
  cursor_up b = Some (Some (Z.of_nat (length pre) +
                            Z.min (Z.of_nat (length l1)) (Z.of_nat (length col)))).
Proof.
  intros ((rest & Ht) & _ & Hc & _ & _) Hpre Hl1 Hcol. unfold cursor_up. rewrite Hc, Ht.
  assert (Hls : line_start (pre ++ l1 ++ [10])).
  { right. rewrite (assoc_L (++)). apply last_snoc. }
  pose proof (scan_back_spec (pre ++ l1 ++ [10]) col Hcol Hls (aft ++ 0 :: rest) 0) as E1.
  replace ((pre ++ l1 ++ [10]) ++ col) with (pre ++ l1 ++ 10 :: col) in E1
    by by rewrite <- !(assoc_L (++)).
  replace ((pre ++ l1 ++ [10]) ++ col ++ aft ++ 0 :: rest)
    with ((pre ++ l1 ++ 10 :: col) ++ aft ++ 0 :: rest) in E1 by by rewrite <- !(assoc_L (++)).
  rewrite Nat2Z.id, E1. cbn [mbind option_bind].
  destruct (Z.eqb_spec (Z.of_nat (length (pre ++ l1 ++ [10])) - 1) (-1)) as [H|_];
    [rewrite !length_app in H; simpl in H; lia|].
  replace (Z.of_nat (length (pre ++ l1 ++ [10])) - 1) with (Z.of_nat (length (pre ++ l1)))
    by (rewrite !length_app; simpl; lia).
  pose proof (scan_back_spec pre l1 Hl1 Hpre (10 :: col ++ aft ++ 0 :: rest) 0) as E2.
  replace (pre ++ l1 ++ 10 :: col ++ aft ++ 0 :: rest)
    with ((pre ++ l1 ++ 10 :: col) ++ aft ++ 0 :: rest) in E2 by by rewrite <- !(assoc_L (++)).
  rewrite Nat2Z.id, E2. cbn [mbind option_bind]. rewrite min_if, length_app. do 2 f_equal. lia.
Qed.

Lemma cursor_down_spec b pre col tl l2 aft :
  holds b (pre ++ col) (tl ++ 10 :: l2 ++ aft) -> line_start pre ->
  no_newline col -> no_newline tl -> no_newline l2 ->
  aft = [] \/ head aft = Some 10 ->
  cursor_down b = Some (Some (Z.of_nat (length (pre ++ col ++ tl)) + 1 +
                              Z.min (Z.of_nat (length l2)) (Z.of_nat (length col)))).
Proof.
  intros ((rest & Ht) & _ & Hc & Hlen & Hnz) Hpre Hcol Htl Hl2 Haft.
  set (t := TextBox.text b) in *. unfold cursor_down. rewrite Hc, Hlen. fold t.
  apply Forall_app in Hnz as [Hnz1 Hnz2]. apply Forall_app in Hnz1 as [_ Hnzc].
  apply Forall_app in Hnz2 as [Hnzt Hnz2]. apply Forall_cons in Hnz2 as [_ Hnz2].
  apply Forall_app in Hnz2 as [Hnzl _].
  assert (Hplain : forall l, no_newline l -> Forall (fun c => c <> 0) l ->
    Forall (fun c => c <> 10 /\ c <> 0) l) by (intros l ??; by apply Forall_and).
  pose proof (scan_back_spec pre col Hcol Hpre ((tl ++ 10 :: l2 ++ aft) ++ 0 :: rest) 0) as E1.
  rewrite (assoc_L (++)), <- Ht in E1. rewrite Nat2Z.id, E1. cbn [mbind option_bind].
  replace (Z.of_nat (length pre) - 1 + 1) with (Z.of_nat (length pre)) by lia.
  replace t with (pre ++ (col ++ tl) ++ 10 :: l2 ++ aft ++ 0 :: rest)
    by (rewrite Ht, <- !(assoc_L (++)); simpl; by rewrite <- !(assoc_L (++))).
  rewrite scan_newline_spec; [|apply Forall_app; auto | lengths | by left]. simpl (10 =? 10).
  cbv iota. cbn [mbind option_bind].
  assert (exists x r, (x = 10 \/ x = 0) /\ aft ++ 0 :: rest = x :: r) as (x & r & Hx & Hr).
  { destruct Haft as [->|Ha]; [eauto|]. destruct aft as [|y aft]; [done|].
    simpl in Ha. simplify_eq. eauto. }
  rewrite Hr.
  replace (Z.of_nat (length (pre ++ col ++ tl)) + 1)
    with (Z.of_nat (length (pre ++ (col ++ tl) ++ [10]))) by lengths.
  replace (pre ++ (col ++ tl) ++ 10 :: l2 ++ x :: r)
    with ((pre ++ (col ++ tl) ++ [10]) ++ l2 ++ x :: r) by by rewrite <- !(assoc_L (++)).
  rewrite scan_line_end_spec; [|by apply Hplain | lengths | done].
  cbn [mbind option_bind]. rewrite min_if. do 2 f_equal. lengths.
Qed.

(** ** The editor a user expects *)

(** [edit ch (bef, aft) (bef', aft')]: the effect of key [ch] on the text
    before and after the cursor. *)
Inductive edit : Z -> list Z * list Z -> list Z * list Z -> Prop :=
| edit_insert ch bef aft :
    0 < ch < 225 -> ch <> 8 -> (length (bef ++ aft) < 255)%nat ->
    edit ch (bef, aft) (bef ++ [schar ch], aft)
| edit_delete bef c aft : edit 8 (bef ++ [c], aft) (bef, aft)
| edit_delete_start aft : edit 8 ([], aft) ([], aft)
| edit_left bef c aft : edit 228 (bef ++ [c], aft) (bef, c :: aft)
| edit_left_start aft : edit 228 ([], aft) ([], aft)
| edit_right bef c aft : c <> 10 -> edit 229 (bef, c :: aft) (bef ++ [c], aft)
| edit_right_stop bef aft : aft = [] \/ head aft = Some 10 -> edit 229 (bef, aft) (bef, aft)
| edit_up pre l1 col aft :
    line_start pre -> no_newline l1 -> no_newline col ->
    let k := Nat.min (length l1) (length col) in
    edit 226 (pre ++ l1 ++ 10 :: col, aft)
      (pre ++ take k l1, drop k l1 ++ 10 :: col ++ aft)
| edit_up_first bef aft : no_newline bef -> edit 226 (bef, aft) (bef, aft)
| edit_down pre col tl l2 aft :
    line_start pre -> no_newline col -> no_newline tl -> no_newline l2 ->
    aft = [] \/ head aft = Some 10 ->
    let k := Nat.min (length l2) (length col) in
    edit 227 (pre ++ col, tl ++ 10 :: l2 ++ aft)
      (pre ++ col ++ tl ++ 10 :: take k l2, drop k l2 ++ aft)
| edit_down_last pre col aft :
    line_start pre -> no_newline col -> no_newline aft ->
    edit 227 (pre ++ col, aft) (pre ++ col, aft)
| edit_other ch z : 225 = ch \/ 229 < ch -> edit ch z z.

Lemma move_holds b bef aft bef' aft' :
  holds b bef aft -> bef ++ aft = bef' ++ aft' ->
  holds (TextBox.set_cursor (Z.of_nat (length bef')) b) bef' aft'.
Proof.
  intros ((rest & Ht) & Hl & Hc & Hlen & Hnz) Heq. split.
  - exists rest. cbn [TextBox.text TextBox.set_cursor]. rewrite Ht.
    rewrite !(assoc_L (++)). by rewrite Heq.
  - rewrite <- Heq. done.
Qed.

Lemma holds_at b bef c aft :
  holds b bef (c :: aft) -> arr_get (TextBox.text b) (TextBox.cursor b) = Some c.
Proof.
  intros ((rest & Ht) & _ & Hc & _). rewrite Hc, Ht. simpl. apply arr_get_app.
Qed.
Lemma holds_end b bef : holds b bef [] -> arr_get (TextBox.text b) (TextBox.cursor b) = Some 0.
Proof.
  intros ((rest & Ht) & _ & Hc & _). rewrite Hc, Ht. simpl. apply arr_get_app.
Qed.
Lemma holds_nonempty b bef aft c : holds b bef aft -> c ∈ bef ++ aft ->
  (TextBox.textLength b =? 0) = false.
Proof.
  intros (_ & _ & _ & Hl & _) Hin. rewrite Hl. apply Z.eqb_neq.
  destruct (bef ++ aft); [by apply elem_of_nil in Hin | simpl; lia].
Qed.

(** The first-line and last-line cases of the scans. *)
Lemma cursor_up_first b bef aft :
  holds b bef aft -> no_newline bef -> cursor_up b = Some None.
Proof.
  intros ((rest & Ht) & _ & Hc & _) Hn. unfold cursor_up. rewrite Hc, Ht.
  pose proof (scan_back_spec [] bef Hn (or_introl eq_refl) (aft ++ 0 :: rest) 0) as E.
  simpl app in E. by rewrite Nat2Z.id, E.
Qed.
Lemma cursor_down_last b pre col aft :
  holds b (pre ++ col) aft -> line_start pre -> no_newline col -> no_newline aft ->
  cursor_down b = Some None.
Proof.
  intros ((rest & Ht) & _ & Hc & Hlen & Hnz) Hpre Hcol Haft.
  set (t := TextBox.text b) in *. unfold cursor_down. rewrite Hc, Hlen. fold t.
  apply Forall_app in Hnz as [Hnz1 Hnz2]. apply Forall_app in Hnz1 as [_ Hnzc].
  pose proof (scan_back_spec pre col Hcol Hpre (aft ++ 0 :: rest) 0) as E1.
  rewrite (assoc_L (++)), <- Ht in E1. rewrite Nat2Z.id, E1. cbn [mbind option_bind].
  replace (Z.of_nat (length pre) - 1 + 1) with (Z.of_nat (length pre)) by lia.
  replace t with (pre ++ (col ++ aft) ++ 0 :: rest) by (rewrite Ht; by rewrite <- !(assoc_L (++))).
  rewrite scan_newline_spec; [done| | lengths | by right].
  apply Forall_app. split; by apply Forall_and.
Qed.

Lemma edit_insert_run b bef aft ch :
  holds b bef aft -> 0 < ch < 225 -> ch <> 8 -> (length (bef ++ aft) < 255)%nat ->
  exists b', editKey b ch = Some (Some b') /\ holds b' (bef ++ [schar ch]) aft.
Proof.
  intros Hh Hch H8 Hroom.
  destruct (insertText_holds b bef aft ch Hh Hroom ltac:(lia)) as (b' & E & Hb').
  exists b'. split; [|done]. unfold editKey.
  destruct (Z.ltb_spec ch 225); [|lia]. destruct (Z.eqb_spec ch 8); [done|].
  simpl. by rewrite E.
Qed.

(** The editing lemmas, one per group of keys. *)
Section Keys.
Variables (b : TextBox.t).
Implicit Types (bef aft pre col tl : list Z).
Definition key_does (ch : Z) (bef aft : list Z) : Prop :=
  exists r, editKey b ch = Some r /\ holds (default b r) bef aft.

Lemma key_delete bef c aft : holds b (bef ++ [c]) aft -> key_does 8 bef aft.
Proof using.
  intros Hh. destruct (deleteText_holds _ _ _ _ Hh) as (b' & E & Hb'). by exists (Some b').
Qed.
Lemma key_delete_start aft : holds b [] aft -> key_does 8 [] aft.
Proof using.
  intros Hh. exists None. split; [|done]. unfold editKey, deleteText. simpl.
  destruct Hh as (_ & _ & Hc & _). by rewrite Hc.
Qed.
Lemma key_left bef c aft : holds b (bef ++ [c]) aft -> key_does 228 bef (c :: aft).
Proof using.
  intros Hh. unfold key_does, editKey, moveText. simpl.
  rewrite (holds_nonempty _ _ _ c Hh) by set_solver.
  eexists. split; [reflexivity|]. pose proof Hh as (_ & _ & Hc & _). rewrite Hc, length_app. simpl.
  destruct (Z.gtb_spec (Z.of_nat (length bef + 1)) 0); [|lia].
  replace (Z.of_nat (length bef + 1) - 1) with (Z.of_nat (length bef)) by lia.
  eapply move_holds; [exact Hh|]. by rewrite <- (assoc_L (++)).
Qed.
Lemma key_left_start aft : holds b [] aft -> key_does 228 [] aft.
Proof using.
  intros Hh. unfold key_does, editKey, moveText. simpl. case_if; [by exists None|].
  eexists. split; [reflexivity|]. pose proof Hh as (_ & _ & Hc & _). by rewrite Hc.
Qed.
Lemma key_right bef c aft :
  holds b bef (c :: aft) -> c <> 10 -> key_does 229 (bef ++ [c]) aft.
Proof using.
  intros Hh Hc. unfold key_does, editKey, moveText. simpl.
  rewrite (holds_nonempty _ _ _ c Hh) by set_solver. rewrite (holds_at _ _ _ _ Hh). simpl.
  assert (c <> 0).
  { destruct Hh as (_ & _ & _ & _ & Hnz). rewrite Forall_forall in Hnz. apply Hnz. set_solver. }
  destruct (Z.eqb_spec c 0), (Z.eqb_spec c 10); try done. eexists. split; [reflexivity|].
  pose proof Hh as (_ & _ & Hcur & _). simpl. rewrite Hcur.
  replace (Z.of_nat (length bef) + 1) with (Z.of_nat (length (bef ++ [c]))) by lengths.
  eapply move_holds; [exact Hh|]. by rewrite <- (assoc_L (++)).
Qed.
Lemma key_right_stop bef aft :
  holds b bef aft -> aft = [] \/ head aft = Some 10 -> key_does 229 bef aft.
Proof using.
  intros Hh Hstop. unfold key_does, editKey, moveText. simpl. case_if; [by exists None|].
  exists None. split; [|done]. destruct Hstop as [->|Hs].
  - by rewrite (holds_end _ _ Hh).
  - destruct aft as [|c aft]; [done|]. simpl in Hs. simplify_eq.
    by rewrite (holds_at _ _ _ _ Hh).
Qed.
Lemma key_up pre l1 col aft :
  holds b (pre ++ l1 ++ 10 :: col) aft -> line_start pre -> no_newline l1 -> no_newline col ->
  let k := Nat.min (length l1) (length col) in
  key_does 226 (pre ++ take k l1) (drop k l1 ++ 10 :: col ++ aft).
Proof using.
  intros Hh Hp H1 H2 k. unfold key_does, editKey, moveText. simpl.
  rewrite (holds_nonempty _ _ _ 10 Hh) by set_solver.
  rewrite (cursor_up_spec _ _ _ _ _ Hh) by done. simpl. eexists. split; [reflexivity|]. simpl.
  replace (Z.of_nat (length pre) + _) with (Z.of_nat (length (pre ++ take k l1)))
    by (rewrite length_app, length_take; lia).
  eapply move_holds; [exact Hh|]. rewrite <- !(assoc_L (++)). f_equal.
  rewrite (assoc_L (++) (take k l1)), take_drop. simpl. done.
Qed.
Lemma key_down pre col tl l2 aft :
  holds b (pre ++ col) (tl ++ 10 :: l2 ++ aft) -> line_start pre -> no_newline col ->
  no_newline tl -> no_newline l2 -> aft = [] \/ head aft = Some 10 ->
  let k := Nat.min (length l2) (length col) in
  key_does 227 (pre ++ col ++ tl ++ 10 :: take k l2) (drop k l2 ++ aft).
Proof using.
  intros Hh Hp H1 H2 H3 H4 k. unfold key_does, editKey, moveText. simpl.
  rewrite (holds_nonempty _ _ _ 10 Hh) by set_solver.
  rewrite (cursor_down_spec _ _ _ _ _ _ Hh) by done. simpl. eexists. split; [reflexivity|]. simpl.
  replace (Z.of_nat (length (pre ++ col ++ tl)) + 1 + _)
    with (Z.of_nat (length (pre ++ col ++ tl ++ 10 :: take k l2)))
    by (rewrite !length_app; simpl; rewrite length_take; lia).
  eapply move_holds; [exact Hh|]. rewrite <- !(assoc_L (++)). do 3 f_equal. simpl. f_equal.
  by rewrite (assoc_L (++) (take k l2)), take_drop.
Qed.
Lemma key_line_edge ch bef aft :
  holds b bef aft ->
  (ch = 226 /\ cursor_up b = Some None) \/ (ch = 227 /\ cursor_down b = Some None) ->
  key_does ch bef aft.
Proof using.
  intros Hh [[-> E]|[-> E]]; unfold key_does, editKey, moveText; simpl;
    (case_if; [by exists None|]); rewrite E; by exists None.
Qed.
Lemma key_other ch bef aft : holds b bef aft -> 225 = ch \/ 229 < ch -> key_does ch bef aft.
Proof using.
  intros Hh Hch. exists None. split; [|done]. unfold editKey.
  destruct (Z.ltb_spec ch 225); [lia|]. simpl. repeat (case_if; zbool; try lia). done.
Qed.
End Keys.

Lemma edit_refines b bef aft ch z' :
  holds b bef aft -> edit ch (bef, aft) z' -> key_does b ch z'.1 z'.2.
Proof.
  intros Hh He. inversion He; subst; simpl.
  - destruct (edit_insert_run b bef aft ch) as (b' & E & Hb'); try done. by exists (Some b').
  - by eapply key_delete.
  - by apply key_delete_start.
  - by apply key_left.
  - by apply key_left_start.
  - by apply key_right.
  - by apply key_right_stop.
  - by apply key_up.
  - apply key_line_edge; [done|]. left. split; [done|]. by eapply cursor_up_first.
  - by apply key_down.
  - apply key_line_edge; [done|]. right. split; [done|]. by eapply cursor_down_last.
  - by apply key_other.
Qed.

(** Every text splits into lines around the cursor. *)
Lemma split_last_line l : exists p m, l = p ++ m /\ line_start p /\ no_newline m.
Proof.
  induction l as [|c l (p & m & -> & Hp & Hm)] using rev_ind.
  { exists [], []. split; [done|]. split; [by left | by constructor]. }
  destruct (decide (c = 10)) as [->|Hc].
  - exists (p ++ m ++ [10]), []. split; [by rewrite app_nil_r, (assoc_L (++))|].
    split; [right; rewrite (assoc_L (++)); apply last_snoc | by constructor].
  - exists p, (m ++ [c]). split; [by rewrite (assoc_L (++))|]. split; [done|].
    apply Forall_app. split; [done|]. by constructor.
Qed.
Lemma split_first_line l : exists m r, l = m ++ r /\ no_newline m /\ (r = [] \/ head r = Some 10).
Proof.
  induction l as [|c l (m & r & -> & Hm & Hr)].
  { exists [], []. split; [done|]. split; [by constructor | by left]. }
  destruct (decide (c = 10)) as [->|Hc].
  - exists [], (10 :: m ++ r). split; [done|]. split; [by constructor | by right].
  - exists (c :: m), r. split; [done|]. split; [by constructor | done].
Qed.

Lemma edit_up_total bef aft : exists z', edit 226 (bef, aft) z'.
Proof.
  destruct (split_last_line bef) as (p & col & -> & Hp & Hcol). destruct Hp as [->|Hp].
  - eexists. by apply edit_up_first.
  - apply last_Some in Hp as [p' ->]. destruct (split_last_line p') as (pre & l1 & -> & Hpre & Hl1).
    rewrite <- !(assoc_L (++)). simpl. eexists. by apply edit_up.
Qed.
Lemma edit_down_total bef aft : exists z', edit 227 (bef, aft) z'.
Proof.
  destruct (split_last_line bef) as (pre & col & -> & Hpre & Hcol).
  destruct (split_first_line aft) as (tl & r & -> & Htl & Hr). destruct Hr as [->|Hr].
  - rewrite app_nil_r. eexists. by apply edit_down_last.
  - destruct r as [|x r]; [done|]. simpl in Hr. simplify_eq.
    destruct (split_first_line r) as (l2 & r2 & -> & Hl2 & Hr2). eexists. by apply edit_down.
Qed.
Lemma edit_total ch bef aft :
  0 < ch < 256 -> (length (bef ++ aft) < 255)%nat -> exists z', edit ch (bef, aft) z'.
Proof.
  intros Hch Hroom. destruct (decide (ch = 8)) as [->|H8].
  { destruct bef as [|c bef _] using rev_ind; eexists;
      [apply edit_delete_start | apply edit_delete]. }
  destruct (decide (ch < 225)); [eexists; apply edit_insert; try done; lia|].
  destruct (decide (ch = 226)) as [->|]; [apply edit_up_total|].
  destruct (decide (ch = 227)) as [->|]; [apply edit_down_total|].
  destruct (decide (ch = 228)) as [->|].
  { destruct bef as [|c bef _] using rev_ind; eexists;
      [apply edit_left_start | apply edit_left]. }
  destruct (decide (ch = 229)) as [->|].
  { destruct aft as [|c aft]; [eexists; apply edit_right_stop; by left|].
    destruct (decide (c = 10)) as [->|]; [eexists; apply edit_right_stop; by right|].
    eexists. by apply edit_right. }
  eexists. apply edit_other. lia.
Qed.

(** C23 A text box edits text.  With room for one more character, every key code
    1-255 is handled without touching memory outside the array, and takes the
    text before and after the cursor to the one the editing rules [edit]
    prescribe: insertion at the cursor, deletion before it, left and right
    within the line, and up and down to the same column or the end of the
    neighbouring line. *)
Theorem text_box_editing b bef aft ch :
  holds b bef aft -> 0 < ch < 256 -> (length (bef ++ aft) < 255)%nat ->
  exists z' r, edit ch (bef, aft) z' /\ editKey b ch = Some r /\ holds (default b r) z'.1 z'.2.
Proof.
  intros Hh Hch Hroom. destruct (edit_total ch bef aft Hch Hroom) as [z' He].
  destruct (edit_refines _ _ _ _ _ Hh He) as (r & Hr & Hh'). by exists z', r.
Qed.

(** Typing into a full box writes outside the array: with 255 characters in
    the box, inserting another one moves the terminator to [text[256]], which
    is past the end of the 256-byte array. *)
Theorem full_text_box_overflows b bef aft ch :
  holds b bef aft -> length (bef ++ aft) = 255%nat -> 0 < ch < 225 -> ch <> 8 ->
  editKey b ch = None.
Proof.
  intros Hh Hfull Hch H8. unfold editKey.
  destruct (Z.ltb_spec ch 225); [|lia]. destruct (Z.eqb_spec ch 8); [done|]. simpl.
  by rewrite (insertText_full _ _ _ _ Hh Hfull).
Qed.

(** ** Scan codes *)

(** A letter key and its position in the alphabet. *)
Definition letter_keys : list (Z * Z) :=
  [(0x1E, 0); (0x30, 1); (0x2E, 2); (0x20, 3); (0x12, 4); (0x21, 5); (0x22, 6); (0x23, 7);
   (0x17, 8); (0x24, 9); (0x25, 10); (0x26, 11); (0x32, 12); (0x31, 13); (0x18, 14); (0x19, 15);
   (0x10, 16); (0x13, 17); (0x1F, 18); (0x14, 19); (0x16, 20); (0x2F, 21); (0x11, 22);
   (0x2D, 23); (0x15, 24); (0x2C, 25)].
Definition held (shift mask : Z) : bool := negb (Z.land shift mask =? 0).

Lemma letter_keys_check :
  forallb (fun shift => forallb (fun p =>
    let '(s', c) := kbd_decode shift p.1 in
    (s' =? shift) &&
    bool_decide (c = Some (if held shift CTL then p.2 + 1
      else if xorb (held shift SHIFT) (held shift CAPSLOCK) then 65 + p.2 else 97 + p.2)))
    letter_keys) (seqZ 0 64) = true.
Proof. by vm_compute. Qed.

(** Letter keys respect the modifiers: for each of the 26 letter keys and each
    state of the modifiers (no escape pending), the decoded character is the
    control code when control is held, and otherwise the letter, upper case
    exactly when one of shift and caps lock is active; the modifiers stay. *)
Theorem letter_key_case shift data k :
  0 <= shift < 64 -> (data, k) ∈ letter_keys ->
  kbd_decode shift data =
    (shift, Some (if held shift CTL then k + 1
                  else if xorb (held shift SHIFT) (held shift CAPSLOCK) then 65 + k else 97 + k)).
Proof.
  intros Hs Hk. pose proof letter_keys_check as H. rewrite forallb_forall in H.
  specialize (H shift). rewrite forallb_forall in H.
  specialize (H (proj1 (list_elem_of_In _ _) (proj2 (elem_of_seqZ 0 64 shift) ltac:(lia))) (data, k)
    (proj1 (list_elem_of_In _ _) Hk)).
  simpl fst in H. simpl snd in H. destruct (kbd_decode shift data) as [s' c].
  apply andb_true_iff in H as [Hs' Hc]. apply Z.eqb_eq in Hs'. apply bool_decide_eq_true in Hc.
  by subst.
Qed.

(** Pressing and releasing a key, possibly one sent with the E0 prefix. *)
Definition feed_codes (l : list Z) (shift : Z) : Z :=
  fold_left (fun s d => (kbd_decode s d).1) l shift.
Definition codes (ext : bool) (l : list Z) : list Z :=
  if ext then flat_map (fun d => [0xE0; d]) l else l.

Lemma modifier_check :
  forallb (fun shift =>
    forallb (fun p => let '(ext, k, mask) := p in
      (feed_codes (codes ext [k]) shift =? Z.lor shift mask) &&
      (feed_codes (codes ext [k; k + 0x80]) shift =? Z.land shift (Z.lnot mask)))
      [(false, 0x1D, CTL); (true, 0x1D, CTL); (false, 0x2A, SHIFT); (false, 0x36, SHIFT);
       (false, 0x38, ALT); (true, 0x38, ALT)]) (seqZ 0 64) = true.
Proof. by vm_compute. Qed.

(** Modifier keys: pressing left or right control, alt (plain or with the E0
    prefix) or either shift sets exactly that modifier's bit, and releasing it
    clears exactly that bit, in every state without a pending escape. *)
Theorem modifier_keys shift ext k mask :
  0 <= shift < 64 ->
  (ext, k, mask) ∈ [(false, 0x1D, CTL); (true, 0x1D, CTL); (false, 0x2A, SHIFT);
                    (false, 0x36, SHIFT); (false, 0x38, ALT); (true, 0x38, ALT)] ->
  feed_codes (codes ext [k]) shift = Z.lor shift mask /\
  feed_codes (codes ext [k; k + 0x80]) shift = Z.land shift (Z.lnot mask).
Proof.
  intros Hs Hk. pose proof modifier_check as H. rewrite forallb_forall in H.
  specialize (H shift). rewrite forallb_forall in H.
  specialize (H (proj1 (list_elem_of_In _ _) (proj2 (elem_of_seqZ 0 64 shift) ltac:(lia)))
    (ext, k, mask) (proj1 (list_elem_of_In _ _) Hk)).
  simpl in H. apply andb_true_iff in H as [H1 H2]. by rewrite Z.eqb_eq in H1, H2.
Qed.
