(* ===== verification/Typing.v ===== *)
(** * Typing: from a key to the text box of the top window

    [keyboardHandler] (kbd.c) run in the state the window calls maintain: the
    key edits the first text box of the top window in its owner's memory, the
    window is redrawn, and the running process's address space is back. *)
From S2P Require Import Prelude Font GuiState Draw DrawFacts Gui WindowQueue Repaint.
From S2P Require Import WindowSyscalls Incremental Mouse MouseFacts Clicks Kbd KbdFacts.

Fixpoint first_text (l : list Widget) : option Z :=
  match l with
  | [] => None
  | W_textBox p :: _ => Some p
  | _ :: l' => first_text l'
  end.

Lemma first_textBox_run g w n : forall lo,
  (lo + n <= length (Window.widgets w))%nat ->
  length (Window.widgets w) = Z.to_nat MAX_WIDGET_NUM ->
  first_textBox (seqZ (Z.of_nat lo) (Z.of_nat n)) w g =
    Ok (default 0 (first_text (take n (drop lo (Window.widgets w)))), g).
Proof.
  induction n as [|n IH]; intros lo Hn Hlen; [done|].
  destruct (lookup_lt_is_Some_2 (Window.widgets w) lo) as [wd Hwd]; [lia|].
  rewrite (drop_S _ _ _ Hwd), seqZ_cons by lia. cbn [first_textBox take first_text].
  assert (Hat : widget_at w (Z.of_nat lo) = ret wd).
  { unfold widget_at, MAX_WIDGET_NUM in *. rewrite Nat2Z.id, Hwd.
    replace (_ || _) with false; [done|]. symmetry.
    rewrite orb_false_iff, Z.ltb_ge, Z.leb_gt. lia. }
  rewrite Hat. unfold ret at 1, M_bind at 1.
  replace (Z.succ (Z.of_nat lo)) with (Z.of_nat (S lo)) by lia.
  replace (Z.pred (Z.of_nat (S n))) with (Z.of_nat n) by lia.
  destruct wd; try (rewrite IH by (done || lia); done). done.
Qed.

Lemma strlen_terminated l rest :
  Forall (fun c => c <> 0) l -> is_Some (strlen (l ++ 0 :: rest)).
Proof.
  induction 1 as [|c l Hc _ [n IH]]; [by eexists|]. simpl.
  destruct (Z.eqb_spec c 0); [done|]. rewrite IH. by eexists.
Qed.
Lemma holds_strlen b bef aft : holds b bef aft -> is_Some (strlen (TextBox.text b)).
Proof.
  intros ((rest & ->) & _ & _ & _ & Hnz). rewrite (assoc_L (++)). by apply strlen_terminated.
Qed.

(** Replacing a text box by another terminated one keeps windows paintable. *)
Section Edited.
Variables (um : gmap (nat * Z) uobj) (k : nat * Z) (b b' : TextBox.t).
Hypotheses (Hb : um !! k = Some (U_textBox b)) (Hb' : is_Some (strlen (TextBox.text b'))).
Let um' := <[k := U_textBox b']> um.

Lemma edited_other j o :
  um !! j = Some o -> (forall t, o <> U_textBox t) -> um' !! j = Some o.
Proof using Hb.
  intros Hj Ho. subst um'. rewrite lookup_insert_ne; [done|]. intros ->.
  rewrite Hb in Hj. simplify_eq. by apply (Ho b).
Qed.
Lemma edited_window_ok i a : window_ok um i a -> window_ok um' i a.
Proof using Hb Hb'.
  intros (H0 & w & Hw & Hcap & Hlen & Hnum & Hwd). split; [done|].
  exists w. split; [by apply edited_other|]. do 3 (split; [done|]).
  eapply Forall_impl; [exact Hwd|]. intros [p|p|p|p|p|? p]; simpl; try done.
  - intros [l ?]. exists l. by apply edited_other.
  - intros (t & Ht & ?). destruct (decide ((i, p) = k)) as [Heq|Hne].
    + exists b'. split; [|done]. subst um'. rewrite Heq. apply lookup_insert_eq.
    + exists t. split; [|done]. subst um'. by rewrite lookup_insert_ne.
  - intros (b0 & ? & ? & Himg). exists b0. split; [by apply edited_other|]. split; [done|].
    destruct Himg as [|[px ?]]; [by left|]. right. exists px. by apply edited_other.
  - intros (v & px & ? & ?). exists v, px. split; by apply edited_other.
  - intros (v & px & ? & ? & ?). exists v, px.
    split; [by apply edited_other|]. split; [done | by apply edited_other].
Qed.
End Edited.

(** The code of lines 133-142 is [editKey] on the box in memory. *)
Lemma edit_dispatch g i p b ch r :
  cr3 (g_cpu g) = Some i -> g_umem g !! (i, p) = Some (U_textBox b) -> editKey b ch = Some r ->
  ((if (ch <? 225) && negb (ch =? 8) then insertCharacter p ch
    else if ch =? 8 then deleteCharacter p else ret tt) ;;;
   (if (ch =? 226) || (ch =? 227) || (ch =? 228) || (ch =? 229)
    then moveCursor p ch else ret tt)) g =
  (store_and_redraw p r ;;; ret tt) g.
Proof.
  intros Hc Hb Hr. unfold editKey in Hr.
  assert (Hl : load_textBox p g = Ok (b, g)) by (unfold load_textBox; by rewrite (load_run _ i _ _ _ Hc Hb)).
  assert (Hskip : forall c : G unit, (ch <? 225) = true \/ ch = 8 ->
    (c ;;; (if (ch =? 226) || (ch =? 227) || (ch =? 228) || (ch =? 229)
            then moveCursor p ch else ret tt)) g = (c ;;; ret tt) g).
  { intros c Hch. replace (_ || _) with false; [done|]. symmetry.
    destruct Hch as [Hch| ->]; [|done]. zbool.
    rewrite !orb_false_iff, !Z.eqb_neq. lia. }
  destruct ((ch <? 225) && negb (ch =? 8)) eqn:E1.
  - apply andb_true_iff in E1 as [E1 _]. rewrite Hskip by by left.
    apply bind_cong. unfold insertCharacter. rewrite (bind_Ok _ _ _ _ _ Hl).
    destruct (insertText b ch) as [b'|]; [|done]. simpl in Hr. by simplify_eq.
  - destruct (Z.eqb_spec ch 8) as [->|H8].
    + rewrite Hskip by by right.
      apply bind_cong. unfold deleteCharacter. rewrite (bind_Ok _ _ _ _ _ Hl).
      destruct (deleteText b) as [r'|]; [|done]. by simplify_eq.
    + erewrite bind_Ok; [|reflexivity]. destruct (_ || _).
      * unfold moveCursor. rewrite (bind_Ok _ _ _ _ _ Hl). rewrite Hr.
        transitivity (store_and_redraw p r g); [done|]. unfold M_bind at 1.
        by destruct (store_and_redraw p r g) as [[[] ?]| | |].
      * by simplify_eq.
Qed.

Lemma updateLastWindow_inv g me back top :
  wm_inv g me (back ++ [top]) ->
  exists g' w, updateLastWindow g = Ok (tt, g') /\ wm_inv g' me (back ++ [top]) /\
    repainted g g' me top w.
Proof.
  intros Hinv. pose proof (inv_ready _ _ _ _ Hinv) as HR.
  destruct (top_paintable _ _ _ _ HR) as [_ (_ & w & Hw & _)].
  destruct (updateLastWindow_run g me back top w HR (inv_gui _ _ _ Hinv) Hw) as (l & _ & Hrun).
  destruct Hinv as [? ? ? Hproc ? Hws]. eexists _, w. split; [exact Hrun|]. split.
  - split; try done. eapply Forall_impl; [exact Hws|]. intros e [? ?]. split; [done|].
    by apply window_ok_top.
  - split; try done. simpl. by rewrite Hproc.
Qed.

(** Storing an edited box and redrawing, or doing nothing. *)
Lemma store_redraw_run g me back top p b r bef aft m c :
  wm_inv g me (back ++ [top]) -> g_umem g !! (e_proc top, p) = Some (U_textBox b) ->
  holds (default b r) bef aft -> c = Some (e_proc top) ->
  exists g', (store_and_redraw p r ;;; switch_back) (drawn g m c) = Ok (tt, g') /\
    wm_inv g' me (back ++ [top]) /\ g_locks g' = g_locks g /\
    g_umem g' !! (e_proc top, p) = Some (U_textBox (default b r)).
Proof.
  intros Hinv Hb Hh ->. destruct r as [b'|]; cbn [store_and_redraw default from_option id] in *.
  - set (um' := <[(e_proc top, p) := U_textBox b']> (g_umem g)).
    set (g1 := set_umem um' (drawn g m (Some (e_proc top)))).
    assert (Hinv1 : wm_inv g1 me (back ++ [top])).
    { destruct Hinv as [? ? ? ? ? Hws]. split; try done.
      eapply Forall_impl; [exact Hws|]. intros e [? ?]. split; [done|].
      apply (edited_window_ok _ _ b); [done | by eapply holds_strlen | done]. }
    destruct (updateLastWindow_inv g1 me back top Hinv1) as (g2 & w & Hrun & Hinv2 & Hrp).
    rewrite bind_assoc. erewrite bind_Ok; cycle 1.
    { unfold ustore. cbn [g_cpu drawn set_cpu cr3 g_umem set_vram]. rewrite Hb. reflexivity. }
    rewrite (bind_Ok _ _ _ _ _ Hrun). rewrite (drawn_id g2).
    eexists. split; [apply (switch_back_run g2 me (inv_proc _ _ _ Hinv2) (inv_me _ _ _ Hinv2))|].
    split; [by apply inv_drawn|]. destruct Hrp as [Hw Hum _ Hlk _ _ _ _ _ _].
    split; [exact Hlk|]. cbn [g_umem drawn set_cpu set_vram]. rewrite Hum.
    apply top_drawn_other; [done | apply lookup_insert_eq | done].
  - erewrite bind_Ok; [|reflexivity].
    eexists. split; [apply (switch_back_run g me (inv_proc _ _ _ Hinv) (inv_me _ _ _ Hinv))|].
    by split; [apply inv_drawn|].
Qed.

(** C11 A key typed reaches the text, end to end: if the top window has a text box
    (the first one of its widgets) holding a text with room for a character,
    [keyboardHandler] returns for every key code, the box in the owner's memory
    holds the text the editing rules prescribe, and the windows, the queue and
    the locks are as the window calls need them. *)
Theorem key_edits_top_window g me back top w p b bef aft ch :
  wm_inv g me (back ++ [top]) ->
  g_umem g !! (e_proc top, e_window top) = Some (U_window w) ->
  first_text (window_widgets w) = Some p -> p <> 0 ->
  g_umem g !! (e_proc top, p) = Some (U_textBox b) ->
  holds b bef aft -> 0 < ch < 256 -> (length (bef ++ aft) < 255)%nat ->
  exists g' z' b', keyboardHandler ch g = Ok (tt, g') /\ edit ch (bef, aft) z' /\
    g_umem g' !! (e_proc top, p) = Some (U_textBox b') /\ holds b' z'.1 z'.2 /\
    wm_inv g' me (back ++ [top]) /\ g_locks g' = g_locks g.
Proof.
  intros Hinv Hw Hp Hp0 Hb Hh Hch Hroom.
  destruct (edit_total ch bef aft Hch Hroom) as [z' He].
  destruct (edit_refines _ _ _ _ _ Hh He) as (r & Hr & Hh').
  pose proof (inv_ready _ _ _ _ Hinv) as HR.
  destruct (top_node _ _ _ _ HR) as (nx & pv & Hn).
  destruct (top_paintable _ _ _ _ HR) as [Hpg (_ & w' & Hw' & _ & Hlen & Hnum & _)].
  assert (w' = w) as -> by congruence.
  destruct (store_redraw_run g me back top p b r z'.1 z'.2 (g_vram g) (Some (e_proc top))
    Hinv Hb Hh' eq_refl) as (g' & Hrun & Hinv' & Hlk & Hum).
  exists g', z', (default b r). split; [|done].
  unfold keyboardHandler. erewrite bind_Ok; [|reflexivity]. rewrite (last_top _ _ _ _ HR).
  erewrite bind_Ok; [|by apply node_run]. cbn [wq_proc wq_window]. rewrite (drawn_id g) at 1.
  erewrite bind_Ok; [|by apply (switchuvm_run g me (inv_proc _ _ _ Hinv))].
  erewrite bind_Ok; [|unfold load_window;
    rewrite (load_run (drawn g (g_vram g) (Some (e_proc top))) (e_proc top) _ _ _ eq_refl Hw);
    reflexivity].
  erewrite bind_Ok; cycle 1.
  { pose proof (first_textBox_run (drawn g (g_vram g) (Some (e_proc top))) w
      (Z.to_nat (Window.widgetsNum w)) 0) as E.
    rewrite drop_0 in E. change (Z.of_nat 0) with 0 in E.
    assert (Hpos : 0 <= Window.widgetsNum w).
    { destruct (decide (0 <= Window.widgetsNum w)); [done|].
      unfold window_widgets in Hp. by rewrite Z2Nat.nonpos in Hp by lia. }
    rewrite Z2Nat.id in E by done. unfold window_widgets in Hp. rewrite Hp in E.
    apply E; [unfold MAX_WIDGET_NUM in *; lia | done]. }
  cbn [default from_option id]. destruct (Z.eqb_spec p 0); [done|].
  rewrite <- Hrun. transitivity (((store_and_redraw p r ;;; ret tt) ;;; switch_back)
    (drawn g (g_vram g) (Some (e_proc top)))).
  - apply bind_cong. by apply (edit_dispatch _ (e_proc top) _ b).
  - by rewrite bind_assoc.
Qed.
