(* ===== verification/InputWitness.v ===== *)
(** * InputWitness: concrete input on which the mouse and keyboard theorems apply

    A desktop window in slot 0 and, in slot 1, a window with a button and a
    text box, both owned by one process. *)
From S2P Require Import Prelude Font GuiState Draw DrawFacts Gui WindowQueue Repaint.
From S2P Require Import WindowSyscalls Incremental GuiWitness Mouse MouseFacts Clicks Kbd KbdFacts Typing.

Definition demo_button : Button.t := Button.mk 0 10 40 80 30 [79; 75; 0] no_handler.
(** A box that holds "ab" with the cursor between the letters. *)
Definition demo_box : TextBox.t :=
  TextBox.mk 0 10 80 200 60 1 2 ([97; 98; 0] ++ replicate 253 0).
Definition form_window : Window.t :=
  Window.mk 1 1 0 0 400 300 400 300 300 200 [65; 0] 2
    ([W_button 310; W_textBox 320] ++ replicate 30 (W_other 9 0)) no_handler.
Definition form_um : gmap (nat * Z) uobj :=
  <[(1%nat, 300) := U_window form_window]> (<[(1%nat, 310) := U_button demo_button]>
    (<[(1%nat, 320) := U_textBox demo_box]> demo_um)).
Definition two_queue : wqueue :=
  with_last (append_node (upd_node (open_in 200) (Line 1) (with_owner (Some 1%nat) 300))
    (Line 0) (Line 1)) (Some (Line 1)).
Definition form_stack : list entry := [mkEntry 0 1 200; mkEntry 1 1 300].
(** The pointer at [(x, y)]. *)
Definition form (x y : Z) : gstate :=
  mkG two_queue (fun _ => mkRGB 0 0 0) (mkMouse x y 640 512 0)
    (mkMouseState 1 0 0 0 0 0 0 0 0 0 0 0 0 0 0 (-30) 0 0 None) 0 0
    (fun _ => mkRGB 0 0 0) (fun _ => 0) form_um demo_cpu [].

Lemma form_rep : queue_rep two_queue form_stack.
Proof.
  apply (rep_create _ [mkEntry 0 1 200] (demo_open_rep 200) 1 1 300); [done | | done].
  simpl. set_solver.
Qed.
Lemma form_inv x y : wm_inv (form x y) 1 form_stack.
Proof.
  split; cbn [g_wq g_locks g_cpu form]; [apply form_rep | apply not_elem_of_nil
    | apply not_elem_of_nil | done | simpl; set_solver |].
  constructor; [|constructor; [|done]]; (split; [simpl; set_solver|]); (split; [done|]).
  - exists plain_window. split; [vm_compute; reflexivity|]. split; [by eexists|]. by repeat split.
  - exists form_window. split; [vm_compute; reflexivity|]. split; [by eexists|].
    do 2 (split; [done|]). constructor; [|constructor; [|constructor]].
    + exists demo_button. split; [vm_compute; reflexivity|]. split; [by eexists | by left].
    + exists demo_box. split; [vm_compute; reflexivity | by eexists].
Qed.
Lemma form_idle x y : idle (form x y).
Proof. done. Qed.

(** ** The driver *)
Lemma mouse_packet_witness :
  exists s, (mouseint 50 1 0x18 ;;; mouseint 50 1 0xff ;;; mouseint 50 1 4) (form 640 512) =
    (updateMouseEvent 50 639 508 ;;;
     g <- get ;; moveMousePosition (dis_x (g_ms g)) (dis_y (g_ms g))) (set_ms s (form 640 512)) /\
    dis_x s = -1 /\ dis_y s = -4.
Proof.
  eexists. split.
  - apply (mouse_packet (form 640 512) 50 1 1 1 0x18 0xff 4); try (vm_compute; congruence).
    + apply not_elem_of_nil.
    + split; vm_compute; congruence.
    + split; vm_compute; congruence.
  - split; reflexivity.
Defined.

(** Two clicks 10 ticks apart, then a drag, then a click. *)
Definition demo_gestures : list gesture :=
  [mkGesture (95, 5, 5) [] (100, 5, 5); mkGesture (105, 5, 5) [] (110, 5, 5);
   mkGesture (112, 5, 5) [(113, 6, 6); (114, 7, 7)] (200, 9, 9); mkGesture (300, 1, 1) [] (310, 1, 1)].
Lemma click_recogniser_witness :
  feed_gestures demo_gestures 0 (g_ms (form 640 512)) =
    [0; LEFT_CLICK; 0; LEFT_DOUBLE_CLICK; 0; MOUSE_DRAGGING; MOUSE_DRAGGING; 0; 0; LEFT_CLICK].
Proof.
  etransitivity; [apply (click_recogniser demo_gestures 0 (g_ms (form 640 512)) None)|reflexivity].
  - reflexivity.
  - reflexivity.
  - reflexivity.
  - simpl. lia.
  - unfold demo_gestures. cbn. repeat (split; [lia|]). exact I.
Defined.

Lemma clicked_window_topmost_witness :
  exists g', getClickedWindowQueue (form 420 360) = Ok (Some (Line 1), g').
Proof.
  eexists. apply (clicked_window_topmost (form 420 360) 1 form_stack (mkEntry 1 1 300)).
  - apply form_inv.
  - vm_compute. reflexivity.
Defined.

Lemma click_at_right_edge_faults_witness : handleLeftClick (form 1280 360) = Fault.
Proof.
  apply (click_at_right_edge_faults (form 1280 360) 1 form_stack).
  - apply form_inv.
  - constructor; [|constructor; [|constructor]]; intros w Hw.
    + vm_compute in Hw. injection Hw as <-. vm_compute. congruence.
    + vm_compute in Hw. injection Hw as <-. vm_compute. congruence.
  - reflexivity.
Defined.

Lemma moveMousePosition_shown_witness :
  exists g', moveMousePosition 5000 (-5000) (form 640 512) = Ok (tt, g') /\ shown g'.
Proof.
  destruct (moveMousePosition_shown (form 640 512) 5000 (-5000)) as (g' & H1 & H2 & _).
  - apply not_elem_of_nil.
  - repeat split; vm_compute; congruence.
  - done.
  - exists g'. exact (conj H1 H2).
Defined.

Lemma clicked_widget_topmost_witness :
  getClickedWidget 300 (form 420 360) = Ok (Some (W_button 310), form 420 360).
Proof.
  etransitivity; [apply (clicked_widget_topmost (form 420 360) 1 300 form_window)|].
  - reflexivity.
  - pose proof (inv_windows _ _ _ (form_inv 420 360)) as H. by inversion_clear H as [|? ? ? H1];
      inversion_clear H1 as [|? ? [_ H2] _].
  - vm_compute. reflexivity.
  - vm_compute. reflexivity.
Defined.

Lemma left_click_widget_witness :
  exists g', handleLeftClick (form 420 360) = Ok (tt, g') /\
    g_umem g' !! (1%nat, 310) = Some (U_button (Button.set_triggered 1 demo_button)).
Proof.
  destruct (left_click_widget (form 420 360) 1 form_stack (mkEntry 1 1 300) form_window (W_button 310) 310
    (U_button demo_button) (U_button (Button.set_triggered 1 demo_button))) as (g' & H1 & _ & _ & H2).
  - apply form_inv.
  - apply form_idle.
  - vm_compute. reflexivity.
  - vm_compute. reflexivity.
  - vm_compute. reflexivity.
  - reflexivity.
  - vm_compute. reflexivity.
  - reflexivity.
  - exists g'. split; [exact H1|]. apply H2. by left.
Defined.

Lemma left_click_desktop_witness :
  exists g', handleLeftClick (form 100 100) = Ok (tt, g') /\ g' = set_cpu (g_cpu g') (form 100 100).
Proof.
  destruct (left_click_desktop (form 100 100) 1 form_stack (mkEntry 0 1 200) (mkEntry 1 1 300))
    as (g' & H1 & H2 & _).
  - apply form_inv.
  - reflexivity.
  - reflexivity.
  - done.
  - vm_compute. reflexivity.
  - exists g'. exact (conj H1 H2).
Defined.

(** ** Typing *)
Lemma demo_box_holds : holds demo_box [97] [98].
Proof.
  split; [by exists (replicate 253 0)|]. split; [done|]. split; [done|]. split; [done|].
  by repeat constructor.
Qed.
Lemma text_box_editing_witness :
  exists z' r, edit 8 ([97], [98]) z' /\ editKey demo_box 8 = Some r /\
    holds (default demo_box r) z'.1 z'.2.
Proof.
  apply (text_box_editing demo_box [97] [98] 8).
  - apply demo_box_holds.
  - lia.
  - simpl. lia.
Defined.

Definition full_box : TextBox.t := TextBox.mk 0 10 80 200 60 0 255 (replicate 255 97 ++ [0]).
Lemma full_text_box_overflows_witness : editKey full_box 98 = None.
Proof.
  apply (full_text_box_overflows full_box [] (replicate 255 97) 98).
  - split; [by exists []|]. split; [done|]. split; [done|]. split; [done|].
    apply Forall_replicate. done.
  - done.
  - lia.
  - lia.
Defined.

Lemma letter_key_case_witness : kbd_decode SHIFT 0x1E = (SHIFT, Some 65).
Proof.
  apply (letter_key_case SHIFT 0x1E 0); [vm_compute; split; congruence | apply list_elem_of_here].
Defined.

Lemma modifier_keys_witness :
  feed_codes [0x2A] CAPSLOCK = 9 /\ feed_codes [0x2A; 0xAA] CAPSLOCK = CAPSLOCK.
Proof.
  apply (modifier_keys CAPSLOCK false 0x2A SHIFT); [vm_compute; split; congruence|].
  do 2 apply list_elem_of_further. apply list_elem_of_here.
Defined.

Lemma key_edits_top_window_witness :
  exists g' b', keyboardHandler 99 (form 640 512) = Ok (tt, g') /\
    g_umem g' !! (1%nat, 320) = Some (U_textBox b').
Proof.
  destruct (key_edits_top_window (form 640 512) 1 [mkEntry 0 1 200] (mkEntry 1 1 300) form_window
    320 demo_box [97] [98] 99) as (g' & z' & b' & H1 & _ & H2 & _).
  - apply (form_inv 640 512).
  - vm_compute. reflexivity.
  - reflexivity.
  - lia.
  - vm_compute. reflexivity.
  - apply demo_box_holds.
  - lia.
  - simpl. lia.
  - exists g', b'. exact (conj H1 H2).
Defined.
