(* ===== verification/Editor.v ===== *)
(** * Editor: opening and saving a text (src/src/editor.c)

    The files the editor sees are a map from names to contents.  The text box
    is the one that the keyboard driver edits. *)
From S2P Require Import Prelude GuiState Kbd KbdFacts.

Definition TEXT : nat := 256.
Definition empty_box : TextBox.t := TextBox.mk 0 10 105 780 465 0 0 (replicate TEXT 0).
(** What the editor asks of the window system and the file system. *)
Inductive call := DeleteWindow (h : Z) | UpdateWindow | FileSystemChanged.
Record editor := mkEd {
  files : gmap (list Z) (list Z);
  box : TextBox.t;
  caption : list Z;
  hDlog : Z;
  calls : list call }.
Definition E : Type -> Type := M editor.

(** [read(fdi, text_box.text, sizeof(text_box.text))] of a file. *)
Definition cat (contents : list Z) (b : TextBox.t) : TextBox.t :=
  let got := take TEXT contents in
  let n := Z.of_nat (length got) in
  TextBox.set_textLength n (TextBox.set_cursor n (TextBox.set_text (got ++ drop (length got) (TextBox.text b)) b)).
(** The text box of [main], for the file named on the command line; [None]
    when it cannot be opened. *)
Definition open_editor (fs : gmap (list Z) (list Z)) (arg : option (list Z)) : option editor :=
  match arg with
  | Some path => contents ← fs !! path; Some (mkEd fs (cat contents empty_box) path (-1) [])
  | None => Some (mkEd fs empty_box [78; 101; 119; 70; 105; 108; 101; 46; 116; 120; 116] (-1) [])
  end.
(** [strlen] of the array; without a NUL in it the scan leaves it. *)
Fixpoint strlen (l : list Z) : option nat :=
  match l with [] => None | c :: l => if c =? 0 then Some O else S <$> strlen l end.
Definition ask (c : call) : E unit := modify (fun e => mkEd (files e) (box e) (caption e) (hDlog e) (calls e ++ [c])).
Definition closeDialog : E unit :=
  h <- gets hDlog ;;
  ask (DeleteWindow h) ;;;
  modify (fun e => mkEd (files e) (box e) (caption e) (-1) (calls e)).
Definition set_file (name contents : list Z) : E unit :=
  modify (fun e => mkEd (<[name := contents]> (files e)) (box e) (caption e) (hDlog e) (calls e)).
(** [creates] and [reopens]: whether the call of [open] that makes a new file
    succeeds, and the one that then opens it for writing.  A file that was made
    and cannot be opened again stays, empty. *)
Definition saveFile (creates reopens : list Z -> bool) (name : list Z) : E unit :=
  closeDialog ;;;
  fs <- gets files ;;
  let isNewFile := match fs !! name with None => true | Some _ => false end in
  opened <- (if isNewFile then
               if creates name then set_file name [] ;;; ret (reopens name) else ret false
             else ret true) ;;
  if negb opened then ret tt
  else
    e <- get ;;
    n <- of_option (strlen (TextBox.text (box e))) ;;
    let w := take (n + 1) (TextBox.text (box e)) in
    let old := default [] (files e !! name) in
    set_file name (w ++ drop (length w) old) ;;;
    when isNewFile do
      (modify (fun e => mkEd (files e) (box e) name (hDlog e) (calls e)) ;;;
       ask UpdateWindow ;;;
       ask FileSystemChanged).

(** ** Saving *)

Lemma strlen_text t rest : Forall (fun c => c <> 0) t -> strlen (t ++ 0 :: rest) = Some (length t).
Proof.
  induction 1 as [|c t Hc _ IH]; [done|]. cbn [app strlen length]. destruct (Z.eqb_spec c 0); [done|]. by rewrite IH.
Qed.
(** What a save leaves: [t] and its NUL over the first bytes of the file, the
    rest of an older, longer file behind it. *)
Definition saved (t old : list Z) : list Z := t ++ 0 :: drop (length t + 1) old.
Definition shown (b : TextBox.t) (t : list Z) : Prop := exists rest, TextBox.text b = t ++ 0 :: rest.
Lemma holds_shown b bef aft : holds b bef aft -> shown b (bef ++ aft) /\ Forall (fun c => c <> 0) (bef ++ aft).
Proof. intros ((rest & Ht) & _ & _ & _ & Hnz). split; [|done]. exists rest. by rewrite Ht, <- (assoc_L (++)). Qed.

Definition may_write (creates reopens : list Z -> bool) (name : list Z) (e : editor) : Prop :=
  is_Some (files e !! name) \/ creates name = true /\ reopens name = true.

Lemma write_saved t rest old : let w := take (length t + 1) (t ++ 0 :: rest) in w ++ drop (length w) old = saved t old.
Proof.
  intros w. assert (Hw : w = t ++ [0]).
  { unfold w. replace (length t + 1)%nat with (length (t ++ [0])) by lengths. change (0 :: rest) with ([0] ++ rest).
    by rewrite (assoc_L (++)), take_app_length. }
  rewrite Hw, <- (assoc_L (++)). unfold saved. by rewrite length_app.
Qed.

Lemma saveFile_saves cr re name e t : shown (box e) t -> Forall (fun c => c <> 0) t -> may_write cr re name e ->
  exists cap cs, saveFile cr re name e =
    Ok (tt, mkEd (<[name := saved t (default [] (files e !! name))]> (files e)) (box e) cap (-1) cs).
Proof.
  intros [rest Ht] Hnz Hw. destruct e as [fs b cap d cs]. cbn [files box] in *.
  unfold saveFile, closeDialog, ask, set_file, M_bind, gets, get, modify, ret.
  cbn [files box caption hDlog calls]. unfold may_write in Hw. cbn [files] in Hw.
  destruct (fs !! name) as [old|] eqn:Hold.
  - cbn [negb files box caption hDlog calls default]. rewrite Ht, strlen_text by done. unfold of_option, ret.
    rewrite Hold. cbn [default]. setoid_rewrite (write_saved t rest old). by do 2 eexists.
  - destruct Hw as [[? ?]|[Hcr Hre]]; [done|]. rewrite Hcr, Hre. cbn [negb files box caption hDlog calls default].
    rewrite Ht, strlen_text by done. unfold of_option, ret. cbn [files]. rewrite lookup_insert_eq. cbn [default].
    setoid_rewrite (write_saved t rest []). cbn [files box caption hDlog calls]. rewrite insert_insert_eq. by do 2 eexists.
Qed.
(** A new file that cannot be opened after it was made is left empty, and the
    desktop is not told of it. *)
Lemma saveFile_leaves_empty cr re name e : files e !! name = None -> cr name = true -> re name = false ->
  saveFile cr re name e =
    Ok (tt, mkEd (<[name := []]> (files e)) (box e) (caption e) (-1) (calls e ++ [DeleteWindow (hDlog e)])).
Proof.
  intros Hn Hcr Hre. destruct e as [fs b cap d cs]. cbn [files] in Hn.
  unfold saveFile, closeDialog, ask, set_file, M_bind, gets, get, modify, ret.
  cbn [files box caption hDlog calls]. rewrite Hn, Hcr, Hre. done.
Qed.

Lemma cat_saved t old b : (length t < TEXT)%nat -> shown (cat (saved t old) b) t.
Proof.
  intros Hl. unfold cat, shown, saved. cbn [TextBox.text TextBox.set_text TextBox.set_cursor TextBox.set_textLength].
  rewrite take_app_ge by lia. destruct (TEXT - length t)%nat eqn:E; [lia|]. cbn [take].
  rewrite <- (assoc_L (++)). cbn [app]. by eexists.
Qed.

(** C28 A saved text comes back.  Whatever was typed into the text box, saving
    it under a name that exists or can be created and opened succeeds, closes the dialog,
    writes that file and no other, and an editor opened on the file shows
    the text again, whatever the file held before. *)
Theorem editor_save_reopen cr re name e bef aft : holds (box e) bef aft -> may_write cr re name e ->
  exists e', saveFile cr re name e = Ok (tt, e') /\ hDlog e' = -1 /\ box e' = box e /\
    (forall other, other <> name -> files e' !! other = files e !! other) /\
    exists e'', open_editor (files e') (Some name) = Some e'' /\ caption e'' = name /\ shown (box e'') (bef ++ aft).
Proof.
  intros Hh Hw. destruct (holds_shown _ _ _ Hh) as [Hs Hnz].
  destruct (saveFile_saves _ _ _ _ _ Hs Hnz Hw) as (cap & cs & ->). eexists. split; [done|]. cbn [files box hDlog].
  split; [done|]. split; [done|]. split; [by intros; rewrite lookup_insert_ne|].
  unfold open_editor. rewrite lookup_insert_eq. cbn [mbind option_bind]. eexists. split; [done|]. cbn [box caption].
  split; [done|]. apply cat_saved. destruct Hs as [rest Ht]. destruct Hh as (_ & Hl & _). rewrite Ht in Hl.
  unfold TEXT, MAX_STRING_NUM in *. rewrite length_app in Hl. cbn in Hl. lia.
Qed.

(** The text [hi] typed into a new editor and saved as [a]. *)
Definition with_text (b : TextBox.t) (keys : list Z) : TextBox.t := foldl (fun b k => default b (insertText b k)) b keys.
Definition hi_editor : editor := mkEd ∅ (with_text empty_box [104; 105]) [] 3 [].
Lemma hi_holds : holds (box hi_editor) [104; 105] [].
Proof. split; [exists (replicate 253 0); reflexivity|]. repeat split; [reflexivity..|]. repeat constructor; done. Qed.
Lemma editor_save_reopen_witness :
  exists e', saveFile (fun _ => true) (fun _ => true) [97] hi_editor = Ok (tt, e') /\ hDlog e' = -1 /\ box e' = box hi_editor /\
    (forall other, other <> [97] -> files e' !! other = files hi_editor !! other) /\
    exists e'', open_editor (files e') (Some [97]) = Some e'' /\ caption e'' = [97] /\ shown (box e'') [104; 105].
Proof. exact (editor_save_reopen (fun _ => true) (fun _ => true) [97] hi_editor [104; 105] [] hi_holds (or_intror (conj eq_refl eq_refl))). Defined.

Definition save_as (name : list Z) (e : editor) : option editor :=
  match saveFile (fun _ => true) (fun _ => true) name e with Ok (_, e') => Some e' | _ => None end.
(** A file opened, typed into and saved under the same name. *)
Definition edit_again (name keys : list Z) (e : editor) : option editor :=
  e' ← open_editor (files e) (Some name);
  save_as name (mkEd (files e') (with_text (box e') keys) (caption e') 3 (calls e')).
(** What is typed into a reopened text is lost: the NUL that the save
    wrote is counted as a character, the cursor stands behind it, and the next
    save stops at it. *)
Theorem editor_loses_typing :
  (e ← save_as [97] hi_editor; files e !! [97]) = Some [104; 105; 0] /\
  (e ← save_as [97] hi_editor; e' ← edit_again [97] [33; 33] e; files e' !! [97]) = Some [104; 105; 0].
Proof. split; vm_compute; reflexivity. Qed.
