(* ===== verification/Pipe.v ===== *)
(** * Pipe: bounded FIFO between processes (src/src/pipe.c)

    [nread] and [nwrite] are free-running [uint] counters into a ring of 512
    bytes.  A call holds the pipe's lock except while it sleeps, so a call is
    a sequence of atomic segments, each from [acquire] or a wakeup to the next
    [sleep] or the final [release]; [run_seg] executes one segment, and
    [pstep] interleaves the segments of any number of callers.  [wakeup] makes
    the sleepers of a channel runnable, [kill] (proc.c) marks a caller killed
    and makes it runnable. *)
From S2P Require Import Prelude.

Definition PIPESIZE : Z := 512.

Record pipe := mkPipe {
  data : list Z;
  nread : Z; nwrite : Z;
  readopen : bool; writeopen : bool }.

(** Lines 32-35; the data is whatever the page held. *)
Definition pipe_init (junk : list Z) : pipe := mkPipe junk 0 0 true true.

Definition full (p : pipe) : bool := nwrite p =? u32 (nread p + PIPESIZE).
Definition empty (p : pipe) : bool := nread p =? nwrite p.
(** [p->data[p->nwrite++ % PIPESIZE] = c] *)
Definition put_byte (p : pipe) (c : Z) : pipe :=
  mkPipe (<[Z.to_nat (nwrite p mod PIPESIZE) := c]> (data p)) (nread p) (u32 (nwrite p + 1))
    (readopen p) (writeopen p).
(** [p->data[p->nread++ % PIPESIZE]] *)
Definition get_byte (p : pipe) : Z * pipe :=
  (nth (Z.to_nat (nread p mod PIPESIZE)) (data p) 0,
   mkPipe (data p) (u32 (nread p + 1)) (nwrite p) (readopen p) (writeopen p)).

(** ** Callers *)
Inductive chan := Ch_nread | Ch_nwrite.
#[export] Instance chan_eq_dec : EqDecision chan.
Proof. solve_decision. Defined.
Inductive status := Runnable | Sleeping (c : chan) | Returned (r : Z).
(** [Job_write todo n]: [pipewrite] of [n] bytes, [todo] still to go.
    [Job_read n]: [piperead] of up to [n] bytes. *)
Inductive job :=
| Job_write (todo : list Z) (n : Z)
| Job_read (n : nat)
| Job_close (writable : bool).
Record caller := mkCaller { c_job : job; c_status : status; killed : bool }.

(** ** Segments *)

(** The loop of [pipewrite] (lines 83-93) until it ends, fails or sleeps:
    the pipe, the bytes written, and what is left ([None]: all written). *)
Fixpoint write_loop (k : bool) (p : pipe) (todo : list Z) : pipe * list Z * (list Z + unit) :=
  match todo with
  | [] => (p, [], inl [])
  | c :: todo' =>
      if full p then
        if negb (readopen p) || k then (p, [], inr tt) else (p, [], inl todo)
      else
        let '(p', w, r) := write_loop k (put_byte p c) todo' in (p', c :: w, r)
  end.
(** The loop of [piperead] (lines 112-116). *)
Fixpoint read_loop (p : pipe) (n : nat) : pipe * list Z :=
  match n with
  | O => (p, [])
  | S n' =>
      if empty p then (p, [])
      else let '(c, p') := get_byte p in let '(p'', l) := read_loop p' n' in (p'', c :: l)
  end.

(** One segment: new pipe and caller, the channels woken, and the bytes that
    entered and left the pipe. *)
Record seg := mkSeg {
  s_pipe : pipe; s_caller : caller; s_woken : list chan; s_in : list Z; s_out : list Z }.
Definition run_seg (p : pipe) (c : caller) : seg :=
  match c_job c with
  | Job_write todo n =>
      let '(p', w, r) := write_loop (killed c) p todo in
      match r with
      | inr _ => mkSeg p' (mkCaller (c_job c) (Returned (-1)) (killed c)) [] w []
      | inl [] => mkSeg p' (mkCaller (Job_write [] n) (Returned n) (killed c)) [Ch_nread] w []
      | inl rest =>
          mkSeg p' (mkCaller (Job_write rest n) (Sleeping Ch_nwrite) (killed c)) [Ch_nread] w []
      end
  | Job_read n =>
      if empty p && writeopen p then
        if killed c then mkSeg p (mkCaller (c_job c) (Returned (-1)) (killed c)) [] [] []
        else mkSeg p (mkCaller (c_job c) (Sleeping Ch_nread) (killed c)) [] [] []
      else
        let '(p', l) := read_loop p n in
        mkSeg p' (mkCaller (c_job c) (Returned (Z.of_nat (length l))) (killed c)) [Ch_nwrite] [] l
  | Job_close true =>
      mkSeg (mkPipe (data p) (nread p) (nwrite p) (readopen p) false)
        (mkCaller (c_job c) (Returned 0) (killed c)) [Ch_nread] [] []
  | Job_close false =>
      mkSeg (mkPipe (data p) (nread p) (nwrite p) false (writeopen p))
        (mkCaller (c_job c) (Returned 0) (killed c)) [Ch_nwrite] [] []
  end.

(** ** Interleaving *)

(** The pipe, its callers, and all bytes written and read so far. *)
Record pstate := mkPState { ps_pipe : pipe; ps_callers : list caller; sent : list Z; rcvd : list Z }.

Definition wake (l : list chan) (c : caller) : caller :=
  match c_status c with
  | Sleeping ch => if decide (ch ∈ l) then mkCaller (c_job c) Runnable (killed c) else c
  | _ => c
  end.
Definition kill_caller (c : caller) : caller :=
  mkCaller (c_job c) (match c_status c with Sleeping _ => Runnable | s => s end) true.

(** [pipeclose] is called by [fileclose] (file.c) for the last reference to that
    end of the pipe, so no other call on that end is in progress. *)
Definition same_end (writable : bool) (c : caller) : bool :=
  match c_job c with Job_write _ _ => writable | Job_read _ => negb writable | Job_close _ => false end.
Definition in_progress (c : caller) : bool :=
  match c_status c with Returned _ => false | _ => true end.
Definition close_ok (l : list caller) (c : caller) : Prop :=
  match c_job c with
  | Job_close w => Forall (fun d => same_end w d && in_progress d = false) l
  | _ => True
  end.

Inductive pstep : pstate -> pstate -> Prop :=
| step_seg s i c :
    ps_callers s !! i = Some c -> c_status c = Runnable -> close_ok (ps_callers s) c ->
    let g := run_seg (ps_pipe s) c in
    pstep s (mkPState (s_pipe g) (wake (s_woken g) <$> <[i := s_caller g]> (ps_callers s))
               (sent s ++ s_in g) (rcvd s ++ s_out g))
| step_kill s i c :
    ps_callers s !! i = Some c ->
    pstep s (mkPState (ps_pipe s) (<[i := kill_caller c]> (ps_callers s)) (sent s) (rcvd s)).

(** ** The ring holds a queue *)
Definition count (p : pipe) : Z := u32 (nwrite p - nread p).
Definition contents (p : pipe) : list Z :=
  map (fun k => nth (Z.to_nat ((nread p + k) mod PIPESIZE)) (data p) 0) (seqZ 0 (count p)).

Record pipe_wf (p : pipe) : Prop := mkWf {
  wf_data : length (data p) = Z.to_nat PIPESIZE;
  wf_nread : 0 <= nread p < 2 ^ 32;
  wf_nwrite : 0 <= nwrite p < 2 ^ 32;
  wf_count : count p <= PIPESIZE }.

Section Ring.
Variables (p : pipe).
Hypothesis Hwf : pipe_wf p.

Lemma full_count : full p = true <-> count p = PIPESIZE.
Proof using Hwf.
  destruct Hwf as [_ Hr Hw Hc]. unfold full, count, u32, PIPESIZE in *. rewrite Z.eqb_eq.
  Z.to_euclidean_division_equations. lia.
Qed.
Lemma empty_count : empty p = true <-> count p = 0.
Proof using Hwf.
  destruct Hwf as [_ Hr Hw Hc]. unfold empty, count, u32 in *. rewrite Z.eqb_eq.
  Z.to_euclidean_division_equations. lia.
Qed.
Lemma count_nonneg : 0 <= count p.
Proof using. unfold count. apply u32_range. Qed.
Lemma length_contents : Z.of_nat (length (contents p)) = count p.
Proof using.
  unfold contents. rewrite length_map, length_seqZ. pose proof count_nonneg. lia.
Qed.

(** The slot [nwrite] names is the one after the last byte. *)
Lemma nwrite_slot : nwrite p mod PIPESIZE = (nread p + count p) mod PIPESIZE.
Proof using Hwf.
  destruct Hwf as [_ Hr Hw Hc]. unfold count, u32, PIPESIZE in *.
  Z.to_euclidean_division_equations. lia.
Qed.

Lemma put_count c : full p = false -> count (put_byte p c) = count p + 1.
Proof using Hwf.
  intros Hf. assert (count p <> PIPESIZE) by (rewrite <- full_count; congruence).
  destruct Hwf as [_ Hr Hw Hc]. unfold count, put_byte, u32, PIPESIZE in *. cbn [nwrite nread] in *.
  Z.to_euclidean_division_equations. lia.
Qed.

Lemma put_byte_spec c :
  full p = false -> contents (put_byte p c) = contents p ++ [c] /\ pipe_wf (put_byte p c).
Proof using Hwf.
  intros Hf. pose proof (put_count c Hf) as Hn. pose proof count_nonneg as H0.
  assert (count p <> PIPESIZE) by (rewrite <- full_count; congruence).
  destruct Hwf as [Hd Hr Hw Hc]. split.
  - unfold contents. rewrite Hn. rewrite (seqZ_app 0 (count p) 1) by lia. rewrite map_app.
    f_equal.
    + apply list_fmap_ext. intros _ k Hk%list_elem_of_lookup_2%elem_of_seqZ.
      cbn [nread data put_byte]. rewrite !nth_lookup. rewrite list_lookup_insert_ne; [done|].
      rewrite nwrite_slot. intros Heq. apply Z2Nat.inj in Heq;
        [|apply Z.mod_pos_bound; done..].
      unfold PIPESIZE in *. Z.to_euclidean_division_equations. lia.
    + rewrite Z.add_0_l, seqZ_cons, seqZ_nil by lia.
      cbn [map nread data put_byte]. rewrite <- nwrite_slot, nth_lookup, list_lookup_insert_eq; [done|].
      rewrite Hd. pose proof (Z.mod_pos_bound (nwrite p) PIPESIZE ltac:(done)). lia.
  - split; cbn [data nread nwrite put_byte]; [by rewrite length_insert | done | |].
    + unfold u32. apply Z.mod_pos_bound. lia.
    + rewrite Hn. lia.
Qed.

Lemma get_byte_spec c q :
  empty p = false -> get_byte p = (c, q) -> contents p = c :: contents q /\ pipe_wf q.
Proof using Hwf.
  intros He Hg. assert (count p <> 0) by (rewrite <- empty_count; congruence).
  pose proof count_nonneg as H0. unfold get_byte in Hg. simplify_eq.
  set (q := mkPipe _ _ _ _ _).
  assert (Hn : count q = count p - 1 /\ 0 <= nread q < 2 ^ 32 /\
               forall k, (nread q + k) mod PIPESIZE = (nread p + (k + 1)) mod PIPESIZE).
  { destruct Hwf as [_ Hr Hw Hc]. subst q. unfold count, u32, PIPESIZE in *. cbn [nread nwrite].
    split; [|split]; [| |intros k]; Z.to_euclidean_division_equations; lia. }
  destruct Hn as (Hn & Hnr & Hslot). destruct Hwf as [Hd Hr Hw Hc]. split.
  - unfold contents. rewrite (seqZ_cons 0 (count p)) by lia. simpl map.
    rewrite Z.add_0_r. f_equal. rewrite Hn.
    replace (Z.pred (count p)) with (count p - 1) by lia.
    replace (Z.succ 0) with (1 + 0) by lia. rewrite <- (fmap_add_seqZ 1 0 (count p - 1)).
    change (map ?f) with (fmap (M := list) f). rewrite <- list_fmap_compose. apply list_fmap_ext. intros _ k _. simpl.
    rewrite Hslot. do 3 f_equal. lia.
  - split; [done | done | done |]. rewrite Hn. lia.
Qed.
End Ring.

(** ** The loops *)
Lemma write_loop_spec k todo : forall p, pipe_wf p ->
  let '(p', w, r) := write_loop k p todo in
  pipe_wf p' /\ contents p' = contents p ++ w /\
  readopen p' = readopen p /\ writeopen p' = writeopen p /\
  (w = [] -> p' = p) /\ (w <> [] -> full p = false) /\
  match r with
  | inl rest => todo = w ++ rest /\ (rest <> [] -> full p' = true /\ readopen p = true)
  | inr _ => full p' = true /\ (readopen p = false \/ k = true)
  end.
Proof.
  induction todo as [|c todo IH]; intros p Hwf; cbn [write_loop]; [by rewrite app_nil_r|].
  destruct (full p) eqn:Hf.
  - destruct (negb (readopen p) || k) eqn:Hk; rewrite ?app_nil_r.
    + split; [done|]. split; [done|]. do 4 (split; [done|]). split; [done|].
      apply orb_true_iff in Hk as [Hk|Hk]; [left; by apply negb_true_iff | by right].
    + apply orb_false_iff in Hk as [Hk _]. apply negb_false_iff in Hk.
      split; [done|]. split; [done|]. do 4 (split; [done|]). by split.
  - destruct (put_byte_spec p Hwf c Hf) as [Hc Hwf']. specialize (IH (put_byte p c) Hwf').
    destruct (write_loop k (put_byte p c) todo) as [[p' w] r].
    destruct IH as (Hwf2 & Hc2 & Hr & Hw & Hnil & Hcons & Hres).
    split; [done|]. split; [by rewrite Hc2, Hc, <- (assoc_L (++))|].
    do 2 (split; [done|]). split; [done|]. split; [done|].
    destruct r as [rest|]; [|done]. destruct Hres as [-> Hrest]. by split.
Qed.

Lemma read_loop_spec n : forall p, pipe_wf p ->
  let '(p', l) := read_loop p n in
  pipe_wf p' /\ contents p = l ++ contents p' /\
  readopen p' = readopen p /\ writeopen p' = writeopen p /\
  length l = Nat.min n (length (contents p)).
Proof.
  induction n as [|n IH]; intros p Hwf; cbn [read_loop]; [done|].
  destruct (empty p) eqn:He.
  - assert (length (contents p) = 0%nat) as H0.
    { pose proof (length_contents p). apply (empty_count p Hwf) in He. lia. }
    rewrite H0. by rewrite Nat.min_0_r.
  - destruct (get_byte p) as [c q] eqn:Hg. destruct (get_byte_spec p Hwf c q He Hg) as [Hc Hq].
    specialize (IH q Hq). destruct (read_loop q n) as [p' l].
    destruct IH as (Hwf' & Hl & Hr & Hw & Hlen). unfold get_byte in Hg. simplify_eq.
    split; [done|]. split; [by rewrite Hc, Hl|]. do 2 (split; [done|]).
    rewrite Hc. simpl. by rewrite Hlen.
Qed.

(** ** First in, first out *)
Definition fifo_inv (s : pstate) : Prop :=
  pipe_wf (ps_pipe s) /\ sent s = rcvd s ++ contents (ps_pipe s).

Lemma run_seg_fifo p c :
  pipe_wf p ->
  let g := run_seg p c in
  pipe_wf (s_pipe g) /\ contents p ++ s_in g = s_out g ++ contents (s_pipe g).
Proof.
  intros Hwf. unfold run_seg. destruct (c_job c) as [todo n|n|[]]; cbv zeta.
  - pose proof (write_loop_spec (killed c) todo p Hwf) as H.
    destruct (write_loop (killed c) p todo) as [[p' w] r]. destruct H as (? & Hc & _).
    destruct r as [[|]|]; simpl; by rewrite Hc.
  - destruct (empty p && writeopen p); [destruct (killed c); by rewrite app_nil_r|].
    pose proof (read_loop_spec n p Hwf) as H. destruct (read_loop p n) as [p' l].
    destruct H as (? & Hc & _). simpl. rewrite app_nil_r. by rewrite Hc.
  - simpl. rewrite app_nil_r. split; [|done]. by destruct Hwf.
  - simpl. rewrite app_nil_r. split; [|done]. by destruct Hwf.
Qed.

Lemma pstep_fifo s s' : pstep s s' -> fifo_inv s -> fifo_inv s'.
Proof.
  intros Hs [Hwf Hq]. destruct Hs as [s i c Hi Hr Hcl g|s i c Hi]; [|done].
  destruct (run_seg_fifo (ps_pipe s) c Hwf) as [Hwf' Hc]. split; [done|].
  cbn [sent rcvd ps_pipe]. subst g. by rewrite Hq, <- !(assoc_L (++)), Hc.
Qed.

(** The state after [pipealloc], with any calls about to start. *)
Definition pipe_start (junk : list Z) (calls : list caller) : pstate :=
  mkPState (pipe_init junk) calls [] [].

Lemma pipe_init_wf junk : length junk = Z.to_nat PIPESIZE -> pipe_wf (pipe_init junk).
Proof. intros H. by split. Qed.
Lemma rtc_fifo s s' : rtc pstep s s' -> fifo_inv s -> fifo_inv s'.
Proof. induction 1; eauto using pstep_fifo. Qed.

(** C14 A pipe is a bounded FIFO under every interleaving: whatever calls run on
    a fresh pipe, in whatever order their segments are scheduled and whoever is
    killed, at every point the bytes read so far are a prefix of the bytes
    written so far, in order, and the rest, at most 512 bytes, is in the ring,
    also when the 32-bit counters wrap around. *)
Theorem pipe_fifo junk calls s :
  length junk = Z.to_nat PIPESIZE -> rtc pstep (pipe_start junk calls) s ->
  sent s = rcvd s ++ contents (ps_pipe s) /\ (length (contents (ps_pipe s)) <= 512)%nat.
Proof.
  intros Hj Hs. destruct (rtc_fifo _ _ Hs) as [Hwf Hq].
  { split; [by apply pipe_init_wf | done]. }
  split; [done|]. pose proof (length_contents (ps_pipe s)). pose proof (wf_count _ Hwf).
  unfold PIPESIZE in *. lia.
Qed.

(** ** Nobody sleeps without reason *)

(** A sleeping writer faces a full ring and an open read end, a sleeping
    reader an empty ring and an open write end. *)
Definition sleeps_rightly (p : pipe) (c : caller) : Prop :=
  match c_status c with
  | Sleeping Ch_nwrite => (exists todo n, c_job c = Job_write todo n) /\ full p = true /\ readopen p = true
  | Sleeping Ch_nread => (exists n, c_job c = Job_read n) /\ empty p = true /\ writeopen p = true
  | _ => True
  end.
(** Calls in progress keep their end of the pipe open. *)
Definition end_open (p : pipe) (c : caller) : Prop :=
  in_progress c = true ->
  match c_job c with
  | Job_write _ _ => writeopen p = true
  | Job_read _ => readopen p = true
  | Job_close _ => True
  end.
Definition awake_inv (s : pstate) : Prop :=
  pipe_wf (ps_pipe s) /\ Forall (end_open (ps_pipe s)) (ps_callers s) /\
  Forall (sleeps_rightly (ps_pipe s)) (ps_callers s).
Definition none_killed (s : pstate) : Prop := Forall (fun c => killed c = false) (ps_callers s).

Lemma run_seg_killed p c : killed (s_caller (run_seg p c)) = killed c.
Proof.
  unfold run_seg. destruct (c_job c) as [todo n|n|[]]; try done.
  - destruct (write_loop _ _ _) as [[? ?] [[|]|]]; done.
  - destruct (empty p && writeopen p); [by destruct (killed c)|]. by destruct (read_loop p n).
Qed.

(** What one segment of a call that is not killed does to the others' reasons. *)
Lemma run_seg_awake p c :
  pipe_wf p -> killed c = false -> end_open p c -> in_progress c = true ->
  let g := run_seg p c in
  sleeps_rightly (s_pipe g) (s_caller g) /\
  (forall d, sleeps_rightly p d -> end_open p d -> sleeps_rightly (s_pipe g) (wake (s_woken g) d)).
Proof.
  intros Hwf Hk Hopen Hip. specialize (Hopen Hip). unfold run_seg.
  destruct (c_job c) as [todo n|n|[]] eqn:Hj; cbv zeta.
  - pose proof (write_loop_spec (killed c) todo p Hwf) as H. rewrite Hk in *.
    destruct (write_loop false p todo) as [[p' w] r].
    destruct H as (Hwf' & _ & Hro & Hwo & Hnil & Hcons & Hres).
    assert (Hothers : forall l d, (Ch_nread ∈ l \/ readopen p = false \/ w = []) ->
      sleeps_rightly p d -> end_open p d -> sleeps_rightly p' (wake l d)).
    { intros l d Hl Hd Hod. destruct (decide (w = [])) as [Hw0|Hw0].
      - rewrite (Hnil Hw0). unfold sleeps_rightly, wake in *.
        destruct (c_status d) as [|ch|] eqn:Hd'; rewrite ?Hd'; try done.
        case_decide; [done|]. by rewrite Hd'.
      - specialize (Hcons Hw0). unfold sleeps_rightly, wake, end_open, in_progress in *.
        destruct (c_status d) as [|[]|] eqn:Hd'; rewrite ?Hd'; try done.
        + case_decide as Hch; [done|]. destruct Hd as ((m & Hm) & _). rewrite Hm in Hod.
          destruct Hl as [|[Hf|]]; [done| |done]. rewrite Hod in Hf by done. done.
        + destruct Hd as (_ & Hd & _). congruence. }
    destruct r as [[|x rest]|]; simpl.
    + split; [done|]. intros d. apply Hothers. left. set_solver.
    + destruct Hres as [_ Hrest]. destruct (Hrest ltac:(done)) as [? ?]. split.
      * unfold sleeps_rightly. simpl. split; [eauto|]. split; [done | congruence].
      * intros d. apply Hothers. left. set_solver.
    + split; [done|]. intros d. apply Hothers. right. left. by destruct Hres as [_ [|]].
  - destruct (empty p && writeopen p) eqn:He.
    + rewrite Hk. simpl. apply andb_true_iff in He as [He Hw]. split.
      * unfold sleeps_rightly. simpl. split; [eauto | done].
      * intros d Hd _. unfold wake. destruct (c_status d) as [|ch|] eqn:Hd'; try done.
    + pose proof (read_loop_spec n p Hwf) as H. destruct (read_loop p n) as [p' l].
      destruct H as (Hwf' & Hc & Hro & Hwo & Hlen). simpl. split; [done|]. intros d Hd Hod.
      unfold sleeps_rightly, wake in *. destruct (c_status d) as [|[]|] eqn:Hd'; rewrite ?Hd'; try done.
      destruct Hd as (? & Hd1 & Hd2). by rewrite Hd1, Hd2 in He.
  - simpl. split; [done|]. intros d Hd _. unfold sleeps_rightly, wake in *.
    destruct (c_status d) as [|[]|] eqn:Hd'; simpl; rewrite ?Hd'; first [done | exact Hd].
  - simpl. split; [done|]. intros d Hd _. unfold sleeps_rightly, wake in *.
    destruct (c_status d) as [|[]|] eqn:Hd'; simpl; rewrite ?Hd'; first [done | exact Hd].
Qed.

Lemma wake_job l c : c_job (wake l c) = c_job c.
Proof. unfold wake. destruct (c_status c); [done|by case_decide|done]. Qed.
Lemma wake_progress l c : in_progress (wake l c) = in_progress c.
Proof. unfold wake, in_progress. destruct (c_status c) eqn:E; [by rewrite E| |by rewrite E]. case_decide; [done | by rewrite E]. Qed.
Lemma wake_killed l c : killed (wake l c) = killed c.
Proof. unfold wake. destruct (c_status c); [done|by case_decide|done]. Qed.

Lemma run_seg_job p c : match c_job (s_caller (run_seg p c)), c_job c with
  | Job_write _ _, Job_write _ _ | Job_read _, Job_read _ | Job_close _, Job_close _ => True
  | _, _ => False end.
Proof.
  unfold run_seg. destruct (c_job c) as [todo n|n|[]] eqn:Hj; cbv zeta.
  - destruct (write_loop _ _ _) as [[? ?] [[|]|]]; simpl; by rewrite ?Hj.
  - destruct (empty p && writeopen p); [destruct (killed c); simpl; by rewrite ?Hj|].
    destruct (read_loop p n); simpl. by rewrite ?Hj.
  - simpl. by rewrite ?Hj.
  - simpl. by rewrite ?Hj.
Qed.

(** A segment closes an end only if nobody else is using it. *)
Lemma run_seg_ends p c d :
  pipe_wf p -> close_ok [d] c -> end_open p d -> end_open (s_pipe (run_seg p c)) d.
Proof.
  intros Hwf Hcl Hd Hip. specialize (Hd Hip). unfold close_ok, run_seg in *.
  destruct (c_job c) as [todo n|n|[]] eqn:Hj; cbv zeta.
  - pose proof (write_loop_spec (killed c) todo p Hwf) as H.
    destruct (write_loop (killed c) p todo) as [[p' w] r].
    destruct H as (_ & _ & Hro & Hwo & _). destruct r as [[|]|]; simpl; by rewrite Hro, Hwo.
  - destruct (empty p && writeopen p); [by destruct (killed c)|].
    pose proof (read_loop_spec n p Hwf) as H. destruct (read_loop p n) as [p' l].
    destruct H as (_ & _ & Hro & Hwo & _). simpl. by rewrite Hro, Hwo.
  - apply Forall_cons in Hcl as [Hcl _]. unfold same_end in Hcl.
    destruct (c_job d); simpl in *; try done. by rewrite Hip in Hcl.
  - apply Forall_cons in Hcl as [Hcl _]. unfold same_end in Hcl.
    destruct (c_job d); simpl in *; try done. by rewrite Hip in Hcl.
Qed.

Lemma none_killed_before s s' : pstep s s' -> none_killed s' -> none_killed s.
Proof.
  unfold none_killed. intros Hs Hk.
  destruct Hs as [s i c Hi Hr Hcl g|s i c Hi]; rewrite Forall_lookup in Hk |- *; intros j d Hj;
    cbn [ps_callers] in Hk.
  - destruct (decide (j = i)) as [->|Hne].
    + specialize (Hk i (wake (s_woken g) (s_caller g))).
      rewrite list_lookup_fmap, list_lookup_insert_eq in Hk by by eapply lookup_lt_Some.
      specialize (Hk eq_refl). rewrite wake_killed in Hk. subst g.
      rewrite run_seg_killed in Hk. congruence.
    + specialize (Hk j (wake (s_woken g) d)).
      rewrite list_lookup_fmap, list_lookup_insert_ne, Hj in Hk by done.
      specialize (Hk eq_refl). by rewrite wake_killed in Hk.
  - exfalso. specialize (Hk i (kill_caller c)).
    rewrite list_lookup_insert_eq in Hk by by eapply lookup_lt_Some. by specialize (Hk eq_refl).
Qed.

Lemma pstep_awake s s' : pstep s s' -> none_killed s' -> awake_inv s -> awake_inv s'.
Proof.
  intros Hs Hk' (Hwf & Hends & Hsl). pose proof (none_killed_before _ _ Hs Hk') as Hk.
  destruct Hs as [s i c Hi Hr Hcl g|s i c Hi]; cycle 1.
  { exfalso. unfold none_killed in Hk'. rewrite Forall_lookup in Hk'.
    specialize (Hk' i (kill_caller c)). cbn [ps_callers] in Hk'.
    rewrite list_lookup_insert_eq in Hk' by by eapply lookup_lt_Some. by specialize (Hk' eq_refl). }
  unfold none_killed in Hk. rewrite Forall_lookup in Hk, Hends, Hsl.
  assert (Hip : in_progress c = true) by (unfold in_progress; by rewrite Hr).
  destruct (run_seg_awake (ps_pipe s) c Hwf (Hk _ _ Hi) (Hends _ _ Hi) Hip) as [Hself Hothers].
  destruct (run_seg_fifo (ps_pipe s) c Hwf) as [Hwf' _]. fold g in Hself, Hothers, Hwf'.
  assert (Hclose : forall j d, ps_callers s !! j = Some d -> close_ok [d] c).
  { intros j d Hj. unfold close_ok in *. destruct (c_job c); try done.
    rewrite Forall_lookup in Hcl. constructor; [by eapply Hcl | done]. }
  split; [done|]. cbn [ps_pipe ps_callers]. rewrite !Forall_lookup.
  assert (Hlk : forall j d, (wake (s_woken g) <$> <[i:=s_caller g]> (ps_callers s)) !! j = Some d ->
    exists d0, d = wake (s_woken g) d0 /\
      ((j = i /\ d0 = s_caller g) \/ (j <> i /\ ps_callers s !! j = Some d0))).
  { intros j d Hj. rewrite list_lookup_fmap in Hj. destruct (decide (j = i)) as [->|Hne].
    - rewrite list_lookup_insert_eq in Hj by by eapply lookup_lt_Some. simplify_option_eq. eauto.
    - rewrite list_lookup_insert_ne in Hj by done.
      destruct (ps_callers s !! j) eqn:E; simplify_option_eq. eauto. }
  split; intros j d Hj; destruct (Hlk j d Hj) as (d0 & -> & [[-> ->]|[Hne Hj0]]).
  - unfold end_open. rewrite wake_progress, wake_job. intros Hp.
    pose proof (run_seg_ends (ps_pipe s) c c Hwf (Hclose _ _ Hi) (Hends _ _ Hi) Hip) as He.
    pose proof (run_seg_job (ps_pipe s) c) as Hjob. fold g in He, Hjob.
    destruct (c_job (s_caller g)), (c_job c); done.
  - pose proof (run_seg_ends (ps_pipe s) c d0 Hwf (Hclose _ _ Hj0) (Hends _ _ Hj0)) as He.
    unfold end_open in *. by rewrite wake_progress, wake_job.
  - unfold sleeps_rightly, wake in *. destruct (c_status (s_caller g)) as [|[]|] eqn:E; rewrite ?E; try done;
      case_decide; simpl; rewrite ?E; done.
  - by apply Hothers; [apply (Hsl j) | apply (Hends j)].
Qed.

Lemma rtc_awake s s' : rtc pstep s s' -> none_killed s' -> awake_inv s -> awake_inv s'.
Proof.
  intros Hs. revert s' Hs. apply (rtc_ind_r (fun s' => none_killed s' -> awake_inv s -> awake_inv s')).
  - done.
  - intros y z _ Hyz IH Hk Hi. eapply pstep_awake; [done | done |].
    apply IH; [|done]. by eapply none_killed_before.
Qed.

(** C32 No lost wakeups while nobody is killed: in every reachable state in which
    no caller has been killed, a caller asleep in [pipewrite] faces a full ring
    with the read end open, and one asleep in [piperead] an empty ring with the
    write end open; so a reader and a writer never sleep at the same time. *)
Theorem pipe_no_lost_wakeup junk calls s i j c d :
  length junk = Z.to_nat PIPESIZE ->
  Forall (fun c => c_status c = Runnable) calls ->
  rtc pstep (pipe_start junk calls) s -> none_killed s ->
  ps_callers s !! i = Some c -> ps_callers s !! j = Some d ->
  (c_status c = Sleeping Ch_nwrite -> full (ps_pipe s) = true /\ readopen (ps_pipe s) = true) /\
  (c_status c = Sleeping Ch_nread -> empty (ps_pipe s) = true /\ writeopen (ps_pipe s) = true) /\
  ~ (c_status c = Sleeping Ch_nwrite /\ c_status d = Sleeping Ch_nread).
Proof.
  intros Hj Hrun Hs Hk Hc Hd.
  destruct (rtc_awake _ _ Hs Hk) as (Hwf & _ & Hsl).
  { split; [by apply pipe_init_wf|]. split; eapply Forall_impl; [exact Hrun | | exact Hrun |].
    - intros x _. unfold end_open. by destruct (c_job x).
    - intros x Hx. unfold sleeps_rightly. by rewrite Hx. }
  rewrite Forall_lookup in Hsl. pose proof (Hsl _ _ Hc) as H1. pose proof (Hsl _ _ Hd) as H2.
  unfold sleeps_rightly in *. split; [intros E; rewrite E in H1; tauto|].
  split; [intros E; rewrite E in H1; tauto|]. intros [E1 E2]. rewrite E1 in H1. rewrite E2 in H2.
  destruct H1 as (_ & Hf & _), H2 as (_ & He & _).
  apply (full_count _ Hwf) in Hf. apply (empty_count _ Hwf) in He.
  unfold PIPESIZE in *. lia.
Qed.

(** ** Concrete runs *)
Definition ready_caller (j : job) : caller := mkCaller j Runnable false.
Definition demo_junk : list Z := replicate 512 0.
Definition writer513 : caller := ready_caller (Job_write (replicate 513 7) 513).
Definition reader1 : caller := ready_caller (Job_read 1).

(** The state after the segment of caller [i]. *)
Definition seg_of (s : pstate) (i : nat) : pstate :=
  match ps_callers s !! i with
  | Some c =>
      let g := run_seg (ps_pipe s) c in
      mkPState (s_pipe g) (wake (s_woken g) <$> <[i := s_caller g]> (ps_callers s))
        (sent s ++ s_in g) (rcvd s ++ s_out g)
  | None => s
  end.
Definition kill_of (s : pstate) (i : nat) : pstate :=
  match ps_callers s !! i with
  | Some c => mkPState (ps_pipe s) (<[i := kill_caller c]> (ps_callers s)) (sent s) (rcvd s)
  | None => s
  end.
Lemma seg_of_step s i c :
  ps_callers s !! i = Some c -> c_status c = Runnable -> close_ok (ps_callers s) c ->
  pstep s (seg_of s i).
Proof. intros Hi Hr Hc. unfold seg_of. rewrite Hi. by apply step_seg. Qed.
Lemma kill_of_step s i c : ps_callers s !! i = Some c -> pstep s (kill_of s i).
Proof. intros Hi. unfold kill_of. rewrite Hi. by apply step_kill. Qed.

(** A killed writer can leave a reader asleep on a full pipe: a reader sleeps
    on the empty pipe, a writer that is killed fills the ring and returns -1
    from the full-ring test, which does not wake the readers; the reader is
    still asleep although 512 bytes are waiting. *)
Theorem pipe_killed_writer_strands_reader :
  exists s c, rtc pstep (pipe_start demo_junk [writer513; reader1]) s /\
    ps_callers s !! 1%nat = Some c /\ c_job c = Job_read 1 /\
    c_status c = Sleeping Ch_nread /\ full (ps_pipe s) = true.
Proof.
  set (s0 := pipe_start demo_junk [writer513; reader1]).
  exists (seg_of (kill_of (seg_of s0 1) 0) 0). eexists. split.
  - eapply rtc_l; [by apply (seg_of_step s0 1 reader1)|].
    eapply rtc_l; [by apply (kill_of_step (seg_of s0 1) 0 writer513)|].
    eapply rtc_l; [by apply (seg_of_step (kill_of (seg_of s0 1) 0) 0 (kill_caller writer513))|].
    apply rtc_refl.
  - split; [vm_compute; reflexivity|]. by repeat split.
Qed.

Lemma pipe_fifo_witness :
  exists s, rtc pstep (pipe_start demo_junk [writer513; reader1]) s /\
    sent s = replicate 512 7 /\ rcvd s = [7] /\ sent s = rcvd s ++ contents (ps_pipe s).
Proof.
  set (s0 := pipe_start demo_junk [writer513; reader1]).
  set (s1 := seg_of s0 0). set (s2 := seg_of s1 1).
  assert (H : rtc pstep s0 s2).
  { eapply rtc_l; [by apply (seg_of_step s0 0 writer513)|].
    eapply rtc_l; [by apply (seg_of_step s1 1 reader1)|]. apply rtc_refl. }
  exists s2. split; [exact H|]. split; [vm_compute; reflexivity|]. split; [vm_compute; reflexivity|].
  apply (pipe_fifo demo_junk [writer513; reader1] s2); [reflexivity | exact H].
Defined.

Lemma pipe_no_lost_wakeup_witness :
  exists s, rtc pstep (pipe_start demo_junk [writer513; reader1]) s /\
    full (ps_pipe s) = true /\ readopen (ps_pipe s) = true.
Proof.
  set (s0 := pipe_start demo_junk [writer513; reader1]). set (s1 := seg_of s0 0).
  assert (H : rtc pstep s0 s1).
  { eapply rtc_l; [by apply (seg_of_step s0 0 writer513)|]. apply rtc_refl. }
  exists s1. split; [exact H|].
  destruct (pipe_no_lost_wakeup demo_junk [writer513; reader1] s1 0 1
    (mkCaller (Job_write [7] 513) (Sleeping Ch_nwrite) false) reader1) as (Hw & _).
  - reflexivity.
  - by repeat constructor.
  - exact H.
  - by repeat constructor.
  - vm_compute. reflexivity.
  - vm_compute. reflexivity.
  - exact (Hw eq_refl).
Defined.
