(* ===== verification/Log.v ===== *)
(** * Log: the write-ahead log (src/src/log.c)

    A transaction's blocks stay dirty in the buffer cache until [commit]
    copies them to the log area of the disk, writes the header block (the
    commit point), installs them at home and clears the header.  The state
    holds the in-memory log, the cache as [bread]/[bwrite] present it (a
    sector's latest contents and its dirty mark), the disk, and the trace of
    disk writes in order: a crash leaves the disk after some prefix of them.
    A block is its 128 words of 32 bits. *)
From S2P Require Import Prelude.

Definition MAXOPBLOCKS : Z := 10.
Definition LOGSIZE : Z := MAXOPBLOCKS * 3.
Abbreviation block := (list Z).
Definition BWORDS : nat := 128.

Record log := mkLog {
  start : Z; size : Z;
  outstanding : Z; committing : Z;
  lh_n : Z; lh_sector : list Z }.
Record lstate := mkL {
  lg : log;
  cache : gmap Z (block * bool);
  disk : Z -> block;
  trace : list (Z * block) }.

Definition set_lg (x : log) (s : lstate) : lstate := mkL x (cache s) (disk s) (trace s).
Definition set_cache (x : gmap Z (block * bool)) (s : lstate) : lstate :=
  mkL (lg s) x (disk s) (trace s).
Definition set_lh_n (n : Z) (l : log) : log :=
  mkLog (start l) (size l) (outstanding l) (committing l) n (lh_sector l).
Definition set_lh (n : Z) (sec : list Z) (l : log) : log :=
  mkLog (start l) (size l) (outstanding l) (committing l) n sec.
Definition set_ops (o c : Z) (l : log) : log :=
  mkLog (start l) (size l) o c (lh_n l) (lh_sector l).

Definition L : Type -> Type := M lstate.

(** ** The buffer cache, as its clients see it (bio.c) *)
Definition bread (b : Z) : L block := fun s =>
  match cache s !! b with
  | Some (d, _) => Ok (d, s)
  | None => Ok (disk s b, set_cache (<[b := (disk s b, false)]> (cache s)) s)
  end.
(** Set the buffer's data and [bwrite] it: it is clean afterwards. *)
Definition bwrite (b : Z) (d : block) : L unit := fun s =>
  Ok (tt, mkL (lg s) (<[b := (d, false)]> (cache s)) (upd (disk s) b d) (trace s ++ [(b, d)])).
(** Change the data of a buffer without writing it. *)
Definition bmodify (b : Z) (d : block) : L unit := fun s =>
  Ok (tt, set_cache (<[b := (d, match cache s !! b with Some (_, x) => x | None => false end)]>
                       (cache s)) s).

Definition sector_at (i : Z) : L Z := fun s =>
  match (if i <? 0 then None else lh_sector (lg s) !! Z.to_nat i) with
  | Some b => Ok (b, s)
  | None => Fault
  end.

(** ** Lines 67-121 *)
Definition install_trans : L unit :=
  s <- get ;;
  mfor 0 (lh_n (lg s)) (fun tail =>
    lbuf <- bread (start (lg s) + tail + 1) ;;
    b <- sector_at tail ;;
    bread b ;;;
    bwrite b lbuf).

(** The overlay [struct logheader] on a block: word 0 is [n]. *)
Definition hdr_n (h : block) : Z := s32 (nth 0 h 0).
Definition hdr_sector (h : block) (i : Z) : Z := nth (Z.to_nat (1 + i)) h 0.

Definition read_head : L unit :=
  s <- get ;;
  buf <- bread (start (lg s)) ;;
  modify (fun s => set_lg (set_lh_n (hdr_n buf) (lg s)) s) ;;;
  mfor 0 (hdr_n buf) (fun i =>
    if LOGSIZE <=? i then fault
    else modify (fun s => set_lg (set_lh (lh_n (lg s))
           (<[Z.to_nat i := hdr_sector buf i]> (lh_sector (lg s))) (lg s)) s)).

(** The header block with [n] and the first [n] sectors filled in. *)
Definition overlay (h : block) (n : Z) (sec : list Z) : block :=
  zfor 0 n (fun i h => <[Z.to_nat (1 + i) := nth (Z.to_nat i) sec 0]> h) (<[0%nat := n]> h).
Definition write_head : L unit :=
  s <- get ;;
  buf <- bread (start (lg s)) ;;
  bwrite (start (lg s)) (overlay buf (lh_n (lg s)) (lh_sector (lg s))).

Definition recover_from_log : L unit :=
  read_head ;;;
  install_trans ;;;
  modify (fun s => set_lg (set_lh_n 0 (lg s)) s) ;;;
  write_head.

(** ** Lines 173-199 *)
Definition write_log : L unit :=
  s <- get ;;
  mfor 0 (lh_n (lg s)) (fun tail =>
    bread (start (lg s) + tail + 1) ;;;
    b <- sector_at tail ;;
    from <- bread b ;;
    bwrite (start (lg s) + tail + 1) from).

Definition commit : L unit :=
  n <- gets (fun s => lh_n (lg s)) ;;
  if n >? 0 then
    write_log ;;;
    write_head ;;;
    install_trans ;;;
    modify (fun s => set_lg (set_lh_n 0 (lg s)) s) ;;;
    write_head
  else ret tt.

(** ** Operations *)

(** One pass of the loop of [begin_op] (lines 128-139): [false] when it sleeps. *)
Definition begin_op : L bool :=
  s <- get ;;
  let l := lg s in
  if truthy (committing l) then ret false
  else if lh_n l + (outstanding l + 1) * MAXOPBLOCKS >? LOGSIZE then ret false
  else modify (fun s => set_lg (set_ops (outstanding l + 1) (committing l) l) s) ;;; ret true.

(** Lines 149-160 of [end_op]: [true] when this call must commit. *)
Definition end_op_first : L bool :=
  s <- get ;;
  let l := lg s in
  let o := outstanding l - 1 in
  modify (fun s => set_lg (set_ops o (committing l) l) s) ;;;
  if truthy (committing l) then panic "log.committing"
  else if o =? 0 then modify (fun s => set_lg (set_ops o 1 l) s) ;;; ret true
  else ret false.
Definition end_op_last : L unit :=
  modify (fun s => set_lg (set_ops (outstanding (lg s)) 0 (lg s)) s).
Definition end_op : L unit :=
  do_commit <- end_op_first ;;
  if (do_commit : bool) then commit ;;; end_op_last else ret tt.

(** Lines 220-223: the position of sector [b] among the first [n], or [n]. *)
Fixpoint absorb (l : list Z) (b : Z) (i n : Z) : Z :=
  match l with
  | [] => i
  | c :: l' => if (i <? n) && negb (c =? b) then absorb l' b (i + 1) n else i
  end.
Definition log_write (b : Z) : L unit :=
  s <- get ;;
  let l := lg s in
  if (lh_n l >=? LOGSIZE) || (lh_n l >=? size l - 1) then panic "too big a transaction"
  else if outstanding l <? 1 then panic "log_write outside of trans"
  else
    let i := absorb (lh_sector l) b 0 (lh_n l) in
    modify (fun s => set_lg (set_lh (if i =? lh_n l then lh_n l + 1 else lh_n l)
                               (<[Z.to_nat i := b]> (lh_sector l)) l) s) ;;;
    d <- bread b ;;
    modify (fun s => set_cache (<[b := (d, true)]> (cache s)) s).

(** [initlog] after the superblock is read: lines 61-64. *)
Definition initlog (sb_size sb_nlog : Z) : L unit :=
  modify (fun s => set_lg (mkLog (sb_size - sb_nlog) sb_nlog (outstanding (lg s))
                             (committing (lg s)) (lh_n (lg s)) (lh_sector (lg s))) s) ;;;
  recover_from_log.
