(* ===== verification/LogFacts.v ===== *)
(** * LogFacts: transactions are atomic across crashes

    The disk a crash leaves is the disk after a prefix of the writes issued.
    Whatever the prefix, recovery (itself interrupted by crashes any number of
    times) ends with all blocks of the transaction or with none of them. *)
From S2P Require Import Prelude Log.

(** ** Sequences of disk writes *)
Definition apply_writes (ws : list (Z * block)) (d : Z -> block) : Z -> block :=
  fold_left (fun d w => upd d w.1 w.2) ws d.

Section Writes.
Implicit Types (ws : list (Z * block)) (d : Z -> block) (b : Z).

Lemma apply_app ws1 ws2 d :
  apply_writes (ws1 ++ ws2) d = apply_writes ws2 (apply_writes ws1 d).
Proof. apply fold_left_app. Qed.
Lemma apply_same ws d d' b : d b = d' b -> apply_writes ws d b = apply_writes ws d' b.
Proof.
  revert d d'. induction ws as [|w ws IH]; intros d d' H; [done|]. simpl. apply IH.
  unfold upd. by case_if.
Qed.
Lemma apply_out ws d b : (b ∉ ws.*1) -> apply_writes ws d b = d b.
Proof.
  revert d. induction ws as [|w ws IH]; intros d Hb; [done|]. simpl.
  rewrite fmap_cons, not_elem_of_cons in Hb. destruct Hb as [? ?].
  rewrite IH by done. by apply upd_ne.
Qed.
Lemma apply_in ws d b v : NoDup ws.*1 -> (b, v) ∈ ws -> apply_writes ws d b = v.
Proof.
  revert d. induction ws as [|w ws IH]; intros d Hnd Hin; [by apply elem_of_nil in Hin|].
  rewrite fmap_cons in Hnd. apply NoDup_cons in Hnd as [Hw Hnd]. simpl.
  apply elem_of_cons in Hin as [<-|Hin]; [|by apply IH].
  rewrite apply_out by done. apply upd_eq.
Qed.
Lemma prefix_fst ws1 ws b : ws1 `prefix_of` ws -> b ∈ ws1.*1 -> b ∈ ws.*1.
Proof. intros [k ->]. rewrite fmap_app. set_solver. Qed.
End Writes.

(** ** Runs that read and write blocks *)

(** The latest contents of a sector. *)
Definition content (s : lstate) (b : Z) : block :=
  match cache s !! b with Some (d, _) => d | None => disk s b end.

(** From [s] to [s'] exactly the writes [ws] went to the disk. *)
Record wrote (s : lstate) (ws : list (Z * block)) (s' : lstate) : Prop := mkWrote {
  wr_lg : lg s' = lg s;
  wr_disk : forall b, disk s' b = apply_writes ws (disk s) b;
  wr_trace : trace s' = trace s ++ ws;
  wr_content : forall b, content s' b = apply_writes ws (content s) b }.

Lemma wrote_refl s : wrote s [] s.
Proof. split; try done. by rewrite app_nil_r. Qed.
Lemma wrote_trans s1 ws1 s2 ws2 s3 :
  wrote s1 ws1 s2 -> wrote s2 ws2 s3 -> wrote s1 (ws1 ++ ws2) s3.
Proof.
  intros [H1 H2 H3 H4] [K1 K2 K3 K4]. split.
  - congruence.
  - intros b. rewrite K2, apply_app. by apply apply_same.
  - by rewrite K3, H3, (assoc_L (++)).
  - intros b. rewrite K4, apply_app. by apply apply_same.
Qed.

Lemma bread_wrote b s : exists s', bread b s = Ok (content s b, s') /\ wrote s [] s'.
Proof.
  unfold bread, content. destruct (cache s !! b) as [[d x]|] eqn:E.
  - exists s. split; [done | apply wrote_refl].
  - eexists. split; [reflexivity|]. split; try done; simpl; [by rewrite app_nil_r|].
    intros c. unfold content. simpl. destruct (decide (b = c)) as [->|].
    + by rewrite lookup_insert_eq, E.
    + by rewrite lookup_insert_ne.
Qed.
Lemma bwrite_wrote b d s : exists s', bwrite b d s = Ok (tt, s') /\ wrote s [(b, d)] s'.
Proof.
  eexists. split; [reflexivity|]. split; try done.
  intros c. unfold content. simpl. unfold upd. destruct (Z.eqb_spec c b) as [->|].
  - by rewrite lookup_insert_eq.
  - by rewrite lookup_insert_ne.
Qed.

(** A loop whose passes write one block each. *)
Section Copy_loops.
Variables (body : Z -> L unit) (src dst : Z -> Z -> Z) (st : Z) (sec : list Z).
(** Pass [i] on sector [b] copies block [src i b] to block [dst i b]. *)
Hypothesis Hbody : forall i b s, lh_sector (lg s) = sec -> start (lg s) = st ->
  sec !! i = Some b ->
  exists s', body (Z.of_nat i) s = Ok (tt, s') /\
    wrote s [(dst (Z.of_nat i) b, content s (src (Z.of_nat i) b))] s'.

(** The blocks read are not among those written. *)
Lemma copy_loop (l : list Z) : forall j s,
  lh_sector (lg s) = sec -> start (lg s) = st ->
  (forall i b, l !! i = Some b -> sec !! (j + i)%nat = Some b) ->
  (forall i i' b b', l !! i = Some b -> l !! i' = Some b' ->
     src (Z.of_nat (j + i)) b <> dst (Z.of_nat (j + i')) b') ->
  exists s', mfor_list (seqZ (Z.of_nat j) (Z.of_nat (length l))) body s = Ok (tt, s') /\
    wrote s (imap (fun i b => (dst (Z.of_nat (j + i)) b, content s (src (Z.of_nat (j + i)) b))) l) s'.
Proof using Hbody.
  induction l as [|b l IH]; intros j s Hsec Hst Hl Hdisj.
  { exists s. split; [done | apply wrote_refl]. }
  cbn [length]. rewrite seqZ_cons by lia. cbn [mfor_list].
  destruct (Hbody j b s Hsec Hst) as (s1 & E1 & W1).
  { specialize (Hl 0%nat b eq_refl). by rewrite Nat.add_0_r in Hl. }
  rewrite (bind_Ok _ _ _ _ _ E1).
  destruct (IH (S j) s1) as (s2 & E2 & W2).
  - by rewrite (wr_lg _ _ _ W1).
  - by rewrite (wr_lg _ _ _ W1).
  - intros i c Hi. specialize (Hl (S i) c Hi). by rewrite Nat.add_succ_r in Hl.
  - intros i i' c c' Hi Hi'. specialize (Hdisj (S i) (S i') c c' Hi Hi').
    by rewrite !Nat.add_succ_r in Hdisj.
  - exists s2. split.
    { rewrite <- E2. f_equal. f_equal; lia. }
    cbn [imap]. rewrite Nat.add_0_r.
    eapply (wrote_trans _ [_]); [exact W1|].
    replace (imap ((fun i b => (dst (Z.of_nat (j + i)) b, content s (src (Z.of_nat (j + i)) b))) ∘ S) l)
      with (imap (fun i b => (dst (Z.of_nat (S j + i)) b, content s1 (src (Z.of_nat (S j + i)) b))) l);
      [done|].
    apply imap_ext. intros i c Hi. simpl. rewrite Nat.add_succ_r. f_equal.
    rewrite (wr_content _ _ _ W1). apply apply_out. simpl.
    rewrite not_elem_of_cons. split; [|apply not_elem_of_nil].
    specialize (Hdisj (S i) 0%nat c b Hi eq_refl). by rewrite Nat.add_succ_r, Nat.add_0_r in Hdisj.
Qed.
End Copy_loops.

Lemma sector_at_run i b s :
  lh_sector (lg s) !! i = Some b -> sector_at (Z.of_nat i) s = Ok (b, s).
Proof.
  intros H. unfold sector_at. destruct (Z.ltb_spec (Z.of_nat i) 0); [lia|].
  by rewrite Nat2Z.id, H.
Qed.

(** The sectors of the transaction in memory. *)
Definition logged (s : lstate) : list Z := take (Z.to_nat (lh_n (lg s))) (lh_sector (lg s)).
Definition in_log (l : log) (b : Z) : Prop := start l <= b < start l + size l.

(** Sectors in a log header: at most fill the log, distinct, all at home. *)
Record sectors_ok (l : log) (secs : list Z) : Prop := mkSectorsOk {
  so_len : Z.of_nat (length secs) <= LOGSIZE;
  so_fit : Z.of_nat (length secs) < size l;
  so_nodup : NoDup secs;
  so_home : Forall (fun b => ~ in_log l b) secs }.

Section Loops.
Variables (s : lstate).
Hypotheses (Hn : 0 <= lh_n (lg s)) (Hlen : Z.of_nat (length (lh_sector (lg s))) = LOGSIZE)
  (Hle : lh_n (lg s) <= LOGSIZE) (Hok : sectors_ok (lg s) (logged s)).

Lemma length_logged : Z.of_nat (length (logged s)) = lh_n (lg s).
Proof using Hn Hlen Hle. unfold logged. rewrite length_take. lia. Qed.
Lemma logged_lookup i b : logged s !! i = Some b -> lh_sector (lg s) !! i = Some b.
Proof using. unfold logged. intros [? ?]%lookup_take_Some. done. Qed.
Lemma logged_home i b k :
  logged s !! i = Some b -> 0 <= k < Z.of_nat (length (logged s)) -> b <> start (lg s) + k + 1.
Proof using Hok.
  intros Hi Hk. pose proof (so_home _ _ Hok) as H. rewrite Forall_lookup in H.
  specialize (H i b Hi). pose proof (so_fit _ _ Hok). unfold in_log in H. lia.
Qed.

Lemma write_log_run :
  exists s', write_log s = Ok (tt, s') /\
    wrote s (imap (fun i b => (start (lg s) + Z.of_nat i + 1, content s b)) (logged s)) s'.
Proof using Hn Hlen Hle Hok.
  unfold write_log. erewrite bind_Ok; [|reflexivity]. unfold mfor.
  rewrite Z.sub_0_r, <- length_logged. change 0 with (Z.of_nat 0) at 1.
  eapply (copy_loop _ (fun _ b => b) (fun i _ => start (lg s) + i + 1) (start (lg s))
    (lh_sector (lg s))); try done.
  - intros i b s1 Hsec Hst Hi.
    destruct (bread_wrote (start (lg s) + Z.of_nat i + 1) s1) as (s2 & E2 & W2).
    destruct (bread_wrote b s2) as (s3 & E3 & W3).
    destruct (bwrite_wrote (start (lg s) + Z.of_nat i + 1) (content s2 b) s3) as (s4 & E4 & W4).
    exists s4. rewrite (bind_Ok _ _ _ _ _ E2).
    rewrite (bind_Ok _ _ _ b s2) by (apply sector_at_run; by rewrite (wr_lg _ _ _ W2), Hsec).
    rewrite (bind_Ok _ _ _ _ _ E3), E4. split; [done|].
    rewrite (wr_content _ _ _ W2) in W4.
    exact (wrote_trans _ _ _ _ _ W2 (wrote_trans _ _ _ _ _ W3 W4)).
  - intros i b Hi. by apply logged_lookup.
  - intros i i' b b' Hi Hi'. simpl. apply (logged_home i); [done|].
    apply lookup_lt_Some in Hi'. lia.
Qed.

Lemma install_trans_run :
  exists s', install_trans s = Ok (tt, s') /\
    wrote s (imap (fun i b => (b, content s (start (lg s) + Z.of_nat i + 1))) (logged s)) s'.
Proof using Hn Hlen Hle Hok.
  unfold install_trans. erewrite bind_Ok; [|reflexivity]. unfold mfor.
  rewrite Z.sub_0_r, <- length_logged. change 0 with (Z.of_nat 0) at 1.
  eapply (copy_loop _ (fun i _ => start (lg s) + i + 1) (fun _ b => b) (start (lg s))
    (lh_sector (lg s))); try done.
  - intros i b s1 Hsec Hst Hi.
    destruct (bread_wrote (start (lg s) + Z.of_nat i + 1) s1) as (s2 & E2 & W2).
    destruct (bread_wrote b s2) as (s3 & E3 & W3).
    destruct (bwrite_wrote b (content s1 (start (lg s) + Z.of_nat i + 1)) s3) as (s4 & E4 & W4).
    exists s4. rewrite (bind_Ok _ _ _ _ _ E2).
    rewrite (bind_Ok _ _ _ b s2) by (apply sector_at_run; by rewrite (wr_lg _ _ _ W2), Hsec).
    rewrite (bind_Ok _ _ _ _ _ E3), E4. split; [done|].
    exact (wrote_trans _ _ _ _ _ W2 (wrote_trans _ _ _ _ _ W3 W4)).
  - intros i b Hi. by apply logged_lookup.
  - intros i i' b b' Hi Hi'. simpl. intros Heq. symmetry in Heq. revert Heq.
    apply (logged_home i'); [done|]. apply lookup_lt_Some in Hi. lia.
Qed.

Lemma write_head_run :
  exists s', write_head s = Ok (tt, s') /\
    wrote s [(start (lg s), overlay (content s (start (lg s))) (lh_n (lg s)) (lh_sector (lg s)))] s'.
Proof using.
  unfold write_head. erewrite bind_Ok; [|reflexivity].
  destruct (bread_wrote (start (lg s)) s) as (s1 & E1 & W1).
  rewrite (bind_Ok _ _ _ _ _ E1).
  destruct (bwrite_wrote (start (lg s)) (overlay (content s (start (lg s))) (lh_n (lg s))
    (lh_sector (lg s))) s1) as (s2 & E2 & W2).
  exists s2. split; [done|]. exact (wrote_trans _ _ _ _ _ W1 W2).
Qed.
End Loops.

(** ** The header block *)
Section Header.
Implicit Types (h : block) (sec : list Z).

Lemma overlay_spec h n sec :
  length h = BWORDS -> 0 <= n <= LOGSIZE ->
  length (overlay h n sec) = BWORDS /\ hdr_n (overlay h n sec) = n /\
  forall i, 0 <= i < n -> hdr_sector (overlay h n sec) i = nth (Z.to_nat i) sec 0.
Proof.
  intros Hh Hn. unfold overlay.
  assert (H : forall k, 0 <= k <= n ->
    let h' := zfor 0 k (fun i h => <[Z.to_nat (1 + i) := nth (Z.to_nat i) sec 0]> h) (<[0%nat := n]> h) in
    length h' = BWORDS /\ nth 0 h' 0 = n /\
    forall i, 0 <= i < k -> hdr_sector h' i = nth (Z.to_nat i) sec 0).
  { intros k Hk. apply (zfor_ind (fun k h' => length h' = BWORDS /\ nth 0 h' 0 = n /\
      forall i, 0 <= i < k -> hdr_sector h' i = nth (Z.to_nat i) sec 0)).
    - lia.
    - rewrite length_insert. split; [done|]. split; [|lia].
      rewrite nth_lookup, list_lookup_insert_eq by (unfold BWORDS in Hh; lia). done.
    - intros i h' Hi (Hl & H0 & Hs). rewrite length_insert. split; [done|]. split.
      + rewrite nth_lookup, list_lookup_insert_ne by lia. by rewrite <- nth_lookup.
      + intros i' Hi'. unfold hdr_sector. rewrite nth_lookup.
        destruct (decide (i' = i)) as [->|].
        * rewrite list_lookup_insert_eq; [done|]. unfold BWORDS, LOGSIZE, MAXOPBLOCKS in *. lia.
        * rewrite list_lookup_insert_ne by lia. rewrite <- nth_lookup. apply Hs. lia. }
  destruct (H n ltac:(lia)) as (H1 & H2 & H3). split; [done|]. split; [|done].
  unfold hdr_n. rewrite H2. apply s32_small. unfold LOGSIZE, MAXOPBLOCKS in *. lia.
Qed.
End Header.

(** The sectors named by the header on disk. *)
Definition disk_sectors (h : block) : list Z := map (hdr_sector h) (seqZ 0 (hdr_n h)).

(** ** What recovery will make of a disk

    A home block named in the header comes from the log area. *)
Definition view (l : log) (d : Z -> block) (b : Z) : block :=
  match list_find (fun c => c = b) (disk_sectors (d (start l))) with
  | Some (i, _) => d (start l + Z.of_nat i + 1)
  | None => d b
  end.

Record log_valid (l : log) (d : Z -> block) : Prop := mkLogValid {
  lv_len : length (d (start l)) = BWORDS;
  lv_n : 0 <= hdr_n (d (start l)) <= LOGSIZE;
  lv_sectors : sectors_ok l (disk_sectors (d (start l))) }.

Lemma overlay_sectors h n sec :
  length h = BWORDS -> 0 <= n <= LOGSIZE -> n <= Z.of_nat (length sec) ->
  disk_sectors (overlay h n sec) = take (Z.to_nat n) sec.
Proof.
  intros Hh Hn Hs. destruct (overlay_spec h n sec Hh Hn) as (_ & Hhn & Hsec).
  unfold disk_sectors. rewrite Hhn. apply list_eq. intros i.
  change (map ?f) with (fmap (M := list) f). rewrite list_lookup_fmap.
  destruct (decide (i < Z.to_nat n)%nat) as [Hi|Hi].
  - rewrite lookup_seqZ_lt by lia. simpl. rewrite Hsec by lia. rewrite lookup_take_lt by lia.
    replace (Z.to_nat (0 + Z.of_nat i)) with i by lia. rewrite nth_lookup.
    destruct (sec !! i) eqn:E; [done|]. apply lookup_ge_None in E. lia.
  - rewrite lookup_seqZ_ge by lia. simpl. symmetry. apply lookup_ge_None. rewrite length_take. lia.
Qed.

Lemma view_empty l d b : hdr_n (d (start l)) = 0 -> view l d b = d b.
Proof. intros H. unfold view, disk_sectors. by rewrite H. Qed.

Lemma list_find_index (l : list Z) i b :
  NoDup l -> l !! i = Some b -> list_find (fun c => c = b) l = Some (i, b).
Proof.
  intros Hnd Hi. apply list_find_Some. split; [done|]. split; [done|].
  intros j c Hj Hlt ->. pose proof (NoDup_lookup _ _ _ _ Hnd Hi Hj). lia.
Qed.
Lemma list_find_absent (l : list Z) b : (b ∉ l) -> list_find (fun c => c = b) l = None.
Proof. intros H. apply list_find_None. apply Forall_forall. by intros c Hc ->. Qed.

Lemma view_in l d i b :
  NoDup (disk_sectors (d (start l))) -> disk_sectors (d (start l)) !! i = Some b ->
  view l d b = d (start l + Z.of_nat i + 1).
Proof. intros Hnd Hi. unfold view. by rewrite (list_find_index _ i). Qed.
Lemma view_out l d b : (b ∉ disk_sectors (d (start l))) -> view l d b = d b.
Proof. intros H. unfold view. by rewrite list_find_absent. Qed.

(** ** The writes of a commit *)
Section Commit.
Variables (l : log) (C : Z -> block) (secs sec : list Z) (h : block).
Let st := start l.
Let n := Z.of_nat (length secs).
Definition log_copies : list (Z * block) := imap (fun i b => (st + Z.of_nat i + 1, C b)) secs.
Definition home_copies : list (Z * block) := imap (fun _ b => (b, C b)) secs.
Definition commit_head : block := overlay h n sec.
Definition clear_head : block := overlay commit_head 0 sec.
Definition commit_writes : list (Z * block) :=
  log_copies ++ (st, commit_head) :: home_copies ++ [(st, clear_head)].

Lemma log_copies_fst b : b ∈ log_copies.*1 -> st < b <= st + n.
Proof using.
  unfold log_copies. rewrite list_elem_of_fmap. intros ([b' v] & -> & Hin).
  apply elem_of_lookup_imap in Hin as (i & c & Heq & Hi). simplify_eq. simpl.
  apply lookup_lt_Some in Hi. lia.
Qed.
Lemma home_copies_fst : home_copies.*1 = secs.
Proof using.
  unfold home_copies. rewrite fmap_imap. unfold compose. simpl.
  rewrite <- (list_fmap_id secs) at 2. by rewrite <- imap_const.
Qed.
Lemma log_copies_nodup : NoDup log_copies.*1.
Proof using.
  unfold log_copies. rewrite fmap_imap. apply NoDup_alt. intros i j x Hi Hj.
  rewrite list_lookup_imap in Hi, Hj. unfold compose in *. simpl in *.
  destruct (secs !! i), (secs !! j); simplify_option_eq. lia.
Qed.
Lemma log_copies_at d i b :
  secs !! i = Some b -> apply_writes log_copies d (st + Z.of_nat i + 1) = C b.
Proof using.
  intros Hi. apply apply_in; [apply log_copies_nodup|].
  apply elem_of_lookup_imap. by exists i, b.
Qed.
End Commit.

Section Commit_run.
Variables (s : lstate).
Hypotheses (Hn : 0 < lh_n (lg s) <= LOGSIZE)
  (Hlen : Z.of_nat (length (lh_sector (lg s))) = LOGSIZE) (Hok : sectors_ok (lg s) (logged s)).
Let ws := commit_writes (lg s) (content s) (logged s) (lh_sector (lg s)) (content s (start (lg s))).

Lemma commit_run :
  exists s', commit s = Ok (tt, s') /\ lg s' = set_lh_n 0 (lg s) /\
    trace s' = trace s ++ ws /\ (forall b, disk s' b = apply_writes ws (disk s) b) /\
    (forall b, content s' b = apply_writes ws (content s) b).
Proof using Hn Hlen Hok.
  assert (HnL : Z.of_nat (length (logged s)) = lh_n (lg s)) by (apply length_logged; lia || done).
  unfold commit. erewrite bind_Ok; [|reflexivity].
  destruct (Z.gtb_spec (lh_n (lg s)) 0); [|lia].
  destruct (write_log_run s ltac:(lia) Hlen ltac:(lia) Hok) as (s1 & E1 & W1).
  rewrite (bind_Ok _ _ _ _ _ E1). pose proof (wr_lg _ _ _ W1) as L1.
  destruct (write_head_run s1) as (s2 & E2 & W2). rewrite (bind_Ok _ _ _ _ _ E2).
  pose proof (wr_lg _ _ _ W2) as L2. rewrite L1 in *.
  assert (Hst1 : content s1 (start (lg s)) = content s (start (lg s))).
  { rewrite (wr_content _ _ _ W1). apply apply_out. intros Hin.
    apply (log_copies_fst (lg s)) in Hin. lia. }
  rewrite Hst1 in W2. rewrite <- HnL in W2.
  destruct (install_trans_run s2) as (s3 & E3 & W3);
    try (unfold logged; rewrite L2; done || lia).
  rewrite (bind_Ok _ _ _ _ _ E3). pose proof (wr_lg _ _ _ W3) as L3. rewrite L2 in *.
  assert (Hlg : logged s2 = logged s) by (unfold logged; by rewrite L2).
  assert (Hw2 : imap (fun i b => (b, content s2 (start (lg s) + Z.of_nat i + 1))) (logged s2)
                = home_copies (content s) (logged s)).
  { rewrite Hlg. apply imap_ext. intros i b Hi. simpl. f_equal.
    rewrite (wr_content _ _ _ W2). rewrite apply_out by (simpl; set_solver by lia).
    rewrite (wr_content _ _ _ W1). by apply (log_copies_at (lg s)). }
  rewrite Hw2 in W3. erewrite bind_Ok; [|reflexivity].
  set (s4 := set_lg _ s3).
  destruct (write_head_run s4) as (s5 & E5 & W5). exists s5. split; [done|].
  pose proof (wr_lg _ _ _ W5) as L5. split; [by rewrite L5; simpl; rewrite L3|].
  assert (Hh : content s4 (start (lg s4)) =
    commit_head (logged s) (lh_sector (lg s)) (content s (start (lg s)))).
  { change (content s3 (start (lg s3)) = commit_head (logged s) (lh_sector (lg s))
      (content s (start (lg s)))). rewrite L3.
    rewrite (wr_content _ _ _ W3), apply_out.
    - rewrite (wr_content _ _ _ W2). simpl. by rewrite upd_eq.
    - rewrite home_copies_fst. intros Hin. pose proof (so_home _ _ Hok) as H'.
      rewrite Forall_forall in H'. apply (H' _ Hin). unfold in_log.
      pose proof (so_fit _ _ Hok). lia. }
  assert (W4 : wrote s3 [(start (lg s), clear_head (logged s) (lh_sector (lg s))
    (content s (start (lg s))))] (set_lg (lg s3) s5)).
  { destruct W5 as [_ D5 T5 C5]. rewrite Hh in D5, T5, C5. simpl in D5, T5, C5. rewrite L3 in *.
    split; [done | exact D5 | exact T5 | exact C5]. }
  pose proof (wrote_trans _ _ _ _ _ W1 (wrote_trans _ _ _ _ _ W2
    (wrote_trans _ _ _ _ _ W3 W4))) as [_ WD WT WC].
  done.
Qed.
End Commit_run.

(** ** Crashes during a commit *)
Lemma prefix_app_inv {A} (p a b : list A) :
  p `prefix_of` a ++ b -> p `prefix_of` a \/ exists q, p = a ++ q /\ q `prefix_of` b.
Proof.
  revert p. induction a as [|x a IH]; intros p Hp; [right; by exists p|].
  destruct p as [|y p]; [left; apply prefix_nil|].
  simpl in Hp. pose proof (prefix_cons_inv_1 _ _ _ _ Hp) as ->.
  apply prefix_cons_inv_2 in Hp. destruct (IH p Hp) as [?|(q & -> & ?)].
  - left. by apply prefix_cons.
  - right. by exists q.
Qed.

(** The blocks at home, old or with the transaction applied. *)
Definition home_is (l : log) (d : Z -> block) (v : Z -> block) : Prop :=
  forall b, ~ in_log l b -> view l d b = v b.
Definition with_txn (C : Z -> block) (secs : list Z) (d : Z -> block) (b : Z) : block :=
  if decide (b ∈ secs) then C b else d b.

Section Crash.
Variables (l : log) (C d : Z -> block) (sec secs : list Z).
Let st := start l.
Hypotheses (Hlen : length (d st) = BWORDS) (Hclean : hdr_n (d st) = 0)
  (Hsec : Z.of_nat (length sec) = LOGSIZE) (Hsecs : secs = take (length secs) sec)
  (Hok : sectors_ok l secs).
Let n := Z.of_nat (length secs).

Lemma st_in_log : in_log l st.
Proof using All. unfold in_log. pose proof (so_fit _ _ Hok). subst st. lia. Qed.
Lemma secs_home b : b ∈ secs -> ~ in_log l b.
Proof using All. pose proof (so_home _ _ Hok) as H. rewrite Forall_forall in H. apply H. Qed.
Lemma log_area i : 0 <= i < n -> in_log l (st + i + 1).
Proof using All. pose proof (so_fit _ _ Hok). unfold in_log. subst n st. lia. Qed.

Lemma clear_valid (d' : Z -> block) :
  length (d' st) = BWORDS -> hdr_n (d' st) = 0 -> log_valid l d'.
Proof using All.
  intros H1 H2. split; [done | unfold st in *; rewrite H2; split; done |].
  unfold disk_sectors. fold st. rewrite H2. split; simpl; [done | | constructor | constructor].
  pose proof (so_fit _ _ Hok). lia.
Qed.

(** Before the commit point: nothing has happened. *)
Lemma crash_before p :
  p `prefix_of` log_copies l C secs -> log_valid l (apply_writes p d) /\ home_is l (apply_writes p d) d.
Proof using All.
  intros Hp.
  assert (Hout : forall b, ~ (st < b <= st + n) -> apply_writes p d b = d b).
  { intros b Hb. apply apply_out. intros Hin. apply Hb.
    by apply (log_copies_fst l C), (prefix_fst p). }
  assert (Hst : apply_writes p d st = d st) by (apply Hout; lia).
  split; [by apply clear_valid; rewrite Hst|].
  intros b Hb. rewrite view_empty by (fold st; by rewrite Hst). apply Hout.
  unfold in_log in Hb. fold st in Hb. pose proof (so_fit _ _ Hok). subst n. lia.
Qed.

(** After it: the log holds the transaction, whatever has been installed. *)
Lemma crash_after q :
  q `prefix_of` home_copies C secs ->
  let d1 := apply_writes (log_copies l C secs ++ (st, commit_head secs sec (d st)) :: q) d in
  log_valid l d1 /\ home_is l d1 (with_txn C secs d).
Proof using All.
  intros Hq d1. set (h1 := commit_head secs sec (d st)) in *.
  assert (Hqh : forall b, b ∈ q.*1 -> b ∈ secs).
  { intros b Hb. rewrite <- (home_copies_fst C secs). by apply (prefix_fst q). }
  assert (Hd1 : forall b, (b ∉ q.*1) -> b <> st -> d1 b = apply_writes (log_copies l C secs) d b).
  { intros b Hb Hne. subst d1. rewrite apply_app. simpl. rewrite apply_out by done. by apply upd_ne. }
  assert (Hst : d1 st = h1).
  { subst d1. rewrite apply_app. simpl. rewrite apply_out; [apply upd_eq|].
    intros Hin%Hqh%secs_home. apply Hin, st_in_log. }
  assert (Hn : 0 <= n <= LOGSIZE) by (subst n; pose proof (so_len _ _ Hok); lia).
  destruct (overlay_spec (d st) n sec Hlen Hn) as (Hl1 & Hn1 & _).
  assert (Hds : disk_sectors h1 = secs).
  { subst h1. unfold commit_head. fold n. rewrite overlay_sectors by (done || lia).
    etransitivity; [|symmetry; exact Hsecs]. f_equal. unfold n. lia. }
  assert (Hlog : forall i b, secs !! i = Some b -> d1 (st + Z.of_nat i + 1) = C b).
  { intros i b Hi. pose proof (lookup_lt_Some _ _ _ Hi) as Hlt. rewrite Hd1.
    - by apply log_copies_at.
    - intros Hin%Hqh%secs_home. apply Hin, log_area. subst n. lia.
    - lia. }
  split.
  - split; fold st; rewrite Hst; [exact Hl1 | subst h1; unfold commit_head; fold n; by rewrite Hn1 |].
    by rewrite Hds.
  - intros b Hb. unfold with_txn. case_decide as Hin.
    + apply list_elem_of_lookup in Hin as [i Hi].
      rewrite (view_in _ _ i); fold st; rewrite ?Hst, ?Hds; [by apply Hlog | by apply (so_nodup _ _ Hok) | done].
    + rewrite view_out by (fold st; by rewrite Hst, Hds).
      rewrite Hd1; [|by intros ?%Hqh | intros ->; apply Hb, st_in_log].
      apply apply_out. intros Hx%log_copies_fst. apply Hb. unfold in_log.
      pose proof (so_fit _ _ Hok). fold st. subst n. lia.
Qed.

(** And when the header is clear again everything is at home. *)
Lemma crash_done :
  let d1 := apply_writes (commit_writes l C secs sec (d st)) d in
  log_valid l d1 /\ hdr_n (d1 st) = 0 /\ (forall b, ~ in_log l b -> d1 b = with_txn C secs d b).
Proof using All.
  intros d1. assert (Hn : 0 <= n <= LOGSIZE) by (subst n; pose proof (so_len _ _ Hok); lia).
  destruct (overlay_spec (d st) n sec Hlen Hn) as (Hl1 & Hn1 & _).
  destruct (overlay_spec (commit_head secs sec (d st)) 0 sec Hl1 ltac:(done)) as (Hl0 & Hn0 & _).
  assert (Hst : d1 st = clear_head secs sec (d st)).
  { subst d1. unfold commit_writes. fold st. rewrite apply_app. simpl. rewrite apply_app. simpl.
    apply upd_eq. }
  split; [apply clear_valid; rewrite Hst; done|]. split; [by rewrite Hst|].
  intros b Hb. assert (b <> st) by (intros ->; apply Hb, st_in_log).
  subst d1. unfold commit_writes. fold st. rewrite apply_app. simpl. rewrite apply_app. simpl.
  rewrite upd_ne by done. unfold with_txn. case_decide as Hin.
  - apply list_elem_of_lookup in Hin as [i Hi]. apply apply_in.
    + rewrite home_copies_fst. apply (so_nodup _ _ Hok).
    + apply elem_of_lookup_imap. by exists i, b.
  - rewrite apply_out by by rewrite home_copies_fst. rewrite upd_ne by done.
    apply apply_out. intros Hx%log_copies_fst. apply Hb. unfold in_log.
    pose proof (so_fit _ _ Hok). fold st. subst n. lia.
Qed.

Lemma crash_any p :
  p `prefix_of` commit_writes l C secs sec (d st) ->
  log_valid l (apply_writes p d) /\
  (home_is l (apply_writes p d) d \/ home_is l (apply_writes p d) (with_txn C secs d)).
Proof using All.
  intros Hp. unfold commit_writes in Hp. fold st in Hp.
  apply prefix_app_inv in Hp as [Hp|(q & -> & Hq)].
  { destruct (crash_before p Hp) as [? ?]. auto. }
  destruct q as [|w q]; [rewrite app_nil_r; destruct (crash_before (log_copies l C secs)); auto|].
  pose proof (prefix_cons_inv_1 _ _ _ _ Hq) as ->. apply prefix_cons_inv_2 in Hq.
  apply prefix_app_inv in Hq as [Hq|(q' & -> & Hq)].
  { destruct (crash_after q Hq) as [? ?]. auto. }
  destruct q' as [|w q'].
  { rewrite app_nil_r. destruct (crash_after (home_copies C secs)) as [? ?]; auto. }
  pose proof (prefix_cons_inv_1 _ _ _ _ Hq) as ->. apply prefix_cons_inv_2, prefix_nil_inv in Hq as ->.
  destruct crash_done as (Hv & H0 & Hhome). split; [exact Hv|]. right. intros b Hb.
  etransitivity; [by apply view_empty | by apply Hhome].
Qed.
End Crash.

(** ** Recovery *)

(** Lines 91-93 as a function. *)
Definition fill (h : block) (n : Z) (sec : list Z) : list Z :=
  zfor 0 n (fun i sec => <[Z.to_nat i := hdr_sector h i]> sec) sec.

Lemma fill_spec h n sec :
  0 <= n <= Z.of_nat (length sec) ->
  length (fill h n sec) = length sec /\
  take (Z.to_nat n) (fill h n sec) = map (hdr_sector h) (seqZ 0 n).
Proof.
  intros Hn. unfold fill.
  assert (H : forall k, 0 <= k <= n ->
    let sec' := zfor 0 k (fun i sec => <[Z.to_nat i := hdr_sector h i]> sec) sec in
    length sec' = length sec /\ forall i, 0 <= i < k -> sec' !! Z.to_nat i = Some (hdr_sector h i)).
  { intros k Hk. apply (zfor_ind (fun k sec' => length sec' = length sec /\
      forall i, 0 <= i < k -> sec' !! Z.to_nat i = Some (hdr_sector h i))).
    - lia.
    - split; [done | lia].
    - intros i sec' Hi [Hl Hs]. rewrite length_insert. split; [done|]. intros j Hj.
      destruct (decide (j = i)) as [->|].
      + rewrite list_lookup_insert_eq; [done|]. lia.
      + rewrite list_lookup_insert_ne by lia. apply Hs. lia. }
  destruct (H n ltac:(lia)) as [Hl Hs]. split; [done|]. apply list_eq. intros i.
  change (map ?f) with (fmap (M := list) f). rewrite list_lookup_fmap.
  destruct (decide (i < Z.to_nat n)%nat) as [Hi|Hi].
  - rewrite lookup_seqZ_lt, lookup_take_lt by lia. simpl.
    specialize (Hs (Z.of_nat i) ltac:(lia)). rewrite Nat2Z.id in Hs. done.
  - rewrite lookup_seqZ_ge by lia. simpl. apply lookup_ge_None. rewrite length_take. lia.
Qed.

Lemma fill_loop h l : forall s, Forall (fun i => i < LOGSIZE) l ->
  mfor_list l (fun i =>
    if LOGSIZE <=? i then fault
    else modify (fun s => set_lg (set_lh (lh_n (lg s))
           (<[Z.to_nat i := hdr_sector h i]> (lh_sector (lg s))) (lg s)) s)) s
  = Ok (tt, set_lg (set_lh (lh_n (lg s))
      (fold_left (fun sec i => <[Z.to_nat i := hdr_sector h i]> sec) l (lh_sector (lg s))) (lg s)) s).
Proof.
  induction l as [|i l IH]; intros s Hl.
  { simpl. unfold ret. do 2 f_equal. by destruct s as [[] ? ? ?]. }
  apply Forall_cons in Hl as [Hi Hl]. cbn [mfor_list].
  destruct (Z.leb_spec LOGSIZE i); [lia|]. erewrite bind_Ok; [|reflexivity].
  rewrite IH by done. done.
Qed.

Section Recover.
Variables (s : lstate).
Let l := lg s.
Let d := disk s.
Hypotheses (Hboot : forall b, content s b = d b)
  (Hlen : Z.of_nat (length (lh_sector l)) = LOGSIZE) (Hv : log_valid l d).
Let h := d (start l).
Let secs := disk_sectors h.

Lemma read_head_run :
  exists s', read_head s = Ok (tt, s') /\ disk s' = d /\ trace s' = trace s /\
    (forall b, content s' b = d b) /\
    lg s' = set_lh (hdr_n h) (fill h (hdr_n h) (lh_sector l)) l.
Proof using All.
  unfold read_head. erewrite bind_Ok; [|reflexivity]. fold l.
  destruct (bread_wrote (start l) s) as (s1 & E1 & [W1 W2 W3 W4]).
  rewrite (bind_Ok _ _ _ _ _ E1). rewrite Hboot. fold h.
  erewrite bind_Ok; [|reflexivity]. unfold mfor. rewrite fill_loop.
  - eexists. split; [reflexivity|]. simpl. rewrite app_nil_r in W3.
    unfold bread in E1. split; [|split; [done|split]].
    + destruct (cache s !! start l) as [[]|]; by simplify_eq.
    + intros b. etransitivity; [apply W4 | apply Hboot].
    + rewrite W1. reflexivity.
  - apply Forall_forall. intros i Hi%elem_of_seqZ. pose proof (lv_n _ _ Hv) as Hn.
    fold h in Hn. lia.
Qed.

Definition recovery_writes : list (Z * block) :=
  imap (fun i b => (b, d (start l + Z.of_nat i + 1))) secs
    ++ [(start l, overlay h 0 (fill h (hdr_n h) (lh_sector l)))].

Lemma recover_run :
  exists s', recover_from_log s = Ok (tt, s') /\
    trace s' = trace s ++ recovery_writes /\
    (forall b, disk s' b = apply_writes recovery_writes d b) /\
    (forall b, content s' b = disk s' b) /\ lh_n (lg s') = 0.
Proof using All.
  unfold recover_from_log.
  destruct read_head_run as (s1 & E1 & D1 & T1 & C1 & L1). rewrite (bind_Ok _ _ _ _ _ E1).
  pose proof (lv_n _ _ Hv) as Hn. fold h in Hn.
  destruct (fill_spec h (hdr_n h) (lh_sector l)) as [Hfl Hft]; [lia|].
  assert (Hlg1 : logged s1 = secs) by (unfold logged; rewrite L1; exact Hft).
  assert (Hst : start (lg s1) = start l) by by rewrite L1.
  assert (Hok1 : sectors_ok (lg s1) (logged s1)).
  { rewrite Hlg1. destruct (lv_sectors _ _ Hv) as [H1 H2 H3 H4]. rewrite L1. split; done. }
  destruct (install_trans_run s1) as (s2 & E2 & W2);
    [by rewrite L1; simpl; lia | rewrite L1; simpl; rewrite Hfl; done | rewrite L1; simpl; lia | done |].
  rewrite (bind_Ok _ _ _ _ _ E2). erewrite bind_Ok; [|reflexivity].
  destruct (write_head_run (set_lg (set_lh_n 0 (lg s2)) s2)) as (s3 & E3 & W3).
  exists s3. split; [done|]. destruct W2 as [L2 D2 T2 C2]. destruct W3 as [L3 D3 T3 C3].
  cbn [lg set_lg start set_lh_n lh_n lh_sector disk trace] in *. rewrite L2 in *. rewrite Hst, Hlg1 in *.
  assert (Hw : imap (fun i b => (b, content s1 (start l + Z.of_nat i + 1))) secs
               = imap (fun i b => (b, d (start l + Z.of_nat i + 1))) secs).
  { apply imap_ext. intros i b _. simpl. by rewrite C1. }
  rewrite Hw in *.
  assert (Hhd : content (set_lg (set_lh_n 0 (lg s1)) s2) (start l) = h).
  { change (content s2 (start l) = h). rewrite C2, apply_out; [apply C1|].
    intros Hin. apply list_elem_of_fmap in Hin as ([b v] & Hb & Hin).
    apply elem_of_lookup_imap in Hin as (i & c & Heq & Hi). simplify_eq/=.
    pose proof (so_home _ _ (lv_sectors _ _ Hv)) as Hh. rewrite Forall_lookup in Hh.
    apply (Hh i _ Hi). unfold in_log. pose proof (so_fit _ _ (lv_sectors _ _ Hv)). lia. }
  rewrite Hhd in *. replace (lh_sector (lg s1)) with (fill h (hdr_n h) (lh_sector l)) in *
    by by rewrite L1.
  assert (HD : forall b, disk s3 b = apply_writes recovery_writes d b).
  { intros b. rewrite D3. unfold recovery_writes. rewrite apply_app. apply apply_same.
    rewrite D2, D1. done. }
  split; [by rewrite T3, T2, T1, <- (assoc_L (++))|]. split; [done|]. split.
  - intros b. rewrite HD, C3. unfold recovery_writes. rewrite apply_app. apply apply_same.
    etransitivity; [apply C2|]. apply apply_same, C1.
  - by rewrite L3.
Qed.
End Recover.

Section Recovery_crash.
Variables (s : lstate).
Let l := lg s.
Let d := disk s.
Hypotheses (Hlen : Z.of_nat (length (lh_sector l)) = LOGSIZE) (Hv : log_valid l d).
Let h := d (start l).
Let secs := disk_sectors h.
Let installs := imap (fun i b => (b, d (start l + Z.of_nat i + 1))) secs.

Lemma installs_fst : installs.*1 = secs.
Proof using All.
  unfold installs. rewrite fmap_imap. unfold compose. simpl.
  rewrite <- (list_fmap_id secs) at 2. by rewrite <- imap_const.
Qed.
Lemma rec_home b : b ∈ secs -> ~ in_log l b.
Proof using All.
  pose proof (so_home _ _ (lv_sectors _ _ Hv)) as H. rewrite Forall_forall in H. apply H.
Qed.
Lemma rec_area i : 0 <= i <= Z.of_nat (length secs) -> in_log l (start l + i).
Proof using All.
  intros. pose proof (so_fit _ _ (lv_sectors _ _ Hv)) as Hf.
  fold l d h secs in Hf. unfold in_log. lia.
Qed.

(** A crash while installing changes nothing that recovery sees. *)
Lemma installing_view q :
  q `prefix_of` installs ->
  log_valid l (apply_writes q d) /\ home_is l (apply_writes q d) (view l d).
Proof using All.
  intros Hq.
  assert (Hqs : forall b, b ∈ q.*1 -> b ∈ secs).
  { intros b Hb. rewrite <- installs_fst. by apply (prefix_fst q). }
  assert (Hlog : forall b, in_log l b -> apply_writes q d b = d b).
  { intros b Hb. apply apply_out. intros Hin%Hqs%rec_home. done. }
  assert (Hst : apply_writes q d (start l) = h).
  { rewrite Hlog; [done|]. rewrite <- (Z.add_0_r (start l)). apply rec_area. lia. }
  split.
  - destruct Hv as [H1 H2 H3]. split; rewrite Hst; done.
  - intros b Hb. destruct (decide (b ∈ secs)) as [Hin|Hout].
    + apply list_elem_of_lookup in Hin as [i Hi]. pose proof (lookup_lt_Some _ _ _ Hi).
      pose proof (so_nodup _ _ (lv_sectors _ _ Hv)) as Hnd.
      rewrite !(view_in _ _ i); rewrite ?Hst; try done.
      apply Hlog. rewrite <- Z.add_assoc. apply rec_area. lia.
    + rewrite !view_out by (rewrite ?Hst; done). apply apply_out. by intros ?%Hqs.
Qed.

Lemma recovery_done :
  let d1 := apply_writes (recovery_writes s) d in
  log_valid l d1 /\ hdr_n (d1 (start l)) = 0 /\ (forall b, ~ in_log l b -> d1 b = view l d b).
Proof using All.
  intros d1.
  destruct (overlay_spec h 0 (fill h (hdr_n h) (lh_sector l)) (lv_len _ _ Hv) ltac:(done))
    as (Hl0 & Hn0 & _).
  assert (Hst : d1 (start l) = overlay h 0 (fill h (hdr_n h) (lh_sector l))).
  { subst d1. unfold recovery_writes. rewrite apply_app. apply upd_eq. }
  split; [|split; [by rewrite Hst|]].
  - split; rewrite Hst; [done | by rewrite Hn0 |]. unfold disk_sectors. rewrite Hn0.
    split; [done | | constructor | constructor]. simpl.
    pose proof (so_fit _ _ (lv_sectors _ _ Hv)). lia.
  - intros b Hb. subst d1. unfold recovery_writes. rewrite apply_app. simpl.
    rewrite upd_ne; cycle 1.
    { intros ->. apply Hb. rewrite <- (Z.add_0_r (start _)). apply rec_area. lia. }
    destruct (decide (b ∈ secs)) as [Hin|Hout].
    + apply list_elem_of_lookup in Hin as [i Hi].
      pose proof (so_nodup _ _ (lv_sectors _ _ Hv)) as Hnd.
      rewrite (view_in _ _ i) by done. apply apply_in.
      * change (NoDup installs.*1). by rewrite installs_fst.
      * apply elem_of_lookup_imap. by exists i, b.
    + rewrite view_out by done. apply apply_out.
      change (b ∉ installs.*1). by rewrite installs_fst.
Qed.

Lemma recovery_prefix p :
  p `prefix_of` recovery_writes s ->
  log_valid l (apply_writes p d) /\ home_is l (apply_writes p d) (view l d).
Proof using All.
  intros Hp. apply prefix_app_inv in Hp as [Hp|(q & -> & Hq)]; [by apply installing_view|].
  destruct q as [|w q]; [rewrite app_nil_r; by apply installing_view|].
  pose proof (prefix_cons_inv_1 _ _ _ _ Hq) as ->. apply prefix_cons_inv_2, prefix_nil_inv in Hq as ->.
  destruct recovery_done as (H1 & H2 & H3). split; [exact H1|].
  intros b Hb. etransitivity; [by apply view_empty | by apply H3].
Qed.
End Recovery_crash.

(** ** The theorem *)

(** The machine after a reboot: an empty cache over the disk [d]. *)
Definition boot (l : log) (d : Z -> block) : lstate := mkL l ∅ d [].
(** One recovery that was itself cut short by a crash. *)
Definition interrupted (l : log) (d d' : Z -> block) : Prop :=
  exists s' p, recover_from_log (boot l d) = Ok (tt, s') /\ p `prefix_of` trace s' /\
    d' = apply_writes p d.

(** A state in which [commit] may be called: the log on disk is clear and only
    the logged blocks differ from the disk. *)
Record commit_ready (s : lstate) : Prop := mkReadyC {
  cr_n : 0 <= lh_n (lg s) <= LOGSIZE;
  cr_len : Z.of_nat (length (lh_sector (lg s))) = LOGSIZE;
  cr_sectors : sectors_ok (lg s) (logged s);
  cr_words : length (disk s (start (lg s))) = BWORDS;
  cr_clear : hdr_n (disk s (start (lg s))) = 0;
  cr_head : content s (start (lg s)) = disk s (start (lg s));
  cr_rest : forall b, ~ in_log (lg s) b -> (b ∉ logged s) -> content s b = disk s b }.

Lemma boot_content l d b : content (boot l d) b = d b.
Proof. unfold content, boot. simpl. by rewrite lookup_empty. Qed.

Lemma interrupted_view l d d' :
  Z.of_nat (length (lh_sector l)) = LOGSIZE -> log_valid l d -> interrupted l d d' ->
  log_valid l d' /\ home_is l d' (view l d).
Proof.
  intros Hlen Hv (s' & p & E & Hp & ->).
  destruct (recover_run (boot l d) (boot_content l d) Hlen Hv) as (s2 & E2 & T2 & _).
  assert (s2 = s') as -> by congruence. rewrite T2 in Hp.
  exact (recovery_prefix (boot l d) Hlen Hv p Hp).
Qed.
Lemma rtc_interrupted l d d' :
  Z.of_nat (length (lh_sector l)) = LOGSIZE -> rtc (interrupted l) d d' ->
  log_valid l d -> log_valid l d' /\ home_is l d' (view l d).
Proof.
  intros Hlen. induction 1 as [d|d d1 d2 H1 _ IH]; intros Hv; [by split|].
  destruct (interrupted_view l d d1 Hlen Hv H1) as [Hv1 Hh1]. destruct (IH Hv1) as [Hv2 Hh2].
  split; [done|]. intros b Hb. by rewrite Hh2, Hh1.
Qed.
Lemma final_recovery l d :
  Z.of_nat (length (lh_sector l)) = LOGSIZE -> log_valid l d ->
  exists s, recover_from_log (boot l d) = Ok (tt, s) /\ log_valid l (disk s) /\
    hdr_n (disk s (start l)) = 0 /\ forall b, ~ in_log l b -> disk s b = view l d b.
Proof.
  intros Hlen Hv. destruct (recover_run (boot l d) (boot_content l d) Hlen Hv)
    as (s & E & _ & D & _). exists s. split; [done|].
  destruct (recovery_done (boot l d) Hlen Hv) as ([V1 V2 V3] & H1 & H2).
  cbn [lg disk boot] in *. split; [|split].
  - split; rewrite D; done.
  - by rewrite D.
  - intros b Hb. rewrite D. by apply H2.
Qed.

Lemma with_txn_content s b :
  commit_ready s -> ~ in_log (lg s) b ->
  with_txn (content s) (logged s) (disk s) b = content s b.
Proof.
  intros Hr Hb. unfold with_txn. case_decide; [done|]. symmetry. by apply cr_rest.
Qed.

Lemma logged_prefix s :
  commit_ready s -> logged s = take (length (logged s)) (lh_sector (lg s)).
Proof.
  intros [Hn Hlen _ _ _ _ _]. unfold logged. rewrite length_take. rewrite Nat.min_l; [done|]. lia.
Qed.

Lemma commit_writes_run s :
  commit_ready s -> exists s' ws, commit s = Ok (tt, s') /\ trace s' = trace s ++ ws /\
    (forall b, ~ in_log (lg s) b -> disk s' b = content s b) /\
    (forall p, p `prefix_of` ws -> log_valid (lg s) (apply_writes p (disk s)) /\
       (home_is (lg s) (apply_writes p (disk s)) (disk s) \/
        home_is (lg s) (apply_writes p (disk s)) (content s))).
Proof.
  intros Hr. pose proof Hr as [Hn Hlen Hok Hw Hc Hh Hrest].
  pose proof (logged_prefix s Hr) as Hsecs.
  destruct (decide (lh_n (lg s) = 0)) as [H0|H0].
  - exists s, []. split; [unfold commit, M_bind, gets; rewrite H0; done|].
    split; [by rewrite app_nil_r|].
    assert (Hnil : logged s = []) by (unfold logged; by rewrite H0).
    split; [intros b Hb; symmetry; apply Hrest; [done | rewrite Hnil; apply not_elem_of_nil]|].
    intros p ->%prefix_nil_inv. split.
    + exact (clear_valid (lg s) (content s) (disk s) (lh_sector (lg s)) (logged s)
               Hw Hc Hlen Hsecs Hok (disk s) Hw Hc).
    + left. intros b Hb. by apply view_empty.
  - destruct (commit_run s ltac:(lia) Hlen Hok) as (s' & E & _ & T & D & _).
    eexists s', _. split; [exact E|]. split; [exact T|].
    rewrite Hh in *. split.
    + intros b Hb. rewrite D.
      destruct (crash_done (lg s) (content s) (disk s) (lh_sector (lg s)) (logged s)) as (_ & _ & Hd);
        try done. rewrite Hd by done. by apply with_txn_content.
    + intros p Hp.
      destruct (crash_any (lg s) (content s) (disk s) (lh_sector (lg s)) (logged s)) with (p := p)
        as [Hv [Hold|Hnew]]; try done; split; auto.
      right. intros b Hb. rewrite Hnew by done. by apply with_txn_content.
Qed.

(** C2 A transaction is atomic across crashes.  [commit] returns and puts every
    block of the transaction at home.  If the machine crashes at any point of
    it, and then any number of times while recovering, a recovery that
    completes leaves either every home block as it was before the transaction
    or every home block as the transaction wrote it, and an empty log. *)
Theorem commit_crash_atomic s :
  commit_ready s ->
  exists s' ws, commit s = Ok (tt, s') /\ trace s' = trace s ++ ws /\
    (forall b, ~ in_log (lg s) b -> disk s' b = content s b) /\
    forall p d, p `prefix_of` ws -> rtc (interrupted (lg s)) (apply_writes p (disk s)) d ->
    exists s2, recover_from_log (boot (lg s) d) = Ok (tt, s2) /\
      hdr_n (disk s2 (start (lg s))) = 0 /\
      ((forall b, ~ in_log (lg s) b -> disk s2 b = disk s b) \/
       (forall b, ~ in_log (lg s) b -> disk s2 b = content s b)).
Proof.
  intros Hr. destruct (commit_writes_run s Hr) as (s' & ws & E & T & D & Hp).
  exists s', ws. do 3 (split; [done|]). intros p d Hpre Hd.
  destruct (Hp p Hpre) as [Hv Hor].
  destruct (rtc_interrupted (lg s) _ d (cr_len _ Hr) Hd Hv) as [Hv2 Hh].
  destruct (final_recovery (lg s) d (cr_len _ Hr) Hv2) as (s2 & E2 & _ & Hn & H2).
  exists s2. split; [done|]. split; [done|].
  destruct Hor as [Ho|Ho]; [left | right]; intros b Hb; by rewrite H2, Hh, Ho.
Qed.
