(* ===== verification/LogTxn.v ===== *)
(** * LogTxn: file-system operations sharing the log (src/src/log.c)

    Several operations may be open at once; [begin_op] admits one only while
    every open operation's reservation of [MAXOPBLOCKS] blocks fits.  The
    invariant [txn_inv] accounts for what each open operation may still write;
    under it no operation of the log panics, nothing reaches the disk before
    the last operation ends, and then everything does. *)
From S2P Require Import Prelude Log LogFacts.

(** What a caller does to a block inside an operation: [bread], change the
    data, [log_write] (the usage of log.c lines 205-209). *)
Definition txn_write (b : Z) (d : block) : L unit :=
  bread b ;;; bmodify b d ;;; log_write b.

Definition sum (l : list Z) : Z := fold_right Z.add 0 l.

(** [B] is the number of blocks an operation is allowed, at most the
    [MAXOPBLOCKS] that [begin_op] counts for it, and less when the log area is
    too small for [LOGSIZE] blocks beside its header; [live] holds, per open
    operation, the blocks it may still log. *)
Record txn_inv (B : Z) (live : list Z) (s : lstate) : Prop := mkTxnInv {
  ti_budget : 0 <= B <= MAXOPBLOCKS;
  ti_area : LOGSIZE - MAXOPBLOCKS + B < size (lg s);
  ti_ready : commit_ready s;
  ti_open : outstanding (lg s) = Z.of_nat (length live);
  ti_calm : committing (lg s) = 0;
  ti_idle : live = [] -> lh_n (lg s) = 0;
  ti_live : Forall (fun k => 0 <= k <= B) live;
  ti_room : lh_n (lg s) + sum live <= LOGSIZE - MAXOPBLOCKS + B }.

(** ** Reservations *)
Lemma sum_insert live i k x :
  live !! i = Some k -> sum (<[i := x]> live) = sum live - k + x.
Proof.
  revert i. induction live as [|y live IH]; intros [|i] H; simplify_eq/=; [lia|].
  rewrite (IH _ H). lia.
Qed.
Lemma sum_delete live i k : live !! i = Some k -> sum (delete i live) = sum live - k.
Proof.
  revert i. induction live as [|y live IH]; intros [|i] H; simplify_eq/=; [lia|].
  rewrite (IH _ H). lia.
Qed.
Lemma sum_bound B live :
  Forall (fun k => 0 <= k <= B) live -> 0 <= sum live <= Z.of_nat (length live) * B.
Proof. induction 1; simpl; lia. Qed.
Lemma sum_member B live i k :
  Forall (fun k => 0 <= k <= B) live -> live !! i = Some k -> k <= sum live.
Proof.
  intros Hl Hi. pose proof (sum_delete _ _ _ Hi).
  assert (0 <= sum (delete i live)) by (apply (sum_bound B), Forall_delete, Hl). lia.
Qed.

(** ** Absorption *)
Lemma absorb_spec l b i n :
  0 <= i -> n <= i + Z.of_nat (length l) -> i <= n ->
  let j := absorb l b i n in
  i <= j <= n /\ (j < n -> l !! Z.to_nat (j - i) = Some b) /\
  (j = n -> b ∉ take (Z.to_nat (n - i)) l).
Proof.
  revert i. induction l as [|c l IH]; intros i Hi Hl Hin; cbn [absorb length] in *.
  { assert (n = i) by lia. split; [lia|]. split; [lia|]. intros _. rewrite take_nil.
    apply not_elem_of_nil. }
  destruct (Z.ltb_spec i n) as [Hlt|Hge]; simpl.
  2:{ split; [lia|]. split; [lia|]. intros _. replace (Z.to_nat (n - i)) with 0%nat by lia.
      apply not_elem_of_nil. }
  destruct (Z.eqb_spec c b) as [->|Hne]; simpl.
  { split; [lia|]. split; [intros _; by replace (Z.to_nat (i - i)) with 0%nat by lia | lia]. }
  destruct (IH (i + 1) ltac:(lia) ltac:(lia) ltac:(lia)) as (H1 & H2 & H3).
  split; [lia|]. split.
  - intros Hj. replace (Z.to_nat (absorb l b (i + 1) n - i))
      with (S (Z.to_nat (absorb l b (i + 1) n - (i + 1)))) by lia. by apply H2.
  - intros Hj. replace (Z.to_nat (n - i)) with (S (Z.to_nat (n - (i + 1)))) by lia. simpl.
    rewrite not_elem_of_cons. auto.
Qed.

(** The header after [log_write]: the sector is in it once, nothing is lost. *)
Lemma absorb_header l b n :
  0 <= n < Z.of_nat (length l) -> NoDup (take (Z.to_nat n) l) ->
  let i := absorb l b 0 n in
  let n' := if i =? n then n + 1 else n in
  let l' := take (Z.to_nat n') (<[Z.to_nat i := b]> l) in
  n <= n' <= n + 1 /\ NoDup l' /\ (forall c, c ∈ l' <-> c = b \/ c ∈ take (Z.to_nat n) l).
Proof.
  intros Hn Hnd. destruct (absorb_spec l b 0 n ltac:(lia) ltac:(lia) ltac:(lia)) as (H1 & H2 & H3).
  intros i n' l'. fold i in H1, H2, H3. subst n' l'. rewrite Z.sub_0_r in *.
  destruct (Z.eqb_spec i n) as [Hin|Hin].
  - specialize (H3 Hin). rewrite Hin. split; [lia|].
    replace (Z.to_nat (n + 1)) with (S (Z.to_nat n)) by lia.
    erewrite take_S_r; [|apply list_lookup_insert_eq; lia].
    rewrite take_insert_ge by lia. split.
    + apply NoDup_app. split; [done|]. split; [|apply NoDup_singleton]. set_solver.
    + set_solver.
  - specialize (H2 ltac:(lia)). split; [lia|]. rewrite list_insert_id by done. split; [done|].
    intros c. split; [auto|]. intros [->|?]; [|done].
    apply list_elem_of_lookup. exists (Z.to_nat i). rewrite lookup_take_lt by lia. done.
Qed.

(** ** One logged write *)
Lemma bread_cached b d x s : cache s !! b = Some (d, x) -> bread b s = Ok (d, s).
Proof. intros H. unfold bread. by rewrite H. Qed.

(** The in-memory header once sector [b] is in it. *)
Definition header_with (b : Z) (l : log) : log :=
  let i := absorb (lh_sector l) b 0 (lh_n l) in
  set_lh (if i =? lh_n l then lh_n l + 1 else lh_n l) (<[Z.to_nat i := b]> (lh_sector l)) l.

Lemma log_write_cached b d x s :
  1 <= outstanding (lg s) -> lh_n (lg s) < LOGSIZE -> lh_n (lg s) < size (lg s) - 1 ->
  cache s !! b = Some (d, x) ->
  log_write b s = Ok (tt, mkL (header_with b (lg s)) (<[b := (d, true)]> (cache s)) (disk s) (trace s)).
Proof.
  intros Ho Hn1 Hn2 Hb. unfold log_write. erewrite bind_Ok; [|reflexivity].
  destruct (Z.geb_spec (lh_n (lg s)) LOGSIZE); [lia|].
  destruct (Z.geb_spec (lh_n (lg s)) (size (lg s) - 1)); [lia|].
  destruct (Z.ltb_spec (outstanding (lg s)) 1); [lia|]. cbn [orb].
  erewrite bind_Ok; [|reflexivity]. erewrite bind_Ok; [|by eapply bread_cached]. reflexivity.
Qed.

Lemma txn_write_exec b d s :
  1 <= outstanding (lg s) -> lh_n (lg s) < LOGSIZE -> lh_n (lg s) < size (lg s) - 1 ->
  exists c', txn_write b d s =
      Ok (tt, mkL (header_with b (lg s)) (<[b := (d, true)]> c') (disk s) (trace s)) /\
    forall c, c <> b -> c' !! c = cache s !! c.
Proof.
  intros Ho Hn1 Hn2. unfold txn_write, bread, M_bind at 1.
  destruct (cache s !! b) as [[e x]|] eqn:E; cbn [ret];
    (erewrite bind_Ok; [|reflexivity]);
    (erewrite log_write_cached; [|done|done|done|apply lookup_insert_eq]);
    (eexists; split; [reflexivity|]); intros c Hc; cbn; by rewrite !lookup_insert_ne.
Qed.

Lemma txn_write_run b d s :
  commit_ready s -> 1 <= outstanding (lg s) -> lh_n (lg s) < LOGSIZE ->
  lh_n (lg s) < size (lg s) - 1 -> ~ in_log (lg s) b ->
  exists s', txn_write b d s = Ok (tt, s') /\ commit_ready s' /\
    disk s' = disk s /\ trace s' = trace s /\ (forall c, content s' c = upd (content s) b d c) /\
    outstanding (lg s') = outstanding (lg s) /\ committing (lg s') = committing (lg s) /\
    start (lg s') = start (lg s) /\ size (lg s') = size (lg s) /\
    lh_n (lg s) <= lh_n (lg s') <= lh_n (lg s) + 1.
Proof.
  intros Hr Ho Hn1 Hn2 Hb. pose proof Hr as [Hn Hlen Hok Hw Hc Hh Hrest].
  destruct (absorb_header (lh_sector (lg s)) b (lh_n (lg s)) ltac:(lia) (so_nodup _ _ Hok))
    as (Hle & Hnd & Hel).
  destruct (txn_write_exec b d s Ho Hn1 Hn2) as (c' & E & Hc').
  eexists. split; [exact E|]. set (s' := mkL _ _ _ _).
  assert (Hcont : forall c, content s' c = upd (content s) b d c).
  { intros c. unfold content, upd. simpl. destruct (Z.eqb_spec c b) as [->|Hcb].
    - by rewrite lookup_insert_eq.
    - rewrite lookup_insert_ne by done. by rewrite Hc'. }
  split; [|split_and!; try done; apply Hle].
  assert (Hst : start (lg s) <> b).
  { intros <-. apply Hb. unfold in_log. pose proof (so_fit _ _ Hok). lia. }
  split; cbn [lg disk s' header_with set_lh start size lh_n lh_sector]; try done.
  - lia.
  - by rewrite length_insert.
  - destruct Hok as [H1 H2 H3 H4]. split; try exact Hnd.
    + unfold logged. cbn. rewrite length_take, length_insert. lia.
    + unfold logged. cbn. rewrite length_take, length_insert. lia.
    + apply Forall_forall. intros c [->|Hcin]%Hel; [done|].
      rewrite Forall_forall in H4. by apply H4.
  - rewrite Hcont, upd_ne by done. apply Hh.
  - intros c Hcl Hcn. rewrite Hcont. rewrite upd_ne.
    + apply Hrest; [done|]. intros Hin. apply Hcn, Hel. by right.
    + intros ->. apply Hcn, Hel. by left.
Qed.

(** ** The commit at the end of the last operation *)
Lemma set_ops_ready o c s : commit_ready s -> commit_ready (set_lg (set_ops o c (lg s)) s).
Proof. intros [H1 H2 [S1 S2 S3 S4] H4 H5 H6 H7]. by split. Qed.

(** After [commit] the log is clear and the disk is what the cache shows. *)
Lemma commit_ready_run s :
  commit_ready s -> exists s', commit s = Ok (tt, s') /\ commit_ready s' /\
    lg s' = set_lh_n 0 (lg s) /\ (forall b, ~ in_log (lg s) b -> content s' b = content s b) /\
    (forall b, ~ in_log (lg s) b -> disk s' b = content s b).
Proof.
  intros Hr. pose proof Hr as [Hn Hlen Hok Hw Hc Hh Hrest].
  pose proof (logged_prefix s Hr) as Hsecs.
  destruct (decide (lh_n (lg s) = 0)) as [H0|H0].
  - exists s. split; [unfold commit, M_bind, gets; by rewrite H0|]. split; [done|].
    split; [by destruct s as [[] ? ? ?]; cbn in *; subst|]. split; [done|].
    intros b Hb. symmetry. apply Hrest; [done|]. unfold logged. rewrite H0. apply not_elem_of_nil.
  - destruct (commit_run s ltac:(lia) Hlen Hok) as (s' & E & L & _ & D & C).
    rewrite Hh in D, C. exists s'. split; [done|].
    destruct (crash_done (lg s) (content s) (disk s) (lh_sector (lg s)) (logged s))
      as ([V1 V2 V3] & Hz & Hd); try done.
    destruct (crash_done (lg s) (content s) (content s) (lh_sector (lg s)) (logged s))
      as (_ & _ & Hcd); rewrite ?Hh; try done.
    assert (Hcs : forall b, ~ in_log (lg s) b -> content s' b = content s b).
    { intros b Hb. rewrite C. rewrite Hh in Hcd. rewrite Hcd by done. unfold with_txn. by case_decide. }
    assert (Hds : forall b, ~ in_log (lg s) b -> disk s' b = content s b).
    { intros b Hb. rewrite D, Hd by done. by apply with_txn_content. }
    split; [|done]. rewrite <- D in V1, V2, Hz.
    split; rewrite L; cbn [set_lh_n lh_n lh_sector start]; try done.
    + split; unfold logged; rewrite L; cbn; try constructor; try done.
      rewrite take_0. pose proof (so_fit _ _ Hok). simpl. lia.
    + rewrite C, D. by apply apply_same.
    + intros b Hb _. rewrite Hds by done. by apply Hcs.
Qed.

(** ** The operations under the invariant *)
Lemma begin_op_inv B live s :
  txn_inv B live s ->
  begin_op s = Ok (false, s) \/
  exists s', begin_op s = Ok (true, s') /\ txn_inv B (B :: live) s' /\
    disk s' = disk s /\ content s' = content s.
Proof.
  intros [HB Ha Hr Ho Hc Hi Hl Hroom]. unfold begin_op. erewrite bind_Ok; [|reflexivity].
  rewrite Hc, Ho. cbn [truthy negb Z.eqb].
  destruct (Z.gtb_spec (lh_n (lg s) + (Z.of_nat (length live) + 1) * MAXOPBLOCKS) LOGSIZE)
    as [Hgt|Hle]; [by left|]. right. eexists. split; [reflexivity|]. split; [|done].
  pose proof (sum_bound _ _ Hl).
  split; cbn [lg set_lg set_ops outstanding committing lh_n length]; try done.
  - by apply set_ops_ready.
  - lia.
  - constructor; [lia | done].
  - simpl. unfold LOGSIZE, MAXOPBLOCKS in *. nia.
Qed.

Lemma txn_write_inv B live i k b d s :
  txn_inv B live s -> live !! i = Some k -> 0 < k -> ~ in_log (lg s) b ->
  exists s', txn_write b d s = Ok (tt, s') /\ txn_inv B (<[i := k - 1]> live) s' /\
    disk s' = disk s /\ trace s' = trace s /\ (forall c, content s' c = upd (content s) b d c).
Proof.
  intros [HB Ha Hr Ho Hc Hi Hl Hroom] Hik Hk Hb.
  pose proof (sum_member _ _ _ _ Hl Hik). pose proof (lookup_lt_Some _ _ _ Hik).
  destruct (txn_write_run b d s Hr) as (s' & E & R & D & T & C & O & Cm & _ & Sz & N); try done; try lia.
  exists s'. split; [done|]. split; [|done].
  pose proof (Forall_lookup_1 _ _ _ _ Hl Hik) as Hkb. cbv beta in Hkb.
  split; rewrite ?O, ?Cm, ?Sz; try done.
  - by rewrite length_insert.
  - intros Hnil%(f_equal length). rewrite length_insert in Hnil. simpl in Hnil. lia.
  - apply Forall_insert; [done|]. lia.
  - rewrite (sum_insert _ _ _ _ Hik). lia.
Qed.

Lemma end_op_inv B live i k s :
  txn_inv B live s -> live !! i = Some k ->
  exists s', end_op s = Ok (tt, s') /\ txn_inv B (delete i live) s' /\
    (forall b, ~ in_log (lg s) b -> content s' b = content s b) /\
    (if decide (length live = 1%nat) then forall b, ~ in_log (lg s) b -> disk s' b = content s b
     else disk s' = disk s).
Proof.
  intros [HB Ha Hr Ho Hc Hi Hl Hroom] Hik. pose proof (lookup_lt_Some _ _ _ Hik) as Hlt.
  pose proof (length_delete live i (ex_intro _ k Hik)) as Hdel.
  pose proof (sum_member _ _ _ _ Hl Hik). pose proof (sum_delete _ _ _ Hik).
  pose proof (Forall_lookup_1 _ _ _ _ Hl Hik) as Hkb. cbv beta in Hkb.
  unfold end_op, end_op_first. rewrite bind_assoc. erewrite bind_Ok; [|reflexivity].
  rewrite bind_assoc. erewrite bind_Ok; [|reflexivity]. rewrite Hc, Ho. cbn [truthy negb Z.eqb].
  case_decide as Hone.
  - destruct (Z.eqb_spec (Z.of_nat (length live) - 1) 0); [|lia].
    rewrite bind_assoc. erewrite bind_Ok; [|reflexivity]. erewrite bind_Ok; [|reflexivity].
    set (s1 := set_lg _ _).
    assert (Hr1 : commit_ready s1) by (apply (set_ops_ready _ _ s), Hr).
    destruct (commit_ready_run s1 Hr1) as (s2 & E & R & L & C & D).
    rewrite (bind_Ok _ _ _ _ _ E). eexists. split; [reflexivity|]. split; [|by split].
    assert (delete i live = []) as -> by (apply nil_length_inv; lia).
    split; [done | | by apply set_ops_ready | | | | |]; cbn [lg set_lg set_ops size lh_n outstanding committing sum fold_right];
      rewrite ?L; cbn [set_lh_n lh_n size]; try done.
    unfold LOGSIZE, MAXOPBLOCKS in *. lia.
  - destruct (Z.eqb_spec (Z.of_nat (length live) - 1) 0); [lia|].
    erewrite bind_Ok; [|reflexivity]. eexists. split; [reflexivity|]. split; [|by split].
    split; cbn [lg set_lg set_ops outstanding committing lh_n]; try done.
    + by apply set_ops_ready.
    + lia.
    + intros Hnil%(f_equal length). simpl in Hnil. lia.
    + by apply Forall_delete.
    + lia.
Qed.

(** C19 Operations share the log safely within a budget of [B] blocks each, where
    [B] is at most [MAXOPBLOCKS] and [LOGSIZE - MAXOPBLOCKS + B] blocks fit in
    the log area beside its header.  For the log that mkfs lays out, of
    [LOGSIZE] blocks, that is 9 blocks and not the 10 that [begin_op] reserves
    (with 10 the operations can panic, see below); 10 need one block more.
    From any state reached within the budget: [begin_op] waits or opens an
    operation; an open operation with budget left logs any home block without
    panic, and the disk is untouched; ending an operation succeeds, leaves the
    disk untouched while others are open, and puts every block on disk when it
    was the last; and the state reached is again within the budget. *)
Theorem log_group_commit B live s :
  txn_inv B live s ->
  (begin_op s = Ok (false, s) \/
   exists s', begin_op s = Ok (true, s') /\ txn_inv B (B :: live) s' /\
     disk s' = disk s /\ content s' = content s) /\
  (forall i k b d, live !! i = Some k -> 0 < k -> ~ in_log (lg s) b ->
   exists s', txn_write b d s = Ok (tt, s') /\ txn_inv B (<[i := k - 1]> live) s' /\
     disk s' = disk s /\ trace s' = trace s /\ (forall c, content s' c = upd (content s) b d c)) /\
  (forall i k, live !! i = Some k ->
   exists s', end_op s = Ok (tt, s') /\ txn_inv B (delete i live) s' /\
     (forall b, ~ in_log (lg s) b -> content s' b = content s b) /\
     (if decide (length live = 1%nat) then forall b, ~ in_log (lg s) b -> disk s' b = content s b
      else disk s' = disk s)).
Proof.
  intros Hi. split; [by apply begin_op_inv|]. split.
  - intros i k b d Hik Hk Hb. by eapply txn_write_inv.
  - intros i k Hik. by eapply end_op_inv.
Qed.

(** ** The log that mkfs lays out *)

(** The state of a freshly booted machine whose superblock gives the log area
    [n] blocks at sector [st] of an empty disk. *)
Definition fresh (st n : Z) : lstate :=
  mkL (mkLog st n 0 0 0 (replicate (Z.to_nat LOGSIZE) 0)) ∅ (fun _ => replicate BWORDS 0) [].
Definition writes (bs : list Z) : L unit := mfor_list bs (fun b => txn_write b []).

Lemma fresh_ready st n : 0 < n -> commit_ready (fresh st n).
Proof.
  intros Hn. assert (Hd : forall b, content (fresh st n) b = disk (fresh st n) b).
  { intros b. unfold content. cbn. by rewrite lookup_empty. }
  split; try done. split; try done; constructor.
Qed.

(** The layout written by mkfs ([nlog = LOGSIZE], so 29 blocks beside the
    header) is one block short of what [begin_op] admits: three operations
    are open at once, each within its budget of ten blocks, and the thirtieth
    block logged panics although no operation exceeded its budget. *)
Theorem log_reservation_overflow :
  exists s1 s2,
    (begin_op ;;; begin_op ;;; begin_op) (fresh (20480 - LOGSIZE) LOGSIZE) = Ok (true, s1) /\
    writes (seqZ 100 29) s1 = Ok (tt, s2) /\
    txn_write 129 [] s2 = Panic "too big a transaction".
Proof. eexists _, _. split; [vm_compute; reflexivity|]. split; vm_compute; reflexivity. Qed.

(** ** Inputs *)
Lemma fresh_txn B st n : 0 <= B <= MAXOPBLOCKS -> LOGSIZE - MAXOPBLOCKS + B < n -> txn_inv B [] (fresh st n).
Proof.
  intros HB Hn. unfold LOGSIZE, MAXOPBLOCKS in *. split; try done; cbn; unfold LOGSIZE, MAXOPBLOCKS; try lia.
  apply fresh_ready. lia.
Qed.

(** On the log of mkfs an operation is opened and logs a block. *)
Lemma log_group_commit_witness :
  exists s', begin_op (fresh (20480 - LOGSIZE) LOGSIZE) = Ok (true, s') /\
  exists s2, txn_write 7 [1; 2] s' = Ok (tt, s2) /\ disk s2 = disk s'.
Proof.
  destruct (log_group_commit 9 [] (fresh (20480 - LOGSIZE) LOGSIZE)) as [[E|(s' & E & I & _)] _].
  - apply fresh_txn; by vm_compute.
  - by vm_compute in E.
  - assert (Es : s' = set_lg (set_ops 1 0 (lg (fresh 20450 30))) (fresh 20450 30)).
    { cbv in E. by inversion E. }
    exists s'. split; [exact E|].
    destruct (log_group_commit 9 [9] s' I) as (_ & Hw & _).
    destruct (Hw 0%nat 9 7 [1; 2] eq_refl eq_refl) as (s2 & E2 & _ & D & _).
    + rewrite Es. intros [Hlo _]. by apply Hlo.
    + exists s2. by split.
Defined.

(** A transaction of one block on the file system of mkfs. *)
Lemma commit_crash_atomic_witness :
  exists s s' ws, txn_write 100 [7] (set_lg (set_ops 1 0 (lg (fresh 20450 30))) (fresh 20450 30)) = Ok (tt, s) /\
    commit s = Ok (tt, s') /\ trace s' = trace s ++ ws /\ disk s' 100 = [7].
Proof.
  destruct (txn_write_run 100 [7] (set_lg (set_ops 1 0 (lg (fresh 20450 30))) (fresh 20450 30)))
    as (s & E & R & _ & _ & C & _ & _ & St & _ & _); try done.
  { by apply set_ops_ready, fresh_ready. }
  { intros [Hlo _]. by apply Hlo. }
  destruct (commit_crash_atomic s R) as (s' & ws & Ec & T & D & _).
  exists s, s', ws. split; [exact E|]. split; [exact Ec|]. split; [exact T|].
  rewrite D; [rewrite C; apply upd_eq|]. intros [Hlo _]. rewrite St in Hlo. by apply Hlo.
Defined.
