(* ===== verification/Bio.v ===== *)
(** * Bio: the buffer cache (src/src/bio.c, over the disk driver of memide.c)

    The [NBUF] buffers form a circular doubly linked list through [bcache.head],
    most recently used first.  A buffer is named by its index in [bcache.buf];
    [head] names [&bcache.head].  A call that would sleep returns [None]. *)
From S2P Require Import Prelude Log.

Definition NBUF : Z := MAXOPBLOCKS * 3.
Definition B_BUSY : Z := 1.
Definition B_VALID : Z := 2.
Definition B_DIRTY : Z := 4.
Definition head : Z := NBUF.

Record buf := mkBuf {
  flags : Z; dev : Z; sector : Z; prev : Z; next : Z; data : block }.
Record bstate := mkBS {
  bufs : Z -> buf;
  memdisk : Z -> block;
  disksize : Z }.

Definition set_flags (x : Z) (b : buf) : buf := mkBuf x (dev b) (sector b) (prev b) (next b) (data b).
Definition set_dev (x : Z) (b : buf) : buf := mkBuf (flags b) x (sector b) (prev b) (next b) (data b).
Definition set_sector (x : Z) (b : buf) : buf := mkBuf (flags b) (dev b) x (prev b) (next b) (data b).
Definition set_prev (x : Z) (b : buf) : buf := mkBuf (flags b) (dev b) (sector b) x (next b) (data b).
Definition set_next (x : Z) (b : buf) : buf := mkBuf (flags b) (dev b) (sector b) (prev b) x (data b).
Definition set_data (x : block) (b : buf) : buf := mkBuf (flags b) (dev b) (sector b) (prev b) (next b) x.

Definition B : Type -> Type := M bstate.
Definition buf_of (p : Z) : B buf := gets (fun s => bufs s p).
(** Assign a field of [*p]. *)
Definition set_buf (p : Z) (f : buf -> buf) : B unit :=
  modify (fun s => mkBS (upd (bufs s) p (f (bufs s p))) (memdisk s) (disksize s)).
Definition has (f m : Z) : bool := negb (Z.land f m =? 0).

(** Sync buf with disk (memide.c lines 36-58). *)
Definition iderw (p : Z) : B unit :=
  b <- buf_of p ;;
  s <- get ;;
  if negb (has (flags b) B_BUSY) then panic "iderw: buf not busy"
  else if Z.land (flags b) (Z.lor B_VALID B_DIRTY) =? B_VALID then panic "iderw: nothing to do"
  else if negb (dev b =? 1) then panic "iderw: request not for disk 1"
  else if sector b >=? disksize s then panic "iderw: sector out of range"
  else
    (if has (flags b) B_DIRTY then
       set_buf p (fun b => set_flags (Z.land (flags b) (Z.lnot B_DIRTY)) b) ;;;
       modify (fun s => mkBS (bufs s) (upd (memdisk s) (sector b) (data b)) (disksize s))
     else set_buf p (set_data (memdisk s (sector b)))) ;;;
    set_buf p (fun b => set_flags (Z.lor (flags b) B_VALID) b).

Definition binit : B unit :=
  set_buf head (set_prev head) ;;;
  set_buf head (set_next head) ;;;
  mfor 0 NBUF (fun p =>
    h <- buf_of head ;;
    set_buf p (set_next (next h)) ;;;
    set_buf p (set_prev head) ;;;
    set_buf p (set_dev (2 ^ 32 - 1)) ;;;
    h <- buf_of head ;;
    set_buf (next h) (set_prev p) ;;;
    set_buf head (set_next p)).

(** The first loop of [bget] (lines 70-80), from [p] on: the buffer that
    holds the sector. *)
Fixpoint find_sector (fuel : nat) (bs : Z -> buf) (d sec p : Z) : outcome (option Z) :=
  match fuel with
  | O => OutOfFuel
  | S fuel =>
      if p =? head then Ok None
      else if (dev (bs p) =? d) && (sector (bs p) =? sec) then Ok (Some p)
      else find_sector fuel bs d sec (next (bs p))
  end.
(** The second loop (lines 85-93): a buffer to recycle. *)
Fixpoint find_victim (fuel : nat) (bs : Z -> buf) (p : Z) : outcome (option Z) :=
  match fuel with
  | O => OutOfFuel
  | S fuel =>
      if p =? head then Ok None
      else if (Z.land (flags (bs p)) B_BUSY =? 0) && (Z.land (flags (bs p)) B_DIRTY =? 0)
      then Ok (Some p)
      else find_victim fuel bs (prev (bs p))
  end.
Definition lift {A} (o : outcome A) : B A := fun s =>
  match o with
  | Ok a => Ok (a, s)
  | Panic m => Panic m
  | Fault => Fault
  | OutOfFuel => OutOfFuel
  end.
Definition fuel : nat := S (Z.to_nat NBUF).

Definition bget (d sec : Z) : B (option Z) :=
  s <- get ;;
  hit <- lift (find_sector fuel (bufs s) d sec (next (bufs s head))) ;;
  match hit with
  | Some p =>
      if negb (has (flags (bufs s p)) B_BUSY) then
        set_buf p (fun b => set_flags (Z.lor (flags b) B_BUSY) b) ;;; ret (Some p)
      else ret None
  | None =>
      victim <- lift (find_victim fuel (bufs s) (prev (bufs s head))) ;;
      match victim with
      | Some p =>
          set_buf p (set_dev d) ;;;
          set_buf p (set_sector sec) ;;;
          set_buf p (set_flags B_BUSY) ;;;
          ret (Some p)
      | None => panic "bget: no buffers"
      end
  end.

Definition bread (d sec : Z) : B (option Z) :=
  r <- bget d sec ;;
  match r with
  | None => ret None
  | Some p =>
      b <- buf_of p ;;
      (when negb (has (flags b) B_VALID) do iderw p) ;;;
      ret (Some p)
  end.

Definition bwrite (p : Z) : B unit :=
  b <- buf_of p ;;
  if Z.land (flags b) B_BUSY =? 0 then panic "bwrite"
  else
    set_buf p (fun b => set_flags (Z.lor (flags b) B_DIRTY) b) ;;;
    iderw p.

(** Lines 129-130: take [p] out of the list. *)
Definition unlink_buf (p : Z) : B unit :=
  b <- buf_of p ;;
  set_buf (next b) (set_prev (prev b)) ;;;
  b <- buf_of p ;;
  set_buf (prev b) (set_next (next b)).

(** Lines 131-134: link [p] in just after the head. *)
Definition push_front (p : Z) : B unit :=
  h <- buf_of head ;;
  set_buf p (set_next (next h)) ;;;
  set_buf p (set_prev head) ;;;
  h <- buf_of head ;;
  set_buf (next h) (set_prev p) ;;;
  set_buf head (set_next p).

Definition brelse (p : Z) : B unit :=
  b <- buf_of p ;;
  if Z.land (flags b) B_BUSY =? 0 then panic "brelse"
  else
    unlink_buf p ;;;
    push_front p ;;;
    set_buf p (fun b => set_flags (Z.land (flags b) (Z.lnot B_BUSY)) b).
