(* ===== verification/BioFacts.v ===== *)
(** * BioFacts: the buffer cache caches

    The list of buffers stays a ring in order of use, at most one buffer holds
    a sector, and what a reader sees of a sector does not depend on which
    buffers were recycled.  The cache of Log.v is the interface clients use;
    the last section shows that bio.c implements it. *)
From S2P Require Import Prelude Log LogFacts LogTxn Bio.

(** ** Chains of pointers *)
Fixpoint chain (f : Z -> Z) (a : Z) (l : list Z) (b : Z) : Prop :=
  match l with
  | [] => f a = b
  | x :: l' => f a = x /\ chain f x l' b
  end.
(** The last element of [a :: l]. *)
Fixpoint lastd (a : Z) (l : list Z) : Z :=
  match l with [] => a | x :: l' => lastd x l' end.

Section Chains.
Implicit Types (f : Z -> Z) (a b p : Z) (l : list Z).

Lemma chain_agree f g a l b : (forall x, x ∈ a :: l -> g x = f x) -> chain f a l b -> chain g a l b.
Proof.
  revert a. induction l as [|x l IH]; intros a H; simpl.
  - intros <-. apply H. set_solver.
  - intros [<- Hc]. split; [apply H; set_solver|]. apply IH; [|done]. intros y Hy. apply H. set_solver.
Qed.
Lemma chain_app f a l1 p l2 b : chain f a (l1 ++ p :: l2) b <-> chain f a l1 p /\ chain f p l2 b.
Proof. revert a. induction l1 as [|x l1 IH]; intros a; simpl; [done|]. rewrite IH. tauto. Qed.
Lemma lastd_app a l p : lastd a (l ++ [p]) = p.
Proof. revert a. induction l as [|x l IH]; intros a; simpl; [done | apply IH]. Qed.
Lemma lastd_in a l : lastd a l ∈ a :: l.
Proof.
  revert a. induction l as [|x l IH]; intros a; simpl; [set_solver|].
  specialize (IH x). set_solver.
Qed.
Lemma lastd_rev a l : lastd a (rev l) = List.hd a l.
Proof. destruct l as [|x l]; [done|]. simpl. apply lastd_app. Qed.

(** Skip [p]. *)
Lemma chain_skip f a l1 p l2 b :
  NoDup (a :: l1 ++ p :: l2) -> chain f a (l1 ++ p :: l2) b ->
  chain (upd f (lastd a l1) (f p)) a (l1 ++ l2) b.
Proof.
  revert a. induction l1 as [|x l1 IH]; intros a Hnd; simpl.
  - intros [Hp Hc]. rewrite NoDup_cons in Hnd. destruct Hnd as [Ha _]. destruct l2 as [|y l2]; simpl in *.
    + by rewrite upd_eq.
    + destruct Hc as [Hy Hc]. rewrite upd_eq. split; [done|]. eapply chain_agree; [|exact Hc].
      intros z Hz. apply upd_ne. set_solver.
  - intros [Hx Hc]. apply NoDup_cons in Hnd as [Ha Hnd]. split.
    + rewrite upd_ne; [done|]. pose proof (lastd_in x l1) as Hl. intros Heq. apply Ha. rewrite Heq. clear -Hl. set_solver.
    + by apply IH.
Qed.
(** Put [p] first. *)
Lemma chain_first f a l p b :
  (p ∉ a :: l) -> NoDup (a :: l) -> chain f a l b -> chain (upd (upd f p (f a)) a p) a (p :: l) b.
Proof.
  intros Hp [Ha _]%NoDup_cons Hc. simpl. rewrite upd_eq. split; [done|].
  destruct l as [|x l]; simpl in *.
  - rewrite upd_ne by set_solver. by rewrite upd_eq.
  - destruct Hc as [<- Hc]. rewrite upd_ne by set_solver. rewrite upd_eq. split; [done|].
    eapply chain_agree; [|exact Hc]. intros y Hy. rewrite !upd_ne; [done|set_solver..].
Qed.
(** Put [p] last. *)
Lemma chain_last f a l p b :
  (p ∉ a :: l) -> NoDup (a :: l) -> chain f a l b ->
  chain (upd (upd f p b) (lastd a l) p) a (l ++ [p]) b.
Proof.
  revert a. induction l as [|x l IH]; intros a Hp Hnd Hc; simpl in *.
  - rewrite upd_eq. split; [done|]. rewrite upd_ne by set_solver. apply upd_eq.
  - destruct Hc as [<- Hc]. apply NoDup_cons in Hnd as [Ha Hnd].
    pose proof (lastd_in (f a) l) as Hlast. split.
    + rewrite upd_ne by (intros Heq; by rewrite <- Heq in Hlast).
      rewrite upd_ne; [done|]. clear Hlast. set_solver.
    + apply IH; [set_solver | done | done].
Qed.
End Chains.

Lemma elem_rev (x : Z) (l : list Z) : x ∈ rev l <-> x ∈ l.
Proof. by rewrite <- Permutation_rev. Qed.

(** ** The ring of buffers *)
Definition nx (s : bstate) (p : Z) : Z := next (bufs s p).
Definition pv (s : bstate) (p : Z) : Z := prev (bufs s p).
(** The fields besides the links. *)
Definition core (b : buf) : Z * Z * Z * block := (flags b, dev b, sector b, data b).
Definition updb (s : bstate) (p : Z) (f : buf -> buf) : bstate :=
  mkBS (upd (bufs s) p (f (bufs s p))) (memdisk s) (disksize s).

(** The buffers are linked in the order [l], both ways. *)
Record ring (s : bstate) (l : list Z) : Prop := mkRing {
  rg_next : chain (nx s) head l head;
  rg_prev : chain (pv s) head (rev l) head;
  rg_all : l ≡ₚ seqZ 0 NBUF }.

Lemma all_nodup l : l ≡ₚ seqZ 0 NBUF -> NoDup (head :: l).
Proof.
  intros ->. apply NoDup_cons. split; [|apply NoDup_seqZ].
  rewrite elem_of_seqZ. unfold head. lia.
Qed.
Lemma all_nodup_rev l : l ≡ₚ seqZ 0 NBUF -> NoDup (head :: rev l).
Proof. intros H. apply all_nodup. by rewrite <- Permutation_rev. Qed.
Lemma ring_elem s l p : ring s l -> p ∈ l <-> 0 <= p < NBUF.
Proof. intros [_ _ H]. rewrite H, elem_of_seqZ. lia. Qed.

Lemma updb_same s p f : bufs (updb s p f) p = f (bufs s p).
Proof. apply upd_eq. Qed.
Lemma updb_other s p f q : q <> p -> bufs (updb s p f) q = bufs s q.
Proof. apply upd_ne. Qed.
Lemma updb_proj {A} (g : buf -> A) s p f q :
  (forall b, g (f b) = g b) -> g (bufs (updb s p f) q) = g (bufs s q).
Proof. intros H. simpl. unfold upd. destruct (Z.eqb_spec q p) as [->|]; [apply H | done]. Qed.
Lemma nx_set s p v q : nx (updb s p (set_next v)) q = upd (nx s) p v q.
Proof. unfold nx. simpl. unfold upd. by case_if. Qed.
Lemma pv_set s p v q : pv (updb s p (set_prev v)) q = upd (pv s) p v q.
Proof. unfold pv. simpl. unfold upd. by case_if. Qed.
Lemma upd_fun_ext {A} (m m' : Z -> A) p v q : m q = m' q -> upd m p v q = upd m' p v q.
Proof. intros H. unfold upd. by case_if. Qed.

Lemma ring_agree s s' l : (forall q, nx s' q = nx s q) -> (forall q, pv s' q = pv s q) ->
  ring s l -> ring s' l.
Proof.
  intros Hn Hp [H1 H2 H3]. split; [| |done]; (eapply chain_agree; [|eassumption]); auto.
Qed.

Definition linked (s : bstate) (l : list Z) : Prop :=
  chain (nx s) head l head /\ chain (pv s) head (rev l) head.
Definition same_core (s s' : bstate) : Prop :=
  (forall q, core (bufs s' q) = core (bufs s q)) /\ memdisk s' = memdisk s /\ disksize s' = disksize s.

Lemma rev_middle {A} (l1 l2 : list A) p : rev (l1 ++ p :: l2) = rev l2 ++ p :: rev l1.
Proof. rewrite rev_app_distr. simpl. by rewrite <- (assoc_L (++)). Qed.
Lemma updb_links s p f q :
  (forall b, next (f b) = next b) -> nx (updb s p f) q = nx s q.
Proof. intros H. by apply (updb_proj next). Qed.
Lemma updb_plinks s p f q :
  (forall b, prev (f b) = prev b) -> pv (updb s p f) q = pv s q.
Proof. intros H. by apply (updb_proj prev). Qed.
Lemma updb_core s p f :
  (forall b, core (f b) = core b) -> same_core s (updb s p f).
Proof. intros H. split; [|done]. intros q. by apply updb_proj. Qed.
Lemma same_core_trans s1 s2 s3 : same_core s1 s2 -> same_core s2 s3 -> same_core s1 s3.
Proof. intros (H1 & H2 & H3) (K1 & K2 & K3). split_and!; [|congruence..]. intros q. by rewrite K1. Qed.

Lemma unlink_run s l1 p l2 :
  linked s (l1 ++ p :: l2) -> NoDup (head :: l1 ++ p :: l2) ->
  exists s', unlink_buf p s = Ok (tt, s') /\ linked s' (l1 ++ l2) /\ same_core s s'.
Proof.
  intros [Hn Hp] Hnd. rewrite rev_middle in Hp.
  assert (Hndr : NoDup (head :: rev l2 ++ p :: rev l1)).
  { rewrite <- rev_middle. by rewrite <- Permutation_rev. }
  assert (Hprev : pv s p = lastd head l1).
  { apply chain_app in Hp as [_ Hp]. rewrite <- (rev_involutive l1), lastd_rev.
    destruct (rev l1); simpl in *; naive_solver. }
  assert (Hnext : nx s p = lastd head (rev l2)).
  { apply chain_app in Hn as [_ Hn]. rewrite lastd_rev. destruct l2; simpl in *; naive_solver. }
  assert (Hne : p <> nx s p).
  { rewrite Hnext. intros Heq. pose proof (lastd_in head (rev l2)) as Hl. rewrite <- Heq in Hl.
    revert Hnd Hl. clear. rewrite !NoDup_cons, NoDup_app, NoDup_cons, elem_of_cons, elem_rev. set_solver. }
  pose proof (chain_skip _ _ _ _ _ _ Hnd Hn) as Hn1.
  pose proof (chain_skip _ _ _ _ _ _ Hndr Hp) as Hp1.
  eexists. split; [reflexivity|]. set (s1 := updb s (nx s p) (set_prev (pv s p))).
  change (linked (updb s1 (pv s1 p) (set_next (nx s1 p))) (l1 ++ l2) /\
          same_core s (updb s1 (pv s1 p) (set_next (nx s1 p)))).
  assert (Hpv1 : pv s1 p = lastd head l1) by (unfold s1; rewrite pv_set, upd_ne; done).
  assert (Hnx1 : forall q, nx s1 q = nx s q) by (intros q; by apply updb_links).
  split; [split|].
  - eapply chain_agree; [|exact Hn1]. intros x _. rewrite nx_set, Hpv1, Hnx1. by apply upd_fun_ext.
  - rewrite rev_app_distr. eapply chain_agree; [|exact Hp1]. intros x _.
    rewrite updb_plinks by done. unfold s1. by rewrite pv_set, Hnext.
  - eapply same_core_trans; by apply updb_core.
Qed.

Lemma push_run s p l :
  linked s l -> NoDup (head :: p :: l) ->
  exists s', push_front p s = Ok (tt, s') /\ linked s' (p :: l) /\ same_core s s'.
Proof.
  intros [Hn Hp] Hnd.
  assert (Hph : head <> p) by (apply NoDup_cons in Hnd as [? _]; set_solver).
  assert (Hpl : p ∉ head :: l) by (rewrite !NoDup_cons in Hnd; set_solver).
  assert (Hndl : NoDup (head :: l)) by (rewrite !NoDup_cons in *; set_solver).
  assert (Hplr : p ∉ head :: rev l) by (rewrite elem_of_cons, elem_rev in *; done).
  assert (Hndr : NoDup (head :: rev l)) by (by rewrite <- Permutation_rev).
  assert (Hlast : nx s head = lastd head (rev l)).
  { rewrite lastd_rev. destruct l; simpl in *; naive_solver. }
  eexists. split; [reflexivity|].
  set (s1 := updb s p (set_next (nx s head))). set (s2 := updb s1 p (set_prev head)).
  set (s3 := updb s2 (nx s2 head) (set_prev p)).
  change (linked (updb s3 head (set_next p)) (p :: l) /\ same_core s (updb s3 head (set_next p))).
  assert (Hnx : forall q, nx s3 q = upd (nx s) p (nx s head) q).
  { intros q. unfold s3, s2. rewrite !updb_links by done. apply nx_set. }
  assert (Hnx2 : nx s2 head = nx s head).
  { unfold s2. rewrite updb_links by done. unfold s1. by rewrite nx_set, upd_ne. }
  split; [split|].
  - eapply chain_agree; [|exact (chain_first _ _ _ _ _ Hpl Hndl Hn)].
    intros x _. rewrite nx_set. by apply upd_fun_ext.
  - simpl. eapply chain_agree; [|exact (chain_last _ _ _ _ _ Hplr Hndr Hp)].
    intros x _. rewrite updb_plinks by done. unfold s3. rewrite pv_set, Hnx2, Hlast.
    apply upd_fun_ext. unfold s2. rewrite pv_set. apply upd_fun_ext. by apply updb_plinks.
  - apply (same_core_trans _ s3); [|by apply updb_core].
    apply (same_core_trans _ s2); [|by apply updb_core].
    apply (same_core_trans _ s1); by apply updb_core.
Qed.

(** [brelse]: the buffer moves to the front, all else stays in order. *)
Lemma relink_run s l1 p l2 :
  ring s (l1 ++ p :: l2) ->
  exists s', (unlink_buf p ;;; push_front p) s = Ok (tt, s') /\ ring s' (p :: l1 ++ l2) /\
    same_core s s'.
Proof.
  intros [Hn Hp Hall]. pose proof (all_nodup _ Hall) as Hnd.
  assert (Hperm : p :: l1 ++ l2 ≡ₚ l1 ++ p :: l2) by apply Permutation_middle.
  destruct (unlink_run s l1 p l2 (conj Hn Hp) Hnd) as (s1 & E1 & L1 & C1).
  destruct (push_run s1 p (l1 ++ l2) L1) as (s2 & E2 & [L2 L2'] & C2); [by rewrite Hperm|].
  exists s2. rewrite (bind_Ok _ _ _ _ _ E1). split; [done|]. split.
  - split; [done..|]. by rewrite Hperm.
  - by eapply same_core_trans.
Qed.

(** ** Flags *)
Definition busy (b : buf) : bool := has (flags b) B_BUSY.
Definition valid (b : buf) : bool := has (flags b) B_VALID.
Definition dirty (b : buf) : bool := has (flags b) B_DIRTY.

Lemma has_bit f k : 0 <= k -> has f (2 ^ k) = Z.testbit f k.
Proof. intros Hk. unfold has. rewrite land_bit by done. apply negb_involutive. Qed.
Lemma busy_bit f : has f B_BUSY = Z.testbit f 0.
Proof. by apply (has_bit f 0). Qed.
Lemma valid_bit f : has f B_VALID = Z.testbit f 1.
Proof. by apply (has_bit f 1). Qed.
Lemma dirty_bit f : has f B_DIRTY = Z.testbit f 2.
Proof. by apply (has_bit f 2). Qed.
(** Evaluates the three flags of a flag word built with [|] and [& ~]. *)
Ltac flag_bits :=
  unfold busy, valid, dirty in *; cbn [flags set_flags set_data set_dev set_sector] in *;
  rewrite ?busy_bit, ?valid_bit, ?dirty_bit in *;
  rewrite ?Z.lor_spec, ?Z.land_spec, ?Z.lnot_spec by done;
  repeat match goal with
  | |- context [Z.testbit ?c ?k] =>
      is_const c;
      let v := eval vm_compute in (Z.testbit c k) in change (Z.testbit c k) with v
  end;
  cbn [negb]; rewrite ?orb_false_r, ?orb_true_r, ?andb_true_r, ?andb_false_r.

(** ** The two searches of [bget] *)
Definition holds (bs : Z -> buf) (d sec p : Z) : bool := (dev (bs p) =? d) && (sector (bs p) =? sec).
Definition idle (bs : Z -> buf) (p : Z) : bool := negb (busy (bs p)) && negb (dirty (bs p)).

Lemma find_sector_run bs d sec l : forall a n,
  chain (fun p => next (bs p)) a l head -> (head ∉ l) -> (length l < n)%nat ->
  find_sector n bs d sec (next (bs a)) = Ok (List.find (holds bs d sec) l).
Proof.
  induction l as [|x l IH]; intros a [|n] Hc Hh Hn; simpl in *; try lia.
  - by rewrite Hc, Z.eqb_refl.
  - destruct Hc as [-> Hc]. rewrite not_elem_of_cons in Hh. destruct Hh as [Hx Hh].
    destruct (Z.eqb_spec x head); [by subst|]. unfold holds at 1. destruct (_ && _); [done|].
    apply IH; [done | done | lia].
Qed.
Lemma find_victim_run bs l : forall a n,
  chain (fun p => prev (bs p)) a l head -> (head ∉ l) -> (length l < n)%nat ->
  find_victim n bs (prev (bs a)) = Ok (List.find (idle bs) l).
Proof.
  induction l as [|x l IH]; intros a [|n] Hc Hh Hn; simpl in *; try lia.
  - by rewrite Hc, Z.eqb_refl.
  - destruct Hc as [-> Hc]. rewrite not_elem_of_cons in Hh. destruct Hh as [Hx Hh].
    destruct (Z.eqb_spec x head); [by subst|]. unfold idle, busy, dirty, has. rewrite !negb_involutive.
    destruct (_ && _); [done|]. apply IH; [done | done | lia].
Qed.

Lemma ring_head s l : ring s l -> head ∉ l.
Proof. intros [_ _ H]. by apply all_nodup, NoDup_cons in H as [? _]. Qed.
Lemma ring_length s l : ring s l -> (length l < fuel)%nat.
Proof. intros [_ _ H]. rewrite H, length_seqZ. unfold fuel. lia. Qed.

(** Recycle buffer [p] for the sector (lines 87-89). *)
Definition recycle (d sec p : Z) (s : bstate) : bstate :=
  updb (updb (updb s p (set_dev d)) p (set_sector sec)) p (set_flags B_BUSY).

Lemma bget_run s l d sec :
  ring s l ->
  bget d sec s =
    match List.find (holds (bufs s) d sec) l with
    | Some p => if busy (bufs s p) then Ok (None, s)
                else Ok (Some p, updb s p (fun b => set_flags (Z.lor (flags b) B_BUSY) b))
    | None => match List.find (idle (bufs s)) (rev l) with
              | Some p => Ok (Some p, recycle d sec p s)
              | None => Panic "bget: no buffers"
              end
    end.
Proof.
  intros Hr. pose proof (ring_head _ _ Hr) as Hh. pose proof (ring_length _ _ Hr) as Hl.
  destruct Hr as [Hn Hp _]. unfold bget. erewrite bind_Ok; [|reflexivity].
  rewrite (find_sector_run (bufs s) d sec l head) by done.
  erewrite bind_Ok; [|reflexivity]. destruct (List.find _ l) as [p|]; cbn beta iota.
  - unfold busy. by destruct (has _ _).
  - rewrite (find_victim_run (bufs s) (rev l) head); [|done|by rewrite elem_rev|by rewrite length_rev].
    erewrite bind_Ok; [|reflexivity]. by destruct (List.find _ (rev l)).
Qed.

(** ** What the cache holds *)
Definition inside (p : Z) : Prop := 0 <= p < NBUF.

Record bio_inv (s : bstate) (l : list Z) : Prop := mkBioInv {
  bi_ring : ring s l;
  (** at most one buffer per sector *)
  bi_uniq : forall p q d sec, inside p -> inside q -> d <> 2 ^ 32 - 1 ->
    holds (bufs s) d sec p = true -> holds (bufs s) d sec q = true -> p = q;
  (** a buffer nobody uses and the log has not pinned agrees with the disk *)
  bi_clean : forall p, inside p -> dev (bufs s p) = 1 -> valid (bufs s p) = true ->
    idle (bufs s) p = true -> data (bufs s p) = memdisk s (sector (bufs s p));
  bi_dirty : forall p, inside p -> dirty (bufs s p) = true -> valid (bufs s p) = true }.

(** The latest contents of a sector. *)
Definition loaded (s : bstate) (sec p : Z) : bool :=
  holds (bufs s) 1 sec p && valid (bufs s p).
Definition bcontent (s : bstate) (sec : Z) : block :=
  match List.find (loaded s sec) (seqZ 0 NBUF) with
  | Some p => data (bufs s p)
  | None => memdisk s sec
  end.
Definition pinned (s : bstate) (sec : Z) : Prop :=
  exists p, inside p /\ holds (bufs s) 1 sec p = true /\ dirty (bufs s p) = true.

Lemma find_inside (f : Z -> bool) p : List.find f (seqZ 0 NBUF) = Some p -> inside p /\ f p = true.
Proof.
  intros [Hin%list_elem_of_In Hf]%List.find_some. rewrite elem_of_seqZ in Hin. unfold inside. split; [lia|done].
Qed.
Lemma find_outside (f : Z -> bool) p : List.find f (seqZ 0 NBUF) = None -> inside p -> f p = false.
Proof.
  intros Hf Hp. apply (List.find_none _ _ Hf), list_elem_of_In, elem_of_seqZ. unfold inside in Hp. lia.
Qed.

Lemma content_cached s l sec p :
  bio_inv s l -> inside p -> loaded s sec p = true -> bcontent s sec = data (bufs s p).
Proof.
  intros Hi Hp Hl. unfold bcontent. destruct (List.find _ _) as [q|] eqn:E.
  - apply find_inside in E as [Hq Hf]. unfold loaded in *. rewrite andb_true_iff in *.
    by rewrite (bi_uniq s l Hi p q 1 sec) by (done || lia || tauto).
  - by rewrite (find_outside _ _ E Hp) in Hl.
Qed.
Lemma content_disk s sec :
  (forall p, inside p -> loaded s sec p = false) -> bcontent s sec = memdisk s sec.
Proof.
  intros H. unfold bcontent. destruct (List.find _ _) as [q|] eqn:E; [|done].
  apply find_inside in E as [Hq Hf]. by rewrite H in Hf.
Qed.
(** The same when the sector has a holder that is idle. *)
Lemma content_idle s l sec p :
  bio_inv s l -> inside p -> holds (bufs s) 1 sec p = true -> idle (bufs s) p = true ->
  bcontent s sec = memdisk s sec.
Proof.
  intros Hi Hp Hh Hid. destruct (valid (bufs s p)) eqn:Hv.
  - rewrite (content_cached s l sec p) by (done || unfold loaded; by rewrite Hh, Hv).
    unfold holds in Hh. rewrite andb_true_iff, !Z.eqb_eq in Hh. destruct Hh as [Hd <-].
    by eapply bi_clean.
  - apply content_disk. intros q Hq. unfold loaded. destruct (holds (bufs s) 1 sec q) eqn:Hhq; [|done].
    by rewrite <- (bi_uniq s l Hi p q 1 sec), Hv by (done || lia).
Qed.

(** ** One buffer changes hands *)

(** Buffer [p] may be given the sector: it holds it already, or it is idle
    and nobody else holds it. *)
Definition fits (s : bstate) (sec p : Z) : Prop :=
  inside p /\ busy (bufs s p) = false /\
  (holds (bufs s) 1 sec p = true \/
   idle (bufs s) p = true /\ forall q, inside q -> holds (bufs s) 1 sec q = false).

(** [s'] is [s] with the sector in buffer [p], with contents [d]. *)
Record settled (s : bstate) (sec p : Z) (d : block) (s' : bstate) : Prop := mkSettled {
  st_rest : forall q, q <> p -> core (bufs s' q) = core (bufs s q);
  st_dev : dev (bufs s' p) = 1;
  st_sector : sector (bufs s' p) = sec;
  st_valid : valid (bufs s' p) = true;
  st_data : data (bufs s' p) = d;
  st_disk : forall y, y <> sec -> memdisk s' y = memdisk s y;
  st_clean : dirty (bufs s' p) = false -> busy (bufs s' p) = false -> memdisk s' sec = d }.

Lemma core_eq b b' : core b = core b' ->
  dev b = dev b' /\ sector b = sector b' /\ data b = data b' /\ busy b = busy b' /\
  valid b = valid b' /\ dirty b = dirty b'.
Proof. unfold core, busy, valid, dirty. intros [= H1 H2 H3 H4]. by rewrite H1, H2, H3, H4. Qed.
Lemma holds_iff bs d sec p : holds bs d sec p = true <-> dev (bs p) = d /\ sector (bs p) = sec.
Proof. unfold holds. by rewrite andb_true_iff, !Z.eqb_eq. Qed.
Lemma holds_core (bs bs' : Z -> buf) d sec p :
  core (bs' p) = core (bs p) -> holds bs' d sec p = holds bs d sec p.
Proof. intros H. unfold holds. destruct (core_eq _ _ H) as (-> & -> & _). done. Qed.

Section Settle.
Context (s s' : bstate) (l l' : list Z) (sec p : Z) (d : block).
Hypotheses (Hi : bio_inv s l) (Hf : fits s sec p) (Hs : settled s sec p d s') (Hr : ring s' l').

Lemma settled_holder d0 y q :
  inside q -> d0 <> 2 ^ 32 - 1 -> holds (bufs s') d0 y q = true ->
  q = p /\ d0 = 1 /\ y = sec \/ q <> p /\ holds (bufs s) d0 y q = true /\ ~ (d0 = 1 /\ y = sec).
Proof using All.
  intros Hq Hd0 Hh. destruct (decide (q = p)) as [->|Hne].
  - left. apply holds_iff in Hh as [<- <-]. by rewrite (st_dev _ _ _ _ _ Hs), (st_sector _ _ _ _ _ Hs).
  - right. rewrite (holds_core (bufs s) (bufs s')) in Hh by (by apply (st_rest _ _ _ _ _ Hs)).
    split; [done|]. split; [done|]. intros [-> ->]. destruct Hf as (Hp & _ & [Hhp|[_ Hno]]).
    + apply Hne. by eapply (bi_uniq s l Hi).
    + by rewrite Hno in Hh.
Qed.

Lemma settled_inv : bio_inv s' l'.
Proof using All.
  split; [done| | |].
  - intros a b d0 y Ha Hb Hd0 H1 H2.
    destruct (settled_holder d0 y a Ha Hd0 H1) as [(-> & -> & ->)|(Hna & H1' & Hn)];
    destruct (settled_holder _ _ b Hb Hd0 H2) as [(-> & E1 & E2)|(Hnb & H2' & Hn')];
      try done; try (by destruct Hn); try (by destruct Hn'). by eapply (bi_uniq s l Hi).
  - intros q Hq Hdq Hvq Hiq. destruct (decide (q = p)) as [->|Hne].
    + rewrite (st_data _ _ _ _ _ Hs), (st_sector _ _ _ _ _ Hs). symmetry.
      unfold idle in Hiq. rewrite andb_true_iff, !negb_true_iff in Hiq. destruct Hiq.
      by apply (st_clean _ _ _ _ _ Hs).
    + pose proof (core_eq _ _ (st_rest _ _ _ _ _ Hs q Hne)) as (E1 & E2 & E3 & E4 & E5 & E6).
      destruct (settled_holder 1 (sector (bufs s' q)) q Hq ltac:(done)) as [[? _]|(_ & _ & Hn)];
        [by apply holds_iff | done |].
      rewrite (st_disk _ _ _ _ _ Hs) by naive_solver. rewrite E3, E2. apply (bi_clean s l Hi); try congruence.
      revert Hiq. unfold idle. by rewrite E4, E6.
  - intros q Hq. destruct (decide (q = p)) as [->|Hne]; [by rewrite (st_valid _ _ _ _ _ Hs)|].
    pose proof (core_eq _ _ (st_rest _ _ _ _ _ Hs q Hne)) as (_ & _ & _ & _ & -> & ->).
    by apply (bi_dirty s l Hi).
Qed.

Lemma settled_content y : bcontent s' y = upd (bcontent s) sec d y.
Proof using All.
  destruct Hf as (Hp & Hnb & Hor). destruct (decide (y = sec)) as [->|Hy].
  - rewrite upd_eq, (content_cached s' l' sec p settled_inv Hp); [apply (st_data _ _ _ _ _ Hs)|].
    unfold loaded. rewrite (proj2 (holds_iff _ _ _ _)), (st_valid _ _ _ _ _ Hs); [done|].
    by rewrite (st_dev _ _ _ _ _ Hs), (st_sector _ _ _ _ _ Hs).
  - rewrite upd_ne by done. unfold bcontent at 1. destruct (List.find _ _) as [q|] eqn:E.
    + apply find_inside in E as [Hq Hl]. unfold loaded in Hl. apply andb_true_iff in Hl as [Hh Hv].
      destruct (settled_holder 1 y q Hq ltac:(done) Hh) as [(_ & _ & ?)|(Hne & Hh' & _)]; [done|].
      pose proof (core_eq _ _ (st_rest _ _ _ _ _ Hs q Hne)) as (_ & _ & -> & _ & Ev & _).
      symmetry. apply (content_cached s l); [done..|]. unfold loaded. by rewrite Hh', <- Ev, Hv.
    + rewrite (st_disk _ _ _ _ _ Hs) by done. symmetry.
      destruct (holds (bufs s) 1 y p) eqn:Hhp.
      * apply (content_idle s l y p); try done. destruct Hor as [Hh|[? _]]; [|done].
        apply holds_iff in Hh as [_ ?], Hhp as [_ ?]. congruence.
      * apply content_disk. intros q Hq. pose proof (find_outside _ _ E Hq) as Hl.
        destruct (decide (q = p)) as [->|Hne]; [unfold loaded; by rewrite Hhp|].
        rewrite <- Hl. unfold loaded. rewrite (holds_core (bufs s) (bufs s')) by (by apply (st_rest _ _ _ _ _ Hs)).
        pose proof (core_eq _ _ (st_rest _ _ _ _ _ Hs q Hne)) as (_ & _ & _ & _ & -> & _). done.
Qed.

Lemma settled_pinned y :
  pinned s' y <-> if decide (y = sec) then dirty (bufs s' p) = true else pinned s y.
Proof using All.
  destruct Hf as (Hp & Hnb & Hor). split.
  - intros (q & Hq & Hh & Hd). destruct (settled_holder 1 y q Hq ltac:(done) Hh)
      as [(-> & _ & ->)|(Hne & Hh' & Hn)]; [by rewrite decide_True by done|].
    rewrite decide_False by naive_solver. exists q. split; [done|]. split; [done|].
    pose proof (core_eq _ _ (st_rest _ _ _ _ _ Hs q Hne)) as (_ & _ & _ & _ & _ & <-). done.
  - case_decide as Hy.
    + subst. intros Hd. exists p. split; [done|]. split; [|done]. apply holds_iff.
      by rewrite (st_dev _ _ _ _ _ Hs), (st_sector _ _ _ _ _ Hs).
    + intros (q & Hq & Hh & Hd). assert (Hne : q <> p).
      { intros ->. destruct Hor as [Hhp|[Hid _]].
        - apply holds_iff in Hh as [_ ?], Hhp as [_ ?]. congruence.
        - unfold idle in Hid. by rewrite Hd, andb_false_r in Hid. }
      exists q. split; [done|].
      rewrite (holds_core (bufs s) (bufs s')) by (by apply (st_rest _ _ _ _ _ Hs)). split; [done|].
      pose proof (core_eq _ _ (st_rest _ _ _ _ _ Hs q Hne)) as (_ & _ & _ & _ & _ & ->). done.
Qed.
End Settle.

(** ** The disk driver *)
Lemma nothing_to_do f :
  (Z.land f (Z.lor B_VALID B_DIRTY) =? B_VALID) = true -> has f B_VALID = true /\ has f B_DIRTY = false.
Proof.
  rewrite Z.eqb_eq. intros H. rewrite valid_bit, dirty_bit.
  pose proof (f_equal (fun z => Z.testbit z 1) H) as H1. pose proof (f_equal (fun z => Z.testbit z 2) H) as H2.
  cbv beta in H1, H2. rewrite Z.land_spec in H1, H2. cbn in H1, H2.
  by rewrite andb_true_r in H1, H2.
Qed.

Definition synced (p : Z) (s : bstate) : bstate :=
  updb s p (fun b => set_flags (Z.lor (flags b) B_VALID) b).

Lemma iderw_read s p :
  busy (bufs s p) = true -> valid (bufs s p) = false -> dirty (bufs s p) = false ->
  dev (bufs s p) = 1 -> sector (bufs s p) < disksize s ->
  iderw p s = Ok (tt, synced p (updb s p (set_data (memdisk s (sector (bufs s p)))))).
Proof.
  intros Hb Hv Hd Hdev Hsec. unfold iderw. do 2 (erewrite bind_Ok; [|reflexivity]).
  unfold busy, valid, dirty in *. rewrite Hb, Hd, Hdev. cbn [negb].
  destruct (_ =? B_VALID) eqn:E; [apply nothing_to_do in E as [E _]; congruence|]. simpl.
  destruct (Z.geb_spec (sector (bufs s p)) (disksize s)); [lia|]. reflexivity.
Qed.

Lemma iderw_write s p sec d :
  busy (bufs s p) = true -> dirty (bufs s p) = true ->
  dev (bufs s p) = 1 -> sector (bufs s p) = sec -> data (bufs s p) = d -> sec < disksize s ->
  iderw p s = Ok (tt, synced p (mkBS
    (bufs (updb s p (fun b => set_flags (Z.land (flags b) (Z.lnot B_DIRTY)) b)))
    (upd (memdisk s) sec d) (disksize s))).
Proof.
  intros Hb Hd Hdev <- <- Hsec. unfold iderw. do 2 (erewrite bind_Ok; [|reflexivity]).
  unfold busy, valid, dirty in *. rewrite Hb, Hd, Hdev. cbn [negb].
  destruct (_ =? B_VALID) eqn:E; [apply nothing_to_do in E as [_ E]; congruence|]. simpl.
  destruct (Z.geb_spec (sector (bufs s p)) (disksize s)); [lia|]. reflexivity.
Qed.

(** ** Reading a sector *)

(** A busy buffer with the latest contents of the sector. *)
Record fetched (s : bstate) (l : list Z) (sec p : Z) (s' : bstate) : Prop := mkFetched {
  fe_fits : fits s sec p;
  fe_settled : settled s sec p (bcontent s sec) s';
  fe_busy : busy (bufs s' p) = true;
  fe_dirty : dirty (bufs s' p) = dirty (bufs s p);
  fe_ring : ring s' l;
  fe_clean : dirty (bufs s' p) = false -> memdisk s sec = bcontent s sec;
  fe_disk : memdisk s' = memdisk s;
  fe_size : disksize s' = disksize s }.

Lemma find_hit s l d sec p :
  ring s l -> List.find (holds (bufs s) d sec) l = Some p -> inside p /\ holds (bufs s) d sec p = true.
Proof.
  intros Hr [Hin%list_elem_of_In Hh]%List.find_some. split; [by apply (ring_elem s l)|done].
Qed.
Lemma find_miss s l d sec q :
  ring s l -> List.find (holds (bufs s) d sec) l = None -> inside q -> holds (bufs s) d sec q = false.
Proof.
  intros Hr Hn Hq. apply (List.find_none _ _ Hn), list_elem_of_In. by apply (ring_elem s l).
Qed.
Lemma find_idle s l q :
  ring s l -> inside q -> idle (bufs s) q = true ->
  exists p, List.find (idle (bufs s)) (rev l) = Some p /\ inside p /\ idle (bufs s) p = true.
Proof.
  intros Hr Hq Hi. destruct (List.find _ (rev l)) as [p|] eqn:E.
  - exists p. split; [done|]. apply List.find_some in E as [Hin%list_elem_of_In Hp].
    split; [|done]. apply (ring_elem s l p Hr). by rewrite elem_rev in Hin.
  - exfalso. assert (idle (bufs s) q = false); [|congruence].
    apply (List.find_none _ _ E), list_elem_of_In, elem_rev. by apply (ring_elem s l).
Qed.

(** [s1] is [s] with [p] claimed for the sector. *)
Record claimed (s : bstate) (sec p : Z) (s1 : bstate) : Prop := mkClaimed {
  cl_rest : forall q, q <> p -> bufs s1 q = bufs s q;
  cl_next : next (bufs s1 p) = next (bufs s p);
  cl_prev : prev (bufs s1 p) = prev (bufs s p);
  cl_dev : dev (bufs s1 p) = 1;
  cl_sector : sector (bufs s1 p) = sec;
  cl_busy : busy (bufs s1 p) = true;
  cl_dirty : dirty (bufs s1 p) = dirty (bufs s p);
  cl_disk : memdisk s1 = memdisk s;
  cl_size : disksize s1 = disksize s }.

Lemma claimed_ring s sec p s1 l : claimed s sec p s1 -> ring s l -> ring s1 l.
Proof.
  intros Hc. apply ring_agree; intros q; unfold nx, pv;
    (destruct (decide (q = p)) as [->|]; [apply Hc | by rewrite (cl_rest _ _ _ _ Hc)]).
Qed.

Lemma claim_hit s sec p :
  busy (bufs s p) = false -> holds (bufs s) 1 sec p = true ->
  claimed s sec p (updb s p (fun b => set_flags (Z.lor (flags b) B_BUSY) b)).
Proof.
  intros Hb [Hd Hs]%holds_iff. split; try done; rewrite ?updb_same; try done; try by intros; apply updb_other.
  - by flag_bits.
  - by flag_bits.
Qed.
Lemma claim_recycle s sec p : idle (bufs s) p = true -> claimed s sec p (recycle 1 sec p s).
Proof.
  unfold idle. rewrite andb_true_iff, !negb_true_iff. intros [Hb Hd].
  split; try done; unfold recycle; rewrite ?updb_same; try done.
  intros q Hq. by rewrite !updb_other.
Qed.

Section Fetch.
Context (s s1 : bstate) (l : list Z) (sec p : Z).
Hypotheses (Hi : bio_inv s l) (Hf : fits s sec p) (Hc : claimed s sec p s1).
Hypothesis (Hsec : sec < disksize s).

(** The buffer already has the contents. *)
Lemma fetch_cached :
  holds (bufs s) 1 sec p = true -> valid (bufs s p) = true ->
  valid (bufs s1 p) = true -> data (bufs s1 p) = data (bufs s p) -> fetched s l sec p s1.
Proof using Hi Hf Hc.
  intros Hh Hv Hv1 Hd. destruct Hf as (Hp & Hb & _).
  assert (Hcont : bcontent s sec = data (bufs s p)).
  { apply (content_cached s l); try done. unfold loaded. by rewrite Hh, Hv. }
  assert (Hcl : dirty (bufs s1 p) = false -> memdisk s sec = bcontent s sec).
  { intros Hdf. symmetry. apply (content_idle s l sec p); try done.
    rewrite (cl_dirty _ _ _ _ Hc) in Hdf. unfold idle. by rewrite Hb, Hdf. }
  split; try done; try apply Hc.
  - split; try apply Hc; try done.
    + intros q Hq. by rewrite (cl_rest _ _ _ _ Hc).
    + by rewrite Hcont.
    + intros. by rewrite (cl_disk _ _ _ _ Hc).
    + intros. rewrite (cl_disk _ _ _ _ Hc). auto.
  - by apply (claimed_ring s sec p), Hi.
Qed.

(** The buffer is filled from the disk. *)
Lemma fetch_disk :
  bcontent s sec = memdisk s sec -> valid (bufs s1 p) = false -> dirty (bufs s1 p) = false ->
  exists s2, iderw p s1 = Ok (tt, s2) /\ fetched s l sec p s2.
Proof using All.
  intros Hcont Hv Hd. eexists. split.
  { apply iderw_read; try done; try apply Hc.
    by rewrite (cl_sector _ _ _ _ Hc), (cl_size _ _ _ _ Hc). }
  rewrite (cl_disk _ _ _ _ Hc), (cl_sector _ _ _ _ Hc).
  set (s2 := synced _ _).
  assert (Hp2 : bufs s2 p = set_flags (Z.lor (flags (bufs s1 p)) B_VALID)
                              (set_data (memdisk s sec) (bufs s1 p))).
  { unfold s2, synced. by rewrite !updb_same. }
  assert (Hq2 : forall q, q <> p -> bufs s2 q = bufs s q).
  { intros q Hq. unfold s2, synced. rewrite !updb_other by done. by apply (cl_rest _ _ _ _ Hc). }
  assert (Hdk : memdisk s2 = memdisk s) by apply (cl_disk _ _ _ _ Hc).
  pose proof (cl_busy _ _ _ _ Hc) as Hb1. pose proof (cl_dirty _ _ _ _ Hc) as Hd1.
  split; try done; try apply Hc; rewrite ?Hp2; try done.
  - split; rewrite ?Hp2, ?Hdk; try apply Hc; try done.
    + intros q Hq. by rewrite Hq2.
    + by flag_bits.
  - revert Hb1. flag_bits. by intros ->.
  - rewrite <- Hd1. by flag_bits.
  - eapply ring_agree; [..|exact (claimed_ring _ _ _ _ _ Hc (bi_ring _ _ Hi))];
      intros q; unfold nx, pv, s2, synced; by rewrite !updb_proj.
Qed.
End Fetch.

Lemma bread_run s l sec q :
  bio_inv s l -> sec < disksize s -> inside q -> idle (bufs s) q = true ->
  (bread 1 sec s = Ok (None, s) /\ exists p, inside p /\ holds (bufs s) 1 sec p = true /\ busy (bufs s p) = true)
  \/ exists p s', bread 1 sec s = Ok (Some p, s') /\ fetched s l sec p s'.
Proof.
  intros Hi Hsec Hq Hidle. pose proof (bi_ring _ _ Hi) as Hr. unfold bread.
  pose proof (bget_run s l 1 sec Hr) as Hg.
  destruct (List.find (holds (bufs s) 1 sec) l) as [p|] eqn:E.
  - destruct (find_hit _ _ _ _ _ Hr E) as [Hp Hh]. destruct (busy (bufs s p)) eqn:Hb.
    { left. rewrite (bind_Ok _ _ _ _ _ Hg). split; [done|]. by exists p. }
    right. rewrite (bind_Ok _ _ _ _ _ Hg). assert (Hf : fits s sec p) by (by split_and!; [..|left]).
    pose proof (claim_hit s sec p Hb Hh) as Hc. exists p. erewrite bind_Ok; [|reflexivity].
    set (s1 := updb _ _ _) in *.
    assert (Hv1 : valid (bufs s1 p) = valid (bufs s p)) by (unfold s1; rewrite updb_same; by flag_bits).
    change (has (flags (bufs s1 p)) B_VALID) with (valid (bufs s1 p)).
    destruct (valid (bufs s p)) eqn:Hv; rewrite Hv1; cbn [negb].
    + exists s1. split; [done|]. apply fetch_cached; try done. unfold s1. by rewrite updb_same.
    + assert (Hd : dirty (bufs s p) = false).
      { destruct (dirty (bufs s p)) eqn:Hd; [|done]. by rewrite (bi_dirty s l Hi p) in Hv. }
      destruct (fetch_disk s s1 l sec p) as (s2 & E2 & F2); try done.
      { apply (content_idle s l sec p); try done. unfold idle. by rewrite Hb, Hd. }
      { by rewrite (cl_dirty _ _ _ _ Hc). }
      exists s2. by rewrite (bind_Ok _ _ _ _ _ E2).
  - right. destruct (find_idle s l q Hr Hq Hidle) as (p & Ep & Hp & Hid). rewrite Ep in Hg.
    rewrite (bind_Ok _ _ _ _ _ Hg).
    pose proof (fun q => find_miss s l 1 sec q Hr E) as Hno.
    pose proof (claim_recycle s sec p Hid) as Hc. exists p. erewrite bind_Ok; [|reflexivity].
    assert (Hv1 : valid (bufs (recycle 1 sec p s) p) = false) by (unfold recycle; by rewrite !updb_same).
    change (has (flags (bufs ?x p)) B_VALID) with (valid (bufs x p)). rewrite Hv1. cbn [negb].
    assert (Hf : fits s sec p).
    { split; [done|]. split; [|by right]. unfold idle in Hid. by destruct (busy (bufs s p)). }
    destruct (fetch_disk s (recycle 1 sec p s) l sec p) as (s2 & E2 & F2); try done.
    { apply content_disk. intros r Hr'. unfold loaded. by rewrite Hno. }
    { unfold recycle. by rewrite !updb_same. }
    exists s2. by rewrite (bind_Ok _ _ _ _ _ E2).
Qed.

Lemma brelse_run s l1 p l2 :
  ring s (l1 ++ p :: l2) -> busy (bufs s p) = true ->
  exists s', brelse p s = Ok (tt, s') /\ ring s' (p :: l1 ++ l2) /\
    (forall q, q <> p -> core (bufs s' q) = core (bufs s q)) /\
    core (bufs s' p) = core (set_flags (Z.land (flags (bufs s p)) (Z.lnot B_BUSY)) (bufs s p)) /\
    memdisk s' = memdisk s /\ disksize s' = disksize s.
Proof.
  intros Hr Hb. unfold brelse. erewrite bind_Ok; [|reflexivity].
  unfold busy, has in Hb. rewrite negb_true_iff in Hb. rewrite Hb.
  destruct (relink_run s l1 p l2 Hr) as (s1 & E1 & R1 & C1 & D1 & Z1).
  rewrite <- bind_assoc. rewrite (bind_Ok _ _ _ _ _ E1). eexists. split; [reflexivity|].
  change (mkBS _ _ _) with (updb s1 p (fun b => set_flags (Z.land (flags b) (Z.lnot B_BUSY)) b)).
  split; [|split_and!; try done].
  - eapply ring_agree; [..|exact R1]; intros q; [by apply updb_links | by apply updb_plinks].
  - intros q Hq. by rewrite updb_other.
  - rewrite updb_same. unfold core. simpl. pose proof (C1 p) as [= -> -> -> ->]. done.
Qed.

(** ** The cache as its clients use it

    A client reads a sector into a busy buffer, works on it and releases it. *)
Definition use_block {A} (sec : Z) (body : Z -> B A) : B (option A) :=
  r <- bread 1 sec ;;
  match r with
  | None => ret None
  | Some p => a <- body p ;; brelse p ;;; ret (Some a)
  end.
Definition read_block (sec : Z) : B (option block) :=
  use_block sec (fun p => b <- buf_of p ;; ret (data b)).
Definition write_block (sec : Z) (d : block) : B (option unit) :=
  use_block sec (fun p => set_buf p (set_data d) ;;; bwrite p).
(** The buffer's side of [log_write]: it becomes dirty and is not written. *)
Definition log_block (sec : Z) (d : block) : B (option unit) :=
  use_block sec (fun p => set_buf p (set_data d) ;;;
    set_buf p (fun b => set_flags (Z.lor (flags b) B_DIRTY) b)).

(** Work on buffer [p] that leaves it with contents [d]. *)
Record worked (s1 : bstate) (sec p : Z) (d : block) (s2 : bstate) : Prop := mkWorked {
  wk_rest : forall q, q <> p -> bufs s2 q = bufs s1 q;
  wk_next : next (bufs s2 p) = next (bufs s1 p);
  wk_prev : prev (bufs s2 p) = prev (bufs s1 p);
  wk_dev : dev (bufs s2 p) = 1;
  wk_sector : sector (bufs s2 p) = sec;
  wk_valid : valid (bufs s2 p) = true;
  wk_busy : busy (bufs s2 p) = true;
  wk_data : data (bufs s2 p) = d;
  wk_disk : forall y, y <> sec -> memdisk s2 y = memdisk s1 y;
  wk_clean : dirty (bufs s2 p) = false -> memdisk s2 sec = d }.

Lemma released s l sec p s1 d s2 :
  bio_inv s l -> fetched s l sec p s1 -> worked s1 sec p d s2 ->
  exists s3 l', brelse p s2 = Ok (tt, s3) /\ bio_inv s3 l' /\
    (forall y, bcontent s3 y = upd (bcontent s) sec d y) /\ memdisk s3 = memdisk s2 /\
    (forall y, pinned s3 y <-> if decide (y = sec) then dirty (bufs s2 p) = true else pinned s y) /\
    disksize s3 = disksize s2.
Proof.
  intros Hi Hf Hw. pose proof (fe_settled _ _ _ _ _ Hf) as Hs.
  assert (Hr2 : ring s2 l).
  { eapply ring_agree; [..|apply Hf]; intros q; unfold nx, pv;
      (destruct (decide (q = p)) as [->|]; [apply Hw | by rewrite (wk_rest _ _ _ _ _ Hw)]). }
  assert (Hp : p ∈ l) by (apply (ring_elem s2 l p Hr2), Hf).
  apply list_elem_of_split in Hp as (l1 & l2 & ->).
  destruct (brelse_run s2 l1 p l2 Hr2 (wk_busy _ _ _ _ _ Hw)) as (s3 & E & R3 & Cq & Cp & D3 & Z3).
  destruct (core_eq _ _ Cp) as (Ed & Es & Edat & _ & Ev & Edy).
  assert (Hset : settled s sec p d s3).
  { split; rewrite ?Ed, ?Es, ?Ev, ?Edat, ?D3; try apply Hw.
    - intros q Hq. rewrite Cq, (wk_rest _ _ _ _ _ Hw) by done. by apply Hs.
    - pose proof (wk_valid _ _ _ _ _ Hw). by flag_bits.
    - intros y Hy. rewrite (wk_disk _ _ _ _ _ Hw) by done. by apply Hs.
    - intros Hd _. apply (wk_clean _ _ _ _ _ Hw). rewrite Edy in Hd. revert Hd. by flag_bits. }
  pose proof (fe_fits _ _ _ _ _ Hf) as Hfit.
  exists s3, (p :: l1 ++ l2). split; [done|]. split; [by eapply settled_inv|].
  split; [intros y; by eapply settled_content|]. split; [done|]. split; [|done].
  intros y. rewrite (settled_pinned s s3 _ _ sec p d Hi Hfit Hset R3), Edy.
  enough (Hx : dirty (set_flags (Z.land (flags (bufs s2 p)) (Z.lnot B_BUSY)) (bufs s2 p)) = dirty (bufs s2 p))
    by (by rewrite Hx).
  by flag_bits.
Qed.

Lemma read_worked s l sec p s1 :
  fetched s l sec p s1 -> worked s1 sec p (bcontent s sec) s1.
Proof.
  intros Hf. pose proof (fe_settled _ _ _ _ _ Hf) as Hs. split; try done; try apply Hs; try apply Hf.
  intros Hd. rewrite (fe_disk _ _ _ _ _ Hf). by apply (fe_clean _ _ _ _ _ Hf).
Qed.
Lemma log_worked s l sec p s1 d :
  fetched s l sec p s1 ->
  let s2 := updb (updb s1 p (set_data d)) p (fun b => set_flags (Z.lor (flags b) B_DIRTY) b) in
  worked s1 sec p d s2 /\ dirty (bufs s2 p) = true.
Proof.
  intros Hf s2. pose proof (fe_settled _ _ _ _ _ Hf) as Hs.
  assert (Hp : bufs s2 p = set_flags (Z.lor (flags (bufs s1 p)) B_DIRTY) (set_data d (bufs s1 p))).
  { unfold s2. by rewrite !updb_same. }
  assert (Hd : dirty (bufs s2 p) = true) by (rewrite Hp; by flag_bits). split; [|done].
  pose proof (fe_busy _ _ _ _ _ Hf) as Hb. pose proof (st_valid _ _ _ _ _ Hs) as Hv.
  split; try congruence; rewrite ?Hp; try apply Hs; try done.
  - intros q Hq. unfold s2. by rewrite !updb_other.
  - by flag_bits.
  - by flag_bits.
Qed.
Lemma write_worked s l sec p s1 d :
  fetched s l sec p s1 -> sec < disksize s ->
  exists s2, (set_buf p (set_data d) ;;; bwrite p) s1 = Ok (tt, s2) /\ worked s1 sec p d s2 /\
    dirty (bufs s2 p) = false /\ (forall y, memdisk s2 y = upd (memdisk s1) sec d y) /\
    disksize s2 = disksize s1.
Proof.
  intros Hf Hsec. pose proof (fe_settled _ _ _ _ _ Hf) as Hs.
  pose proof (fe_busy _ _ _ _ _ Hf) as Hb. pose proof (st_valid _ _ _ _ _ Hs) as Hv.
  erewrite bind_Ok; [|reflexivity]. change (mkBS _ _ _) with (updb s1 p (set_data d)).
  unfold bwrite. erewrite bind_Ok; [|reflexivity]. rewrite updb_same. cbn [flags set_data].
  pose proof Hb as Hb'. unfold busy, has in Hb'. rewrite negb_true_iff in Hb'. rewrite Hb'.
  erewrite bind_Ok; [|reflexivity].
  change (mkBS _ _ _) with (updb (updb s1 p (set_data d)) p (fun b => set_flags (Z.lor (flags b) B_DIRTY) b)).
  destruct (log_worked s l sec p s1 d Hf) as [Hw Hdt]. set (s2 := updb (updb _ _ _) _ _) in *.
  eexists. split.
  { apply (iderw_write _ _ sec d); try apply Hw; try done.
    change (disksize s2) with (disksize s1). by rewrite (fe_size _ _ _ _ _ Hf). }
  set (s3 := synced _ _).
  assert (Hp : bufs s3 p = set_flags (Z.lor (Z.land (flags (bufs s2 p)) (Z.lnot B_DIRTY)) B_VALID) (bufs s2 p)).
  { unfold s3, synced. simpl. rewrite !upd_eq. done. }
  assert (Hdk : forall y, memdisk s3 y = upd (memdisk s1) sec d y) by done.
  assert (Hdf : dirty (bufs s3 p) = false) by (rewrite Hp; by flag_bits).
  split; [|done]. pose proof (wk_busy _ _ _ _ _ Hw) as Hb2.
  split; rewrite ?Hp; try apply Hw; try done.
  - intros q Hq. rewrite <- (wk_rest _ _ _ _ _ Hw) by done. unfold s3, synced. simpl. by rewrite !upd_ne.
  - by flag_bits.
  - flag_bits. by rewrite Hb2.
  - intros y Hy. rewrite Hdk. by apply upd_ne.
  - intros _. rewrite Hdk. apply upd_eq.
Qed.

(** ** bio.c implements the cache the log is written against *)

(** The buffers [s] and the abstract cache [t] show the same sectors, the
    same disk and the same pinned sectors. *)
Record cache_rep (s : bstate) (t : lstate) : Prop := mkCacheRep {
  rp_inv : exists l, bio_inv s l;
  rp_content : forall y, bcontent s y = content t y;
  rp_disk : forall y, memdisk s y = disk t y;
  rp_pinned : forall y, pinned s y <-> exists d, cache t !! y = Some (d, true) }.

(** The call sleeps because the sector's buffer is in use. *)
Definition in_use (s : bstate) (sec : Z) : Prop :=
  exists p, inside p /\ holds (bufs s) 1 sec p = true /\ busy (bufs s p) = true.

Section Use.
Context (s : bstate) (l : list Z) (sec q : Z) (d : block).
Hypotheses (Hi : bio_inv s l) (Hsec : sec < disksize s) (Hq : inside q) (Hidle : idle (bufs s) q = true).

(** [use_block] with work that returns [a] and leaves the contents [d]. *)
Lemma use_run {A} (body : Z -> B A) (a : A) (Q : bstate -> Prop) x :
  (forall p s1, fetched s l sec p s1 -> exists s2, body p s1 = Ok (a, s2) /\ worked s1 sec p d s2 /\
     dirty (bufs s2 p) = x p /\ disksize s2 = disksize s /\ forall s3, memdisk s3 = memdisk s2 -> Q s3) ->
  (use_block sec body s = Ok (None, s) /\ in_use s sec) \/
  exists p s' l', use_block sec body s = Ok (Some a, s') /\ fits s sec p /\ bio_inv s' l' /\
    (forall y, bcontent s' y = upd (bcontent s) sec d y) /\
    (forall y, pinned s' y <-> if decide (y = sec) then x p = true else pinned s y) /\
    disksize s' = disksize s /\ Q s'.
Proof using All.
  intros Hbody. unfold use_block.
  destruct (bread_run s l sec q Hi Hsec Hq Hidle) as [[E Hu]|(p & s1 & E & Hf)];
    rewrite (bind_Ok _ _ _ _ _ E); [by left|]. right.
  destruct (Hbody p s1 Hf) as (s2 & E2 & Hw & Hx & Hz & HQ). rewrite (bind_Ok _ _ _ _ _ E2).
  destruct (released s l sec p s1 d s2 Hi Hf Hw) as (s3 & l' & E3 & I3 & C3 & D3 & P3 & Z3).
  rewrite (bind_Ok _ _ _ _ _ E3). exists p, s3, l'. rewrite Hx in P3.
  split; [done|]. split; [apply Hf|]. split; [done|]. split; [done|]. split; [done|].
  split; [congruence|]. by apply HQ.
Qed.
End Use.

Lemma fits_pinned s l sec p :
  bio_inv s l -> fits s sec p -> dirty (bufs s p) = true <-> pinned s sec.
Proof.
  intros Hi (Hp & _ & [Hh|[Hid Hno]]).
  - split; [by exists p|]. intros (q & Hq & Hhq & Hd). by rewrite (bi_uniq s l Hi p q 1 sec) by (done || lia).
  - unfold idle in Hid. split.
    + intros Hd. by rewrite Hd, andb_false_r in Hid.
    + intros (q & Hq & Hh & _). by rewrite Hno in Hh.
Qed.

Section Simulation.
Context (s : bstate) (t : lstate) (sec : Z) (q : Z).
Hypotheses (Hrep : cache_rep s t) (Hsec : sec < disksize s) (Hq : inside q) (Hidle : idle (bufs s) q = true).

Lemma sim_read :
  (read_block sec s = Ok (None, s) /\ in_use s sec) \/
  exists s' d t', read_block sec s = Ok (Some d, s') /\ Log.bread sec t = Ok (d, t') /\
    cache_rep s' t' /\ disksize s' = disksize s.
Proof using All.
  destruct (rp_inv _ _ Hrep) as [l Hi].
  destruct (use_run s l sec q (bcontent s sec) Hi Hsec Hq Hidle
              (fun p => b <- buf_of p ;; ret (data b)) (bcontent s sec)
              (fun s3 => memdisk s3 = memdisk s) (fun p => dirty (bufs s p)))
    as [?|(p & s' & l' & E & Hf & I & C & P & Z & D)]; [|by left|].
  { intros p s1 Hf. exists s1. erewrite bind_Ok; [|reflexivity].
    pose proof (fe_settled _ _ _ _ _ Hf) as Hs. rewrite (st_data _ _ _ _ _ Hs).
    split; [done|]. split; [by eapply read_worked|]. split; [apply Hf|]. split; [apply Hf|].
    intros s3 ->. apply Hf. }
  right. destruct (bread_wrote sec t) as (t' & Et & [_ Wd _ Wc]).
  rewrite <- (rp_content _ _ Hrep) in Et. exists s', (bcontent s sec), t'. split; [done|]. split; [done|].
  split; [|done]. split.
  - by exists l'.
  - intros y. rewrite C, Wc. simpl. rewrite <- (rp_content _ _ Hrep).
    unfold upd. destruct (Z.eqb_spec y sec) as [->|]; done.
  - intros y. rewrite D, Wd. apply (rp_disk _ _ Hrep).
  - intros y. transitivity (pinned s y).
    { rewrite P. case_decide as Hy; [subst; by eapply fits_pinned | done]. }
    rewrite (rp_pinned _ _ Hrep). revert Et. unfold Log.bread.
    destruct (cache t !! sec) as [[e x]|] eqn:Ec; intros [= _ <-]; [done|]. simpl.
    destruct (decide (y = sec)) as [->|].
    + rewrite lookup_insert_eq, Ec. naive_solver.
    + by rewrite lookup_insert_ne.
Qed.

Lemma sim_write d :
  (write_block sec d s = Ok (None, s) /\ in_use s sec) \/
  exists s' t', write_block sec d s = Ok (Some tt, s') /\ Log.bwrite sec d t = Ok (tt, t') /\
    cache_rep s' t' /\ disksize s' = disksize s.
Proof using All.
  destruct (rp_inv _ _ Hrep) as [l Hi].
  destruct (use_run s l sec q d Hi Hsec Hq Hidle
              (fun p => set_buf p (set_data d) ;;; bwrite p) tt
              (fun s3 => forall y, memdisk s3 y = upd (memdisk s) sec d y) (fun _ => false))
    as [?|(p & s' & l' & E & Hf & I & C & P & Z & D)]; [|by left|].
  { intros p s1 Hf. destruct (write_worked s l sec p s1 d Hf Hsec) as (s2 & E2 & Hw & Hd & Hm & Hz).
    exists s2. split; [done|]. split; [done|]. split; [done|]. split; [by rewrite Hz; apply Hf|].
    intros s3 -> y. rewrite Hm. by rewrite (fe_disk _ _ _ _ _ Hf). }
  right. eexists s', _. split; [done|]. split; [reflexivity|]. split; [|done]. split.
  - by exists l'.
  - intros y. rewrite C. unfold content. simpl. unfold upd. destruct (Z.eqb_spec y sec) as [->|].
    + by rewrite lookup_insert_eq.
    + rewrite lookup_insert_ne by done. apply (rp_content _ _ Hrep).
  - intros y. rewrite D. simpl. apply upd_fun_ext, (rp_disk _ _ Hrep).
  - intros y. rewrite P. simpl. case_decide as Hy; [subst; rewrite lookup_insert_eq; naive_solver|].
    rewrite lookup_insert_ne by done. apply (rp_pinned _ _ Hrep).
Qed.

Lemma sim_log d :
  (log_block sec d s = Ok (None, s) /\ in_use s sec) \/
  exists s', log_block sec d s = Ok (Some tt, s') /\
    cache_rep s' (set_cache (<[sec := (d, true)]> (cache t)) t) /\ disksize s' = disksize s.
Proof using All.
  destruct (rp_inv _ _ Hrep) as [l Hi].
  destruct (use_run s l sec q d Hi Hsec Hq Hidle
              (fun p => set_buf p (set_data d) ;;;
                 set_buf p (fun b => set_flags (Z.lor (flags b) B_DIRTY) b)) tt
              (fun s3 => memdisk s3 = memdisk s) (fun _ => true))
    as [?|(p & s' & l' & E & Hf & I & C & P & Z & D)]; [|by left|].
  { intros p s1 Hf. destruct (log_worked s l sec p s1 d Hf) as [Hw Hd].
    eexists. split; [reflexivity|]. split; [exact Hw|]. split; [exact Hd|]. split; [apply Hf|].
    intros s3 ->. apply Hf. }
  right. exists s'. split; [done|]. split; [|done]. split.
  - by exists l'.
  - intros y. rewrite C. unfold content. simpl. unfold upd. destruct (Z.eqb_spec y sec) as [->|].
    + by rewrite lookup_insert_eq.
    + rewrite lookup_insert_ne by done. apply (rp_content _ _ Hrep).
  - intros y. rewrite D. apply (rp_disk _ _ Hrep).
  - intros y. rewrite P. simpl. case_decide as Hy; [subst; rewrite lookup_insert_eq; naive_solver|].
    rewrite lookup_insert_ne by done. apply (rp_pinned _ _ Hrep).
Qed.
End Simulation.

(** C7 bio.c implements the cache that log.c is verified against.  While some
    buffer is neither in use nor pinned by the log, reading, writing and
    logging a sector of the disk through [bread], [bwrite] and [brelse] either
    sleeps, because another process has that very sector, or does exactly what
    the abstract cache does: the same data, the same disk, the same pinned
    sectors, whichever buffer was recycled for it. *)
Theorem bio_implements_cache s t sec d :
  cache_rep s t -> sec < disksize s -> (exists q, inside q /\ idle (bufs s) q = true) ->
  ((read_block sec s = Ok (None, s) /\ in_use s sec) \/
   exists s' e t', read_block sec s = Ok (Some e, s') /\ Log.bread sec t = Ok (e, t') /\
     cache_rep s' t' /\ disksize s' = disksize s) /\
  ((write_block sec d s = Ok (None, s) /\ in_use s sec) \/
   exists s' t', write_block sec d s = Ok (Some tt, s') /\ Log.bwrite sec d t = Ok (tt, t') /\
     cache_rep s' t' /\ disksize s' = disksize s) /\
  ((log_block sec d s = Ok (None, s) /\ in_use s sec) \/
   exists s', log_block sec d s = Ok (Some tt, s') /\
     cache_rep s' (set_cache (<[sec := (d, true)]> (cache t)) t) /\ disksize s' = disksize s).
Proof.
  intros Hrep Hsec (q & Hq & Hidle). split_and!.
  - by eapply sim_read.
  - by eapply sim_write.
  - by eapply sim_log.
Qed.

(** The replacement policy.  With the buffers in the order of use [l], [bget]
    returns the buffer of the sector if there is one and nobody uses it,
    sleeps if somebody does, otherwise takes the least recently used buffer
    that is neither busy nor dirty, and panics only when there is none;
    [brelse] makes the buffer the most recently used and keeps the order of
    the others. *)
Theorem bget_lru s l d sec :
  ring s l ->
  bget d sec s =
    match List.find (holds (bufs s) d sec) l with
    | Some p => if busy (bufs s p) then Ok (None, s)
                else Ok (Some p, updb s p (fun b => set_flags (Z.lor (flags b) B_BUSY) b))
    | None => match List.find (idle (bufs s)) (rev l) with
              | Some p => Ok (Some p, recycle d sec p s)
              | None => Panic "bget: no buffers"
              end
    end /\
  forall l1 p l2, l = l1 ++ p :: l2 -> busy (bufs s p) = true ->
  exists s', brelse p s = Ok (tt, s') /\ ring s' (p :: l1 ++ l2) /\ busy (bufs s' p) = false.
Proof.
  intros Hr. split; [by apply bget_run|]. intros l1 p l2 -> Hb.
  destruct (brelse_run s l1 p l2 Hr Hb) as (s' & E & R & _ & Cp & _). exists s'. do 2 (split; [done|]).
  apply core_eq in Cp as (_ & _ & _ & -> & _). by flag_bits.
Qed.

(** ** The cache at boot *)
Definition bzero : bstate := mkBS (fun _ => mkBuf 0 0 0 0 0 []) (fun _ => replicate BWORDS 0) 20480.
Definition bboot : bstate := match binit bzero with Ok (_, s) => s | _ => bzero end.

Lemma inside_all (P : Z -> bool) : forallb P (seqZ 0 NBUF) = true -> forall p, inside p -> P p = true.
Proof.
  rewrite forallb_forall. intros H p Hp. apply H, list_elem_of_In, elem_of_seqZ. unfold inside in Hp. lia.
Qed.
Lemma bboot_ring : ring bboot (rev (seqZ 0 NBUF)).
Proof.
  split; [vm_compute; by repeat split | vm_compute; by repeat split|]. by rewrite <- Permutation_rev.
Qed.
Lemma bboot_fresh p : inside p -> (dev (bufs bboot p) =? 2 ^ 32 - 1) && (flags (bufs bboot p) =? 0) = true.
Proof.
  apply (inside_all (fun p => (dev (bufs bboot p) =? 2 ^ 32 - 1) && (flags (bufs bboot p) =? 0))).
  vm_compute. reflexivity.
Qed.
(** Buffers that hold nothing. *)
Definition unused (s : bstate) : Prop :=
  forall p, inside p -> (dev (bufs s p) =? 2 ^ 32 - 1) && (flags (bufs s p) =? 0) = true.

Lemma unused_inv s l : ring s l -> unused s -> bio_inv s l.
Proof.
  intros Hr Hf. assert (Hd : forall p, inside p -> dev (bufs s p) = 2 ^ 32 - 1 /\ flags (bufs s p) = 0).
  { intros p Hp. specialize (Hf p Hp). by rewrite andb_true_iff, !Z.eqb_eq in Hf. }
  split; [done| | |].
  - intros p q d sec Hp Hq Hne [Hdp _]%holds_iff. destruct (Hd p Hp). congruence.
  - intros p Hp Hdev. destruct (Hd p Hp) as [Hx _]. rewrite Hdev in Hx. done.
  - intros p Hp. destruct (Hd p Hp) as [_ Hx]. unfold dirty, valid. by rewrite Hx.
Qed.
Lemma unused_rep s l lg0 tr : ring s l -> unused s -> cache_rep s (mkL lg0 ∅ (memdisk s) tr).
Proof.
  intros Hr Hf. assert (Hv : forall p, inside p -> valid (bufs s p) = false /\ dirty (bufs s p) = false).
  { intros p Hp. specialize (Hf p Hp). rewrite andb_true_iff, !Z.eqb_eq in Hf.
    destruct Hf as [_ Hx]. unfold valid, dirty. by rewrite Hx. }
  split; [|..|done|].
  - exists l. by apply unused_inv.
  - intros y. rewrite content_disk; [done|]. intros p Hp. unfold loaded.
    destruct (Hv p Hp) as [-> _]. apply andb_false_r.
  - intros y. split.
    + intros (p & Hp & _ & Hd). destruct (Hv p Hp). congruence.
    + intros [d Hd]. cbn in Hd. by rewrite lookup_empty in Hd.
Qed.

Lemma bio_implements_cache_witness :
  exists s', write_block 5 [1; 2] bboot = Ok (Some tt, s').
Proof.
  destruct (bio_implements_cache bboot _ 5 [1; 2]
              (unused_rep bboot _ (mkLog 0 0 0 0 0 []) [] bboot_ring bboot_fresh)) as (_ & [[E _]|(s' & t' & E & _)] & _).
  - vm_compute. reflexivity.
  - exists 0. split; [split; vm_compute; [intros [=] | reflexivity] | vm_compute; reflexivity].
  - vm_compute in E. done.
  - by exists s'.
Defined.

Lemma bget_lru_witness :
  exists s', bget 1 7 bboot = Ok (Some 0, s') /\ s' = recycle 1 7 0 bboot.
Proof.
  destruct (bget_lru bboot (rev (seqZ 0 NBUF)) 1 7 bboot_ring) as [E _].
  eexists. split; [|reflexivity]. rewrite E.
  replace (List.find (holds (bufs bboot) 1 7) (rev (seqZ 0 NBUF))) with (@None Z) by (by vm_compute).
  replace (List.find (idle (bufs bboot)) (rev (rev (seqZ 0 NBUF)))) with (Some 0) by (by vm_compute).
  reflexivity.
Defined.
