(* ===== verification/Ide.v ===== *)
(** * Ide: the interrupt-driven disk driver (src/src/ide.c)

    The drive is hardware: its registers, its interrupt and its sectors are
    behind the interface [Drive], whose laws are the documented behaviour of
    an ATA drive in PIO mode.  A buffer is named by its address, the null
    pointer is 0.  The driver holds [idelock] except while a caller of
    [iderw] sleeps, so a call is a sequence of atomic segments. *)
From S2P Require Import Prelude Log Bio.

Definition IDE_BSY : Z := 0x80.
Definition IDE_DRDY : Z := 0x40.
Definition IDE_DF : Z := 0x20.
Definition IDE_ERR : Z := 0x01.
Definition IDE_CMD_READ : Z := 0x20.
Definition IDE_CMD_WRITE : Z := 0x30.

(** A command that the drive is working on: drive number and sector. *)
Inductive command := Cmd_read (d lba : Z) | Cmd_write (d lba : Z).

(** ** The drive *)

(** The drive and sector that the registers 0x1f3-0x1f6 select. *)
Definition sel_drive (regs : Z -> Z) : Z := Z.land (Z.shiftr (regs 0x1f6) 4) 1.
Definition sel_lba (regs : Z -> Z) : Z :=
  Z.lor (Z.lor (regs 0x1f3) (Z.shiftl (regs 0x1f4) 8))
    (Z.lor (Z.shiftl (regs 0x1f5) 16) (Z.shiftl (Z.land (regs 0x1f6) 0x0f) 24)).
Definition write_sector (m : Z -> Z -> block) (d lba : Z) (x : block) : Z -> Z -> block := upd m d (upd (m d) lba x).

Class Drive := {
  drive : Type;
  (** The port instructions: the status port 0x1f7, a register or command, a
      sector in from or out to the data port 0x1f0. *)
  inb : drive -> Z * drive;
  outb : Z -> Z -> drive -> drive;
  insl : drive -> block * drive;
  outsl : block -> drive -> drive;
  (** What the drive holds. *)
  regs : drive -> Z -> Z;
  active : drive -> option command;
  media : drive -> Z -> Z -> block;
  (** Status reads until it is ready. *)
  spins : drive -> nat;
  (** The error its status reports once it is ready: [Some x] when the command
      failed, [x] being what a failed write left in its sector. *)
  failure : drive -> option block;
  inb_keeps d : let d' := snd (inb d) in
    (forall p, regs d' p = regs d p) /\ active d' = active d /\ (forall k l, media d' k l = media d k l) /\ spins d' = pred (spins d) /\
    failure d' = failure d;
  inb_ready d : Z.land (fst (inb d)) (Z.lor IDE_BSY IDE_DRDY) = IDE_DRDY <-> spins d = 0%nat;
  inb_error d : spins d = 0%nat -> Z.land (fst (inb d)) (Z.lor IDE_DF IDE_ERR) = 0 <-> failure d = None;
  outb_register p v d : p <> 0x1f7 -> let d' := outb p v d in
    (forall q, regs d' q = if q =? p then v else regs d q) /\ active d' = active d /\ forall k l, media d' k l = media d k l;
  outb_command v d : let d' := outb 0x1f7 v d in
    (v = IDE_CMD_READ -> active d' = Some (Cmd_read (sel_drive (regs d)) (sel_lba (regs d)))) /\
    (v = IDE_CMD_WRITE -> active d' = Some (Cmd_write (sel_drive (regs d)) (sel_lba (regs d)))) /\
    forall k l, media d' k l = media d k l;
  insl_sector d k lba : active d = Some (Cmd_read k lba) ->
    fst (insl d) = media d k lba /\ active (snd (insl d)) = active d /\ forall j l, media (snd (insl d)) j l = media d j l;
  outsl_sector x d k lba : active d = Some (Cmd_write k lba) ->
    active (outsl x d) = active d /\ forall j l, media (outsl x d) j l = write_sector (media d) k lba (default x (failure (outsl x d))) j l }.

(** ** The driver *)
Section Driver.
Context `{Drive}.

(** A buffer with its link in the queue of requests. *)
Record qbuf := mkQ { qb : buf; qnext : Z }.
Record istate := mkIde {
  ibufs : Z -> qbuf;
  idequeue : Z;
  havedisk1 : bool;
  hw : drive }.
Definition I : Type -> Type := M istate.
Definition qbuf_of (p : Z) : I qbuf := gets (fun s => ibufs s p).
Definition set_qbuf (p : Z) (f : qbuf -> qbuf) : I unit :=
  modify (fun s => mkIde (upd (ibufs s) p (f (ibufs s p))) (idequeue s) (havedisk1 s) (hw s)).
Definition set_queue (p : Z) : I unit := modify (fun s => mkIde (ibufs s) p (havedisk1 s) (hw s)).
Definition set_hw (f : drive -> drive) : I unit := modify (fun s => mkIde (ibufs s) (idequeue s) (havedisk1 s) (f (hw s))).
Definition set_qnext (x : Z) (b : qbuf) : qbuf := mkQ (qb b) x.
Definition on_buf (f : buf -> buf) (b : qbuf) : qbuf := mkQ (f (qb b)) (qnext b).
Definition in_status : I Z :=
  s <- get ;;
  set_hw (fun d => snd (inb d)) ;;;
  ret (fst (inb (hw s))).

(** The loop of [idewait] (lines 38-39): the last status. *)
Fixpoint idewait_loop (fuel : nat) : I Z :=
  match fuel with
  | O => out_of_fuel
  | S fuel =>
      r <- in_status ;;
      if Z.land r (Z.lor IDE_BSY IDE_DRDY) =? IDE_DRDY then ret r else idewait_loop fuel
  end.
Definition idewait (checkerr : bool) : I Z :=
  s <- get ;;
  r <- idewait_loop (S (spins (hw s))) ;;
  ret (if checkerr && negb (Z.land r (Z.lor IDE_DF IDE_ERR) =? 0) then -1 else 0).

(** The loop of [ideinit] (lines 57-62), [n] rounds left. *)
Fixpoint find_disk1 (n : nat) : I unit :=
  match n with
  | O => ret tt
  | S n =>
      r <- in_status ;;
      if negb (r =? 0) then modify (fun s => mkIde (ibufs s) (idequeue s) true (hw s)) else find_disk1 n
  end.
(** [ideinit] after the interrupt is enabled (lines 53-65). *)
Definition ideinit : I unit :=
  idewait false ;;;
  set_hw (outb 0x1f6 (Z.lor 0xe0 (Z.shiftl 1 4))) ;;;
  find_disk1 1000 ;;;
  set_hw (outb 0x1f6 (Z.lor 0xe0 (Z.shiftl 0 4))).

Definition idestart (p : Z) : I unit :=
  if p =? 0 then panic "idestart"
  else
    b <- qbuf_of p ;;
    idewait false ;;;
    set_hw (outb 0x3f6 0) ;;;
    set_hw (outb 0x1f2 1) ;;;
    set_hw (outb 0x1f3 (Z.land (sector (qb b)) 0xff)) ;;;
    set_hw (outb 0x1f4 (Z.land (Z.shiftr (sector (qb b)) 8) 0xff)) ;;;
    set_hw (outb 0x1f5 (Z.land (Z.shiftr (sector (qb b)) 16) 0xff)) ;;;
    set_hw (outb 0x1f6 (Z.lor (Z.lor 0xe0 (Z.shiftl (Z.land (dev (qb b)) 1) 4))
                              (Z.land (Z.shiftr (sector (qb b)) 24) 0x0f))) ;;;
    if has (flags (qb b)) B_DIRTY then
      set_hw (outb 0x1f7 IDE_CMD_WRITE) ;;;
      set_hw (outsl (data (qb b)))
    else set_hw (outb 0x1f7 IDE_CMD_READ).

(** The buffer whose waiters are woken, none after a spurious interrupt. *)
Definition ideintr : I (option Z) :=
  s <- get ;;
  let p := idequeue s in
  if p =? 0 then ret None
  else
    set_queue (qnext (ibufs s p)) ;;;
    (if negb (has (flags (qb (ibufs s p))) B_DIRTY) then
       r <- idewait true ;;
       if r >=? 0 then
         s <- get ;;
         set_hw (fun d => snd (insl d)) ;;;
         set_qbuf p (on_buf (set_data (fst (insl (hw s)))))
       else ret tt
     else ret tt) ;;;
    set_qbuf p (on_buf (fun b => set_flags (Z.lor (flags b) B_VALID) b)) ;;;
    set_qbuf p (on_buf (fun b => set_flags (Z.land (flags b) (Z.lnot B_DIRTY)) b)) ;;;
    q <- gets idequeue ;;
    (if negb (q =? 0) then idestart q else ret tt) ;;;
    ret (Some p).

(** The last link of the queue (lines 141-142): the address of [idequeue] ([None])
    or of the [qnext] of a buffer. *)
Fixpoint last_link (fuel : nat) (pp : option Z) : I (option Z) :=
  match fuel with
  | O => out_of_fuel
  | S fuel =>
      s <- get ;;
      let x := match pp with None => idequeue s | Some p => qnext (ibufs s p) end in
      if x =? 0 then ret pp else last_link fuel (Some x)
  end.
Definition set_link (pp : option Z) (x : Z) : I unit :=
  match pp with None => set_queue x | Some p => set_qbuf p (set_qnext x) end.
(** The condition of line 150: the request is still to be served. *)
Definition waiting (p : Z) : I bool :=
  b <- qbuf_of p ;;
  ret (negb (Z.land (flags (qb b)) (Z.lor B_VALID B_DIRTY) =? B_VALID)).
(** [iderw] up to its first sleep or its end (lines 130-150): whether it
    sleeps.  There are at most [NBUF] requests in the queue. *)
Definition iderw_begin (p : Z) : I bool :=
  b <- qbuf_of p ;;
  s <- get ;;
  let f := flags (qb b) in
  if negb (has f B_BUSY) then panic "iderw: buf not busy"
  else if Z.land f (Z.lor B_VALID B_DIRTY) =? B_VALID then panic "iderw: nothing to do"
  else if negb (dev (qb b) =? 0) && negb (havedisk1 s) then panic "iderw: ide disk 1 not present"
  else
    set_qbuf p (set_qnext 0) ;;;
    pp <- last_link (S (Z.to_nat NBUF)) None ;;
    set_link pp p ;;;
    q <- gets idequeue ;;
    (if q =? p then idestart p else ret tt) ;;;
    waiting p.
End Driver.
