(* ===== verification/IdeFacts.v ===== *)
(** * IdeFacts: the disk driver serves requests in order (src/src/ide.c)

    The callers of [iderw] and the interrupts of the drive interleave; the
    driver behaves as a disk that serves one request after the other. *)
From coqutil Require Import Z.bitblast.
From S2P Require Import Prelude Log Bio Ide.

(** ** The registers select the drive and the sector *)
Lemma sel_sector s x (r : Z -> Z) :
  r 0x1f3 = Z.land s 0xff -> r 0x1f4 = Z.land (Z.shiftr s 8) 0xff -> r 0x1f5 = Z.land (Z.shiftr s 16) 0xff ->
  r 0x1f6 = Z.lor (Z.lor 0xe0 (Z.shiftl (Z.land x 1) 4)) (Z.land (Z.shiftr s 24) 0x0f) ->
  sel_lba r = s mod 2 ^ 28 /\ sel_drive r = x mod 2.
Proof.
  intros H3 H4 H5 H6. unfold sel_lba, sel_drive. rewrite H3, H4, H5, H6.
  change 0xff with (Z.ones 8). change 0x0f with (Z.ones 4). change 1 with (Z.ones 1). change (x mod 2) with (x mod 2 ^ 1).
  change 0xe0 with (Z.shiftl (Z.ones 3) 5).
  split; [rewrite <- Z.land_ones by lia | rewrite <- (Z.land_ones x 1) by lia]; Z.bitblast.
  rewrite (Z.testbit_neg_r _ l1) by lia. by destruct (Z.testbit s l2).
Qed.

(** ** Requests *)

(** The command for a buffer, and a request: the buffer, the command and the
    data to write. *)
Definition cmd_of (b : buf) : command :=
  let d := dev b mod 2 in let l := sector b mod 2 ^ 28 in
  if has (flags b) B_DIRTY then Cmd_write d l else Cmd_read d l.
Record request := mkReq { r_buf : Z; r_cmd : command; r_data : block }.
(** A request with the error the drive reported for it, if any. *)
Definition tried : Type := request * option block.
(** A disk that serves one request at a time: what it holds afterwards, and
    the data the buffer ends with.  A read that fails leaves the buffer as it
    was, a write that fails leaves what the drive says in its sector. *)
Definition serve (m : Z -> Z -> block) (t : tried) : Z -> Z -> block :=
  match r_cmd t.1 with Cmd_write d l => write_sector m d l (default (r_data t.1) t.2) | Cmd_read _ _ => m end.
Definition answer (m : Z -> Z -> block) (t : tried) : block :=
  match r_cmd t.1, t.2 with
  | Cmd_write _ _, _ | Cmd_read _ _, Some _ => r_data t.1
  | Cmd_read d l, None => m d l
  end.
Fixpoint answers (m : Z -> Z -> block) (l : list tried) : list block :=
  match l with [] => [] | r :: l' => answer m r :: answers (serve m r) l' end.
Lemma answers_app m l1 l2 : answers m (l1 ++ l2) = answers m l1 ++ answers (foldl serve m l1) l2.
Proof. revert m. induction l1 as [|r l1 IH]; intros m; [done|]. cbn. by rewrite IH. Qed.

(** ** The queue *)
Fixpoint chain (f : Z -> qbuf) (x : Z) (q : list Z) : Prop :=
  match q with [] => x = 0 | p :: q' => x = p /\ p <> 0 /\ chain f (qnext (f p)) q' end.
Lemma queue_agree f g q : forall x, (forall p, p ∈ q -> qnext (g p) = qnext (f p)) -> chain f x q -> chain g x q.
Proof.
  induction q as [|p q IH]; intros x Hg Hq; [done|]. destruct Hq as (-> & Hp & Hq). split; [done|]. split; [done|].
  rewrite Hg by set_solver. apply IH; [set_solver | done].
Qed.
(** Appending [p] at the last link. *)
Lemma chain_append p q : forall f x, chain f x q -> qnext (f p) = 0 -> p <> 0 -> NoDup (q ++ [p]) ->
  let f' := match last q with None => f | Some t => upd f t (set_qnext p (f t)) end in
  chain f' (match q with [] => p | _ => x end) (q ++ [p]).
Proof.
  induction q as [|t q IH]; intros f x Hq Hn Hp Hnd; [by cbn|]. destruct Hq as (-> & Ht & Hq).
  change ((t :: q) ++ [p]) with (t :: (q ++ [p])) in *. apply NoDup_cons in Hnd as [Htn Hnd]. assert (Htp : t <> p) by set_solver.
  destruct q as [|u q]; cbv zeta.
  - cbn in Hq. cbn [last app chain]. rewrite upd_eq. split_and!; try done. by rewrite upd_ne.
  - specialize (IH f (qnext (f t)) Hq Hn Hp Hnd). cbv zeta in IH. rewrite last_cons_cons.
    destruct (last (u :: q)) as [w|] eqn:Hl; [|by apply last_None in Hl]. split; [done|]. split; [done|].
    assert (t <> w) by (intros ->; apply Htn; apply elem_of_app; left; by apply last_Some_elem_of). by rewrite upd_ne.
Qed.

Section Driver.
Context `{Drive}.

Definition req_of (f : Z -> qbuf) (p : Z) : request := mkReq p (cmd_of (qb (f p))) (data (qb (f p))).
(** The request of a buffer, tried on the drive in its present state. *)
Definition try_of (s : istate) (p : Z) : tried := (req_of (ibufs s) p, failure (hw s)).
Definition with_hw (s : istate) (d : drive) : istate := mkIde (ibufs s) (idequeue s) (havedisk1 s) d.

(** ** Waiting *)
Lemma idewait_loop_run n : forall s, spins (hw s) = n -> exists r d,
  idewait_loop (S n) s = Ok (r, with_hw s d) /\ (Z.land r (Z.lor IDE_DF IDE_ERR) = 0 <-> failure (hw s) = None) /\
  (forall p, regs d p = regs (hw s) p) /\ active d = active (hw s) /\ (forall k l, media d k l = media (hw s) k l).
Proof using.
  induction n as [|n IH]; intros s Hn; pose proof (inb_keeps (hw s)) as (Hr & Ha & Hm & Hs & Hf); cbv zeta in *;
    cbn [idewait_loop]; unfold in_status; rewrite bind_assoc; erewrite bind_Ok; [|reflexivity| |reflexivity];
    cbv beta; rewrite bind_assoc; (erewrite bind_Ok; [|reflexivity]); (erewrite bind_Ok; [|reflexivity]).
  - pose proof (proj2 (inb_ready (hw s)) Hn) as Hrd. rewrite Hrd, Z.eqb_refl. eexists _, _. split; [reflexivity|].
    split; [by apply inb_error | done].
  - destruct (Z.eqb_spec (Z.land (fst (inb (hw s))) (Z.lor IDE_BSY IDE_DRDY)) IDE_DRDY) as [E|_].
    { apply inb_ready in E. lia. }
    destruct (IH (with_hw s (snd (inb (hw s))))) as (r & d & Hrun & He & H1 & H2 & H3).
    { cbn. by rewrite Hs, Hn. }
    exists r, d. split; [exact Hrun|]. split; [rewrite He; cbn; by rewrite Hf|]. split; [intros p; by rewrite H1|]. split; [by rewrite H2|].
    intros k l. by rewrite H3.
Qed.
Lemma idewait_run ce s : exists d,
  idewait ce s = Ok (if ce && bool_decide (failure (hw s) <> None) then -1 else 0, with_hw s d) /\
  (forall p, regs d p = regs (hw s) p) /\ active d = active (hw s) /\ (forall k l, media d k l = media (hw s) k l).
Proof using.
  destruct (idewait_loop_run _ s eq_refl) as (r & d & Hrun & He & Hd). exists d. split; [|done].
  unfold idewait. erewrite bind_Ok; [|reflexivity]. rewrite (bind_Ok _ _ _ _ _ Hrun).
  replace (negb (Z.land r (Z.lor IDE_DF IDE_ERR) =? 0)) with (bool_decide (failure (hw s) <> None)); [done|].
  destruct (Z.eqb_spec (Z.land r (Z.lor IDE_DF IDE_ERR)) 0) as [E|E]; cbn [negb].
  - apply bool_decide_eq_false_2. rewrite <- He. auto.
  - apply bool_decide_eq_true_2. by rewrite <- He.
Qed.

(** ** Starting a request *)
Lemma reg_at p v d q : p <> 0x1f7 -> regs (outb p v d) q = if q =? p then v else regs d q.
Proof using. intros Hp. apply (outb_register p v d Hp). Qed.
Lemma media_at p v d k l : p <> 0x1f7 -> media (outb p v d) k l = media d k l.
Proof using. intros Hp. apply (outb_register p v d Hp). Qed.
Lemma write_sector_ext m m' d l x j i : (forall a b, m a b = m' a b) -> write_sector m d l x j i = write_sector m' d l x j i.
Proof using. intros E. unfold write_sector, upd. destruct (j =? d); [|apply E]. destruct (i =? l); [done | apply E]. Qed.
Lemma serve_ext m m' t k l : (forall a b, m a b = m' a b) -> serve m t k l = serve m' t k l.
Proof using. intros E. unfold serve. destruct (r_cmd t.1); [apply E | by apply write_sector_ext]. Qed.

Lemma idestart_run p s : p <> 0 -> exists d, idestart p s = Ok (tt, with_hw s d) /\
  active d = Some (cmd_of (qb (ibufs s p))) /\ (forall k l, media d k l = serve (media (hw s)) (req_of (ibufs s) p, failure d) k l).
Proof using.
  intros Hp. unfold idestart. rewrite (proj2 (Z.eqb_neq p 0) Hp). erewrite bind_Ok; [|reflexivity].
  set (b := qb (ibufs s p)). destruct (idewait_run false s) as (d0 & Hrun & Hr0 & Ha0 & Hm0).
  rewrite (bind_Ok _ _ _ _ _ Hrun). do 6 (erewrite bind_Ok; [|reflexivity]). cbn [with_hw hw ibufs idequeue havedisk1].
  set (d := outb 0x1f6 _ _).
  assert (Hm : forall k l, media d k l = media (hw s) k l) by (intros; unfold d; rewrite !media_at by done; apply Hm0).
  destruct (sel_sector (sector b) (dev b) (regs d)) as [Hl Hd]; try (unfold d; by rewrite !reg_at by done).
  unfold serve, req_of. cbn [fst snd r_cmd r_data]. fold b. destruct (has (flags b) B_DIRTY) eqn:E.
  - assert (Hcmd : cmd_of b = Cmd_write (dev b mod 2) (sector b mod 2 ^ 28)) by (unfold cmd_of; by rewrite E).
    rewrite Hcmd. erewrite bind_Ok; [|reflexivity]. eexists. split; [reflexivity|]. cbn [with_hw hw].
    destruct (outb_command IDE_CMD_WRITE d) as (_ & Hc & Hmc). cbv zeta in *. specialize (Hc eq_refl). rewrite Hd, Hl in Hc.
    destruct (outsl_sector (data b) _ _ _ Hc) as [Ha Hw].
    split; [by rewrite Ha, Hc|]. intros k l. rewrite Hw. apply write_sector_ext. intros. by rewrite Hmc.
  - assert (Hcmd : cmd_of b = Cmd_read (dev b mod 2) (sector b mod 2 ^ 28)) by (unfold cmd_of; by rewrite E).
    rewrite Hcmd. eexists. split; [reflexivity|]. cbn [with_hw hw].
    destruct (outb_command IDE_CMD_READ d) as (Hc & _ & Hmc). cbv zeta in *. specialize (Hc eq_refl). rewrite Hd, Hl in Hc.
    split; [by rewrite Hc|]. intros k l. by rewrite Hmc.
Qed.

(** ** Appending to the queue *)
Definition link_at (s : istate) (pp : option Z) : Z := match pp with None => idequeue s | Some p => qnext (ibufs s p) end.
Lemma last_link_run q : forall n pp s, (length q < n)%nat -> chain (ibufs s) (link_at s pp) q ->
  last_link n pp s = Ok (match last q with Some p => Some p | None => pp end, s).
Proof using All.
  induction q as [|p q IH]; intros n pp s Hn Hq; (destruct n as [|n]; [cbn in Hn; lia|]); cbn [last_link];
    (erewrite bind_Ok; [|reflexivity]); fold (link_at s pp).
  - cbn in Hq. by rewrite Hq.
  - destruct Hq as (Hx & Hp & Hq). rewrite Hx, (proj2 (Z.eqb_neq p 0) Hp). rewrite (IH n (Some p) s); [|cbn in Hn; lia | done].
    destruct q as [|u q]; [done|]. rewrite last_cons_cons.
    destruct (last (u :: q)) eqn:E; [done | by apply last_None in E].
Qed.

(** ** One call and one interrupt *)
Definition pending (b : buf) : Prop := has (flags b) B_BUSY = true /\ Z.land (flags b) (Z.lor B_VALID B_DIRTY) <> B_VALID.
(** [iderw_begin] on a queue [q]: the request is appended; the drive is
    started when it was idle. *)
Lemma iderw_begin_run p q s : chain (ibufs s) (idequeue s) q -> NoDup (q ++ [p]) -> (length q <= Z.to_nat NBUF)%nat -> p <> 0 ->
  pending (qb (ibufs s p)) -> (dev (qb (ibufs s p)) = 0 \/ havedisk1 s = true) ->
  exists s', iderw_begin p s = Ok (true, s') /\ chain (ibufs s') (idequeue s') (q ++ [p]) /\
    (forall x, qb (ibufs s' x) = qb (ibufs s x)) /\ havedisk1 s' = havedisk1 s /\
    (q <> [] -> hw s' = hw s) /\ (q = [] -> active (hw s') = Some (cmd_of (qb (ibufs s p)))) /\
    forall k l, media (hw s') k l = match q with [] => serve (media (hw s)) (req_of (ibufs s) p, failure (hw s')) | _ => media (hw s) end k l.
Proof using.
  intros Hq Hnd Hlen Hp [Hb Hv] Hdev. unfold iderw_begin. do 2 (erewrite bind_Ok; [|reflexivity]).
  rewrite Hb, (proj2 (Z.eqb_neq _ _) Hv). cbn [negb].
  replace (negb (dev (qb (ibufs s p)) =? 0) && negb (havedisk1 s)) with false
    by (destruct Hdev as [-> | ->]; [done | by rewrite andb_false_r]).
  erewrite bind_Ok; [|reflexivity]. set (s1 := mkIde _ _ _ _).
  assert (Hpq : p ∉ q) by (apply NoDup_app in Hnd as (_ & Hd & _); intros Hin; apply (Hd p Hin); set_solver).
  assert (Hqb1 : forall x, qb (ibufs s1 x) = qb (ibufs s x)) by (intros x; cbn; unfold upd; by destruct (Z.eqb_spec x p) as [->|]).
  assert (Hq1 : chain (ibufs s1) (idequeue s1) q).
  { eapply queue_agree; [|exact Hq]. intros x Hx. cbn. rewrite upd_ne; [done|]. by intros ->. }
  rewrite (bind_Ok _ _ _ _ _ (last_link_run q (S (Z.to_nat NBUF)) None s1 (le_n_S _ _ Hlen) Hq1)).
  pose proof (chain_append p q _ _ Hq1 ltac:(cbn; by rewrite upd_eq) Hp Hnd) as Hch. cbv zeta in Hch.
  assert (Hn0 : q <> [] -> idequeue s <> p).
  { intros Hne E. destruct q as [|t q]; [done|]. destruct Hq as (Ht & _). apply Hpq. rewrite <- E, Ht. set_solver. }
  set (pp := match last q with Some x => Some x | None => None end).
  assert (Hset : exists s2, set_link pp p s1 = Ok (tt, s2) /\ chain (ibufs s2) (idequeue s2) (q ++ [p]) /\
     (forall x, qb (ibufs s2 x) = qb (ibufs s x)) /\ havedisk1 s2 = havedisk1 s /\ hw s2 = hw s /\
     idequeue s2 = match q with [] => p | _ => idequeue s end).
  { unfold pp. destruct (last q) as [t|] eqn:Hl.
    - eexists. split; [reflexivity|]. cbn [ibufs idequeue havedisk1 hw]. destruct q as [|u q]; [done|].
      split; [exact Hch|]. split; [|done]. intros x. rewrite <- Hqb1. unfold upd. by destruct (Z.eqb_spec x t) as [->|].
    - apply last_None in Hl as ->. eexists. split; [reflexivity|]. split; [exact Hch|]. by split; [intros x; rewrite <- Hqb1|]. }
  destruct Hset as (s2 & E2 & Hch2 & Hqb2 & Hh2 & Hhw2 & Hid2). rewrite (bind_Ok _ _ _ _ _ E2). erewrite bind_Ok; [|reflexivity].
  destruct q as [|t q].
  - rewrite Hid2, Z.eqb_refl. destruct (idestart_run p s2 Hp) as (d & Hrun & Ha & Hm). rewrite (bind_Ok _ _ _ _ _ Hrun).
    exists (with_hw s2 d). split; [|split_and!; try done].
    + unfold waiting. erewrite bind_Ok; [|reflexivity]. cbn [with_hw ibufs]. rewrite Hqb2, (proj2 (Z.eqb_neq _ _) Hv). done.
    + intros _. cbn. by rewrite Ha, Hqb2.
    + intros k l. cbn [with_hw hw]. rewrite Hm, Hhw2. unfold req_of. by rewrite Hqb2.
  - rewrite Hid2, (proj2 (Z.eqb_neq _ _) (Hn0 ltac:(done))). erewrite bind_Ok; [|reflexivity].
    exists s2. split; [|split_and!; try done; by rewrite Hhw2].
    unfold waiting. erewrite bind_Ok; [|reflexivity]. rewrite Hqb2, (proj2 (Z.eqb_neq _ _) Hv). done.
Qed.

(** The read part of the interrupt handler (lines 106-107). *)
Lemma intr_data p s : active (hw s) = Some (cmd_of (qb (ibufs s p))) -> exists s',
  (if negb (has (flags (qb (ibufs s p))) B_DIRTY) then
       r <- idewait true ;;
       if r >=? 0 then
         s <- get ;;
         set_hw (fun d => snd (insl d)) ;;;
         set_qbuf p (on_buf (set_data (fst (insl (hw s)))))
       else ret tt
     else ret tt) s = Ok (tt, s') /\
  (forall x, qnext (ibufs s' x) = qnext (ibufs s x)) /\ idequeue s' = idequeue s /\ havedisk1 s' = havedisk1 s /\
  (forall x, qb (ibufs s' x) = if x =? p then set_data (answer (media (hw s)) (try_of s p)) (qb (ibufs s p)) else qb (ibufs s x)) /\
  (forall k l, media (hw s') k l = media (hw s) k l).
Proof using.
  intros Ha. unfold answer, try_of, req_of. cbn [fst snd r_cmd r_data]. unfold cmd_of in *. destruct (has (flags (qb (ibufs s p))) B_DIRTY) eqn:E; cbn [negb].
  - exists s. split_and!; try done. intros x. destruct (Z.eqb_spec x p) as [->|]; [by destruct (qb (ibufs s p)) | done].
  - destruct (idewait_run true s) as (d & Hrun & Hr & Hac & Hm). rewrite (bind_Ok _ _ _ _ _ Hrun).
    destruct (failure (hw s)) as [x0|] eqn:Ef.
    { rewrite bool_decide_eq_true_2 by done. eexists. split; [reflexivity|]. split_and!; try done.
      intros x. destruct (Z.eqb_spec x p) as [->|]; [cbn; by destruct (qb (ibufs s p)) | done]. }
    rewrite bool_decide_eq_false_2 by auto. cbn [andb Z.geb Z.compare].
    do 2 (erewrite bind_Ok; [|reflexivity]). rewrite Ha in Hac. destruct (insl_sector d _ _ Hac) as (Hi & _ & Hmi).
    eexists. split; [reflexivity|]. cbn [ibufs idequeue havedisk1 hw with_hw]. split_and!; try done.
    + intros x. unfold upd. by destruct (Z.eqb_spec x p) as [->|].
    + intros x. unfold upd. destruct (Z.eqb_spec x p) as [->|]; [|done]. cbn. by rewrite Hi, Hm.
    + intros k l. by rewrite Hmi, Hm.
Qed.
Definition finished (x : block) (b : buf) : buf := set_flags (Z.land (Z.lor (flags b) B_VALID) (Z.lnot B_DIRTY)) (set_data x b).
Lemma ideintr_run p q s : chain (ibufs s) (idequeue s) (p :: q) -> p ∉ q -> active (hw s) = Some (cmd_of (qb (ibufs s p))) ->
  exists s', ideintr s = Ok (Some p, s') /\ chain (ibufs s') (idequeue s') q /\ havedisk1 s' = havedisk1 s /\
    (forall x, qb (ibufs s' x) = if x =? p then finished (answer (media (hw s)) (try_of s p)) (qb (ibufs s p)) else qb (ibufs s x)) /\
    (forall t, q !! 0%nat = Some t -> active (hw s') = Some (cmd_of (qb (ibufs s t)))) /\
    forall k l, media (hw s') k l = match q with [] => media (hw s) | t :: _ => serve (media (hw s)) (req_of (ibufs s) t, failure (hw s')) end k l.
Proof using.
  intros (Hx & Hp & Hq) Hpq Ha. unfold ideintr. erewrite bind_Ok; [|reflexivity]. rewrite Hx, (proj2 (Z.eqb_neq _ _) Hp).
  erewrite bind_Ok; [|reflexivity]. set (s1 := mkIde _ _ _ _).
  destruct (intr_data p s1 Ha) as (s2 & E2 & Hn2 & Hid2 & Hh2 & Hqb2 & Hm2). rewrite (bind_Ok _ _ _ _ _ E2).
  set (b1 := on_buf (fun b => set_flags (Z.lor (flags b) B_VALID) b) (ibufs s2 p)).
  set (s2a := mkIde (upd (ibufs s2) p b1) (idequeue s2) (havedisk1 s2) (hw s2)).
  rewrite (bind_Ok _ _ _ _ _ (eq_refl : set_qbuf p (on_buf (fun b => set_flags (Z.lor (flags b) B_VALID) b)) s2 = Ok (tt, s2a))).
  set (s3 := mkIde (upd (ibufs s2a) p (on_buf (fun b => set_flags (Z.land (flags b) (Z.lnot B_DIRTY)) b) (ibufs s2a p)))
    (idequeue s2) (havedisk1 s2) (hw s2)).
  rewrite (bind_Ok _ _ _ _ _ (eq_refl : set_qbuf p (on_buf (fun b => set_flags (Z.land (flags b) (Z.lnot B_DIRTY)) b)) s2a = Ok (tt, s3))).
  rewrite (bind_Ok _ _ _ _ _ (eq_refl : gets idequeue s3 = Ok (idequeue s3, s3))).
  assert (Hqb3 : forall x, qb (ibufs s3 x) = if x =? p then finished (answer (media (hw s)) (try_of s p)) (qb (ibufs s p))
      else qb (ibufs s x)).
  { intros x. cbn. unfold upd. destruct (Z.eqb_spec x p) as [->|Hxp]; rewrite ?Z.eqb_refl.
    - cbn. rewrite Hqb2, Z.eqb_refl. done.
    - rewrite Hqb2. by rewrite (proj2 (Z.eqb_neq _ _) Hxp). }
  assert (Hn3 : forall x, qnext (ibufs s3 x) = qnext (ibufs s x)).
  { intros x. rewrite <- (Hn2 x : _ = qnext (ibufs s x)). cbn. unfold upd.
    destruct (Z.eqb_spec x p) as [->|]; [|done]. by rewrite Z.eqb_refl. }
  assert (Hq3 : chain (ibufs s3) (idequeue s3) q).
  { replace (idequeue s3) with (qnext (ibufs s p)) by (symmetry; exact Hid2). eapply queue_agree; [|exact Hq]. intros x _. apply Hn3. }
  cbv beta.
  destruct q as [|t q].
  - change (idequeue s3 = 0) in Hq3. rewrite Hq3. exists s3. split_and!; try done.
  - destruct Hq3 as (Ht & Ht0 & Hq3). assert (Htp : t <> p) by set_solver.
    rewrite Ht, (proj2 (Z.eqb_neq _ _) Ht0). cbn [negb]. destruct (idestart_run t s3 Ht0) as (d & Hrun & Had & Hmd).
    rewrite (bind_Ok _ _ _ _ _ Hrun). exists (with_hw s3 d). split; [done|]. cbn [with_hw ibufs idequeue havedisk1 hw].
    assert (Hqt : qb (ibufs s3 t) = qb (ibufs s t)) by (rewrite Hqb3; by rewrite (proj2 (Z.eqb_neq _ _) Htp)).
    split_and!; try done.
    + intros u [= <-]. by rewrite Had, Hqt.
    + intros k l. rewrite Hmd. unfold req_of. rewrite Hqt. apply serve_ext. intros. by rewrite <- Hm2.
Qed.

(** ** Interleaving

    [pool] are the buffers.  A call of [iderw] on a buffer is asleep or was
    woken; [asked] and [answered] record the requests in the order of the
    calls, and the served ones with the error reported for them, if any, and
    the data their buffer ended with. *)
Context (pool : list Z) (Hpool : (length pool <= Z.to_nat NBUF)%nat).
Inductive call := Asleep | Woken.
Record isys := mkSys {
  ide : istate;
  calls : Z -> option call;
  asked : list request;
  answered : list (tried * block) }.

Inductive istep : isys -> isys -> Prop :=
| step_owner p b s : p ∈ pool -> calls s p = None ->
    (* bget, brelse and the users of a buffer, between calls *)
    istep s (mkSys (mkIde (upd (ibufs (ide s)) p (mkQ b (qnext (ibufs (ide s) p)))) (idequeue (ide s)) (havedisk1 (ide s)) (hw (ide s)))
               (calls s) (asked s) (answered s))
| step_call p i' sl s : p ∈ pool -> calls s p = None -> iderw_begin p (ide s) = Ok (sl, i') ->
    istep s (mkSys i' (upd (calls s) p (if sl : bool then Some Asleep else None)) (asked s ++ [req_of (ibufs (ide s)) p]) (answered s))
| step_intr i' w s : ideintr (ide s) = Ok (w, i') ->
    istep s (match w with
             | None => mkSys i' (calls s) (asked s) (answered s)
             | Some p => mkSys i' (upd (calls s) p (match calls s p with None => None | Some _ => Some Woken end)) (asked s)
                           (answered s ++ [(try_of (ide s) p, data (qb (ibufs i' p)))])
             end)
| step_resume p b i' s : calls s p = Some Woken -> waiting p (ide s) = Ok (b, i') ->
    istep s (mkSys i' (upd (calls s) p (if b : bool then Some Asleep else None)) (asked s) (answered s)).

(** ** The invariant *)
Record iok (m0 : Z -> Z -> block) (s : isys) (q : list Z) : Prop := mkOk {
  ok_chain : chain (ibufs (ide s)) (idequeue (ide s)) q;
  ok_nodup : NoDup q /\ q ⊆ pool;
  ok_asleep : forall p, calls s p = Some Asleep <-> p ∈ q;
  ok_pending : forall p, p ∈ q -> pending (qb (ibufs (ide s) p));
  ok_woken : forall p, calls s p = Some Woken -> Z.land (flags (qb (ibufs (ide s) p))) (Z.lor B_VALID B_DIRTY) = B_VALID;
  ok_active : forall p, q !! 0%nat = Some p -> active (hw (ide s)) = Some (cmd_of (qb (ibufs (ide s) p)));
  ok_order : asked s = (answered s).*1.*1 ++ (req_of (ibufs (ide s)) <$> q);
  ok_answers : (answered s).*2 = answers m0 (answered s).*1;
  ok_media : forall k l, media (hw (ide s)) k l =
    foldl serve m0 ((answered s).*1 ++ take 1 (try_of (ide s) <$> q)) k l }.

Lemma req_at f g p : qb (f p) = qb (g p) -> req_of f p = req_of g p.
Proof using. intros E. unfold req_of. by rewrite E. Qed.
Lemma req_agree f g (q : list Z) : (forall x, x ∈ q -> qb (f x) = qb (g x)) -> req_of f <$> q = req_of g <$> q.
Proof using All.
  clear Hpool. intros Hfg. apply list_fmap_ext. intros i x Hx. unfold req_of. by rewrite Hfg by (by eapply list_elem_of_lookup_2).
Qed.
Lemma try_agree i j (q : list Z) : (forall x, x ∈ q -> qb (ibufs i x) = qb (ibufs j x)) -> failure (hw i) = failure (hw j) ->
  try_of i <$> q = try_of j <$> q.
Proof using All.
  clear Hpool. intros Hfg Hf. apply list_fmap_ext. intros k x Hx. unfold try_of, req_of. by rewrite Hf, Hfg by (by eapply list_elem_of_lookup_2).
Qed.
Lemma answer_serve m m' t : (forall k l, m k l = serve m' t k l) -> answer m t = answer m' t.
Proof using All. intros E. unfold answer, serve in *. by destruct (r_cmd t.1), t.2. Qed.
Lemma checked p s sl i' : iderw_begin p s = Ok (sl, i') -> pending (qb (ibufs s p)) /\ (dev (qb (ibufs s p)) = 0 \/ havedisk1 s = true).
Proof using All.
  unfold iderw_begin. intros Hr. do 2 (erewrite bind_Ok in Hr; [|reflexivity]). unfold pending. cbv zeta in Hr.
  destruct (has (flags (qb (ibufs s p))) B_BUSY); cbn [negb] in Hr; [|done].
  destruct (Z.eqb_spec (Z.land (flags (qb (ibufs s p))) (Z.lor B_VALID B_DIRTY)) B_VALID); [done|]. split; [done|].
  destruct (Z.eqb_spec (dev (qb (ibufs s p))) 0); [by left|]. right. by destruct (havedisk1 s).
Qed.
Section Steps.
Context (m0 : Z -> Z -> block) (s : isys) (q : list Z) (Hok : iok m0 s q).
Lemma queue_length p : p ∈ pool -> p ∉ q -> NoDup (q ++ [p]) /\ (length q <= Z.to_nat NBUF)%nat.
Proof using All.
  intros Hp Hpq. destruct (ok_nodup _ _ _ Hok) as [Hnd Hsub]. split.
  - apply NoDup_app. split_and!; [done | set_solver | apply NoDup_singleton].
  - etrans; [|exact Hpool]. apply submseteq_length. by apply NoDup_submseteq.
Qed.
Lemma iok_owner p b : p ∈ pool -> calls s p = None ->
  iok m0 (mkSys (mkIde (upd (ibufs (ide s)) p (mkQ b (qnext (ibufs (ide s) p)))) (idequeue (ide s)) (havedisk1 (ide s)) (hw (ide s)))
            (calls s) (asked s) (answered s)) q.
Proof using All.
  intros Hp Hc. destruct Hok as [H1 H2 H3 H4 H5 H6 H7 H8 H9].
  assert (Hpq : p ∉ q) by (rewrite <- H3; by rewrite Hc).
  assert (Hqb : forall x, calls s x <> None -> upd (ibufs (ide s)) p (mkQ b (qnext (ibufs (ide s) p))) x = ibufs (ide s) x).
  { intros x Hx. rewrite upd_ne; [done|]. by intros ->. }
  assert (Hin : forall x, x ∈ q -> calls s x <> None) by (intros x Hx; apply H3 in Hx; by rewrite Hx).
  assert (Hreq : req_of (upd (ibufs (ide s)) p (mkQ b (qnext (ibufs (ide s) p)))) <$> q = req_of (ibufs (ide s)) <$> q).
  { apply req_agree. intros x Hx. by rewrite Hqb by auto. }
  split; cbn [ide calls asked answered ibufs idequeue hw]; try done.
  - eapply queue_agree; [|exact H1]. intros x Hx. by rewrite Hqb by auto.
  - intros x Hx. rewrite Hqb by auto. by apply H4.
  - intros x Hx. rewrite Hqb by (by rewrite Hx). by apply H5.
  - intros x Hx. rewrite Hqb by (apply Hin; by eapply list_elem_of_lookup_2). by apply H6.
  - by rewrite Hreq.
  - intros k l. rewrite H9. do 2 f_equal. f_equal. apply try_agree; [|done]. intros x Hx. cbn [ibufs]. by rewrite Hqb by auto.
Qed.
Lemma iok_call p sl i' : p ∈ pool -> p <> 0 -> calls s p = None -> iderw_begin p (ide s) = Ok (sl, i') -> sl = true /\
  iok m0 (mkSys i' (upd (calls s) p (Some Asleep)) (asked s ++ [req_of (ibufs (ide s)) p]) (answered s)) (q ++ [p]).
Proof using All.
  intros Hp Hp0 Hc Hrun. destruct (checked _ _ _ _ Hrun) as [Hpe Hdev].
  assert (Hpq : p ∉ q) by (rewrite <- (ok_asleep _ _ _ Hok); by rewrite Hc).
  destruct (queue_length p Hp Hpq) as [Hnd Hlen].
  destruct (iderw_begin_run p q (ide s) (ok_chain _ _ _ Hok) Hnd Hlen Hp0 Hpe Hdev) as (i2 & Hrun2 & Hch & Hqb & _ & Ha & Ha0 & Hm).
  rewrite Hrun in Hrun2. injection Hrun2 as -> <-. split; [done|]. destruct Hok as [H1 H2 H3 H4 H5 H6 H7 H8 H9].
  assert (Hreq : req_of (ibufs i') <$> (q ++ [p]) = (req_of (ibufs (ide s)) <$> q) ++ [req_of (ibufs (ide s)) p]).
  { rewrite (req_agree (ibufs i') (ibufs (ide s)) (q ++ [p]) (fun x _ => Hqb x)). by rewrite fmap_app. }
  split; cbn [ide calls asked answered].
  - done.
  - split; [done|]. set_solver.
  - intros x. unfold upd. destruct (Z.eqb_spec x p) as [->|Hxp]; [set_solver|]. rewrite H3. set_solver.
  - intros x Hx. rewrite Hqb. apply elem_of_app in Hx as [Hx|Hx]; [by apply H4|]. by apply list_elem_of_singleton in Hx as ->.
  - intros x. unfold upd. destruct (Z.eqb_spec x p); [done|]. rewrite Hqb. apply H5.
  - intros x Hx. rewrite Hqb. destruct q as [|t q']; [injection Hx as ->; by apply Ha0|]. rewrite Ha by done. by apply H6.
  - by rewrite H7, Hreq, app_assoc.
  - done.
  - intros k l. rewrite Hm. destruct q as [|t q'].
    + cbn [fmap list_fmap app take]. rewrite foldl_app. cbn [foldl]. unfold try_of. rewrite (req_at _ _ p (Hqb p)).
      apply serve_ext. intros. rewrite H9. cbn. by rewrite app_nil_r.
    + rewrite H9. cbn [fmap list_fmap app take]. unfold try_of. by rewrite (req_at _ _ t (Hqb t)), Ha by done.
Qed.
Lemma iok_intr w i' : ideintr (ide s) = Ok (w, i') -> exists q', iok m0 (match w with
             | None => mkSys i' (calls s) (asked s) (answered s)
             | Some p => mkSys i' (upd (calls s) p (match calls s p with None => None | Some _ => Some Woken end)) (asked s)
                           (answered s ++ [(try_of (ide s) p, data (qb (ibufs i' p)))])
             end) q'.
Proof using All.
  intros Hrun. destruct q as [|p q'] eqn:Hq.
  { exists []. pose proof (ok_chain _ _ _ Hok) as Hc. cbn in Hc. unfold ideintr in Hrun. erewrite bind_Ok in Hrun; [|reflexivity].
    cbv zeta in Hrun. rewrite Hc in Hrun. injection Hrun as <- <-. by destruct s. }
  exists q'. destruct Hok as [H1 [H2 H2'] H3 H4 H5 H6 H7 H8 H9]. apply NoDup_cons in H2 as [Hpq Hnd].
  destruct (ideintr_run p q' (ide s) H1 Hpq (H6 p eq_refl)) as (i2 & Hrun2 & Hch & _ & Hqb & Ha & Hm).
  rewrite Hrun in Hrun2. injection Hrun2 as -> <-.
  assert (Hcp : calls s p = Some Asleep) by (apply H3; set_solver). rewrite Hcp.
  assert (Hne : forall x, x ∈ q' -> qb (ibufs i' x) = qb (ibufs (ide s) x)).
  { intros x Hx. rewrite Hqb. destruct (Z.eqb_spec x p) as [->|]; done. }
  assert (Hreq : req_of (ibufs i') <$> q' = req_of (ibufs (ide s)) <$> q') by (by apply req_agree).
  assert (Hans : data (qb (ibufs i' p)) = answer (foldl serve m0 (answered s).*1) (try_of (ide s) p)).
  { rewrite Hqb, Z.eqb_refl. cbn [finished set_data set_flags data]. apply answer_serve. intros k l. rewrite H9.
    cbn [fmap list_fmap take]. by rewrite foldl_app. }
  split; cbn [ide calls asked answered].
  - done.
  - split; [done | set_solver].
  - intros x. unfold upd. destruct (Z.eqb_spec x p) as [->|]; [done|]. rewrite H3. set_solver.
  - intros x Hx. rewrite Hne by done. apply H4. set_solver.
  - intros x. unfold upd. rewrite Hqb. destruct (Z.eqb_spec x p) as [->|]; [|apply H5]. intros _.
    cbn [finished set_data set_flags flags]. rewrite <- Z.land_assoc.
    change (Z.land (Z.lnot B_DIRTY) (Z.lor B_VALID B_DIRTY)) with B_VALID. apply Z.bits_inj'. intros n Hn.
    rewrite Z.land_spec, Z.lor_spec. by destruct (Z.testbit (flags _) n), (Z.testbit B_VALID n).
  - intros t Ht. rewrite Hne by (by eapply list_elem_of_lookup_2). by apply Ha.
  - rewrite H7, Hreq, !fmap_app, <- app_assoc. done.
  - rewrite !fmap_app. cbn [fmap list_fmap fst snd]. by rewrite answers_app, H8, Hans.
  - intros k l. rewrite Hm, fmap_app. cbn [fmap list_fmap fst]. destruct q' as [|t q'].
    + rewrite H9. cbn. by rewrite app_nil_r.
    + cbn [fmap list_fmap take]. rewrite foldl_app. cbn [foldl].
      change (try_of i' t) with (req_of (ibufs i') t, failure (hw i')).
      rewrite (req_at _ _ t (Hne t ltac:(set_solver))). apply serve_ext. intros. rewrite H9. done.
Qed.
End Steps.

Definition idle (s : isys) : Prop :=
  idequeue (ide s) = 0 /\ (forall p, calls s p = None) /\ asked s = [] /\ answered s = [].
Lemma iok_resume m0 s q p b i' : iok m0 s q -> calls s p = Some Woken -> waiting p (ide s) = Ok (b, i') ->
  b = false /\ i' = ide s /\ iok m0 (mkSys (ide s) (upd (calls s) p None) (asked s) (answered s)) q.
Proof using All.
  intros Hok Hc Hrun. pose proof (ok_woken _ _ _ Hok p Hc) as Hv. unfold waiting in Hrun. erewrite bind_Ok in Hrun; [|reflexivity].
  rewrite Hv, Z.eqb_refl in Hrun. injection Hrun as <- <-. split; [done|]. split; [done|].
  destruct Hok as [H1 H2 H3 H4 H5 H6 H7 H8 H9]. split; try done; cbn [ide calls].
  - intros x. unfold upd. rewrite <- H3. destruct (Z.eqb_spec x p) as [->|]; [|done]. by rewrite Hc.
  - intros x. unfold upd. destruct (Z.eqb_spec x p); [done | apply H5].
Qed.
Lemma iok_reachable m0 s0 s : 0 ∉ pool -> (exists q, iok m0 s0 q) -> rtc istep s0 s -> exists q, iok m0 s q.
Proof using All.
  intros H0 Hs0 Hsteps. induction Hsteps as [s|s1 s2 s3 Hst _ IH]; [done|]. apply IH. destruct Hs0 as [q Hok].
  destruct Hst as [p b s Hp Hc|p i' sl s Hp Hc Hrun|i' w s Hrun|p b i' s Hc Hrun].
  - exists q. by apply iok_owner.
  - exists (q ++ [p]). destruct (iok_call m0 s q Hok p sl i' Hp) as [-> Hok']; [by intros -> | done | done | exact Hok'].
  - by eapply iok_intr.
  - destruct (iok_resume m0 s q p b i' Hok Hc Hrun) as (-> & -> & Hok'). by exists q.
Qed.

(** C15 The disk driver is a disk that serves one request at a time.  Under
    every interleaving of calls of [iderw], interrupts of the drive (spurious
    ones too) and resumed callers, the requests are served in the order of the
    calls: the ones answered so far, followed by the ones in the queue, are
    exactly the ones asked for, and every answer is the one that a disk serving
    them one by one gives, a read after all the writes before it.  Any command
    may fail: when the drive reports an error for a read, the buffer keeps the
    data it had and the request counts as served all the same, and a write for
    which it reports one leaves in its sector whatever the drive left there.
    A caller sleeps exactly while its request is in the queue, so no wakeup is
    lost; the next interrupt always returns and answers the oldest request, a
    legal request is always accepted, and with an empty queue the drive holds
    what the served requests left. *)
Theorem ide_serves_in_order s0 s : 0 ∉ pool -> idle s0 -> rtc istep s0 s ->
  exists q, asked s = (answered s).*1.*1 ++ (req_of (ibufs (ide s)) <$> q) /\
    (answered s).*2 = answers (media (hw (ide s0))) (answered s).*1 /\
    (forall p, calls s p = Some Asleep <-> p ∈ q) /\
    (forall p q', q = p :: q' -> exists i', ideintr (ide s) = Ok (Some p, i')) /\
    (forall p, p ∈ pool -> calls s p = None -> pending (qb (ibufs (ide s) p)) ->
       dev (qb (ibufs (ide s) p)) = 0 \/ havedisk1 (ide s) = true -> exists i', iderw_begin p (ide s) = Ok (true, i')) /\
    (q = [] -> forall k l, media (hw (ide s)) k l = foldl serve (media (hw (ide s0))) (answered s).*1 k l).
Proof using All.
  intros H0 (Hi & Hc & Has & Han) Hsteps.
  destruct (iok_reachable (media (hw (ide s0))) s0 s H0) as [q Hok]; [|done|].
  { exists []. split; rewrite ?Has, ?Han; try done.
    - split; [apply NoDup_nil_2 | set_solver].
    - intros p. rewrite Hc. set_solver.
    - intros p. set_solver.
    - intros p. by rewrite Hc. }
  exists q. pose proof Hok as [H1 [H2 _] H3 H4 H5 H6 H7 H8 H9]. split_and!; try done.
  - intros p q' ->. apply NoDup_cons in H2 as [Hpq _].
    destruct (ideintr_run p q' (ide s) H1 Hpq (H6 p eq_refl)) as (i' & Hrun & _). by exists i'.
  - intros p Hp Hcp Hpe Hdev. assert (Hpq : p ∉ q) by (rewrite <- H3; by rewrite Hcp).
    destruct (queue_length _ _ _ Hok p Hp Hpq) as [Hnd Hlen].
    destruct (iderw_begin_run p q (ide s) H1 Hnd Hlen ltac:(by intros ->) Hpe Hdev) as (i' & Hrun & _). by exists i'.
  - intros -> k l. rewrite H9. cbn. by rewrite app_nil_r.
Qed.
End Driver.

(** ** A drive

    It is busy for three status reads after every command; the commands in
    [bad] fail, and a write that fails loses its sector. *)
Definition no_bad (c : command) : bool := false.
Section Slow_drive.
Context (bad : command -> bool).
Record slow := mkSlow { sl_regs : Z -> Z; sl_active : option command; sl_media : Z -> Z -> block; sl_busy : nat }.
Definition slow_failure (d : slow) : option block :=
  match sl_active d with Some c => if bad c then Some [] else None | None => None end.
Definition slow_inb (d : slow) : Z * slow :=
  (match sl_busy d, slow_failure d with
   | S _, _ => IDE_BSY
   | O, Some _ => Z.lor IDE_DRDY IDE_ERR
   | O, None => IDE_DRDY
   end,
   mkSlow (sl_regs d) (sl_active d) (sl_media d) (pred (sl_busy d))).
Definition slow_outb (p v : Z) (d : slow) : slow :=
  if p =? 0x1f7 then
    let k := sel_drive (sl_regs d) in let l := sel_lba (sl_regs d) in
    mkSlow (sl_regs d) (Some (if v =? IDE_CMD_WRITE then Cmd_write k l else Cmd_read k l)) (sl_media d) 3
  else mkSlow (upd (sl_regs d) p v) (sl_active d) (sl_media d) (sl_busy d).
Definition slow_insl (d : slow) : block * slow :=
  (match sl_active d with Some (Cmd_read k l) => sl_media d k l | _ => [] end, d).
Definition slow_outsl (x : block) (d : slow) : slow :=
  match sl_active d with
  | Some (Cmd_write k l) => mkSlow (sl_regs d) (sl_active d) (write_sector (sl_media d) k l (default x (slow_failure d))) (sl_busy d)
  | _ => d
  end.
#[export] Program Instance slow_drive : Drive := {|
  drive := slow; inb := slow_inb; outb := slow_outb; insl := slow_insl; outsl := slow_outsl;
  regs := sl_regs; active := sl_active; media := sl_media; spins := sl_busy;
  failure := slow_failure |}.
Next Obligation. done. Qed.
Next Obligation.
  intros d. unfold slow_inb. cbn [fst]. destruct (sl_busy d); [|done]. split; [done|]. by destruct (slow_failure d).
Qed.
Next Obligation. intros d Hd. unfold slow_inb. cbn [fst]. rewrite Hd. by destruct (slow_failure d). Qed.
Next Obligation. intros p v d Hp. unfold slow_outb. by rewrite (proj2 (Z.eqb_neq _ _) Hp). Qed.
Next Obligation. intros v d. unfold slow_outb. cbn. split_and!; [by intros ->.. | done]. Qed.
Next Obligation. intros d k lba Ha. unfold slow_insl. cbn. by rewrite Ha. Qed.
Next Obligation. intros x d k lba Ha. unfold slow_outsl. rewrite Ha. split; [done|]. unfold slow_failure. cbn. by rewrite Ha. Qed.
End Slow_drive.

(** ** Witness: a read of sector 5, a write to it and a read of sector 6,
    which is damaged *)
Definition bad_six (c : command) : bool := match c with Cmd_read _ l | Cmd_write _ l => l =? 6 end.
Definition some_bufs (p : Z) : qbuf :=
  if p =? 200 then mkQ (mkBuf (Z.lor B_BUSY B_DIRTY) 0 5 0 0 [7]) 0
  else if p =? 300 then mkQ (mkBuf B_BUSY 0 6 0 0 [9]) 0
  else mkQ (mkBuf B_BUSY 0 5 0 0 [0]) 0.
Definition quiet : @isys (slow_drive bad_six) :=
  @mkSys (slow_drive bad_six) (@mkIde (slow_drive bad_six) some_bufs 0 false
    (mkSlow (fun _ => 0) None (fun _ _ => [1]) 0)) (fun _ => None) [] [].
Definition after_call `{Drive} (p : Z) (s : isys) : isys :=
  match iderw_begin p (ide s) with
  | Ok (true, i') => mkSys i' (upd (calls s) p (Some Asleep)) (asked s ++ [req_of (ibufs (ide s)) p]) (answered s)
  | _ => s
  end.
Definition after_intr `{Drive} (s : isys) : isys :=
  match ideintr (ide s) with
  | Ok (Some p, i') => mkSys i' (upd (calls s) p (match calls s p with None => None | Some _ => Some Woken end)) (asked s)
                           (answered s ++ [(try_of (ide s) p, data (qb (ibufs i' p)))])
  | _ => s
  end.
Lemma after_call_steps `{Drive} pool p s : p ∈ pool -> calls s p = None -> rtc (istep pool) s (after_call p s).
Proof.
  intros Hp Hc. unfold after_call. destruct (iderw_begin p (ide s)) as [[[] i']| | |] eqn:E; try done.
  apply rtc_once. exact (step_call pool p i' true s Hp Hc E).
Qed.
Lemma after_intr_steps `{Drive} pool s : rtc (istep pool) s (after_intr s).
Proof.
  unfold after_intr. destruct (ideintr (ide s)) as [[[p|] i']| | |] eqn:E; try done.
  apply rtc_once. exact (step_intr pool i' (Some p) s E).
Qed.
Definition all_asked : @isys (slow_drive bad_six) := after_call 300 (after_call 200 (after_call 100 quiet)).
Definition all_served : @isys (slow_drive bad_six) := after_intr (after_intr (after_intr all_asked)).
Lemma all_served_reached : rtc (istep [100; 200; 300]) quiet all_served.
Proof.
  unfold all_served. do 3 (etrans; [|apply after_intr_steps]). unfold all_asked.
  etrans; [apply (after_call_steps _ 100 quiet); [set_solver | done]|].
  etrans; [apply (after_call_steps _ 200 (after_call 100 quiet)); [set_solver | by vm_compute]|].
  apply (after_call_steps _ 300 (after_call 200 (after_call 100 quiet))); [set_solver | by vm_compute].
Qed.
Lemma ide_serves_in_order_witness :
  map snd (answered all_served) = [[1]; [7]; [9]] /\ media (hw (ide all_served)) 0 5 = [7] /\
  map (fun a => a.1.2) (answered all_served) = [None; None; Some []] /\
  exists q, asked all_served = (answered all_served).*1.*1 ++ (req_of (ibufs (ide all_served)) <$> q) /\
    (answered all_served).*2 = answers (media (hw (ide quiet))) (answered all_served).*1.
Proof.
  split; [by vm_compute|]. split; [by vm_compute|]. split; [by vm_compute|].
  destruct (@ide_serves_in_order (slow_drive bad_six)) with (pool := [100; 200; 300]) (s0 := quiet) (s := all_served)
    as (q & H1 & H2 & _).
  - cbn. unfold NBUF, MAXOPBLOCKS. lia.
  - set_solver.
  - by vm_compute.
  - exact all_served_reached.
  - exists q. split; [exact H1 | exact H2].
Defined.

(** A read that the drive reports as failed leaves the buffer marked valid
    with the data it held before. *)
Definition failed_read : @I (slow_drive bad_six) (bool * option Z * bool * block * block) :=
  sleeps <- iderw_begin 300 ;;
  woken <- ideintr ;;
  again <- waiting 300 ;;
  s <- get ;;
  ret (sleeps, woken, again, data (qb (ibufs s 300)), media (hw s) 0 6).
Theorem failed_read_marked_valid :
  match failed_read (ide quiet) with
  | Ok (r, _) => r = (true, Some 300, false, [9], [1])
  | _ => False
  end.
Proof. by vm_compute. Qed.
