(* ===== verification/CString.v ===== *)
(** * CString: memory and string routines (src/src/string.c, src/src/ulib.c)

    Memory is a map from addresses to bytes; the routines return the memory
    they leave.  A walk over a string has a step bound, in which the string
    must end.  The routines of ulib.c are in module [Ulib]. *)
From S2P Require Import Prelude.

Definition mem : Type := Z -> Z.

(** ** string.c *)

(** [stosb] and [stosl] (x86.h): store [n] copies of a byte, of a word. *)
Definition stosb (m : mem) (addr c n : Z) : mem :=
  zfor 0 n (fun i m => upd m (addr + i) (u8 c)) m.
Definition put_word (m : mem) (addr w : Z) : mem :=
  upd (upd (upd (upd m addr (u8 w)) (addr + 1) (u8 (Z.shiftr w 8)))
         (addr + 2) (u8 (Z.shiftr w 16))) (addr + 3) (u8 (Z.shiftr w 24)).
Definition stosl (m : mem) (addr w n : Z) : mem :=
  zfor 0 n (fun i m => put_word m (addr + 4 * i) w) m.

Definition memset (m : mem) (dst c n : Z) : mem :=
  if (Z.rem (s32 dst) 4 =? 0) && (n mod 4 =? 0) then
    let c := Z.land c 0xFF in
    stosl m dst (Z.lor (Z.lor (Z.lor (Z.shiftl c 24) (Z.shiftl c 16)) (Z.shiftl c 8)) c) (n / 4)
  else stosb m dst c n.

Fixpoint memcmp (m : mem) (s1 s2 : Z) (n : nat) : Z :=
  match n with
  | O => 0
  | S n' => if negb (m s1 =? m s2) then m s1 - m s2 else memcmp m (s1 + 1) (s2 + 1) n'
  end.

(** The forward loop of [memmove] (lines 45-46). *)
Fixpoint copy_up (m : mem) (d s : Z) (n : nat) : mem :=
  match n with
  | O => m
  | S n' => copy_up (upd m d (m s)) (d + 1) (s + 1) n'
  end.
(** The backward loop (lines 42-43), with [d] and [s] past the end. *)
Fixpoint copy_down (m : mem) (d s : Z) (n : nat) : mem :=
  match n with
  | O => m
  | S n' => copy_down (upd m (d - 1) (m (s - 1))) (d - 1) (s - 1) n'
  end.
Definition memmove (m : mem) (dst src : Z) (n : nat) : mem :=
  if (src <? dst) && (src + Z.of_nat n >? dst)
  then copy_down m (dst + Z.of_nat n) (src + Z.of_nat n) n
  else copy_up m dst src n.
Definition memcpy (m : mem) (dst src : Z) (n : nat) : mem := memmove m dst src n.

Fixpoint strncmp (m : mem) (p q : Z) (n : nat) : Z :=
  match n with
  | O => 0
  | S n' =>
      if truthy (m p) && (m p =? m q) then strncmp m (p + 1) (q + 1) n'
      else u8 (m p) - u8 (m q)
  end.

(** The second loop of [strncpy] (lines 76-77). *)
Fixpoint zero_fill (m : mem) (s : Z) (n : nat) : mem :=
  match n with
  | O => m
  | S n' => zero_fill (upd m s 0) (s + 1) n'
  end.
(** The two loops of [strncpy] (lines 74-77), for [n] bytes. *)
Fixpoint strncpy (m : mem) (s t : Z) (n : nat) : mem :=
  match n with
  | O => m
  | S n' =>
      let m' := upd m s (m t) in
      if truthy (m t) then strncpy m' (s + 1) (t + 1) n' else zero_fill m' (s + 1) n'
  end.
(** The loop of [safestrcpy] (lines 90-92): [n] is the value of [n] before
    the test [--n > 0]. *)
Fixpoint safestrcpy_loop (m : mem) (s t : Z) (n : nat) : mem :=
  match n with
  | O => m
  | S O => upd m s 0
  | S n' =>
      let m' := upd m s (m t) in
      if truthy (m t) then safestrcpy_loop m' (s + 1) (t + 1) n' else upd m' (s + 1) 0
  end.
Definition safestrcpy (m : mem) (s t : Z) (n : Z) : mem :=
  if n <=? 0 then m else safestrcpy_loop m s t (Z.to_nat n).

Fixpoint strlen_from (m : mem) (s n : Z) (fuel : nat) : option Z :=
  match fuel with
  | O => None
  | S fuel => if truthy (m (s + n)) then strlen_from m s (n + 1) fuel else Some n
  end.
Definition strlen (m : mem) (s : Z) (fuel : nat) : option Z := strlen_from m s 0 fuel.

(** ** Little-endian words and runs of bytes *)
Definition get16 (m : mem) (a : Z) : Z := m a + 256 * m (a + 1).
Definition get32 (m : mem) (a : Z) : Z :=
  m a + 256 * m (a + 1) + 65536 * m (a + 2) + 16777216 * m (a + 3).
Definition put16 (m : mem) (a v : Z) : mem :=
  upd (upd m a (u8 v)) (a + 1) (u8 (Z.shiftr v 8)).
Definition put32 (m : mem) (a v : Z) : mem := put_word m a v.
Definition get_bytes (m : mem) (a n : Z) : list Z := map (fun i => m (a + i)) (seqZ 0 n).
Fixpoint put_bytes (m : mem) (a : Z) (l : list Z) : mem :=
  match l with [] => m | c :: l' => put_bytes (upd m a c) (a + 1) l' end.

(** ** ulib.c *)
Module Ulib.

Fixpoint strcpy (m : mem) (s t : Z) (fuel : nat) : option mem :=
  match fuel with
  | O => None
  | S fuel =>
      let m' := upd m s (m t) in
      if truthy (m t) then strcpy m' (s + 1) (t + 1) fuel else Some m'
  end.
Definition strcat (m : mem) (s t : Z) (fuel : nat) : option mem :=
  n ← strlen m s fuel;
  strcpy m (s + n) t fuel.

Fixpoint strcmp (m : mem) (p q : Z) (fuel : nat) : option Z :=
  match fuel with
  | O => None
  | S fuel =>
      if truthy (m p) && (m p =? m q) then strcmp m (p + 1) (q + 1) fuel
      else Some (u8 (m p) - u8 (m q))
  end.

Definition memset (m : mem) (dst c n : Z) : mem := stosb m dst c n.

(** The address found, 0 when there is none. *)
Fixpoint strchr (m : mem) (s c : Z) (fuel : nat) : option Z :=
  match fuel with
  | O => None
  | S fuel =>
      if truthy (m s) then if m s =? c then Some s else strchr m (s + 1) c fuel
      else Some 0
  end.

(** [gets] over the bytes that [read(0, &c, 1)] delivers until it fails. *)
Fixpoint gets (m : mem) (buf i max : Z) (input : list Z) : mem * list Z :=
  match input with
  | c :: input' =>
      if i + 1 <? max then
        let m' := upd m (buf + i) c in
        if (c =? 10) || (c =? 13) then (upd m' (buf + (i + 1)) 0, input')
        else gets m' buf (i + 1) max input'
      else (upd m (buf + i) 0, input)
  | [] => (upd m (buf + i) 0, [])
  end.

Fixpoint atoi_from (m : mem) (s n : Z) (fuel : nat) : option Z :=
  match fuel with
  | O => None
  | S fuel =>
      if (48 <=? m s) && (m s <=? 57) then atoi_from m (s + 1) (s32 (n * 10 + m s - 48)) fuel
      else Some n
  end.
Definition atoi (m : mem) (s : Z) (fuel : nat) : option Z := atoi_from m s 0 fuel.

Definition memmove (m : mem) (dst src : Z) (n : nat) : mem := copy_up m dst src n.

End Ulib.

(** ** Blocks of bytes *)
Lemma copy_up_spec n : forall m d s a,
  d <= s \/ s + Z.of_nat n <= d ->
  copy_up m d s n a = if (d <=? a) && (a <? d + Z.of_nat n) then m (s + (a - d)) else m a.
Proof.
  induction n as [|n IH]; intros m d s a Hd; cbn [copy_up].
  - destruct (Z.leb_spec d a), (Z.ltb_spec a (d + Z.of_nat 0)); simpl; try done. lia.
  - rewrite IH by lia.
    destruct (Z.leb_spec (d + 1) a), (Z.ltb_spec a (d + 1 + Z.of_nat n)),
      (Z.leb_spec d a), (Z.ltb_spec a (d + Z.of_nat (S n))); simpl; try lia;
      try (apply upd_ne; lia).
    + rewrite upd_ne by lia. f_equal. lia.
    + assert (a = d) as -> by lia. rewrite upd_eq. f_equal. lia.
Qed.
Lemma copy_down_spec n : forall m d s a,
  s <= d ->
  copy_down m d s n a = if (d - Z.of_nat n <=? a) && (a <? d) then m (s + (a - d)) else m a.
Proof.
  induction n as [|n IH]; intros m d s a Hd; cbn [copy_down].
  - destruct (Z.leb_spec (d - Z.of_nat 0) a), (Z.ltb_spec a d); simpl; try done. lia.
  - rewrite IH by lia.
    destruct (Z.leb_spec (d - 1 - Z.of_nat n) a), (Z.ltb_spec a (d - 1)),
      (Z.leb_spec (d - Z.of_nat (S n)) a), (Z.ltb_spec a d); simpl; try lia;
      try (apply upd_ne; lia).
    + rewrite upd_ne by lia. f_equal. lia.
    + assert (a = d - 1) as -> by lia. rewrite upd_eq. f_equal. lia.
Qed.

(** [memmove] copies as if through a temporary buffer, whether or not the
    two blocks overlap and on either side: afterwards the destination holds
    the old bytes of the source and every other byte is unchanged. *)
Theorem memmove_copies m dst src n a :
  memmove m dst src n a =
    if (dst <=? a) && (a <? dst + Z.of_nat n) then m (src + (a - dst)) else m a.
Proof.
  unfold memmove. destruct (Z.ltb_spec src dst); simpl.
  - rewrite Z.gtb_ltb. destruct (Z.ltb_spec dst (src + Z.of_nat n)).
    + rewrite copy_down_spec by lia. rewrite Z.add_simpl_r.
      destruct ((dst <=? a) && (a <? dst + Z.of_nat n)); [|done]. f_equal. lia.
    + apply copy_up_spec. lia.
  - apply copy_up_spec. lia.
Qed.

Definition rep_word (c : Z) : Z :=
  let c := Z.land c 0xFF in
  Z.lor (Z.lor (Z.lor (Z.shiftl c 24) (Z.shiftl c 16)) (Z.shiftl c 8)) c.
Lemma rep_word_bytes c :
  u8 (rep_word c) = u8 c /\ u8 (Z.shiftr (rep_word c) 8) = u8 c /\
  u8 (Z.shiftr (rep_word c) 16) = u8 c /\ u8 (Z.shiftr (rep_word c) 24) = u8 c.
Proof.
  assert (Hb : Z.land c 0xFF = u8 c) by (apply (Z.land_ones c 8); lia).
  assert (Hall : forallb (fun b =>
    let w := Z.lor (Z.lor (Z.lor (Z.shiftl b 24) (Z.shiftl b 16)) (Z.shiftl b 8)) b in
    (u8 w =? b) && (u8 (Z.shiftr w 8) =? b) && (u8 (Z.shiftr w 16) =? b) && (u8 (Z.shiftr w 24) =? b))
    (seqZ 0 256) = true) by (vm_compute; reflexivity).
  rewrite forallb_forall in Hall. specialize (Hall (u8 c)). unfold rep_word. rewrite Hb.
  rewrite !andb_true_iff, !Z.eqb_eq in Hall. destruct Hall as [[[? ?] ?] ?]; [|done].
  apply list_elem_of_In, elem_of_seqZ. pose proof (u8_range c). lia.
Qed.

Definition filled (m : mem) (dst v k : Z) (a : Z) : Z :=
  if (dst <=? a) && (a <? dst + k) then v else m a.
Lemma stosb_spec m dst c n a : 0 <= n -> stosb m dst c n a = filled m dst (u8 c) n a.
Proof.
  intros Hn. unfold stosb. revert a.
  apply (zfor_ind (fun i m' => forall a, m' a = filled m dst (u8 c) i a) 0 n); [lia | |].
  - intros a. unfold filled. destruct (Z.leb_spec dst a), (Z.ltb_spec a (dst + 0)); simpl; try done. lia.
  - intros i m' Hi IH a. unfold upd. rewrite IH. unfold filled.
    destruct (Z.eqb_spec a (dst + i)), (Z.leb_spec dst a), (Z.ltb_spec a (dst + i)),
      (Z.ltb_spec a (dst + (i + 1))); simpl; try done; lia.
Qed.
Lemma stosl_spec m dst c k a : 0 <= k -> stosl m dst (rep_word c) k a = filled m dst (u8 c) (4 * k) a.
Proof.
  intros Hk. unfold stosl. revert a. destruct (rep_word_bytes c) as (H0 & H1 & H2 & H3).
  apply (zfor_ind (fun i m' => forall a, m' a = filled m dst (u8 c) (4 * i) a) 0 k); [lia | |].
  - intros a. unfold filled. destruct (Z.leb_spec dst a), (Z.ltb_spec a (dst + 4 * 0)); simpl; try done. lia.
  - intros i m' Hi IH a. unfold put_word, upd. rewrite H0, H1, H2, H3, IH. unfold filled.
    destruct (Z.eqb_spec a (dst + 4 * i + 3)), (Z.eqb_spec a (dst + 4 * i + 2)),
      (Z.eqb_spec a (dst + 4 * i + 1)), (Z.eqb_spec a (dst + 4 * i)),
      (Z.leb_spec dst a), (Z.ltb_spec a (dst + 4 * i)), (Z.ltb_spec a (dst + 4 * (i + 1)));
      simpl; try done; lia.
Qed.
(** Word-wise or byte-wise, [memset] fills the block with the low byte of [c]. *)
Lemma memset_fills m dst c n a : 0 <= n -> memset m dst c n a = filled m dst (u8 c) n a.
Proof.
  intros Hn. unfold memset. destruct (_ && _) eqn:E; [|by apply stosb_spec].
  rewrite andb_true_iff, !Z.eqb_eq in E. destruct E as [_ E].
  change (stosl m dst (rep_word c) (n / 4) a = filled m dst (u8 c) n a).
  rewrite stosl_spec by (apply Z.div_pos; lia). f_equal. pose proof (Z.div_mod n 4). lia.
Qed.

(** ** Words *)
Lemma get32_agree m m' a :
  (forall x, a <= x < a + 4 -> m' x = m x) -> get32 m' a = get32 m a.
Proof. intros H. unfold get32. rewrite !H by lia. done. Qed.
Lemma put32_out m a v x : ~ (a <= x < a + 4) -> put32 m a v x = m x.
Proof. intros H. unfold put32, put_word. rewrite !upd_ne by lia. done. Qed.
Lemma get_put32 m a v : 0 <= v < 2 ^ 32 -> get32 (put32 m a v) a = v.
Proof.
  intros Hv. unfold get32, put32, put_word.
  rewrite upd_ne, upd_ne, upd_ne, upd_eq by lia.
  rewrite upd_ne, upd_ne, upd_eq by lia. rewrite upd_ne, upd_eq by lia. rewrite upd_eq.
  unfold u8. rewrite !Z.shiftr_div_pow2 by lia. Z.div_mod_to_equations. lia.
Qed.
Lemma get32_zero m a : (forall x, a <= x < a + 4 -> m x = 0) -> get32 m a = 0.
Proof. intros H. unfold get32. rewrite !H by lia. done. Qed.

Lemma put_bytes_at l : forall m a x,
  put_bytes m a l x = if (a <=? x) && (x <? a + Z.of_nat (length l)) then nth (Z.to_nat (x - a)) l 0 else m x.
Proof.
  induction l as [|c l IH]; intros m a x; cbn [put_bytes length].
  - destruct (Z.leb_spec a x), (Z.ltb_spec x (a + Z.of_nat 0)); simpl; try done. lia.
  - rewrite IH. unfold upd. destruct (Z.eqb_spec x a), (Z.leb_spec (a + 1) x),
      (Z.ltb_spec x (a + 1 + Z.of_nat (length l))), (Z.leb_spec a x),
      (Z.ltb_spec x (a + Z.of_nat (S (length l)))); simpl; try done; try lia.
    + by replace (Z.to_nat (x - a)) with 0%nat by lia.
    + replace (Z.to_nat (x - a)) with (S (Z.to_nat (x - (a + 1)))) by lia. done.
Qed.

Lemma put_bytes_app l1 : forall m a l2, put_bytes m a (l1 ++ l2) = put_bytes (put_bytes m a l1) (a + Z.of_nat (length l1)) l2.
Proof.
  induction l1 as [|x l1 IH]; intros m a l2; cbn [app put_bytes length]; [by rewrite Z.add_0_r|].
  rewrite IH. by replace (a + Z.of_nat (S (length l1))) with (a + 1 + Z.of_nat (length l1)) by lia.
Qed.

(** ** Strings *)

(** At [a] there is the string [l]: its bytes, none of them NUL, then NUL. *)
Fixpoint str_at (m : mem) (a : Z) (l : list Z) : Prop :=
  match l with
  | [] => m a = 0
  | c :: l' => m a = c /\ 0 < c < 256 /\ str_at m (a + 1) l'
  end.
Definition clear_of (a k b j : Z) : Prop := a + k <= b \/ b + j <= a.

Lemma str_at_agree m m' l : forall a,
  (forall x, a <= x <= a + Z.of_nat (length l) -> m' x = m x) -> str_at m a l -> str_at m' a l.
Proof.
  induction l as [|c l IH]; intros a H; cbn [str_at length] in *.
  - intros <-. apply H. lia.
  - intros (Hc & Hr & Hl). split; [rewrite H; [done|lia]|]. split; [done|].
    apply IH; [|done]. intros x Hx. apply H. lia.
Qed.
Lemma zero_fill_spec n : forall m s a,
  zero_fill m s n a = if (s <=? a) && (a <? s + Z.of_nat n) then 0 else m a.
Proof.
  induction n as [|n IH]; intros m s a; cbn [zero_fill].
  - destruct (Z.leb_spec s a), (Z.ltb_spec a (s + Z.of_nat 0)); simpl; try done. lia.
  - rewrite IH. unfold upd. destruct (Z.eqb_spec a s), (Z.leb_spec (s + 1) a),
      (Z.ltb_spec a (s + 1 + Z.of_nat n)), (Z.leb_spec s a), (Z.ltb_spec a (s + Z.of_nat (S n)));
      simpl; try done; lia.
Qed.

Lemma safestrcpy_loop_spec n : forall m s t l,
  str_at m t l -> clear_of s (Z.of_nat (S n)) t (Z.of_nat (length l) + 1) ->
  str_at (safestrcpy_loop m s t (S n)) s (take n l) /\
  forall a, ~ (s <= a < s + Z.of_nat (S n)) -> safestrcpy_loop m s t (S n) a = m a.
Proof.
  induction n as [|n IH]; intros m s t l Hl Hc; unfold clear_of in Hc.
  { cbn [safestrcpy_loop take str_at]. split; [apply upd_eq|]. intros a Ha. apply upd_ne. lia. }
  destruct l as [|c l]; cbn [str_at length] in Hl, Hc.
  - cbn [safestrcpy_loop]. rewrite Hl. cbn [truthy negb Z.eqb take str_at]. split.
    + rewrite upd_ne by lia. apply upd_eq.
    + intros a Ha. rewrite !upd_ne by lia. done.
  - destruct Hl as (Hm & Hr & Hl).
    destruct (IH (upd m s (m t)) (s + 1) (t + 1) l) as [H1 H2].
    { eapply str_at_agree; [|exact Hl]. intros x Hx. apply upd_ne. lia. }
    { unfold clear_of. lia. }
    change (safestrcpy_loop m s t (S (S n))) with
      (if truthy (m t) then safestrcpy_loop (upd m s (m t)) (s + 1) (t + 1) (S n)
       else upd (upd m s (m t)) (s + 1) 0).
    rewrite Hm in *. unfold truthy. destruct (Z.eqb_spec c 0); [lia|]. cbn [negb take str_at]. split.
    + split; [rewrite H2 by lia; apply upd_eq|]. by split.
    + intros a Ha. rewrite H2 by lia. apply upd_ne. lia.
Qed.

(** [safestrcpy] always leaves a terminated string inside the destination:
    for a source string [l] that does not overlap the destination of [n > 0]
    bytes, the destination holds the first [n-1] characters of [l] and a NUL,
    and no byte outside the destination changes. *)
Theorem safestrcpy_terminates m s t n l :
  0 < n -> str_at m t l -> clear_of s n t (Z.of_nat (length l) + 1) ->
  str_at (safestrcpy m s t n) s (take (Z.to_nat (n - 1)) l) /\
  forall a, ~ (s <= a < s + n) -> safestrcpy m s t n a = m a.
Proof.
  intros Hn Hl Hc. unfold safestrcpy. destruct (Z.leb_spec n 0); [lia|].
  replace (Z.to_nat n) with (S (Z.to_nat (n - 1))) by lia.
  replace n with (Z.of_nat (S (Z.to_nat (n - 1)))) in Hc by lia.
  destruct (safestrcpy_loop_spec _ m s t l Hl Hc) as [H1 H2]. split; [done|].
  intros a Ha. apply H2. lia.
Qed.

Lemma u8_small c : 0 <= c < 256 -> u8 c = c.
Proof. intros. by apply Z.mod_small. Qed.

Lemma strlen_from_run m l : forall s n fuel,
  str_at m (s + n) l -> (length l < fuel)%nat -> strlen_from m s n fuel = Some (n + Z.of_nat (length l)).
Proof.
  induction l as [|c l IH]; intros s n [|fuel] Hl Hf; cbn [str_at length strlen_from] in *; try lia.
  - rewrite Hl. simpl. f_equal. lia.
  - destruct Hl as (-> & Hr & Hl). unfold truthy. destruct (Z.eqb_spec c 0); [lia|]. cbn [negb].
    rewrite IH; [f_equal; lia | by rewrite Z.add_assoc | lia].
Qed.
Lemma strlen_run m s l fuel :
  str_at m s l -> (length l < fuel)%nat -> strlen m s fuel = Some (Z.of_nat (length l)).
Proof. intros Hl Hf. apply (strlen_from_run m l s 0); [by rewrite Z.add_0_r | done]. Qed.

(** Comparison of two strings: zero exactly for equal strings, and otherwise
    the sign of the first difference, with NUL below every character. *)
Lemma strcmp_run m l : forall p q k fuel,
  str_at m p l -> str_at m q k -> (length l < fuel)%nat ->
  exists v, Ulib.strcmp m p q fuel = Some v /\ (v = 0 <-> l = k).
Proof.
  induction l as [|c l IH]; intros p q k [|fuel] Hl Hk Hf; cbn [str_at length Ulib.strcmp] in *; try lia.
  - rewrite Hl. simpl. eexists. split; [reflexivity|]. destruct k as [|d k]; cbn [str_at] in Hk.
    + rewrite Hk. by split.
    + destruct Hk as (-> & Hd & _). rewrite !u8_small by lia. split; [intros H; exfalso; lia | done].
  - destruct Hl as (-> & Hc & Hl). unfold truthy. destruct (Z.eqb_spec c 0); [lia|]. cbn [negb andb].
    destruct k as [|d k]; cbn [str_at] in Hk.
    + rewrite Hk. destruct (Z.eqb_spec c 0); [lia|]. eexists. split; [reflexivity|].
      rewrite !u8_small by lia. split; [intros H; exfalso; lia | done].
    + destruct Hk as (-> & Hd & Hk). destruct (Z.eqb_spec c d) as [->|Hne].
      * destruct (IH _ _ _ fuel Hl Hk ltac:(lia)) as (v & E & Hv). exists v. split; [done|].
        rewrite Hv. split; [by intros ->|by intros [= ->]].
      * eexists. split; [reflexivity|]. rewrite !u8_small by lia.
        split; [intros H; exfalso; lia | by intros [= ? ?]].
Qed.

Lemma strcpy_run k : forall m s t fuel,
  str_at m t k -> clear_of s (Z.of_nat (length k) + 1) t (Z.of_nat (length k) + 1) ->
  (length k < fuel)%nat ->
  exists m', Ulib.strcpy m s t fuel = Some m' /\ str_at m' s k /\
    forall a, ~ (s <= a <= s + Z.of_nat (length k)) -> m' a = m a.
Proof.
  induction k as [|c k IH]; intros m s t [|fuel] Hk Hc Hf; unfold clear_of in Hc;
    cbn [str_at length Ulib.strcpy] in *; try lia.
  - rewrite Hk. eexists. split; [reflexivity|]. split; [apply upd_eq|]. intros a Ha. apply upd_ne. lia.
  - destruct Hk as (Hm & Hr & Hk). rewrite Hm. unfold truthy. destruct (Z.eqb_spec c 0); [lia|].
    cbn [negb]. destruct (IH (upd m s c) (s + 1) (t + 1) fuel) as (m' & E & H1 & H2).
    { eapply str_at_agree; [|exact Hk]. intros x Hx. apply upd_ne. lia. }
    { unfold clear_of. lia. }
    { lia. }
    exists m'. split; [done|]. split.
    + split; [rewrite H2 by lia; apply upd_eq|]. by split.
    + intros a Ha. rewrite H2 by lia. apply upd_ne. lia.
Qed.
Lemma str_at_app m' m l k : forall s,
  str_at m s l -> str_at m' (s + Z.of_nat (length l)) k ->
  (forall a, s <= a < s + Z.of_nat (length l) -> m' a = m a) -> str_at m' s (l ++ k).
Proof.
  induction l as [|c l IH]; intros s Hl Hk Ha; cbn [str_at length app] in *.
  - by rewrite Z.add_0_r in Hk.
  - destruct Hl as (Hm & Hr & Hl). split; [rewrite Ha; [done|lia]|]. split; [done|].
    apply IH; [done | | intros a Hx; apply Ha; lia].
    by replace (s + 1 + Z.of_nat (length l)) with (s + Z.of_nat (S (length l))) by lia.
Qed.

(** Appending and comparing with ulib.c: [strcat] of a string [k] after a
    string [l] returns and leaves [l ++ k] there, changing no byte outside it,
    when the room after [l] does not overlap [k]; [strcmp] returns zero exactly
    for equal strings. *)
Theorem strcat_strcmp m s t l k fuel :
  str_at m s l -> str_at m t k -> (length l < fuel)%nat -> (length k < fuel)%nat ->
  (exists v, Ulib.strcmp m s t fuel = Some v /\ (v = 0 <-> l = k)) /\
  (clear_of (s + Z.of_nat (length l)) (Z.of_nat (length k) + 1) t (Z.of_nat (length k) + 1) ->
   exists m', Ulib.strcat m s t fuel = Some m' /\ str_at m' s (l ++ k) /\
     forall a, ~ (s + Z.of_nat (length l) <= a <= s + Z.of_nat (length l) + Z.of_nat (length k)) -> m' a = m a).
Proof.
  intros Hl Hk Hfl Hfk. split; [by apply (strcmp_run m l)|]. intros Hc.
  unfold Ulib.strcat. rewrite (strlen_run m s l) by done. cbn [mbind option_bind].
  destruct (strcpy_run k m (s + Z.of_nat (length l)) t fuel Hk Hc Hfk) as (m' & E & H1 & H2).
  exists m'. split; [done|]. split; [|done].
  apply (str_at_app m' m); [done..|]. intros a Ha. apply H2. lia.
Qed.

(** ** Parts of a string *)
(** The string at [a]. *)
Fixpoint string_from (m : mem) (a : Z) (fuel : nat) : option (list Z) :=
  match fuel with
  | O => None
  | S fuel => if truthy (m a) then cons (m a) <$> string_from m (a + 1) fuel else Some []
  end.
Lemma str_at_lookup m l : forall a, str_at m a l ->
  (forall i c, l !! i = Some c -> m (a + Z.of_nat i) = c) /\ m (a + Z.of_nat (length l)) = 0.
Proof.
  induction l as [|c l IH]; intros a H; cbn [str_at length] in *.
  - split; [done | by rewrite Z.add_0_r].
  - destruct H as (Hc & _ & Hl). destruct (IH _ Hl) as [H1 H2]. split.
    + intros [|i] d Hd; [injection Hd as <-; by rewrite Z.add_0_r|].
      replace (a + Z.of_nat (S i)) with (a + 1 + Z.of_nat i) by lia. by apply H1.
    + by replace (a + Z.of_nat (S (length l))) with (a + 1 + Z.of_nat (length l)) by lia.
Qed.
Lemma str_at_range m l : forall a, str_at m a l -> Forall (fun c => 0 < c < 256) l.
Proof. induction l as [|c l IH]; intros a H; [done|]. destruct H as (_ & Hc & Hl). constructor; [done | by eapply IH]. Qed.
(** Cutting a string. *)
Lemma str_at_cut m l k : forall a, str_at m a (l ++ k) -> str_at (upd m (a + Z.of_nat (length l)) 0) a l.
Proof.
  induction l as [|c l IH]; intros a H; cbn [app str_at length] in *.
  - rewrite Z.add_0_r. by rewrite upd_eq.
  - destruct H as (Hc & Hr & Hl). split; [rewrite upd_ne by lia; done|]. split; [done|].
    replace (a + Z.of_nat (S (length l))) with (a + 1 + Z.of_nat (length l)) by lia. by apply IH.
Qed.
(** The end of a string. *)
Lemma str_at_tail m l k : forall a, str_at m a (l ++ k) -> str_at m (a + Z.of_nat (length l)) k.
Proof.
  induction l as [|c l IH]; intros a H; cbn [app str_at length] in *; [by rewrite Z.add_0_r|].
  replace (a + Z.of_nat (S (length l))) with (a + 1 + Z.of_nat (length l)) by lia. apply IH. tauto.
Qed.
Lemma string_from_run m l : forall a fuel, str_at m a l -> (length l < fuel)%nat -> string_from m a fuel = Some l.
Proof.
  induction l as [|c l IH]; intros a [|fuel] H Hf; cbn [str_at length string_from] in *; try lia.
  - by rewrite H.
  - destruct H as (-> & Hc & Hl). unfold truthy. rewrite (proj2 (Z.eqb_neq c 0)) by lia. cbn [negb].
    by rewrite (IH _ fuel Hl) by lia.
Qed.

(** ** Inputs *)
Definition demo_mem : mem := fun a =>
  match a with 100 => 104 | 101 => 105 | 200 => 111 | 201 => 107 | _ => 0 end.
Lemma demo_hi : str_at demo_mem 100 [104; 105].
Proof. by repeat split. Qed.
Lemma demo_ok : str_at demo_mem 200 [111; 107].
Proof. by repeat split. Qed.

Lemma safestrcpy_terminates_witness : str_at (safestrcpy demo_mem 300 100 2) 300 [104].
Proof.
  apply (safestrcpy_terminates demo_mem 300 100 2 [104; 105]); [lia | exact demo_hi | right; simpl; lia].
Defined.
Lemma strcat_strcmp_witness :
  exists m', Ulib.strcat demo_mem 100 200 5 = Some m' /\ str_at m' 100 [104; 105; 111; 107].
Proof.
  destruct (strcat_strcmp demo_mem 100 200 [104; 105] [111; 107] 5 demo_hi demo_ok) as [_ H];
    [simpl; lia | simpl; lia |].
  destruct H as (m' & E & Hm & _); [left; simpl; lia|]. by exists m'.
Defined.
