(* ===== verification/Boot.v ===== *)
(** * Boot: loading the kernel (src/src/bootmain.c)

    The boot loader reads the kernel through the drive of [Ide], sector by
    sector, and re-reads the headers from memory while it stores the segments.
    A disk is its sectors of 128 words; the kernel starts at sector 1. *)
From Stdlib Require Import Sorted.
From S2P Require Import Prelude CString Log Bio Ide IdeFacts.

Definition SECTSIZE : Z := 512.
Definition ELF_MAGIC : Z := 0x464C457F.
(** The scratch space for the headers, and the size of what is read there. *)
Definition elf : Z := 0x10000.
Definition PAGE : Z := 4096.
Definition PH : Z := 32.

Section Loader.
Context `{Drive}.
Record boot := mkBoot { bmem : mem; bhw : drive }.
Definition B : Type -> Type := M boot.
Definition out (port v : Z) : B unit := modify (fun s => mkBoot (bmem s) (outb port (u8 v) (bhw s))).
Fixpoint wait_loop (fuel : nat) : B unit :=
  match fuel with
  | O => out_of_fuel
  | S fuel =>
      d <- gets bhw ;;
      modify (fun s => mkBoot (bmem s) (snd (inb d))) ;;;
      if Z.land (fst (inb d)) 0xC0 =? 0x40 then ret tt else wait_loop fuel
  end.
Definition waitdisk : B unit :=
  d <- gets bhw ;;
  wait_loop (S (spins d)).
(** The words that [insl] stores. *)
Fixpoint put_words (m : mem) (a : Z) (l : list Z) : mem :=
  match l with [] => m | w :: l => put_words (put32 m a w) (a + 4) l end.
Definition readsect (dst offset : Z) : B unit :=
  waitdisk ;;;
  out 0x1f2 1 ;;;
  out 0x1f3 offset ;;;
  out 0x1f4 (Z.shiftr offset 8) ;;;
  out 0x1f5 (Z.shiftr offset 16) ;;;
  out 0x1f6 (Z.lor (Z.shiftr offset 24) 0xE0) ;;;
  out 0x1f7 0x20 ;;;
  waitdisk ;;;
  modify (fun s => let '(w, d) := insl (bhw s) in mkBoot (put_words (bmem s) dst w) d).
Fixpoint readseg_loop (fuel : nat) (pa epa offset : Z) : B unit :=
  match fuel with
  | O => out_of_fuel
  | S fuel =>
      if pa <? epa then readsect pa offset ;;; readseg_loop fuel (u32 (pa + SECTSIZE)) epa (u32 (offset + 1))
      else ret tt
  end.
Definition readseg (pa count offset : Z) : B unit :=
  let epa := u32 (pa + count) in
  let pa := u32 (pa - offset mod SECTSIZE) in
  let offset := offset / SECTSIZE + 1 in
  readseg_loop (Z.to_nat (count / SECTSIZE + 3)) pa epa offset.
(** The loop over the program headers (lines 37-42). *)
Fixpoint load_loop (fuel : nat) (ph eph : Z) : B unit :=
  match fuel with
  | O => out_of_fuel
  | S fuel =>
      if ph <? eph then
        m <- gets bmem ;;
        let pa := get32 m (ph + 12) in
        readseg pa (get32 m (ph + 16)) (get32 m (ph + 4)) ;;;
        m <- gets bmem ;;
        let filesz := get32 m (ph + 16) in
        let memsz := get32 m (ph + 20) in
        (when memsz >? filesz do
           modify (fun s => mkBoot (stosb (bmem s) (u32 (pa + filesz)) 0 (memsz - filesz)) (bhw s))) ;;;
        load_loop fuel (u32 (ph + PH)) eph
      else ret tt
  end.
(** The entry point that is called; [None] when the boot sector gets control
    back. *)
Definition bootmain : B (option Z) :=
  readseg elf PAGE 0 ;;;
  m <- gets bmem ;;
  if negb (get32 m elf =? ELF_MAGIC) then ret None
  else
    let ph := u32 (elf + get32 m (elf + 28)) in
    let phnum := get16 m (elf + 44) in
    load_loop (S (Z.to_nat phnum)) ph (u32 (ph + PH * phnum)) ;;;
    m <- gets bmem ;;
    ret (Some (get32 m (elf + 24))).

(** ** The kernel on the disk *)
Context (image : mem).
Fixpoint words_from (a : Z) (n : nat) : list Z :=
  match n with O => [] | S n => get32 image a :: words_from (a + 4) n end.
Definition kernel_on (d : drive) : Prop :=
  forall k, 0 <= k < 2 ^ 28 - 1 -> media d 0 (k + 1) = words_from (SECTSIZE * k) 128.
(** The bytes from [a] to [b] are those of the image from [o] on, the others
    those of [m]. *)
Definition copied (m m' : mem) (a b o : Z) : Prop :=
  forall x, m' x = if (a <=? x) && (x <? b) then image (o + (x - a)) else m x.

Section Bytes.
Hypothesis bytes : forall x, 0 <= image x < 256.
Lemma image32_range a : 0 <= get32 image a < 2 ^ 32.
Proof using bytes. unfold get32. pose proof (bytes a). pose proof (bytes (a + 1)). pose proof (bytes (a + 2)). pose proof (bytes (a + 3)). lia. Qed.
Lemma put32_copied m a o : copied m (put32 m a (get32 image o)) a (a + 4) o.
Proof using bytes.
  intros x. unfold put32, put_word, upd, get32, u8. rewrite !Z.shiftr_div_pow2 by lia.
  pose proof (bytes o). pose proof (bytes (o + 1)). pose proof (bytes (o + 2)). pose proof (bytes (o + 3)).
  destruct (Z.leb_spec a x), (Z.ltb_spec x (a + 4)), (Z.eqb_spec x (a + 3)), (Z.eqb_spec x (a + 2)), (Z.eqb_spec x (a + 1)), (Z.eqb_spec x a); cbn [andb]; try lia.
  - replace (o + (x - a)) with (o + 3) by lia. Z.to_euclidean_division_equations. lia.
  - replace (o + (x - a)) with (o + 2) by lia. Z.to_euclidean_division_equations. lia.
  - replace (o + (x - a)) with (o + 1) by lia. Z.to_euclidean_division_equations. lia.
  - replace (o + (x - a)) with o by lia. Z.to_euclidean_division_equations. lia.
Qed.
Lemma copied_app m m1 m2 a b c o : a <= b <= c -> copied m m1 a b o -> copied m1 m2 b c (o + (b - a)) -> copied m m2 a c o.
Proof using.
  intros Hab H1 H2 x. rewrite H2, H1.
  destruct (Z.leb_spec a x), (Z.ltb_spec x b), (Z.leb_spec b x), (Z.ltb_spec x c); cbn [andb]; try lia; f_equal; lia.
Qed.
Lemma copied_none m a o : copied m m a a o.
Proof using. intros x. destruct (Z.leb_spec a x), (Z.ltb_spec x a); cbn [andb]; done || lia. Qed.
Lemma put_words_copied n : forall m a o, copied m (put_words m a (words_from o n)) a (a + 4 * Z.of_nat n) o.
Proof using bytes.
  induction n as [|n IH]; intros m a o; cbn [put_words words_from].
  - replace (a + 4 * Z.of_nat 0) with a by lia. apply copied_none.
  - eapply (copied_app _ _ _ a (a + 4)); [lia | apply put32_copied|].
    replace (a + 4 * Z.of_nat (S n)) with (a + 4 + 4 * Z.of_nat n) by lia. replace (o + (a + 4 - a)) with (o + 4) by lia. apply IH.
Qed.

(** ** One sector *)
Lemma wait_loop_run n : forall s, spins (bhw s) = n -> exists d, wait_loop (S n) s = Ok (tt, mkBoot (bmem s) d) /\
  (forall p, regs d p = regs (bhw s) p) /\ active d = active (bhw s) /\ (forall k l, media d k l = media (bhw s) k l).
Proof using.
  induction n as [|n IH]; intros s Hn; pose proof (inb_keeps (bhw s)) as (Hr & Ha & Hm & Hs & _); cbv zeta in *;
    cbn [wait_loop]; do 2 (erewrite bind_Ok; [|reflexivity]); change 0xC0 with (Z.lor IDE_BSY IDE_DRDY); change 0x40 with IDE_DRDY.
  - rewrite (proj2 (inb_ready (bhw s)) Hn), Z.eqb_refl. by eexists.
  - destruct (Z.eqb_spec (Z.land (fst (inb (bhw s))) (Z.lor IDE_BSY IDE_DRDY)) IDE_DRDY) as [E|_]; [apply inb_ready in E; lia|].
    destruct (IH (mkBoot (bmem s) (snd (inb (bhw s))))) as (d & Hrun & H1 & H2 & H3); [cbn; by rewrite Hs, Hn|].
    exists d. split; [exact Hrun|]. split; [intros p; by rewrite H1|]. split; [by rewrite H2|]. intros k l. by rewrite H3.
Qed.
Lemma waitdisk_run s : exists d, waitdisk s = Ok (tt, mkBoot (bmem s) d) /\
  (forall p, regs d p = regs (bhw s) p) /\ active d = active (bhw s) /\ (forall k l, media d k l = media (bhw s) k l).
Proof using. apply (wait_loop_run _ s eq_refl). Qed.
(** The registers select the sector, on the first drive. *)
Lemma sel_boot o (r : Z -> Z) : 0 <= o < 2 ^ 28 ->
  r 0x1f3 = u8 o -> r 0x1f4 = u8 (Z.shiftr o 8) -> r 0x1f5 = u8 (Z.shiftr o 16) -> r 0x1f6 = u8 (Z.lor (Z.shiftr o 24) 0xE0) ->
  sel_lba r = o /\ sel_drive r = 0.
Proof using.
  intros Ho H3 H4 H5 H6. assert (Hs : 0 <= Z.shiftr o 24 < 16) by (rewrite Z.shiftr_div_pow2 by lia; Z.to_euclidean_division_equations; lia).
  assert (E6 : u8 (Z.lor (Z.shiftr o 24) 0xE0) = Z.lor (Z.lor 0xe0 (Z.shiftl (Z.land 0 1) 4)) (Z.land (Z.shiftr o 24) 0x0f)).
  { assert (Hall : Forall (fun v => u8 (Z.lor v 0xE0) = Z.lor (Z.lor 0xe0 (Z.shiftl (Z.land 0 1) 4)) (Z.land v 0x0f)) (seqZ 0 16)) by (repeat constructor).
    apply (proj1 (Forall_forall _ _) Hall). apply elem_of_seqZ. lia. }
  destruct (sel_sector o 0 r) as [E1 E2]; [..|rewrite E1, E2, Z.mod_small by lia; done].
  - rewrite H3. change 0xff with (Z.ones 8). by rewrite Z.land_ones by lia.
  - rewrite H4. change 0xff with (Z.ones 8). by rewrite Z.land_ones by lia.
  - rewrite H5. change 0xff with (Z.ones 8). by rewrite Z.land_ones by lia.
  - by rewrite H6.
Qed.
Lemma readsect_run dst k s : kernel_on (bhw s) -> 0 <= k < 2 ^ 28 - 1 -> exists d,
  readsect dst (k + 1) s = Ok (tt, mkBoot (put_words (bmem s) dst (words_from (SECTSIZE * k) 128)) d) /\ kernel_on d.
Proof using.
  intros Hk Hr. unfold readsect. destruct (waitdisk_run s) as (d0 & E0 & Hr0 & Ha0 & Hm0). rewrite (bind_Ok _ _ _ _ _ E0).
  do 5 (erewrite bind_Ok; [|reflexivity]). unfold out at 1. cbn [bmem bhw]. set (d := outb 0x1f6 _ _).
  assert (Hm : forall j l, media d j l = media (bhw s) j l) by (intros; unfold d; rewrite !media_at by done; apply Hm0).
  destruct (sel_boot (k + 1) (regs d)) as [Hl Hd]; [lia | unfold d; by rewrite !reg_at by done ..|].
  destruct (outb_command IDE_CMD_READ d) as (Hc & _ & Hmc). cbv zeta in *. specialize (Hc eq_refl). rewrite Hd, Hl in Hc.
  erewrite bind_Ok; [|reflexivity]. cbn [bmem bhw]. change (u8 0x20) with IDE_CMD_READ. set (d1 := outb 0x1f7 _ _) in *.
  destruct (waitdisk_run (mkBoot (bmem s) d1)) as (d2 & E2 & Hr2 & Ha2 & Hm2). cbn [bmem bhw] in *. rewrite (bind_Ok _ _ _ _ _ E2).
  rewrite Hc in Ha2. destruct (insl_sector d2 0 (k + 1) Ha2) as (I1 & I2 & I3). unfold modify. cbn [bmem bhw].
  destruct (insl d2) as [w d3]. cbn [fst snd] in *. exists d3.
  assert (Hm3 : forall j l, media d3 j l = media (bhw s) j l) by (intros; by rewrite I3, Hm2, Hmc, Hm).
  split; [rewrite I1, Hm2, Hmc, Hm, Hk by done; done|]. intros j Hj. rewrite Hm3. by apply Hk.
Qed.

(** ** One segment *)
Lemma readseg_loop_run n : forall fuel k a epa s, kernel_on (bhw s) -> (n < fuel)%nat ->
  0 <= k -> k + Z.of_nat n < 2 ^ 28 - 1 -> 0 <= a -> a + SECTSIZE * Z.of_nat n < 2 ^ 32 ->
  a + SECTSIZE * (Z.of_nat n - 1) < epa <= a + SECTSIZE * Z.of_nat n \/ (n = 0%nat /\ epa <= a) ->
  exists m d, readseg_loop fuel a epa (k + 1) s = Ok (tt, mkBoot m d) /\ kernel_on d /\
    copied (bmem s) m a (a + SECTSIZE * Z.of_nat n) (SECTSIZE * k).
Proof using bytes.
  unfold SECTSIZE. induction n as [|n IH]; intros [|fuel] k a epa s Hk Hf H0 Hn Ha Hb He; try lia; cbn [readseg_loop].
  - rewrite (proj2 (Z.ltb_ge a epa)) by lia. destruct s as [m d]. exists m, d. split; [reflexivity|]. split; [done|].
    replace (a + 512 * Z.of_nat 0) with a by lia. apply copied_none.
  - rewrite (proj2 (Z.ltb_lt a epa)) by lia. destruct (readsect_run a k s Hk ltac:(lia)) as (d & E & Hd). rewrite (bind_Ok _ _ _ _ _ E).
    unfold SECTSIZE. rewrite !u32_small by lia.
    destruct (IH fuel (k + 1) (a + 512) epa (mkBoot (put_words (bmem s) a (words_from (512 * k) 128)) d)) as (m & d' & E' & Hd' & Hc); [done|lia..|].
    exists m, d'. split; [exact E'|]. split; [done|]. eapply (copied_app _ _ _ a (a + 512)); [lia | exact (put_words_copied 128 (bmem s) a (512 * k))|].
    cbn [bmem] in Hc. replace (a + 512 * Z.of_nat (S n)) with (a + 512 + 512 * Z.of_nat n) by lia.
    replace (512 * k + (a + 512 - a)) with (512 * (k + 1)) by lia. exact Hc.
Qed.
(** Sectors that [readseg] reads, and what they cover in memory. *)
Definition sectors (count offset : Z) : Z := (count + offset mod SECTSIZE + 511) / SECTSIZE.
Definition seg_first (pa offset : Z) : Z := pa - offset mod SECTSIZE.
Definition seg_end (pa count offset : Z) : Z := seg_first pa offset + SECTSIZE * sectors count offset.
Lemma seg_end_covers pa count offset : 0 <= count -> pa + count <= seg_end pa count offset.
Proof using. unfold seg_end, seg_first, sectors, SECTSIZE. intros. Z.to_euclidean_division_equations. lia. Qed.
Lemma readseg_run pa count offset s : kernel_on (bhw s) -> 0 <= count < 2 ^ 32 -> 0 <= offset < 2 ^ 32 ->
  0 <= seg_first pa offset -> seg_end pa count offset < 2 ^ 32 ->
  exists m d, readseg pa count offset s = Ok (tt, mkBoot m d) /\ kernel_on d /\
    copied (bmem s) m (seg_first pa offset) (seg_end pa count offset) (offset + (seg_first pa offset - pa)).
Proof using bytes.
  intros Hk Hc Ho H0 H1. pose proof (seg_end_covers pa count offset ltac:(lia)) as Hcov. unfold readseg.
  assert (Hm : 0 <= offset mod SECTSIZE < 512) by (apply Z.mod_pos_bound; done).
  assert (Hn : SECTSIZE * sectors count offset - 512 < count + offset mod SECTSIZE <= SECTSIZE * sectors count offset).
  { unfold sectors, SECTSIZE in *. Z.to_euclidean_division_equations. lia. }
  assert (Hp : 0 <= sectors count offset) by (unfold SECTSIZE in *; lia).
  rewrite (u32_small (pa + count)) by (unfold seg_first, seg_end in *; lia). fold (seg_first pa offset).
  rewrite (u32_small (seg_first pa offset)) by (unfold seg_end, SECTSIZE in *; lia).
  assert (Hd : offset + (seg_first pa offset - pa) = SECTSIZE * (offset / SECTSIZE)).
  { unfold seg_first. pose proof (Z.div_mod offset SECTSIZE). unfold SECTSIZE in *. lia. }
  rewrite Hd. set (n := Z.to_nat (sectors count offset)). unfold seg_end in *. unfold SECTSIZE in Hn.
  replace (sectors count offset) with (Z.of_nat n) in * by (unfold n; lia).
  assert (0 <= offset / 512 < 2 ^ 23) by (Z.to_euclidean_division_equations; lia).
  assert (Z.of_nat n < count / 512 + 3) by (Z.to_euclidean_division_equations; lia).
  assert (count / 512 < 2 ^ 23) by (Z.to_euclidean_division_equations; lia).
  apply readseg_loop_run; [done | unfold SECTSIZE; lia | unfold SECTSIZE; lia | unfold SECTSIZE; lia | done | done |].
  left. unfold seg_first, SECTSIZE in *. lia.
Qed.

(** ** The whole kernel *)
Record segment := mkSeg { g_off : Z; g_paddr : Z; g_filesz : Z; g_memsz : Z }.
Definition seg_at (m : mem) (p : Z) : segment := mkSeg (get32 m (p + 4)) (get32 m (p + 12)) (get32 m (p + 16)) (get32 m (p + 20)).
Fixpoint segments (p : Z) (n : nat) : list segment :=
  match n with O => [] | S n => seg_at image p :: segments (p + PH) n end.
Definition first (g : segment) : Z := seg_first (g_paddr g) (g_off g).
Definition read_end (g : segment) : Z := seg_end (g_paddr g) (g_filesz g) (g_off g).
Definition data_end (g : segment) : Z := g_paddr g + Z.max (g_filesz g) (g_memsz g).
(** A segment that is in memory and away from the headers. *)
Definition seg_ok (g : segment) : Prop :=
  0 <= first g /\ read_end g < 2 ^ 32 /\ data_end g < 2 ^ 32 /\
  ((read_end g <= elf /\ data_end g <= elf) \/ elf + PAGE <= first g).
(** The order of the segments: sectors may reach beyond a segment, but not back
    into one that is already loaded. *)
Definition before (g g' : segment) : Prop := data_end g <= first g'.
Definition loaded (m : mem) (g : segment) : Prop :=
  (forall i, 0 <= i < g_filesz g -> m (g_paddr g + i) = image (g_off g + i)) /\
  (forall i, g_filesz g <= i < g_memsz g -> m (g_paddr g + i) = 0).
Definition headers (m : mem) : Prop := forall i, 0 <= i < PAGE -> m (elf + i) = image i.

Lemma header32 m a : headers m -> 0 <= a -> a + 4 <= PAGE -> get32 m (elf + a) = get32 image a.
Proof using.
  intros Hh Ha Hb. unfold get32. replace (elf + a + 1) with (elf + (a + 1)) by lia. replace (elf + a + 2) with (elf + (a + 2)) by lia.
  replace (elf + a + 3) with (elf + (a + 3)) by lia. rewrite !Hh by lia. done.
Qed.
Lemma header_seg m p : headers m -> 0 <= p -> p + PH <= PAGE -> seg_at m (elf + p) = seg_at image p.
Proof using.
  intros Hh Hp Hb. unfold seg_at. unfold PH in Hb. rewrite <- !Z.add_assoc, !(header32 m) by (done || lia). done.
Qed.
Lemma seg_range p : let g := seg_at image p in 0 <= g_off g < 2 ^ 32 /\ 0 <= g_paddr g < 2 ^ 32 /\ 0 <= g_filesz g < 2 ^ 32 /\ 0 <= g_memsz g < 2 ^ 32.
Proof using bytes. cbn. split_and!; apply image32_range. Qed.
(** Memory after the file bytes and the zeros of a segment are stored. *)
Definition filled_seg (m m' : mem) (g : segment) : Prop := loaded m' g /\
  forall x, x < first g \/ (read_end g <= x /\ data_end g <= x) -> m' x = m x.
Definition zeroed (m : mem) (g : segment) : mem :=
  if g_memsz g >? g_filesz g then stosb m (u32 (g_paddr g + g_filesz g)) 0 (g_memsz g - g_filesz g) else m.
Lemma zeroed_fills m m1 p : let g := seg_at image p in seg_ok g -> copied m m1 (first g) (read_end g) (g_off g + (first g - g_paddr g)) ->
  filled_seg m (zeroed m1 g) g.
Proof using bytes.
  intros g (H0 & H1 & H2 & _) Hc. destruct (seg_range p) as (R1 & R2 & R3 & R4). fold g in R1, R2, R3, R4.
  pose proof (seg_end_covers (g_paddr g) (g_filesz g) (g_off g) ltac:(lia)) as Hcov. fold (read_end g) in Hcov.
  assert (Hf : first g <= g_paddr g) by (unfold first, seg_first; pose proof (Z.mod_pos_bound (g_off g) SECTSIZE ltac:(done)); lia).
  assert (Hz : forall x, zeroed m1 g x = if (g_paddr g + g_filesz g <=? x) && (x <? g_paddr g + g_memsz g) then 0 else m1 x).
  { intros x. unfold zeroed. unfold data_end in *. destruct (Z.gtb_spec (g_memsz g) (g_filesz g)).
    - rewrite u32_small by lia. rewrite stosb_spec by lia. unfold filled. replace (g_paddr g + g_filesz g + (g_memsz g - g_filesz g)) with (g_paddr g + g_memsz g) by lia. done.
    - destruct (Z.leb_spec (g_paddr g + g_filesz g) x), (Z.ltb_spec x (g_paddr g + g_memsz g)); cbn [andb]; done || lia. }
  unfold data_end in *. split; [split|].
  - intros i Hi. rewrite Hz, (proj2 (Z.leb_gt _ _)) by lia. cbn [andb]. rewrite Hc, (proj2 (Z.leb_le _ _)), (proj2 (Z.ltb_lt _ _)) by lia.
    cbn [andb]. f_equal. lia.
  - intros i Hi. rewrite Hz, (proj2 (Z.leb_le _ _)), (proj2 (Z.ltb_lt _ _)) by lia. done.
  - intros x Hx. unfold data_end in Hx. rewrite Hz, Hc. destruct (Z.leb_spec (g_paddr g + g_filesz g) x), (Z.ltb_spec x (g_paddr g + g_memsz g)),
      (Z.leb_spec (first g) x), (Z.ltb_spec x (read_end g)); cbn [andb]; try done; exfalso; lia.
Qed.
Lemma load_loop_step fuel p eph s : let g := seg_at image p in kernel_on (bhw s) -> headers (bmem s) -> 0 <= p -> p + PH <= PAGE ->
  elf + p < eph -> seg_ok g -> exists m d, load_loop (S fuel) (elf + p) eph s = load_loop fuel (elf + (p + PH)) eph (mkBoot m d) /\
    kernel_on d /\ headers m /\ filled_seg (bmem s) m g.
Proof using bytes.
  intros g Hk Hh Hp Hb He Hg. pose proof Hg as (H0 & H1 & H2 & H3). destruct (seg_range p) as (R1 & R2 & R3 & R4). fold g in R1, R2, R3, R4.
  cbn [load_loop]. rewrite (proj2 (Z.ltb_lt _ _)) by lia. erewrite bind_Ok; [|reflexivity]. cbv zeta.
  pose proof (header_seg (bmem s) p Hh Hp Hb) as Es. injection Es as E1 E2 E3 E4. rewrite E1, E2, E3. fold (g_off g) (g_paddr g) (g_filesz g).
  destruct (readseg_run (g_paddr g) (g_filesz g) (g_off g) s Hk R3 R1 H0 H1) as (m1 & d & Er & Hd & Hc).
  unfold g in Er. cbn [g_off g_paddr g_filesz seg_at] in Er. rewrite (bind_Ok _ _ _ _ _ Er). erewrite bind_Ok; [|reflexivity]. cbn [bmem].
  assert (Hh1 : headers m1).
  { intros i Hi. rewrite Hc, <- (Hh i Hi). fold (first g) (read_end g).
    destruct (Z.leb_spec (first g) (elf + i)), (Z.ltb_spec (elf + i) (read_end g)); cbn [andb]; done || lia. }
  pose proof (header_seg m1 p Hh1 Hp Hb) as Es1. injection Es1 as _ _ F3 F4. rewrite F3, F4.
  pose proof (zeroed_fills (bmem s) m1 p Hg Hc) as Hz. fold g in Hz. exists (zeroed m1 g), d. split; [|split; [done|split; [|done]]].
  - replace (u32 (elf + p + PH)) with (elf + (p + PH)) by (rewrite u32_small; unfold elf, PH, PAGE in *; lia).
    unfold zeroed. cbn [g seg_at g_memsz g_filesz g_paddr]. destruct (get32 image (p + 20) >? get32 image (p + 16)); (erewrite bind_Ok; [|reflexivity]); reflexivity.
  - destruct Hz as [_ Hz]. intros i Hi. rewrite Hz; [by apply Hh|]. lia.
Qed.
Lemma load_loop_run n : forall fuel p s, kernel_on (bhw s) -> headers (bmem s) -> (n < fuel)%nat -> 0 <= p -> p + PH * Z.of_nat n <= PAGE ->
  Forall seg_ok (segments p n) -> StronglySorted before (segments p n) ->
  exists m d, load_loop fuel (elf + p) (elf + p + PH * Z.of_nat n) s = Ok (tt, mkBoot m d) /\ headers m /\
    Forall (loaded m) (segments p n) /\ (forall x, Forall (fun g => x < first g) (segments p n) -> m x = bmem s x).
Proof using bytes.
  induction n as [|n IH]; intros [|fuel] p s Hk Hh Hf Hp Hb Hok Hs; try lia; cbn [segments] in *.
  - cbn [load_loop]. rewrite (proj2 (Z.ltb_ge _ _)) by lia. destruct s as [m d]. by exists m, d.
  - apply Forall_cons in Hok as [Hg Hok]. apply StronglySorted_inv in Hs as [Hs Hbef]. set (g := seg_at image p) in *. unfold PH in *.
    destruct (load_loop_step fuel p (elf + p + 32 * Z.of_nat (S n)) s Hk Hh Hp) as (m1 & d1 & E & Hd & Hh1 & Hl & Hfr); [unfold PH; lia | lia | done |].
    rewrite E. unfold PH. destruct (IH fuel (p + 32) (mkBoot m1 d1)) as (m & d & E2 & Hh2 & Hl2 & Hfr2); [done..|lia|lia|lia|done|done|].
    exists m, d. split; [rewrite <- E2; f_equal; lia|]. split; [done|]. cbn [bmem] in Hfr2.
    assert (Hkeep : forall x, x < data_end g -> m x = m1 x).
    { intros x Hx. apply Hfr2. eapply Forall_impl; [exact Hbef|]. unfold before. cbn. intros g' Hg'. lia. }
    split.
    + constructor; [|done]. destruct Hl as [L1 L2]. unfold data_end in Hkeep. split; intros i Hi; rewrite Hkeep by lia; auto.
    + intros x [Hx Hxs]%Forall_cons. rewrite Hfr2 by done. apply Hfr. by left.
Qed.

(** A kernel that the loader can load. *)
Record kernel_ok : Prop := mkKernel {
  ko_magic : get32 image 0 = ELF_MAGIC;
  ko_headers : get32 image 28 + PH * get16 image 44 <= PAGE;
  ko_segments : Forall seg_ok (segments (get32 image 28) (Z.to_nat (get16 image 44)));
  ko_order : StronglySorted before (segments (get32 image 28) (Z.to_nat (get16 image 44))) }.
Lemma read_headers s : kernel_on (bhw s) -> exists m d, readseg elf PAGE 0 s = Ok (tt, mkBoot m d) /\ kernel_on d /\ headers m.
Proof using bytes.
  intros Hk. destruct (readseg_run elf PAGE 0 s Hk) as (m & d & E & Hd & Hc); [done..|]. exists m, d. split; [done|]. split; [done|].
  intros i Hi. rewrite Hc. change (seg_first elf 0) with elf. change (seg_end elf PAGE 0) with (elf + PAGE).
  rewrite (proj2 (Z.leb_le _ _)), (proj2 (Z.ltb_lt _ _)) by lia. cbn [andb]. f_equal. lia.
Qed.
End Bytes.
End Loader.

(** C29 The boot loader loads the kernel.  From a disk that holds an ELF image
    from sector 1 on, [bootmain] returns to the boot sector when the image has
    another magic number; when its headers fit into the first page and its
    segments are in order and away from the headers, it calls the entry point
    of the image with every segment in memory: its bytes at its address, and
    zeros up to its size. *)
Theorem bootmain_loads `{Drive} image s : (forall x, 0 <= image x < 256) -> kernel_on image (bhw s) ->
  (get32 image 0 <> ELF_MAGIC -> exists s', bootmain s = Ok (None, s')) /\
  (kernel_ok image -> exists m d, bootmain s = Ok (Some (get32 image 24), mkBoot m d) /\
    Forall (loaded image m) (segments image (get32 image 28) (Z.to_nat (get16 image 44)))).
Proof.
  intros Hb Hk. destruct (read_headers image Hb s Hk) as (m & d & E & Hd & Hh). unfold bootmain. rewrite (bind_Ok _ _ _ _ _ E).
  erewrite bind_Ok; [|reflexivity]. cbn [bmem]. pose proof (header32 image m 0 Hh ltac:(lia) ltac:(done)) as E0. rewrite Z.add_0_r in E0. rewrite E0. split.
  - intros Hm. rewrite (proj2 (Z.eqb_neq _ _) Hm). by eexists.
  - intros [Hmag Hfit Hok Hord]. rewrite Hmag, Z.eqb_refl. cbn [negb]. cbv zeta. rewrite (header32 image m 28 Hh ltac:(lia) ltac:(done)).
    assert (E16 : get16 m (elf + 44) = get16 image 44) by (unfold get16; rewrite <- Z.add_assoc, !Hh by (unfold PAGE; lia); done). rewrite E16.
    pose proof (image32_range image Hb 28). assert (0 <= get16 image 44) by (unfold get16; pose proof (Hb 44); pose proof (Hb (44 + 1)); lia).
    rewrite !(u32_small (elf + get32 image 28)) by (unfold elf, PAGE, PH in *; lia). rewrite u32_small by (unfold elf, PAGE, PH in *; lia).
    destruct (load_loop_run image Hb (Z.to_nat (get16 image 44)) (S (Z.to_nat (get16 image 44))) (get32 image 28) (mkBoot m d))
      as (m' & d' & E' & Hh' & Hl & _); [done..|lia|lia|rewrite Z2Nat.id by lia; done|done|done|].
    rewrite Z2Nat.id in E' by lia. rewrite (bind_Ok _ _ _ _ _ E'). erewrite bind_Ok; [|reflexivity]. cbn [bmem]. exists m', d'.
    rewrite (header32 image m' 24 Hh' ltac:(lia) ltac:(done)). done.
Qed.

(** A kernel of one segment, three bytes and two zeros at one megabyte. *)
Definition tiny : mem :=
  let m := put32 (put32 (put32 (fun _ => 0) 0 ELF_MAGIC) 24 0x100000) 28 52 in
  let m := put32 (put32 (upd m 44 1) (52 + 4) 600) (52 + 12) 0x100000 in
  put_bytes (put32 (put32 m (52 + 16) 3) (52 + 20) 5) 600 [7; 8; 9].
Definition tiny_start : @boot (slow_drive no_bad) :=
  @mkBoot (slow_drive no_bad) (fun _ => 255) (mkSlow (fun _ => 0) None (fun _ l => words_from tiny (512 * (l - 1)) 128) 2).
Lemma bytes_upd m a v : (forall x, 0 <= m x < 256) -> 0 <= v < 256 -> forall x, 0 <= upd m a v x < 256.
Proof. intros H Hv x. unfold upd. by destruct (x =? a). Qed.
Lemma tiny_bytes x : 0 <= tiny x < 256.
Proof. revert x. unfold tiny, put32, put_word, put_bytes. repeat (apply bytes_upd; [|by vm_compute]). done. Qed.
Lemma tiny_ok : kernel_ok tiny.
Proof.
  assert (E : segments tiny (get32 tiny 28) (Z.to_nat (get16 tiny 44)) = [mkSeg 600 0x100000 3 5]) by (vm_compute; reflexivity).
  split; [by vm_compute | by vm_compute | rewrite E | rewrite E; repeat constructor].
  constructor; [|done]. unfold seg_ok. split_and!; [by vm_compute..|]. right. by vm_compute.
Qed.
Lemma bootmain_loads_witness : exists m d, @bootmain (slow_drive no_bad) tiny_start = Ok (Some 0x100000, @mkBoot (slow_drive no_bad) m d) /\
  loaded tiny m (mkSeg 600 0x100000 3 5).
Proof.
  destruct (@bootmain_loads (slow_drive no_bad) tiny tiny_start tiny_bytes) as [_ H].
  { intros k Hk. cbn [tiny_start bhw slow_drive media sl_media]. f_equal. unfold SECTSIZE. lia. }
  destruct (H tiny_ok) as (m & d & E & Hl). exists m, d. split; [exact E|]. exact (Forall_inv Hl).
Defined.
