(* ===== verification/Devices.v ===== *)
(** * Devices: interrupt routing and the clock (src/src/ioapic.c, src/src/picirq.c, src/src/lapic.c)

    The chips are hardware.  The I/O APIC is behind the interface [Ioapic],
    whose laws say that a register holds what was written; the clock is what
    its registers show at each read. *)
From S2P Require Import Prelude CString.

Definition REG_ID : Z := 0x00.
Definition REG_VER : Z := 0x01.
Definition REG_TABLE : Z := 0x10.
Definition INT_DISABLED : Z := 0x00010000.
Definition T_IRQ0 : Z := 32.
(** Bits of a table entry that the chip sets itself. *)
Definition STATUS_BITS : Z := 0x5000.

(** ** The I/O APIC *)
Class Ioapic := {
  chip : Type;
  ioapic_read : Z -> chip -> Z;
  ioapic_write : Z -> Z -> chip -> chip;
  read_written r v c : REG_TABLE <= r -> Z.land v STATUS_BITS = 0 -> ioapic_read r (ioapic_write r v c) = v;
  read_other r r' v c : r' <> r -> ioapic_read r' (ioapic_write r v c) = ioapic_read r' c }.

Section Routing.
Context `{Ioapic}.
Definition ioapicread (reg : Z) : M chip Z := gets (ioapic_read reg).
Definition ioapicwrite (reg data : Z) : M chip unit := modify (ioapic_write reg data).
(** The loop of [ioapicinit] (lines 64-67), [n] rounds left. *)
Fixpoint mask_loop (n : nat) (i : Z) : M chip unit :=
  match n with
  | O => ret tt
  | S n =>
      ioapicwrite (REG_TABLE + 2 * i) (Z.lor INT_DISABLED (T_IRQ0 + i)) ;;;
      ioapicwrite (REG_TABLE + 2 * i + 1) 0 ;;;
      mask_loop n (i + 1)
  end.
(** Whether a warning is printed. *)
Definition ioapicinit (ismp : bool) (ioapicid : Z) : M chip bool :=
  if negb ismp then ret false
  else
    v <- ioapicread REG_VER ;;
    let maxintr := Z.land (Z.shiftr v 16) 0xFF in
    w <- ioapicread REG_ID ;;
    let id := Z.shiftr w 24 in
    mask_loop (Z.to_nat (maxintr + 1)) 0 ;;;
    ret (negb (id =? ioapicid)).
Definition ioapicenable (ismp : bool) (irq cpunum : Z) : M chip unit :=
  if negb ismp then ret tt
  else
    ioapicwrite (REG_TABLE + 2 * irq) (T_IRQ0 + irq) ;;;
    ioapicwrite (REG_TABLE + 2 * irq + 1) (u32 (Z.shiftl cpunum 24)).
Fixpoint enable_all (l : list (Z * Z)) : M chip unit :=
  match l with [] => ret tt | (irq, cpu) :: l => ioapicenable true irq cpu ;;; enable_all l end.

(** A line is masked, or is delivered to a processor as vector [T_IRQ0] plus
    its number. *)
Definition routed (c : chip) (irq : Z) (to : option Z) : Prop :=
  ioapic_read (REG_TABLE + 2 * irq) c = (match to with Some _ => T_IRQ0 + irq | None => Z.lor INT_DISABLED (T_IRQ0 + irq) end) /\
  ioapic_read (REG_TABLE + 2 * irq + 1) c = (match to with Some cpu => Z.shiftl cpu 24 | None => 0 end).
(** The last processor a line was given to. *)
Fixpoint route (l : list (Z * Z)) (irq : Z) (to : option Z) : option Z :=
  match l with [] => to | (i, cpu) :: l => route l irq (if i =? irq then Some cpu else to) end.

Lemma status_clear i : 0 <= i <= 255 -> Z.land (T_IRQ0 + i) STATUS_BITS = 0 /\ Z.land (Z.lor INT_DISABLED (T_IRQ0 + i)) STATUS_BITS = 0.
Proof using.
  intros Hi. assert (Hall : Forall (fun i => Z.land (T_IRQ0 + i) STATUS_BITS = 0 /\ Z.land (Z.lor INT_DISABLED (T_IRQ0 + i)) STATUS_BITS = 0) (seqZ 0 256)).
  { apply Forall_forall. intros j Hj. revert j Hj. apply Forall_forall. repeat (constructor; [split; reflexivity|]). constructor. }
  apply (proj1 (Forall_forall _ _) Hall). apply elem_of_seqZ. lia.
Qed.
Lemma cpu_clear cpu : 0 <= cpu < 256 -> u32 (Z.shiftl cpu 24) = Z.shiftl cpu 24 /\ Z.land (Z.shiftl cpu 24) STATUS_BITS = 0.
Proof using.
  intros Hc. rewrite Z.shiftl_mul_pow2 by lia. split; [apply u32_small; lia|]. rewrite <- Z.shiftl_mul_pow2 by lia.
  change STATUS_BITS with (Z.land (Z.ones 24) STATUS_BITS). rewrite Z.land_assoc. replace (Z.land (Z.shiftl cpu 24) (Z.ones 24)) with 0; [done|].
  rewrite Z.land_ones, Z.shiftl_mul_pow2 by lia. by rewrite Z.mod_mul.
Qed.
(** Two writes to the entry of a line. *)
Lemma entry_written c irq a b : 0 <= irq -> Z.land a STATUS_BITS = 0 -> Z.land b STATUS_BITS = 0 ->
  let c' := ioapic_write (REG_TABLE + 2 * irq + 1) b (ioapic_write (REG_TABLE + 2 * irq) a c) in
  ioapic_read (REG_TABLE + 2 * irq) c' = a /\ ioapic_read (REG_TABLE + 2 * irq + 1) c' = b /\
  forall j, j <> irq -> ioapic_read (REG_TABLE + 2 * j) c' = ioapic_read (REG_TABLE + 2 * j) c /\
    ioapic_read (REG_TABLE + 2 * j + 1) c' = ioapic_read (REG_TABLE + 2 * j + 1) c.
Proof using.
  intros Hi Ha Hb c'. unfold c'. split; [rewrite read_other by lia; apply read_written; [lia|done]|]. split; [apply read_written; [lia|done]|].
  intros j Hj. by rewrite !read_other by lia.
Qed.
Lemma mask_loop_run n : forall i c, 0 <= i -> i + Z.of_nat n <= 256 -> exists c', mask_loop n i c = Ok (tt, c') /\
  (forall j, i <= j < i + Z.of_nat n -> routed c' j None) /\ (forall j to, j < i -> routed c j to -> routed c' j to).
Proof using.
  induction n as [|n IH]; intros i c Hi Hn; cbn [mask_loop]; [exists c; split; [done|]; split; [lia|done]|].
  do 2 (erewrite bind_Ok; [|reflexivity]).
  destruct (entry_written c i (Z.lor INT_DISABLED (T_IRQ0 + i)) 0 Hi) as (W1 & W2 & W3); [apply status_clear; lia | done |]. cbv zeta in *.
  set (c1 := ioapic_write _ 0 _) in *. destruct (IH (i + 1) c1) as (c' & E & H1 & H2); [lia..|]. exists c'. split; [exact E|]. split.
  - intros j Hj. destruct (decide (j = i)) as [->|Hne]; [apply H2; [lia|done] | apply H1; lia].
  - intros j to Hj Hr. apply H2; [lia|]. unfold routed. destruct (W3 j ltac:(lia)) as [-> ->]. exact Hr.
Qed.
Lemma enable_run l : forall c, Forall (fun p => 0 <= p.1 <= 255 /\ 0 <= p.2 < 256) l ->
  exists c', enable_all l c = Ok (tt, c') /\ forall irq to, routed c irq to -> routed c' irq (route l irq to).
Proof using.
  induction l as [|[i cpu] l IH]; intros c Hl; cbn [enable_all route]; [by exists c|]. apply Forall_cons in Hl as [[Hi Hc] Hl]. cbn [fst snd] in *.
  unfold ioapicenable. cbn [negb]. rewrite bind_assoc. do 2 (erewrite bind_Ok; [|reflexivity]). destruct (cpu_clear cpu Hc) as [-> Hcl].
  destruct (entry_written c i (T_IRQ0 + i) (Z.shiftl cpu 24)) as (W1 & W2 & W3); [lia | apply status_clear; lia | done |]. cbv zeta in *.
  set (c1 := ioapic_write _ (Z.shiftl cpu 24) _) in *. destruct (IH c1 Hl) as (c' & E & Hr). exists c'. split; [exact E|].
  intros irq to H0. apply Hr. destruct (Z.eqb_spec i irq) as [->|Hne]; [done|]. unfold routed. destruct (W3 irq ltac:(lia)) as [-> ->]. exact H0.
Qed.
(** Interrupts are routed as asked.  After [ioapicinit] and any calls of
    [ioapicenable] every line of the chip is delivered to the processor it was
    last given to, as the vector that [trap] expects for it, and a line that
    was not enabled is masked. *)
Theorem irq_routing ioapicid l c : Forall (fun p => 0 <= p.1 <= 255 /\ 0 <= p.2 < 256) l ->
  exists warned c1 c2, ioapicinit true ioapicid c = Ok (warned, c1) /\ enable_all l c1 = Ok (tt, c2) /\
    forall irq, 0 <= irq <= Z.land (Z.shiftr (ioapic_read REG_VER c) 16) 0xFF -> routed c2 irq (route l irq None).
Proof using.
  intros Hl. unfold ioapicinit. cbn [negb]. do 2 (erewrite bind_Ok; [|reflexivity]). cbv zeta. set (n := Z.land _ 0xFF).
  assert (Hn : 0 <= n < 256) by (unfold n; change 0xFF with (Z.ones 8); rewrite Z.land_ones by lia; apply Z.mod_pos_bound; lia).
  destruct (mask_loop_run (Z.to_nat (n + 1)) 0 c) as (c1 & E1 & H1 & _); [lia..|]. rewrite (bind_Ok _ _ _ _ _ E1).
  destruct (enable_run l c1 Hl) as (c2 & E2 & H2). do 3 eexists. split; [reflexivity|]. split; [exact E2|].
  intros irq Hirq. apply H2, H1. lia.
Qed.
End Routing.
(** A chip with 24 lines. *)
#[export] Program Instance plain_ioapic : Ioapic :=
  {| chip := Z -> Z; ioapic_read := fun r c => c r; ioapic_write := fun r v c => upd c r v |}.
Next Obligation. intros r v c _ _. apply upd_eq. Qed.
Next Obligation. intros r r' v c Hr. cbv beta. by apply (upd_ne c). Qed.
(** The lines of the keyboard and of the disk. *)
Lemma irq_routing_witness : exists warned c1 c2,
  @ioapicinit plain_ioapic true 0 (upd (fun _ => 0) REG_VER 0x170000) = Ok (warned, c1) /\ enable_all [(1, 0); (14, 3)] c1 = Ok (tt, c2) /\
  routed c2 1 (Some 0) /\ routed c2 14 (Some 3) /\ routed c2 4 None.
Proof.
  destruct (@irq_routing plain_ioapic 0 [(1, 0); (14, 3)] (upd (fun _ => 0) REG_VER 0x170000)) as (w & c1 & c2 & E1 & E2 & Hr); [by repeat constructor|].
  exists w, c1, c2. split; [exact E1|]. split; [exact E2|]. change (Z.land _ 0xFF) with 23 in Hr. split_and!; apply Hr; lia.
Defined.

(** ** The two 8259A controllers *)
Definition IO_PIC1 : Z := 0x20.
Definition IO_PIC2 : Z := 0xA0.
Definition IRQ_SLAVE : Z := 2.
(** The mask and the bytes written to ports, in order. *)
Record pic := mkPic { irqmask : Z; ports : list (Z * Z) }.
Definition pic_start : pic := mkPic (Z.land 0xFFFF (u32 (Z.lnot (Z.shiftl 1 IRQ_SLAVE)))) [].
Definition pic_outb (port v : Z) : M pic unit := modify (fun s => mkPic (irqmask s) (ports s ++ [(port, u8 v)])).
Definition picsetmask (mask : Z) : M pic unit :=
  let mask := u16 mask in
  modify (fun s => mkPic mask (ports s)) ;;;
  pic_outb (IO_PIC1 + 1) mask ;;;
  pic_outb (IO_PIC2 + 1) (Z.shiftr mask 8).
Definition picenable (irq : Z) : M pic unit :=
  s <- get ;;
  picsetmask (Z.land (irqmask s) (Z.lnot (Z.shiftl 1 irq))).
Definition picinit : M pic unit :=
  pic_outb (IO_PIC1 + 1) 0xFF ;;;
  pic_outb (IO_PIC2 + 1) 0xFF ;;;
  pic_outb IO_PIC1 0x11 ;;;
  pic_outb (IO_PIC1 + 1) T_IRQ0 ;;;
  pic_outb (IO_PIC1 + 1) (Z.shiftl 1 IRQ_SLAVE) ;;;
  pic_outb (IO_PIC1 + 1) 0x3 ;;;
  pic_outb IO_PIC2 0x11 ;;;
  pic_outb (IO_PIC2 + 1) (T_IRQ0 + 8) ;;;
  pic_outb (IO_PIC2 + 1) IRQ_SLAVE ;;;
  pic_outb (IO_PIC2 + 1) 0x3 ;;;
  pic_outb IO_PIC1 0x68 ;;;
  pic_outb IO_PIC1 0x0a ;;;
  pic_outb IO_PIC2 0x68 ;;;
  pic_outb IO_PIC2 0x0a ;;;
  s <- get ;;
  when negb (irqmask s =? 0xFFFF) do picsetmask (irqmask s).
(** The timer: 100 interrupts a second. *)
Definition IO_TIMER1 : Z := 0x040.
Definition TIMER_FREQ : Z := 1193182.
Definition TIMER_DIV (x : Z) : Z := (TIMER_FREQ + x / 2) / x.
Definition timerinit : M pic unit :=
  pic_outb (IO_TIMER1 + 3) (Z.lor (Z.lor 0x00 0x04) 0x30) ;;;
  pic_outb IO_TIMER1 (TIMER_DIV 100 mod 256) ;;;
  pic_outb IO_TIMER1 (TIMER_DIV 100 / 256) ;;;
  picenable 0.

(** The last byte written to a port. *)
Definition last_out (s : pic) (port : Z) : option Z := snd <$> last (filter (fun p => p.1 = port) (ports s)).
(** The mask registers of the chips hold the mask. *)
Definition pic_ok (s : pic) : Prop :=
  0 <= irqmask s < 2 ^ 16 /\ last_out s (IO_PIC1 + 1) = Some (irqmask s mod 256) /\ last_out s (IO_PIC2 + 1) = Some (irqmask s / 256).
Lemma last_out_snoc s port v p : last_out (mkPic (irqmask s) (ports s ++ [(p, v)])) port = if p =? port then Some v else last_out s port.
Proof.
  unfold last_out. cbn [ports]. rewrite filter_app, filter_cons, filter_nil. cbn [fst]. destruct (Z.eqb_spec p port) as [->|Hne].
  - rewrite decide_True by done. by rewrite last_snoc.
  - rewrite decide_False by done. by rewrite app_nil_r.
Qed.
Lemma picsetmask_run mask s : exists s', picsetmask mask s = Ok (tt, s') /\ irqmask s' = u16 mask /\ pic_ok s'.
Proof.
  eexists. split; [reflexivity|]. split; [done|]. assert (Hm : 0 <= u16 mask < 2 ^ 16) by (apply Z.mod_pos_bound; lia). split; [exact Hm|].
  set (s1 := mkPic (u16 mask) (ports s)). change (mkPic _ (ports s ++ _)) with (mkPic (irqmask s1) (ports s1 ++ [(IO_PIC1 + 1, u8 (u16 mask))])).
  set (s2 := mkPic (irqmask s1) (ports s1 ++ [(IO_PIC1 + 1, u8 (u16 mask))])).
  change (mkPic _ (ports s2 ++ _)) with (mkPic (irqmask s2) (ports s2 ++ [(IO_PIC2 + 1, u8 (Z.shiftr (u16 mask) 8))])).
  rewrite !last_out_snoc. change (IO_PIC2 + 1 =? IO_PIC1 + 1) with false. rewrite Z.eqb_refl. unfold s2. rewrite last_out_snoc, Z.eqb_refl.
  unfold s1. cbn [irqmask]. split; [done|]. f_equal. unfold u8. rewrite Z.shiftr_div_pow2 by lia. change (2 ^ 8) with 256.
  apply Z.mod_small. revert Hm. generalize (u16 mask). intros z Hm. split; [apply Z.div_pos; lia | apply Z.div_lt_upper_bound; lia].
Qed.
(** [picenable] opens its line and no other, in the mask and in the chips. *)
Lemma picenable_run irq s : 0 <= irq < 16 -> pic_ok s -> exists s', picenable irq s = Ok (tt, s') /\ pic_ok s' /\
  forall i, 0 <= i < 16 -> Z.testbit (irqmask s') i = Z.testbit (irqmask s) i && negb (i =? irq).
Proof.
  intros Hi Hs. unfold picenable. erewrite bind_Ok; [|reflexivity].
  destruct (picsetmask_run (Z.land (irqmask s) (Z.lnot (Z.shiftl 1 irq))) s) as (s' & E & Em & Hok). exists s'. split; [exact E|]. split; [done|].
  intros i Hr. rewrite Em. unfold u16. rewrite Z.mod_pow2_bits_low, Z.land_spec, Z.lnot_spec, Z.shiftl_1_l, Z.pow2_bits_eqb by lia.
  by rewrite (Z.eqb_sym irq i).
Qed.
Lemma picinit_run s : irqmask s = 0xFFFB -> exists s', picinit s = Ok (tt, s') /\ irqmask s' = 0xFFFB /\ pic_ok s'.
Proof.
  intros Hm. unfold picinit. do 14 (erewrite bind_Ok; [|reflexivity]). erewrite bind_Ok; [|reflexivity]. cbn [irqmask]. rewrite Hm.
  exact (picsetmask_run 0xFFFB _).
Qed.
Fixpoint pic_enable_all (l : list Z) : M pic unit := match l with [] => ret tt | irq :: l => picenable irq ;;; pic_enable_all l end.
(** The 8259A mask.  After [picinit] and any calls of [picenable] exactly
    the enabled lines and the one of the second chip are open, and the mask
    registers of both chips hold the mask of the kernel. *)
Theorem pic_lines_open l : Forall (fun irq => 0 <= irq < 16) l ->
  exists s, (picinit ;;; pic_enable_all l) pic_start = Ok (tt, s) /\ pic_ok s /\
    forall i, 0 <= i < 16 -> Z.testbit (irqmask s) i = negb (bool_decide (i ∈ l) || (i =? IRQ_SLAVE)).
Proof.
  intros Hl. destruct (picinit_run pic_start eq_refl) as (s & E & Em & Hok). rewrite (bind_Ok _ _ _ _ _ E). clear E.
  assert (Hgen : forall l s, Forall (fun irq => 0 <= irq < 16) l -> pic_ok s -> exists s', pic_enable_all l s = Ok (tt, s') /\ pic_ok s' /\
    forall i, 0 <= i < 16 -> Z.testbit (irqmask s') i = Z.testbit (irqmask s) i && negb (bool_decide (i ∈ l))).
  { clear. induction l as [|irq l IH]; intros s Hl Hok; cbn [pic_enable_all].
    - exists s. split; [done|]. split; [done|]. intros i _. by rewrite bool_decide_false, andb_true_r by apply not_elem_of_nil.
    - apply Forall_cons in Hl as [Hi Hl]. destruct (picenable_run irq s Hi Hok) as (s1 & E1 & Hok1 & B1). rewrite (bind_Ok _ _ _ _ _ E1).
      destruct (IH s1 Hl Hok1) as (s2 & E2 & Hok2 & B2). exists s2. split; [done|]. split; [done|]. intros i Hr. rewrite B2, B1 by done.
      rewrite <- andb_assoc. f_equal. destruct (Z.eqb_spec i irq), (bool_decide_reflect (i ∈ l)), (bool_decide_reflect (i ∈ irq :: l)); cbn; set_solver. }
  destruct (Hgen l s Hl Hok) as (s' & E & Hok' & Hb). exists s'. split; [done|]. split; [done|]. intros i Hi. rewrite Hb, Em by done.
  assert (Hall : Forall (fun i => Z.testbit 0xFFFB i = negb (i =? IRQ_SLAVE)) (seqZ 0 16)) by (repeat constructor).
  rewrite (proj1 (Forall_forall _ _) Hall i) by (apply elem_of_seqZ; lia). by destruct (bool_decide (i ∈ l)), (i =? IRQ_SLAVE).
Qed.

(** ** The clock *)
Record rtcdate := mkDate { second : Z; minute : Z; hour : Z; day : Z; month : Z; year : Z }.
#[export] Instance rtcdate_eq : EqDecision rtcdate.
Proof. solve_decision. Defined.
Definition CMOS_STATA : Z := 0x0a.
Definition CMOS_STATB : Z := 0x0b.
Definition CMOS_UIP : Z := Z.shiftl 1 7.
Definition SECS : Z := 0x00.
Definition MINS : Z := 0x02.
Definition HOURS : Z := 0x04.
Definition DAY : Z := 0x07.
Definition MONTH : Z := 0x08.
Definition YEAR : Z := 0x09.
Definition conv (x : Z) : Z := Z.shiftr x 4 * 10 + Z.land x 0xf.
Definition conv_date (t : rtcdate) : rtcdate :=
  mkDate (conv (second t)) (conv (minute t)) (conv (hour t)) (conv (day t)) (conv (month t)) (conv (year t)).

Section Clock.
(** What a register shows at the [i]-th read; the state counts the reads. *)
Context (show : nat -> Z -> Z).
Definition cmos_read (reg : Z) : M nat Z :=
  i <- get ;;
  put (S i) ;;;
  ret (show i reg).
Definition fill_rtcdate : M nat rtcdate :=
  s <- cmos_read SECS ;; m <- cmos_read MINS ;; h <- cmos_read HOURS ;;
  d <- cmos_read DAY ;; mo <- cmos_read MONTH ;; y <- cmos_read YEAR ;;
  ret (mkDate s m h d mo y).
(** The loop of lines 214-221. *)
Fixpoint cmos_loop (fuel : nat) : M nat rtcdate :=
  match fuel with
  | O => out_of_fuel
  | S fuel =>
      t1 <- fill_rtcdate ;;
      a <- cmos_read CMOS_STATA ;;
      if negb (Z.land a CMOS_UIP =? 0) then cmos_loop fuel
      else
        t2 <- fill_rtcdate ;;
        if bool_decide (t1 = t2) then ret t1 else cmos_loop fuel
  end.
Definition cmostime (fuel : nat) : M nat rtcdate :=
  sb <- cmos_read CMOS_STATB ;;
  let bcd := Z.land sb (Z.shiftl 1 2) =? 0 in
  t1 <- cmos_loop fuel ;;
  let t1 := if bcd then conv_date t1 else t1 in
  ret (mkDate (second t1) (minute t1) (hour t1) (day t1) (month t1) (year t1 + 2000)).

(** *** What the clock does *)

(** The date at each read, whether it is stored as binary-coded decimals, and
    whether an update is in progress. *)
Context (date : nat -> rtcdate) (bcd : bool) (uip : nat -> bool).
Definition enc (x : Z) : Z := if bcd then 16 * (x / 10) + x mod 10 else x.
Definition two_digits (x : Z) : Prop := 0 <= x < 100.
Record clock_ok : Prop := mkClock {
  ck_digits i : two_digits (second (date i)) /\ two_digits (minute (date i)) /\ two_digits (hour (date i)) /\
    two_digits (day (date i)) /\ two_digits (month (date i)) /\ two_digits (year (date i) - 2000);
  ck_date i : show i SECS = enc (second (date i)) /\ show i MINS = enc (minute (date i)) /\ show i HOURS = enc (hour (date i)) /\
    show i DAY = enc (day (date i)) /\ show i MONTH = enc (month (date i)) /\ show i YEAR = enc (year (date i) - 2000);
  ck_format i : (Z.land (show i CMOS_STATB) (Z.shiftl 1 2) =? 0) = bcd;
  ck_uip i : (Z.land (show i CMOS_STATA) CMOS_UIP =? 0) = negb (uip i);
  (** One tick at most during 13 reads, and it changes the second. *)
  ck_tick i : exists j, (forall k, (i <= k < j)%nat -> date k = date i) /\
    (forall k, (j <= k <= i + 13)%nat -> date k = date (i + 13)%nat) /\
    (date (i + 13)%nat <> date i -> second (date (i + 13)%nat) <> second (date i)) }.
Hypothesis clock : clock_ok.

Definition raw (t : rtcdate) : rtcdate :=
  mkDate (enc (second t)) (enc (minute t)) (enc (hour t)) (enc (day t)) (enc (month t)) (enc (year t - 2000)).
Lemma conv_enc x : two_digits x -> (if bcd then conv (enc x) else enc x) = x.
Proof using.
  unfold two_digits, enc, conv. intros Hx. destruct bcd; [|done]. rewrite Z.shiftr_div_pow2 by lia. change 0xf with (Z.ones 4).
  rewrite Z.land_ones by lia. Z.to_euclidean_division_equations. lia.
Qed.
Lemma enc_inj x y : two_digits x -> two_digits y -> enc x = enc y -> x = y.
Proof using. intros Hx Hy E. rewrite <- (conv_enc x Hx), <- (conv_enc y Hy). by rewrite E. Qed.
(** A date is read over six reads. *)
Lemma fill_run i : fill_rtcdate i = Ok (mkDate (show i SECS) (show (i + 1)%nat MINS) (show (i + 2)%nat HOURS) (show (i + 3)%nat DAY)
  (show (i + 4)%nat MONTH) (show (i + 5)%nat YEAR), (i + 6)%nat).
Proof using.
  replace (i + 1)%nat with (S i) by lia. replace (i + 2)%nat with (S (S i)) by lia. replace (i + 3)%nat with (S (S (S i))) by lia.
  replace (i + 4)%nat with (S (S (S (S i)))) by lia. replace (i + 5)%nat with (S (S (S (S (S i))))) by lia.
  replace (i + 6)%nat with (S (S (S (S (S (S i)))))) by lia. reflexivity.
Qed.
Lemma fill_raw i t : (forall k, (i <= k <= i + 5)%nat -> date k = t) -> fill_rtcdate i = Ok (raw t, (i + 6)%nat).
Proof using clock.
  intros Hd. rewrite fill_run. destruct (ck_date clock i) as (-> & _), (ck_date clock (i + 1)%nat) as (_ & -> & _),
    (ck_date clock (i + 2)%nat) as (_ & _ & -> & _), (ck_date clock (i + 3)%nat) as (_ & _ & _ & -> & _),
    (ck_date clock (i + 4)%nat) as (_ & _ & _ & _ & -> & _), (ck_date clock (i + 5)%nat) as (_ & _ & _ & _ & _ & ->).
  rewrite !Hd by lia. done.
Qed.
(** Two equal readings are the date at the first read. *)
Lemma readings_agree i t1 t2 : fill_rtcdate i = Ok (t1, (i + 6)%nat) -> fill_rtcdate (i + 7)%nat = Ok (t2, (i + 13)%nat) -> t1 = t2 -> t1 = raw (date i).
Proof using clock.
  intros E1 E2 ->. destruct (ck_tick clock i) as (j & Hb & Ha & Hs). destruct (decide (i + 5 < j)%nat) as [Hj|Hj].
  { rewrite (fill_raw i (date i)) in E1; [congruence|]. intros k Hk. apply Hb. lia. }
  assert (Hsame : date (i + 13)%nat = date i).
  { destruct (decide (date (i + 13)%nat = date i)) as [E|Hne]; [done|]. exfalso. apply (Hs Hne).
    rewrite fill_run in E1, E2. injection E1 as E1. injection E2 as E2 _. rewrite <- E1 in E2. injection E2 as E2 _ _ _ _ _.
    destruct (ck_date clock i) as (Q1 & _), (ck_date clock (i + 7)%nat) as (Q2 & _). rewrite Q1, Q2, (Ha (i + 7)%nat) in E2 by lia.
    destruct (ck_digits clock i) as (D1 & _), (ck_digits clock (i + 13)%nat) as (D2 & _). by apply enc_inj. }
  rewrite (fill_raw i (date i)) in E1; [congruence|]. intros k Hk. destruct (decide (k < j)%nat); [apply Hb; lia|]. rewrite Ha by lia. done.
Qed.
(** From read [q] on nothing happens for two rounds. *)
Definition quiet (q : nat) : Prop := forall k, (q <= k <= q + 26)%nat -> date k = date q /\ uip k = false.
Lemma cmos_loop_run q : quiet q -> forall fuel i, (i <= q + 13)%nat -> (q + 2 - i <= fuel)%nat -> (0 < fuel)%nat ->
  exists k i', cmos_loop fuel i = Ok (raw (date k), i') /\ (i <= k < i')%nat.
Proof using clock.
  intros Hq. induction fuel as [|fuel IH]; intros i Hi Hf Hp; [lia|]. cbn [cmos_loop].
  assert (Hnext : forall i', (i + 7 <= i' <= i + 13)%nat -> (i <= q)%nat ->
    exists k j, cmos_loop fuel i' = Ok (raw (date k), j) /\ (i <= k < j)%nat).
  { intros i' H1 H2. destruct (IH i') as (k & j & E & Hk); [lia..|]. exists k, j. split; [done | lia]. }
  pose proof (fill_run i) as E1. rewrite (bind_Ok _ _ _ _ _ E1). erewrite bind_Ok; [|reflexivity]. rewrite (ck_uip clock), negb_involutive.
  set (t1 := mkDate (show i SECS) _ _ _ _ _) in *. clearbody t1. destruct (uip (i + 6)%nat) eqn:Eu.
  { destruct (decide (i <= q)%nat); [apply Hnext; lia|]. destruct (Hq (i + 6)%nat) as [_ Hu]; [lia|congruence]. }
  pose proof (fill_run (i + 7)%nat) as E2. replace (S (i + 6)) with (i + 7)%nat by lia. rewrite (bind_Ok _ _ _ _ _ E2).
  replace (i + 7 + 6)%nat with (i + 13)%nat in * by lia. set (t2 := mkDate _ _ _ _ _ _) in *. clearbody t2. destruct (bool_decide_reflect (t1 = t2)) as [E|Hne].
  - exists i, (i + 13)%nat. split; [|lia]. unfold ret. by rewrite (readings_agree i t1 t2 E1 E2 E).
  - destruct (decide (i <= q)%nat); [apply Hnext; lia|]. destruct Hne.
    rewrite (fill_raw i (date q)) in E1 by (intros; apply Hq; lia). rewrite (fill_raw (i + 7)%nat (date q)) in E2 by (intros; apply Hq; lia).
    injection E1 as <-. injection E2 as <- _. done.
Qed.

(** [cmostime] tells the time.  On a clock that ticks at most once during
    the reads of a round, it returns as soon as no tick comes for two
    rounds, and the date it returns is the date of the clock at one of its
    reads, however ticks fall between the reads of the registers, for clocks
    that count in binary and in decimal digits. *)
Theorem cmostime_tells_time q i fuel : quiet q -> (i < q)%nat -> (q + 2 - i <= fuel)%nat ->
  exists k i', cmostime fuel i = Ok (date k, i') /\ (i < k < i')%nat.
Proof using clock.
  intros Hq Hi Hf. destruct (cmos_loop_run q Hq fuel (S i)) as (k & i' & E & Hk); [lia..|]. exists k, i'. split; [|lia].
  unfold cmostime. erewrite bind_Ok; [|reflexivity]. cbv zeta. rewrite (bind_Ok _ _ _ _ _ E), (ck_format clock).
  destruct (ck_digits clock k) as (D1 & D2 & D3 & D4 & D5 & D6). unfold ret. f_equal. f_equal. destruct (date k) as [s m h d mo y]. cbn [second minute hour day month year raw] in *.
  pose proof (conv_enc s D1). pose proof (conv_enc m D2). pose proof (conv_enc h D3). pose proof (conv_enc d D4). pose proof (conv_enc mo D5). pose proof (conv_enc (y - 2000) D6).
  destruct bcd; cbn [conv_date second minute hour day month year raw] in *; f_equal; lia || congruence.
Qed.
End Clock.

(** A clock that goes from 23:59:59 to midnight during the first reading. *)
Definition midnight (i : nat) : rtcdate := if (i <? 4)%nat then mkDate 59 59 23 31 12 2015 else mkDate 0 0 0 1 1 2016.
Definition midnight_shows (i : nat) (reg : Z) : Z :=
  let t := midnight i in
  if reg =? SECS then enc true (second t) else if reg =? MINS then enc true (minute t) else if reg =? HOURS then enc true (hour t)
  else if reg =? DAY then enc true (day t) else if reg =? MONTH then enc true (month t) else if reg =? YEAR then enc true (year t - 2000)
  else 0.
Lemma midnight_ok : clock_ok midnight_shows midnight true (fun _ => false).
Proof.
  split; try done.
  - intros i. unfold midnight, two_digits. by destruct (i <? 4)%nat; cbn.
  - intros i. exists 4%nat. unfold midnight. destruct (Nat.ltb_spec (i + 13) 4); [lia|]. split; [|split].
    + intros k Hk. destruct (Nat.ltb_spec k 4), (Nat.ltb_spec i 4); done || lia.
    + intros k Hk. destruct (Nat.ltb_spec k 4); [lia | done].
    + by destruct (Nat.ltb_spec i 4).
Qed.
Lemma cmostime_tells_time_witness : exists k i', cmostime midnight_shows 20 0%nat = Ok (midnight k, i') /\ (0 < k < i')%nat.
Proof.
  apply (cmostime_tells_time midnight_shows midnight true (fun _ => false) midnight_ok 10 0 20); [|lia|lia].
  intros k Hk. split; [|done]. unfold midnight. destruct (Nat.ltb_spec k 4); [lia | done].
Defined.
