(* ===== verification/Grep.v ===== *)
(** * Grep: the regular expression matcher (src/src/grep.c), and the reads of
    grep.c and src/src/wc.c

    A pattern and a text are their characters before the NUL.  The matcher is
    compared with the language the pattern denotes. *)
From S2P Require Import Prelude CString.

Definition c_star : Z := 42.
Definition c_dot : Z := 46.
Definition c_dollar : Z := 36.
Definition c_caret : Z := 94.

(** [matchstar] (lines 98-105) for a continuation [here] that is
    [matchhere] of the rest of the pattern. *)
Fixpoint matchstar (here : list Z -> bool) (c : Z) (text : list Z) : bool :=
  here text ||
  match text with
  | [] => false
  | t :: text' => ((t =? c) || (c =? c_dot)) && matchstar here c text'
  end.

Fixpoint matchhere (re text : list Z) {struct re} : bool :=
  match re with
  | [] => true
  | c :: re1 =>
      let one :=
        if (c =? c_dollar) && (match re1 with [] => true | _ => false end)
        then match text with [] => true | _ => false end
        else match text with
             | t :: text' => ((c =? c_dot) || (c =? t)) && matchhere re1 text'
             | [] => false
             end in
      match re1 with
      | d :: re2 => if d =? c_star then matchstar (matchhere re2) c text else one
      | [] => one
      end
  end.

(** The loop of [match] (lines 76-79). *)
Fixpoint match_any (re text : list Z) : bool :=
  matchhere re text || match text with [] => false | _ :: text' => match_any re text' end.
Definition match_ (re text : list Z) : bool :=
  match re with
  | c :: re' => if c =? c_caret then matchhere re' text else match_any re text
  | [] => match_any re text
  end.

(** ** What a pattern denotes *)
Inductive item := One (c : Z) | Star (c : Z).
(** The items of a pattern, and whether it ends with [$]. *)
Fixpoint parse (re : list Z) : list item * bool :=
  match re with
  | [] => ([], false)
  | c :: re1 =>
      match re1 with
      | d :: re2 =>
          if d =? c_star then let '(l, e) := parse re2 in (Star c :: l, e)
          else let '(l, e) := parse re1 in (One c :: l, e)
      | [] => if c =? c_dollar then ([], true) else ([One c], false)
      end
  end.

Definition sat (c t : Z) : Prop := c = c_dot \/ c = t.
Inductive lang : list item -> list Z -> Prop :=
| lang_nil : lang [] []
| lang_one c t l w : sat c t -> lang l w -> lang (One c :: l) (t :: w)
| lang_star c ts l w : Forall (sat c) ts -> lang l w -> lang (Star c :: l) (ts ++ w).

(** A prefix of the text is in the language; all of it, at an end anchor. *)
Definition prefix_in (p : list item * bool) (text : list Z) : Prop :=
  exists w rest, text = w ++ rest /\ lang p.1 w /\ (p.2 = true -> rest = []).

Lemma sat_iff c t : ((t =? c) || (c =? c_dot)) = true <-> sat c t.
Proof. unfold sat. rewrite orb_true_iff, !Z.eqb_eq. naive_solver. Qed.
Lemma sat_iff' c t : ((c =? c_dot) || (c =? t)) = true <-> sat c t.
Proof. unfold sat. rewrite orb_true_iff, !Z.eqb_eq. naive_solver. Qed.

Lemma matchstar_spec here c text :
  matchstar here c text = true <->
  exists ts rest, text = ts ++ rest /\ Forall (sat c) ts /\ here rest = true.
Proof.
  induction text as [|t text IH]; cbn [matchstar].
  - rewrite orb_false_r. split.
    + intros H. by exists [], [].
    + intros (ts & rest & H & _ & Hh). symmetry in H. by apply app_eq_nil in H as [-> ->].
  - rewrite orb_true_iff, andb_true_iff, sat_iff, IH. split.
    + intros [H|(Hs & ts & rest & -> & Hf & Hh)]; [by exists [], (t :: text)|].
      exists (t :: ts), rest. split; [done|]. split; [by constructor | done].
    + intros ([|t' ts] & rest & H & Hf & Hh); simplify_eq/=; [by left|]. right.
      inversion Hf; subst. split; [done|]. by exists ts, rest.
Qed.

Lemma prefix_star c p text :
  prefix_in (Star c :: p.1, p.2) text <->
  exists ts rest, text = ts ++ rest /\ Forall (sat c) ts /\ prefix_in p rest.
Proof.
  split.
  - intros (w & rest & -> & Hl & He). inversion Hl; subst.
    exists ts, (w0 ++ rest). rewrite (assoc_L (++)). split; [done|]. split; [done|]. by exists w0, rest.
  - intros (ts & r & -> & Hf & (w & rest & -> & Hl & He)).
    exists (ts ++ w), rest. rewrite (assoc_L (++)). split; [done|]. split; [by constructor | done].
Qed.
Lemma prefix_one c p text :
  prefix_in (One c :: p.1, p.2) text <->
  exists t text', text = t :: text' /\ sat c t /\ prefix_in p text'.
Proof.
  split.
  - intros (w & rest & -> & Hl & He). inversion Hl; subst. exists t, (w0 ++ rest).
    split; [done|]. split; [done|]. by exists w0, rest.
  - intros (t & text' & -> & Hs & (w & rest & -> & Hl & He)). exists (t :: w), rest.
    split; [done|]. split; [by constructor | done].
Qed.

Lemma matchhere_one c re text :
  (match text with
   | t :: text' => ((c =? c_dot) || (c =? t)) && matchhere re text'
   | [] => false
   end = true <-> exists t text', text = t :: text' /\ sat c t /\ matchhere re text' = true).
Proof. destruct text as [|t text]; [naive_solver|]. rewrite andb_true_iff, sat_iff'. naive_solver. Qed.

Lemma matchhere_spec n : forall re text, (length re <= n)%nat ->
  matchhere re text = true <-> prefix_in (parse re) text.
Proof.
  induction n as [|n IH]; intros [|c [|d re]] text Hn; cbn [length] in Hn; try lia.
  1, 2: split; [intros _; exists [], text; by repeat constructor | done].
  - cbn [matchhere parse]. destruct (Z.eqb_spec c c_dollar) as [->|Hc]; cbn [andb].
    + split.
      * destruct text; [|done]. intros _. exists [], []. by repeat constructor.
      * intros (w & rest & -> & Hl & He). cbn in Hl, He. inversion Hl; subst. by rewrite He.
    + rewrite (matchhere_one c [] text), (prefix_one c ([], false)). setoid_rewrite (IH []); [done | simpl; lia].
  - cbn [matchhere parse]. fold matchhere.
    destruct (Z.eqb_spec d c_star) as [->|Hd].
    + rewrite matchstar_spec. destruct (parse re) as [l e] eqn:E.
      rewrite (prefix_star c (l, e)). setoid_rewrite (IH re); [|lia]. by rewrite E.
    + rewrite andb_false_r. rewrite (matchhere_one c (d :: re) text).
      setoid_rewrite (IH (d :: re)); [|simpl; lia]. destruct (parse (d :: re)) as [l e] eqn:E.
      cbn [parse] in E. rewrite E. by rewrite (prefix_one c (l, e)).
Qed.

Lemma match_any_spec re text :
  match_any re text = true <-> exists pre post, text = pre ++ post /\ prefix_in (parse re) post.
Proof.
  induction text as [|t text IH]; cbn [match_any]; rewrite orb_true_iff, (matchhere_spec (length re)) by done.
  - split.
    + intros [H|]; [by exists [], [] | done].
    + intros (pre & post & H & Hp). symmetry in H. apply app_eq_nil in H as [-> ->]. by left.
  - rewrite IH. split.
    + intros [H|(pre & post & -> & Hp)]; [by exists [], (t :: text) | by exists (t :: pre), post].
    + intros ([|t' pre] & post & H & Hp); simplify_eq/=; [by left|]. right. by exists pre, post.
Qed.

(** The pattern after a leading [^], and whether there was one. *)
Definition anchor (re : list Z) : bool * list Z :=
  match re with c :: re' => if c =? c_caret then (true, re') else (false, re) | [] => (false, []) end.

(** C34 The matcher decides the language of the pattern: [match] returns 1
    exactly when the text splits in three parts of which the middle one is in
    the language of the pattern's items ([.], literal characters and their
    starred forms), the first is empty after a leading [^], and the last is
    empty before a trailing [$].  It returns for every pattern and text. *)
Theorem match_decides re text :
  match_ re text = true <->
  exists pre mid post, text = pre ++ mid ++ post /\
    lang (parse (anchor re).2).1 mid /\
    ((anchor re).1 = true -> pre = []) /\ ((parse (anchor re).2).2 = true -> post = []).
Proof.
  transitivity (exists pre rest, text = pre ++ rest /\ ((anchor re).1 = true -> pre = []) /\
                  prefix_in (parse (anchor re).2) rest).
  - unfold match_, anchor. destruct re as [|c re].
    { rewrite match_any_spec. naive_solver. }
    destruct (c =? c_caret); simpl.
    + rewrite (matchhere_spec (length re)) by done. split.
      * intros H. by exists [], text.
      * intros (pre & rest & -> & Hp & H). by rewrite Hp.
    + rewrite match_any_spec. naive_solver.
  - split.
    + intros (pre & rest & -> & Hp & (w & post & -> & Hl & He)). by exists pre, w, post.
    + intros (pre & mid & post & -> & Hl & Hp & He). exists pre, (mid ++ post).
      split; [done|]. split; [done|]. by exists mid, post.
Qed.

(** * The lines of the input that grep and wc look at

    The input is the list of what the calls of [read] deliver; a read takes at
    most the room that is left in the buffer, and the rest stays for the next
    one. *)

(** ** grep *)
Definition BUF : Z := 1024.
Definition newline : Z := 10.
(** The loop over the lines (lines 20-27): the memory, what is written, and [p]. *)
Fixpoint grep_lines (fuel n : nat) (pattern : list Z) (m : mem) (p : Z) : option (mem * list Z * Z) :=
  match fuel with
  | O => None
  | S fuel =>
      q ← Ulib.strchr m p newline n;
      if q =? 0 then Some (m, [], p)
      else
        let m := upd m q 0 in
        text ← string_from m p n;
        let '(m, out) :=
          if match_ pattern text then
            let m := upd m q newline in (m, get_bytes m p (q + 1 - p))
          else (m, []) in
        r ← grep_lines fuel n pattern m (q + 1);
        let '(m, rest, p) := r in
        Some (m, out ++ rest, p)
  end.
(** The outer loop: one turn per read. *)
Fixpoint grep_reads (fuel n : nat) (pattern : list Z) (buf : Z) (mm : mem) (m : Z) (input : list (list Z)) : option (list Z) :=
  match fuel with
  | O => None
  | S fuel =>
      match input with
      | [] => Some []
      | l :: input =>
          let room := Z.to_nat (BUF - m) in
          let got := take room l in
          match got with
          | [] => Some []
          | _ =>
              let input := match drop room l with [] => input | rest => rest :: input end in
              let mm := put_bytes mm (buf + m) got in
              let m := m + Z.of_nat (length got) in
              r ← grep_lines n n pattern mm buf;
              let '(mm, out, p) := r in
              let m := if p =? buf then 0 else m in
              let '(mm, m) := if m >? 0 then (Ulib.memmove mm buf p (Z.to_nat (m - (p - buf))), m - (p - buf)) else (mm, m) in
              rest ← grep_reads fuel n pattern buf mm m input;
              Some (out ++ rest)
          end
      end
  end.

(** *** The lines of a text *)

(** What is before and after the first newline. *)
Fixpoint cut (l : list Z) : option (list Z * list Z) :=
  match l with
  | [] => None
  | c :: l => if c =? newline then Some ([], l) else (fun r => (c :: r.1, r.2)) <$> cut l
  end.
(** The lines that match, each with its newline. *)
Fixpoint matching (fuel : nat) (pattern l : list Z) : list Z :=
  match fuel with
  | O => []
  | S fuel =>
      match cut l with
      | None => []
      | Some (t, r) => (if match_ pattern t then t ++ [newline] else []) ++ matching fuel pattern r
      end
  end.
Lemma cut_spec l : match cut l with Some (t, r) => l = t ++ newline :: r /\ newline ∉ t | None => newline ∉ l end.
Proof.
  induction l as [|c l IH]; cbn [cut]; [apply not_elem_of_nil|]. destruct (Z.eqb_spec c newline) as [->|Hc]; [split; [done | apply not_elem_of_nil]|].
  destruct (cut l) as [[t r]|]; cbn.
  - destruct IH as [-> IH]. split; [done|]. rewrite not_elem_of_cons. split; [congruence | done].
  - rewrite not_elem_of_cons. split; [congruence | done].
Qed.
Lemma strchr_cut m l : forall p n, str_at m p l -> (length l < n)%nat ->
  Ulib.strchr m p newline n = Some (match cut l with Some (t, _) => p + Z.of_nat (length t) | None => 0 end).
Proof.
  induction l as [|c l IH]; intros p [|n] H Hn; cbn [str_at length cut Ulib.strchr] in *; try lia.
  - by rewrite H.
  - destruct H as (-> & Hc & Hl). unfold truthy. rewrite (proj2 (Z.eqb_neq c 0)) by lia. cbn [negb].
    destruct (c =? newline); [cbn; by rewrite Z.add_0_r|]. rewrite (IH _ _ Hl) by lia. f_equal. destruct (cut l) as [[t r]|]; cbn; lia.
Qed.
Lemma get_bytes_string m t x : forall p, (forall i c, (t ++ [x]) !! i = Some c -> m (p + Z.of_nat i) = c) -> get_bytes m p (Z.of_nat (length t) + 1) = t ++ [x].
Proof.
  intros p H. unfold get_bytes. apply list_eq. intros i. rewrite list_lookup_fmap. destruct (decide (i < S (length t))%nat) as [Hi|Hi].
  - rewrite lookup_seqZ_lt by lia. destruct (lookup_lt_is_Some_2 (t ++ [x]) i) as [c Hc]; [rewrite length_app; cbn; lia|]. rewrite Hc. cbn [fmap option_fmap option_map]. by rewrite Z.add_0_l, (H i c Hc).
  - rewrite lookup_seqZ_ge by lia. symmetry. apply lookup_ge_None_2. rewrite length_app. cbn. lia.
Qed.
Lemma grep_lines_run pattern n : forall fuel l m p, str_at m p l -> 0 < p -> (length l < n)%nat -> (length l < fuel)%nat ->
  exists m' p', grep_lines fuel n pattern m p = Some (m', matching fuel pattern l, p').
Proof.
  induction fuel as [|fuel IH]; intros l m p H Hp Hn Hf; [lia|]. cbn [grep_lines matching]. rewrite (strchr_cut m l p n H Hn). cbn [mbind option_bind].
  pose proof (cut_spec l) as Hcut. destruct (cut l) as [[t r]|]; [|by exists m, p]. destruct Hcut as [-> Ht]. rewrite length_app in Hn, Hf. cbn [length] in Hn, Hf.
  rewrite (proj2 (Z.eqb_neq _ _)) by lia. set (q := p + Z.of_nat (length t)).
  pose proof (string_from_run _ t p n (str_at_cut m t (newline :: r) p H) ltac:(lia)) as Es. fold q in Es. rewrite Es. cbn [mbind option_bind].
  pose proof (str_at_tail m (t ++ [newline]) r p ltac:(by rewrite <- app_assoc)) as Hr. rewrite length_app in Hr. cbn [length] in Hr.
  replace (p + Z.of_nat (length t + 1)) with (q + 1) in Hr by (unfold q; lia). destruct (str_at_lookup _ _ _ H) as [Hlk _].
  destruct (match_ pattern t).
  - destruct (IH r (upd (upd m q 0) q newline) (q + 1)) as (m' & p' & E); [|unfold q; lia|lia|lia|].
    { revert Hr. apply str_at_agree. intros x Hx. rewrite !upd_ne by lia. done. }
    rewrite E. cbn [mbind option_bind]. exists m', p'. do 3 f_equal. replace (q + 1 - p) with (Z.of_nat (length t) + 1) by (unfold q; lia). rewrite get_bytes_string with (x := newline); [done|].
    intros i c Hc. destruct (decide (p + Z.of_nat i = q)) as [E1|E1].
    + rewrite E1, upd_eq. apply lookup_app_Some in Hc as [Hc|[Hi Hc]]; [apply lookup_lt_Some in Hc; unfold q in E1; lia|].
      destruct (i - length t)%nat; [by injection Hc as <- | done].
    + rewrite !upd_ne by done. apply Hlk. apply lookup_app_Some in Hc as [Hc|[Hi Hc]]; [by apply lookup_app_l_Some|].
      exfalso. apply lookup_lt_Some in Hc. cbn in Hc. unfold q in E1. lia.
  - destruct (IH r (upd m q 0) (q + 1)) as (m' & p' & E); [|unfold q; lia|lia|lia|].
    { revert Hr. apply str_at_agree. intros x Hx. rewrite !upd_ne by lia. done. }
    rewrite E. by exists m', p'.
Qed.

(** grep prints the matching lines.  A file that one [read] delivers (fewer
    than 1024 bytes, no NUL, into a buffer that is still zero) is printed line
    by line, exactly the lines that the pattern matches. *)
Theorem grep_prints pattern buf mm l n : 0 < buf -> (forall x, buf <= x <= buf + BUF -> mm x = 0) -> Forall (fun c => 0 < c < 256) l -> (length l < n)%nat ->
  0 < Z.of_nat (length l) < BUF -> grep_reads 2 n pattern buf mm 0 [l] = Some (matching n pattern l).
Proof.
  intros Hb Hz Hl Hn Hlen. cbn [grep_reads]. rewrite Z.sub_0_r. rewrite take_ge, drop_ge by (unfold BUF in *; lia). destruct l as [|c l']; [cbn in Hlen; lia|]. set (l := c :: l') in *.
  rewrite Z.add_0_r. assert (Hs : str_at (put_bytes mm buf l) buf l).
  { assert (Hgen : forall k m a, Forall (fun c => 0 < c < 256) k -> m (a + Z.of_nat (length k)) = 0 -> str_at (put_bytes m a k) a k); [|apply Hgen; [done | apply Hz; lia]].
    clear. induction k as [|c k IH]; intros m a Hk Hz; cbn [put_bytes str_at length] in *; [by rewrite Z.add_0_r in Hz|].
    apply Forall_cons in Hk as [Hc Hk]. split; [rewrite put_bytes_at, upd_eq; destruct (Z.leb_spec (a + 1) a); [lia | done]|]. split; [done|].
    apply IH; [done|]. rewrite upd_ne by lia. rewrite <- Hz. f_equal. lia. }
  destruct (grep_lines_run pattern n n l _ buf Hs Hb Hn Hn) as (m' & p' & E). rewrite E. cbn [mbind option_bind].
  destruct (if (if p' =? buf then 0 else 0 + Z.of_nat (length l)) >? 0 then _ else _) as [mm2 m2]. cbn. by rewrite app_nil_r.
Qed.
Lemma grep_prints_witness : grep_reads 2 20 [108] 4096 (fun _ => 0) 0 [[104; 108; 10; 97; 10; 108; 10]] = Some [104; 108; 10; 108; 10].
Proof.
  assert (H : grep_reads 2 20 [108] 4096 (fun _ => 0) 0 [[104; 108; 10; 97; 10; 108; 10]] = Some (matching 20 [108] [104; 108; 10; 97; 10; 108; 10])); [|exact H].
  apply grep_prints; [lia | reflexivity | repeat constructor | cbn; lia | unfold BUF; cbn; lia].
Defined.
(** The buffer is not ended with a NUL after a read: when a shorter line follows
    a longer one, what is left of the longer one is read again.  Here the lines
    [hello] and [a] are read one after the other, and [llo] is printed. *)
Theorem grep_rereads_old_bytes : grep_reads 3 20 [108] 4096 (fun _ => 0) 0 [[104; 101; 108; 108; 111; 10]; [97; 10]] = Some [104; 101; 108; 108; 111; 10; 108; 108; 111; 10].
Proof. vm_compute. reflexivity. Qed.

(** ** wc *)
Record counts := mkCounts { wl : Z; ww : Z; wcs : Z; inword : bool }.
Definition spaces : list Z := [32; 13; 9; 10; 11].
Definition is_space (c : Z) : bool := bool_decide (c ∈ spaces).
(** The body of the inner loop (lines 17-25). *)
Definition wc_char (s : counts) (ch : Z) : counts :=
  let c := wcs s + 1 in
  let l := if ch =? newline then wl s + 1 else wl s in
  if is_space ch then mkCounts l (ww s) c false
  else if negb (inword s) then mkCounts l (ww s + 1) c true
  else mkCounts l (ww s) c (inword s).
(** The reads until the end of the file; a chunk is at most 512 bytes. *)
Fixpoint wc_reads (chunks : list (list Z)) (s : counts) : counts :=
  match chunks with [] => s | l :: chunks => wc_reads chunks (fold_left wc_char l s) end.
Definition wc (chunks : list (list Z)) : Z * Z * Z :=
  let s := wc_reads chunks (mkCounts 0 0 0 false) in (wl s, ww s, wcs s).

(** The words of a text: [w] is the word being read. *)
Fixpoint words (w : list Z) (l : list Z) : list (list Z) :=
  match l with
  | [] => match w with [] => [] | _ => [w] end
  | c :: l => if is_space c then (match w with [] => [] | _ => [w] end) ++ words [] l else words (w ++ [c]) l
  end.
Lemma wc_chars l : forall s w, inword s = negb (bool_decide (w = [])) ->
  let r := fold_left wc_char l s in
  wl r = wl s + Z.of_nat (length (filter (fun c => c = newline) l)) /\ wcs r = wcs s + Z.of_nat (length l) /\
  ww r + (if inword s then 1 else 0) = ww s + Z.of_nat (length (words w l)).
Proof.
  induction l as [|c l IH]; intros s w Hw.
  { destruct w; cbn in *; rewrite Hw; cbn; lia. }
  cbn [fold_left words]. rewrite filter_cons. set (s1 := wc_char s c).
  assert (H1 : wl s1 = wl s + (if decide (c = newline) then 1 else 0) /\ wcs s1 = wcs s + 1).
  { unfold s1, wc_char. destruct (Z.eqb_spec c newline), (decide (c = newline)); try done; destruct (is_space c), (inword s); cbn; lia. }
  destruct H1 as [L1 C1]. assert (Hl : forall k, Z.of_nat (length (if decide (c = newline) then c :: k else k)) = Z.of_nat (length k) + (if decide (c = newline) then 1 else 0)).
  { intros k. destruct (decide (c = newline)); cbn; lia. }
  rewrite Hl. cbn [length]. destruct (is_space c) eqn:Es.
  - destruct (IH s1 []) as (I1 & I2 & I3); [unfold s1, wc_char; by rewrite Es|]. split; [lia|]. split; [lia|]. rewrite length_app.
    assert (W1 : ww s1 = ww s /\ inword s1 = false) by (unfold s1, wc_char; by rewrite Es). destruct W1 as [W1 W2]. rewrite W1, W2 in I3. rewrite Hw. destruct w; cbn in *; lia.
  - assert (W1 : inword s1 = true /\ ww s1 + (if inword s then 1 else 0) = ww s + 1) by (unfold s1, wc_char; rewrite Es; destruct (inword s); cbn; split; done || lia).
    destruct W1 as [W1 W2]. destruct (IH s1 (w ++ [c])) as (I1 & I2 & I3); [rewrite W1; by destruct w|]. split; [lia|]. split; [lia|]. rewrite W1 in I3. lia.
Qed.
Lemma wc_concat chunks : forall s, wc_reads chunks s = fold_left wc_char (concat chunks) s.
Proof. induction chunks as [|l chunks IH]; intros s; [done|]. cbn [wc_reads concat]. by rewrite IH, fold_left_app. Qed.
(** wc counts.  However the reads cut the file, [wc] counts its newlines, its
    words (maximal runs of characters other than white space) and its bytes. *)
Theorem wc_counts chunks : let l := concat chunks in
  wc chunks = (Z.of_nat (length (filter (fun c => c = newline) l)), Z.of_nat (length (words [] l)), Z.of_nat (length l)).
Proof.
  intros l. unfold wc. rewrite wc_concat. fold l. destruct (wc_chars l (mkCounts 0 0 0 false) [] eq_refl) as (H1 & H2 & H3). cbn in *. repeat f_equal; lia.
Qed.
