(* ===== verification/Fs.v ===== *)
(** * Fs: blocks, inodes, directories and paths (src/src/fs.c, src/src/fs.h)

    The disk is seen through the buffer cache and the log as one memory of
    bytes: byte [o] of block [b] is at address [b * BSIZE + o].  A block that
    was changed is handed to [log_write]; [logged] is the trace of the calls
    of the log.  An
    [struct inode *] is an index into the inode cache; the null pointer is
    [None].  A C string is its characters before the NUL.  A wait for another
    process ([ilock] of a busy inode) does not return: [OutOfFuel]. *)
From S2P Require Import Prelude CString.

(** ** fs.h *)
Definition ROOTDEV : Z := 1.
Definition ROOTINO : Z := 1.
Definition BSIZE : Z := 512.
Definition NDIRECT : Z := 11.
Definition NINDIRECT : Z := BSIZE / 4.
Definition MAXFILE : Z := NDIRECT + NINDIRECT + NINDIRECT * NINDIRECT.
Definition DINODE : Z := 64.
Definition IPB : Z := BSIZE / DINODE.
Definition IBLOCK (i : Z) : Z := i / IPB + 2.
Definition BPB : Z := BSIZE * 8.
Definition BBLOCK (b ninodes : Z) : Z := b / BPB + ninodes / IPB + 3.
Definition DIRSIZ : Z := 30.
Definition DIRENT : Z := 32.
Definition NINODE : Z := 50.
Definition NDEV : Z := 10.
Definition I_BUSY : Z := 1.
Definition I_VALID : Z := 2.
Definition T_DIR : Z := 1.
Definition T_FILE : Z := 2.
Definition T_DEV : Z := 3.

Record superblock := mkSB { sb_size : Z; sb_nblocks : Z; sb_ninodes : Z; sb_nlog : Z }.
Record inode := mkInode {
  i_dev : Z; i_inum : Z; i_ref : Z; i_flags : Z;
  i_type : Z; i_major : Z; i_minor : Z; i_nlink : Z; i_size : Z; i_addrs : list Z }.
(** What the file system tells the log: a transaction begins, the block [b]
    was changed, the transaction ends. *)
Inductive log_event := Ev_begin | Ev_write (b : Z) | Ev_end.
#[export] Instance log_event_eq_dec : EqDecision log_event.
Proof. solve_decision. Defined.
Record fstate := mkF { fdisk : mem; icache : list inode; logged : list log_event }.

Definition F : Type -> Type := M fstate.
Definition blocked {A} : F A := fun _ => OutOfFuel.

(** A [short]. *)
Definition s16 (z : Z) : Z := (z + 2 ^ 15) mod 2 ^ 16 - 2 ^ 15.
Definition set_disk (f : mem -> mem) : F unit :=
  modify (fun s => mkF (f (fdisk s)) (icache s) (logged s)).
(** The calls of log.c, which Log models. *)
Definition log_call (e : log_event) : F unit := modify (fun s => mkF (fdisk s) (icache s) (logged s ++ [e])).
Definition begin_op : F unit := log_call Ev_begin.
Definition end_op : F unit := log_call Ev_end.
Definition log_write (b : Z) : F unit := log_call (Ev_write b).

(** ** Blocks *)
Definition sb_of (m : mem) : superblock :=
  mkSB (get32 m BSIZE) (get32 m (BSIZE + 4)) (get32 m (BSIZE + 8)) (get32 m (BSIZE + 12)).
Definition readsb : F superblock := gets (fun s => sb_of (fdisk s)).

Definition bzero (bno : Z) : F unit :=
  set_disk (fun m => memset m (bno * BSIZE) 0 BSIZE) ;;;
  log_write bno.

Definition bit_mask (bi : Z) : Z := Z.shiftl 1 (bi mod 8).
(** The inner loop of [balloc] (lines 63-72), [n] bits left in the block. *)
Fixpoint scan_bits (n : nat) (m : mem) (bp b bi size : Z) : option Z :=
  match n with
  | O => None
  | S n =>
      if b + bi <? size then
        if Z.land (m (bp + bi / 8)) (bit_mask bi) =? 0 then Some (b + bi)
        else scan_bits n m bp b (bi + 1) size
      else None
  end.
(** The outer loop (lines 61-74). *)
Fixpoint scan_blocks (n : nat) (m : mem) (b : Z) (sb : superblock) : option Z :=
  match n with
  | O => None
  | S n =>
      if b <? sb_size sb then
        match scan_bits (Z.to_nat BPB) m (BBLOCK b (sb_ninodes sb) * BSIZE) b 0 (sb_size sb) with
        | Some r => Some r
        | None => scan_blocks n m (b + BPB) sb
        end
      else None
  end.
Definition balloc : F Z :=
  sb <- readsb ;;
  s <- get ;;
  match scan_blocks (Z.to_nat (sb_size sb / BPB + 1)) (fdisk s) 0 sb with
  | Some b =>
      let a := BBLOCK b (sb_ninodes sb) * BSIZE + (b mod BPB) / 8 in
      set_disk (fun m => upd m a (u8 (Z.lor (m a) (bit_mask (b mod BPB))))) ;;;
      log_write (BBLOCK b (sb_ninodes sb)) ;;;
      bzero b ;;;
      ret b
  | None => panic "balloc: out of blocks"
  end.

Definition bfree (b : Z) : F unit :=
  sb <- readsb ;;
  s <- get ;;
  let bi := b mod BPB in
  let a := BBLOCK b (sb_ninodes sb) * BSIZE + bi / 8 in
  if Z.land (fdisk s a) (bit_mask bi) =? 0 then panic "freeing free block"
  else
    set_disk (fun m => upd m a (u8 (Z.land (m a) (Z.lnot (bit_mask bi))))) ;;;
    log_write (BBLOCK b (sb_ninodes sb)).

(** ** Inodes *)
Definition inode_at (ip : Z) : F inode := fun s =>
  match (if ip <? 0 then None else icache s !! Z.to_nat ip) with
  | Some i => Ok (i, s)
  | None => Fault
  end.
Definition set_inode (ip : Z) (f : inode -> inode) : F unit := fun s =>
  match (if ip <? 0 then None else icache s !! Z.to_nat ip) with
  | Some i => Ok (tt, mkF (fdisk s) (<[Z.to_nat ip := f i]> (icache s)) (logged s))
  | None => Fault
  end.

Definition with_ref (x : Z) (i : inode) : inode :=
  mkInode (i_dev i) (i_inum i) x (i_flags i) (i_type i) (i_major i) (i_minor i) (i_nlink i) (i_size i) (i_addrs i).
Definition with_flags (x : Z) (i : inode) : inode :=
  mkInode (i_dev i) (i_inum i) (i_ref i) x (i_type i) (i_major i) (i_minor i) (i_nlink i) (i_size i) (i_addrs i).
Definition with_type (x : Z) (i : inode) : inode :=
  mkInode (i_dev i) (i_inum i) (i_ref i) (i_flags i) x (i_major i) (i_minor i) (i_nlink i) (i_size i) (i_addrs i).
Definition with_size (x : Z) (i : inode) : inode :=
  mkInode (i_dev i) (i_inum i) (i_ref i) (i_flags i) (i_type i) (i_major i) (i_minor i) (i_nlink i) x (i_addrs i).
Definition with_addr (k x : Z) (i : inode) : inode :=
  mkInode (i_dev i) (i_inum i) (i_ref i) (i_flags i) (i_type i) (i_major i) (i_minor i) (i_nlink i) (i_size i)
    (<[Z.to_nat k := x]> (i_addrs i)).
(** A recycled entry (lines 246-249): the copy of the disk inode is stale. *)
Definition renamed (dev inum : Z) (i : inode) : inode :=
  mkInode dev inum 1 0 (i_type i) (i_major i) (i_minor i) (i_nlink i) (i_size i) (i_addrs i).
Definition addr_of (i : inode) (k : Z) : Z := nth (Z.to_nat k) (i_addrs i) 0.
Definition dinode_at (inum : Z) : Z := IBLOCK inum * BSIZE + (inum mod IPB) * DINODE.

(** The loop of [iget] (lines 231-239) from entry [k] on: [inl] of the entry
    found, or [inr] of the first free entry. *)
Fixpoint iget_scan (l : list inode) (k dev inum : Z) (empty : option Z) : Z + option Z :=
  match l with
  | [] => inr empty
  | i :: l' =>
      if (i_ref i >? 0) && (i_dev i =? dev) && (i_inum i =? inum) then inl k
      else iget_scan l' (k + 1) dev inum
             (match empty with None => if i_ref i =? 0 then Some k else None | _ => empty end)
  end.
Definition iget (dev inum : Z) : F Z :=
  s <- get ;;
  match iget_scan (icache s) 0 dev inum None with
  | inl ip => set_inode ip (fun i => with_ref (i_ref i + 1) i) ;;; ret ip
  | inr None => panic "iget: no inodes"
  | inr (Some ip) => set_inode ip (renamed dev inum) ;;; ret ip
  end.
Definition idup (ip : Z) : F Z := set_inode ip (fun i => with_ref (i_ref i + 1) i) ;;; ret ip.

(** The loop of [ialloc] (lines 185-196). *)
Fixpoint ialloc_scan (n : nat) (m : mem) (inum ninodes : Z) : option Z :=
  match n with
  | O => None
  | S n =>
      if inum <? ninodes then
        if s16 (get16 m (dinode_at inum)) =? 0 then Some inum else ialloc_scan n m (inum + 1) ninodes
      else None
  end.
Definition ialloc (dev type : Z) : F Z :=
  sb <- readsb ;;
  s <- get ;;
  match ialloc_scan (Z.to_nat (sb_ninodes sb)) (fdisk s) 1 (sb_ninodes sb) with
  | Some inum =>
      set_disk (fun m => memset m (dinode_at inum) 0 DINODE) ;;;
      set_disk (fun m => put16 m (dinode_at inum) type) ;;;
      log_write (IBLOCK inum) ;;;
      iget dev inum
  | None => panic "ialloc: no inodes"
  end.

Fixpoint put_words (m : mem) (a : Z) (l : list Z) : mem :=
  match l with [] => m | v :: l' => put_words (put32 m a v) (a + 4) l' end.
Definition iupdate (ip : Z) : F unit :=
  i <- inode_at ip ;;
  let a := dinode_at (i_inum i) in
  set_disk (fun m => put16 m a (i_type i)) ;;;
  set_disk (fun m => put16 m (a + 2) (i_major i)) ;;;
  set_disk (fun m => put16 m (a + 4) (i_minor i)) ;;;
  set_disk (fun m => put16 m (a + 6) (i_nlink i)) ;;;
  set_disk (fun m => put32 m (a + 8) (i_size i)) ;;;
  set_disk (fun m => put_words m (a + 12) (i_addrs i)) ;;;
  log_write (IBLOCK (i_inum i)).

(** The disk inode read into the entry (lines 286-291). *)
Definition load_inode (m : mem) (i : inode) : inode :=
  let a := dinode_at (i_inum i) in
  mkInode (i_dev i) (i_inum i) (i_ref i) (i_flags i)
    (s16 (get16 m a)) (s16 (get16 m (a + 2))) (s16 (get16 m (a + 4))) (s16 (get16 m (a + 6)))
    (get32 m (a + 8)) (map (fun k => get32 m (a + 12 + 4 * k)) (seqZ 0 (NDIRECT + 2))).
Definition has_flag (f b : Z) : bool := negb (Z.land f b =? 0).
Definition ilock (ip : Z) : F unit :=
  i <- inode_at ip ;;
  if i_ref i <? 1 then panic "ilock"
  else if has_flag (i_flags i) I_BUSY then blocked
  else
    set_inode ip (fun i => with_flags (Z.lor (i_flags i) I_BUSY) i) ;;;
    i <- inode_at ip ;;
    if negb (has_flag (i_flags i) I_VALID) then
      s <- get ;;
      set_inode ip (load_inode (fdisk s)) ;;;
      set_inode ip (fun i => with_flags (Z.lor (i_flags i) I_VALID) i) ;;;
      i <- inode_at ip ;;
      if i_type i =? 0 then panic "ilock: no type" else ret tt
    else ret tt.
Definition iunlock (ip : Z) : F unit :=
  i <- inode_at ip ;;
  if negb (has_flag (i_flags i) I_BUSY) || (i_ref i <? 1) then panic "iunlock"
  else set_inode ip (fun i => with_flags (Z.land (i_flags i) (Z.lnot I_BUSY)) i).

(** ** Inode content *)

(** [if((addr = ip->addrs[k]) == 0) ip->addrs[k] = addr = balloc(ip->dev);] *)
Definition bmap_slot (ip k : Z) : F Z :=
  i <- inode_at ip ;;
  if addr_of i k =? 0 then
    addr <- balloc ;;
    set_inode ip (with_addr k addr) ;;;
    ret addr
  else ret (addr_of i k).
(** [if((addr = a[k]) == 0){ a[k] = addr = balloc(ip->dev); log_write(bp); }]
    for the block [bno] read into [a]. *)
Definition bmap_entry (bno k : Z) : F Z :=
  s <- get ;;
  let addr := get32 (fdisk s) (bno * BSIZE + 4 * k) in
  if addr =? 0 then
    addr <- balloc ;;
    set_disk (fun m => put32 m (bno * BSIZE + 4 * k) addr) ;;;
    log_write bno ;;;
    ret addr
  else ret addr.
Definition bmap (ip bn : Z) : F Z :=
  if bn <? NDIRECT then bmap_slot ip bn
  else
    let bn := bn - NDIRECT in
    if bn <? NINDIRECT then
      addr <- bmap_slot ip NDIRECT ;;
      bmap_entry addr bn
    else
      let bn := bn - NINDIRECT in
      if bn <? NINDIRECT * NINDIRECT then
        addr <- bmap_slot ip (NDIRECT + 1) ;;
        addr <- bmap_entry addr (bn / NINDIRECT) ;;
        bmap_entry addr (bn mod NINDIRECT)
      else panic "bmap: out of range".

Definition itrunc (ip : Z) : F unit :=
  mfor 0 NDIRECT (fun k =>
    i <- inode_at ip ;;
    if truthy (addr_of i k) then bfree (addr_of i k) ;;; set_inode ip (with_addr k 0) else ret tt) ;;;
  i <- inode_at ip ;;
  (if truthy (addr_of i NDIRECT) then
     let bp := addr_of i NDIRECT * BSIZE in
     mfor 0 NINDIRECT (fun j =>
       s <- get ;;
       if truthy (get32 (fdisk s) (bp + 4 * j)) then bfree (get32 (fdisk s) (bp + 4 * j)) else ret tt) ;;;
     bfree (addr_of i NDIRECT) ;;;
     set_inode ip (with_addr NDIRECT 0)
   else ret tt) ;;;
  set_inode ip (with_size 0) ;;;
  iupdate ip.

Definition iput (ip : Z) : F unit :=
  i <- inode_at ip ;;
  (if (i_ref i =? 1) && has_flag (i_flags i) I_VALID && (i_nlink i =? 0) then
     if has_flag (i_flags i) I_BUSY then panic "iput busy"
     else
       set_inode ip (fun i => with_flags (Z.lor (i_flags i) I_BUSY) i) ;;;
       itrunc ip ;;;
       set_inode ip (with_type 0) ;;;
       iupdate ip ;;;
       set_inode ip (with_flags 0)
   else ret tt) ;;;
  set_inode ip (fun i => with_ref (i_ref i - 1) i).
Definition iunlockput (ip : Z) : F unit := iunlock ip ;;; iput ip.

Record stat := mkStat { st_type : Z; st_dev : Z; st_ino : Z; st_nlink : Z; st_size : Z }.
Definition stati (ip : Z) : F stat :=
  i <- inode_at ip ;;
  ret (mkStat (i_type i) (i_dev i) (i_inum i) (i_nlink i) (i_size i)).

(** ** Reading and writing

    [devsw] is the table of device functions: for a major number with a
    [read] (a [write]) function, what it does with a count (with the bytes). *)
Record devops := mkDev {
  dev_read : option (Z -> Z -> F (Z * list Z));
  dev_write : option (Z -> list Z -> F Z) }.

Section Files.
Context (devsw : Z -> devops).

(** The loop of [readi] (lines 474-479): the bytes copied to [dst]. *)
Fixpoint readi_loop (fuel : nat) (ip off n tot : Z) : F (list Z) :=
  match fuel with
  | O => fun _ => OutOfFuel
  | S fuel =>
      if tot <? n then
        b <- bmap ip (off / BSIZE) ;;
        let m := Z.min (n - tot) (BSIZE - off mod BSIZE) in
        s <- get ;;
        let l := get_bytes (fdisk s) (b * BSIZE + off mod BSIZE) m in
        rest <- readi_loop fuel ip (off + m) n (tot + m) ;;
        ret (l ++ rest)
      else ret []
  end.
(** The value returned and the bytes stored at [dst]. *)
Definition readi (ip off n : Z) : F (Z * list Z) :=
  i <- inode_at ip ;;
  if i_type i =? T_DEV then
    if (i_major i <? 0) || (i_major i >=? NDEV) then ret (-1, [])
    else match dev_read (devsw (i_major i)) with None => ret (-1, []) | Some f => f ip (s32 n) end
  else if (off >? i_size i) || (u32 (off + n) <? off) then ret (-1, [])
  else
    let n := if off + n >? i_size i then i_size i - off else n in
    l <- readi_loop (S (Z.to_nat n)) ip off n 0 ;;
    ret (n, l).

(** The loop of [writei] (lines 502-508): the final [off]. *)
Fixpoint writei_loop (fuel : nat) (ip : Z) (src : list Z) (off : Z) : F Z :=
  match fuel with
  | O => fun _ => OutOfFuel
  | S fuel =>
      match src with
      | [] => ret off
      | _ =>
          b <- bmap ip (off / BSIZE) ;;
          let m := Z.min (Z.of_nat (length src)) (BSIZE - off mod BSIZE) in
          set_disk (fun d => put_bytes d (b * BSIZE + off mod BSIZE) (take (Z.to_nat m) src)) ;;;
          log_write b ;;;
          writei_loop fuel ip (drop (Z.to_nat m) src) (off + m)
      end
  end.
Definition writei (ip : Z) (src : list Z) (off : Z) : F Z :=
  let n := Z.of_nat (length src) in
  i <- inode_at ip ;;
  if i_type i =? T_DEV then
    if (i_major i <? 0) || (i_major i >=? NDEV) then ret (-1)
    else match dev_write (devsw (i_major i)) with None => ret (-1) | Some f => f ip src end
  else if (off >? i_size i) || (u32 (off + n) <? off) then ret (-1)
  else if off + n >? MAXFILE * BSIZE then ret (-1)
  else
    off' <- writei_loop (S (length src)) ip src off ;;
    i <- inode_at ip ;;
    (if (n >? 0) && (off' >? i_size i) then
       set_inode ip (with_size off') ;;; iupdate ip
     else ret tt) ;;;
    ret n.

(** ** Directories *)

(** [strncmp] on strings given by their characters; past the end there is a NUL. *)
Fixpoint strncmp_chars (n : nat) (p q : list Z) : Z :=
  match n with
  | O => 0
  | S n =>
      let a := List.hd 0 p in
      let b := List.hd 0 q in
      if truthy a && (a =? b) then strncmp_chars n (List.tl p) (List.tl q) else u8 a - u8 b
  end.
Definition namecmp (s t : list Z) : Z := strncmp_chars (Z.to_nat DIRSIZ) s t.

(** [struct dirent] as bytes. *)
Definition de_inum (de : list Z) : Z := nth 0 de 0 + 256 * nth 1 de 0.
Definition de_name (de : list Z) : list Z := drop 2 de.
(** [strncpy(de.name, name, DIRSIZ)] *)
Definition strncpy_chars (name : list Z) (n : nat) : list Z :=
  take n name ++ replicate (n - length name) 0.
Definition dirent (inum : Z) (name : list Z) : list Z :=
  [u8 inum; u8 (Z.shiftr inum 8)] ++ strncpy_chars name (Z.to_nat DIRSIZ).

(** Read the entry at [off]. *)
Definition read_entry (dp off : Z) : F (list Z) :=
  let* (r, de) := readi dp off DIRENT in
  if negb (r =? DIRENT) then panic "dirlink read" else ret de.

(** The loop of [dirlookup] (lines 537-549): the inode and the offset. *)
Fixpoint dirlookup_loop (fuel : nat) (dp off : Z) (name : list Z) : F (option (Z * Z)) :=
  match fuel with
  | O => fun _ => OutOfFuel
  | S fuel =>
      i <- inode_at dp ;;
      if off <? i_size i then
        de <- read_entry dp off ;;
        if de_inum de =? 0 then dirlookup_loop fuel dp (off + DIRENT) name
        else if namecmp name (de_name de) =? 0 then
          ip <- iget (i_dev i) (de_inum de) ;;
          ret (Some (ip, off))
        else dirlookup_loop fuel dp (off + DIRENT) name
      else ret None
  end.
Definition dirlookup (dp : Z) (name : list Z) : F (option (Z * Z)) :=
  i <- inode_at dp ;;
  if negb (i_type i =? T_DIR) then panic "dirlookup not DIR"
  else dirlookup_loop (S (Z.to_nat (i_size i))) dp 0 name.

(** The loop of [dirlink] (lines 569-574): the offset of a free entry. *)
Fixpoint free_entry (fuel : nat) (dp off : Z) : F Z :=
  match fuel with
  | O => fun _ => OutOfFuel
  | S fuel =>
      i <- inode_at dp ;;
      if off <? i_size i then
        de <- read_entry dp off ;;
        if de_inum de =? 0 then ret off else free_entry fuel dp (off + DIRENT)
      else ret off
  end.
Definition dirlink (dp : Z) (name : list Z) (inum : Z) : F Z :=
  r <- dirlookup dp name ;;
  match r with
  | Some (ip, _) => iput ip ;;; ret (-1)
  | None =>
      i <- inode_at dp ;;
      off <- free_entry (S (Z.to_nat (i_size i))) dp 0 ;;
      r <- writei dp (dirent inum name) off ;;
      if negb (r =? DIRENT) then panic "dirlink" else ret 0
  end.

(** ** Paths *)
Definition slash : Z := 47.
Fixpoint skip_slashes (path : list Z) : list Z :=
  match path with c :: path' => if c =? slash then skip_slashes path' else path | [] => [] end.
(** The element up to the next slash, and what follows it. *)
Fixpoint take_elem (path : list Z) : list Z * list Z :=
  match path with
  | c :: path' => if c =? slash then ([], path) else let '(e, r) := take_elem path' in (c :: e, r)
  | [] => ([], [])
  end.
(** The name copied (cut to [DIRSIZ] characters) and the rest of the path. *)
Definition skipelem (path : list Z) : option (list Z * list Z) :=
  match skip_slashes path with
  | [] => None
  | p =>
      let '(elem, rest) := take_elem p in
      let name := if Z.of_nat (length elem) >=? DIRSIZ then take (Z.to_nat DIRSIZ) elem else elem in
      Some (name, skip_slashes rest)
  end.

(** The loop of [namex] (lines 638-661). *)
Fixpoint namex_loop (fuel : nat) (ip : Z) (path : list Z) (nameiparent : bool) (name : list Z) :
    F (option (Z * list Z)) :=
  match fuel with
  | O => fun _ => OutOfFuel
  | S fuel =>
      match skipelem path with
      | None => if nameiparent then iput ip ;;; ret None else ret (Some (ip, name))
      | Some (name, path) =>
          ilock ip ;;;
          i <- inode_at ip ;;
          if negb (i_type i =? T_DIR) then iunlockput ip ;;; ret None
          else if nameiparent && (match path with [] => true | _ => false end) then
            iunlock ip ;;; ret (Some (ip, name))
          else
            r <- dirlookup ip name ;;
            match r with
            | None => iunlockput ip ;;; ret None
            | Some (next, _) => iunlockput ip ;;; namex_loop fuel next path nameiparent name
            end
      end
  end.
(** [cwd] is [proc->cwd].  The inode and the name copied last. *)
Definition namex (cwd : Z) (path : list Z) (nameiparent : bool) : F (option (Z * list Z)) :=
  ip <- (if List.hd 0 path =? slash then iget ROOTDEV ROOTINO else idup cwd) ;;
  namex_loop (S (length path)) ip path nameiparent [].
Definition namei (cwd : Z) (path : list Z) : F (option Z) :=
  r <- namex cwd path false ;;
  ret (option_map fst r).
Definition nameiparent (cwd : Z) (path : list Z) : F (option (Z * list Z)) := namex cwd path true.

End Files.
