(* ===== verification/FsFacts.v ===== *)
(** * FsFacts: block allocation, the inode cache and path names *)
From S2P Require Import Prelude CString Fs.

(** ** The free bitmap *)

(** The byte with the bit of block [b], and the bit. *)
Definition bitmap_at (n b : Z) : Z := (n / IPB + 3) * BSIZE + b / 8.
Definition bit_used (m : mem) (n b : Z) : bool := Z.testbit (m (bitmap_at n b)) (b mod 8).
Definition used (s : fstate) (b : Z) : bool := bit_used (fdisk s) (sb_ninodes (sb_of (fdisk s))) b.
Definition fs_size (s : fstate) : Z := sb_size (sb_of (fdisk s)).

Lemma bitmap_address n b : 0 <= b -> BBLOCK b n * BSIZE + (b mod BPB) / 8 = bitmap_at n b.
Proof.
  intros Hb. unfold BBLOCK, bitmap_at, BPB, BSIZE. change (512 * 8) with 4096.
  Z.div_mod_to_equations. lia.
Qed.
Lemma bit_mask_spec v b : (Z.land v (bit_mask b) =? 0) = negb (Z.testbit v (b mod 8)).
Proof.
  unfold bit_mask. rewrite Z.shiftl_1_l. apply land_bit. apply Z.mod_pos_bound. lia.
Qed.
Lemma mod_BPB_8 b : (b mod BPB) mod 8 = b mod 8.
Proof. unfold BPB, BSIZE. Z.div_mod_to_equations. lia. Qed.

Lemma scan_bits_spec m sz nin q : forall n bi,
  0 <= q -> 0 <= bi -> bi + Z.of_nat n <= BPB ->
  let b := q * BPB in
  match scan_bits n m (BBLOCK b nin * BSIZE) b bi sz with
  | Some r => b + bi <= r < sz /\ bit_used m nin r = false /\
              forall c, b + bi <= c < r -> bit_used m nin c = true
  | None => forall c, b + bi <= c < b + bi + Z.of_nat n -> c < sz -> bit_used m nin c = true
  end.
Proof.
  induction n as [|n IH]; intros bi Hq Hbi Hn b; cbn [scan_bits]; [lia|].
  destruct (Z.ltb_spec (b + bi) sz) as [Hlt|]; [|intros; lia].
  assert (Hbpb : BPB = 4096) by done.
  assert (Hbit : (Z.land (m (BBLOCK b nin * BSIZE + bi / 8)) (bit_mask bi) =? 0) =
                 negb (bit_used m nin (b + bi))).
  { rewrite bit_mask_spec. unfold bit_used. subst b. rewrite <- bitmap_address by lia.
    replace ((q * BPB + bi) mod 8) with (bi mod 8) by (rewrite Hbpb; Z.div_mod_to_equations; lia).
    replace ((q * BPB + bi) mod BPB) with bi by (rewrite Hbpb; Z.div_mod_to_equations; lia).
    replace (BBLOCK (q * BPB + bi) nin) with (BBLOCK (q * BPB) nin)
      by (unfold BBLOCK; rewrite Hbpb; Z.div_mod_to_equations; lia). done. }
  rewrite Hbit. destruct (bit_used m nin (b + bi)) eqn:E; cbn [negb].
  - specialize (IH (bi + 1) Hq ltac:(lia) ltac:(lia)). cbv zeta in IH. fold b in IH.
    destruct (scan_bits n m _ b (bi + 1) sz) as [r|].
    + destruct IH as (H1 & H2 & H3). split; [lia|]. split; [done|]. intros c Hc.
      destruct (decide (c = b + bi)) as [->|]; [done | apply H3; lia].
    + intros c Hc Hcs. destruct (decide (c = b + bi)) as [->|]; [done | apply IH; lia].
  - split; [lia|]. split; [done|]. lia.
Qed.
Lemma scan_blocks_spec m sb : forall n q,
  0 <= q ->
  match scan_blocks n m (q * BPB) sb with
  | Some r => q * BPB <= r < sb_size sb /\ bit_used m (sb_ninodes sb) r = false /\
              forall c, q * BPB <= c < r -> bit_used m (sb_ninodes sb) c = true
  | None => forall c, q * BPB <= c < (q + Z.of_nat n) * BPB -> c < sb_size sb ->
              bit_used m (sb_ninodes sb) c = true
  end.
Proof.
  assert (Hbpb : BPB = 4096) by done.
  induction n as [|n IH]; intros q Hq; cbn [scan_blocks]; [lia|].
  destruct (Z.ltb_spec (q * BPB) (sb_size sb)) as [Hlt|]; [|intros; lia].
  pose proof (scan_bits_spec m (sb_size sb) (sb_ninodes sb) q (Z.to_nat BPB) 0 Hq ltac:(lia) ltac:(lia)) as Hs.
  cbv zeta in Hs. destruct (scan_bits _ _ _ _ 0 _) as [r|].
  - destruct Hs as (H1 & H2 & H3). split; [lia|]. split; [done|]. intros c Hc. apply H3. lia.
  - specialize (IH (q + 1) ltac:(lia)). replace (q * BPB + BPB) with ((q + 1) * BPB) by lia.
    destruct (scan_blocks n m ((q + 1) * BPB) sb) as [r|].
    + destruct IH as (H1 & H2 & H3). split; [lia|]. split; [done|]. intros c Hc.
      destruct (decide (c < (q + 1) * BPB)); [apply Hs; lia | apply H3; lia].
    + intros c Hc Hcs. destruct (decide (c < (q + 1) * BPB)); [apply Hs; lia | apply IH; lia].
Qed.

(** ** Changing one bit *)
Lemma u8_bit v k : 0 <= k < 8 -> Z.testbit (u8 v) k = Z.testbit v k.
Proof. intros Hk. unfold u8. apply Z.mod_pow2_bits_low. lia. Qed.
Lemma mask_bit b k : 0 <= k < 8 -> Z.testbit (bit_mask b) k = (k =? b mod 8).
Proof.
  intros Hk. unfold bit_mask. rewrite Z.shiftl_1_l, Z.pow2_bits_eqb by (apply Z.mod_pos_bound; lia).
  apply Z.eqb_sym.
Qed.

(** [g] of the byte of block [b], for a [g] that sets or clears its bit. *)
Lemma bit_update m n b c v (g : Z -> Z) :
  0 <= b -> 0 <= c ->
  (forall x k, 0 <= k < 8 -> Z.testbit (g x) k = if k =? b mod 8 then v else Z.testbit x k) ->
  bit_used (upd m (bitmap_at n b) (g (m (bitmap_at n b)))) n c = if c =? b then v else bit_used m n c.
Proof.
  intros Hb Hc Hg. unfold bit_used, upd.
  assert (Hr : 0 <= c mod 8 < 8) by (apply Z.mod_pos_bound; lia).
  destruct (Z.eqb_spec (bitmap_at n c) (bitmap_at n b)) as [He|He].
  - rewrite Hg, <- He by done.
    assert (Hd : c / 8 = b / 8) by (unfold bitmap_at in He; lia).
    destruct (Z.eqb_spec (c mod 8) (b mod 8)), (Z.eqb_spec c b); try done.
    + exfalso. Z.div_mod_to_equations. lia.
    + subst. done.
  - destruct (Z.eqb_spec c b); [by subst | done].
Qed.
Lemma set_bit b x k :
  0 <= k < 8 -> Z.testbit (u8 (Z.lor x (bit_mask b))) k = if k =? b mod 8 then true else Z.testbit x k.
Proof.
  intros Hk. rewrite u8_bit, Z.lor_spec, mask_bit by done.
  destruct (k =? b mod 8); [apply orb_true_r | apply orb_false_r].
Qed.
Lemma clear_bit b x k :
  0 <= k < 8 ->
  Z.testbit (u8 (Z.land x (Z.lnot (bit_mask b)))) k = if k =? b mod 8 then false else Z.testbit x k.
Proof.
  intros Hk. rewrite u8_bit, Z.land_spec, Z.lnot_spec, mask_bit by lia.
  destruct (k =? b mod 8); [apply andb_false_r | apply andb_true_r].
Qed.

(** ** Layout *)

(** Where the bitmap ends: the first block after it. *)
Definition data_start (s : fstate) : Z :=
  (fs_size s - 1) / BPB + sb_ninodes (sb_of (fdisk s)) / IPB + 4.
(** No metadata block is marked free. *)
Definition meta_used (s : fstate) : Prop :=
  0 <= sb_ninodes (sb_of (fdisk s)) /\
  forall b, 0 <= b < fs_size s -> used s b = false -> data_start s <= b.

(** Addresses of block [b], of the bitmap, of the super block. *)
Definition in_block (b a : Z) : Prop := b * BSIZE <= a < (b + 1) * BSIZE.
Definition in_bitmap (s : fstate) (a : Z) : Prop :=
  (sb_ninodes (sb_of (fdisk s)) / IPB + 3) * BSIZE <= a < data_start s * BSIZE.

#[export] Instance in_block_dec b a : Decision (in_block b a).
Proof. unfold in_block. apply _. Defined.

Lemma bitmap_in s b : 0 <= b < fs_size s -> in_bitmap s (bitmap_at (sb_ninodes (sb_of (fdisk s))) b).
Proof.
  intros Hb. unfold in_bitmap, bitmap_at, data_start, BPB, BSIZE. change (512 * 8) with 4096.
  set (q := _ / IPB). Z.div_mod_to_equations. lia.
Qed.
Lemma sb_of_agree m m' : (forall a, in_block 1 a -> m' a = m a) -> sb_of m' = sb_of m.
Proof.
  intros H. assert (Hw : forall k, 0 <= k <= 12 -> get32 m' (BSIZE + k) = get32 m (BSIZE + k)).
  { intros k Hk. unfold get32. rewrite !H; [done | unfold in_block, BSIZE; lia..]. }
  unfold sb_of. pose proof (Hw 0 ltac:(lia)) as H0. rewrite Z.add_0_r in H0. by rewrite H0, !Hw by lia.
Qed.
Lemma sb_not_bitmap s a : 0 <= sb_ninodes (sb_of (fdisk s)) -> in_block 1 a -> ~ in_bitmap s a.
Proof.
  intros Hn Ha. unfold in_block, in_bitmap, BSIZE in *.
  assert (0 <= sb_ninodes (sb_of (fdisk s)) / IPB) by (by apply Z.div_pos). lia.
Qed.
Lemma bit_used_agree m m' n b :
  m' (bitmap_at n b) = m (bitmap_at n b) -> bit_used m' n b = bit_used m n b.
Proof. intros H. unfold bit_used. by rewrite H. Qed.

(** What a change of the disk outside the super block and the bitmap keeps. *)
Lemma used_agree s s' :
  0 <= sb_ninodes (sb_of (fdisk s)) ->
  (forall a, in_block 1 a \/ in_bitmap s a -> fdisk s' a = fdisk s a) ->
  sb_of (fdisk s') = sb_of (fdisk s) /\ forall c, 0 <= c < fs_size s -> used s' c = used s c.
Proof.
  intros Hn H. assert (Hsb : sb_of (fdisk s') = sb_of (fdisk s)) by (apply sb_of_agree; auto).
  split; [done|]. intros c Hc. unfold used. rewrite Hsb. apply bit_used_agree, H. right.
  by apply bitmap_in.
Qed.

(** ** [balloc] and [bfree] *)
Lemma bzero_disk b m a :
  memset m (b * BSIZE) 0 BSIZE a = if bool_decide (in_block b a) then 0 else m a.
Proof.
  rewrite memset_fills by done. unfold filled, in_block.
  destruct (Z.leb_spec (b * BSIZE) a), (Z.ltb_spec a (b * BSIZE + BSIZE)); simpl;
    case_bool_decide; try done; unfold BSIZE in *; lia.
Qed.

(** One bit of the bitmap of [s] becomes [v]; nothing else of it changes. *)
Record bit_set (s : fstate) (b : Z) (v : bool) (s' : fstate) : Prop := mkBitSet {
  bs_sb : sb_of (fdisk s') = sb_of (fdisk s);
  bs_used : forall c, 0 <= c < fs_size s -> used s' c = if c =? b then v else used s c;
  bs_icache : icache s' = icache s }.

Lemma bit_write s b v g :
  0 <= sb_ninodes (sb_of (fdisk s)) -> 0 <= b < fs_size s ->
  (forall x k, 0 <= k < 8 -> Z.testbit (g x) k = if k =? b mod 8 then v else Z.testbit x k) ->
  let a := BBLOCK b (sb_ninodes (sb_of (fdisk s))) * BSIZE + (b mod BPB) / 8 in
  let m := upd (fdisk s) a (g (fdisk s a)) in
  sb_of m = sb_of (fdisk s) /\
  (forall c, 0 <= c < fs_size s -> bit_used m (sb_ninodes (sb_of m)) c = if c =? b then v else used s c) /\
  forall x, ~ in_bitmap s x -> m x = fdisk s x.
Proof.
  intros Hn Hb Hg a m. assert (Ha : a = bitmap_at (sb_ninodes (sb_of (fdisk s))) b)
    by (apply bitmap_address; lia).
  pose proof (bitmap_in s b Hb) as Hin.
  assert (Hout : forall x, ~ in_bitmap s x -> m x = fdisk s x).
  { intros x Hx. apply upd_ne. intros ->. by rewrite Ha in Hx. }
  assert (Hsb : sb_of m = sb_of (fdisk s)).
  { apply sb_of_agree. intros x Hx. by apply Hout, sb_not_bitmap. }
  split; [done|]. split; [|done]. intros c Hc. rewrite Hsb. subst m. rewrite Ha.
  apply bit_update; [lia | lia | done].
Qed.

(** [bfree] of a used block clears its bit; of a free block it panics. *)
Lemma bfree_run s b :
  0 <= sb_ninodes (sb_of (fdisk s)) -> 0 <= b < fs_size s ->
  if used s b then exists s', bfree b s = Ok (tt, s') /\ bit_set s b false s' /\
                     forall x, ~ in_bitmap s x -> fdisk s' x = fdisk s x
  else bfree b s = Panic "freeing free block".
Proof.
  intros Hn Hb. unfold bfree. do 2 (erewrite bind_Ok; [|reflexivity]).
  rewrite bit_mask_spec, mod_BPB_8, bitmap_address by lia.
  change (Z.testbit _ (b mod 8)) with (used s b). destruct (used s b); simpl; [|done].
  destruct (bit_write s b false (fun x => u8 (Z.land x (Z.lnot (bit_mask (b mod BPB)))))) as (H1 & H2 & H3);
    [done | done | |].
  { intros x k Hk. rewrite clear_bit, mod_BPB_8 by done. done. }
  rewrite bitmap_address in H1, H2, H3 by lia.
  eexists. split; [reflexivity|]. by split.
Qed.

Lemma balloc_run s :
  meta_used s -> 0 <= fs_size s ->
  (balloc s = Panic "balloc: out of blocks" /\ forall c, 0 <= c < fs_size s -> used s c = true) \/
  exists b s', balloc s = Ok (b, s') /\ 0 <= b < fs_size s /\ used s b = false /\
    (forall c, 0 <= c < b -> used s c = true) /\ bit_set s b true s' /\
    (forall x, in_block b x -> fdisk s' x = 0) /\
    forall x, ~ in_bitmap s x -> ~ in_block b x -> fdisk s' x = fdisk s x.
Proof.
  intros [Hn Hmeta] Hsz. unfold balloc. do 2 (erewrite bind_Ok; [|reflexivity]).
  set (sb := sb_of (fdisk s)) in *.
  pose proof (scan_blocks_spec (fdisk s) sb (Z.to_nat (sb_size sb / BPB + 1)) 0 ltac:(lia)) as Hs.
  rewrite Z.mul_0_l in Hs. destruct (scan_blocks _ _ 0 sb) as [b|].
  - right. destruct Hs as (Hb & Hf & Hall).
    destruct (bit_write s b true (fun x => u8 (Z.lor x (bit_mask (b mod BPB))))) as (H1 & H2 & H3);
      [done | done | |].
    { intros x k Hk. rewrite set_bit, mod_BPB_8 by done. done. }
    set (m := upd _ _ _) in *. assert (Hd : data_start s <= b) by (by apply Hmeta).
    assert (Hz : forall x, memset m (b * BSIZE) 0 BSIZE x = if bool_decide (in_block b x) then 0 else m x)
      by (intros; apply bzero_disk).
    exists b. eexists. split; [reflexivity|]. split; [done|]. split; [done|].
    split; [intros c Hc; apply Hall; lia|].
    set (s' := mkF _ _ _). set (s1 := mkF m (icache s) (logged s)).
    assert (Hag : sb_of (fdisk s') = sb_of (fdisk s1) /\ forall c, 0 <= c < fs_size s1 -> used s' c = used s1 c).
    { apply used_agree; [by cbn [fdisk s1]; rewrite H1|]. intros a Ha. cbn [fdisk s' s1]. rewrite Hz.
      rewrite bool_decide_eq_false_2; [done|]. intros Hin. unfold in_block in *.
      destruct Ha as [Ha|Ha].
      - unfold data_start in Hd. fold sb in Hd. unfold BSIZE in *.
        assert (0 <= sb_ninodes sb / IPB) by (by apply Z.div_pos).
        assert (-1 <= (fs_size s - 1) / BPB) by (apply Z.div_le_lower_bound; [done | unfold BPB, BSIZE; lia]).
        lia.
      - unfold in_bitmap, data_start, fs_size in Ha. cbn [fdisk s1] in Ha. rewrite H1 in Ha.
        unfold data_start, fs_size in Hd. fold sb in Hd, Ha. unfold BSIZE in *. lia. }
    destruct Hag as [A1 A2]. split; [|split].
    + split; [by rewrite A1 | | done]. intros c Hc. rewrite A2; [by apply H2|].
      unfold fs_size. cbn [fdisk s1]. by rewrite H1.
    + intros x Hx. cbn [fdisk s']. rewrite Hz. by rewrite bool_decide_eq_true_2.
    + intros x Hx Hxb. cbn [fdisk s']. rewrite Hz, bool_decide_eq_false_2 by done. by apply H3.
  - left. split; [done|]. intros c Hc. apply Hs; [|exact (proj2 Hc)].
    assert (fs_size s < (sb_size sb / BPB + 1) * BPB).
    { unfold fs_size. fold sb. pose proof (Z.mul_succ_div_gt (sb_size sb) BPB ltac:(done)). lia. }
    split; [lia|]. rewrite Z.add_0_l, Z2Nat.id; [lia|].
    assert (0 <= sb_size sb / BPB) by (by apply Z.div_pos). lia.
Qed.

(** Block allocation.  If no metadata block is marked free, [balloc] panics
    only when every block is in use; otherwise it returns the lowest free
    block, marks exactly that block used, fills it with zeros and changes no
    other byte outside the bitmap; [bfree] of that block then restores every
    bit of the bitmap, and a second [bfree] panics. *)
Theorem balloc_bfree s :
  meta_used s -> 0 <= fs_size s ->
  (balloc s = Panic "balloc: out of blocks" /\ forall c, 0 <= c < fs_size s -> used s c = true) \/
  exists b s', balloc s = Ok (b, s') /\ 0 <= b < fs_size s /\ used s b = false /\
    (forall c, 0 <= c < b -> used s c = true) /\
    (forall c, 0 <= c < fs_size s -> used s' c = if c =? b then true else used s c) /\
    (forall x, in_block b x -> fdisk s' x = 0) /\
    (forall x, ~ in_bitmap s x -> ~ in_block b x -> fdisk s' x = fdisk s x) /\
    exists s2, bfree b s' = Ok (tt, s2) /\ (forall c, 0 <= c < fs_size s -> used s2 c = used s c) /\
      bfree b s2 = Panic "freeing free block".
Proof.
  intros Hm Hsz. destruct (balloc_run s Hm Hsz) as [H|(b & s1 & E & Hb & Hf & Hlow & [B1 B2 B3] & Hz & Hout)];
    [by left | right].
  exists b, s1. do 7 (split; [done|]).
  assert (Hn1 : 0 <= sb_ninodes (sb_of (fdisk s1))) by (rewrite B1; apply Hm).
  assert (Hs1 : fs_size s1 = fs_size s) by (unfold fs_size; by rewrite B1).
  assert (Hu1 : used s1 b = true) by (rewrite B2 by done; by rewrite Z.eqb_refl).
  pose proof (bfree_run s1 b Hn1 ltac:(lia)) as Hr. rewrite Hu1 in Hr.
  destruct Hr as (s2 & E2 & [C1 C2 C3] & _). exists s2. split; [done|].
  assert (Hu2 : forall c, 0 <= c < fs_size s -> used s2 c = used s c).
  { intros c Hc. rewrite C2, B2 by lia. destruct (Z.eqb_spec c b); by subst. }
  split; [done|].
  pose proof (bfree_run s2 b ltac:(by rewrite C1) ltac:(unfold fs_size in *; rewrite C1; lia)) as Hr2.
  by rewrite Hu2, Hf in Hr2.
Qed.

(** ** The inode cache *)
Definition inode_key (i : inode) : Z * Z := (i_dev i, i_inum i).
Record icache_ok (l : list inode) : Prop := mkIcacheOk {
  ic_ref : Forall (fun i => 0 <= i_ref i) l;
  ic_uniq : forall j k i i', l !! j = Some i -> l !! k = Some i' ->
    0 < i_ref i -> 0 < i_ref i' -> inode_key i = inode_key i' -> j = k }.

(** The references to inode [inum] of device [dev]. *)
Definition refs (l : list inode) (dev inum : Z) : Z :=
  fold_right (fun i acc => (if decide (inode_key i = (dev, inum)) then i_ref i else 0) + acc) 0 l.

Definition hits (dev inum : Z) (i : inode) : Prop := 0 < i_ref i /\ inode_key i = (dev, inum).

Lemma iget_scan_spec l dev inum : forall k e,
  match iget_scan l k dev inum e with
  | inl ip => exists j i, ip = k + Z.of_nat j /\ l !! j = Some i /\ hits dev inum i
  | inr r => Forall (fun i => ~ hits dev inum i) l /\
      match r with
      | Some ip => Some ip = e \/ e = None /\ exists j i, ip = k + Z.of_nat j /\ l !! j = Some i /\ i_ref i = 0
      | None => e = None /\ Forall (fun i => i_ref i <> 0) l
      end
  end.
Proof.
  induction l as [|i l IH]; intros k e; cbn [iget_scan].
  { split; [constructor|]. destruct e; [by left|]. by split; [|constructor]. }
  destruct (_ && _) eqn:E.
  { exists 0%nat, i. split; [lia|]. split; [done|]. rewrite !andb_true_iff, !Z.eqb_eq, Z.gtb_lt in E.
    unfold hits, inode_key. naive_solver. }
  assert (Hno : ~ hits dev inum i).
  { intros [H1 [= H2 H3]]. rewrite H2, H3, !Z.eqb_refl, !andb_true_r, Z.gtb_ltb in E.
    apply Z.ltb_ge in E. lia. }
  specialize (IH (k + 1) (match e with None => if i_ref i =? 0 then Some k else None | _ => e end)).
  destruct (iget_scan l (k + 1) _ _ _) as [ip|r].
  - destruct IH as (j & i' & -> & Hj & Hh). exists (S j), i'. split; [lia|]. by split.
  - destruct IH as [Hf Hr]. split; [by constructor|]. destruct r as [ip|].
    + destruct Hr as [Hr|(He & j & i' & -> & Hj & Hi)].
      * destruct e; [by left|]. destruct (Z.eqb_spec (i_ref i) 0); [|done]. right. split; [done|].
        exists 0%nat, i. split; [|by split]. injection Hr as ->. lia.
      * destruct e; [done|]. right. split; [done|]. exists (S j), i'. split; [lia|]. by split.
    + destruct Hr as [He Hr]. destruct e; [done|]. split; [done|]. constructor; [|done].
      by destruct (Z.eqb_spec (i_ref i) 0).
Qed.

Lemma refs_insert l j i i' dev inum :
  l !! j = Some i ->
  refs (<[j := i']> l) dev inum =
    refs l dev inum - (if decide (inode_key i = (dev, inum)) then i_ref i else 0)
                    + (if decide (inode_key i' = (dev, inum)) then i_ref i' else 0).
Proof.
  revert j. induction l as [|x l IH]; intros [|j] H; simplify_eq/=; [lia|]. rewrite (IH _ H). lia.
Qed.
Lemma set_inode_run s j f i :
  icache s !! j = Some i ->
  set_inode (Z.of_nat j) f s = Ok (tt, mkF (fdisk s) (<[j := f i]> (icache s)) (logged s)).
Proof.
  intros H. unfold set_inode. destruct (Z.ltb_spec (Z.of_nat j) 0); [lia|]. by rewrite Nat2Z.id, H.
Qed.

(** Replacing an entry keeps uniqueness if its key is new or unchanged. *)
Lemma icache_insert l j i i' :
  icache_ok l -> l !! j = Some i -> 0 <= i_ref i' ->
  (0 < i_ref i' -> (0 < i_ref i /\ inode_key i' = inode_key i) \/
                   Forall (fun x => ~ (0 < i_ref x /\ inode_key x = inode_key i')) l) ->
  icache_ok (<[j := i']> l).
Proof.
  intros [Hr Hu] Hj Hp Hk. pose proof (lookup_lt_Some _ _ _ Hj) as Hlt.
  assert (Hother : forall k x, l !! k = Some x -> k <> j -> 0 < i_ref x -> 0 < i_ref i' -> inode_key x <> inode_key i').
  { intros k x Hx Hne Hxr Hi'. destruct (Hk Hi') as [[Hi ->]|Hf].
    - intros He. apply Hne. by apply (Hu k j x i).
    - intros He. rewrite Forall_lookup in Hf. by apply (Hf k x Hx). }
  split; [by apply Forall_insert|]. intros a b x y Ha Hb Hx Hy Hxy.
  apply list_lookup_insert_Some in Ha as [(<- & <- & _)|[Hna Ha]];
    apply list_lookup_insert_Some in Hb as [(<- & <- & _)|[Hnb Hb]]; [done | | |by apply (Hu a b x y)].
  - exfalso. by apply (Hother b y).
  - exfalso. by apply (Hother a x).
Qed.

(** [s] with entry [j] replaced. *)
Definition with_inode (s : fstate) (j : nat) (i : inode) : fstate :=
  mkF (fdisk s) (<[j := i]> (icache s)) (logged s).
(** One reference more to inode [inum] of [dev], in entry [j]. *)
Definition one_more (l l' : list inode) (dev inum : Z) : Prop :=
  icache_ok l' /\
  forall d n, refs l' d n = refs l d n + if decide ((d, n) = (dev, inum)) then 1 else 0.

Lemma add_reference l j i dev inum :
  icache_ok l -> l !! j = Some i -> hits dev inum i ->
  one_more l (<[j := with_ref (i_ref i + 1) i]> l) dev inum.
Proof.
  intros Hok Hj [Hr Hk]. split.
  - apply (icache_insert l j i); [done | done | simpl; lia | left; done].
  - intros d n. rewrite (refs_insert _ _ _ _ _ _ Hj).
    change (inode_key (with_ref (i_ref i + 1) i)) with (inode_key i). rewrite Hk.
    destruct (decide ((dev, inum) = (d, n))), (decide ((d, n) = (dev, inum))); try congruence; simpl; lia.
Qed.
Lemma recycle_entry l j i dev inum :
  icache_ok l -> l !! j = Some i -> i_ref i = 0 -> Forall (fun i => ~ hits dev inum i) l ->
  one_more l (<[j := renamed dev inum i]> l) dev inum.
Proof.
  intros Hok Hj Hr Hno. split.
  - apply (icache_insert l j i); [done | done | simpl; lia | right; done].
  - intros d n. rewrite (refs_insert _ _ _ _ _ _ Hj), Hr.
    change (inode_key (renamed dev inum i)) with (dev, inum). change (i_ref (renamed dev inum i)) with 1.
    destruct (decide (inode_key i = (d, n))), (decide ((dev, inum) = (d, n))),
      (decide ((d, n) = (dev, inum))); try congruence; lia.
Qed.

Lemma refs_none l dev inum :
  icache_ok l -> Forall (fun i => ~ hits dev inum i) l -> refs l dev inum = 0.
Proof.
  intros [Hr _] Hno. unfold refs. induction l as [|i l IH]; [done|]. inversion Hr; subst. inversion Hno; subst.
  cbn. rewrite IH by done. unfold hits in *. case_decide; [|lia]. destruct (decide (0 < i_ref i)); [naive_solver | lia].
Qed.

Lemma iget_run s dev inum :
  icache_ok (icache s) ->
  (iget dev inum s = Panic "iget: no inodes" /\ refs (icache s) dev inum = 0 /\
   Forall (fun i => 0 < i_ref i) (icache s)) \/
  exists j i', iget dev inum s = Ok (Z.of_nat j, with_inode s j i') /\ (j < length (icache s))%nat /\
    hits dev inum i' /\ one_more (icache s) (<[j := i']> (icache s)) dev inum.
Proof.
  intros Hok. unfold iget. erewrite bind_Ok; [|reflexivity].
  pose proof (iget_scan_spec (icache s) dev inum 0 None) as Hs.
  destruct (iget_scan _ _ _ _ _) as [ip|[ip|]].
  - right. destruct Hs as (j & i & -> & Hj & Hh). rewrite Z.add_0_l.
    exists j, (with_ref (i_ref i + 1) i). rewrite (bind_Ok _ _ _ _ _ (set_inode_run s j _ i Hj)).
    split; [done|]. split; [by eapply lookup_lt_Some|]. split; [|by apply add_reference].
    destruct Hh. split; [simpl; lia | done].
  - right. destruct Hs as (Hno & [?|(_ & j & i & -> & Hj & Hr)]); [done|]. rewrite Z.add_0_l.
    exists j, (renamed dev inum i). rewrite (bind_Ok _ _ _ _ _ (set_inode_run s j _ i Hj)).
    split; [done|]. split; [by eapply lookup_lt_Some|]. split; [by split | by apply recycle_entry].
  - left. destruct Hs as (Hno & _ & Hnz). split; [done|]. split; [by apply refs_none|].
    destruct Hok as [Hr _]. rewrite Forall_lookup in *. intros k i Hk. specialize (Hr k i Hk).
    specialize (Hnz k i Hk). simpl in *. lia.
Qed.

(** A reference taken with [idup] is given back by [iput]. *)
Lemma idup_iput s j i :
  icache s !! j = Some i -> 0 < i_ref i ->
  idup (Z.of_nat j) s = Ok (Z.of_nat j, with_inode s j (with_ref (i_ref i + 1) i)) /\
  iput (Z.of_nat j) (with_inode s j (with_ref (i_ref i + 1) i)) = Ok (tt, s).
Proof.
  intros Hj Hr. pose proof (lookup_lt_Some _ _ _ Hj) as Hlt. split.
  { unfold idup. by rewrite (bind_Ok _ _ _ _ _ (set_inode_run s j _ i Hj)). }
  set (i' := with_ref (i_ref i + 1) i). set (s2 := with_inode s j i').
  assert (Hj2 : icache s2 !! j = Some i') by (by apply list_lookup_insert_eq).
  unfold iput. erewrite bind_Ok; [|unfold inode_at].
  2:{ destruct (Z.ltb_spec (Z.of_nat j) 0); [lia|]. by rewrite Nat2Z.id, Hj2. }
  cbn [i_ref i' with_ref]. destruct (Z.eqb_spec (i_ref i + 1) 1); [lia|]. cbn [andb].
  erewrite bind_Ok; [|reflexivity]. rewrite (set_inode_run s2 j _ i' Hj2). do 2 f_equal.
  unfold s2, with_inode. cbn [icache fdisk logged]. rewrite list_insert_insert_eq.
  replace (with_ref (i_ref i' - 1) i') with i.
  - rewrite list_insert_id by done. by destruct s.
  - unfold i'. destruct i; unfold with_ref; cbn. f_equal. lia.
Qed.

(** The inode cache.  With at most one entry per inode in use: [iget] panics
    only when the inode is not cached and every entry is in use; otherwise it
    returns an entry of that inode, adds one reference to it and none to any
    other inode, and keeps the entries unique, the disk and all other entries;
    [idup] of the entry adds one more reference; [iput] takes one away and
    changes nothing else while another reference remains. *)
Theorem iget_references s dev inum :
  icache_ok (icache s) ->
  (iget dev inum s = Panic "iget: no inodes" /\ refs (icache s) dev inum = 0 /\
   Forall (fun i => 0 < i_ref i) (icache s)) \/
  exists ip s', iget dev inum s = Ok (Z.of_nat ip, s') /\ icache_ok (icache s') /\
    fdisk s' = fdisk s /\
    (exists i, icache s' !! ip = Some i /\ hits dev inum i) /\
    (forall d n, refs (icache s') d n = refs (icache s) d n + if decide ((d, n) = (dev, inum)) then 1 else 0) /\
    (forall k, k <> ip -> icache s' !! k = icache s !! k) /\
    exists s2, idup (Z.of_nat ip) s' = Ok (Z.of_nat ip, s2) /\ icache_ok (icache s2) /\
      (forall d n, refs (icache s2) d n = refs (icache s') d n + if decide ((d, n) = (dev, inum)) then 1 else 0) /\
      iput (Z.of_nat ip) s2 = Ok (tt, s').
Proof.
  intros Hok. destruct (iget_run s dev inum Hok) as [H|(j & i & E & Hlt & Hh & [Hok' Hrefs])]; [by left | right].
  assert (Hj : icache (with_inode s j i) !! j = Some i) by (by apply list_lookup_insert_eq).
  exists j, (with_inode s j i). split; [done|]. split; [done|]. split; [done|]. split; [by exists i|].
  split; [done|]. split; [intros k Hk; by apply list_lookup_insert_ne|].
  destruct (idup_iput (with_inode s j i) j i Hj (proj1 Hh)) as [E1 E2].
  destruct (add_reference _ j i dev inum Hok' Hj Hh) as [A1 A2].
  eexists. split; [exact E1|]. by split_and!.
Qed.

(** ** Path names *)

(** The elements of a path: its non-empty parts between slashes.  [cur] is the
    part read so far. *)
Fixpoint elems_from (cur path : list Z) : list (list Z) :=
  match path with
  | [] => match cur with [] => [] | _ => [cur] end
  | c :: path' =>
      if c =? slash then match cur with [] => elems_from [] path' | _ => cur :: elems_from [] path' end
      else elems_from (cur ++ [c]) path'
  end.
Definition elems (path : list Z) : list (list Z) := elems_from [] path.

Lemma elems_skip path : elems (skip_slashes path) = elems path.
Proof.
  unfold elems. induction path as [|c path IH]; [done|]. cbn. destruct (Z.eqb_spec c slash) as [->|Hc].
  - by rewrite IH.
  - cbn. by destruct (Z.eqb_spec c slash).
Qed.
Lemma take_elem_elems path : forall cur,
  (match take_elem path with (e, r) => cur ++ e end) <> [] ->
  elems_from cur path = let '(e, r) := take_elem path in (cur ++ e) :: elems r.
Proof.
  induction path as [|c path IH]; intros cur; cbn [take_elem elems_from].
  - rewrite app_nil_r. destruct cur; [done|]. done.
  - destruct (Z.eqb_spec c slash) as [->|Hc].
    + rewrite app_nil_r. intros Hne. destruct cur as [|x cur]; [done|].
      unfold elems. cbn [elems_from]. by rewrite Z.eqb_refl.
    + specialize (IH (cur ++ [c])). destruct (take_elem path) as [e r].
      rewrite <- !(assoc_L (++)) in IH. cbn in IH. exact IH.
Qed.
Lemma skip_slashes_head path c r : skip_slashes path = c :: r -> c <> slash.
Proof.
  induction path as [|d path IH]; [done|]. cbn. destruct (Z.eqb_spec d slash); [auto|]. by intros [= -> _].
Qed.
Lemma skip_slashes_length path : (length (skip_slashes path) <= length path)%nat.
Proof. induction path as [|c path IH]; [done|]. cbn. destruct (c =? slash); cbn; lia. Qed.
Lemma take_elem_length path : (length (take_elem path).2 <= length path)%nat.
Proof.
  induction path as [|c path IH]; [done|]. cbn. destruct (c =? slash); [done|].
  destruct (take_elem path); cbn in *; lia.
Qed.
Lemma take_elem_nonempty c path : c <> slash -> (take_elem (c :: path)).1 <> [].
Proof. intros Hc. cbn. destruct (Z.eqb_spec c slash); [done|]. by destruct (take_elem path). Qed.

(** [skipelem] enumerates the elements of a path: it returns 0 exactly when
    the path has no element; otherwise it copies the first element, cut to
    [DIRSIZ] characters, and returns a shorter path without a leading slash
    that has exactly the remaining elements. *)
Theorem skipelem_elements path :
  match skipelem path with
  | None => elems path = []
  | Some (name, rest) =>
      exists e, elems path = e :: elems rest /\ name = take (Z.to_nat DIRSIZ) e /\ e <> [] /\
        (length rest < length path)%nat /\ List.hd 0 rest <> slash
  end.
Proof.
  unfold skipelem. pose proof (elems_skip path) as Hs. pose proof (skip_slashes_length path) as Hl.
  destruct (skip_slashes path) as [|c p] eqn:E; [by rewrite <- Hs|].
  pose proof (skip_slashes_head _ _ _ E) as Hc.
  pose proof (take_elem_nonempty c p Hc) as Hne. pose proof (take_elem_length p) as Hlen.
  pose proof (take_elem_elems (c :: p) []) as He.
  assert (Ht : take_elem (c :: p) = (c :: (take_elem p).1, (take_elem p).2)).
  { cbn. destruct (Z.eqb_spec c slash); [done|]. by destruct (take_elem p). }
  rewrite Ht in *. cbn [fst snd app] in *. exists (c :: (take_elem p).1).
  split; [rewrite elems_skip, <- Hs; by apply He|]. split.
  { destruct (Z.geb_spec (Z.of_nat (length (c :: (take_elem p).1))) DIRSIZ); [done|].
    rewrite take_ge; [done|]. lia. }
  split; [done|]. split.
  - pose proof (skip_slashes_length (take_elem p).2). cbn [length] in *. lia.
  - destruct (skip_slashes (take_elem p).2) as [|d q] eqn:Eq; [done|]. cbn.
    by eapply skip_slashes_head.
Qed.
