(* ===== verification/FsFile.v ===== *)
(** * FsFile: a file is an array of bytes (src/src/fs.c)

    The blocks of an inode form a tree: direct blocks, the blocks of the
    indirect block, and the blocks of the indirect blocks of the doubly
    indirect block.  [bmap] grows the tree; [readi] and [writei] see one array
    of bytes through it, in which a missing block reads as zeros. *)
From S2P Require Import Prelude CString Fs FsFacts.

(** ** The tree of blocks *)
Inductive loc :=
| LD (n : Z)            (* direct block n *)
| LI                    (* the indirect block *)
| LIE (k : Z)           (* its entry k *)
| LDI                   (* the doubly indirect block *)
| LDE (k : Z)           (* its entry k, an indirect block *)
| LDD (k e : Z).        (* entry e of that *)
#[export] Instance loc_eq_dec : EqDecision loc.
Proof. solve_decision. Defined.

Definition valid_loc (l : loc) : Prop :=
  match l with
  | LD n => 0 <= n < NDIRECT
  | LI | LDI => True
  | LIE k | LDE k => 0 <= k < NINDIRECT
  | LDD k e => 0 <= k < NINDIRECT /\ 0 <= e < NINDIRECT
  end.
(** Entry [k] of index block [a]. *)
Definition entry_at (a k : Z) : Z := a * BSIZE + 4 * k.
Definition child (m : mem) (a k : Z) : Z := if a =? 0 then 0 else get32 m (entry_at a k).
(** The block at a place of the tree, 0 when there is none. *)
Definition at_loc (m : mem) (i : inode) (l : loc) : Z :=
  match l with
  | LD n => addr_of i n
  | LI => addr_of i NDIRECT
  | LIE k => child m (addr_of i NDIRECT) k
  | LDI => addr_of i (NDIRECT + 1)
  | LDE k => child m (addr_of i (NDIRECT + 1)) k
  | LDD k e => child m (child m (addr_of i (NDIRECT + 1)) k) e
  end.
(** The place of the block with bytes [bn * BSIZE] and on. *)
Definition loc_of (bn : Z) : loc :=
  if bn <? NDIRECT then LD bn
  else if bn - NDIRECT <? NINDIRECT then LIE (bn - NDIRECT)
  else let k := bn - NDIRECT - NINDIRECT in LDD (k / NINDIRECT) (k mod NINDIRECT).
Definition is_data (l : loc) : Prop :=
  match l with LD _ | LIE _ | LDD _ _ => True | _ => False end.

(** The bytes of the file. *)
Definition byte_at (m : mem) (i : inode) (o : Z) : Z :=
  let b := at_loc m i (loc_of (o / BSIZE)) in
  if b =? 0 then 0 else m (b * BSIZE + o mod BSIZE).

(** ** Well-formed file systems and files *)
Record fs_ok (s : fstate) : Prop := mkFsOk {
  fo_meta : meta_used s;
  fo_size : 0 <= fs_size s < 2 ^ 32 }.
Record tree_ok (s : fstate) (i : inode) : Prop := mkTreeOk {
  tr_addrs : length (i_addrs i) = Z.to_nat (NDIRECT + 2);
  (** no block is in two places *)
  tr_inj : forall l l', valid_loc l -> valid_loc l' -> at_loc (fdisk s) i l <> 0 ->
    at_loc (fdisk s) i l = at_loc (fdisk s) i l' -> l = l';
  (** blocks of the tree are data blocks in use *)
  tr_live : forall l, valid_loc l -> at_loc (fdisk s) i l <> 0 ->
    data_start s <= at_loc (fdisk s) i l < fs_size s /\ used s (at_loc (fdisk s) i l) = true }.

Lemma loc_of_valid bn : 0 <= bn < MAXFILE -> valid_loc (loc_of bn).
Proof.
  intros Hb. unfold loc_of, MAXFILE in *.
  change NDIRECT with 11 in *. change NINDIRECT with 128 in *.
  destruct (Z.ltb_spec bn 11); [simpl; change NDIRECT with 11; lia|].
  destruct (Z.ltb_spec (bn - 11) 128); [simpl; change NINDIRECT with 128; lia|].
  simpl. change NINDIRECT with 128. Z.div_mod_to_equations. lia.
Qed.
Lemma loc_of_data bn : is_data (loc_of bn).
Proof. unfold loc_of. destruct (_ <? _); [done|]. by destruct (_ <? _). Qed.
Lemma loc_of_inj a b : 0 <= a -> 0 <= b -> loc_of a = loc_of b -> a = b.
Proof.
  unfold loc_of. change NDIRECT with 11. change NINDIRECT with 128. intros Ha Hb.
  destruct (Z.ltb_spec a 11), (Z.ltb_spec b 11); [by intros [= ->]|..];
    destruct (Z.ltb_spec (a - 11) 128), (Z.ltb_spec (b - 11) 128); try done; intros [=]; try lia;
    try (Z.div_mod_to_equations; lia).
Qed.

Lemma data_start_pos s : fs_ok s -> 3 <= data_start s.
Proof.
  intros [[Hn _] Hs]. unfold data_start.
  assert (0 <= sb_ninodes (sb_of (fdisk s)) / IPB) by (by apply Z.div_pos).
  assert (-1 <= (fs_size s - 1) / BPB) by (apply Z.div_le_lower_bound; [done | unfold BPB, BSIZE; lia]). lia.
Qed.

(** ** A fresh block *)
Record alloc (s : fstate) (b : Z) (s1 : fstate) : Prop := mkAlloc {
  al_range : data_start s <= b < fs_size s;
  al_fresh : used s b = false;
  al_bits : bit_set s b true s1;
  al_zero : forall x, in_block b x -> fdisk s1 x = 0;
  al_rest : forall x, ~ in_bitmap s x -> ~ in_block b x -> fdisk s1 x = fdisk s x }.
Lemma balloc_alloc s :
  fs_ok s -> balloc s = Panic "balloc: out of blocks" \/ exists b s1, balloc s = Ok (b, s1) /\ alloc s b s1.
Proof.
  intros [Hm Hs]. destruct (balloc_run s Hm ltac:(lia)) as [[H _]|(b & s1 & E & Hb & Hf & _ & Hbs & Hz & Ho)];
    [by left | right]. exists b, s1. split; [done|]. split; try done. split; [|lia]. apply Hm; done.
Qed.

(** The same super block and the same bits, but for block [b]. *)
Lemma fs_ok_bits s b v s1 : fs_ok s -> 0 <= b < fs_size s -> (v = true \/ data_start s <= b) ->
  bit_set s b v s1 ->
  fs_ok s1 /\ fs_size s1 = fs_size s /\ data_start s1 = data_start s.
Proof.
  intros [[Hn Hm] Hs] Hb Hv [B1 B2 _].
  assert (Hsz : fs_size s1 = fs_size s) by (unfold fs_size; by rewrite B1).
  assert (Hds : data_start s1 = data_start s) by (unfold data_start; by rewrite Hsz, B1).
  split; [|done]. split; [|by rewrite Hsz]. split; [by rewrite B1|].
  intros c Hc Hu. rewrite Hsz in Hc. rewrite Hds. rewrite B2 in Hu by done.
  destruct (Z.eqb_spec c b) as [->|]; [naive_solver | by apply Hm].
Qed.
(** A change of data blocks only. *)
Definition same_meta (s s' : fstate) : Prop :=
  forall a, in_block 1 a \/ in_bitmap s a -> fdisk s' a = fdisk s a.
Lemma same_meta_ok s s' : fs_ok s -> same_meta s s' ->
  fs_ok s' /\ fs_size s' = fs_size s /\ data_start s' = data_start s /\
  forall c, 0 <= c < fs_size s -> used s' c = used s c.
Proof.
  intros [[Hn Hm] Hs] Ha. destruct (used_agree s s' Hn Ha) as [Hsb Hu].
  assert (Hsz : fs_size s' = fs_size s) by (unfold fs_size; by rewrite Hsb).
  assert (Hds : data_start s' = data_start s) by (unfold data_start; by rewrite Hsz, Hsb).
  split; [|done]. split; [|by rewrite Hsz]. split; [by rewrite Hsb|].
  intros c Hc. rewrite Hsz in Hc. rewrite Hu, Hds by done. by apply Hm.
Qed.
(** Addresses of data blocks are outside the metadata. *)
Lemma data_not_meta s b x : fs_ok s -> data_start s <= b < fs_size s -> in_block b x ->
  ~ in_bitmap s x /\ ~ in_block 1 x.
Proof.
  intros Hok Hb Hx. pose proof (data_start_pos s Hok) as Hp.
  unfold in_bitmap, in_block, BSIZE in *. lia.
Qed.
Lemma block_disjoint b c x : in_block b x -> in_block c x -> b = c.
Proof. unfold in_block, BSIZE. lia. Qed.
Lemma entry_in a k x : 0 <= k < NINDIRECT -> entry_at a k <= x < entry_at a k + 4 -> in_block a x.
Proof. change NINDIRECT with 128. unfold entry_at, in_block, BSIZE. lia. Qed.

(** ** Growing the tree *)
Definition entry_loc (pl : loc) (k : Z) : loc :=
  match pl with LI => LIE k | LDI => LDE k | LDE j => LDD j k | l => l end.
Definition is_index (pl : loc) : Prop := match pl with LI | LDI | LDE _ => True | _ => False end.

Lemma entry_at_loc m i pl k :
  is_index pl -> at_loc m i (entry_loc pl k) = child m (at_loc m i pl) k.
Proof. by destruct pl. Qed.
Lemma entry_loc_inj pl k pl' k' : is_index pl -> is_index pl' ->
  entry_loc pl k = entry_loc pl' k' -> pl = pl' /\ k = k'.
Proof. destruct pl, pl'; simpl; naive_solver. Qed.
Lemma entry_loc_valid pl k : is_index pl -> valid_loc pl -> 0 <= k < NINDIRECT -> valid_loc (entry_loc pl k).
Proof. by destruct pl. Qed.

Definition slot_loc (n : Z) : loc := if n <? NDIRECT then LD n else if n =? NDIRECT then LI else LDI.
Lemma slot_at m i n : 0 <= n < NDIRECT + 2 -> at_loc m i (slot_loc n) = addr_of i n.
Proof.
  intros Hn. unfold slot_loc. destruct (Z.ltb_spec n NDIRECT); [done|].
  destruct (Z.eqb_spec n NDIRECT); [by subst|]. by replace n with (NDIRECT + 1) by lia.
Qed.
Lemma slot_valid n : 0 <= n < NDIRECT + 2 -> valid_loc (slot_loc n).
Proof.
  intros Hn. unfold slot_loc. destruct (Z.ltb_spec n NDIRECT); [simpl; lia|]. by destruct (_ =? _).
Qed.
Lemma slot_direct n : 0 <= n < NDIRECT -> slot_loc n = LD n.
Proof. intros Hn. unfold slot_loc. destruct (Z.ltb_spec n NDIRECT); [done | lia]. Qed.

Section Grow.
Context (m m' : mem) (i i' : inode) (l : loc) (b : Z).
Hypotheses (Hroots : forall n, 0 <= n < NDIRECT + 2 -> slot_loc n <> l -> addr_of i' n = addr_of i n)
  (Hold : forall pl k, is_index pl -> valid_loc pl -> 0 <= k < NINDIRECT -> entry_loc pl k <> l ->
    at_loc m i pl <> 0 -> get32 m' (entry_at (at_loc m i pl) k) = get32 m (entry_at (at_loc m i pl) k))
  (Hzero : forall k, 0 <= k < NINDIRECT -> get32 m' (entry_at b k) = 0)
  (Hb : b <> 0) (Hnew : at_loc m' i' l = b) (Habsent : at_loc m i l = 0).

(** An entry of an index block that itself is as before. *)
Lemma grow_entry pl k :
  is_index pl -> valid_loc pl -> 0 <= k < NINDIRECT -> entry_loc pl k <> l ->
  (pl <> l -> at_loc m' i' pl = at_loc m i pl) ->
  at_loc m' i' (entry_loc pl k) = at_loc m i (entry_loc pl k).
Proof using All.
  intros Hi Hv Hk Hne Hpl. rewrite !entry_at_loc by done. unfold child.
  destruct (decide (pl = l)) as [->|Hpll].
  - rewrite Hnew, Habsent. destruct (Z.eqb_spec b 0); [done|]. by apply Hzero.
  - rewrite Hpl by done. destruct (Z.eqb_spec (at_loc m i pl) 0); [done|]. by apply Hold.
Qed.
Lemma at_grow l' : valid_loc l' -> l' <> l -> at_loc m' i' l' = at_loc m i l'.
Proof using All.
  assert (Hroot : forall n, 0 <= n < NDIRECT + 2 -> slot_loc n <> l ->
            at_loc m' i' (slot_loc n) = at_loc m i (slot_loc n)).
  { intros n Hn Hne. rewrite !slot_at by done. by apply Hroots. }
  assert (Hlde : forall k, 0 <= k < NINDIRECT -> LDE k <> l -> at_loc m' i' (LDE k) = at_loc m i (LDE k)).
  { intros k Hk Hne. apply (grow_entry LDI k); try done. by apply (Hroot (NDIRECT + 1)). }
  intros Hv Hne. destruct l' as [n| |k| |k|k e].
  - simpl in Hv. rewrite <- slot_direct in * by done. apply Hroot; [lia | done].
  - by apply (Hroot NDIRECT).
  - apply (grow_entry LI k); try done. by apply (Hroot NDIRECT).
  - by apply (Hroot (NDIRECT + 1)).
  - by apply Hlde.
  - destruct Hv. apply (grow_entry (LDE k) e); try done. by apply Hlde.
Qed.
End Grow.

(** [s'] is [s] with blocks added to the tree of inode [i], now [i']; the
    bytes of the file are the same. *)
Record grown (s : fstate) (i : inode) (s' : fstate) (i' : inode) : Prop := mkGrown {
  g_fs : fs_ok s';
  g_size : fs_size s' = fs_size s;
  g_start : data_start s' = data_start s;
  g_sb : sb_of (fdisk s') = sb_of (fdisk s);
  g_tree : tree_ok s' i';
  g_keep : forall l, valid_loc l -> at_loc (fdisk s) i l <> 0 ->
    at_loc (fdisk s') i' l = at_loc (fdisk s) i l;
  g_bytes : forall o, 0 <= o < MAXFILE * BSIZE -> byte_at (fdisk s') i' o = byte_at (fdisk s) i o;
  g_inode : exists l, i' = mkInode (i_dev i) (i_inum i) (i_ref i) (i_flags i) (i_type i) (i_major i)
                             (i_minor i) (i_nlink i) (i_size i) l }.

Lemma grown_refl s i : fs_ok s -> tree_ok s i -> grown s i s i.
Proof. intros Hf Ht. split; try done. exists (i_addrs i). by destruct i. Qed.
Lemma grown_trans s i s1 i1 s2 i2 : grown s i s1 i1 -> grown s1 i1 s2 i2 -> grown s i s2 i2.
Proof.
  intros [A1 A2 A3 A4 A5 A6 A7 [l1 A8]] [B1 B2 B3 B4 B5 B6 B7 [l2 B8]]. split; try done; try congruence.
  - intros l Hl Hne. rewrite <- A6 by done. apply B6; [done|]. by rewrite A6.
  - intros o Ho. rewrite <- A7 by done. by apply B7.
  - exists l2. by rewrite B8, A8.
Qed.

(** The facts shared by the two ways to attach the fresh block [b] at [l]. *)
Section Attach.
Context (s s1 s2 : fstate) (i i2 : inode) (l : loc) (b : Z).
Hypotheses (Hfs : fs_ok s) (Ht : tree_ok s i) (Hal : alloc s b s1) (Hl : valid_loc l)
  (Hlen : length (i_addrs i2) = Z.to_nat (NDIRECT + 2))
  (Habs : at_loc (fdisk s) i l = 0) (Hnew : at_loc (fdisk s2) i2 l = b)
  (Hat : forall l', valid_loc l' -> l' <> l -> at_loc (fdisk s2) i2 l' = at_loc (fdisk s) i l')
  (Hmeta : same_meta s1 s2)
  (Hzero : forall x, in_block b x -> fdisk s2 x = 0)
  (Hdata : forall l' x, is_data l' -> valid_loc l' -> at_loc (fdisk s) i l' <> 0 ->
     in_block (at_loc (fdisk s) i l') x -> fdisk s2 x = fdisk s x)
  (Hinode : exists k, i2 = mkInode (i_dev i) (i_inum i) (i_ref i) (i_flags i) (i_type i) (i_major i)
                             (i_minor i) (i_nlink i) (i_size i) k).

Lemma attach_bits :
  fs_ok s2 /\ fs_size s2 = fs_size s /\ data_start s2 = data_start s /\
  sb_of (fdisk s2) = sb_of (fdisk s) /\
  forall c, 0 <= c < fs_size s -> used s2 c = if c =? b then true else used s c.
Proof using All.
  pose proof (al_range _ _ _ Hal) as Hr. pose proof (data_start_pos s Hfs) as Hp.
  destruct (fs_ok_bits s b true s1 Hfs ltac:(lia) ltac:(by left) (al_bits _ _ _ Hal)) as (F1 & Z1 & D1).
  destruct (same_meta_ok s1 s2 F1 Hmeta) as (F2 & Z2 & D2 & U2).
  destruct (used_agree s1 s2 (proj1 (fo_meta _ F1)) Hmeta) as [Hsb _].
  split_and!; [done | congruence | congruence | |].
  - rewrite Hsb. apply (bs_sb _ _ _ _ (al_bits _ _ _ Hal)).
  - intros c Hc. rewrite U2 by lia. by apply (bs_used _ _ _ _ (al_bits _ _ _ Hal)).
Qed.

Lemma attach_tree : tree_ok s2 i2.
Proof using All.
  destruct attach_bits as (_ & Hz & Hd & _ & Hu). pose proof (al_range _ _ _ Hal) as Hr.
  assert (Hfresh : forall l', valid_loc l' -> at_loc (fdisk s) i l' <> b).
  { intros l' Hv He. pose proof (data_start_pos s Hfs).
    destruct (tr_live _ _ Ht l' Hv) as [_ Hx]; [rewrite He; lia|].
    rewrite He in Hx. by rewrite (al_fresh _ _ _ Hal) in Hx. }
  split; [done| |].
  - intros l1 l2 H1 H2. destruct (decide (l1 = l)) as [->|N1], (decide (l2 = l)) as [->|N2]; [done|..].
    + rewrite Hnew, Hat by done. intros _ He. symmetry in He. by apply Hfresh in He.
    + rewrite Hnew, Hat by done. intros _ He. by apply Hfresh in He.
    + rewrite !Hat by done. by apply (tr_inj _ _ Ht).
  - intros l' Hv. destruct (decide (l' = l)) as [->|N].
    + rewrite Hnew. intros _. rewrite Hd, Hz. split; [done|]. pose proof (data_start_pos s Hfs).
      rewrite Hu by lia. by rewrite Z.eqb_refl.
    + rewrite Hat by done. intros Hne. destruct (tr_live _ _ Ht l' Hv Hne) as [Hrng Hx].
      rewrite Hd, Hz. split; [done|]. pose proof (data_start_pos s Hfs).
      rewrite Hu by lia. by destruct (_ =? b).
Qed.

Lemma attach_bytes o : 0 <= o < MAXFILE * BSIZE -> byte_at (fdisk s2) i2 o = byte_at (fdisk s) i o.
Proof using All.
  intros Ho. unfold byte_at.
  assert (Hbn : 0 <= o / BSIZE < MAXFILE) by (unfold BSIZE in *; Z.div_mod_to_equations; lia).
  pose proof (loc_of_valid _ Hbn) as Hv. pose proof (loc_of_data (o / BSIZE)) as Hdt.
  assert (Hin : forall a, in_block a (a * BSIZE + o mod BSIZE)).
  { intros a. unfold in_block. pose proof (Z.mod_pos_bound o BSIZE ltac:(done)). lia. }
  pose proof (al_range _ _ _ Hal). pose proof (data_start_pos s Hfs).
  destruct (decide (loc_of (o / BSIZE) = l)) as [He|N].
  - rewrite He, Hnew, Habs, Z.eqb_refl. destruct (Z.eqb_spec b 0); [done|]. by apply Hzero.
  - rewrite Hat by done. destruct (Z.eqb_spec (at_loc (fdisk s) i (loc_of (o / BSIZE))) 0); [done|].
    by apply (Hdata (loc_of (o / BSIZE))).
Qed.

Lemma attach_grown : grown s i s2 i2.
Proof using All.
  destruct attach_bits as (F2 & Z2 & D2 & S2 & _).
  split; try done; [exact attach_tree | | exact attach_bytes].
  intros l' Hv Hne. apply Hat; [done|]. by intros ->.
Qed.
End Attach.

(** ** The two steps of [bmap] *)
Lemma tree_block s i l : fs_ok s -> tree_ok s i -> valid_loc l -> at_loc (fdisk s) i l <> 0 ->
  forall b s1 x, alloc s b s1 -> in_block (at_loc (fdisk s) i l) x -> fdisk s1 x = fdisk s x.
Proof.
  intros Hfs Ht Hl Hne b s1 x Hal Hx. destruct (tr_live _ _ Ht l Hl Hne) as [Hr Hu].
  apply (al_rest _ _ _ Hal).
  - by eapply data_not_meta.
  - intros Hb. pose proof (block_disjoint _ _ _ Hx Hb) as He. rewrite He in Hu.
    by rewrite (al_fresh _ _ _ Hal) in Hu.
Qed.
Lemma fresh_differs s i l b s1 : tree_ok s i -> alloc s b s1 -> valid_loc l ->
  at_loc (fdisk s) i l <> 0 -> at_loc (fdisk s) i l <> b.
Proof.
  intros Ht Hal Hl Hne He. destruct (tr_live _ _ Ht l Hl Hne) as [_ Hu]. rewrite He in Hu.
  by rewrite (al_fresh _ _ _ Hal) in Hu.
Qed.
Lemma addr_with i n k b : length (i_addrs i) = Z.to_nat (NDIRECT + 2) -> 0 <= n < NDIRECT + 2 -> 0 <= k ->
  addr_of (with_addr n b i) k = if k =? n then b else addr_of i k.
Proof.
  intros Hlen Hn Hk. unfold addr_of. cbn [i_addrs with_addr].
  destruct (Z.eqb_spec k n) as [->|].
  - rewrite nth_lookup, list_lookup_insert_eq; [done|]. lia.
  - rewrite !nth_lookup, list_lookup_insert_ne by lia. done.
Qed.

Lemma attach_slot s s1 i n b :
  fs_ok s -> tree_ok s i -> alloc s b s1 -> 0 <= n < NDIRECT + 2 -> addr_of i n = 0 ->
  grown s i s1 (with_addr n b i).
Proof.
  intros Hfs Ht Hal Hn Habs. pose proof (data_start_pos s Hfs) as Hp. pose proof (al_range _ _ _ Hal) as Hr.
  assert (Hnew : at_loc (fdisk s1) (with_addr n b i) (slot_loc n) = b).
  { rewrite slot_at by done. rewrite addr_with by (done || apply Ht || lia). by rewrite Z.eqb_refl. }
  apply (attach_grown s s1 s1 i (with_addr n b i) (slot_loc n) b); try done.
  - by apply slot_valid.
  - cbn [i_addrs with_addr]. rewrite length_insert. apply Ht.
  - by rewrite slot_at.
  - intros l' Hv Hne. apply (at_grow (fdisk s) (fdisk s1) i (with_addr n b i) (slot_loc n) b); try done.
    + intros k Hk Hkn. rewrite addr_with by (done || apply Ht || lia).
      destruct (Z.eqb_spec k n); [by subst | done].
    + intros pl k Hpi Hpv Hk Hne' Hpl. apply get32_agree. intros x Hx.
      apply (tree_block s i pl Hfs Ht Hpv Hpl b s1 x Hal). by eapply entry_in.
    + intros k Hk. apply get32_zero. intros x Hx. apply (al_zero _ _ _ Hal). by eapply entry_in.
    + lia.
    + by rewrite slot_at.
  - by apply (al_zero _ _ _ Hal).
  - intros l' x _ Hv Hne Hx. by eapply (tree_block s i l').
  - eexists. reflexivity.
Qed.

Lemma attach_entry s s1 i pl k b :
  fs_ok s -> tree_ok s i -> alloc s b s1 -> is_index pl -> valid_loc pl -> 0 <= k < NINDIRECT ->
  at_loc (fdisk s) i pl <> 0 -> at_loc (fdisk s) i (entry_loc pl k) = 0 ->
  let p := at_loc (fdisk s) i pl in
  grown s i (mkF (put32 (fdisk s1) (entry_at p k) b) (icache s1) (logged s1)) i.
Proof.
  intros Hfs Ht Hal Hpi Hpv Hk Hpl Habs p. pose proof (data_start_pos s Hfs) as Hp.
  pose proof (al_range _ _ _ Hal) as Hr. destruct (tr_live _ _ Ht pl Hpv Hpl) as [Hpr _]. fold p in Hpr.
  pose proof (fresh_differs s i pl b s1 Ht Hal Hpv Hpl) as Hpb. fold p in Hpb.
  set (m2 := put32 _ _ _). set (s2 := mkF m2 _ _).
  assert (Hout : forall x, ~ in_block p x -> m2 x = fdisk s1 x).
  { intros x Hx. apply put32_out. intros He. apply Hx. by eapply entry_in. }
  assert (Hold : forall pl' k', is_index pl' -> valid_loc pl' -> 0 <= k' < NINDIRECT ->
    entry_loc pl' k' <> entry_loc pl k -> at_loc (fdisk s) i pl' <> 0 ->
    get32 m2 (entry_at (at_loc (fdisk s) i pl') k') = get32 (fdisk s) (entry_at (at_loc (fdisk s) i pl') k')).
  { intros pl' k' Hpi' Hpv' Hk' Hne' Hpl'. apply get32_agree. intros x Hx.
    pose proof (entry_in _ _ _ Hk' Hx) as Hxb.
    rewrite <- (tree_block s i pl' Hfs Ht Hpv' Hpl' b s1 x Hal Hxb).
    apply put32_out. intros He. pose proof (entry_in _ _ _ Hk He) as Hxp.
    pose proof (block_disjoint _ _ _ Hxb Hxp) as Heq.
    assert (pl' = pl) as -> by (by apply (tr_inj _ _ Ht)).
    apply Hne'. f_equal. unfold entry_at in *. fold p in Hx. lia. }
  assert (Hp2 : at_loc m2 i pl = p).
  { destruct pl as [n| |j| |j|j e]; try done. subst p. cbn [at_loc]. unfold child.
    destruct (Z.eqb_spec (addr_of i (NDIRECT + 1)) 0) as [|Hz]; [done|].
    by apply (Hold LDI j). }
  assert (Hnew : at_loc m2 i (entry_loc pl k) = b).
  { rewrite entry_at_loc, Hp2 by done. unfold child. destruct (Z.eqb_spec p 0); [done|].
    apply get_put32. destruct Hfs. lia. }
  assert (Hzb : forall x, in_block b x -> m2 x = 0).
  { intros x Hx. rewrite Hout; [by apply (al_zero _ _ _ Hal)|]. intros Hxp.
    by pose proof (block_disjoint _ _ _ Hxp Hx). }
  apply (attach_grown s s1 s2 i i (entry_loc pl k) b); try done.
  - by apply entry_loc_valid.
  - apply Ht.
  - intros l' Hv Hne. apply (at_grow (fdisk s) m2 i i (entry_loc pl k) b); try done; [|lia].
    intros j Hj. apply get32_zero. intros x Hx. apply Hzb. by eapply entry_in.
  - intros a Ha. apply Hout. intros Hx.
    destruct (fs_ok_bits s b true s1 Hfs ltac:(lia) ltac:(by left) (al_bits _ _ _ Hal)) as (F1 & Z1 & D1).
    destruct (data_not_meta s1 p a F1) as [N1 N2]; [lia | done | tauto].
  - intros l' x Hdt Hv Hne Hx. rewrite <- (tree_block s i l' Hfs Ht Hv Hne b s1 x Hal Hx).
    apply Hout. intros Hxp. pose proof (block_disjoint _ _ _ Hx Hxp) as Heq.
    assert (l' = pl) as -> by (by apply (tr_inj _ _ Ht)). by destruct pl.
  - exists (i_addrs i). by destruct i.
Qed.

Lemma grown_disk s i s' s'' i' : fdisk s'' = fdisk s' -> grown s i s' i' -> grown s i s'' i'.
Proof.
  destruct s' as [d ic lg], s'' as [d' ic' lg']. cbn. intros ->.
  intros [[A1 A2] B C D [T1 T2 T3] E F G]. split; try done; by split.
Qed.

(** The result of a step: the disk is full, or block [b] is at [l]. *)
Definition step_ok (j : nat) (s : fstate) (i : inode) (l : loc) (o : outcome (Z * fstate)) : Prop :=
  o = Panic "balloc: out of blocks" \/
  exists b s' i', o = Ok (b, s') /\ icache s' = <[j := i']> (icache s) /\ grown s i s' i' /\
    at_loc (fdisk s') i' l = b /\ b <> 0.

Lemma inode_at_run s j i : icache s !! j = Some i -> inode_at (Z.of_nat j) s = Ok (i, s).
Proof.
  intros H. unfold inode_at. destruct (Z.ltb_spec (Z.of_nat j) 0); [lia|]. by rewrite Nat2Z.id, H.
Qed.

Lemma bmap_slot_run s j i n :
  icache s !! j = Some i -> fs_ok s -> tree_ok s i -> 0 <= n < NDIRECT + 2 ->
  step_ok j s i (slot_loc n) (bmap_slot (Z.of_nat j) n s).
Proof.
  intros Hj Hfs Ht Hn. unfold bmap_slot. rewrite (bind_Ok _ _ _ _ _ (inode_at_run s j i Hj)).
  destruct (Z.eqb_spec (addr_of i n) 0) as [H0|H0].
  - destruct (balloc_alloc s Hfs) as [E|(b & s1 & E & Hal)].
    { left. unfold M_bind at 1. by rewrite E. }
    right. rewrite (bind_Ok _ _ _ _ _ E).
    pose proof (bs_icache _ _ _ _ (al_bits _ _ _ Hal)) as Hic.
    assert (Hj1 : icache s1 !! j = Some i) by (by rewrite Hic).
    rewrite (bind_Ok _ _ _ _ _ (set_inode_run s1 j _ i Hj1)).
    pose proof (attach_slot s s1 i n b Hfs Ht Hal Hn H0) as Hg.
    eexists b, _, (with_addr n b i). split; [reflexivity|]. cbn [icache fdisk]. rewrite Hic.
    split; [done|]. split; [by eapply grown_disk; [|exact Hg]|].
    rewrite slot_at, addr_with by (done || apply Ht || lia). rewrite Z.eqb_refl. split; [done|].
    pose proof (al_range _ _ _ Hal). pose proof (data_start_pos s Hfs). lia.
  - right. exists (addr_of i n), s, i. split; [done|]. rewrite list_insert_id by done.
    split; [done|]. split; [by apply grown_refl|]. by rewrite slot_at.
Qed.
Lemma bmap_entry_run s j i pl k :
  icache s !! j = Some i -> fs_ok s -> tree_ok s i ->
  is_index pl -> valid_loc pl -> 0 <= k < NINDIRECT -> at_loc (fdisk s) i pl <> 0 ->
  step_ok j s i (entry_loc pl k) (bmap_entry (at_loc (fdisk s) i pl) k s).
Proof.
  intros Hj Hfs Ht Hpi Hpv Hk Hpl. unfold bmap_entry. erewrite bind_Ok; [|reflexivity].
  set (p := at_loc (fdisk s) i pl) in *.
  assert (Hch : at_loc (fdisk s) i (entry_loc pl k) = get32 (fdisk s) (p * BSIZE + 4 * k)).
  { rewrite entry_at_loc by done. unfold child. fold p. by destruct (Z.eqb_spec p 0). }
  destruct (Z.eqb_spec (get32 (fdisk s) (p * BSIZE + 4 * k)) 0) as [H0|H0].
  - destruct (balloc_alloc s Hfs) as [E|(b & s1 & E & Hal)].
    { left. unfold M_bind at 1. by rewrite E. }
    right. rewrite (bind_Ok _ _ _ _ _ E). rewrite H0 in Hch.
    pose proof (attach_entry s s1 i pl k b Hfs Ht Hal Hpi Hpv Hk Hpl Hch) as Hg. fold p in Hg. cbv zeta in Hg.
    pose proof (bs_icache _ _ _ _ (al_bits _ _ _ Hal)) as Hic.
    eexists b, _, i. split; [reflexivity|]. cbn [icache fdisk]. rewrite Hic, list_insert_id by done.
    split; [done|]. split; [by eapply grown_disk; [|exact Hg]|].
    pose proof (al_range _ _ _ Hal) as Hr. pose proof (data_start_pos s Hfs). split; [|lia].
    rewrite entry_at_loc by done.
    assert (Hk' : at_loc (put32 (fdisk s1) (p * BSIZE + 4 * k) b) i pl = p)
      by (apply (g_keep _ _ _ _ Hg); done).
    rewrite Hk'. unfold child. destruct (Z.eqb_spec p 0); [done|]. apply get_put32. destruct Hfs. lia.
  - right. exists (get32 (fdisk s) (p * BSIZE + 4 * k)), s, i. split; [done|]. rewrite list_insert_id by done.
    split; [done|]. split; [by apply grown_refl|]. by rewrite Hch.
Qed.

(** A further step on an index block that is already there. *)
Lemma step_then j s i pl k o :
  (j < length (icache s))%nat -> is_index pl -> valid_loc pl -> 0 <= k < NINDIRECT ->
  step_ok j s i pl o ->
  step_ok j s i (entry_loc pl k)
    (match o with Ok (b, s1) => bmap_entry b k s1 | Panic m => Panic m | Fault => Fault | OutOfFuel => OutOfFuel end).
Proof.
  intros Hlen Hpi Hpv Hk [->|(b & s1 & i1 & -> & Hic & Hg & Hat & Hb)]; [by left|].
  assert (Hj1 : icache s1 !! j = Some i1) by (rewrite Hic; by apply list_lookup_insert_eq).
  rewrite <- Hat in *.
  destruct (bmap_entry_run s1 j i1 pl k Hj1 (g_fs _ _ _ _ Hg) (g_tree _ _ _ _ Hg) Hpi Hpv Hk Hb)
    as [E|(c & s2 & i2 & E & Hic2 & Hg2 & Hat2 & Hc)]; rewrite E; [by left | right].
  exists c, s2, i2. split; [done|]. split; [by rewrite Hic2, Hic, list_insert_insert_eq|].
  split; [by eapply grown_trans | done].
Qed.

Lemma bmap_run s j i bn :
  icache s !! j = Some i -> fs_ok s -> tree_ok s i -> 0 <= bn < MAXFILE ->
  step_ok j s i (loc_of bn) (bmap (Z.of_nat j) bn s).
Proof.
  intros Hj Hfs Ht Hbn. pose proof (lookup_lt_Some _ _ _ Hj) as Hlen. unfold bmap, loc_of.
  pose proof (loc_of_valid bn Hbn) as Hv. unfold loc_of in Hv.
  destruct (Z.ltb_spec bn NDIRECT) as [H1|H1].
  { rewrite <- (slot_direct bn) by lia. apply bmap_slot_run; try done. lia. }
  destruct (Z.ltb_spec (bn - NDIRECT) NINDIRECT) as [H2|H2].
  { unfold M_bind. apply (step_then j s i LI); try done. by apply (bmap_slot_run s j i NDIRECT). }
  set (k := bn - NDIRECT - NINDIRECT) in *. destruct Hv as [Hv1 Hv2].
  destruct (Z.ltb_spec k (NINDIRECT * NINDIRECT)) as [H3|H3]; [|unfold MAXFILE in Hbn; lia].
  rewrite <- (bind_assoc (bmap_slot _ _) (fun a => bmap_entry a _) (fun a => bmap_entry a _)).
  unfold M_bind. apply (step_then j s i (LDE (k / NINDIRECT)) (k mod NINDIRECT)); try done.
  apply (step_then j s i LDI (k / NINDIRECT)); try done. by apply (bmap_slot_run s j i (NDIRECT + 1)).
Qed.

(** ** Reading *)
Lemma mod_in_block o off : off / BSIZE = o / BSIZE -> o mod BSIZE = off mod BSIZE + (o - off).
Proof. unfold BSIZE. intros H. Z.div_mod_to_equations. lia. Qed.
Lemma same_block off o k : 0 <= off -> off mod BSIZE + k <= BSIZE -> off <= o < off + k ->
  off / BSIZE = o / BSIZE.
Proof. unfold BSIZE. intros. Z.div_mod_to_equations. lia. Qed.

Lemma chunk_bytes m i off k b :
  at_loc m i (loc_of (off / BSIZE)) = b -> b <> 0 -> 0 <= off -> off mod BSIZE + k <= BSIZE ->
  get_bytes m (b * BSIZE + off mod BSIZE) k = map (byte_at m i) (seqZ off k).
Proof.
  intros Hb Hne Hoff Hk. unfold get_bytes. apply list_eq. intros n. rewrite !list_lookup_fmap.
  destruct (decide (Z.of_nat n < k)) as [Hn|Hn].
  - rewrite !lookup_seqZ_lt by lia. cbn. f_equal. unfold byte_at.
    assert (Hd : off / BSIZE = (off + Z.of_nat n) / BSIZE) by (apply (same_block off _ k); lia).
    rewrite <- Hd, Hb. destruct (Z.eqb_spec b 0); [done|]. f_equal.
    rewrite (mod_in_block (off + Z.of_nat n) off) by done. lia.
  - rewrite !lookup_seqZ_ge by lia. done.
Qed.

(** The result of a loop: the disk is full, or the bytes are now [f]. *)
Record evolved (j : nat) (s : fstate) (i : inode) (s' : fstate) (i' : inode) (f : Z -> Z) : Prop := mkEvolved {
  ev_cache : icache s' = <[j := i']> (icache s);
  ev_fs : fs_ok s';
  ev_sb : sb_of (fdisk s') = sb_of (fdisk s);
  ev_tree : tree_ok s' i';
  ev_keep : forall l, valid_loc l -> at_loc (fdisk s) i l <> 0 ->
    at_loc (fdisk s') i' l = at_loc (fdisk s) i l;
  ev_bytes : forall o, 0 <= o < MAXFILE * BSIZE -> byte_at (fdisk s') i' o = f o;
  ev_inode : exists l, i' = mkInode (i_dev i) (i_inum i) (i_ref i) (i_flags i) (i_type i) (i_major i)
                              (i_minor i) (i_nlink i) (i_size i) l }.
Lemma grown_evolved j s i s' i' :
  icache s' = <[j := i']> (icache s) -> grown s i s' i' -> evolved j s i s' i' (byte_at (fdisk s) i).
Proof. intros Hc [A1 A2 A3 A4 A5 A6 A7 A8]. by split. Qed.
Lemma evolved_trans j s i s1 i1 f s2 i2 g :
  evolved j s i s1 i1 f -> evolved j s1 i1 s2 i2 g -> evolved j s i s2 i2 g.
Proof.
  intros [A1 A2 A3 A4 Ak A5 [l1 A6]] [B1 B2 B3 B4 Bk B5 [l2 B6]]. split; try done; try congruence.
  - by rewrite B1, A1, list_insert_insert_eq.
  - intros l Hl Hne. rewrite <- Ak by done. apply Bk; [done|]. by rewrite Ak.
  - exists l2. by rewrite B6, A6.
Qed.
Lemma evolved_ext j s i s' i' f g :
  (forall o, 0 <= o < MAXFILE * BSIZE -> f o = g o) -> evolved j s i s' i' f -> evolved j s i s' i' g.
Proof. intros H [A1 A2 A3 A4 Ak A5 A6]. split; try done. intros o Ho. rewrite A5 by done. by apply H. Qed.

Lemma chunk_size off n tot : 0 <= off -> tot < n ->
  let k := Z.min (n - tot) (BSIZE - off mod BSIZE) in 0 < k <= n - tot /\ off mod BSIZE + k <= BSIZE.
Proof. intros. pose proof (Z.mod_pos_bound off BSIZE ltac:(done)). lia. Qed.
Lemma block_index off : 0 <= off < MAXFILE * BSIZE -> 0 <= off / BSIZE < MAXFILE.
Proof. unfold BSIZE. intros. Z.div_mod_to_equations. lia. Qed.

Lemma readi_loop_run j n : forall fuel s i off tot,
  icache s !! j = Some i -> fs_ok s -> tree_ok s i ->
  0 <= off -> tot <= n -> off + (n - tot) <= MAXFILE * BSIZE -> n - tot < Z.of_nat fuel ->
  readi_loop fuel (Z.of_nat j) off n tot s = Panic "balloc: out of blocks" \/
  exists s' i', readi_loop fuel (Z.of_nat j) off n tot s =
      Ok (map (byte_at (fdisk s) i) (seqZ off (n - tot)), s') /\
    evolved j s i s' i' (byte_at (fdisk s) i).
Proof.
  induction fuel as [|fuel IH]; intros s i off tot Hj Hfs Ht Hoff Htot Hmax Hf; [lia|].
  cbn [readi_loop]. destruct (Z.ltb_spec tot n) as [Hlt|Hge].
  2:{ right. exists s, i. replace (n - tot) with 0 by lia. split; [done|].
      apply grown_evolved; [by rewrite list_insert_id | by apply grown_refl]. }
  destruct (chunk_size off n tot Hoff Hlt) as [Hk1 Hk2]. set (k := Z.min _ _) in *.
  destruct (bmap_run s j i (off / BSIZE) Hj Hfs Ht) as [E|(b & s1 & i1 & E & Hic & Hg & Hat & Hb)].
  { apply block_index. lia. }
  { left. unfold M_bind at 1. by rewrite E. }
  rewrite (bind_Ok _ _ _ _ _ E). erewrite bind_Ok; [|reflexivity].
  assert (Hj1 : icache s1 !! j = Some i1)
    by (rewrite Hic; apply list_lookup_insert_eq; by eapply lookup_lt_Some).
  destruct (IH s1 i1 (off + k) (tot + k) Hj1 (g_fs _ _ _ _ Hg) (g_tree _ _ _ _ Hg))
    as [E2|(s2 & i2 & E2 & Hev)]; [lia..| |].
  { left. unfold M_bind at 1. by rewrite E2. }
  right. rewrite (bind_Ok _ _ _ _ _ E2). exists s2, i2.
  pose proof (grown_evolved j _ _ _ _ Hic Hg) as Hev1. split.
  - unfold ret. do 2 f_equal. rewrite (chunk_bytes (fdisk s1) i1 off k b) by done.
    replace (n - tot) with (k + (n - (tot + k))) by lia. rewrite seqZ_app by lia. rewrite map_app.
    f_equal; apply map_ext_in; intros o Ho%list_elem_of_In%elem_of_seqZ; apply (g_bytes _ _ _ _ Hg); lia.
  - eapply evolved_trans; [exact Hev1|]. eapply evolved_ext; [|exact Hev].
    intros o Ho. by apply (g_bytes _ _ _ _ Hg).
Qed.

(** ** Writing *)
(** The tree does not see a change outside its index blocks. *)
Lemma at_agree m m' i l :
  (forall pl x, is_index pl -> valid_loc pl -> at_loc m i pl <> 0 -> in_block (at_loc m i pl) x -> m' x = m x) ->
  valid_loc l -> at_loc m' i l = at_loc m i l.
Proof.
  intros H. assert (Hch : forall pl k, is_index pl -> valid_loc pl -> 0 <= k < NINDIRECT ->
    at_loc m' i pl = at_loc m i pl -> at_loc m' i (entry_loc pl k) = at_loc m i (entry_loc pl k)).
  { intros pl k Hpi Hpv Hk Hp. rewrite !entry_at_loc, Hp by done. unfold child.
    destruct (Z.eqb_spec (at_loc m i pl) 0); [done|]. apply get32_agree. intros x Hx.
    apply (H pl); try done. by eapply entry_in. }
  destruct l as [n| |k| |k|k e]; try done.
  - intros Hk. by apply (Hch LI k).
  - intros Hk. by apply (Hch LDI k).
  - intros [Hk He]. apply (Hch (LDE k) e); try done. by apply (Hch LDI k).
Qed.

Definition splice (f : Z -> Z) (off : Z) (l : list Z) (o : Z) : Z :=
  if (off <=? o) && (o <? off + Z.of_nat (length l)) then nth (Z.to_nat (o - off)) l 0 else f o.

Lemma chunk_write j s i off l b x :
  icache s !! j = Some i -> fs_ok s -> tree_ok s i ->
  at_loc (fdisk s) i (loc_of (off / BSIZE)) = b -> b <> 0 -> 0 <= off < MAXFILE * BSIZE ->
  off mod BSIZE + Z.of_nat (length l) <= BSIZE ->
  evolved j s i (mkF (put_bytes (fdisk s) (b * BSIZE + off mod BSIZE) l) (icache s) x) i
    (splice (byte_at (fdisk s) i) off l).
Proof.
  intros Hj Hfs Ht Hat Hb Hoff Hlen. set (m2 := put_bytes _ _ _). set (s2 := mkF m2 _ _).
  pose proof (loc_of_valid _ (block_index off Hoff)) as Hv. pose proof (loc_of_data (off / BSIZE)) as Hdt.
  pose proof (Z.mod_pos_bound off BSIZE ltac:(done)) as Hmod.
  destruct (tr_live _ _ Ht _ Hv) as [Hr _]; [by rewrite Hat|]. rewrite Hat in Hr.
  assert (Hout : forall y, ~ in_block b y -> m2 y = fdisk s y).
  { intros y Hy. unfold m2. rewrite put_bytes_at. destruct (_ && _) eqn:E; [|done]. exfalso. apply Hy.
    rewrite andb_true_iff, Z.leb_le, Z.ltb_lt in E. unfold in_block. lia. }
  assert (Hsame : same_meta s s2).
  { intros a Ha. apply Hout. intros Hx. destruct (data_not_meta s b a Hfs Hr Hx). tauto. }
  assert (Hatl : forall l', valid_loc l' -> at_loc m2 i l' = at_loc (fdisk s) i l').
  { intros l'. apply at_agree. intros pl y Hpi Hpv Hpl Hy. apply Hout. intros Hyb.
    pose proof (block_disjoint _ _ _ Hy Hyb) as Heq. rewrite <- Hat in Heq.
    apply (tr_inj _ _ Ht) in Heq as ->; [|done..]. by destruct (loc_of (off / BSIZE)). }
  destruct (same_meta_ok s s2 Hfs Hsame) as (F2 & Z2 & D2 & U2).
  destruct (used_agree s s2 (proj1 (fo_meta _ Hfs)) Hsame) as [Hsb _].
  split; [by rewrite list_insert_id | done | done | | intros; by apply Hatl | | by exists (i_addrs i); destruct i].
  - split; [apply Ht | |]; cbn [fdisk s2].
    + intros l1 l2 H1 H2. rewrite !Hatl by done. by apply (tr_inj _ _ Ht).
    + intros l' Hl'. rewrite Hatl by done. intros Hne. destruct (tr_live _ _ Ht l' Hl' Hne) as [Hrng Hu].
      rewrite D2, Z2. split; [done|]. pose proof (data_start_pos s Hfs). rewrite U2 by lia. done.
  - intros o Ho. unfold byte_at. cbn [fdisk s2].
    pose proof (loc_of_valid _ (block_index o Ho)) as Hvo. rewrite Hatl by done.
    unfold splice, byte_at. destruct (decide (o / BSIZE = off / BSIZE)) as [He|He].
    + rewrite He, Hat. destruct (Z.eqb_spec b 0); [done|]. unfold m2. rewrite put_bytes_at.
      rewrite (mod_in_block o off) by done.
      destruct (Z.leb_spec off o), (Z.ltb_spec o (off + Z.of_nat (length l))),
        (Z.leb_spec (b * BSIZE + off mod BSIZE) (b * BSIZE + (off mod BSIZE + (o - off)))),
        (Z.ltb_spec (b * BSIZE + (off mod BSIZE + (o - off))) (b * BSIZE + off mod BSIZE + Z.of_nat (length l)));
        simpl; try lia; try done. f_equal. lia.
    + destruct ((off <=? o) && (o <? off + Z.of_nat (length l))) eqn:E.
      { rewrite andb_true_iff, Z.leb_le, Z.ltb_lt in E. exfalso. apply He. symmetry.
        apply (same_block off o (Z.of_nat (length l))); lia. }
      destruct (Z.eqb_spec (at_loc (fdisk s) i (loc_of (o / BSIZE))) 0) as [|Hne]; [done|].
      apply Hout. intros Hx. pose proof (Z.mod_pos_bound o BSIZE ltac:(done)).
      assert (Hin : in_block (at_loc (fdisk s) i (loc_of (o / BSIZE)))
                      (at_loc (fdisk s) i (loc_of (o / BSIZE)) * BSIZE + o mod BSIZE))
        by (unfold in_block; lia).
      pose proof (block_disjoint _ _ _ Hin Hx) as Heq. rewrite <- Hat in Heq.
      apply (tr_inj _ _ Ht) in Heq; [|done..]. apply He.
      apply loc_of_inj; [apply block_index; lia | apply block_index; lia | done].
Qed.

Lemma splice_app f off l1 l2 o :
  splice (splice f off l1) (off + Z.of_nat (length l1)) l2 o = splice f off (l1 ++ l2) o.
Proof.
  unfold splice. rewrite length_app.
  destruct (Z.leb_spec (off + Z.of_nat (length l1)) o),
    (Z.ltb_spec o (off + Z.of_nat (length l1) + Z.of_nat (length l2))), (Z.leb_spec off o),
    (Z.ltb_spec o (off + Z.of_nat (length l1))), (Z.ltb_spec o (off + Z.of_nat (length l1 + length l2)));
    simpl; try done; try lia.
  - rewrite app_nth2 by lia. f_equal. lia.
  - by rewrite app_nth1 by lia.
Qed.
Lemma splice_ext f g off l o : f o = g o -> splice f off l o = splice g off l o.
Proof. intros H. unfold splice. by case_if. Qed.
Lemma splice_nil f off o : splice f off [] o = f o.
Proof.
  unfold splice. destruct (Z.leb_spec off o), (Z.ltb_spec o (off + Z.of_nat (length (@nil Z)))); simpl in *; try done. lia.
Qed.

(** All blocks under these bytes are there. *)
Definition mapped (m : mem) (i : inode) (off n : Z) : Prop :=
  forall o, off <= o < off + n -> at_loc m i (loc_of (o / BSIZE)) <> 0.

Lemma writei_loop_run j : forall fuel s i src off,
  icache s !! j = Some i -> fs_ok s -> tree_ok s i ->
  0 <= off -> off + Z.of_nat (length src) <= MAXFILE * BSIZE -> (length src < fuel)%nat ->
  writei_loop fuel (Z.of_nat j) src off s = Panic "balloc: out of blocks" \/
  exists s' i', writei_loop fuel (Z.of_nat j) src off s = Ok (off + Z.of_nat (length src), s') /\
    evolved j s i s' i' (splice (byte_at (fdisk s) i) off src) /\
    mapped (fdisk s') i' off (Z.of_nat (length src)).
Proof.
  induction fuel as [|fuel IH]; intros s i src off Hj Hfs Ht Hoff Hmax Hf; [lia|].
  destruct src as [|c src0].
  { right. exists s, i. split; [cbn; unfold ret; do 2 f_equal; lia|]. split; [|intros o Ho; simpl in Ho; lia].
    eapply evolved_ext; [intros o _; symmetry; apply splice_nil|].
    apply grown_evolved; [by rewrite list_insert_id | by apply grown_refl]. }
  remember (c :: src0) as src eqn:Hsrc.
  assert (Hlen : 0 < Z.of_nat (length src)) by (subst; simpl; lia).
  replace (writei_loop (S fuel) (Z.of_nat j) src off) with
    (b <- bmap (Z.of_nat j) (off / BSIZE) ;;
     let m := Z.min (Z.of_nat (length src)) (BSIZE - off mod BSIZE) in
     set_disk (fun d => put_bytes d (b * BSIZE + off mod BSIZE) (take (Z.to_nat m) src)) ;;;
     log_write b ;;;
     writei_loop fuel (Z.of_nat j) (drop (Z.to_nat m) src) (off + m)) by (by rewrite Hsrc).
  clear Hsrc c src0. cbv zeta.
  destruct (chunk_size off (Z.of_nat (length src)) 0 Hoff Hlen) as [Hk1 Hk2].
  rewrite Z.sub_0_r in *. set (k := Z.min _ _) in *.
  destruct (bmap_run s j i (off / BSIZE) Hj Hfs Ht) as [E|(b & s1 & i1 & E & Hic & Hg & Hat & Hb)].
  { apply block_index. lia. }
  { left. unfold M_bind at 1. by rewrite E. }
  rewrite (bind_Ok _ _ _ _ _ E). do 2 (erewrite bind_Ok; [|reflexivity]). cbn [fdisk icache Fs.logged].
  assert (Hj1 : icache s1 !! j = Some i1)
    by (rewrite Hic; apply list_lookup_insert_eq; by eapply lookup_lt_Some).
  pose proof (grown_evolved j _ _ _ _ Hic Hg) as Hev1.
  assert (Htk : Z.of_nat (length (take (Z.to_nat k) src)) = k) by (rewrite length_take; lia).
  pose proof (chunk_write j s1 i1 off (take (Z.to_nat k) src) b (Fs.logged s1 ++ [Ev_write b]) Hj1
    (g_fs _ _ _ _ Hg) (g_tree _ _ _ _ Hg) Hat Hb ltac:(lia) ltac:(rewrite Htk; lia)) as Hev2.
  set (s2 := mkF _ _ _) in *.
  destruct (IH s2 i1 (drop (Z.to_nat k) src) (off + k)) as [E3|(s3 & i3 & E3 & Hev3 & Hmap)].
  { exact Hj1. } { apply Hev2. } { apply Hev2. } { lia. }
  { rewrite length_drop. lia. } { rewrite length_drop. lia. }
  { by left. }
  right. exists s3, i3. split; [rewrite E3; do 2 f_equal; rewrite length_drop; lia|]. split.
  - eapply evolved_trans; [exact Hev1|]. eapply evolved_trans; [exact Hev2|].
    eapply evolved_ext; [|exact Hev3]. intros o Ho.
    erewrite splice_ext; [|by apply (ev_bytes _ _ _ _ _ _ Hev2)].
    replace (off + k) with (off + Z.of_nat (length (take (Z.to_nat k) src))) by lia.
    rewrite splice_app, take_drop. apply splice_ext. by apply (g_bytes _ _ _ _ Hg).
  - intros o Ho. destruct (decide (o < off + k)) as [Hok|Hok].
    + rewrite <- (same_block off o k) by lia.
      assert (Hv : valid_loc (loc_of (off / BSIZE))) by (apply loc_of_valid, block_index; lia).
      assert (Ha2 : at_loc (fdisk s2) i1 (loc_of (off / BSIZE)) = b).
      { rewrite <- Hat. apply (ev_keep _ _ _ _ _ _ Hev2); [done | by rewrite Hat]. }
      rewrite (ev_keep _ _ _ _ _ _ Hev3); rewrite ?Ha2; done.
    + apply Hmap. rewrite length_drop. lia.
Qed.

(** ** Reading blocks that are there changes nothing *)
Lemma bmap_slot_there s j i n :
  icache s !! j = Some i -> addr_of i n <> 0 -> bmap_slot (Z.of_nat j) n s = Ok (addr_of i n, s).
Proof.
  intros Hj Hne. unfold bmap_slot. rewrite (bind_Ok _ _ _ _ _ (inode_at_run s j i Hj)).
  by destruct (Z.eqb_spec (addr_of i n) 0).
Qed.
Lemma bmap_entry_there s a k :
  child (fdisk s) a k <> 0 -> a <> 0 /\ bmap_entry a k s = Ok (child (fdisk s) a k, s).
Proof.
  unfold child, bmap_entry. destruct (Z.eqb_spec a 0); [done|]. intros Hne. split; [done|].
  erewrite bind_Ok; [|reflexivity]. unfold entry_at in *.
  by destruct (Z.eqb_spec (get32 (fdisk s) (a * BSIZE + 4 * k)) 0).
Qed.
Lemma bmap_there s j i bn :
  icache s !! j = Some i -> 0 <= bn < MAXFILE -> at_loc (fdisk s) i (loc_of bn) <> 0 ->
  bmap (Z.of_nat j) bn s = Ok (at_loc (fdisk s) i (loc_of bn), s).
Proof.
  intros Hj Hbn. unfold bmap, loc_of. destruct (Z.ltb_spec bn NDIRECT) as [|H1].
  { by apply bmap_slot_there. }
  destruct (Z.ltb_spec (bn - NDIRECT) NINDIRECT) as [|H2]; cbn [at_loc].
  { intros Hne. destruct (bmap_entry_there s _ _ Hne) as [Ha E].
    by rewrite (bind_Ok _ _ _ _ _ (bmap_slot_there s j i NDIRECT Hj Ha)). }
  set (k := bn - NDIRECT - NINDIRECT). intros Hne.
  destruct (Z.ltb_spec k (NINDIRECT * NINDIRECT)) as [|H3]; [|unfold MAXFILE in Hbn; lia].
  destruct (bmap_entry_there s _ _ Hne) as [Hb E2]. destruct (bmap_entry_there s _ _ Hb) as [Ha E1].
  rewrite (bind_Ok _ _ _ _ _ (bmap_slot_there s j i _ Hj Ha)). by rewrite (bind_Ok _ _ _ _ _ E1).
Qed.

Lemma readi_loop_there s j i n :
  icache s !! j = Some i -> forall fuel off tot,
  0 <= off -> tot <= n -> off + (n - tot) <= MAXFILE * BSIZE -> n - tot < Z.of_nat fuel ->
  mapped (fdisk s) i off (n - tot) ->
  readi_loop fuel (Z.of_nat j) off n tot s = Ok (map (byte_at (fdisk s) i) (seqZ off (n - tot)), s).
Proof.
  intros Hj. induction fuel as [|fuel IH]; intros off tot Hoff Htot Hmax Hf Hm; [lia|].
  cbn [readi_loop]. destruct (Z.ltb_spec tot n) as [Hlt|Hge]; [|by replace (n - tot) with 0 by lia].
  destruct (chunk_size off n tot Hoff Hlt) as [Hk1 Hk2]. set (k := Z.min _ _) in *.
  assert (Hat : at_loc (fdisk s) i (loc_of (off / BSIZE)) <> 0) by (apply Hm; lia).
  rewrite (bind_Ok _ _ _ _ _ (bmap_there s j i _ Hj (block_index off ltac:(lia)) Hat)).
  erewrite bind_Ok; [|reflexivity].
  rewrite (bind_Ok _ _ _ _ _ (IH (off + k) (tot + k) ltac:(lia) ltac:(lia) ltac:(lia) ltac:(lia)
    ltac:(intros o Ho; apply Hm; lia))).
  rewrite (chunk_bytes (fdisk s) i off k _ eq_refl Hat Hoff Hk2).
  unfold ret. do 2 f_equal. replace (n - tot) with (k + (n - (tot + k))) by lia.
  rewrite seqZ_app by lia. by rewrite map_app.
Qed.

(** ** The size of the file *)
Definition inode_ok (s : fstate) (i : inode) : Prop :=
  0 <= i_inum i < sb_ninodes (sb_of (fdisk s)) /\ i_type i <> T_DEV /\ 0 <= i_size i <= MAXFILE * BSIZE.

Lemma put_words_out l : forall m a x, ~ (a <= x < a + 4 * Z.of_nat (length l)) -> put_words m a l x = m x.
Proof.
  induction l as [|v l IH]; intros m a x Hx; cbn [put_words length] in *; [done|].
  rewrite IH by lia. apply put32_out. lia.
Qed.
Lemma put16_out m a v x : ~ (a <= x < a + 2) -> put16 m a v x = m x.
Proof. intros Hx. unfold put16. rewrite !upd_ne by lia. done. Qed.

(** [iupdate] changes only the disk inode. *)
Lemma iupdate_run s j i :
  icache s !! j = Some i -> length (i_addrs i) = Z.to_nat (NDIRECT + 2) ->
  exists s', iupdate (Z.of_nat j) s = Ok (tt, s') /\ icache s' = icache s /\
    forall x, ~ in_block (IBLOCK (i_inum i)) x -> fdisk s' x = fdisk s x.
Proof.
  intros Hj Hlen. unfold iupdate. rewrite (bind_Ok _ _ _ _ _ (inode_at_run s j i Hj)).
  eexists. split; [reflexivity|]. split; [done|]. intros x Hx. cbn [fdisk].
  assert (Ha : forall k, 0 <= k < DINODE -> x <> dinode_at (i_inum i) + k).
  { intros k Hk ->. apply Hx. unfold in_block, dinode_at. change BSIZE with 512.
    change DINODE with 64 in *. change IPB with 8.
    pose proof (Z.mod_pos_bound (i_inum i) 8 ltac:(lia)). lia. }
  assert (Hout : ~ (dinode_at (i_inum i) <= x < dinode_at (i_inum i) + 64)).
  { intros Hr. apply (Ha (x - dinode_at (i_inum i))); [change DINODE with 64; lia | lia]. }
  assert (Hw : Z.of_nat (length (i_addrs i)) = 13) by (rewrite Hlen; done).
  rewrite put_words_out by lia. rewrite put32_out by lia. rewrite !put16_out by lia. done.
Qed.

Lemma with_size_at m v i l : at_loc m (with_size v i) l = at_loc m i l.
Proof. by destruct l. Qed.

(** A change of the inode blocks only: the tree and the bytes are the same. *)
Lemma outside_tree s s' i :
  fs_ok s -> tree_ok s i -> 0 <= i_inum i < sb_ninodes (sb_of (fdisk s)) ->
  (forall x, ~ in_block (IBLOCK (i_inum i)) x -> fdisk s' x = fdisk s x) ->
  fs_ok s' /\ sb_of (fdisk s') = sb_of (fdisk s) /\ tree_ok s' i /\
  (forall l, valid_loc l -> at_loc (fdisk s') i l = at_loc (fdisk s) i l) /\
  forall o, 0 <= o < MAXFILE * BSIZE -> byte_at (fdisk s') i o = byte_at (fdisk s) i o.
Proof.
  intros Hfs Ht Hin Hout. pose proof (data_start_pos s Hfs) as Hp.
  assert (Hib : 2 <= IBLOCK (i_inum i) <= sb_ninodes (sb_of (fdisk s)) / IPB + 2).
  { unfold IBLOCK. change IPB with 8. Z.div_mod_to_equations. lia. }
  assert (Hds : IBLOCK (i_inum i) < data_start s).
  { unfold data_start. assert (-1 <= (fs_size s - 1) / BPB); [|lia].
    apply Z.div_le_lower_bound; [done|]. destruct Hfs. unfold BPB, BSIZE. lia. }
  assert (Hsame : same_meta s s').
  { intros a Ha. apply Hout. unfold in_block, in_bitmap, BSIZE in *. lia. }
  assert (Hdat : forall l x, valid_loc l -> at_loc (fdisk s) i l <> 0 -> in_block (at_loc (fdisk s) i l) x ->
            fdisk s' x = fdisk s x).
  { intros l x Hl Hne Hx. destruct (tr_live _ _ Ht l Hl Hne) as [Hr _]. apply Hout. intros Hb.
    pose proof (block_disjoint _ _ _ Hx Hb). lia. }
  assert (Hatl : forall l, valid_loc l -> at_loc (fdisk s') i l = at_loc (fdisk s) i l).
  { intros l. apply at_agree. intros pl x _ Hpv Hpl Hx. by apply (Hdat pl). }
  destruct (same_meta_ok s s' Hfs Hsame) as (F2 & Z2 & D2 & U2).
  destruct (used_agree s s' (proj1 (fo_meta _ Hfs)) Hsame) as [Hsb _].
  split_and!; try done.
  - split; [apply Ht | |].
    + intros l1 l2 H1 H2. rewrite !Hatl by done. by apply (tr_inj _ _ Ht).
    + intros l Hl. rewrite Hatl by done. intros Hne. destruct (tr_live _ _ Ht l Hl Hne) as [Hrng Hu].
      rewrite D2, Z2, U2 by lia. done.
  - intros o Ho. unfold byte_at. pose proof (loc_of_valid _ (block_index o Ho)) as Hv. rewrite Hatl by done.
    destruct (Z.eqb_spec (at_loc (fdisk s) i (loc_of (o / BSIZE))) 0) as [|Hne]; [done|].
    apply (Hdat _ _ Hv Hne). unfold in_block. pose proof (Z.mod_pos_bound o BSIZE ltac:(done)). lia.
Qed.

(** The file after a write: inode [i'] in state [s'] has the bytes [f] and the
    size [n]. *)
Record file_now (j : nat) (s : fstate) (i : inode) (s' : fstate) (i' : inode) (f : Z -> Z) (n : Z) : Prop :=
  mkFileNow {
  fn_cache : icache s' = <[j := i']> (icache s);
  fn_fs : fs_ok s';
  fn_tree : tree_ok s' i';
  fn_inode : inode_ok s' i';
  fn_size : i_size i' = n;
  fn_bytes : forall o, 0 <= o < MAXFILE * BSIZE -> byte_at (fdisk s') i' o = f o;
  fn_same : i_ref i' = i_ref i /\ i_flags i' = i_flags i;
  fn_id : i_dev i' = i_dev i /\ i_inum i' = i_inum i /\ i_type i' = i_type i;
  fn_keep : forall l, valid_loc l -> at_loc (fdisk s) i l <> 0 -> at_loc (fdisk s') i' l = at_loc (fdisk s) i l }.

Lemma writei_run devsw s j i src off :
  icache s !! j = Some i -> fs_ok s -> tree_ok s i -> inode_ok s i ->
  0 <= off <= i_size i -> off + Z.of_nat (length src) <= MAXFILE * BSIZE ->
  writei devsw (Z.of_nat j) src off s = Panic "balloc: out of blocks" \/
  exists s' i', writei devsw (Z.of_nat j) src off s = Ok (Z.of_nat (length src), s') /\
    file_now j s i s' i' (splice (byte_at (fdisk s) i) off src)
      (Z.max (i_size i) (off + Z.of_nat (length src))) /\
    mapped (fdisk s') i' off (Z.of_nat (length src)).
Proof.
  intros Hj Hfs Ht (Hin & Hty & Hsz) Hoff Hmax. pose proof (lookup_lt_Some _ _ _ Hj) as Hlt.
  assert (Hbig : MAXFILE * BSIZE = 8459776) by done.
  unfold writei. rewrite (bind_Ok _ _ _ _ _ (inode_at_run s j i Hj)).
  destruct (Z.eqb_spec (i_type i) T_DEV); [done|].
  destruct (Z.gtb_spec off (i_size i)); [lia|]. rewrite u32_small by lia.
  destruct (Z.ltb_spec (off + Z.of_nat (length src)) off); [lia|]. cbn [orb].
  destruct (Z.gtb_spec (off + Z.of_nat (length src)) (MAXFILE * BSIZE)); [lia|].
  destruct (writei_loop_run j (S (length src)) s i src off Hj Hfs Ht ltac:(lia) Hmax ltac:(lia))
    as [E|(s1 & i1 & E & [Ec Ef Es Et Ek Eb [al Ei]] & Hmap)].
  { left. unfold M_bind at 1. by rewrite E. }
  right. rewrite (bind_Ok _ _ _ _ _ E).
  assert (Hj1 : icache s1 !! j = Some i1) by (rewrite Ec; by apply list_lookup_insert_eq).
  rewrite (bind_Ok _ _ _ _ _ (inode_at_run s1 j i1 Hj1)).
  assert (Hsize : i_size i1 = i_size i) by (by rewrite Ei). rewrite Hsize.
  assert (Hin1 : 0 <= i_inum i1 < sb_ninodes (sb_of (fdisk s1))) by (rewrite Es, Ei; done).
  assert (Hty1 : i_type i1 <> T_DEV) by (by rewrite Ei).
  destruct ((Z.of_nat (length src) >? 0) && (off + Z.of_nat (length src) >? i_size i)) eqn:Hgrow.
  - rewrite andb_true_iff, !Z.gtb_lt in Hgrow.
    set (v := off + Z.of_nat (length src)) in *. set (i2 := with_size v i1).
    rewrite bind_assoc, (bind_Ok _ _ _ _ _ (set_inode_run s1 j _ i1 Hj1)). fold i2.
    set (s2 := mkF _ _ _).
    assert (Hj2 : icache s2 !! j = Some i2)
      by (apply list_lookup_insert_eq; rewrite Ec, length_insert; done).
    destruct (iupdate_run s2 j i2 Hj2 (tr_addrs _ _ Et)) as (s3 & E3 & Hc3 & Hout).
    rewrite (bind_Ok _ _ _ _ _ E3).
    destruct (outside_tree s1 s3 i1 Ef Et Hin1 Hout) as (F3 & S3 & [T1 T2 T3] & A3 & B3).
    exists s3, i2. split; [done|]. split.
    + split; [by rewrite Hc3; cbn; rewrite Ec, list_insert_insert_eq | done | | | | | unfold i2; cbn; by rewrite Ei | unfold i2; cbn; by rewrite Ei |].
      * unfold i2. split; [done | intros l l'; rewrite !with_size_at; apply T2 | intros l; rewrite with_size_at; apply T3].
      * split; [by rewrite S3|]. split; [done|]. cbn. lia.
      * cbn. lia.
      * intros o Ho. rewrite <- Eb, <- B3 by done. unfold byte_at, i2. by rewrite with_size_at.
      * intros l Hl Hne. unfold i2. by rewrite with_size_at, A3, Ek.
    + intros o Ho. unfold i2. rewrite with_size_at, A3; [by apply Hmap|]. apply loc_of_valid, block_index. lia.
  - erewrite bind_Ok; [|reflexivity]. exists s1, i1. split; [done|]. split; [|done].
    rewrite andb_false_iff, !Z.gtb_ltb, !Z.ltb_ge in Hgrow.
    split; [done | done | done | | rewrite Hsize; lia | done | by rewrite Ei | by rewrite Ei | done].
    split; [done|]. split; [done|]. rewrite Hsize. lia.
Qed.

(** C6 A file is an array of bytes.  Writing [src] at an offset up to the file's
    size either runs out of disk blocks (a panic) or returns the full count;
    then the file holds [src] at that offset and its old bytes elsewhere
    (through direct, indirect and doubly indirect blocks), its size has grown
    to cover the write, all invariants hold again, and reading the same range
    returns exactly [src] and changes nothing. *)
Theorem writei_then_readi devsw s j i src off :
  icache s !! j = Some i -> fs_ok s -> tree_ok s i -> inode_ok s i ->
  0 <= off <= i_size i -> off + Z.of_nat (length src) <= MAXFILE * BSIZE ->
  writei devsw (Z.of_nat j) src off s = Panic "balloc: out of blocks" \/
  exists s' i', writei devsw (Z.of_nat j) src off s = Ok (Z.of_nat (length src), s') /\
    file_now j s i s' i' (splice (byte_at (fdisk s) i) off src)
      (Z.max (i_size i) (off + Z.of_nat (length src))) /\
    readi devsw (Z.of_nat j) off (Z.of_nat (length src)) s' = Ok ((Z.of_nat (length src), src), s').
Proof.
  intros Hj Hfs Ht Hi Hoff Hmax.
  destruct (writei_run devsw s j i src off Hj Hfs Ht Hi Hoff Hmax) as [E|(s' & i' & E & Hfn & Hmap)];
    [by left | right]. exists s', i'. split; [done|]. split; [done|].
  pose proof Hfn as [Fc Ff Ft (Fi & Fty & Fz) Fs Fb _ _ _].
  assert (Hj' : icache s' !! j = Some i')
    by (rewrite Fc; apply list_lookup_insert_eq; by eapply lookup_lt_Some).
  unfold readi. rewrite (bind_Ok _ _ _ _ _ (inode_at_run s' j i' Hj')).
  assert (Hbig : MAXFILE * BSIZE = 8459776) by done. set (n := Z.of_nat (length src)) in *.
  destruct (Z.eqb_spec (i_type i') T_DEV); [done|]. rewrite Fs.
  destruct (Z.gtb_spec off (Z.max (i_size i) (off + n))); [lia|]. rewrite u32_small by lia.
  destruct (Z.ltb_spec (off + n) off); [lia|]. cbn [orb].
  destruct (Z.gtb_spec (off + n) (Z.max (i_size i) (off + n))); [lia|].
  rewrite (bind_Ok _ _ _ _ _ (readi_loop_there s' j i' n Hj' (S (Z.to_nat n)) off 0 ltac:(lia) ltac:(lia)
    ltac:(lia) ltac:(lia) ltac:(by rewrite Z.sub_0_r))).
  unfold ret. rewrite Z.sub_0_r. do 3 f_equal. apply list_eq. intros k. rewrite list_lookup_fmap.
  destruct (decide (k < length src)%nat) as [Hk|Hk].
  - rewrite lookup_seqZ_lt by lia. cbn. rewrite Fb by lia. unfold splice.
    destruct (Z.leb_spec off (off + Z.of_nat k)); [|lia].
    destruct (Z.ltb_spec (off + Z.of_nat k) (off + Z.of_nat (length src))); [|lia]. cbn [andb].
    replace (Z.to_nat (off + Z.of_nat k - off)) with k by lia.
    destruct (lookup_lt_is_Some_2 src k Hk) as [c Hc]. by rewrite Hc, nth_lookup, Hc.
  - rewrite lookup_seqZ_ge by lia. symmetry. apply lookup_ge_None_2. lia.
Qed.
