(* ===== verification/FsWitness.v ===== *)
(** * FsWitness: a small disk

    A disk of 64 blocks with 8 inodes: block 1 is the super block, blocks 2
    and 3 hold inodes, block 4 the bitmap, blocks 5 and up data.  Used below to
    instantiate the theorems on fs.c, and to show what [itrunc] leaves behind. *)
From S2P Require Import Prelude CString Fs FsFacts FsFile.

Definition tiny_disk (bits : Z) : mem := fun a =>
  if a =? 512 then 64 else if a =? 520 then 8 else if a =? 2048 then bits else if a =? 2049 then Z.shiftr bits 8
  else 0.
Definition file_inode (size nlink : Z) (addrs : list Z) : inode :=
  mkInode 1 1 1 I_VALID T_FILE 0 0 nlink size addrs.
Definition no_addrs : list Z := replicate 13 0.
Definition tiny (bits : Z) (i : inode) : fstate := mkF (tiny_disk bits) [i] [].
(** Blocks 0 to 4 in use; one empty file. *)
Definition tiny_empty : fstate := tiny 0x1F (file_inode 0 1 no_addrs).
Definition no_devices : Z -> devops := fun _ => mkDev None None.

Lemma tiny_meta : meta_used tiny_empty /\ 0 <= fs_size tiny_empty < 2 ^ 32.
Proof.
  split; [|by vm_compute]. split; [by vm_compute|]. intros b Hb Hu.
  assert (Hall : forallb (fun b => (data_start tiny_empty <=? b) || used tiny_empty b) (seqZ 0 64) = true)
    by (vm_compute; reflexivity).
  rewrite forallb_forall in Hall. specialize (Hall b).
  rewrite Hu, orb_false_r, Z.leb_le in Hall. apply Hall, list_elem_of_In, elem_of_seqZ.
  change (fs_size tiny_empty) with 64 in Hb. lia.
Qed.
Lemma tiny_icache : icache_ok (icache tiny_empty).
Proof.
  split; [by repeat constructor|]. intros j k i i' Hj Hk. apply lookup_lt_Some in Hj, Hk. simpl in *. lia.
Qed.
Lemma tiny_absent l : at_loc (fdisk tiny_empty) (file_inode 0 1 no_addrs) l = 0.
Proof.
  assert (Ha : forall k, addr_of (file_inode 0 1 no_addrs) k = 0).
  { intros k. unfold addr_of. cbn [i_addrs file_inode]. rewrite nth_lookup.
    destruct (no_addrs !! Z.to_nat k) as [x|] eqn:E; [|done]. by apply lookup_replicate in E as [-> _]. }
  destruct l; cbn [at_loc]; unfold child; rewrite ?Ha; done.
Qed.
Lemma tiny_tree : tree_ok tiny_empty (file_inode 0 1 no_addrs).
Proof. split; [done|..]; intros l; [intros l' _ _ | intros _]; by rewrite tiny_absent. Qed.

Lemma balloc_bfree_witness : exists s', balloc tiny_empty = Ok (5, s') /\ used s' 5 = true.
Proof.
  destruct tiny_meta as [Hm Hs].
  destruct (balloc_bfree tiny_empty Hm (proj1 Hs)) as [[E _]|(b & s' & E & Hb & _ & _ & Hu & _)].
  { by vm_compute in E. }
  assert (Hb5 : b = 5) by (vm_compute in E; by injection E). subst b.
  exists s'. split; [exact E|]. by rewrite (Hu 5 Hb).
Defined.

Lemma iget_references_witness :
  exists ip s', iget 1 1 tiny_empty = Ok (Z.of_nat ip, s') /\ refs (icache s') 1 1 = 2.
Proof.
  destruct (iget_references tiny_empty 1 1 tiny_icache) as [[E _]|(ip & s' & E & _ & _ & _ & Hr & _)].
  { by vm_compute in E. }
  exists ip, s'. split; [exact E|]. by rewrite Hr.
Defined.

Lemma writei_then_readi_witness :
  exists s', writei no_devices 0 [1; 2; 3] 0 tiny_empty = Ok (3, s') /\
    readi no_devices 0 0 3 s' = Ok ((3, [1; 2; 3]), s').
Proof.
  destruct tiny_meta as [Hm Hs].
  destruct (writei_then_readi no_devices tiny_empty 0 (file_inode 0 1 no_addrs) [1; 2; 3] 0)
    as [E|(s' & i' & E & _ & E2)].
  - reflexivity.
  - exact (mkFsOk _ Hm Hs).
  - exact tiny_tree.
  - split; [by vm_compute|]. split; [done|]. by vm_compute.
  - by vm_compute.
  - by vm_compute.
  - by vm_compute in E.
  - exists s'. split; [exact E | exact E2].
Defined.

(** ** What is left of a large file *)

(** A file without links whose doubly indirect block is block 6. *)
Definition big_addrs : list Z := replicate 12 0 ++ [6].
Definition tiny_big : fstate := tiny 0x5F (file_inode (200 * BSIZE) 0 big_addrs).

(** Freeing a large file leaks its doubly indirect blocks: [iput] of the last
    reference to a file without links frees the inode on disk (its type is 0),
    and block 6, the doubly indirect block of the file, is still marked used
    although no inode refers to it any more. *)
Theorem iput_leaks_double_indirect :
  exists s', iput 0 tiny_big = Ok (tt, s') /\ get16 (fdisk s') (dinode_at 1) = 0 /\
    refs (icache s') 1 1 = 0 /\ used tiny_big 6 = true /\ used s' 6 = true.
Proof. eexists. split; [vm_compute; reflexivity|]. by vm_compute. Qed.
