(* ===== verification/Vm.v ===== *)
(** * Vm: physical pages and page tables (src/src/kalloc.c, src/src/vm.c)

    Physical memory is a map from physical addresses to bytes.  The kernel
    reaches physical address [a] at [a + KERNBASE]; pointers are kernel
    virtual addresses, the null pointer is 0.  A page of the free list holds
    the link to the next one in its first word.  [kend] and [kdata] are the
    linker's symbols [end] and [data]. *)
From S2P Require Import Prelude CString.

(** ** mmu.h, memlayout.h *)
Definition PGSIZE : Z := 4096.
Definition NPDENTRIES : Z := 1024.
Definition NPTENTRIES : Z := 1024.
Definition PTE_P : Z := 1.
Definition PTE_W : Z := 2.
Definition PTE_U : Z := 4.
Definition PDX (va : Z) : Z := Z.land (Z.shiftr (u32 va) 22) 0x3FF.
Definition PTX (va : Z) : Z := Z.land (Z.shiftr (u32 va) 12) 0x3FF.
Definition PGROUNDUP (sz : Z) : Z := Z.land (u32 (sz + PGSIZE - 1)) (u32 (Z.lnot (PGSIZE - 1))).
Definition PGROUNDDOWN (a : Z) : Z := Z.land (u32 a) (u32 (Z.lnot (PGSIZE - 1))).
Definition PTE_ADDR (pte : Z) : Z := Z.land (u32 pte) (u32 (Z.lnot 0xFFF)).
Definition PTE_FLAGS (pte : Z) : Z := Z.land (u32 pte) 0xFFF.
Definition EXTMEM : Z := 0x100000.
Definition PHYSTOP : Z := 0xE000000.
Definition DEVSPACE : Z := 0xF9000000.
Definition KERNBASE : Z := 0x80000000.
Definition KERNLINK : Z := KERNBASE + EXTMEM.
Definition v2p (a : Z) : Z := u32 (a - KERNBASE).
Definition p2v (a : Z) : Z := u32 (a + KERNBASE).

Record vstate := mkV { pm : mem; freelist : Z }.
Definition V : Type -> Type := M vstate.
Definition set_pm (f : mem -> mem) : V unit := modify (fun s => mkV (f (pm s)) (freelist s)).
Definition load (p : Z) : V Z := gets (fun s => get32 (pm s) (v2p p)).
Definition store (p v : Z) : V unit := set_pm (fun m => put32 m (v2p p) (u32 v)).

Section Kernel.
Context (kend kdata : Z).

(** ** kalloc.c *)
Definition kfree (v : Z) : V unit :=
  if negb (u32 v mod PGSIZE =? 0) || (v <? kend) || (v2p v >=? PHYSTOP) then panic "kfree"
  else
    set_pm (fun m => memset m (v2p v) 1 PGSIZE) ;;;
    f <- gets freelist ;;
    store v f ;;;
    modify (fun s => mkV (pm s) v).
Definition kalloc : V Z :=
  r <- gets freelist ;;
  if r =? 0 then ret 0
  else
    n <- load r ;;
    modify (fun s => mkV (pm s) n) ;;;
    ret r.
(** The loop of [freerange] (lines 50-51). *)
Fixpoint freerange_loop (fuel : nat) (p vend : Z) : V unit :=
  match fuel with
  | O => fun _ => OutOfFuel
  | S fuel => if p + PGSIZE <=? vend then kfree p ;;; freerange_loop fuel (p + PGSIZE) vend else ret tt
  end.
Definition freerange (vstart vend : Z) : V unit :=
  freerange_loop (S (Z.to_nat ((vend - vstart) / PGSIZE + 1))) (PGROUNDUP vstart) vend.

(** ** vm.c *)

(** The address of the page table entry, 0 when there is none. *)
Definition walkpgdir (pgdir va : Z) (alloc : bool) : V Z :=
  let pde := pgdir + 4 * PDX va in
  e <- load pde ;;
  if negb (Z.land e PTE_P =? 0) then ret (p2v (PTE_ADDR e) + 4 * PTX va)
  else if negb alloc then ret 0
  else
    pgtab <- kalloc ;;
    if pgtab =? 0 then ret 0
    else
      set_pm (fun m => memset m (v2p pgtab) 0 PGSIZE) ;;;
      store pde (Z.lor (Z.lor (Z.lor (v2p pgtab) PTE_P) PTE_W) PTE_U) ;;;
      ret (pgtab + 4 * PTX va).

(** The loop of [mappages] (lines 78-88). *)
Fixpoint mappages_loop (fuel : nat) (pgdir a last pa perm : Z) : V Z :=
  match fuel with
  | O => fun _ => OutOfFuel
  | S fuel =>
      pte <- walkpgdir pgdir a true ;;
      if pte =? 0 then ret (-1)
      else
        e <- load pte ;;
        if negb (Z.land e PTE_P =? 0) then panic "remap"
        else
          store pte (Z.lor (Z.lor pa perm) PTE_P) ;;;
          if a =? last then ret 0
          else mappages_loop fuel pgdir (u32 (a + PGSIZE)) last (u32 (pa + PGSIZE)) perm
  end.
Definition mappages (pgdir va size pa perm : Z) : V Z :=
  let a := PGROUNDDOWN va in
  let last := PGROUNDDOWN (va + size - 1) in
  mappages_loop (S (Z.to_nat (u32 (last - a) / PGSIZE))) pgdir a last pa perm.

(** [kmap] (lines 120-125). *)
Definition kmap : list (Z * Z * Z * Z) := [
  (KERNBASE, 0, EXTMEM, PTE_W);
  (KERNLINK, v2p KERNLINK, v2p kdata, 0);
  (kdata, v2p kdata, PHYSTOP, PTE_W);
  (DEVSPACE, DEVSPACE, 0, PTE_W)].
Fixpoint map_kernel (pgdir : Z) (l : list (Z * Z * Z * Z)) : V bool :=
  match l with
  | [] => ret true
  | (virt, phys_start, phys_end, perm) :: l' =>
      r <- mappages pgdir virt (u32 (phys_end - phys_start)) phys_start perm ;;
      if r <? 0 then ret false else map_kernel pgdir l'
  end.
Definition setupkvm : V Z :=
  pgdir <- kalloc ;;
  if pgdir =? 0 then ret 0
  else
    set_pm (fun m => memset m (v2p pgdir) 0 PGSIZE) ;;;
    if p2v PHYSTOP >? DEVSPACE then panic "PHYSTOP too high"
    else
      ok <- map_kernel pgdir kmap ;;
      ret (if ok : bool then pgdir else 0).

(** [init] holds the [sz] bytes of the initial program. *)
Definition inituvm (pgdir : Z) (init : list Z) : V unit :=
  if Z.of_nat (length init) >=? PGSIZE then panic "inituvm: more than a page"
  else
    mem <- kalloc ;;
    set_pm (fun m => memset m (v2p mem) 0 PGSIZE) ;;;
    mappages pgdir 0 PGSIZE (v2p mem) (Z.lor PTE_W PTE_U) ;;;
    set_pm (fun m => put_bytes m (v2p mem) init).

(** The loop of [deallocuvm] (lines 259-271). *)
Fixpoint dealloc_loop (fuel : nat) (pgdir a oldsz : Z) : V unit :=
  match fuel with
  | O => fun _ => OutOfFuel
  | S fuel =>
      if a <? oldsz then
        pte <- walkpgdir pgdir a false ;;
        if pte =? 0 then dealloc_loop fuel pgdir (u32 (u32 (a + (NPTENTRIES - 1) * PGSIZE) + PGSIZE)) oldsz
        else
          e <- load pte ;;
          (if negb (Z.land e PTE_P =? 0) then
             if PTE_ADDR e =? 0 then panic "kfree"
             else kfree (p2v (PTE_ADDR e)) ;;; store pte 0
           else ret tt) ;;;
          dealloc_loop fuel pgdir (u32 (a + PGSIZE)) oldsz
      else ret tt
  end.
Definition deallocuvm (pgdir oldsz newsz : Z) : V Z :=
  if newsz >=? oldsz then ret oldsz
  else
    dealloc_loop (S (Z.to_nat (oldsz / PGSIZE + 1))) pgdir (PGROUNDUP newsz) oldsz ;;;
    ret newsz.

(** The loop of [allocuvm] (lines 232-241): whether memory sufficed. *)
Fixpoint alloc_loop (fuel : nat) (pgdir a newsz : Z) : V bool :=
  match fuel with
  | O => fun _ => OutOfFuel
  | S fuel =>
      if a <? newsz then
        mem <- kalloc ;;
        if mem =? 0 then ret false
        else
          set_pm (fun m => memset m (v2p mem) 0 PGSIZE) ;;;
          mappages pgdir a PGSIZE (v2p mem) (Z.lor PTE_W PTE_U) ;;;
          alloc_loop fuel pgdir (u32 (a + PGSIZE)) newsz
      else ret true
  end.
Definition allocuvm (pgdir oldsz newsz : Z) : V Z :=
  if newsz >=? KERNBASE then ret 0
  else if newsz <? oldsz then ret oldsz
  else
    ok <- alloc_loop (S (Z.to_nat (newsz / PGSIZE + 1))) pgdir (PGROUNDUP oldsz) newsz ;;
    if ok : bool then ret newsz
    else deallocuvm pgdir newsz oldsz ;;; ret 0.

Definition freevm (pgdir : Z) : V unit :=
  if pgdir =? 0 then panic "freevm: no pgdir"
  else
    deallocuvm pgdir KERNBASE 0 ;;;
    mfor 0 NPDENTRIES (fun i =>
      e <- load (pgdir + 4 * i) ;;
      if negb (Z.land e PTE_P =? 0) then kfree (p2v (PTE_ADDR e)) else ret tt) ;;;
    kfree pgdir.

Definition clearpteu (pgdir uva : Z) : V unit :=
  pte <- walkpgdir pgdir uva false ;;
  if pte =? 0 then panic "clearpteu"
  else e <- load pte ;; store pte (Z.land e (Z.lnot PTE_U)).

(** The loop of [copyuvm] (lines 319-331): [false] at [goto bad]. *)
Fixpoint copy_loop (fuel : nat) (pgdir d sz i : Z) : V bool :=
  match fuel with
  | O => fun _ => OutOfFuel
  | S fuel =>
      if i <? sz then
        pte <- walkpgdir pgdir i false ;;
        if pte =? 0 then panic "copyuvm: pte should exist"
        else
          e <- load pte ;;
          if Z.land e PTE_P =? 0 then panic "copyuvm: page not present"
          else
            mem <- kalloc ;;
            if mem =? 0 then ret false
            else
              set_pm (fun m => memmove m (v2p mem) (v2p (p2v (PTE_ADDR e))) (Z.to_nat PGSIZE)) ;;;
              r <- mappages d i PGSIZE (v2p mem) (PTE_FLAGS e) ;;
              if r <? 0 then ret false else copy_loop fuel pgdir d sz (i + PGSIZE)
      else ret true
  end.
Definition copyuvm (pgdir sz : Z) : V Z :=
  d <- setupkvm ;;
  if d =? 0 then ret 0
  else
    ok <- copy_loop (S (Z.to_nat (sz / PGSIZE + 1))) pgdir d sz 0 ;;
    if ok : bool then ret d else freevm d ;;; ret 0.

(** [*pte] is read without a test for a null [pte]. *)
Definition uva2ka (pgdir uva : Z) : V Z :=
  pte <- walkpgdir pgdir uva false ;;
  if pte =? 0 then fault
  else
    e <- load pte ;;
    if Z.land e PTE_P =? 0 then ret 0
    else if Z.land e PTE_U =? 0 then ret 0
    else ret (p2v (PTE_ADDR e)).

(** The loop of [copyout] (lines 364-376). *)
Fixpoint copyout_loop (fuel : nat) (pgdir va : Z) (buf : list Z) : V Z :=
  match fuel with
  | O => fun _ => OutOfFuel
  | S fuel =>
      match buf with
      | [] => ret 0
      | _ =>
          let va0 := PGROUNDDOWN va in
          pa0 <- uva2ka pgdir va0 ;;
          if pa0 =? 0 then ret (-1)
          else
            let n := Z.min (PGSIZE - (va - va0)) (Z.of_nat (length buf)) in
            set_pm (fun m => put_bytes m (v2p (pa0 + (va - va0))) (take (Z.to_nat n) buf)) ;;;
            copyout_loop fuel pgdir (u32 (va0 + PGSIZE)) (drop (Z.to_nat n) buf)
      end
  end.
Definition copyout (pgdir va : Z) (p : list Z) : V Z := copyout_loop (S (length p)) pgdir va p.

End Kernel.
