(* ===== verification/VmFacts.v ===== *)
(** * VmFacts: the free list of pages and what a page table translates *)
From S2P Require Import Prelude CString Vm.

(** ** Bits of addresses and entries *)
Lemma u32_land a b : u32 (Z.land a b) = Z.land (u32 a) (u32 b).
Proof.
  unfold u32. rewrite <- !Z.land_ones by lia. apply Z.bits_inj'. intros n Hn. rewrite !Z.land_spec.
  destruct (Z.testbit a n), (Z.testbit b n), (Z.testbit (Z.ones 32) n); done.
Qed.
Lemma u32_lor a b : u32 (Z.lor a b) = Z.lor (u32 a) (u32 b).
Proof. unfold u32. rewrite <- !Z.land_ones by lia. apply Z.land_lor_distr_l. Qed.
Lemma lor_u32_range a b : 0 <= a < 2 ^ 32 -> 0 <= b < 2 ^ 32 -> 0 <= Z.lor a b < 2 ^ 32.
Proof.
  intros Ha Hb. rewrite <- (u32_small a Ha), <- (u32_small b Hb), <- u32_lor. apply u32_range.
Qed.
(** Clearing the low [k] bits rounds down to a multiple of [2 ^ k]. *)
Lemma low_mask x k : 0 <= x < 2 ^ 32 -> 0 <= k <= 32 -> Z.land x (Z.shiftl (Z.ones (32 - k)) k) = x - x mod 2 ^ k.
Proof.
  intros Hx Hk. assert (Hs : x - x mod 2 ^ k = Z.shiftl (Z.shiftr x k) k).
  { rewrite Z.shiftl_mul_pow2, Z.shiftr_div_pow2 by lia.
    pose proof (Z.div_mod x (2 ^ k) ltac:(apply Z.pow_nonzero; lia)). lia. }
  rewrite Hs. apply Z.bits_inj'. intros n Hn. rewrite Z.land_spec.
  destruct (decide (n < k)).
  { rewrite !Z.shiftl_spec_low by lia. apply andb_false_r. }
  rewrite !Z.shiftl_spec, Z.shiftr_spec by lia. replace (n - k + k) with n by lia.
  destruct (decide (n < 32)).
  - rewrite Z.ones_spec_low by lia. apply andb_true_r.
  - rewrite Z.ones_spec_high by lia. rewrite andb_false_r. symmetry.
    rewrite <- (u32_small x Hx). unfold u32. apply Z.mod_pow2_bits_high. lia.
Qed.
Lemma page_mask x : 0 <= x < 2 ^ 32 -> Z.land x (u32 (Z.lnot 0xFFF)) = x - x mod 4096.
Proof. intros Hx. by apply (low_mask x 12). Qed.
Lemma PTE_ADDR_spec e : 0 <= e < 2 ^ 32 -> PTE_ADDR e = e - e mod 4096.
Proof. intros He. unfold PTE_ADDR. rewrite u32_small by done. by apply page_mask. Qed.
Lemma PGROUNDDOWN_spec a : 0 <= a < 2 ^ 32 -> PGROUNDDOWN a = a - a mod 4096.
Proof. intros Ha. unfold PGROUNDDOWN. rewrite u32_small by done. by apply page_mask. Qed.
Lemma PDX_spec va : 0 <= va < 2 ^ 32 -> PDX va = va / 4096 / 1024.
Proof.
  intros Hv. unfold PDX. rewrite u32_small by done. change 0x3FF with (Z.ones 10).
  rewrite Z.land_ones, Z.shiftr_div_pow2 by lia. rewrite Z.div_div by lia. apply Z.mod_small.
  change (2 ^ 22) with 4194304. change (2 ^ 10) with 1024. Z.div_mod_to_equations. lia.
Qed.
Lemma PTX_spec va : 0 <= va < 2 ^ 32 -> PTX va = (va / 4096) mod 1024.
Proof.
  intros Hv. unfold PTX. rewrite u32_small by done. change 0x3FF with (Z.ones 10).
  by rewrite Z.land_ones, Z.shiftr_div_pow2 by lia.
Qed.
Lemma aligned_lor pa f : 0 <= pa < 2 ^ 32 -> pa mod 4096 = 0 -> 0 <= f < 4096 ->
  PTE_ADDR (Z.lor pa f) = pa.
Proof.
  intros Hpa Ha Hf. unfold PTE_ADDR. rewrite u32_small by (apply lor_u32_range; lia).
  rewrite Z.land_lor_distr_l, !page_mask by lia. rewrite Ha, (Z.mod_small f) by lia.
  rewrite Z.sub_0_r, Z.sub_diag. apply Z.lor_0_r.
Qed.
Definition present (e : Z) : bool := negb (Z.land e PTE_P =? 0).
Lemma present_lor e : present (Z.lor e PTE_P) = true.
Proof.
  unfold present. rewrite (land_bit _ 0) by lia. rewrite Z.lor_spec. by rewrite orb_true_r.
Qed.
Lemma present_zero : present 0 = false.
Proof. done. Qed.

(** ** The free list *)
Section Free.
Context (kend : Z).
Hypothesis Hkend : KERNBASE <= kend.

(** A page the allocator may handle. *)
Definition page_ok (v : Z) : Prop := v mod PGSIZE = 0 /\ kend <= v /\ KERNBASE <= v < KERNBASE + PHYSTOP.
Lemma page_v2p v : KERNBASE <= v < KERNBASE + PHYSTOP -> v2p v = v - KERNBASE.
Proof. unfold v2p, KERNBASE, PHYSTOP. intros. apply u32_small. lia. Qed.
Lemma page_u32 v : KERNBASE <= v < KERNBASE + PHYSTOP -> u32 v = v.
Proof. unfold KERNBASE, PHYSTOP. intros. apply u32_small. lia. Qed.

(** Physical addresses of page [v]. *)
Definition in_page (v a : Z) : Prop := v - KERNBASE <= a < v - KERNBASE + PGSIZE.
Lemma page_disjoint v w a : v mod PGSIZE = 0 -> w mod PGSIZE = 0 -> in_page v a -> in_page w a -> v = w.
Proof. unfold in_page, PGSIZE. intros. Z.div_mod_to_equations. lia. Qed.

Fixpoint free_chain (m : mem) (p : Z) (l : list Z) : Prop :=
  match l with
  | [] => p = 0
  | x :: l' => p = x /\ page_ok x /\ free_chain m (get32 m (v2p x)) l'
  end.
Definition frees (s : vstate) (l : list Z) : Prop := free_chain (pm s) (freelist s) l /\ NoDup l.

Lemma free_agree m m' l : forall p,
  (forall x a, x ∈ l -> in_page x a -> m' a = m a) -> free_chain m p l -> free_chain m' p l.
Proof using All.
  induction l as [|x l IH]; intros p H; [done|]. intros (-> & Hx & Hc). split; [done|]. split; [done|].
  rewrite (get32_agree m m').
  - apply IH; [|done]. intros y a Hy. apply H. by right.
  - intros a Ha. apply (H x); [by left|]. rewrite page_v2p in Ha by apply Hx. unfold in_page, PGSIZE. lia.
Qed.
Lemma free_pages m p l x : free_chain m p l -> x ∈ l -> page_ok x.
Proof using All.
  revert p. induction l as [|y l IH]; intros p Hc Hx; [by apply elem_of_nil in Hx|].
  destruct Hc as (_ & Hy & Hc). apply elem_of_cons in Hx as [->|Hx]; [done | by eapply IH].
Qed.

Lemma kalloc_run s l : frees s l ->
  match l with
  | [] => kalloc s = Ok (0, s)
  | p :: l' => exists s', kalloc s = Ok (p, s') /\ pm s' = pm s /\ frees s' l' /\ page_ok p /\ (p ∉ l') /\ p <> 0
  end.
Proof using All.
  intros [Hc Hnd]. unfold kalloc. destruct l as [|p l]; cbn in Hc.
  - erewrite bind_Ok; [|reflexivity]. by rewrite Hc.
  - destruct Hc as (Hf & Hp & Hc). apply NoDup_cons in Hnd as [Hn Hnd].
    assert (Hp0 : p <> 0) by (destruct Hp as (_ & _ & ?); unfold KERNBASE in *; lia).
    erewrite bind_Ok; [|reflexivity]. rewrite Hf. destruct (Z.eqb_spec p 0); [done|].
    eexists. split; [reflexivity|]. by split_and!.
Qed.

Lemma kfree_run s l v : frees s l -> page_ok v -> (v ∉ l) ->
  exists s', kfree kend v s = Ok (tt, s') /\ frees s' (v :: l) /\
    forall a, ~ in_page v a -> pm s' a = pm s a.
Proof using All.
  intros [Hc Hnd] Hv Hnl. pose proof Hv as (Ha & Hk & Hr). unfold kfree.
  rewrite page_u32, page_v2p by done. rewrite Ha. cbn [negb Z.eqb].
  destruct (Z.ltb_spec v kend); [lia|]. destruct (Z.geb_spec (v - KERNBASE) PHYSTOP); [lia|]. cbn [orb].
  do 3 (erewrite bind_Ok; [|reflexivity]). eexists. split; [reflexivity|]. cbn [pm freelist].
  rewrite page_v2p by done. set (m' := put32 _ _ _).
  assert (Hout : forall a, ~ in_page v a -> m' a = pm s a).
  { intros a Hna. unfold m', in_page, PGSIZE in *. rewrite put32_out by lia. rewrite memset_fills by lia.
    unfold filled. destruct (Z.leb_spec (v - KERNBASE) a), (Z.ltb_spec a (v - KERNBASE + 4096)); simpl; try done. lia. }
  split; [|done]. split; [|by apply NoDup_cons]. cbn [pm freelist free_chain]. split; [done|]. split; [done|].
  assert (Hfl : get32 m' (v2p v) = freelist s).
  { rewrite page_v2p by done. unfold m'.
    assert (Hfr : 0 <= freelist s < 2 ^ 32).
    { destruct l as [|x l]; cbn in Hc; [by rewrite Hc|]. destruct Hc as (-> & (_ & _ & Hx) & _).
      unfold KERNBASE, PHYSTOP in Hx. lia. }
    rewrite u32_small by done. by apply get_put32. }
  rewrite Hfl. eapply free_agree; [|exact Hc]. intros x a Hx Hxa. apply Hout. intros Hva.
  pose proof (free_pages _ _ _ _ Hc Hx) as (Hxal & _). by rewrite (page_disjoint v x a) in Hnl.
Qed.
End Free.

(** The page allocator.  With the free list [l] (distinct, aligned pages
    between the kernel's end and [PHYSTOP]): [kalloc] returns null exactly
    when the list is empty, otherwise its first page, which then is on the
    list no more, and leaves memory alone; [kfree] of that page restores the
    list.  [kfree] of any allocatable page puts it at the front and changes no
    byte outside that page; of any other address it panics. *)
Theorem page_allocator kend s l :
  KERNBASE <= kend -> frees kend s l ->
  match l with
  | [] => kalloc s = Ok (0, s)
  | p :: l' => exists s', kalloc s = Ok (p, s') /\ pm s' = pm s /\ frees kend s' l' /\ (p ∉ l') /\
      exists s2, kfree kend p s' = Ok (tt, s2) /\ frees kend s2 l
  end /\
  (forall v, page_ok kend v -> (v ∉ l) ->
   exists s', kfree kend v s = Ok (tt, s') /\ frees kend s' (v :: l) /\
     forall a, ~ in_page v a -> pm s' a = pm s a) /\
  (forall v, 0 <= v < 2 ^ 32 -> ~ page_ok kend v -> kfree kend v s = Panic "kfree").
Proof.
  intros Hk Hf. split; [|split].
  - pose proof (kalloc_run kend Hk s l Hf) as H. destruct l as [|p l]; [done|].
    destruct H as (s' & E & Hm & Hf' & Hp & Hn & _). exists s'. do 4 (split; [done|]).
    destruct (kfree_run kend Hk s' l p Hf' Hp Hn) as (s2 & E2 & Hf2 & _). by exists s2.
  - intros v Hv Hn. by apply kfree_run.
  - intros v Hv Hno. unfold kfree. destruct (_ || _ || _) eqn:E; [done|]. exfalso. apply Hno.
    rewrite !orb_false_iff, negb_false_iff, Z.eqb_eq, Z.ltb_ge, Z.geb_leb, Z.leb_gt in E.
    rewrite u32_small in E by done. destruct E as [[E1 E2] E3]. split; [done|]. split; [done|].
    unfold v2p in E3. rewrite u32_small in E3 by (unfold KERNBASE in *; lia). lia.
Qed.

(** ** Translation *)
Definition pde_at (pgdir d : Z) : Z := pgdir - KERNBASE + 4 * d.
Definition table_at (m : mem) (pgdir d : Z) : option Z :=
  let e := get32 m (pde_at pgdir d) in if present e then Some (p2v (PTE_ADDR e)) else None.
(** The entry that maps [va], when it is mapped. *)
Definition translate (m : mem) (pgdir va : Z) : option Z :=
  match table_at m pgdir (PDX va) with
  | Some t => let e := get32 m (pde_at t (PTX va)) in if present e then Some e else None
  | None => None
  end.

Definition bytes_ok (m : mem) : Prop := forall a, 0 <= m a < 256.
Record vm_ok (kend : Z) (s : vstate) (l : list Z) (pgdir : Z) : Prop := mkVmOk {
  vo_bytes : bytes_ok (pm s);
  vo_frees : frees kend s l;
  vo_dir : page_ok kend pgdir /\ (pgdir ∉ l);
  vo_tables : forall d t, 0 <= d < NPDENTRIES -> table_at (pm s) pgdir d = Some t ->
    page_ok kend t /\ (t ∉ l) /\ t <> pgdir;
  vo_inj : forall d d' t, 0 <= d < NPDENTRIES -> 0 <= d' < NPDENTRIES ->
    table_at (pm s) pgdir d = Some t -> table_at (pm s) pgdir d' = Some t -> d = d' }.

Lemma get32_range m a : bytes_ok m -> 0 <= get32 m a < 2 ^ 32.
Proof.
  intros H. unfold get32. pose proof (H a). pose proof (H (a + 1)). pose proof (H (a + 2)).
  pose proof (H (a + 3)). lia.
Qed.
Lemma put32_bytes m a v : bytes_ok m -> bytes_ok (put32 m a v).
Proof. intros H x. unfold put32, put_word, upd. repeat case_if; try apply u8_range. apply H. Qed.
Lemma memset_bytes m a c n : 0 <= n -> bytes_ok m -> bytes_ok (memset m a c n).
Proof. intros Hn H x. rewrite memset_fills by done. unfold filled. case_if; [apply u8_range | apply H]. Qed.
Lemma PDX_range va : 0 <= PDX va < NPDENTRIES.
Proof.
  unfold PDX. change 0x3FF with (Z.ones 10). rewrite Z.land_ones by lia. by apply Z.mod_pos_bound.
Qed.
Lemma PTX_range va : 0 <= PTX va < NPTENTRIES.
Proof.
  unfold PTX. change 0x3FF with (Z.ones 10). rewrite Z.land_ones by lia. by apply Z.mod_pos_bound.
Qed.
Lemma pde_in pgdir d a : 0 <= d < 1024 -> pde_at pgdir d <= a < pde_at pgdir d + 4 -> in_page pgdir a.
Proof. unfold pde_at, in_page, PGSIZE. lia. Qed.
Lemma same_page va va' : 0 <= va < 2 ^ 32 -> 0 <= va' < 2 ^ 32 ->
  PDX va = PDX va' -> PTX va = PTX va' -> va / 4096 = va' / 4096.
Proof. intros H H'. rewrite !PDX_spec, !PTX_spec by done. intros. Z.div_mod_to_equations. lia. Qed.

(** ** Counting page tables

    Every page that [mappages] takes from the free list becomes a page table,
    and there are at most [NPDENTRIES] of them. *)
Lemma filter_agree {A} (P Q : A -> Prop) `{forall x, Decision (P x), forall x, Decision (Q x)} (l : list A) :
  (forall x, x ∈ l -> P x <-> Q x) -> filter P l = filter Q l.
Proof.
  induction l as [|x l IH]; intros Hl; [done|]. rewrite !filter_cons, IH by (intros y Hy; apply Hl; by right).
  pose proof (Hl x ltac:(by left)). destruct (decide (P x)), (decide (Q x)); try done; tauto.
Qed.
Lemma filter_one_more {A} (P Q : A -> Prop) `{forall x, Decision (P x), forall x, Decision (Q x)} (l : list A) d :
  NoDup l -> d ∈ l -> ~ P d -> (forall x, x ∈ l -> Q x <-> x = d \/ P x) ->
  length (filter Q l) = S (length (filter P l)).
Proof.
  induction l as [|x l IH]; intros Hnd Hd HP HQ; [by apply elem_of_nil in Hd|].
  apply NoDup_cons in Hnd as [Hx Hnd]. rewrite !filter_cons. pose proof (HQ x ltac:(by left)) as Hqx.
  apply elem_of_cons in Hd as [<-|Hd].
  - rewrite decide_True by tauto. rewrite decide_False by done. cbn. f_equal. f_equal. apply filter_agree.
    intros y Hy. rewrite HQ by (by right). split; [|tauto]. intros [->|]; done.
  - rewrite <- (decide_ext (P x) (Q x)).
    + destruct (decide (P x)); cbn; rewrite IH; try done; intros y Hy; apply HQ; by right.
    + rewrite Hqx. split; [tauto|]. intros [->|]; done.
Qed.
Definition has_table (m : mem) (pgdir d : Z) : bool :=
  match table_at m pgdir d with Some _ => true | None => false end.
Definition ntables (m : mem) (pgdir : Z) : nat :=
  length (filter (fun d => has_table m pgdir d = true) (seqZ 0 NPDENTRIES)).
Lemma ntables_le m pgdir : (ntables m pgdir <= 1024)%nat.
Proof. unfold ntables. etrans; [apply length_filter|]. by rewrite length_seqZ. Qed.
Lemma ntables_same m m' pgdir :
  (forall d, 0 <= d < NPDENTRIES -> table_at m' pgdir d = table_at m pgdir d) -> ntables m' pgdir = ntables m pgdir.
Proof.
  intros H. unfold ntables, has_table. f_equal. apply filter_agree. intros d Hd%elem_of_seqZ. by rewrite H by lia.
Qed.
Lemma ntables_new m m' pgdir d t : 0 <= d < NPDENTRIES -> table_at m pgdir d = None ->
  (forall d', 0 <= d' < NPDENTRIES -> table_at m' pgdir d' = if d' =? d then Some t else table_at m pgdir d') ->
  ntables m' pgdir = S (ntables m pgdir).
Proof.
  intros Hd Hn H. unfold ntables, has_table. apply filter_one_more with d.
  - apply NoDup_seqZ.
  - apply elem_of_seqZ. lia.
  - by rewrite Hn.
  - intros x Hx%elem_of_seqZ. rewrite H by lia. destruct (Z.eqb_spec x d); [tauto|]. destruct (table_at m pgdir x); tauto.
Qed.

Section Tables.
Context (kend : Z).
Hypothesis Hkend : KERNBASE <= kend.

Lemma page_p2v t : page_ok kend t -> p2v (t - KERNBASE) = t.
Proof using All.
  intros (_ & _ & Hr). unfold p2v. replace (t - KERNBASE + KERNBASE) with t by lia. by apply page_u32.
Qed.
Lemma load_pde pgdir d s :
  page_ok kend pgdir -> 0 <= d < 1024 -> load (pgdir + 4 * d) s = Ok (get32 (pm s) (pde_at pgdir d), s).
Proof using All.
  intros (Ha & _ & Hr) Hd. unfold load, gets, pde_at. do 3 f_equal.
  unfold v2p. rewrite u32_small; [lia|]. unfold KERNBASE, PHYSTOP in *. lia.
Qed.
Lemma store_pde pgdir d v s :
  page_ok kend pgdir -> 0 <= d < 1024 -> 0 <= v < 2 ^ 32 ->
  store (pgdir + 4 * d) v s = Ok (tt, mkV (put32 (pm s) (pde_at pgdir d) v) (freelist s)).
Proof using All.
  intros (Ha & _ & Hr) Hd Hv. unfold store, set_pm, modify, pde_at. rewrite (u32_small v) by done.
  do 4 f_equal. unfold v2p. rewrite u32_small; [lia|]. unfold KERNBASE, PHYSTOP in *. lia.
Qed.

(** Pages that are not touched keep their entries. *)
Lemma entry_agree m m' p d :
  0 <= d < 1024 -> (forall a, in_page p a -> m' a = m a) -> get32 m' (pde_at p d) = get32 m (pde_at p d).
Proof using All. intros Hd H. apply get32_agree. intros a Ha. apply H. by eapply pde_in. Qed.
Lemma entry_other m p d d' v :
  d <> d' -> get32 (put32 m (pde_at p d) v) (pde_at p d') = get32 m (pde_at p d').
Proof using All. intros Hd. apply get32_agree. intros a Ha. apply put32_out. unfold pde_at in *. lia. Qed.

Definition new_pde (t : Z) : Z := Z.lor (Z.lor (Z.lor (v2p t) PTE_P) PTE_W) PTE_U.
Lemma new_pde_spec t : page_ok kend t ->
  present (new_pde t) = true /\ p2v (PTE_ADDR (new_pde t)) = t /\ 0 <= new_pde t < 2 ^ 32.
Proof using All.
  intros Ht. pose proof Ht as (Ha & _ & Hr). unfold new_pde. rewrite page_v2p by done.
  rewrite <- !Z.lor_assoc. change (Z.lor PTE_P (Z.lor PTE_W PTE_U)) with 7.
  assert (Hb : 0 <= t - KERNBASE < 2 ^ 32) by (unfold KERNBASE, PHYSTOP in *; lia).
  split; [|split].
  - change 7 with (Z.lor 6 PTE_P). rewrite Z.lor_assoc. apply present_lor.
  - rewrite aligned_lor; [by apply page_p2v | done | | lia].
    unfold PGSIZE, KERNBASE in *. Z.div_mod_to_equations. lia.
  - apply lor_u32_range; lia.
Qed.

(** The memory after a new table [t] was put in slot [d]. *)
Section New_table.
Context (m : mem) (pgdir t d : Z).
Hypotheses (Hdir : page_ok kend pgdir) (Ht : page_ok kend t) (Hne : t <> pgdir) (Hd : 0 <= d < NPDENTRIES).
Let m' : mem := put32 (memset m (v2p t) 0 PGSIZE) (pde_at pgdir d) (new_pde t).

Lemma new_out a : ~ in_page t a -> ~ (pde_at pgdir d <= a < pde_at pgdir d + 4) -> m' a = m a.
Proof using All.
  intros H1 H2. unfold m'. rewrite put32_out by done. rewrite memset_fills by done.
  rewrite page_v2p by apply Ht. unfold filled, in_page in *.
  destruct (Z.leb_spec (t - KERNBASE) a), (Z.ltb_spec a (t - KERNBASE + PGSIZE)); simpl; try done. lia.
Qed.
Lemma new_table d' : 0 <= d' < NPDENTRIES ->
  table_at m' pgdir d' = if d' =? d then Some t else table_at m pgdir d'.
Proof using All.
  intros Hd'. destruct (new_pde_spec t Ht) as (Hp & Ha & Hr). unfold table_at.
  destruct (Z.eqb_spec d' d) as [->|Hdd].
  - unfold m'. rewrite get_put32 by done. by rewrite Hp, Ha.
  - rewrite (get32_agree m m'); [done|]. intros a Ha'. apply new_out.
    + intros Hin. apply Hne. apply (page_disjoint t pgdir a); try apply Ht; try apply Hdir; try done.
      by eapply pde_in.
    + unfold pde_at in *. lia.
Qed.
Lemma new_zero k : 0 <= k < 1024 -> get32 m' (pde_at t k) = 0.
Proof using All.
  intros Hk. apply get32_zero. intros a Ha. pose proof (pde_in _ _ _ Hk Ha) as Hin. unfold m'.
  rewrite put32_out.
  - rewrite memset_fills by done. rewrite page_v2p by apply Ht. unfold filled, in_page in *.
    destruct (Z.leb_spec (t - KERNBASE) a), (Z.ltb_spec a (t - KERNBASE + PGSIZE)); simpl; try done; lia.
  - intros Hb. apply Hne. apply (page_disjoint t pgdir a); try apply Ht; try apply Hdir; try done.
    exact (pde_in _ _ _ Hd Hb).
Qed.
Lemma new_other p k : page_ok kend p -> p <> t -> p <> pgdir -> 0 <= k < 1024 ->
  get32 m' (pde_at p k) = get32 m (pde_at p k).
Proof using All.
  intros Hp Hpt Hpd Hk. apply get32_agree. intros a Ha. pose proof (pde_in _ _ _ Hk Ha) as Hin.
  apply new_out; intros Hb.
  - apply Hpt. apply (page_disjoint p t a); try apply Hp; try apply Ht; done.
  - apply Hpd. apply (page_disjoint p pgdir a); try apply Hp; try apply Hdir; try done.
    exact (pde_in _ _ _ Hd Hb).
Qed.
End New_table.

Lemma walk_run s l pgdir va :
  vm_ok kend s l pgdir -> 0 <= va < 2 ^ 32 ->
  (walkpgdir pgdir va true s = Ok (0, s) /\ l = []) \/
  exists s' l' t, walkpgdir pgdir va true s = Ok (t + 4 * PTX va, s') /\ vm_ok kend s' l' pgdir /\
    page_ok kend t /\ table_at (pm s') pgdir (PDX va) = Some t /\
    (length l' + ntables (pm s') pgdir = length l + ntables (pm s) pgdir)%nat /\
    forall va', 0 <= va' < 2 ^ 32 -> translate (pm s') pgdir va' = translate (pm s) pgdir va'.
Proof using All.
  intros [Hb Hf [Hdir Hdl] Ht Hinj] Hva. pose proof (PDX_range va) as HD. unfold walkpgdir.
  rewrite (bind_Ok _ _ _ _ _ (load_pde pgdir (PDX va) s Hdir HD)).
  change (negb (Z.land ?e PTE_P =? 0)) with (present e).
  destruct (present (get32 (pm s) (pde_at pgdir (PDX va)))) eqn:Hp.
  - right. assert (Hta : table_at (pm s) pgdir (PDX va) =
                     Some (p2v (PTE_ADDR (get32 (pm s) (pde_at pgdir (PDX va)))))).
    { unfold table_at. by rewrite Hp. }
    eexists s, l, _. split; [reflexivity|]. split; [by split|].
    split; [by apply (Ht (PDX va))|]. by split_and!.
  - cbn [negb]. pose proof (kalloc_run kend Hkend s l Hf) as Hk. destruct l as [|t l].
    { left. split; [|done]. by rewrite (bind_Ok _ _ _ _ _ Hk). }
    right. destruct Hk as (s1 & E1 & Hm1 & Hf1 & Htp & Htl & Ht0).
    rewrite (bind_Ok _ _ _ _ _ E1). destruct (Z.eqb_spec t 0); [done|].
    erewrite bind_Ok; [|reflexivity].
    assert (Hne : t <> pgdir) by (intros ->; apply Hdl; by left).
    destruct (new_pde_spec t Htp) as (_ & _ & Hrange).
    rewrite (bind_Ok _ _ _ _ _ (store_pde pgdir (PDX va) (new_pde t) _ Hdir HD Hrange)).
    cbn [pm freelist]. rewrite Hm1. set (m' := put32 _ _ _).
    pose proof (new_table (pm s) pgdir t (PDX va) Hdir Htp Hne HD) as HT. fold m' in HT.
    assert (Habs : table_at (pm s) pgdir (PDX va) = None) by (unfold table_at; by rewrite Hp).
    assert (Hold : forall d' t', 0 <= d' < NPDENTRIES -> table_at (pm s) pgdir d' = Some t' -> t' <> t).
    { intros d' t' Hd' Ht' ->. destruct (Ht d' t Hd' Ht') as (_ & Hn & _). apply Hn. by left. }
    eexists _, l, t. split; [reflexivity|]. split; [|split; [done|]]; cbn [pm].
    + split; cbn [pm freelist].
      * by apply put32_bytes, memset_bytes.
      * destruct Hf1 as [Hc1 Hnd1]. split; [|done]. cbn [pm freelist]. rewrite Hm1 in Hc1.
        eapply free_agree; [done| |exact Hc1]. intros x a Hx Hxa.
        pose proof (free_pages kend Hkend _ _ _ _ Hc1 Hx) as Hxp.
        apply (new_out (pm s) pgdir t (PDX va)); try done.
        -- intros Hin. apply Htl. by rewrite (page_disjoint t x a) by (apply Htp || apply Hxp || done).
        -- intros Hin. apply Hdl. right. pose proof (pde_in _ _ _ HD Hin) as Hin'.
           by rewrite (page_disjoint pgdir x a) by (apply Hdir || apply Hxp || done).
      * split; [done|]. intros Hin. apply Hdl. by right.
      * intros d' t' Hd'. rewrite HT by done. destruct (d' =? PDX va); [by intros [= <-]|].
        intros Ht'. destruct (Ht d' t' Hd' Ht') as (H1 & H2 & H3). split_and!; try done.
        intros Hin. apply H2. by right.
      * intros d1 d2 t' H1 H2. rewrite !HT by done.
        destruct (Z.eqb_spec d1 (PDX va)) as [->|], (Z.eqb_spec d2 (PDX va)) as [->|]; try done.
        -- intros [= <-] H. by apply Hold in H.
        -- intros H [= <-]. by apply Hold in H.
        -- by apply Hinj.
    + split; [by rewrite HT, Z.eqb_refl|]. split.
      { rewrite (ntables_new (pm s) m' pgdir (PDX va) t HD Habs HT). cbn [length]. lia. }
      intros va' Hva'. pose proof (PDX_range va') as HD'.
      unfold translate. rewrite HT by done. destruct (Z.eqb_spec (PDX va') (PDX va)) as [->|].
      * rewrite Habs. rewrite (new_zero (pm s) pgdir t (PDX va)) by (done || apply PTX_range). done.
      * destruct (table_at (pm s) pgdir (PDX va')) as [t'|] eqn:Et; [|done].
        destruct (Ht (PDX va') t' HD' Et) as (H1 & H2 & H3).
        rewrite (new_other (pm s) pgdir t (PDX va)); [done..|by apply (Hold (PDX va')) | done | apply PTX_range].
Qed.

(** Writing entry [k] of the page table [t] of slot [d]. *)
Section Set_entry.
Context (s : vstate) (l : list Z) (pgdir d t k v : Z).
Hypotheses (Hok : vm_ok kend s l pgdir) (Hd : 0 <= d < NPDENTRIES) (Ht : table_at (pm s) pgdir d = Some t)
  (Hk : 0 <= k < NPTENTRIES) (Hv : 0 <= v < 2 ^ 32).
Let s' : vstate := mkV (put32 (pm s) (pde_at t k) v) (freelist s).

Lemma set_other p a : page_ok kend p -> p <> t -> in_page p a -> pm s' a = pm s a.
Proof using All.
  intros Hp Hpt Hin. apply put32_out. intros Hb. apply Hpt.
  destruct (vo_tables _ _ _ _ Hok d t Hd Ht) as ((Hta & _) & _).
  apply (page_disjoint p t a); [apply Hp | done | done | exact (pde_in _ _ _ Hk Hb)].
Qed.
Lemma set_tables d' : 0 <= d' < NPDENTRIES -> table_at (pm s') pgdir d' = table_at (pm s) pgdir d'.
Proof using All.
  intros Hd'. unfold table_at. rewrite (entry_agree (pm s) (pm s')); [done|done|].
  intros a Ha. destruct (vo_dir _ _ _ _ Hok) as [Hp _].
  destruct (vo_tables _ _ _ _ Hok d t Hd Ht) as (_ & _ & Hne). by eapply set_other.
Qed.
Lemma set_ok : vm_ok kend s' l pgdir.
Proof using All.
  pose proof Hok as [Hb [Hc Hnd] Hdir Htab Hinj]. split.
  - by apply put32_bytes.
  - split; [|done]. eapply free_agree; [done| |exact Hc]. intros x a Hx Hxa.
    destruct (Htab d t Hd Ht) as (_ & Hn & _).
    apply (set_other x); [by eapply free_pages | by intros -> | done].
  - done.
  - intros d' t' Hd'. rewrite set_tables by done. by apply Htab.
  - intros d1 d2 t' H1 H2. rewrite !set_tables by done. by apply Hinj.
Qed.
Lemma set_translate va : 0 <= va < 2 ^ 32 ->
  translate (pm s') pgdir va =
  if (PDX va =? d) && (PTX va =? k) then if present v then Some v else None else translate (pm s) pgdir va.
Proof using All.
  intros Hva. pose proof (PDX_range va) as HD. unfold translate. rewrite set_tables by done.
  destruct (Z.eqb_spec (PDX va) d) as [->|Hne]; cbn [andb].
  - rewrite Ht. destruct (Z.eqb_spec (PTX va) k) as [->|Hk'].
    + cbn [pm s']. by rewrite get_put32.
    + cbn [pm s']. by rewrite entry_other.
  - destruct (table_at (pm s) pgdir (PDX va)) as [t'|] eqn:Et; [|done].
    rewrite (entry_agree (pm s) (pm s')); [done | apply PTX_range |].
    intros a Ha. destruct (vo_tables _ _ _ _ Hok _ t' HD Et) as (Hp & _).
    apply (set_other t'); [done | | done]. intros ->. apply Hne. by eapply (vo_inj _ _ _ _ Hok).
Qed.
End Set_entry.

(** The page of [va]. *)
Definition page (va : Z) : Z := va - va mod PGSIZE.
Lemma page_mul va : page va = PGSIZE * (va / PGSIZE).
Proof. unfold page. pose proof (Z.div_mod va PGSIZE). unfold PGSIZE in *. lia. Qed.
Lemma page_index va va' : 0 <= va < 2 ^ 32 -> 0 <= va' < 2 ^ 32 ->
  (PDX va =? PDX va') && (PTX va =? PTX va') = (page va =? page va').
Proof.
  intros H H'. unfold page, PGSIZE. apply eq_true_iff_eq. rewrite andb_true_iff, !Z.eqb_eq. split.
  - intros [H1 H2]. pose proof (same_page va va' H H' H1 H2). Z.div_mod_to_equations. lia.
  - intros He. rewrite !PDX_spec, !PTX_spec by done.
    replace (va / 4096) with (va' / 4096) by (Z.div_mod_to_equations; lia). done.
Qed.

(** What mapping the pages from [a] to [last] makes of the translation [f]. *)
Definition mapped (a last pa perm : Z) (f : Z -> option Z) (va : Z) : option Z :=
  if (a <=? page va) && (page va <=? last)
  then Some (Z.lor (Z.lor (pa + (page va - a)) perm) PTE_P) else f va.
Definition outside (a last va : Z) : Prop := ~ (a <= page va <= last).

Lemma map_page s l pgdir a v :
  vm_ok kend s l pgdir -> 0 <= a < 2 ^ 32 -> 0 <= v < 2 ^ 32 -> present v = true ->
  translate (pm s) pgdir a = None ->
  (walkpgdir pgdir a true s = Ok (0, s) /\ l = []) \/
  exists pte e s1 s2 l', walkpgdir pgdir a true s = Ok (pte, s1) /\ pte <> 0 /\
    load pte s1 = Ok (e, s1) /\ present e = false /\ store pte v s1 = Ok (tt, s2) /\
    vm_ok kend s2 l' pgdir /\ (length l' + ntables (pm s2) pgdir = length l + ntables (pm s) pgdir)%nat /\
    forall va, 0 <= va < 2 ^ 32 ->
      translate (pm s2) pgdir va = if page va =? page a then Some v else translate (pm s) pgdir va.
Proof using All.
  intros Hok Ha Hv Hpv Hnone.
  destruct (walk_run s l pgdir a Hok Ha) as [H|(s1 & l1 & t & E & Hok1 & Ht & Hta & Hcnt & Hsame)]; [by left|].
  right. pose proof (PTX_range a) as HK. pose proof (PDX_range a) as HD.
  eexists _, _, s1, _, l1. split; [exact E|]. split.
  { destruct Ht as (_ & _ & Hr). unfold KERNBASE in Hr. lia. }
  split; [by apply load_pde|]. split.
  { rewrite <- (Hsame a Ha) in Hnone. unfold translate in Hnone. rewrite Hta in Hnone.
    destruct (present _) eqn:Ep in Hnone; [done | exact Ep]. }
  split; [by apply store_pde|]. split; [by eapply set_ok|].
  split.
  { rewrite <- Hcnt. f_equal. apply ntables_same. intros d' Hd'. by apply (set_tables s1 l1 pgdir (PDX a) t (PTX a) v). }
  intros va Hva. rewrite (set_translate s1 l1 pgdir (PDX a) t (PTX a) v) by done.
  rewrite page_index by done. rewrite Hpv. by destruct (_ =? _); [|apply Hsame].
Qed.
Lemma mappages_loop_run n : forall s l pgdir a pa perm,
  vm_ok kend s l pgdir -> a mod PGSIZE = 0 -> 0 <= a -> a + Z.of_nat n * PGSIZE < 2 ^ 32 ->
  0 <= pa -> pa + Z.of_nat n * PGSIZE < 2 ^ 32 -> 0 <= perm < 2 ^ 32 ->
  (forall va, 0 <= va < 2 ^ 32 -> a <= page va <= a + Z.of_nat n * PGSIZE ->
    translate (pm s) pgdir va = None) ->
  exists r s' l', mappages_loop (S n) pgdir a (a + Z.of_nat n * PGSIZE) pa perm s = Ok (r, s') /\
    vm_ok kend s' l' pgdir /\ (length l' + ntables (pm s') pgdir = length l + ntables (pm s) pgdir)%nat /\
    ((r = 0 /\ forall va, 0 <= va < 2 ^ 32 ->
       translate (pm s') pgdir va = mapped a (a + Z.of_nat n * PGSIZE) pa perm (translate (pm s) pgdir) va) \/
     (r = -1 /\ l' = [] /\ forall va, 0 <= va < 2 ^ 32 -> outside a (a + Z.of_nat n * PGSIZE) va ->
       translate (pm s') pgdir va = translate (pm s) pgdir va)).
Proof using All.
  induction n as [|n IH]; intros s l pgdir a pa perm Hok Ha Ha0 Hlast Hpa Hpal Hperm Hfree.
  all: set (v := Z.lor (Z.lor pa perm) PTE_P).
  all: assert (Hpage : page a = a) by (unfold page; lia).
  all: assert (Hv : 0 <= v < 2 ^ 32) by (unfold PGSIZE in *; repeat apply lor_u32_range; unfold PTE_P; lia).
  all: assert (Har : 0 <= a < 2 ^ 32) by (unfold PGSIZE in *; lia).
  all: assert (Hna : translate (pm s) pgdir a = None)
         by (apply Hfree; [done|]; rewrite Hpage; unfold PGSIZE; lia).
  all: destruct (map_page s l pgdir a v Hok Har Hv (present_lor _) Hna)
         as [[E ->]|(pte & e & s1 & s2 & l2 & E1 & Hpte & E2 & He & E3 & Hok2 & Hcnt2 & Htr)];
       cbn [mappages_loop].
  1, 3: exists (-1), s, []; rewrite (bind_Ok _ _ _ _ _ E); cbn [Z.eqb];
        split; [done|]; split; [done|]; split; [done|]; by right.
  all: rewrite (bind_Ok _ _ _ _ _ E1); destruct (Z.eqb_spec pte 0) as [|_]; [done|];
       rewrite (bind_Ok _ _ _ _ _ E2); change (negb (Z.land e PTE_P =? 0)) with (present e); rewrite He;
       rewrite (bind_Ok _ _ _ _ _ E3).
  - change (Z.of_nat 0) with 0. rewrite Z.mul_0_l, Z.add_0_r, Z.eqb_refl. exists 0, s2, l2.
    split; [done|]. split; [done|]. split; [done|]. left. split; [done|]. intros va Hva. rewrite Htr by done.
    unfold mapped. rewrite Hpage.
    destruct (Z.eqb_spec (page va) a) as [Hpa'|]; destruct (Z.leb_spec a (page va)), (Z.leb_spec (page va) a);
      cbn [andb]; try lia; try done.
    by rewrite Hpa', Z.sub_diag, Z.add_0_r.
  - destruct (Z.eqb_spec a (a + Z.of_nat (S n) * PGSIZE)) as [Heq|_]; [unfold PGSIZE in Heq; lia|].
    rewrite (u32_small (a + PGSIZE)), (u32_small (pa + PGSIZE)) by (unfold PGSIZE in *; lia).
    replace (a + Z.of_nat (S n) * PGSIZE) with (a + PGSIZE + Z.of_nat n * PGSIZE) in * by (unfold PGSIZE; lia).
    assert (Hal : forall va, page va mod PGSIZE = 0).
    { intros va. unfold page, PGSIZE. Z.div_mod_to_equations. lia. }
    destruct (IH s2 l2 pgdir (a + PGSIZE) (pa + PGSIZE) perm) as (r & s' & l' & Er & Hok' & Hcnt & Hr); try done;
      try (unfold PGSIZE in *; lia).
    { unfold PGSIZE in *. Z.div_mod_to_equations. lia. }
    { intros va Hva Hin. rewrite Htr by done. destruct (Z.eqb_spec (page va) (page a)).
      - rewrite Hpage in *. unfold PGSIZE in *. lia.
      - apply Hfree; [done|]. unfold PGSIZE in *. lia. }
    exists r, s', l'. split; [exact Er|]. split; [done|]. split; [lia|]. destruct Hr as [[-> H]|(-> & -> & H)]; [left|right].
    + split; [done|]. intros va Hva. rewrite H by done.
      unfold mapped. rewrite Htr, Hpage by done. specialize (Hal va).
      destruct (Z.eqb_spec (page va) a) as [Hpa'|];
        destruct (Z.leb_spec (a + PGSIZE) (page va)), (Z.leb_spec a (page va)),
          (Z.leb_spec (page va) (a + PGSIZE + Z.of_nat n * PGSIZE)),
          (Z.leb_spec (page va) (a + Z.of_nat (S n) * PGSIZE)); cbn [andb];
        try (unfold PGSIZE in *; Z.div_mod_to_equations; lia); try done.
      * by rewrite Hpa', Z.sub_diag, Z.add_0_r.
      * do 3 f_equal. lia.
    + split; [done|]. split; [done|]. intros va Hva Hout. unfold outside in *. rewrite H, Htr; try done.
      * destruct (Z.eqb_spec (page va) (page a)); [|done]. exfalso. apply Hout. unfold PGSIZE in *. lia.
      * unfold PGSIZE in *. lia.
Qed.
End Tables.

Lemma mappages_run kend s l pgdir va size pa perm :
  KERNBASE <= kend -> vm_ok kend s l pgdir ->
  0 <= va -> 0 < size -> va + size <= 2 ^ 32 ->
  0 <= pa -> pa + (page (va + size - 1) - page va) < 2 ^ 32 -> 0 <= perm < 2 ^ 32 ->
  (forall va', page va <= page va' <= page (va + size - 1) -> translate (pm s) pgdir va' = None) ->
  exists r s' l', mappages pgdir va size pa perm s = Ok (r, s') /\ vm_ok kend s' l' pgdir /\
    (length l' + ntables (pm s') pgdir = length l + ntables (pm s) pgdir)%nat /\
    ((r = 0 /\ forall va', 0 <= va' < 2 ^ 32 ->
       translate (pm s') pgdir va' =
       mapped (page va) (page (va + size - 1)) pa perm (translate (pm s) pgdir) va') \/
     (r = -1 /\ l' = [] /\ forall va', 0 <= va' < 2 ^ 32 ->
       outside (page va) (page (va + size - 1)) va' -> translate (pm s') pgdir va' = translate (pm s) pgdir va')).
Proof.
  intros Hk Hok Hva Hsz Hend Hpa Hpal Hperm Hfree. unfold mappages.
  rewrite !PGROUNDDOWN_spec by lia.
  change (?x - ?x mod 4096) with (page x).
  set (n := Z.to_nat ((page (va + size - 1) - page va) / PGSIZE)) in *.
  assert (Hn : page (va + size - 1) = page va + Z.of_nat n * PGSIZE).
  { unfold n. rewrite !page_mul. pose proof (Z.div_le_mono va (va + size - 1) PGSIZE).
    rewrite <- Z.mul_sub_distr_l, (Z.mul_comm PGSIZE (_ - _)), Z.div_mul by done.
    unfold PGSIZE in *. lia. }
  assert (Ha : 0 <= page va <= va /\ page va mod PGSIZE = 0).
  { rewrite page_mul. split; [unfold PGSIZE; Z.div_mod_to_equations; lia|].
    by rewrite Z.mul_comm, Z.mod_mul. }
  assert (Hl : page (va + size - 1) < 2 ^ 32) by (unfold page, PGSIZE; Z.div_mod_to_equations; lia).
  rewrite u32_small by (unfold PGSIZE in *; lia). fold n. rewrite Hn in *.
  apply (mappages_loop_run kend Hk n s l); try done; try (unfold PGSIZE in *; lia).
  intros va' _. apply Hfree.
Qed.

(** C33 The pages of [va .. va + size - 1] are mapped.  In a well-formed page
    table (its tables are distinct allocatable pages, none of them free), when
    no page of the range is mapped yet, [mappages] returns: 0, and then every
    address of the range translates to the physical page at the same distance
    from [pa] with permissions [perm] and the present bit, and every other
    address as before; or -1, and then the free list is exhausted and no
    address outside the range changed.  The page table stays well-formed. *)
Theorem mappages_maps kend s l pgdir va size pa perm :
  KERNBASE <= kend -> vm_ok kend s l pgdir ->
  0 <= va -> 0 < size -> va + size <= 2 ^ 32 ->
  0 <= pa -> pa + (page (va + size - 1) - page va) < 2 ^ 32 -> 0 <= perm < 2 ^ 32 ->
  (forall va', page va <= page va' <= page (va + size - 1) -> translate (pm s) pgdir va' = None) ->
  exists r s' l', mappages pgdir va size pa perm s = Ok (r, s') /\ vm_ok kend s' l' pgdir /\
    ((r = 0 /\ forall va', 0 <= va' < 2 ^ 32 ->
       translate (pm s') pgdir va' =
       mapped (page va) (page (va + size - 1)) pa perm (translate (pm s) pgdir) va') \/
     (r = -1 /\ l' = [] /\ forall va', 0 <= va' < 2 ^ 32 ->
       outside (page va) (page (va + size - 1)) va' -> translate (pm s') pgdir va' = translate (pm s) pgdir va')).
Proof.
  intros Hk Hok Hva Hsz Hend Hpa Hpal Hperm Hfree.
  destruct (mappages_run kend s l pgdir va size pa perm) as (r & s' & l' & E & Hok' & _ & H); try done.
  by exists r, s', l'.
Qed.

(** ** The kernel's half of an address space *)
Section Kernel_map.
Context (kend kdata : Z) (Hkend : KERNBASE <= kend) (Hdata : KERNLINK < kdata < KERNBASE + PHYSTOP)
  (Haligned : kdata mod PGSIZE = 0).

(** A page just cleared is an empty page directory. *)
Lemma cleared_dir s l p : bytes_ok (pm s) -> frees kend s l -> page_ok kend p -> (p ∉ l) ->
  let s' := mkV (memset (pm s) (v2p p) 0 PGSIZE) (freelist s) in
  vm_ok kend s' l p /\ forall va, translate (pm s') p va = None.
Proof using Hkend.
  intros Hb [Hc Hnd] Hp Hpl s'.
  assert (Hz : forall a, in_page p a -> pm s' a = 0).
  { intros a Ha. cbn [pm s']. rewrite memset_fills by done. rewrite page_v2p by apply Hp. unfold filled, in_page in *.
    destruct (Z.leb_spec (p - KERNBASE) a), (Z.ltb_spec a (p - KERNBASE + PGSIZE)); try lia. done. }
  assert (Ho : forall a, ~ in_page p a -> pm s' a = pm s a).
  { intros a Ha. cbn [pm s']. rewrite memset_fills by done. rewrite page_v2p by apply Hp. unfold filled, in_page in *.
    destruct (Z.leb_spec (p - KERNBASE) a), (Z.ltb_spec a (p - KERNBASE + PGSIZE)); try done. lia. }
  assert (Hn : forall d, 0 <= d < NPDENTRIES -> table_at (pm s') p d = None).
  { intros d Hd. unfold table_at. assert (Hg : forall k, 0 <= k < 4 -> pm s' (pde_at p d + k) = 0).
    { intros k Hk. apply Hz. apply (pde_in p d); [done | lia]. }
    replace (get32 (pm s') (pde_at p d)) with 0; [done|]. unfold get32.
    pose proof (Hg 0 ltac:(lia)) as H0. rewrite Z.add_0_r in H0.
    rewrite H0, (Hg 1), (Hg 2), (Hg 3) by lia. done. }
  split; [|intros va; unfold translate; by rewrite Hn by apply PDX_range].
  split.
  - by apply memset_bytes.
  - split; [|done]. eapply free_agree; [done| |exact Hc]. intros x a Hx Hxa. apply Ho. intros Hpa. apply Hpl.
    pose proof (free_pages kend Hkend _ _ _ _ Hc Hx) as Hxp.
    by rewrite (page_disjoint p x a) by (apply Hp || apply Hxp || done).
  - done.
  - intros d t Hd Ht. by rewrite Hn in Ht.
  - intros d d' t Hd _ Ht. by rewrite Hn in Ht.
Qed.

(** One region of [kmap], with pages enough for all page tables. *)
Lemma map_region s l d va size pa perm lo : vm_ok kend s l d -> (1024 < length l + ntables (pm s) d)%nat ->
  0 <= va -> va mod PGSIZE = 0 -> 0 < size -> size mod PGSIZE = 0 -> va + size <= 2 ^ 32 -> 0 <= pa -> pa + size <= 2 ^ 32 ->
  0 <= perm < 2 ^ 32 -> lo <= va -> (forall va', 0 <= va' < 2 ^ 32 -> lo <= va' -> translate (pm s) d va' = None) ->
  exists s' l', mappages d va size pa perm s = Ok (0, s') /\ vm_ok kend s' l' d /\
    (length l' + ntables (pm s') d = length l + ntables (pm s) d)%nat /\
    (forall va', 0 <= va' < 2 ^ 32 -> va + size <= va' -> translate (pm s') d va' = None) /\
    forall va', 0 <= va' < 2 ^ 32 -> translate (pm s') d va' =
      if (va <=? va') && (va' <? va + size)
      then Some (Z.lor (Z.lor (pa + (page va' - va)) perm) PTE_P) else translate (pm s) d va'.
Proof using Hkend.
  clear Hdata Haligned. intros Hok Hlen Hva Hal Hsz Hszal Hend Hpa Hpaend Hperm Hlo Hfree.
  assert (Hpv : page va = va) by (unfold page; lia).
  assert (Hpl : page (va + size - 1) = va + size - PGSIZE) by (unfold page, PGSIZE in *; Z.div_mod_to_equations; lia).
  destruct (mappages_run kend s l d va size pa perm) as (r & s' & l' & E & Hok' & Hcnt & Hr); try done.
  { rewrite Hpv, Hpl. unfold PGSIZE. lia. }
  { intros va' Hr. rewrite Hpv, Hpl in Hr. apply Hfree; unfold page, PGSIZE in *; Z.div_mod_to_equations; lia. }
  assert (Htr : forall va', 0 <= va' < 2 ^ 32 -> (va <=? page va') && (page va' <=? va + size - PGSIZE)
    = (va <=? va') && (va' <? va + size)).
  { intros va' Hr'. apply eq_true_iff_eq. rewrite !andb_true_iff, !Z.leb_le, Z.ltb_lt.
    unfold page, PGSIZE in *. Z.div_mod_to_equations. lia. }
  destruct Hr as [[-> Hr]|(_ & -> & _)].
  - exists s', l'. split; [done|]. split; [done|]. split; [done|].
    assert (Hall : forall va', 0 <= va' < 2 ^ 32 -> translate (pm s') d va' =
      if (va <=? va') && (va' <? va + size)
      then Some (Z.lor (Z.lor (pa + (page va' - va)) perm) PTE_P) else translate (pm s) d va').
    { intros va' Hr'. rewrite Hr by done. unfold mapped. by rewrite Hpv, Hpl, Htr. }
    split; [|done]. intros va' Hr' Hge. rewrite Hall by done.
    replace ((va <=? va') && (va' <? va + size)) with false
      by (symmetry; apply andb_false_iff; right; apply Z.ltb_ge; lia).
    apply Hfree; [done|lia].
  - pose proof (ntables_le (pm s') d). cbn [length] in Hcnt. lia.
Qed.

(** With more free pages than there can be page tables, [setupkvm] returns a
    page directory that maps the kernel's addresses as [kmap] says and
    nothing else. *)
Lemma setupkvm_run s l : bytes_ok (pm s) -> frees kend s l -> (1025 < length l)%nat ->
  exists d s' l', setupkvm kdata s = Ok (d, s') /\ d <> 0 /\ vm_ok kend s' l' d /\
    forall va, 0 <= va < 2 ^ 32 -> translate (pm s') d va =
      if va <? KERNBASE then None
      else if va <? KERNLINK then Some (Z.lor (Z.lor (page va - KERNBASE) PTE_W) PTE_P)
      else if va <? kdata then Some (Z.lor (page va - KERNBASE) PTE_P)
      else if va <? KERNBASE + PHYSTOP then Some (Z.lor (Z.lor (page va - KERNBASE) PTE_W) PTE_P)
      else if va <? DEVSPACE then None
      else Some (Z.lor (Z.lor (page va) PTE_W) PTE_P).
Proof using All.
  intros Hb Hf Hlen. unfold setupkvm. pose proof (kalloc_run kend Hkend s l Hf) as Hk.
  destruct l as [|d l]; [cbn in Hlen; lia|]. destruct Hk as (s1 & E1 & Hm1 & Hf1 & Hd & Hdl & Hd0).
  rewrite (bind_Ok _ _ _ _ _ E1), (proj2 (Z.eqb_neq d 0) Hd0). erewrite bind_Ok; [|reflexivity].
  destruct (cleared_dir s1 l d) as [Hok0 Htr0]; [by rewrite Hm1 | done | done | done |].
  set (s2 := mkV _ _) in *. change (p2v PHYSTOP >? DEVSPACE) with false. cbv iota.
  unfold kmap. cbn [map_kernel]. cbn [length] in Hlen. unfold KERNLINK, KERNBASE, EXTMEM, PHYSTOP in Hdata.
  assert (Hvk : v2p kdata = kdata - KERNBASE) by (apply page_v2p; unfold KERNBASE, PHYSTOP; lia).
  rewrite Hvk. unfold v2p, KERNLINK, KERNBASE, EXTMEM, PHYSTOP, DEVSPACE, PTE_W, PGSIZE in *.
  destruct (map_region s2 l d 0x80000000 0x100000 0 2 0x80000000) as (s3 & l3 & E3 & Hok3 & Hc3 & Hn3 & Ht3); try done; try lia.
  destruct (map_region s3 l3 d 0x80100000 (kdata - 0x80100000) 0x100000 0 0x80100000)
    as (s4 & l4 & E4 & Hok4 & Hc4 & Hn4 & Ht4); try done; try (unfold PGSIZE; Z.div_mod_to_equations; lia); try lia.
  destruct (map_region s4 l4 d kdata (0x8E000000 - kdata) (kdata - 0x80000000) 2 kdata)
    as (s5 & l5 & E5 & Hok5 & Hc5 & Hn5 & Ht5); try done; try (unfold PGSIZE; Z.div_mod_to_equations; lia); try lia.
  { intros va Hva Hge. apply Hn4; [done|lia]. }
  destruct (map_region s5 l5 d 0xF9000000 0x7000000 0xF9000000 2 0xF9000000)
    as (s6 & l6 & E6 & Hok6 & Hc6 & _ & Ht6); try done; try lia.
  { intros va Hva Hge. apply Hn5; [done|lia]. }
  exists d, s6, l6. split; [|split; [done|split; [done|]]].
  - rewrite (bind_Ok _ _ _ true s6); [reflexivity|].
    change (u32 (0x100000 - 0)) with 0x100000. rewrite (bind_Ok _ _ _ _ _ E3). cbn [Z.ltb Z.compare].
    change (u32 (0x80000000 + 0x100000 - 0x80000000)) with 0x100000.
    replace (u32 (kdata - 0x80000000 - 0x100000)) with (kdata - 0x80100000) by (rewrite u32_small; lia).
    rewrite (bind_Ok _ _ _ _ _ E4). cbn [Z.ltb Z.compare].
    replace (u32 (0xE000000 - (kdata - 0x80000000))) with (0x8E000000 - kdata) by (rewrite u32_small; lia).
    rewrite (bind_Ok _ _ _ _ _ E5). cbn [Z.ltb Z.compare].
    change (u32 (0 - 0xF9000000)) with 0x7000000. rewrite (bind_Ok _ _ _ _ _ E6). reflexivity.
  - intros va Hva. rewrite Ht6, Ht5, Ht4, Ht3, Htr0 by done. clear -Hdata Hva.
    repeat match goal with
    | |- context [?a <=? va] => destruct (Z.leb_spec a va)
    | |- context [va <? ?a] => destruct (Z.ltb_spec va a)
    end; cbn [andb]; try lia; try done;
      rewrite ?Z.lor_0_r; do 2 f_equal; try lia; f_equal; lia.
Qed.

(** The page directory of a child whose parent has no user memory. *)
Lemma copyuvm_empty s l pg : bytes_ok (pm s) -> frees kend s l -> (1025 < length l)%nat ->
  exists d s', copyuvm kend kdata pg 0 s = Ok (d, s') /\ d <> 0.
Proof using All.
  intros Hb Hf Hlen. destruct (setupkvm_run s l Hb Hf Hlen) as (d & s' & l' & E & Hd & _).
  exists d, s'. split; [|done]. unfold copyuvm. by rewrite (bind_Ok _ _ _ _ _ E), (proj2 (Z.eqb_neq d 0) Hd).
Qed.
End Kernel_map.

(** C35 [allocuvm] ignores the result of [mappages].  With one free page left
    and no page table for the low addresses, growing an empty address space by
    one page succeeds and returns the new size, but address 0 is not mapped;
    a later [uva2ka] of it dereferences the null pointer [walkpgdir]
    returns. *)
Theorem allocuvm_unmapped kend s p pgdir :
  KERNBASE <= kend -> vm_ok kend s [p] pgdir -> table_at (pm s) pgdir 0 = None ->
  exists s', allocuvm kend pgdir 0 PGSIZE s = Ok (PGSIZE, s') /\ freelist s' = 0 /\
    translate (pm s') pgdir 0 = None /\ uva2ka pgdir 0 s' = Fault.
Proof.
  intros Hk [Hb Hf [Hdir Hdl] _ _] Hnone.
  destruct (kalloc_run kend Hk s [p] Hf) as (s1 & E1 & Hm & [Hf1 _] & Hp & _ & Hp0). cbn in Hf1.
  set (s2 := mkV (memset (pm s1) (v2p p) 0 PGSIZE) (freelist s1)).
  assert (Hpg : forall a, in_page pgdir a -> pm s2 a = pm s a).
  { intros a Ha. cbn [pm s2]. rewrite memset_fills, Hm by done. unfold filled.
    rewrite page_v2p by apply Hp. destruct (Z.leb_spec (p - KERNBASE) a), (Z.ltb_spec a (p - KERNBASE + PGSIZE));
      cbn [andb]; try done.
    destruct Hdl. rewrite (page_disjoint pgdir p a); [by left | apply Hdir | apply Hp | done | done]. }
  assert (Hpde : present (get32 (pm s2) (pde_at pgdir 0)) = false).
  { rewrite (entry_agree kend Hk (pm s)) by done. unfold table_at in Hnone. by destruct (present _). }
  assert (Hld : load (pgdir + 4 * PDX 0) s2 = Ok (get32 (pm s2) (pde_at pgdir 0), s2)) by by apply (load_pde kend Hk).
  assert (Hw : forall b, walkpgdir pgdir 0 b s2 = Ok (0, s2)).
  { intros b. unfold walkpgdir. rewrite (bind_Ok _ _ _ _ _ Hld). unfold present in Hpde. rewrite Hpde.
    destruct b; [|done]. unfold kalloc. cbn [negb]. erewrite bind_Ok; [|erewrite bind_Ok; [|reflexivity]].
    2:{ cbn [freelist s2]. rewrite Hf1. reflexivity. }
    done. }
  exists s2. split; [|split; [exact Hf1|]]; [|split].
  - unfold allocuvm. change (PGSIZE >=? KERNBASE) with false. change (PGSIZE <? 0) with false.
    change (PGROUNDUP 0) with 0. change (S (Z.to_nat (PGSIZE / PGSIZE + 1))) with 3%nat.
    cbn [alloc_loop]. change (0 <? PGSIZE) with true. unfold M_bind at 1. rewrite (bind_Ok _ _ _ _ _ E1).
    destruct (Z.eqb_spec p 0); [done|]. erewrite bind_Ok; [|reflexivity]. fold s2.
    erewrite bind_Ok.
    2:{ unfold mappages. change (PGROUNDDOWN 0) with 0. cbn [mappages_loop].
        rewrite (bind_Ok _ _ _ _ _ (Hw true)). reflexivity. }
    reflexivity.
  - unfold translate, table_at. change (PDX 0) with 0. by rewrite Hpde.
  - unfold uva2ka. by rewrite (bind_Ok _ _ _ _ _ (Hw false)).
Qed.

(** ** A small machine: the kernel ends at 4 MB, two free pages, an empty
    page directory behind them *)
Definition end_w : Z := KERNBASE + 0x400000.
Definition page_w (i : Z) : Z := end_w + PGSIZE * i.
Definition two_free : vstate := mkV (put32 (fun _ => 0) (v2p (page_w 1)) (page_w 2)) (page_w 1).
Definition one_free : vstate := mkV (fun _ => 0) (page_w 2).
Lemma two_free_ok : frees end_w two_free [page_w 1; page_w 2].
Proof. split; [cbn [free_chain]; unfold page_ok; split_and!; by vm_compute | apply (bool_decide_unpack _); vm_compute; done]. Qed.
Lemma zero_tables pgdir d : table_at (fun _ => 0) pgdir d = None.
Proof. done. Qed.
Lemma one_free_ok : vm_ok end_w one_free [page_w 2] (page_w 3).
Proof.
  split.
  - done.
  - split; [cbn [free_chain]; unfold page_ok; split_and!; by vm_compute | apply (bool_decide_unpack _); vm_compute; done].
  - split; [cbn [free_chain]; unfold page_ok; split_and!; by vm_compute | apply (bool_decide_unpack _); vm_compute; done].
  - done.
  - done.
Qed.

Lemma page_allocator_witness :
  exists s', kalloc two_free = Ok (page_w 1, s') /\ frees end_w s' [page_w 2] /\
    exists s2, kfree end_w (page_w 1) s' = Ok (tt, s2) /\ frees end_w s2 [page_w 1; page_w 2].
Proof.
  destruct (page_allocator end_w two_free [page_w 1; page_w 2] ltac:(done) two_free_ok)
    as [(s' & E & _ & Hf & _ & H) _].
  exists s'. split; [exact E|]. split; [exact Hf | exact H].
Defined.
Lemma mappages_maps_witness :
  exists r s' l', mappages (page_w 3) 0x1800 0x1000 0x500000 PTE_W one_free = Ok (r, s') /\
    vm_ok end_w s' l' (page_w 3) /\ (r = 0 \/ r = -1 /\ l' = []).
Proof.
  destruct (mappages_maps end_w one_free [page_w 2] (page_w 3) 0x1800 0x1000 0x500000 PTE_W
    ltac:(done) one_free_ok ltac:(done) ltac:(done) ltac:(done) ltac:(done) ltac:(done) ltac:(done)
    (fun _ _ => eq_refl)) as (r & s' & l' & E & Hok & H).
  exists r, s', l'. split; [exact E|]. split; [exact Hok|]. destruct H as [[H _]|(H & H' & _)]; auto.
Defined.
Lemma allocuvm_unmapped_witness :
  exists s', allocuvm end_w (page_w 3) 0 PGSIZE one_free = Ok (PGSIZE, s') /\ freelist s' = 0 /\
    translate (pm s') (page_w 3) 0 = None /\ uva2ka (page_w 3) 0 s' = Fault.
Proof. exact (allocuvm_unmapped end_w one_free (page_w 2) (page_w 3) ltac:(done) one_free_ok eq_refl). Defined.
