(* ===== verification/Segments.v ===== *)
(** * Segments: descriptor tables (src/src/mmu.h, src/src/vm.c, src/src/trap.c, src/src/x86.h)

    The tables are bytes in the memory of [Vm], [struct cpu] and [struct proc]
    are read and written at their offsets.  Each processor has registers for
    its tables, loaded by the instructions of x86.h; what the processor makes
    of the tables (section Processor) is the Intel manual's description, and
    the theorems say what it finds there.  [cpus], [idt] and [vectors] are
    the linker's. *)
From S2P Require Import Prelude CString Vm VmFacts.

(** ** Bit-fields: consecutive fields (width, value) from the lowest bit *)
Fixpoint pack (l : list (Z * Z)) : Z :=
  match l with [] => 0 | (n, v) :: l => v mod 2 ^ n + 2 ^ n * pack l end.
Fixpoint widths (l : list (Z * Z)) : Z := match l with [] => 0 | (n, _) :: l => n + widths l end.
Definition field (w off n : Z) : Z := (w / 2 ^ off) mod 2 ^ n.

Definition wide (l : list (Z * Z)) : Prop := Forall (fun p => 0 <= p.1) l.
Lemma widths_nonneg l : wide l -> 0 <= widths l.
Proof. induction 1 as [|[n v] l Hn _ IH]; cbn [widths fst] in *; lia. Qed.
Lemma pack_range l : wide l -> 0 <= pack l < 2 ^ widths l.
Proof.
  induction 1 as [|[n v] l Hn Hl IH]; cbn [pack widths fst] in *; [lia|]. pose proof (widths_nonneg l Hl).
  rewrite Z.pow_add_r by lia. pose proof (Z.mod_pos_bound v (2 ^ n) ltac:(lia)). nia.
Qed.
Lemma field_pack l1 : forall n v l2, wide (l1 ++ (n, v) :: l2) -> field (pack (l1 ++ (n, v) :: l2)) (widths l1) n = v mod 2 ^ n.
Proof.
  unfold field. induction l1 as [|[k w] l1 IH]; intros n v l2 Hw; cbn [app pack widths].
  - apply Forall_cons in Hw as [Hn _]. cbn [fst] in Hn. rewrite Z.pow_0_r, Z.div_1_r.
    rewrite (Z.mul_comm (2 ^ n)), Z.mod_add by lia. apply Z.mod_mod. lia.
  - apply Forall_cons in Hw as [Hk Hw]. cbn [fst] in Hk. rewrite <- (IH n v l2 Hw).
    assert (0 <= widths l1) by (apply widths_nonneg; by apply Forall_app in Hw as [? _]).
    rewrite Z.pow_add_r, <- Z.div_div by lia.
    rewrite (Z.mul_comm (2 ^ k)), Z.div_add by lia. by rewrite (Z.div_small (w mod 2 ^ k)) by (apply Z.mod_pos_bound; lia).
Qed.

(** ** mmu.h *)
Definition SEG_KCODE : Z := 1.
Definition SEG_KDATA : Z := 2.
Definition SEG_KCPU : Z := 3.
Definition SEG_UCODE : Z := 4.
Definition SEG_UDATA : Z := 5.
Definition SEG_TSS : Z := 6.
Definition NSEGS : Z := 7.
Definition DPL_USER : Z := 3.
Definition STA_X : Z := 0x8.
Definition STA_W : Z := 0x2.
Definition STA_R : Z := 0x2.
Definition STS_T32A : Z := 0x9.
Definition STS_IG32 : Z := 0xE.
Definition STS_TG32 : Z := 0xF.
Definition FL_IF : Z := 0x200.
Definition T_SYSCALL : Z := 64.
Definition KSTACKSIZE : Z := 4096.

Record segdesc := mkSegdesc {
  lim_15_0 : Z; base_15_0 : Z; base_23_16 : Z; sd_type : Z; sd_s : Z; sd_dpl : Z; sd_p : Z;
  lim_19_16 : Z; sd_avl : Z; sd_rsv1 : Z; sd_db : Z; sd_g : Z; base_31_24 : Z }.
Definition seg_fields (d : segdesc) : list (Z * Z) :=
  [(16, lim_15_0 d); (16, base_15_0 d); (8, base_23_16 d); (4, sd_type d); (1, sd_s d); (2, sd_dpl d); (1, sd_p d);
   (4, lim_19_16 d); (1, sd_avl d); (1, sd_rsv1 d); (1, sd_db d); (1, sd_g d); (8, base_31_24 d)].
Definition SEG (type base lim dpl : Z) : segdesc :=
  mkSegdesc (Z.land (Z.shiftr lim 12) 0xffff) (Z.land (u32 base) 0xffff)
    (Z.land (Z.shiftr (u32 base) 16) 0xff) type 1 dpl 1
    (Z.shiftr (u32 lim) 28) 0 0 1 1 (Z.shiftr (u32 base) 24).
Definition SEG16 (type base lim dpl : Z) : segdesc :=
  mkSegdesc (Z.land lim 0xffff) (Z.land (u32 base) 0xffff)
    (Z.land (Z.shiftr (u32 base) 16) 0xff) type 1 dpl 1
    (Z.shiftr (u32 lim) 16) 0 0 1 0 (Z.shiftr (u32 base) 24).
Definition set_s (v : Z) (d : segdesc) : segdesc :=
  mkSegdesc (lim_15_0 d) (base_15_0 d) (base_23_16 d) (sd_type d) v (sd_dpl d) (sd_p d)
    (lim_19_16 d) (sd_avl d) (sd_rsv1 d) (sd_db d) (sd_g d) (base_31_24 d).

Record gatedesc := mkGatedesc {
  off_15_0 : Z; gd_cs : Z; gd_args : Z; gd_rsv1 : Z; gd_type : Z; gd_s : Z; gd_dpl : Z; gd_p : Z; off_31_16 : Z }.
Definition gate_fields (g : gatedesc) : list (Z * Z) :=
  [(16, off_15_0 g); (16, gd_cs g); (5, gd_args g); (3, gd_rsv1 g); (4, gd_type g); (1, gd_s g); (2, gd_dpl g); (1, gd_p g);
   (16, off_31_16 g)].
Definition SETGATE (istrap sel off d : Z) : gatedesc :=
  mkGatedesc (Z.land (u32 off) 0xffff) sel 0 0 (if truthy istrap then STS_TG32 else STS_IG32) 0 d 1 (Z.shiftr (u32 off) 16).

(** ** What the processor makes of a descriptor *)
Record segment := mkSegment { s_base : Z; s_limit : Z; s_type : Z; s_user : Z; s_dpl : Z; s_present : Z }.
Definition read_segment (w : Z) : segment :=
  let raw := field w 0 16 + 2 ^ 16 * field w 48 4 in
  mkSegment (field w 16 16 + 2 ^ 16 * field w 32 8 + 2 ^ 24 * field w 56 8)
    (if field w 55 1 =? 1 then 4096 * raw + 4095 else raw)
    (field w 40 4) (field w 44 1) (field w 45 2) (field w 47 1).
Record gate := mkGate { g_offset : Z; g_sel : Z; g_type : Z; g_user : Z; g_dpl : Z; g_present : Z }.
Definition read_gate (w : Z) : gate :=
  mkGate (field w 0 16 + 2 ^ 16 * field w 48 16) (field w 16 16) (field w 40 4) (field w 44 1) (field w 45 2) (field w 47 1).

(** The field number [k]. *)
Lemma field_nth l k n v off : wide l -> l !! k = Some (n, v) -> widths (take k l) = off -> field (pack l) off n = v mod 2 ^ n.
Proof.
  intros Hw Hk <-. rewrite <- (take_drop_middle l k (n, v) Hk) at 1. apply field_pack. by rewrite (take_drop_middle l k _ Hk).
Qed.
Lemma seg_wide d : wide (seg_fields d).
Proof. repeat (constructor; [cbn; lia|]). constructor. Qed.
Lemma gate_wide g : wide (gate_fields g).
Proof. repeat (constructor; [cbn; lia|]). constructor. Qed.
Lemma seg_word_range d : 0 <= pack (seg_fields d) < 2 ^ 64.
Proof. apply (pack_range _ (seg_wide d)). Qed.
Lemma gate_word_range g : 0 <= pack (gate_fields g) < 2 ^ 64.
Proof. apply (pack_range _ (gate_wide g)). Qed.

Lemma segment_of d : read_segment (pack (seg_fields d)) =
  let raw := lim_15_0 d mod 2 ^ 16 + 2 ^ 16 * (lim_19_16 d mod 2 ^ 4) in
  mkSegment (base_15_0 d mod 2 ^ 16 + 2 ^ 16 * (base_23_16 d mod 2 ^ 8) + 2 ^ 24 * (base_31_24 d mod 2 ^ 8))
    (if sd_g d mod 2 ^ 1 =? 1 then 4096 * raw + 4095 else raw)
    (sd_type d mod 2 ^ 4) (sd_s d mod 2 ^ 1) (sd_dpl d mod 2 ^ 2) (sd_p d mod 2 ^ 1).
Proof.
  pose proof (seg_wide d) as Hw. unfold read_segment.
  rewrite (field_nth _ 0 16 (lim_15_0 d) 0 Hw), (field_nth _ 1 16 (base_15_0 d) 16 Hw), (field_nth _ 2 8 (base_23_16 d) 32 Hw),
    (field_nth _ 3 4 (sd_type d) 40 Hw), (field_nth _ 4 1 (sd_s d) 44 Hw), (field_nth _ 5 2 (sd_dpl d) 45 Hw),
    (field_nth _ 6 1 (sd_p d) 47 Hw), (field_nth _ 7 4 (lim_19_16 d) 48 Hw), (field_nth _ 11 1 (sd_g d) 55 Hw),
    (field_nth _ 12 8 (base_31_24 d) 56 Hw) by reflexivity. reflexivity.
Qed.
Lemma gate_of g : read_gate (pack (gate_fields g)) =
  mkGate (off_15_0 g mod 2 ^ 16 + 2 ^ 16 * (off_31_16 g mod 2 ^ 16)) (gd_cs g mod 2 ^ 16) (gd_type g mod 2 ^ 4)
    (gd_s g mod 2 ^ 1) (gd_dpl g mod 2 ^ 2) (gd_p g mod 2 ^ 1).
Proof.
  pose proof (gate_wide g) as Hw. unfold read_gate.
  rewrite (field_nth _ 0 16 (off_15_0 g) 0 Hw), (field_nth _ 1 16 (gd_cs g) 16 Hw), (field_nth _ 4 4 (gd_type g) 40 Hw),
    (field_nth _ 5 1 (gd_s g) 44 Hw), (field_nth _ 6 2 (gd_dpl g) 45 Hw), (field_nth _ 7 1 (gd_p g) 47 Hw),
    (field_nth _ 8 16 (off_31_16 g) 48 Hw) by reflexivity. reflexivity.
Qed.

(** Low bits by masking. *)
Lemma land_low v k : 0 <= k -> Z.land v (Z.ones k) = v mod 2 ^ k.
Proof. apply Z.land_ones. Qed.
Lemma split_base b : 0 <= b < 2 ^ 32 ->
  Z.land b 0xffff mod 2 ^ 16 + 2 ^ 16 * (Z.land (Z.shiftr b 16) 0xff mod 2 ^ 8) + 2 ^ 24 * (Z.shiftr b 24 mod 2 ^ 8) = b.
Proof.
  intros Hb. change 0xffff with (Z.ones 16). change 0xff with (Z.ones 8). rewrite !land_low, !Z.shiftr_div_pow2 by lia.
  Z.div_mod_to_equations. lia.
Qed.
Lemma SEG_read type base lim dpl : 0 <= type < 16 -> 0 <= base < 2 ^ 32 -> 0 <= lim < 2 ^ 32 -> 0 <= dpl < 4 ->
  read_segment (pack (seg_fields (SEG type base lim dpl))) = mkSegment base (lim - lim mod 4096 + 4095) type 1 dpl 1.
Proof.
  intros Ht Hb Hl Hd. rewrite segment_of. cbn [SEG lim_15_0 lim_19_16 base_15_0 base_23_16 base_31_24 sd_g sd_type sd_s sd_dpl sd_p].
  rewrite !u32_small, split_base by done. cbv zeta. rewrite (Z.mod_small type), (Z.mod_small dpl) by lia. f_equal.
  change (1 mod 2 ^ 1 =? 1) with true. cbv iota. change 0xffff with (Z.ones 16). rewrite !land_low, !Z.shiftr_div_pow2 by lia.
  Z.div_mod_to_equations. lia.
Qed.
Lemma SEG16_read type base lim dpl : 0 <= type < 16 -> 0 <= base < 2 ^ 32 -> 0 <= lim < 2 ^ 20 -> 0 <= dpl < 4 ->
  read_segment (pack (seg_fields (set_s 0 (SEG16 type base lim dpl)))) = mkSegment base lim type 0 dpl 1.
Proof.
  intros Ht Hb Hl Hd. rewrite segment_of.
  cbn [set_s SEG16 lim_15_0 lim_19_16 base_15_0 base_23_16 base_31_24 sd_g sd_type sd_s sd_dpl sd_p].
  rewrite !u32_small, split_base by lia. cbv zeta. rewrite (Z.mod_small type), (Z.mod_small dpl) by lia. f_equal.
  change (0 mod 2 ^ 1 =? 1) with false. cbv iota. change 0xffff with (Z.ones 16). rewrite !land_low, !Z.shiftr_div_pow2 by lia.
  Z.div_mod_to_equations. lia.
Qed.
Lemma SETGATE_read istrap sel off d : 0 <= sel < 2 ^ 16 -> 0 <= off < 2 ^ 32 -> 0 <= d < 4 ->
  read_gate (pack (gate_fields (SETGATE istrap sel off d))) = mkGate off sel (if truthy istrap then STS_TG32 else STS_IG32) 0 d 1.
Proof.
  intros Hs Ho Hd. rewrite gate_of. cbn [SETGATE off_15_0 off_31_16 gd_cs gd_type gd_s gd_dpl gd_p].
  rewrite u32_small, (Z.mod_small sel), (Z.mod_small d) by lia. f_equal; [|by destruct (truthy istrap)].
  change 0xffff with (Z.ones 16). rewrite !land_low, !Z.shiftr_div_pow2 by lia. Z.div_mod_to_equations. lia.
Qed.

(** ** The local interrupt controllers (lapic.c)

    The chip of a processor.  A register of its vector table holds what was
    written; a write to the command register sends a command to the processor
    named in the upper half; the delivery status clears as time passes. *)
Definition ID : Z := 0x0020 / 4.
Definition VER : Z := 0x0030 / 4.
Definition TPR : Z := 0x0080 / 4.
Definition EOI : Z := 0x00B0 / 4.
Definition SVR : Z := 0x00F0 / 4.
Definition ENABLE : Z := 0x00000100.
Definition ESR : Z := 0x0280 / 4.
Definition ICRLO : Z := 0x0300 / 4.
Definition INIT : Z := 0x00000500.
Definition STARTUP : Z := 0x00000600.
Definition DELIVS : Z := 0x00001000.
Definition ASSERT : Z := 0x00004000.
Definition LEVEL : Z := 0x00008000.
Definition BCAST : Z := 0x00080000.
Definition ICRHI : Z := 0x0310 / 4.
Definition TIMER : Z := 0x0320 / 4.
Definition X1 : Z := 0x0000000B.
Definition PERIODIC : Z := 0x00020000.
Definition PCINT : Z := 0x0340 / 4.
Definition LINT0 : Z := 0x0350 / 4.
Definition LINT1 : Z := 0x0360 / 4.
Definition ERROR : Z := 0x0370 / 4.
Definition MASKED : Z := 0x00010000.
Definition TICR : Z := 0x0380 / 4.
Definition TDCR : Z := 0x03E0 / 4.
Definition T_IRQ0 : Z := 32.
Definition IRQ_TIMER : Z := 0.
Definition IRQ_ERROR : Z := 19.
Definition IRQ_SPURIOUS : Z := 31.

(** Registers that keep what is written, and those that software only reads. *)
Definition lasting : list Z := [SVR; TDCR; TIMER; TICR; LINT0; LINT1; PCINT; ERROR; ICRHI; TPR].
Definition steady (r : Z) : Prop := r ∈ lasting \/ r = ID \/ r = VER.
Class LocalApic := {
  lchip : Type;
  lread : Z -> lchip -> Z;
  lwrite : Z -> Z -> lchip -> lchip;
  ltick : lchip -> lchip;
  lsent : lchip -> list (Z * Z);
  delivery_time : nat;
  lread_written r v c : r ∈ lasting -> lread r (lwrite r v c) = v;
  lread_other r r' v c : r' <> r -> steady r' -> lread r' (lwrite r v c) = lread r' c;
  lread_ticked r c : steady r -> lread r (ltick c) = lread r c;
  lsent_command v c : lsent (lwrite ICRLO v c) = lsent c ++ [(lread ICRHI c, v)];
  lsent_other r v c : r <> ICRLO -> lsent (lwrite r v c) = lsent c;
  lsent_ticked c : lsent (ltick c) = lsent c;
  delivered c : exists n, (n <= delivery_time)%nat /\ Z.land (lread ICRLO (Nat.iter n ltick c)) DELIVS = 0 }.

(** ** The machine *)
Record creg := mkCreg {
  gdtr : Z * Z; idtr : Z * Z; gs_base : Z; tr_base : Z; cr3 : Z; iflag : bool; esp : Z }.
(** The registers and chips of the processors; [lapicp] is the variable
    [lapic]; [outs] are the bytes written to ports. *)
Record mstate `{LocalApic} := mkMs {
  vs : vstate; regs : Z -> creg; apic : Z -> lchip; lapicp : Z; kpgdir : Z; outs : list (Z * Z) }.

Section Machine.
Context `{LocalApic} (cpus idt : Z) (vectors : Z -> Z).
Definition K : Type -> Type := M mstate.
Definition set_vs (v : vstate) (s : mstate) : mstate := mkMs _ v (regs s) (apic s) (lapicp s) (kpgdir s) (outs s).
Definition set_regs (c : Z) (f : creg -> creg) (s : mstate) : mstate :=
  mkMs _ (vs s) (upd (regs s) c (f (regs s c))) (apic s) (lapicp s) (kpgdir s) (outs s).
Definition set_apic (c : Z) (f : lchip -> lchip) (s : mstate) : mstate :=
  mkMs _ (vs s) (regs s) (upd (apic s) c (f (apic s c))) (lapicp s) (kpgdir s) (outs s).
Definition set_kpgdir (p : Z) (s : mstate) : mstate := mkMs _ (vs s) (regs s) (apic s) (lapicp s) p (outs s).
Definition outb (port v : Z) : K unit :=
  modify (fun s => mkMs _ (vs s) (regs s) (apic s) (lapicp s) (kpgdir s) (outs s ++ [(port, u8 v)])).
Definition on_vm {A} (m : V A) : K A := zoom vs set_vs m.
(** Words of memory at kernel addresses. *)
Definition ld (a : Z) : K Z := on_vm (load a).
Definition st (a v : Z) : K unit := on_vm (store a v).
Definition st16 (a v : Z) : K unit := on_vm (set_pm (fun m => put16 m (v2p a) v)).
Definition get64 (m : mem) (a : Z) : Z := get32 m a + 2 ^ 32 * get32 m (a + 4).
Definition st64 (a w : Z) : K unit := st a (w mod 2 ^ 32) ;;; st (a + 4) (w / 2 ^ 32).

(** *** lapic.c *)
Definition lapicw (c index value : Z) : K unit := modify (set_apic c (lwrite index (u32 value))).
Definition lapicr (c index : Z) : K Z := gets (fun s => lread index (apic s c)).
(** [while(lapic[ICRLO] & DELIVS);] *)
Fixpoint poll (fuel : nat) (c : Z) : K unit :=
  match fuel with
  | O => out_of_fuel
  | S fuel =>
      v <- lapicr c ICRLO ;;
      if truthy (Z.land v DELIVS) then modify (set_apic c ltick) ;;; poll fuel c else ret tt
  end.
Definition lapicinit (c : Z) : K unit :=
  l <- gets lapicp ;;
  if l =? 0 then ret tt
  else
    lapicw c SVR (Z.lor ENABLE (T_IRQ0 + IRQ_SPURIOUS)) ;;;
    lapicw c TDCR X1 ;;;
    lapicw c TIMER (Z.lor PERIODIC (T_IRQ0 + IRQ_TIMER)) ;;;
    lapicw c TICR 10000000 ;;;
    lapicw c LINT0 MASKED ;;;
    lapicw c LINT1 MASKED ;;;
    v <- lapicr c VER ;;
    (when Z.land (Z.shiftr v 16) 0xFF >=? 4 do lapicw c PCINT MASKED) ;;;
    lapicw c ERROR (T_IRQ0 + IRQ_ERROR) ;;;
    lapicw c ESR 0 ;;;
    lapicw c ESR 0 ;;;
    lapicw c EOI 0 ;;;
    lapicw c ICRHI 0 ;;;
    lapicw c ICRLO (Z.lor (Z.lor BCAST INIT) LEVEL) ;;;
    poll (S delivery_time) c ;;;
    lapicw c TPR 0.
(** The message for a call with interrupts enabled is left out. *)
Definition cpunum (c : Z) : K Z :=
  l <- gets lapicp ;;
  if negb (l =? 0) then v <- lapicr c ID ;; ret (Z.shiftr v 24) else ret 0.
Definition lapiceoi (c : Z) : K unit :=
  l <- gets lapicp ;;
  when negb (l =? 0) do lapicw c EOI 0.
Definition lapicstartap (c apicid addr : Z) : K unit :=
  outb 0x70 0xF ;;;
  outb 0x71 0x0A ;;;
  let wrv := u32 (KERNBASE + Z.lor (Z.shiftl 0x40 4) 0x67) in
  st16 wrv 0 ;;;
  st16 (wrv + 2) (u16 (Z.shiftr addr 4)) ;;;
  lapicw c ICRHI (Z.shiftl apicid 24) ;;;
  lapicw c ICRLO (Z.lor (Z.lor INIT LEVEL) ASSERT) ;;;
  lapicw c ICRLO (Z.lor INIT LEVEL) ;;;
  mfor 0 2 (fun _ =>
    lapicw c ICRHI (Z.shiftl apicid 24) ;;;
    lapicw c ICRLO (Z.lor STARTUP (Z.shiftr addr 12))).

(** *** x86.h *)

(** The operand of [lgdt] and [lidt] and what the processor reads from it. *)
Definition pseudo (p size : Z) : Z * Z :=
  let pd0 := u16 (size - 1) in
  let pd1 := u16 p in
  let pd2 := u16 (Z.shiftr (u32 p) 16) in
  (pd1 + 2 ^ 16 * pd2, pd0).
Definition lgdt (c p size : Z) : K unit :=
  modify (set_regs c (fun r => mkCreg (pseudo p size) (idtr r) (gs_base r) (tr_base r) (cr3 r) (iflag r) (esp r))).
Definition lidt (c p size : Z) : K unit :=
  modify (set_regs c (fun r => mkCreg (gdtr r) (pseudo p size) (gs_base r) (tr_base r) (cr3 r) (iflag r) (esp r))).
Definition lcr3 (c v : Z) : K unit :=
  modify (set_regs c (fun r => mkCreg (gdtr r) (idtr r) (gs_base r) (tr_base r) v (iflag r) (esp r))).
Definition set_if (c : Z) (b : bool) : K unit :=
  modify (set_regs c (fun r => mkCreg (gdtr r) (idtr r) (gs_base r) (tr_base r) (cr3 r) b (esp r))).
Definition cli (c : Z) : K unit := set_if c false.
Definition sti (c : Z) : K unit := set_if c true.
(** The flag for interrupts only. *)
Definition readeflags (c : Z) : K Z := gets (fun s => if iflag (regs s c) then FL_IF else 0).
(** The descriptor a selector names in the table of the processor. *)
Definition descriptor (s : mstate) (c sel : Z) : option Z :=
  let '(base, limit) := gdtr (regs s c) in
  if (8 * (sel / 8) + 7 <=? limit) && (0 <? sel / 8) then Some (get64 (pm (vs s)) (v2p (base + 8 * (sel / 8)))) else None.
(** A data segment is loaded; the processor keeps its base. *)
Definition loadgs (c v : Z) : K unit :=
  s <- get ;;
  match descriptor s c (u16 v) with
  | Some w =>
      let d := read_segment w in
      if (s_user d =? 1) && (s_present d =? 1) && (Z.land (s_type d) STA_X =? 0)
      then modify (set_regs c (fun r => mkCreg (gdtr r) (idtr r) (s_base d) (tr_base r) (cr3 r) (iflag r) (esp r)))
      else fault
  | None => fault
  end.
(** A task segment must be available; it becomes busy. *)
Definition ltr (c sel : Z) : K unit :=
  s <- get ;;
  match descriptor s c (u16 sel) with
  | Some w =>
      let d := read_segment w in
      if (s_user d =? 0) && (s_present d =? 1) && (s_type d =? STS_T32A) then
        st64 (fst (gdtr (regs s c)) + 8 * (u16 sel / 8)) (w + 2 ^ 41) ;;;
        modify (set_regs c (fun r => mkCreg (gdtr r) (idtr r) (gs_base r) (s_base d) (cr3 r) (iflag r) (esp r)))
      else fault
  | None => fault
  end.
(** The variables at %gs. *)
Definition gs_load (c off : Z) : K Z := b <- gets (fun s => gs_base (regs s c)) ;; ld (b + off).
Definition gs_store (c off v : Z) : K unit := b <- gets (fun s => gs_base (regs s c)) ;; st (b + off) v.
Definition get_cpu (c : Z) : K Z := gs_load c 0.
Definition get_proc (c : Z) : K Z := gs_load c 4.
Definition set_proc (c p : Z) : K unit := gs_store c 4 p.

(** *** struct cpu and struct proc (proc.h): offsets *)
Definition CPU_TS : Z := 8.
Definition CPU_GDT : Z := 112.
Definition CPU_STARTED : Z := 168.
Definition CPU_NCLI : Z := 172.
Definition CPU_INTENA : Z := 176.
Definition CPU_CPU : Z := 180.
Definition SIZEOF_CPU : Z := 188.
Definition SIZEOF_TS : Z := 104.
Definition TS_ESP0 : Z := 4.
Definition TS_SS0 : Z := 8.
Definition PROC_PGDIR : Z := 4.
Definition PROC_KSTACK : Z := 8.
Definition NCPU : Z := 8.
Definition cpu_at (i : Z) : Z := cpus + SIZEOF_CPU * i.
Definition gdt_at (i : Z) : Z := cpu_at i + CPU_GDT.

(** *** vm.c *)
Definition store_seg (a : Z) (d : segdesc) : K unit := st64 a (pack (seg_fields d)).
Definition seginit (c : Z) : K unit :=
  n <- cpunum c ;;
  store_seg (gdt_at n + 8 * SEG_KCODE) (SEG (Z.lor STA_X STA_R) 0 0xffffffff 0) ;;;
  store_seg (gdt_at n + 8 * SEG_KDATA) (SEG STA_W 0 0xffffffff 0) ;;;
  store_seg (gdt_at n + 8 * SEG_UCODE) (SEG (Z.lor STA_X STA_R) 0 0xffffffff DPL_USER) ;;;
  store_seg (gdt_at n + 8 * SEG_UDATA) (SEG STA_W 0 0xffffffff DPL_USER) ;;;
  store_seg (gdt_at n + 8 * SEG_KCPU) (SEG STA_W (cpu_at n + CPU_CPU) 8 0) ;;;
  lgdt c (gdt_at n) (8 * NSEGS) ;;;
  loadgs c (Z.shiftl SEG_KCPU 3) ;;;
  gs_store c 0 (cpu_at n) ;;;
  set_proc c 0.
Definition switchkvm (c : Z) : K unit := p <- gets kpgdir ;; lcr3 c (v2p p).

(** *** spinlock.c *)
Definition pushcli (c : Z) : K unit :=
  eflags <- readeflags c ;;
  cli c ;;;
  a <- get_cpu c ;;
  n <- ld (a + CPU_NCLI) ;;
  st (a + CPU_NCLI) (n + 1) ;;;
  when n =? 0 do (a <- get_cpu c ;; st (a + CPU_INTENA) (Z.land eflags FL_IF)).
Definition popcli (c : Z) : K unit :=
  eflags <- readeflags c ;;
  if truthy (Z.land eflags FL_IF) then panic "popcli - interruptible"
  else
    a <- get_cpu c ;;
    n <- ld (a + CPU_NCLI) ;;
    st (a + CPU_NCLI) (n - 1) ;;;
    if s32 (n - 1) <? 0 then panic "popcli"
    else
      a <- get_cpu c ;;
      n <- ld (a + CPU_NCLI) ;;
      i <- ld (a + CPU_INTENA) ;;
      when (n =? 0) && truthy i do sti c.

(** [proc] is the current process, [p] the argument. *)
Definition switchuvm (c p : Z) : K unit :=
  pushcli c ;;;
  a <- get_cpu c ;;
  store_seg (a + CPU_GDT + 8 * SEG_TSS) (set_s 0 (SEG16 STS_T32A (a + CPU_TS) (SIZEOF_TS - 1) 0)) ;;;
  st16 (a + CPU_TS + TS_SS0) (Z.shiftl SEG_KDATA 3) ;;;
  q <- get_proc c ;;
  k <- ld (q + PROC_KSTACK) ;;
  st (a + CPU_TS + TS_ESP0) (k + KSTACKSIZE) ;;;
  ltr c (Z.shiftl SEG_TSS 3) ;;;
  g <- ld (p + PROC_PGDIR) ;;
  if g =? 0 then panic "switchuvm: no pgdir"
  else
    lcr3 c (v2p g) ;;;
    popcli c.

(** *** trap.c *)
Definition store_gate (a : Z) (g : gatedesc) : K unit := st64 a (pack (gate_fields g)).
(** The lock [tickslock] is initialised elsewhere. *)
Definition tvinit : K unit :=
  mfor 0 256 (fun i => store_gate (idt + 8 * i) (SETGATE 0 (Z.shiftl SEG_KCODE 3) (vectors i) 0)) ;;;
  store_gate (idt + 8 * T_SYSCALL) (SETGATE 1 (Z.shiftl SEG_KCODE 3) (vectors T_SYSCALL) DPL_USER).
Definition idtinit (c : Z) : K unit := lidt c idt (8 * 256).

(** *** Processor: entering the kernel

    Vector [n] at privilege [cpl], by the instruction [int n] when [soft].
    [None] is a protection fault. *)
Record entry := mkEntry { e_eip : Z; e_cpl : Z; e_if_kept : bool; e_stack : option (Z * Z) }.
Definition deliver (s : mstate) (c cpl : Z) (soft : bool) (n : Z) : option entry :=
  let r := regs s c in
  let m := pm (vs s) in
  if negb (8 * n + 7 <=? snd (idtr r)) then None else
  let g := read_gate (get64 m (v2p (fst (idtr r) + 8 * n))) in
  if negb ((g_user g =? 0) && (g_present g =? 1) && ((g_type g =? STS_IG32) || (g_type g =? STS_TG32))) then None else
  if soft && (g_dpl g <? cpl) then None else
  match descriptor s c (g_sel g) with
  | None => None
  | Some w =>
      let d := read_segment w in
      if negb ((s_user d =? 1) && (s_present d =? 1) && truthy (Z.land (s_type d) STA_X) && (s_dpl d <=? cpl) && (g_offset g <=? s_limit d))
      then None
      else Some (mkEntry (s_base d + g_offset g) (s_dpl d) (g_type g =? STS_TG32)
        (if s_dpl d <? cpl then Some (get16 m (v2p (tr_base r + TS_SS0)), get32 m (v2p (tr_base r + TS_ESP0))) else None))
  end.
End Machine.

(** * The kernel is entered through its gates only *)
Section Facts.
Context `{LocalApic} (cpus idt : Z) (vectors : Z -> Z).
Abbreviation slot := (cpu_at cpus).
Abbreviation gdt_of := (gdt_at cpus).
Record layout : Prop := mkLayout {
  lay_cpus : KERNBASE <= cpus /\ cpus + SIZEOF_CPU * NCPU <= KERNBASE + PHYSTOP;
  lay_idt : KERNBASE <= idt /\ idt + 8 * 256 <= KERNBASE + PHYSTOP;
  lay_apart : cpus + SIZEOF_CPU * NCPU <= idt \/ idt + 8 * 256 <= cpus;
  lay_vectors : forall n, 0 <= vectors n < 2 ^ 32 }.

(** ** Words of memory *)
Definition rd (s : mstate) (a : Z) : Z := get32 (pm (vs s)) (v2p a).
Definition rd64 (s : mstate) (a : Z) : Z := get64 (pm (vs s)) (v2p a).
Definition wr (a v : Z) (s : mstate) : mstate := set_vs (mkV (put32 (pm (vs s)) (v2p a) (u32 v)) (freelist (vs s))) s.
Definition wr16 (a v : Z) (s : mstate) : mstate := set_vs (mkV (put16 (pm (vs s)) (v2p a) v) (freelist (vs s))) s.
Definition wr64 (a w : Z) (s : mstate) : mstate := wr (a + 4) (w / 2 ^ 32) (wr a (w mod 2 ^ 32) s).
Lemma regs_wr a v s : regs (wr a v s) = regs s.
Proof. done. Qed.
Lemma regs_wr16 a v s : regs (wr16 a v s) = regs s.
Proof. done. Qed.
Lemma regs_wr64 a v s : regs (wr64 a v s) = regs s.
Proof. done. Qed.
Lemma kpgdir_wr a v s : kpgdir (wr a v s) = kpgdir s.
Proof. done. Qed.
Lemma freelist_wr a v s : freelist (vs (wr a v s)) = freelist (vs s).
Proof. done. Qed.
Lemma freelist_wr64 a v s : freelist (vs (wr64 a v s)) = freelist (vs s).
Proof. done. Qed.
Lemma kpgdir_wr64 a v s : kpgdir (wr64 a v s) = kpgdir s.
Proof. done. Qed.
Lemma regs_set c f s : regs (set_regs c f s) c = f (regs s c).
Proof. cbn. apply upd_eq. Qed.
Lemma st_wr a v s : st a v s = Ok (tt, wr a v s).
Proof. done. Qed.
Lemma st16_wr a v s : st16 a v s = Ok (tt, wr16 a v s).
Proof. done. Qed.
Lemma st64_wr a w s : st64 a w s = Ok (tt, wr64 a w s).
Proof. done. Qed.
Lemma ld_rd a s : ld a s = Ok (rd s a, s).
Proof. by destruct s as [[]]. Qed.

(** Kernel addresses of [n] bytes. *)
Definition ka (a n : Z) : Prop := KERNBASE <= a /\ a + n <= KERNBASE + PHYSTOP.
Lemma ka_v2p a n : ka a n -> 0 < n -> v2p a = a - KERNBASE.
Proof. intros [Ha Hn] ?. apply page_v2p. lia. Qed.
Lemma word16_elsewhere m a v x : ~ (a <= x < a + 2) -> put16 m a v x = m x.
Proof. intros Hx. unfold put16. by rewrite !upd_ne by lia. Qed.
Lemma get16_agree m m' a : (forall x, a <= x < a + 2 -> m' x = m x) -> get16 m' a = get16 m a.
Proof. intros Hx. unfold get16. by rewrite !Hx by lia. Qed.
Lemma word16_stored m a v : 0 <= v < 2 ^ 16 -> get16 (put16 m a v) a = v.
Proof.
  intros Hv. unfold get16, put16. rewrite upd_eq, upd_ne, upd_eq by lia. unfold u8. rewrite Z.shiftr_div_pow2 by lia.
  Z.div_mod_to_equations. lia.
Qed.
Lemma get16_wr16_same a v s : 0 <= v < 2 ^ 16 -> get16 (pm (vs (wr16 a v s))) (v2p a) = v.
Proof. apply word16_stored. Qed.
Lemma rd_vs s s' : vs s' = vs s -> rd s' = rd s /\ rd64 s' = rd64 s.
Proof. intros Hv. unfold rd, rd64. by rewrite Hv. Qed.
Lemma rd_get s a : get32 (pm (vs s)) (v2p a) = rd s a /\ get64 (pm (vs s)) (v2p a) = rd64 s a.
Proof. done. Qed.
Lemma get64_agree m m' a : (forall x, a <= x < a + 8 -> m' x = m x) -> get64 m' a = get64 m a.
Proof. intros Hx. unfold get64. rewrite (get32_agree m m' a), (get32_agree m m' (a + 4)); [done|intros x Hy; apply Hx; lia..]. Qed.

(** What a store leaves alone. *)
Definition mem_out (lo hi : Z) (s s' : mstate) : Prop :=
  forall x, ~ (lo - KERNBASE <= x < hi - KERNBASE) -> pm (vs s') x = pm (vs s) x.
Definition only_mem (s s' : mstate) : Prop :=
  regs s' = regs s /\ apic s' = apic s /\ lapicp s' = lapicp s /\ kpgdir s' = kpgdir s /\ freelist (vs s') = freelist (vs s).
Lemma wr_out a v s : ka a 4 -> mem_out a (a + 4) s (wr a v s).
Proof. intros Ha x Hx. cbn. rewrite (ka_v2p a 4) by (done || lia). apply put32_out. lia. Qed.
Lemma wr16_out a v s : ka a 2 -> mem_out a (a + 2) s (wr16 a v s).
Proof. intros Ha x Hx. cbn. rewrite (ka_v2p a 2) by (done || lia). apply word16_elsewhere. lia. Qed.
Lemma rd_frame lo hi s s' b : mem_out lo hi s s' -> ka b 4 -> b + 4 <= lo \/ hi <= b -> rd s' b = rd s b.
Proof. intros Ho Hb Hd. unfold rd. apply get32_agree. intros x Hx. rewrite (ka_v2p b 4) in Hx by (done || lia). apply Ho. lia. Qed.
Lemma rd64_frame lo hi s s' b : mem_out lo hi s s' -> ka b 8 -> b + 8 <= lo \/ hi <= b -> rd64 s' b = rd64 s b.
Proof. intros Ho Hb Hd. unfold rd64. apply get64_agree. intros x Hx. rewrite (ka_v2p b 8) in Hx by (done || lia). apply Ho. lia. Qed.
Lemma mem_out_trans lo hi s1 s2 s3 : mem_out lo hi s1 s2 -> mem_out lo hi s2 s3 -> mem_out lo hi s1 s3.
Proof. intros H1 H2 x Hx. by rewrite H2, H1. Qed.
Lemma mem_out_wide lo hi lo' hi' s s' : mem_out lo hi s s' -> lo' <= lo -> hi <= hi' -> mem_out lo' hi' s s'.
Proof. intros H1 H2 H3 x Hx. apply H1. lia. Qed.
Lemma rd_wr_same a v s : rd (wr a v s) a = u32 v.
Proof. unfold rd. cbn. apply get_put32, u32_range. Qed.
Lemma rd_wr_other a b v s : ka a 4 -> ka b 4 -> b + 4 <= a \/ a + 4 <= b -> rd (wr a v s) b = rd s b.
Proof. intros Ha Hb Hd. by apply (rd_frame a (a + 4)); [apply wr_out| |]. Qed.
Lemma wr64_out a w s : ka a 8 -> mem_out a (a + 8) s (wr64 a w s).
Proof.
  intros [Ha1 Ha2]. apply (mem_out_trans _ _ _ (wr a (w mod 2 ^ 32) s)); eapply mem_out_wide; try (apply wr_out; unfold ka; lia); lia.
Qed.
Lemma rd64_split s a : ka a 8 -> rd64 s a = rd s a + 2 ^ 32 * rd s (a + 4).
Proof. intros [Ha1 Ha2]. unfold rd64, get64, rd. rewrite (ka_v2p a 8), (ka_v2p (a + 4) 4) by (unfold ka; lia). by replace (a - KERNBASE + 4) with (a + 4 - KERNBASE) by lia. Qed.
Lemma rd64_wr64_same a w s : ka a 8 -> 0 <= w < 2 ^ 64 -> rd64 (wr64 a w s) a = w.
Proof.
  intros Ha Hw. rewrite rd64_split by done. unfold wr64. destruct Ha as [Ha1 Ha2]. rewrite rd_wr_same, rd_wr_other, rd_wr_same by (unfold ka; lia).
  rewrite !u32_small by (Z.div_mod_to_equations; lia). Z.div_mod_to_equations. lia.
Qed.
Lemma rd64_wr64_other a b w s : ka a 8 -> ka b 8 -> b + 8 <= a \/ a + 8 <= b -> rd64 (wr64 a w s) b = rd64 s b.
Proof. intros Ha Hb Hd. by apply (rd64_frame a (a + 8)); [apply wr64_out| |]. Qed.
Lemma rd64_wr_other a b w s : ka a 4 -> ka b 8 -> b + 8 <= a \/ a + 4 <= b -> rd64 (wr a w s) b = rd64 s b.
Proof. intros Ha Hb Hd. by apply (rd64_frame a (a + 4)); [apply wr_out| |]. Qed.
Lemma rd_wr64_other a b w s : ka a 8 -> ka b 4 -> b + 4 <= a \/ a + 8 <= b -> rd (wr64 a w s) b = rd s b.
Proof. intros Ha Hb Hd. by apply (rd_frame a (a + 8)); [apply wr64_out| |]. Qed.
Lemma rd_regs c f s a : rd (set_regs c f s) a = rd s a.
Proof. done. Qed.
Lemma rd64_regs c f s a : rd64 (set_regs c f s) a = rd64 s a.
Proof. done. Qed.
Lemma only_wr a v s : only_mem s (wr a v s).
Proof. by split_and!. Qed.
Lemma only_wr64 a v s : only_mem s (wr64 a v s).
Proof. by split_and!. Qed.

(** ** The tables of a processor *)
Context (Hlay : layout).
Definition inr (c : Z) : Prop := 0 <= c < NCPU.
Definition kcode : segdesc := SEG (Z.lor STA_X STA_R) 0 0xffffffff 0.
Definition kdata : segdesc := SEG STA_W 0 0xffffffff 0.
Definition ucode : segdesc := SEG (Z.lor STA_X STA_R) 0 0xffffffff DPL_USER.
Definition udata : segdesc := SEG STA_W 0 0xffffffff DPL_USER.
Definition kcpu (c : Z) : segdesc := SEG STA_W (slot c + CPU_CPU) 8 0.
Definition has_seg (c : Z) (s : mstate) (i : Z) (d : segdesc) : Prop := rd64 s (gdt_of c + 8 * i) = pack (seg_fields d).
Record gdt_ok (c : Z) (s : mstate) : Prop := mkGdtOk {
  go_gdtr : gdtr (regs s c) = (gdt_of c, 55);
  go_kcode : has_seg c s SEG_KCODE kcode;
  go_kdata : has_seg c s SEG_KDATA kdata;
  go_ucode : has_seg c s SEG_UCODE ucode;
  go_udata : has_seg c s SEG_UDATA udata;
  go_kcpu : has_seg c s SEG_KCPU (kcpu c);
  go_gs : gs_base (regs s c) = slot c + CPU_CPU;
  go_cpu : rd s (slot c + CPU_CPU) = slot c }.
Definition gate_at (n : Z) : gatedesc :=
  if n =? T_SYSCALL then SETGATE 1 (Z.shiftl SEG_KCODE 3) (vectors n) DPL_USER else SETGATE 0 (Z.shiftl SEG_KCODE 3) (vectors n) 0.
Definition idt_ok (s : mstate) : Prop := forall n, 0 <= n < 256 -> rd64 s (idt + 8 * n) = pack (gate_fields (gate_at n)).
Definition idt_loaded (c : Z) (s : mstate) : Prop := idtr (regs s c) = (idt, 2047).
(** Traps from user mode use the stack that ends at [k]. *)
Record tss_ok (c k : Z) (s : mstate) : Prop := mkTssOk {
  to_tr : tr_base (regs s c) = slot c + CPU_TS;
  to_esp0 : rd s (slot c + CPU_TS + TS_ESP0) = k;
  to_ss0 : get16 (pm (vs s)) (v2p (slot c + CPU_TS + TS_SS0)) = Z.shiftl SEG_KDATA 3 }.
(** Processors know their numbers. *)
Definition numbered (s : mstate) : Prop := lapicp s <> 0 /\ forall c, inr c -> Z.shiftr (lread ID (apic s c)) 24 = c.
Definition nest (c : Z) (s : mstate) : Prop := 0 <= rd s (slot c + CPU_NCLI) < 2 ^ 31 - 1.

(** Code on processor [c] that writes only its own [struct cpu]. *)
Record own (c : Z) (s s' : mstate) : Prop := mkOwn {
  own_mem : mem_out (slot c) (slot c + SIZEOF_CPU) s s';
  own_regs : forall d, d <> c -> regs s' d = regs s d;
  own_apic : apic s' = apic s;
  own_lapic : lapicp s' = lapicp s }.
#[local] Instance own_preorder c : PreOrder (own c).
Proof.
  split; [by split|]. intros x y z [A1 A2 A3 A4] [B1 B2 B3 B4]. split; [by eapply mem_out_trans| |congruence..].
  intros d Hd. by rewrite B2, A2.
Qed.
Ltac unf := unfold inr, ka, gdt_at, cpu_at, SEG_KCODE, SEG_KDATA, SEG_KCPU, SEG_UCODE, SEG_UDATA, SEG_TSS, CPU_TS, CPU_GDT, CPU_STARTED, CPU_NCLI, CPU_INTENA, CPU_CPU,
  SIZEOF_CPU, TS_ESP0, TS_SS0, NCPU, KERNBASE, PHYSTOP in *.
Lemma cpu_range c : inr c -> cpus <= slot c /\ slot c + SIZEOF_CPU <= cpus + SIZEOF_CPU * NCPU.
Proof using. unf. lia. Qed.
(** An address inside [struct cpu] number [c]. *)
Lemma cpu_ka c off n : inr c -> 0 <= off -> 0 < n -> off + n <= SIZEOF_CPU -> ka (slot c + off) n.
Proof using Hlay. intros Hc H1 H2 H3. destruct Hlay as [[L1 L2] _ _ _]. destruct (cpu_range c Hc). unfold ka. lia. Qed.
Lemma cpu_apart c d : inr c -> inr d -> c <> d -> slot c + SIZEOF_CPU <= slot d \/ slot d + SIZEOF_CPU <= slot c.
Proof using. unf. lia. Qed.
Lemma own_wr c off v s : inr c -> 0 <= off -> off + 4 <= SIZEOF_CPU -> own c s (wr (slot c + off) v s).
Proof using Hlay. intros Hc H1 H2. split; [|done..]. eapply mem_out_wide; [apply wr_out, (cpu_ka c off 4); (done || lia)|lia..]. Qed.
Lemma own_wr16 c off v s : inr c -> 0 <= off -> off + 2 <= SIZEOF_CPU -> own c s (wr16 (slot c + off) v s).
Proof using Hlay. intros Hc H1 H2. split; [|done..]. eapply mem_out_wide; [apply wr16_out, (cpu_ka c off 2); (done || lia)|lia..]. Qed.
Lemma own_wr64 c off v s : inr c -> 0 <= off -> off + 8 <= SIZEOF_CPU -> own c s (wr64 (slot c + off) v s).
Proof using Hlay. intros Hc H1 H2. split; [|done..]. eapply mem_out_wide; [apply wr64_out, (cpu_ka c off 8); (done || lia)|lia..]. Qed.
Lemma own_set_regs c f s : own c s (set_regs c f s).
Proof using. split; [done| |done..]. intros d Hd. by apply upd_ne. Qed.

(** ** Other processors keep the tables *)
Section Frame.
Context (c d : Z) (s s' : mstate) (Hc : inr c) (Hd : inr d) (Hcd : d <> c) (Hown : own d s s').
Lemma own_rd off : 0 <= off -> off + 4 <= SIZEOF_CPU -> rd s' (slot c + off) = rd s (slot c + off).
Proof using All.
  intros H1 H2. eapply rd_frame; [apply (own_mem _ _ _ Hown) | apply cpu_ka; (done || lia) |]. destruct (cpu_apart c d); try done; lia.
Qed.
Lemma own_rd64 off : 0 <= off -> off + 8 <= SIZEOF_CPU -> rd64 s' (slot c + off) = rd64 s (slot c + off).
Proof using All.
  intros H1 H2. eapply rd64_frame; [apply (own_mem _ _ _ Hown) | apply cpu_ka; (done || lia) |]. destruct (cpu_apart c d); try done; lia.
Qed.
Lemma own_seg i x : 0 <= i < NSEGS -> has_seg c s i x -> has_seg c s' i x.
Proof using All.
  unfold has_seg, gdt_at. rewrite <- Z.add_assoc. intros Hi <-. apply own_rd64; unf; unfold NSEGS in Hi; lia.
Qed.
Lemma own_gdt : gdt_ok c s -> gdt_ok c s'.
Proof using All.
  intros [G1 G2 G3 G4 G5 G6 G7 G8]. split; rewrite ?(own_regs _ _ _ Hown) by done; try done; try (by apply own_seg).
  rewrite own_rd by (unf; lia). done.
Qed.
Lemma own_tss k : tss_ok c k s -> tss_ok c k s'.
Proof using All.
  intros [T1 T2 T3]. split; rewrite ?(own_regs _ _ _ Hown) by done; [done| |].
  - rewrite <- Z.add_assoc in *. rewrite own_rd by (unf; lia). done.
  - rewrite <- T3. apply get16_agree. intros x Hx. apply (own_mem _ _ _ Hown).
    rewrite <- Z.add_assoc in Hx. rewrite (ka_v2p _ 2) in Hx; [|apply cpu_ka; unf; lia|lia]. destruct (cpu_apart c d); try done; unf; lia.
Qed.
Lemma own_nest : nest c s -> nest c s'.
Proof using All. unfold nest. rewrite own_rd by (unf; lia). done. Qed.
Lemma own_idt_loaded : idt_loaded c s -> idt_loaded c s'.
Proof using All. unfold idt_loaded. by rewrite (own_regs _ _ _ Hown). Qed.
End Frame.
Lemma own_idt d s s' : inr d -> own d s s' -> idt_ok s -> idt_ok s'.
Proof using Hlay.
  intros Hd Hown Hi n Hn. rewrite <- (Hi n Hn). destruct Hlay as [[L1 L2] [L3 L4] L5 _]. destruct (cpu_range d Hd).
  eapply rd64_frame; [apply (own_mem _ _ _ Hown)| unfold ka; lia | lia].
Qed.
Lemma own_numbered d s s' : own d s s' -> numbered s -> numbered s'.
Proof using. intros [_ _ Ha Hl] [N1 N2]. split; [congruence|]. intros c Hc. rewrite Ha. by apply N2. Qed.

(** ** What the calls do *)
Lemma gates_run n : forall i s, 0 <= i -> i + Z.of_nat n = 256 ->
  exists s', mfor i 256 (fun i => store_gate (idt + 8 * i) (SETGATE 0 (Z.shiftl SEG_KCODE 3) (vectors i) 0)) s = Ok (tt, s') /\
    (forall j, i <= j < 256 -> rd64 s' (idt + 8 * j) = pack (gate_fields (SETGATE 0 (Z.shiftl SEG_KCODE 3) (vectors j) 0))) /\
    mem_out (idt + 8 * i) (idt + 8 * 256) s s' /\ only_mem s s'.
Proof using Hlay.
  destruct Hlay as [_ [L3 L4] _ _]. induction n as [|n IH]; intros i s Hi Hn.
  - exists s. unfold mfor. rewrite seqZ_nil by lia. split; [done|]. split; [lia|]. by split.
  - unfold mfor. rewrite seqZ_cons by lia. cbn [mfor_list]. set (s1 := wr64 (idt + 8 * i) (pack (gate_fields (SETGATE 0 (Z.shiftl SEG_KCODE 3) (vectors i) 0))) s).
    erewrite bind_Ok; [|apply st64_wr]. fold s1. destruct (IH (i + 1) s1) as (s' & E & H1 & H2 & H3); [lia..|]. exists s'.
    unfold mfor in E. replace (Z.succ i) with (i + 1) by lia. replace (Z.pred (256 - i)) with (256 - (i + 1)) by lia. rewrite E. split; [done|].
    assert (Hka : ka (idt + 8 * i) 8) by (unfold ka; lia). split_and!.
    + intros j Hj. destruct (decide (j = i)) as [->|]; [|apply H1; lia]. rewrite (rd64_frame _ _ _ _ _ H2) by (done || lia).
      apply rd64_wr64_same; [done | apply gate_word_range].
    + eapply mem_out_trans; [|eapply mem_out_wide; [exact H2|lia..]]. eapply mem_out_wide; [by apply wr64_out|lia..].
    + destruct H3 as (A & B & C & D & E'). by split_and!.
Qed.
Lemma tvinit_run s : exists s', tvinit idt vectors s = Ok (tt, s') /\ idt_ok s' /\ mem_out idt (idt + 8 * 256) s s' /\ only_mem s s'.
Proof using Hlay.
  destruct (gates_run 256 0 s) as (s1 & E & H1 & H2 & H3); [lia..|]. unfold tvinit. rewrite (bind_Ok _ _ _ _ _ E).
  destruct Hlay as [_ [L3 L4] _ _]. rewrite Z.add_0_r in H2. assert (Hka : ka (idt + 8 * T_SYSCALL) 8) by (unfold ka, T_SYSCALL; lia).
  eexists. split; [apply st64_wr|]. split_and!.
  - intros n Hn. unfold gate_at. destruct (Z.eqb_spec n T_SYSCALL) as [->|Hne]; [apply rd64_wr64_same; [done | apply gate_word_range]|].
    rewrite rd64_wr64_other; [apply H1; lia | done | unfold ka; lia | lia].
  - eapply mem_out_trans; [exact H2|]. eapply mem_out_wide; [by apply wr64_out | unfold T_SYSCALL; lia..].
  - destruct H3 as (A & B & C & D & E'). by split_and!.
Qed.
Lemma pseudo_spec p size : 0 <= p < 2 ^ 32 -> 0 < size <= 2 ^ 16 -> pseudo p size = (p, size - 1).
Proof using.
  intros Hp Hs. unfold pseudo. rewrite u32_small by lia. unfold u16. rewrite Z.shiftr_div_pow2, (Z.mod_small (size - 1)) by lia. f_equal.
  Z.div_mod_to_equations. lia.
Qed.
Lemma cpunum_run c s : inr c -> numbered s -> cpunum c s = Ok (c, s).
Proof using.
  intros Hc [N1 N2]. unfold cpunum. erewrite bind_Ok; [|reflexivity]. destruct (Z.eqb_spec (lapicp s) 0); [done|]. cbn [negb].
  erewrite bind_Ok; [|reflexivity]. cbv beta. by rewrite N2.
Qed.
Lemma gdt_ka c i : inr c -> 0 <= i < NSEGS -> ka (gdt_of c + 8 * i) 8.
Proof using Hlay. intros Hc Hi. unfold gdt_at. rewrite <- Z.add_assoc. apply cpu_ka; [done| unf; unfold NSEGS in Hi; lia ..]. Qed.
Lemma slot_u32 c : inr c -> 0 <= slot c < 2 ^ 32.
Proof using Hlay. intros Hc. pose proof (cpu_ka c 0 4 Hc). unf. lia. Qed.
Lemma gs_store_wr c off v b s : gs_base (regs s c) = b -> gs_store c off v s = Ok (tt, wr (b + off) v s).
Proof using. intros Hb. unfold gs_store. erewrite bind_Ok; [|reflexivity]. cbv beta. rewrite Hb. apply st_wr. Qed.
Lemma gs_load_rd c off b s : gs_base (regs s c) = b -> gs_load c off s = Ok (rd s (b + off), s).
Proof using. intros Hb. unfold gs_load. erewrite bind_Ok; [|reflexivity]. cbv beta. rewrite Hb. apply ld_rd. Qed.
(** A descriptor named by a selector. *)
Lemma descriptor_at c s i : inr c -> gdtr (regs s c) = (gdt_of c, 55) -> 0 < i < NSEGS -> descriptor s c (8 * i) = Some (rd64 s (gdt_of c + 8 * i)).
Proof using.
  intros Hc Hg Hi. unfold descriptor. rewrite Hg. rewrite (Z.mul_comm 8 i), Z.div_mul by lia. unfold NSEGS in Hi.
  destruct (Z.leb_spec (8 * i + 7) 55); [|lia]. destruct (Z.ltb_spec 0 i); [|lia]. cbn [andb]. by rewrite (Z.mul_comm i 8).
Qed.
#[local] Opaque rd rd64 wr wr16 wr64 pack.
Ltac addr := unf; lia.
(** The five descriptors of [seginit]. *)
Definition fill_gdt (c : Z) (s : mstate) : mstate :=
  wr64 (gdt_of c + 8 * SEG_KCPU) (pack (seg_fields (kcpu c)))
   (wr64 (gdt_of c + 8 * SEG_UDATA) (pack (seg_fields udata))
     (wr64 (gdt_of c + 8 * SEG_UCODE) (pack (seg_fields ucode))
       (wr64 (gdt_of c + 8 * SEG_KDATA) (pack (seg_fields kdata))
         (wr64 (gdt_of c + 8 * SEG_KCODE) (pack (seg_fields kcode)) s)))).
Lemma has_seg_new c i d s : inr c -> 0 <= i < NSEGS -> has_seg c (wr64 (gdt_of c + 8 * i) (pack (seg_fields d)) s) i d.
Proof using Hlay. intros Hc Hi. unfold has_seg. apply rd64_wr64_same; [by apply gdt_ka | apply seg_word_range]. Qed.
Lemma has_seg_kept c i j d w s : inr c -> 0 <= i < NSEGS -> 0 <= j < NSEGS -> i <> j ->
  has_seg c s i d -> has_seg c (wr64 (gdt_of c + 8 * j) w s) i d.
Proof using Hlay. unfold has_seg. intros Hc Hi Hj Hij <-. apply rd64_wr64_other; [by apply gdt_ka..|lia]. Qed.
(** Fields of [struct cpu] outside the table. *)
Definition other_field (off n : Z) : Prop := 0 <= off /\ 0 < n /\ (off + n <= CPU_GDT \/ CPU_STARTED <= off /\ off + n <= SIZEOF_CPU).
Lemma field_apart c off n i : other_field off n -> 0 <= i < NSEGS -> gdt_of c + 8 * i + 8 <= slot c + off \/ slot c + off + n <= gdt_of c + 8 * i.
Proof using. unfold other_field, NSEGS. unf. lia. Qed.
Lemma field_ka c off n : inr c -> other_field off n -> ka (slot c + off) n.
Proof using Hlay. intros Hc (H1 & H2 & H3). apply cpu_ka; [done|lia|lia|unf; lia]. Qed.
Lemma has_seg_field c i off v d s : inr c -> 0 <= i < NSEGS -> other_field off 4 -> has_seg c s i d -> has_seg c (wr (slot c + off) v s) i d.
Proof using Hlay.
  unfold has_seg. intros Hc Hi Ho <-. apply rd64_wr_other; [by apply field_ka | by apply gdt_ka|]. destruct (field_apart c off 4 i Ho Hi); lia.
Qed.
Lemma field_gdt c i off w s : inr c -> 0 <= i < NSEGS -> other_field off 4 -> rd (wr64 (gdt_of c + 8 * i) w s) (slot c + off) = rd s (slot c + off).
Proof using Hlay. intros Hc Hi Ho. apply rd_wr64_other; [by apply gdt_ka | by apply field_ka |]. destruct (field_apart c off 4 i Ho Hi); lia. Qed.
Lemma field_other c off off' v s : inr c -> other_field off 4 -> other_field off' 4 -> off + 4 <= off' \/ off' + 4 <= off ->
  rd (wr (slot c + off) v s) (slot c + off') = rd s (slot c + off').
Proof using Hlay. intros Hc H1 H2 H3. apply rd_wr_other; [by apply field_ka..|lia]. Qed.
Ltac fld := first [assumption | unfold NSEGS, SEG_KCODE, SEG_KDATA, SEG_KCPU, SEG_UCODE, SEG_UDATA, SEG_TSS; lia
                  | unfold other_field, CPU_TS, TS_ESP0, TS_SS0, CPU_GDT, CPU_STARTED, CPU_NCLI, CPU_INTENA, CPU_CPU, SIZEOF_CPU; lia].
Ltac has_seg_tac := repeat (apply has_seg_field; [fld..|]); repeat first [apply has_seg_new; fld | apply has_seg_kept; [fld..|]].
Lemma fill_gdt_segs c s : inr c ->
  has_seg c (fill_gdt c s) SEG_KCODE kcode /\ has_seg c (fill_gdt c s) SEG_KDATA kdata /\ has_seg c (fill_gdt c s) SEG_UCODE ucode /\
  has_seg c (fill_gdt c s) SEG_UDATA udata /\ has_seg c (fill_gdt c s) SEG_KCPU (kcpu c).
Proof using Hlay. intros Hc. unfold fill_gdt. split_and!; has_seg_tac. Qed.
Lemma fill_gdt_field c off s : inr c -> other_field off 4 -> rd (fill_gdt c s) (slot c + off) = rd s (slot c + off).
Proof using Hlay. intros Hc Ho. unfold fill_gdt. by rewrite !field_gdt by fld. Qed.
Lemma own_gdt_wr c i w s : inr c -> 0 <= i < NSEGS -> own c s (wr64 (gdt_of c + 8 * i) w s).
Proof using Hlay. intros Hc Hi. unfold gdt_at. rewrite <- Z.add_assoc. apply own_wr64; [done | unf; unfold NSEGS in *; lia ..]. Qed.
Lemma own_fill_gdt c s : inr c -> own c s (fill_gdt c s).
Proof using Hlay.
  intros Hc. unfold fill_gdt. do 4 (etransitivity; [|apply own_gdt_wr; fld]). apply own_gdt_wr; fld.
Qed.
Lemma seginit_run c s : inr c -> numbered s -> exists s', seginit cpus c s = Ok (tt, s') /\ gdt_ok c s' /\ own c s s' /\
  idtr (regs s' c) = idtr (regs s c) /\ rd s' (slot c + CPU_NCLI) = rd s (slot c + CPU_NCLI) /\ kpgdir s' = kpgdir s /\
  cr3 (regs s' c) = cr3 (regs s c) /\ esp (regs s' c) = esp (regs s c) /\ freelist (vs s') = freelist (vs s).
Proof using Hlay.
  intros Hc Hn. unfold seginit. rewrite (bind_Ok _ _ _ _ _ (cpunum_run c s Hc Hn)).
  fold kcode kdata ucode udata (kcpu c). unfold store_seg. do 5 (erewrite bind_Ok; [|apply st64_wr]). fold (fill_gdt c s).
  unfold lgdt. erewrite bind_Ok; [|reflexivity]. pose proof (slot_u32 c Hc) as Hs32.
  rewrite (pseudo_spec (gdt_of c) (8 * NSEGS)) by (pose proof (gdt_ka c 0 Hc); unfold NSEGS in *; unf; lia).
  destruct (fill_gdt_segs c s Hc) as (F1 & F2 & F3 & F4 & F5). pose proof (own_fill_gdt c s Hc) as Fo.
  pose proof (fun off => fill_gdt_field c off s Hc) as Ff.
  assert (Fi : regs (fill_gdt c s) = regs s /\ kpgdir (fill_gdt c s) = kpgdir s /\ freelist (vs (fill_gdt c s)) = freelist (vs s))
    by (unfold fill_gdt; by rewrite !regs_wr64, !kpgdir_wr64, !freelist_wr64).
  generalize dependent (fill_gdt c s). intros s1 F1 F2 F3 F4 F5 Fo Ff (Fi & Fk & Fl).
  set (s2 := set_regs c _ s1).
  assert (Hg : gdtr (regs s2 c) = (gdt_of c, 55)) by (unfold s2; by rewrite regs_set).
  assert (Hgs : loadgs c (Z.shiftl SEG_KCPU 3) s2 = Ok (tt, set_regs c (fun r => mkCreg (gdtr r) (idtr r) (slot c + CPU_CPU) (tr_base r) (cr3 r) (iflag r) (esp r)) s2)).
  { unfold loadgs. erewrite bind_Ok; [|reflexivity]. change (u16 (Z.shiftl SEG_KCPU 3)) with (8 * SEG_KCPU).
    assert (Hw : rd64 s2 (gdt_of c + 8 * SEG_KCPU) = pack (seg_fields (kcpu c))) by exact F5.
    rewrite descriptor_at, Hw by fld. unfold kcpu. pose proof (cpu_ka c CPU_CPU 4 Hc).
    rewrite SEG_read by (unfold STA_W; unf; lia). done. }
  rewrite (bind_Ok _ _ _ _ _ Hgs). set (s3 := set_regs c _ s2).
  assert (Hb : gs_base (regs s3 c) = slot c + CPU_CPU) by (unfold s3; by rewrite regs_set).
  rewrite (bind_Ok _ _ _ _ _ (gs_store_wr c 0 (slot c) _ _ Hb)). unfold set_proc. rewrite (gs_store_wr c 4 0 (slot c + CPU_CPU)) by (rewrite regs_wr; exact Hb).
  rewrite Z.add_0_r, <- Z.add_assoc. eexists. split; [reflexivity|]. split_and!.
  - split; rewrite ?regs_wr; try has_seg_tac; try assumption.
    + unfold s3. rewrite regs_set. exact Hg.
    + rewrite field_other, rd_wr_same by fld. by apply u32_small.
  - etransitivity; [exact Fo|]. do 2 (etransitivity; [|apply own_wr; [done|unf; lia..]]). unfold s3, s2. etransitivity; apply own_set_regs.
  - rewrite !regs_wr. unfold s3, s2. rewrite !regs_set. by rewrite <- Fi.
  - rewrite !field_other by fld. unfold s3, s2. rewrite !rd_regs. apply Ff. fld.
  - by rewrite !kpgdir_wr.
  - rewrite !regs_wr. unfold s3, s2. rewrite !regs_set. by rewrite <- Fi.
  - rewrite !regs_wr. unfold s3, s2. rewrite !regs_set. by rewrite <- Fi.
  - by rewrite !freelist_wr.
Qed.

(** ** Switching to a process *)

(** A store to another part of [struct cpu]. *)
Record part (c lo hi : Z) (s s' : mstate) : Prop := mkPart {
  part_mem : mem_out (slot c + lo) (slot c + hi) s s';
  part_regs : regs s' = regs s;
  part_rest : apic s' = apic s /\ lapicp s' = lapicp s /\ kpgdir s' = kpgdir s }.
Lemma part_own c lo hi s s' : 0 <= lo -> hi <= SIZEOF_CPU -> part c lo hi s s' -> own c s s'.
Proof using. intros Hlo Hhi [P1 P2 (P3 & P4 & _)]. split; [|intros d _; congruence|done..]. eapply mem_out_wide; [exact P1|lia..]. Qed.
Lemma part_field c lo hi s s' off : inr c -> 0 <= off -> off + 4 <= SIZEOF_CPU -> off + 4 <= lo \/ hi <= off -> part c lo hi s s' ->
  rd s' (slot c + off) = rd s (slot c + off).
Proof using Hlay. intros Hc H1 H2 H3 [P1 _ _]. eapply rd_frame; [exact P1|by apply cpu_ka|lia]. Qed.
Lemma part_seg c lo hi s s' i d : inr c -> 0 <= i < NSEGS -> hi <= CPU_GDT + 8 * i \/ CPU_GDT + 8 * i + 8 <= lo -> part c lo hi s s' ->
  has_seg c s i d -> has_seg c s' i d.
Proof using Hlay. unfold has_seg. intros Hc Hi H1 [P1 _ _] <-. eapply rd64_frame; [exact P1|by apply gdt_ka|unfold gdt_at; lia]. Qed.
Lemma part_gdt c lo hi s s' : inr c -> hi <= CPU_GDT \/ CPU_GDT + 8 * SEG_TSS <= lo -> hi <= CPU_CPU \/ CPU_CPU + 4 <= lo -> part c lo hi s s' ->
  gdt_ok c s -> gdt_ok c s'.
Proof using Hlay.
  intros Hc H1 H2 HP [G1 G2 G3 G4 G5 G6 G7 G8].
  split; rewrite ?(part_regs _ _ _ _ _ HP); try assumption; try (apply (part_seg c lo hi s); [done|unfold NSEGS; unf; lia|unf; lia|exact HP|done]).
  rewrite (part_field c lo hi s) by (done || unf; lia). done.
Qed.
Lemma part_get16 c lo hi s s' off : inr c -> 0 <= off -> off + 2 <= SIZEOF_CPU -> off + 2 <= lo \/ hi <= off -> part c lo hi s s' ->
  get16 (pm (vs s')) (v2p (slot c + off)) = get16 (pm (vs s)) (v2p (slot c + off)).
Proof using Hlay.
  intros Hc H1 H2 H3 HP. apply get16_agree. intros x Hx. apply (part_mem _ _ _ _ _ HP). rewrite (ka_v2p _ 2) in Hx; [lia|by apply cpu_ka|lia].
Qed.
Lemma part_tss c k lo hi s s' : inr c -> CPU_TS + TS_SS0 + 2 <= lo -> part c lo hi s s' -> tss_ok c k s -> tss_ok c k s'.
Proof using Hlay.
  intros Hc H1 HP [T1 T2 T3]. split; [by rewrite (part_regs _ _ _ _ _ HP)| |].
  - rewrite <- Z.add_assoc in *. rewrite (part_field c lo hi s) by (done || unf; lia). done.
  - rewrite <- Z.add_assoc in *. rewrite (part_get16 c lo hi s) by (done || unf; lia). done.
Qed.
Ltac keep P :=
  match type of P with part ?c ?lo ?hi ?a ?b =>
    first [ rewrite (part_field c lo hi a b) by first [exact P | assumption | unf; lia]
          | rewrite (part_get16 c lo hi a b) by first [exact P | assumption | unf; lia] ]
  end.
Lemma wr_part c off v s : inr c -> 0 <= off -> off + 4 <= SIZEOF_CPU -> part c off (off + 4) s (wr (slot c + off) v s).
Proof using Hlay. intros Hc H1 H2. split; [|apply regs_wr|by split_and!]. rewrite Z.add_assoc. apply wr_out, cpu_ka; (done || lia). Qed.
Lemma wr16_part c off v s : inr c -> 0 <= off -> off + 2 <= SIZEOF_CPU -> part c off (off + 2) s (wr16 (slot c + off) v s).
Proof using Hlay. intros Hc H1 H2. split; [|apply regs_wr16|by split_and!]. rewrite Z.add_assoc. apply wr16_out, cpu_ka; (done || lia). Qed.
Lemma wr64_part c off v s : inr c -> 0 <= off -> off + 8 <= SIZEOF_CPU -> part c off (off + 8) s (wr64 (slot c + off) v s).
Proof using Hlay. intros Hc H1 H2. split; [|apply regs_wr64|by split_and!]. rewrite Z.add_assoc. apply wr64_out, cpu_ka; (done || lia). Qed.
(** A register is changed that the tables do not depend on. *)
Definition same_tables (c : Z) (s s' : mstate) : Prop :=
  vs s' = vs s /\ gdtr (regs s' c) = gdtr (regs s c) /\ gs_base (regs s' c) = gs_base (regs s c).
Lemma same_gdt c s s' : same_tables c s s' -> gdt_ok c s -> gdt_ok c s'.
Proof using.
  intros (V1 & V2 & V4) [G1 G2 G3 G4 G5 G6 G7 G8]. destruct (rd_vs s s' V1) as [R1 R2]. split; unfold has_seg; rewrite ?R1, ?R2, ?V2, ?V4; done.
Qed.

Lemma get_cpu_run c s : inr c -> gdt_ok c s -> get_cpu c s = Ok (slot c, s).
Proof using.
  intros Hc [_ _ _ _ _ _ G7 G8]. unfold get_cpu. rewrite (gs_load_rd c 0 _ s G7), Z.add_0_r. by rewrite G8.
Qed.
Definition flag (b : bool) (r : creg) : creg := mkCreg (gdtr r) (idtr r) (gs_base r) (tr_base r) (cr3 r) b (esp r).
Lemma same_set c f s : gdtr (f (regs s c)) = gdtr (regs s c) -> gs_base (f (regs s c)) = gs_base (regs s c) ->
  same_tables c s (set_regs c f s).
Proof using. intros H1 H3. unfold same_tables. rewrite regs_set. by split_and!. Qed.
Lemma same_flag c b s : same_tables c s (set_regs c (flag b) s).
Proof using. by apply same_set. Qed.
Lemma part_trans c lo hi s1 s2 s3 : part c lo hi s1 s2 -> part c lo hi s2 s3 -> part c lo hi s1 s3.
Proof using. intros [A1 A2 (A3 & A4 & A5)] [B1 B2 (B3 & B4 & B5)]. split; [by eapply mem_out_trans|congruence|split_and!; congruence]. Qed.
Lemma part_wide c lo hi lo' hi' s s' : part c lo hi s s' -> lo' <= lo -> hi <= hi' -> part c lo' hi' s s'.
Proof using. intros [A1 A2 A3] H1 H2. split; [|done..]. eapply mem_out_wide; [exact A1|lia..]. Qed.
Lemma pushcli_nests c s : inr c -> gdt_ok c s -> exists s', pushcli c s = Ok (tt, s') /\
  part c CPU_NCLI (CPU_INTENA + 4) (set_regs c (flag false) s) s' /\ rd s' (slot c + CPU_NCLI) = u32 (rd s (slot c + CPU_NCLI) + 1).
Proof using Hlay.
  intros Hc Hg. unfold pushcli. erewrite bind_Ok; [|reflexivity]. unfold cli, set_if. erewrite bind_Ok; [|reflexivity].
  fold (flag false). set (s1 := set_regs c (flag false) s). assert (Hg1 : gdt_ok c s1) by (eapply same_gdt; [apply same_flag|done]).
  rewrite (bind_Ok _ _ _ _ _ (get_cpu_run c s1 Hc Hg1)). rewrite (bind_Ok _ _ _ _ _ (ld_rd _ _)).
  rewrite (bind_Ok _ _ _ _ _ (st_wr _ _ _)). set (s2 := wr _ _ s1).
  assert (P2 : part c CPU_NCLI (CPU_NCLI + 4) s1 s2) by (apply wr_part; [done|unf; lia..]).
  assert (Hg2 : gdt_ok c s2) by (eapply part_gdt; [done|..|exact P2|done]; unf; lia).
  assert (Hw : rd s2 (slot c + CPU_NCLI) = u32 (rd s (slot c + CPU_NCLI) + 1)) by (unfold s2; rewrite rd_wr_same; done).
  destruct (rd s1 (slot c + CPU_NCLI) =? 0).
  - rewrite (bind_Ok _ _ _ _ _ (get_cpu_run c s2 Hc Hg2)). eexists. split; [apply st_wr|].
    assert (P3 : part c CPU_INTENA (CPU_INTENA + 4) s2 (wr (slot c + CPU_INTENA) (Z.land (if iflag (regs s c) then FL_IF else 0) FL_IF) s2)) by (apply wr_part; [done|unf; lia..]).
    split; [eapply part_trans; [eapply part_wide; [exact P2|unf; lia..]|eapply part_wide; [exact P3|unf; lia..]]|].
    rewrite (part_field c CPU_INTENA (CPU_INTENA + 4) s2) by (exact P3 || (unf; lia)). done.
  - exists s2. split; [done|]. split; [|done]. eapply part_wide; [exact P2|unf; lia..].
Qed.
Lemma popcli_run c s : inr c -> gdt_ok c s -> iflag (regs s c) = false -> 1 <= rd s (slot c + CPU_NCLI) < 2 ^ 31 ->
  exists s1 s', popcli c s = Ok (tt, s') /\ part c CPU_NCLI (CPU_NCLI + 4) s s1 /\ rd s1 (slot c + CPU_NCLI) = rd s (slot c + CPU_NCLI) - 1 /\
    (s' = s1 \/ s' = set_regs c (flag true) s1).
Proof using Hlay.
  intros Hc Hg Hi Hn. unfold popcli. erewrite bind_Ok; [|reflexivity]. cbv beta. rewrite Hi. change (truthy (Z.land 0 FL_IF)) with false. cbv iota.
  rewrite (bind_Ok _ _ _ _ _ (get_cpu_run c s Hc Hg)). rewrite (bind_Ok _ _ _ _ _ (ld_rd _ _)).
  rewrite (bind_Ok _ _ _ _ _ (st_wr _ _ _)). set (s2 := wr _ _ s).
  assert (P2 : part c CPU_NCLI (CPU_NCLI + 4) s s2) by (apply wr_part; [done|unf; lia..]).
  assert (Hg2 : gdt_ok c s2) by (eapply part_gdt; [done|..|exact P2|done]; unf; lia).
  rewrite s32_small by lia. destruct (Z.ltb_spec (rd s (slot c + CPU_NCLI) - 1) 0); [lia|].
  rewrite (bind_Ok _ _ _ _ _ (get_cpu_run c s2 Hc Hg2)), (bind_Ok _ _ _ _ _ (ld_rd _ _)), (bind_Ok _ _ _ _ _ (ld_rd _ _)).
  assert (Hw : rd s2 (slot c + CPU_NCLI) = rd s (slot c + CPU_NCLI) - 1) by (unfold s2; rewrite rd_wr_same; apply u32_small; lia).
  exists s2. destruct ((rd s2 (slot c + CPU_NCLI) =? 0) && truthy (rd s2 (slot c + CPU_INTENA))); eexists; (split; [reflexivity|]; split; [done|]; split; [done|]).
  - by right.
  - by left.
Qed.
Definition tss_desc (c : Z) : segdesc := set_s 0 (SEG16 STS_T32A (slot c + CPU_TS) (SIZEOF_TS - 1) 0).
Definition task (b : Z) (r : creg) : creg := mkCreg (gdtr r) (idtr r) (gs_base r) b (cr3 r) (iflag r) (esp r).
Definition space (v : Z) (r : creg) : creg := mkCreg (gdtr r) (idtr r) (gs_base r) (tr_base r) v (iflag r) (esp r).
Lemma ltr_run c s : inr c -> gdt_ok c s -> has_seg c s SEG_TSS (tss_desc c) -> exists s1, part c (CPU_GDT + 8 * SEG_TSS) (CPU_GDT + 8 * SEG_TSS + 8) s s1 /\
  ltr c (Z.shiftl SEG_TSS 3) s = Ok (tt, set_regs c (task (slot c + CPU_TS)) s1).
Proof using Hlay.
  intros Hc Hg Hd. unfold ltr. erewrite bind_Ok; [|reflexivity]. change (u16 (Z.shiftl SEG_TSS 3)) with (8 * SEG_TSS).
  rewrite descriptor_at by (done || fld || apply Hg). rewrite Hd. pose proof (cpu_ka c CPU_TS 4 Hc). unfold tss_desc.
  rewrite SEG16_read by (unfold STS_T32A, SIZEOF_TS; unf; lia). cbn [s_user s_present s_type s_base]. rewrite !Z.eqb_refl. cbn [andb].
  rewrite (go_gdtr _ _ Hg). cbn [fst]. change (8 * SEG_TSS / 8) with SEG_TSS. rewrite (bind_Ok _ _ _ _ _ (st64_wr _ _ _)).
  eexists. split; [|reflexivity]. unfold gdt_at. rewrite <- (Z.add_assoc (slot c)). apply wr64_part; [done|unf; lia..].
Qed.
(** A process entry away from the tables, with a page directory. *)
Definition proc_ok (p : Z) (s : mstate) : Prop :=
  ka p 16 /\ (p + 16 <= cpus \/ cpus + SIZEOF_CPU * NCPU <= p) /\ rd s (p + PROC_PGDIR) <> 0.
Lemma proc_word c p s s' off : inr c -> proc_ok p s -> 0 <= off -> off + 4 <= 16 -> own c s s' -> rd s' (p + off) = rd s (p + off).
Proof using Hlay.
  intros Hc (Hk & Ha & _) H1 H2 Ho. destruct (cpu_range c Hc). eapply rd_frame; [apply (own_mem _ _ _ Ho)|unf; lia|lia].
Qed.
Lemma own_regs_trans c f s0 s1 : own c s0 s1 -> own c s0 (set_regs c f s1).
Proof using. intros H1. etransitivity; [exact H1|apply own_set_regs]. Qed.
Lemma own_part_trans c lo hi s0 s1 s2 : 0 <= lo -> hi <= SIZEOF_CPU -> part c lo hi s1 s2 -> own c s0 s1 -> own c s0 s2.
Proof using. intros H1 H2 H3 H4. etransitivity; [exact H4|by eapply part_own]. Qed.
(** The body of [switchuvm] up to [ltr]. *)
Lemma load_task_run c p s : inr c -> gdt_ok c s -> proc_ok p s -> rd s (slot c + (CPU_CPU + 4)) = p -> exists s',
  (forall k : K unit, (a <- get_cpu c ;;
    store_seg (a + CPU_GDT + 8 * SEG_TSS) (set_s 0 (SEG16 STS_T32A (a + CPU_TS) (SIZEOF_TS - 1) 0)) ;;;
    st16 (a + CPU_TS + TS_SS0) (Z.shiftl SEG_KDATA 3) ;;;
    q <- get_proc c ;; kst <- ld (q + PROC_KSTACK) ;;
    st (a + CPU_TS + TS_ESP0) (kst + KSTACKSIZE) ;;; ltr c (Z.shiftl SEG_TSS 3) ;;; k) s = k s') /\
  gdt_ok c s' /\ tss_ok c (u32 (rd s (p + PROC_KSTACK) + KSTACKSIZE)) s' /\ own c s s' /\ regs s' c = task (slot c + CPU_TS) (regs s c) /\
  rd s' (slot c + CPU_NCLI) = rd s (slot c + CPU_NCLI).
Proof using Hlay.
  intros Hc Hg Hp Hq. set (s1 := wr64 (gdt_of c + 8 * SEG_TSS) (pack (seg_fields (tss_desc c))) s).
  set (s2 := wr16 (slot c + (CPU_TS + TS_SS0)) (Z.shiftl SEG_KDATA 3) s1).
  set (s3 := wr (slot c + (CPU_TS + TS_ESP0)) (rd s (p + PROC_KSTACK) + KSTACKSIZE) s2).
  assert (P1 : part c (CPU_GDT + 8 * SEG_TSS) (CPU_GDT + 8 * SEG_TSS + 8) s s1).
  { unfold s1, gdt_at. rewrite <- (Z.add_assoc (slot c)). apply wr64_part; [done|unf; lia..]. }
  assert (P2 : part c (CPU_TS + TS_SS0) (CPU_TS + TS_SS0 + 2) s1 s2) by (apply wr16_part; [done|unf; lia..]).
  assert (P3 : part c (CPU_TS + TS_ESP0) (CPU_TS + TS_ESP0 + 4) s2 s3) by (apply wr_part; [done|unf; lia..]).
  assert (D3 : has_seg c s3 SEG_TSS (tss_desc c)).
  { eapply part_seg; [done|fld|..|exact P3|]; [unf; lia|]. eapply part_seg; [done|fld|..|exact P2|]; [unf; lia|]. by apply has_seg_new; [|fld]. }
  assert (G3 : gdt_ok c s3) by (eapply part_gdt; [done|..|exact P3|eapply part_gdt; [done|..|exact P2|eapply part_gdt; [done|..|exact P1|done]]]; unf; lia).
  assert (O2 : own c s s2) by (eapply own_part_trans; [..|exact P2|eapply part_own; [..|exact P1]]; unf; lia).
  assert (O3 : own c s s3) by (eapply own_part_trans; [..|exact P3|exact O2]; unf; lia).
  destruct (ltr_run c s3 Hc G3 D3) as (s4 & P4 & E4). exists (set_regs c (task (slot c + CPU_TS)) s4).
  assert (Hq2 : rd s2 (slot c + (CPU_CPU + 4)) = p).
  { keep P2. keep P1. exact Hq. }
  assert (Hk2 : rd s2 (p + PROC_KSTACK) = rd s (p + PROC_KSTACK)) by (by apply (proc_word c)).
  assert (Hr : regs s4 = regs s) by (rewrite (part_regs _ _ _ _ _ P4), (part_regs _ _ _ _ _ P3), (part_regs _ _ _ _ _ P2); apply P1).
  split_and!.
  - intros k. rewrite (bind_Ok _ _ _ _ _ (get_cpu_run c s Hc Hg)). unfold store_seg. rewrite (bind_Ok _ _ _ _ _ (st64_wr _ _ _)).
    fold (tss_desc c). change (slot c + CPU_GDT) with (gdt_of c). fold s1. rewrite <- !(Z.add_assoc (slot c)), (bind_Ok _ _ _ _ _ (st16_wr _ _ _)). fold s2.
    unfold get_proc. rewrite (bind_Ok _ _ _ _ _ (gs_load_rd c 4 (slot c + CPU_CPU) s2 ltac:(rewrite (part_regs _ _ _ _ _ P2), (part_regs _ _ _ _ _ P1); apply Hg))).
    rewrite <- !(Z.add_assoc (slot c)), Hq2, (bind_Ok _ _ _ _ _ (ld_rd _ _)), Hk2, (bind_Ok _ _ _ _ _ (st_wr _ _ _)). fold s3. by rewrite (bind_Ok _ _ _ _ _ E4).
  - eapply same_gdt; [by apply same_set|]. eapply part_gdt; [done|..|exact P4|done]; unf; lia.
  - split; [by rewrite regs_set|..]; rewrite <- (Z.add_assoc (slot c)).
    + rewrite rd_regs. keep P4. unfold s3. apply rd_wr_same.
    + cbn [set_regs vs]. keep P4. keep P3. unfold s2. by apply get16_wr16_same.
  - apply own_regs_trans. eapply own_part_trans; [..|exact P4|exact O3]; unf; lia.
  - rewrite regs_set. by rewrite Hr.
  - rewrite rd_regs. keep P4. keep P3. keep P2. by keep P1.
Qed.
Lemma tss_regs c f k s : tr_base (f (regs s c)) = tr_base (regs s c) -> tss_ok c k s -> tss_ok c k (set_regs c f s).
Proof using. intros Hf [T1 T2 T3]. split; [by rewrite regs_set, Hf|by rewrite rd_regs|exact T3]. Qed.
Lemma switch_run c p s : inr c -> gdt_ok c s -> nest c s -> proc_ok p s -> exists s', (set_proc c p ;;; switchuvm c p) s = Ok (tt, s') /\ gdt_ok c s' /\
  tss_ok c (u32 (rd s (p + PROC_KSTACK) + KSTACKSIZE)) s' /\ own c s s' /\ idtr (regs s' c) = idtr (regs s c) /\ nest c s' /\
  cr3 (regs s' c) = v2p (rd s (p + PROC_PGDIR)).
Proof using Hlay.
  intros Hc Hg Hn Hp. unfold set_proc. rewrite (bind_Ok _ _ _ _ _ (gs_store_wr c 4 p _ s (go_gs _ _ Hg))). rewrite <- (Z.add_assoc (slot c)).
  set (s1 := wr _ p s). assert (P1 : part c (CPU_CPU + 4) (CPU_CPU + 4 + 4) s s1) by (apply wr_part; [done|unf; lia..]).
  assert (Q1 : rd s1 (slot c + (CPU_CPU + 4)) = p) by (unfold s1; rewrite rd_wr_same; apply u32_small; destruct Hp as (? & _); unf; lia). clearbody s1.
  assert (G1 : gdt_ok c s1) by (eapply part_gdt; [done|..|exact P1|done]; unf; lia).
  unfold switchuvm. destruct (pushcli_nests c s1 Hc G1) as (s2 & E2 & P2 & W2). rewrite (bind_Ok _ _ _ _ _ E2).
  assert (G2 : gdt_ok c s2) by (eapply part_gdt; [done|..|exact P2|eapply same_gdt; [apply same_flag|done]]; unf; lia).
  assert (O2 : own c s s2) by (eapply own_part_trans; [..|exact P2|apply own_regs_trans; eapply part_own; [..|exact P1]]; unf; lia).
  assert (Q2 : rd s2 (slot c + (CPU_CPU + 4)) = p) by (keep P2; exact Q1).
  assert (H2 : proc_ok p s2) by (destruct Hp as (? & ? & ?); split_and!; try done; rewrite (proc_word c p s) by (done || unfold PROC_PGDIR; lia); done).
  destruct (load_task_run c p s2 Hc G2 H2 Q2) as (s3 & E3 & G3 & T3 & O3 & R3 & W3). rewrite E3.
  assert (O4 : own c s s3) by (etransitivity; [exact O2|exact O3]). rewrite (bind_Ok _ _ _ _ _ (ld_rd _ _)).
  rewrite (proc_word c p s) by (done || unfold PROC_PGDIR; lia). destruct (Z.eqb_spec (rd s (p + PROC_PGDIR)) 0); [by destruct Hp as (_ & _ & ?)|].
  unfold lcr3. erewrite bind_Ok; [|reflexivity]. fold (space (v2p (rd s (p + PROC_PGDIR)))). set (s4 := set_regs c (space _) s3).
  assert (G4 : gdt_ok c s4) by (eapply same_gdt; [by apply same_set|done]).
  assert (W4 : rd s4 (slot c + CPU_NCLI) = rd s (slot c + CPU_NCLI) + 1).
  { unfold s4. rewrite rd_regs, W3, W2. keep P1. apply u32_small. unfold nest in Hn. lia. }
  assert (R4 : regs s4 c = space (v2p (rd s (p + PROC_PGDIR))) (task (slot c + CPU_TS) (flag false (regs s c)))).
  { unfold s4. rewrite regs_set, R3, (part_regs _ _ _ _ _ P2), regs_set. by rewrite (part_regs _ _ _ _ _ P1). }
  destruct (popcli_run c s4 Hc G4) as (s5 & s6 & E6 & P6 & W6 & R6); [by rewrite R4 | unfold nest in Hn; lia|].
  assert (G5 : gdt_ok c s5) by (eapply part_gdt; [done|..|exact P6|done]; unf; lia).
  assert (T5 : tss_ok c (u32 (rd s (p + PROC_KSTACK) + KSTACKSIZE)) s5).
  { eapply part_tss; [done| |exact P6|apply tss_regs; [by rewrite R3|]]; [unf; lia|]. rewrite (proc_word c p s) in T3 by (done || unfold PROC_KSTACK; lia). exact T3. }
  assert (O5 : own c s s5) by (eapply own_part_trans; [..|exact P6|by apply own_regs_trans]; unf; lia).
  pose proof (part_regs _ _ _ _ _ P6) as R5. exists s6. split; [exact E6|]. destruct R6 as [->| ->]; split_and!; try assumption.
  all: rewrite ?regs_set, ?R5, ?R4; try done; try (unfold nest in *; rewrite ?rd_regs; lia).
  - eapply same_gdt; [apply same_flag|done].
  - apply tss_regs; [|done]. rewrite R5, R4. done.
  - by apply own_regs_trans.
Qed.

(** ** Entering the kernel *)
Definition gate_dpl (n : Z) : Z := if n =? T_SYSCALL then DPL_USER else 0.
Lemma gate_read n : read_gate (pack (gate_fields (gate_at n))) =
  mkGate (vectors n) (8 * SEG_KCODE) (if n =? T_SYSCALL then STS_TG32 else STS_IG32) 0 (gate_dpl n) 1.
Proof using Hlay.
  unfold gate_at, gate_dpl. pose proof (lay_vectors Hlay n). destruct (n =? T_SYSCALL); apply SETGATE_read; unfold DPL_USER; (done || lia).
Qed.
Lemma deliver_at c cpl soft n s : inr c -> gdt_ok c s -> idt_ok s -> idt_loaded c s -> 0 <= n < 256 -> 0 <= cpl ->
  deliver s c cpl soft n =
    if soft && (gate_dpl n <? cpl) then None
    else Some (mkEntry (vectors n) 0 (n =? T_SYSCALL)
      (if 0 <? cpl then Some (get16 (pm (vs s)) (v2p (tr_base (regs s c) + TS_SS0)), rd s (tr_base (regs s c) + TS_ESP0)) else None)).
Proof using Hlay.
  intros Hc Hg Hi Hl Hn Hcpl. unfold deliver. cbv zeta. unfold idt_loaded in Hl. rewrite !Hl. cbn [fst snd]. destruct (Z.leb_spec (8 * n + 7) 2047); [|lia]. cbn [negb].
  rewrite (proj2 (rd_get s _)), (proj1 (rd_get s _)), (Hi n Hn), gate_read.
  cbn [g_user g_present g_type g_dpl g_sel g_offset]. rewrite (descriptor_at c s SEG_KCODE Hc (go_gdtr _ _ Hg)) by fld.
  pose proof (go_kcode _ _ Hg) as Hw. unfold has_seg in Hw. rewrite !Hw.
  unfold kcode. rewrite SEG_read by (done || lia). cbn [s_user s_present s_type s_dpl s_base s_limit].
  pose proof (lay_vectors Hlay n) as Hv. destruct (Z.leb_spec 0 cpl); [|lia].
  destruct (Z.leb_spec (vectors n) (0xffffffff - 0xffffffff mod 4096 + 4095)) as [_|Hbad]; [|change (0xffffffff - 0xffffffff mod 4096 + 4095) with (2 ^ 32 - 1) in Hbad; lia].
  destruct (n =? T_SYSCALL); cbn [negb andb orb]; destruct (soft && _); done.
Qed.

(** ** The processors start and switch, in any order *)
Inductive stage := Fresh | Segs | Ready | Runs (k : Z).
Inductive act := Seginit | Idtinit | Switch (p : Z).
Definition run_act (c : Z) (a : act) : K unit :=
  match a with
  | Seginit => seginit cpus c
  | Idtinit => idtinit idt c
  | Switch p => set_proc c p ;;; switchuvm c p
  end.
(** The order of [mpmain] and [scheduler] on one processor; a process runs
    with its kernel stack. *)
Inductive next (s : mstate) : stage -> act -> stage -> Prop :=
| next_seg : next s Fresh Seginit Segs
| next_idt : next s Segs Idtinit Ready
| next_switch st p : (st = Ready \/ exists k, st = Runs k) -> proc_ok p s -> next s st (Switch p) (Runs (u32 (rd s (p + PROC_KSTACK) + KSTACKSIZE))).
Inductive reach (s0 : mstate) : (Z -> stage) -> mstate -> Prop :=
| reach_boot s : tvinit idt vectors s0 = Ok (tt, s) -> reach s0 (fun _ => Fresh) s
| reach_act g s c a st s' : reach s0 g s -> inr c -> next s (g c) a st -> run_act c a s = Ok (tt, s') -> reach s0 (upd g c st) s'.
Definition booted (s0 : mstate) : Prop := numbered s0 /\ forall c, inr c -> nest c s0.
Definition stage_ok (c : Z) (st : stage) (s : mstate) : Prop :=
  nest c s /\
  match st with
  | Fresh => True
  | Segs => gdt_ok c s
  | Ready => gdt_ok c s /\ idt_loaded c s
  | Runs k => gdt_ok c s /\ idt_loaded c s /\ tss_ok c k s
  end.
Definition inv (g : Z -> stage) (s : mstate) : Prop := idt_ok s /\ numbered s /\ forall c, inr c -> stage_ok c (g c) s.
Lemma stage_frame c d st s s' : inr c -> inr d -> d <> c -> own d s s' -> stage_ok c st s -> stage_ok c st s'.
Proof using Hlay.
  intros Hc Hd Hcd Ho [Hn Hs]. split; [by eapply (own_nest c d)|].
  destruct st; [done|by eapply (own_gdt c d)| destruct Hs as [H1 H2] | destruct Hs as (H1 & H2 & H3)]; split_and!;
    first [by eapply (own_gdt c d) | by eapply (own_idt_loaded c d) | by eapply (own_tss c d)].
Qed.
Lemma act_run g s c a st : inv g s -> inr c -> next s (g c) a st -> exists s', run_act c a s = Ok (tt, s') /\ own c s s' /\ stage_ok c st s'.
Proof using Hlay.
  intros (Hi & Hnum & Hst) Hc Hx. destruct (Hst c Hc) as [Hn Hg]. inversion Hx as [E1|E1|st0 p Hq Hp E1]; subst; cbn [run_act].
  - destruct (seginit_run c s Hc Hnum) as (s' & E & H1 & H2 & H3 & H4 & _). exists s'. split; [done|]. split; [done|]. split; [unfold nest; by rewrite H4|done].
  - rewrite <- E1 in Hg. exists (set_regs c (fun r => mkCreg (gdtr r) (pseudo idt (8 * 256)) (gs_base r) (tr_base r) (cr3 r) (iflag r) (esp r)) s).
    split; [reflexivity|]. split; [apply own_set_regs|]. split; [exact Hn|].
    assert (Hps : pseudo idt (8 * 256) = (idt, 2047)) by (apply pseudo_spec; [pose proof (lay_idt Hlay); unf; lia|lia]). split.
    + eapply same_gdt; [by apply same_set|done].
    + unfold idt_loaded. by rewrite regs_set.
  - assert (Hgi : gdt_ok c s /\ idt_loaded c s) by (destruct Hq as [Hq|[k Hq]]; rewrite Hq in Hg; [done|by destruct Hg as (? & ? & _)]).
    destruct Hgi as [G1 L1]. destruct (switch_run c p s Hc G1 Hn Hp) as (s' & E & H1 & H2 & H3 & H4 & H5 & _). exists s'. split; [done|]. split; [done|].
    split; [done|]. split; [done|]. split; [|done]. unfold idt_loaded. by rewrite H4.
Qed.
Lemma reach_inv s0 g s : booted s0 -> reach s0 g s -> inv g s.
Proof using Hlay.
  intros [B1 B2]. induction 1 as [s E|g s c a st s' _ IH Hc Hx E].
  - destruct (tvinit_run s0) as (s1 & E1 & H1 & H2 & (_ & H4 & H5 & _)). rewrite E1 in E. injection E as <-. split; [done|]. split.
    + destruct B1 as [N1 N2]. split; [congruence|]. intros c Hc. rewrite H4. by apply N2.
    + intros c Hc. split; [|done]. unfold nest. rewrite (rd_frame _ _ _ _ _ H2); [by apply B2|apply cpu_ka; (done || unf; lia)|].
      destruct (cpu_range c Hc). destruct (lay_apart Hlay); unf; lia.
  - destruct (act_run g s c a st IH Hc Hx) as (s1 & E1 & Ho & Hs). rewrite E1 in E. injection E as <-. destruct IH as (I1 & I2 & I3). split_and!.
    + by eapply own_idt.
    + by eapply own_numbered.
    + intros d Hd. destruct (decide (d = c)) as [->|Hne]; [by rewrite upd_eq|]. rewrite upd_ne by done. apply (stage_frame d c _ s s1); [done|done|congruence|exact Ho|by apply I3].
Qed.
(** Memory away from the tables is not touched. *)
Definition away (a n : Z) : Prop := ka a n /\ (a + n <= cpus \/ cpus + SIZEOF_CPU * NCPU <= a) /\ (a + n <= idt \/ idt + 8 * 256 <= a).
Lemma reach_away s0 g s a : booted s0 -> reach s0 g s -> away a 4 -> rd s a = rd s0 a.
Proof using Hlay.
  intros Hb Hr (A1 & A2 & A3). induction Hr as [s E|g s c x st s' Hr IH Hc Hx E].
  - destruct (tvinit_run s0) as (s1 & E1 & _ & H2 & _). rewrite E1 in E. injection E as <-. eapply rd_frame; [exact H2|done|lia].
  - destruct (act_run g s c x st (reach_inv _ _ _ Hb Hr) Hc Hx) as (s1 & E1 & Ho & _). rewrite E1 in E. injection E as <-. rewrite <- IH.
    destruct (cpu_range c Hc). eapply rd_frame; [apply (own_mem _ _ _ Ho)|done|lia].
Qed.
Lemma reach_more s0 g s c a st : booted s0 -> reach s0 g s -> inr c -> next s (g c) a st -> exists s', reach s0 (upd g c st) s'.
Proof using Hlay.
  intros Hb Hr Hc Hx. destruct (act_run g s c a st (reach_inv _ _ _ Hb Hr) Hc Hx) as (s' & E & _). exists s'. by eapply reach_act.
Qed.
End Facts.

(** C13 The kernel can be entered through its gates only, on every processor.
    Let the processors run [seginit], [idtinit] and switch to processes in any
    interleaving after [tvinit]: no step fails, [cpu] denotes the structure of
    the processor that reads it, and while a process is installed the processor
    accepts exactly one [int] instruction from user mode, number [T_SYSCALL];
    every exception, interrupt and system call enters at its vector with kernel
    privilege, with interrupts off except for system calls, and from user mode
    on the top of the kernel stack of that process. *)
Theorem kernel_entry `{LocalApic} cpus idt vectors s0 g s : layout cpus idt vectors -> booted cpus s0 -> reach cpus idt vectors s0 g s ->
  (forall c a st, inr c -> next cpus s (g c) a st -> exists s', run_act cpus idt c a s = Ok (tt, s')) /\
  (forall c k, inr c -> g c = Runs k ->
    get_cpu c s = Ok (cpu_at cpus c, s) /\
    forall n, 0 <= n < 256 ->
      let top := Some (Z.shiftl SEG_KDATA 3, k) in
      deliver s c DPL_USER true n = (if n =? T_SYSCALL then Some (mkEntry (vectors n) 0 true top) else None) /\
      deliver s c DPL_USER false n = Some (mkEntry (vectors n) 0 (n =? T_SYSCALL) top) /\
      deliver s c 0 false n = Some (mkEntry (vectors n) 0 (n =? T_SYSCALL) None)).
Proof.
  intros Hlay Hb Hr. pose proof (reach_inv cpus idt vectors Hlay s0 g s Hb Hr) as Hi. split.
  - intros c a st Hc Hx. destruct (act_run cpus idt vectors Hlay g s c a st Hi Hc Hx) as (s' & E & _). by exists s'.
  - intros c k Hc Hk. destruct Hi as (I1 & _ & I3). destruct (I3 c Hc) as [_ Hs]. rewrite Hk in Hs. destruct Hs as (G & L & [T1 T2 T3]).
    split; [by apply get_cpu_run|]. intros n Hn top.
    rewrite !(deliver_at cpus idt vectors Hlay c) by (done || unfold DPL_USER; lia). rewrite T1, T2, T3. unfold gate_dpl. by destruct (n =? T_SYSCALL).
Qed.

(** ** Witness: two processors *)
(** Chips that keep what is written; commands are delivered at once. *)
#[export] Program Instance plain_lapic : LocalApic :=
  {| lchip := (Z -> Z) * list (Z * Z); lread := fun r c => if r =? ICRLO then 0 else fst c r;
     lwrite := fun r v c => (upd (fst c) r v, if r =? ICRLO then snd c ++ [(fst c ICRHI, v)] else snd c);
     ltick := fun c => c; lsent := snd; delivery_time := 0 |}.
Next Obligation.
  intros r v c Hr. cbn. destruct (Z.eqb_spec r ICRLO) as [->|]; [|apply upd_eq]. unfold lasting in Hr.
  repeat (apply elem_of_cons in Hr as [Hr|Hr]; [discriminate Hr|]). by apply elem_of_nil in Hr.
Qed.
Next Obligation. intros r r' v c Hr _. cbn. by rewrite upd_ne. Qed.
Next Obligation. done. Qed.
Next Obligation. done. Qed.
Next Obligation. intros r v c Hr. cbn. by destruct (Z.eqb_spec r ICRLO). Qed.
Next Obligation. done. Qed.
Next Obligation. intros c. exists 0%nat. by split. Qed.
Definition cpus_w : Z := KERNBASE + 0x200000.
Definition idt_w : Z := KERNBASE + 0x210000.
Definition proc_w : Z := KERNBASE + 0x220000.
Definition vectors_w (n : Z) : Z := if (0 <=? n) && (n <? 256) then KERNBASE + 0x100000 + 16 * n else 0.
(** A process with page directory and stack; processors have their numbers. *)
Definition machine_w : mstate :=
  mkMs plain_lapic (mkV (put32 (put32 (fun _ => 0) (v2p (proc_w + PROC_PGDIR)) (KERNBASE + 0x300000)) (v2p (proc_w + PROC_KSTACK)) (KERNBASE + 0x301000)) 0)
    (fun _ => mkCreg (0, 0) (0, 0) 0 0 0 false 0) (fun c => (fun r => if r =? ID then Z.shiftl c 24 else 0, [])) 0xFEE00000 0 [].
Lemma layout_w : layout cpus_w idt_w vectors_w.
Proof. split; [done|done|by left|]. intros n. unfold vectors_w, KERNBASE. destruct (Z.leb_spec 0 n), (Z.ltb_spec n 256); cbn [andb]; lia. Qed.
Lemma machine_w_booted : booted cpus_w machine_w.
Proof.
  split.
  - split; [done|]. intros c [H1 H2]. unfold NCPU in H2. assert (Hc : c ∈ seqZ 0 8) by (apply elem_of_seqZ; lia). change (seqZ 0 8) with [0; 1; 2; 3; 4; 5; 6; 7] in Hc.
    repeat (apply elem_of_cons in Hc as [->|Hc]; [reflexivity|]). by apply elem_of_nil in Hc.
  - intros c [H1 H2]. unfold NCPU in H2. assert (Hc : c ∈ seqZ 0 8) by (apply elem_of_seqZ; lia). change (seqZ 0 8) with [0; 1; 2; 3; 4; 5; 6; 7] in Hc.
    repeat (apply elem_of_cons in Hc as [->|Hc]; [by vm_compute|]). by apply elem_of_nil in Hc.
Qed.
Lemma kernel_entry_witness : exists g s, reach cpus_w idt_w vectors_w machine_w g s /\ g 1 = Runs (KERNBASE + 0x302000) /\
  get_cpu 1 s = Ok (cpus_w + SIZEOF_CPU, s) /\
  deliver s 1 DPL_USER true 64 = Some (mkEntry (vectors_w 64) 0 true (Some (16, KERNBASE + 0x302000))) /\
  deliver s 1 DPL_USER true 14 = None /\
  deliver s 1 DPL_USER false 14 = Some (mkEntry (vectors_w 14) 0 false (Some (16, KERNBASE + 0x302000))).
Proof.
  pose proof layout_w as L. pose proof machine_w_booted as B.
  destruct (tvinit_run cpus_w idt_w vectors_w L machine_w) as (s1 & E1 & _). pose proof (reach_boot cpus_w idt_w vectors_w _ _ E1) as R1.
  assert (H0 : inr 0) by (unfold inr, NCPU; lia). assert (H1 : inr 1) by (unfold inr, NCPU; lia).
  destruct (reach_more cpus_w idt_w vectors_w L machine_w (fun _ => Fresh) s1 0 Seginit Segs B R1 H0 (next_seg cpus_w s1)) as (s2 & R2).
  destruct (reach_more cpus_w idt_w vectors_w L machine_w _ s2 1 Seginit Segs B R2 H1 (next_seg cpus_w s2)) as (s3 & R3).
  destruct (reach_more cpus_w idt_w vectors_w L machine_w _ s3 1 Idtinit Ready B R3 H1 (next_idt cpus_w s3)) as (s4 & R4).
  assert (Hw : forall off, 0 <= off <= 12 -> away cpus_w idt_w (proc_w + off) 4).
  { intros off Hoff. unfold away, ka, proc_w, cpus_w, idt_w, KERNBASE, PHYSTOP, SIZEOF_CPU, NCPU. lia. }
  assert (Hrd : forall off, 0 <= off <= 12 -> rd s4 (proc_w + off) = rd machine_w (proc_w + off)).
  { intros off Hoff. apply (reach_away cpus_w idt_w vectors_w L machine_w _ s4 _ B R4), Hw, Hoff. }
  assert (Hp : proc_ok cpus_w proc_w s4).
  { unfold proc_ok. split_and!; [unfold ka, proc_w, KERNBASE, PHYSTOP; lia | unfold proc_w, cpus_w, SIZEOF_CPU, NCPU; lia|].
    rewrite Hrd by (unfold PROC_PGDIR; lia). by vm_compute. }
  pose proof (next_switch cpus_w s4 Ready proc_w (or_introl eq_refl) Hp) as Hx.
  rewrite Hrd in Hx by (unfold PROC_KSTACK; lia).
  destruct (reach_more cpus_w idt_w vectors_w L machine_w _ s4 1 _ _ B R4 H1 Hx) as (s5 & R5). eexists _, s5. split; [exact R5|].
  destruct (kernel_entry cpus_w idt_w vectors_w machine_w _ s5 L B R5) as [_ Hk].
  destruct (Hk 1 (KERNBASE + 0x302000)) as [D1 D2]; [done|rewrite upd_eq; by vm_compute|].
  split; [rewrite upd_eq; by vm_compute|]. split; [exact D1|].
  split; [apply (D2 64); lia|]. split; [apply (D2 14); lia|apply (D2 14); lia].
Defined.
