(* ===== verification/Startup.v ===== *)
(** * Startup: the processors of the machine are started (src/src/main.c, src/src/lapic.c, src/src/kalloc.c)

    The boot processor fills the free list, copies the start-up code to low
    memory, and starts each other processor with a stack, the address of
    [mpenter] and the boot page directory in the words below that code; the
    processor takes them from there (src/src/entryother.S) and sets up its own
    tables.  [scheduler], where every processor ends, is in Proc. *)
From S2P Require Import Prelude CString Vm VmFacts Segments.

(** ** kalloc.c: the two phases of the allocator; the lock is left out *)
Definition kinit1 (kend vstart vend : Z) : V unit := freerange kend vstart vend.
Definition kinit2 (kend vstart vend : Z) : V unit := freerange kend vstart vend.

(** ** entrypgdir: pages of 4 MB *)
Definition PTE_PS : Z := 0x080.
Definition entrypgdir (i : Z) : Z :=
  if i =? 0 then Z.lor (Z.lor (Z.lor 0 PTE_P) PTE_W) PTE_PS
  else if i =? Z.shiftr KERNBASE 22 then Z.lor (Z.lor (Z.lor 0 PTE_P) PTE_W) PTE_PS
  else 0.
(** What the processor makes of such a directory. *)
Definition big_page (dir : Z -> Z) (va : Z) : option Z :=
  let e := dir (PDX va) in
  if truthy (Z.land e PTE_P) && truthy (Z.land e PTE_PS) then Some (Z.land e 0xFFC00000 + va mod 0x400000) else None.

(** ** main.c *)
Section Start.
Context `{LocalApic} (cpus idt : Z).
(** Addresses of [mpenter], [entrypgdir] and the image of entryother.S. *)
Context (mpenter_at entrypgdir_at entryother_start : Z) (entryother_size : nat).

Definition kvmalloc (kdata c : Z) : K unit :=
  p <- on_vm (setupkvm kdata) ;;
  modify (set_kpgdir p) ;;;
  switchkvm c.
(** Up to the call of [scheduler]. *)
Definition mpmain (c : Z) : K unit :=
  idtinit idt c ;;;
  a <- get_cpu c ;;
  st (a + CPU_STARTED) 1.
Definition mpenter (c : Z) : K unit :=
  switchkvm c ;;;
  seginit cpus c ;;;
  lapicinit c ;;;
  mpmain c.

(** entryother.S, on processor [c], loaded at [start]; the way into protected
    mode is left out. *)
Definition set_esp (c v : Z) : K unit :=
  modify (set_regs c (fun r => mkCreg (gdtr r) (idtr r) (gs_base r) (tr_base r) (cr3 r) (iflag r) v)).
Definition entryother (c start : Z) : K unit :=
  cli c ;;;
  g <- ld (start - 12) ;;
  lcr3 c g ;;;
  sp <- ld (start - 4) ;;
  set_esp c sp ;;;
  f <- ld (start - 8) ;;
  if f =? mpenter_at then mpenter c else fault.
(** Processor [i] while the boot processor [c] waits: a STARTUP command for it
    makes it run the code of that page. *)
Definition other_cpu (c i : Z) : K unit :=
  s <- get ;;
  match last (lsent (apic s c)) with
  | Some (to, v) =>
      if (Z.shiftr to 24 =? i) && (Z.land v 0x700 =? STARTUP) then entryother i (p2v (Z.shiftl (Z.land v 0xff) 12)) else ret tt
  | None => ret tt
  end.
(** [while(c->started == 0);] *)
Fixpoint wait_started (fuel : nat) (c i : Z) : K unit :=
  match fuel with
  | O => out_of_fuel
  | S fuel =>
      v <- ld (cpu_at cpus i + CPU_STARTED) ;;
      if v =? 0 then other_cpu c i ;;; wait_started fuel c i else ret tt
  end.
(** One round of the loop of [startothers] (lines 85-103); the identifier is
    the first byte of [struct cpu]. *)
Definition start_cpu (c i : Z) : K unit :=
  self <- cpunum c ;;
  if i =? self then ret tt
  else
    let code := p2v 0x7000 in
    stack <- on_vm kalloc ;;
    st (code - 4) (stack + KSTACKSIZE) ;;;
    st (code - 8) mpenter_at ;;;
    st (code - 12) (v2p entrypgdir_at) ;;;
    id <- gets (fun s => pm (vs s) (v2p (cpu_at cpus i))) ;;
    lapicstartap c id (v2p code) ;;;
    wait_started 2 c i.
Definition startothers (c ncpu : Z) : K unit :=
  let code := p2v 0x7000 in
  on_vm (set_pm (fun m => memmove m (v2p code) (v2p entryother_start) entryother_size)) ;;;
  mfor 0 ncpu (start_cpu c).
End Start.

(** * The free list after boot *)
Section Range.
Context (kend : Z) (Hkend : KERNBASE <= kend).
(** The whole pages from [p] on, [n] of them. *)
Fixpoint pages (n : nat) (p : Z) : list Z := match n with O => [] | S n => p :: pages n (p + PGSIZE) end.
Lemma pages_in n : forall p x, x ∈ pages n p -> p <= x < p + PGSIZE * Z.of_nat n.
Proof.
  induction n as [|n IH]; intros p x Hx; cbn [pages] in Hx; [by apply elem_of_nil in Hx|]. unfold PGSIZE in *.
  apply elem_of_cons in Hx as [->|Hx]; [lia|]. apply IH in Hx. lia.
Qed.
Lemma pages_spec n : forall p x, x ∈ pages n p <-> exists k, 0 <= k < Z.of_nat n /\ x = p + PGSIZE * k.
Proof.
  induction n as [|n IH]; intros p x; cbn [pages]; [rewrite elem_of_nil; split; [done|]; intros (k & Hk & _); lia|].
  rewrite elem_of_cons, IH. split.
  - intros [->|(k & Hk & ->)]; [exists 0; unfold PGSIZE; lia|exists (k + 1); lia].
  - intros (k & Hk & ->). destruct (decide (k = 0)) as [->|]; [left; lia|right; exists (k - 1); lia].
Qed.
Lemma freerange_loop_run n : forall fuel s l p vend, (n < fuel)%nat -> frees kend s l ->
  p mod PGSIZE = 0 -> kend <= p -> vend <= KERNBASE + PHYSTOP -> p + PGSIZE * Z.of_nat n <= vend < p + PGSIZE * (Z.of_nat n + 1) ->
  (forall x, x ∈ l -> x < p \/ vend <= x) ->
  exists s', freerange_loop kend fuel p vend s = Ok (tt, s') /\ frees kend s' (rev (pages n p) ++ l) /\
    forall a, ~ (p - KERNBASE <= a < vend - KERNBASE) -> pm s' a = pm s a.
Proof using Hkend.
  induction n as [|n IH]; intros fuel s l p vend Hf Hl Hp Hk Hv Hn Hx; (destruct fuel as [|fuel]; [lia|]); cbn [freerange_loop].
  - destruct (Z.leb_spec (p + PGSIZE) vend); [lia|]. by exists s.
  - destruct (Z.leb_spec (p + PGSIZE) vend); [|unfold PGSIZE in *; lia].
    assert (Hpo : page_ok kend p) by (unfold page_ok, PGSIZE in *; lia).
    destruct (kfree_run kend Hkend s l p Hl Hpo) as (s1 & E1 & H1 & H2); [intros Hin; destruct (Hx p Hin); unfold PGSIZE in *; lia|].
    rewrite (bind_Ok _ _ _ _ _ E1). destruct (IH fuel s1 (p :: l) (p + PGSIZE) vend) as (s' & E & H3 & H4).
    { lia. } { done. } { unfold PGSIZE in *. Z.div_mod_to_equations. lia. } { unfold PGSIZE; lia. } { done. } { unfold PGSIZE in *. lia. }
    { intros x Hin. apply elem_of_cons in Hin as [->|Hin]; [unfold PGSIZE; lia|]. destruct (Hx x Hin); unfold PGSIZE in *; lia. }
    exists s'. split; [exact E|]. cbn [pages rev]. rewrite <- app_assoc. split; [exact H3|].
    intros a Ha. rewrite H4, H2; [done|unfold in_page, PGSIZE in *; lia|unfold PGSIZE in *; lia].
Qed.
(** [freerange] puts exactly the whole pages of the range on the list. *)
Lemma freerange_run s l vstart vend : frees kend s l -> kend <= vstart -> vstart <= vend <= KERNBASE + PHYSTOP -> (forall x, x ∈ l -> x < vstart \/ vend <= x) ->
  exists n s', freerange kend vstart vend s = Ok (tt, s') /\ frees kend s' (rev (pages n (PGROUNDUP vstart)) ++ l) /\
    (forall x, x ∈ pages n (PGROUNDUP vstart) <-> x mod PGSIZE = 0 /\ vstart <= x /\ x + PGSIZE <= vend) /\
    forall a, ~ (vstart - KERNBASE <= a < vend - KERNBASE) -> pm s' a = pm s a.
Proof using Hkend.
  intros Hl Hs Hv Hx. assert (Hr : 0 <= vstart + 4095 < 2 ^ 32) by (unfold KERNBASE, PHYSTOP in *; lia).
  assert (Hup : PGROUNDUP vstart = vstart + 4095 - (vstart + 4095) mod 4096).
  { unfold PGROUNDUP, PGSIZE. replace (vstart + 4096 - 1) with (vstart + 4095) by lia. rewrite u32_small by done. by apply page_mask. }
  set (a := PGROUNDUP vstart) in *. set (n := Z.to_nat (Z.max 0 ((vend - a) / PGSIZE))).
  assert (Ha : a mod PGSIZE = 0 /\ vstart <= a < vstart + PGSIZE) by (unfold PGSIZE; Z.div_mod_to_equations; lia).
  exists n. unfold freerange. fold a. destruct (decide (a <= vend)) as [Hle|Hgt].
  - assert (Hn : a + PGSIZE * Z.of_nat n <= vend < a + PGSIZE * (Z.of_nat n + 1)) by (unfold n, PGSIZE in *; Z.div_mod_to_equations; lia).
    destruct (freerange_loop_run n (S (Z.to_nat ((vend - vstart) / PGSIZE + 1))) s l a vend) as (s' & E & H1 & H2); try done; try lia.
    { unfold n, PGSIZE in *. Z.div_mod_to_equations. lia. }
    { intros x Hin. destruct (Hx x Hin); lia. }
    exists s'. split; [done|]. split; [done|]. split; [|intros b Hb; apply H2; lia]. intros x. rewrite pages_spec. clear -Ha Hn. unfold PGSIZE in *. split.
    + intros (k & Hk & ->). Z.div_mod_to_equations. lia.
    + intros (H1 & H2 & H3). exists ((x - a) / 4096). Z.div_mod_to_equations. lia.
  - assert (Hn : n = 0%nat) by (unfold n, PGSIZE in *; Z.div_mod_to_equations; lia). exists s. rewrite Hn. cbn [freerange_loop].
    destruct (Z.leb_spec (a + PGSIZE) vend); [unfold PGSIZE in *; lia|]. split; [done|]. split; [done|]. split; [|done].
    intros x. cbn [pages]. rewrite elem_of_nil. unfold PGSIZE in *. split; [done|]. Z.div_mod_to_equations. lia.
Qed.
End Range.

(** * The local interrupt controllers *)
Section Chips.
Context `{LocalApic}.
Lemma lread_write r r' v ch : r' ∈ lasting -> lread r' (lwrite r v ch) = if r' =? r then v else lread r' ch.
Proof. intros Hr. destruct (Z.eqb_spec r' r) as [->|Hne]; [by apply lread_written|]. apply lread_other; [done|by left]. Qed.
Lemma lread_fixed r r' v ch : r' = ID \/ r' = VER -> r' <> r -> lread r' (lwrite r v ch) = lread r' ch.
Proof. intros Hr Hne. apply lread_other; [done|by right]. Qed.
Lemma ticks_steady k r ch : steady r -> lread r (Nat.iter k ltick ch) = lread r ch.
Proof. intros Hr. induction k as [|k IH]; [done|]. by rewrite Nat.iter_succ, lread_ticked, IH. Qed.
Lemma ticks_sent k ch : lsent (Nat.iter k ltick ch) = lsent ch.
Proof. induction k as [|k IH]; [done|]. by rewrite Nat.iter_succ, lsent_ticked, IH. Qed.
(** Only the chip of [c] changes. *)
Record chip_only (c : Z) (s s' : mstate) : Prop := mkChipOnly {
  co_vs : vs s' = vs s;
  co_regs : regs s' = regs s;
  co_lapic : lapicp s' = lapicp s;
  co_dir : kpgdir s' = kpgdir s;
  co_other : forall d, d <> c -> apic s' d = apic s d }.
#[export] Instance chip_only_preorder c : PreOrder (chip_only c).
Proof. split; [by split|]. intros x y z [A1 A2 A3 A4 A5] [B1 B2 B3 B4 B5]. split; [congruence..|]. intros d Hd. by rewrite B5, A5. Qed.
Lemma chip_set c f s : chip_only c s (set_apic c f s) /\ apic (set_apic c f s) c = f (apic s c).
Proof. split; [|apply upd_eq]. split; [done..|]. intros d Hd. by apply upd_ne. Qed.
Lemma poll_run n c : forall s, (exists k, (k <= n)%nat /\ Z.land (lread ICRLO (Nat.iter k ltick (apic s c))) DELIVS = 0) ->
  exists k s', poll (S n) c s = Ok (tt, s') /\ chip_only c s s' /\ apic s' c = Nat.iter k ltick (apic s c).
Proof.
  assert (Hstop : forall n s, Z.land (lread ICRLO (apic s c)) DELIVS = 0 -> poll (S n) c s = Ok (tt, s)).
  { intros m s Hz. cbn [poll]. erewrite bind_Ok; [|reflexivity]. cbv beta. by rewrite Hz. }
  induction n as [|n IH]; intros s (k & Hk & Hz).
  - assert (k = 0%nat) as -> by lia. exists 0%nat, s. split; [by apply Hstop|]. split; [reflexivity|done].
  - destruct (decide (Z.land (lread ICRLO (apic s c)) DELIVS = 0)) as [H0|H0]; [exists 0%nat, s; split; [by apply Hstop|]; split; [reflexivity|done]|].
    destruct k as [|k]; [done|]. destruct (chip_set c ltick s) as [C1 C2]. destruct (IH (set_apic c ltick s)) as (j & s' & E & C3 & E3).
    { exists k. split; [lia|]. by rewrite C2, <- Nat.iter_succ_r. }
    exists (S j), s'. split; [|split; [by etransitivity|by rewrite E3, C2, <- Nat.iter_succ_r]].
    remember (S n) as m. cbn [poll]. erewrite bind_Ok; [|reflexivity]. cbv beta. unfold truthy. destruct (Z.eqb_spec (Z.land (lread ICRLO (apic s c)) DELIVS) 0); [done|].
    cbn [negb]. erewrite bind_Ok; [|reflexivity]. exact E.
Qed.
(** A chip that delivers the timer and errors to its processor and nothing
    from its pins. *)
Record chip_ready (ch : lchip) : Prop := mkChipReady {
  cr_enabled : lread SVR ch = Z.lor ENABLE (T_IRQ0 + IRQ_SPURIOUS);
  cr_timer : lread TIMER ch = Z.lor PERIODIC (T_IRQ0 + IRQ_TIMER) /\ lread TDCR ch = X1 /\ lread TICR ch = 10000000;
  cr_pins : lread LINT0 ch = MASKED /\ lread LINT1 ch = MASKED;
  cr_counter : 4 <= Z.land (Z.shiftr (lread VER ch) 16) 0xFF -> lread PCINT ch = MASKED;
  cr_error : lread ERROR ch = T_IRQ0 + IRQ_ERROR;
  cr_accepts : lread TPR ch = 0 }.
(** The chip after [lapicinit], up to the command. *)
Definition init_writes (ch : lchip) : lchip :=
  let ch := lwrite LINT1 MASKED (lwrite LINT0 MASKED (lwrite TICR 10000000 (lwrite TIMER (Z.lor PERIODIC (T_IRQ0 + IRQ_TIMER))
    (lwrite TDCR X1 (lwrite SVR (Z.lor ENABLE (T_IRQ0 + IRQ_SPURIOUS)) ch))))) in
  let ch := if Z.land (Z.shiftr (lread VER ch) 16) 0xFF >=? 4 then lwrite PCINT MASKED ch else ch in
  lwrite ICRLO (Z.lor (Z.lor BCAST INIT) LEVEL) (lwrite ICRHI 0 (lwrite EOI 0 (lwrite ESR 0 (lwrite ESR 0 (lwrite ERROR (T_IRQ0 + IRQ_ERROR) ch))))).
Ltac member := unfold lasting; repeat first [apply list_elem_of_here | apply list_elem_of_further].
Ltac decide_regs := repeat match goal with |- context [?a =? ?b] => let x := eval vm_compute in (a =? b) in change (a =? b) with x; cbv iota end.
Ltac regs_tac := repeat (rewrite lread_write by member; decide_regs); try done.
Ltac fixed_tac := repeat (rewrite lread_fixed by (auto || by vm_compute)); try done.
Lemma init_writes_ready k ch : chip_ready (lwrite TPR 0 (Nat.iter k ltick (init_writes ch))).
Proof.
  assert (HV : forall ch, lread VER (lwrite TPR 0 (Nat.iter k ltick (init_writes ch))) = lread VER ch).
  { intros ch'. rewrite lread_fixed by (auto || done). rewrite ticks_steady by (by right; right). unfold init_writes. destruct (_ >=? _); fixed_tac. }
  split; rewrite ?HV; [|split; [|split]|split|intros Hver|..].
  all: rewrite lread_write by member; decide_regs; rewrite ?ticks_steady by (left; member); try done; unfold init_writes.
  all: set (ch1 := lwrite LINT1 MASKED _); try (destruct (_ >=? 4); unfold ch1; regs_tac; fail).
  assert (H1 : lread VER ch1 = lread VER ch) by (unfold ch1; fixed_tac). rewrite H1.
  destruct (Z.geb_spec (Z.land (Z.shiftr (lread VER ch) 16) 0xFF) 4); [regs_tac|lia].
Qed.
(** Writes one after the other. *)
Definition at_chip (c : Z) (s0 : mstate) (ch : lchip) (s : mstate) : Prop := chip_only c s0 s /\ apic s c = ch.
Lemma write_step {A} c r v (k : K A) s0 ch s (R : outcome (A * mstate) -> Prop) : at_chip c s0 ch s ->
  (forall s', at_chip c s0 (lwrite r (u32 v) ch) s' -> R (k s')) -> R ((lapicw c r v ;;; k) s).
Proof.
  intros [H1 <-] Hk. unfold lapicw. erewrite bind_Ok; [|reflexivity]. apply Hk. destruct (chip_set c (lwrite r (u32 v)) s) as [H2 H3].
  split; [by etransitivity|done].
Qed.
Lemma write_last c r v s0 ch s : at_chip c s0 ch s -> exists s', lapicw c r v s = Ok (tt, s') /\ at_chip c s0 (lwrite r (u32 v) ch) s'.
Proof.
  intros [H1 <-]. eexists. split; [reflexivity|]. destruct (chip_set c (lwrite r (u32 v)) s) as [H2 H3]. split; [by etransitivity|done].
Qed.
Lemma lapicinit_run c s : lapicp s <> 0 -> exists s', lapicinit c s = Ok (tt, s') /\ chip_only c s s' /\ chip_ready (apic s' c) /\
  lread ID (apic s' c) = lread ID (apic s c).
Proof.
  intros Hl. unfold lapicinit. erewrite bind_Ok; [|reflexivity]. destruct (Z.eqb_spec (lapicp s) 0); [done|].
  set (R := fun o : outcome (unit * mstate) =>
    exists s', o = Ok (tt, s') /\ chip_only c s s' /\ chip_ready (apic s' c) /\ lread ID (apic s' c) = lread ID (apic s c)).
  match goal with |- exists s', ?o = _ /\ _ => change (R o) end.
  assert (H0 : at_chip c s (apic s c) s) by (split; [reflexivity|done]).
  do 6 (eapply write_step; [exact H0|]; clear H0; intros ? H0). erewrite bind_Ok; [|reflexivity]. rewrite (proj2 H0).
  change (u32 (Z.lor ENABLE (T_IRQ0 + IRQ_SPURIOUS))) with (Z.lor ENABLE (T_IRQ0 + IRQ_SPURIOUS)) in H0.
  assert (Hend : forall s1, at_chip c s (init_writes (apic s c)) s1 -> R ((poll (S delivery_time) c ;;; lapicw c TPR 0) s1)).
  { clear H0. intros s1 [H1 H2]. destruct (poll_run delivery_time c s1 (delivered _)) as (k & s2 & E & H3 & H4). rewrite (bind_Ok _ _ _ _ _ E).
    destruct (write_last c TPR 0 s1 _ s2 (conj H3 H4)) as (s3 & E3 & [H5 H6]). exists s3. split; [done|]. split; [by transitivity s1|].
    rewrite H6, H2. split; [apply init_writes_ready|]. rewrite lread_fixed, ticks_steady by (auto || (by right; left) || done).
    unfold init_writes. destruct (_ >=? _); fixed_tac. }
  revert Hend H0. unfold init_writes. set (ch1 := lwrite LINT1 MASKED _). intros Hend H0. change (lwrite LINT1 (u32 MASKED) _) with ch1 in *.
  destruct (Z.land (Z.shiftr (lread VER ch1) 16) 0xFF >=? 4); [eapply write_step; [exact H0|]; clear H0; intros ? H0 | rewrite (bind_Ok _ _ _ _ _ eq_refl)].
  all: do 6 (eapply write_step; [exact H0|]; clear H0; intros ? H0); apply Hend; exact H0.
Qed.
End Chips.

(** * Every processor comes up *)
Section Up.
Context `{LocalApic} (cpus idt : Z) (vectors : Z -> Z) (kend mpenter_at entrypgdir_at : Z).
Abbreviation slot := (cpu_at cpus).
(** The kernel is loaded above the first megabyte, its end is at [kend]. *)
Record image : Prop := mkImage {
  im_layout : layout cpus idt vectors;
  im_high : KERNBASE + EXTMEM <= cpus /\ KERNBASE + EXTMEM <= idt;
  im_end : cpus + SIZEOF_CPU * NCPU <= kend /\ idt + 8 * 256 <= kend;
  im_entry : 0 <= mpenter_at < 2 ^ 32 }.
Context (Him : image).
Lemma image_layout : layout cpus idt vectors.
Proof. apply Him. Qed.
(** Processor [i] has its tables, its chip and its stack. *)
Record up (i sp : Z) (s : mstate) : Prop := mkUp {
  up_gdt : gdt_ok cpus i s;
  up_idt : idt_loaded idt i s;
  up_chip : chip_ready (apic s i);
  up_started : rd s (slot i + CPU_STARTED) = 1;
  up_space : cr3 (regs s i) = v2p (kpgdir s);
  up_stack : esp (regs s i) = sp }.
(** What bringing up processor [i] from [c] leaves alone. *)
Record round (c i : Z) (s s' : mstate) : Prop := mkRound {
  ro_mem : forall x, EXTMEM <= x -> ~ (slot i - KERNBASE <= x < slot i - KERNBASE + SIZEOF_CPU) -> pm (vs s') x = pm (vs s) x;
  ro_regs : forall d, d <> i -> regs s' d = regs s d;
  ro_apic : forall d, d <> i -> d <> c -> apic s' d = apic s d;
  ro_id : forall d, lread ID (apic s' d) = lread ID (apic s d);
  ro_lapic : lapicp s' = lapicp s;
  ro_dir : kpgdir s' = kpgdir s }.
#[local] Instance round_preorder c i : PreOrder (round c i).
Proof.
  split; [by split|]. intros x y z [A1 A2 A3 A4 A5 A6] [B1 B2 B3 B4 B5 B6].
  split; [intros a Ha Hn; by rewrite B1, A1 | intros d Hd; by rewrite B2, A2 | intros d Hd Hc; by rewrite B3, A3 | intros d; by rewrite B4, A4 | congruence..].
Qed.
Lemma rd_agree s s' b : ka b 4 -> (forall x, b - KERNBASE <= x < b - KERNBASE + 4 -> pm (vs s') x = pm (vs s) x) -> rd s' b = rd s b.
Proof. intros Hb Hx. unfold rd. rewrite (ka_v2p b 4) by (done || lia). by apply get32_agree. Qed.
Lemma rd64_agree s s' b : ka b 8 -> (forall x, b - KERNBASE <= x < b - KERNBASE + 8 -> pm (vs s') x = pm (vs s) x) -> rd64 s' b = rd64 s b.
Proof. intros Hb Hx. unfold rd64. rewrite (ka_v2p b 8) by (done || lia). by apply get64_agree. Qed.
Section Frame.
Context (c i : Z) (s s' : mstate) (Hi : inr i) (Hr : round c i s s').
Lemma round_field j off : inr j -> j <> i -> 0 <= off -> off + 4 <= SIZEOF_CPU -> rd s' (slot j + off) = rd s (slot j + off).
Proof using All.
  intros Hj Hne H1 H2. apply rd_agree; [apply (cpu_ka cpus idt vectors image_layout); (done || lia)|]. intros x Hx. destruct (im_high Him) as [? _].
  apply (ro_mem _ _ _ _ Hr); [destruct (cpu_range cpus j Hj); lia|]. destruct (cpu_apart cpus i j); try done; lia.
Qed.
Lemma round_gdt j : inr j -> j <> i -> gdt_ok cpus j s -> gdt_ok cpus j s'.
Proof using All.
  intros Hj Hne [G1 G2 G3 G4 G5 G6 G7 G8].
  assert (Hseg : forall k d, 0 <= k < NSEGS -> has_seg cpus j s k d -> has_seg cpus j s' k d).
  { unfold has_seg. intros k d Hk <-. pose proof (gdt_ka cpus idt vectors image_layout j k Hj Hk) as Hka. apply rd64_agree; [done|]. intros x Hx. destruct (im_high Him) as [? _].
    unfold gdt_at, CPU_GDT, NSEGS in *. apply (ro_mem _ _ _ _ Hr); [destruct (cpu_range cpus j Hj); lia|].
    destruct (cpu_apart cpus i j); try done; unfold SIZEOF_CPU in *; lia. }
  split; rewrite ?(ro_regs _ _ _ _ Hr) by done; try done; try (by apply Hseg).
  by rewrite round_field by (done || unfold CPU_CPU, SIZEOF_CPU; lia).
Qed.
Lemma round_up j sp : inr j -> j <> i -> j <> c -> up j sp s -> up j sp s'.
Proof using All.
  intros Hj Hne Hnc [U1 U2 U3 U4 U5 U6]. split; unfold idt_loaded; rewrite ?(ro_regs _ _ _ _ Hr), ?(ro_apic _ _ _ _ Hr), ?(ro_dir _ _ _ _ Hr) by done; try done.
  - by apply round_gdt.
  - by rewrite round_field by (done || unfold CPU_STARTED, SIZEOF_CPU; lia).
Qed.
Lemma round_idt : idt_ok idt vectors s -> idt_ok idt vectors s'.
Proof using All.
  intros Ho n Hn. rewrite <- (Ho n Hn). destruct image_layout as [_ [L3 L4] L5 _]. destruct (im_high Him) as [_ ?]. apply rd64_agree; [unfold ka; lia|]. intros x Hx.
  apply (ro_mem _ _ _ _ Hr); [lia|]. destruct (cpu_range cpus i Hi). lia.
Qed.
Lemma round_numbered : numbered s -> numbered s'.
Proof using All. intros [N1 N2]. split; [by rewrite (ro_lapic _ _ _ _ Hr)|]. intros d Hd. rewrite (ro_id _ _ _ _ Hr). by apply N2. Qed.
(** The identifier, the first byte. *)
Lemma round_id j : inr j -> j <> i -> pm (vs s') (v2p (slot j)) = pm (vs s) (v2p (slot j)).
Proof using All.
  intros Hj Hne. pose proof (cpu_ka cpus idt vectors image_layout j 0 4 Hj) as Hk. rewrite Z.add_0_r in Hk. rewrite (ka_v2p _ 4) by (lia || apply Hk; unfold SIZEOF_CPU; lia).
  destruct (im_high Him) as [? _]. apply (ro_mem _ _ _ _ Hr); [destruct (cpu_range cpus j Hj); lia|]. destruct (cpu_apart cpus i j); try done; unfold SIZEOF_CPU in *; lia.
Qed.
Lemma round_frees l : freelist (vs s') = freelist (vs s) -> frees kend (vs s) l -> frees kend (vs s') l.
Proof using All.
  intros Hfl [Hc Hnd]. split; [|done]. rewrite Hfl. destruct (im_high Him) as [He _]. destruct (im_end Him) as [He2 _]. destruct (cpu_range cpus i Hi). assert (Hk : KERNBASE <= kend) by (unfold EXTMEM, SIZEOF_CPU, NCPU in *; lia).
  eapply (free_agree kend Hk); [|exact Hc]. intros x a Hx Ha. destruct (free_pages kend Hk _ _ _ _ Hc Hx) as (_ & Hx2 & _). unfold in_page in Ha.
  apply (ro_mem _ _ _ _ Hr); unfold EXTMEM, SIZEOF_CPU, NCPU in *; lia.
Qed.
End Frame.

(** ** A processor runs mpenter *)
Lemma own_round c i s s' : inr i -> own cpus i s s' -> kpgdir s' = kpgdir s -> round c i s s'.
Proof using.
  intros Hi [O1 O2 O3 O4] Hk. split; [|done|by rewrite O3|by rewrite O3|done..]. intros x _ Hx. apply O1. lia.
Qed.
Lemma chip_round c i s s' : chip_only i s s' -> lread ID (apic s' i) = lread ID (apic s i) -> round c i s s'.
Proof using.
  intros [C1 C2 C3 C4 C5] Hid. split; [by rewrite C1|by rewrite C2|auto|..]; try done. intros d. destruct (decide (d = i)) as [->|Hne]; [done|by rewrite C5].
Qed.
Lemma round_regs c i f s : round c i s (set_regs i f s).
Proof using. split; try done. intros d Hd. by apply upd_ne. Qed.
Lemma mpenter_run c i s : inr i -> numbered s -> exists s', mpenter cpus idt i s = Ok (tt, s') /\ up i (esp (regs s i)) s' /\ round c i s s' /\
  freelist (vs s') = freelist (vs s).
Proof using Him.
  intros Hi Hn. pose proof image_layout as L. unfold mpenter, switchkvm. rewrite bind_assoc. erewrite bind_Ok; [|reflexivity]. unfold lcr3. erewrite bind_Ok; [|reflexivity].
  set (s1 := set_regs i _ s). destruct (seginit_run cpus idt vectors L i s1 Hi) as (s2 & E2 & G2 & O2 & I2 & _ & K2 & C2 & P2 & F2); [exact Hn|].
  rewrite (bind_Ok _ _ _ _ _ E2). assert (N2 : numbered s2) by (eapply own_numbered; [exact O2|exact Hn]).
  destruct (lapicinit_run i s2 (proj1 N2)) as (s3 & E3 & C3 & R3 & D3). rewrite (bind_Ok _ _ _ _ _ E3). unfold mpmain, idtinit, lidt.
  erewrite bind_Ok; [|reflexivity]. set (s4 := set_regs i _ s3).
  assert (G4 : gdt_ok cpus i s4).
  { eapply same_gdt; [by apply same_set|]. eapply same_gdt; [|exact G2]. destruct C3 as [V3 W3 _ _ _]. unfold same_tables. by rewrite V3, W3. }
  rewrite (bind_Ok _ _ _ _ _ (get_cpu_run cpus i s4 Hi G4)), st_wr. eexists. split; [reflexivity|].
  assert (P : part cpus i CPU_STARTED (CPU_STARTED + 4) s4 (wr (slot i + CPU_STARTED) 1 s4)) by (apply (wr_part cpus idt vectors L); [done|unfold CPU_STARTED, SIZEOF_CPU; lia..]).
  assert (Hps : pseudo idt (8 * 256) = (idt, 2047)) by (apply pseudo_spec; [pose proof (lay_idt _ _ _ L); unfold KERNBASE, PHYSTOP in *; lia|lia]).
  assert (Hr4 : regs s4 i = mkCreg (gdtr (regs s2 i)) (idt, 2047) (gs_base (regs s2 i)) (tr_base (regs s2 i)) (cr3 (regs s2 i)) (iflag (regs s2 i)) (esp (regs s2 i))).
  { unfold s4. rewrite regs_set, Hps. destruct C3 as [_ -> _ _ _]. done. }
  assert (Hk4 : kpgdir s4 = kpgdir s /\ apic s4 = apic s3 /\ vs s4 = vs s2) by (unfold s4; cbn; rewrite (co_dir _ _ _ C3), (co_vs _ _ _ C3), K2; done).
  destruct Hk4 as (Hk4 & Ha4 & Hv4). split; [split|split].
  - apply (part_gdt cpus idt vectors L i CPU_STARTED (CPU_STARTED + 4) s4); unfold CPU_STARTED, CPU_GDT, SEG_TSS, CPU_CPU; (done || lia).
  - unfold idt_loaded. by rewrite regs_wr, Hr4.
  - exact R3.
  - by rewrite rd_wr_same.
  - rewrite regs_wr, Hr4, kpgdir_wr, Hk4. cbn. rewrite C2. unfold s1. by rewrite regs_set.
  - rewrite regs_wr, Hr4. cbn. rewrite P2. unfold s1. by rewrite regs_set.
  - transitivity s1; [apply round_regs|]. transitivity s2; [by apply own_round|]. transitivity s3; [by apply chip_round|].
    transitivity s4; [apply round_regs|]. apply own_round; [done|eapply (part_own cpus); [..|exact P]; unfold CPU_STARTED, SIZEOF_CPU; lia|done].
  - rewrite freelist_wr, Hv4, F2. done.
Qed.

(** ** The boot processor *)

(** Writes to low memory and to the chip of [c]. *)
Record low (c : Z) (s s' : mstate) : Prop := mkLow {
  lo_mem : mem_out KERNBASE (KERNBASE + EXTMEM) s s';
  lo_regs : regs s' = regs s;
  lo_apic : forall d, d <> c -> apic s' d = apic s d;
  lo_id : lread ID (apic s' c) = lread ID (apic s c);
  lo_rest : lapicp s' = lapicp s /\ kpgdir s' = kpgdir s /\ freelist (vs s') = freelist (vs s) }.
#[local] Instance low_preorder c : PreOrder (low c).
Proof.
  split; [by split|]. intros x y z [A1 A2 A3 A4 (A5 & A6 & A7)] [B1 B2 B3 B4 (B5 & B6 & B7)].
  split; [by eapply mem_out_trans|congruence|intros d Hd; by rewrite B3, A3|congruence|split_and!; congruence].
Qed.
Lemma low_round c i s s' : low c s s' -> round c i s s'.
Proof using.
  intros [A1 A2 A3 A4 (A5 & A6 & A7)]. split; [|by rewrite A2|auto| |done|done].
  - intros x Hx _. apply A1. unfold EXTMEM in *. lia.
  - intros d. destruct (decide (d = c)) as [->|Hne]; [done|by rewrite A3].
Qed.
Lemma wr_low c a v s : KERNBASE <= a -> a + 4 <= KERNBASE + EXTMEM -> low c s (wr a v s).
Proof using. intros H1 H2. split; [|done..]. eapply mem_out_wide; [apply wr_out; unfold ka, EXTMEM, PHYSTOP in *; lia|lia..]. Qed.
Lemma wr16_low c a v s : KERNBASE <= a -> a + 2 <= KERNBASE + EXTMEM -> low c s (wr16 a v s).
Proof using. intros H1 H2. split; [|done..]. eapply mem_out_wide; [apply wr16_out; unfold ka, EXTMEM, PHYSTOP in *; lia|lia..]. Qed.
Lemma lapicstartap_run c id addr s : exists s', lapicstartap c id addr s = Ok (tt, s') /\ low c s s' /\ mem_out (KERNBASE + 0x467) (KERNBASE + 0x46b) s s' /\
  last (lsent (apic s' c)) = Some (u32 (Z.shiftl id 24), u32 (Z.lor STARTUP (Z.shiftr addr 12))).
Proof using.
  unfold lapicstartap. unfold outb. do 2 (erewrite bind_Ok; [|reflexivity]). cbv zeta. change (u32 (KERNBASE + Z.lor (Z.shiftl 0x40 4) 0x67)) with (KERNBASE + 0x467).
  set (s1 := mkMs _ _ _ _ _ _ _). rewrite !(bind_Ok _ _ _ _ _ (st16_wr _ _ _)). set (s2 := wr16 _ _ (wr16 _ _ s1)).
  assert (L2 : low c s s2 /\ mem_out (KERNBASE + 0x467) (KERNBASE + 0x46b) s s2).
  { split.
    - transitivity (wr16 (KERNBASE + 0x467) 0 s1); [transitivity s1; [by split|]|]; apply wr16_low; unfold EXTMEM; lia.
    - assert (M : mem_out (KERNBASE + 0x467) (KERNBASE + 0x46b) s1 s2); [|exact M].
      apply (mem_out_trans _ _ s1 (wr16 (KERNBASE + 0x467) 0 s1)); (eapply mem_out_wide; [apply wr16_out; unfold ka, PHYSTOP, KERNBASE; lia|lia..]). }
  destruct L2 as [L2 M2]. set (R := fun o : outcome (unit * mstate) => exists s', o = Ok (tt, s') /\ low c s s' /\ mem_out (KERNBASE + 0x467) (KERNBASE + 0x46b) s s' /\
    last (lsent (apic s' c)) = Some (u32 (Z.shiftl id 24), u32 (Z.lor STARTUP (Z.shiftr addr 12)))).
  match goal with |- exists s', ?o = _ /\ _ => change (R o) end. assert (H0 : at_chip c s2 (apic s2 c) s2) by (split; [reflexivity|done]).
  do 3 (eapply write_step; [exact H0|]; clear H0; intros ? H0). unfold mfor. change (seqZ 0 (2 - 0)) with [0; 1].
  cbn [mfor_list]. rewrite bind_assoc.
  do 2 (eapply write_step; [exact H0|]; clear H0; intros ? H0). rewrite bind_assoc.
  do 2 (eapply write_step; [exact H0|]; clear H0; intros ? H0). destruct H0 as [H0 Hch]. eexists. split; [reflexivity|]. split_and!.
  - transitivity s2; [done|]. destruct H0 as [V W X Y U]. split; [by intros x Hx; rewrite V|done|done| |by rewrite V].
    rewrite Hch. by repeat (rewrite lread_fixed by (auto || by vm_compute)).
  - eapply mem_out_trans; [exact M2|]. intros x _. by rewrite (co_vs _ _ _ H0).
  - rewrite Hch, lsent_command, last_snoc. by rewrite lread_written by (unfold lasting; repeat first [apply list_elem_of_here | apply list_elem_of_further]).
Qed.
Lemma kalloc_page s x l : frees kend (vs s) (x :: l) -> exists s', on_vm kalloc s = Ok (x, s') /\ page_ok kend x /\
  frees kend (vs s') l /\ pm (vs s') = pm (vs s) /\ regs s' = regs s /\ apic s' = apic s /\ lapicp s' = lapicp s /\ kpgdir s' = kpgdir s.
Proof using Him.
  intros Hf. assert (Hk : KERNBASE <= kend) by (pose proof (im_high Him); pose proof (im_end Him); unfold EXTMEM, SIZEOF_CPU, NCPU in *; lia).
  destruct (kalloc_run kend Hk _ _ Hf) as (v & E & Hm & Hl & Hp & _). exists (set_vs v s). unfold on_vm, zoom. rewrite E. by split_and!.
Qed.
(** The started processor finds its stack, its entry point and its page
    directory below the code. *)
Lemma entryother_run c i sp s : inr i -> numbered s ->
  rd s (p2v 0x7000 - 4) = sp -> rd s (p2v 0x7000 - 8) = mpenter_at -> exists s', entryother cpus idt mpenter_at i (p2v 0x7000) s = Ok (tt, s') /\
    up i sp s' /\ round c i s s' /\ freelist (vs s') = freelist (vs s).
Proof using Him.
  intros Hi Hn H1 H2. unfold entryother, cli, set_if. erewrite bind_Ok; [|reflexivity]. set (s1 := set_regs i _ s). rewrite (bind_Ok _ _ _ _ _ (ld_rd _ _)).
  unfold lcr3. erewrite bind_Ok; [|reflexivity]. set (s2 := set_regs i _ s1). rewrite (bind_Ok _ _ _ _ _ (ld_rd _ _)).
  unfold set_esp. erewrite bind_Ok; [|reflexivity]. set (s3 := set_regs i _ s2). rewrite (bind_Ok _ _ _ _ _ (ld_rd _ _)).
  change (rd s3 (p2v 0x7000 - 8)) with (rd s (p2v 0x7000 - 8)). rewrite H2, Z.eqb_refl.
  destruct (mpenter_run c i s3 Hi Hn) as (s' & E & HU & HR & HF). exists s'. split; [done|]. split.
  - unfold s3 in HU. rewrite regs_set in HU. cbn [esp] in HU. change (rd s2 (p2v 0x7000 - 4)) with (rd s (p2v 0x7000 - 4)) in HU. by rewrite H1 in HU.
  - split; [|done]. transitivity s3; [|done]. transitivity s2; [transitivity s1|]; apply round_regs.
Qed.
Lemma wait_run c i sp s : inr i -> numbered s -> rd s (slot i + CPU_STARTED) = 0 ->
  last (lsent (apic s c)) = Some (u32 (Z.shiftl i 24), u32 (Z.lor STARTUP (Z.shiftr (v2p (p2v 0x7000)) 12))) ->
  rd s (p2v 0x7000 - 4) = sp -> rd s (p2v 0x7000 - 8) = mpenter_at -> exists s', wait_started cpus idt mpenter_at 2 c i s = Ok (tt, s') /\
    up i sp s' /\ round c i s s' /\ freelist (vs s') = freelist (vs s).
Proof using Him.
  intros Hi Hn H0 Hc H1 H2. destruct (entryother_run c i sp s Hi Hn H1 H2) as (s' & E & HU & HR & HF). exists s'. split; [|done].
  cbn [wait_started]. rewrite (bind_Ok _ _ _ _ _ (ld_rd _ _)), H0, Z.eqb_refl.
  assert (Ho : other_cpu cpus idt mpenter_at c i s = Ok (tt, s')).
  { unfold other_cpu. erewrite bind_Ok; [|reflexivity]. rewrite Hc. change (u32 (Z.lor STARTUP (Z.shiftr (v2p (p2v 0x7000)) 12))) with 0x607.
    assert (Hto : Z.shiftr (u32 (Z.shiftl i 24)) 24 = i).
    { unfold inr, NCPU in Hi. rewrite Z.shiftl_mul_pow2 by lia. rewrite u32_small by lia. rewrite Z.shiftr_div_pow2 by lia. apply Z.div_mul. lia. }
    rewrite Hto, Z.eqb_refl. exact E. }
  rewrite (bind_Ok _ _ _ _ _ Ho), (bind_Ok _ _ _ _ _ (ld_rd _ _)), (up_started _ _ _ HU). done.
Qed.
Lemma start_cpu_run c i x l s : inr c -> inr i -> i <> c -> numbered s -> frees kend (vs s) (x :: l) -> rd s (slot i + CPU_STARTED) = 0 ->
  pm (vs s) (v2p (slot i)) = i -> exists s', start_cpu cpus idt mpenter_at entrypgdir_at c i s = Ok (tt, s') /\
    up i (x + KSTACKSIZE) s' /\ round c i s s' /\ frees kend (vs s') l /\ page_ok kend x.
Proof using Him.
  intros Hc Hi Hne Hn Hf H0 Hid. unfold start_cpu. rewrite (bind_Ok _ _ _ _ _ (cpunum_run c s Hc Hn)). destruct (Z.eqb_spec i c); [done|]. cbv zeta.
  destruct (kalloc_page s x l Hf) as (s1 & E1 & Hp & Hf1 & M1 & R1 & A1 & L1 & K1). rewrite (bind_Ok _ _ _ _ _ E1).
  assert (Q1 : round c i s s1) by (split; [by rewrite M1|by rewrite R1|by rewrite A1|by rewrite A1|done..]).
  rewrite !(bind_Ok _ _ _ _ _ (st_wr _ _ _)). change (p2v 0x7000) with (KERNBASE + 0x7000).
  set (s2 := wr (KERNBASE + 0x7000 - 12) _ _). erewrite bind_Ok; [|reflexivity]. cbv beta.
  assert (L2 : low c s1 s2) by (unfold s2; do 2 (etransitivity; [|apply wr_low; unfold EXTMEM; lia]); apply wr_low; unfold EXTMEM; lia).
  assert (W2 : rd s2 (KERNBASE + 0x7000 - 4) = x + KSTACKSIZE /\ rd s2 (KERNBASE + 0x7000 - 8) = mpenter_at).
  { unfold s2. split; rewrite !rd_wr_other by (unfold ka, PHYSTOP; lia); rewrite rd_wr_same; apply u32_small; [|apply Him].
    unfold page_ok, KERNBASE, PHYSTOP, KSTACKSIZE in *. lia. }
  assert (I2 : pm (vs s2) (v2p (slot i)) = i).
  { pose proof (cpu_ka cpus idt vectors image_layout i 0 4 Hi) as Hk. rewrite Z.add_0_r in Hk. rewrite (ka_v2p _ 4) in Hid |- * by (lia || apply Hk; unfold SIZEOF_CPU; lia).
    rewrite (lo_mem _ _ _ L2), M1; [done|]. pose proof (im_high Him). destruct (cpu_range cpus i Hi). lia. }
  rewrite I2. destruct (lapicstartap_run c i (v2p (KERNBASE + 0x7000)) s2) as (s3 & E3 & L3 & M3 & C3). rewrite (bind_Ok _ _ _ _ _ E3).
  assert (Q3 : round c i s s3) by (transitivity s1; [done|]; apply low_round; by transitivity s2).
  destruct (wait_run c i (x + KSTACKSIZE) s3) as (s4 & E4 & HU & HR & HF); try done.
  - by apply (round_numbered c i s s3).
  - rewrite <- H0. pose proof (cpu_ka cpus idt vectors image_layout i CPU_STARTED 4 Hi). apply rd_agree; [apply H1; unfold CPU_STARTED, SIZEOF_CPU; lia|].
    intros y Hy. pose proof (im_high Him). destruct (cpu_range cpus i Hi). rewrite (lo_mem _ _ _ L3), (lo_mem _ _ _ L2), M1; [done|unfold CPU_STARTED in *; lia..].
  - rewrite <- (proj1 W2). apply rd_agree; [unfold ka, PHYSTOP; change (p2v 0x7000) with (KERNBASE + 0x7000); lia|]. intros y Hy. apply M3. change (p2v 0x7000) with (KERNBASE + 0x7000) in *. lia.
  - rewrite <- (proj2 W2). apply rd_agree; [unfold ka, PHYSTOP; change (p2v 0x7000) with (KERNBASE + 0x7000); lia|]. intros y Hy. apply M3. change (p2v 0x7000) with (KERNBASE + 0x7000) in *. lia.
  - exists s4. split; [done|]. split; [done|]. split; [by transitivity s3|]. split; [|done].
    assert (Q : round c i s1 s4) by (transitivity s3; [apply low_round; by transitivity s2|done]). apply (round_frees c i s1 s4 Hi Q l); [|done].
    rewrite HF. destruct (lo_rest _ _ _ L3) as (_ & _ & ->). by destruct (lo_rest _ _ _ L2) as (_ & _ & ->).
Qed.

(** ** The loop *)
Definition waiting (c lo hi : Z) (s : mstate) : Prop :=
  forall j, lo <= j < hi -> j <> c -> rd s (slot j + CPU_STARTED) = 0 /\ pm (vs s) (v2p (slot j)) = j.
Record started (c lo hi : Z) (l l' : list Z) (stk : Z -> Z) (s : mstate) : Prop := mkStarted {
  sd_up : forall j, lo <= j < hi -> j <> c -> up j (stk j + KSTACKSIZE) s;
  sd_page : forall j, lo <= j < hi -> j <> c -> stk j ∈ l /\ stk j ∉ l';
  sd_apart : forall j k, lo <= j < hi -> lo <= k < hi -> j <> c -> k <> c -> stk j = stk k -> j = k;
  sd_free : frees kend (vs s) l' /\ l' ⊆ l }.
Lemma others_run c n : forall i s l, inr c -> 0 <= i -> i + Z.of_nat n <= NCPU -> numbered s -> idt_ok idt vectors s -> frees kend (vs s) l ->
  Z.of_nat n - (if decide (i <= c < i + Z.of_nat n) then 1 else 0) <= Z.of_nat (length l) -> waiting c i (i + Z.of_nat n) s ->
  exists s' l' stk, mfor i (i + Z.of_nat n) (start_cpu cpus idt mpenter_at entrypgdir_at c) s = Ok (tt, s') /\ started c i (i + Z.of_nat n) l l' stk s' /\
    idt_ok idt vectors s' /\ forall d sp, 0 <= d < i -> d <> c -> up d sp s -> up d sp s'.
Proof using Him.
  induction n as [|n IH]; intros i s l Hc Hi Hn Hnum Hidt Hf Hlen Hw.
  { exists s, l, (fun _ => 0). unfold mfor. rewrite seqZ_nil by lia. split; [done|]. split; [|by split]. split; [lia..|]. by split. }
  unfold mfor. rewrite seqZ_cons by lia. cbn [mfor_list]. replace (Z.pred (i + Z.of_nat (S n) - i)) with (Z.succ i + Z.of_nat n - Z.succ i) by lia.
  replace (i + Z.of_nat (S n)) with (Z.succ i + Z.of_nat n) in * by lia. destruct (decide (i = c)) as [->|Hne].
  - assert (E : start_cpu cpus idt mpenter_at entrypgdir_at c c s = Ok (tt, s)).
    { unfold start_cpu. rewrite (bind_Ok _ _ _ _ _ (cpunum_run c s Hc Hnum)). by rewrite Z.eqb_refl. }
    rewrite (bind_Ok _ _ _ _ _ E). destruct (IH (Z.succ c) s l) as (s' & l' & stk & E' & [S1 S2 S3 S4] & H2 & H3); try done; try lia.
    { repeat case_decide; lia. } { intros j Hj. apply Hw. lia. }
    exists s', l', stk. split; [exact E'|]. split; [split; [intros j Hj Hjc; apply S1; lia|intros j Hj Hjc; apply S2; lia|intros j k Hj Hk Hjc Hkc; apply S3; lia|done]|].
    split; [done|]. intros d sp Hd. apply H3. lia.
  - destruct l as [|x l]; [cbn in Hlen; case_decide; lia|]. destruct (Hw i) as [W1 W2]; [lia|done|]. assert (Hir : inr i) by (unfold inr; lia).
    destruct (start_cpu_run c i x l s) as (s1 & E1 & U1 & R1 & F1 & P1); try done. rewrite (bind_Ok _ _ _ _ _ E1).
    destruct (IH (Z.succ i) s1 l) as (s' & l' & stk & E' & [S1 S2 S3 [S4 S5]] & H2 & H3); try done; try lia.
    { by apply (round_numbered c i s s1). } { by apply (round_idt c i s s1). }
    { cbn [length] in Hlen. repeat case_decide; lia. }
    { intros j Hj Hjc. destruct (Hw j) as [V1 V2]; [lia|done|]. split.
      - rewrite (round_field c i s s1) by (done || unfold inr, CPU_STARTED, SIZEOF_CPU; lia). done.
      - rewrite (round_id c i s s1) by (done || unfold inr; lia). done. }
    exists s', l', (upd stk i x). split; [exact E'|]. split; [|split; [done|]].
    + assert (Hx : x ∉ l) by (destruct Hf as [_ Hnd]; by apply NoDup_cons in Hnd as [? _]). split.
      * intros j Hj Hjc. destruct (decide (j = i)) as [->|]; [rewrite upd_eq; apply H3; (done || lia)|rewrite upd_ne by done; apply S1; lia].
      * intros j Hj Hjc. destruct (decide (j = i)) as [->|]; [rewrite upd_eq; split; [by left|]; intros Hin; by apply Hx, S5|].
        rewrite upd_ne by done. destruct (S2 j ltac:(lia) Hjc). split; [by right|done].
      * intros j k Hj Hk Hjc Hkc. destruct (decide (j = i)) as [->|Hji], (decide (k = i)) as [->|Hki]; rewrite ?upd_eq, ?upd_ne by done; [done|..].
        -- intros ->. destruct (S2 k ltac:(lia) Hkc). done.
        -- intros <-. destruct (S2 j ltac:(lia) Hjc). done.
        -- apply S3; lia.
      * split; [done|]. intros y Hy. right. by apply S5.
    + intros d sp Hd Hdc HU. apply H3; [lia|done|]. apply (round_up c i s s1); (done || unfold inr; lia).
Qed.
End Up.

(** The boot page directory maps the first 4 MB of the kernel. *)
Lemma big_page_low va : KERNBASE <= va < KERNBASE + 0x400000 -> big_page entrypgdir va = Some (v2p va).
Proof.
  intros Hv. unfold big_page. rewrite PDX_spec by (unfold KERNBASE in *; lia).
  assert (va / 4096 / 1024 = 512) as -> by (unfold KERNBASE in *; Z.div_mod_to_equations; lia). change (entrypgdir 512) with 0x83.
  change (truthy (Z.land 0x83 PTE_P) && truthy (Z.land 0x83 PTE_PS)) with true. cbv iota. change (Z.land 0x83 0xFFC00000) with 0. rewrite page_v2p by (unfold PHYSTOP; lia).
  f_equal. unfold KERNBASE in *. Z.div_mod_to_equations. lia.
Qed.
(** The copy of the start-up code stays in low memory. *)
Lemma copy_code `{LocalApic} s start size : 0x7000 + Z.of_nat size <= EXTMEM -> exists s',
  on_vm (set_pm (fun m => memmove m (v2p (p2v 0x7000)) (v2p start) size)) s = Ok (tt, s') /\ mem_out KERNBASE (KERNBASE + EXTMEM) s s' /\
  regs s' = regs s /\ apic s' = apic s /\ lapicp s' = lapicp s /\ freelist (vs s') = freelist (vs s).
Proof.
  intros Hsz. eexists. split; [reflexivity|]. split; [|by split_and!]. intros x Hx. cbn. rewrite memmove_copies. change (v2p (p2v 0x7000)) with 0x7000.
  destruct (Z.leb_spec 0x7000 x), (Z.ltb_spec x (0x7000 + Z.of_nat size)); try done. lia.
Qed.
(** C27 Every processor comes up.  With the gates of [tvinit] in place,
    [startothers] returns, and each other processor has been started by a
    command of the boot processor's interrupt controller, has its own segment
    table and the shared gates loaded, runs in the kernel's address space on a
    page of its own taken from the free list, has its interrupt controller
    programmed, and has reported so; the stacks are distinct, no longer free,
    and lie where the boot page directory, which a processor starts with, maps
    them. *)
Theorem processors_come_up `{LocalApic} cpus idt vectors kend mpenter_at entrypgdir_at start size c ncpu l s :
  image cpus idt vectors kend mpenter_at -> 0 <= c < ncpu -> ncpu <= NCPU -> 0x7000 + Z.of_nat size <= EXTMEM ->
  numbered s -> frees kend (vs s) l -> (forall x, x ∈ l -> x + PGSIZE <= KERNBASE + 0x400000) -> ncpu - 1 <= Z.of_nat (length l) ->
  waiting cpus c 0 ncpu s ->
  exists s' l' stk, (tvinit idt vectors ;;; startothers cpus idt mpenter_at entrypgdir_at start size c ncpu) s = Ok (tt, s') /\
    started cpus idt kend c 0 ncpu l l' stk s' /\ idt_ok idt vectors s' /\
    forall j, 0 <= j < ncpu -> j <> c -> big_page entrypgdir (stk j + KSTACKSIZE - 4) = Some (v2p (stk j + KSTACKSIZE - 4)).
Proof.
  intros Him Hc Hn Hsz Hnum Hf Hl Hlen Hw. pose proof (im_layout _ _ _ _ _ Him) as L.
  destruct (tvinit_run cpus idt vectors L s) as (s1 & E1 & I1 & M1 & (R1 & A1 & P1 & D1 & F1)). rewrite (bind_Ok _ _ _ _ _ E1).
  destruct (copy_code s1 start size Hsz) as (s2 & E2 & M2 & R2 & A2 & P2 & F2). unfold startothers. cbv zeta. rewrite (bind_Ok _ _ _ _ _ E2).
  destruct (im_high _ _ _ _ _ Him) as [G1 G2]. destruct (im_end _ _ _ _ _ Him) as [G3 G4].
  assert (Hk : KERNBASE <= kend) by (unfold EXTMEM in *; lia).
  assert (Hmem : forall x, EXTMEM <= x -> ~ (idt - KERNBASE <= x < idt - KERNBASE + 8 * 256) -> pm (vs s2) x = pm (vs s) x) by (intros x Hx Hx2; rewrite M2 by lia; apply M1; lia).
  destruct (others_run cpus idt vectors kend mpenter_at entrypgdir_at Him c (Z.to_nat ncpu) 0 s2 l) as (s' & l' & stk & E & HS & HI & _); rewrite ?Z2Nat.id by lia.
  - unfold inr. lia.
  - lia.
  - lia.
  - destruct Hnum as [N1 N2]. split; [congruence|]. intros d Hd. rewrite A2, A1. by apply N2.
  - intros n Hn2. rewrite <- (I1 n Hn2). destruct L as [_ [L3 L4] _ _]. apply rd64_agree; [unfold ka; lia|]. intros x Hx. apply M2. lia.
  - destruct Hf as [Hch Hnd]. split; [|done]. rewrite F2, F1. eapply (free_agree kend Hk); [|exact Hch]. intros x a Hx Ha.
    destruct (free_pages kend Hk _ _ _ _ Hch Hx) as (_ & Hx2 & _). unfold in_page in Ha. apply Hmem; unfold EXTMEM in *; lia.
  - case_decide; lia.
  - intros j Hj Hjc. destruct (Hw j Hj Hjc) as [W1 W2]. assert (Hjr : inr j) by (unfold inr; lia). destruct (cpu_range cpus j Hjr) as [J1 J2].
    pose proof (lay_apart _ _ _ L) as La. split.
    + rewrite <- W1. pose proof (cpu_ka cpus idt vectors L j CPU_STARTED 4 Hjr). apply rd_agree; [apply H0; unfold CPU_STARTED, SIZEOF_CPU; lia|].
      intros x Hx. apply Hmem; unfold CPU_STARTED, SIZEOF_CPU, NCPU in *; lia.
    + rewrite <- W2 at 2. pose proof (cpu_ka cpus idt vectors L j 0 4 Hjr) as Hka. rewrite Z.add_0_r in Hka. rewrite (ka_v2p _ 4) by (lia || apply Hka; unfold SIZEOF_CPU; lia).
      apply Hmem; unfold SIZEOF_CPU, NCPU in *; lia.
  - rewrite Z2Nat.id in E, HS by lia. exists s', l', stk. split; [exact E|]. split; [exact HS|]. split; [exact HI|]. intros j Hj Hjc.
    destruct (sd_page _ _ _ _ _ _ _ _ _ _ HS j Hj Hjc) as [Hin _]. destruct Hf as [Hch _]. destruct (free_pages kend Hk _ _ _ _ Hch Hin) as (_ & _ & Hpg).
    pose proof (Hl _ Hin). apply big_page_low. unfold KSTACKSIZE, PGSIZE in *. lia.
Qed.

(** ** Witness: a machine with two processors *)
Definition kend_w : Z := KERNBASE + 0x230000.
Definition stack_w : Z := KERNBASE + 0x300000.
Definition boot_w : mstate :=
  mkMs plain_lapic (mkV (upd (fun _ => 0) (v2p (cpu_at cpus_w 1)) 1) stack_w)
    (fun _ => mkCreg (0, 0) (0, 0) 0 0 0 false 0) (fun c => (fun r => if r =? ID then Z.shiftl c 24 else 0, [])) 0xFEE00000 (KERNBASE + 0x3FF000) [].
Lemma image_w : image cpus_w idt_w vectors_w kend_w (KERNBASE + 0x101000).
Proof. split; [apply layout_w|unfold cpus_w, idt_w, kend_w, KERNBASE, EXTMEM, SIZEOF_CPU, NCPU; lia..]. Qed.
Lemma boot_w_frees : frees kend_w (vs boot_w) [stack_w].
Proof.
  split; [|by apply NoDup_singleton]. split; [done|]. split; [|by vm_compute].
  unfold page_ok, stack_w, kend_w, KERNBASE, PHYSTOP, PGSIZE. split; [by vm_compute|lia].
Qed.
Lemma processors_come_up_witness : exists s' l' stk,
  (tvinit idt_w vectors_w ;;; startothers cpus_w idt_w (KERNBASE + 0x101000) (KERNBASE + 0x102000) (KERNBASE + 0x103000) 16 0 2) boot_w = Ok (tt, s') /\
  stk 1 = stack_w /\ up cpus_w idt_w 1 (stack_w + KSTACKSIZE) s' /\ frees kend_w (vs s') l' /\ (stack_w ∉ l') /\
  big_page entrypgdir (stack_w + KSTACKSIZE - 4) = Some 0x300FFC.
Proof.
  destruct (processors_come_up cpus_w idt_w vectors_w kend_w (KERNBASE + 0x101000) (KERNBASE + 0x102000) (KERNBASE + 0x103000) 16 0 2 [stack_w] boot_w)
    as (s' & l' & stk & E & [S1 S2 S3 [S4 S5]] & _ & Hb).
  - apply image_w.
  - lia.
  - unfold NCPU. lia.
  - unfold EXTMEM. lia.
  - apply machine_w_booted.
  - apply boot_w_frees.
  - intros x Hx. apply list_elem_of_singleton in Hx as ->. unfold stack_w, PGSIZE. lia.
  - cbn. lia.
  - intros j Hj Hj0. assert (j = 1) as -> by lia. split; by vm_compute.
  - destruct (S2 1) as [H1 H2]; [lia|lia|]. apply list_elem_of_singleton in H1. rewrite H1 in H2. exists s', l', stk.
    split; [exact E|]. split; [exact H1|]. split; [rewrite <- H1; apply S1; lia|]. split; [exact S4|]. split; [exact H2|].
    specialize (Hb 1 ltac:(lia) ltac:(lia)). rewrite H1 in Hb. rewrite Hb. by vm_compute.
Defined.
