(* ===== verification/File.v ===== *)
(** * File: open files (src/src/file.c, pipealloc and pipeclose of src/src/pipe.c)

    A [struct file *] is an index into [ftable].  The kernel objects below it:
    the inode layer (Fs), the pipes (Pipe), each in a page from the allocator
    (Vm), found by the address of the page.  A call that would sleep does not
    return here ([OutOfFuel]); its wakeups are in Pipe. *)
From S2P Require Import Prelude CString Vm Fs Pipe.

Definition NFILE : Z := 100.
Inductive ftype := FD_NONE | FD_PIPE | FD_INODE.
#[export] Instance ftype_eq_dec : EqDecision ftype.
Proof. solve_decision. Defined.
Record file := mkFile {
  f_type : ftype; f_ref : Z; f_readable : Z; f_writable : Z; f_pipe : Z; f_ip : Z; f_off : Z }.
Definition with_fref (r : Z) (f : file) : file :=
  mkFile (f_type f) r (f_readable f) (f_writable f) (f_pipe f) (f_ip f) (f_off f).
Definition with_ftype (t : ftype) (f : file) : file :=
  mkFile t (f_ref f) (f_readable f) (f_writable f) (f_pipe f) (f_ip f) (f_off f).
Definition with_off (o : Z) (f : file) : file :=
  mkFile (f_type f) (f_ref f) (f_readable f) (f_writable f) (f_pipe f) (f_ip f) o.

Record filesys := mkFilesys { ftable : list file; fsys : fstate; pipes : Z -> pipe }.
Definition kfiles : Type := vstate * filesys.
Definition K : Type -> Type := M kfiles.
Definition in_vm {A} : V A -> K A := zoom fst (fun v s => (v, snd s)).
Definition in_fs {A} : F A -> K A :=
  zoom (fun s => fsys (snd s)) (fun x s => (fst s, mkFilesys (ftable (snd s)) x (pipes (snd s)))).
Definition pipe_at (p : Z) : K pipe := gets (fun s => pipes (snd s) p).
Definition set_pipe (p : Z) (x : pipe) : K unit :=
  modify (fun s => (fst s, mkFilesys (ftable (snd s)) (fsys (snd s)) (upd (pipes (snd s)) p x))).
Definition file_at (f : Z) : K file := fun s =>
  match (if f <? 0 then None else ftable (snd s) !! Z.to_nat f) with
  | Some x => Ok (x, s)
  | None => Fault
  end.
Definition set_file (f : Z) (g : file -> file) : K unit := fun s =>
  match (if f <? 0 then None else ftable (snd s) !! Z.to_nat f) with
  | Some x => Ok (tt, (fst s, mkFilesys (<[Z.to_nat f := g x]> (ftable (snd s))) (fsys (snd s)) (pipes (snd s))))
  | None => Fault
  end.

Section Kernel.
Context (kend : Z) (devsw : Z -> devops).

(** The loop of [filealloc] (lines 31-37). *)
Fixpoint first_unused (l : list file) (k : Z) : option Z :=
  match l with [] => None | f :: l' => if f_ref f =? 0 then Some k else first_unused l' (k + 1) end.
Definition filealloc : K (option Z) :=
  r <- gets (fun s => first_unused (ftable (snd s)) 0) ;;
  match r with
  | Some f => set_file f (with_fref 1) ;;; ret (Some f)
  | None => ret None
  end.
Definition filedup (f : Z) : K Z :=
  x <- file_at f ;;
  if f_ref x <? 1 then panic "filedup"
  else set_file f (with_fref (f_ref x + 1)) ;;; ret f.

(** *** pipe.c *)

(** The one segment of a call on pipe [p]. *)
Definition pipe_call (p : Z) (j : job) (killed : bool) : K seg :=
  x <- pipe_at p ;;
  let g := run_seg x (mkCaller j Runnable killed) in
  set_pipe p (s_pipe g) ;;; ret g.
Definition pipeclose (p : Z) (writable : Z) : K unit :=
  pipe_call p (Job_close (truthy writable)) false ;;;
  x <- pipe_at p ;;
  if negb (readopen x) && negb (writeopen x) then in_vm (kfree kend p) else ret tt.
Definition piperead (p n : Z) (killed : bool) : K (Z * list Z) :=
  g <- pipe_call p (Job_read (Z.to_nat n)) killed ;;
  match c_status (s_caller g) with
  | Returned r => ret (r, s_out g)
  | _ => fun _ => OutOfFuel
  end.
Definition pipewrite (p : Z) (l : list Z) (n : Z) (killed : bool) : K Z :=
  g <- pipe_call p (Job_write l n) killed ;;
  match c_status (s_caller g) with
  | Returned r => ret r
  | _ => fun _ => OutOfFuel
  end.

(** *** file.c *)
Definition fileclose (f : Z) : K unit :=
  x <- file_at f ;;
  if f_ref x <? 1 then panic "fileclose"
  else
    set_file f (with_fref (f_ref x - 1)) ;;;
    if f_ref x - 1 >? 0 then ret tt
    else
      set_file f (with_fref 0) ;;;
      set_file f (with_ftype FD_NONE) ;;;
      match f_type x with
      | FD_PIPE => pipeclose (f_pipe x) (f_writable x)
      | FD_INODE => in_fs begin_op ;;; in_fs (iput (f_ip x)) ;;; in_fs end_op
      | FD_NONE => ret tt
      end.
Definition filestat (f : Z) : K (option stat) :=
  x <- file_at f ;;
  match f_type x with
  | FD_INODE =>
      in_fs (ilock (f_ip x)) ;;;
      st <- in_fs (stati (f_ip x)) ;;
      in_fs (iunlock (f_ip x)) ;;;
      ret (Some st)
  | _ => ret None
  end.
Definition fileread (f n : Z) (killed : bool) : K (Z * list Z) :=
  x <- file_at f ;;
  if f_readable x =? 0 then ret (-1, [])
  else
    match f_type x with
    | FD_PIPE => piperead (f_pipe x) n killed
    | FD_INODE =>
        in_fs (ilock (f_ip x)) ;;;
        let* (r, l) := in_fs (readi devsw (f_ip x) (f_off x) (u32 n)) in
        (if r >? 0 then set_file f (with_off (u32 (f_off x + r))) else ret tt) ;;;
        in_fs (iunlock (f_ip x)) ;;;
        ret (r, l)
    | FD_NONE => panic "fileread"
    end.

(** [max] (line 132); [LOGSIZE] is 30. *)
Definition max_chunk : Z := ((30 - 1 - 1 - 2) / 2) * 512.
(** The loop of [filewrite] (lines 134-151): the final [i]. *)
Fixpoint filewrite_loop (fuel : nat) (f : Z) (addr : list Z) (n i : Z) : K Z :=
  match fuel with
  | O => fun _ => OutOfFuel
  | S fuel =>
      if i <? n then
        let n1 := Z.min (n - i) max_chunk in
        in_fs begin_op ;;;
        x <- file_at f ;;
        in_fs (ilock (f_ip x)) ;;;
        r <- in_fs (writei devsw (f_ip x) (take (Z.to_nat n1) (drop (Z.to_nat i) addr)) (f_off x)) ;;
        (if r >? 0 then set_file f (with_off (u32 (f_off x + r))) else ret tt) ;;;
        in_fs (iunlock (f_ip x)) ;;;
        in_fs end_op ;;;
        if r <? 0 then ret i
        else if negb (r =? n1) then panic "short filewrite"
        else filewrite_loop fuel f addr n (i + r)
      else ret i
  end.
(** [addr] is given by the [n] bytes there, none if [n] is negative. *)
Definition filewrite (f : Z) (addr : list Z) (n : Z) (killed : bool) : K Z :=
  x <- file_at f ;;
  if f_writable x =? 0 then ret (-1)
  else
    match f_type x with
    | FD_PIPE => pipewrite (f_pipe x) addr n killed
    | FD_INODE =>
        i <- filewrite_loop (S (length addr)) f addr n 0 ;;
        ret (if i =? n then n else -1)
    | FD_NONE => panic "filewrite"
    end.

(** *** pipealloc (pipe.c lines 21-56)

    The two descriptors, or [None] when it returns -1. *)
Definition pipealloc : K (option (Z * Z)) :=
  f0 <- filealloc ;;
  match f0 with
  | None => ret None
  | Some f0 =>
      f1 <- filealloc ;;
      match f1 with
      | None => fileclose f0 ;;; ret None
      | Some f1 =>
          p <- in_vm kalloc ;;
          if p =? 0 then fileclose f0 ;;; fileclose f1 ;;; ret None
          else
            junk <- gets (fun s => get_bytes (pm (fst s)) (v2p p + 52) PIPESIZE) ;;
            set_pipe p (pipe_init junk) ;;;
            set_file f0 (fun x => mkFile FD_PIPE (f_ref x) 1 0 p (f_ip x) (f_off x)) ;;;
            set_file f1 (fun x => mkFile FD_PIPE (f_ref x) 0 1 p (f_ip x) (f_off x)) ;;;
            ret (Some (f0, f1))
      end
  end.
End Kernel.
