(* ===== verification/FileFacts.v ===== *)
(** * FileFacts: writing through a descriptor (src/src/file.c) *)
From S2P Require Import Prelude CString Vm Fs FsFacts FsFile Pipe File FsWitness.

(** ** Running inode code from the file layer *)
Definition with_fs (x : fstate) (s : kfiles) : kfiles := (fst s, mkFilesys (ftable (snd s)) x (pipes (snd s))).
Lemma in_fs_Ok {A} (c : F A) s (a : A) x : c (fsys (snd s)) = Ok (a, x) -> in_fs c s = Ok (a, with_fs x s).
Proof. intros E. unfold in_fs, zoom. by rewrite E. Qed.
Lemma in_fs_Panic {A} (c : F A) s msg : c (fsys (snd s)) = Panic msg -> in_fs c s = Panic msg.
Proof. intros E. unfold in_fs, zoom. by rewrite E. Qed.
Lemma file_at_run s f x : ftable (snd s) !! f = Some x -> file_at (Z.of_nat f) s = Ok (x, s).
Proof.
  intros H. unfold file_at. destruct (Z.ltb_spec (Z.of_nat f) 0); [lia|]. by rewrite Nat2Z.id, H.
Qed.
Lemma set_file_run s f x g : ftable (snd s) !! f = Some x ->
  set_file (Z.of_nat f) g s =
  Ok (tt, (fst s, mkFilesys (<[f := g x]> (ftable (snd s))) (fsys (snd s)) (pipes (snd s)))).
Proof.
  intros H. unfold set_file. destruct (Z.ltb_spec (Z.of_nat f) 0); [lia|]. by rewrite Nat2Z.id, H.
Qed.

(** ** The lock of an inode *)

(** Entry [j] holds a valid inode that nobody has locked. *)
Record unlocked (s : fstate) (j : nat) (i : inode) : Prop := mkUnlocked {
  un_at : icache s !! j = Some i;
  un_ref : 1 <= i_ref i;
  un_valid : has_flag (i_flags i) I_VALID = true;
  un_free : has_flag (i_flags i) I_BUSY = false }.
Definition locked (i : inode) : inode := with_flags (Z.lor (i_flags i) I_BUSY) i.
Lemma set_inode_lookup s j f i : icache s !! j = Some i ->
  set_inode (Z.of_nat j) f s = Ok (tt, mkF (fdisk s) (<[j := f i]> (icache s)) (logged s)).
Proof.
  intros H. unfold set_inode. destruct (Z.ltb_spec (Z.of_nat j) 0); [lia|]. by rewrite Nat2Z.id, H.
Qed.
Lemma flag_bit f : has_flag f I_BUSY = Z.testbit f 0.
Proof. unfold has_flag, I_BUSY. change 1 with (2 ^ 0). rewrite land_bit by lia. by destruct (Z.testbit f 0). Qed.
Lemma flag_bit1 f : has_flag f I_VALID = Z.testbit f 1.
Proof. unfold has_flag, I_VALID. change 2 with (2 ^ 1). rewrite land_bit by lia. by destruct (Z.testbit f 1). Qed.

Lemma ilock_run s j i : unlocked s j i ->
  ilock (Z.of_nat j) s = Ok (tt, mkF (fdisk s) (<[j := locked i]> (icache s)) (logged s)).
Proof.
  intros [Hat Hr Hv Hb]. unfold ilock. rewrite (bind_Ok _ _ _ _ _ (inode_at_run s j i Hat)).
  destruct (Z.ltb_spec (i_ref i) 1); [lia|]. rewrite Hb.
  rewrite (bind_Ok _ _ _ _ _ (set_inode_lookup s j _ i Hat)). fold (locked i).
  erewrite bind_Ok; [|apply inode_at_run; cbn [icache]; apply list_lookup_insert_eq; by eapply lookup_lt_Some].
  assert (Hv' : has_flag (i_flags (locked i)) I_VALID = true).
  { cbn. rewrite flag_bit1 in *. by rewrite Z.lor_spec, Hv. }
  by rewrite Hv'.
Qed.
Lemma unlock_flags f : has_flag f I_BUSY = false -> Z.land (Z.lor f I_BUSY) (Z.lnot I_BUSY) = f.
Proof.
  rewrite flag_bit. intros H. apply Z.bits_inj'. intros n Hn. rewrite Z.land_spec, Z.lor_spec, Z.lnot_spec by lia.
  unfold I_BUSY. change 1 with (2 ^ 0). rewrite Z.pow2_bits_eqb by lia. destruct (Z.eqb_spec 0 n) as [<-|].
  - by rewrite H.
  - by rewrite orb_false_r, andb_true_r.
Qed.
Lemma iunlock_run s j i' fl : icache s !! j = Some i' -> 1 <= i_ref i' ->
  has_flag fl I_BUSY = false -> i_flags i' = Z.lor fl I_BUSY ->
  iunlock (Z.of_nat j) s = Ok (tt, mkF (fdisk s) (<[j := with_flags fl i']> (icache s)) (logged s)).
Proof.
  intros Hat Hr Hb Hf. unfold iunlock. rewrite (bind_Ok _ _ _ _ _ (inode_at_run s j i' Hat)).
  assert (Hl : has_flag (i_flags i') I_BUSY = true).
  { rewrite Hf, flag_bit, Z.lor_spec. unfold I_BUSY. by rewrite orb_comm. }
  rewrite Hl. destruct (Z.ltb_spec (i_ref i') 1); [lia|]. cbn [negb orb].
  rewrite (set_inode_lookup s j _ i' Hat). cbn. by rewrite Hf, unlock_flags.
Qed.
Lemma with_flags_at m v i l : at_loc m (with_flags v i) l = at_loc m i l.
Proof. by destruct l. Qed.
Lemma with_flags_byte m v i o : byte_at m (with_flags v i) o = byte_at m i o.
Proof. unfold byte_at. by rewrite with_flags_at. Qed.
Lemma with_flags_tree s c lg v i : tree_ok s i -> tree_ok (mkF (fdisk s) c lg) (with_flags v i).
Proof.
  intros [H1 H2 H3]. split; [done| |]; cbn [fdisk].
  - intros l l'. rewrite !with_flags_at. apply H2.
  - intros l. rewrite with_flags_at. exact (H3 l).
Qed.
Lemma fs_ok_disk s c lg : fs_ok s -> fs_ok (mkF (fdisk s) c lg).
Proof. intros [H1 H2]. by split. Qed.

(** Everything about an open file that a write relies on and restores. *)
Record open_file (s : fstate) (j : nat) (i : inode) : Prop := mkOpen {
  of_unlocked : unlocked s j i;
  of_fs : fs_ok s;
  of_tree : tree_ok s i;
  of_inode : inode_ok s i }.
(** The file has the bytes [f] and the size [n]. *)
Definition holds (s : fstate) (i : inode) (f : Z -> Z) (n : Z) : Prop :=
  i_size i = n /\ forall o, 0 <= o < MAXFILE * BSIZE -> byte_at (fdisk s) i o = f o.

(** A call of the log changes neither the files nor the table of inodes. *)
Definition with_log (e : log_event) (s : fstate) : fstate := mkF (fdisk s) (icache s) (logged s ++ [e]).
Lemma open_with_log e s j i : open_file s j i -> open_file (with_log e s) j i.
Proof.
  intros [[H1 H2 H3 H4] Hf [T1 T2 T3] Hi]. split; [by split | by apply fs_ok_disk | by split | done].
Qed.

(** One turn of the loop of [filewrite] on the inode, between [begin_op] and
    [end_op]. *)
Lemma write_chunk devsw s j i src off :
  open_file s j i -> 0 <= off <= i_size i -> off + Z.of_nat (length src) <= MAXFILE * BSIZE ->
  exists s1, ilock (Z.of_nat j) (with_log Ev_begin s) = Ok (tt, s1) /\
    (writei devsw (Z.of_nat j) src off s1 = Panic "balloc: out of blocks" \/
     exists s2 s3 i', writei devsw (Z.of_nat j) src off s1 = Ok (Z.of_nat (length src), s2) /\
       iunlock (Z.of_nat j) s2 = Ok (tt, s3) /\ open_file (with_log Ev_end s3) j i' /\
       holds s3 i' (splice (byte_at (fdisk s) i) off src) (Z.max (i_size i) (off + Z.of_nat (length src))) /\
       icache s3 = <[j := i']> (icache s)).
Proof.
  intros Hop Hoff Hmax. apply (open_with_log Ev_begin) in Hop. set (s0 := with_log Ev_begin s) in *.
  destruct Hop as [Hun Hfs Ht Hi]. pose proof Hun as [Hat Hr Hv Hb].
  pose proof (lookup_lt_Some _ _ _ Hat) as Hlt. eexists. split; [by apply ilock_run|].
  set (s1 := mkF _ _ _).
  assert (Hat1 : icache s1 !! j = Some (locked i)) by by apply list_lookup_insert_eq.
  destruct (writei_run devsw s1 j (locked i) src off) as [E|(s2 & i2 & E & Hfn & _)]; try done.
  { by apply fs_ok_disk. }
  { by apply with_flags_tree. }
  { by left. }
  right. destruct Hfn as [Fc Ff Ft (Fi & Fty & Fz) Fs Fb [Fr Ffl] _ _]. cbn in Fr, Ffl.
  assert (Hat2 : icache s2 !! j = Some i2).
  { rewrite Fc. apply list_lookup_insert_eq. unfold s1. cbn [icache]. by rewrite length_insert. }
  exists s2. eexists. exists (with_flags (i_flags i) i2). split; [done|].
  split; [apply (iunlock_run s2 j i2 (i_flags i) Hat2); [lia | done | done]|].
  split; [|split].
  - apply open_with_log. split.
    + split; [cbn [icache]; by eapply list_lookup_insert_eq, lookup_lt_Some | cbn; lia | done | done].
    + by apply fs_ok_disk.
    + by apply with_flags_tree.
    + done.
  - split; [by cbn|]. intros o Ho. cbn [fdisk]. rewrite with_flags_byte, Fb by done.
    unfold splice, locked. by rewrite with_flags_byte.
  - cbn [icache]. rewrite Fc. unfold s1. cbn [icache].
    by rewrite !list_insert_insert_eq.
Qed.

(** ** The loop of [filewrite] *)
Lemma holds_app s i f off l1 l2 g n : (forall o, 0 <= o < MAXFILE * BSIZE -> g o = splice f off l1 o) ->
  holds s i (splice g (off + Z.of_nat (length l1)) l2) n -> holds s i (splice f off (l1 ++ l2)) n.
Proof.
  intros Hg [Hn Hb]. split; [done|]. intros o Ho. rewrite Hb by done. rewrite <- splice_app.
  by apply splice_ext, Hg.
Qed.

(** The descriptor, the file and everything else after [l] was written. *)
Definition written (s : kfiles) (f : nat) (x : file) (j : nat) (i : inode) (l : list Z) (s' : kfiles) : Prop :=
  fst s' = fst s /\ pipes (snd s') = pipes (snd s) /\
  ftable (snd s') = <[f := with_off (f_off x + Z.of_nat (length l)) x]> (ftable (snd s)) /\
  exists i', open_file (fsys (snd s')) j i' /\ icache (fsys (snd s')) = <[j := i']> (icache (fsys (snd s))) /\
    holds (fsys (snd s')) i' (splice (byte_at (fdisk (fsys (snd s))) i) (f_off x) l)
      (Z.max (i_size i) (f_off x + Z.of_nat (length l))).

Lemma filewrite_loop_run devsw addr f j : forall fuel s x i i0,
  ftable (snd s) !! f = Some x -> f_ip x = Z.of_nat j -> open_file (fsys (snd s)) j i ->
  0 <= i0 <= Z.of_nat (length addr) -> 0 <= f_off x <= i_size i ->
  f_off x + (Z.of_nat (length addr) - i0) <= MAXFILE * BSIZE ->
  Z.of_nat (length addr) - i0 < Z.of_nat fuel ->
  filewrite_loop devsw fuel (Z.of_nat f) addr (Z.of_nat (length addr)) i0 s = Panic "balloc: out of blocks" \/
  exists s', filewrite_loop devsw fuel (Z.of_nat f) addr (Z.of_nat (length addr)) i0 s = Ok (Z.of_nat (length addr), s') /\
    written s f x j i (drop (Z.to_nat i0) addr) s'.
Proof.
  induction fuel as [|fuel IH]; intros s x i i0 Hf Hip Hop Hi0 Hoff Hmax Hfuel; [lia|].
  cbn [filewrite_loop]. destruct (Z.ltb_spec i0 (Z.of_nat (length addr))) as [Hlt|Hge].
  2:{ right. assert (Heq : i0 = Z.of_nat (length addr)) by lia. exists s. split; [by rewrite Heq|].
      rewrite Heq, Nat2Z.id, drop_all. do 2 (split; [done|]). cbn [length]. rewrite Z.add_0_r. split.
      { symmetry. apply list_insert_id. rewrite Hf. f_equal. by destruct x. }
      exists i. split; [done|]. split; [symmetry; apply list_insert_id, Hop|].
      split; [lia|]. intros o Ho. by rewrite splice_nil. }
  set (n1 := Z.min (Z.of_nat (length addr) - i0) max_chunk). set (rest := drop (Z.to_nat i0) addr).
  assert (Hrest : Z.of_nat (length rest) = Z.of_nat (length addr) - i0) by (unfold rest; rewrite length_drop; lia).
  assert (Hn1 : 0 < n1 <= Z.of_nat (length rest)) by (unfold n1; change max_chunk with 6656; lia).
  set (l1 := take (Z.to_nat n1) rest).
  assert (Hl1 : Z.of_nat (length l1) = n1) by (unfold l1; rewrite length_take; lia).
  set (s0 := with_fs (with_log Ev_begin (fsys (snd s))) s).
  erewrite bind_Ok; [|apply in_fs_Ok; reflexivity]. fold (with_log Ev_begin (fsys (snd s))). fold s0.
  rewrite (bind_Ok _ _ _ _ _ (file_at_run s0 f x Hf)), Hip.
  destruct (write_chunk devsw (fsys (snd s)) j i l1 (f_off x) Hop Hoff ltac:(lia))
    as (s1 & E1 & [E|(s2 & s3 & i3 & E2 & E3 & Hop3 & [Hz Hb] & Hc3)]).
  { left. rewrite (bind_Ok _ _ _ _ _ (in_fs_Ok _ s0 _ _ E1)). unfold M_bind at 1.
    by rewrite (in_fs_Panic _ (with_fs s1 s0) _ E). }
  rewrite (bind_Ok _ _ _ _ _ (in_fs_Ok _ s0 _ _ E1)).
  rewrite (bind_Ok _ _ _ _ _ (in_fs_Ok _ (with_fs s1 s0) _ _ E2)). rewrite Hl1.
  destruct (Z.gtb_spec n1 0); [|lia].
  assert (Hbig : MAXFILE * BSIZE = 8459776) by done. rewrite u32_small by lia.
  rewrite (bind_Ok _ _ _ _ _ (set_file_run (with_fs s2 (with_fs s1 s0)) f x _ Hf)).
  erewrite bind_Ok; [|apply in_fs_Ok; exact E3]. erewrite bind_Ok; [|apply in_fs_Ok; reflexivity].
  cbn [fst snd with_fs fsys ftable pipes]. fold (with_log Ev_end s3).
  destruct (Z.ltb_spec n1 0); [lia|]. rewrite Z.eqb_refl. cbn [negb].
  match goal with |- context [filewrite_loop _ _ _ _ _ _ ?t] => set (s4 := t) end. set (x4 := with_off (f_off x + n1) x).
  destruct (IH s4 x4 i3 (i0 + n1)) as [E|(s' & E & Hv & Hp & Htab & i' & Hop' & Hc' & Hh)].
  - cbn. by eapply list_lookup_insert_eq, lookup_lt_Some.
  - done.
  - done.
  - lia.
  - cbn. lia.
  - cbn. lia.
  - lia.
  - by left.
  - right. exists s'. split; [exact E|]. fold rest.
    assert (Hsplit : rest = l1 ++ drop (Z.to_nat (i0 + n1)) addr).
    { unfold l1. rewrite Z2Nat.inj_add by lia. rewrite <- drop_drop. fold rest. by rewrite take_drop. }
    assert (Hlen : Z.of_nat (length (drop (Z.to_nat (i0 + n1)) addr)) = Z.of_nat (length rest) - n1)
      by (rewrite Hsplit, length_app; lia).
    cbn in Hv, Hp, Htab, Hc', Hh, Hop'. split; [done|]. split; [done|]. split.
    { rewrite Htab, list_insert_insert_eq. f_equal. unfold with_off. cbn. f_equal. lia. }
    exists i'. split; [done|]. split; [by rewrite Hc', Hc3, list_insert_insert_eq|].
    rewrite Hsplit. apply (holds_app _ _ _ _ l1 _ (byte_at (fdisk s3) i3)); [done|].
    rewrite length_app, Hl1. destruct Hh as [Hn Hh]. split; [|done]. rewrite Hn, Hz. lia.
Qed.

(** Writing through a descriptor.  [filewrite] to a file that is open for
    writing either runs out of disk blocks (a panic) or writes all of [addr],
    whatever number of chunks it takes: the file holds [addr] at the
    descriptor's offset and its old bytes elsewhere, its size covers the
    write, the offset advances by the length, the inode is unlocked, and no
    other descriptor, inode-table entry or pipe changed. *)
Theorem filewrite_writes devsw s f x j i addr k :
  ftable (snd s) !! f = Some x -> f_type x = FD_INODE -> f_writable x <> 0 -> f_ip x = Z.of_nat j ->
  open_file (fsys (snd s)) j i -> 0 <= f_off x <= i_size i ->
  f_off x + Z.of_nat (length addr) <= MAXFILE * BSIZE ->
  filewrite devsw (Z.of_nat f) addr (Z.of_nat (length addr)) k s = Panic "balloc: out of blocks" \/
  exists s', filewrite devsw (Z.of_nat f) addr (Z.of_nat (length addr)) k s = Ok (Z.of_nat (length addr), s') /\
    written s f x j i addr s'.
Proof.
  intros Hf Hty Hw Hip Hop Hoff Hmax. unfold filewrite. rewrite (bind_Ok _ _ _ _ _ (file_at_run s f x Hf)).
  destruct (Z.eqb_spec (f_writable x) 0); [done|]. rewrite Hty.
  destruct (filewrite_loop_run devsw addr f j (S (length addr)) s x i 0) as [E|(s' & E & Hwr)];
    try done; try lia.
  - left. unfold M_bind. by rewrite E.
  - right. exists s'. rewrite (bind_Ok _ _ _ _ _ E), Z.eqb_refl. split; [done | exact Hwr].
Qed.

(** ** One descriptor on the small disk *)
Definition tiny_file : file := mkFile FD_INODE 1 1 1 0 0 0.
Definition tiny_sys : kfiles :=
  (mkV (fun _ => 0) 0, mkFilesys [tiny_file] tiny_empty (fun _ => pipe_init [])).
Lemma tiny_open : open_file (fsys (snd tiny_sys)) 0 (file_inode 0 1 no_addrs).
Proof.
  destruct tiny_meta as [Hm Hs]. split; [by split | by split | exact tiny_tree |].
  split; [by vm_compute|]. split; [done|]. by vm_compute.
Qed.
Lemma filewrite_writes_witness :
  exists s', filewrite no_devices 0 [7; 8; 9] 3 false tiny_sys = Ok (3, s') /\
    written tiny_sys 0 tiny_file 0 (file_inode 0 1 no_addrs) [7; 8; 9] s'.
Proof.
  destruct (filewrite_writes no_devices tiny_sys 0 tiny_file 0 (file_inode 0 1 no_addrs) [7; 8; 9] false)
    as [E|H].
  - reflexivity.
  - reflexivity.
  - done.
  - reflexivity.
  - exact tiny_open.
  - by vm_compute.
  - by vm_compute.
  - by vm_compute in E.
  - exact H.
Defined.

(** The count returned, and the transactions: the number of distinct blocks
    changed in each. *)
Fixpoint transactions (tr : list log_event) (cur : list Z) : list nat :=
  match tr with
  | [] => []
  | Ev_begin :: tr' => transactions tr' []
  | Ev_write b :: tr' => transactions tr' (b :: cur)
  | Ev_end :: tr' => length (remove_dups cur) :: transactions tr' []
  end.
Definition blocks_logged (o : outcome (Z * kfiles)) : option (Z * list nat) :=
  match o with
  | Ok (r, s) => Some (r, transactions (logged (fsys (snd s))) [])
  | _ => None
  end.

(** One chunk of [filewrite] can exceed the log's reservation: the chunk
    size is derived from the size of the whole log, so a write of 13 blocks to
    an empty file is one operation and modifies 16 distinct blocks (13 data
    blocks, the indirect block, the bitmap and the inode), while [begin_op]
    reserves 10. *)
Theorem filewrite_exceeds_reservation :
  exists s', filewrite no_devices 0 (replicate (Z.to_nat max_chunk) 7) max_chunk false tiny_sys = Ok (max_chunk, s') /\
    transactions (logged (fsys (snd s'))) [] = [16%nat].
Proof.
  assert (H : blocks_logged (filewrite no_devices 0 (replicate (Z.to_nat max_chunk) 7) max_chunk false tiny_sys)
              = Some (max_chunk, [16%nat])) by (vm_compute; reflexivity).
  destruct (filewrite _ _ _ _ _ _) as [[r s']| | |]; try discriminate H.
  injection H as -> Hn. by exists s'.
Qed.
