(* ===== verification/Proc.v ===== *)
(** * Proc: processes, the scheduler, sleep and wakeup (src/src/proc.c, src/src/spinlock.c)

    A [struct proc *] is an index into [ptable], the null pointer is [None].
    Code runs on a CPU, the argument [c].  A spin lock is held by a CPU; lock 0
    is [ptable.lock], and a lock that another CPU holds makes [acquire] spin,
    which does not return here ([OutOfFuel]).

    [swtch] stops the code of a process in the middle of [sched]; [pc] records
    which code that is, and what runs next when the scheduler switches back.
    So a call of [yield], [sleep], [wait] or [exit] runs here up to [sched] and
    on into the scheduler; [resume] is the rest of it. *)
From S2P Require Import Prelude CString Vm Fs Pipe File.

Definition NPROC : Z := 64.
Definition NOFILE : Z := 16.

(** ** proc.h *)
Inductive procstate := UNUSED | EMBRYO | SLEEPING | RUNNABLE | RUNNING | ZOMBIE.
#[export] Instance procstate_eq_dec : EqDecision procstate.
Proof. solve_decision. Defined.

(** Sleep channels are kernel addresses: of a process, or of something else. *)
Inductive channel := Ch_proc (p : Z) | Ch_addr (a : Z).
#[export] Instance channel_eq_dec : EqDecision channel.
Proof. solve_decision. Defined.

(** The kernel code a process is in: none of proc.c, one of the calls that are
    inside [sched] ([In_forkret] is a new process that never ran), [sleep]
    about to reacquire its lock, or [fork] after [allocproc]. *)
Inductive code :=
| Run | In_forkret | In_yield | In_sleep (lk : Z) | In_wait | In_exit
| Reacquire (lk : Z) | In_fork (np : Z).

Record trapframe := mkTf {
  tf_eax : Z; tf_es : Z; tf_ds : Z; tf_eip : Z; tf_cs : Z; tf_eflags : Z; tf_esp : Z; tf_ss : Z;
  tf_rest : list Z }.

Record proc := mkProc {
  sz : Z; pgdir : Z; kstack : Z; state : procstate; pid : Z; parent : option Z; tf : trapframe;
  pc : code; chan : option channel; killed : Z; ofile : list (option Z); cwd : option Z; name : list Z;
  saved_intena : bool }.
Definition set_sz x p := mkProc x (pgdir p) (kstack p) (state p) (pid p) (parent p) (tf p) (pc p) (chan p) (killed p) (ofile p) (cwd p) (name p) (saved_intena p).
Definition set_pgdir x p := mkProc (sz p) x (kstack p) (state p) (pid p) (parent p) (tf p) (pc p) (chan p) (killed p) (ofile p) (cwd p) (name p) (saved_intena p).
Definition set_kstack x p := mkProc (sz p) (pgdir p) x (state p) (pid p) (parent p) (tf p) (pc p) (chan p) (killed p) (ofile p) (cwd p) (name p) (saved_intena p).
Definition set_state x p := mkProc (sz p) (pgdir p) (kstack p) x (pid p) (parent p) (tf p) (pc p) (chan p) (killed p) (ofile p) (cwd p) (name p) (saved_intena p).
Definition set_pid x p := mkProc (sz p) (pgdir p) (kstack p) (state p) x (parent p) (tf p) (pc p) (chan p) (killed p) (ofile p) (cwd p) (name p) (saved_intena p).
Definition set_parent x p := mkProc (sz p) (pgdir p) (kstack p) (state p) (pid p) x (tf p) (pc p) (chan p) (killed p) (ofile p) (cwd p) (name p) (saved_intena p).
Definition set_tf x p := mkProc (sz p) (pgdir p) (kstack p) (state p) (pid p) (parent p) x (pc p) (chan p) (killed p) (ofile p) (cwd p) (name p) (saved_intena p).
Definition set_pc x p := mkProc (sz p) (pgdir p) (kstack p) (state p) (pid p) (parent p) (tf p) x (chan p) (killed p) (ofile p) (cwd p) (name p) (saved_intena p).
Definition set_chan x p := mkProc (sz p) (pgdir p) (kstack p) (state p) (pid p) (parent p) (tf p) (pc p) x (killed p) (ofile p) (cwd p) (name p) (saved_intena p).
Definition set_killed x p := mkProc (sz p) (pgdir p) (kstack p) (state p) (pid p) (parent p) (tf p) (pc p) (chan p) x (ofile p) (cwd p) (name p) (saved_intena p).
Definition set_ofile x p := mkProc (sz p) (pgdir p) (kstack p) (state p) (pid p) (parent p) (tf p) (pc p) (chan p) (killed p) x (cwd p) (name p) (saved_intena p).
Definition set_cwd x p := mkProc (sz p) (pgdir p) (kstack p) (state p) (pid p) (parent p) (tf p) (pc p) (chan p) (killed p) (ofile p) x (name p) (saved_intena p).
Definition set_name x p := mkProc (sz p) (pgdir p) (kstack p) (state p) (pid p) (parent p) (tf p) (pc p) (chan p) (killed p) (ofile p) (cwd p) x (saved_intena p).
Definition set_saved x p := mkProc (sz p) (pgdir p) (kstack p) (state p) (pid p) (parent p) (tf p) (pc p) (chan p) (killed p) (ofile p) (cwd p) (name p) x.

(** [IF] is the interrupt flag, [cr3] the page directory loaded (0: the
    kernel's), [at_] the variable [p] of the scheduler's inner loop while it is
    in it. *)
Record cpu := mkCpu { ncli : Z; intena : bool; IF : bool; cproc : option Z; cr3 : Z; at_ : option Z }.
Record kstate := mkK {
  procs : Z -> proc; initproc : option Z; nextpid : Z;
  locks : gmap Z nat; cpus : nat -> cpu; kern : kfiles }.
Definition set_procs f s := mkK (f (procs s)) (initproc s) (nextpid s) (locks s) (cpus s) (kern s).
Definition set_init x s := mkK (procs s) x (nextpid s) (locks s) (cpus s) (kern s).
Definition set_nextpid x s := mkK (procs s) (initproc s) x (locks s) (cpus s) (kern s).
Definition set_locks f s := mkK (procs s) (initproc s) (nextpid s) (f (locks s)) (cpus s) (kern s).
Definition set_cpu (c : nat) f s :=
  mkK (procs s) (initproc s) (nextpid s) (locks s)
    (fun d => if decide (d = c) then f (cpus s c) else cpus s d) (kern s).
Definition set_kern x s := mkK (procs s) (initproc s) (nextpid s) (locks s) (cpus s) x.
Definition set_proc (p : Z) f : kstate -> kstate := set_procs (fun t => upd t p (f (t p))).

Definition P : Type -> Type := M kstate.
Definition in_kern {A} : K A -> P A := zoom kern set_kern.
Definition spin {A} : P A := fun _ => OutOfFuel.

Section Machine.
Context (kend kdata : Z).

Section Cpu.
Context (c : nat).
Definition on_cpu (f : cpu -> cpu) : P unit := modify (set_cpu c f).
Definition the_cpu : P cpu := gets (fun s => cpus s c).
Definition on_proc (p : Z) (f : proc -> proc) : P unit := modify (set_proc p f).
Definition the_proc (p : Z) : P proc := gets (fun s => procs s p).
(** The current process; following a null [proc] faults. *)
Definition myproc : P Z := x <- the_cpu ;; of_option (cproc x).

(** ** spinlock.c *)
Definition pushcli : P unit :=
  on_cpu (fun x => mkCpu (ncli x + 1) (if ncli x =? 0 then IF x else intena x) false (cproc x) (cr3 x) (at_ x)).
Definition popcli : P unit :=
  x <- the_cpu ;;
  if IF x then panic "popcli - interruptible"
  else
    on_cpu (fun x => mkCpu (ncli x - 1) (intena x) (IF x) (cproc x) (cr3 x) (at_ x)) ;;;
    x <- the_cpu ;;
    if ncli x <? 0 then panic "popcli"
    else if (ncli x =? 0) && intena x
    then on_cpu (fun x => mkCpu (ncli x) (intena x) true (cproc x) (cr3 x) (at_ x))
    else ret tt.
Definition holding (lk : Z) : P bool := gets (fun s => bool_decide (locks s !! lk = Some c)).
Definition acquire (lk : Z) : P unit :=
  pushcli ;;;
  h <- holding lk ;;
  if h : bool then panic "acquire"
  else
    l <- gets (fun s => locks s !! lk) ;;
    match l with
    | Some _ => spin
    | None => modify (set_locks (insert lk c))
    end.
Definition release (lk : Z) : P unit :=
  h <- holding lk ;;
  if negb h then panic "release"
  else modify (set_locks (delete lk)) ;;; popcli.
Definition ptable_lock : Z := 0.

(** ** vm.c: the page table of a process *)
Definition switchuvm (p : Z) : P unit :=
  pushcli ;;;
  myproc ;;;
  x <- the_proc p ;;
  if pgdir x =? 0 then panic "switchuvm: no pgdir"
  else
    on_cpu (fun u => mkCpu (ncli u) (intena u) (IF u) (cproc u) (pgdir x) (at_ u)) ;;;
    popcli.
Definition switchkvm : P unit :=
  on_cpu (fun u => mkCpu (ncli u) (intena u) (IF u) (cproc u) 0 (at_ u)).

(** ** proc.c *)

(** The loop of [allocproc] (lines 41-43). *)
Definition table_order : list Z := seqZ 0 NPROC.
Definition first_in (f : proc -> bool) (t : Z -> proc) : option Z := find (fun p => f (t p)) table_order.
Definition is_state (st : procstate) (p : proc) : bool := bool_decide (state p = st).

Definition allocproc : P (option Z) :=
  acquire ptable_lock ;;;
  r <- gets (fun s => first_in (is_state UNUSED) (procs s)) ;;
  match r with
  | None => release ptable_lock ;;; ret None
  | Some p =>
      on_proc p (set_state EMBRYO) ;;;
      n <- gets nextpid ;;
      on_proc p (set_pid n) ;;;
      modify (set_nextpid (s32 (n + 1))) ;;;
      release ptable_lock ;;;
      k <- in_kern (in_vm kalloc) ;;
      on_proc p (set_kstack k) ;;;
      if k =? 0 then on_proc p (set_state UNUSED) ;;; ret None
      else on_proc p (set_pc In_forkret) ;;; ret (Some p)
  end.

(** Segment selectors and flags (mmu.h). *)
Definition USER_CS : Z := Z.lor (Z.shiftl 4 3) 3.
Definition USER_DS : Z := Z.lor (Z.shiftl 5 3) 3.
Definition FL_IF : Z := 0x200.
(** [initcode] is the program linked into the kernel. *)
Definition userinit (devsw : Z -> devops) (initcode : list Z) : P unit :=
  r <- allocproc ;;
  modify (set_init r) ;;;
  match r with
  | None => fault
  | Some p =>
      d <- in_kern (in_vm (setupkvm kdata)) ;;
      on_proc p (set_pgdir d) ;;;
      if d =? 0 then panic "userinit: out of memory?"
      else
        in_kern (in_vm (inituvm d initcode)) ;;;
        on_proc p (set_sz PGSIZE) ;;;
        on_proc p (set_tf (mkTf 0 USER_DS USER_DS 0 USER_CS FL_IF PGSIZE USER_DS [])) ;;;
        on_proc p (set_name [105; 110; 105; 116; 99; 111; 100; 101]) ;;;
        i <- in_kern (in_fs (namei devsw 0 [47])) ;;
        on_proc p (set_cwd i) ;;;
        on_proc p (set_state RUNNABLE)
  end.

Definition growproc (n : Z) : P Z :=
  me <- myproc ;;
  x <- the_proc me ;;
  r <- (if n >? 0 then in_kern (in_vm (allocuvm kend (pgdir x) (sz x) (u32 (sz x + n))))
        else if n <? 0 then in_kern (in_vm (deallocuvm kend (pgdir x) (sz x) (u32 (sz x + n))))
        else ret (sz x)) ;;
  if negb (n =? 0) && (r =? 0) then ret (-1)
  else on_proc me (set_sz r) ;;; switchuvm me ;;; ret 0.

(** [safestrcpy(np->name, proc->name, 16)]; a name is its characters before
    the NUL. *)
Definition copy_name (l : list Z) : list Z := take 15 l.

(** [fork] after [allocproc] returned [np] (lines 139-166). *)
Definition fork_rest (np : Z) : P Z :=
  me <- myproc ;;
  x <- the_proc me ;;
  d <- in_kern (in_vm (copyuvm kend kdata (pgdir x) (sz x))) ;;
  on_proc np (set_pgdir d) ;;;
  if d =? 0 then
    y <- the_proc np ;;
    in_kern (in_vm (kfree kend (kstack y))) ;;;
    on_proc np (set_kstack 0) ;;;
    on_proc np (set_state UNUSED) ;;;
    on_proc me (set_pc Run) ;;;
    ret (-1)
  else
    on_proc np (set_sz (sz x)) ;;;
    on_proc np (set_parent (Some me)) ;;;
    on_proc np (set_tf (mkTf 0 (tf_es (tf x)) (tf_ds (tf x)) (tf_eip (tf x)) (tf_cs (tf x)) (tf_eflags (tf x))
                         (tf_esp (tf x)) (tf_ss (tf x)) (tf_rest (tf x)))) ;;;
    mfor 0 NOFILE (fun i =>
      match nth (Z.to_nat i) (ofile x) None with
      | Some f =>
          g <- in_kern (filedup f) ;;
          on_proc np (fun y => set_ofile (<[Z.to_nat i := Some g]> (ofile y)) y)
      | None => ret tt
      end) ;;;
    w <- of_option (cwd x) ;;
    w' <- in_kern (in_fs (idup w)) ;;
    on_proc np (set_cwd (Some w')) ;;;
    on_proc np (set_name (copy_name (name x))) ;;;
    y <- the_proc np ;;
    acquire ptable_lock ;;;
    on_proc np (set_state RUNNABLE) ;;;
    release ptable_lock ;;;
    on_proc me (set_pc Run) ;;;
    ret (pid y).
(** Up to [allocproc] (lines 134-136); the rest runs as [fork_rest]. *)
Definition fork_begin : P (option Z) :=
  me <- myproc ;;
  r <- allocproc ;;
  match r with
  | None => ret (Some (-1))
  | Some np => on_proc me (set_pc (In_fork np)) ;;; ret None
  end.
Definition fork : P Z :=
  r <- allocproc ;;
  match r with None => ret (-1) | Some np => fork_rest np end.

Definition wake_one (ch : option channel) (x : proc) : proc :=
  if is_state SLEEPING x && bool_decide (chan x = ch) then set_state RUNNABLE x else x.
(** [wakeup1] with the lock held: every entry of the table once. *)
Definition in_table (p : Z) : bool := (0 <=? p) && (p <? NPROC).
Definition wakeup1 (ch : option channel) : P unit :=
  modify (set_procs (fun t p => if in_table p then wake_one ch (t p) else t p)).
Definition wakeup (ch : option channel) : P unit :=
  acquire ptable_lock ;;; wakeup1 ch ;;; release ptable_lock.

(** [sched], leaving the process in code [k], and back in the scheduler:
    lines 287-291. *)
Definition sched (k : code) : P unit :=
  h <- holding ptable_lock ;;
  if negb h then panic "sched ptable.lock"
  else
    x <- the_cpu ;;
    if negb (ncli x =? 1) then panic "sched locks"
    else
      me <- myproc ;;
      y <- the_proc me ;;
      if is_state RUNNING y then panic "sched running"
      else if IF x then panic "sched interruptible"
      else
        on_proc me (set_saved (intena x)) ;;;
        on_proc me (set_pc k) ;;;
        switchkvm ;;;
        on_cpu (fun u => mkCpu (ncli u) (intena u) (IF u) None (cr3 u) (Z.succ <$> at_ u)).

Definition yield : P unit :=
  acquire ptable_lock ;;;
  me <- myproc ;;
  on_proc me (set_state RUNNABLE) ;;;
  sched In_yield.

(** [sleep] up to [sched] (lines 353-373); [k] is [In_sleep lk], or [In_wait]
    when [wait] calls it. *)
Definition sleep_on (ch : option channel) (lk : option Z) (k : code) : P unit :=
  x <- the_cpu ;;
  match cproc x, lk with
  | None, _ => panic "sleep"
  | Some _, None => panic "sleep without lk"
  | Some me, Some lk =>
      (if negb (lk =? ptable_lock) then acquire ptable_lock ;;; release lk else ret tt) ;;;
      on_proc me (set_chan ch) ;;;
      on_proc me (set_state SLEEPING) ;;;
      sched k
  end.
Definition sleep (ch : option channel) (lk : Z) : P unit := sleep_on ch (Some lk) (In_sleep lk).

(** The loop of [exit] over the children (lines 200-206). *)
Definition adopt_one (me : Z) (p : Z) : P unit :=
  x <- the_proc p ;;
  if bool_decide (parent x = Some me) then
    i <- gets initproc ;;
    on_proc p (set_parent i) ;;;
    if is_state ZOMBIE x then wakeup1 (Ch_proc <$> i) else ret tt
  else ret tt.
Definition close_files (me : Z) : P unit :=
  mfor 0 NOFILE (fun fd =>
    x <- the_proc me ;;
    match nth (Z.to_nat fd) (ofile x) None with
    | Some f =>
        in_kern (fileclose kend f) ;;;
        on_proc me (fun y => set_ofile (<[Z.to_nat fd := None]> (ofile y)) y)
    | None => ret tt
    end).
Definition exit : P unit :=
  me <- myproc ;;
  i <- gets initproc ;;
  if bool_decide (i = Some me) then panic "init exiting"
  else
    close_files me ;;;
    x <- the_proc me ;;
    w <- of_option (cwd x) ;;
    in_kern (in_fs begin_op) ;;;
    in_kern (in_fs (iput w)) ;;;
    in_kern (in_fs end_op) ;;;
    on_proc me (set_cwd None) ;;;
    acquire ptable_lock ;;;
    x <- the_proc me ;;
    wakeup1 (Ch_proc <$> parent x) ;;;
    mfor 0 NPROC (adopt_one me) ;;;
    on_proc me (set_state ZOMBIE) ;;;
    sched In_exit.

(** The scan of [wait] (lines 226-244): [inl] of the entry of a zombie child,
    or [inr] whether there are children. *)
Fixpoint wait_scan (l : list Z) (t : Z -> proc) (me : Z) (havekids : bool) : Z + bool :=
  match l with
  | [] => inr havekids
  | p :: l' =>
      if bool_decide (parent (t p) = Some me) then
        if is_state ZOMBIE (t p) then inl p else wait_scan l' t me true
      else wait_scan l' t me havekids
  end.
(** One turn of the loop of [wait], with the lock held: the value returned, or
    [None] when the caller goes to sleep. *)
Definition wait_turn : P (option Z) :=
  me <- myproc ;;
  r <- gets (fun s => wait_scan table_order (procs s) me false) ;;
  match r with
  | inl p =>
      x <- the_proc p ;;
      in_kern (in_vm (kfree kend (kstack x))) ;;;
      on_proc p (set_kstack 0) ;;;
      in_kern (in_vm (freevm kend (pgdir x))) ;;;
      on_proc p (set_state UNUSED) ;;;
      on_proc p (set_pid 0) ;;;
      on_proc p (set_parent None) ;;;
      on_proc p (set_name []) ;;;
      on_proc p (set_killed 0) ;;;
      release ptable_lock ;;;
      on_proc me (set_pc Run) ;;;
      ret (Some (pid x))
  | inr havekids =>
      x <- the_proc me ;;
      if negb havekids || negb (killed x =? 0) then
        release ptable_lock ;;;
        on_proc me (set_pc Run) ;;;
        ret (Some (-1))
      else
        sleep_on (Some (Ch_proc me)) (Some ptable_lock) In_wait ;;;
        ret None
  end.
Definition wait : P (option Z) := acquire ptable_lock ;;; wait_turn.

Definition kill (n : Z) : P Z :=
  acquire ptable_lock ;;;
  r <- gets (fun s => first_in (fun x => pid x =? n) (procs s)) ;;
  match r with
  | Some p =>
      on_proc p (set_killed 1) ;;;
      on_proc p (fun x => if is_state SLEEPING x then set_state RUNNABLE x else x) ;;;
      release ptable_lock ;;;
      ret 0
  | None => release ptable_lock ;;; ret (-1)
  end.

(** ** Coming back from the scheduler *)

(** The end of [sched] (line 315), in a process the scheduler switched to. *)
Definition sched_return (me : Z) : P unit :=
  x <- the_proc me ;;
  on_cpu (fun u => mkCpu (ncli u) (saved_intena x) (IF u) (cproc u) (cr3 u) (at_ u)).
Definition resume (me : Z) : P unit :=
  x <- the_proc me ;;
  match pc x with
  | In_forkret => release ptable_lock ;;; on_proc me (set_pc Run)
  | In_yield => sched_return me ;;; release ptable_lock ;;; on_proc me (set_pc Run)
  | In_sleep lk =>
      sched_return me ;;;
      on_proc me (set_chan None) ;;;
      if negb (lk =? ptable_lock)
      then release ptable_lock ;;; on_proc me (set_pc (Reacquire lk))
      else on_proc me (set_pc Run)
  | In_wait => sched_return me ;;; on_proc me (set_chan None) ;;; wait_turn ;;; ret tt
  | In_exit => sched_return me ;;; panic "zombie exit"
  | Run | Reacquire _ | In_fork _ => fault
  end.
(** The end of [sleep] (line 381). *)
Definition reacquire (lk : Z) : P unit :=
  me <- myproc ;; acquire lk ;;; on_proc me (set_pc Run).

(** The top of the scheduler's outer loop (lines 272-275). *)
Definition scheduler_top : P unit :=
  on_cpu (fun u => mkCpu (ncli u) (intena u) true (cproc u) (cr3 u) (at_ u)) ;;;
  acquire ptable_lock ;;;
  on_cpu (fun u => mkCpu (ncli u) (intena u) (IF u) (cproc u) (cr3 u) (Some 0)).
(** One turn of the inner loop, at entry [p] (lines 276-293), with the process
    switched to up to the end of its critical section. *)
Definition scheduler_turn (p : Z) : P unit :=
  if p >=? NPROC then
    release ptable_lock ;;;
    on_cpu (fun u => mkCpu (ncli u) (intena u) (IF u) (cproc u) (cr3 u) None)
  else
    x <- the_proc p ;;
    if negb (is_state RUNNABLE x) then
      on_cpu (fun u => mkCpu (ncli u) (intena u) (IF u) (cproc u) (cr3 u) (Some (p + 1)))
    else
      on_cpu (fun u => mkCpu (ncli u) (intena u) (IF u) (Some p) (cr3 u) (Some p)) ;;;
      switchuvm p ;;;
      on_proc p (set_state RUNNING) ;;;
      resume p.

(** ** Interleaving

    What CPU [c] does next: a turn of the scheduler, a call by the process it
    runs, an interrupt handler's [wakeup], another spin lock, or a change of
    the interrupt flag by a trap.  An interrupt handler may hold locks while
    the scheduler waits; it is done when the scheduler goes on. *)
Inductive action :=
| Top | Turn | Fork | Fork_rest | Exit | Wait | Yield | Sleep (ch : Z) (lk : Z) | Sleep_end
| Wakeup (ch : Z) | Kill (n : Z) | Grow (n : Z) | Lock (lk : Z) | Unlock (lk : Z) | Set_IF (b : bool).

(** Where the CPU is. *)
Definition idle (s : kstate) : Prop := cproc (cpus s c) = None /\ at_ (cpus s c) = None.
Definition scanning (s : kstate) (p : Z) : Prop := cproc (cpus s c) = None /\ at_ (cpus s c) = Some p.
Definition running (s : kstate) (k : code) : Prop :=
  exists p, cproc (cpus s c) = Some p /\ pc (procs s p) = k.

Inductive act : action -> kstate -> kstate -> Prop :=
| act_top s s' : idle s -> ncli (cpus s c) = 0 -> scheduler_top s = Ok (tt, s') -> act Top s s'
| act_turn s s' p : scanning s p -> scheduler_turn p s = Ok (tt, s') -> act Turn s s'
| act_fork s s' r : running s Run -> fork_begin s = Ok (r, s') -> act Fork s s'
| act_fork_rest s s' np r : running s (In_fork np) -> fork_rest np s = Ok (r, s') -> act Fork_rest s s'
| act_exit s s' : running s Run -> exit s = Ok (tt, s') -> act Exit s s'
| act_wait s s' r : running s Run -> wait s = Ok (r, s') -> act Wait s s'
| act_yield s s' : running s Run -> yield s = Ok (tt, s') -> act Yield s s'
| act_sleep s s' ch lk : running s Run -> lk <> ptable_lock ->
    sleep (Some (Ch_addr ch)) lk s = Ok (tt, s') -> act (Sleep ch lk) s s'
| act_sleep_end s s' lk : running s (Reacquire lk) -> reacquire lk s = Ok (tt, s') -> act Sleep_end s s'
| act_wakeup s s' ch : wakeup (Some (Ch_addr ch)) s = Ok (tt, s') -> act (Wakeup ch) s s'
| act_kill s s' n r : running s Run -> kill n s = Ok (r, s') -> act (Kill n) s s'
| act_grow s s' n r : running s Run -> growproc n s = Ok (r, s') -> act (Grow n) s s'
| act_lock s s' lk : lk <> ptable_lock -> acquire lk s = Ok (tt, s') -> act (Lock lk) s s'
| act_unlock s s' lk : lk <> ptable_lock -> release lk s = Ok (tt, s') -> act (Unlock lk) s s'
| act_if s b : ncli (cpus s c) = 0 ->
    act (Set_IF b) s (set_cpu c (fun u => mkCpu (ncli u) (intena u) b (cproc u) (cr3 u) (at_ u)) s).

End Cpu.

Definition kstep (s s' : kstate) : Prop := exists c a, act c a s s'.
End Machine.
