(* ===== verification/ProcTable.v ===== *)
(** * ProcTable: what the process table always satisfies, and the changes that keep it *)
From S2P Require Import Prelude Proc.

Definition in_tab (p : Z) : Prop := 0 <= p < NPROC.
Definition alive (x : proc) : Prop := state x = SLEEPING \/ state x = RUNNABLE \/ state x = RUNNING.
Definition born (x : proc) : Prop := alive x \/ state x = ZOMBIE.
#[export] Instance alive_dec x : Decision (alive x).
Proof. unfold alive. apply _. Defined.
#[export] Instance born_dec x : Decision (born x).
Proof. unfold born. apply _. Defined.

(** A process asleep in [wait]. *)
Definition in_wait (x : proc) : Prop := state x = SLEEPING /\ pc x = In_wait.
Definition forking (x : proc) (np : Z) : Prop := state x = RUNNING /\ pc x = In_fork np.
Definition child (t : Z -> proc) (p q : Z) : Prop := in_tab q /\ parent (t q) = Some p.

Record table_ok (i : option Z) (t : Z -> proc) : Prop := mkTable {
  (** init is alive and has no parent *)
  to_init : exists k, i = Some k /\ in_tab k /\ alive (t k) /\ parent (t k) = None;
  (** nobody is its own parent *)
  to_self : forall p, ~ child t p p;
  (** parents are alive, children are born *)
  to_parent : forall p q, child t p q -> in_tab p /\ alive (t p) /\ born (t q);
  (** every process but init has a parent *)
  to_child : forall q, in_tab q -> born (t q) -> i = Some q \/ exists p, child t p q;
  (** who sleeps in [wait] sleeps on itself, is not killed, has a child, and
      no child of it is a zombie *)
  to_wait : forall p, in_tab p -> in_wait (t p) ->
    chan (t p) = Some (Ch_proc p) /\ killed (t p) = 0 /\ (exists q, child t p q) /\
    forall q, child t p q -> state (t q) <> ZOMBIE;
  (** the entry a [fork] is filling in belongs to it alone *)
  to_fork : forall p np, in_tab p -> forking (t p) np -> in_tab np /\ state (t np) = EMBRYO;
  to_fork_inj : forall p p' np, in_tab p -> in_tab p' -> forking (t p) np -> forking (t p') np -> p = p' }.

(** What the table says about an entry. *)
Definition view (x : proc) : procstate * option Z * code * option channel * Z :=
  (state x, parent x, pc x, chan x, killed x).
Definition same_table (t t' : Z -> proc) : Prop := forall p, view (t' p) = view (t p).
#[export] Instance same_table_equiv : Equivalence same_table.
Proof.
  split; [by intros t p | by intros t t' H p | intros a b d H1 H2 p; by rewrite H2].
Qed.

Lemma view_fields x y : view y = view x ->
  state y = state x /\ parent y = parent x /\ pc y = pc x /\ chan y = chan x /\ killed y = killed x.
Proof. unfold view. by intros [= -> -> -> -> ->]. Qed.
Lemma view_alive x y : view y = view x -> alive y <-> alive x.
Proof. unfold view, alive. intros [= -> _ _ _ _]. done. Qed.
Lemma view_born x y : view y = view x -> born y <-> born x.
Proof. unfold view, born, alive. intros [= -> _ _ _ _]. done. Qed.
Lemma view_child t t' p q : same_table t t' -> child t' p q <-> child t p q.
Proof. intros H. unfold child. specialize (H q). unfold view in H. injection H as _ -> _ _ _. done. Qed.
Lemma view_in_wait x y : view y = view x -> in_wait y <-> in_wait x.
Proof. unfold view, in_wait. intros [= -> _ -> _ _]. done. Qed.
Lemma view_forking x y np : view y = view x -> forking y np <-> forking x np.
Proof. unfold view, forking. intros [= -> _ -> _ _]. done. Qed.

#[export] Instance table_ok_proper : Proper (eq ==> same_table ==> iff) table_ok.
Proof.
  intros i ? <-. assert (Hone : forall t t', same_table t t' -> table_ok i t -> table_ok i t').
  { intros t t' H [H1 H0 H2 H3 H4 H5 H6]. split.
    - destruct H1 as (k & Hk & Ht & Ha & Hpn). exists k. rewrite (view_alive (t k)) by done.
      destruct (view_fields _ _ (H k)) as (_ & -> & _). done.
    - intros p. rewrite (view_child t t') by done. apply H0.
    - intros p q Hc. rewrite (view_child t t') in Hc by done.
      rewrite (view_alive (t p)), (view_born (t q)) by done. by apply H2.
    - intros q Hq Hb. rewrite (view_born (t q)) in Hb by done.
      destruct (H3 q Hq Hb) as [|[p Hp]]; [by left | right; exists p; by rewrite (view_child t t')].
    - intros p Hp Hw. rewrite (view_in_wait (t p)) in Hw by done.
      destruct (H4 p Hp Hw) as (Hch & Hk & [q Hq] & Hz).
      destruct (view_fields _ _ (H p)) as (_ & _ & _ & Ec & Ek). split; [congruence|]. split; [congruence|]. split; [exists q; by rewrite (view_child t t')|].
      intros q' Hq'. rewrite (view_child t t') in Hq' by done. 
      destruct (view_fields _ _ (H q')) as (-> & _). by apply Hz.
    - intros p np Hp Hf. rewrite (view_forking (t p)) in Hf by done.
      destruct (H5 p np Hp Hf).
      destruct (view_fields _ _ (H np)) as (Es & _). split; [done | congruence].
    - intros p p' np Hp Hp' Hf Hf'. rewrite (view_forking (t p)) in Hf by done.
      rewrite (view_forking (t p')) in Hf' by done. by apply (H6 p p' np). }
  intros t t' H. split; apply Hone; [done | by symmetry].
Qed.

(** ** Changes of one entry *)
Section One.
Context (i : option Z) (t : Z -> proc) (p : Z) (y : proc).
Hypothesis (Hok : table_ok i t).
Let t' := upd t p y.

Lemma upd_child : parent y = parent (t p) -> forall a q, child t' a q <-> child t a q.
Proof using All.
  intros Hp a q. unfold child, t'. destruct (decide (q = p)) as [->|Hne].
  - by rewrite upd_eq, Hp.
  - by rewrite upd_ne.
Qed.
Lemma not_fork_target : in_tab p -> state (t p) <> EMBRYO -> forall q np, in_tab q -> forking (t q) np -> np <> p.
Proof using All. intros Hp Hs q np Hq Hf ->. by destruct (to_fork _ _ Hok q p Hq Hf). Qed.

(** A living process goes on living. *)
Lemma alive_step : in_tab p -> alive (t p) -> alive y -> parent y = parent (t p) ->
  (in_wait y -> chan y = Some (Ch_proc p) /\ killed y = 0 /\ (exists q, child t p q) /\
    forall q, child t p q -> state (t q) <> ZOMBIE) ->
  (forall np, forking y np -> in_tab np /\ state (t np) = EMBRYO /\
    forall q, in_tab q -> q <> p -> ~ forking (t q) np) ->
  table_ok i t'.
Proof using All.
  intros Hp Ha Hy Hpar Hw Hf. pose proof Hok as [H1 H0 H2 H3 H4 H5 H6].
  assert (Hc := upd_child Hpar).
  assert (Hal : forall q, alive (t' q) <-> alive (t q)).
  { intros q. unfold t'. destruct (decide (q = p)) as [->|]; [by rewrite upd_eq | by rewrite upd_ne]. }
  assert (Hbo : forall q, born (t' q) <-> born (t q)).
  { intros q. unfold t'. destruct (decide (q = p)) as [->|]; [|by rewrite upd_ne].
    rewrite upd_eq. unfold born. tauto. }
  assert (Hst : forall q, state (t' q) = ZOMBIE -> state (t q) = ZOMBIE).
  { intros q. unfold t'. destruct (decide (q = p)) as [->|]; [|by rewrite upd_ne].
    rewrite upd_eq. destruct Hy as [->|[->| ->]]; discriminate. }
  assert (Hemb : forall q, state (t q) = EMBRYO -> state (t' q) = EMBRYO).
  { intros q Hq. unfold t'. destruct (decide (q = p)) as [->|]; [|by rewrite upd_ne].
    destruct Ha as [Ha|[Ha|Ha]]; congruence. }
  split.
  - destruct H1 as (k & Hk & Hin & Hl & Hn). exists k. rewrite Hal. do 3 (split; [done|]).
    unfold t'. destruct (decide (k = p)) as [->|]; [by rewrite upd_eq, Hpar | by rewrite upd_ne].
  - intros a. rewrite Hc. apply H0.
  - intros a q. rewrite Hc, Hal, Hbo. apply H2.
  - intros q Hq. rewrite Hbo. intros Hb. destruct (H3 q Hq Hb) as [|[a Hq']]; [by left|].
    right. exists a. by rewrite Hc.
  - intros a Hin Hwa. unfold t' in Hwa. destruct (decide (a = p)) as [->|Hne].
    + rewrite upd_eq in Hwa. destruct (Hw Hwa) as (W1 & W2 & [q Hq] & W3).
      unfold t' at 1 2. rewrite upd_eq. do 2 (split; [done|]). split; [exists q; by rewrite Hc|].
      intros q' Hq'. rewrite Hc in Hq'. intros Hz. apply (W3 q' Hq'). by apply Hst.
    + rewrite upd_ne in Hwa by done. destruct (H4 a Hin Hwa) as (W1 & W2 & [q Hq] & W3).
      unfold t' at 1 2. rewrite upd_ne by done. do 2 (split; [done|]). split; [exists q; by rewrite Hc|].
      intros q' Hq'. rewrite Hc in Hq'. intros Hz. apply (W3 q' Hq'). by apply Hst.
  - intros a np Hin Hfa. unfold t' in Hfa. destruct (decide (a = p)) as [->|Hne].
    + rewrite upd_eq in Hfa. destruct (Hf np Hfa) as (? & He & _). split; [done | by apply Hemb].
    + rewrite upd_ne in Hfa by done. destruct (H5 a np Hin Hfa). split; [done | by apply Hemb].
  - intros a b np Hin Hin' Hfa Hfb. unfold t' in Hfa, Hfb.
    destruct (decide (a = p)) as [->|Hne], (decide (b = p)) as [->|Hne'];
      rewrite ?upd_eq, ?upd_ne in Hfa by done; rewrite ?upd_eq, ?upd_ne in Hfb by done; try done.
    + by destruct (Hf np Hfa) as (_ & _ & Hn); edestruct (Hn b).
    + by destruct (Hf np Hfb) as (_ & _ & Hn); edestruct (Hn a).
    + by apply (H6 a b np).
Qed.

(** An entry that is not asleep in [wait] changes in nothing that matters. *)
Lemma inert_step : state y = state (t p) -> parent y = parent (t p) -> pc y = pc (t p) -> ~ in_wait (t p) ->
  table_ok i t'.
Proof using All.
  intros Hs Hpar Hpc Hw. pose proof Hok as [H1 H0 H2 H3 H4 H5 H6].
  assert (Hst : forall q, state (t' q) = state (t q) /\ parent (t' q) = parent (t q) /\ pc (t' q) = pc (t q)).
  { intros q. unfold t'. destruct (decide (q = p)) as [->|]; [by rewrite upd_eq | by rewrite upd_ne]. }
  assert (Hc := upd_child Hpar).
  assert (Hal : forall q, alive (t' q) <-> alive (t q)) by (intros q; unfold alive; by rewrite !(proj1 (Hst q))).
  assert (Hbo : forall q, born (t' q) <-> born (t q)) by (intros q; unfold born; by rewrite Hal, (proj1 (Hst q))).
  assert (Hwa : forall q, in_wait (t' q) -> in_wait (t q) /\ t' q = t q).
  { intros q Hq. assert (Hq' : in_wait (t q)) by (unfold in_wait in *; by destruct (Hst q) as (<- & _ & <-)).
    split; [done|]. apply upd_ne. by intros ->. }
  assert (Hfo : forall q np, forking (t' q) np <-> forking (t q) np).
  { intros q np. unfold forking. by destruct (Hst q) as (-> & _ & ->). }
  split.
  - destruct H1 as (k & Hk & Hin & Hl & Hn). exists k. rewrite Hal. by destruct (Hst k) as (_ & -> & _).
  - intros a. rewrite Hc. apply H0.
  - intros a q. rewrite Hc, Hal, Hbo. apply H2.
  - intros q Hq. rewrite Hbo. intros Hb. destruct (H3 q Hq Hb) as [|[a Ha]]; [by left|]. right. exists a. by rewrite Hc.
  - intros a Ha [Hw1 E]%Hwa. rewrite E. destruct (H4 a Ha Hw1) as (W1 & W2 & [q Hq] & W3).
    do 2 (split; [done|]). split; [exists q; by rewrite Hc|]. intros q'. rewrite Hc, (proj1 (Hst q')). apply W3.
  - intros a np Ha. rewrite Hfo, (proj1 (Hst np)). by apply H5.
  - intros a b np Ha Hb. rewrite !Hfo. by apply H6.
Qed.
End One.

(** ** Waking *)
Definition calmer (x y : proc) : Prop := y = x \/ (state x = SLEEPING /\ y = set_state RUNNABLE x).
Lemma calmer_alive x y : calmer x y -> (alive y <-> alive x).
Proof. intros [->|[H ->]]; [done|]. unfold alive. cbn. rewrite H. tauto. Qed.
Lemma calmer_state x y st : calmer x y -> st <> SLEEPING -> st <> RUNNABLE -> (state y = st <-> state x = st).
Proof. intros [->|[H ->]] ? ?; [done|]. cbn. rewrite H. split; congruence. Qed.
Lemma calmer_parent x y : calmer x y -> parent y = parent x.
Proof. by intros [->|[H ->]]. Qed.
Lemma calmer_born x y : calmer x y -> (born y <-> born x).
Proof. intros H. unfold born. by rewrite (calmer_alive x y), (calmer_state x y) by done. Qed.
Lemma calmer_in_wait x y : calmer x y -> in_wait y -> y = x.
Proof. intros [->|[H ->]]; [done|]. intros [H' _]. discriminate H'. Qed.
Lemma calmer_forking x y np : calmer x y -> (forking y np <-> forking x np).
Proof. intros [->|[H ->]]; [done|]. unfold forking. cbn. rewrite H. split; intros [? _]; discriminate. Qed.
Lemma calmer_child t t' p q : (forall a, calmer (t a) (t' a)) -> (child t' p q <-> child t p q).
Proof. intros H. unfold child. by rewrite (calmer_parent (t q)). Qed.

Lemma wake_step i t t' : table_ok i t -> (forall p, calmer (t p) (t' p)) -> table_ok i t'.
Proof.
  intros [H1 H0 H2 H3 H4 H5 H6] H. split.
  - destruct H1 as (k & Hk & Hin & Hl & Hn). exists k.
    rewrite (calmer_alive (t k)), (calmer_parent (t k)) by done. done.
  - intros a. rewrite (calmer_child t t') by done. apply H0.
  - intros a q. rewrite (calmer_child t t'), (calmer_alive (t a)), (calmer_born (t q)) by done. apply H2.
  - intros q Hq. rewrite (calmer_born (t q)) by done. intros Hb.
    destruct (H3 q Hq Hb) as [|[a Ha]]; [by left|]. right. exists a. by rewrite (calmer_child t t').
  - intros a Hin Hw. pose proof (calmer_in_wait _ _ (H a) Hw) as E. rewrite E in *.
    destruct (H4 a Hin Hw) as (W1 & W2 & [q Hq] & W3). do 2 (split; [done|]).
    split; [exists q; by rewrite (calmer_child t t')|].
    intros q' Hq'. rewrite (calmer_child t t') in Hq' by done.
    rewrite (calmer_state (t q')) by done. by apply W3.
  - intros a np Hin. rewrite (calmer_forking (t a)) by done. intros Hf.
    rewrite (calmer_state (t np)) by done. by apply (H5 a).
  - intros a b np Ha Hb. rewrite (calmer_forking (t a) (t' a)), (calmer_forking (t b) (t' b)) by done. by apply H6.
Qed.
Lemma wake_one_calmer ch x : calmer x (wake_one ch x).
Proof.
  unfold wake_one, is_state. destruct (bool_decide_reflect (state x = SLEEPING)); cbn [andb]; [|by left].
  case_bool_decide; [by right | by left].
Qed.
(** Nobody is left sleeping on the channel. *)
Lemma wake_one_awake ch x : state (wake_one ch x) = SLEEPING -> chan (wake_one ch x) <> ch.
Proof.
  unfold wake_one, is_state. destruct (bool_decide_reflect (state x = SLEEPING)); cbn [andb]; [|done].
  case_bool_decide; [discriminate | done].
Qed.

(** ** Birth, death and adoption *)
Section Life.
Context (i : option Z) (t : Z -> proc) (p : Z) (y : proc).
Hypothesis (Hok : table_ok i t) (Hin : in_tab p).
Let t' := upd t p y.

Lemma unborn_no_parent : ~ born (t p) -> parent (t p) = None.
Proof using All.
  intros Hb. destruct (parent (t p)) as [a|] eqn:E; [|done].
  destruct (to_parent _ _ Hok a p); [by split | tauto].
Qed.

Lemma unborn_step : ~ born (t p) -> ~ born y -> parent y = parent (t p) ->
  (state y <> EMBRYO -> forall q, in_tab q -> ~ forking (t q) p) -> table_ok i t'.
Proof using All.
  intros Hb Hy Hpar Hemb. pose proof Hok as [H1 H0 H2 H3 H4 H5 H6].
  assert (Hc := upd_child i t p y Hok Hpar). fold t' in Hc.
  assert (Hne : forall q, born (t q) -> t' q = t q).
  { intros q Hq. apply upd_ne. by intros ->. }
  assert (Hbo : forall q, born (t' q) -> born (t q)).
  { intros q. unfold t'. destruct (decide (q = p)) as [->|]; [by rewrite upd_eq | by rewrite upd_ne]. }
  assert (Hal : forall q, alive (t q) -> t' q = t q) by (intros q Hq; apply Hne; by left).
  split.
  - destruct H1 as (k & Hk & Hk' & Hl & Hn). exists k. by rewrite Hal.
  - intros a. rewrite Hc. apply H0.
  - intros a q. rewrite Hc. intros Hq. destruct (H2 a q Hq) as (A1 & A2 & A3). by rewrite Hal, Hne.
  - intros q Hq Hb'. destruct (H3 q Hq (Hbo q Hb')) as [|[a Ha]]; [by left|]. right. exists a. by rewrite Hc.
  - intros a Ha Hw. assert (Hb' : born (t a)) by (apply Hbo; left; left; apply Hw).
    rewrite (Hne a) in * by done. destruct (H4 a Ha Hw) as (W1 & W2 & [q Hq] & W3).
    do 2 (split; [done|]). split; [exists q; by rewrite Hc|].
    intros q' Hq'. rewrite Hc in Hq'. destruct (H2 a q' Hq') as (_ & _ & Hbq). rewrite (Hne q') by done. by apply W3.
  - intros a np Ha Hf. assert (Hb' : born (t a)) by (apply Hbo; left; right; right; apply Hf).
    rewrite (Hne a) in Hf by done. destruct (H5 a np Ha Hf) as [Hn He]. split; [done|].
    unfold t'. destruct (decide (np = p)) as [->|]; [|by rewrite upd_ne]. rewrite upd_eq.
    destruct (decide (state y = EMBRYO)) as [|Hs]; [done|]. by destruct (Hemb Hs a Ha).
  - intros a b np Ha Hb1 Hf Hf'.
    assert (Hba : born (t a)) by (apply Hbo; left; right; right; apply Hf).
    assert (Hbb : born (t b)) by (apply Hbo; left; right; right; apply Hf').
    rewrite Hne in Hf, Hf' by done. by apply (H6 a b np).
Qed.

(** A new process [p] with a living parent [me]. *)
Lemma birth_step me : ~ born (t p) -> state y = RUNNABLE -> parent y = Some me -> in_tab me -> alive (t me) ->
  ~ in_wait (t me) -> (forall q, in_tab q -> ~ forking (t q) p) -> table_ok i t'.
Proof using All.
  intros Hb Hy Hpar Hme Hal Hnw Hnf. pose proof Hok as [H1 H0 H2 H3 H4 H5 H6].
  pose proof (unborn_no_parent Hb) as Hnone.
  assert (Hne : forall q, born (t q) -> t' q = t q) by (intros q Hq; apply upd_ne; by intros ->).
  assert (Hne' : forall q, alive (t q) -> t' q = t q) by (intros q Hq; apply Hne; by left).
  assert (Hcq : forall a q, q <> p -> child t' a q <-> child t a q).
  { intros a q Hq. unfold child, t'. by rewrite upd_ne. }
  assert (Hcp : forall a, child t' a p <-> a = me).
  { intros a. unfold child, t'. rewrite upd_eq, Hpar. split; [by intros [_ [=]] | by intros ->]. }
  assert (Hmep : me <> p) by (intros ->; apply Hb; by left).
  split.
  - destruct H1 as (k & Hk & Hk' & Hl & Hn). exists k. by rewrite Hne'.
  - intros a Ha. destruct (decide (a = p)) as [->|Hap]; [by apply Hcp in Ha | by apply (H0 a), Hcq].
  - intros a q Hq. destruct (decide (q = p)) as [->|Hqp].
    + apply Hcp in Hq as ->. rewrite Hne' by done. split; [done|]. split; [done|].
      unfold t'. rewrite upd_eq. left. right. by left.
    + apply Hcq in Hq; [|done]. destruct (H2 a q Hq) as (A1 & A2 & A3). by rewrite Hne', Hne.
  - intros q Hq Hbq. destruct (decide (q = p)) as [->|Hqp]; [right; exists me; by apply Hcp|].
    unfold t' in Hbq. rewrite upd_ne in Hbq by done.
    destruct (H3 q Hq Hbq) as [|[a Ha]]; [by left|]. right. exists a. by apply Hcq.
  - intros a Ha Hw. assert (Hap : a <> p).
    { intros ->. unfold t' in Hw. rewrite upd_eq in Hw. destruct Hw as [Hw _]. congruence. }
    assert (Ht : t' a = t a) by (by apply upd_ne). rewrite Ht in *.
    destruct (H4 a Ha Hw) as (W1 & W2 & [q Hq] & W3). do 2 (split; [done|]).
    assert (Hqp : forall q, child t a q -> q <> p).
    { intros r [_ Hr] ->. congruence. }
    split; [exists q; apply Hcq; [by apply Hqp | done]|].
    intros q' Hq'. destruct (decide (q' = p)) as [->|Hne1].
    { apply Hcp in Hq' as ->. done. }
    unfold t'. rewrite upd_ne by done. apply W3. by apply Hcq in Hq'.
  - intros a np Ha Hf. assert (Hap : a <> p).
    { intros ->. unfold t' in Hf. rewrite upd_eq in Hf. destruct Hf as [Hf _]. congruence. }
    unfold t' in Hf. rewrite upd_ne in Hf by done. destruct (H5 a np Ha Hf) as [Hn He]. split; [done|].
    unfold t'. rewrite upd_ne; [done|]. intros ->. by apply (Hnf a Ha).
  - intros a b np Ha Hb1 Hf Hf'. unfold t' in Hf, Hf'.
    assert (Hnp : forall q, forking (upd t p y q) np -> q <> p).
    { intros q Hq ->. rewrite upd_eq in Hq. destruct Hq as [Hq _]. congruence. }
    rewrite upd_ne in Hf by (by apply Hnp). rewrite upd_ne in Hf' by (by apply Hnp). by apply (H6 a b np).
Qed.

(** Child [p] of [me] passes to init. *)
Lemma adopt_step me k : i = Some k -> parent (t p) = Some me -> ~ in_wait (t me) ->
  (state (t p) = ZOMBIE -> ~ in_wait (t k)) -> y = set_parent i (t p) -> table_ok i t'.
Proof using All.
  intros Hk Hpar Hnw Hz ->. pose proof Hok as [H1 H0 H2 H3 H4 H5 H6].
  destruct H1 as (k' & Hk' & Hkin & Hkal & Hkn). assert (k' = k) as -> by congruence.
  assert (Hkp : k <> p) by congruence.
  assert (Hcp : forall a, child t' a p <-> a = k).
  { intros a. unfold child, t'. rewrite upd_eq. cbn. rewrite Hk. split; [by intros [_ [=]] | by intros ->]. }
  assert (Hcq : forall a q, q <> p -> child t' a q <-> child t a q).
  { intros a q Hq. unfold child, t'. by rewrite upd_ne. }
  assert (Hst : forall q, state (t' q) = state (t q) /\ pc (t' q) = pc (t q) /\ chan (t' q) = chan (t q) /\
                          killed (t' q) = killed (t q)).
  { intros q. unfold t'. destruct (decide (q = p)) as [->|]; [by rewrite upd_eq | by rewrite upd_ne]. }
  assert (Hal : forall q, alive (t' q) <-> alive (t q)).
  { intros q. unfold alive. by rewrite !(proj1 (Hst q)). }
  assert (Hbo : forall q, born (t' q) <-> born (t q)).
  { intros q. unfold born. by rewrite Hal, (proj1 (Hst q)). }
  assert (Hwa : forall q, in_wait (t' q) <-> in_wait (t q)).
  { intros q. unfold in_wait. by destruct (Hst q) as (-> & -> & _). }
  assert (Hfo : forall q np, forking (t' q) np <-> forking (t q) np).
  { intros q np. unfold forking. by destruct (Hst q) as (-> & -> & _). }
  split.
  - exists k. rewrite Hal. do 3 (split; [done|]). unfold t'. by rewrite upd_ne.
  - intros a Ha. destruct (decide (a = p)) as [->|Hap]; [by apply Hcp in Ha | by apply (H0 a), Hcq].
  - intros a q Hq. rewrite Hal, Hbo. destruct (decide (q = p)) as [->|Hqp].
    + apply Hcp in Hq as ->. destruct (H2 me p) as (_ & _ & ?); done.
    + apply H2. by apply Hcq in Hq.
  - intros q Hq. rewrite Hbo. intros Hb. destruct (decide (q = p)) as [->|Hqp]; [right; exists k; by apply Hcp|].
    destruct (H3 q Hq Hb) as [|[a Ha]]; [by left|]. right. exists a. by apply Hcq.
  - intros a Ha. rewrite Hwa. intros Hw. destruct (Hst a) as (_ & _ & -> & ->).
    destruct (H4 a Ha Hw) as (W1 & W2 & [q Hq] & W3). do 2 (split; [done|]).
    assert (Hqp : forall q, child t a q -> q <> p) by (intros r [_ Hr] ->; congruence).
    split; [exists q; apply Hcq; [by apply Hqp | done]|]. intros q' Hq'. rewrite (proj1 (Hst q')).
    destruct (decide (q' = p)) as [->|Hne]; [|apply W3; by apply Hcq in Hq'].
    apply Hcp in Hq' as ->. intros Hzo. by apply Hz.
  - intros a np Ha. rewrite Hfo, (proj1 (Hst np)). by apply H5.
  - intros a b np Ha Hb. rewrite !Hfo. by apply H6.
Qed.

(** A living process becomes a zombie. *)
Lemma zombie_step : alive (t p) -> state y = ZOMBIE -> parent y = parent (t p) -> i <> Some p ->
  (forall q, ~ child t p q) -> (forall a, parent (t p) = Some a -> ~ in_wait (t a)) -> table_ok i t'.
Proof using All.
  intros Hal Hy Hpar Hi Hnc Hnw. pose proof Hok as [H1 H0 H2 H3 H4 H5 H6].
  assert (Hc := upd_child i t p y Hok Hpar). fold t' in Hc.
  assert (Hne : forall q, q <> p -> t' q = t q) by (intros; by apply upd_ne).
  assert (Hz : state (t' p) = ZOMBIE) by (unfold t'; by rewrite upd_eq).
  split.
  - destruct H1 as (k & Hk & Hkin & Hkal). exists k. rewrite Hne by congruence. done.
  - intros a. rewrite Hc. apply H0.
  - intros a q Hq. apply Hc in Hq. destruct (H2 a q Hq) as (A1 & A2 & A3).
    rewrite (Hne a) by (intros ->; by apply (Hnc q)). do 2 (split; [done|]).
    destruct (decide (q = p)) as [->|]; [by right | by rewrite Hne].
  - intros q Hq Hb. assert (Hbq : born (t q)).
    { destruct (decide (q = p)) as [->|]; [by left | by rewrite Hne in Hb]. }
    destruct (H3 q Hq Hbq) as [|[a Ha]]; [by left|]. right. exists a. by apply Hc.
  - intros a Ha Hw. assert (Hap : a <> p) by (intros ->; destruct Hw; congruence). rewrite Hne in * by done.
    destruct (H4 a Ha Hw) as (W1 & W2 & [q Hq] & W3). do 2 (split; [done|]).
    split; [exists q; by apply Hc|]. intros q' Hq'. apply Hc in Hq'.
    destruct (decide (q' = p)) as [->|]; [|rewrite Hne by done; by apply W3].
    destruct Hq' as [_ Hq']. by apply Hnw in Hq'.
  - intros a np Ha Hf. assert (Hap : a <> p) by (intros ->; destruct Hf; congruence). rewrite Hne in Hf by done.
    destruct (H5 a np Ha Hf) as [Hn He]. rewrite Hne; [done|]. intros ->. destruct Hal as [?|[?|?]]; congruence.
  - intros a b np Ha Hb Hf Hf'.
    rewrite Hne in Hf by (intros ->; destruct Hf; congruence).
    rewrite Hne in Hf' by (intros ->; destruct Hf'; congruence). by apply (H6 a b np).
Qed.

(** A zombie child of [me] is removed. *)
Lemma reap_step me : state (t p) = ZOMBIE -> state y = UNUSED -> parent y = None ->
  parent (t p) = Some me -> ~ in_wait (t me) -> table_ok i t'.
Proof using All.
  intros Hs Hy Hpar Hme Hnw. pose proof Hok as [H1 H0 H2 H3 H4 H5 H6].
  assert (Hne : forall q, q <> p -> t' q = t q) by (intros; by apply upd_ne).
  assert (Hp : t' p = y) by (unfold t'; by rewrite upd_eq).
  assert (Hnb : ~ born (t' p)) by (rewrite Hp; unfold born, alive; rewrite Hy; naive_solver).
  assert (Hdead : ~ alive (t p)) by (unfold alive; rewrite Hs; naive_solver).
  assert (Hc : forall a q, child t' a q <-> q <> p /\ child t a q).
  { intros a q. unfold child. destruct (decide (q = p)) as [->|Hq]; [|rewrite Hne by done; tauto].
    rewrite Hp, Hpar. naive_solver. }
  split.
  - destruct H1 as (k & Hk & Hkin & Hkal & Hkn). exists k. rewrite Hne by (by intros ->). done.
  - intros a [Ha Hch]%Hc. by apply (H0 a).
  - intros a q [Hq Hch]%Hc. destruct (H2 a q Hch) as (A1 & A2 & A3).
    rewrite (Hne a) by (by intros ->). by rewrite Hne.
  - intros q Hq Hb. assert (Hqp : q <> p) by (by intros ->). rewrite Hne in Hb by done.
    destruct (H3 q Hq Hb) as [|[a Ha]]; [by left|]. right. exists a. by apply Hc.
  - intros a Ha Hw. assert (Hap : a <> p) by (intros ->; apply Hnb; left; left; apply Hw).
    rewrite Hne in * by done. destruct (H4 a Ha Hw) as (W1 & W2 & [q Hq] & W3). do 2 (split; [done|]).
    assert (Hqp : forall q, child t a q -> q <> p) by (intros r [_ Hr] ->; congruence).
    split; [exists q; apply Hc; split; [by apply Hqp | done]|].
    intros q' [Hq' Hch]%Hc. rewrite Hne by done. by apply W3.
  - intros a np Ha Hf. assert (Hap : a <> p) by (intros ->; apply Hnb; left; right; right; apply Hf).
    rewrite Hne in Hf by done. destruct (H5 a np Ha Hf) as [Hn He]. rewrite Hne; [done|]. congruence.
  - intros a b np Ha Hb Hf Hf'.
    rewrite Hne in Hf by (intros ->; apply Hnb; left; right; right; apply Hf).
    rewrite Hne in Hf' by (intros ->; apply Hnb; left; right; right; apply Hf'). by apply (H6 a b np).
Qed.
End Life.
