(* ===== verification/ProcFacts.v ===== *)
(** * ProcFacts: what each call of proc.c does to the process table, the CPUs and ptable.lock *)
From S2P Require Import Prelude CString Vm Fs Pipe File Proc ProcTable.

(** ** What single steps do *)

(** The code a CPU is in. *)
Definition loc (s : kstate) (d : nat) : option Z * option Z := (cproc (cpus s d), at_ (cpus s d)).
(** [s'] has the process table and the CPUs of [s], and [l] for the holder of
    [ptable.lock]. *)
Record lock_change (s s' : kstate) (l l' : option nat) : Prop := mkLc {
  lc_procs : procs s' = procs s;
  lc_init : initproc s' = initproc s;
  lc_loc : forall d, loc s' d = loc s d;
  lc_before : locks s !! ptable_lock = l;
  lc_after : locks s' !! ptable_lock = l' }.

(** The number of locks CPU [c] holds. *)
Definition held (s : kstate) (c : nat) : Z := Z.of_nat (size (filter (fun e : Z * nat => e.2 = c) (locks s))).
(** [pushcli] depth counts the locks held, and interrupts are off under a lock. *)
Definition locks_ok (s : kstate) : Prop :=
  forall c, ncli (cpus s c) = held s c /\ (0 < ncli (cpus s c) -> IF (cpus s c) = false).

(** Symbolic execution: split a run into its steps, oldest state last. *)
Lemma gets_inv {S A} (f : S -> A) s a s' : gets f s = Ok (a, s') -> a = f s /\ s' = s.
Proof. by intros [= <- <-]. Qed.
Lemma ret_inv {S A} (x : A) (s s' : S) a : ret x s = Ok (a, s') -> a = x /\ s' = s.
Proof. by intros [= <- <-]. Qed.
Lemma modify_inv {S} (f : S -> S) s a s' : modify f s = Ok (a, s') -> s' = f s.
Proof. by intros [= _ <-]. Qed.
Ltac pinv :=
  repeat match goal with
  | H : M_bind _ _ _ = Ok _ |- _ => apply bind_inv in H; destruct H as (? & ? & ? & H)
  | H : gets _ _ = Ok (_, _) |- _ => apply gets_inv in H; destruct H as [? ->]; subst
  | H : ret _ _ = Ok (_, _) |- _ => apply ret_inv in H; destruct H as [? ->]
  | H : modify _ _ = Ok (_, _) |- _ => apply modify_inv in H; subst
  | H : panic _ _ = Ok _ |- _ => discriminate H
  | H : fault _ = Ok _ |- _ => discriminate H
  | H : spin _ = Ok _ |- _ => discriminate H
  | u : unit |- _ => destruct u
  end.

(** Tables given by updates. *)
Ltac upd_cases :=
  repeat match goal with
  | |- context [upd ?t ?p ?y ?p] => rewrite (upd_eq t p y)
  | H : ?q <> ?p |- context [upd ?t ?p ?y ?q] => rewrite (upd_ne t p q y H)
  | H : ?p <> ?q |- context [upd ?t ?p ?y ?q] => rewrite (upd_ne t p q y (not_eq_sym H))
  | |- context [upd ?t ?p ?y ?q] =>
      destruct (decide (q = p)); [subst q || subst p|]
  end.

Section Steps.
Context (c : nat).

Lemma of_option_run {S A} (o : option A) (s s' : S) a : of_option o s = Ok (a, s') -> o = Some a /\ s' = s.
Proof. destruct o; [by intros [= <- <-] | done]. Qed.
Lemma in_kern_run {A} (m : K A) s a s' : in_kern m s = Ok (a, s') -> exists x, s' = set_kern x s.
Proof. unfold in_kern, zoom. destruct (m (kern s)) as [[]| | |]; try done. intros [= <- <-]. by eexists. Qed.
Lemma myproc_run s p s' : myproc c s = Ok (p, s') -> cproc (cpus s c) = Some p /\ s' = s.
Proof. unfold myproc, the_cpu. intros H. pinv. by apply of_option_run in H. Qed.

Lemma acquire_inv lk s s' : acquire c lk s = Ok (tt, s') ->
  locks s !! lk = None /\ locks s' = <[lk := c]> (locks s) /\ procs s' = procs s /\ initproc s' = initproc s /\
  (forall d, loc s' d = loc s d) /\ (forall d, d <> c -> cpus s' d = cpus s d) /\
  ncli (cpus s' c) = ncli (cpus s c) + 1 /\ IF (cpus s' c) = false.
Proof.
  unfold acquire, pushcli, on_cpu, holding. intros H. pinv.
  case_bool_decide; [done|]. pinv. cbn in H. destruct (locks s !! lk) eqn:E; [done|]. pinv. cbn.
  split; [done|]. split; [done|]. do 2 (split; [done|]). split.
  { intros d. unfold loc. cbn. by case_decide as Hd; [subst|]. }
  split; [intros d Hd; by rewrite decide_False|]. by rewrite !decide_True.
Qed.
Lemma popcli_inv s s' : popcli c s = Ok (tt, s') ->
  locks s' = locks s /\ procs s' = procs s /\ initproc s' = initproc s /\
  (forall d, loc s' d = loc s d) /\ (forall d, d <> c -> cpus s' d = cpus s d) /\
  ncli (cpus s' c) = ncli (cpus s c) - 1 /\ IF (cpus s c) = false /\
  (IF (cpus s' c) = true -> ncli (cpus s' c) = 0).
Proof.
  unfold popcli, the_cpu, on_cpu. intros H. pinv. destruct (IF (cpus s c)) eqn:Ei; [done|]. pinv.
  cbn in H. rewrite decide_True in H by done. cbn in H.
  destruct (Z.ltb_spec (ncli (cpus s c) - 1) 0); [done|].
  destruct (Z.eqb_spec (ncli (cpus s c) - 1) 0), (intena (cpus s c)); cbn in H; pinv; cbn.
  all: do 3 (split; [done|]); split; [intros d; unfold loc; cbn; by repeat (case_decide; subst)|];
       split; [intros d Hd; by rewrite !decide_False|]; rewrite ?decide_True by done; cbn; rewrite ?decide_True by done; cbn;
       try (split; [lia|]); try done; rewrite ?Ei; done.
Qed.
Lemma release_inv lk s s' : release c lk s = Ok (tt, s') ->
  locks s !! lk = Some c /\ locks s' = delete lk (locks s) /\ procs s' = procs s /\ initproc s' = initproc s /\
  (forall d, loc s' d = loc s d) /\ (forall d, d <> c -> cpus s' d = cpus s d) /\
  ncli (cpus s' c) = ncli (cpus s c) - 1 /\ (IF (cpus s' c) = true -> ncli (cpus s' c) = 0).
Proof.
  unfold release, holding. intros H. pinv. case_bool_decide as Hl; [|done]. pinv.
  apply popcli_inv in H as (A1 & A2 & A3 & A4 & A5 & A6 & A7 & A8). cbn in *. by split_and!.
Qed.

Lemma acquire_table s s' : acquire c ptable_lock s = Ok (tt, s') -> lock_change s s' None (Some c).
Proof.
  intros (H1 & H2 & H3 & H4 & H5 & _)%acquire_inv. split; try done. rewrite H2. by apply lookup_insert_eq.
Qed.
Lemma release_table s s' : release c ptable_lock s = Ok (tt, s') -> lock_change s s' (Some c) None.
Proof.
  intros (H1 & H2 & H3 & H4 & H5 & _)%release_inv. split; try done. rewrite H2. by apply lookup_delete_eq.
Qed.

(** ** Locks and interrupts *)
Lemma held_insert s lk d : locks s !! lk = None ->
  Z.of_nat (size (filter (fun e : Z * nat => e.2 = d) (<[lk := c]> (locks s)))) = held s d + (if decide (d = c) then 1 else 0).
Proof.
  intros Hn. unfold held. destruct (decide (d = c)) as [->|Hd].
  - rewrite map_filter_insert_True by done. rewrite map_size_insert_None; [lia|].
    apply map_lookup_filter_None. by left.
  - rewrite map_filter_insert_False by (cbn; congruence). rewrite delete_id by done. lia.
Qed.
Lemma held_delete s lk d : locks s !! lk = Some c ->
  Z.of_nat (size (filter (fun e : Z * nat => e.2 = d) (delete lk (locks s)))) = held s d - (if decide (d = c) then 1 else 0).
Proof.
  intros Hl. unfold held. rewrite map_filter_delete. destruct (decide (d = c)) as [->|Hd].
  - assert (Hin : filter (fun e : Z * nat => e.2 = c) (locks s) !! lk = Some c)
      by by apply map_lookup_filter_Some.
    rewrite map_size_delete_Some by done.
    assert (size (filter (fun e : Z * nat => e.2 = c) (locks s)) <> 0%nat).
    { intros H0. apply map_size_empty_iff in H0. by rewrite H0, lookup_empty in Hin. }
    lia.
  - rewrite delete_id; [lia|]. apply map_lookup_filter_None. right. intros x Hx. cbn. congruence.
Qed.
Lemma acquire_locks_ok lk s s' : acquire c lk s = Ok (tt, s') -> locks_ok s -> locks_ok s'.
Proof.
  intros (H1 & H2 & _ & _ & _ & H3 & H4 & H5)%acquire_inv Hok d. unfold held.
  rewrite H2, held_insert by done. destruct (decide (d = c)) as [->|Hd].
  - destruct (Hok c). rewrite H4. split; [lia | done].
  - rewrite H3 by done. rewrite Z.add_0_r. apply Hok.
Qed.
Lemma release_locks_ok lk s s' : release c lk s = Ok (tt, s') -> locks_ok s -> locks_ok s'.
Proof.
  intros (H1 & H2 & _ & _ & _ & H3 & H4 & H5)%release_inv Hok d. unfold held.
  rewrite H2, held_delete by done. destruct (decide (d = c)) as [->|Hd].
  - destruct (Hok c). split; [lia|]. intros Hp. destruct (IF (cpus s' c)); [|done]. specialize (H5 eq_refl). lia.
  - rewrite H3 by done. rewrite Z.sub_0_r. apply Hok.
Qed.

(** ** What calls do to the process table *)

(** The CPUs are where they were, and [ptable.lock] is as it was. *)
Record frame (s s' : kstate) : Prop := mkFrame {
  fr_init : initproc s' = initproc s;
  fr_loc : forall d, loc s' d = loc s d;
  fr_lock : locks s' !! ptable_lock = locks s !! ptable_lock }.
#[export] Instance frame_preorder : PreOrder frame.
Proof.
  split; [by split|]. intros a b d [A1 A2 A3] [B1 B2 B3]. split; [congruence | | congruence].
  intros e. by rewrite B2.
Qed.
Lemma frame_section s1 s2 s3 s4 l : lock_change s1 s2 None l -> frame s2 s3 -> lock_change s3 s4 l None ->
  frame s1 s4.
Proof.
  intros [A1 A2 A3 A4 A5] [B1 B2 B3] [C1 C2 C3 C4 C5]. split; [congruence | | congruence].
  intros d. by rewrite C3, B2.
Qed.
Lemma frame_proc p f s : frame s (set_proc p f s).
Proof. by split. Qed.
Lemma frame_kern x s : frame s (set_kern x s).
Proof. by split. Qed.
Lemma view_proc p f s : (forall x, view (f x) = view x) -> same_table (procs s) (procs (set_proc p f s)).
Proof.
  intros H q. cbn. destruct (decide (q = p)) as [->|]; [by rewrite upd_eq | by rewrite upd_ne].
Qed.
Lemma view_set_state st x y : view y = view x -> view (set_state st y) = view (set_state st x).
Proof. intros (? & ? & ? & ? & ?)%view_fields. unfold view. cbn. congruence. Qed.
Lemma view_set_pc k x y : view y = view x -> view (set_pc k y) = view (set_pc k x).
Proof. intros (? & ? & ? & ? & ?)%view_fields. unfold view. cbn. congruence. Qed.
Lemma same_upd t t' p y y' : same_table t t' -> view y' = view y -> same_table (upd t p y) (upd t' p y').
Proof.
  intros H Hy q. destruct (decide (q = p)) as [->|]; [by rewrite !upd_eq | by rewrite !upd_ne].
Qed.

Lemma table_find f t p : first_in f t = Some p -> in_tab p /\ f (t p) = true.
Proof.
  unfold first_in. intros H. apply find_some in H as [Hin Hf]. split; [|done].
  apply list_elem_of_In, elem_of_seqZ in Hin. unfold in_tab. lia.
Qed.

Ltac locked H1 H2 H3 H4 H5 :=
  match goal with
  | R : acquire _ ptable_lock _ = _ |- _ => apply acquire_table in R; destruct R as [H1 H2 H3 H4 H5]
  | R : release _ ptable_lock _ = _ |- _ => apply release_table in R; destruct R as [H1 H2 H3 H4 H5]
  end.
Ltac kern_step := match goal with R : in_kern _ _ = _ |- _ => apply in_kern_run in R as [? ->] end.
Lemma allocproc_inv s r s' : allocproc c s = Ok (r, s') ->
  locks s !! ptable_lock = None /\ frame s s' /\
  match r with
  | Some p => in_tab p /\ state (procs s p) = UNUSED /\ exists y,
      state y = EMBRYO /\ parent y = parent (procs s p) /\ same_table (upd (procs s) p y) (procs s')
  | None => same_table (procs s) (procs s')
  end.
Proof.
  unfold allocproc, on_proc, the_proc. intros H. pinv. locked A1 A2 A3 A4 A5. split; [done|].
  destruct (first_in (is_state UNUSED) (procs x0)) as [p|] eqn:Ef.
  - apply table_find in Ef as [Hp Hu]. apply bool_decide_eq_true in Hu. pinv. locked B1 B2 B3 B4 B5. kern_step. cbn in B1.
    rewrite A1 in Hu.
    assert (Hfr : forall s', initproc s' = initproc x9 -> (forall d, loc s' d = loc x9 d) -> locks s' = locks x9 -> frame s s').
    { intros s2 I1 I2 I3. split; [cbn in *; congruence | | by rewrite I3, A4]. intros d. rewrite I2, B3. apply A3. }
    destruct (x10 =? 0); pinv; subst; (split; [by apply Hfr|]).
    + intros q. cbn. rewrite B1, A1. upd_cases; [|done]. unfold view. cbn. by rewrite Hu.
    + split; [done|]. split; [done|]. exists (set_pc In_forkret (set_state EMBRYO (procs s p))).
      do 2 (split; [done|]). intros q. cbn. rewrite B1, A1. by upd_cases.
  - pinv. locked B1 B2 B3 B4 B5. subst. split; [|intros q; by rewrite B1, A1].
    split; [congruence | | congruence]. intros d. by rewrite B3.
Qed.

(** Nothing the table invariant speaks of changed. *)
Definition quiet (s s' : kstate) : Prop := frame s s' /\ same_table (procs s) (procs s').
#[export] Instance quiet_preorder : PreOrder quiet.
Proof.
  split; [by split|]. intros a b d [A1 A2] [B1 B2]. split; [by etransitivity|].
  intros p. by rewrite B2.
Qed.
Lemma quiet_proc p f s : (forall x, view (f x) = view x) -> quiet s (set_proc p f s).
Proof. intros H. split; [apply frame_proc | by apply view_proc]. Qed.
Lemma quiet_kern x s : quiet s (set_kern x s).
Proof. by split. Qed.
Lemma mfor_rel {S} (R : S -> S -> Prop) `{!PreOrder R} (f : Z -> M S unit) l : forall s s',
  (forall i s s', f i s = Ok (tt, s') -> R s s') -> mfor_list l f s = Ok (tt, s') -> R s s'.
Proof.
  induction l as [|i l IH]; intros s s' Hf H; cbn in H.
  - apply ret_inv in H as [_ ->]. reflexivity.
  - apply bind_inv in H as ([] & s1 & H1 & H2). etransitivity; [by eapply Hf | by eapply IH].
Qed.

(** [sched]: the process is in code [k], the CPU in the scheduler. *)
Record switched (s s' : kstate) (l : option nat) : Prop := mkSwitched {
  sw_init : initproc s' = initproc s;
  sw_before : locks s !! ptable_lock = l;
  sw_after : locks s' !! ptable_lock = Some c;
  sw_other : forall d, d <> c -> loc s' d = loc s d;
  sw_here : loc s' c = (None, Z.succ <$> at_ (cpus s c)) }.
Lemma sched_inv k s s' : sched c k s = Ok (tt, s') ->
  exists me, cproc (cpus s c) = Some me /\ switched s s' (Some c) /\ state (procs s me) <> RUNNING /\
    same_table (upd (procs s) me (set_pc k (procs s me))) (procs s').
Proof.
  unfold sched, holding, the_cpu, the_proc, on_proc, switchkvm, on_cpu. intros H. pinv.
  case_bool_decide as Hl; [|done]. cbn [negb] in H. pinv. destruct (ncli _ =? 1); [|done]. cbn [negb] in H. pinv.
  match goal with R : myproc _ _ = _ |- _ => apply myproc_run in R as [Hme ->] end. pinv.
  unfold is_state in H. case_bool_decide as Hr; [done|]. destruct (IF _); [done|]. pinv.
  eexists. split; [done|]. split; [split; try done|].
  - intros d Hd. unfold loc. cbn. by rewrite !decide_False.
  - unfold loc. cbn. rewrite !decide_True by done. cbn. by rewrite ?decide_True by done.
  - split; [done|]. intros q. cbn. by upd_cases.
Qed.

Lemma yield_inv s s' : yield c s = Ok (tt, s') ->
  exists me, cproc (cpus s c) = Some me /\ switched s s' None /\
    same_table (upd (procs s) me (set_pc In_yield (set_state RUNNABLE (procs s me)))) (procs s').
Proof.
  unfold yield, on_proc. intros H. pinv. locked A1 A2 A3 A4 A5.
  match goal with R : myproc _ _ = _ |- _ => apply myproc_run in R as [Hme ->] end.
  apply sched_inv in H as (me & Hme' & [S1 S2 S3 S4 S5] & _ & Ht). cbn in *. rewrite Hme in Hme'. injection Hme' as <-.
  pose proof (A3 c) as Hc. unfold loc in Hc. injection Hc as Hc1 Hc2.
  exists x1. split; [congruence|]. split.
  - split; [congruence | done | done | intros d Hd; rewrite S4 by done; apply A3 | by rewrite S5, Hc2].
  - intros q. rewrite Ht, A1. by upd_cases.
Qed.

Lemma sleep_inv ch lk s s' : lk <> ptable_lock -> sleep c ch lk s = Ok (tt, s') ->
  exists me, cproc (cpus s c) = Some me /\ switched s s' None /\
    same_table (upd (procs s) me (set_pc (In_sleep lk) (set_state SLEEPING (set_chan ch (procs s me))))) (procs s').
Proof.
  intros Hlk. unfold sleep, sleep_on, on_proc, the_cpu. intros H. pinv.
  destruct (cproc (cpus s c)) as [me|] eqn:Hme; [|done]. pinv.
  destruct (Z.eqb_spec lk ptable_lock); [done|]. cbn [negb] in *. pinv. locked A1 A2 A3 A4 A5.
  match goal with R : release _ _ _ = Ok (_, ?b) |- _ =>
    rename b into s2; apply release_inv in R as (R1 & R2 & R3 & R4 & R5 & _) end.
  apply sched_inv in H as (me' & Hme' & [S1 S2 S3 S4 S5] & _ & Ht). cbn in *.
  assert (Hloc : forall d, loc s2 d = loc s d) by (intros d; rewrite R5; apply A3).
  pose proof (Hloc c) as Hc. unfold loc in Hc. injection Hc as Hc1 Hc2.
  assert (me' = me) as -> by congruence.
  exists me. split; [done|]. split.
  - split; [congruence | done | done | intros d Hd; rewrite S4 by done; apply Hloc | by rewrite S5, Hc2].
  - intros q. rewrite Ht, R3, A1. by upd_cases.
Qed.

(** [wait] with the lock held: it returns, having reaped a zombie child or
    not, or goes to sleep. *)
Lemma wait_scan_inl l t me b p : wait_scan l t me b = inl p -> p ∈ l /\ parent (t p) = Some me /\ state (t p) = ZOMBIE.
Proof.
  revert b. induction l as [|q l IH]; intros b H; [done|]. cbn in H. unfold is_state in H.
  repeat case_bool_decide; simplify_eq; try (apply IH in H as (? & ? & ?); split_and!; try done; by right).
  split_and!; [by left | done | done].
Qed.
Lemma wait_scan_inr l t me b b' : wait_scan l t me b = inr b' ->
  (forall q, q ∈ l -> parent (t q) = Some me -> state (t q) <> ZOMBIE) /\
  (b' = true -> b = true \/ exists q, q ∈ l /\ parent (t q) = Some me).
Proof.
  revert b. induction l as [|q l IH]; intros b H; cbn in H.
  - simplify_eq. split; [intros q Hq; by apply elem_of_nil in Hq | by left].
  - unfold is_state in H. repeat case_bool_decide; simplify_eq; apply IH in H as [I1 I2]; split.
    + intros r [->|Hr]%elem_of_cons; [done | by apply I1].
    + intros _. right. exists q. split; [by left | done].
    + intros r [->|Hr]%elem_of_cons; [done | by apply I1].
    + intros Hb. destruct (I2 Hb) as [|(r & ? & ?)]; [by left|]. right. exists r. split; [by right | done].
Qed.
Lemma in_table_order q : q ∈ table_order <-> in_tab q.
Proof. unfold table_order, in_tab. rewrite elem_of_seqZ. lia. Qed.

(** The table after the return of [wait]. *)
Definition reaped (t t' : Z -> proc) (me : Z) : Prop :=
  t' = t \/ exists q y, in_tab q /\ parent (t q) = Some me /\ state (t q) = ZOMBIE /\
    state y = UNUSED /\ parent y = None /\ t' = upd t q y.
Definition waiting (x : proc) (me : Z) : proc :=
  set_pc In_wait (set_state SLEEPING (set_chan (Some (Ch_proc me)) x)).
Lemma wait_turn_inv kend s r s' : wait_turn kend c s = Ok (r, s') ->
  exists me, cproc (cpus s c) = Some me /\
  match r with
  | Some _ =>
      initproc s' = initproc s /\ (forall d, loc s' d = loc s d) /\
      locks s !! ptable_lock = Some c /\ locks s' !! ptable_lock = None /\
      exists t', reaped (procs s) t' me /\ same_table (upd t' me (set_pc Run (t' me))) (procs s')
  | None =>
      switched s s' (Some c) /\ killed (procs s me) = 0 /\ (exists q, child (procs s) me q) /\
      (forall q, child (procs s) me q -> state (procs s q) <> ZOMBIE) /\
      same_table (upd (procs s) me (waiting (procs s me) me)) (procs s')
  end.
Proof.
  unfold wait_turn, the_proc, on_proc. intros H. pinv.
  match goal with R : myproc _ _ = Ok (?m, _) |- _ => rename m into me; apply myproc_run in R as [Hme ->] end.
  exists me. split; [done|].
  destruct (wait_scan table_order (procs s) me false) as [p|b] eqn:Es.
  - apply wait_scan_inl in Es as (Hp & Hpar & Hz). apply in_table_order in Hp. pinv. repeat kern_step.
    match goal with R : release _ _ _ = Ok (_, ?b) |- _ => rename b into s2 end.
    locked B1 B2 B3 B4 B5. cbn in B1, B4. subst. cbn. split; [done|].
    split; [exact B3|]. do 2 (split; [done|]).
    exists (upd (procs s) p (set_killed 0 (set_parent None (set_state UNUSED (procs s p))))). split.
    + right. exists p, (set_killed 0 (set_parent None (set_state UNUSED (procs s p)))). by split_and!.
    + intros q. cbn. rewrite B1. by upd_cases.
  - apply wait_scan_inr in Es as [Hnz Hkid]. pinv.
    destruct (negb b || negb (killed (procs s me) =? 0)) eqn:Eb.
    + pinv. locked B1 B2 B3 B4 B5. subst. cbn. split; [done|]. split; [exact B3|].
      do 2 (split; [done|]). exists (procs s). split; [by left|]. intros q. cbn. rewrite B1. by upd_cases.
    + pinv. subst. apply orb_false_iff in Eb as [Eb Ek]. apply negb_false_iff in Eb, Ek. apply Z.eqb_eq in Ek.
      destruct Hkid as [|(q & Hq & Hq')]; [done | done |].
      match goal with R : sleep_on _ _ _ _ _ = _ |- _ => rename R into Hs end.
      unfold sleep_on, the_cpu, on_proc in Hs. pinv. rewrite Hme in Hs. cbn [negb Z.eqb ptable_lock] in Hs. pinv.
      apply sched_inv in Hs as (me' & Hme' & Hsw & _ & Ht). cbn in Hme'. rewrite Hme in Hme'. injection Hme' as <-.
      split; [destruct Hsw; by split|]. split; [done|]. split; [exists q; split; [by apply in_table_order | done]|].
      split; [intros r [Hr Hr']; apply Hnz; [by apply in_table_order | done]|].
      intros r. rewrite Ht. cbn. by upd_cases.
Qed.

(** ** fork and exit *)
Ltac quiets :=
  repeat match goal with
  | |- quiet ?s (set_proc ?p ?f ?s') => etransitivity; [|apply quiet_proc; done]
  | |- quiet ?s (set_kern ?x ?s') => etransitivity; [|apply quiet_kern]
  end.
Lemma fork_rest_inv kend kdata np s r s' : fork_rest kend kdata c np s = Ok (r, s') ->
  exists me y, cproc (cpus s c) = Some me /\ frame s s' /\
    (state y = UNUSED /\ parent y = parent (procs s np) \/ state y = RUNNABLE /\ parent y = Some me) /\
    same_table (upd (upd (procs s) np y) me (set_pc Run (upd (procs s) np y me))) (procs s').
Proof.
  unfold fork_rest, on_proc, the_proc. intros H. pinv.
  match goal with R : myproc _ _ = Ok (?m, _) |- _ => rename m into me; apply myproc_run in R as [Hme ->] end.
  kern_step. destruct (_ =? 0) in H; pinv.
  - kern_step. subst. exists me, (set_state UNUSED (procs s np)). split; [done|]. split; [by split|].
    split; [by left|]. intros q. cbn. by upd_cases.
  - match goal with R : of_option _ _ = _ |- _ => apply of_option_run in R as [_ ->] end. kern_step.
    match goal with R : mfor _ _ _ ?a = Ok (_, ?b) |- _ =>
      rename b into s2; assert (Q : quiet a s2);
      [eapply (mfor_rel quiet); [|exact R]; intros i a1 a2 Hi | clear R] end.
    { cbv beta in Hi. destruct (nth (Z.to_nat i) (ofile (procs s me)) None); pinv; [|reflexivity].
      kern_step. subst. quiets. reflexivity. }
    locked A1 A2 A3 A4 A5. locked B1 B2 B3 B4 B5. subst. cbn in A1, B1.
    destruct Q as [[Q1 Q2 Q3] Q4]. cbn in Q1, Q3, Q4. cbn in B2, A2, A4, B4.
    exists me, (set_state RUNNABLE (set_parent (Some me) (procs s np))). split; [done|]. split.
    { split; [cbn; congruence | | cbn; congruence].
      intros d. etransitivity; [exact (B3 d)|]. etransitivity; [exact (A3 d)|]. exact (Q2 d). }
    split; [by right|]. intros q. cbn. rewrite B1, A1.
    assert (Hnp := Q4 np). assert (Hq := Q4 q). cbn in Hnp, Hq. revert Hnp Hq. upd_cases; intros Hnp Hq;
      try exact Hq; repeat first [apply view_set_pc | apply view_set_state]; done.
Qed.

Lemma wakeup1_inv ch s s' : wakeup1 ch s = Ok (tt, s') ->
  frame s s' /\ (forall p, calmer (procs s p) (procs s' p)) /\
  forall p, in_tab p -> state (procs s' p) = SLEEPING -> chan (procs s' p) <> ch.
Proof.
  unfold wakeup1. intros H. pinv. split; [by split|]. split; intros p; cbn; unfold in_table, in_tab.
  - case_match; [apply wake_one_calmer | by left].
  - intros Hp. destruct (Z.leb_spec 0 p), (Z.ltb_spec p NPROC); cbn; try lia. apply wake_one_awake.
Qed.

(** [wakeup1] of a process: it does not sleep in [wait] any more. *)
Definition woken (ch : option channel) (t : Z -> proc) : Z -> proc :=
  fun p => if in_table p then wake_one ch (t p) else t p.
Lemma in_table_true p : in_tab p -> in_table p = true.
Proof. unfold in_tab, in_table. intros. destruct (Z.leb_spec 0 p), (Z.ltb_spec p NPROC); cbn; lia. Qed.
Lemma woken_calmer ch t p : calmer (t p) (woken ch t p).
Proof. unfold woken. case_match; [apply wake_one_calmer | by left]. Qed.
Lemma woken_awake i t k : table_ok i t -> in_tab k -> ~ in_wait (woken (Some (Ch_proc k)) t k).
Proof.
  intros Hok Hk Hw. pose proof (wake_step _ _ _ Hok (woken_calmer (Some (Ch_proc k)) t)) as Hok'.
  destruct (to_wait _ _ Hok' k Hk Hw) as (Hch & _). unfold woken in *. rewrite in_table_true in * by done.
  destruct Hw as [Hs _]. by apply wake_one_awake in Hs.
Qed.
Lemma woken_same ch t p : state (t p) <> SLEEPING -> woken ch t p = t p.
Proof. intros Hs. destruct (woken_calmer ch t p) as [|[? _]]; done. Qed.

(** The loop of [exit] over the children: what holds before, after, and how
    an entry is changed. *)
Record adopted (me : Z) (s s' : kstate) : Prop := mkAdopted {
  ad_frame : frame s s';
  ad_ok : table_ok (initproc s) (procs s');
  ad_me : procs s' me = procs s me;
  ad_awake : forall a, in_wait (procs s' a) -> in_wait (procs s a);
  ad_parent : forall a, parent (procs s' a) = parent (procs s a) \/ parent (procs s' a) = initproc s;
  ad_running : forall a, state (procs s' a) = RUNNING <-> state (procs s a) = RUNNING }.
Section Adopt.
Context (me : Z) (s : kstate).
Hypotheses (Hok : table_ok (initproc s) (procs s)) (Hme : in_tab me) (Hrun : state (procs s me) = RUNNING)
  (Hni : initproc s <> Some me) (Hnp : parent (procs s me) <> Some me).

Lemma adopt_one_inv q s' : in_tab q -> adopt_one me q s = Ok (tt, s') ->
  adopted me s s' /\ parent (procs s' q) <> Some me.
Proof using All.
  intros Hq. unfold adopt_one, the_proc, on_proc. intros H. pinv. case_bool_decide as Hpar.
  2:{ pinv. split; [split; try done; by left | done]. }
  pinv. destruct (to_init _ _ Hok) as (k & Hk & Hkin & Hkal & Hkn). cbn in H. rewrite Hk in *.
  assert (Hnw : ~ in_wait (procs s me)) by (intros [? _]; congruence).
  assert (Hqm : q <> me) by congruence.
  destruct (is_state ZOMBIE (procs s q)) eqn:Ez.
  - apply bool_decide_eq_true in Ez. unfold wakeup1 in H. pinv. cbn [procs set_procs set_proc].
    set (t1 := woken (Some (Ch_proc k)) (procs s)).
    assert (Hok1 : table_ok (Some k) t1) by (eapply wake_step; [exact Hok | apply woken_calmer]).
    assert (Hq1 : t1 q = procs s q) by (apply woken_same; congruence).
    assert (Heq : forall p, (if in_table p then wake_one (Some (Ch_proc k)) (upd (procs s) q (set_parent (Some k) (procs s q)) p)
        else upd (procs s) q (set_parent (Some k) (procs s q)) p) = upd t1 q (set_parent (Some k) (t1 q)) p).
    { intros p. rewrite Hq1. upd_cases; [|done]. rewrite in_table_true by done.
      unfold wake_one, is_state. cbn. rewrite Ez. done. }
    assert (Hst : same_table (upd t1 q (set_parent (Some k) (t1 q)))
      (fun p => if in_table p then wake_one (Some (Ch_proc k)) (upd (procs s) q (set_parent (Some k) (procs s q)) p)
        else upd (procs s) q (set_parent (Some k) (procs s q)) p)) by (intros p; by rewrite Heq).
    assert (Hm1 : t1 me = procs s me) by (apply woken_same; congruence).
    split.
    + split; [by split | | | | |].
      * cbn. rewrite Hk. eapply table_ok_proper; [reflexivity | symmetry; exact Hst |].
        eapply (adopt_step _ t1 q _ Hok1 Hq me k); [done | by rewrite Hq1 | by rewrite Hm1 | | done].
        intros _. by apply (woken_awake (Some k)).
      * cbn. rewrite Heq. rewrite upd_ne by done. done.
      * intros a. cbn. rewrite Heq. intros Hw.
        assert (Hw1 : in_wait (t1 a)).
        { destruct (decide (a = q)) as [->|]; [by rewrite upd_eq in Hw | by rewrite upd_ne in Hw]. }
        pose proof (calmer_in_wait _ _ (woken_calmer (Some (Ch_proc k)) (procs s) a) Hw1) as E. fold t1 in E. by rewrite <- E.
      * intros a. cbn. rewrite Heq, Hk. upd_cases; [by right|]. left. apply calmer_parent, woken_calmer.
      * intros a. cbn. rewrite Heq. transitivity (state (t1 a) = RUNNING); [by upd_cases|].
        by apply calmer_state; [apply woken_calmer | ..].
    + cbn. rewrite Heq, upd_eq. cbn. congruence.
  - apply bool_decide_eq_false in Ez. pinv. cbn. split.
    + split; [by split | | | | |]; cbn.
      * rewrite Hk. eapply (adopt_step _ (procs s) q _); try done.
      * by rewrite upd_ne.
      * intros a. destruct (decide (a = q)) as [->|]; [by rewrite upd_eq | by rewrite upd_ne].
      * intros a. rewrite Hk. upd_cases; [by right | by left].
      * intros a. by upd_cases.
    + cbn. rewrite upd_eq. cbn. congruence.
Qed.
End Adopt.

Lemma adopt_all_inv me l : forall s s',
  table_ok (initproc s) (procs s) -> in_tab me -> state (procs s me) = RUNNING -> initproc s <> Some me ->
  parent (procs s me) <> Some me -> (forall q, q ∈ l -> in_tab q) ->
  mfor_list l (adopt_one me) s = Ok (tt, s') ->
  adopted me s s' /\ forall q, q ∈ l -> parent (procs s' q) <> Some me.
Proof.
  induction l as [|q l IH]; intros s s' Hok Hme Hrun Hni Hnp Hl H; cbn in H.
  { pinv. split; [split; try done; by left|]. intros q Hq. by apply elem_of_nil in Hq. }
  apply bind_inv in H as ([] & s1 & H1 & H2).
  destruct (adopt_one_inv me s Hok Hme Hrun Hni Hnp q s1) as [[F1 O1 M1 A1 N1 R1] P1]; [apply Hl; by left | done |].
  pose proof F1 as [I1 L1 K1].
  destruct (IH s1 s') as [[F2 O2 M2 A2 N2 R2] P2]; try congruence.
  { intros r Hr. apply Hl. by right. }
  rewrite I1 in *. split.
  - split; [by etransitivity | done | congruence | auto | | intros a; by rewrite R2, R1].
    intros a. destruct (N2 a) as [->| ->]; [apply N1 | by right].
  - intros r [->|Hr]%elem_of_cons; [|by apply P2]. destruct (N2 q) as [->| ->]; done.
Qed.

Lemma exit_inv kend s s' : table_ok (initproc s) (procs s) ->
  (forall me, cproc (cpus s c) = Some me -> in_tab me /\ state (procs s me) = RUNNING) ->
  exit kend c s = Ok (tt, s') ->
  exists me, cproc (cpus s c) = Some me /\ switched s s' None /\ table_ok (initproc s) (procs s') /\
    state (procs s' me) = ZOMBIE /\
    forall p, p <> me -> (state (procs s' p) = RUNNING <-> state (procs s p) = RUNNING).
Proof.
  intros Hok Hrun. unfold exit, the_proc, on_proc. intros H. pinv.
  match goal with R : myproc _ _ = Ok (?m, _) |- _ => rename m into me; apply myproc_run in R as [Hme ->] end.
  destruct (Hrun me Hme) as [Hin Hr]. case_bool_decide as Hni; [done|]. pinv.
  match goal with R : close_files _ _ ?a = Ok (_, ?b) |- _ =>
    rename b into s1; assert (Q : quiet a s1); [|clear R] end.
  { unfold close_files in *. eapply (mfor_rel quiet); [|eassumption]. clear. intros i a1 a2 Hi. unfold the_proc, on_proc in Hi. pinv.
    destruct (nth (Z.to_nat i) (ofile (procs a1 me)) None); pinv; [|reflexivity].
    kern_step. quiets. reflexivity. }
  match goal with R : of_option _ _ = _ |- _ => apply of_option_run in R as [_ ->] end. do 3 kern_step.
  match goal with R : acquire _ _ ?a = _ |- _ =>
    assert (Q1 : quiet s a) by (quiets; exact Q); clear Q; set (s2 := a) in * end.
  destruct Q1 as [[I1 L1 K1] T1]. locked A1 A2 A3 A4 A5.
  match goal with R : wakeup1 _ ?a = Ok (_, ?b) |- _ => rename a into s3; rename b into s4 end.
  match goal with R : mfor _ _ _ _ = Ok (_, ?b) |- _ => rename R into Had; rename b into s5 end.
  match goal with R : wakeup1 _ _ = _ |- _ => unfold wakeup1 in R; apply modify_inv in R end.
  assert (Hok3 : table_ok (initproc s) (procs s3)).
  { rewrite A1. eapply table_ok_proper; [reflexivity | symmetry; exact T1 | done]. }
  assert (Hr3 : state (procs s3 me) = RUNNING).
  { rewrite A1. destruct (view_fields _ _ (T1 me)) as (-> & _). done. }
  set (ch := Ch_proc <$> parent (procs s3 me)) in *.
  assert (E4 : procs s4 = woken ch (procs s3)) by (by subst s4).
  assert (F4 : frame s3 s4) by (by subst s4). destruct F4 as [I4 L4 K4].
  assert (Hok4 : table_ok (initproc s4) (procs s4)).
  { rewrite I4, A2, I1, E4. eapply wake_step; [exact Hok3 | apply woken_calmer]. }
  assert (M4 : procs s4 me = procs s3 me) by (rewrite E4; apply woken_same; congruence).
  assert (Hpar : forall a, parent (procs s3 me) = Some a -> in_tab a /\ ~ in_wait (procs s4 a)).
  { intros a Ha. destruct (to_parent _ _ Hok3 a me) as (Hain & _); [done|]. split; [done|].
    rewrite E4. unfold ch. rewrite Ha. by eapply woken_awake. }
  destruct (adopt_all_inv me (seqZ 0 (NPROC - 0)) s4 s5) as [[F5 O5 M5 W5 _ R5] P5]; try done.
  { by rewrite M4. }
  { rewrite I4, A2, I1. done. }
  { rewrite M4. intros Hs. by apply (to_self _ _ Hok3 me). }
  { intros q Hq. apply elem_of_seqZ in Hq. unfold in_tab. lia. }
  destruct F5 as [I5 L5 K5].
  apply sched_inv in H as (me' & Hme' & [S1 S2 S3 S4 S5] & _ & Ht). cbn in Hme'.
  assert (Hloc : forall d, loc s5 d = loc s d) by (intros d; by rewrite L5, L4, A3, L1).
  pose proof (Hloc c) as Hc. unfold loc in Hc. injection Hc as Hc1 Hc2. assert (me' = me) as -> by congruence.
  cbn in S1, Ht. exists me. split; [done|]. split; [|split; [|split]].
  - split; [congruence | congruence | done | | by rewrite S5; cbn; rewrite Hc2].
    intros d Hd. rewrite S4 by done. apply Hloc.
  - assert (Hok5 : table_ok (initproc s) (procs s5)) by (by rewrite I4, A2, I1 in O5).
    eapply table_ok_proper; [reflexivity | symmetry; exact Ht |].
    rewrite upd_eq. eapply (table_ok_proper _ _ eq_refl _ (upd (procs s5) me (set_pc In_exit (set_state ZOMBIE (procs s5 me))))).
    { intros q. by upd_cases. }
    apply (zombie_step _ _ _ _ Hok5 Hin); try done.
    + right. right. by rewrite M5, M4.
    + intros q [Hq Hq']. apply (P5 q); [|done]. apply elem_of_seqZ. unfold in_tab in Hq. lia.
    + intros a Ha. rewrite M5, M4 in Ha. destruct (Hpar a Ha) as [_ Hn]. intros Hw. by apply Hn, W5.
  - destruct (view_fields _ _ (Ht me)) as (-> & _). by upd_cases.
  - intros p Hp. destruct (view_fields _ _ (Ht p)) as (-> & _). rewrite upd_ne by done. rewrite upd_ne by done.
    rewrite R5, E4. rewrite (calmer_state (procs s3 p)); [|apply woken_calmer | done | done].
    rewrite A1. by destruct (view_fields _ _ (T1 p)) as (-> & _).
Qed.

(** ** kill, wakeup, growproc and the scheduler *)
Lemma wakeup_inv ch s s' : wakeup c ch s = Ok (tt, s') ->
  frame s s' /\ forall p, calmer (procs s p) (procs s' p).
Proof.
  unfold wakeup. intros H. pinv. locked A1 A2 A3 A4 A5.
  match goal with R : wakeup1 _ _ = _ |- _ => apply wakeup1_inv in R as (F & Hc & _) end.
  locked B1 B2 B3 B4 B5. destruct F as [F1 F2 F3]. split.
  - split; [congruence | intros d; by rewrite B3, F2, A3 | congruence].
  - intros p. rewrite B1, <- A1. apply Hc.
Qed.
Lemma kill_inv n s r s' : kill c n s = Ok (r, s') ->
  frame s s' /\ ((forall p, procs s' p = procs s p) \/ exists p, in_tab p /\ pid (procs s p) = n /\ forall q,
    procs s' q = if decide (q = p) then
      set_killed 1 (if is_state SLEEPING (procs s p) then set_state RUNNABLE (procs s p) else procs s p) else procs s q).
Proof.
  unfold kill, on_proc. intros H. pinv. locked A1 A2 A3 A4 A5.
  destruct (first_in _ _) as [p|] eqn:Ef; pinv; locked B1 B2 B3 B4 B5; subst; cbn in *; rewrite ?A1 in *.
  - apply table_find in Ef as [Hp Hn]. apply Z.eqb_eq in Hn. split.
    + split; [congruence | intros d; etransitivity; [exact (B3 d) | exact (A3 d)] | congruence].
    + right. exists p. split; [done|]. split; [done|]. intros q. rewrite B1. upd_cases; [|done].
      unfold is_state. cbn. by destruct (bool_decide _).
  - split; [|left; intros p; by rewrite B1].
    split; [congruence | intros d; by rewrite B3 | congruence].
Qed.
Lemma switchuvm_inv p s s' : switchuvm c p s = Ok (tt, s') ->
  frame s s' /\ procs s' = procs s /\ locks s' = locks s /\ (forall d, d <> c -> cpus s' d = cpus s d) /\
  ncli (cpus s' c) = ncli (cpus s c) /\ (0 < ncli (cpus s c) -> IF (cpus s' c) = false).
Proof.
  unfold switchuvm, pushcli, on_cpu, the_proc. intros H. pinv.
  match goal with R : myproc _ _ = _ |- _ => apply myproc_run in R as [_ ->] end.
  cbn in H. destruct (_ =? 0) in H; [done|]. pinv.
  apply popcli_inv in H as (A1 & A2 & A3 & A4 & A5 & A6 & A7 & A8). cbn in *.
  rewrite !decide_True in * by done. cbn in *. rewrite ?decide_True in * by done. cbn in *.
  split; [split; [done | | by rewrite A1]|].
  { intros d. rewrite A4. unfold loc. cbn. repeat (case_decide; subst; cbn); try done. }
  split; [done|]. split; [done|]. split.
  { intros d Hd. rewrite A5 by done. by rewrite !decide_False. }
  split; [lia|]. intros Hp. destruct (IF (cpus s' c)); [|done]. specialize (A8 eq_refl). lia.
Qed.
Lemma growproc_inv kend n s r s' : growproc kend c n s = Ok (r, s') -> quiet s s'.
Proof.
  unfold growproc, the_proc, on_proc. intros H. pinv.
  match goal with R : myproc _ _ = Ok (?m, _) |- _ => rename m into me; apply myproc_run in R as [Hme ->] end.
  pinv. match goal with R : _ s = Ok (?v, ?b) |- _ => rename b into s1; rename v into v1; assert (Q : quiet s s1) end.
  { destruct (n >? 0); [kern_step; quiets; reflexivity|].
    destruct (n <? 0); [kern_step; quiets; reflexivity | pinv; reflexivity]. }
  destruct (_ && _); pinv; [done|].
  match goal with R : switchuvm _ _ _ = _ |- _ => apply switchuvm_inv in R as (F & Ep & _) end.
  etransitivity; [exact Q|]. etransitivity; [apply (quiet_proc me (set_sz v1)); done|].
  split; [done|]. intros q. by rewrite Ep.
Qed.
Lemma reacquire_inv lk s s' : lk <> ptable_lock -> reacquire c lk s = Ok (tt, s') ->
  exists me, cproc (cpus s c) = Some me /\ frame s s' /\
    same_table (upd (procs s) me (set_pc Run (procs s me))) (procs s').
Proof.
  intros Hlk. unfold reacquire, on_proc. intros H. pinv.
  match goal with R : myproc _ _ = Ok (?m, _) |- _ => rename m into me; apply myproc_run in R as [Hme ->] end.
  match goal with R : acquire _ _ _ = _ |- _ => apply acquire_inv in R as (R1 & R2 & R3 & R4 & R5 & _) end.
  exists me. split; [done|]. split.
  - split; [done | exact R5 |]. cbn. rewrite R2. by apply lookup_insert_ne.
  - intros q. cbn. rewrite R3. by upd_cases.
Qed.
Lemma top_inv s s' : scheduler_top c s = Ok (tt, s') ->
  locks s !! ptable_lock = None /\ locks s' !! ptable_lock = Some c /\ initproc s' = initproc s /\
  procs s' = procs s /\ (forall d, d <> c -> loc s' d = loc s d) /\ loc s' c = (cproc (cpus s c), Some 0).
Proof.
  unfold scheduler_top, on_cpu. intros H. pinv. locked A1 A2 A3 A4 A5. cbn in *.
  split; [done|]. do 3 (split; [done|]). split.
  - intros d Hd. unfold loc. cbn. rewrite decide_False by done. pose proof (A3 d) as E. unfold loc in E. cbn in E.
    rewrite decide_False in E by done. done.
  - unfold loc. cbn. rewrite decide_True by done. cbn. pose proof (A3 c) as E. unfold loc in E. cbn in E.
    rewrite decide_True in E by done. cbn in E. injection E as E1 E2. by rewrite E1.
Qed.

(** ** The scheduler switches to a process *)

(** The process table entry of a process that the scheduler picked, back in
    its own code. *)
Definition resumed (x : proc) (k : code) : proc := set_pc k (set_chan None (set_state RUNNING x)).
Record switched_to (p : Z) (s s' : kstate) : Prop := mkSwitchedTo {
  st_init : initproc s' = initproc s;
  st_before : locks s !! ptable_lock = Some c;
  st_after : locks s' !! ptable_lock = None;
  st_other : forall d, d <> c -> loc s' d = loc s d;
  st_here : loc s' c = (Some p, Some p) }.
Lemma sched_return_inv p s s' : sched_return c p s = Ok (tt, s') -> frame s s' /\ procs s' = procs s.
Proof.
  unfold sched_return, the_proc, on_cpu. intros H. pinv. split; [|done]. split; [done | | done].
  intros d. unfold loc. cbn. by case_decide; [subst|].
Qed.
Lemma lock_released p k s s0 s1 : frame s s0 -> release c ptable_lock s0 = Ok (tt, s1) ->
  cproc (cpus s c) = Some p -> at_ (cpus s c) = Some p ->
  switched_to p s (set_proc p (set_pc k) s1) /\ procs s1 = procs s0.
Proof.
  intros [F1 F2 F3] R Hc Ha. locked B1 B2 B3 B4 B5. split; [|done].
  split; [cbn; congruence | congruence | done | |].
  - intros d _. etransitivity; [exact (B3 d) | apply F2].
  - etransitivity; [exact (B3 c)|]. rewrite F2. unfold loc. by rewrite Hc, Ha.
Qed.
(** From the state [s] where CPU [c] runs [p] with the lock held. *)
Lemma resume_inv kend p s s' : cproc (cpus s c) = Some p -> at_ (cpus s c) = Some p ->
  (forall lk, pc (procs s p) = In_sleep lk -> lk <> ptable_lock) ->
  resume kend c p s = Ok (tt, s') ->
  (exists k, switched_to p s s' /\ (k = Run \/ exists lk, k = Reacquire lk) /\
     (same_table (upd (procs s) p (set_pc k (procs s p))) (procs s') \/
      same_table (upd (procs s) p (set_pc k (set_chan None (procs s p)))) (procs s'))) \/
  (pc (procs s p) = In_wait /\ exists s1, frame s s1 /\ procs s1 = upd (procs s) p (set_chan None (procs s p)) /\
     cproc (cpus s1 c) = Some p /\ at_ (cpus s1 c) = Some p /\ exists r, wait_turn kend c s1 = Ok (r, s')).
Proof.
  intros Hc Ha Hlk. unfold resume, the_proc, on_proc. intros H. pinv.
  destruct (pc (procs s p)) as [| | |lk| | |lk|np] eqn:Epc; try done; pinv;
    try match goal with R : sched_return _ _ _ = Ok (_, ?b) |- _ =>
      rename b into s1; apply sched_return_inv in R as [F Ep] end.
  - match goal with R : release _ _ _ = _ |- _ => destruct (lock_released p Run s s _ ltac:(reflexivity) R Hc Ha) as [S E] end.
    left. exists Run. split; [done|]. split; [by left|]. left. intros q. cbn. rewrite E. by upd_cases.
  - match goal with R : release _ _ _ = _ |- _ => destruct (lock_released p Run s s1 _ F R Hc Ha) as [S E] end.
    left. exists Run. split; [done|]. split; [by left|]. left. intros q. cbn. rewrite E, Ep. by upd_cases.
  - specialize (Hlk lk eq_refl). destruct (Z.eqb_spec lk ptable_lock); [done|]. cbn [negb] in H. pinv.
    match goal with R : release _ _ _ = _ |- _ =>
      destruct (lock_released p (Reacquire lk) s _ _ ltac:(etransitivity; [exact F | apply frame_proc]) R Hc Ha) as [S E] end.
    left. exists (Reacquire lk). split; [done|]. split; [right; by exists lk|]. right.
    intros q. cbn. rewrite E. cbn. rewrite Ep. by upd_cases.
  - right. split; [done|]. exists (set_proc p (set_chan None) s1).
    pose proof (fr_loc _ _ F c) as El. unfold loc in El. injection El as E1 E2. cbn.
    split; [etransitivity; [exact F | apply frame_proc]|]. split; [by rewrite Ep|].
    split; [congruence|]. split; [congruence|]. by eexists.
Qed.

End Steps.
