(* ===== verification/ProcInv.v ===== *)
(** * ProcInv: the process table under every interleaving (src/src/proc.c)

    The invariant of the machine, that every action of every CPU keeps it, and
    what follows: a process runs on one CPU at most, a parent never sleeps in
    [wait] while it has a zombie child, no process loses its parent, and the
    switch to the scheduler never fails its checks. *)
From S2P Require Import Prelude CString Vm Fs Pipe File Proc ProcTable ProcFacts.

(** ** Invariants kept by every step of the code *)
Definition keeps {A} (I : kstate -> Prop) (m : P A) : Prop := forall s a s', m s = Ok (a, s') -> I s -> I s'.
Section Keeps.
Context (I : kstate -> Prop).
Lemma keeps_bind {A B} (m : P A) (k : A -> P B) : keeps I m -> (forall a, keeps I (k a)) -> keeps I (M_bind m k).
Proof. intros Hm Hk s a s' H Hs. apply bind_inv in H as (x & s1 & H1 & H2). eapply Hk; [done | by eapply Hm]. Qed.
Lemma keeps_ret {A} (a : A) : keeps I (ret a).
Proof. intros s b s' [_ ->]%ret_inv. done. Qed.
Lemma keeps_gets {A} (f : kstate -> A) : keeps I (gets f).
Proof. intros s b s' [_ ->]%gets_inv. done. Qed.
Lemma keeps_of_option {A} (o : option A) : keeps I (of_option o).
Proof. intros s b s' [_ ->]%of_option_run. done. Qed.
Lemma keeps_panic {A} m : keeps I (panic (A := A) m).
Proof. done. Qed.
Lemma keeps_fault {A} : keeps I (fault (A := A)).
Proof. done. Qed.
Lemma keeps_spin {A} : keeps I (spin (A := A)).
Proof. done. Qed.
Lemma keeps_modify f : (forall s, I s -> I (f s)) -> keeps I (modify f).
Proof. intros H s a s' ->%modify_inv Hs. by apply H. Qed.
Lemma keeps_kern {A} (m : K A) : (forall x s, I s -> I (set_kern x s)) -> keeps I (in_kern m).
Proof. intros H s a s' [x ->]%in_kern_run Hs. by apply H. Qed.
Lemma keeps_mfor lo hi f : (forall i, keeps I (f i)) -> keeps I (mfor lo hi f).
Proof.
  intros Hf s [] s' H Hs. unfold mfor in H. revert s Hs H. induction (seqZ lo (hi - lo)) as [|i l IH]; intros s Hs H; cbn in H.
  - by apply ret_inv in H as [_ ->].
  - apply bind_inv in H as ([] & s1 & H1 & H2). eapply IH; [|done]. by eapply Hf.
Qed.
End Keeps.
Create HintDb keeps.
#[export] Hint Resolve keeps_ret keeps_gets keeps_of_option keeps_panic keeps_fault keeps_spin : keeps.
Ltac keeps_tac :=
  repeat first
    [ solve [auto with keeps nocore]
    | match goal with |- keeps _ (M_bind _ _) => apply keeps_bind; [|intros ?] end
    | apply keeps_kern; [by intros ? ? ?|..]
    | apply keeps_mfor; intros ?
    | match goal with |- keeps _ (match ?x with _ => _ end) => destruct x eqn:? end
    | match goal with |- keeps _ (if ?x then _ else _) => destruct x eqn:? end ].

(** ** Locks and interrupts *)
Section Locks.
Context (c : nat).
Lemma locks_proc p f : keeps locks_ok (on_proc p f).
Proof. by apply keeps_modify. Qed.
Lemma locks_cpu f : (forall x, ncli (f x) = ncli x) -> (forall x, IF (f x) = IF x) -> keeps locks_ok (on_cpu c f).
Proof.
  intros H1 H2. apply keeps_modify. intros s Hs d. specialize (Hs d). unfold held in *. cbn.
  case_decide as Hd; [|done]. subst. by rewrite H1, H2.
Qed.
Lemma locks_acquire lk : keeps locks_ok (acquire c lk).
Proof. intros s [] s'. apply acquire_locks_ok. Qed.
Lemma locks_release lk : keeps locks_ok (release c lk).
Proof. intros s [] s'. apply release_locks_ok. Qed.
Lemma locks_switchuvm p : keeps locks_ok (switchuvm c p).
Proof.
  intros s [] s' (_ & _ & El & Eo & En & Ei)%switchuvm_inv Hs d. unfold held in *. rewrite El.
  destruct (decide (d = c)) as [->|Hd]; [|by rewrite Eo]. destruct (Hs c). rewrite En. auto.
Qed.
Lemma locks_wakeup1 ch : keeps locks_ok (wakeup1 ch).
Proof. by apply keeps_modify. Qed.
Lemma locks_init x : keeps locks_ok (modify (set_nextpid x)).
Proof. by apply keeps_modify. Qed.
End Locks.
#[export] Hint Resolve locks_proc locks_acquire locks_release locks_switchuvm locks_wakeup1 locks_init : keeps.
#[export] Hint Extern 1 (keeps locks_ok (on_cpu _ _)) => (apply locks_cpu; done) : keeps.
#[export] Hint Extern 1 (keeps locks_ok (switchkvm _)) => (apply locks_cpu; done) : keeps.
#[export] Hint Extern 1 (keeps _ (myproc _)) => (unfold myproc, the_cpu; keeps_tac) : keeps.
#[export] Hint Extern 1 (keeps _ (the_proc _)) => (apply keeps_gets) : keeps.
#[export] Hint Extern 1 (keeps _ (the_cpu _)) => (apply keeps_gets) : keeps.
#[export] Hint Extern 1 (keeps _ (holding _ _)) => (apply keeps_gets) : keeps.

Section Locks_code.
Context (kend kdata : Z) (c : nat).
Lemma locks_allocproc : keeps locks_ok (allocproc c).
Proof. unfold allocproc. keeps_tac. Qed.
Lemma locks_fork_rest np : keeps locks_ok (fork_rest kend kdata c np).
Proof. unfold fork_rest. keeps_tac. Qed.
Lemma locks_sched k : keeps locks_ok (sched c k).
Proof. unfold sched. keeps_tac. Qed.
#[local] Hint Resolve locks_allocproc locks_fork_rest locks_sched : keeps.
Lemma locks_sleep_on ch lk k : keeps locks_ok (sleep_on c ch lk k).
Proof. unfold sleep_on. keeps_tac. Qed.
#[local] Hint Resolve locks_sleep_on : keeps.
Lemma locks_exit : keeps locks_ok (exit kend c).
Proof. unfold exit, close_files, adopt_one. keeps_tac. Qed.
Lemma locks_wait_turn : keeps locks_ok (wait_turn kend c).
Proof. unfold wait_turn. keeps_tac. Qed.
#[local] Hint Resolve locks_wait_turn : keeps.
Lemma locks_turn p : keeps locks_ok (scheduler_turn kend c p).
Proof. unfold scheduler_turn, resume, sched_return. keeps_tac. Qed.
Lemma locks_kill n : keeps locks_ok (kill c n).
Proof. unfold kill. keeps_tac. Qed.
Lemma locks_growproc n : keeps locks_ok (growproc kend c n).
Proof. unfold growproc. keeps_tac. Qed.

Lemma locks_fork_begin : keeps locks_ok (fork_begin c).
Proof. unfold fork_begin. keeps_tac. Qed.
Lemma locks_wait : keeps locks_ok (wait kend c).
Proof. unfold wait. keeps_tac. Qed.
Lemma locks_yield : keeps locks_ok (yield c).
Proof. unfold yield. keeps_tac. Qed.
Lemma locks_reacquire lk : keeps locks_ok (reacquire c lk).
Proof. unfold reacquire. keeps_tac. Qed.
Lemma locks_wakeup ch : keeps locks_ok (wakeup c ch).
Proof. unfold wakeup. keeps_tac. Qed.

(** [scheduler_top] enables interrupts, with no lock held. *)
Lemma locks_top s s' : ncli (cpus s c) = 0 -> scheduler_top c s = Ok (tt, s') -> locks_ok s -> locks_ok s'.
Proof.
  intros Hn H Hs. unfold scheduler_top, on_cpu in H. apply bind_inv in H as ([] & s1 & ->%modify_inv & H).
  apply bind_inv in H as ([] & s2 & H1 & ->%modify_inv).
  eapply (locks_cpu c); [| |reflexivity|]; [done | done |]. eapply locks_acquire; [exact H1|].
  intros d. specialize (Hs d). unfold held in *. cbn. case_decide; [|done]. subst. split; [apply Hs | cbn; lia].
Qed.
Lemma act_locks a s s' : act kend kdata c a s s' -> locks_ok s -> locks_ok s'.
Proof.
  intros H Hs. destruct H as [s s' Hi Hn H | s s' p _ H | s s' r _ H | s s' np r _ H | s s' _ H | s s' r _ H
    | s s' _ H | s s' ch lk _ _ H | s s' lk _ H | s s' ch H | s s' n r _ H | s s' n r _ H | s s' lk _ H
    | s s' lk _ H | s b Hn].
  - by apply locks_top in H; auto.
  - by apply locks_turn in H; auto.
  - by apply locks_fork_begin in H; auto.
  - by apply locks_fork_rest in H; auto.
  - by apply locks_exit in H; auto.
  - by apply locks_wait in H; auto.
  - by apply locks_yield in H; auto.
  - by apply locks_sleep_on in H; auto.
  - by apply locks_reacquire in H; auto.
  - by apply locks_wakeup in H; auto.
  - by apply locks_kill in H; auto.
  - by apply locks_growproc in H; auto.
  - by apply locks_acquire in H; auto.
  - by apply locks_release in H; auto.
  - intros d. specialize (Hs d). unfold held in *. cbn. case_decide; [|done]. subst. cbn. split; [apply Hs | lia].
Qed.
End Locks_code.

(** ** Nobody sleeps with ptable.lock but [wait] *)
Definition fine (k : code) : Prop :=
  match k with In_sleep lk | Reacquire lk => lk <> ptable_lock | _ => True end.
Definition pcs_ok (s : kstate) : Prop := forall p, fine (pc (procs s p)).
Lemma pcs_proc p f : (forall x, fine (pc x) -> fine (pc (f x))) -> keeps pcs_ok (on_proc p f).
Proof.
  intros Hf. apply keeps_modify. intros s Hs q. cbn. destruct (decide (q = p)) as [->|].
  - rewrite upd_eq. apply Hf, Hs.
  - rewrite upd_ne by done. apply Hs.
Qed.
Ltac pcs_proc_tac :=
  apply pcs_proc; intros ?; cbn; unfold is_state; repeat case_match; by intros ?.
Lemma pcs_same (m : P unit) : (forall s s', m s = Ok (tt, s') -> procs s' = procs s) -> keeps pcs_ok m.
Proof. intros H s [] s' E Hs p. rewrite (H s s' E). apply Hs. Qed.
Lemma pcs_acquire c lk : keeps pcs_ok (acquire c lk).
Proof. apply pcs_same. by intros s s' (_ & _ & ? & _)%acquire_inv. Qed.
Lemma pcs_release c lk : keeps pcs_ok (release c lk).
Proof. apply pcs_same. by intros s s' (_ & _ & ? & _)%release_inv. Qed.
Lemma pcs_switchuvm c p : keeps pcs_ok (switchuvm c p).
Proof. apply pcs_same. by intros s s' (_ & ? & _)%switchuvm_inv. Qed.
Lemma pcs_cpu c f : keeps pcs_ok (on_cpu c f).
Proof. by apply keeps_modify. Qed.
Lemma pcs_nextpid x : keeps pcs_ok (modify (set_nextpid x)).
Proof. by apply keeps_modify. Qed.
Lemma pcs_wakeup1 ch : keeps pcs_ok (wakeup1 ch).
Proof.
  intros s [] s' (_ & Hc & _)%wakeup1_inv Hs p. destruct (Hc p) as [->|[_ ->]]; apply Hs.
Qed.
#[export] Hint Resolve pcs_acquire pcs_release pcs_switchuvm pcs_cpu pcs_nextpid pcs_wakeup1 : keeps.
#[export] Hint Extern 1 (keeps pcs_ok (on_proc _ _)) => pcs_proc_tac : keeps.
#[export] Hint Extern 1 (keeps pcs_ok (switchkvm _)) => (apply pcs_cpu) : keeps.

Section Pcs.
Context (kend kdata : Z) (c : nat).
Lemma pcs_sched k : fine k -> keeps pcs_ok (sched c k).
Proof. intros Hk. unfold sched. keeps_tac. Qed.
Lemma pcs_sleep_on ch lk k : fine k -> keeps pcs_ok (sleep_on c ch lk k).
Proof. intros Hk. pose proof (pcs_sched k Hk). unfold sleep_on. keeps_tac. Qed.
Lemma pcs_wait_turn : keeps pcs_ok (wait_turn kend c).
Proof. unfold wait_turn. keeps_tac. by apply pcs_sleep_on. Qed.
#[local] Hint Resolve pcs_wait_turn : keeps.
Lemma pcs_allocproc : keeps pcs_ok (allocproc c).
Proof. unfold allocproc. keeps_tac. Qed.
#[local] Hint Resolve pcs_allocproc : keeps.
Lemma act_pcs a s s' : act kend kdata c a s s' -> pcs_ok s -> pcs_ok s'.
Proof.
  assert (Hsched : forall k, fine k -> keeps pcs_ok (sched c k)) by apply pcs_sched.
  assert (Hrun : forall A (m : P A) s a s', m s = Ok (a, s') -> keeps pcs_ok m -> pcs_ok s -> pcs_ok s')
    by (intros A m s1 a1 s2 E Hk; by eapply Hk).
  intros H. destruct H as [s s' Hi Hn H | s s' p _ H | s s' r _ H | s s' np r _ H | s s' _ H | s s' r _ H
    | s s' _ H | s s' ch lk _ Hlk H | s s' lk _ H | s s' ch H | s s' n r _ H | s s' n r _ H | s s' lk _ H
    | s s' lk _ H | s b Hn]; [apply (Hrun _ _ _ _ _ H).. | done].
  - unfold scheduler_top. keeps_tac.
  - unfold scheduler_turn, resume, sched_return. keeps_tac.
    apply pcs_proc. intros x _. cbn. by apply Z.eqb_neq, negb_true_iff.
  - unfold fork_begin. keeps_tac.
  - unfold fork_rest. keeps_tac.
  - unfold exit, close_files, adopt_one. keeps_tac. by apply Hsched.
  - unfold wait. keeps_tac.
  - unfold yield. keeps_tac. by apply Hsched.
  - by apply pcs_sleep_on.
  - unfold reacquire. keeps_tac.
  - unfold wakeup. keeps_tac.
  - unfold kill. keeps_tac.
  - unfold growproc. keeps_tac.
  - auto with keeps.
  - auto with keeps.
Qed.
End Pcs.

(** ** The invariant of the machine *)
Record kinv (s : kstate) : Prop := mkKinv {
  ki_table : table_ok (initproc s) (procs s);
  ki_pcs : pcs_ok s;
  ki_locks : locks_ok s;
  (** between actions, [ptable.lock] is held by a CPU that scans the table *)
  ki_lock : forall c, locks s !! ptable_lock = Some c <-> exists p, loc s c = (None, Some p);
  ki_at : forall c p, loc s c = (None, Some p) -> 0 <= p;
  (** a CPU runs a process that is RUNNING, and nobody else does *)
  ki_run : forall c p a, loc s c = (Some p, a) -> in_tab p /\ state (procs s p) = RUNNING /\ a = Some p;
  ki_uniq : forall c d p a b, loc s c = (Some p, a) -> loc s d = (Some p, b) -> c = d;
  ki_onto : forall p, in_tab p -> state (procs s p) = RUNNING -> exists c a, loc s c = (Some p, a) }.

Lemma ki_me s c p : kinv s -> cproc (cpus s c) = Some p ->
  in_tab p /\ state (procs s p) = RUNNING /\ at_ (cpus s c) = Some p /\ loc s c = (Some p, Some p).
Proof.
  intros Hk Hc. destruct (ki_run s Hk c p (at_ (cpus s c))) as (H1 & H2 & H3); [unfold loc; by rewrite Hc|].
  split_and!; try done. unfold loc. by rewrite Hc, H3.
Qed.
Lemma ki_free s c p : kinv s -> loc s c = (Some p, Some p) -> locks s !! ptable_lock <> Some c.
Proof. intros Hk Hl H. apply (ki_lock s Hk) in H as [q Hq]. congruence. Qed.

(** Calls that return to the process. *)
Lemma kinv_frame s s' : kinv s -> frame s s' -> pcs_ok s' -> locks_ok s' ->
  table_ok (initproc s) (procs s') ->
  (forall p, in_tab p -> state (procs s' p) = RUNNING <-> state (procs s p) = RUNNING) -> kinv s'.
Proof.
  intros [K1 K2 K3 K4 K5 K6 K7 K8] [F1 F2 F3] Hp Hl Ht Hr. split; try done.
  - by rewrite F1.
  - intros c. rewrite F3, F2. apply K4.
  - intros c p. rewrite F2. apply K5.
  - intros c p a. rewrite F2. intros H. destruct (K6 c p a H) as (A1 & A2 & A3). by rewrite Hr.
  - intros c d p a b. rewrite !F2. apply K7.
  - intros p Hin. rewrite Hr by done. intros Hs. destruct (K8 p Hin Hs) as (c & a & Hc). exists c, a. by rewrite F2.
Qed.
(** CPU [c] moves to another place; it held [ptable.lock] or nobody did. *)
Section Move.
Context (c : nat) (s s' : kstate).
Hypotheses (Hk : kinv s) (Hp : pcs_ok s') (Hl : locks_ok s') (Ht : table_ok (initproc s') (procs s'))
  (Hother : forall d, d <> c -> loc s' d = loc s d)
  (Hbefore : locks s !! ptable_lock = None \/ locks s !! ptable_lock = Some c).
Lemma kinv_move :
  (forall d, locks s' !! ptable_lock = Some d <-> d = c /\ exists p, loc s' c = (None, Some p)) ->
  (forall p, loc s' c = (None, Some p) -> 0 <= p) ->
  (forall p a, loc s' c = (Some p, a) -> in_tab p /\ state (procs s' p) = RUNNING /\ a = Some p /\
     forall d b, d <> c -> loc s d <> (Some p, b)) ->
  (forall d p a, d <> c -> loc s d = (Some p, a) -> state (procs s' p) = RUNNING) ->
  (forall p, in_tab p -> state (procs s' p) = RUNNING ->
     (exists a, loc s' c = (Some p, a)) \/ (state (procs s p) = RUNNING /\ forall a, loc s c <> (Some p, a))) ->
  kinv s'.
Proof using All.
  intros Hlock Hat Hrun Hrest Honto. destruct Hk as [K1 K2 K3 K4 K5 K6 K7 K8].
  assert (Hno : forall d p, d <> c -> loc s d <> (None, Some p)).
  { intros d p Hd Hs. assert (locks s !! ptable_lock = Some d) by (apply K4; by exists p).
    destruct Hbefore; congruence. }
  split; try done.
  - intros d. rewrite Hlock. destruct (decide (d = c)) as [->|Hd]; [tauto|].
    rewrite (Hother d) by done. split; [tauto|]. intros [p Hs]. by apply Hno in Hs.
  - intros d p. destruct (decide (d = c)) as [->|Hd]; [apply Hat|]. rewrite Hother by done. by intros H%Hno.
  - intros d p a. destruct (decide (d = c)) as [->|Hd].
    + intros H. destruct (Hrun p a H) as (A1 & A2 & A3 & _). done.
    + rewrite Hother by done. intros H. destruct (K6 d p a H) as (A1 & _ & A3). split_and!; try done. by eapply Hrest.
  - intros d e p a b. destruct (decide (d = c)) as [->|Hd], (decide (e = c)) as [->|He]; try done.
    + rewrite (Hother e) by done. intros H H'. destruct (Hrun p a H) as (_ & _ & _ & Hn). by apply Hn in H'.
    + rewrite (Hother d) by done. intros H H'. destruct (Hrun p b H') as (_ & _ & _ & Hn). by apply Hn in H.
    + rewrite !Hother by done. apply K7.
  - intros p Hin Hs. destruct (Honto p Hin Hs) as [[a Ha]|[Hr Hn]]; [by exists c, a|].
    destruct (K8 p Hin Hr) as (d & a & Hd). exists d, a. rewrite Hother; [done|]. intros ->. by apply Hn in Hd.
Qed.
End Move.
(** Calls that end in [sched]. *)
Lemma kinv_switched c me s s' : kinv s -> switched c s s' None ->
  pcs_ok s' -> locks_ok s' -> loc s c = (Some me, Some me) ->
  table_ok (initproc s) (procs s') -> state (procs s' me) <> RUNNING ->
  (forall p, p <> me -> in_tab p -> state (procs s' p) = RUNNING <-> state (procs s p) = RUNNING) -> kinv s'.
Proof.
  intros Hk [S1 S2 S3 S4 S5] Hp Hl Hc Ht Hme Hr.
  assert (Ha : at_ (cpus s c) = Some me) by (unfold loc in Hc; congruence). rewrite Ha in S5. cbn in S5.
  destruct (ki_run s Hk c me _ Hc) as (Hin & Hst & _).
  apply (kinv_move c s s'); try done; try (by left).
  - by rewrite S1.
  - intros d. rewrite S3, S5. split; [intros [= <-]; split; [done | by eexists] | by intros [-> _]].
  - intros p. rewrite S5. intros [= <-]. unfold in_tab in Hin. lia.
  - intros p a. by rewrite S5.
  - intros d p a Hd H. destruct (ki_run s Hk d p a H) as (A1 & A2 & _). apply Hr; [|done|done].
    intros ->. apply Hd. by eapply (ki_uniq s Hk).
  - intros p Hpin Hs. right. assert (Hpm : p <> me) by (by intros ->). rewrite Hr in Hs by done.
    split; [done|]. intros a Hpa. congruence.
Qed.
(** A turn of the scheduler that does not leave the scheduler. *)
Lemma kinv_scan c p s s' : kinv s -> loc s c = (None, Some p) -> pcs_ok s' -> locks_ok s' ->
  initproc s' = initproc s -> table_ok (initproc s) (procs s') ->
  (forall d, d <> c -> loc s' d = loc s d) -> loc s' c = (None, Some (p + 1)) ->
  locks s' !! ptable_lock = Some c ->
  (forall q, in_tab q -> state (procs s' q) = RUNNING <-> state (procs s q) = RUNNING) -> kinv s'.
Proof.
  intros Hk Hc Hp Hl Hi Ht Ho Hc' Hlk Hr. pose proof (ki_at s Hk c p Hc) as H0.
  apply (kinv_move c s s'); try done.
  - by rewrite Hi.
  - right. apply (ki_lock s Hk). by exists p.
  - intros d. rewrite Hlk, Hc'. split; [intros [= <-]; split; [done | by eexists] | by intros [-> _]].
  - intros q. rewrite Hc'. intros [= <-]. lia.
  - intros q a. by rewrite Hc'.
  - intros d q a Hd H. destruct (ki_run s Hk d q a H) as (A1 & A2 & _). by apply Hr.
  - intros q Hq Hs. right. rewrite Hr in Hs by done. split; [done|]. intros a. by rewrite Hc.
Qed.
(** The scheduler switches to process [p]. *)
Lemma kinv_picked c p s s' : kinv s -> loc s c = (None, Some p) -> pcs_ok s' -> locks_ok s' ->
  initproc s' = initproc s -> table_ok (initproc s) (procs s') ->
  (forall d, d <> c -> loc s' d = loc s d) -> loc s' c = (Some p, Some p) -> locks s' !! ptable_lock = None ->
  in_tab p -> state (procs s p) <> RUNNING -> state (procs s' p) = RUNNING ->
  (forall q, q <> p -> in_tab q -> state (procs s' q) = RUNNING <-> state (procs s q) = RUNNING) -> kinv s'.
Proof.
  intros Hk Hc Hp Hl Hi Ht Ho Hc' Hlk Hin Hnr Hr Hrest.
  apply (kinv_move c s s'); try done.
  - by rewrite Hi.
  - right. apply (ki_lock s Hk). by exists p.
  - intros d. rewrite Hlk, Hc'. split; [done | by intros [_ [q ?]]].
  - intros q. by rewrite Hc'.
  - intros q a. rewrite Hc'. intros [= <- <-]. split_and!; try done. intros d b Hd H.
    destruct (ki_run s Hk d p b H) as (_ & ? & _). done.
  - intros d q a Hd H. destruct (ki_run s Hk d q a H) as (A1 & A2 & _). apply Hrest; [congruence | done | done].
  - intros q Hq Hs. destruct (decide (q = p)) as [->|Hqp]; [left; eexists; exact Hc'|]. right.
    rewrite Hrest in Hs by done. split; [done|]. intros a. by rewrite Hc.
Qed.

(** ** Every action keeps the invariant *)
Lemma same_state t t' p : same_table t t' -> state (t' p) = state (t p).
Proof. intros H. by destruct (view_fields _ _ (H p)) as (-> & _). Qed.
Lemma same_ok i t t' : same_table t t' -> table_ok i t -> table_ok i t'.
Proof. intros H Hok. eapply table_ok_proper; [reflexivity | symmetry; exact H | exact Hok]. Qed.
(** A running process changes its entry without stopping, waiting or forking. *)
Lemma running_step i t p y : table_ok i t -> in_tab p -> alive (t p) -> alive y -> parent y = parent (t p) ->
  ~ in_wait y -> (forall np, ~ forking y np) -> table_ok i (upd t p y).
Proof.
  intros Hok Hp Ha Hy Hpar Hw Hf. apply alive_step; try done. by intros np ?%Hf.
Qed.
Lemma running_alive x : state x = RUNNING -> alive x.
Proof. by right; right. Qed.
Lemma runnable_alive x : state x = RUNNABLE -> alive x.
Proof. by right; left. Qed.
Lemma sleeping_alive x : state x = SLEEPING -> alive x.
Proof. by left. Qed.
#[local] Hint Resolve running_alive runnable_alive sleeping_alive : core.

Section Actions.
Context (kend kdata : Z) (c : nat).

Lemma kinv_top s s' : kinv s -> idle c s -> pcs_ok s' -> locks_ok s' -> scheduler_top c s = Ok (tt, s') -> kinv s'.
Proof.
  intros Hk [Hc1 Hc2] Hp Hl H. apply top_inv in H as (T1 & T2 & T3 & T4 & T5 & T6). rewrite Hc1 in T6.
  assert (Hc : loc s c = (None, None)) by (unfold loc; by rewrite Hc1, Hc2).
  apply (kinv_move c s s'); try done.
  - rewrite T3, T4. apply Hk.
  - by left.
  - intros d. rewrite T2, T6. split; [intros [= <-]; split; [done | by eexists] | by intros [-> _]].
  - intros p. rewrite T6. intros [= <-]. lia.
  - intros p a. by rewrite T6.
  - intros d p a _ H. rewrite T4. by destruct (ki_run s Hk d p a H) as (_ & ? & _).
  - intros p _. rewrite T4. intros Hs. right. split; [done|]. intros a. by rewrite Hc.
Qed.

Lemma kinv_fork_begin s s' r : kinv s -> running c s Run -> pcs_ok s' -> locks_ok s' ->
  fork_begin c s = Ok (r, s') -> kinv s'.
Proof.
  intros Hk (me & Hme & Hpc) Hp Hl H. unfold fork_begin, on_proc in H. pinv.
  match goal with R : myproc _ _ = Ok (?m, _) |- _ => apply myproc_run in R as [Hme' ->] end.
  destruct (ki_me s c me Hk Hme) as (Hin & Hst & Hat & Hloc). rewrite Hme in Hme'. injection Hme' as <-.
  match goal with R : allocproc _ _ = Ok (?v, ?b) |- _ => rename b into s1; rename v into v1;
    apply allocproc_inv in R as (_ & F & Ht) end.
  destruct v1 as [np|]; pinv.
  2:{ eapply (kinv_frame s); try done; [by eapply same_ok, Hk|].
      intros p _. by rewrite (same_state _ _ p Ht). }
  destruct Ht as (Hnp & Hun & y & Hy & Hpar & Ht). assert (Hne : np <> me) by congruence.
  set (t1 := upd (procs s) np y) in *.
  assert (Hok1 : table_ok (initproc s) t1).
  { apply (unborn_step _ _ _ _ (ki_table s Hk) Hnp); try done.
    - unfold born, alive. rewrite Hun. naive_solver.
    - unfold born, alive. rewrite Hy. naive_solver. }
  assert (Hm1 : t1 me = procs s me) by (by apply upd_ne).
  assert (Hts : same_table (upd t1 me (set_pc (In_fork np) (procs s me))) (procs (set_proc me (set_pc (In_fork np)) s1))).
  { intros q. cbn. destruct (decide (q = me)) as [->|].
    - rewrite !upd_eq. apply view_set_pc. by rewrite Ht, Hm1.
    - by rewrite !upd_ne. }
  eapply (kinv_frame s); try done.
  - etransitivity; [exact F | apply frame_proc].
  - eapply same_ok; [exact Hts|]. apply alive_step; try done.
    + rewrite Hm1. auto.
    + cbn. auto.
    + by rewrite Hm1.
    + intros [Hw _]. cbn in Hw. congruence.
    + intros np' [_ [= <-]]. split; [done|]. split; [unfold t1; by rewrite upd_eq|].
      intros q Hq Hqme Hf. destruct (decide (q = np)) as [->|Hqn].
      { unfold t1 in Hf. rewrite upd_eq in Hf. destruct Hf; congruence. }
      unfold t1 in Hf. rewrite upd_ne in Hf by done. destruct (to_fork _ _ (ki_table s Hk) q np Hq Hf). congruence.
  - intros p Hp'. rewrite (same_state _ _ p Hts). upd_cases; [done|]. unfold t1. upd_cases; [|done].
    rewrite Hy, Hun. done.
Qed.

Lemma kinv_fork_rest s s' np r : kinv s -> running c s (In_fork np) -> pcs_ok s' -> locks_ok s' ->
  fork_rest kend kdata c np s = Ok (r, s') -> kinv s'.
Proof.
  intros Hk (me & Hme & Hpc) Hp Hl H. apply fork_rest_inv in H as (me' & y & Hme' & F & Hy & Ht).
  rewrite Hme in Hme'. injection Hme' as <-. destruct (ki_me s c me Hk Hme) as (Hin & Hst & Hat & Hloc).
  destruct (to_fork _ _ (ki_table s Hk) me np Hin) as [Hnp Hemb]; [done|].
  assert (Hne : np <> me) by congruence.
  set (x1 := set_pc Run (procs s me)).
  assert (Hok1 : table_ok (initproc s) (upd (procs s) me x1)).
  { apply running_step; try done; [apply Hk | auto | cbn; auto | |]; intros; intros [? ?]; cbn in *; congruence. }
  assert (Hts : same_table (upd (upd (procs s) me x1) np y) (procs s')).
  { intros q. rewrite Ht. rewrite (upd_ne (procs s) np me y) by done. fold x1. by upd_cases. }
  assert (Hnb : ~ born (upd (procs s) me x1 np)).
  { rewrite upd_ne by done. unfold born, alive. rewrite Hemb. naive_solver. }
  assert (Hnf : forall q, in_tab q -> ~ forking (upd (procs s) me x1 q) np).
  { intros q Hq Hf. destruct (decide (q = me)) as [->|Hq'].
    - rewrite upd_eq in Hf. by destruct Hf.
    - rewrite upd_ne in Hf by done. apply Hq'. by eapply (to_fork_inj _ _ (ki_table s Hk) q me np). }
  eapply (kinv_frame s); try done.
  - eapply same_ok; [exact Hts|]. destruct Hy as [[Hy1 Hy2]|[Hy1 Hy2]].
    + apply (unborn_step _ _ _ _ Hok1 Hnp); try done.
      * unfold born, alive. rewrite Hy1. naive_solver.
      * by rewrite upd_ne.
    + apply (birth_step _ _ _ _ Hok1 Hnp me); try done; rewrite upd_eq; [by apply running_alive|].
      intros [? _]. cbn in *. congruence.
  - intros p Hp'. rewrite (same_state _ _ p Hts). upd_cases; [|done|done].
    rewrite Hemb. destruct Hy as [[-> _]|[-> _]]; done.
Qed.

Lemma kinv_exit s s' : kinv s -> running c s Run -> pcs_ok s' -> locks_ok s' -> exit kend c s = Ok (tt, s') -> kinv s'.
Proof.
  intros Hk (me & Hme & _) Hp Hl H. apply exit_inv in H as (me' & Hme' & Hsw & Ht & Hz & Hr).
  - rewrite Hme in Hme'. injection Hme' as <-. destruct (ki_me s c me Hk Hme) as (_ & _ & _ & Hloc).
    apply (kinv_switched c me s s'); try done; [congruence|]. intros p Hp' _. by apply Hr.
  - apply Hk.
  - intros p Hc. by destruct (ki_me s c p Hk Hc) as (? & ? & _).
Qed.

(** A process stops running and stays alive. *)
Lemma kinv_stop me y s s' : kinv s -> cproc (cpus s c) = Some me -> pcs_ok s' -> locks_ok s' -> switched c s s' None ->
  same_table (upd (procs s) me y) (procs s') -> alive y -> state y <> RUNNING -> parent y = parent (procs s me) ->
  (in_wait y -> chan y = Some (Ch_proc me) /\ killed y = 0 /\ (exists q, child (procs s) me q) /\
    forall q, child (procs s) me q -> state (procs s q) <> ZOMBIE) -> kinv s'.
Proof.
  intros Hk Hme Hp Hl Hsw Ht Ha Hnr Hpar Hw. destruct (ki_me s c me Hk Hme) as (Hin & Hst & _ & Hloc).
  apply (kinv_switched c me s s'); try done.
  - eapply same_ok; [exact Ht|]. apply alive_step; try done; [apply Hk | auto |]. intros np [? _]. done.
  - rewrite (same_state _ _ me Ht). by rewrite upd_eq.
  - intros p Hp' _. rewrite (same_state _ _ p Ht). by rewrite upd_ne.
Qed.
Lemma kinv_yield s s' : kinv s -> pcs_ok s' -> locks_ok s' -> yield c s = Ok (tt, s') -> kinv s'.
Proof.
  intros Hk Hp Hl H. apply yield_inv in H as (me & Hme & Hsw & Ht).
  eapply kinv_stop; try done; [cbn; auto|]. intros [? _]. done.
Qed.
Lemma kinv_sleep ch lk s s' : kinv s -> lk <> ptable_lock -> pcs_ok s' -> locks_ok s' ->
  sleep c (Some (Ch_addr ch)) lk s = Ok (tt, s') -> kinv s'.
Proof.
  intros Hk Hlk Hp Hl H. apply sleep_inv in H as (me & Hme & Hsw & Ht); [|done].
  eapply kinv_stop; try done; [cbn; auto|]. intros [_ ?]. done.
Qed.

(** A process that goes on running. *)
Lemma kinv_go me y s s' : kinv s -> cproc (cpus s c) = Some me -> pcs_ok s' -> locks_ok s' -> frame s s' ->
  same_table (upd (procs s) me y) (procs s') -> state y = RUNNING -> parent y = parent (procs s me) ->
  (forall np, pc y <> In_fork np) -> kinv s'.
Proof.
  intros Hk Hme Hp Hl F Ht Hy Hpar Hf. destruct (ki_me s c me Hk Hme) as (Hin & Hst & _ & Hloc).
  apply (kinv_frame s s'); try done.
  - eapply same_ok; [exact Ht|]. apply running_step; try done; [apply Hk | auto | auto | |].
    + intros [? _]. congruence.
    + intros np [_ ?]. by apply (Hf np).
  - intros p _. rewrite (same_state _ _ p Ht). upd_cases; [by rewrite Hy, Hst | done].
Qed.
Lemma reaped_ok i t t' me : table_ok i t -> in_tab me -> state (t me) = RUNNING -> reaped t t' me ->
  table_ok i t' /\ t' me = t me /\ forall p, state (t' p) = RUNNING <-> state (t p) = RUNNING.
Proof.
  intros Hok Hin Hst [->|(q & y & Hq & Hpar & Hz & Hy & Hyp & ->)]; [done|].
  assert (Hqm : q <> me) by congruence. split; [|split].
  - eapply (reap_step _ _ _ _ Hok Hq me); try done. intros [? _]. congruence.
  - by rewrite upd_ne.
  - intros p. upd_cases; [by rewrite Hy, Hz | done].
Qed.
Lemma kinv_wait s s' r : kinv s -> pcs_ok s' -> locks_ok s' -> wait kend c s = Ok (r, s') -> kinv s'.
Proof.
  intros Hk Hp Hl H. unfold wait in H. pinv.
  match goal with R : acquire _ _ _ = Ok (_, ?b) |- _ => rename b into s1; apply acquire_table in R as [A1 A2 A3 A4 A5] end.
  apply wait_turn_inv in H as (me & Hme & H).
  assert (Hme' : cproc (cpus s c) = Some me) by (pose proof (A3 c) as E; unfold loc in E; congruence).
  assert (Hat' : at_ (cpus s1 c) = at_ (cpus s c)) by (pose proof (A3 c) as E; unfold loc in E; congruence).
  destruct (ki_me s c me Hk Hme') as (Hin & Hst & _ & Hloc). rewrite A1 in H. destruct r as [v|].
  - destruct H as (I & L & _ & B5 & t' & Hre & Ht).
    destruct (reaped_ok _ _ _ _ (ki_table s Hk) Hin Hst Hre) as (Hok & Hm & Hr).
    apply (kinv_frame s s'); try done.
    + split; [congruence | intros d; by rewrite L | by rewrite B5].
    + eapply same_ok; [exact Ht|]. rewrite Hm.
      apply running_step; try done; rewrite ?Hm; auto; intros; intros [? ?]; cbn in *; congruence.
    + intros p _. rewrite (same_state _ _ p Ht), <- Hr. by upd_cases.
  - destruct H as ([S1 S2 S3 S4 S5] & Hki & Hkid & Hnz & Ht).
    eapply (kinv_stop me); try done; [|cbn; auto].
    split; [congruence | done | done | intros d Hd; by rewrite S4, A3 | by rewrite S5, Hat'].
Qed.
Lemma kinv_sleep_end lk s s' : kinv s -> running c s (Reacquire lk) -> lk <> ptable_lock -> pcs_ok s' -> locks_ok s' ->
  reacquire c lk s = Ok (tt, s') -> kinv s'.
Proof.
  intros Hk _ Hlk Hp Hl H. apply reacquire_inv in H as (me & Hme & F & Ht); [|done].
  destruct (ki_me s c me Hk Hme) as (_ & Hst & _). by eapply (kinv_go me).
Qed.
Lemma kinv_wakeup ch s s' : kinv s -> pcs_ok s' -> locks_ok s' -> wakeup c ch s = Ok (tt, s') -> kinv s'.
Proof.
  intros Hk Hp Hl [F Hc]%wakeup_inv. apply (kinv_frame s s'); try done.
  - eapply wake_step; [apply Hk | done].
  - intros p _. by apply calmer_state.
Qed.
Lemma kinv_quiet s s' : kinv s -> pcs_ok s' -> locks_ok s' -> quiet s s' -> kinv s'.
Proof.
  intros Hk Hp Hl [F Ht]. apply (kinv_frame s s'); try done; [by eapply same_ok, Hk|].
  intros p _. by rewrite (same_state _ _ p Ht).
Qed.

Lemma kinv_kill n s s' r : kinv s -> pcs_ok s' -> locks_ok s' -> kill c n s = Ok (r, s') -> kinv s'.
Proof.
  intros Hk Hp Hl H. apply kill_inv in H as [F [Hsame|(p & Hin & _ & Hq)]].
  { apply (kinv_quiet s); try done. split; [done|]. intros p. by rewrite Hsame. }
  set (y := set_killed 1 (if is_state SLEEPING (procs s p) then set_state RUNNABLE (procs s p) else procs s p)) in *.
  assert (Ht : same_table (upd (procs s) p y) (procs s')).
  { intros q. rewrite Hq. by upd_cases. }
  unfold is_state in y. destruct (bool_decide_reflect (state (procs s p) = SLEEPING)) as [Hs|Hs].
  - apply (kinv_frame s s'); try done.
    + eapply same_ok; [exact Ht|]. apply running_step; try done; [apply Hk | auto | apply runnable_alive; done | |].
      * by intros [? _].
      * by intros np [? _].
    + intros q _. rewrite (same_state _ _ q Ht). upd_cases; [cbn; rewrite Hs; done | done].
  - apply (kinv_frame s s'); try done.
    + eapply same_ok; [exact Ht|]. apply inert_step; try done; [apply Hk|]. by intros [? _].
    + intros q _. rewrite (same_state _ _ q Ht). by upd_cases.
Qed.
Lemma kinv_lock lk s s' : kinv s -> lk <> ptable_lock -> pcs_ok s' -> locks_ok s' ->
  (acquire c lk s = Ok (tt, s') \/ release c lk s = Ok (tt, s')) -> kinv s'.
Proof.
  intros Hk Hlk Hp Hl H. apply (kinv_quiet s); try done.
  destruct H as [(_ & E & P1 & I1 & L1 & _)%acquire_inv|(_ & E & P1 & I1 & L1 & _)%release_inv].
  - split; [|intros p; by rewrite P1]. split; [done | done |]. rewrite E. by apply lookup_insert_ne.
  - split; [|intros p; by rewrite P1]. split; [done | done |]. rewrite E. by apply lookup_delete_ne.
Qed.
Lemma kinv_if b s : kinv s -> locks_ok (set_cpu c (fun u => mkCpu (ncli u) (intena u) b (cproc u) (cr3 u) (at_ u)) s) ->
  kinv (set_cpu c (fun u => mkCpu (ncli u) (intena u) b (cproc u) (cr3 u) (at_ u)) s).
Proof.
  intros Hk Hl. apply (kinv_quiet s); try done; [apply Hk|]. split; [|done]. split; [done | | done].
  intros d. unfold loc. cbn. by case_decide; [subst|].
Qed.

(** ** A turn of the scheduler *)

(** The table with [p] picked. *)
Definition picked (t : Z -> proc) (p : Z) : Z -> proc := upd t p (set_state RUNNING (t p)).
Lemma picked_step i t p y : table_ok i t -> in_tab p -> state (t p) = RUNNABLE -> state y = RUNNING ->
  parent y = parent (t p) -> (forall np, pc y <> In_fork np) -> table_ok i (upd t p y).
Proof.
  intros Hok Hin Hs Hy Hpar Hf. apply running_step; try done; auto.
  - intros [? _]. congruence.
  - intros np [_ ?]. by apply (Hf np).
Qed.
Lemma kinv_turn p s s' : kinv s -> scanning c s p -> pcs_ok s' -> locks_ok s' ->
  scheduler_turn kend c p s = Ok (tt, s') -> kinv s'.
Proof.
  intros Hk [Hc Ha] Hp Hl H. unfold scheduler_turn, on_cpu, the_proc in H.
  assert (Hloc : loc s c = (None, Some p)) by (unfold loc; by rewrite Hc, Ha).
  assert (Hlk : locks s !! ptable_lock = Some c) by (apply (ki_lock s Hk); by exists p).
  pose proof (ki_at s Hk c p Hloc) as Hp0.
  destruct (Z.geb_spec p NPROC) as [Hge|Hlt].
  { pinv. match goal with R : release _ _ _ = Ok (_, ?b) |- _ => rename b into s1;
      apply release_table in R as [B1 B2 B3 B4 B5] end.
    assert (Hh : loc (set_cpu c (fun u => mkCpu (ncli u) (intena u) (IF u) (cproc u) (cr3 u) None) s1) c = (None, None)).
    { pose proof (B3 c) as E. unfold loc in *. cbn. rewrite decide_True by done. cbn. congruence. }
    apply (kinv_move c s); try done.
    - cbn. rewrite B1, B2. apply Hk.
    - intros d Hd. rewrite <- B3. unfold loc. cbn. by rewrite decide_False.
    - by right.
    - intros d. cbn. rewrite B5, Hh. split; [done | by intros [_ [q ?]]].
    - intros q. by rewrite Hh.
    - intros q a. by rewrite Hh.
    - intros d q a _ Hd. cbn. rewrite B1. by destruct (ki_run s Hk d q a Hd) as (_ & ? & _).
    - intros q _. cbn. rewrite B1. intros Hs. right. split; [done|]. intros a. by rewrite Hloc. }
  assert (Hin : in_tab p) by (unfold in_tab; lia). pinv.
  destruct (is_state RUNNABLE (procs s p)) eqn:Er; cbn [negb] in H.
  2:{ pinv. eapply (kinv_scan c p s); try done; [apply Hk | |].
      - intros d Hd. unfold loc. cbn. by rewrite decide_False.
      - unfold loc. cbn. rewrite decide_True by done. cbn. by rewrite Hc. }
  apply bool_decide_eq_true in Er. pinv.
  match goal with R : switchuvm _ _ _ = Ok (_, ?b) |- _ => rename b into s1;
    apply switchuvm_inv in R as ([F1 F2 F3] & E1 & _) end. cbn in E1, F3.
  unfold on_proc in *. pinv. set (s2 := set_proc p (set_state RUNNING) s1) in *.
  assert (L2 : forall d, d <> c -> loc s2 d = loc s d).
  { intros d Hd. transitivity (loc s1 d); [done|]. rewrite F2. unfold loc. cbn. by rewrite decide_False. }
  assert (L2c : cproc (cpus s2 c) = Some p /\ at_ (cpus s2 c) = Some p).
  { pose proof (F2 c) as E. unfold loc in E. cbn in E. rewrite decide_True in E by done. cbn in E.
    injection E as E2 E3. done. }
  destruct L2c as [C2 A2].
  assert (P2 : procs s2 = upd (procs s) p (set_state RUNNING (procs s p))) by (cbn; by rewrite E1).
  assert (I2 : initproc s2 = initproc s) by done.
  apply resume_inv in H; [|done|done|].
  2:{ intros lk. rewrite P2, upd_eq. cbn. intros E. pose proof (ki_pcs s Hk p) as Hf. rewrite E in Hf. done. }
  destruct H as [(k & [S1 S2 S3 S4 S5] & Hkc & Ht)|(Hpc & s3 & [G1 G2 G3] & E3 & C3 & A3 & r & Hw)].
  - assert (Hy : exists y, same_table (upd (procs s) p y) (procs s') /\ state y = RUNNING /\
      parent y = parent (procs s p) /\ pc y = k).
    { destruct Ht as [Ht|Ht]; eexists; (split; [etransitivity; [|exact Ht]; rewrite P2, upd_eq; intros q; by upd_cases | done]). }
    destruct Hy as (y & Hts & Hy1 & Hy2 & Hy3).
    apply (kinv_picked c p s s'); try done.
    + congruence.
    + eapply same_ok; [exact Hts|]. apply picked_step; try done; [apply Hk|].
      intros np. rewrite Hy3. destruct Hkc as [->|[lk ->]]; done.
    + intros d Hd. rewrite S4 by done. by apply L2.
    + congruence.
    + rewrite (same_state _ _ p Hts). by rewrite upd_eq.
    + intros q Hq _. rewrite (same_state _ _ q Hts). by rewrite upd_ne.
  - apply wait_turn_inv in Hw as (me & Hme & Hw). assert (me = p) as -> by congruence.
    set (y := set_chan None (set_state RUNNING (procs s p))).
    assert (P3 : same_table (upd (procs s) p y) (procs s3)).
    { intros q. rewrite E3, P2, upd_eq. by upd_cases. }
    assert (Hok3 : table_ok (initproc s) (procs s3)).
    { eapply same_ok; [exact P3|]. apply picked_step; try done; [apply Hk|]. intros np E. rewrite P2, upd_eq in Hpc. cbn in *. congruence. }
    assert (Hst3 : state (procs s3 p) = RUNNING) by (rewrite (same_state _ _ p P3); by rewrite upd_eq).
    assert (Hr3 : forall q, q <> p -> state (procs s3 q) = RUNNING <-> state (procs s q) = RUNNING).
    { intros q Hq. rewrite (same_state _ _ q P3). by rewrite upd_ne. }
    destruct r as [v|].
    + destruct Hw as (I4 & L4 & _ & B4 & t' & Hre & Ht).
      destruct (reaped_ok _ _ _ _ Hok3 Hin Hst3 Hre) as (Hok4 & Hm & Hr).
      apply (kinv_picked c p s s'); try done.
      * congruence.
      * eapply same_ok; [exact Ht|]. rewrite Hm.
        apply running_step; try done; rewrite ?Hm; auto; intros; intros [? ?]; cbn in *; congruence.
      * intros d Hd. rewrite L4, G2. by apply L2.
      * rewrite L4. unfold loc. by rewrite C3, A3.
      * congruence.
      * rewrite (same_state _ _ p Ht). rewrite upd_eq. cbn. by rewrite Hm.
      * intros q Hq _. rewrite (same_state _ _ q Ht). rewrite upd_ne by done. by rewrite Hr, Hr3.
    + destruct Hw as ([W1 W2 W3 W4 W5] & Hki & Hkid & Hnz & Ht). rewrite A3 in W5.
      apply (kinv_scan c p s s'); try done.
      * congruence.
      * eapply same_ok; [exact Ht|]. apply alive_step; try done; [auto | cbn; auto |]. by intros np [? _].
      * intros d Hd. rewrite W4 by done. rewrite G2. by apply L2.
      * intros q Hq. rewrite (same_state _ _ q Ht). upd_cases; [cbn; rewrite Er; done | by apply Hr3].
Qed.

Lemma act_kinv a s s' : act kend kdata c a s s' -> kinv s -> kinv s'.
Proof.
  intros H Hk. pose proof (act_pcs _ _ _ _ _ _ H (ki_pcs s Hk)) as Hp.
  pose proof (act_locks _ _ _ _ _ _ H (ki_locks s Hk)) as Hl.
  destruct H as [s s' Hi Hn H | s s' p Hs H | s s' r Hr H | s s' np r Hr H | s s' Hr H | s s' r Hr H
    | s s' Hr H | s s' ch lk Hr Hlk H | s s' lk Hr H | s s' ch H | s s' n r Hr H | s s' n r Hr H | s s' lk Hlk H
    | s s' lk Hlk H | s b Hn].
  - by eapply kinv_top.
  - by eapply kinv_turn.
  - by eapply kinv_fork_begin.
  - by eapply kinv_fork_rest.
  - by eapply kinv_exit.
  - by eapply kinv_wait.
  - by eapply kinv_yield.
  - by eapply kinv_sleep.
  - eapply kinv_sleep_end; try done. destruct Hr as (p & _ & Hpc). pose proof (ki_pcs s Hk p) as Hf.
    by rewrite Hpc in Hf.
  - by eapply kinv_wakeup.
  - by eapply kinv_kill.
  - eapply (kinv_quiet s); try done. by eapply growproc_inv.
  - eapply kinv_lock; eauto.
  - eapply kinv_lock; eauto.
  - by apply kinv_if.
Qed.
End Actions.

(** ** From boot on *)

(** The machine when the schedulers start: process 0 is init, ready to run for
    the first time; every other entry is unused; every CPU is idle. *)
Record boot (s : kstate) : Prop := mkBoot {
  bo_init : initproc s = Some 0;
  bo_first : state (procs s 0) = RUNNABLE /\ parent (procs s 0) = None /\ pc (procs s 0) = In_forkret;
  bo_rest : forall p, p <> 0 -> state (procs s p) = UNUSED /\ parent (procs s p) = None /\ pc (procs s p) = Run;
  bo_locks : locks s = ∅;
  bo_cpus : forall c, ncli (cpus s c) = 0 /\ cproc (cpus s c) = None /\ at_ (cpus s c) = None }.

Lemma boot_kinv s : boot s -> kinv s.
Proof.
  intros [B1 (B2 & B3 & B4) B5 B6 B7].
  assert (Hloc : forall c, loc s c = (None, None)) by (intros c; unfold loc; by destruct (B7 c) as (_ & -> & ->)).
  assert (Hrun : forall p, state (procs s p) <> RUNNING).
  { intros p Hp. destruct (decide (p = 0)) as [->|Hp0]; [congruence|]. destruct (B5 p Hp0). congruence. }
  assert (Hnc : forall p q, ~ child (procs s) p q).
  { intros p q [_ Hq]. destruct (decide (q = 0)) as [->|Hq0]; [congruence|]. destruct (B5 q Hq0) as (_ & ? & _). congruence. }
  split.
  - rewrite B1. split.
    + exists 0. split; [done|]. split; [done|]. split; [right; by left | done].
    + intros p. apply Hnc.
    + intros p q H. by apply Hnc in H.
    + intros q Hq Hb. left. f_equal. destruct (decide (q = 0)) as [->|Hq0]; [done|].
      destruct (B5 q Hq0) as (E & _). unfold born, alive in Hb. rewrite E in Hb. naive_solver.
    + intros p _ [Hs _]. destruct (decide (p = 0)) as [->|Hp0]; [congruence|]. destruct (B5 p Hp0). congruence.
    + intros p np _ [Hs _]. by apply Hrun in Hs.
    + intros p p' np _ _ [Hs _]. by apply Hrun in Hs.
  - intros p. destruct (decide (p = 0)) as [->|Hp0]; [by rewrite B4|]. by destruct (B5 p Hp0) as (_ & _ & ->).
  - intros c. unfold held. rewrite B6. destruct (B7 c) as (-> & _). split; [by rewrite map_filter_empty, map_size_empty | lia].
  - intros c. rewrite B6, lookup_empty, Hloc. split; [done | by intros [p ?]].
  - intros c p. by rewrite Hloc.
  - intros c p a. by rewrite Hloc.
  - intros c d p a b. by rewrite Hloc.
  - intros p _ Hp. by apply Hrun in Hp.
Qed.

Lemma rtc_kinv kend kdata s0 s : rtc (kstep kend kdata) s0 s -> kinv s0 -> kinv s.
Proof. induction 1 as [|x y z [c [a Hact]] _ IH]; [done|]. intros Hk. apply IH. by eapply act_kinv. Qed.

Section Reachable.
Context (kend kdata : Z) (s0 s : kstate).
Hypotheses (Hboot : boot s0) (Hreach : rtc (kstep kend kdata) s0 s).
Lemma reachable_kinv : kinv s.
Proof using All. eapply rtc_kinv; [exact Hreach | by apply boot_kinv]. Qed.

(** C20 A process runs on one CPU at most, and exactly the processes in state
    RUNNING run: in every state the CPUs can reach by interleaving scheduler
    turns, system calls, sleeps, wakeups and interrupts, two CPUs never run the
    same process, and a process table entry is RUNNING if and only if some CPU
    has it as its current process. *)
Theorem running_exclusive :
  (forall c d p, cproc (cpus s c) = Some p -> cproc (cpus s d) = Some p -> c = d) /\
  (forall p, in_tab p -> (state (procs s p) = RUNNING <-> exists c, cproc (cpus s c) = Some p)).
Proof using All.
  pose proof reachable_kinv as Hk. split.
  - intros c d p Hc Hd. destruct (ki_me s c p Hk Hc) as (_ & _ & _ & Lc).
    destruct (ki_me s d p Hk Hd) as (_ & _ & _ & Ld). by eapply (ki_uniq s Hk).
  - intros p Hp. split.
    + intros Hs. destruct (ki_onto s Hk p Hp Hs) as (c & a & Hc). exists c. unfold loc in Hc. congruence.
    + intros [c Hc]. by destruct (ki_me s c p Hk Hc) as (_ & ? & _).
Qed.

(** Who sleeps in [wait] has a child, has not been killed, and none of its
    children is a zombie. *)
Definition waiters_ok : Prop := forall p, in_tab p -> in_wait (procs s p) ->
  killed (procs s p) = 0 /\ (exists q, child (procs s) p q) /\
  forall q, child (procs s) p q -> state (procs s q) <> ZOMBIE.
(** C21 The exit of a child is never missed: in every reachable state, a process
    that sleeps in [wait] has a child, has not been killed, and none of its
    children is a zombie.  So a zombie's parent is awake and will find it. *)
Theorem wait_misses_no_child : waiters_ok.
Proof using All.
  intros p Hp Hw. by destruct (to_wait _ _ (ki_table s reachable_kinv) p Hp Hw) as (_ & ? & ? & ?).
Qed.

(** There are no orphans: in every reachable state init is alive, and every
    other process that is alive or a zombie has a parent that is alive, so
    every zombie has somebody to reap it. *)
Theorem no_orphans :
  exists i, initproc s = Some i /\ alive (procs s i) /\
    forall q, in_tab q -> born (procs s q) -> q <> i -> exists p, parent (procs s q) = Some p /\ alive (procs s p).
Proof using All.
  pose proof (ki_table s reachable_kinv) as Hok. destruct (to_init _ _ Hok) as (i & Hi & Hin & Ha & _).
  exists i. split; [done|]. split; [done|]. intros q Hq Hb Hne.
  destruct (to_child _ _ Hok q Hq Hb) as [|[p Hp]]; [congruence|].
  destruct (to_parent _ _ Hok p q Hp) as (_ & Hpa & _). exists p. split; [apply Hp | done].
Qed.
End Reachable.

(** ** The switch to the scheduler *)
Lemma held_none s c : (forall lk, locks s !! lk <> Some c) -> held s c = 0.
Proof.
  intros H. unfold held. replace (filter _ (locks s)) with (∅ : gmap Z nat); [done|].
  symmetry. apply map_empty_filter_2. intros lk d Hd. cbn. intros ->. by apply (H lk).
Qed.
Lemma pushcli_run c s : exists s', pushcli c s = Ok (tt, s') /\ locks s' = locks s /\ procs s' = procs s /\
  ncli (cpus s' c) = ncli (cpus s c) + 1 /\ IF (cpus s' c) = false /\ cproc (cpus s' c) = cproc (cpus s c).
Proof. eexists. split; [reflexivity|]. cbn. by rewrite !decide_True. Qed.

(** Giving up the CPU never trips the checks of [sched].  In every reachable
    state, a process that holds no spin lock and calls [yield] is switched out
    if [ptable.lock] is free; if another CPU holds it, the call spins.  It never
    panics, whatever the interrupt state. *)
Theorem yield_switches kend kdata s0 s c p :
  boot s0 -> rtc (kstep kend kdata) s0 s -> cproc (cpus s c) = Some p -> (forall lk, locks s !! lk <> Some c) ->
  match locks s !! ptable_lock with
  | None => exists s', yield c s = Ok (tt, s') /\ state (procs s' p) = RUNNABLE /\ cproc (cpus s' c) = None
  | Some _ => yield c s = OutOfFuel
  end.
Proof.
  intros Hb Hr Hc Hnl. pose proof (reachable_kinv kend kdata s0 s Hb Hr) as Hk.
  destruct (ki_locks s Hk c) as [Hn _]. rewrite held_none in Hn by done.
  unfold yield, acquire. destruct (pushcli_run c s) as (s1 & E1 & L1 & P1 & N1 & I1 & C1). rewrite Hn in N1.
  assert (Hh : holding c ptable_lock s1 = Ok (false, s1)).
  { unfold holding, gets. rewrite L1. do 2 f_equal. apply bool_decide_eq_false. apply Hnl. }
  rewrite bind_assoc, (bind_Ok _ _ _ _ _ E1), bind_assoc, (bind_Ok _ _ _ _ _ Hh).
  rewrite bind_assoc. erewrite bind_Ok; [|reflexivity]. rewrite L1.
  destruct (locks s !! ptable_lock) as [d|] eqn:El; [reflexivity|].
  erewrite bind_Ok; [|reflexivity]. set (s2 := set_locks (insert ptable_lock c) s1).
  assert (Hm : myproc c s2 = Ok (p, s2)).
  { unfold myproc, the_cpu. erewrite bind_Ok; [|reflexivity]. cbn. by rewrite C1, Hc. }
  rewrite (bind_Ok _ _ _ _ _ Hm). erewrite bind_Ok; [|reflexivity].
  set (s3 := set_proc p (set_state RUNNABLE) s2). unfold sched.
  assert (Hh3 : holding c ptable_lock s3 = Ok (true, s3)).
  { unfold holding, gets. do 2 f_equal. apply bool_decide_eq_true. cbn. by apply lookup_insert_eq. }
  rewrite (bind_Ok _ _ _ _ _ Hh3). cbn [negb]. erewrite bind_Ok; [|reflexivity].
  assert (Hn3 : ncli (cpus s3 c) = 1) by (cbn; lia). rewrite Hn3.
  change (negb (1 =? 1)) with false. cbn iota.
  assert (Hm3 : myproc c s3 = Ok (p, s3)).
  { unfold myproc, the_cpu. erewrite bind_Ok; [|reflexivity]. cbn. by rewrite C1, Hc. }
  rewrite (bind_Ok _ _ _ _ _ Hm3). erewrite bind_Ok; [|reflexivity].
  assert (Hs3 : is_state RUNNING (procs s3 p) = false) by (unfold is_state; cbn; by rewrite upd_eq).
  rewrite Hs3. assert (Hi3 : IF (cpus s3 c) = false) by (cbn; done). rewrite Hi3.
  eexists. split; [reflexivity|]. cbn. rewrite !upd_eq. cbn. split; [done|].
  rewrite !decide_True by done. done.
Qed.
