(* ===== verification/ProcWitness.v ===== *)
(** * ProcWitness: a machine that has just booted *)
From S2P Require Import Prelude CString Vm VmFacts Startup Fs Pipe File Proc ProcTable ProcFacts ProcInv.

Definition blank_tf : trapframe := mkTf 0 0 0 0 0 0 0 0 [].
Definition blank_proc : proc := mkProc 0 0 0 UNUSED 0 None blank_tf Run None 0 (replicate 16 None) None [] false.
Definition init_proc : proc :=
  mkProc PGSIZE 0x80401000 0x80402000 RUNNABLE 1 None blank_tf In_forkret None 0 (replicate 16 None) (Some 0) [] false.
(** One free page, at 4 MB. *)
Definition blank_kern : kfiles :=
  (mkV (fun _ => 0) 0x80400000, mkFilesys [] (mkF (fun _ => 0) [] []) (fun _ => pipe_init [])).
Definition idle_cpu : cpu := mkCpu 0 false true None 0 None.
Definition booted : kstate :=
  mkK (fun p => if p =? 0 then init_proc else blank_proc) (Some 0) 2 ∅ (fun _ => idle_cpu) blank_kern.

Lemma booted_ok : boot booted.
Proof.
  split; try done. intros p Hp. cbn. by destruct (Z.eqb_spec p 0).
Qed.
(** CPU 0 has entered its scheduling loop and switched to init. *)
Definition after_top : kstate :=
  match scheduler_top 0 booted with Ok (_, s) => s | _ => booted end.
Definition init_runs : kstate :=
  match scheduler_turn 0 0 0 after_top with Ok (_, s) => s | _ => booted end.
Definition returns {A} (o : outcome A) : bool := match o with Ok _ => true | _ => false end.
Lemma reach_init_runs : rtc (kstep 0 0) booted init_runs.
Proof.
  eapply (rtc_l _ _ after_top); [|eapply rtc_once].
  - exists 0%nat, Top. by apply act_top.
  - exists 0%nat, Turn. apply (act_turn _ _ _ _ _ 0); [by split|].
    assert (Hok : returns (scheduler_turn 0 0 0 after_top) = true) by (vm_compute; reflexivity).
    unfold init_runs. by destruct (scheduler_turn 0 0 0 after_top) as [[[] s]| | |].
Qed.

Lemma running_exclusive_witness :
  (forall c d p, cproc (cpus init_runs c) = Some p -> cproc (cpus init_runs d) = Some p -> c = d) /\
  (forall p, in_tab p -> (state (procs init_runs p) = RUNNING <-> exists c, cproc (cpus init_runs c) = Some p)).
Proof. exact (running_exclusive 0 0 booted init_runs booted_ok reach_init_runs). Defined.
Lemma no_orphans_witness :
  exists i, initproc init_runs = Some i /\ alive (procs init_runs i) /\
    forall q, in_tab q -> born (procs init_runs q) -> q <> i ->
      exists p, parent (procs init_runs q) = Some p /\ alive (procs init_runs p).
Proof. exact (no_orphans 0 0 booted init_runs booted_ok reach_init_runs). Defined.
Lemma yield_switches_witness :
  exists s', yield 0 init_runs = Ok (tt, s') /\ state (procs s' 0) = RUNNABLE /\ cproc (cpus s' 0%nat) = None.
Proof.
  assert (Hl : forall lk, locks init_runs !! lk <> Some 0%nat).
  { intros lk. change (locks init_runs) with (delete 0 (<[0 := 0%nat]> (∅ : gmap Z nat))).
    destruct (decide (lk = 0)) as [->|Hlk]; [by rewrite lookup_delete_eq|].
    by rewrite lookup_delete_ne, lookup_insert_ne, lookup_empty by done. }
  exact (yield_switches 0 0 booted init_runs 0 0 booted_ok reach_init_runs eq_refl Hl).
Defined.

(** ** Init forks and waits for its child *)

(** The allocator after boot: 2048 pages from 4 MB on. *)
Definition many_pages : vstate :=
  match freerange_loop end_w (S (Z.to_nat 2048)) end_w (end_w + PGSIZE * 2048) (mkV (fun _ => 0) 0) with
  | Ok (_, s) => s | _ => mkV (fun _ => 0) 0
  end.
Lemma freerange_bytes kend vend n : forall p s s', freerange_loop kend n p vend s = Ok (tt, s') -> bytes_ok (pm s) -> bytes_ok (pm s').
Proof.
  induction n as [|n IH]; intros p s s' E Hb; cbn [freerange_loop] in E; [done|].
  destruct (p + PGSIZE <=? vend); [|unfold ret in E; by simplify_eq].
  apply bind_inv in E as (? & s1 & E1 & E2). apply (IH _ _ _ E2). unfold kfree in E1. destruct (_ || _ || _); [done|].
  do 3 (erewrite bind_Ok in E1; [|reflexivity]). injection E1 as _ <-. cbn [pm]. by apply put32_bytes, memset_bytes.
Qed.
Lemma many_pages_ok : bytes_ok (pm many_pages) /\ frees end_w many_pages (rev (pages (Z.to_nat 2048) end_w)).
Proof.
  destruct (freerange_loop_run end_w ltac:(done) (Z.to_nat 2048) (S (Z.to_nat 2048)) (mkV (fun _ => 0) 0) [] end_w (end_w + PGSIZE * 2048))
    as (s & E & Hf & _).
  { apply Nat.lt_succ_diag_r. }
  { split; [reflexivity | apply NoDup_nil_2]. }
  { reflexivity. }
  { apply Z.le_refl. }
  { apply Z.leb_le. reflexivity. }
  { unfold PGSIZE. lia. }
  { intros x Hx. by apply elem_of_nil in Hx. }
  rewrite app_nil_r in Hf. unfold many_pages. rewrite E. split; [|exact Hf].
  eapply freerange_bytes; [exact E|]. intros a. cbn. lia.
Qed.
Definition top_page : Z := end_w + PGSIZE * 2047.
Lemma first_page v p l : bytes_ok (pm v) -> frees end_w v (p :: l) ->
  v = mkV (pm v) p /\ bytes_ok (pm v) /\ frees end_w (mkV (pm v) p) (p :: l).
Proof. destruct v as [m f]. cbn [pm]. intros Hb Hf. pose proof Hf as [(Hp & _) _]. cbn in Hp. by subst f. Qed.
Lemma many_pages_top : exists m l, many_pages = mkV m top_page /\ bytes_ok m /\
  frees end_w (mkV m top_page) (top_page :: l) /\ length l = Z.to_nat 2047.
Proof.
  destruct many_pages_ok as [Hb Hf].
  assert (Hr : rev (pages (Z.to_nat 2048) end_w) = top_page :: rev (pages (Z.to_nat 2047) end_w)).
  { apply (bool_decide_unpack _). vm_compute. exact I. }
  rewrite Hr in Hf. destruct (first_page many_pages _ _ Hb Hf) as (H1 & H2 & H3).
  exists (pm many_pages), (rev (pages (Z.to_nat 2047) end_w)). split; [exact H1|]. split; [exact H2|]. split; [exact H3|].
  rewrite length_rev. apply (bool_decide_unpack _). vm_compute. exact I.
Qed.

(** A machine whose init has no user memory yet and is in the root directory. *)
Definition small_init : proc :=
  mkProc 0 0x80301000 0x80302000 RUNNABLE 1 None blank_tf In_forkret None 0 (replicate 16 None) (Some 0) [] false.
Definition machine (v : vstate) : kstate :=
  mkK (fun p => if p =? 0 then small_init else blank_proc) (Some 0) 2 ∅ (fun _ => idle_cpu)
    (v, mkFilesys [] (mkF (fun _ => 0) [mkInode 1 1 2 2 1 0 0 1 0 []] []) (fun _ => pipe_init [])).
Lemma machine_ok v : boot (machine v).
Proof. split; try done. intros p Hp. cbn. by destruct (Z.eqb_spec p 0). Qed.
Definition state_of {A} (o : outcome (A * kstate)) : kstate := match o with Ok (_, s) => s | _ => booted end.

Section Forking.
Context (m : mem) (l : list Z) (Hb : bytes_ok m) (Hf : frees end_w (mkV m top_page) (top_page :: l)) (Hl : length l = Z.to_nat 2047).
Let start := machine (mkV m top_page).
Let kd : Z := 0x80108000.
Let s1 := state_of (scheduler_top 0 start).
Let s2 := state_of (scheduler_turn end_w 0 0 s1).
Let s3 := state_of (fork_begin 0 s2).

Lemma fork_started : rtc (kstep end_w kd) start s3 /\ running 0 s3 (In_fork 1) /\ sz (procs s3 0) = 0 /\
  cproc (cpus s3 0%nat) = Some 0 /\ fst (kern s3) = mkV m (get32 m (v2p top_page)).
Proof using All.
  split; [|split; [exists 0|]; split_and?; vm_compute; reflexivity].
  assert (H1 : returns (scheduler_top 0 start) = true) by (vm_compute; reflexivity).
  assert (H2 : returns (scheduler_turn end_w 0 0 s1) = true) by (vm_compute; reflexivity).
  assert (H3 : returns (fork_begin 0 s2) = true) by (vm_compute; reflexivity).
  eapply (rtc_l _ _ s1); [|eapply (rtc_l _ _ s2); [|eapply rtc_once]].
  - exists 0%nat, Top. apply act_top; [done | done|]. unfold s1, state_of.
    by destruct (scheduler_top 0 start) as [[[] s]| | |].
  - exists 0%nat, Turn. apply (act_turn _ _ _ _ _ 0); [by split|]. unfold s2, state_of.
    by destruct (scheduler_turn end_w 0 0 s1) as [[[] s]| | |].
  - exists 0%nat, Fork. unfold s3, state_of. destruct (fork_begin 0 s2) as [[r s]| | |] eqn:E; try done.
    apply (act_fork _ _ _ _ _ r); [exists 0; split; vm_compute; reflexivity | done].
Qed.

(** What is left of [fork], then [wait]: what the parent runs in between, what
    [wait] gives, and the two processes afterwards. *)
Definition fork_and_wait : P (option Z * code * option Z * (procstate * code * option channel) * (procstate * option Z)) :=
  fork_rest end_w kd 0 1 ;;;
  s <- get ;;
  w <- wait end_w 0 ;;
  s' <- get ;;
  ret (cproc (cpus s 0%nat), pc (procs s 0), w, (state (procs s' 0), pc (procs s' 0), chan (procs s' 0)),
       (state (procs s' 1), parent (procs s' 1))).
Lemma fork_and_wait_run : exists s', fork_and_wait s3 =
  Ok ((Some 0, Run, None, (SLEEPING, In_wait, Some (Ch_proc 0)), (RUNNABLE, Some 0)), s').
Proof using All.
  destruct fork_started as (_ & _ & Hsz & Hcp & Hk).
  pose proof (kalloc_run end_w ltac:(done) _ _ Hf) as (v1 & E1 & _ & Hf1 & _).
  assert (Hv1 : v1 = mkV m (get32 m (v2p top_page))).
  { unfold kalloc in E1. erewrite bind_Ok in E1; [|reflexivity].
    change (freelist (mkV m top_page) =? 0) with false in E1. cbv iota in E1.
    do 2 (erewrite bind_Ok in E1; [|reflexivity]). by injection E1 as <-. }
  rewrite Hv1 in Hf1.
  destruct (copyuvm_empty end_w kd ltac:(done) ltac:(done) ltac:(done)
    (mkV m (get32 m (v2p top_page))) l (pgdir (procs s3 0)) Hb Hf1 ltac:(lia))
    as (d & v2 & Ec & Hd).
  unfold fork_and_wait, fork_rest. rewrite bind_assoc. erewrite bind_Ok.
  2:{ unfold myproc. erewrite bind_Ok; [|reflexivity]. rewrite Hcp. reflexivity. }
  rewrite bind_assoc. erewrite bind_Ok; [|reflexivity]. rewrite Hsz.
  rewrite bind_assoc. rewrite (bind_Ok _ _ _ d (set_kern (v2, snd (kern s3)) s3)).
  2:{ unfold in_kern, in_vm, zoom. rewrite Hk, Ec. reflexivity. }
  rewrite (proj2 (Z.eqb_neq d 0) Hd). clear. eexists. vm_compute. reflexivity.
Qed.
Lemma parent_waits : exists s, rtc (kstep end_w kd) start s /\ in_wait (procs s 0) /\
  child (procs s) 0 1 /\ state (procs s 1) = RUNNABLE.
Proof using All.
  destruct fork_started as (Hreach & Hrun & _). destruct fork_and_wait_run as (s' & E). unfold fork_and_wait in E.
  apply bind_inv in E as (r & s4 & E4 & E). erewrite bind_Ok in E; [|reflexivity].
  apply bind_inv in E as (w & s5 & E5 & E). erewrite bind_Ok in E; [|reflexivity].
  injection E as Hc Hpc -> H1 H2 H3 H4 H5 _. exists s5. split.
  - etrans; [exact Hreach|]. eapply (rtc_l _ _ s4); [|eapply rtc_once].
    + exists 0%nat, Fork_rest. by apply (act_fork_rest _ _ _ _ _ 1 r).
    + exists 0%nat, Wait. apply (act_wait _ _ _ _ _ None); [by exists 0 | done].
  - split; [by split|]. split; [|done]. split; [by vm_compute | done].
Qed.
End Forking.

(** Init has a child and sleeps in [wait]: it has not been killed and the child
    is no zombie. *)
Lemma wait_misses_no_child_witness : exists s, in_wait (procs s 0) /\ child (procs s) 0 1 /\
  killed (procs s 0) = 0 /\ state (procs s 1) <> ZOMBIE.
Proof.
  destruct many_pages_top as (m & l & _ & Hb & Hf & Hl).
  destruct (parent_waits m l Hb Hf Hl) as (s & Hreach & Hw & Hc & _).
  exists s. split; [exact Hw|]. split; [exact Hc|].
  destruct (wait_misses_no_child end_w 0x80108000 (machine (mkV m top_page)) s (machine_ok _) Hreach 0) as (H1 & _ & H2).
  - split; reflexivity || discriminate.
  - exact Hw.
  - split; [exact H1|]. exact (H2 1 Hc).
Defined.

(** ** A parent, a child, and the exit of the child *)

(** Init sleeps in [wait]; its child, process 1, runs on CPU 0. *)
Definition family : kstate :=
  mkK (fun p => if p =? 0 then set_state SLEEPING (set_pc In_wait (set_chan (Some (Ch_proc 0)) init_proc))
                else if p =? 1 then mkProc PGSIZE 0x80403000 0x80404000 RUNNING 2 (Some 0) blank_tf Run None 0
                                      (replicate 16 None) (Some 0) [] false
                else blank_proc)
    (Some 0) 3 ∅ (fun c => if decide (c = 0%nat) then mkCpu 0 false true (Some 1) 0x80403000 (Some 1) else idle_cpu)
    (mkV (fun _ => 0) 0, mkFilesys [] (mkF (fun _ => 0) [mkInode 1 1 2 2 1 0 0 1 0 []] []) (fun _ => pipe_init [])).
(** Exit, the rest of the scan, and the scan that finds init. *)
Definition family_exits : P unit :=
  exit 0x80400000 0 ;;;
  mfor 2 65 (fun p => scheduler_turn 0x80400000 0 p) ;;;
  scheduler_top 0 ;;;
  scheduler_turn 0x80400000 0 0.
Definition family_after (o : outcome (unit * kstate)) : option (procstate * code * procstate * Z) :=
  match o with
  | Ok (_, s) => Some (state (procs s 0), pc (procs s 0), state (procs s 1), pid (procs s 1))
  | _ => None
  end.
(** The child's exit wakes init, which reaps it as soon as it is scheduled. *)
Example exit_wakes_and_wait_reaps : family_after (family_exits family) = Some (RUNNING, Run, UNUSED, 0).
Proof. vm_compute. reflexivity. Qed.

(** ** kill(0) *)
Definition doomed (o : outcome (option Z * kstate)) : option (option Z * procstate * Z) :=
  match o with Ok (r, s) => Some (r, state (procs s 1), killed (procs s 1)) | _ => None end.

(** [kill(0)] succeeds and kills a process that does not exist yet: unused
    entries have pid 0, so it returns 0 and marks the first unused entry
    killed; [allocproc] does not clear the mark, and the next process created
    there is born killed. *)
Theorem kill_zero_dooms_next_process :
  exists s1 s2, kill 0 0 init_runs = Ok (0, s1) /\ allocproc 0 s1 = Ok (Some 1, s2) /\
    state (procs s2 1) = EMBRYO /\ killed (procs s2 1) = 1.
Proof.
  assert (H : doomed ((r <- kill 0 0 ;; if r =? 0 then allocproc 0 else fault) init_runs)
              = Some (Some 1, EMBRYO, 1)) by (vm_compute; reflexivity).
  unfold M_bind in H. destruct (kill 0 0 init_runs) as [[r s1]| | |]; try discriminate H.
  destruct (Z.eqb_spec r 0) as [->|]; [|discriminate H]. exists s1.
  destruct (allocproc 0 s1) as [[r s2]| | |]; try discriminate H. exists s2.
  injection H as -> H1 H2. done.
Qed.
