(* ===== verification/Printf.v ===== *)
(** * Printf: formatted output (src/src/printf.c, [cprintf] of src/src/console.c)

    Both printers are written over a byte sink [putc]: [write(fd, &c, 1)] for
    the user's [printf], [consputc] for the kernel's [cprintf].  The arguments
    of the call are the words after [fmt] on the stack.  [buf] is the array of
    16 characters of [printint]; an access outside it is a fault. *)
From S2P Require Import Prelude CString.

Section Sink.
Context {S : Type} (putc : Z -> M S unit).

(** The do loop of [printint] (printf.c 28-30, console.c 40-42). *)
Fixpoint digit_loop (digits : list Z) (base x i : Z) (buf : list Z) (fuel : nat) : M S (Z * list Z) :=
  match fuel with
  | O => out_of_fuel
  | Datatypes.S fuel =>
      d <- of_option (arr_get digits (x mod base)) ;;
      buf' <- of_option (arr_set buf i d) ;;
      if x / base =? 0 then ret (i + 1, buf')
      else digit_loop digits base (x / base) (i + 1) buf' fuel
  end.
(** [while(--i >= 0) putc(buf[i]);] *)
Fixpoint put_back (buf : list Z) (i : nat) : M S unit :=
  match i with
  | O => ret tt
  | Datatypes.S i => c <- of_option (arr_get buf (Z.of_nat i)) ;; putc c ;;; put_back buf i
  end.
Fixpoint put_string (m : mem) (s : Z) (fuel : nat) : M S unit :=
  match fuel with
  | O => out_of_fuel
  | Datatypes.S fuel =>
      if truthy (m s) then putc (m s) ;;; put_string m (s + 1) fuel else ret tt
  end.
(** The string constants of the code are not in [mem]. *)
Fixpoint put_all (l : list Z) : M S unit :=
  match l with [] => ret tt | c :: l => putc c ;;; put_all l end.
Definition null_string : list Z := [40; 110; 117; 108; 108; 41].
Definition put_arg_string (m : mem) (s : Z) (fuel : nat) : M S unit :=
  if s =? 0 then put_all null_string else put_string m s fuel.
(** [*ap]; there is no argument past the last. *)
Definition arg (ap : list Z) : M S Z := of_option (head ap).

(** ** printf.c *)
Definition buf0 : list Z := replicate 16 0.
Definition user_digits : list Z := [48; 49; 50; 51; 52; 53; 54; 55; 56; 57; 65; 66; 67; 68; 69; 70].
Definition printint (xx base : Z) (sgn : bool) : M S unit :=
  let neg := sgn && (xx <? 0) in
  let x := if neg then u32 (- xx) else u32 xx in
  let* (i, buf) := digit_loop user_digits base x 0 buf0 32 in
  let* (i, buf) := (if neg then buf <- of_option (arr_set buf i 45) ;; ret (i + 1, buf) else ret (i, buf)) in
  put_back buf (Z.to_nat i).
(** The loop of [printf] (lines 49-83); [state] is 0 or ['%']. *)
Fixpoint printf_loop (m : mem) (fmt : Z) (state : Z) (ap : list Z) (fuel : nat) : M S unit :=
  match fuel with
  | O => out_of_fuel
  | Datatypes.S fuel' =>
      let c := m fmt in
      let next := printf_loop m (fmt + 1) 0 in
      if negb (truthy c) then ret tt
      else if state =? 0 then
        if c =? 37 then printf_loop m (fmt + 1) 37 ap fuel'
        else putc c ;;; next ap fuel'
      else if state =? 37 then
        if c =? 100 then v <- arg ap ;; printint (s32 v) 10 true ;;; next (List.tl ap) fuel'
        else if (c =? 120) || (c =? 112) then
          v <- arg ap ;; printint (s32 v) 16 false ;;; next (List.tl ap) fuel'
        else if c =? 115 then v <- arg ap ;; put_arg_string m v fuel ;;; next (List.tl ap) fuel'
        else if c =? 99 then v <- arg ap ;; putc (u8 v) ;;; next (List.tl ap) fuel'
        else if c =? 37 then putc c ;;; next ap fuel'
        else putc 37 ;;; putc c ;;; next ap fuel'
      else printf_loop m (fmt + 1) state ap fuel'
  end.
Definition printf (m : mem) (fmt : Z) (ap : list Z) (fuel : nat) : M S unit :=
  printf_loop m fmt 0 ap fuel.

(** ** console.c *)
Definition kernel_digits : list Z := [48; 49; 50; 51; 52; 53; 54; 55; 56; 57; 97; 98; 99; 100; 101; 102].
Definition kprintint (xx base : Z) (sign : bool) : M S unit :=
  let sign := sign && (xx <? 0) in
  let x := if sign then u32 (- xx) else u32 xx in
  let* (i, buf) := digit_loop kernel_digits base x 0 buf0 32 in
  let* (i, buf) := (if sign then buf <- of_option (arr_set buf i 45) ;; ret (i + 1, buf) else ret (i, buf)) in
  put_back buf (Z.to_nat i).
(** The loop of [cprintf] (lines 68-99). *)
Fixpoint cprintf_loop (m : mem) (fmt : Z) (argp : list Z) (fuel : nat) : M S unit :=
  match fuel with
  | O => out_of_fuel
  | Datatypes.S fuel' =>
      if negb (truthy (m fmt)) then ret tt
      else if negb (m fmt =? 37) then putc (m fmt) ;;; cprintf_loop m (fmt + 1) argp fuel'
      else
        let c := m (fmt + 1) in
        let next := cprintf_loop m (fmt + 2) in
        if c =? 0 then ret tt
        else if c =? 100 then v <- arg argp ;; kprintint (s32 v) 10 true ;;; next (List.tl argp) fuel'
        else if (c =? 120) || (c =? 112) then
          v <- arg argp ;; kprintint (s32 v) 16 false ;;; next (List.tl argp) fuel'
        else if c =? 115 then v <- arg argp ;; put_arg_string m v fuel ;;; next (List.tl argp) fuel'
        else if c =? 37 then putc 37 ;;; next argp fuel'
        else putc 37 ;;; putc c ;;; next argp fuel'
  end.

End Sink.

(** ** Numerals *)

(** The digits of [n], the lowest first; [k] bounds their number. *)
Fixpoint low_digits (b n : Z) (k : nat) : list Z :=
  match k with
  | O => []
  | Datatypes.S k => n mod b :: (if n / b =? 0 then [] else low_digits b (n / b) k)
  end.
Definition numeral (b n : Z) : list Z := rev (low_digits b n 32).
Definition horner (b : Z) (ds : list Z) : Z := fold_left (fun n d => n * b + d) ds 0.

Section Base.
Context (b : Z) (Hb : 2 <= b).

Lemma quotient_bound n k : 0 <= n < b ^ Z.of_nat (S k) -> 0 <= n / b < b ^ Z.of_nat k.
Proof using Hb.
  intros Hn. split; [apply Z.div_pos; lia|]. apply Z.div_lt_upper_bound; [lia|].
  rewrite <- Z.pow_succ_r by lia. replace (Z.succ (Z.of_nat k)) with (Z.of_nat (S k)) by lia. lia.
Qed.
Lemma low_digits_range k : forall n, 0 <= n -> Forall (fun d => 0 <= d < b) (low_digits b n k).
Proof using Hb.
  induction k as [|k IH]; intros n Hn; [constructor|]. cbn [low_digits]. constructor.
  - apply Z.mod_pos_bound. lia.
  - case_if; [constructor|]. apply IH. apply Z.div_pos; lia.
Qed.
Lemma low_digits_length k : forall n j, 0 <= n < b ^ Z.of_nat (S j) -> (length (low_digits b n k) <= S j)%nat.
Proof using Hb.
  induction k as [|k IH]; intros n j Hn; cbn [low_digits length]; [lia|].
  destruct (Z.eqb_spec (n / b) 0) as [|Hq]; [simpl; lia|].
  destruct j as [|j].
  { exfalso. apply Hq, Z.div_small. rewrite Z.pow_1_r in Hn. lia. }
  apply le_n_S, IH. by apply quotient_bound.
Qed.
Lemma low_digits_value k : forall n, 0 <= n < b ^ Z.of_nat k ->
  fold_right (fun d n => n * b + d) 0 (low_digits b n k) = n.
Proof using Hb.
  induction k as [|k IH]; intros n Hn; cbn [low_digits fold_right].
  { rewrite Z.pow_0_r in Hn. lia. }
  pose proof (Z.div_mod n b ltac:(lia)).
  destruct (Z.eqb_spec (n / b) 0) as [E|Hq]; cbn [fold_right]; [lia|].
  rewrite IH; [lia|]. by apply quotient_bound.
Qed.
(** No leading zero, except for 0 itself. *)
Lemma low_digits_leading k : forall n, 0 <= n < b ^ Z.of_nat k -> last (low_digits b n k) = Some 0 -> n = 0.
Proof using Hb.
  induction k as [|k IH]; intros n Hn Hl.
  { rewrite Z.pow_0_r in Hn. lia. }
  cbn [low_digits] in Hl. pose proof (Z.div_mod n b ltac:(lia)).
  destruct (Z.eqb_spec (n / b) 0) as [E|Hq]; [simpl in Hl; simplify_eq; lia|].
  pose proof (quotient_bound _ _ Hn) as Hd.
  assert (Hne : low_digits b (n / b) k <> []).
  { destruct k; [rewrite Z.pow_0_r in Hd; lia | done]. }
  rewrite last_cons in Hl. destruct (last (low_digits b (n / b) k)) eqn:El.
  - simplify_eq. exfalso. apply Hq. by apply IH.
  - by apply last_None in El.
Qed.

Context (n : Z) (Hn : 0 <= n < 2 ^ 32).
Lemma small_pow : 0 <= n < b ^ Z.of_nat 32.
Proof using Hb Hn.
  split; [lia|]. eapply Z.lt_le_trans; [apply Hn|]. apply Z.pow_le_mono_l. lia.
Qed.
(** [numeral b n] is the canonical representation of [n] in base [b]. *)
Lemma numeral_canonical :
  horner b (numeral b n) = n /\ Forall (fun d => 0 <= d < b) (numeral b n) /\
  (head (numeral b n) = Some 0 -> n = 0).
Proof using Hb Hn.
  pose proof small_pow. unfold horner, numeral. split; [|split].
  - rewrite <- fold_left_rev_right, rev_involutive. by apply low_digits_value.
  - apply Forall_rev, low_digits_range. lia.
  - intros E. apply (low_digits_leading 32); [done|]. rewrite <- head_reverse. unfold reverse. by rewrite <- rev_alt.
Qed.
End Base.

(** ** What a format denotes *)

(** The text of a number: a sign and a numeral in the given digits. *)
Definition digit_char (digits : list Z) (d : Z) : Z := nth (Z.to_nat d) digits 0.
Definition number (digits : list Z) (base : Z) (v : Z) : list Z :=
  (if v <? 0 then [45] else []) ++ map (digit_char digits) (numeral base (Z.abs v)).

(** [strs a] is the string a pointer [a] points to; [with_c] tells whether [%c]
    is known.  [None]: an argument is missing, or a pointer is wild. *)
Section Render.
Context (digits : list Z) (with_c : bool) (strs : Z -> option (list Z)).
Fixpoint render (fmt args : list Z) : option (list Z) :=
  match fmt with
  | [] => Some []
  | c :: fmt1 =>
      if negb (c =? 37) then app [c] <$> render fmt1 args
      else
        match fmt1 with
        | [] => Some []
        | d :: fmt2 =>
            if (d =? 100) || (d =? 120) || (d =? 112) || (d =? 115) || (with_c && (d =? 99)) then
              match args with
              | [] => None
              | v :: args' =>
                  t ← (if d =? 100 then Some (number digits 10 (s32 v))
                       else if d =? 115 then if v =? 0 then Some null_string else strs v
                       else if d =? 99 then Some [u8 v]
                       else Some (number digits 16 (u32 v)));
                  app t <$> render fmt2 args'
              end
            else app (if d =? 37 then [37] else [37; d]) <$> render fmt2 args
        end
  end.
End Render.

Section Printers.
Context {S : Type} (putc : Z -> M S unit).
Implicit Types (s : S) (m : mem).

Lemma put_all_app l1 l2 s : put_all putc (l1 ++ l2) s = (put_all putc l1 ;;; put_all putc l2) s.
Proof.
  revert s. induction l1 as [|c l1 IH]; intros s; [done|]. cbn [app put_all].
  rewrite bind_assoc. apply bind_ext. intros [] s' _. apply IH.
Qed.
Lemma put_back_run l : forall r s, put_back putc (l ++ r) (length l) s = put_all putc (rev l) s.
Proof.
  induction l as [|c l IH] using rev_ind; [done|]. intros r s.
  rewrite length_app, Nat.add_1_r, rev_app_distr. cbn [put_back rev app put_all].
  rewrite <- app_assoc. cbn [app]. erewrite bind_Ok; [|by rewrite arr_get_app].
  apply bind_ext. intros [] s' _. apply IH.
Qed.
Lemma digit_loop_run digits base k : 2 <= base <= Z.of_nat (length digits) -> forall x done_ rest s,
  0 <= x < base ^ Z.of_nat k -> k <> O ->
  let low := map (digit_char digits) (low_digits base x k) in
  (length low <= length rest)%nat ->
  digit_loop digits base x (Z.of_nat (length done_)) (done_ ++ rest) k s =
    Ok ((Z.of_nat (length (done_ ++ low)), (done_ ++ low) ++ drop (length low) rest), s).
Proof.
  intros Hb. induction k as [|k IH]; intros x l rest s Hx Hk; [done|].
  cbv zeta. cbn [digit_loop low_digits map length]. intros Hlen.
  destruct rest as [|r0 rest]; [simpl in Hlen; lia|]. cbn [length drop] in *.
  assert (E : arr_get digits (x mod base) = Some (digit_char digits (x mod base))).
  { pose proof (Z.mod_pos_bound x base ltac:(lia)). unfold arr_get, digit_char.
    destruct (Z.ltb_spec (x mod base) 0); [lia|]. destruct (lookup_lt_is_Some_2 digits (Z.to_nat (x mod base))) as [d Hd]; [lia|].
    rewrite Hd. f_equal. symmetry. by apply nth_lookup_Some. }
  rewrite E. erewrite bind_Ok; [|reflexivity]. rewrite arr_set_app. erewrite bind_Ok; [|reflexivity].
  set (c := digit_char digits (x mod base)) in *.
  replace (Z.of_nat (length l) + 1) with (Z.of_nat (length (l ++ [c]))) by (rewrite length_app; simpl; lia).
  replace (l ++ c :: rest) with ((l ++ [c]) ++ rest) by by rewrite <- app_assoc.
  destruct (Z.eqb_spec (x / base) 0) as [Hq|Hq]; [done|].
  pose proof (quotient_bound base ltac:(lia) _ _ Hx) as Hx'.
  rewrite IH; [by rewrite <- !app_assoc | done | | lia].
  intros ->. rewrite Z.pow_0_r in Hx'. lia.
Qed.

(** [printint] with either set of digits. *)
Lemma number_run digits base v neg s : length digits = 16%nat -> 10 <= base <= 16 ->
  - 2 ^ 31 <= v < 2 ^ 32 -> neg = (v <? 0) ->
  (let* (i, buf) := digit_loop digits base (Z.abs v) 0 buf0 32 in
   let* (i, buf) := (if neg : bool then buf <- of_option (arr_set buf i 45) ;; ret (i + 1, buf) else ret (i, buf)) in
   put_back putc buf (Z.to_nat i)) s = put_all putc (number digits base v) s.
Proof.
  intros Hd Hb Hv ->. set (low := map (digit_char digits) (low_digits base (Z.abs v) 32)).
  assert (Hlow : (length low <= 10)%nat).
  { unfold low. rewrite length_map. apply low_digits_length; [lia|]. split; [lia|].
    apply Z.lt_le_trans with (10 ^ 10); [lia|]. apply Z.pow_le_mono_l. lia. }
  assert (Hnum : map (digit_char digits) (numeral base (Z.abs v)) = rev low) by (unfold numeral; apply map_rev).
  pose proof (digit_loop_run digits base 32 ltac:(lia) (Z.abs v) [] buf0 s (small_pow base ltac:(lia) (Z.abs v) ltac:(lia)) ltac:(done)) as Hrun.
  cbv zeta in Hrun. fold low in Hrun. cbn [length app] in Hrun.
  clearbody low.
  erewrite bind_Ok; [|apply Hrun; unfold buf0; rewrite length_replicate; lia].
  unfold number. rewrite Hnum. destruct (Z.ltb_spec v 0) as [Hneg|Hpos].
  - destruct (drop (length low) buf0) as [|r0 rest] eqn:E.
    { apply (f_equal length) in E. unfold buf0 in E. rewrite length_drop, length_replicate in E. cbn [length] in E. lia. }
    cbn [fst snd]. rewrite arr_set_app. erewrite bind_Ok; [|reflexivity]. cbn beta iota.
    replace (Z.to_nat (Z.of_nat (length low) + 1)) with (length (low ++ [45])) by (rewrite length_app; simpl; lia).
    replace (low ++ 45 :: rest) with ((low ++ [45]) ++ rest) by by rewrite <- app_assoc.
    rewrite put_back_run, rev_app_distr. done.
  - erewrite bind_Ok; [|reflexivity]. cbn beta iota. rewrite Nat2Z.id, put_back_run. done.
Qed.
Lemma signed_abs v : - 2 ^ 31 <= v < 2 ^ 31 ->
  (if v <? 0 then u32 (- v) else u32 v) = Z.abs v.
Proof. intros Hv. destruct (Z.ltb_spec v 0); rewrite u32_small by lia; lia. Qed.
Lemma unsigned_s32 v : u32 (s32 v) = u32 v.
Proof.
  unfold u32, s32. rewrite Zminus_mod_idemp_l. f_equal. lia.
Qed.
Lemma printint_dec v s :
  printint putc (s32 v) 10 true s = put_all putc (number user_digits 10 (s32 v)) s /\
  kprintint putc (s32 v) 10 true s = put_all putc (number kernel_digits 10 (s32 v)) s.
Proof.
  pose proof (s32_range v). unfold printint, kprintint. cbn [andb].
  rewrite signed_abs by lia. split; by apply number_run; try lia.
Qed.
Lemma printint_hex v s :
  printint putc (s32 v) 16 false s = put_all putc (number user_digits 16 (u32 v)) s /\
  kprintint putc (s32 v) 16 false s = put_all putc (number kernel_digits 16 (u32 v)) s.
Proof.
  pose proof (u32_range v). unfold printint, kprintint. cbn [andb].
  rewrite unsigned_s32. replace (u32 v) with (Z.abs (u32 v)) at 1 3 by lia.
  split; apply (number_run _ 16 _ false); try done; try lia; symmetry; apply Z.ltb_ge; lia.
Qed.
Lemma put_string_run m l : forall a fuel s, str_at m a l -> (length l < fuel)%nat ->
  put_string putc m a fuel s = put_all putc l s.
Proof.
  induction l as [|c l IH]; intros a [|fuel] s Hl Hf; cbn [length] in Hf; try lia; cbn [str_at] in Hl.
  - cbn [put_string]. by rewrite Hl.
  - destruct Hl as (Hc & Hr & Hl). cbn [put_string put_all]. rewrite Hc. unfold truthy.
    destruct (Z.eqb_spec c 0); [lia|]. cbn [negb]. apply bind_ext. intros [] s' _. apply IH; [done|lia].
Qed.

Context (m : mem) (strs : Z -> option (list Z)) (fuel : nat).
Context (Hstrs : forall a l, strs a = Some l -> str_at m a l /\ (length l < fuel)%nat).

(** The text of a string argument. *)
Lemma put_arg_run v t fuel' s : (fuel <= fuel')%nat ->
  (if v =? 0 then Some null_string else strs v) = Some t -> put_arg_string putc m v fuel' s = put_all putc t s.
Proof using Hstrs.
  intros Hf. unfold put_arg_string. destruct (v =? 0); [intros; by simplify_eq|].
  intros Hv. destruct (Hstrs v t Hv). apply put_string_run; [done|lia].
Qed.

(** A piece of the rendering, then the rest of it. *)
Lemma render_step t r out (c k : M S unit) s : app t <$> r = Some out ->
  (forall s, c s = put_all putc t s) -> (forall o s, r = Some o -> k s = put_all putc o s) ->
  (c ;;; k) s = put_all putc out s.
Proof.
  intros E Hc Hk. destruct r as [o|]; simplify_eq/=. rewrite put_all_app.
  rewrite (bind_cong c (put_all putc t)) by apply Hc. apply bind_ext. intros [] s' _. by apply Hk.
Qed.
Lemma putc_run c s : putc c s = put_all putc [c] s.
Proof. cbn [put_all]. unfold M_bind. by destruct (putc c s) as [[[] s']| | |]. Qed.
Lemma unknown_run d (k : M S unit) s : (putc 37 ;;; putc d ;;; k) s = ((putc 37 ;;; putc d) ;;; k) s.
Proof. by rewrite bind_assoc. Qed.

Lemma printf_loop_run n : forall f fmt args out fuel' s,
  (length f < n)%nat -> str_at m fmt f -> (length f + fuel <= fuel')%nat -> (0 < fuel)%nat ->
  render user_digits true strs f args = Some out ->
  printf_loop putc m fmt 0 args fuel' s = put_all putc out s.
Proof using Hstrs.
  induction n as [|n IH]; intros f fmt args out fuel' s Hn Hf Hfuel Hpos Hr; [lia|].
  destruct fuel' as [|fuel']; [lia|]. cbn [printf_loop].
  destruct f as [|c f1]; cbn [str_at length render] in *.
  { rewrite Hf. by simplify_eq/=. }
  destruct Hf as (-> & Hc & Hf). unfold truthy. destruct (Z.eqb_spec c 0); [lia|].
  cbn [negb Z.eqb Pos.eqb]. destruct (Z.eqb_spec c 37) as [->|Hc37]; cbn [negb] in Hr.
  2: { eapply render_step; [done | apply putc_run |]. intros o s' Ho. eapply (IH f1); [lia|done|lia|done|done]. }
  destruct fuel' as [|fuel']; [lia|]. cbn [printf_loop].
  destruct f1 as [|d f2]; cbn [str_at length] in *.
  { rewrite Hf. by simplify_eq/=. }
  destruct Hf as (-> & Hd & Hf). unfold truthy. destruct (Z.eqb_spec d 0); [lia|]. cbn [negb Z.eqb Pos.eqb].
  replace (fmt + 1 + 1) with (fmt + 2) in * by lia.
  assert (Hrest : forall a o s, render user_digits true strs f2 a = Some o ->
    printf_loop putc m (fmt + 2) 0 a fuel' s = put_all putc o s).
  { intros a o s' Ho. eapply (IH f2); [lia|done|lia|done|done]. }
  destruct (Z.eqb_spec d 100) as [->|H1]; [|destruct (Z.eqb_spec d 120) as [->|H2];
    [|destruct (Z.eqb_spec d 112) as [->|H3]; [|destruct (Z.eqb_spec d 115) as [->|H4];
      [|destruct (Z.eqb_spec d 99) as [->|H5]]]]];
    cbn [orb andb Z.eqb Pos.eqb] in Hr |- *.
  1-5: destruct args as [|v args]; [discriminate Hr|]; unfold arg;
    (erewrite bind_Ok; [|reflexivity]); cbn [List.tl]; apply bind_Some in Hr as (t & Ht & Hr).
  - injection Ht as <-. eapply render_step; [exact Hr | intros; apply (proj1 (printint_dec _ _)) | apply Hrest].
  - injection Ht as <-. eapply render_step; [exact Hr | intros; apply (proj1 (printint_hex _ _)) | apply Hrest].
  - injection Ht as <-. eapply render_step; [exact Hr | intros; apply (proj1 (printint_hex _ _)) | apply Hrest].
  - eapply render_step; [exact Hr | intros; apply put_arg_run; [lia|done] | apply Hrest].
  - injection Ht as <-. eapply render_step; [exact Hr | apply putc_run | apply Hrest].
  - destruct (Z.eqb_spec d 37) as [->|H6].
    + eapply render_step; [exact Hr | apply putc_run | apply Hrest].
    + rewrite unknown_run. eapply render_step; [exact Hr | | apply Hrest].
      intros s'. cbn [put_all]. apply bind_ext. intros [] s'' _. apply putc_run.
Qed.

Lemma cprintf_loop_run n : forall f fmt args out fuel' s,
  (length f < n)%nat -> str_at m fmt f -> (length f + fuel <= fuel')%nat -> (0 < fuel)%nat ->
  render kernel_digits false strs f args = Some out ->
  cprintf_loop putc m fmt args fuel' s = put_all putc out s.
Proof using Hstrs.
  induction n as [|n IH]; intros f fmt args out fuel' s Hn Hf Hfuel Hpos Hr; [lia|].
  destruct fuel' as [|fuel']; [lia|]. cbn [cprintf_loop].
  destruct f as [|c f1]; cbn [str_at length render] in *.
  { rewrite Hf. by simplify_eq/=. }
  destruct Hf as (-> & Hc & Hf). unfold truthy. destruct (Z.eqb_spec c 0); [lia|].
  cbn [negb]. destruct (Z.eqb_spec c 37) as [->|Hc37]; cbn [negb] in Hr |- *.
  2: { eapply render_step; [done | apply putc_run |]. intros o s' Ho. eapply (IH f1); [lia|done|lia|done|done]. }
  destruct f1 as [|d f2]; cbn [str_at length] in *.
  { rewrite Hf. by simplify_eq/=. }
  destruct Hf as (-> & Hd & Hf). destruct (Z.eqb_spec d 0); [lia|].
  replace (fmt + 1 + 1) with (fmt + 2) in * by lia.
  assert (Hrest : forall a o s, render kernel_digits false strs f2 a = Some o ->
    cprintf_loop putc m (fmt + 2) a fuel' s = put_all putc o s).
  { intros a o s' Ho. eapply (IH f2); [lia|done|lia|done|done]. }
  destruct (Z.eqb_spec d 100) as [->|H1]; [|destruct (Z.eqb_spec d 120) as [->|H2];
    [|destruct (Z.eqb_spec d 112) as [->|H3]; [|destruct (Z.eqb_spec d 115) as [->|H4]]]];
    cbn [orb andb Z.eqb Pos.eqb] in Hr |- *.
  1-4: destruct args as [|v args]; [discriminate Hr|]; unfold arg;
    (erewrite bind_Ok; [|reflexivity]); cbn [List.tl]; apply bind_Some in Hr as (t & Ht & Hr).
  - injection Ht as <-. eapply render_step; [exact Hr | intros; apply (proj2 (printint_dec _ _)) | apply Hrest].
  - injection Ht as <-. eapply render_step; [exact Hr | intros; apply (proj2 (printint_hex _ _)) | apply Hrest].
  - injection Ht as <-. eapply render_step; [exact Hr | intros; apply (proj2 (printint_hex _ _)) | apply Hrest].
  - eapply render_step; [exact Hr | intros; apply put_arg_run; [lia|done] | apply Hrest].
  - destruct (Z.eqb_spec d 37) as [->|H6].
    + eapply render_step; [exact Hr | apply putc_run | apply Hrest].
    + rewrite unknown_run. eapply render_step; [exact Hr | | apply Hrest].
      intros s'. cbn [put_all]. apply bind_ext. intros [] s'' _. apply putc_run.
Qed.
End Printers.

(** ** Reading a number back *)
Lemma horner_grows ds : forall n, 0 <= n -> Forall (fun d => 0 <= d < 10) ds ->
  n <= fold_left (fun n d => n * 10 + d) ds n.
Proof.
  induction ds as [|d ds IH]; intros n Hn Hds; cbn [fold_left]; [lia|].
  inversion_clear Hds as [|? ? Hd Hr]. specialize (IH (n * 10 + d) ltac:(lia) Hr). lia.
Qed.
Lemma digit_char_dec d : 0 <= d < 10 -> digit_char user_digits d = 48 + d.
Proof.
  intros Hd. assert (d = 0 \/ d = 1 \/ d = 2 \/ d = 3 \/ d = 4 \/ d = 5 \/ d = 6 \/ d = 7 \/ d = 8 \/ d = 9) by lia.
  repeat destruct H as [->|H]; [reflexivity..|]. by subst.
Qed.
(** The bytes [l] are in memory at [a]. *)
Fixpoint bytes_at (m : mem) (a : Z) (l : list Z) : Prop :=
  match l with [] => True | c :: l => m a = c /\ bytes_at m (a + 1) l end.
Lemma atoi_digits m ds : forall a n,
  Forall (fun d => 0 <= d < 10) ds -> 0 <= n -> fold_left (fun n d => n * 10 + d) ds n < 2 ^ 31 ->
  bytes_at m a (map (digit_char user_digits) ds) ->
  ~ (48 <= m (a + Z.of_nat (length ds)) <= 57) ->
  Ulib.atoi_from m a n (S (length ds)) = Some (fold_left (fun n d => n * 10 + d) ds n).
Proof.
  induction ds as [|d ds IH]; intros a n Hds Hn Hv Hm Hend.
  - cbn [Ulib.atoi_from length fold_left]. cbn [length Z.of_nat] in Hend. rewrite Z.add_0_r in Hend.
    destruct (Z.leb_spec 48 (m a)), (Z.leb_spec (m a) 57); cbn [andb]; [lia|done..].
  - inversion_clear Hds as [|? ? Hd Hr]. cbn [map bytes_at length fold_left] in *. destruct Hm as [Ha Hm].
    rewrite digit_char_dec in Ha by done. pose proof (horner_grows ds (n * 10 + d) ltac:(lia) Hr).
    change (Ulib.atoi_from m a n (S (S (length ds)))) with
      (if (48 <=? m a) && (m a <=? 57) then Ulib.atoi_from m (a + 1) (s32 (n * 10 + m a - 48)) (S (length ds)) else Some n).
    rewrite Ha. destruct (Z.leb_spec 48 (48 + d)), (Z.leb_spec (48 + d) 57); cbn [andb]; [|lia..].
    replace (n * 10 + (48 + d) - 48) with (n * 10 + d) by lia. rewrite s32_small by lia.
    apply IH; [done|lia|done|done|].
    by replace (a + 1 + Z.of_nat (length ds)) with (a + Z.of_nat (S (length ds))) by lia.
Qed.

(** Printing and reading numbers are inverse: for every value from 0 to 2^31 - 1,
    [printint] in base 10 writes at most ten characters, and [atoi] of memory
    that holds them, followed by anything but a digit, returns the value. *)
Theorem printint_atoi {S} (putc : Z -> M S unit) (v : Z) : 0 <= v < 2 ^ 31 ->
  exists t, (length t <= 10)%nat /\
    (forall s, printint putc v 10 true s = put_all putc t s) /\
    (forall m a, bytes_at m a t -> ~ (48 <= m (a + Z.of_nat (length t)) <= 57) ->
       Ulib.atoi m a (Datatypes.S (length t)) = Some v).
Proof.
  intros Hv. exists (number user_digits 10 v).
  destruct (numeral_canonical 10 ltac:(lia) v ltac:(lia)) as (Hval & Hrange & _).
  assert (E : number user_digits 10 v = map (digit_char user_digits) (numeral 10 v)).
  { unfold number. rewrite Z.abs_eq by lia. by destruct (Z.ltb_spec v 0); [lia|]. }
  split; [|split].
  - rewrite E, length_map. unfold numeral. rewrite length_rev. apply low_digits_length; [lia|].
    split; [lia|]. apply Z.lt_le_trans with (2 ^ 31); [lia|]. by vm_compute.
  - intros s. rewrite <- (s32_small v) by lia. apply (proj1 (printint_dec putc v s)).
  - intros m a. rewrite E, length_map. intros Hm Hend. unfold Ulib.atoi.
    rewrite (atoi_digits m (numeral 10 v)); try done; try lia; unfold horner in Hval; rewrite Hval; [done|lia].
Qed.

(** C37 Both printers print what the format says: [printf] and [cprintf] return
    having written, byte for byte, the rendering of the format with its
    arguments, for every format string, as long as an argument is there for
    every conversion and the string arguments end. *)
Theorem printers_render {S} (putc : Z -> M S unit) m strs fmt f args (k : nat) s :
  str_at m fmt f -> (0 < k)%nat ->
  (forall a l, strs a = Some l -> str_at m a l /\ (length l < k)%nat) ->
  (forall out, render user_digits true strs f args = Some out ->
     printf putc m fmt args (length f + k) s = put_all putc out s) /\
  (forall out, render kernel_digits false strs f args = Some out ->
     cprintf_loop putc m fmt args (length f + k) s = put_all putc out s).
Proof.
  intros Hf Hk Hs. split; intros out Hr.
  - eapply printf_loop_run; [exact Hs | apply Nat.lt_succ_diag_r | done.. ].
  - eapply cprintf_loop_run; [exact Hs | apply Nat.lt_succ_diag_r | done.. ].
Qed.

(** ** Concrete output: [printf("a%d:%x%s%%", -42, 255, "hi")] *)
Definition sink (c : Z) : M (list Z) unit := modify (fun o => o ++ [c]).
Definition demo_mem : mem := put_bytes (put_bytes (fun _ => 0) 100 [97; 37; 100; 58; 37; 120; 37; 115; 37; 37]) 200 [104; 105].
Definition demo_strs (a : Z) : option (list Z) := if a =? 200 then Some [104; 105] else None.
Lemma printers_render_witness :
  printf sink demo_mem 100 [-42; 255; 200] 20 [] =
    put_all sink [97; 45; 52; 50; 58; 70; 70; 104; 105; 37] [] /\
  cprintf_loop sink demo_mem 100 [-42; 255; 200] 20 [] =
    put_all sink [97; 45; 52; 50; 58; 102; 102; 104; 105; 37] [].
Proof.
  destruct (printers_render sink demo_mem demo_strs 100 [97; 37; 100; 58; 37; 120; 37; 115; 37; 37] [-42; 255; 200] 10 [])
    as [H1 H2].
  - repeat split; vm_compute; done.
  - lia.
  - intros a l. unfold demo_strs. destruct (Z.eqb_spec a 200) as [->|]; [|done]. intros E. simplify_eq.
    split; [repeat split; vm_compute; done | simpl; lia].
  - split; [apply H1 | apply H2]; vm_compute; reflexivity.
Defined.
Lemma printint_atoi_witness :
  exists t, (length t <= 10)%nat /\
    (forall s, printint sink 1280 10 true s = put_all sink t s) /\
    (forall m a, bytes_at m a t -> ~ (48 <= m (a + Z.of_nat (length t)) <= 57) ->
       Ulib.atoi m a (S (length t)) = Some 1280).
Proof. apply (printint_atoi sink 1280). lia. Defined.
