(* ===== verification/Console.v ===== *)
(** * Console: the text screen, the line discipline and kernel messages
    (src/src/console.c, [uartputc] of uart.c, [procdump] of proc.c,
    [getcallerpcs] of spinlock.c)

    [crt] is the text memory as cells of one [ushort]; [cursor] is the pair of
    cursor registers.  An access outside the 25 rows of 80 cells is a fault.
    [uart_out] is what was sent to the serial port, [woken] counts the calls
    [wakeup(&input.r)].  The two locks are as one CPU sees them. *)
From S2P Require Import Prelude.
From S2P Require Import CString.
From S2P Require Import Fs.
From S2P Require Import Proc.
From S2P Require Import Printf.

Definition INPUT_BUF : Z := 128.
Definition BACKSPACE : Z := 0x100.
(** [C(x)], for a letter given by its code. *)
Definition C (x : Z) : Z := x - 64.

Record con := mkCon {
  panicked : bool; locking : bool; cons_held : bool;
  crt : Z -> Z; cursor : Z; uart : bool; uart_out : list Z;
  input_held : bool; in_buf : list Z; in_r : Z; in_w : Z; in_e : Z; woken : nat }.

Definition set_panicked b s := mkCon b (locking s) (cons_held s) (crt s) (cursor s) (uart s) (uart_out s) (input_held s) (in_buf s) (in_r s) (in_w s) (in_e s) (woken s).
Definition set_locking b s := mkCon (panicked s) b (cons_held s) (crt s) (cursor s) (uart s) (uart_out s) (input_held s) (in_buf s) (in_r s) (in_w s) (in_e s) (woken s).
Definition set_cons b s := mkCon (panicked s) (locking s) b (crt s) (cursor s) (uart s) (uart_out s) (input_held s) (in_buf s) (in_r s) (in_w s) (in_e s) (woken s).
Definition set_crt f s := mkCon (panicked s) (locking s) (cons_held s) (f (crt s)) (cursor s) (uart s) (uart_out s) (input_held s) (in_buf s) (in_r s) (in_w s) (in_e s) (woken s).
Definition set_cursor p s := mkCon (panicked s) (locking s) (cons_held s) (crt s) p (uart s) (uart_out s) (input_held s) (in_buf s) (in_r s) (in_w s) (in_e s) (woken s).
Definition send c s := mkCon (panicked s) (locking s) (cons_held s) (crt s) (cursor s) (uart s) (uart_out s ++ [c]) (input_held s) (in_buf s) (in_r s) (in_w s) (in_e s) (woken s).
Definition set_input b s := mkCon (panicked s) (locking s) (cons_held s) (crt s) (cursor s) (uart s) (uart_out s) b (in_buf s) (in_r s) (in_w s) (in_e s) (woken s).
Definition set_ring l r w e s := mkCon (panicked s) (locking s) (cons_held s) (crt s) (cursor s) (uart s) (uart_out s) (input_held s) l r w e (woken s).
Definition add_woken s := mkCon (panicked s) (locking s) (cons_held s) (crt s) (cursor s) (uart s) (uart_out s) (input_held s) (in_buf s) (in_r s) (in_w s) (in_e s) (S (woken s)).

Definition Con : Type -> Type := M con.

Definition acquire_cons : Con unit :=
  h <- gets cons_held ;; if h : bool then panic "acquire" else modify (set_cons true).
Definition release_cons : Con unit :=
  h <- gets cons_held ;; if h : bool then modify (set_cons false) else panic "release".
Definition acquire_input : Con unit :=
  h <- gets input_held ;; if h : bool then panic "acquire" else modify (set_input true).
Definition release_input : Con unit :=
  h <- gets input_held ;; if h : bool then modify (set_input false) else panic "release".

(** ** Output *)

(** [uartputc] (uart.c 52-61); waiting for the port is left out. *)
Definition uartputc (c : Z) : Con unit :=
  u <- gets uart ;; if u : bool then modify (send (u8 c)) else ret tt.

(** [crt[pos] = v] *)
Definition crt_set (pos v : Z) : Con unit :=
  if (0 <=? pos) && (pos <? 25 * 80) then modify (set_crt (fun m => upd m pos v)) else fault.
(** Lines 147-151, on cells: the sizes are multiples of [sizeof(crt[0])]. *)
Definition scroll_up (pos : Z) (m : Z -> Z) : Z -> Z :=
  stosb (memmove m 0 80 (Z.to_nat (23 * 80))) pos 0 (24 * 80 - pos).
Definition cgaputc (c : Z) : Con unit :=
  pos <- gets cursor ;;
  pos <- (if c =? 10 then ret (pos + (80 - Z.rem pos 80))
          else if c =? BACKSPACE then ret (if pos >? 0 then pos - 1 else pos)
          else crt_set pos (Z.lor (Z.land c 0xff) 0x0700) ;;; ret (pos + 1)) ;;
  pos <- (if Z.quot pos 80 >=? 24 then
            modify (set_crt (scroll_up (pos - 80))) ;;; ret (pos - 80)
          else ret pos) ;;
  modify (set_cursor (u16 pos)) ;;;
  crt_set pos (Z.lor 32 0x0700).

(** A panicked machine spins for ever. *)
Definition consputc (c : Z) : Con unit :=
  p <- gets panicked ;;
  if p : bool then out_of_fuel
  else
    (if c =? BACKSPACE then uartputc 8 ;;; uartputc 32 ;;; uartputc 8 else uartputc c) ;;;
    cgaputc c.

(** [cprintf]: the kernel memory [m] holds the format and the strings. *)
Definition cprintf (m : mem) (fmt : Z) (argp : list Z) (fuel : nat) : Con unit :=
  l <- gets locking ;;
  (if l : bool then acquire_cons else ret tt) ;;;
  if fmt =? 0 then panic "null fmt"
  else
    cprintf_loop consputc m fmt argp fuel ;;;
    (if l then release_cons else ret tt).

(** [getcallerpcs] (spinlock.c 66-83): the ten words of [pcs]. *)
Fixpoint walk_frames (m : mem) (ebp : Z) (n : nat) : list Z :=
  match n with
  | O => []
  | S n' =>
      if (ebp =? 0) || (ebp <? 0x80000000) || (ebp =? 0xffffffff) then replicate n 0
      else get32 m (ebp + 4) :: walk_frames m (get32 m ebp) n'
  end.
Definition getcallerpcs (m : mem) (v : Z) : list Z := walk_frames m (u32 (v - 8)) 10.

(** String constants and strings of the kernel's data, at chosen addresses. *)
Definition strings_at (l : list (Z * list Z)) : mem :=
  fold_right (fun p m => put_bytes m p.1 p.2) (fun _ => 0) l.
Definition fmt_at : Z := 4096.
Definition str1_at : Z := 8192.
Definition str2_at : Z := 12288.
Definition cprint (fmt s1 s2 : list Z) (argp : list Z) : Con unit :=
  cprintf (strings_at [(fmt_at, fmt); (str1_at, s1); (str2_at, s2)]) fmt_at argp
    (S (length fmt + length s1 + length s2)).

(** The state the kernel stops in (lines 111-119); [pcs] are the callers. *)
Definition panic_report (cpu_id : Z) (msg : list Z) (pcs : list Z) : Con unit :=
  modify (set_locking false) ;;;
  cprint [99; 112; 117; 37; 100; 58; 32; 112; 97; 110; 105; 99; 58; 32] [] [] [cpu_id] ;;;
  cprint msg [] [] [] ;;;
  cprint [10] [] [] [] ;;;
  mfor_list pcs (fun pc => cprint [32; 37; 112] [] [] [pc]) ;;;
  modify (set_panicked true).

(** [procdump] (proc.c 434-465): [m] is the kernel's memory, [ebp] the frame
    pointer saved in the context of each process. *)
Definition state_name (st : procstate) : list Z :=
  match st with
  | UNUSED => [117; 110; 117; 115; 101; 100] | EMBRYO => [101; 109; 98; 114; 121; 111]
  | SLEEPING => [115; 108; 101; 101; 112; 32] | RUNNABLE => [114; 117; 110; 98; 108; 101]
  | RUNNING => [114; 117; 110; 32; 32; 32] | ZOMBIE => [122; 111; 109; 98; 105; 101]
  end.
Fixpoint until_zero (l : list Z) : list Z :=
  match l with [] => [] | c :: l => if c =? 0 then [] else c :: until_zero l end.
Definition procdump (t : Z -> proc) (m : mem) (ebp : Z -> Z) : Con unit :=
  mfor 0 NPROC (fun p =>
    if is_state UNUSED (t p) then ret tt
    else
      cprint [37; 100; 32; 37; 115; 32; 37; 115] (state_name (state (t p))) (name (t p))
        [pid (t p); str1_at; str2_at] ;;;
      (if is_state SLEEPING (t p) then
         mfor_list (until_zero (getcallerpcs m (u32 (ebp p + 8)))) (fun pc => cprint [32; 37; 112] [] [] [pc])
       else ret tt) ;;;
      cprint [10] [] [] []).

(** ** Input *)
Section Input.
Context (listing : Con unit).

Definition ring_at (s : con) (i : Z) : Z := nth (Z.to_nat (u32 i mod INPUT_BUF)) (in_buf s) 0.
(** The loop of control-U (lines 199-203). *)
Fixpoint kill_line (fuel : nat) : Con unit :=
  match fuel with
  | O => out_of_fuel
  | S fuel =>
      s <- get ;;
      if negb (in_e s =? in_w s) && negb (ring_at s (in_e s - 1) =? 10) then
        modify (set_ring (in_buf s) (in_r s) (in_w s) (u32 (in_e s - 1))) ;;;
        consputc BACKSPACE ;;;
        kill_line fuel
      else ret tt
  end.
(** One character (the switch, lines 194-222). *)
Definition intr_key (c : Z) : Con unit :=
  s <- get ;;
  if c =? C 80 then listing
  else if c =? C 85 then kill_line (S (Z.to_nat (u32 (in_e s - in_w s))))
  else if (c =? C 72) || (c =? 127) then
    if negb (in_e s =? in_w s) then
      modify (set_ring (in_buf s) (in_r s) (in_w s) (u32 (in_e s - 1))) ;;; consputc BACKSPACE
    else ret tt
  else if negb (c =? 0) && (u32 (in_e s - in_r s) <? INPUT_BUF) then
    let c := if c =? 13 then 10 else c in
    b <- of_option (arr_set (in_buf s) (in_e s mod INPUT_BUF) (u8 c)) ;;
    modify (set_ring b (in_r s) (in_w s) (u32 (in_e s + 1))) ;;;
    consputc c ;;;
    s <- get ;;
    if (c =? 10) || (c =? C 68) || (in_e s =? u32 (in_r s + INPUT_BUF)) then
      modify (set_ring (in_buf s) (in_r s) (in_e s) (in_e s)) ;;; modify add_woken
    else ret tt
  else ret tt.
(** [consoleintr] for the characters that [getc] returns before it fails. *)
Definition consoleintr (chars : list Z) : Con unit :=
  acquire_input ;;; mfor_list chars intr_key ;;; release_input.

End Input.

(** [consoleread] holds [input.lock] from the entry or a wakeup to the next
    [sleep] or the end: [read_loop] (lines 236-258) runs such a segment, with
    [n] bytes to go of [target].  [Returns r]: the call leaves the loop or
    fails; [Sleeps n]: it sleeps on [&input.r].  The bytes stored come with it. *)
Inductive read_end := Returns (r : Z) | Sleeps (n : Z).
Fixpoint read_loop (fuel : nat) (killed : bool) (target n : Z) : Con (read_end * list Z) :=
  match fuel with
  | O => out_of_fuel
  | S fuel =>
      if n >? 0 then
        s <- get ;;
        if in_r s =? in_w s then
          if killed then ret (Returns (-1), []) else ret (Sleeps n, [])
        else
          let c := ring_at s (in_r s) in
          modify (set_ring (in_buf s) (u32 (in_r s + 1)) (in_w s) (in_e s)) ;;;
          if c =? C 68 then
            (if n <? target then
               s <- get ;; modify (set_ring (in_buf s) (u32 (in_r s - 1)) (in_w s) (in_e s))
             else ret tt) ;;;
            ret (Returns (target - n), [])
          else if c =? 10 then ret (Returns (target - (n - 1)), [c])
          else
            let* (r, l) := read_loop fuel killed target (n - 1) in
            ret (r, c :: l)
      else ret (Returns (target - n), [])
  end.
Definition read_segment (killed : bool) (target n : Z) : Con (read_end * list Z) :=
  acquire_input ;;;
  r <- read_loop (S (Z.to_nat n)) killed target n ;;
  release_input ;;;
  ret r.

(** ** The device functions, over the console and the inode table *)
Definition kcon : Type := con * fstate.
Definition in_con {A} : Con A -> M kcon A := zoom fst (fun x s => (x, s.2)).
Definition in_inodes {A} : F A -> M kcon A := zoom snd (fun x s => (s.1, x)).
(** A call of [consoleread] up to its first sleep, and after a wakeup. *)
Definition consoleread_go (ip : Z) (killed : bool) (target n : Z) : M kcon (read_end * list Z) :=
  r <- in_con (read_segment killed target n) ;;
  match r.1 with
  | Returns _ => in_inodes (ilock ip) ;;; ret r
  | Sleeps _ => ret r
  end.
Definition consoleread (ip : Z) (killed : bool) (n : Z) : M kcon (read_end * list Z) :=
  in_inodes (iunlock ip) ;;; consoleread_go ip killed n n.
Definition write_body (buf : list Z) : Con unit :=
  acquire_cons ;;; mfor_list buf (fun c => consputc (u8 c)) ;;; release_cons.
Definition consolewrite (ip : Z) (buf : list Z) : M kcon Z :=
  in_inodes (iunlock ip) ;;;
  in_con (write_body buf) ;;;
  in_inodes (ilock ip) ;;;
  ret (Z.of_nat (length buf)).
