(* ===== verification/ConsoleFacts.v ===== *)
(** * ConsoleFacts: the screen shows the end of what was typed; the line
    discipline is a queue of lines

    The screen is compared with a roll of paper: lines of 80 cells, of which
    the screen shows the last 24.  The input ring is compared with a queue of
    committed bytes and a line that is still being edited. *)
From S2P Require Import Prelude.
From S2P Require Import CString.
From S2P Require Import Fs.
From S2P Require Import Proc.
From S2P Require Import Printf.
From S2P Require Import Console.

(** ** Paper *)

(** [top] is the first line on the screen, [pos] the cell of the cursor. *)
Record paper := mkPaper { cells : Z -> Z; pos : Z; top : Z }.
Definition blank : Z := Z.lor 32 0x0700.
Definition cell (c : Z) : Z := Z.lor (Z.land c 0xff) 0x0700.
Definition type_char (p : paper) (c : Z) : paper :=
  let '(m, q) :=
    if c =? 10 then (cells p, 80 * (pos p / 80 + 1))
    else if c =? BACKSPACE then (cells p, if pos p >? 80 * top p then pos p - 1 else pos p)
    else (upd (cells p) (pos p) (cell c), pos p + 1) in
  mkPaper (upd m q blank) q (if q / 80 >=? top p + 24 then top p + 1 else top p).

Record shows (p : paper) (m : Z -> Z) (cur : Z) : Prop := mkShows {
  sh_top : 0 <= top p;
  sh_cells : forall i, 0 <= i < 24 * 80 -> m i = cells p (80 * top p + i);
  sh_cursor : cur = pos p - 80 * top p;
  sh_range : 0 <= cur < 24 * 80;
  sh_below : forall j, 80 * (top p + 24) <= j -> cells p j = 0 }.

(** What the output code changes of the state. *)
Definition repainted (m : Z -> Z) (cur : Z) (o : list Z) (s : con) : con :=
  mkCon (panicked s) (locking s) (cons_held s) m cur (uart s) o (input_held s) (in_buf s) (in_r s) (in_w s) (in_e s) (woken s).

Lemma scroll_cells m q i : 0 <= q <= 24 * 80 -> 0 <= i < 24 * 80 ->
  scroll_up q m i = if q <=? i then 0 else if i <? 23 * 80 then m (i + 80) else m i.
Proof.
  intros Hq Hi. unfold scroll_up. rewrite stosb_spec by lia. unfold filled, memmove. cbn [Z.ltb Z.compare andb].
  rewrite (copy_up_spec (Z.to_nat (23 * 80)) m 0 80 i) by lia. rewrite Z2Nat.id by lia.
  destruct (Z.leb_spec q i), (Z.ltb_spec i (q + (24 * 80 - q))); cbn [andb]; try lia; [done|].
  destruct (Z.leb_spec 0 i), (Z.ltb_spec i (0 + 23 * 80)), (Z.ltb_spec i (23 * 80)); cbn [andb]; try lia; try done.
  f_equal. lia.
Qed.

(** The second half of [cgaputc] (lines 147-157), from the new position on. *)
Definition settle (q : Z) : Con unit :=
  q <- (if Z.quot q 80 >=? 24 then modify (set_crt (scroll_up (q - 80))) ;;; ret (q - 80) else ret q) ;;
  modify (set_cursor (u16 q)) ;;; crt_set q (Z.lor 32 0x0700).

Lemma crt_set_run q v s : 0 <= q < 25 * 80 -> crt_set q v s = Ok (tt, set_crt (fun m => upd m q v) s).
Proof.
  intros Hq. unfold crt_set. destruct (Z.leb_spec 0 q), (Z.ltb_spec q (25 * 80)); cbn [andb]; try lia. done.
Qed.

(** [q] is the cursor cell on the screen that shows lines [t] to [t + 23] of
    [m']; one line more is shown when it is on line 24. *)
Lemma settle_run m' t q s :
  0 <= t -> 0 <= q <= 24 * 80 ->
  (forall i, 0 <= i < 24 * 80 -> crt s i = m' (80 * t + i)) -> (forall j, 80 * (t + 24) <= j -> m' j = 0) ->
  exists m cur, settle q s = Ok (tt, repainted m cur (uart_out s) s) /\
    shows (mkPaper (upd m' (80 * t + q) blank) (80 * t + q) (if (80 * t + q) / 80 >=? t + 24 then t + 1 else t)) m cur.
Proof.
  intros Ht Hq Hm Hbelow. unfold settle.
  assert (Hdiv : (80 * t + q) / 80 = t + q / 80) by (rewrite Z.mul_comm, Z.div_add_l by lia; lia).
  rewrite Hdiv, Z.quot_div_nonneg by lia. rewrite !Z.geb_leb.
  replace (t + 24 <=? t + q / 80) with (24 <=? q / 80) by (apply eq_bool_prop_intro; split; intros H%Is_true_eq_true; apply Is_true_eq_left; zbool; lia).
  destruct (Z.leb_spec 24 (q / 80)) as [Hs|Hs].
  - assert (q = 24 * 80) as -> by (pose proof (Z.div_le_lower_bound q 80 24); pose proof (Z.mul_div_le q 80 ltac:(lia)); lia).
    do 2 (erewrite bind_Ok; [|reflexivity]).
    replace (u16 (24 * 80 - 80)) with (24 * 80 - 80) by reflexivity.
    rewrite crt_set_run by lia. do 2 eexists. split; [reflexivity|].
    constructor; cbn [top cells pos crt cursor set_crt set_cursor]; try lia.
    + intros i Hi. cbn [crt set_crt set_cursor]. unfold upd at 1 2. fold blank.
      destruct (Z.eqb_spec i (24 * 80 - 80)), (Z.eqb_spec (80 * (t + 1) + i) (80 * t + 24 * 80)); try lia.
      rewrite scroll_cells by lia. destruct (Z.leb_spec (24 * 80 - 80) i).
      * symmetry. apply Hbelow. lia.
      * destruct (Z.ltb_spec i (23 * 80)); [|lia]. rewrite Hm by lia. f_equal. lia.
    + intros j Hj. rewrite upd_ne by lia. apply Hbelow. lia.
  - assert (Hq' : q < 24 * 80) by (destruct (decide (q = 24 * 80)) as [->|]; [by vm_compute in Hs | lia]).
    erewrite bind_Ok; [|reflexivity].
    replace (u16 q) with q by (unfold u16; rewrite Z.mod_small; lia). erewrite bind_Ok; [|reflexivity].
    rewrite crt_set_run by lia. do 2 eexists. split; [reflexivity|].
    constructor; cbn [top cells pos crt cursor set_crt set_cursor]; try lia.
    + intros i Hi. cbn [crt set_crt set_cursor]. unfold upd. fold blank.
      destruct (Z.eqb_spec i q), (Z.eqb_spec (80 * t + i) (80 * t + q)); try lia. by apply Hm.
    + intros j Hj. rewrite upd_ne by lia. by apply Hbelow.
Qed.

Definition on_paper (p : paper) (s : con) : Prop := shows p (crt s) (cursor s).

Lemma cgaputc_settle c s : cgaputc c s =
  (q <- (if c =? 10 then ret (cursor s + (80 - Z.rem (cursor s) 80))
         else if c =? BACKSPACE then ret (if cursor s >? 0 then cursor s - 1 else cursor s)
         else crt_set (cursor s) (Z.lor (Z.land c 0xff) 0x0700) ;;; ret (cursor s + 1)) ;; settle q) s.
Proof. reflexivity. Qed.

Lemma cgaputc_run p c s : on_paper p s ->
  exists m cur, cgaputc c s = Ok (tt, repainted m cur (uart_out s) s) /\ shows (type_char p c) m cur.
Proof.
  intros [Ht Hm Hc Hr Hb]. rewrite cgaputc_settle. unfold type_char.
  assert (Hpos : pos p = 80 * top p + cursor s) by lia.
  destruct (Z.eqb_spec c 10) as [->|Hn]; [|destruct (Z.eqb_spec c BACKSPACE) as [->|Hbs]].
  - erewrite bind_Ok; [|reflexivity]. rewrite Z.rem_mod_nonneg by lia.
    assert (E : 80 * (pos p / 80 + 1) = 80 * top p + (cursor s + (80 - cursor s mod 80))).
    { rewrite Hpos. rewrite (Z.mul_comm 80 (top p)), Z.div_add_l by lia.
      pose proof (Z.div_mod (cursor s) 80 ltac:(lia)). lia. }
    rewrite E. apply settle_run; try done.
    pose proof (Z.div_mod (cursor s) 80 ltac:(lia)). pose proof (Z.mod_pos_bound (cursor s) 80 ltac:(lia)).
    assert (cursor s / 80 < 24) by (apply Z.div_lt_upper_bound; lia). lia.
  - erewrite bind_Ok; [|reflexivity]. rewrite !Z.gtb_ltb.
    replace (80 * top p <? pos p) with (0 <? cursor s).
    2: { destruct (Z.ltb_spec 0 (cursor s)), (Z.ltb_spec (80 * top p) (pos p)); lia. }
    replace (if 0 <? cursor s then pos p - 1 else pos p) with (80 * top p + (if 0 <? cursor s then cursor s - 1 else cursor s))
      by (destruct (0 <? cursor s); lia).
    apply settle_run; try done. destruct (Z.ltb_spec 0 (cursor s)); lia.
  - erewrite bind_Ok; [|rewrite bind_Ok with (a := tt) (s' := set_crt (fun m => upd m (cursor s) (cell c)) s);
      [reflexivity | apply crt_set_run; lia]].
    replace (pos p + 1) with (80 * top p + (cursor s + 1)) by lia.
    destruct (settle_run (upd (cells p) (pos p) (cell c)) (top p) (cursor s + 1) (set_crt (fun m => upd m (cursor s) (cell c)) s))
      as (m & cur & E & Hs); try done; try lia.
    + intros i Hi. cbn [crt set_crt]. unfold upd.
      destruct (Z.eqb_spec i (cursor s)), (Z.eqb_spec (80 * top p + i) (pos p)); try lia. by apply Hm.
    + intros j Hj. rewrite upd_ne by lia. by apply Hb.
    + exists m, cur. by rewrite E.
Qed.

(** What goes to the serial port. *)
Definition serial (s : con) (c : Z) : list Z :=
  if uart s then if c =? BACKSPACE then [8; 32; 8] else [u8 c] else [].
Definition output (p : paper) (s : con) (l : list Z) (s' : con) : Prop :=
  exists m cur, s' = repainted m cur (uart_out s ++ (l ≫= serial s)) s /\
    shows (fold_left type_char l p) m cur.

Lemma consputc_run p c s : on_paper p s -> panicked s = false ->
  exists s', consputc c s = Ok (tt, s') /\ output p s [c] s'.
Proof.
  intros Hp Hk. unfold consputc. erewrite bind_Ok; [|reflexivity]. rewrite Hk. unfold output, serial.
  cbn [mbind list_bind fold_left]. rewrite app_nil_r.
  set (o := uart_out s ++ _).
  assert (E : (if c =? BACKSPACE then uartputc 8 ;;; uartputc 32 ;;; uartputc 8 else uartputc c) s
    = Ok (tt, repainted (crt s) (cursor s) o s)).
  { unfold o, uartputc. destruct s as [pk lk ch m cur u out ih buf r w e wk]. cbn [uart uart_out crt cursor].
    destruct (c =? BACKSPACE); unfold M_bind, gets, modify, ret, send, repainted; cbn [uart]; destruct u; cbn;
      rewrite ?app_nil_r; [|done..]. by rewrite <- !app_assoc. }
  erewrite bind_Ok; [|exact E].
  destruct (cgaputc_run p c (repainted (crt s) (cursor s) o s) Hp) as (m & cur & Ec & Hs).
  exists (repainted m cur o s). split; [exact Ec | by exists m, cur].
Qed.
Lemma output_on_paper p s l s' : output p s l s' -> on_paper (fold_left type_char l p) s' /\ panicked s' = panicked s.
Proof. by intros (m & cur & -> & Hs). Qed.
Lemma output_app p s l1 l2 s1 s2 :
  output p s l1 s1 -> output (fold_left type_char l1 p) s1 l2 s2 -> output p s (l1 ++ l2) s2.
Proof.
  intros (m1 & c1 & -> & H1) (m2 & c2 & -> & H2). exists m2, c2. split.
  - unfold repainted. cbn. f_equal. by rewrite bind_app, app_assoc.
  - by rewrite fold_left_app.
Qed.
Lemma output_nil p s : on_paper p s -> output p s [] s.
Proof. intros H. exists (crt s), (cursor s). split; [|exact H]. cbn. rewrite app_nil_r. by destruct s. Qed.

Lemma put_all_run l : forall p s, on_paper p s -> panicked s = false ->
  exists s', put_all consputc l s = Ok (tt, s') /\ output p s l s'.
Proof.
  induction l as [|c l IH]; intros p s Hp Hk.
  { exists s. split; [done | by apply output_nil]. }
  destruct (consputc_run p c s Hp Hk) as (s1 & E1 & O1). destruct (output_on_paper _ _ _ _ O1) as [Hp1 Hk1].
  destruct (IH _ s1 Hp1) as (s2 & E2 & O2); [congruence|].
  exists s2. cbn [put_all]. erewrite bind_Ok; [|exact E1]. split; [done|]. by apply (output_app _ _ [c] l s1).
Qed.

Definition quiet (s : con) : Prop := panicked s = false /\ cons_held s = false.
Lemma output_quiet p s l s' : output p s l s' -> quiet s -> quiet s'.
Proof. by intros (m & cur & -> & Hs). Qed.

(** Output between [acquire] and [release] of the console lock. *)
Lemma locked_output (c : Con unit) p l s : on_paper p s -> quiet s ->
  (forall s, on_paper p s -> panicked s = false -> exists s', c s = Ok (tt, s') /\ output p s l s') ->
  exists s', (acquire_cons ;;; c ;;; release_cons) s = Ok (tt, s') /\ output p s l s'.
Proof.
  intros Hp [Hk Hh] Hc. unfold acquire_cons. rewrite bind_assoc. erewrite bind_Ok; [|reflexivity].
  rewrite Hh. erewrite bind_Ok; [|reflexivity].
  destruct (Hc (set_cons true s) Hp Hk) as (s1 & E & m & cur & -> & Hs). erewrite bind_Ok; [|exact E].
  eexists. split; [reflexivity|]. exists m, cur. split; [|done]. by destruct s; cbn in *; subst.
Qed.
(** Writing to the console types on the screen: [consolewrite]'s loop
    returns, the screen then shows the last 24 lines of the paper with the
    bytes typed after what was there, wrapping at column 80 and scrolling, the
    serial port got the same bytes and nothing else changed; no cell outside
    the text memory is touched. *)
Theorem console_write_types p s buf : on_paper p s -> quiet s ->
  exists s', write_body buf s = Ok (tt, s') /\ output p s (map u8 buf) s'.
Proof.
  intros Hp Hq. apply locked_output; [done..|]. clear s Hp Hq. intros s Hp Hk. destruct (put_all_run (map u8 buf) p s Hp Hk) as (s' & E & O).
  exists s'. split; [|done]. rewrite <- E. clear. revert s. induction buf as [|c buf IH]; intros s; [done|].
  cbn [mfor_list map put_all]. apply bind_ext. intros [] s1 _. apply IH.
Qed.

Lemma cprintf_run m strs fmt f args (k : nat) out p s : on_paper p s -> quiet s ->
  str_at m fmt f -> (0 < k)%nat -> fmt <> 0 ->
  (forall a l, strs a = Some l -> str_at m a l /\ (length l < k)%nat) ->
  render kernel_digits false strs f args = Some out ->
  exists s', cprintf m fmt args (length f + k) s = Ok (tt, s') /\ output p s out s'.
Proof.
  intros Hp Hq Hf Hk Hnz Hs Hr.
  assert (Hloop : forall s, on_paper p s -> panicked s = false -> exists s',
    cprintf_loop consputc m fmt args (length f + k) s = Ok (tt, s') /\ output p s out s').
  { intros s' Hp' Hk'. rewrite (cprintf_loop_run consputc m strs k Hs (S (length f)) f fmt args out) by (done || lia).
    by apply put_all_run. }
  unfold cprintf. erewrite bind_Ok; [|reflexivity]. destruct (Z.eqb_spec fmt 0); [done|].
  destruct (locking s); [by apply locked_output|].
  erewrite bind_Ok; [|reflexivity]. destruct (Hloop s Hp) as (s' & E & O); [apply Hq|].
  exists s'. erewrite bind_Ok; [|exact E]. done.
Qed.

(** Strings laid out in memory. *)
Definition text (l : list Z) : Prop := Forall (fun c => 0 < c < 256) l /\ Z.of_nat (length l) < 4096.
Lemma str_put m a l : (forall x, a <= x <= a + Z.of_nat (length l) -> m x = 0) -> Forall (fun c => 0 < c < 256) l ->
  str_at (put_bytes m a l) a l.
Proof.
  intros Hm Hl. revert m a Hm. induction Hl as [|c l Hc Hl IH]; intros m a Hm; cbn [put_bytes str_at length] in *.
  { apply Hm. lia. }
  split; [|split; [done|]].
  - rewrite put_bytes_at. destruct (Z.leb_spec (a + 1) a); [lia|]. cbn [andb]. apply upd_eq.
  - apply IH. intros x Hx. rewrite upd_ne by lia. apply Hm. lia.
Qed.

Section Strings.
Context (fmt s1 s2 : list Z) (Hf : text fmt) (H1 : text s1) (H2 : text s2).
Let m := strings_at [(fmt_at, fmt); (str1_at, s1); (str2_at, s2)].
Lemma strings_other a l m' x : text l -> x < a \/ a + 4096 <= x -> put_bytes m' a l x = m' x.
Proof.
  intros [_ Hl] Hx. rewrite put_bytes_at.
  destruct (Z.leb_spec a x), (Z.ltb_spec x (a + Z.of_nat (length l))); cbn [andb]; try done. lia.
Qed.
Lemma strings_placed : str_at m fmt_at fmt /\ str_at m str1_at s1 /\ str_at m str2_at s2.
Proof using Hf H1 H2.
  pose proof Hf as [Ff Lf]. pose proof H1 as [F1 L1]. pose proof H2 as [F2 L2].
  unfold m, strings_at, fmt_at, str1_at, str2_at in *. cbn [fold_right fst snd]. split; [|split].
  - apply str_put; [|done]. intros x Hx. rewrite !strings_other by (done || lia). done.
  - apply (str_at_agree (put_bytes (put_bytes (fun _ => 0) 12288 s2) 8192 s1)).
    + intros x Hx. by rewrite strings_other by (done || lia).
    + apply str_put; [|done]. intros x Hx. by rewrite strings_other by (done || lia).
  - apply (str_at_agree (put_bytes (fun _ => 0) 12288 s2)).
    + intros x Hx. by rewrite !strings_other by (done || lia).
    + by apply str_put.
Qed.
Definition strs_of (a : Z) : option (list Z) :=
  if a =? str1_at then Some s1 else if a =? str2_at then Some s2 else None.
Lemma cprint_run args out p s : on_paper p s -> quiet s ->
  render kernel_digits false strs_of fmt args = Some out ->
  exists s', cprint fmt s1 s2 args s = Ok (tt, s') /\ output p s out s'.
Proof using Hf H1 H2.
  intros Hp Hq Hr. destruct strings_placed as (Pf & P1 & P2). unfold cprint.
  replace (S (length fmt + length s1 + length s2)) with (length fmt + S (length s1 + length s2))%nat by lia.
  apply (cprintf_run _ strs_of); try done; try lia.
  unfold strs_of. intros a l. destruct (Z.eqb_spec a str1_at) as [->|]; [|destruct (Z.eqb_spec a str2_at) as [->|]];
    intros E; simplify_eq; split; (done || lia).
Qed.
End Strings.

(** A sequence of outputs. *)
Lemma seq_output p s l1 l2 (c1 c2 : Con unit) :
  on_paper p s -> quiet s ->
  (exists s1, c1 s = Ok (tt, s1) /\ output p s l1 s1) ->
  (forall s1, on_paper (fold_left type_char l1 p) s1 -> quiet s1 ->
     exists s2, c2 s1 = Ok (tt, s2) /\ output (fold_left type_char l1 p) s1 l2 s2) ->
  exists s2, (c1 ;;; c2) s = Ok (tt, s2) /\ output p s (l1 ++ l2) s2.
Proof.
  intros Hp Hq (s1 & E1 & O1) H2. destruct (output_on_paper _ _ _ _ O1) as [Hp1 _].
  destruct (H2 s1 Hp1 (output_quiet _ _ _ _ O1 Hq)) as (s2 & E2 & O2).
  exists s2. erewrite bind_Ok; [|exact E1]. split; [done|]. by eapply output_app.
Qed.
Lemma each_output (f : Z -> Con unit) (g : Z -> list Z) l :
  (forall x p s, x ∈ l -> on_paper p s -> quiet s -> exists s', f x s = Ok (tt, s') /\ output p s (g x) s') ->
  forall p s, on_paper p s -> quiet s -> exists s', mfor_list l f s = Ok (tt, s') /\ output p s (l ≫= g) s'.
Proof.
  induction l as [|x l IH]; intros H p s Hp Hq.
  { exists s. split; [done | by apply output_nil]. }
  rewrite bind_cons. cbn [mfor_list]. apply seq_output; [done..| |].
  - apply H; [set_solver|done..].
  - intros s1 Hp1 Hq1. apply IH; [|done..]. intros y q s' Hy. apply H. set_solver.
Qed.

(** The process listing. *)
Definition pc_text (pc : Z) : list Z := 32 :: number kernel_digits 16 (u32 pc).
Definition row_text (t : Z -> proc) (m : mem) (ebp : Z -> Z) (p : Z) : list Z :=
  if is_state UNUSED (t p) then []
  else
    (number kernel_digits 10 (s32 (pid (t p))) ++ 32 :: state_name (state (t p)) ++ 32 :: name (t p)) ++
    (if is_state SLEEPING (t p) then until_zero (getcallerpcs m (u32 (ebp p + 8))) ≫= pc_text else []) ++ [10].
Definition dump_text (t : Z -> proc) (m : mem) (ebp : Z -> Z) : list Z := seqZ 0 (NPROC - 0) ≫= row_text t m ebp.

Lemma text_small l : Forall (fun c => 0 < c < 256) l -> (length l < 4096)%nat -> text l.
Proof. intros H L. split; [done|lia]. Qed.
Ltac small_text := apply text_small; [repeat constructor; lia | simpl; lia].
Lemma pc_print pc p s : on_paper p s -> quiet s ->
  exists s', cprint [32; 37; 112] [] [] [pc] s = Ok (tt, s') /\ output p s (pc_text pc) s'.
Proof. intros Hp Hq. apply cprint_run; [small_text..|done|done|]. cbn. by rewrite app_nil_r. Qed.

Lemma procdump_run t m ebp p s : on_paper p s -> quiet s -> (forall i, text (name (t i))) ->
  exists s', procdump t m ebp s = Ok (tt, s') /\ output p s (dump_text t m ebp) s'.
Proof.
  intros Hp Hq Hn. unfold procdump, mfor, dump_text. apply each_output; [|done..].
  clear p s Hp Hq. intros i p s _ Hp Hq. unfold row_text. case_if; [exists s; split; [done | by apply output_nil]|].
  apply seq_output; [done..| |].
  - apply cprint_run; [small_text | destruct (state (t i)); small_text | done.. |].
    cbn. rewrite app_nil_r. done.
  - intros s1 Hp1 Hq1. apply seq_output; [done..| |].
    + case_if; [|exists s1; split; [done | by apply output_nil]].
      apply each_output; [|done..]. intros; by apply pc_print.
    + intros s2 Hp2 Hq2. apply cprint_run; [small_text..|done|done|]. done.
Qed.
