(* ===== verification/ConsoleLine.v ===== *)
(** * ConsoleLine: the line discipline of the console (src/src/console.c 176-263)

    The ring of 128 bytes with its three free-running indices is a queue of
    committed bytes followed by the line that is being edited.  Interrupts
    append to and edit the line, readers take from the queue; every sequence
    of the two is compared with the two lists. *)
From S2P Require Import Prelude.
From S2P Require Import CString.
From S2P Require Import Fs.
From S2P Require Import Proc.
From S2P Require Import Printf.
From S2P Require Import Console.
From S2P Require Import ConsoleFacts.

(** ** The specification *)

(** The committed bytes, the line being edited, and how often readers were woken. *)
Record lines := mkLines { queue : list Z; line : list Z; wakes : nat }.
Definition held (l : lines) : Z := Z.of_nat (length (queue l ++ line l)).
(** What a character does to the lines and what is echoed; [dump] is the
    process listing of control-P. *)
Definition key (dump : list Z) (l : lines) (c : Z) : lines * list Z :=
  if c =? C 80 then (l, dump)
  else if c =? C 85 then (mkLines (queue l) [] (wakes l), replicate (length (line l)) BACKSPACE)
  else if (c =? C 72) || (c =? 127) then
    match line l with
    | [] => (l, [])
    | _ => (mkLines (queue l) (removelast (line l)) (wakes l), [BACKSPACE])
    end
  else if (c =? 0) || (held l >=? INPUT_BUF) then (l, [])
  else
    let c := if c =? 13 then 10 else c in
    let l' := line l ++ [c] in
    if (c =? 10) || (c =? C 68) || (held l + 1 =? INPUT_BUF) then (mkLines (queue l ++ l') [] (S (wakes l)), [c])
    else (mkLines (queue l) l' (wakes l), [c]).
Fixpoint keys (dump : list Z) (l : lines) (cs : list Z) : lines * list Z :=
  match cs with
  | [] => (l, [])
  | c :: cs => let '(l1, o1) := key dump l c in let '(l2, o2) := keys dump l1 cs in (l2, o1 ++ o2)
  end.
(** A reader that wants [n] more bytes of [target]: it takes up to a newline or
    control-D, and leaves a control-D that is not the first thing it finds. *)
Fixpoint take_line (killed : bool) (target n : Z) (q : list Z) : read_end * list Z * list Z :=
  if n >? 0 then
    match q with
    | [] => (if killed then Returns (-1) else Sleeps n, [], [])
    | c :: q' =>
        if c =? C 68 then (Returns (target - n), [], if n <? target then q else q')
        else if c =? 10 then (Returns (target - (n - 1)), [c], q')
        else let '(r, l, q'') := take_line killed target (n - 1) q' in (r, c :: l, q'')
    end
  else (Returns (target - n), [], q).

Inductive event := Typed (cs : list Z) | Reading (killed : bool) (target n : Z).
Definition spec_event (dump : list Z) (l : lines) (e : event) : lines * list Z * list (read_end * list Z) :=
  match e with
  | Typed cs => let '(l', o) := keys dump l cs in (l', o, [])
  | Reading k target n =>
      let '(r, b, q) := take_line k target n (queue l) in (mkLines q (line l) (wakes l), [], [(r, b)])
  end.
Fixpoint spec_run (dump : list Z) (l : lines) (es : list event) : lines * list Z * list (read_end * list Z) :=
  match es with
  | [] => (l, [], [])
  | e :: es =>
      let '(l1, o1, r1) := spec_event dump l e in
      let '(l2, o2, r2) := spec_run dump l1 es in (l2, o1 ++ o2, r1 ++ r2)
  end.

(** The same events on the console. *)
Section Run.
Context (listing : Con unit).
Definition do_event (e : event) : Con (list (read_end * list Z)) :=
  match e with
  | Typed cs => consoleintr listing cs ;;; ret []
  | Reading k target n => r <- read_segment k target n ;; ret [r]
  end.
Fixpoint do_events (es : list event) : Con (list (read_end * list Z)) :=
  match es with
  | [] => ret []
  | e :: es => r1 <- do_event e ;; r2 <- do_events es ;; ret (r1 ++ r2)
  end.
End Run.

(** ** The ring holds the lines *)
(** All bytes held are [x], the first [n] of them committed. *)
Record core (s : con) (n : nat) (x : list Z) : Prop := mkCore {
  rg_buf : length (in_buf s) = 128%nat;
  rg_r : 0 <= in_r s < 2 ^ 32;
  rg_w : in_w s = u32 (in_r s + Z.of_nat n);
  rg_e : in_e s = u32 (in_r s + Z.of_nat (length x));
  rg_held : (n <= length x <= 128)%nat;
  rg_at : forall k c, x !! k = Some c -> ring_at s (in_r s + Z.of_nat k) = c }.
Record ring (s : con) (l : lines) : Prop := mkRing {
  rg_core : core s (length (queue l)) (queue l ++ line l);
  rg_line : Forall (fun c => c <> 10) (line l);
  rg_wakes : woken s = wakes l }.
(** What an interrupt changes besides the ring: the screen and the port. *)
Record step_ok (p : paper) (s : con) (out : list Z) (s' : con) : Prop := mkStep {
  st_paper : on_paper (fold_left type_char out p) s';
  st_out : uart_out s' = uart_out s ++ (out ≫= serial s);
  st_uart : uart s' = uart s;
  st_flags : (panicked s', locking s', cons_held s', input_held s') = (panicked s, locking s, cons_held s, input_held s) }.

Lemma u32_mod_ring i k : (u32 i + k) mod INPUT_BUF = (i + k) mod INPUT_BUF.
Proof.
  unfold u32, INPUT_BUF. rewrite (Z.add_mod (i mod 2 ^ 32)), (Z.add_mod i) by lia. do 2 f_equal.
  apply Z.mod_mod_divide. by exists (2 ^ 25).
Qed.
Lemma ring_at_mod s i : ring_at s i = nth (Z.to_nat (i mod INPUT_BUF)) (in_buf s) 0.
Proof. unfold ring_at. do 2 f_equal. rewrite <- (Z.add_0_r (u32 i)), u32_mod_ring. f_equal. lia. Qed.
Lemma ring_at_shift s i k : ring_at s (u32 i + k) = ring_at s (i + k).
Proof. by rewrite !ring_at_mod, u32_mod_ring. Qed.
Lemma held_lengths l : held l = Z.of_nat (length (queue l)) + Z.of_nat (length (line l)).
Proof. unfold held. rewrite length_app. lia. Qed.
Lemma step_refl p s : on_paper p s -> step_ok p s [] s.
Proof. intros Hp. constructor; try done. by rewrite app_nil_r. Qed.
Lemma step_trans p s o1 s1 o2 s2 :
  step_ok p s o1 s1 -> step_ok (fold_left type_char o1 p) s1 o2 s2 -> step_ok p s (o1 ++ o2) s2.
Proof.
  intros [P1 O1 U1 F1] [P2 O2 U2 F2]. constructor.
  - by rewrite fold_left_app.
  - rewrite O2, O1, bind_app, app_assoc. do 2 f_equal. unfold serial. by rewrite U1.
  - congruence.
  - congruence.
Qed.
Lemma output_step p s out s' : output p s out s' -> step_ok p s out s'.
Proof. by intros (m & cur & -> & Hs). Qed.
Lemma output_ring p s out s' l : output p s out s' -> ring s l -> ring s' l.
Proof. intros (m & cur & -> & Hs) [[] ? ?]. by constructor. Qed.
Lemma set_ring_step p s b r w e : on_paper p s -> step_ok p s [] (set_ring b r w e s).
Proof. intros Hp. constructor; try done. by rewrite app_nil_r. Qed.

Lemma u32_apart i j d : 0 < d < 2 ^ 32 -> j = i + d -> u32 i <> u32 j.
Proof.
  unfold u32. intros Hd -> E. apply (f_equal (fun z => (z - i) mod 2 ^ 32)) in E. revert E.
  rewrite !Zminus_mod_idemp_l. replace (i - i) with 0 by lia. replace (i + d - i) with d by lia.
  rewrite !Z.mod_small by lia. lia.
Qed.
Lemma core_back s n x c : core s n (x ++ [c]) -> (n <= length x)%nat ->
  (in_e s =? in_w s) = false /\ ring_at s (in_e s - 1) = c /\
  core (set_ring (in_buf s) (in_r s) (in_w s) (u32 (in_e s - 1)) s) n x.
Proof.
  intros [Hb Hr Hw He Hh Ha] Hn. rewrite length_app in Hh, He. cbn [length] in Hh, He.
  assert (E : u32 (in_e s - 1) = u32 (in_r s + Z.of_nat (length x))).
  { rewrite He, <- Z.add_opp_r, u32_add_l. f_equal. lia. }
  split; [|split].
  - apply Z.eqb_neq. rewrite He, Hw. apply not_eq_sym, u32_apart with (d := Z.of_nat (length x + 1 - n)); lia.
  - rewrite He, <- Z.add_opp_r, ring_at_shift. rewrite <- (Ha (length x) c); [f_equal; lia|].
    by rewrite lookup_app_r, Nat.sub_diag by lia.
  - constructor; cbn; try done; [lia|].
    intros k d Hk. unfold ring_at. cbn [in_buf set_ring]. apply (Ha k d). by apply lookup_app_l_Some.
Qed.
Lemma core_push s n x c : core s n x -> (length x < 128)%nat -> exists b,
  arr_set (in_buf s) (in_e s mod INPUT_BUF) c = Some b /\
  core (set_ring b (in_r s) (in_w s) (u32 (in_e s + 1)) s) n (x ++ [c]).
Proof.
  intros [Hb Hr Hw He Hh Ha] Hx.
  assert (E : in_e s mod INPUT_BUF = (in_r s + Z.of_nat (length x)) mod INPUT_BUF).
  { rewrite He. rewrite <- (Z.add_0_r (u32 _)), u32_mod_ring. f_equal. lia. }
  assert (Hm : 0 <= (in_r s + Z.of_nat (length x)) mod INPUT_BUF < 128) by by apply Z.mod_pos_bound.
  unfold arr_set. rewrite E, Hb.
  destruct (Z.ltb_spec ((in_r s + Z.of_nat (length x)) mod INPUT_BUF) 0); [lia|].
  destruct (Z.leb_spec (Z.of_nat 128) ((in_r s + Z.of_nat (length x)) mod INPUT_BUF)); [lia|].
  eexists. split; [reflexivity|]. constructor; cbn [in_buf in_r in_w in_e set_ring]; try done.
  - by rewrite length_insert.
  - rewrite He, u32_add_l, length_app. cbn [length]. f_equal. lia.
  - rewrite length_app. cbn [length]. lia.
  - intros k d Hk. rewrite ring_at_mod. cbn [in_buf set_ring].
    apply lookup_app_Some in Hk as [Hk|[Hk1 Hk2]].
    + pose proof (lookup_lt_Some _ _ _ Hk). rewrite <- (Ha k d Hk), ring_at_mod.
      rewrite !nth_lookup, list_lookup_insert_ne; [done|]. intros F%Z2Nat.inj; try lia.
      * apply (f_equal (fun z => (z - (in_r s + Z.of_nat k)) mod INPUT_BUF)) in F. revert F.
        rewrite !Zminus_mod_idemp_l. replace (in_r s + Z.of_nat k - (in_r s + Z.of_nat k)) with 0 by lia.
        replace (in_r s + Z.of_nat (length x) - (in_r s + Z.of_nat k)) with (Z.of_nat (length x - k)) by lia.
        unfold INPUT_BUF. rewrite !Z.mod_small by lia. lia.
      * apply Z.mod_pos_bound. done.
    + assert (k = length x) as ->.
      { apply lookup_lt_Some in Hk2. cbn [length] in Hk2. lia. }
      rewrite Nat.sub_diag in Hk2. cbn in Hk2. simplify_eq.
      rewrite nth_lookup, list_lookup_insert_eq; [done|]. rewrite Hb. lia.
Qed.
Lemma core_commit s n x : core s n x ->
  core (set_ring (in_buf s) (in_r s) (in_e s) (in_e s) s) (length x) x.
Proof. intros [Hb Hr Hw He Hh Ha]. constructor; cbn [in_buf in_r in_w in_e set_ring]; try done. lia. Qed.
Lemma core_front s n x c : core s (S n) (c :: x) ->
  (in_r s =? in_w s) = false /\ ring_at s (in_r s) = c /\
  core (set_ring (in_buf s) (u32 (in_r s + 1)) (in_w s) (in_e s) s) n x.
Proof.
  intros [Hb Hr Hw He Hh Ha]. cbn [length] in *. split; [|split].
  - apply Z.eqb_neq. rewrite Hw. rewrite <- (u32_small (in_r s)) at 1 by lia.
    apply u32_apart with (d := Z.of_nat (S n)); lia.
  - rewrite <- (Ha O c) by done. f_equal. lia.
  - constructor; cbn [in_buf in_r in_w in_e set_ring]; try done.
    + apply u32_range.
    + rewrite Hw, u32_add_l. f_equal. lia.
    + rewrite He, u32_add_l. f_equal. lia.
    + lia.
    + intros k d Hk. rewrite ring_at_shift. rewrite <- (Ha (S k) d Hk), !ring_at_mod. cbn [in_buf set_ring].
      do 3 f_equal. lia.
Qed.

(** ** Interrupts *)
Section Intr.
Context (listing : Con unit) (dump : list Z).
Context (Hlisting : forall p s, on_paper p s -> quiet s -> exists s', listing s = Ok (tt, s') /\ output p s dump s').

Lemma step_quiet p s o s' : step_ok p s o s' -> quiet s -> quiet s'.
Proof. intros [_ _ _ F] [K H]. injection F as F1 F2 F3 F4. split; congruence. Qed.

(** [input.e--; consputc(BACKSPACE);] *)
Lemma erase_run p s l x c : ring s l -> line l = x ++ [c] -> on_paper p s -> quiet s ->
  exists s', (modify (set_ring (in_buf s) (in_r s) (in_w s) (u32 (in_e s - 1))) ;;; consputc BACKSPACE) s = Ok (tt, s') /\
    ring s' (mkLines (queue l) x (wakes l)) /\ step_ok p s [BACKSPACE] s'.
Proof.
  intros [Hc Hl Hw] El Hp [Hk Hh]. rewrite El in Hc, Hl. rewrite app_assoc in Hc.
  destruct (core_back _ _ _ _ Hc) as (_ & _ & Hc'); [rewrite length_app; lia|].
  set (s0 := set_ring (in_buf s) (in_r s) (in_w s) (u32 (in_e s - 1)) s) in *.
  destruct (consputc_run p BACKSPACE s0 Hp Hk) as (s' & E & O).
  exists s'. erewrite bind_Ok; [|reflexivity]. split; [exact E|]. split.
  - eapply output_ring; [exact O|]. constructor; [done | | done]. by apply Forall_app in Hl as [? _].
  - apply (step_trans p s [] s0); [by apply set_ring_step | by apply output_step].
Qed.
Lemma kill_line_run x : forall fuel p s l, ring s l -> line l = x -> on_paper p s -> quiet s -> (length x < fuel)%nat ->
  exists s', kill_line fuel s = Ok (tt, s') /\ ring s' (mkLines (queue l) [] (wakes l)) /\
    step_ok p s (replicate (length x) BACKSPACE) s'.
Proof.
  induction x as [|c x IH] using rev_ind; intros [|fuel] p s l Hr El Hp Hq Hf; try (simpl in Hf; lia);
    cbn [kill_line]; (erewrite bind_Ok; [|reflexivity]).
  - assert (E : in_e s = in_w s).
    { destruct Hr as [[_ _ Hw He _ _] _ _]. rewrite Hw, He, El, app_nil_r. done. }
    rewrite E, Z.eqb_refl. exists s. split; [done|]. split; [|by apply step_refl].
    destruct l; cbn in *. by subst.
  - assert (Hg : negb (in_e s =? in_w s) && negb (ring_at s (in_e s - 1) =? 10) = true).
    { destruct Hr as [Hc Hl _]. rewrite El in Hc, Hl. rewrite app_assoc in Hc.
      destruct (core_back _ _ _ _ Hc) as (-> & -> & _); [rewrite length_app; lia|].
      apply Forall_app in Hl as [_ Hl]. inversion_clear Hl. cbn [negb andb]. apply negb_true_iff, Z.eqb_neq. done. }
    rewrite Hg. destruct (erase_run p s l x c Hr El Hp Hq) as (s1 & E1 & Hr1 & S1).
    rewrite <- bind_assoc. erewrite bind_Ok; [|exact E1].
    rewrite length_app in *. cbn [length] in *.
    destruct (IH fuel _ s1 _ Hr1 eq_refl (st_paper _ _ _ _ S1) (step_quiet _ _ _ _ S1 Hq)) as (s2 & E2 & Hr2 & S2); [lia|].
    exists s2. split; [done|]. split; [done|].
    rewrite Nat.add_1_r. by apply (step_trans p s [BACKSPACE] s1).
Qed.

(** An ordinary character. *)
Lemma store_run p s l c : ring s l -> on_paper p s -> quiet s -> held l < INPUT_BUF -> 0 < c < 256 ->
  let l' := line l ++ [c] in
  let go :=
    b <- of_option (arr_set (in_buf s) (in_e s mod INPUT_BUF) (u8 c)) ;;
    modify (set_ring b (in_r s) (in_w s) (u32 (in_e s + 1))) ;;;
    consputc c ;;;
    s <- get ;;
    if (c =? 10) || (c =? C 68) || (in_e s =? u32 (in_r s + INPUT_BUF)) then
      modify (set_ring (in_buf s) (in_r s) (in_e s) (in_e s)) ;;; modify add_woken
    else ret tt in
  exists s', go s = Ok (tt, s') /\ step_ok p s [c] s' /\
    ring s' (if (c =? 10) || (c =? C 68) || (held l + 1 =? INPUT_BUF) then mkLines (queue l ++ l') [] (S (wakes l))
             else mkLines (queue l) l' (wakes l)).
Proof.
  intros [Hc Hl Hw] Hp Hq Hheld Hb. cbv zeta. replace (u8 c) with c by (unfold u8; rewrite Z.mod_small; lia).
  destruct (core_push _ _ _ c Hc) as (b & Eb & Hc1); [unfold held, INPUT_BUF in Hheld; lia|].
  rewrite <- app_assoc in Hc1. set (s1 := set_ring b (in_r s) (in_w s) (u32 (in_e s + 1)) s) in *.
  rewrite Eb. do 2 (erewrite bind_Ok; [|reflexivity]).
  destruct (consputc_run p c s1 Hp (proj1 Hq)) as (s2 & E2 & O2). erewrite bind_Ok; [|exact E2].
  erewrite bind_Ok; [|reflexivity].
  assert (Hc2 : core s2 (length (queue l)) (queue l ++ line l ++ [c])).
  { destruct O2 as (m & cur & -> & _). destruct Hc1. by constructor. }
  assert (S2 : step_ok p s [c] s2).
  { apply (step_trans p s [] s1); [by apply set_ring_step | by apply output_step]. }
  assert (Hw2 : woken s2 = wakes l) by (by destruct O2 as (m & cur & -> & _)).
  assert (Efull : (in_e s2 =? u32 (in_r s2 + INPUT_BUF)) = (held l + 1 =? INPUT_BUF)).
  { pose proof Hc2 as [_ _ _ -> _ _]. unfold held in *. rewrite !length_app in *. cbn [length].
    destruct (Z.eqb_spec (Z.of_nat (length (queue l) + length (line l)) + 1) INPUT_BUF) as [<-|Hne].
    - apply Z.eqb_eq. f_equal. lia.
    - apply Z.eqb_neq. unfold INPUT_BUF in *.
      apply u32_apart with (d := 128 - Z.of_nat (length (queue l) + (length (line l) + 1))); lia. }
  rewrite Efull. case_if.
  - erewrite bind_Ok; [|reflexivity]. eexists. split; [reflexivity|]. split.
    + destruct S2. by constructor.
    + pose proof (core_commit _ _ _ Hc2) as []. constructor; cbn [queue line wakes woken add_woken set_ring];
        [rewrite app_nil_r; by constructor | constructor | by rewrite Hw2].
  - zbool. exists s2. split; [done|]. split; [done|]. constructor; [done| |done].
    apply Forall_app. split; [done|]. by repeat constructor.
Qed.

Lemma held_count s l : ring s l -> u32 (in_e s - in_r s) = held l.
Proof.
  intros [[_ _ _ He Hh _] _ _]. rewrite He, u32_sub_l. unfold held.
  replace (in_r s + Z.of_nat (length (queue l ++ line l)) - in_r s) with (Z.of_nat (length (queue l ++ line l))) by lia.
  apply u32_small. lia.
Qed.
Lemma line_count s l : ring s l -> u32 (in_e s - in_w s) = Z.of_nat (length (line l)).
Proof.
  intros [[_ _ Hw He Hh _] _ _]. rewrite He, Hw, u32_sub_l, u32_sub_r. rewrite length_app in *.
  replace (in_r s + Z.of_nat (length (queue l) + length (line l)) - (in_r s + Z.of_nat (length (queue l))))
    with (Z.of_nat (length (line l))) by lia.
  apply u32_small. lia.
Qed.
Lemma line_empty s l : ring s l -> (in_e s =? in_w s) = match line l with [] => true | _ => false end.
Proof.
  intros Hr. destruct (line l) as [|c x] eqn:El.
  - apply Z.eqb_eq. destruct Hr as [[_ _ -> -> _ _] _ _]. by rewrite El, app_nil_r.
  - apply Z.eqb_neq. intros E. pose proof (line_count s l Hr) as H. rewrite E, Z.sub_diag, El in H.
    change (u32 0) with 0 in H. cbn [length] in H. lia.
Qed.
Lemma intr_key_run p s l c : ring s l -> on_paper p s -> quiet s -> 0 <= c < 256 ->
  exists s', intr_key listing c s = Ok (tt, s') /\ ring s' (key dump l c).1 /\ step_ok p s (key dump l c).2 s'.
Proof using Hlisting.
  intros Hr Hp Hq Hc. unfold intr_key, key. erewrite bind_Ok; [|reflexivity].
  rewrite (held_count s l Hr), (line_count s l Hr), (line_empty s l Hr), Nat2Z.id.
  case_if; [|case_if; [|case_if]].
  - destruct (Hlisting p s Hp Hq) as (s' & E & O). exists s'.
    split; [done|]. split; [by eapply output_ring | by apply output_step].
  - apply kill_line_run; [done..|lia].
  - destruct (line l) as [|d y] eqn:El; cbn [negb]; [exists s; split; [done|]; split; [done | by apply step_refl]|].
    destruct (exists_last (l := d :: y)) as (x & e & Ex); [done|].
    cbn [fst snd]. rewrite Ex, removelast_last. apply erase_run with (c := e); try done. by rewrite El.
  - rewrite Z.geb_leb. destruct (Z.eqb_spec c 0) as [->|Hc0]; cbn [negb andb orb].
    { exists s. split; [done|]. split; [done | by apply step_refl]. }
    destruct (Z.ltb_spec (held l) INPUT_BUF), (Z.leb_spec INPUT_BUF (held l)); try lia.
    2: { exists s. split; [done|]. split; [done | by apply step_refl]. }
    assert (Hb : 0 < (if c =? 13 then 10 else c) < 256) by (destruct (c =? 13); lia).
    set (d := if c =? 13 then 10 else c) in *. clearbody d.
    destruct (store_run p s l _ Hr Hp Hq H Hb) as (s' & E & S' & R'). exists s'. split; [exact E|].
    cbv zeta in R' |- *. by destruct (_ || _ || _).
Qed.
Lemma consoleintr_run cs : forall p s l, ring s l -> on_paper p s -> quiet s -> Forall (fun c => 0 <= c < 256) cs ->
  exists s', mfor_list cs (intr_key listing) s = Ok (tt, s') /\ ring s' (keys dump l cs).1 /\ step_ok p s (keys dump l cs).2 s'.
Proof using Hlisting.
  induction cs as [|c cs IH]; intros p s l Hr Hp Hq Hcs; cbn [mfor_list keys].
  { exists s. split; [done|]. split; [done | by apply step_refl]. }
  inversion_clear Hcs as [|? ? Hc Hcs']. destruct (intr_key_run p s l c Hr Hp Hq Hc) as (s1 & E1 & R1 & S1).
  destruct (key dump l c) as [l1 o1]; cbn [fst snd] in *.
  destruct (IH _ s1 l1 R1 (st_paper _ _ _ _ S1) (step_quiet _ _ _ _ S1 Hq) Hcs') as (s2 & E2 & R2 & S2).
  destruct (keys dump l1 cs) as [l2 o2]; cbn [fst snd] in *.
  exists s2. erewrite bind_Ok; [|exact E1]. split; [done|]. split; [done|]. by eapply step_trans.
Qed.
End Intr.

(** ** Readers *)
Lemma set_ring_same s : set_ring (in_buf s) (in_r s) (in_w s) (in_e s) s = s.
Proof. by destruct s. Qed.
Lemma read_loop_run k target q : forall fuel n y s, core s (length q) (q ++ y) -> (Z.to_nat n < fuel)%nat ->
  exists r, read_loop fuel k target n s =
      Ok ((take_line k target n q).1, set_ring (in_buf s) r (in_w s) (in_e s) s) /\
    core (set_ring (in_buf s) r (in_w s) (in_e s) s) (length (take_line k target n q).2) ((take_line k target n q).2 ++ y).
Proof.
  induction q as [|c q IH]; intros [|fuel] n y s Hc Hf; try lia; cbn [read_loop take_line];
    rewrite !Z.gtb_ltb; destruct (Z.ltb_spec 0 n) as [Hn|Hn]; cbn [fst snd];
    try (exists (in_r s); rewrite set_ring_same; by split).
  - erewrite bind_Ok; [|reflexivity]. assert (E : in_r s = in_w s).
    { destruct Hc as [_ Hr Hw _ _ _]. rewrite Hw, Z.add_0_r, u32_small by lia. done. }
    apply Z.eqb_eq in E. rewrite E. exists (in_r s). rewrite set_ring_same. by destruct k.
  - erewrite bind_Ok; [|reflexivity]. destruct (core_front _ _ _ _ Hc) as (-> & -> & Hc').
    set (s1 := set_ring (in_buf s) (u32 (in_r s + 1)) (in_w s) (in_e s) s) in *.
    erewrite bind_Ok; [|reflexivity]. fold s1. destruct (c =? C 68); [|destruct (c =? 10)].
    + destruct (n <? target); cbn [fst snd]; [|exists (u32 (in_r s + 1)); by split].
      exists (in_r s). rewrite set_ring_same. split; [|done].
      erewrite bind_Ok; [|reflexivity]. cbn [in_r set_ring s1].
      replace (u32 (u32 (in_r s + 1) - 1)) with (in_r s).
      * unfold s1. by destruct s.
      * destruct Hc. rewrite u32_sub_l. replace (in_r s + 1 - 1) with (in_r s) by lia. by rewrite u32_small.
    + exists (u32 (in_r s + 1)). by split.
    + destruct (IH fuel (n - 1) y s1 Hc') as (r & E & Hr); [lia|].
      exists r. destruct (take_line k target (n - 1) q) as [[re l] q'']; cbn [fst snd] in *.
      erewrite bind_Ok; [|exact E]. by split.
Qed.

(** ** Any sequence of interrupts and readers *)
Section Events.
Context (listing : Con unit) (dump : list Z).
Context (Hlisting : forall p s, on_paper p s -> quiet s -> exists s', listing s = Ok (tt, s') /\ output p s dump s').

Definition event_ok (e : event) : Prop :=
  match e with Typed cs => Forall (fun c => 0 <= c < 256) cs | Reading _ _ _ => True end.
(** Nothing else uses the input lock. *)
Definition calm (s : con) : Prop := quiet s /\ input_held s = false.

Lemma ring_input b s l : ring s l -> ring (set_input b s) l.
Proof. intros [[] ? ?]. by constructor. Qed.
Lemma step_input p s o s' b : step_ok p (set_input true s) o s' -> input_held s = b -> step_ok p s o (set_input b s').
Proof. intros [P O U F] H. constructor; [done..|]. injection F as F1 F2 F3 F4. cbn. congruence. Qed.

Lemma acquire_input_run s : input_held s = false -> acquire_input s = Ok (tt, set_input true s).
Proof. intros H. unfold acquire_input. erewrite bind_Ok; [|reflexivity]. by rewrite H. Qed.
Lemma release_input_run s : input_held s = true -> release_input s = Ok (tt, set_input false s).
Proof. intros H. unfold release_input. erewrite bind_Ok; [|reflexivity]. by rewrite H. Qed.

Lemma do_event_run e p s l : ring s l -> on_paper p s -> calm s -> event_ok e ->
  exists s', do_event listing e s = Ok ((spec_event dump l e).2, s') /\
    ring s' (spec_event dump l e).1.1 /\ step_ok p s (spec_event dump l e).1.2 s'.
Proof using Hlisting.
  intros Hr Hp [Hq Hi] He. destruct e as [cs|k target n]; cbn [do_event spec_event].
  - destruct (consoleintr_run listing dump Hlisting cs p (set_input true s) l) as (s1 & E & R & S1); try done.
    { by apply ring_input. }
    assert (Hh : input_held s1 = true) by (destruct S1 as [_ _ _ F]; by injection F).
    exists (set_input false s1). destruct (keys dump l cs) as [l' o]; cbn [fst snd] in *. split.
    + erewrite bind_Ok; [reflexivity|]. unfold consoleintr.
      erewrite bind_Ok; [|by apply acquire_input_run]. erewrite bind_Ok; [|exact E]. by apply release_input_run.
    + split; [by apply ring_input | by apply step_input].
  - destruct (ring_input true s l Hr) as [Hc Hl Hw].
    destruct (read_loop_run k target (queue l) (S (Z.to_nat n)) n (line l) (set_input true s) Hc) as (r & E & Hc'); [lia|].
    exists (set_input false (set_ring (in_buf s) r (in_w s) (in_e s) (set_input true s))).
    destruct (take_line k target n (queue l)) as [[re b] q]; cbn [fst snd] in *. split; [|split].
    + erewrite bind_Ok; [reflexivity|]. unfold read_segment.
      erewrite bind_Ok; [|by apply acquire_input_run]. erewrite bind_Ok; [|exact E].
      erewrite bind_Ok; [|by apply release_input_run]. reflexivity.
    + apply ring_input. by constructor.
    + apply step_input; [|done]. by apply set_ring_step.
Qed.

Lemma step_calm p s o s' : step_ok p s o s' -> calm s -> calm s'.
Proof. intros S [Hq Hi]. split; [by eapply step_quiet|]. destruct S as [_ _ _ F]. injection F. congruence. Qed.

Lemma events_run es : forall p s l,
  ring s l -> on_paper p s -> calm s -> Forall event_ok es ->
  let '(l', out, res) := spec_run dump l es in
  exists s', do_events listing es s = Ok (res, s') /\ ring s' l' /\ step_ok p s out s'.
Proof using Hlisting.
  induction es as [|e es IH]; intros p s l Hr Hp Hs He; cbn [do_events spec_run].
  { exists s. split; [done|]. split; [done | by apply step_refl]. }
  inversion_clear He as [|? ? He1 He2].
  destruct (do_event_run e p s l Hr Hp Hs He1) as (s1 & E1 & R1 & S1).
  destruct (spec_event dump l e) as [[l1 o1] r1]; cbn [fst snd] in *.
  specialize (IH _ s1 l1 R1 (st_paper _ _ _ _ S1) (step_calm _ _ _ _ S1 Hs) He2).
  destruct (spec_run dump l1 es) as [[l2 o2] r2]. destruct IH as (s2 & E2 & R2 & S2).
  exists s2. erewrite bind_Ok; [|exact E1]. erewrite bind_Ok; [|exact E2].
  split; [done|]. split; [done|]. by eapply step_trans.
Qed.
End Events.

(** C31 The console's input is a queue of lines: for any sequence of interrupts,
    with any characters, and of readers, each from its entry or a wakeup to its
    next sleep or return, the ring of 128 bytes with its wrapping indices
    returns to every reader exactly the bytes that a queue of committed lines
    and an edited line give (erasing only the unfinished line, committing at a
    newline, a control-D or when 128 bytes are held, waking the readers then),
    and the screen shows the echo. *)
Theorem console_discipline t m ebp es p s l :
  (forall i, text (name (t i))) ->
  ring s l -> on_paper p s -> calm s -> Forall event_ok es ->
  let '(l', out, res) := spec_run (dump_text t m ebp) l es in
  exists s', do_events (procdump t m ebp) es s = Ok (res, s') /\ ring s' l' /\ step_ok p s out s'.
Proof. intros Hn. apply events_run. intros p' s' Hp Hq. by apply procdump_run. Qed.

(** ** A console after boot *)
Definition blank_con : con :=
  mkCon false true false (fun _ => 0) 0 false [] false (replicate 128 0) 0 0 0 0.
Definition blank_paper : paper := mkPaper (fun _ => 0) 0 0.
Lemma blank_ring : ring blank_con (mkLines [] [] 0).
Proof. constructor; [|constructor|done]. constructor; cbn; try done; lia. Qed.
Lemma blank_on_paper : on_paper blank_paper blank_con.
Proof. constructor; cbn; try done; lia. Qed.

Definition no_proc : Z -> proc := fun _ => mkProc 0 0 0 UNUSED 0 None (mkTf 0 0 0 0 0 0 0 0 []) Run None 0 [] None [] false.
(** "lx", backspace, "s", return; a reader of 100 bytes; "a", control-D; a reader. *)
Definition demo_events : list event :=
  [Reading false 100 100; Typed [108; 120; 8; 115; 13]; Reading false 100 100; Typed [97; 4]; Reading false 10 10; Reading false 10 10].
Lemma console_discipline_witness : exists s',
  do_events (procdump no_proc (fun _ => 0) (fun _ => 0)) demo_events blank_con =
    Ok ([(Sleeps 100, []); (Returns 3, [108; 115; 10]); (Returns 1, [97]); (Returns 0, [])], s') /\ ring s' (mkLines [] [] 2).
Proof.
  assert (Hn : forall i, text (name (no_proc i))) by (intros i; split; [constructor | cbn; lia]).
  pose proof (console_discipline no_proc (fun _ => 0) (fun _ => 0) demo_events blank_paper blank_con (mkLines [] [] 0) Hn
    blank_ring blank_on_paper ltac:(done) ltac:(repeat constructor; lia)) as H.
  change (spec_run (dump_text no_proc (fun _ => 0) (fun _ => 0)) (mkLines [] [] 0) demo_events) with
    (mkLines [] [] 2, [108; 120; BACKSPACE; 115; 10; 97; 4],
     [(Sleeps 100, @nil Z); (Returns 3, [108; 115; 10]); (Returns 1, [97]); (Returns 0, [])]) in H.
  cbv beta iota in H. destruct H as (s' & E & R & _). exists s'. exact (conj E R).
Defined.
Lemma console_write_types_witness : exists s',
  write_body [104; 105; 10] blank_con = Ok (tt, s') /\ output blank_paper blank_con [104; 105; 10] s'.
Proof. apply (console_write_types blank_paper blank_con [104; 105; 10]); [apply blank_on_paper | done]. Defined.
