(* ===== verification/Umalloc.v ===== *)
(** * Umalloc: the user-level allocator (src/src/umalloc.c)

    Memory is the bytes of the process; a header is the two words [ptr] and
    [size] at its address.  [base] is the address of the static header of that
    name, [limit] the size up to which the kernel lets the process grow.  A
    walk over the free list has a step bound. *)
From stdpp Require Import sorting.
From S2P Require Import Prelude.
From S2P Require Import CString.

Record ustate := mkU { um : mem; freep : Z; brk : Z }.
Definition U : Type -> Type := M ustate.
Definition HDR : Z := 8.
Definition hptr (m : mem) (a : Z) : Z := get32 m a.
Definition hsize (m : mem) (a : Z) : Z := get32 m (a + 4).
Definition ptr (a : Z) : U Z := gets (fun s => hptr (um s) a).
Definition size (a : Z) : U Z := gets (fun s => hsize (um s) a).
Definition set_ptr (a v : Z) : U unit := modify (fun s => mkU (put32 (um s) a v) (freep s) (brk s)).
Definition set_size (a v : Z) : U unit := modify (fun s => mkU (put32 (um s) (a + 4) v) (freep s) (brk s)).
Definition set_freep (p : Z) : U unit := modify (fun s => mkU (um s) p (brk s)).
(** [p + n] for a [Header *p]. *)
Definition plus (p n : Z) : Z := u32 (p + HDR * n).

Section Malloc.
Context (base limit : Z).

(** The loop of [free] (lines 30-32). *)
Fixpoint free_scan (fuel : nat) (bp p : Z) : U Z :=
  match fuel with
  | O => out_of_fuel
  | S fuel =>
      nx <- ptr p ;;
      if (bp >? p) && (bp <? nx) then ret p
      else if (p >=? nx) && ((bp >? p) || (bp <? nx)) then ret p
      else free_scan fuel bp nx
  end.
(** Lines 33-37 and 38-42. *)
Definition join_upper (bp p : Z) : U unit :=
  n <- size bp ;; nx <- ptr p ;;
  if plus bp n =? nx then
    n' <- size nx ;; set_size bp (u32 (n + n')) ;;;
    nx' <- ptr nx ;; set_ptr bp nx'
  else set_ptr bp nx.
Definition join_lower (bp p : Z) : U unit :=
  n <- size p ;;
  if plus p n =? bp then
    n' <- size bp ;; set_size p (u32 (n + n')) ;;;
    nx <- ptr bp ;; set_ptr p nx
  else set_ptr p bp.
Definition free (fuel : nat) (ap : Z) : U unit :=
  let bp := u32 (ap - HDR) in
  p <- gets freep ;;
  p <- free_scan fuel bp p ;;
  join_upper bp p ;;;
  join_lower bp p ;;;
  set_freep p.

(** The system call: the old break, or -1. *)
Definition sbrk (n : Z) : U Z :=
  b <- gets brk ;;
  if b + n >? limit then ret (u32 (-1))
  else modify (fun s => mkU (um s) (freep s) (b + n)) ;;; ret b.
Definition morecore (fuel : nat) (nu : Z) : U Z :=
  let nu := if nu <? 4096 then 4096 else nu in
  p <- sbrk (s32 (u32 (nu * HDR))) ;;
  if p =? u32 (-1) then ret 0
  else
    set_size p nu ;;;
    free fuel (plus p 1) ;;;
    gets freep.

(** Lines 75-85: take [nunits] from the block [p] after [prevp]. *)
Definition carve (nunits prevp p : Z) : U Z :=
  n <- size p ;;
  p <- (if n =? nunits then nx <- ptr p ;; set_ptr prevp nx ;;; ret p
        else
          set_size p (u32 (n - nunits)) ;;;
          let p := plus p (u32 (n - nunits)) in
          set_size p nunits ;;; ret p) ;;
  set_freep prevp ;;;
  ret (plus p 1).
(** The loop of [malloc] (lines 74-89). *)
Fixpoint malloc_loop (fuel : nat) (nunits prevp p : Z) : U Z :=
  match fuel with
  | O => out_of_fuel
  | S fuel' =>
      n <- size p ;;
      if n >=? nunits then carve nunits prevp p
      else
        f <- gets freep ;;
        if p =? f then
          q <- morecore fuel nunits ;;
          if q =? 0 then ret 0 else nx <- ptr q ;; malloc_loop fuel' nunits q nx
        else nx <- ptr p ;; malloc_loop fuel' nunits p nx
  end.
Definition malloc (fuel : nat) (nbytes : Z) : U Z :=
  let nunits := u32 (u32 (nbytes + HDR - 1) / HDR + 1) in
  f <- gets freep ;;
  prevp <- (if f =? 0 then
              set_freep base ;;; set_ptr base base ;;; set_size base 0 ;;; ret base
            else ret f) ;;
  p <- ptr prevp ;;
  malloc_loop fuel nunits prevp p.

End Malloc.

(** * The allocator keeps blocks apart

    The free list is a circle through [base] in address order.  [heap] says
    that the circle is intact, that free blocks do not touch, and that the
    blocks handed out are apart from them and from each other. *)
(** ** Headers *)
Definition apart (a b : Z) : Prop := a + 8 <= b \/ b + 8 <= a.
Section Headers.
Context (m : mem) (a b v : Z).
Lemma hptr_same : 0 <= v < 2 ^ 32 -> hptr (put32 m a v) a = v.
Proof. apply get_put32. Qed.
Lemma hptr_other : apart a b -> hptr (put32 m a v) b = hptr m b.
Proof. intros H. apply get32_agree. intros x Hx. apply put32_out. unfold apart in H. lia. Qed.
Lemma hptr_size : a = b \/ apart a b -> hptr (put32 m (a + 4) v) b = hptr m b.
Proof. intros H. apply get32_agree. intros x Hx. apply put32_out. unfold apart in H. lia. Qed.
Lemma hsize_same : 0 <= v < 2 ^ 32 -> hsize (put32 m (a + 4) v) a = v.
Proof. apply get_put32. Qed.
Lemma hsize_other : apart a b -> hsize (put32 m (a + 4) v) b = hsize m b.
Proof. intros H. apply get32_agree. intros x Hx. apply put32_out. unfold apart in H. lia. Qed.
Lemma hsize_ptr : a = b \/ apart a b -> hsize (put32 m a v) b = hsize m b.
Proof. intros H. apply get32_agree. intros x Hx. apply put32_out. unfold apart in H. lia. Qed.
End Headers.

(** ** Blocks: an address and a size in headers *)
Abbreviation block := (Z * Z)%type.
(** The end of a block; [base] has size 0 but is a header. *)
Definition ext (b : block) : Z := b.1 + 8 * Z.max 1 b.2.
(** [x] lies before [y] and does not touch it. *)
Definition before (x y : block) : Prop := ext x <= y.1 /\ x.1 + 8 * x.2 <> y.1.
Definition disjoint (x y : block) : Prop := ext x <= y.1 \/ ext y <= x.1.
Definition first (l : list block) (q : Z) : Z := match l with [] => q | b :: _ => b.1 end.
Definition last_addr (p : Z) (l : list block) : Z := match last l with None => p | Some b => b.1 end.

(** The headers of [l] hold the sizes and point to the next; the last to [q]. *)
Fixpoint lst (m : mem) (l : list block) (q : Z) : Prop :=
  match l with
  | [] => True
  | b :: l' => hsize m b.1 = b.2 /\ hptr m b.1 = first l' q /\ lst m l' q
  end.

Lemma first_app l1 l2 q : first (l1 ++ l2) q = first l1 (first l2 q).
Proof. by destruct l1. Qed.
Lemma lst_app m l1 l2 q : lst m (l1 ++ l2) q <-> lst m l1 (first l2 q) /\ lst m l2 q.
Proof.
  induction l1 as [|b l1 IH]; cbn [app lst]; [tauto|]. rewrite IH, first_app. tauto.
Qed.
Lemma lst_agree m m' l q : (forall b, b ∈ l -> hptr m' b.1 = hptr m b.1 /\ hsize m' b.1 = hsize m b.1) ->
  lst m l q -> lst m' l q.
Proof.
  induction l as [|b l IH]; intros H; [done|]. cbn [lst]. destruct (H b ltac:(set_solver)) as [-> ->].
  intros (? & ? & ?). split; [done|]. split; [done|]. apply IH; [|done]. intros c Hc. apply H. set_solver.
Qed.
Lemma before_apart x y : before x y -> apart x.1 y.1.
Proof. unfold before, ext, apart. lia. Qed.
Lemma disjoint_apart x y : disjoint x y -> apart x.1 y.1.
Proof. unfold disjoint, ext, apart. lia. Qed.
Lemma disjoint_sym x y : disjoint x y -> disjoint y x.
Proof. unfold disjoint. tauto. Qed.
Lemma before_disjoint x y : before x y -> disjoint x y.
Proof. unfold before, disjoint. tauto. Qed.

(** A list of headers in address order, all at or above [base]. *)
Section Circle.
Context (base limit : Z) (Hbase : 0 < base).
Abbreviation sorted := (StronglySorted before).

Lemma sorted_head b l : sorted (b :: l) -> forall c, c ∈ l -> before b c.
Proof. intros H c Hc. inversion_clear H as [|? ? _ F]. by eapply Forall_forall in F. Qed.
Lemma first_above b l q : sorted (b :: l) -> l <> [] -> b.1 < first l q.
Proof.
  intros H Hl. destruct l as [|c l]; [done|]. pose proof (sorted_head b _ H c ltac:(set_solver)).
  unfold before, ext in *. cbn [first]. lia.
Qed.

(** ** The search for the place of a block *)

Lemma free_scan_S f bp p s : free_scan (S f) bp p s =
  let nx := hptr (um s) p in
  if (p <? bp) && (bp <? nx) then Ok (p, s)
  else if (nx <=? p) && ((p <? bp) || (bp <? nx)) then Ok (p, s) else free_scan f bp nx s.
Proof.
  cbn [free_scan]. unfold ptr. erewrite bind_Ok; [|reflexivity]. rewrite !Z.gtb_ltb, Z.geb_leb. cbv zeta.
  by repeat case_if.
Qed.
(** From a header below [bp]: the walk stops at [p], the last one below. *)
Lemma scan_below w : forall p sp l2 (f : nat) bp s,
  lst (um s) (w ++ (p, sp) :: l2) base -> sorted (w ++ (p, sp) :: l2) -> base <= first (w ++ (p, sp) :: l2) base ->
  p < bp -> (forall b, b ∈ l2 -> bp < b.1) ->
  free_scan (S (length w) + f) bp (first (w ++ [(p, sp)]) base) s = Ok (p, s).
Proof using Hbase.
  induction w as [|x w IH]; intros p sp l2 f bp s Hl Hs Hb Hp Habove;
    cbn [length Nat.add]; rewrite free_scan_S; cbv zeta; cbn [app first fst] in Hl, Hs, Hb |- *.
  - destruct Hl as (_ & Hn & _). cbn [fst] in Hn. rewrite Hn.
    destruct (Z.ltb_spec p bp); [|lia]. destruct l2 as [|c l2]; cbn [first fst] in *.
    + destruct (Z.ltb_spec bp base); [lia|]. destruct (Z.leb_spec base p); [done|lia].
    + pose proof (Habove c ltac:(set_solver)). destruct (Z.ltb_spec bp c.1); [done|lia].
  - destruct Hl as (_ & Hn & Hl). rewrite Hn.
    assert (Hx : x.1 < first (w ++ (p, sp) :: l2) base) by (apply first_above; [done | by destruct w]).
    assert (Hlow : first (w ++ (p, sp) :: l2) base < bp).
    { destruct w as [|y w]; cbn [app first fst] in *; [done|]. inversion_clear Hs as [|? ? Hs' _].
      pose proof (sorted_head _ _ Hs' (p, sp) ltac:(set_solver)) as Hyp. unfold before, ext in Hyp. cbn [fst] in Hyp. lia. }
    destruct (Z.ltb_spec bp (first (w ++ (p, sp) :: l2) base)); [lia|].
    rewrite andb_false_r. destruct (Z.leb_spec (first (w ++ (p, sp) :: l2) base) x.1); [lia|]. cbn [andb].
    replace (first (w ++ (p, sp) :: l2) base) with (first (w ++ [(p, sp)]) base) by (by destruct w).
    apply (IH p sp l2 f); try done; [by inversion_clear Hs | lia].
Qed.
(** From a header above [bp]: the walk goes round to [base]. *)
Lemma scan_above y : forall x (f : nat) bp s,
  lst (um s) (x :: y) base -> sorted (x :: y) -> base < bp < x.1 ->
  free_scan (S (length y) + f) bp x.1 s = free_scan f bp base s.
Proof using Hbase.
  induction y as [|c y IH]; intros x f bp s (_ & Hn & Hl) Hs Hb; cbn [length Nat.add];
    rewrite free_scan_S; cbv zeta; cbn [first] in Hn; rewrite Hn;
    (destruct (Z.ltb_spec x.1 bp); [lia|]); cbn [andb orb].
  - destruct (Z.ltb_spec bp base); [lia|]. by rewrite andb_false_r.
  - pose proof (sorted_head x _ Hs c ltac:(set_solver)) as Hxc. unfold before, ext in Hxc.
    destruct (Z.leb_spec c.1 x.1); [lia|]. cbn [andb]. apply (IH c); [done | by inversion_clear Hs | lia].
Qed.
(** From any header of the circle. *)
Lemma scan_run l1 p sp l2 bp f s (fuel : nat) :
  let l := l1 ++ (p, sp) :: l2 in
  lst (um s) l base -> sorted l -> first l base = base -> f ∈ l.*1 ->
  p < bp -> base < bp -> (forall b, b ∈ l2 -> bp < b.1) -> (length l <= fuel)%nat ->
  free_scan fuel bp f s = Ok (p, s).
Proof using Hbase.
  cbv zeta. intros Hl Hs Hfirst Hf Hp Hbp Habove Hfuel. rewrite length_app in Hfuel. cbn [length] in Hfuel.
  assert (Hup : forall f', free_scan (S (length l1) + f') bp base s = Ok (p, s)).
  { intros f'. pose proof (scan_below l1 p sp l2 f' bp s Hl Hs ltac:(lia) Hp Habove) as E.
    by replace (first (l1 ++ [(p, sp)]) base) with base in E by (rewrite <- Hfirst at 1; by destruct l1). }
  apply list_elem_of_fmap in Hf as (x & -> & Hx). apply elem_of_app in Hx as [Hx|Hx].
  - apply list_elem_of_split in Hx as (u & v & ->). rewrite <- app_assoc in Hl, Hs. cbn [app] in *.
    apply lst_app in Hl as [_ Hl]. apply StronglySorted_app in Hs as (Hord & Hs1 & Hs).
    rewrite length_app in Hfuel. cbn [length] in Hfuel.
    assert (base <= x.1).
    { destruct u as [|y u]; cbn [app first] in *; [lia|]. pose proof (Hord y x ltac:(set_solver) ltac:(set_solver)) as H.
      unfold before, ext in H. lia. }
    pose proof (scan_below (x :: v) p sp l2 (fuel - (S (length (x :: v)))) bp s Hl Hs ltac:(done) Hp Habove) as E.
    cbn [app first length] in E. rewrite <- E. f_equal. lia.
  - apply elem_of_cons in Hx as [->|Hx]; cbn [fst].
    + apply lst_app in Hl as [_ Hl]. apply StronglySorted_app in Hs as (Hord & _ & Hs).
      assert (base <= p).
      { destruct l1 as [|y l1]; cbn [app first fst] in *; [lia|].
        pose proof (Hord y (p, sp) ltac:(set_solver) ltac:(set_solver)) as H. unfold before, ext in H. cbn [fst] in H. lia. }
      pose proof (scan_below [] p sp l2 (fuel - 1) bp s Hl Hs ltac:(done) Hp Habove) as E. cbn [app first length] in E.
      rewrite <- E. f_equal. lia.
    + pose proof (Habove x Hx). apply list_elem_of_split in Hx as (u & v & ->).
      rewrite app_comm_cons, app_assoc in Hl, Hs. apply lst_app in Hl as [_ Hl]. apply StronglySorted_app in Hs as (_ & _ & Hs).
      rewrite length_app in Hfuel. cbn [length] in Hfuel.
      replace fuel with (S (length v) + (fuel - S (length v)))%nat by lia.
      rewrite (scan_above v x); [|done..|lia].
      replace (fuel - S (length v))%nat with (S (length l1) + (fuel - S (length v) - S (length l1)))%nat by lia. apply Hup.
Qed.

(** ** Joining a block with its neighbours *)
Definition join_up (bp n : Z) (l2 : list block) : Z * list block :=
  match l2 with
  | (b, t) :: l2' => if bp + 8 * n =? b then (n + t, l2') else (n, l2)
  | [] => (n, [])
  end.
Definition join_down (l1 : list block) (p sp bp n : Z) (l2 : list block) : list block :=
  if p + 8 * sp =? bp then l1 ++ (p, sp + n) :: l2 else l1 ++ (p, sp) :: (bp, n) :: l2.
Definition insert_block (l1 : list block) (p sp bp n : Z) (l2 : list block) : list block :=
  let '(n', l2') := join_up bp n l2 in join_down l1 p sp bp n' l2'.

(** The block [(bp, n)] fits between [p] and the headers of [l2]. *)
Record place (l1 : list block) (p sp : Z) (l2 : list block) (bp n hi : Z) : Prop := mkPlace {
  pl_sorted : sorted (l1 ++ (p, sp) :: l2);
  pl_first : first (l1 ++ (p, sp) :: l2) base = base;
  pl_size : 1 <= n;
  pl_below : forall x, x ∈ l1 ++ [(p, sp)] -> ext x <= bp /\ 0 <= x.2;
  pl_above : forall y, y ∈ l2 -> bp + 8 * n <= y.1 /\ 1 <= y.2 /\ ext y <= hi;
  pl_hi : bp + 8 * n <= hi < 2 ^ 32 }.

Section Join.
Context l1 p sp l2 bp n hi (Hpl : place l1 p sp l2 bp n hi).
Lemma place_p : base <= p /\ 0 <= sp /\ p + 8 * Z.max 1 sp <= bp.
Proof using Hpl Hbase.
  destruct Hpl as [Hs Hf _ Hb _ _]. destruct (Hb (p, sp) ltac:(set_solver)) as [H1 H2]. unfold ext in H1. cbn [fst snd] in *.
  split; [|lia]. destruct l1 as [|x l1']; cbn [app first fst] in *; [lia|]. rewrite app_comm_cons in Hs.
  apply StronglySorted_app in Hs as (Hord & _). pose proof (Hord x (p, sp) ltac:(set_solver) ltac:(set_solver)) as H.
  unfold before, ext in H. cbn [fst snd] in H. lia.
Qed.
Lemma first_l2 : first l2 base <> bp /\ (bp + 8 * n = first l2 base -> l2 <> []).
Proof using Hpl Hbase.
  pose proof place_p. destruct Hpl as [_ _ Hn _ Ha _]. destruct l2 as [|y l2']; cbn [first]; [lia|].
  pose proof (Ha y ltac:(set_solver)). split; [lia|done].
Qed.

Lemma join_upper_run s : hsize (um s) bp = n -> lst (um s) (l1 ++ (p, sp) :: l2) base ->
  exists m1, join_upper bp p s = Ok (tt, mkU m1 (freep s) (brk s)) /\
    hsize m1 bp = (join_up bp n l2).1 /\ hptr m1 bp = first (join_up bp n l2).2 base /\
    lst m1 (l1 ++ [(p, sp)]) (first l2 base) /\ lst m1 (join_up bp n l2).2 base /\
    (forall x, x < bp \/ bp + 8 <= x -> m1 x = um s x).
Proof using Hpl Hbase.
  intros Hn Hl. pose proof place_p as Hp. pose proof first_l2 as [Hne Hnil]. pose proof (pl_hi _ _ _ _ _ _ _ Hpl).
  pose proof (pl_size _ _ _ _ _ _ _ Hpl).
  assert (Hl' := Hl). replace (l1 ++ (p, sp) :: l2) with ((l1 ++ [(p, sp)]) ++ l2) in Hl' by by rewrite <- app_assoc.
  apply lst_app in Hl' as [Hlow Hup]. pose proof Hlow as Hlast. apply lst_app in Hlast as [_ (_ & Hnx & _)].
  cbn [first fst] in Hnx.
  unfold join_upper, size, ptr, set_size, set_ptr. do 2 (erewrite bind_Ok; [|reflexivity]). rewrite Hn, Hnx. clear Hnx.
  unfold plus, HDR. rewrite u32_small by lia.
  assert (Hagree : forall m', (forall x, x < bp \/ bp + 8 <= x -> m' x = um s x) ->
    lst m' (l1 ++ [(p, sp)]) (first l2 base) /\ (forall l3, l3 ⊆ l2 -> lst (um s) l3 base -> lst m' l3 base)).
  { intros m' Hm. split.
    - eapply lst_agree; [|exact Hlow]. intros x Hx. destruct (pl_below _ _ _ _ _ _ _ Hpl x Hx) as [He _]. unfold ext in He.
      split; apply get32_agree; intros a Ha; apply Hm; lia.
    - intros l3 H3. apply lst_agree. intros y Hy. destruct (pl_above _ _ _ _ _ _ _ Hpl y (H3 y Hy)) as [Hb _].
      split; apply get32_agree; intros a Ha; apply Hm; lia. }
  destruct (Z.eqb_spec (bp + 8 * n) (first l2 base)) as [Heq|Hneq].
  - destruct l2 as [|[b t] l2']; [by destruct (Hnil Heq)|]. cbn [first fst lst join_up] in *.
    destruct Hup as (Ht & Hb & Hup). cbn [fst snd] in *. subst b. rewrite Z.eqb_refl. cbn [fst snd].
    do 2 (erewrite bind_Ok; [|reflexivity]). cbn [um]. rewrite Ht.
    erewrite bind_Ok; [|reflexivity]. cbn [um freep brk].
    destruct (pl_above _ _ _ _ _ _ _ Hpl (bp + 8 * n, t) ltac:(set_solver)) as (_ & Ht1 & Ht2). unfold ext in Ht2. cbn [fst snd] in *.
    rewrite (hptr_size _ bp) by (unfold apart; lia). rewrite Hb. rewrite (u32_small (n + t)) by lia.
    eexists. split; [reflexivity|].
    assert (Hr : 0 <= first l2' base < 2 ^ 32).
    { destruct l2' as [|y l2'']; cbn [first]; [lia|].
      destruct (pl_above _ _ _ _ _ _ _ Hpl y ltac:(set_solver)) as (? & ? & Hy). unfold ext in Hy. lia. }
    set (m1 := put32 (put32 (um s) (bp + 4) (n + t)) bp (first l2' base)).
    assert (Hm1 : forall x, x < bp \/ bp + 8 <= x -> m1 x = um s x).
    { intros x Hx. unfold m1. rewrite !put32_out by lia. done. }
    destruct (Hagree m1 Hm1) as [A1 A2]. split; [|split; [|split; [|split]]]; try done.
    + unfold m1. rewrite hsize_ptr by (left; done). apply hsize_same. lia.
    + unfold m1. by apply hptr_same.
    + apply A2; [set_solver | done].
  - assert (join_up bp n l2 = (n, l2)) as ->.
    { destruct l2 as [|[b t] l2']; [done|]. cbn [join_up first fst] in *. by destruct (Z.eqb_spec (bp + 8 * n) b). }
    cbn [fst snd]. eexists. split; [reflexivity|].
    assert (Hr : 0 <= first l2 base < 2 ^ 32).
    { destruct l2 as [|y l2']; cbn [first]; [lia|].
      destruct (pl_above _ _ _ _ _ _ _ Hpl y ltac:(set_solver)) as (? & ? & Hy). unfold ext in Hy. lia. }
    set (m1 := put32 (um s) bp (first l2 base)).
    assert (Hm1 : forall x, x < bp \/ bp + 8 <= x -> m1 x = um s x).
    { intros x Hx. unfold m1. rewrite put32_out by lia. done. }
    destruct (Hagree m1 Hm1) as [A1 A2]. split; [|split; [|split; [|split]]]; try done.
    + unfold m1. rewrite hsize_ptr by (left; done). done.
    + unfold m1. by apply hptr_same.
    + by apply A2.
Qed.

(** What the upper join leaves. *)
Lemma join_up_spec n' l2' : join_up bp n l2 = (n', l2') ->
  n <= n' /\ l2' ⊆ l2 /\ sorted l2' /\ bp + 8 * n' <= hi /\ (forall y, y ∈ l2' -> before (bp, n') y).
Proof using Hpl Hbase.
  destruct Hpl as [Hs _ Hn _ Ha Hh]. apply StronglySorted_app in Hs as (_ & _ & Hs). inversion_clear Hs as [|? ? Hs' _].
  destruct l2 as [|[b t] l3]; cbn [join_up].
  { intros E. simplify_eq. split; [lia|]. split; [done|]. split; [constructor|]. split; [lia|]. intros y Hy. set_solver. }
  destruct (Ha (b, t) ltac:(set_solver)) as (Hb & Ht & He). unfold ext in He. cbn [fst snd] in *.
  pose proof (sorted_head _ _ Hs') as Hord. inversion_clear Hs' as [|? ? Hs3 _].
  destruct (Z.eqb_spec (bp + 8 * n) b) as [Heq|Hne]; intros E; simplify_eq.
  - split; [lia|]. split; [set_solver|]. split; [done|]. split; [lia|].
    intros y Hy. pose proof (Hord y Hy) as B. unfold before, ext in *. cbn [fst snd] in *. lia.
  - split; [lia|]. split; [done|]. split; [constructor; [done|by apply Forall_forall]|]. split; [lia|].
    intros y [->|Hy]%elem_of_cons; unfold before, ext; cbn [fst snd]; [lia|].
    pose proof (Hord y Hy) as B. unfold before, ext in B. cbn [fst snd] in B. lia.
Qed.
Lemma insert_sorted :
  sorted (insert_block l1 p sp bp n l2) /\ first (insert_block l1 p sp bp n l2) base = base.
Proof using Hpl Hbase.
  unfold insert_block. destruct (join_up bp n l2) as [n' l2'] eqn:E.
  destruct (join_up_spec _ _ E) as (Hn & Hsub & Hs2 & Hend & Hb2).
  pose proof place_p as Hp. destruct Hpl as [Hs Hf H1 Hb Ha Hh].
  assert (Hf1 : forall z l, first (l1 ++ (p, z) :: l) base = base) by (intros z l; rewrite <- Hf; by destruct l1).
  apply StronglySorted_app in Hs as (Hord & Hs1 & Hs'). pose proof (sorted_head _ _ Hs') as Hpo.
  unfold join_down. destruct (Z.eqb_spec (p + 8 * sp) bp) as [Heq|Hne]; (split; [|apply Hf1]);
    apply StronglySorted_app; (split; [|split; [done|]]).
  - intros x y Hx [->|Hy]%elem_of_cons; [|apply Hord; set_solver].
    pose proof (Hord x (p, sp) Hx ltac:(set_solver)) as B. unfold before in *. done.
  - constructor; [done|]. apply Forall_forall. intros y Hy. pose proof (Hb2 y Hy) as B.
    unfold before, ext in *. cbn [fst snd] in *. lia.
  - intros x y Hx Hy. apply elem_of_cons in Hy as [->|Hy]; [apply Hord; set_solver|].
    apply elem_of_cons in Hy as [->|Hy]; [|apply Hord; set_solver].
    pose proof (Hord x (p, sp) Hx ltac:(set_solver)) as B. destruct (Hb x ltac:(set_solver)) as [_ Hx2].
    unfold before, ext in *. cbn [fst snd] in *. lia.
  - constructor; [constructor; [done|by apply Forall_forall]|]. apply Forall_forall.
    intros y [->|Hy]%elem_of_cons; [|by apply Hpo, Hsub]. unfold before, ext. cbn [fst snd]. lia.
Qed.

Lemma join_lower_run s n' l2' : join_up bp n l2 = (n', l2') ->
  hsize (um s) bp = n' -> hptr (um s) bp = first l2' base ->
  lst (um s) (l1 ++ [(p, sp)]) (first l2 base) -> lst (um s) l2' base ->
  exists m1, join_lower bp p s = Ok (tt, mkU m1 (freep s) (brk s)) /\
    lst m1 (join_down l1 p sp bp n' l2') base /\
    (forall x, x < p \/ p + 8 <= x -> m1 x = um s x).
Proof using Hpl Hbase.
  intros E Hn Hnx Hlow Hup. destruct (join_up_spec _ _ E) as (Hn' & Hsub & Hs2 & Hend & Hb2).
  pose proof place_p as Hp. destruct Hpl as [Hs Hf H1 Hb Ha Hh].
  apply lst_app in Hlow as [Hl1 (Hsp & _ & _)]. cbn [fst snd first] in *.
  assert (Hr : 0 <= first l2' base < 2 ^ 32).
  { destruct l2' as [|y l3]; cbn [first]; [lia|]. destruct (Ha y ltac:(set_solver)) as (? & ? & Hy). unfold ext in Hy. lia. }
  assert (Hagree : forall m', (forall x, x < p \/ p + 8 <= x -> m' x = um s x) -> lst m' l1 p /\ lst m' l2' base /\ hsize m' bp = n' /\ hptr m' bp = first l2' base).
  { intros m' Hm. rewrite <- Hn, <- Hnx. split; [|split; [|split]].
    - eapply lst_agree; [|exact Hl1]. intros x Hx. apply StronglySorted_app in Hs as (Hord & _).
      pose proof (Hord x (p, sp) Hx ltac:(set_solver)) as B. unfold before, ext in B. cbn [fst snd] in B.
      split; apply get32_agree; intros a Hal; apply Hm; lia.
    - eapply lst_agree; [|exact Hup]. intros y Hy. destruct (Ha y (Hsub y Hy)) as (? & ? & ?).
      split; apply get32_agree; intros a Hal; apply Hm; lia.
    - apply get32_agree. intros a Hal. apply Hm. lia.
    - apply get32_agree. intros a Hal. apply Hm. lia. }
  unfold join_lower, size, ptr, set_size, set_ptr, join_down. erewrite bind_Ok; [|reflexivity]. rewrite Hsp.
  unfold plus, HDR. rewrite u32_small by lia. destruct (Z.eqb_spec (p + 8 * sp) bp) as [Heq|Hne].
  - do 2 (erewrite bind_Ok; [|reflexivity]). rewrite Hn. erewrite bind_Ok; [|reflexivity]. cbn [um freep brk].
    rewrite hptr_size, Hnx by (unfold apart; lia). rewrite u32_small by lia.
    eexists. split; [reflexivity|]. cbn [um]. match goal with |- lst ?m _ _ /\ _ => set (m1 := m) end.
    assert (Hm1 : forall x, x < p \/ p + 8 <= x -> m1 x = um s x).
    { intros x Hx. unfold m1. rewrite !put32_out by lia. done. }
    split; [|done]. destruct (Hagree m1 Hm1) as (A1 & A2 & _). apply lst_app. cbn [first fst lst snd].
    split; [done|]. split; [|split; [|done]].
    + unfold m1. rewrite hsize_ptr by (left; done). apply hsize_same. lia.
    + unfold m1. by apply hptr_same.
  - eexists. split; [reflexivity|]. cbn [um]. match goal with |- lst ?m _ _ /\ _ => set (m1 := m) end.
    assert (Hm1 : forall x, x < p \/ p + 8 <= x -> m1 x = um s x).
    { intros x Hx. unfold m1. rewrite put32_out by lia. done. }
    split; [|done]. destruct (Hagree m1 Hm1) as (A1 & A2 & A3 & A4). apply lst_app. cbn [first fst lst snd].
    split; [done|]. split; [|split; [|exact (conj A3 (conj A4 A2))]].
    + unfold m1. by rewrite hsize_ptr by (left; done).
    + unfold m1. apply hptr_same. lia.
Qed.
End Join.

(** ** The heap: free blocks [l], blocks in use [used] *)
Definition total (l : list block) : Z := fold_right (fun b n => b.2 + n) 0 l.
Record heap (s : ustate) (l used : list block) : Prop := mkHeap {
  hp_lst : lst (um s) ((base, 0) :: l) base;
  hp_sorted : sorted ((base, 0) :: l);
  hp_free : forall y, y ∈ l -> 1 <= y.2 /\ ext y <= brk s;
  hp_freep : freep s ∈ ((base, 0) :: l).*1;
  hp_brk : base + 8 <= brk s <= limit;
  hp_used : forall x, x ∈ used -> 1 <= x.2 /\ hsize (um s) x.1 = x.2 /\ base + 8 <= x.1 /\ ext x <= brk s;
  hp_apart : forall x y, x ∈ used -> y ∈ l -> disjoint x y;
  hp_each : StronglySorted disjoint used }.
(** The contents of the blocks in use are kept. *)
Definition kept (used : list block) (m m' : mem) : Prop :=
  forall x a, x ∈ used -> x.1 + 4 <= a < ext x -> m' a = m a.

Lemma total_app l1 l2 : total (l1 ++ l2) = total l1 + total l2.
Proof. unfold total. induction l1 as [|b l1 IH]; cbn [app fold_right]; lia. Qed.
Lemma insert_total l1 p sp bp n l2 : total (insert_block l1 p sp bp n l2) = total (l1 ++ (p, sp) :: l2) + n.
Proof.
  unfold insert_block, join_up, join_down.
  destruct l2 as [|[b t] l2]; [|destruct (bp + 8 * n =? b)]; destruct (p + 8 * sp =? bp); rewrite !total_app;
    cbn [total fold_right fst snd]; lia.
Qed.
(** The pieces a block of the new list is made of. *)
Lemma insert_pieces l1 p sp bp n l2 y : y ∈ insert_block l1 p sp bp n l2 ->
  y ∈ l1 ++ (p, sp) :: l2 \/ y = (bp, n) \/
  (exists t, (bp + 8 * n, t) ∈ l2 /\ y = (bp, n + t)) \/
  (p + 8 * sp = bp /\ y = (p, sp + n)) \/
  (p + 8 * sp = bp /\ exists t, (bp + 8 * n, t) ∈ l2 /\ y = (p, sp + (n + t))).
Proof.
  unfold insert_block, join_up, join_down.
  destruct l2 as [|[b t] l2]; [|destruct (Z.eqb_spec (bp + 8 * n) b) as [<-|]];
    destruct (Z.eqb_spec (p + 8 * sp) bp); rewrite ?elem_of_app, ?elem_of_cons; intros Hy;
    destruct_or?; subst; try set_solver.
Qed.
Lemma insert_base l1 p sp bp n l2 l hi : place l1 p sp l2 bp n hi -> (base, 0) :: l = l1 ++ (p, sp) :: l2 ->
  exists l', insert_block l1 p sp bp n l2 = (base, 0) :: l'.
Proof using Hbase.
  intros Hpl E. pose proof (place_p _ _ _ _ _ _ _ Hpl) as Hp.
  unfold insert_block. destruct (join_up bp n l2) as [n' l2']. unfold join_down.
  destruct l1 as [|x l1]; cbn [app] in E; simplify_eq.
  - destruct (Z.eqb_spec (base + 8 * 0) bp); [lia|]. by eexists.
  - destruct (p + 8 * sp =? bp); by eexists.
Qed.
Lemma split_below bp l : forall b, sorted (b :: l) -> b.1 < bp -> (forall y, y ∈ l -> y.1 <> bp) ->
  exists l1 p sp l2, b :: l = l1 ++ (p, sp) :: l2 /\ p < bp /\ (forall y, y ∈ l2 -> bp < y.1).
Proof.
  induction l as [|c l IH]; intros b Hs Hb Hne.
  { exists [], b.1, b.2, []. rewrite <- surjective_pairing. split; [done|]. split; [done|]. set_solver. }
  destruct (decide (c.1 < bp)) as [Hc|Hc].
  - destruct (IH c) as (l1 & p & sp & l2 & E & Hp & Ha); [by inversion_clear Hs | done | set_solver |].
    exists (b :: l1), p, sp, l2. rewrite E. done.
  - exists [], b.1, b.2, (c :: l). rewrite <- surjective_pairing. split; [done|]. split; [done|].
    inversion_clear Hs as [|? ? Hs' _]. pose proof (Hne c ltac:(set_solver)).
    intros y [->|Hy]%elem_of_cons; [lia|]. pose proof (sorted_head _ _ Hs' y Hy) as B. unfold before, ext in B. lia.
Qed.

Lemma insert_shape l1 p sp bp n l2 l hi : place l1 p sp l2 bp n hi -> (base, 0) :: l = l1 ++ (p, sp) :: l2 ->
  p ∈ (insert_block l1 p sp bp n l2).*1 /\ (exists y, y ∈ insert_block l1 p sp bp n l2 /\ base < y.1 /\ n <= y.2) /\
  (length (insert_block l1 p sp bp n l2) <= S (length (l1 ++ (p, sp) :: l2)))%nat.
Proof using Hbase.
  intros Hpl El. pose proof (place_p _ _ _ _ _ _ _ Hpl) as Hp. unfold insert_block. destruct (join_up bp n l2) as [n' l2'] eqn:E.
  destruct (join_up_spec _ _ _ _ _ _ _ Hpl _ _ E) as (Hn & _).
  assert (Hlen : (length l2' <= length l2)%nat).
  { unfold join_up in E. destruct l2 as [|[b t] l3]; [by simplify_eq|]. destruct (bp + 8 * n =? b); simplify_eq; cbn; lia. }
  pose proof (pl_size _ _ _ _ _ _ _ Hpl). unfold join_down. destruct (Z.eqb_spec (p + 8 * sp) bp) as [Heq|Hne].
  - split; [rewrite fmap_app; set_solver|]. split.
    + exists (p, sp + n'). split; [set_solver|]. cbn [fst snd]. split; [|lia].
      destruct (decide (p = base)) as [->|]; [|lia]. destruct l1 as [|x l1]; cbn [app first fst] in *.
      * injection El. lia.
      * pose proof (pl_sorted _ _ _ _ _ _ _ Hpl) as Hs. pose proof (pl_first _ _ _ _ _ _ _ Hpl) as Hf. cbn in Hf.
        pose proof (sorted_head _ _ Hs (base, sp) ltac:(set_solver)) as B. unfold before, ext in B. cbn in B. lia.
    + rewrite !length_app. cbn [length]. lia.
  - split; [rewrite fmap_app; set_solver|]. split.
    + exists (bp, n'). split; [set_solver|]. cbn [fst snd]. lia.
    + rewrite !length_app. cbn [length]. lia.
Qed.
(** The new free blocks are in the heap and apart from what was apart. *)
Lemma insert_ok l1 p sp bp n l2 l hi y : place l1 p sp l2 bp n hi -> (base, 0) :: l = l1 ++ (p, sp) :: l2 ->
  (forall y, y ∈ l -> 1 <= y.2 /\ ext y <= hi) -> y ∈ insert_block l1 p sp bp n l2 -> base < y.1 ->
  1 <= y.2 /\ ext y <= hi /\
  (forall x, 1 <= x.2 -> disjoint (bp, n) x -> (forall z, z ∈ l -> disjoint x z) -> disjoint x y).
Proof using Hbase.
  intros Hpl E Hl Hy Hyb. pose proof (place_p _ _ _ _ _ _ _ Hpl) as Hp.
  pose proof (pl_size _ _ _ _ _ _ _ Hpl) as Hn. pose proof (pl_hi _ _ _ _ _ _ _ Hpl) as Hhi.
  assert (Hin : forall z, z ∈ l1 ++ (p, sp) :: l2 -> z = (base, 0) \/ z ∈ l) by (intros z; rewrite <- E; set_solver).
  assert (Hpl' : p + 8 * sp = bp -> (p, sp) ∈ l).
  { intros Heq. destruct (Hin (p, sp) ltac:(set_solver)) as [H|H]; [|done]. injection H. lia. }
  assert (Hup : forall t, (bp + 8 * n, t) ∈ l2 -> (bp + 8 * n, t) ∈ l).
  { intros t Ht. destruct (Hin (bp + 8 * n, t) ltac:(set_solver)) as [H|H]; [|done]. injection H. lia. }
  destruct (insert_pieces _ _ _ _ _ _ _ Hy) as [H|[->|[(t & Ht & ->)|[[Heq ->]|(Heq & t & Ht & ->)]]]].
  - destruct (Hin y H) as [->|H']; [cbn in Hyb; lia|]. destruct (Hl y H'). split; [done|]. split; [done|]. auto.
  - unfold ext. cbn [fst snd] in *. split; [done|]. split; [lia|]. intros x _ Hx _. by apply disjoint_sym.
  - pose proof (Hup t Ht) as Hu. destruct (Hl _ Hu) as [Ht1 Ht2]. unfold ext in *. cbn [fst snd] in *.
    split; [lia|]. split; [lia|]. intros x Hx Hd Hz. specialize (Hz _ Hu). unfold disjoint, ext in *. cbn [fst snd] in *. lia.
  - pose proof (Hpl' Heq) as Hu. destruct (Hl _ Hu) as [Ht1 Ht2]. unfold ext in *. cbn [fst snd] in *.
    split; [lia|]. split; [lia|]. intros x Hx Hd Hz. specialize (Hz _ Hu). unfold disjoint, ext in *. cbn [fst snd] in *. lia.
  - pose proof (Hup t Ht) as Hu. pose proof (Hpl' Heq) as Hu'. destruct (Hl _ Hu) as [Ht1 Ht2]. destruct (Hl _ Hu') as [Ht3 Ht4].
    unfold ext in *. cbn [fst snd] in *. split; [lia|]. split; [lia|]. intros x Hx Hd Hz.
    pose proof (Hz _ Hu) as Z1. pose proof (Hz _ Hu') as Z2. unfold disjoint, ext in *. cbn [fst snd] in *. lia.
Qed.

Context (Hlimit : limit < 2 ^ 31).
(** Freeing a block that is apart from everything else. *)
Lemma free_block s l used bp n fuel : heap s l used ->
  1 <= n -> hsize (um s) bp = n -> base + 8 <= bp -> bp + 8 * n <= brk s ->
  (forall y, y ∈ l -> disjoint (bp, n) y) -> (forall x, x ∈ used -> disjoint (bp, n) x) ->
  (S (length l) <= fuel)%nat ->
  exists s' l', free fuel (bp + 8) s = Ok (tt, s') /\ heap s' l' used /\ kept used (um s) (um s') /\
    brk s' = brk s /\ total l' = total l + n /\ (exists y, y ∈ l' /\ n <= y.2) /\ (length l' <= S (length l))%nat.
Proof using Hbase Hlimit.
  intros [Hl Hs Hfr Hfp Hbrk Hus Hap Hea] Hn Hsz Hlow Hhigh Hdl Hdu Hfuel.
  destruct (split_below bp l (base, 0) Hs) as (l1 & p & sp & l2 & E & Hp & Ha); [cbn; lia| |].
  { intros y Hy Heq. specialize (Hdl y Hy). unfold disjoint, ext in Hdl. cbn [fst snd] in Hdl. lia. }
  assert (Hpl : place l1 p sp l2 bp n (brk s)).
  { constructor; [by rewrite <- E | by rewrite <- E | done | | | lia].
    - intros x Hx. assert (Hxl : x ∈ (base, 0) :: l) by (rewrite E; set_solver).
      assert (Hxp : x.1 <= p).
      { apply elem_of_app in Hx as [Hx|Hx]; [|set_solver]. rewrite E in Hs. apply StronglySorted_app in Hs as (Hord & _).
        pose proof (Hord x (p, sp) Hx ltac:(set_solver)) as B. unfold before, ext in B. cbn [fst] in B. lia. }
      apply elem_of_cons in Hxl as [->|Hxl]; [unfold ext; cbn; lia|].
      pose proof (Hfr x Hxl). specialize (Hdl x Hxl). unfold disjoint, ext in *. cbn [fst snd] in *. lia.
    - intros y Hy. pose proof (Ha y Hy). assert (Hyl : y ∈ (base, 0) :: l) by (rewrite E; set_solver).
      apply elem_of_cons in Hyl as [->|Hyl]; [cbn in *; lia|].
      pose proof (Hfr y Hyl). specialize (Hdl y Hyl). unfold disjoint, ext in *. cbn [fst snd] in *. lia. }
  pose proof (place_p _ _ _ _ _ _ _ Hpl) as Hpp.
  destruct (insert_base _ _ _ _ _ _ l _ Hpl E) as [l' El'].
  destruct (insert_sorted _ _ _ _ _ _ _ Hpl) as [Hs' _]. rewrite El' in Hs'.
  rewrite E in Hl. destruct (join_upper_run _ _ _ _ _ _ _ Hpl s Hsz Hl) as (m1 & E1 & U1 & U2 & U3 & U4 & U5).
  destruct (join_up bp n l2) as [n' l2'] eqn:Ej. cbn [fst snd] in *.
  destruct (join_lower_run _ _ _ _ _ _ _ Hpl (mkU m1 (freep s) (brk s)) n' l2' Ej U1 U2 U3 U4) as (m2 & E2 & V1 & V2). cbn [um freep brk] in *.
  assert (Hnew : forall y, y ∈ l' -> 1 <= y.2 /\ ext y <= brk s /\
    (forall x, 1 <= x.2 -> disjoint (bp, n) x -> (forall z, z ∈ l -> disjoint x z) -> disjoint x y)).
  { intros y Hy. apply (insert_ok l1 p sp bp n l2 l (brk s)); try done; [rewrite El'; set_solver|].
    pose proof (sorted_head _ _ Hs' y Hy) as B. unfold before, ext in B. cbn in B. lia. }
  assert (Hkept : kept used (um s) m2).
  { intros x a Hx Hax. destruct (Hus x Hx) as (Hx1 & _ & Hx3 & _). pose proof (Hdu x Hx) as D.
    assert (Dp : ext x <= p \/ p + 8 * Z.max 1 sp <= x.1).
    { assert (H : (p, sp) ∈ (base, 0) :: l) by (rewrite E; set_solver). apply elem_of_cons in H as [H|H]; [injection H; lia|].
      pose proof (Hap x _ Hx H) as D'. unfold disjoint, ext in D'. cbn [fst snd] in D'. done. }
    unfold disjoint, ext in *. cbn [fst snd] in *. rewrite V2, U5 by lia. done. }
  exists (mkU m2 p (brk s)), l'. split; [|split; [|split; [|split; [done|split; [|split]]]]].
  - unfold free, HDR. replace (u32 (bp + 8 - 8)) with bp by (rewrite u32_small; lia). erewrite bind_Ok; [|reflexivity].
    erewrite bind_Ok; [|apply (scan_run l1 p sp l2); rewrite <- ?E; try done; [by rewrite E | lia]].
    erewrite bind_Ok; [|exact E1]. erewrite bind_Ok; [|exact E2]. done.
  - constructor; cbn [um freep brk]; try done.
    + unfold insert_block in El'. rewrite Ej in El'. by rewrite <- El'.
    + intros y Hy. destruct (Hnew y Hy) as (? & ? & _). done.
    + rewrite <- El'. apply (insert_shape _ _ _ _ _ _ _ _ Hpl E).
    + intros x Hx. destruct (Hus x Hx) as (Hx1 & Hx2 & Hx3 & Hx4). split; [done|]. split; [|done].
      rewrite <- Hx2. apply get32_agree. intros a Ha'. apply (Hkept x); [done|]. unfold ext. lia.
    + intros x y Hx Hy. destruct (Hnew y Hy) as (_ & _ & H). apply H; [apply (Hus x Hx) | by apply Hdu | auto].
  - done.
  - pose proof (insert_total l1 p sp bp n l2) as T. rewrite El', <- E in T. cbn in T. unfold total. lia.
  - destruct (insert_shape _ _ _ _ _ _ _ _ Hpl E) as (_ & (y & Hy & Hb & Hny) & _). exists y. split; [|done].
    rewrite El' in Hy. apply elem_of_cons in Hy as [->|Hy]; [cbn in Hb; lia | done].
  - destruct (insert_shape _ _ _ _ _ _ _ _ Hpl E) as (_ & _ & H). rewrite El', <- E in H. cbn [length] in H. lia.
Qed.

(** ** The search of [malloc] *)
Abbreviation mloop := (malloc_loop limit).
Lemma malloc_loop_S f n pv p s : mloop (S f) n pv p s =
  if n <=? hsize (um s) p then carve n pv p s
  else if p =? freep s then
    (q <- morecore limit (S f) n ;; if q =? 0 then ret 0 else nx <- ptr q ;; mloop f n q nx) s
  else mloop f n p (hptr (um s) p) s.
Proof.
  cbn [malloc_loop]. unfold size. erewrite bind_Ok; [|reflexivity]. rewrite Z.geb_leb. case_if; [done|].
  erewrite bind_Ok; [|reflexivity]. case_if; [done|]. unfold ptr. by erewrite bind_Ok; [|reflexivity].
Qed.
Lemma last_addr_cons p b l : last_addr p (b :: l) = last_addr b.1 l.
Proof. unfold last_addr. rewrite last_cons. by destruct (last l). Qed.
Lemma last_addr_snoc p w : w <> [] -> exists x c, w = x ++ [c] /\ forall q, last_addr q (p ++ w) = c.1.
Proof.
  intros Hw. destruct (exists_last Hw) as (x & c & ->). exists x, c. split; [done|]. intros q.
  unfold last_addr. by rewrite app_assoc, last_snoc.
Qed.
Lemma search_walk n f y : forall pv q s, lst (um s) y q -> freep s ∉ y.*1 ->
  (exists y1 a sz y2, y = y1 ++ (a, sz) :: y2 /\ n <= sz /\
     mloop (length y + f) n pv (first y q) s = carve n (last_addr pv y1) a s) \/
  (Forall (fun b => b.2 < n) y /\ mloop (length y + f) n pv (first y q) s = mloop f n (last_addr pv y) q s).
Proof.
  induction y as [|b y IH]; intros pv q s Hl Hf; cbn [length Nat.add first].
  { right. split; [constructor|done]. }
  destruct Hl as (Hsz & Hn & Hl). rewrite malloc_loop_S, Hsz. destruct (Z.leb_spec n b.2) as [Hfit|Hsmall].
  { left. exists [], b.1, b.2, y. rewrite <- surjective_pairing. done. }
  destruct (Z.eqb_spec b.1 (freep s)) as [E|_]; [set_solver|]. rewrite Hn.
  destruct (IH b.1 q s Hl ltac:(set_solver)) as [(y1 & a & sz & y2 & -> & Hfit & E)|[Hs E]].
  - left. exists (b :: y1), a, sz, y2. by rewrite last_addr_cons.
  - right. rewrite last_addr_cons. split; [by constructor | done].
Qed.

(** From [freep] round the circle: the first block that is large enough, with
    the header before it, or none and [morecore]. *)
Lemma search_run s l used n k : heap s l used -> 1 <= n ->
  (exists x pv sp a sz z, (base, 0) :: l = x ++ (pv, sp) :: (a, sz) :: z /\ n <= sz /\
     mloop (S (length l) + k) n (freep s) (hptr (um s) (freep s)) s = carve n pv a s) \/
  (Forall (fun b => b.2 < n) l /\
   mloop (S (length l) + k) n (freep s) (hptr (um s) (freep s)) s =
     (q <- morecore limit (S k) n ;; if q =? 0 then ret 0 else nx <- ptr q ;; mloop k n q nx) s).
Proof using Hbase Hlimit.
  intros Hh Hn. pose proof (hp_freep _ _ _ Hh) as Hf. apply list_elem_of_fmap in Hf as ([f sf] & Ef & Hf). cbn [fst] in Ef.
  apply list_elem_of_split in Hf as (u & v & E). rewrite Ef in *.
  pose proof (hp_lst _ _ _ Hh) as Hl. pose proof (hp_sorted _ _ _ Hh) as Hs. rewrite E in Hl, Hs.
  assert (Hu : first u f = base).
  { destruct u; cbn [app] in E; injection E; [intros; by subst | by intros _ <-]. }
  apply lst_app in Hl as [Hlu (Hsf & Hpf & Hlv)]. cbn [first fst snd] in *.
  assert (Hy : lst (um s) (v ++ u) f) by (apply lst_app; rewrite Hu; done).
  assert (Hnot : freep s ∉ (v ++ u).*1).
  { rewrite Ef. intros (b & Hb & [Hin|Hin]%elem_of_app)%list_elem_of_fmap;
      apply StronglySorted_app in Hs as (Hord & _ & Hs); cbn in Hb.
    - pose proof (sorted_head _ _ Hs b Hin) as B. unfold before, ext in B. cbn in B. lia.
    - pose proof (Hord b (f, sf) Hin ltac:(set_solver)) as B. unfold before, ext in B. cbn in B. lia. }
  assert (Elen : (S (length l) + k = length (v ++ u) + S k)%nat).
  { apply (f_equal length) in E. rewrite length_app in *. cbn [length] in E. lia. }
  assert (Hfirst : hptr (um s) f = first (v ++ u) f) by (by rewrite Hpf, first_app, Hu).
  assert (Hbase0 : forall a sz y, u = (a, sz) :: y -> sz = 0) by (intros a sz y ->; cbn [app] in E; by injection E).
  rewrite Elen, Hfirst.
  destruct (search_walk n (S k) (v ++ u) f f s Hy Hnot) as [(y1 & a & sz & y2 & Ey & Hfit & Er)|[Hsm Er]].
  - left. rewrite Er. apply app_eq_inv in Ey as [(w & Ev & Ew)|(w & Ey1 & Eu)].
    + destruct w as [|c w]; cbn [app] in Ew.
      { symmetry in Ew. apply Hbase0 in Ew. lia. }
      injection Ew as <- ->. destruct (last_addr_snoc [] ((f, sf) :: y1)) as (x & c & Ec & Hc); [done|].
      exists (u ++ x), c.1, c.2, a, sz, w. rewrite <- surjective_pairing. split; [|split; [done|]].
      * rewrite E, Ev, app_comm_cons, Ec, <- !app_assoc. done.
      * f_equal. specialize (Hc f). cbn [app] in Hc. by rewrite last_addr_cons in Hc.
    + destruct (decide (w = [])) as [->|Hw].
      { cbn [app] in Eu. apply Hbase0 in Eu. lia. }
      destruct (last_addr_snoc v w Hw) as (x & c & Ec & Hc).
      exists x, c.1, c.2, a, sz, (y2 ++ (f, sf) :: v). rewrite <- surjective_pairing. split; [|split; [done|]].
      * rewrite E, Eu, Ec, <- !app_assoc. done.
      * by rewrite Ey1, Hc.
  - rewrite Er, malloc_loop_S, Hsf, Ef, Z.eqb_refl. destruct (Z.leb_spec n sf) as [Hfit|Hsmall].
    + left. destruct (decide (u = [])) as [->|Hw]; [cbn in E; injection E; lia|].
      destruct (last_addr_snoc v u Hw) as (x & c & Ec & Hc).
      exists x, c.1, c.2, f, sf, v. rewrite <- surjective_pairing, Hc. split; [|done]. by rewrite E, Ec, <- app_assoc.
    + right. split; [|done]. apply Forall_app in Hsm as [Hv Hu'].
      assert (H : Forall (fun b : block => b.2 < n) ((base, 0) :: l)) by (rewrite E; apply Forall_app; by repeat constructor).
      by inversion_clear H.
Qed.
End Circle.
