(* ===== verification/UmallocHeap.v ===== *)
(** * UmallocHeap: malloc and free keep the heap (src/src/umalloc.c)

    [carve], [morecore] and the theorems on [malloc] and [free]. *)
From stdpp Require Import sorting.
From S2P Require Import Prelude.
From S2P Require Import CString.
From S2P Require Import Umalloc.

Section Heap.
Context (base limit : Z) (Hbase : 0 < base) (Hlimit : limit < 2 ^ 31).
Abbreviation sorted := (StronglySorted before).
Abbreviation heap := (heap base limit).

(** The rest of the heap when only the headers [pv] and the block [(a, sz)]
    of the free list change. *)
Section Carve.
Context s l used x pv sp a sz z (Hh : heap s l used) (E : (base, 0) :: l = x ++ (pv, sp) :: (a, sz) :: z).

Lemma carve_order : before (pv, sp) (a, sz) /\ base <= pv /\ (a, sz) ∈ l /\
  (forall y, y ∈ x -> before y (pv, sp) /\ before y (a, sz)) /\ (forall y, y ∈ z -> before (a, sz) y /\ before (pv, sp) y).
Proof using All.
  pose proof (hp_sorted _ _ _ _ _ Hh) as Hs. rewrite E in Hs. apply StronglySorted_app in Hs as (Hord & _ & Hs).
  pose proof (sorted_head _ _ Hs) as H1. inversion_clear Hs as [|? ? Hs2 _]. pose proof (sorted_head _ _ Hs2) as H2.
  assert (Hb : base <= pv).
  { destruct x as [|c x']; cbn [app] in E; injection E; [lia|]. intros _ <-.
    pose proof (Hord (base, 0) (pv, sp) ltac:(set_solver) ltac:(set_solver)) as B. unfold before, ext in B. cbn in B. lia. }
  assert (Ha : before (pv, sp) (a, sz)) by (apply H1; set_solver).
  split; [done|]. split; [done|]. split; [|split].
  - assert (H : (a, sz) ∈ (base, 0) :: l) by (rewrite E; set_solver). apply elem_of_cons in H as [H|H]; [|done].
    unfold before, ext in Ha. cbn in Ha. injection H. lia.
  - intros y Hy. split; apply Hord; set_solver.
  - intros y Hy. split; [by apply H2 | apply H1; set_solver].
Qed.
(** Memory that changes only in the header of [pv] and in the block [(a, sz)]. *)
Lemma carve_frame m' : (forall i, (i < pv \/ pv + 8 <= i) -> (i < a \/ a + 8 * sz <= i) -> m' i = um s i) ->
  kept used (um s) m' /\ (forall y, y ∈ used -> hsize m' y.1 = hsize (um s) y.1) /\
  lst m' x pv /\ lst m' z base.
Proof using All.
  intros Hm. destruct carve_order as (B & Hb & Hin & Hx & Hz). pose proof (hp_free _ _ _ _ _ Hh _ Hin) as [Hsz _]. cbn [fst snd] in Hsz.
  pose proof (hp_lst _ _ _ _ _ Hh) as Hl. rewrite E in Hl. apply lst_app in Hl as [Hlx (_ & _ & _ & _ & Hlz)].
  assert (Hk : kept used (um s) m').
  { intros y i Hy Hi. destruct (hp_used _ _ _ _ _ Hh y Hy) as (H1 & _ & H3 & _).
    pose proof (hp_apart _ _ _ _ _ Hh y _ Hy Hin) as D.
    assert (Dp : ext y <= pv \/ pv + 8 <= y.1).
    { assert (H : (pv, sp) ∈ (base, 0) :: l) by (rewrite E; set_solver). apply elem_of_cons in H as [H|H]; [injection H; lia|].
      pose proof (hp_apart _ _ _ _ _ Hh y _ Hy H) as D'. unfold disjoint, ext in *. cbn [fst snd] in *. lia. }
    unfold disjoint, ext in *. cbn [fst snd] in *. apply Hm; lia. }
  split; [done|]. split; [|split].
  - intros y Hy. apply get32_agree. intros i Hi. destruct (hp_used _ _ _ _ _ Hh y Hy) as (H1 & _).
    apply (Hk y); [done|]. unfold ext. lia.
  - eapply lst_agree; [|exact Hlx]. intros y Hy. destruct (Hx y Hy) as [B1 B2]. unfold before, ext in *. cbn [fst snd] in *.
    split; apply get32_agree; intros i Hi; apply Hm; lia.
  - eapply lst_agree; [|exact Hlz]. intros y Hy. destruct (Hz y Hy) as [B1 B2]. unfold before, ext in *. cbn [fst snd] in *.
    split; apply get32_agree; intros i Hi; apply Hm; lia.
Qed.

(** The list without [(a, sz)], or with less of it. *)
Lemma carve_base rest : exists l', x ++ (pv, sp) :: rest = (base, 0) :: l' /\ pv ∈ ((base, 0) :: l').*1.
Proof using All.
  destruct x as [|c x']; cbn [app] in *; injection E; intros; subst; eexists; (split; [reflexivity|]);
    [set_solver|]. rewrite fmap_cons, fmap_app. set_solver.
Qed.
Lemma carve_in l' y rest : x ++ (pv, sp) :: rest = (base, 0) :: l' -> sorted ((base, 0) :: l') -> y ∈ l' ->
  y ∈ rest \/ (y ∈ l /\ before y (a, sz)).
Proof using All.
  intros E' Hs Hy. destruct carve_order as (B & Hb & Hin & Hx & Hz).
  pose proof (sorted_head _ _ Hs y Hy) as By. unfold before, ext in By. cbn [fst snd] in By.
  assert (H : y ∈ x ++ (pv, sp) :: rest) by (rewrite E'; set_solver).
  apply elem_of_app in H as [H|[->|H]%elem_of_cons]; [| |by left]; right.
  - split; [|by apply Hx]. assert (H' : y ∈ (base, 0) :: l) by (rewrite E; set_solver).
    apply elem_of_cons in H' as [->|H']; [cbn in By; lia | done].
  - split; [|done]. assert (H' : (pv, sp) ∈ (base, 0) :: l) by (rewrite E; set_solver).
    apply elem_of_cons in H' as [H'|H']; [injection H'; cbn in By; lia | done].
Qed.

(** The heap after [n] headers at [b], inside [(a, sz)], left the free list,
    which goes on with [rest]. *)
Lemma carved m' rest b n : 1 <= n -> hsize m' b = n ->
  a <= b -> b + 8 * n <= a + 8 * sz ->
  (forall i, (i < pv \/ pv + 8 <= i) -> (i < a \/ a + 8 * sz <= i) -> m' i = um s i) ->
  hsize m' pv = sp -> hptr m' pv = first rest base -> lst m' rest base -> sorted rest ->
  (forall y, y ∈ rest -> before (pv, sp) y /\ disjoint (b, n) y /\ (forall w, w ∈ x -> before w y) /\
     1 <= y.2 /\ ext y <= brk s /\ (forall u, u ∈ used -> disjoint u y)) ->
  exists l', (base, 0) :: l' = x ++ (pv, sp) :: rest /\ heap (mkU m' pv (brk s)) l' ((b, n) :: used).
Proof using All.
  intros Hn Hbn Hab Hend Hm Hpv1 Hpv2 Hrest Hsr Hr. destruct (carve_base rest) as (l' & E' & Hpv).
  destruct carve_order as (B & Hb & Hin & Hx & Hz). destruct (carve_frame m' Hm) as (Hk & Hu & Hlx & _).
  pose proof (hp_free _ _ _ _ _ Hh _ Hin) as [Hsz Hesz]. unfold ext in Hesz. cbn [fst snd] in *.
  assert (Hs : sorted ((base, 0) :: l')).
  { rewrite <- E'. pose proof (hp_sorted _ _ _ _ _ Hh) as Hs0. rewrite E in Hs0. apply StronglySorted_app in Hs0 as (_ & Hsx & _).
    apply StronglySorted_app. split; [|split; [done|]].
    - intros w y Hw [->|Hy]%elem_of_cons; [by apply Hx|]. destruct (Hr y Hy) as (_ & _ & Hw' & _). by apply Hw'.
    - constructor; [done|]. apply Forall_forall. intros y Hy. by destruct (Hr y Hy) as (? & _). }
  assert (Hcase : forall y, y ∈ l' -> y ∈ rest \/ (y ∈ l /\ before y (a, sz))) by (intros y; by apply carve_in).
  exists l'. split; [done|]. constructor; cbn [um freep brk]; try done.
  - rewrite <- E'. apply lst_app. cbn [first fst lst snd]. done.
  - intros y Hy. destruct (Hcase y Hy) as [H|[H _]]; [by destruct (Hr y H) as (_ & _ & _ & ? & ? & _) | by apply (hp_free _ _ _ _ _ Hh)].
  - apply (hp_brk _ _ _ _ _ Hh).
  - intros u [->|Hu']%elem_of_cons; cbn [fst snd]; [|rewrite (Hu u Hu'); by apply (hp_used _ _ _ _ _ Hh)].
    split; [done|]. split; [done|]. unfold before, ext in *. cbn [fst snd] in *. lia.
  - intros u y Hu' Hy. apply elem_of_cons in Hu' as [->|Hu']; destruct (Hcase y Hy) as [H|[H By]].
    + by destruct (Hr y H) as (_ & ? & _).
    + right. unfold before in By. cbn [fst] in *. lia.
    + destruct (Hr y H) as (_ & _ & _ & _ & _ & Hd). by apply Hd.
    + by apply (hp_apart _ _ _ _ _ Hh).
  - constructor; [apply (hp_each _ _ _ _ _ Hh)|]. apply Forall_forall. intros u Hu'.
    pose proof (hp_apart _ _ _ _ _ Hh u _ Hu' Hin) as D. pose proof (hp_used _ _ _ _ _ Hh u Hu').
    unfold disjoint, ext in *. cbn [fst snd] in *. lia.
Qed.
Lemma carve_run n : 1 <= n <= sz -> exists s' l' b,
  carve n pv a s = Ok (b + 8, s') /\ heap s' l' ((b, n) :: used) /\ kept used (um s) (um s').
Proof using All.
  intros Hn. destruct carve_order as (B & Hb & Hin & Hx & Hz). pose proof (hp_free _ _ _ _ _ Hh _ Hin) as [Hsz Hesz].
  pose proof (hp_brk _ _ _ _ _ Hh) as Hbrk. pose proof (hp_lst _ _ _ _ _ Hh) as Hl. rewrite E in Hl.
  apply lst_app in Hl as [_ (Hpv1 & Hpv2 & Ha1 & Ha2 & Hlz)]. unfold before, ext in B, Hesz. cbn [fst snd first] in *.
  assert (Hsub : forall y, y ∈ z -> y ∈ l).
  { intros y Hy. assert (H : y ∈ (base, 0) :: l) by (rewrite E; set_solver). apply elem_of_cons in H as [->|H]; [|done].
    destruct (Hz _ Hy) as [By _]. unfold before, ext in By. cbn in By. lia. }
  assert (Hzx : forall y w, y ∈ z -> w ∈ x -> before w y).
  { intros y w Hy Hw. pose proof (hp_sorted _ _ _ _ _ Hh) as Hs. rewrite E in Hs. apply StronglySorted_app in Hs as (Hord & _).
    apply Hord; set_solver. }
  assert (Hsz' : sorted z).
  { pose proof (hp_sorted _ _ _ _ _ Hh) as Hs. rewrite E in Hs. apply StronglySorted_app in Hs as (_ & _ & Hs).
    inversion_clear Hs as [|? ? Hs2 _]. by inversion_clear Hs2. }
  unfold carve, size, ptr, set_ptr, set_size, set_freep. erewrite bind_Ok; [|reflexivity]. rewrite Ha1.
  destruct (Z.eqb_spec sz n) as [<-|Hne].
  - erewrite bind_Ok; [|reflexivity]. erewrite bind_Ok; [|reflexivity]. cbn [um freep brk]. rewrite Ha2.
    assert (Hr : 0 <= first z base < 2 ^ 32).
    { destruct z as [|y z']; cbn [first]; [lia|]. pose proof (hp_free _ _ _ _ _ Hh y (Hsub y ltac:(set_solver))) as [_ H].
      destruct (Hz y ltac:(set_solver)) as [By _]. unfold before, ext in *. cbn [fst snd] in *. lia. }
    assert (Hm : forall i, (i < pv \/ pv + 8 <= i) -> (i < a \/ a + 8 * sz <= i) -> put32 (um s) pv (first z base) i = um s i).
    { intros i H1 H2. rewrite put32_out by lia. done. }
    destruct (carve_frame _ Hm) as (Hk & _ & _ & Hlz').
    destruct (carved (put32 (um s) pv (first z base)) z a sz) as (l' & _ & Hh'); try done; try lia.
    + rewrite hsize_ptr by (unfold apart; lia). done.
    + rewrite hsize_ptr by (left; done). done.
    + by apply hptr_same.
    + intros y Hy. destruct (Hz y Hy) as [B1 B2]. split; [done|]. split; [by apply before_disjoint|].
      split; [intros; by apply Hzx|]. split; [by apply (hp_free _ _ _ _ _ Hh), Hsub|]. split; [by apply (hp_free _ _ _ _ _ Hh), Hsub|].
      intros u Hu. apply (hp_apart _ _ _ _ _ Hh); auto.
    + eexists _, l', a. split; [|split; [exact Hh'|done]].
      unfold plus, HDR, ret. rewrite u32_small by lia. do 2 f_equal.
  - rewrite u32_small by lia. unfold plus, HDR. rewrite u32_small by lia. set (b := a + 8 * (sz - n)).
    do 2 (erewrite bind_Ok; [|reflexivity]). cbn [um freep brk].
    set (m' := put32 (put32 (um s) (a + 4) (sz - n)) (b + 4) n).
    assert (Hm : forall i, (i < pv \/ pv + 8 <= i) -> (i < a \/ a + 8 * sz <= i) -> m' i = um s i).
    { intros i H1 H2. unfold m', b. rewrite !put32_out by lia. done. }
    assert (Hab : apart b a) by (unfold apart, b; lia).
    assert (Hp : forall c, c = a \/ c = pv -> hptr m' c = hptr (um s) c).
    { intros c Hc. unfold m'. rewrite !hptr_size; [done|..]; unfold apart, b in *; lia. }
    destruct (carve_frame _ Hm) as (Hk & _ & _ & Hlz').
    destruct (carved m' ((a, sz - n) :: z) b n) as (l' & _ & Hh'); try done; try (unfold b; lia).
    + unfold m'. apply hsize_same. lia.
    + unfold m'. rewrite !hsize_other; [done|..]; unfold apart, b; lia.
    + rewrite Hp by auto. done.
    + cbn [lst fst snd]. split; [|split; [|done]].
      * unfold m'. rewrite hsize_other by done. apply hsize_same. lia.
      * rewrite Hp by auto. done.
    + constructor; [done|]. apply Forall_forall. intros y Hy. destruct (Hz y Hy) as [By _].
      unfold before, ext in *. cbn [fst snd] in *. lia.
    + intros y Hy. apply elem_of_cons in Hy as [->|Hy].
      * split; [unfold before, ext; cbn [fst snd]; lia|]. split; [unfold disjoint, ext, b; cbn [fst snd]; lia|].
        split; [intros w Hw; destruct (Hx w Hw) as [_ Bw]; exact Bw|]. unfold ext. cbn [fst snd]. split; [lia|]. split; [lia|].
        intros u Hu. pose proof (hp_apart _ _ _ _ _ Hh u _ Hu Hin) as D. unfold disjoint, ext in *. cbn [fst snd] in *. lia.
      * destruct (Hz y Hy) as [B1 B2]. split; [done|].
        split; [left; unfold before, ext, b in *; cbn [fst snd] in *; lia|]. split; [intros; by apply Hzx|].
        split; [by apply (hp_free _ _ _ _ _ Hh), Hsub|]. split; [by apply (hp_free _ _ _ _ _ Hh), Hsub|].
        intros u Hu. apply (hp_apart _ _ _ _ _ Hh); auto.
    + eexists _, l', b. split; [|split; [exact Hh'|done]].
      unfold ret. rewrite u32_small by (unfold b; lia). do 2 f_equal.
Qed.
End Carve.

Lemma freep_pos s l used : heap s l used -> 0 < freep s /\ length l = length l.
Proof using All.
  intros Hh. pose proof (hp_freep _ _ _ _ _ Hh) as Hf. apply list_elem_of_fmap in Hf as (y & -> & Hy).
  apply elem_of_cons in Hy as [->|Hy]; [cbn; lia|].
  pose proof (sorted_head _ _ (hp_sorted _ _ _ _ _ Hh) y Hy) as B. unfold before, ext in B. cbn in B. lia.
Qed.
(** The headers asked of the system for [n]. *)
Definition core_units (n : Z) : Z := Z.max 4096 n.
Lemma morecore_run s l used n fuel : heap s l used -> 1 <= n -> 8 * n < 2 ^ 31 -> (S (length l) <= fuel)%nat ->
  (brk s + 8 * core_units n > limit /\ morecore limit fuel n s = Ok (0, s)) \/
  (exists s' l', morecore limit fuel n s = Ok (freep s', s') /\ heap s' l' used /\ kept used (um s) (um s') /\
     (exists y, y ∈ l' /\ n <= y.2) /\ (length l' <= S (length l))%nat).
Proof using All.
  intros Hh Hn Hsmall Hfuel. pose proof (hp_brk _ _ _ _ _ Hh) as Hbrk. unfold morecore, sbrk.
  replace (if n <? 4096 then 4096 else n) with (core_units n) by (unfold core_units; destruct (Z.ltb_spec n 4096); lia).
  set (nu := core_units n). assert (Hnu : 4096 <= nu /\ n <= nu /\ 8 * nu < 2 ^ 31) by (unfold nu, core_units; lia).
  unfold HDR. rewrite u32_small by lia. rewrite s32_small by lia. rewrite bind_assoc. erewrite bind_Ok; [|reflexivity].
  rewrite Z.gtb_ltb. destruct (Z.ltb_spec limit (brk s + nu * 8)) as [Hover|Hroom].
  { left. split; [lia|]. erewrite bind_Ok; [|reflexivity]. reflexivity. }
  right. rewrite bind_assoc. erewrite bind_Ok; [|reflexivity]. erewrite bind_Ok; [|reflexivity].
  destruct (Z.eqb_spec (brk s) (u32 (-1))) as [Hm|_]; [change (u32 (-1)) with 4294967295 in Hm; lia|].
  unfold set_size. erewrite bind_Ok; [|reflexivity]. cbn [um freep brk].
  unfold plus, HDR. replace (u32 (brk s + 8 * 1)) with (brk s + 8) by (rewrite u32_small; lia).
  set (s1 := mkU (put32 (um s) (brk s + 4) nu) (freep s) (brk s + nu * 8)).
  assert (Hout : forall i, i < brk s -> um s1 i = um s i) by (intros i Hi; cbn [um s1]; rewrite put32_out by lia; done).
  assert (Hh1 : heap s1 l used).
  { destruct Hh as [Hl Hs Hfr Hfp _ Hus Hap Hea]. constructor; try done; cbn [brk s1].
    - eapply lst_agree; [|exact Hl]. intros y Hy.
      assert (ext y <= brk s) by (apply elem_of_cons in Hy as [->|Hy]; [unfold ext; cbn; lia | by apply Hfr]).
      unfold ext in *. split; apply get32_agree; intros i Hi; apply Hout; lia.
    - intros y Hy. destruct (Hfr y Hy). split; [done|lia].
    - lia.
    - intros u Hu. destruct (Hus u Hu) as (H1 & H2 & H3 & H4). split; [done|]. split; [|split; [done|lia]].
      rewrite <- H2. unfold ext in H4. apply get32_agree. intros i Hi. apply Hout. lia. }
  assert (Hk1 : kept used (um s) (um s1)).
  { intros u i Hu Hi. apply Hout. destruct (hp_used _ _ _ _ _ Hh u Hu) as (_ & _ & _ & H). lia. }
  destruct (free_block base limit Hbase Hlimit s1 l used (brk s) nu fuel) as (s' & l' & E & Hh' & Hk & _ & _ & (y & Hy & Hny) & Hlen);
    try done; cbn [um brk s1]; try lia.
  - apply hsize_same. lia.
  - intros y Hy. right. cbn [fst]. by apply (hp_free _ _ _ _ _ Hh).
  - intros u Hu. right. cbn [fst]. by apply (hp_used _ _ _ _ _ Hh).
  - exists s', l'. split; [erewrite bind_Ok; [|exact E]; done|]. split; [done|]. split; [|split; [|done]].
    + intros u i Hu Hi. rewrite (Hk u i Hu Hi). by apply (Hk1 u).
    + exists y. split; [done|lia].
Qed.

(** The allocator before its first call, or with its heap. *)
Definition ready (s : ustate) (l used : list block) : Prop :=
  heap s l used \/ (freep s = 0 /\ l = [] /\ used = [] /\ base + 8 <= brk s <= limit).

(** Lines 70-73. *)
Lemma malloc_start fuel nbytes s l used : ready s l used -> exists s1,
  heap s1 l used /\ kept used (um s) (um s1) /\ brk s1 = brk s /\
  malloc base limit fuel nbytes s =
    malloc_loop limit fuel (u32 (u32 (nbytes + 8 - 1) / 8 + 1)) (freep s1) (hptr (um s1) (freep s1)) s1.
Proof using All.
  intros [Hh|(Hf & -> & -> & Hb)]; unfold malloc, HDR.
  - pose proof (freep_pos _ _ _ Hh). exists s. split; [done|]. split; [done|]. split; [done|].
    erewrite bind_Ok; [|reflexivity]. destruct (Z.eqb_spec (freep s) 0); [lia|]. erewrite bind_Ok; [|reflexivity].
    unfold ptr. by erewrite bind_Ok; [|reflexivity].
  - exists (mkU (put32 (put32 (um s) base base) (base + 4) 0) base (brk s)). split; [|split; [|split]].
    + constructor; cbn [um freep brk]; try done.
      * cbn [lst fst snd first]. split; [by apply hsize_same|]. split; [|done].
        rewrite hptr_size by (left; done). apply hptr_same. lia.
      * by repeat constructor.
      * intros y Hy. set_solver.
      * set_solver.
      * intros x Hx. set_solver.
      * intros x y Hx. set_solver.
      * constructor.
    + intros x i Hx. set_solver.
    + done.
    + erewrite bind_Ok; [|reflexivity]. rewrite Hf, Z.eqb_refl.
      erewrite bind_Ok; [|reflexivity]. unfold ptr. by erewrite bind_Ok; [|reflexivity].
Qed.
End Heap.

Section Theorems.
Context (base limit : Z) (Hbase : 0 < base) (Hlimit : limit < 2 ^ 31).

(** C30 [malloc] returns and keeps the heap: for every request up to 16 bytes
    below 2 GB (larger ones wrap around), in at most two rounds of the free
    list, it fails exactly when it has to, or gives a block.  It fails only
    when no free block is large enough and the system refuses to grow the
    process by the memory [morecore] asks for, the larger of the request with
    its header and 4096 headers, and then changes nothing; otherwise it returns
    a new block with room for the request, inside the heap and apart from every
    other block in use and from the free list, which stays sorted and joined.
    The contents of the blocks in use are untouched. *)
Theorem malloc_ok s l used nbytes fuel :
  ready base limit s l used -> 0 <= nbytes <= 2 ^ 31 - 16 -> (2 * length l + 5 <= fuel)%nat ->
  exists r s', malloc base limit fuel nbytes s = Ok (r, s') /\ kept used (um s) (um s') /\
    ((r = 0 /\ heap base limit s' l used /\ brk s' = brk s /\ Forall (fun b => 8 * (b.2 - 1) < nbytes) l /\
      limit < brk s + 8 * core_units ((nbytes + 7) / 8 + 1)) \/
     (exists l' n, heap base limit s' l' ((r - 8, n) :: used) /\ nbytes <= 8 * (n - 1))).
Proof using Hbase Hlimit.
  intros Hr Hb Hf. set (n := (nbytes + 7) / 8 + 1).
  pose proof (Z.div_mod (nbytes + 7) 8 ltac:(lia)) as Hdiv. pose proof (Z.mod_pos_bound (nbytes + 7) 8 ltac:(lia)).
  assert (Hn : 1 <= n /\ 8 * n < 2 ^ 31 /\ nbytes <= 8 * (n - 1) < nbytes + 8) by (unfold n; lia).
  destruct (malloc_start base limit Hbase Hlimit fuel nbytes s l used Hr) as (s1 & Hh & Hk & Hbk & E).
  replace (u32 (u32 (nbytes + 8 - 1) / 8 + 1)) with n in E.
  2: { unfold n. rewrite (u32_small (nbytes + 8 - 1)) by lia. replace (nbytes + 8 - 1) with (nbytes + 7) by lia.
       rewrite u32_small; [done|]. fold n. lia. }
  assert (Hfound : forall s2 l2 m2, heap base limit s2 l2 used -> kept used (um s) (um s2) ->
    (exists x pv sp a sz z, (base, 0) :: l2 = x ++ (pv, sp) :: (a, sz) :: z /\ n <= sz /\ m2 = carve n pv a s2) ->
    exists r s', m2 = Ok (r, s') /\ kept used (um s) (um s') /\
      exists l' n, heap base limit s' l' ((r - 8, n) :: used) /\ nbytes <= 8 * (n - 1)).
  { intros s2 l2 m2 Hh2 Hk2 (x & pv & sp & a & sz & z & E2 & Hfit & ->).
    destruct (carve_run base limit Hbase Hlimit s2 l2 used x pv sp a sz z Hh2 E2 n) as (s' & l' & b & Ec & Hh' & Hk'); [lia|].
    exists (b + 8), s'. split; [done|]. split; [intros u i Hu Hi; rewrite (Hk' u i Hu Hi); by apply (Hk2 u)|].
    exists l', n. replace (b + 8 - 8) with b by lia. split; [done|lia]. }
  rewrite E. replace fuel with (S (length l) + (fuel - S (length l)))%nat by lia.
  destruct (search_run base limit Hbase Hlimit s1 l used n (fuel - S (length l)) Hh ltac:(lia)) as [Hs|[Hsmall Hs]].
  { destruct Hs as (x & pv & sp & a & sz & z & E2 & Hfit & Es).
    edestruct (Hfound s1 l) as (r & s' & Er & Hkr & Hres); [done|done|by eexists _, _, _, _, _, _|].
    exists r, s'. split; [exact Er|]. split; [done|]. by right. }
  rewrite Hs. set (k := (fuel - S (length l))%nat) in *.
  destruct (morecore_run base limit Hbase Hlimit s1 l used n (S k) Hh) as [[Hov Em]|(s2 & l2 & Em & Hh2 & Hk2 & Hy & Hlen)]; try lia.
  - exists 0, s1. split; [by erewrite bind_Ok; [|exact Em]|]. split; [done|]. left. split; [done|]. split; [done|].
    split; [done|]. split; [|rewrite <- Hbk; fold n; lia].
    eapply Forall_impl; [exact Hsmall|]. intros b Hbn. cbn beta in Hbn. lia.
  - erewrite bind_Ok; [|exact Em]. pose proof (freep_pos base limit Hbase Hlimit s2 l2 used Hh2).
    destruct (Z.eqb_spec (freep s2) 0); [lia|]. unfold ptr. erewrite bind_Ok; [|reflexivity].
    replace k with (S (length l2) + (k - S (length l2)))%nat by lia.
    destruct (search_run base limit Hbase Hlimit s2 l2 used n (k - S (length l2)) Hh2 ltac:(lia)) as [Hs2|[Hsmall2 _]].
    + destruct Hs2 as (x & pv & sp & a & sz & z & E2 & Hfit & Es).
      edestruct (Hfound s2 l2) as (r & s' & Er & Hkr & Hres); [done| |by eexists _, _, _, _, _, _|].
      { intros u i Hu Hi. rewrite (Hk2 u i Hu Hi). by apply (Hk u). }
      exists r, s'. split; [exact Er|]. split; [done|]. by right.
    + destruct Hy as (y & Hy & Hny). eapply Forall_forall in Hsmall2; [|exact Hy]. cbn in Hsmall2. lia.
Qed.

(** [free] gives a block back: for any block in use, it returns within one
    round of the free list, the block leaves the blocks in use, its headers
    are in the free list again, joined with free neighbours, no free memory is
    lost, and the contents of all other blocks are untouched. *)
Theorem free_ok s l used1 used2 ap n fuel :
  heap base limit s l (used1 ++ (ap - 8, n) :: used2) -> (S (length l) <= fuel)%nat ->
  exists s' l', free fuel ap s = Ok (tt, s') /\ heap base limit s' l' (used1 ++ used2) /\
    total l' = total l + n /\ kept (used1 ++ used2) (um s) (um s').
Proof using Hbase Hlimit.
  intros Hh Hf. set (b := ap - 8) in *. assert (Hin : (b, n) ∈ used1 ++ (b, n) :: used2) by set_solver.
  destruct (hp_used _ _ _ _ _ Hh _ Hin) as (H1 & H2 & H3 & H4). cbn [fst snd] in *. unfold ext in H4. cbn [fst snd] in H4.
  pose proof (hp_each _ _ _ _ _ Hh) as Hea. apply StronglySorted_app in Hea as (Hord & Hea1 & Hea2).
  inversion_clear Hea2 as [|? ? Hea3 Hall].
  assert (Hsub : forall x, x ∈ used1 ++ used2 -> x ∈ used1 ++ (b, n) :: used2) by set_solver.
  assert (Hh0 : heap base limit s l (used1 ++ used2)).
  { destruct Hh as [Hl Hs Hfr Hfp Hbrk Hus Hap _]. constructor; try done; [by auto..|].
    apply StronglySorted_app. split; [|done]. intros x y Hx Hy. apply Hord; set_solver. }
  destruct (free_block base limit Hbase Hlimit s l (used1 ++ used2) b n fuel) as (s' & l' & E & Hh' & Hk & _ & Ht & _);
    try done; try lia.
  - intros y Hy. by apply (hp_apart _ _ _ _ _ Hh).
  - intros x [Hx|Hx]%elem_of_app; [apply disjoint_sym, Hord; set_solver|]. by eapply Forall_forall in Hall.
  - exists s', l'. split; [|done]. rewrite <- E. f_equal. unfold b. lia.
Qed.
End Theorems.

(** ** A process with a fresh heap *)
Definition fresh_heap : ustate := mkU (fun _ => 0) 0 0x3000.
Lemma heap_fresh_ready : ready 0x1000 (2 ^ 20) fresh_heap [] [].
Proof. right. cbn. split; [done|]. split; [done|]. split; [done|]. lia. Qed.
Definition address {A} (o : outcome (Z * A)) : Z := match o with Ok (r, _) => r | _ => -1 end.
Lemma malloc_ok_witness : exists r s', malloc 0x1000 (2 ^ 20) 10 100 fresh_heap = Ok (r, s') /\
  r = 0xAF98 /\ exists l' n, heap 0x1000 (2 ^ 20) s' l' [(r - 8, n)] /\ 100 <= 8 * (n - 1).
Proof.
  destruct (malloc_ok 0x1000 (2 ^ 20) ltac:(lia) ltac:(lia) fresh_heap [] [] 100 10 heap_fresh_ready ltac:(lia) ltac:(cbn; lia))
    as (r & s' & E & _ & H).
  assert (Hr : address (malloc 0x1000 (2 ^ 20) 10 100 fresh_heap) = 0xAF98) by (vm_compute; reflexivity).
  exists r, s'. split; [exact E|]. rewrite E in Hr. cbn in Hr. split; [done|].
  destruct H as [(-> & _)|H]; [done|exact H].
Defined.
(** One block of two headers in use, nothing free. *)
Definition lent_heap : ustate := mkU (put32 (put32 (fun _ => 0) 0x1000 0x1000) 0x3004 2) 0x1000 0x4000.
Lemma lent_ok : heap 0x1000 (2 ^ 20) lent_heap [] [(0x3000, 2)].
Proof.
  constructor; cbn [lent_heap um freep brk]; try lia.
  - cbn [lst first fst snd]. split; [by vm_compute|]. split; [by vm_compute|done].
  - by repeat constructor.
  - intros y Hy. set_solver.
  - set_solver.
  - intros x Hx. assert (x = (0x3000, 2)) as -> by set_solver. unfold ext. cbn [fst snd].
    split; [lia|]. split; [by vm_compute|lia].
  - intros x y _ Hy. set_solver.
  - by repeat constructor.
Qed.
Lemma free_ok_witness : exists s' l', free 1 0x3008 lent_heap = Ok (tt, s') /\
  heap 0x1000 (2 ^ 20) s' l' [] /\ total l' = 2.
Proof.
  destruct (free_ok 0x1000 (2 ^ 20) ltac:(lia) ltac:(lia) lent_heap [] [] [] 0x3008 2 1 lent_ok ltac:(cbn; lia))
    as (s' & l' & E & Hh & Ht & _).
  exists s', l'. split; [exact E|]. split; [exact Hh|]. exact Ht.
Defined.

(** A request close to 4 GB wraps around: [malloc(0xFFFFFFFF)] succeeds and
    returns a block of one header, without room for a single byte. *)
Theorem malloc_huge_request_wraps :
  match malloc 0x1000 (2 ^ 20) 10 0xFFFFFFFF fresh_heap with
  | Ok (r, s') => r <> 0 /\ hsize (um s') (r - 8) = 1
  | _ => False
  end.
Proof. vm_compute. split; [discriminate | reflexivity]. Qed.
