(* ===== verification/Sh.v ===== *)
(** * Sh: the parser of the shell (src/src/sh.c)

    The command line is a buffer of characters followed by a NUL; a pointer
    into it is an index, and reading past the NUL is a fault.  The parser moves
    the index [*ps], which is the state.  A syntax error is [panic].  Recursion
    and loops have a step bound. *)
From S2P Require Import Prelude.

Definition MAXARGS : nat := 10.
Definition O_RDONLY : Z := 0x000.
Definition O_WRONLY : Z := 0x001.
Definition O_CREATE : Z := 0x200.

(** A counted string: the indices [q] and [eq]. *)
Abbreviation span := (nat * nat)%type.
Inductive cmd :=
| EXEC (argv : list span)
| REDIR (c : cmd) (file : span) (mode fd : Z)
| PIPE (left right : cmd)
| LIST (left right : cmd)
| BACK (c : cmd).

Definition whitespace : list Z := [32; 9; 13; 10; 11].
Definition symbols : list Z := [60; 124; 62; 38; 59; 40; 41].
(** [strchr(s, c)] for a string constant and a character that is not NUL. *)
Definition strchr (s : list Z) (c : Z) : bool := bool_decide (c ∈ s).
Definition is_white (c : Z) : bool := strchr whitespace c.
Definition is_word (c : Z) : bool := negb (strchr whitespace c) && negb (strchr symbols c).

(** A redirection: file, mode and descriptor; they wrap a command in the order
    of the list. *)
Abbreviation redir := (span * Z * Z)%type.

Section Parser.
Context (buf : list Z).
Definition P : Type -> Type := M nat.
Definition es : nat := length buf.
Definition char_at (s : nat) : P Z := of_option ((buf ++ [0]) !! s).
(** [while(s < es && p( *s)) s++;] from [s]. *)
Fixpoint run_length (p : Z -> bool) (l : list Z) : nat :=
  match l with [] => O | c :: l => if p c then S (run_length p l) else O end.
Definition skip (p : Z -> bool) (s : nat) : nat := (s + run_length p (drop s buf))%nat.

(** The token, and the counted string [q], [eq]. *)
Definition gettoken : P (Z * span) :=
  s <- get ;;
  let s := skip is_white s in
  let q := s in
  c <- char_at s ;;
  let* (r, s) :=
    (if c =? 0 then ret (c, s)
     else if (c =? 124) || (c =? 40) || (c =? 41) || (c =? 59) || (c =? 38) || (c =? 60) then ret (c, S s)
     else if c =? 62 then d <- char_at (S s) ;; if d =? 62 then ret (43, S (S s)) else ret (c, S s)
     else ret (97, skip is_word s)) in
  put (skip is_white s) ;;;
  ret (r, (q, s)).
Definition peek (toks : list Z) : P bool :=
  s <- get ;;
  let s := skip is_white s in
  put s ;;;
  c <- char_at s ;;
  ret (negb (c =? 0) && strchr toks c).

Definition wrap (c : cmd) (rs : list redir) : cmd := fold_left (fun c r => REDIR c r.1.1 r.1.2 r.2) rs c.
Fixpoint parseredirs (fuel : nat) (rs : list redir) : P (list redir) :=
  match fuel with
  | O => out_of_fuel
  | S fuel =>
      b <- peek [60; 62] ;;
      if b : bool then
        t <- gettoken ;;
        f <- gettoken ;;
        if negb (f.1 =? 97) then panic "missing file for redirection"
        else if t.1 =? 60 then parseredirs fuel (rs ++ [(f.2, O_RDONLY, 0)])
        else if t.1 =? 62 then parseredirs fuel (rs ++ [(f.2, Z.lor O_WRONLY O_CREATE, 1)])
        else if t.1 =? 43 then parseredirs fuel (rs ++ [(f.2, Z.lor O_WRONLY O_CREATE, 1)])
        else parseredirs fuel rs
      else ret rs
  end.
(** The loop of [parseexec] (lines 432-443); the node made by [execcmd] is
    filled through the pointer [cmd] while redirections wrap it, so the
    arguments and the redirections are carried apart until the end. *)
Fixpoint exec_args (fuel : nat) (argv : list span) (rs : list redir) : P (list span * list redir) :=
  match fuel with
  | O => out_of_fuel
  | S fuel =>
      b <- peek [124; 41; 38; 59] ;;
      if b : bool then ret (argv, rs)
      else
        t <- gettoken ;;
        if t.1 =? 0 then ret (argv, rs)
        else if negb (t.1 =? 97) then panic "syntax"
        else
          let argv := argv ++ [t.2] in
          if (MAXARGS <=? length argv)%nat then panic "too many args"
          else rs <- parseredirs fuel rs ;; exec_args fuel argv rs
  end.
(** [while(peek("&"))] of [parseline] (lines 351-354). *)
Fixpoint back_loop (fuel : nat) (c : cmd) : P cmd :=
  match fuel with
  | O => out_of_fuel
  | S fuel => b <- peek [38] ;; if b : bool then gettoken ;;; back_loop fuel (BACK c) else ret c
  end.

Fixpoint parseline (fuel : nat) : P cmd :=
  match fuel with
  | O => out_of_fuel
  | S fuel =>
      c <- parsepipe fuel ;;
      c <- back_loop fuel c ;;
      b <- peek [59] ;;
      if b : bool then gettoken ;;; r <- parseline fuel ;; ret (LIST c r) else ret c
  end
with parsepipe (fuel : nat) : P cmd :=
  match fuel with
  | O => out_of_fuel
  | S fuel =>
      c <- parseexec fuel ;;
      b <- peek [124] ;;
      if b : bool then gettoken ;;; r <- parsepipe fuel ;; ret (PIPE c r) else ret c
  end
with parseexec (fuel : nat) : P cmd :=
  match fuel with
  | O => out_of_fuel
  | S fuel =>
      b <- peek [40] ;;
      if b : bool then parseblock fuel
      else
        rs <- parseredirs fuel [] ;;
        let* (argv, rs) := exec_args fuel [] rs in
        ret (wrap (EXEC argv) rs)
  end
with parseblock (fuel : nat) : P cmd :=
  match fuel with
  | O => out_of_fuel
  | S fuel =>
      b <- peek [40] ;;
      if negb b then panic "parseblock"
      else
        gettoken ;;;
        c <- parseline fuel ;;
        b <- peek [41] ;;
        if negb b then panic "syntax - missing )"
        else gettoken ;;; rs <- parseredirs fuel [] ;; ret (wrap c rs)
  end.

(** ** nulterminate: the buffer with NULs at the ends of the strings *)
Fixpoint nulterminate (c : cmd) (b : list Z) : list Z :=
  match c with
  | EXEC argv => fold_left (fun b w => <[w.2 := 0]> b) argv b
  | REDIR c file _ _ => <[file.2 := 0]> (nulterminate c b)
  | PIPE l r | LIST l r => nulterminate r (nulterminate l b)
  | BACK c => nulterminate c b
  end.
(** The command and the buffer it points into. *)
Definition parsecmd (fuel : nat) : P (cmd * list Z) :=
  c <- parseline fuel ;;
  peek [] ;;;
  s <- get ;;
  if negb (s =? es)%nat then panic "syntax"
  else ret (c, nulterminate c (buf ++ [0])).
End Parser.
