(* ===== verification/ShFacts.v ===== *)
(** * ShFacts: the parser of the shell stops, and its strings are the words

    Every call either returns, with the index not past the NUL, or reports a
    syntax error; the counted strings are words of the line, and cutting the
    buffer at their ends leaves each of them intact. *)
From S2P Require Import Prelude.
From S2P Require Import Sh.

Section Line.
Context (buf : list Z) (Hbuf : Forall (fun c => c <> 0) buf).
Abbreviation es := (length buf).

(** ** Characters and runs *)
Lemma run_length_le p l : (run_length p l <= length l)%nat.
Proof. induction l as [|c l IH]; cbn; [lia|]. destruct (p c); lia. Qed.
Lemma skip_range p s : (s <= es)%nat -> (s <= skip buf p s <= es)%nat.
Proof. intros H. unfold skip. pose proof (run_length_le p (drop s buf)). rewrite length_drop in *. lia. Qed.
Lemma run_length_all p l i c : l !! i = Some c -> (i < run_length p l)%nat -> p c = true.
Proof.
  revert i. induction l as [|d l IH]; intros i H Hi; [done|]. cbn in Hi. destruct (p d) eqn:E; [|lia].
  destruct i as [|i]; cbn in H; [by simplify_eq|]. apply (IH i); [done|lia].
Qed.
Lemma run_length_end p l c : l !! run_length p l = Some c -> p c = false.
Proof. induction l as [|d l IH]; cbn; [done|]. destruct (p d) eqn:E; [done|]. cbn. intros. by simplify_eq. Qed.
Lemma skip_all p s i c : (s <= i < skip buf p s)%nat -> buf !! i = Some c -> p c = true.
Proof.
  intros Hi Hc. apply (run_length_all p (drop s buf) (i - s)); [|unfold skip in Hi; lia].
  rewrite lookup_drop. by replace (s + (i - s))%nat with i by lia.
Qed.
Lemma skip_end p s c : buf !! skip buf p s = Some c -> p c = false.
Proof. intros H. apply (run_length_end p (drop s buf)). by rewrite lookup_drop. Qed.
Lemma char_here s : (s <= es)%nat -> exists c, (forall t, char_at buf s t = Ok (c, t)) /\
  ((s = es /\ c = 0) \/ (c <> 0 /\ buf !! s = Some c)).
Proof using Hbuf.
  intros H. unfold char_at. destruct (decide (s = es)) as [->|Hne].
  - exists 0. rewrite lookup_app_r, Nat.sub_diag by lia. split; [done|by left].
  - destruct (lookup_lt_is_Some_2 buf s) as [c Hc]; [lia|]. exists c. rewrite lookup_app_l, Hc by lia.
    split; [done|]. right. split; [|done]. by apply (Forall_lookup_1 _ _ _ _ Hbuf Hc).
Qed.

(** A word: a maximal run of word characters. *)
Definition word_span (w : span) : Prop :=
  (w.1 < w.2 <= es)%nat /\ (forall i c, (w.1 <= i < w.2)%nat -> buf !! i = Some c -> is_word c = true) /\
  (forall c, buf !! w.2 = Some c -> is_word c = false).

(** ** Running to an index that is not past the NUL *)
Definition fine {A} (s : nat) (o : outcome (A * nat)) (Q : A -> nat -> Prop) : Prop :=
  match o with
  | Ok (a, s') => (s <= s' <= es)%nat /\ Q a s'
  | Panic _ => True
  | Fault | OutOfFuel => False
  end.
Lemma fine_bind {A B} s (c : P A) (k : A -> P B) Q R : fine s (c s) Q ->
  (forall a s', (s <= s' <= es)%nat -> Q a s' -> fine s' (k a s') R) -> fine s (M_bind c k s) R.
Proof.
  intros Hc Hk. unfold M_bind. destruct (c s) as [[a s']| | |]; cbn in *; [|done..].
  destruct Hc as [Hs HQ]. specialize (Hk a s' Hs HQ). destruct (k a s') as [[b s'']| | |]; cbn in *; [|done..].
  destruct Hk. split; [lia|done].
Qed.
Lemma fine_ret {A} s (a : A) (Q : A -> nat -> Prop) : (s <= es)%nat -> Q a s -> fine s (ret a s) Q.
Proof. intros H HQ. cbn. split; [lia|done]. Qed.
Lemma fine_weaken {A} s (o : outcome (A * nat)) (Q R : A -> nat -> Prop) :
  fine s o Q -> (forall a s', Q a s' -> R a s') -> fine s o R.
Proof. intros H HQ. destruct o as [[a s']| | |]; cbn in *; [|done..]. destruct H. auto. Qed.

Lemma gettoken_fine s : (s <= es)%nat ->
  fine s (gettoken buf s) (fun t s' => (t.1 <> 0 -> (s < s')%nat) /\ (t.1 = 97 -> word_span t.2) /\
    (buf !! skip buf is_white s <> None -> t.1 <> 0)).
Proof using Hbuf.
  intros Hs. unfold gettoken. erewrite bind_Ok; [|reflexivity]. set (q := skip buf is_white s).
  pose proof (skip_range is_white s Hs) as Hq. fold q in Hq.
  destruct (char_here q) as (c & Ec & Hc); [lia|]. erewrite bind_Ok; [|apply Ec].
  assert (Hfin : forall r e, (q <= e <= es)%nat -> (r <> 0 -> (q < e)%nat) -> (r = 97 -> word_span (q, e)) ->
    (buf !! q <> None -> r <> 0) ->
    fine s ((put (skip buf is_white e) ;;; ret (r, (q, e))) s)
      (fun t s' => (t.1 <> 0 -> (s < s')%nat) /\ (t.1 = 97 -> word_span t.2) /\ (buf !! q <> None -> t.1 <> 0))).
  { intros r e He Hr Hw Hn. pose proof (skip_range is_white e ltac:(lia)). cbn. split; [lia|]. split; [lia|done]. }
  destruct (Z.eqb_spec c 0) as [->|Hc0].
  { erewrite bind_Ok; [|reflexivity]. apply Hfin; try done; [lia|].
    destruct Hc as [[-> _]|[? _]]; [|done]. intros Hn. by rewrite lookup_ge_None_2 in Hn by lia. }
  destruct Hc as [[_ ?]|[_ Hcq]]; [done|]. assert (q < es)%nat by (by eapply lookup_lt_Some).
  destruct (_ || _) eqn:Esym.
  { erewrite bind_Ok; [|reflexivity]. apply Hfin; lia || done. }
  destruct (Z.eqb_spec c 62) as [->|Hgt].
  { destruct (char_here (S q)) as (d & Ed & Hd); [lia|].
    assert (Eg : forall t, (d <- char_at buf (S q) ;; if d =? 62 then ret (43, S (S q)) else ret (62, S q)) t =
      Ok (if d =? 62 then (43, S (S q)) else (62, S q), t)).
    { intros t. erewrite bind_Ok; [|apply Ed]. by destruct (d =? 62). }
    erewrite bind_Ok; [|apply Eg]. destruct (Z.eqb_spec d 62) as [->|_]; cbn beta iota; [|apply Hfin; done || lia].
    destruct Hd as [[_ ?]|[_ Hd]]; [done|]. apply lookup_lt_Some in Hd. apply Hfin; done || lia. }
  erewrite bind_Ok; [|reflexivity].
  assert (Hword : is_word c = true).
  { assert (Hw : is_white c = false) by (apply (skip_end is_white s c Hcq)).
    unfold is_word. unfold is_white in Hw. rewrite Hw. cbn [negb andb]. apply negb_true_iff, bool_decide_eq_false.
    repeat rewrite orb_false_iff in Esym. destruct_and? Esym. zbool. unfold symbols. set_solver. }
  assert (Hlt : (q < skip buf is_word q)%nat).
  { unfold skip. rewrite (drop_S buf c q Hcq). cbn [run_length]. rewrite Hword. lia. }
  pose proof (skip_range is_word q ltac:(lia)).
  apply Hfin; try done; try lia. intros _. split; [cbn; lia|]. split; cbn [fst snd].
  - intros i d Hi. by apply (skip_all is_word q i d).
  - intros d. apply (skip_end is_word q d).
Qed.

Lemma peek_fine toks s : (s <= es)%nat ->
  fine s (peek buf toks s) (fun b s' => b = true -> (s' < es)%nat /\ skip buf is_white s' = s').
Proof using Hbuf.
  intros Hs. unfold peek. erewrite bind_Ok; [|reflexivity]. pose proof (skip_range is_white s Hs) as Hq.
  erewrite bind_Ok; [|reflexivity]. destruct (char_here (skip buf is_white s)) as (c & Ec & Hc); [lia|].
  erewrite bind_Ok; [|apply Ec]. cbn. split; [lia|]. intros Hb. destruct Hc as [[_ ->]|[_ Hc]]; [done|].
  split; [by eapply lookup_lt_Some|]. unfold skip at 1. rewrite (drop_S buf c _ Hc). cbn [run_length].
  rewrite (skip_end is_white s c Hc). lia.
Qed.
(** A token that was peeked at. *)
Lemma taken_fine s : (s < es)%nat -> skip buf is_white s = s ->
  fine s (gettoken buf s) (fun _ s' => (s < s')%nat).
Proof using Hbuf.
  intros Hs Hw. eapply fine_weaken; [apply gettoken_fine; lia|]. intros t s' (H1 & _ & H3). apply H1, H3. rewrite Hw.
  destruct (lookup_lt_is_Some_2 buf s Hs) as [c ->]. done.
Qed.

(** ** The parser stops *)
Fixpoint cmd_words (c : cmd) : list span :=
  match c with
  | EXEC argv => argv
  | REDIR c f _ _ => f :: cmd_words c
  | PIPE l r | LIST l r => cmd_words l ++ cmd_words r
  | BACK c => cmd_words c
  end.
(** What a redirection can ask for. *)
Definition redir_ok (m d : Z) : Prop := (m = O_RDONLY /\ d = 0) \/ (m = Z.lor O_WRONLY O_CREATE /\ d = 1).
(** The commands [runcmd] expects. *)
Fixpoint cmd_shape (c : cmd) : Prop :=
  match c with
  | EXEC argv => (length argv < MAXARGS)%nat
  | REDIR c _ m d => cmd_shape c /\ redir_ok m d
  | PIPE l r | LIST l r => cmd_shape l /\ cmd_shape r
  | BACK c => cmd_shape c
  end.
Definition cmd_ok (c : cmd) : Prop := Forall word_span (cmd_words c) /\ cmd_shape c.
Definition redirs_ok (rs : list redir) : Prop := Forall (fun r => word_span r.1.1 /\ redir_ok r.1.2 r.2) rs.
Lemma wrap_ok c rs : cmd_ok c -> redirs_ok rs -> cmd_ok (wrap c rs).
Proof.
  intros Hc Hr. revert c Hc. induction Hr as [|r rs [Hw Hr] Hrs IH]; intros c [Hc Hs]; [done|]. cbn. apply IH.
  split; [by constructor | done].
Qed.
Lemma both_ok l r : cmd_ok l -> cmd_ok r -> cmd_ok (PIPE l r) /\ cmd_ok (LIST l r).
Proof. intros [Hl Sl] [Hr Sr]. by split; (split; [by apply Forall_app | split]). Qed.

Lemma parseredirs_fine fuel : forall s rs, (s <= es)%nat -> (es - s < fuel)%nat -> redirs_ok rs ->
  fine s (parseredirs buf fuel rs s) (fun rs' _ => redirs_ok rs').
Proof using Hbuf.
  induction fuel as [|fuel IH]; intros s rs Hs Hf Hrs; [lia|]. cbn [parseredirs].
  eapply fine_bind; [by apply peek_fine|]. intros b s1 H1 Hb. destruct b; [|apply fine_ret; [lia|done]].
  destruct (Hb eq_refl) as [Hlt Hw]. eapply fine_bind; [by apply taken_fine|]. intros t s2 H2 Hs2. cbn beta in Hs2.
  eapply fine_bind; [apply gettoken_fine; lia|]. intros f s3 H3 (_ & Hword & _). destruct (Z.eqb_spec f.1 97) as [E|]; [|done].
  specialize (Hword E). cbn [negb]. assert (Hadd : forall m d, redir_ok m d -> redirs_ok (rs ++ [(f.2, m, d)])).
  { intros m d Hm. apply Forall_app. split; [done|]. constructor; [done|constructor]. }
  repeat case_if; (apply IH; [lia..|]); [apply Hadd; by left | apply Hadd; by right | apply Hadd; by right | done].
Qed.
Lemma exec_args_fine fuel : forall s argv rs, (s <= es)%nat -> (es - s < fuel)%nat -> Forall word_span argv -> (length argv < MAXARGS)%nat -> redirs_ok rs ->
  fine s (exec_args buf fuel argv rs s) (fun p _ => (Forall word_span p.1 /\ (length p.1 < MAXARGS)%nat) /\ redirs_ok p.2).
Proof using Hbuf.
  induction fuel as [|fuel IH]; intros s argv rs Hs Hf Ha Hlen Hrs; [lia|]. cbn [exec_args].
  eapply fine_bind; [by apply peek_fine|]. intros b s1 H1 _. destruct b; [apply fine_ret; [lia|done]|].
  eapply fine_bind; [apply gettoken_fine; lia|]. intros t s2 H2 (Hlt & Hword & _).
  destruct (Z.eqb_spec t.1 0); [apply fine_ret; [lia|done]|]. specialize (Hlt n).
  destruct (Z.eqb_spec t.1 97) as [E|]; [|done]. specialize (Hword E). cbn [negb].
  destruct (Nat.leb_spec MAXARGS (length (argv ++ [t.2]))); [done|]. eapply fine_bind; [apply parseredirs_fine; [lia..|done]|].
  intros rs' s3 H3 Hrs'. apply IH; [lia..| |lia|done]. apply Forall_app. split; [done|]. constructor; [done|constructor].
Qed.
Lemma back_loop_fine fuel : forall s c, (s <= es)%nat -> (es - s < fuel)%nat -> cmd_ok c ->
  fine s (back_loop buf fuel c s) (fun c' _ => cmd_ok c').
Proof using Hbuf.
  induction fuel as [|fuel IH]; intros s c Hs Hf Hc; [lia|]. cbn [back_loop].
  eapply fine_bind; [by apply peek_fine|]. intros b s1 H1 Hb. destruct b; [|apply fine_ret; [lia|done]].
  destruct (Hb eq_refl) as [Hlt Hw]. eapply fine_bind; [by apply taken_fine|]. intros t s2 H2 Hs2. cbn beta in Hs2. apply IH; [lia..|done].
Qed.

Lemma parse_fine fuel : forall s, (s <= es)%nat ->
  ((5 * (es - s) + 5 <= fuel)%nat -> fine s (parseline buf fuel s) (fun c _ => cmd_ok c)) /\
  ((5 * (es - s) + 4 <= fuel)%nat -> fine s (parsepipe buf fuel s) (fun c _ => cmd_ok c)) /\
  ((5 * (es - s) + 3 <= fuel)%nat -> fine s (parseexec buf fuel s) (fun c _ => cmd_ok c)) /\
  ((5 * (es - s) + 2 <= fuel)%nat -> fine s (parseblock buf fuel s) (fun c _ => cmd_ok c)).
Proof using Hbuf.
  induction fuel as [|fuel IH]; intros s Hs; [split; [|split; [|split]]; lia|].
  cbn [parseline parsepipe parseexec parseblock]. split; [|split; [|split]]; intros Hf.
  - eapply fine_bind; [apply IH; lia|]. intros c s1 H1 Hc.
    eapply fine_bind; [apply back_loop_fine; [lia..|done]|]. intros c' s2 H2 Hc'.
    eapply fine_bind; [apply peek_fine; lia|]. intros b s3 H3 Hb. destruct b; [|apply fine_ret; [lia|done]].
    destruct (Hb eq_refl) as [Hlt Hw]. eapply fine_bind; [by apply taken_fine|]. intros t s4 H4 Hs4. cbn beta in Hs4.
    eapply fine_bind; [apply IH; lia|]. intros r s5 H5 Hr. apply fine_ret; [lia|]. by apply both_ok.
  - eapply fine_bind; [apply IH; lia|]. intros c s1 H1 Hc.
    eapply fine_bind; [apply peek_fine; lia|]. intros b s3 H3 Hb. destruct b; [|apply fine_ret; [lia|done]].
    destruct (Hb eq_refl) as [Hlt Hw]. eapply fine_bind; [by apply taken_fine|]. intros t s4 H4 Hs4. cbn beta in Hs4.
    eapply fine_bind; [apply IH; lia|]. intros r s5 H5 Hr. apply fine_ret; [lia|]. by apply both_ok.
  - eapply fine_bind; [by apply peek_fine|]. intros b s1 H1 _. destruct b; [apply IH; lia|].
    eapply fine_bind; [apply parseredirs_fine; [lia..|constructor]|]. intros rs s2 H2 Hrs.
    eapply fine_bind; [apply exec_args_fine; [lia..|constructor|cbn; unfold MAXARGS; lia|done]|]. intros [argv rs'] s3 H3 [Ha Hrs'].
    apply fine_ret; [lia|]. by apply wrap_ok.
  - eapply fine_bind; [by apply peek_fine|]. intros b s1 H1 Hb. destruct b; [|done]. cbn [negb].
    destruct (Hb eq_refl) as [Hlt Hw]. eapply fine_bind; [by apply taken_fine|]. intros t s2 H2 Hs2. cbn beta in Hs2.
    eapply fine_bind; [apply IH; lia|]. intros c s3 H3 Hc.
    eapply fine_bind; [apply peek_fine; lia|]. intros b' s4 H4 Hb'. destruct b'; [|done]. cbn [negb].
    destruct (Hb' eq_refl) as [Hlt' Hw']. eapply fine_bind; [by apply taken_fine|]. intros t' s5 H5 Hs5. cbn beta in Hs5.
    eapply fine_bind; [apply parseredirs_fine; [lia..|constructor]|]. intros rs s6 H6 Hrs.
    apply fine_ret; [lia|]. by apply wrap_ok.
Qed.

(** ** Cutting the buffer at the ends of the words *)
Definition ends (l : list span) : list nat := snd <$> l.
Lemma cut_length c : forall b, length (nulterminate c b) = length b.
Proof.
  induction c as [argv|c IH f m d|l IHl r IHr|l IHl r IHr|c IH]; intros b; cbn [nulterminate].
  - revert b. induction argv as [|w argv IH]; intros b; [done|]. cbn. by rewrite IH, length_insert.
  - by rewrite length_insert.
  - by rewrite IHr.
  - by rewrite IHr.
  - done.
Qed.
Lemma cut_at c i : forall b, (i < length b)%nat ->
  nulterminate c b !! i = if decide (i ∈ ends (cmd_words c)) then Some 0 else b !! i.
Proof.
  assert (Hins : forall (e : nat) b, (i < length b)%nat -> <[e := 0]> b !! i = if decide (i = e) then Some 0 else b !! i).
  { intros e b Hi. case_decide as E; [subst; by apply list_lookup_insert_eq | by apply list_lookup_insert_ne]. }
  induction c as [argv|c IH f m d|l IHl r IHr|l IHl r IHr|c IH]; intros b Hi; cbn [nulterminate cmd_words].
  - revert b Hi. induction argv as [|w argv IH]; intros b Hi; [done|]. cbn [fold_left].
    rewrite IH, Hins by (rewrite ?length_insert; done). unfold ends. rewrite fmap_cons.
    repeat case_decide; try done; set_solver.
  - rewrite Hins, IH by (rewrite ?cut_length; done). unfold ends. rewrite fmap_cons. repeat case_decide; try done; set_solver.
  - rewrite IHr, IHl by (rewrite ?cut_length; done). unfold ends. rewrite fmap_app. repeat case_decide; try done; set_solver.
  - rewrite IHr, IHl by (rewrite ?cut_length; done). unfold ends. rewrite fmap_app. repeat case_decide; try done; set_solver.
  - by apply IH.
Qed.
(** The C string at [q] of a buffer. *)
Definition string_at (b : list Z) (q : nat) (w : list Z) : Prop :=
  (forall i c, w !! i = Some c -> b !! (q + i)%nat = Some c /\ c <> 0) /\ b !! (q + length w)%nat = Some 0.
Definition word (w : span) : list Z := take (w.2 - w.1) (drop w.1 buf).
Lemma cut_words c w : cmd_ok c -> w ∈ cmd_words c -> string_at (nulterminate c (buf ++ [0])) w.1 (word w).
Proof using Hbuf.
  intros Hc Hw. destruct Hc as [Hc _]. assert (Hws : word_span w) by (by eapply Forall_forall in Hc). destruct Hws as (Hr & Hin & _).
  assert (Hlen : length (word w) = (w.2 - w.1)%nat) by (unfold word; rewrite length_take, length_drop; lia).
  split.
  - intros i d Hi. pose proof (lookup_lt_Some _ _ _ Hi) as Hlt.
    assert (Hb : buf !! (w.1 + i)%nat = Some d) by (unfold word in Hi; rewrite lookup_take_lt, lookup_drop in Hi by lia; done).
    split; [|by apply (Forall_lookup_1 _ _ _ _ Hbuf Hb)].
    rewrite cut_at by (rewrite length_app; cbn; lia). case_decide as He.
    + exfalso. apply list_elem_of_fmap in He as (v & Ev & Hv). eapply Forall_forall in Hc; [|exact Hv].
      destruct Hc as (_ & _ & Hend). pose proof (Hin (w.1 + i)%nat d ltac:(lia) Hb) as H1. rewrite Ev in Hb. apply Hend in Hb. congruence.
    + rewrite lookup_app_l by lia. done.
  - rewrite Hlen. replace (w.1 + (w.2 - w.1))%nat with w.2 by lia.
    rewrite cut_at by (rewrite length_app; cbn; lia). case_decide as He; [done|]. destruct He. by apply list_elem_of_fmap_2.
Qed.
End Line.

(** With enough steps the parser returns a command that is in order, or reports
    a syntax error. *)
Lemma parsecmd_ok buf fuel : Forall (fun c => c <> 0) buf -> (5 * length buf + 5 <= fuel)%nat ->
  match parsecmd buf fuel 0%nat with
  | Ok ((c, b), s) => s = length buf /\ b = nulterminate c (buf ++ [0]) /\ cmd_ok buf c
  | Panic _ => True
  | Fault | OutOfFuel => False
  end.
Proof.
  intros Hb Hf. unfold parsecmd. assert (H : fine buf 0%nat (parseline buf fuel 0%nat) (fun c _ => cmd_ok buf c)) by (apply parse_fine; [done|lia..]).
  unfold M_bind at 1. destruct (parseline buf fuel 0%nat) as [[c s]| | |]; [|done..]. cbn in H. destruct H as [Hs Hc].
  pose proof (peek_fine buf Hb [] s ltac:(lia)) as Hp. unfold M_bind at 1. destruct (peek buf [] s) as [[b s']| | |]; [|done..].
  erewrite bind_Ok; [|reflexivity]. by destruct (Nat.eqb_spec s' (es buf)) as [->|].
Qed.
(** C36 The parser stops on every line: with five steps for each character, and
    five more, [parsecmd] returns a command or reports a syntax error; it never
    reads past the NUL, and in the buffer it leaves every argument and file
    name of the command is a C string that is the word it stands for. *)
Theorem parsecmd_total buf fuel : Forall (fun c => c <> 0) buf -> (5 * length buf + 5 <= fuel)%nat ->
  match parsecmd buf fuel 0%nat with
  | Ok ((c, b), s) => s = length buf /\ length b = S (length buf) /\
      (forall w, w ∈ cmd_words c -> (w.1 < w.2)%nat /\ string_at b w.1 (word buf w))
  | Panic _ => True
  | Fault | OutOfFuel => False
  end.
Proof.
  intros Hb Hf. pose proof (parsecmd_ok buf fuel Hb Hf) as H. destruct (parsecmd buf fuel 0%nat) as [[[c b] s]| | |]; [|done..].
  destruct H as (-> & -> & Hc). split; [done|]. split; [rewrite cut_length, length_app; cbn; lia|]. intros w Hw.
  split; [|by apply cut_words]. destruct Hc as [Hc _]. eapply Forall_forall in Hc; [|exact Hw]. by destruct Hc as [[? ?] _].
Qed.

(** The line ["a >b"]. *)
Lemma parsecmd_total_witness :
  match parsecmd [97; 32; 62; 98] 25 0%nat with
  | Ok ((c, b), s) => s = 4%nat /\ length b = 5%nat /\
      (forall w, w ∈ cmd_words c -> (w.1 < w.2)%nat /\ string_at b w.1 (word [97; 32; 62; 98] w))
  | Panic _ => True
  | Fault | OutOfFuel => False
  end.
Proof. apply (parsecmd_total [97; 32; 62; 98] 25); [by repeat constructor | cbn; lia]. Defined.
(** A redirection with [>>] is the same command as one with [>]. *)
Example append_is_truncate : parsecmd [97; 62; 62; 98] 25 0%nat =
  Ok ((REDIR (EXEC [(0, 1)%nat]) (3, 4)%nat 0x201 1, [97; 0; 62; 98; 0]), 4%nat).
Proof. reflexivity. Qed.
