(* ===== verification/ShRound.v ===== *)
(** * ShRound: commands written out parse back (src/src/sh.c)

    [show] writes a command tree as a line, with parentheses where the grammar
    needs them; the parser returns the tree. *)
From S2P Require Import Prelude.
From S2P Require Import Sh.
From S2P Require Import ShFacts.

(** Commands with their strings. *)
Inductive acmd :=
| AExec (argv : list (list Z))
| ARedir (c : acmd) (file : list Z) (mode fd : Z)
| APipe (left right : acmd)
| AList (left right : acmd)
| ABack (c : acmd).
Section Erase.
Context (buf : list Z).
Fixpoint erase (c : cmd) : acmd :=
  match c with
  | EXEC argv => AExec (word buf <$> argv)
  | REDIR c f m d => ARedir (erase c) (word buf f) m d
  | PIPE l r => APipe (erase l) (erase r)
  | LIST l r => AList (erase l) (erase r)
  | BACK c => ABack (erase c)
  end.
End Erase.

(** ** Writing a command *)
Definition parens (b : bool) (t : list Z) : list Z := if b then 40 :: t ++ [41] else t.
Definition show_word (w : list Z) : list Z := 32 :: w.
Definition show_redir (f : list Z) (d : Z) : list Z := (if d =? 0 then 60 else 62) :: 32 :: f.
(** Levels: 0 a line, 1 a line without [;], 2 a pipeline, 3 a single command. *)
Fixpoint show (lvl : nat) (c : acmd) : list Z :=
  match c with
  | AExec ws => ws ≫= show_word
  | ARedir c f _ d => show 3 c ++ show_redir f d
  | APipe l r => parens (2 <? lvl)%nat (show 3 l ++ 124 :: show 2 r)
  | AList l r => parens (0 <? lvl)%nat (show 1 l ++ 59 :: show 0 r)
  | ABack c => parens (1 <? lvl)%nat (show 1 c ++ [38])
  end.
Definition word_ok (w : list Z) : Prop := w <> [] /\ Forall (fun c => is_word c = true /\ c <> 0) w.
Fixpoint acmd_ok (c : acmd) : Prop :=
  match c with
  | AExec ws => Forall word_ok ws /\ (length ws < MAXARGS)%nat
  | ARedir c f m d => acmd_ok c /\ word_ok f /\ redir_ok m d
  | APipe l r | AList l r => acmd_ok l /\ acmd_ok r
  | ABack c => acmd_ok c
  end.

(** A span of the line that the parser accepts stands for a word. *)
Lemma word_span_ok buf w : Forall (fun c => c <> 0) buf -> word_span buf w -> word_ok (word buf w).
Proof.
  intros Hb (Hr & Hin & _). assert (Hlk : forall i c, word buf w !! i = Some c -> (i < w.2 - w.1)%nat /\ buf !! (w.1 + i)%nat = Some c).
  { unfold word. intros i c Hi. pose proof (lookup_lt_Some _ _ _ Hi) as Hlt. rewrite length_take in Hlt.
    rewrite lookup_take_lt, lookup_drop in Hi by lia. split; [lia | done]. }
  split.
  - unfold word. intros E%(f_equal length). rewrite length_take, length_drop in E. unfold es in *. cbn in *. lia.
  - apply Forall_lookup. intros i c Hi. destruct (Hlk i c Hi) as [Hlt Hc]. split; [|by apply (Forall_lookup_1 _ _ _ _ Hb Hc)].
    apply (Hin (w.1 + i)%nat c); [lia | done].
Qed.
Lemma erase_ok buf c : Forall (fun c => c <> 0) buf -> cmd_ok buf c -> acmd_ok (erase buf c).
Proof.
  intros Hb. unfold cmd_ok. induction c as [argv|c IH f m d|l IHl r IHr|l IHl r IHr|c IH]; cbn [cmd_words cmd_shape erase acmd_ok]; intros [Hw Hs].
  - rewrite length_fmap. split; [|done]. apply Forall_fmap. eapply Forall_impl; [exact Hw|]. intros w. by apply word_span_ok.
  - apply Forall_cons in Hw as [Hf Hw]. destruct Hs. split; [by apply IH|]. split; [by apply word_span_ok | done].
  - apply Forall_app in Hw as [? ?]. destruct Hs. split; [by apply IHl | by apply IHr].
  - apply Forall_app in Hw as [? ?]. destruct Hs. split; [by apply IHl | by apply IHr].
  - by apply IH.
Qed.

(** ** Text that is still to be read *)
Fixpoint strip (l : list Z) : list Z :=
  match l with [] => [] | c :: l' => if is_white c then strip l' else l end.
Lemma strip_run l : strip l = drop (run_length is_white l) l.
Proof. induction l as [|c l IH]; [done|]. cbn. by destruct (is_white c). Qed.
Lemma strip_idem l : strip (strip l) = strip l.
Proof. induction l as [|c l IH]; [done|]. cbn. destruct (is_white c) eqn:E; [done|]. cbn. by rewrite E. Qed.
(** The next character, if any, does not continue a word. *)
Definition delim (l : list Z) : Prop := match l with [] => True | c :: _ => is_word c = false end.

Section Reading.
Context (buf : list Z).
Definition here (s : nat) (l : list Z) : Prop := (s <= length buf)%nat /\ strip (drop s buf) = strip l.

Lemma skip_here s l : here s l -> here (skip buf is_white s) l /\ drop (skip buf is_white s) buf = strip l.
Proof.
  intros [Hs E]. assert (Ed : drop (skip buf is_white s) buf = strip l) by (unfold skip; by rewrite <- drop_drop, <- strip_run).
  split; [|done]. split; [by apply skip_range|]. by rewrite Ed, strip_idem.
Qed.
Lemma char_drop s l : (s <= length buf)%nat -> drop s buf = l -> forall t, char_at buf s t = Ok (match l with [] => 0 | c :: _ => c end, t).
Proof.
  intros Hs E t. unfold char_at. destruct l as [|c l].
  - apply (f_equal length) in E. rewrite length_drop in E. cbn in E. assert (s = length buf) as -> by lia.
    by rewrite lookup_app_r, Nat.sub_diag by lia.
  - assert (Hc : buf !! s = Some c) by (rewrite <- (Nat.add_0_r s), <- lookup_drop, E; done).
    rewrite lookup_app_l by (by eapply lookup_lt_Some). by rewrite Hc.
Qed.
Lemma peek_here toks s l : here s l -> exists s', here s' l /\
  peek buf toks s = Ok (match strip l with [] => false | c :: _ => negb (c =? 0) && strchr toks c end, s').
Proof.
  intros H. destruct (skip_here s l H) as [H' E]. exists (skip buf is_white s). split; [done|].
  unfold peek. do 2 (erewrite bind_Ok; [|reflexivity]). erewrite bind_Ok; [|apply (char_drop _ _ (proj1 H') E)].
  by destruct (strip l).
Qed.
(** After a token of [n] characters at the index [q]. *)
Lemma after_token q n l l' : (q <= length buf)%nat -> drop q buf = l -> drop n l = l' -> (n <= length l)%nat ->
  here (skip buf is_white (q + n)) l'.
Proof.
  intros Hq E Hn Hlen. assert (H : here (q + n) l').
  { split; [rewrite <- E, length_drop in Hlen; lia|]. by rewrite <- drop_drop, E, Hn. }
  by apply skip_here.
Qed.
Lemma symbol_here s c l : here s (c :: l) -> c ∈ [124; 40; 41; 59; 38; 60] ->
  exists s' w, here s' l /\ gettoken buf s = Ok ((c, w), s').
Proof.
  intros H Hc. destruct (skip_here s _ H) as [[Hq _] E]. set (q := skip buf is_white s) in *.
  assert (Es : strip (c :: l) = c :: l) by (cbn; assert (is_white c = false) as -> by (rewrite !elem_of_cons in Hc; destruct_or! Hc; subst; done || by apply elem_of_nil in Hc); done).
  rewrite Es in E. pose proof (char_drop q _ Hq E) as Ec. cbv iota in Ec.
  unfold gettoken. erewrite bind_Ok; [|reflexivity]. fold q. erewrite bind_Ok; [|apply Ec].
  exists (skip buf is_white (q + 1)), (q, S q). split; [by apply (after_token q 1 (c :: l)); [| |done|cbn; lia]|].
  rewrite Nat.add_1_r.
  rewrite !elem_of_cons in Hc. destruct_or! Hc; subst; reflexivity || by apply elem_of_nil in Hc.
Qed.
Lemma greater_here s l : here s (62 :: 32 :: l) -> exists s' w, here s' l /\ gettoken buf s = Ok ((62, w), s').
Proof.
  intros H. destruct (skip_here s _ H) as [[Hq _] E]. set (q := skip buf is_white s) in *.
  change (strip (62 :: 32 :: l)) with (62 :: 32 :: l) in E. pose proof (char_drop q _ Hq E) as Ec. cbv iota in Ec.
  assert (E2 : drop (S q) buf = 32 :: l) by (rewrite <- Nat.add_1_r, <- drop_drop, E; done).
  assert (Hq2 : (S q <= length buf)%nat) by (apply (f_equal length) in E; rewrite length_drop in E; cbn in E; lia).
  pose proof (char_drop (S q) _ Hq2 E2) as Ed. cbv iota in Ed.
  unfold gettoken. erewrite bind_Ok; [|reflexivity]. fold q. erewrite bind_Ok; [|apply Ec].
  assert (Eg : forall t, (d <- char_at buf (S q) ;; if d =? 62 then ret (43, S (S q)) else ret (62, S q)) t = Ok ((62, S q), t)).
  { intros t. erewrite bind_Ok; [|apply Ed]. done. }
  erewrite bind_Ok; [|apply Eg].
  exists (skip buf is_white (q + 1)), (q, S q). rewrite Nat.add_1_r. split; [|done].
  assert (Hh : here (S q) (32 :: l)) by (split; [done|by rewrite E2]). apply skip_here. destruct Hh as [? Hh]. split; done.
Qed.
Lemma run_word w l : Forall (fun c => is_word c = true /\ c <> 0) w -> delim l -> run_length is_word (w ++ l) = length w.
Proof.
  intros Hw Hl. induction Hw as [|c w [Hc _] _ IH]; cbn.
  - destruct l as [|d l]; [done|]. cbn in *. by rewrite Hl.
  - by rewrite Hc, IH.
Qed.
Lemma word_here s w l : here s (w ++ l) -> word_ok w -> delim l ->
  exists s' q, here s' l /\ gettoken buf s = Ok ((97, q), s') /\ word buf q = w.
Proof.
  intros H [Hne Hw] Hl. destruct (skip_here s _ H) as [[Hq _] E]. set (q := skip buf is_white s) in *.
  destruct w as [|c w]; [done|]. assert (Hc : is_word c = true /\ c <> 0) by (by inversion Hw). destruct Hc as [Hc Hc0].
  pose proof Hc as Hsym. unfold is_word in Hsym. apply andb_true_iff in Hsym as [Hwh Hsy].
  apply negb_true_iff in Hwh, Hsy. cbn [app strip] in E. unfold is_white in E. rewrite Hwh in E.
  pose proof (char_drop q _ Hq E) as Ec. cbv iota in Ec.
  unfold gettoken. erewrite bind_Ok; [|reflexivity]. fold q. erewrite bind_Ok; [|apply Ec].
  assert (Hneq : forall x, strchr symbols x = true -> (c =? x) = false).
  { intros x Hx. apply Z.eqb_neq. intros ->. congruence. }
  destruct (Z.eqb_spec c 0); [done|]. rewrite !Hneq by reflexivity. cbn [orb].
  erewrite bind_Ok; [|reflexivity].
  assert (Esk : skip buf is_word q = (q + length (c :: w))%nat).
  { unfold skip. rewrite E, app_comm_cons. by rewrite (run_word (c :: w) l) by done. }
  rewrite Esk. exists (skip buf is_white (q + length (c :: w))), (q, (q + length (c :: w))%nat). split; [|split; [done|]].
  - apply (after_token q (length (c :: w)) (c :: w ++ l)); [done|done| |rewrite app_comm_cons, length_app; lia].
    by rewrite app_comm_cons, drop_app_length.
  - unfold word. cbn [fst snd]. rewrite E. replace (q + length (c :: w) - q)%nat with (length (c :: w)) by lia.
    by rewrite app_comm_cons, take_app_length.
Qed.
Lemma end_here s : here s [] -> exists s' w, here s' [] /\ gettoken buf s = Ok ((0, w), s').
Proof.
  intros H. destruct (skip_here s _ H) as [[Hq Hd] E]. set (q := skip buf is_white s) in *.
  cbn [strip] in E. pose proof (char_drop q _ Hq E) as Ec. cbv iota in Ec.
  unfold gettoken. erewrite bind_Ok; [|reflexivity]. fold q. erewrite bind_Ok; [|apply Ec].
  exists (skip buf is_white q), (q, q). split; [|done]. apply skip_here. split; [done|by rewrite E].
Qed.

(** ** Running with enough steps *)
Definition runs {A} (c : nat -> P A) (s : nat) (a : A) (s' : nat) : Prop :=
  exists F, forall fuel, (F <= fuel)%nat -> c fuel s = Ok (a, s').
Lemma runs_bind {A B} (c : nat -> P A) (k : nat -> A -> P B) s a s1 b s2 :
  runs c s a s1 -> runs (fun f => k f a) s1 b s2 -> runs (fun f => M_bind (c f) (k f)) s b s2.
Proof.
  intros [F1 H1] [F2 H2]. exists (F1 + F2)%nat. intros fuel Hf. erewrite bind_Ok; [|apply H1; lia]. apply H2. lia.
Qed.
Lemma runs_now {A B} (c : P A) (k : nat -> A -> P B) s a s1 b s2 :
  c s = Ok (a, s1) -> runs (fun f => k f a) s1 b s2 -> runs (fun f => M_bind c (k f)) s b s2.
Proof. intros H1 [F2 H2]. exists F2. intros fuel Hf. erewrite bind_Ok; [|exact H1]. by apply H2. Qed.
Lemma runs_ret {A} (a : A) s : runs (fun _ => ret a) s a s.
Proof. by exists O. Qed.
Lemma runs_S {A} (c body : nat -> P A) s a s' : (forall f, c (S f) = body f) -> runs body s a s' -> runs c s a s'.
Proof. intros Hc [F H]. exists (S F). intros [|fuel] Hf; [lia|]. rewrite Hc. apply H. lia. Qed.

(** What may follow. *)
Definition stops (set l : list Z) : Prop := match l with [] => True | c :: _ => c ∈ set end.
Definition after3 : list Z := [124; 41; 38; 59].
Definition after2 : list Z := [41; 38; 59].
Definition after1 : list Z := [41; 59].
Definition after0 : list Z := [41].
Lemma stops_weaken (s1 s2 l : list Z) : s1 ⊆ s2 -> stops s1 l -> stops s2 l.
Proof. destruct l; cbn; auto. Qed.
(** [peek] at a symbol, or at the end. *)
Lemma peek_stop set toks s l : here s l -> stops set l -> set ⊆ after3 -> exists s',
  here s' l /\ peek buf toks s = Ok (match l with [] => false | c :: _ => strchr toks c end, s').
Proof.
  intros H Hl Hset. destruct (peek_here toks s l H) as (s' & H' & E). exists s'. split; [done|]. rewrite E.
  destruct l as [|c l]; [done|]. cbn in Hl. apply Hset in Hl. unfold after3 in Hl. rewrite !elem_of_cons in Hl.
  destruct_or! Hl; subst; try reflexivity. by apply elem_of_nil in Hl.
Qed.
Lemma peek_symbol toks s c l : here s (c :: l) -> strchr symbols c = true -> exists s',
  here s' (c :: l) /\ peek buf toks s = Ok (strchr toks c, s').
Proof.
  intros H Hc. destruct (peek_here toks s _ H) as (s' & H' & E). exists s'. split; [done|]. rewrite E.
  apply bool_decide_eq_true in Hc. unfold symbols in Hc. rewrite !elem_of_cons in Hc.
  destruct_or! Hc; subst; try reflexivity. by apply elem_of_nil in Hc.
Qed.
Lemma peek_word toks s w l : here s (w ++ l) -> word_ok w -> toks ⊆ symbols -> exists s',
  here s' (w ++ l) /\ peek buf toks s = Ok (false, s').
Proof.
  intros H [Hne Hw] Ht. destruct (peek_here toks s _ H) as (s' & H' & E). exists s'. split; [done|]. rewrite E.
  destruct w as [|c w]; [done|]. inversion_clear Hw as [|? ? [Hc Hc0] _]. cbn [app strip].
  unfold is_word in Hc. apply andb_true_iff in Hc as [Hwh Hsy]. apply negb_true_iff in Hwh, Hsy.
  unfold is_white. rewrite Hwh. destruct (Z.eqb_spec c 0); [done|]. cbn [negb andb].
  assert (strchr toks c = false) as ->; [|done]. apply bool_decide_eq_false in Hsy. apply bool_decide_eq_false. auto.
Qed.
Lemma stops_delim set l : set ⊆ after3 -> stops set l -> delim l.
Proof.
  intros Hset Hl. destruct l as [|c l]; [done|]. cbn in *. apply Hset in Hl. unfold after3 in Hl. rewrite !elem_of_cons in Hl.
  destruct_or! Hl; subst; try reflexivity. by apply elem_of_nil in Hl.
Qed.

(** ** Redirections *)
Abbreviation aredir := (list Z * Z * Z)%type.
Definition erase_r (r : redir) : aredir := (word buf r.1.1, r.1.2, r.2).
Definition aredir_ok (r : aredir) : Prop := word_ok r.1.1 /\ redir_ok r.1.2 r.2.
Definition show_rs (l : list aredir) : list Z := l ≫= (fun r => show_redir r.1.1 r.2).
Lemma show_rs_delim l rest : delim rest -> delim (show_rs l ++ rest).
Proof. intros H. destruct l as [|r l]; [done|]. unfold show_rs. rewrite bind_cons. unfold show_redir. cbn. by destruct (r.2 =? 0). Qed.
Lemma redirs_run l : forall rs0 rest s, Forall aredir_ok l -> stops after3 rest -> here s (show_rs l ++ rest) ->
  exists rs s', runs (fun f => parseredirs buf f rs0) s (rs0 ++ rs) s' /\ here s' rest /\ erase_r <$> rs = l.
Proof.
  induction l as [|[[w m] d] l IH]; intros rs0 rest s Hok Hst H.
  - cbn in H. destruct (peek_stop after3 [60; 62] s rest H Hst ltac:(done)) as (s1 & H1 & E1).
    exists [], s1. rewrite app_nil_r. split; [|done]. eapply runs_S; [reflexivity|]. cbn beta. eapply runs_now; [exact E1|].
    assert ((match rest with [] => false | c :: _ => strchr [60; 62] c end) = false) as ->; [|apply runs_ret].
    destruct rest as [|c rest]; [done|]. cbn in Hst. unfold after3 in Hst. rewrite !elem_of_cons in Hst.
    destruct_or! Hst; subst; try reflexivity. by apply elem_of_nil in Hst.
  - inversion_clear Hok as [|? ? [Hw Hm] Hok']. cbn [fst snd] in Hw, Hm. unfold show_rs in H. rewrite bind_cons in H.
    fold (show_rs l) in H. unfold show_redir in H. cbn [fst snd] in H. rewrite <- app_assoc in H. cbn [app] in H.
    set (tok := if d =? 0 then 60 else 62) in *.
    destruct (peek_symbol [60; 62] s tok _ H) as (s1 & H1 & E1); [unfold tok; by destruct (d =? 0)|].
    assert (Ht : exists s2 v, here s2 (w ++ show_rs l ++ rest) /\ gettoken buf s1 = Ok ((tok, v), s2)).
    { unfold tok in *. destruct (d =? 0); [|by apply greater_here].
      destruct (symbol_here s1 60 _ H1) as (s2 & v & H2 & E2); [set_solver|]. exists s2, v. split; [|done].
      destruct H2 as [H2 E]. split; [done|]. by rewrite E. }
    destruct Ht as (s2 & v & H2 & E2).
    destruct (word_here s2 w _ H2 Hw) as (s3 & q & H3 & E3 & Eq).
    { apply show_rs_delim. by apply (stops_delim after3). }
    destruct (IH (rs0 ++ [(q, m, d)]) rest s3 Hok' Hst H3) as (rs & s4 & R4 & H4 & Er).
    exists ((q, m, d) :: rs), s4. split; [|split; [done|]].
    + eapply runs_S; [reflexivity|]. cbn beta. eapply runs_now; [exact E1|].
      replace (strchr [60; 62] tok) with true by (unfold tok; by destruct (d =? 0)).
      eapply runs_now; [exact E2|]. eapply runs_now; [exact E3|]. cbn [fst snd Z.eqb Pos.eqb negb].
      rewrite <- app_assoc in R4. cbn [app] in R4. unfold tok. destruct Hm as [[-> ->]|[-> ->]]; exact R4.
    + rewrite fmap_cons, Er. unfold erase_r at 1. cbn [fst snd]. by rewrite Eq.
Qed.

(** ** Arguments *)
Definition show_ws (ws : list (list Z)) : list Z := ws ≫= show_word.
Lemma args_stop argv rs0 rest s : stops after3 rest -> here s rest -> exists s',
  runs (fun f => exec_args buf f argv rs0) s (argv, rs0) s' /\ here s' rest.
Proof.
  intros Hst H. destruct (peek_stop after3 after3 s rest H Hst ltac:(done)) as (s1 & H1 & E1).
  destruct rest as [|c rest].
  - destruct (end_here s1 H1) as (s2 & v & H2 & E2). exists s2. split; [|done]. eapply runs_S; [reflexivity|]. cbn beta.
    eapply runs_now; [exact E1|]. eapply runs_now; [exact E2|]. apply runs_ret.
  - exists s1. split; [|done]. eapply runs_S; [reflexivity|]. cbn beta. eapply runs_now; [exact E1|].
    cbn in Hst. unfold strchr. rewrite bool_decide_eq_true_2 by done. apply runs_ret.
Qed.
Lemma args_run ws : forall argv rs0 l rest s, ws <> [] -> Forall word_ok ws -> (length argv + length ws < MAXARGS)%nat ->
  Forall aredir_ok l -> stops after3 rest -> here s (show_ws ws ++ show_rs l ++ rest) ->
  exists qs rs s', runs (fun f => exec_args buf f argv rs0) s (argv ++ qs, rs0 ++ rs) s' /\ here s' rest /\
    word buf <$> qs = ws /\ erase_r <$> rs = l.
Proof.
  induction ws as [|w ws IH]; intros argv rs0 l rest s Hne Hws Hmax Hl Hst H; [done|].
  inversion_clear Hws as [|? ? Hw Hws']. unfold show_ws in H. rewrite bind_cons in H. fold (show_ws ws) in H.
  unfold show_word in H. rewrite <- app_assoc in H. cbn [app] in H.
  assert (H0 : here s (w ++ show_ws ws ++ show_rs l ++ rest)) by (destruct H as [? E]; split; [done|by rewrite E]).
  destruct (peek_word after3 s w _ H0 Hw) as (s1 & H1 & E1); [unfold after3, symbols; set_solver|].
  destruct (word_here s1 w _ H1 Hw) as (s2 & q & H2 & E2 & Eq).
  { destruct ws; [|done]. cbn [show_ws mbind list_bind app]. apply show_rs_delim. by apply (stops_delim after3). }
  cbn [length] in Hmax. assert (Hm : (MAXARGS <=? length (argv ++ [q]))%nat = false).
  { apply Nat.leb_gt. rewrite length_app. cbn [length]. lia. }
  destruct (decide (ws = [])) as [->|Hne'].
  - cbn [show_ws mbind list_bind app] in H2.
    destruct (redirs_run l rs0 rest s2 Hl Hst H2) as (rs & s3 & R3 & H3 & Er).
    destruct (args_stop (argv ++ [q]) (rs0 ++ rs) rest s3 Hst H3) as (s4 & R4 & H4).
    exists [q], rs, s4. split; [|split; [done|split; [cbn; by rewrite Eq|done]]].
    eapply runs_S; [reflexivity|]. cbn beta. eapply runs_now; [exact E1|]. eapply runs_now; [exact E2|].
    cbn [fst snd Z.eqb Pos.eqb negb]. rewrite Hm. eapply runs_bind; [exact R3|]. exact R4.
  - destruct ws as [|w' ws]; [done|]. assert (Hw' : word_ok w') by (by inversion Hws').
    assert (H2' : here s2 (w' ++ show_ws ws ++ show_rs l ++ rest)).
    { unfold show_ws in H2. rewrite bind_cons in H2. unfold show_word in H2. rewrite <- app_assoc in H2. cbn [app] in H2.
      destruct H2 as [? E]. split; [done|by rewrite E]. }
    destruct (peek_word [60; 62] s2 w' _ H2' Hw') as (s3 & H3' & E3); [unfold symbols; set_solver|].
    assert (H3 : here s3 (show_ws (w' :: ws) ++ show_rs l ++ rest)).
    { unfold show_ws. rewrite bind_cons. unfold show_word at 1. rewrite <- app_assoc. cbn [app].
      destruct H3' as [? E]. split; [done|by rewrite E]. }
    destruct (IH (argv ++ [q]) rs0 l rest s3) as (qs & rs & s4 & R4 & H4 & Eqs & Er); try done.
    { rewrite length_app. cbn [length] in *. lia. }
    exists (q :: qs), rs, s4. split; [|split; [done|split; [rewrite fmap_cons, Eqs, Eq; done|done]]].
    eapply runs_S; [reflexivity|]. cbn beta. eapply runs_now; [exact E1|]. eapply runs_now; [exact E2|].
    cbn [fst snd Z.eqb Pos.eqb negb]. rewrite Hm. rewrite <- app_assoc in R4. cbn [app] in R4.
    eapply runs_bind; [|exact R4]. eapply runs_S; [reflexivity|]. cbn beta. eapply runs_now; [exact E3|]. apply runs_ret.
Qed.

(** ** Commands *)
Definition awrap (c : acmd) (l : list aredir) : acmd := fold_left (fun c r => ARedir c r.1.1 r.1.2 r.2) l c.
Lemma erase_wrap c rs : erase buf (wrap c rs) = awrap (erase buf c) (erase_r <$> rs).
Proof. revert c. induction rs as [|r rs IH]; intros c; [done|]. apply (IH (REDIR c r.1.1 r.1.2 r.2)). Qed.
Fixpoint backs (k : nat) (c : acmd) : acmd := match k with O => c | S k => backs k (ABack c) end.

Definition reads3 (c : acmd) : Prop := forall l rest s, Forall aredir_ok l -> stops after3 rest ->
  here s (show 3 c ++ show_rs l ++ rest) ->
  exists c' s', runs (parseexec buf) s c' s' /\ here s' rest /\ erase buf c' = awrap c l.
Definition reads2 (c : acmd) : Prop := forall rest s, stops after2 rest -> here s (show 2 c ++ rest) ->
  exists c' s', runs (parsepipe buf) s c' s' /\ here s' rest /\ erase buf c' = c.
Definition reads1 (c : acmd) : Prop := forall k rest s, stops after1 rest -> here s (show 1 c ++ replicate k 38 ++ rest) ->
  exists c1 s1 c2 s2, runs (parsepipe buf) s c1 s1 /\ runs (fun f => back_loop buf f c1) s1 c2 s2 /\
    here s2 rest /\ erase buf c2 = backs k c.
Definition reads0 (c : acmd) : Prop := forall rest s, stops after0 rest -> here s (show 0 c ++ rest) ->
  exists c' s', runs (parseline buf) s c' s' /\ here s' rest /\ erase buf c' = c.

Lemma stop_not set toks l : stops set l -> (forall c, c ∈ set -> strchr toks c = false) ->
  (match l with [] => false | c :: _ => strchr toks c end) = false.
Proof. destruct l; cbn; auto. Qed.
Ltac in_stops := let c := fresh in let H := fresh in intros c H; unfold after0, after1, after2 in H;
  rewrite ?elem_of_cons in H; destruct_or! H; subst; try reflexivity; by apply elem_of_nil in H.

(** From a level to the next where both write the same. *)
Lemma reads3_2 c : show 2 c = show 3 c -> reads3 c -> reads2 c.
Proof.
  intros E R rest s Hst H. rewrite E in H. destruct (R [] rest s) as (c' & s1 & R1 & H1 & Ec); [constructor| |done|].
  { eapply stops_weaken; [|exact Hst]. unfold after2, after3. set_solver. }
  destruct (peek_stop after2 [124] s1 rest H1 Hst) as (s2 & H2 & E2); [unfold after2, after3; set_solver|].
  exists c', s2. split; [|done]. eapply runs_S; [reflexivity|]. cbn beta. eapply runs_bind; [exact R1|].
  eapply runs_now; [exact E2|]. rewrite (stop_not after2) by (done || in_stops). apply runs_ret.
Qed.
Lemma back_run k : forall c rest s, stops after1 rest -> here s (replicate k 38 ++ rest) ->
  exists c' s', runs (fun f => back_loop buf f c) s c' s' /\ here s' rest /\ erase buf c' = backs k (erase buf c).
Proof.
  induction k as [|k IH]; intros c rest s Hst H; cbn [replicate app] in H.
  - destruct (peek_stop after1 [38] s rest H Hst) as (s1 & H1 & E1); [unfold after1, after3; set_solver|].
    exists c, s1. split; [|done]. eapply runs_S; [reflexivity|]. cbn beta. eapply runs_now; [exact E1|].
    rewrite (stop_not after1) by (done || in_stops). apply runs_ret.
  - destruct (peek_symbol [38] s 38 _ H) as (s1 & H1 & E1); [done|].
    destruct (symbol_here s1 38 _ H1) as (s2 & v & H2 & E2); [set_solver|].
    destruct (IH (BACK c) rest s2 Hst H2) as (c' & s3 & R3 & H3 & Ec). exists c', s3. split; [|done].
    eapply runs_S; [reflexivity|]. cbn beta. eapply runs_now; [exact E1|]. eapply runs_now; [exact E2|]. exact R3.
Qed.
Lemma reads2_1 c : show 1 c = show 2 c -> reads2 c -> reads1 c.
Proof.
  intros E R k rest s Hst H. rewrite E in H. destruct (R (replicate k 38 ++ rest) s) as (c1 & s1 & R1 & H1 & Ec); [|done|].
  { destruct k; cbn; [|unfold after2; set_solver]. eapply stops_weaken; [|exact Hst]. unfold after1, after2. set_solver. }
  destruct (back_run k c1 rest s1 Hst H1) as (c2 & s2 & R2 & H2 & Ec2). rewrite Ec in Ec2. by exists c1, s1, c2, s2.
Qed.
Lemma reads1_0 c : show 0 c = show 1 c -> reads1 c -> reads0 c.
Proof.
  intros E R rest s Hst H. rewrite E in H. destruct (R O rest s) as (c1 & s1 & c2 & s2 & R1 & R2 & H2 & Ec); [|done|].
  { eapply stops_weaken; [|exact Hst]. unfold after0, after1. set_solver. }
  destruct (peek_stop after0 [59] s2 rest H2 Hst) as (s3 & H3 & E3); [unfold after0, after3; set_solver|].
  exists c2, s3. split; [|done]. eapply runs_S; [reflexivity|]. cbn beta. eapply runs_bind; [exact R1|].
  eapply runs_bind; [exact R2|]. eapply runs_now; [exact E3|]. rewrite (stop_not after0) by (done || in_stops). apply runs_ret.
Qed.
(** A command in parentheses. *)
Lemma block_reads c : show 3 c = 40 :: show 0 c ++ [41] -> reads0 c -> reads3 c.
Proof.
  intros E R l rest s Hl Hst H. rewrite E in H. cbn [app] in H. rewrite <- app_assoc in H. cbn [app] in H.
  destruct (peek_symbol [40] s 40 _ H) as (s1 & H1 & E1); [done|].
  destruct (peek_symbol [40] s1 40 _ H1) as (s1' & H1' & E1'); [done|].
  destruct (symbol_here s1' 40 _ H1') as (s2 & v & H2 & E2); [set_solver|].
  destruct (R (41 :: show_rs l ++ rest) s2) as (c' & s3 & R3 & H3 & Ec); [cbn; unfold after0; set_solver|done|].
  destruct (peek_symbol [41] s3 41 _ H3) as (s4 & H4 & E4); [done|].
  destruct (symbol_here s4 41 _ H4) as (s5 & v' & H5 & E5); [set_solver|].
  destruct (redirs_run l [] rest s5 Hl Hst H5) as (rs & s6 & R6 & H6 & Er).
  exists (wrap c' rs), s6. split; [|split; [done|by rewrite erase_wrap, Er, Ec]].
  eapply runs_S; [reflexivity|]. cbn beta. eapply runs_now; [exact E1|].
  eapply runs_S; [reflexivity|]. cbn beta. eapply runs_now; [exact E1'|]. cbn [strchr]. eapply runs_now; [exact E2|].
  eapply runs_bind; [exact R3|]. eapply runs_now; [exact E4|]. eapply runs_now; [exact E5|].
  eapply runs_bind; [exact R6|]. apply runs_ret.
Qed.
Lemma exec_reads ws : Forall word_ok ws -> (length ws < MAXARGS)%nat -> reads3 (AExec ws).
Proof.
  intros Hws Hmax l rest s Hl Hst H. cbn [show] in H. fold (show_ws ws) in H.
  destruct (decide (ws = [])) as [->|Hne].
  - cbn [show_ws mbind list_bind app] in H.
    assert (Hp : exists s1, here s1 (show_rs l ++ rest) /\ peek buf [40] s = Ok (false, s1)).
    { destruct l as [|[[w m] d] l].
      - destruct (peek_stop after3 [40] s rest H Hst ltac:(done)) as (s1 & H1 & E1). exists s1. split; [done|]. rewrite E1.
        do 2 f_equal. destruct rest as [|c rest]; [done|]. cbn in Hst. unfold after3 in Hst. rewrite !elem_of_cons in Hst.
        destruct_or! Hst; subst; try reflexivity. by apply elem_of_nil in Hst.
      - unfold show_rs in H. rewrite bind_cons in H. unfold show_redir in H. cbn [fst snd app] in H.
        destruct (peek_symbol [40] s _ _ H) as (s1 & H1 & E1); [by destruct (d =? 0)|]. exists s1. split.
        + unfold show_rs. rewrite bind_cons. exact H1.
        + rewrite E1. by destruct (d =? 0). }
    destruct Hp as (s1 & H1 & E1). destruct (redirs_run l [] rest s1 Hl Hst H1) as (rs & s2 & R2 & H2 & Er).
    destruct (args_stop [] rs rest s2 Hst H2) as (s3 & R3 & H3).
    exists (wrap (EXEC []) rs), s3. split; [|split; [done|by rewrite erase_wrap, Er]].
    eapply runs_S; [reflexivity|]. cbn beta. eapply runs_now; [exact E1|]. eapply runs_bind; [exact R2|].
    eapply runs_bind; [exact R3|]. apply runs_ret.
  - destruct ws as [|w ws]; [done|]. assert (Hw : word_ok w) by (by inversion Hws).
    assert (Hin : forall s, here s (show_ws (w :: ws) ++ show_rs l ++ rest) <-> here s (w ++ show_ws ws ++ show_rs l ++ rest)).
    { intros s0. unfold show_ws. rewrite bind_cons. unfold show_word at 1. rewrite <- app_assoc. done. }
    apply Hin in H. destruct (peek_word [40] s w _ H Hw) as (s1 & H1 & E1); [unfold symbols; set_solver|].
    destruct (peek_word [60; 62] s1 w _ H1 Hw) as (s2 & H2 & E2); [unfold symbols; set_solver|]. apply Hin in H2.
    destruct (args_run (w :: ws) [] [] l rest s2) as (qs & rs & s3 & R3 & H3 & Eq & Er); try done.
    exists (wrap (EXEC qs) rs), s3. split; [|split; [done|by rewrite erase_wrap, Er; cbn; rewrite Eq]].
    eapply runs_S; [reflexivity|]. cbn beta. eapply runs_now; [exact E1|].
    eapply runs_bind; [eapply runs_S; [reflexivity|]; cbn beta; eapply runs_now; [exact E2|]; apply runs_ret|].
    eapply runs_bind; [exact R3|]. apply runs_ret.
Qed.

Lemma reads_all c : acmd_ok c -> reads3 c /\ reads2 c /\ reads1 c /\ reads0 c.
Proof.
  induction c as [ws|c IH f m d|l IHl r IHr|l IHl r IHr|c IH]; cbn [acmd_ok].
  - intros [Hws Hmax]. assert (R3 : reads3 (AExec ws)) by (by apply exec_reads).
    assert (R2 : reads2 (AExec ws)) by (by apply reads3_2). assert (R1 : reads1 (AExec ws)) by (by apply reads2_1).
    split; [done|]. split; [done|]. split; [done|]. by apply reads1_0.
  - intros (Hc & Hf & Hm). destruct (IH Hc) as (R & _). assert (R3 : reads3 (ARedir c f m d)).
    { intros l rest s Hl Hst H. destruct (R ((f, m, d) :: l) rest s) as (c' & s' & H'); [by constructor|done| |by exists c', s'].
      cbn [show] in H. unfold show_rs. rewrite bind_cons. cbn [fst snd]. by rewrite <- !app_assoc in *. }
    assert (R2 : reads2 (ARedir c f m d)) by (by apply reads3_2). assert (R1 : reads1 (ARedir c f m d)) by (by apply reads2_1).
    split; [done|]. split; [done|]. split; [done|]. by apply reads1_0.
  - intros [Hl Hr]. destruct (IHl Hl) as (L3 & _). destruct (IHr Hr) as (_ & Rr2 & _). assert (R2 : reads2 (APipe l r)).
    { intros rest s Hst H. cbn [show parens Nat.ltb Nat.leb] in H. rewrite <- app_assoc in H. cbn [app] in H.
      destruct (L3 [] (124 :: show 2 r ++ rest) s) as (c1 & s1 & R1 & H1 & E1); [constructor|cbn; unfold after3; set_solver|done|].
      destruct (peek_symbol [124] s1 124 _ H1) as (s2 & H2 & E2); [done|].
      destruct (symbol_here s2 124 _ H2) as (s3 & v & H3 & E3); [set_solver|].
      destruct (Rr2 rest s3 Hst H3) as (c2 & s4 & R4 & H4 & E4). exists (PIPE c1 c2), s4.
      split; [|split; [done|cbn; by rewrite E1, E4]]. eapply runs_S; [reflexivity|]. cbn beta. eapply runs_bind; [exact R1|].
      eapply runs_now; [exact E2|]. eapply runs_now; [exact E3|]. eapply runs_bind; [exact R4|]. apply runs_ret. }
    assert (R1 : reads1 (APipe l r)) by (by apply reads2_1). assert (R0 : reads0 (APipe l r)) by (by apply reads1_0).
    split; [by apply block_reads|]. done.
  - intros [Hl Hr]. destruct (IHl Hl) as (_ & _ & L1 & _). destruct (IHr Hr) as (_ & _ & _ & Rr0). assert (R0 : reads0 (AList l r)).
    { intros rest s Hst H. cbn [show parens Nat.ltb Nat.leb] in H. rewrite <- app_assoc in H. cbn [app] in H.
      destruct (L1 O (59 :: show 0 r ++ rest) s) as (c1 & s1 & c2 & s2 & R1 & R2 & H2 & E2); [cbn; unfold after1; set_solver|done|].
      destruct (peek_symbol [59] s2 59 _ H2) as (s3 & H3 & E3); [done|].
      destruct (symbol_here s3 59 _ H3) as (s4 & v & H4 & E4); [set_solver|].
      destruct (Rr0 rest s4 Hst H4) as (c3 & s5 & R5 & H5 & E5). exists (LIST c2 c3), s5.
      split; [|split; [done|cbn in *; by rewrite E2, E5]]. eapply runs_S; [reflexivity|]. cbn beta. eapply runs_bind; [exact R1|].
      eapply runs_bind; [exact R2|]. eapply runs_now; [exact E3|]. eapply runs_now; [exact E4|].
      eapply runs_bind; [exact R5|]. apply runs_ret. }
    assert (R3 : reads3 (AList l r)) by (by apply block_reads). assert (R2 : reads2 (AList l r)) by (by apply reads3_2).
    split; [done|]. split; [done|]. split; [by apply reads2_1|done].
  - intros Hc. destruct (IH Hc) as (_ & _ & C1 & _). assert (R1 : reads1 (ABack c)).
    { intros k rest s Hst H. cbn [show parens Nat.ltb Nat.leb] in H.
      destruct (C1 (S k) rest s Hst) as (c1 & s1 & c2 & s2 & H'); [|by exists c1, s1, c2, s2].
      cbn [replicate app]. by rewrite <- app_assoc in H. }
    assert (R0 : reads0 (ABack c)) by (by apply reads1_0). assert (R3 : reads3 (ABack c)) by (by apply block_reads).
    split; [done|]. split; [by apply reads3_2|]. done.
Qed.
End Reading.

(** ** More steps change nothing *)
Definition le_out {A} (o o' : outcome A) : Prop := o = OutOfFuel \/ o = o'.
Lemma le_refl {A} (o : outcome A) : le_out o o.
Proof. by right. Qed.
Lemma le_bind {A B} (c c' : P A) (k k' : A -> P B) s :
  le_out (c s) (c' s) -> (forall a s, le_out (k a s) (k' a s)) -> le_out (M_bind c k s) (M_bind c' k' s).
Proof.
  intros [H|H] Hk; unfold M_bind; rewrite H; [by left|]. destruct (c' s) as [[a s']| | |]; [apply Hk | by right..].
Qed.
Create HintDb fuel_db.
#[local] Hint Resolve le_refl le_bind : fuel_db.
Ltac fuel_steps IH :=
  repeat (apply le_bind; [first [apply le_refl | apply IH | eauto with fuel_db] | intros]);
  repeat match goal with |- context [if ?b then _ else _] => destruct b end;
  repeat (apply le_bind; [first [apply le_refl | apply IH | eauto with fuel_db] | intros]);
  repeat match goal with |- context [if ?b then _ else _] => destruct b end;
  first [apply le_refl | apply IH | by left | idtac].

Section More.
Context (buf : list Z).
Lemma parseredirs_more f : forall rs s, le_out (parseredirs buf f rs s) (parseredirs buf (S f) rs s).
Proof.
  induction f as [|f IH]; intros rs s; [by left|]. cbn [parseredirs]. fuel_steps IH.
Qed.
#[local] Hint Resolve parseredirs_more : fuel_db.
Lemma exec_args_more f : forall argv rs s, le_out (exec_args buf f argv rs s) (exec_args buf (S f) argv rs s).
Proof.
  induction f as [|f IH]; intros argv rs s; [by left|]. cbn [exec_args]. fuel_steps IH. fuel_steps IH.
Qed.
Lemma back_loop_more f : forall c s, le_out (back_loop buf f c s) (back_loop buf (S f) c s).
Proof. induction f as [|f IH]; intros c s; [by left|]. cbn [back_loop]. fuel_steps IH. Qed.
#[local] Hint Resolve exec_args_more back_loop_more : fuel_db.
Lemma parse_more f : forall s,
  le_out (parseline buf f s) (parseline buf (S f) s) /\ le_out (parsepipe buf f s) (parsepipe buf (S f) s) /\
  le_out (parseexec buf f s) (parseexec buf (S f) s) /\ le_out (parseblock buf f s) (parseblock buf (S f) s).
Proof.
  induction f as [|f IH]; intros s; [repeat split; by left|].
  split; [|split; [|split]]; cbn [parseline parsepipe parseexec parseblock]; fuel_steps IH; fuel_steps IH.
Qed.
Lemma parseline_more f f' s c s' : (f <= f')%nat -> parseline buf f s <> OutOfFuel ->
  parseline buf f' s = Ok (c, s') -> parseline buf f s = Ok (c, s').
Proof.
  intros Hf Hne. induction Hf as [|f' Hf IH]; [done|]. intros E. apply IH.
  destruct (proj1 (parse_more f' s)) as [H|H]; [|congruence]. exfalso. apply Hne. clear - H Hf.
  induction Hf as [|f' Hf IH]; [done|]. apply IH. destruct (proj1 (parse_more f' s)); congruence.
Qed.
End More.

(** The line has no NUL. *)
Lemma show_nonzero c : forall lvl, acmd_ok c -> Forall (fun d => d <> 0) (show lvl c).
Proof.
  assert (Hw : forall w, word_ok w -> Forall (fun d => d <> 0) w).
  { intros w [_ H]. eapply Forall_impl; [exact H|]. by intros d [_ ?]. }
  assert (Hp : forall b t, Forall (fun d => d <> 0) t -> Forall (fun d => d <> 0) (parens b t)).
  { intros b t Ht. destruct b; [|done]. constructor; [done|]. apply Forall_app. by repeat constructor. }
  induction c as [ws|c IH f m d|l IHl r IHr|l IHl r IHr|c IH]; intros lvl; cbn [acmd_ok show].
  - intros [H _]. induction H as [|w ws Hw' _ IH]; [constructor|]. rewrite bind_cons. constructor; [done|].
    apply Forall_app. split; [by apply Hw | done].
  - intros (H1 & H2 & _). apply Forall_app. split; [by apply IH|]. constructor; [by destruct (d =? 0)|]. constructor; [done|]. by apply Hw.
  - intros [H1 H2]. apply Hp, Forall_app. split; [by apply IHl|]. constructor; [done|]. by apply IHr.
  - intros [H1 H2]. apply Hp, Forall_app. split; [by apply IHl|]. constructor; [done|]. by apply IHr.
  - intros H. apply Hp, Forall_app. split; [by apply IH|]. by repeat constructor.
Qed.

(** C24 Writing a command and parsing it gives it back: for every command tree
    built from words, up to nine arguments and the two redirections, the line
    that [show] writes, with spaces, symbols and parentheses, is parsed by
    [parsecmd] to exactly that tree. *)
Theorem parse_show c : acmd_ok c ->
  let line := show 0 c in
  exists c' b, parsecmd line (5 * length line + 5) 0%nat = Ok ((c', b), length line) /\ erase line c' = c.
Proof.
  intros Hc line. destruct (reads_all line c Hc) as (_ & _ & _ & R0).
  destruct (R0 [] 0%nat) as (c' & s1 & [F R1] & H1 & Ec); [done|split; [lia|by rewrite app_nil_r]|].
  assert (E : parseline line (5 * length line + 5) 0%nat = Ok (c', s1)).
  { assert (Hl : Forall (fun d => d <> 0) line) by (by apply show_nonzero).
    pose proof (proj1 (parse_fine line Hl (5 * length line + 5) 0%nat ltac:(lia)) ltac:(lia)) as Hfine.
    apply (parseline_more line _ (F + (5 * length line + 5))); [lia| |apply R1; lia].
    intros E. by rewrite E in Hfine. }
  destruct (skip_here line s1 [] H1) as [[Hq _] Ed]. cbn [strip] in Ed.
  assert (Eq : skip line is_white s1 = length line).
  { apply (f_equal length) in Ed. rewrite length_drop in Ed. cbn [length] in Ed. lia. }
  exists c', (nulterminate c' (line ++ [0])). split; [|done]. unfold parsecmd. erewrite bind_Ok; [|exact E].
  unfold peek. rewrite bind_assoc. erewrite bind_Ok; [|reflexivity]. rewrite bind_assoc. erewrite bind_Ok; [|reflexivity].
  rewrite bind_assoc. rewrite Eq in *. erewrite bind_Ok; [|apply (char_drop line (length line) [] ltac:(lia) Ed)].
  do 2 (erewrite bind_Ok; [|reflexivity]). unfold es. by rewrite Nat.eqb_refl.
Qed.

(** ** Examples: ["(ls -l | wc) > out ; sleep &"] *)
Definition ls : list Z := [108; 115].
Definition wc : list Z := [119; 99].
Definition demo_cmd : acmd :=
  AList (ARedir (APipe (AExec [ls; [45; 108]]) (AExec [wc])) [111; 117; 116] (Z.lor O_WRONLY O_CREATE) 1)
        (ABack (AExec [[115; 108; 101; 101; 112]])).
Ltac small_word := split; [done|]; repeat (constructor; [by split|]); constructor.
Lemma demo_cmd_ok : acmd_ok demo_cmd.
Proof.
  cbn [acmd_ok demo_cmd]. split; [split; [split|split; [small_word|by right]]|]; (split; [|cbn; unfold MAXARGS; lia]);
    repeat (constructor; [small_word|]); constructor.
Qed.
Lemma parse_show_witness :
  exists c' b, parsecmd (show 0 demo_cmd) (5 * length (show 0 demo_cmd) + 5) 0%nat = Ok ((c', b), length (show 0 demo_cmd)) /\
    erase (show 0 demo_cmd) c' = demo_cmd.
Proof. apply (parse_show demo_cmd). apply demo_cmd_ok. Defined.
