(* ===== verification/ShRun.v ===== *)
(** * ShRun: running commands (src/src/sh.c)

    [runcmd] makes system calls only.  A process is its table of descriptors;
    what it does is a tree: the programs it runs, the children it forks, the
    waits.  Whether [fork], [pipe] and [open] succeed is an argument; [open],
    [dup] and [pipe] take the lowest free descriptors, as the kernel does. *)
From S2P Require Import Prelude Sh ShFacts ShRound.

(** What a descriptor stands for; a pipe is named by the place of its command. *)
Inductive obj := Console | Opened (path : list Z) (mode : Z) | ReadEnd (id : list bool) | WriteEnd (id : list bool).
Definition NOFILE : nat := 16.
Abbreviation table := (list (option obj)).
Fixpoint first_free (t : table) : option nat :=
  match t with [] => None | None :: _ => Some O | Some _ :: t => S <$> first_free t end.
Definition close (fd : nat) (t : table) : table := <[fd := None]> t.
(** The descriptor, -1 is [None]. *)
Definition alloc (o : obj) (t : table) : option (nat * table) :=
  fd ← first_free t; Some (fd, <[fd := Some o]> t).
Definition dup (fd : nat) (t : table) : table :=
  match t !! fd with
  | Some (Some o) => match alloc o t with Some (_, t) => t | None => t end
  | _ => t
  end.

(** What a process does.  [T] is what is said about descriptors. *)
Inductive beh (T : Type) :=
| Run (argv : list (list Z)) (t : T)   (* exec(argv[0], argv) *)
| Fails                                (* a message, then exit *)
| Exit (t : T)
| Spawn (child rest : beh T)           (* the child of a fork, and the parent *)
| Wait (rest : beh T).
Arguments Run {T}. Arguments Fails {T}. Arguments Exit {T}. Arguments Spawn {T}. Arguments Wait {T}.

Section Run.
Context (fork_ok : list bool -> bool -> bool) (pipe_ok : list bool -> bool) (open_ok : list Z -> Z -> bool).
(** [if(fork1() == 0) child; rest]; [again] tells the second fork of a pipe
    from the first. *)
Definition fork1 {T} (id : list bool) (again : bool) (child rest : beh T) : beh T :=
  if fork_ok id again then Spawn child rest else Fails.
Definition open_file (path : list Z) (mode : Z) (t : table) : option (nat * table) :=
  if open_ok path mode then alloc (Opened path mode) t else None.
Definition pipe (id : list bool) (t : table) : option (nat * nat * table) :=
  if pipe_ok id then
    p0 ← alloc (ReadEnd id) t;
    p1 ← alloc (WriteEnd id) (snd p0);
    Some (fst p0, fst p1, snd p1)
  else None.
(** [id] is the place of the command in the tree. *)
Fixpoint runcmd (id : list bool) (c : acmd) (t : table) : beh table :=
  match c with
  | AExec [] => Exit t
  | AExec argv => Run argv t
  | ARedir c file mode fd =>
      match open_file file mode (close (Z.to_nat fd) t) with
      | Some (_, t) => runcmd id c t
      | None => Fails
      end
  | AList l r => fork1 id false (runcmd (false :: id) l t) (Wait (runcmd (true :: id) r t))
  | APipe l r =>
      match pipe id t with
      | None => Fails
      | Some (p0, p1, t) =>
          fork1 id false
            (runcmd (false :: id) l (close p1 (close p0 (dup p1 (close 1 t)))))
            (fork1 id true
              (runcmd (true :: id) r (close p1 (close p0 (dup p0 (close 0 t)))))
              (Wait (Wait (Exit (close p1 (close p0 t))))))
      end
  | ABack c => fork1 id false (runcmd (false :: id) c t) (Exit t)
  end.

(** The loop at the start of [main]: descriptors up to 2 are opened. *)
Fixpoint open_consoles (fuel : nat) (t : table) : option table :=
  match fuel with
  | O => None
  | S fuel =>
      match alloc Console t with
      | Some (fd, t) => if (3 <=? fd)%nat then Some (close fd t) else open_consoles fuel t
      | None => Some t
      end
  end.
(** One line of input, as [gets] leaves it: a change of directory made by the
    shell itself, or a child that runs the command. *)
Inductive line_action := Chdir (path : list Z) | Child.
Definition shell_line (buf : list Z) : line_action :=
  if bool_decide (take 3 buf = [99; 100; 32]) then Chdir (drop 3 (take (length buf - 1) buf)) else Child.

(** ** Three streams *)
Record std := mkStd { s_in : obj; s_out : obj; s_err : obj }.
Definition table_of (s : std) : table := Some (s_in s) :: Some (s_out s) :: Some (s_err s) :: replicate 13 None.
Fixpoint map_beh {T U} (f : T -> U) (b : beh T) : beh U :=
  match b with
  | Run argv t => Run argv (f t)
  | Fails => Fails
  | Exit t => Exit (f t)
  | Spawn c r => Spawn (map_beh f c) (map_beh f r)
  | Wait r => Wait (map_beh f r)
  end.
(** The wiring of a command: a redirection replaces a stream, a pipe connects
    the output of its left side with the input of its right side. *)
Fixpoint wire (id : list bool) (c : acmd) (s : std) : beh std :=
  match c with
  | AExec [] => Exit s
  | AExec argv => Run argv s
  | ARedir c file mode fd =>
      if open_ok file mode then
        wire id c (if fd =? 0 then mkStd (Opened file mode) (s_out s) (s_err s) else mkStd (s_in s) (Opened file mode) (s_err s))
      else Fails
  | AList l r => fork1 id false (wire (false :: id) l s) (Wait (wire (true :: id) r s))
  | APipe l r =>
      if pipe_ok id then
        fork1 id false (wire (false :: id) l (mkStd (s_in s) (WriteEnd id) (s_err s)))
          (fork1 id true (wire (true :: id) r (mkStd (ReadEnd id) (s_out s) (s_err s))) (Wait (Wait (Exit s))))
      else Fails
  | ABack c => fork1 id false (wire (false :: id) c s) (Exit s)
  end.

Lemma fork1_map {T U} (f : T -> U) id again c r c' r' : c' = map_beh f c -> r' = map_beh f r -> fork1 id again c' r' = map_beh f (fork1 id again c r).
Proof using. intros -> ->. unfold fork1. by destruct (fork_ok id again). Qed.
Lemma wired c : acmd_ok c -> forall id s, runcmd id c (table_of s) = map_beh table_of (wire id c s).
Proof using.
  induction c as [argv|c IH file mode fd|l IHl r IHr|l IHl r IHr|c IH]; intros Hc id s; cbn [acmd_ok] in Hc; cbn [runcmd wire].
  - by destruct argv.
  - destruct Hc as (Hc & _ & Hr). unfold open_file. destruct (open_ok file mode); [|done].
    destruct Hr as [[-> ->]|[-> ->]]; cbn; (etrans; [|apply (IH Hc id)]; done).
  - destruct Hc as [Hl Hr]. unfold pipe. destruct (pipe_ok id); [|done]. cbn.
    apply fork1_map; [etrans; [|apply (IHl Hl)]; done|]. apply fork1_map; [etrans; [|apply (IHr Hr)]; done | done].
  - destruct Hc as [Hl Hr]. apply fork1_map; [by apply IHl|]. cbn. f_equal. by apply IHr.
  - apply fork1_map; [by apply IH | done].
Qed.


(** The standard descriptors are open when the shell reads its first line. *)
Lemma consoles_open t k : length t = NOFILE -> (k <= 3)%nat -> t = replicate k (Some Console) ++ replicate (NOFILE - k) None ->
  open_consoles 5 t = Some (table_of (mkStd Console Console Console)).
Proof using. intros _ Hk ->. destruct k as [|[|[|[|k]]]]; [reflexivity..|lia]. Qed.
End Run.

(** The line [ls|wc>out]. *)
Definition pipeline : list Z := [108; 115; 124; 119; 99; 62; 111; 117; 116].

(** C40 What the parser returns is well typed: every line is refused or gives a
    command whose words are non-empty and free of blanks, symbols and NULs,
    with fewer arguments than the array has places, and whose redirections are
    those of descriptor 0 for reading or of descriptor 1 for writing. *)
Theorem parsed_commands_typed buf fuel : Forall (fun c => c <> 0) buf -> (5 * length buf + 5 <= fuel)%nat ->
  match parsecmd buf fuel 0%nat with
  | Ok ((c, _), _) => acmd_ok (erase buf c)
  | Panic _ => True
  | Fault | OutOfFuel => False
  end.
Proof.
  intros Hb Hf. pose proof (parsecmd_ok buf fuel Hb Hf) as H. destruct (parsecmd buf fuel 0%nat) as [[[c b] s]| | |]; [|done..].
  destruct H as (_ & _ & Hc). by apply erase_ok.
Qed.
Lemma parsed_commands_typed_witness : exists c b s, parsecmd pipeline 50 0%nat = Ok ((c, b), s) /\ acmd_ok (erase pipeline c).
Proof.
  pose proof (parsed_commands_typed pipeline 50 ltac:(by repeat constructor) ltac:(cbn; lia)) as H.
  destruct (parsecmd pipeline 50 0%nat) as [[[c b] s]| | |] eqn:E; [|vm_compute in E; discriminate E..]. exists c, b, s. split; [reflexivity | exact H].
Defined.
