(* ===== verification/Syscall.v ===== *)
(** * Syscall: the arguments of system calls (src/src/syscall.c, src/src/sysproc.c)

    The kernel reads and writes the memory of the current process at the
    process's own addresses, through the page table that is loaded: each byte
    is found by [translate].  An access to an unmapped page is a page fault in
    the kernel ([Fault]).  A call that reports an error through -1 and its
    result through a pointer returns an option. *)
From S2P Require Import Prelude CString Vm VmFacts Fs Pipe File Proc.

(** ** User memory *)

(** The physical address of the byte at [va]. *)
Definition user_pa (m : mem) (d va : Z) : option Z :=
  e ← translate m d va; Some (PTE_ADDR e + u32 va mod PGSIZE).

Section Cpu.
Context (c : nat).
Definition user_addr (va : Z) : P Z :=
  s <- get ;;
  of_option (user_pa (pm (fst (kern s))) (cr3 (cpus s c)) va).
Fixpoint load_user (va : Z) (n : nat) : P (list Z) :=
  match n with
  | O => ret []
  | S n =>
      a <- user_addr va ;;
      v <- gets (fun s => pm (fst (kern s)) a) ;;
      l <- load_user (u32 (va + 1)) n ;;
      ret (v :: l)
  end.
Fixpoint store_user (va : Z) (l : list Z) : P unit :=
  match l with
  | [] => ret tt
  | v :: l' =>
      a <- user_addr va ;;
      in_kern (in_vm (set_pm (fun m => upd m a v))) ;;;
      store_user (u32 (va + 1)) l'
  end.
Definition le_word (l : list Z) : Z := get32 (fun i => nth (Z.to_nat i) l 0) 0.
Definition word_bytes (v : Z) : list Z := get_bytes (put32 (fun _ => 0) 0 v) 0 4.
Definition half_bytes (v : Z) : list Z := get_bytes (put16 (fun _ => 0) 0 v) 0 2.

Definition current : P proc := me <- myproc c ;; the_proc me.

(** ** Fetching arguments *)
Definition fetchint (addr : Z) : P (option Z) :=
  x <- current ;;
  if (addr >=? sz x) || (u32 (addr + 4) >? sz x) then ret None
  else l <- load_user addr 4 ;; ret (Some (s32 (le_word l))).

(** The loop of [fetchstr] (lines 37-39) with [n] bytes below [ep]. *)
Fixpoint scan_string (s : Z) (n : nat) : P (option (list Z)) :=
  match n with
  | O => ret None
  | S n =>
      a <- user_addr s ;;
      v <- gets (fun s => pm (fst (kern s)) a) ;;
      if v =? 0 then ret (Some [])
      else r <- scan_string (s + 1) n ;; ret (cons v <$> r)
  end.
(** The characters of the string; the value returned is their number. *)
Definition fetchstr (addr : Z) : P (option (list Z)) :=
  x <- current ;;
  if addr >=? sz x then ret None
  else scan_string addr (Z.to_nat (sz x - addr)).

Definition argint (n : Z) : P (option Z) :=
  x <- current ;;
  fetchint (u32 (tf_esp (tf x) + 4 + 4 * n)).
Definition argptr (n size : Z) : P (option Z) :=
  r <- argint n ;;
  match r with
  | None => ret None
  | Some i =>
      x <- current ;;
      if (u32 i >=? sz x) || (u32 (u32 i + size) >? sz x) then ret None else ret (Some (u32 i))
  end.
Definition argstr (n : Z) : P (option (list Z)) :=
  r <- argint n ;;
  match r with
  | None => ret None
  | Some addr => fetchstr (u32 addr)
  end.
End Cpu.

(** ** sysproc.c *)
Section Calls.
Context (kend kdata : Z) (c : nat).
Definition sys_fork : P Z := fork kend kdata c.
(** [exit] ends in the scheduler; [wait] returns, or sleeps ([None]). *)
Definition sys_exit : P unit := exit kend c.
Definition sys_wait : P (option Z) := wait kend c.
Definition sys_kill : P Z :=
  r <- argint c 0 ;;
  match r with None => ret (-1) | Some pid => kill c pid end.
Definition sys_getpid : P Z := x <- current c ;; ret (pid x).
Definition sys_sbrk : P Z :=
  r <- argint c 0 ;;
  match r with
  | None => ret (-1)
  | Some n =>
      x <- current c ;;
      g <- growproc kend c n ;;
      ret (if g <? 0 then -1 else s32 (sz x))
  end.
(** ** Dispatch

    [syscalls] is the table of functions; the message for an unknown call goes
    to the console and is left out.  The result is left in [eax]. *)
Definition NSYSCALLS : Z := 26.
Definition set_eax (v : Z) (x : proc) : proc :=
  set_tf (mkTf (u32 v) (tf_es (tf x)) (tf_ds (tf x)) (tf_eip (tf x)) (tf_cs (tf x)) (tf_eflags (tf x))
    (tf_esp (tf x)) (tf_ss (tf x)) (tf_rest (tf x))) x.
Definition syscall (syscalls : Z -> option (P Z)) : P unit :=
  me <- myproc c ;;
  x <- the_proc me ;;
  let num := s32 (tf_eax (tf x)) in
  match (if (num >? 0) && (num <? NSYSCALLS) then syscalls num else None) with
  | Some f => r <- f ;; on_proc me (set_eax r)
  | None => on_proc me (set_eax (-1))
  end.
End Calls.

(** * Pointers from user space are checked *)

(** The byte of the current address space at [va]. *)
Definition user_byte (c : nat) (s : kstate) (va : Z) : option Z :=
  a ← user_pa (pm (fst (kern s))) (cr3 (cpus s c)) va; Some (pm (fst (kern s)) a).
Definition user_bytes (c : nat) (s : kstate) (va : Z) (l : list Z) : Prop :=
  forall k v, l !! k = Some v -> user_byte c s (va + Z.of_nat k) = Some v.

(** Process [me] runs, and all its memory below its size is mapped. *)
Record user_space (c : nat) (me : Z) (s : kstate) : Prop := mkUser {
  us_running : cproc (cpus s c) = Some me;
  us_size : 0 <= sz (procs s me) <= KERNBASE;
  us_mapped : forall va, 0 <= va < sz (procs s me) -> is_Some (user_byte c s va) }.

Section Space.
Context (c : nat) (me : Z) (s : kstate) (Hs : user_space c me s).
Let size := sz (procs s me).

Lemma current_run : current c s = Ok (procs s me, s).
Proof using Hs. unfold current, myproc, the_cpu, M_bind, gets, of_option. by rewrite (us_running _ _ _ Hs). Qed.
Lemma byte_run va v : user_byte c s va = Some v ->
  exists a, user_addr c va s = Ok (a, s) /\ pm (fst (kern s)) a = v.
Proof using.
  unfold user_byte, user_addr. intros H. destruct (user_pa _ _ va) as [a|] eqn:E; [|done]. cbn in H. injection H as <-.
  exists a. cbn. by rewrite E.
Qed.
Lemma load_user_run n : forall va, 0 <= va -> va + Z.of_nat n <= size -> exists l,
  load_user c va n s = Ok (l, s) /\ length l = n /\ user_bytes c s va l.
Proof using Hs.
  pose proof (us_size _ _ _ Hs) as Hsz. unfold KERNBASE in Hsz. fold size in Hsz.
  induction n as [|n IH]; intros va H0 Hn; cbn [load_user]; [by exists []|].
  destruct (us_mapped _ _ _ Hs va ltac:(fold size; lia)) as [v Hv]. destruct (byte_run va v Hv) as (a & Ea & Ev).
  destruct (decide (n = 0)%nat) as [->|].
  - exists [v]. split; [|split; [done|]].
    + rewrite (bind_Ok _ _ _ _ _ Ea). cbn. by rewrite Ev.
    + intros k x Hk. destruct k; [|by destruct k]. injection Hk as <-. by rewrite Z.add_0_r.
  - destruct (IH (va + 1) ltac:(lia) ltac:(lia)) as (l & El & Hl & Hb). exists (v :: l). split; [|split; [cbn; lia|]].
    + rewrite (bind_Ok _ _ _ _ _ Ea). erewrite bind_Ok; [|reflexivity]. rewrite u32_small by lia.
      rewrite (bind_Ok _ _ _ _ _ El). by rewrite Ev.
    + intros [|k] x Hk; [injection Hk as <-; by rewrite Z.add_0_r|]. rewrite <- (Hb k x Hk). f_equal. lia.
Qed.

Lemma fetchint_run addr : 0 <= addr < 2 ^ 32 ->
  (addr + 4 <= size /\ exists l, length l = 4%nat /\ user_bytes c s addr l /\ fetchint c addr s = Ok (Some (s32 (le_word l)), s)) \/
  (size < addr + 4 /\ fetchint c addr s = Ok (None, s)).
Proof using Hs.
  intros Ha. pose proof (us_size _ _ _ Hs) as Hsz. unfold KERNBASE in Hsz. unfold fetchint.
  rewrite (bind_Ok _ _ _ _ _ current_run). fold size in Hsz |- *.
  destruct (Z.geb_spec addr size); [right; split; [lia | done]|]. cbn [orb]. rewrite u32_small by lia.
  destruct (Z.gtb_spec (addr + 4) size); [right; split; [lia | done]|]. left. split; [lia|].
  destruct (load_user_run 4 addr ltac:(lia) ltac:(lia)) as (l & El & Hl & Hb). exists l. split; [done|]. split; [done|].
  by rewrite (bind_Ok _ _ _ _ _ El).
Qed.

(** [l] are the characters of the string at [va], which ends below the size. *)
Definition string_at (va : Z) (l : list Z) : Prop :=
  user_bytes c s va (l ++ [0]) /\ Forall (fun v => v <> 0) l /\ va + Z.of_nat (length l) < size.
Lemma scan_string_run n : forall va, 0 <= va -> va + Z.of_nat n = size ->
  exists o, scan_string c va n s = Ok (o, s) /\
    match o with
    | Some l => string_at va l
    | None => forall p, va <= p < size -> user_byte c s p <> Some 0
    end.
Proof using Hs.
  induction n as [|n IH]; intros va H0 Hn; cbn [scan_string].
  { exists None. split; [done|]. intros p Hp. lia. }
  destruct (us_mapped _ _ _ Hs va ltac:(fold size; lia)) as [v Hv]. destruct (byte_run va v Hv) as (a & Ea & Ev).
  rewrite (bind_Ok _ _ _ _ _ Ea). erewrite bind_Ok; [|reflexivity]. rewrite Ev.
  destruct (Z.eqb_spec v 0) as [->|Hv0].
  - exists (Some []). split; [done|]. split; [|split; [constructor | cbn; lia]].
    intros [|[|k]] x Hk; cbn in Hk; simplify_eq. by rewrite Z.add_0_r.
  - destruct (IH (va + 1) ltac:(lia) ltac:(lia)) as (o & Eo & Ho). exists (cons v <$> o).
    rewrite (bind_Ok _ _ _ _ _ Eo). split; [done|]. destruct o as [l|]; cbn.
    + destruct Ho as (Hb & Hf & Hl). split; [|split; [by constructor | cbn; lia]].
      intros [|k] x Hk; [injection Hk as <-; by rewrite Z.add_0_r|]. rewrite <- (Hb k x Hk). f_equal. lia.
    + intros p Hp. destruct (Z.eq_dec p va) as [->|]; [congruence|]. apply Ho. lia.
Qed.
Lemma fetchstr_run addr : 0 <= addr < 2 ^ 32 ->
  exists o, fetchstr c addr s = Ok (o, s) /\
    match o with
    | Some l => string_at addr l
    | None => forall p, addr <= p < size -> user_byte c s p <> Some 0
    end.
Proof using Hs.
  intros Ha. unfold fetchstr. rewrite (bind_Ok _ _ _ _ _ current_run). fold size.
  destruct (Z.geb_spec addr size); [|apply scan_string_run; lia]. exists None. split; [done|]. intros p Hp. lia.
Qed.
End Space.

(** ** What the argument functions return *)
Section Arguments.
Context (c : nat) (me : Z) (s : kstate).
Let size := sz (procs s me).

(** The little-endian word at [addr], as a signed number. *)
Definition word_at (addr v : Z) : Prop :=
  exists l, length l = 4%nat /\ user_bytes c s addr l /\ v = s32 (le_word l).
(** The outcome of reading a word, and a string, at [addr]. *)
Definition fetched_int (addr : Z) (o : option Z) : Prop :=
  match o with Some v => addr + 4 <= size /\ word_at addr v | None => size < addr + 4 end.
Definition fetched_str (addr : Z) (o : option (list Z)) : Prop :=
  match o with
  | Some l => string_at c me s addr l
  | None => forall p, addr <= p < size -> user_byte c s p <> Some 0
  end.
(** Where the caller of the system call pushed argument [n]: above the return
    address of the library's stub. *)
Definition arg_addr (n : Z) : Z := u32 (tf_esp (tf (procs s me)) + 4 + 4 * n).
(** The test of [argptr] on a pointer [p] to [k] bytes, at the width of the
    machine: a negative [k] only moves the end. *)
Definition block_accepted (p k : Z) : bool := (p <? size) && (u32 (p + k) <=? size).

Lemma block_inside p k : 0 <= p < 2 ^ 32 -> 0 <= size <= KERNBASE -> 0 <= k < 2 ^ 31 ->
  block_accepted p k = true <-> p < size /\ p + k <= size.
Proof using.
  intros Hp Hsz Hk. unfold block_accepted, KERNBASE in *. rewrite andb_true_iff, Z.ltb_lt, Z.leb_le.
  split; intros [Hlt Hle]; (split; [done|]); rewrite u32_small in * by lia; lia.
Qed.

Context (Hs : user_space c me s).
Lemma fetchint_at addr : 0 <= addr < 2 ^ 32 -> exists o, fetchint c addr s = Ok (o, s) /\ fetched_int addr o.
Proof using Hs.
  intros Ha. destruct (fetchint_run c me s Hs addr Ha) as [(Hin & l & Hl & Hb & E)|[Hout E]].
  - eexists. split; [exact E|]. split; [done|]. by exists l.
  - by exists None.
Qed.
Lemma argint_at n : exists o, argint c n s = Ok (o, s) /\ fetched_int (arg_addr n) o.
Proof using Hs.
  unfold argint. rewrite (bind_Ok _ _ _ _ _ (current_run c me s Hs)). apply fetchint_at, u32_range.
Qed.
Lemma argstr_at n i : argint c n s = Ok (Some i, s) -> exists o, argstr c n s = Ok (o, s) /\ fetched_str (u32 i) o.
Proof using Hs.
  intros E. unfold argstr. rewrite (bind_Ok _ _ _ _ _ E). apply (fetchstr_run c me s Hs), u32_range.
Qed.
Lemma argptr_at n k i : argint c n s = Ok (Some i, s) ->
  argptr c n k s = Ok (if block_accepted (u32 i) k then Some (u32 i) else None, s).
Proof using Hs.
  intros E. unfold argptr, block_accepted. rewrite (bind_Ok _ _ _ _ _ E), (bind_Ok _ _ _ _ _ (current_run c me s Hs)).
  fold size. destruct (Z.geb_spec (u32 i) size), (Z.ltb_spec (u32 i) size); try lia; [done|]. cbn [orb andb].
  by destruct (Z.gtb_spec (u32 (u32 i + k)) size), (Z.leb_spec (u32 (u32 i + k)) size); try lia.
Qed.
End Arguments.

(** C18 Pointers from user space are checked.  For a process whose memory is
    mapped, whatever its stack pointer, its arguments and its memory hold, the
    functions that fetch arguments return without a fault and without changing
    anything.  [fetchint] gives the word at [addr] exactly when all four bytes
    lie below the size of the process; [fetchstr] gives the string there
    exactly when a NUL follows below the size.  Argument [n] is the word at
    [esp + 4 + 4n]: [argint] gives it exactly when it lies below the size;
    [argstr] the string it points to, under the condition of [fetchstr];
    [argptr] the pointer itself, for a block of [k] bytes that is not negative
    exactly when it starts below the size and ends not above it.  For a
    negative [k] the end that is compared is the one that has wrapped around,
    so such a block is accepted whenever pointer and end are in range. *)
Theorem user_pointers_checked c me s : user_space c me s ->
  let size := sz (procs s me) in
  (forall addr, 0 <= addr < 2 ^ 32 ->
    (exists o, fetchint c addr s = Ok (o, s) /\ fetched_int c me s addr o) /\
    (exists o, fetchstr c addr s = Ok (o, s) /\ fetched_str c me s addr o)) /\
  (forall n, exists o, argint c n s = Ok (o, s) /\ fetched_int c me s (arg_addr me s n) o /\
    match o with
    | None => argstr c n s = Ok (None, s) /\ forall k, argptr c n k s = Ok (None, s)
    | Some i =>
        (exists l, argstr c n s = Ok (l, s) /\ fetched_str c me s (u32 i) l) /\
        (forall k, argptr c n k s = Ok (if block_accepted me s (u32 i) k then Some (u32 i) else None, s)) /\
        (forall k, 0 <= k < 2 ^ 31 ->
           block_accepted me s (u32 i) k = true <-> u32 i < size /\ u32 i + k <= size)
    end).
Proof.
  intros Hs size. split.
  { intros addr Ha. split; [by apply fetchint_at | by apply (fetchstr_run c me s Hs)]. }
  intros n. destruct (argint_at c me s Hs n) as (o & E & Ho). exists o. split; [done|]. split; [done|].
  destruct o as [i|].
  - split; [by apply (argstr_at c me s Hs n)|]. split; [intros k; by apply argptr_at|].
    intros k Hk. apply block_inside; [apply u32_range | apply (us_size _ _ _ Hs) | done].
  - unfold argstr, argptr. split; [|intros k]; by rewrite (bind_Ok _ _ _ _ _ E).
Qed.
