(* ===== verification/Sysfile.v ===== *)
(** * Sysfile: the file system calls (src/src/sysfile.c)

    A call of process [proc] on CPU [c]: its arguments are fetched from user
    memory (Syscall), the inode part of a call runs on the inode layer (Fs)
    between [begin_op] and [end_op], and the open files are those of File.
    [devsw] is the table of device functions. *)
From S2P Require Import Prelude CString Vm VmFacts Fs Pipe File Proc Syscall.

Definition O_WRONLY : Z := 1.
Definition O_RDWR : Z := 2.
Definition O_CREATE : Z := 0x200.
Definition dot : list Z := [46].
Definition dotdot : list Z := [46; 46].

Definition with_nlink (x : Z) (i : inode) : inode :=
  mkInode (i_dev i) (i_inum i) (i_ref i) (i_flags i) (i_type i) (i_major i) (i_minor i) x (i_size i) (i_addrs i).
(** Lines 267-269. *)
Definition new_node (major minor : Z) (i : inode) : inode :=
  mkInode (i_dev i) (i_inum i) (i_ref i) (i_flags i) (i_type i) major minor 1 (i_size i) (i_addrs i).
(** [ip->nlink += d; iupdate(ip);] *)
Definition add_nlink (ip d : Z) : F unit :=
  set_inode ip (fun i => with_nlink (s16 (i_nlink i + d)) i) ;;;
  iupdate ip.

(** ** Links and nodes *)
Section Nodes.
Context (devsw : Z -> devops) (cwd : Z).

(** The label [bad] of [sys_link] (lines 160-166). *)
Definition link_bad (ip : Z) : F Z :=
  ilock ip ;;;
  add_nlink ip (-1) ;;;
  iunlockput ip ;;;
  end_op ;;;
  ret (-1).
(** [sys_link] after its arguments (lines 129-166). *)
Definition link (old new : list Z) : F Z :=
  begin_op ;;;
  r <- namei devsw cwd old ;;
  match r with
  | None => end_op ;;; ret (-1)
  | Some ip =>
      ilock ip ;;;
      i <- inode_at ip ;;
      if i_type i =? T_DIR then iunlockput ip ;;; end_op ;;; ret (-1)
      else
        add_nlink ip 1 ;;;
        iunlock ip ;;;
        r <- nameiparent devsw cwd new ;;
        match r with
        | None => link_bad ip
        | Some (dp, name) =>
            ilock dp ;;;
            d <- inode_at dp ;;
            i <- inode_at ip ;;
            bad <- (if negb (i_dev d =? i_dev i) then ret true
                    else r <- dirlink devsw dp name (i_inum i) ;; ret (r <? 0)) ;;
            if bad : bool then iunlockput dp ;;; link_bad ip
            else
              iunlockput dp ;;;
              iput ip ;;;
              end_op ;;;
              ret 0
        end
  end.

(** The loop of [isdirempty] (lines 176-181). *)
Fixpoint isdirempty_loop (fuel : nat) (dp off : Z) : F bool :=
  match fuel with
  | O => out_of_fuel
  | S fuel =>
      i <- inode_at dp ;;
      if off <? i_size i then
        let* (r, de) := readi devsw dp off DIRENT in
        if negb (r =? DIRENT) then panic "isdirempty: readi"
        else if negb (de_inum de =? 0) then ret false
        else isdirempty_loop fuel dp (off + DIRENT)
      else ret true
  end.
Definition isdirempty (dp : Z) : F bool :=
  i <- inode_at dp ;;
  isdirempty_loop (S (Z.to_nat (i_size i))) dp (2 * DIRENT).

(** The label [bad] of [sys_unlink] (lines 237-240). *)
Definition unlink_bad (dp : Z) : F Z :=
  iunlockput dp ;;;
  end_op ;;;
  ret (-1).
(** [sys_unlink] after its argument (lines 197-240). *)
Definition unlink (path : list Z) : F Z :=
  begin_op ;;;
  r <- nameiparent devsw cwd path ;;
  match r with
  | None => end_op ;;; ret (-1)
  | Some (dp, name) =>
      ilock dp ;;;
      if (namecmp name dot =? 0) || (namecmp name dotdot =? 0) then unlink_bad dp
      else
        r <- dirlookup devsw dp name ;;
        match r with
        | None => unlink_bad dp
        | Some (ip, off) =>
            ilock ip ;;;
            i <- inode_at ip ;;
            if i_nlink i <? 1 then panic "unlink: nlink < 1"
            else
              full <- (if i_type i =? T_DIR then e <- isdirempty ip ;; ret (negb e) else ret false) ;;
              if full : bool then iunlockput ip ;;; unlink_bad dp
              else
                r <- writei devsw dp (replicate (Z.to_nat DIRENT) 0) off ;;
                if negb (r =? DIRENT) then panic "unlink: writei"
                else
                  (if i_type i =? T_DIR then add_nlink dp (-1) else ret tt) ;;;
                  iunlockput dp ;;;
                  add_nlink ip (-1) ;;;
                  iunlockput ip ;;;
                  end_op ;;;
                  ret 0
        end
  end.

(** The inode, locked; [None] for the null pointer. *)
Definition create (path : list Z) (type major minor : Z) : F (option Z) :=
  r <- nameiparent devsw cwd path ;;
  match r with
  | None => ret None
  | Some (dp, name) =>
      ilock dp ;;;
      r <- dirlookup devsw dp name ;;
      match r with
      | Some (ip, _) =>
          iunlockput dp ;;;
          ilock ip ;;;
          i <- inode_at ip ;;
          if (type =? T_FILE) && (i_type i =? T_FILE) then ret (Some ip)
          else iunlockput ip ;;; ret None
      | None =>
          d <- inode_at dp ;;
          ip <- ialloc (i_dev d) type ;;
          ilock ip ;;;
          set_inode ip (new_node major minor) ;;;
          iupdate ip ;;;
          i <- inode_at ip ;;
          (if type =? T_DIR then
             add_nlink dp 1 ;;;
             r <- dirlink devsw ip dot (i_inum i) ;;
             if r <? 0 then panic "create dots"
             else
               r <- dirlink devsw ip dotdot (i_inum d) ;;
               if r <? 0 then panic "create dots" else ret tt
           else ret tt) ;;;
          r <- dirlink devsw dp name (i_inum i) ;;
          if r <? 0 then panic "create: dirlink"
          else iunlockput dp ;;; ret (Some ip)
      end
  end.

(** [sys_open] up to the inode (lines 299-318): the inode, locked, with the
    transaction still open; after an error it is closed. *)
Definition open_inode (path : list Z) (omode : Z) : F (option Z) :=
  begin_op ;;;
  if negb (Z.land omode O_CREATE =? 0) then
    r <- create path T_FILE 0 0 ;;
    match r with
    | None => end_op ;;; ret None
    | Some ip => ret (Some ip)
    end
  else
    r <- namei devsw cwd path ;;
    match r with
    | None => end_op ;;; ret None
    | Some ip =>
        ilock ip ;;;
        i <- inode_at ip ;;
        if (i_type i =? T_DIR) && negb (omode =? 0) then iunlockput ip ;;; end_op ;;; ret None
        else ret (Some ip)
    end.

(** [create] of a directory or device and what follows (lines 345-351 and
    366-372), in the transaction. *)
Definition make_node (path : list Z) (type major minor : Z) : F Z :=
  r <- create path type major minor ;;
  match r with
  | None => end_op ;;; ret (-1)
  | Some ip => iunlockput ip ;;; end_op ;;; ret 0
  end.

(** [sys_chdir] up to line 392: the directory, unlocked, in the transaction. *)
Definition find_dir (path : list Z) : F (option Z) :=
  r <- namei devsw cwd path ;;
  match r with
  | None => end_op ;;; ret None
  | Some ip =>
      ilock ip ;;;
      i <- inode_at ip ;;
      if negb (i_type i =? T_DIR) then iunlockput ip ;;; end_op ;;; ret None
      else iunlock ip ;;; ret (Some ip)
  end.
End Nodes.

(** ** The calls *)
Section Calls.
Context (kend : Z) (devsw : Z -> devops) (c : nat).
Definition fs_call {A} (f : F A) : P A := in_kern (in_fs f).
(** [proc->cwd] as a pointer; the null pointer is no index. *)
Definition cwd_of (x : proc) : Z := default (-1) (cwd x).

(** The descriptor and the file. *)
Definition argfd (n : Z) : P (option (Z * Z)) :=
  r <- argint c n ;;
  match r with
  | None => ret None
  | Some fd =>
      x <- current c ;;
      if (fd <? 0) || (fd >=? NOFILE) then ret None
      else match nth (Z.to_nat fd) (ofile x) None with
           | None => ret None
           | Some f => ret (Some (fd, f))
           end
  end.
Definition set_fd (me fd : Z) (f : option Z) : P unit :=
  on_proc me (fun y => set_ofile (<[Z.to_nat fd := f]> (ofile y)) y).
(** The loop of [fdalloc] (lines 48-53). *)
Fixpoint first_free (l : list (option Z)) (fd : Z) : option Z :=
  match l with [] => None | x :: l' => match x with None => Some fd | Some _ => first_free l' (fd + 1) end end.
Definition fdalloc (f : Z) : P Z :=
  me <- myproc c ;;
  x <- the_proc me ;;
  match first_free (ofile x) 0 with
  | Some fd => set_fd me fd (Some f) ;;; ret fd
  | None => ret (-1)
  end.

Definition sys_dup : P Z :=
  r <- argfd 0 ;;
  match r with
  | None => ret (-1)
  | Some (_, f) =>
      fd <- fdalloc f ;;
      if fd <? 0 then ret (-1) else in_kern (filedup f) ;;; ret fd
  end.
(** The arguments of [read] and [write] (lines 78, 90). *)
Definition arg_io : P (option (Z * Z * Z)) :=
  r <- argfd 0 ;;
  match r with
  | None => ret None
  | Some (_, f) =>
      r <- argint c 2 ;;
      match r with
      | None => ret None
      | Some n =>
          r <- argptr c 1 n ;;
          ret (match r with None => None | Some p => Some (f, p, n) end)
      end
  end.
Definition sys_read : P Z :=
  r <- arg_io ;;
  match r with
  | None => ret (-1)
  | Some (f, p, n) =>
      x <- current c ;;
      let* (r, l) := in_kern (fileread devsw f n (truthy (killed x))) in
      store_user c p l ;;;
      ret r
  end.
Definition sys_write : P Z :=
  r <- arg_io ;;
  match r with
  | None => ret (-1)
  | Some (f, p, n) =>
      x <- current c ;;
      l <- load_user c p (Z.to_nat n) ;;
      in_kern (filewrite devsw f l n (truthy (killed x)))
  end.
Definition sys_close : P Z :=
  r <- argfd 0 ;;
  match r with
  | None => ret (-1)
  | Some (fd, f) =>
      me <- myproc c ;;
      set_fd me fd None ;;;
      in_kern (fileclose kend f) ;;;
      ret 0
  end.
(** [sizeof(struct stat)] and the stores of [stati] (fs.c 445-453). *)
Definition STAT : Z := 20.
Definition store_stat (st : Z) (x : stat) : P unit :=
  store_user c (u32 (st + 4)) (word_bytes (st_dev x)) ;;;
  store_user c (u32 (st + 8)) (word_bytes (st_ino x)) ;;;
  store_user c st (half_bytes (st_type x)) ;;;
  store_user c (u32 (st + 12)) (half_bytes (st_nlink x)) ;;;
  store_user c (u32 (st + 16)) (word_bytes (st_size x)).
Definition sys_fstat : P Z :=
  r <- argfd 0 ;;
  match r with
  | None => ret (-1)
  | Some (_, f) =>
      r <- argptr c 1 STAT ;;
      match r with
      | None => ret (-1)
      | Some st =>
          r <- in_kern (filestat f) ;;
          match r with None => ret (-1) | Some x => store_stat st x ;;; ret 0 end
      end
  end.

Definition sys_link : P Z :=
  old <- argstr c 0 ;;
  match old with
  | None => ret (-1)
  | Some old =>
      new <- argstr c 1 ;;
      match new with
      | None => ret (-1)
      | Some new => x <- current c ;; fs_call (link devsw (cwd_of x) old new)
      end
  end.
Definition sys_unlink : P Z :=
  path <- argstr c 0 ;;
  match path with
  | None => ret (-1)
  | Some path => x <- current c ;; fs_call (unlink devsw (cwd_of x) path)
  end.

(** Lines 330-334. *)
Definition opened (ip omode : Z) (f : file) : file :=
  mkFile FD_INODE (f_ref f) (c_bool (Z.land omode O_WRONLY =? 0))
    (c_bool (negb (Z.land omode O_WRONLY =? 0) || negb (Z.land omode O_RDWR =? 0))) (f_pipe f) ip 0.
Definition sys_open : P Z :=
  path <- argstr c 0 ;;
  match path with
  | None => ret (-1)
  | Some path =>
      omode <- argint c 1 ;;
      match omode with
      | None => ret (-1)
      | Some omode =>
          x <- current c ;;
          r <- fs_call (open_inode devsw (cwd_of x) path omode) ;;
          match r with
          | None => ret (-1)
          | Some ip =>
              f <- in_kern filealloc ;;
              match f with
              | None => fs_call (iunlockput ip) ;;; fs_call end_op ;;; ret (-1)
              | Some f =>
                  fd <- fdalloc f ;;
                  if fd <? 0 then
                    in_kern (fileclose kend f) ;;;
                    fs_call (iunlockput ip) ;;;
                    fs_call end_op ;;;
                    ret (-1)
                  else
                    fs_call (iunlock ip) ;;;
                    fs_call end_op ;;;
                    in_kern (set_file f (opened ip omode)) ;;;
                    ret fd
              end
          end
      end
  end.

Definition sys_mkdir : P Z :=
  fs_call begin_op ;;;
  path <- argstr c 0 ;;
  match path with
  | None => fs_call end_op ;;; ret (-1)
  | Some path => x <- current c ;; fs_call (make_node devsw (cwd_of x) path T_DIR 0 0)
  end.
Definition sys_mknod : P Z :=
  fs_call begin_op ;;;
  path <- argstr c 0 ;;
  match path with
  | None => fs_call end_op ;;; ret (-1)
  | Some path =>
      major <- argint c 1 ;;
      match major with
      | None => fs_call end_op ;;; ret (-1)
      | Some major =>
          minor <- argint c 2 ;;
          match minor with
          | None => fs_call end_op ;;; ret (-1)
          | Some minor =>
              x <- current c ;;
              fs_call (make_node devsw (cwd_of x) path T_DEV (s16 major) (s16 minor))
          end
      end
  end.
Definition sys_chdir : P Z :=
  fs_call begin_op ;;;
  path <- argstr c 0 ;;
  match path with
  | None => fs_call end_op ;;; ret (-1)
  | Some path =>
      me <- myproc c ;;
      x <- the_proc me ;;
      r <- fs_call (find_dir devsw (cwd_of x) path) ;;
      match r with
      | None => ret (-1)
      | Some ip =>
          fs_call (iput (cwd_of x)) ;;;
          fs_call end_op ;;;
          on_proc me (set_cwd (Some ip)) ;;;
          ret 0
      end
  end.

Definition sys_pipe : P Z :=
  r <- argptr c 0 8 ;;
  match r with
  | None => ret (-1)
  | Some fd =>
      r <- in_kern (pipealloc kend) ;;
      match r with
      | None => ret (-1)
      | Some (rf, wf) =>
          me <- myproc c ;;
          fd0 <- fdalloc rf ;;
          fd1 <- (if fd0 <? 0 then ret (-1) else fdalloc wf) ;;
          if (fd0 <? 0) || (fd1 <? 0) then
            (if fd0 >=? 0 then set_fd me fd0 None else ret tt) ;;;
            in_kern (fileclose kend rf) ;;;
            in_kern (fileclose kend wf) ;;;
            ret (-1)
          else
            store_user c fd (word_bytes fd0) ;;;
            store_user c (u32 (fd + 4)) (word_bytes fd1) ;;;
            ret 0
      end
  end.
End Calls.
