(* ===== verification/Exec.v ===== *)
(** * Exec: running a program (src/src/exec.c, loaduvm of src/src/vm.c)

    The program file is read through the inode layer into a new address space
    (Vm); the arguments are pushed on its stack.  The labels [bad] of [exec]
    are the function [exec_bad].  A structure read from the file is the bytes
    that [readi] stored; a field past their end was never initialised, and
    using it is undefined ([Fault]). *)
From S2P Require Import Prelude CString Vm VmFacts Fs Pipe File Proc Syscall Sysfile.

Definition MAXARG : Z := 32.
Definition ELF_MAGIC : Z := 0x464C457F.
Definition ELF_PROG_LOAD : Z := 1.
(** [sizeof(struct elfhdr)] and [sizeof(struct proghdr)]. *)
Definition ELFHDR : Z := 52.
Definition PROGHDR : Z := 32.
Record elfhdr := mkElf { e_magic : Z; e_entry : Z; e_phoff : Z; e_phnum : Z }.
Record proghdr := mkPh { ph_type : Z; ph_off : Z; ph_vaddr : Z; ph_filesz : Z; ph_memsz : Z }.
Definition bytes_mem (l : list Z) : mem := fun a => nth (Z.to_nat a) l 0.
Definition elf_of (l : list Z) : option elfhdr :=
  if Z.of_nat (length l) <? ELFHDR then None
  else Some (mkElf (get32 (bytes_mem l) 0) (get32 (bytes_mem l) 24) (get32 (bytes_mem l) 28) (get16 (bytes_mem l) 44)).
Definition ph_of (l : list Z) : option proghdr :=
  if Z.of_nat (length l) <? PROGHDR then None
  else Some (mkPh (get32 (bytes_mem l) 0) (get32 (bytes_mem l) 4) (get32 (bytes_mem l) 8) (get32 (bytes_mem l) 16)
               (get32 (bytes_mem l) 20)).

(** ** The stack of the new program (lines 64-81) *)

(** [x & ~3] *)
Definition align4 (x : Z) : Z := Z.land x (u32 (Z.lnot 3)).
(** The loop over [argv] (lines 65-72): [None] at [goto bad], else the final
    [sp] and the entries of [ustack] in order. *)
Fixpoint push_strings (pgdir : Z) (argv : list (list Z)) (argc sp : Z) : V (option (Z * list Z)) :=
  match argv with
  | [] => ret (Some (sp, []))
  | a :: argv' =>
      if argc >=? MAXARG then ret None
      else
        let sp := align4 (u32 (sp - (Z.of_nat (length a) + 1))) in
        r <- copyout pgdir sp (a ++ [0]) ;;
        if r <? 0 then ret None
        else
          q <- push_strings pgdir argv' (argc + 1) sp ;;
          ret (match q with Some (sp', ptrs) => Some (sp', sp :: ptrs) | None => None end)
  end.
(** The words of [ustack] as bytes. *)
Definition words_bytes (l : list Z) : list Z := l ≫= word_bytes.
Definition push_args (pgdir : Z) (argv : list (list Z)) (sz : Z) : V (option Z) :=
  q <- push_strings pgdir argv 0 sz ;;
  match q with
  | None => ret None
  | Some (sp, ptrs) =>
      let argc := Z.of_nat (length argv) in
      let ustack := [0xFFFFFFFF; argc; u32 (sp - (argc + 1) * 4)] ++ ptrs ++ [0] in
      let sp := u32 (sp - (3 + argc + 1) * 4) in
      r <- copyout pgdir sp (words_bytes ustack) ;;
      ret (if r <? 0 then None else Some sp)
  end.

(** The loop of lines 84-86: the path after its last slash. *)
Fixpoint last_elem (path last : list Z) : list Z :=
  match path with [] => last | ch :: p' => last_elem p' (if ch =? slash then p' else last) end.

Section Exec.
Context (kend kdata : Z) (devsw : Z -> devops) (c : nat).

(** The loop of [loaduvm] (vm.c 204-214). *)
Fixpoint loaduvm_loop (fuel : nat) (pgdir addr ip offset sz i : Z) : K Z :=
  match fuel with
  | O => out_of_fuel
  | S fuel =>
      if i <? sz then
        pte <- in_vm (walkpgdir pgdir (addr + i) false) ;;
        if pte =? 0 then panic "loaduvm: address should exist"
        else
          e <- in_vm (load pte) ;;
          let n := if sz - i <? PGSIZE then sz - i else PGSIZE in
          let* (r, l) := in_fs (readi devsw ip (u32 (offset + i)) n) in
          in_vm (set_pm (fun m => put_bytes m (PTE_ADDR e) l)) ;;;
          if negb (r =? n) then ret (-1) else loaduvm_loop fuel pgdir addr ip offset sz (u32 (i + PGSIZE))
      else ret 0
  end.
Definition loaduvm (pgdir addr ip offset sz : Z) : K Z :=
  if negb (u32 addr mod PGSIZE =? 0) then panic "loaduvm: addr must be page aligned"
  else loaduvm_loop (S (Z.to_nat (sz / PGSIZE + 1))) pgdir addr ip offset sz 0.

(** The loop over the program headers (lines 40-51), [n] left: [None] at
    [goto bad], else the final [sz]. *)
Fixpoint load_segments (n : nat) (pgdir ip off sz : Z) : K (option Z) :=
  match n with
  | O => ret (Some sz)
  | S n =>
      let* (r, l) := in_fs (readi devsw ip (u32 off) PROGHDR) in
      if negb (r =? PROGHDR) then ret None
      else
        ph <- of_option (ph_of l) ;;
        if negb (ph_type ph =? ELF_PROG_LOAD) then load_segments n pgdir ip (off + PROGHDR) sz
        else if ph_memsz ph <? ph_filesz ph then ret None
        else
          sz' <- in_vm (allocuvm kend pgdir sz (u32 (ph_vaddr ph + ph_memsz ph))) ;;
          if sz' =? 0 then ret None
          else
            r <- loaduvm pgdir (ph_vaddr ph) ip (ph_off ph) (ph_filesz ph) ;;
            if r <? 0 then ret None else load_segments n pgdir ip (off + PROGHDR) sz'
  end.

(** The label [bad] (lines 99-106); [ip] is [None] once it was put. *)
Definition exec_bad (pgdir : Z) (ip : option Z) : P Z :=
  (if pgdir =? 0 then ret tt else in_kern (in_vm (freevm kend pgdir))) ;;;
  match ip with
  | Some ip => fs_call (iunlockput ip) ;;; fs_call end_op ;;; ret (-1)
  | None => ret (-1)
  end.
(** Lines 83-97. *)
Definition exec_commit (path : list Z) (pgdir sz entry sp : Z) : P Z :=
  me <- myproc c ;;
  on_proc me (set_name (copy_name (last_elem path path))) ;;;
  x <- the_proc me ;;
  on_proc me (set_pgdir pgdir) ;;;
  on_proc me (set_sz sz) ;;;
  on_proc me (fun y => set_tf (mkTf (tf_eax (tf y)) (tf_es (tf y)) (tf_ds (tf y)) entry (tf_cs (tf y)) (tf_eflags (tf y))
                                 sp (tf_ss (tf y)) (tf_rest (tf y))) y) ;;;
  switchuvm c me ;;;
  in_kern (in_vm (freevm kend (Proc.pgdir x))) ;;;
  ret 0.
(** Lines 56-97, after the file was put. *)
Definition exec_image (path : list Z) (argv : list (list Z)) (pgdir sz entry : Z) : P Z :=
  let sz := PGROUNDUP sz in
  sz <- in_kern (in_vm (allocuvm kend pgdir sz (u32 (sz + 2 * PGSIZE)))) ;;
  if sz =? 0 then exec_bad pgdir None
  else
    in_kern (in_vm (clearpteu pgdir (u32 (sz - 2 * PGSIZE)))) ;;;
    r <- in_kern (in_vm (push_args pgdir argv sz)) ;;
    match r with
    | None => exec_bad pgdir None
    | Some sp => exec_commit path pgdir sz entry sp
    end.
Definition exec (path : list Z) (argv : list (list Z)) : P Z :=
  x <- current c ;;
  fs_call begin_op ;;;
  r <- fs_call (namei devsw (cwd_of x) path) ;;
  match r with
  | None => fs_call end_op ;;; ret (-1)
  | Some ip =>
      fs_call (ilock ip) ;;;
      let* (r, l) := fs_call (readi devsw ip 0 ELFHDR) in
      (* compared as unsigned: -1 passes *)
      if u32 r <? ELFHDR then exec_bad 0 (Some ip)
      else
        elf <- of_option (elf_of l) ;;
        if negb (e_magic elf =? ELF_MAGIC) then exec_bad 0 (Some ip)
        else
          pgdir <- in_kern (in_vm (setupkvm kdata)) ;;
          if pgdir =? 0 then exec_bad 0 (Some ip)
          else
            r <- in_kern (load_segments (Z.to_nat (e_phnum elf)) pgdir ip (e_phoff elf) 0) ;;
            match r with
            | None => exec_bad pgdir (Some ip)
            | Some sz =>
                fs_call (iunlockput ip) ;;;
                fs_call end_op ;;;
                exec_image path argv pgdir sz (e_entry elf)
            end
  end.

(** The loop of [sys_exec] (sysfile.c 410-421): [None] for -1. *)
Fixpoint fetch_argv (n : nat) (uargv i : Z) : P (option (list (list Z))) :=
  match n with
  | O => ret None
  | S n =>
      uarg <- fetchint c (u32 (uargv + 4 * i)) ;;
      match uarg with
      | None => ret None
      | Some uarg =>
          if uarg =? 0 then ret (Some [])
          else
            a <- fetchstr c (u32 uarg) ;;
            match a with
            | None => ret None
            | Some a => rest <- fetch_argv n uargv (i + 1) ;; ret (cons a <$> rest)
            end
      end
  end.
Definition sys_exec : P Z :=
  path <- argstr c 0 ;;
  match path with
  | None => ret (-1)
  | Some path =>
      uargv <- argint c 1 ;;
      match uargv with
      | None => ret (-1)
      | Some uargv =>
          argv <- fetch_argv (Z.to_nat MAXARG) (u32 uargv) 0 ;;
          match argv with
          | None => ret (-1)
          | Some argv => exec path argv
          end
      end
  end.

(** The entries of [syscalls] (syscall.c 107-133) that sysfile.c implements,
    less [fileSystemChanged]. *)
Definition file_syscalls (num : Z) : option (P Z) :=
  match num with
  | 4 => Some (sys_pipe kend c)
  | 5 => Some (sys_read devsw c)
  | 7 => Some sys_exec
  | 8 => Some (sys_fstat c)
  | 9 => Some (sys_chdir devsw c)
  | 10 => Some (sys_dup c)
  | 15 => Some (sys_open kend devsw c)
  | 16 => Some (sys_write devsw c)
  | 17 => Some (sys_mknod devsw c)
  | 18 => Some (sys_unlink devsw c)
  | 19 => Some (sys_link devsw c)
  | 20 => Some (sys_mkdir devsw c)
  | 21 => Some (sys_close kend c)
  | _ => None
  end.
End Exec.
