(* ===== verification/InodeRefs.v ===== *)
(** * InodeRefs: references and locks of inodes (src/src/fs.c, src/src/sysfile.c)

    What the code of fs.c does to the reference count, the lock and the
    identity of every entry of the inode table, whatever the disk holds.
    Reading and writing files leaves all three alone; [iget], [idup], [iput],
    [ilock] and [iunlock] change one entry each; lookups return one reference. *)
From S2P Require Import Prelude CString Vm Fs FsFacts FsFile Pipe File FileFacts Sysfile.

(** ** Code that leaves the table's references and locks alone *)
Definition busy (i : inode) : bool := has_flag (i_flags i) I_BUSY.
Definition token (i : inode) : Z * bool * (Z * Z) := (i_ref i, busy i, inode_key i).
Definition quiet (s s' : fstate) : Prop := token <$> icache s' = token <$> icache s.
#[export] Instance quiet_preorder : PreOrder quiet.
Proof. split; [done|]. intros x y z H1 H2. unfold quiet in *. congruence. Qed.

Lemma quiet_set_inode ip f : (forall i, token (f i) = token i) -> respects quiet (set_inode ip f).
Proof.
  intros Hf s a s'. unfold set_inode. destruct (ip <? 0); [done|].
  destruct (icache s !! Z.to_nat ip) as [i|] eqn:E; [|done]. intros [= <- <-]. unfold quiet. cbn [icache].
  rewrite list_fmap_insert, Hf. apply list_insert_id. by rewrite list_lookup_fmap, E.
Qed.
Lemma quiet_inode_at ip : respects quiet (inode_at ip).
Proof. intros s a s'. unfold inode_at. by destruct (if ip <? 0 then _ else _); intros [= <- <-]. Qed.
Lemma quiet_set_disk f : respects quiet (set_disk f).
Proof. by apply respects_modify. Qed.
Lemma quiet_log e : respects quiet (log_call e).
Proof. by apply respects_modify. Qed.
Create HintDb quiet.
#[export] Hint Resolve quiet_inode_at quiet_set_disk quiet_log : quiet.
Ltac quiet_call := first
  [ solve [auto with quiet]
  | apply quiet_log | apply quiet_set_inode; by intros
  | apply respects_mfor; [apply _|] ].
Ltac quietly := respects_with quiet_call.

Lemma quiet_balloc : respects quiet balloc.
Proof. unfold balloc, readsb, bzero. quietly. Qed.
Lemma quiet_bfree b : respects quiet (bfree b).
Proof. unfold bfree, readsb. quietly. Qed.
Lemma quiet_iupdate ip : respects quiet (iupdate ip).
Proof. unfold iupdate. quietly. Qed.
#[export] Hint Resolve quiet_balloc quiet_bfree quiet_iupdate : quiet.
Lemma quiet_bmap ip bn : respects quiet (bmap ip bn).
Proof. unfold bmap, bmap_slot, bmap_entry. quietly. Qed.
Lemma quiet_itrunc ip : respects quiet (itrunc ip).
Proof. unfold itrunc. quietly. Qed.
Lemma quiet_add_nlink ip d : respects quiet (add_nlink ip d).
Proof. unfold add_nlink. quietly. Qed.
#[export] Hint Resolve quiet_bmap quiet_itrunc quiet_add_nlink : quiet.

Section Devices.
Context (devsw : Z -> devops).
(** A device function uses the inode it is called with, and leaves the
    references and locks of the table as it found them. *)
Definition quiet_devices : Prop := forall major,
  (forall f, dev_read (devsw major) = Some f -> forall ip n, respects quiet (f ip n)) /\
  (forall f, dev_write (devsw major) = Some f -> forall ip l, respects quiet (f ip l)).
Context (Hdev : quiet_devices).

Lemma quiet_readi ip off n : respects quiet (readi devsw ip off n).
Proof using Hdev.
  assert (Hl : forall fuel off n tot, respects quiet (readi_loop fuel ip off n tot)).
  { induction fuel; intros; cbn [readi_loop]; quietly. }
  unfold readi. apply respects_bind; [apply quiet_inode_at|]. intros i.
  destruct (i_type i =? T_DEV); [|quietly; apply Hl].
  destruct (_ || _); [quietly|]. destruct (dev_read _) eqn:E; [|quietly]. by apply (Hdev (i_major i)).
Qed.
Lemma quiet_writei ip l off : respects quiet (writei devsw ip l off).
Proof using Hdev.
  assert (Hl : forall fuel src off, respects quiet (writei_loop fuel ip src off)).
  { induction fuel; intros; cbn [writei_loop]; quietly. }
  unfold writei. apply respects_bind; [apply quiet_inode_at|]. intros i.
  destruct (i_type i =? T_DEV); [|quietly; apply Hl].
  destruct (_ || _); [quietly|]. destruct (dev_write _) eqn:E; [|quietly]. by apply (Hdev (i_major i)).
Qed.
Hint Resolve quiet_readi quiet_writei : quiet.
Lemma quiet_free_entry fuel dp off : respects quiet (free_entry devsw fuel dp off).
Proof using Hdev. revert off. induction fuel; intros; cbn [free_entry]; unfold read_entry; quietly. Qed.
Lemma quiet_isdirempty dp : respects quiet (isdirempty devsw dp).
Proof using Hdev.
  assert (Hl : forall fuel off, respects quiet (isdirempty_loop devsw fuel dp off)).
  { induction fuel; intros; cbn [isdirempty_loop]; quietly. }
  unfold isdirempty. quietly.
Qed.
Hint Resolve quiet_free_entry quiet_isdirempty : quiet.

(** ** Accounts of references and locks

    [r] and [b] give the reference count and the lock of every entry; [E] the
    references that others hold for sure, which pin the entry's inode to
    [key].  An entry without references is not locked. *)
Context (E : Z -> Z) (key : Z -> Z * Z).
Record entry_acct (r : Z -> Z) (b : Z -> bool) (z : Z) (i : inode) : Prop := mkAcct {
  ea_ref : i_ref i = r z;
  ea_busy : busy i = b z;
  ea_pos : 0 <= E z <= r z;
  ea_free : r z = 0 -> b z = false;
  ea_key : 0 < E z -> inode_key i = key z }.
Definition acct (r : Z -> Z) (b : Z -> bool) (s : fstate) : Prop :=
  forall j i, icache s !! j = Some i -> entry_acct r b (Z.of_nat j) i.

Lemma acct_quiet r b s s' : quiet s s' -> acct r b s -> acct r b s'.
Proof using.
  intros Hq H j i Hj. assert (Ht : (token <$> icache s') !! j = Some (token i)) by (by rewrite list_lookup_fmap, Hj).
  rewrite Hq, list_lookup_fmap in Ht. destruct (icache s !! j) as [i0|] eqn:E0; [|done].
  injection Ht as H1 H2 H3 H4. destruct (H j i0 E0) as [A1 A2 A3 A4 A5]. split; try done; [congruence..|].
  intros HE. rewrite <- A5 by done. unfold inode_key. congruence.
Qed.
Lemma acct_ext r b r' b' s : (forall z, r' z = r z) -> (forall z, b' z = b z) -> acct r b s -> acct r' b' s.
Proof using.
  intros Hr Hb H j i Hj. destruct (H j i Hj). split; rewrite ?Hr, ?Hb; done.
Qed.
(** One entry changes. *)
Lemma acct_set r b r' b' s a s' ip f :
  set_inode ip f s = Ok (a, s') -> acct r b s ->
  (forall i, entry_acct r b ip i -> entry_acct (upd r ip r') (upd b ip b') ip (f i)) ->
  acct (upd r ip r') (upd b ip b') s'.
Proof using.
  unfold set_inode. destruct (Z.ltb_spec ip 0); [done|]. destruct (icache s !! Z.to_nat ip) as [i|] eqn:Ei; [|done].
  intros [= <- <-] Hacc Hf j x Hx. cbn [icache] in Hx.
  apply list_lookup_insert_Some in Hx as [(<- & <- & _)|[Hne Hx]].
  - rewrite Z2Nat.id by done. apply Hf. specialize (Hacc _ _ Ei). by rewrite Z2Nat.id in Hacc.
  - destruct (Hacc j x Hx). assert (Z.of_nat j <> ip) by lia. by split; rewrite ?upd_ne.
Qed.
Lemma inode_at_acct r b s ip i s' : inode_at ip s = Ok (i, s') -> acct r b s ->
  s' = s /\ entry_acct r b ip i.
Proof using.
  unfold inode_at. destruct (Z.ltb_spec ip 0); [done|]. destruct (icache s !! Z.to_nat ip) as [x|] eqn:Ei; [|done].
  intros [= <- <-] Hacc. split; [done|]. specialize (Hacc _ _ Ei). by rewrite Z2Nat.id in Hacc.
Qed.
Lemma acct_set_ref r b r' s a s' ip f :
  set_inode ip f s = Ok (a, s') -> acct r b s ->
  (forall i, entry_acct r b ip i -> entry_acct (upd r ip r') b ip (f i)) ->
  acct (upd r ip r') b s'.
Proof using.
  intros Hs H Hf. apply (acct_ext (upd r ip r') (upd b ip (b ip))); [done | by intros; rewrite upd_self|].
  eapply acct_set; [exact Hs | done|]. intros i Hi. destruct (Hf i Hi). split; rewrite ?upd_self; done.
Qed.

(** ** The calls of fs.c that change an account *)

(** One more reference than [r] says, to entry [ip]. *)
Record obtained (r : Z -> Z) (b : Z -> bool) (ip : Z) (s : fstate) : Prop := mkObtained {
  ob_acct : acct (upd r ip (r ip + 1)) b s;
  ob_busy : b ip = true -> 0 < r ip;
  ob_pos : 0 <= E ip <= r ip }.
Lemma acct_iget r b s ip s' dev inum : iget dev inum s = Ok (ip, s') -> acct r b s ->
  obtained r b ip s'.
Proof using.
  unfold iget. intros H Ha. apply bind_inv in H as (? & s0 & [= -> ->] & H).
  pose proof (iget_scan_spec (icache s0) dev inum 0 None) as Hs.
  destruct (iget_scan _ _ _ _ _) as [z|[z|]]; [| |done].
  - destruct Hs as (j & i & -> & Hj & Hh & _). rewrite Z.add_0_l in *. destruct (Ha j i Hj) as [A1 A2 A3 A4 A5].
    apply bind_inv in H as (? & s1 & Hset & [= <- <-]). split; [|by lia|done].
    eapply acct_set_ref; [exact Hset | done|]. intros y [B1 B2 B3 B4 B5].
    split; rewrite ?upd_eq; [cbn; lia | done | lia | lia | done].
  - destruct Hs as (Hno & [?|(_ & j & i & -> & Hj & Hr)]); [done|]. rewrite Z.add_0_l in *.
    destruct (Ha j i Hj) as [A1 A2 A3 A4 A5].
    apply bind_inv in H as (? & s1 & Hset & [= <- <-]). split; [|intros Hb; rewrite A4 in Hb; [done | lia] | done].
    eapply acct_set_ref; [exact Hset | done|]. intros y [B1 B2 B3 B4 B5].
    split; rewrite ?upd_eq; [cbn; lia | rewrite A4 by lia; done | lia | lia | lia].
Qed.
Lemma acct_idup r b s ip ip' s' : idup ip s = Ok (ip', s') -> acct r b s ->
  ip' = ip /\ obtained r b ip s'.
Proof using.
  unfold idup. intros H Ha. apply bind_inv in H as (? & s1 & Hset & [= <- <-]).
  assert (Hat : exists i, inode_at ip s = Ok (i, s)).
  { unfold set_inode in Hset. unfold inode_at. destruct (if ip <? 0 then _ else _); [by eexists | done]. }
  destruct Hat as (i & Hat). destruct (inode_at_acct _ _ _ _ _ _ Hat Ha) as [_ [A1 A2 A3 A4 A5]].
  split; [done|]. split.
  - eapply acct_set_ref; [exact Hset | done|]. intros y [B1 B2 B3 B4 B5].
    split; rewrite ?upd_eq; [cbn; lia | done | lia | lia | done].
  - intros Hb. destruct (Z.eq_dec (r ip) 0) as [H0|]; [by rewrite A4 in Hb | lia].
  - done.
Qed.
Lemma busy_set f : has_flag (Z.lor f I_BUSY) I_BUSY = true.
Proof using. rewrite flag_bit, Z.lor_spec. unfold I_BUSY. by rewrite orb_comm. Qed.
Lemma busy_cleared f : has_flag (Z.land f (Z.lnot I_BUSY)) I_BUSY = false.
Proof using. rewrite flag_bit, Z.land_spec. by rewrite andb_false_r. Qed.
Lemma busy_valid f : has_flag (Z.lor f I_VALID) I_BUSY = has_flag f I_BUSY.
Proof using. rewrite !flag_bit, Z.lor_spec. by rewrite orb_false_r. Qed.

Lemma acct_ilock r b s ip a s' : ilock ip s = Ok (a, s') -> acct r b s ->
  acct r (upd b ip true) s' /\ b ip = false /\ 0 < r ip.
Proof using.
  unfold ilock. intros H Ha. apply bind_inv in H as (i & s0 & Hat & H).
  destruct (inode_at_acct _ _ _ _ _ _ Hat Ha) as [-> [A1 A2 A3 A4 A5]].
  destruct (Z.ltb_spec (i_ref i) 1); [done|]. fold (busy i) in H. destruct (busy i) eqn:Eb; [done|].
  apply bind_inv in H as (? & s1 & Hset & H).
  assert (H1 : acct r (upd b ip true) s1).
  { apply (acct_ext (upd r ip (r ip)) (upd b ip true)); [by intros; rewrite upd_self | done|].
    eapply acct_set; [exact Hset | done|]. intros y [B1 B2 B3 B4 B5].
    split; rewrite ?upd_eq; [done | apply busy_set | lia | lia | done]. }
  split; [|split; [done | lia]].
  apply bind_inv in H as (i1 & s2 & Hat1 & H). destruct (inode_at_acct _ _ _ _ _ _ Hat1 H1) as [-> _].
  destruct (negb _); [|by injection H as <- <-].
  apply bind_inv in H as (? & s2 & [= -> ->] & H). apply bind_inv in H as (? & s3 & Hl & H).
  apply bind_inv in H as (? & s4 & Hv & H). apply bind_inv in H as (i4 & s5 & Hat4 & H).
  assert (Hq : quiet s2 s').
  { transitivity s3; [by eapply (quiet_set_inode _ (load_inode (fdisk s2))) in Hl|].
    transitivity s4; [eapply (quiet_set_inode _ _) in Hv; [done|]; intros y; unfold token, busy; cbn; by rewrite busy_valid|].
    transitivity s5; [by eapply quiet_inode_at|]. destruct (_ =? 0); [done|]. by injection H as <- <-. }
  by eapply acct_quiet.
Qed.
Lemma acct_iunlock r b s ip a s' : iunlock ip s = Ok (a, s') -> acct r b s ->
  acct r (upd b ip false) s'.
Proof using.
  unfold iunlock. intros H Ha. apply bind_inv in H as (i & s0 & Hat & H).
  destruct (inode_at_acct _ _ _ _ _ _ Hat Ha) as [-> _]. destruct (_ || _); [done|].
  apply (acct_ext (upd r ip (r ip)) (upd b ip false)); [by intros; rewrite upd_self | done|].
  eapply acct_set; [exact H | done|]. intros y [B1 B2 B3 B4 B5].
  split; rewrite ?upd_eq; [done | apply busy_cleared | lia | done | done].
Qed.

Lemma acct_iput r b s ip a s' : iput ip s = Ok (a, s') -> acct r b s -> E ip < r ip ->
  (b ip = true -> 1 < r ip) -> acct (upd r ip (r ip - 1)) b s'.
Proof using.
  unfold iput. intros H Ha HE Hb. apply bind_inv in H as (i & s0 & Hat & H).
  destruct (inode_at_acct _ _ _ _ _ _ Hat Ha) as [-> [A1 A2 A3 A4 A5]].
  apply bind_inv in H as (? & s1 & Hc & H).
  assert (H1 : acct r b s1).
  { destruct (_ && _ && _) eqn:Ec; [|by injection Hc as <- <-]. fold (busy i) in Hc. destruct (busy i) eqn:Eb; [done|].
    apply bind_inv in Hc as (? & s2 & Hset & Hc).
    assert (H2 : acct (upd r ip (r ip)) (upd b ip true) s2).
    { eapply acct_set; [exact Hset | done|]. intros y [B1 B2 B3 B4 B5].
      split; rewrite ?upd_eq; [done | apply busy_set | lia | lia | done]. }
    apply bind_inv in Hc as (? & s3 & Ht & Hc). apply quiet_itrunc in Ht.
    apply bind_inv in Hc as (? & s4 & Hty & Hc). apply quiet_set_inode in Hty; [|done].
    apply bind_inv in Hc as (? & s5 & Hu & Hc). apply quiet_iupdate in Hu.
    assert (Hq : quiet s2 s5) by (by rewrite Ht, Hty).
    eapply acct_quiet in H2; [|exact Hq].
    apply (acct_ext (upd (upd r ip (r ip)) ip (r ip)) (upd (upd b ip true) ip false));
      [by intros z; unfold upd; destruct (Z.eqb_spec z ip) as [->|] |
       by intros z; unfold upd; destruct (Z.eqb_spec z ip) as [->|] |].
    eapply acct_set; [exact Hc | exact H2|]. intros y [B1 B2 B3 B4 B5]. rewrite ?upd_eq in *.
    split; rewrite ?upd_eq; [done | done | lia | done | done]. }
  eapply acct_set_ref; [exact H | done|]. intros y [B1 B2 B3 B4 B5].
  split; rewrite ?upd_eq; [cbn; lia | done | lia | | done].
  intros H0. destruct (b ip); [lia | done].
Qed.
Lemma acct_iunlockput r b s ip a s' : iunlockput ip s = Ok (a, s') -> acct r b s -> E ip < r ip ->
  acct (upd r ip (r ip - 1)) (upd b ip false) s'.
Proof using.
  unfold iunlockput. intros H Ha HE. apply bind_inv in H as (? & s1 & Hu & H).
  eapply acct_iunlock in Hu; [|done]. eapply acct_iput in H; [done.. |]. by rewrite upd_eq.
Qed.
(** A reference that was obtained is given back. *)
Lemma obtained_iput r b s ip a s' : iput ip s = Ok (a, s') -> obtained r b ip s -> acct r b s'.
Proof using.
  intros H [H1 H2 H3]. eapply acct_iput in H; [|exact H1|rewrite upd_eq; lia|rewrite upd_eq; intros Hb; specialize (H2 Hb); lia].
  eapply acct_ext; [| |exact H]; upd_cases.
Qed.
(** A reference that was obtained and locked is unlocked and given back. *)
Lemma obtained_locked r b s ip a s' : b ip = false -> 0 <= E ip <= r ip ->
  iunlockput ip s = Ok (a, s') -> acct (upd r ip (r ip + 1)) (upd b ip true) s -> acct r b s'.
Proof using.
  intros Hb HE H Ha. eapply acct_iunlockput in H; [|exact Ha|rewrite upd_eq; lia].
  eapply acct_ext; [| |exact H]; upd_cases.
Qed.

Lemma acct_dirlookup r b s dp nm o s' : dirlookup devsw dp nm s = Ok (o, s') -> acct r b s ->
  match o with Some (ip, _) => obtained r b ip s' | None => acct r b s' end.
Proof using Hdev.
  assert (Hl : forall fuel off s, dirlookup_loop devsw fuel dp off nm s = Ok (o, s') -> acct r b s ->
    match o with Some (ip, _) => obtained r b ip s' | None => acct r b s' end).
  { induction fuel as [|fuel IH]; intros off s0 H Ha; [done|]. cbn [dirlookup_loop] in H.
    apply bind_inv in H as (i & s1 & Hat & H). destruct (inode_at_acct _ _ _ _ _ _ Hat Ha) as [-> _].
    destruct (off <? i_size i); [|by injection H as <- <-]. apply bind_inv in H as (de & s2 & Hr & H).
    assert (Hq : quiet s0 s2) by (revert Hr; generalize de, s2; unfold read_entry; intros; eapply respects_bind; [apply quiet_readi|..|eassumption]; intros []; quietly).
    eapply acct_quiet in Ha; [|exact Hq]. destruct (de_inum de =? 0); [by eapply IH|].
    destruct (namecmp _ _ =? 0); [|by eapply IH]. apply bind_inv in H as (ip & s3 & Hg & [= <- <-]).
    by eapply acct_iget. }
  unfold dirlookup. intros H Ha. apply bind_inv in H as (i & s1 & Hat & H).
  destruct (inode_at_acct _ _ _ _ _ _ Hat Ha) as [-> _]. destruct (negb _); [done|]. by eapply Hl.
Qed.
Lemma acct_dirlink r b s dp nm inum v s' : dirlink devsw dp nm inum s = Ok (v, s') -> acct r b s -> acct r b s'.
Proof using Hdev.
  unfold dirlink. intros H Ha. apply bind_inv in H as (o & s1 & Hl & H). eapply acct_dirlookup in Hl; [|done].
  destruct o as [[ip off]|].
  - apply bind_inv in H as (? & s2 & Hp & [= <- <-]). by eapply obtained_iput.
  - eapply acct_quiet; [|exact Hl]. revert H. generalize v, s'.
    assert (Hq : respects quiet (i <- inode_at dp ;; off <- free_entry devsw (S (Z.to_nat (i_size i))) dp 0 ;;
      r0 <- writei devsw dp (dirent inum nm) off ;; if negb (r0 =? DIRENT) then panic "dirlink" else ret 0)) by quietly.
    intros. by eapply Hq.
Qed.

(** [iunlockput] of the directory after a lookup in it. *)
Lemma lookup_unlockput r b s ip next a s' : b ip = false -> 0 <= E ip <= r ip ->
  obtained (upd r ip (r ip + 1)) (upd b ip true) next s -> iunlockput ip s = Ok (a, s') -> obtained r b next s'.
Proof using.
  intros Hb HE [H1 H2 H3] H. eapply acct_iunlockput in H; [|exact H1|unfold upd; repeat case Z.eqb_spec; lia].
  split.
  - eapply acct_ext; [| |exact H]; upd_cases.
  - intros Hn. unfold upd in H2. destruct (Z.eqb_spec next ip) as [->|]; [congruence|]. auto.
  - unfold upd in H3. destruct (Z.eqb_spec next ip) as [->|]; done.
Qed.
Lemma acct_namex r b s cwd path np o s' : namex devsw cwd path np s = Ok (o, s') -> acct r b s ->
  match o with Some (ip, _) => obtained r b ip s' | None => acct r b s' end.
Proof using Hdev.
  assert (Hl : forall fuel ip path nm s, namex_loop devsw fuel ip path np nm s = Ok (o, s') -> obtained r b ip s ->
    match o with Some (ip, _) => obtained r b ip s' | None => acct r b s' end).
  { induction fuel as [|fuel IH]; intros ip p nm s0 H Ho; [done|]. cbn [namex_loop] in H.
    destruct (skipelem p) as [[nm' p']|].
    2:{ destruct np; [|by injection H as <- <-]. apply bind_inv in H as (? & s1 & Hp & [= <- <-]).
        by eapply obtained_iput. }
    destruct Ho as [Ha Hbz HE]. apply bind_inv in H as (? & s1 & Hlk & H).
    eapply acct_ilock in Hlk as (Ha1 & Hb & _); [|exact Ha].
    apply bind_inv in H as (i & s2 & Hat & H). destruct (inode_at_acct _ _ _ _ _ _ Hat Ha1) as [-> _].
    destruct (negb _).
    { apply bind_inv in H as (? & s3 & Hu & [= <- <-]). by eapply obtained_locked. }
    destruct (np && _).
    { apply bind_inv in H as (? & s3 & Hu & [= <- <-]). eapply acct_iunlock in Hu; [|exact Ha1]. split; try done.
      eapply acct_ext; [| |exact Hu]; upd_cases. }
    apply bind_inv in H as (o2 & s3 & Hd & H). eapply acct_dirlookup in Hd; [|exact Ha1].
    destruct o2 as [[next off]|]; apply bind_inv in H as (? & s4 & Hu & H).
    - eapply IH; [exact H|]. by eapply lookup_unlockput.
    - injection H as <- <-. by eapply obtained_locked. }
  unfold namex. intros H Ha. apply bind_inv in H as (ip & s1 & Hg & H). eapply Hl; [exact H|].
  destruct (_ =? slash); [by eapply acct_iget|]. by eapply acct_idup in Hg as [-> ?].
Qed.
Lemma acct_namei r b s cwd path o s' : namei devsw cwd path s = Ok (o, s') -> acct r b s ->
  match o with Some ip => obtained r b ip s' | None => acct r b s' end.
Proof using Hdev.
  unfold namei. intros H Ha. apply bind_inv in H as (o1 & s1 & Hn & [= <- <-]).
  eapply acct_namex in Hn; [|done]. by destruct o1 as [[ip nm]|].
Qed.

(** ** The inode part of the system calls *)

(** An inode just obtained, locked. *)
Record held (r : Z -> Z) (b : Z -> bool) (ip : Z) (s : fstate) : Prop := mkHeld {
  hd_acct : acct (upd r ip (r ip + 1)) (upd b ip true) s;
  hd_busy : b ip = false;
  hd_pos : 0 <= E ip <= r ip }.
Lemma obtained_ilock r b s ip a s' : ilock ip s = Ok (a, s') -> obtained r b ip s -> held r b ip s'.
Proof using. intros H [H1 H2 H3]. by eapply acct_ilock in H as (? & ? & _). Qed.
Lemma held_iunlock r b s ip a s' : iunlock ip s = Ok (a, s') -> held r b ip s -> obtained r b ip s'.
Proof using.
  intros H [H1 H2 H3]. eapply acct_iunlock in H; [|done]. split; [|congruence|done].
  eapply acct_ext; [| |exact H]; upd_cases.
Qed.
Lemma held_iunlockput r b s ip a s' : iunlockput ip s = Ok (a, s') -> held r b ip s -> acct r b s'.
Proof using. intros H [H1 H2 H3]. by eapply obtained_locked. Qed.
Lemma held_quiet r b ip s s' : quiet s s' -> held r b ip s -> held r b ip s'.
Proof using. intros Hq [H1 H2 H3]. split; try done. by eapply acct_quiet. Qed.
Lemma obtained_quiet r b ip s s' : quiet s s' -> obtained r b ip s -> obtained r b ip s'.
Proof using. intros Hq [H1 H2 H3]. split; try done. by eapply acct_quiet. Qed.
Lemma held_swap r b s dp ip a s' : b dp = false -> 0 <= E dp <= r dp ->
  held (upd r dp (r dp + 1)) (upd b dp true) ip s -> iunlockput dp s = Ok (a, s') -> held r b ip s'.
Proof using.
  intros Hb HE [H1 H2 H3] H. assert (Hne : ip <> dp) by (intros ->; by rewrite upd_eq in H2).
  rewrite upd_ne in H2 by done. rewrite upd_ne in H3 by done. eapply acct_iunlockput in H; [|exact H1|].
  2:{ unfold upd. repeat case Z.eqb_spec; lia. }
  split; [|done..]. eapply acct_ext; [| |exact H]; upd_cases.
Qed.
Lemma held_dirlink r b s ip dp nm inum v s' : dirlink devsw dp nm inum s = Ok (v, s') -> held r b ip s -> held r b ip s'.
Proof using Hdev. intros H [H1 H2 H3]. split; try done. by eapply acct_dirlink. Qed.
Lemma acct_ialloc r b s dev ty ip s' : ialloc dev ty s = Ok (ip, s') -> acct r b s -> obtained r b ip s'.
Proof using.
  unfold ialloc, readsb. intros H Ha. apply bind_inv in H as (sb & s1 & [= <- <-] & H).
  apply bind_inv in H as (? & s2 & [= -> ->] & H). destruct (ialloc_scan _ _ _ _); [|done].
  apply bind_inv in H as (? & s3 & H1 & H). apply bind_inv in H as (? & s4 & H2 & H).
  apply bind_inv in H as (? & s5 & H3 & H). apply quiet_set_disk in H1, H2. apply quiet_log in H3.
  eapply acct_iget; [exact H|]. eapply acct_quiet; [|exact Ha]. by rewrite H1, H2.
Qed.
(** A step that is quiet. *)
Tactic Notation "calm" hyp(H) "as" simple_intropattern(x) :=
  let Q := fresh "Q" in let s1 := fresh "s" in let HQ := fresh "HQ" in
  apply bind_inv in H as (x & s1 & Q & H);
  match type of Q with ?c ?s0 = Ok _ =>
    assert (HQ : quiet s0 s1) by (refine ((_ : respects quiet c) _ _ _ Q); quietly); clear Q;
    match goal with
    | K : held _ _ _ s0 |- _ => apply (held_quiet _ _ _ _ _ HQ) in K
    | K : obtained _ _ _ s0 |- _ => apply (obtained_quiet _ _ _ _ _ HQ) in K
    | K : acct _ _ s0 |- _ => apply (acct_quiet _ _ _ _ HQ) in K
    end; clear HQ
  end.
(** A step with the lemma [L] for it. *)
Tactic Notation "step" hyp(H) "as" simple_intropattern(x) "by" uconstr(L) "to" ident(K) :=
  let s1 := fresh "s" in
  apply bind_inv in H as (x & s1 & K & H); eapply L in K; [|eassumption].

Lemma acct_link_bad r b s ip a s' : link_bad ip s = Ok (a, s') -> obtained r b ip s -> acct r b s'.
Proof using.
  unfold link_bad. intros H Ho. step H as ? by obtained_ilock to Hl. calm H as ?.
  step H as ? by held_iunlockput to Hu. calm H as ?. by injection H as <- <-.
Qed.
Lemma acct_end {A} r b s (x y : A) s' : (end_op ;;; ret x) s = Ok (y, s') -> acct r b s -> y = x /\ acct r b s'.
Proof using. intros H Ha. calm H as ?. by injection H as <- <-. Qed.
Lemma acct_link r b s cwd old new a s' : link devsw cwd old new s = Ok (a, s') -> acct r b s -> acct r b s'.
Proof using Hdev.
  unfold link. intros H Ha. calm H as ?. step H as o by acct_namei to Hn.
  destruct o as [ip|]; [|by eapply acct_end in H as [_ ?]].
  step H as ? by obtained_ilock to Hl. calm H as i. destruct (i_type i =? T_DIR).
  { step H as ? by held_iunlockput to Hu. by eapply acct_end in H as [_ ?]. }
  calm H as ?. step H as ? by held_iunlock to Ho. destruct Ho as [O1 O2 O3].
  step H as o by acct_namex to Hp. destruct o as [[dp nm]|]; [|by eapply acct_link_bad].
  step H as ? by obtained_ilock to Hd. calm H as d. calm H as i'. apply bind_inv in H as (bad & t & Hbad & H).
  assert (Ht : held (upd r ip (r ip + 1)) b dp t).
  { destruct (negb _); [by injection Hbad as <- <-|]. apply bind_inv in Hbad as (? & ? & ? & [= <- <-]).
    by eapply held_dirlink. }
  destruct bad; step H as ? by held_iunlockput to Hu; [by eapply acct_link_bad|].
  apply bind_inv in H as (? & t' & Hi & H). eapply obtained_iput in Hi; [|done]. by eapply acct_end in H as [_ ?].
Qed.

Lemma acct_unlink_bad r b s dp a s' : unlink_bad dp s = Ok (a, s') -> held r b dp s -> acct r b s'.
Proof using.
  unfold unlink_bad. intros H Hh. step H as ? by held_iunlockput to Hu. by eapply acct_end in H as [_ ?].
Qed.
Lemma acct_unlink r b s cwd path a s' : unlink devsw cwd path s = Ok (a, s') -> acct r b s -> acct r b s'.
Proof using Hdev.
  unfold unlink. intros H Ha. calm H as ?. step H as o by acct_namex to Hn.
  destruct o as [[dp nm]|]; [|by eapply acct_end in H as [_ ?]].
  step H as ? by obtained_ilock to Hl. destruct (_ || _); [by eapply acct_unlink_bad|].
  destruct Hl as [L1 L2 L3]. step H as o by acct_dirlookup to Hd.
  destruct o as [[ip off]|]; [|by eapply acct_unlink_bad].
  step H as ? by obtained_ilock to Hi. calm H as i. destruct (i_nlink i <? 1); [done|]. calm H as full.
  destruct full.
  { step H as ? by held_iunlockput to Hu. by eapply acct_unlink_bad. }
  calm H as w. destruct (negb _); [done|]. calm H as ?.
  apply bind_inv in H as (? & t & Hu & H). eapply held_swap in Hi; [|done..]. calm H as ?.
  step H as ? by held_iunlockput to Hp. by eapply acct_end in H as [_ ?].
Qed.

Lemma acct_create r b s cwd path ty mj mn o s' : create devsw cwd path ty mj mn s = Ok (o, s') -> acct r b s ->
  match o with Some ip => held r b ip s' | None => acct r b s' end.
Proof using Hdev.
  unfold create. intros H Ha. step H as o1 by acct_namex to Hn.
  destruct o1 as [[dp nm]|]; [|by injection H as <- <-].
  step H as ? by obtained_ilock to Hl. destruct Hl as [L1 L2 L3]. step H as o1 by acct_dirlookup to Hd.
  destruct o1 as [[ip off]|].
  - apply bind_inv in H as (? & t & Hu & H). eapply lookup_unlockput in Hd; [|done..].
    step H as ? by obtained_ilock to Hi. calm H as i. destruct (_ && _); [by injection H as <- <-|].
    step H as ? by held_iunlockput to Hp. by injection H as <- <-.
  - calm H as d. step H as ip by acct_ialloc to Hi. step H as ? by obtained_ilock to Hh.
    calm H as ?. calm H as ?. calm H as i. apply bind_inv in H as (? & t & Hdots & H).
    assert (Ht : held (upd r dp (r dp + 1)) (upd b dp true) ip t).
    { destruct (ty =? T_DIR); [|by injection Hdots as <- <-]. calm Hdots as ?.
      step Hdots as v by held_dirlink to Hv. destruct (v <? 0); [done|].
      step Hdots as v2 by held_dirlink to Hv2. destruct (v2 <? 0); [done|]. by injection Hdots as <- <-. }
    step H as v by held_dirlink to Hv. destruct (v <? 0); [done|].
    apply bind_inv in H as (? & t' & Hu & [= <- <-]). by eapply held_swap.
Qed.
Lemma acct_open_inode r b s cwd path omode o s' : open_inode devsw cwd path omode s = Ok (o, s') -> acct r b s ->
  match o with Some ip => held r b ip s' | None => acct r b s' end.
Proof using Hdev.
  unfold open_inode. intros H Ha. calm H as ?. destruct (negb _).
  - step H as o1 by acct_create to Hc. destruct o1; [by injection H as <- <-|]. by eapply acct_end in H as [-> ?].
  - step H as o1 by acct_namei to Hn. destruct o1 as [ip|]; [|by eapply acct_end in H as [-> ?]].
    step H as ? by obtained_ilock to Hl. calm H as i. destruct (_ && _); [|by injection H as <- <-].
    step H as ? by held_iunlockput to Hu. by eapply acct_end in H as [-> ?].
Qed.
Lemma acct_make_node r b s cwd path ty mj mn a s' : make_node devsw cwd path ty mj mn s = Ok (a, s') ->
  acct r b s -> acct r b s'.
Proof using Hdev.
  unfold make_node. intros H Ha. step H as o by acct_create to Hc. destruct o as [ip|].
  - step H as ? by held_iunlockput to Hu. by eapply acct_end in H as [_ ?].
  - by eapply acct_end in H as [_ ?].
Qed.
Lemma acct_find_dir r b s cwd path o s' : find_dir devsw cwd path s = Ok (o, s') -> acct r b s ->
  match o with Some ip => obtained r b ip s' | None => acct r b s' end.
Proof using Hdev.
  unfold find_dir. intros H Ha. step H as o1 by acct_namei to Hn.
  destruct o1 as [ip|]; [|by eapply acct_end in H as [-> ?]].
  step H as ? by obtained_ilock to Hl. calm H as i. destruct (negb _).
  - step H as ? by held_iunlockput to Hu. by eapply acct_end in H as [-> ?].
  - step H as ? by held_iunlock to Hu. by injection H as <- <-.
Qed.
End Devices.
