(* ===== verification/SysfileRefs.v ===== *)
(** * SysfileRefs: who holds files and inodes (src/src/sysfile.c, src/src/file.c)

    Every reference count of the kernel's file and inode tables is the number
    of its holders: a file's is the number of descriptors of all processes, an
    inode's the number of open files and current directories on it, plus the
    references of calls that other processes are in the middle of. *)
From S2P Require Import Prelude CString Vm VmFacts Fs FsFacts FsFile Pipe File FileFacts Proc Syscall Sysfile InodeRefs.

(** ** Sums over tables *)
Definition sumZ {A} (g : A -> Z) (l : list A) : Z := fold_right (fun x acc => g x + acc) 0 l.
Lemma sumZ_insert {A} (g : A -> Z) l : forall k x y, l !! k = Some x ->
  sumZ g (<[k := y]> l) = sumZ g l - g x + g y.
Proof.
  induction l as [|a l IH]; intros [|k] x y H; [done..| |]; cbn in H.
  - injection H as ->. cbn. lia.
  - specialize (IH k x y H). change (g a + sumZ g (<[k := y]> l) = g a + sumZ g l - g x + g y). lia.
Qed.
Lemma sumZ_pos {A} (g : A -> Z) l : (forall x, 0 <= g x) -> 0 <= sumZ g l.
Proof. intros H. induction l as [|a l IH]; [done|]. cbn. specialize (H a). unfold sumZ in IH. lia. Qed.
Lemma sumZ_member {A} (g : A -> Z) l : forall k x, (forall x, 0 <= g x) -> l !! k = Some x -> g x <= sumZ g l.
Proof.
  induction l as [|a l IH]; intros [|k] x Hg H; [done..| |]; cbn in H |- *.
  - injection H as ->. pose proof (sumZ_pos g l Hg) as Hp. unfold sumZ in Hp. lia.
  - specialize (IH k x Hg H). specialize (Hg a). unfold sumZ in IH. lia.
Qed.

(** ** Holders *)
Definition one (P : Prop) `{!Decision P} : Z := if decide P then 1 else 0.
Lemma one_pos P `{!Decision P} : 0 <= one P.
Proof. unfold one. by case_decide. Qed.
(** Open files on inode entry [j]. *)
Definition on_inode (j : Z) (x : file) : Z := one (0 < f_ref x /\ f_type x = FD_INODE /\ f_ip x = j).
Definition open_refs (t : list file) (j : Z) : Z := sumZ (on_inode j) t.
(** Descriptors of a process for file [f], and its current directory. *)
Definition fds (f : Z) (x : proc) : Z := sumZ (fun o => one (o = Some f)) (ofile x).
Definition in_dir (j : Z) (x : proc) : Z := one (cwd x = Some j).
Definition over_procs (g : proc -> Z) (t : Z -> proc) : Z := sumZ g (t <$> table_order).
Definition fd_refs (t : Z -> proc) (f : Z) : Z := over_procs (fds f) t.
Definition cwd_refs (t : Z -> proc) (j : Z) : Z := over_procs (in_dir j) t.

Lemma over_procs_upd g t p y : 0 <= p < NPROC -> over_procs g (upd t p y) = over_procs g t - g (t p) + g y.
Proof.
  intros Hp. unfold over_procs.
  assert (Hm : upd t p y <$> table_order = <[Z.to_nat p := y]> (t <$> table_order)).
  { apply list_eq. intros k. rewrite list_lookup_fmap.
    destruct (decide (k = Z.to_nat p)) as [->|Hne].
    - rewrite list_lookup_insert_eq by (rewrite length_fmap; unfold table_order; rewrite length_seqZ; unfold NPROC in *; lia).
      unfold table_order. rewrite lookup_seqZ_lt by (unfold NPROC in *; lia). cbn.
      rewrite Z.add_0_l, Z2Nat.id by lia. by rewrite upd_eq.
    - rewrite list_lookup_insert_ne by done. rewrite list_lookup_fmap. destruct (table_order !! k) as [q|] eqn:Eq; [|done].
      unfold table_order in Eq. apply lookup_seqZ in Eq as [-> Hk]. cbn. by rewrite upd_ne by lia. }
  rewrite Hm. apply sumZ_insert. unfold table_order. rewrite list_lookup_fmap, lookup_seqZ_lt by (unfold NPROC in *; lia).
  cbn. by rewrite Z.add_0_l, Z2Nat.id by lia.
Qed.
Lemma on_inode_pos j x : 0 <= on_inode j x.
Proof. apply one_pos. Qed.
Lemma open_refs_set t f x y j : t !! f = Some x -> open_refs (<[f := y]> t) j = open_refs t j - on_inode j x + on_inode j y.
Proof. apply sumZ_insert. Qed.

Lemma on_inode_same j y y' : (0 < f_ref y <-> 0 < f_ref y') -> f_type y' = f_type y -> f_ip y' = f_ip y ->
  on_inode j y' = on_inode j y.
Proof. intros H1 H2 H3. unfold on_inode, one. rewrite H2, H3. repeat case_decide; tauto. Qed.
Lemma on_inode_none j y : f_type y <> FD_INODE \/ f_ref y <= 0 -> on_inode j y = 0.
Proof. intros H. unfold on_inode, one. case_decide as Hd; [|done]. destruct Hd as (H1 & H2 & _). destruct H; [done | lia]. Qed.

(** ** The file table *)
Section Accounts.
Context (devsw : Z -> devops) (Hdev : quiet_devices devsw) (kend : Z).
Context (E : Z -> Z) (key : Z -> Z * Z).
Abbreviation acct := (acct E key).

(** [cnt] gives the reference count of each file, [x] the references to inodes
    that are not those of open files. *)
Definition files_ok (cnt : Z -> Z) (t : list file) : Prop := forall f x, t !! f = Some x ->
  f_ref x = cnt (Z.of_nat f) /\ 0 <= f_ref x /\ (f_ref x = 0 -> f_type x = FD_NONE).
Record kacct (cnt x : Z -> Z) (b : Z -> bool) (s : kfiles) : Prop := mkKacct {
  ka_files : files_ok cnt (ftable (snd s));
  ka_inodes : acct (fun j => x j + open_refs (ftable (snd s)) j) b (fsys (snd s)) }.

Lemma kacct_ext cnt cnt' x x' b b' s : (forall f, cnt' f = cnt f) -> (forall j, x' j = x j) -> (forall j, b' j = b j) ->
  kacct cnt x b s -> kacct cnt' x' b' s.
Proof using.
  intros Hc Hx Hb [H1 H2]. split.
  - intros f y Hf. rewrite Hc. by apply H1.
  - eapply acct_ext; [| |exact H2]; [|done]. intros z. by rewrite Hx.
Qed.
Lemma file_at_inv s f y s' : file_at f s = Ok (y, s') -> s' = s /\ exists k, f = Z.of_nat k /\ ftable (snd s) !! k = Some y.
Proof using.
  unfold file_at. destruct (Z.ltb_spec f 0); [done|]. destruct (ftable (snd s) !! Z.to_nat f) as [z|] eqn:Ez; [|done].
  intros [= <- <-]. split; [done|]. exists (Z.to_nat f). split; [lia | done].
Qed.
Lemma set_file_inv s k y g a s' : set_file (Z.of_nat k) g s = Ok (a, s') -> ftable (snd s) !! k = Some y ->
  s' = (fst s, mkFilesys (<[k := g y]> (ftable (snd s))) (fsys (snd s)) (pipes (snd s))).
Proof using. intros H Hk. rewrite (set_file_run _ _ _ _ Hk) in H. by injection H as _ <-. Qed.
(** One entry of the file table changes; [d] is what it does to the open files. *)
Lemma kacct_file cnt x b s k y y' n :
  kacct cnt x b s -> ftable (snd s) !! k = Some y -> f_ref y' = n -> 0 <= n -> (n = 0 -> f_type y' = FD_NONE) ->
  kacct (upd cnt (Z.of_nat k) n) (fun j => x j + on_inode j y - on_inode j y') b
    (fst s, mkFilesys (<[k := y']> (ftable (snd s))) (fsys (snd s)) (pipes (snd s))).
Proof using.
  intros [H1 H2] Hk Hn H0 Ht. split; cbn [fst snd ftable fsys].
  - intros f z Hf. apply list_lookup_insert_Some in Hf as [(<- & <- & _)|[Hne Hf]].
    + rewrite upd_eq, Hn. done.
    + rewrite upd_ne by lia. by apply H1.
  - eapply acct_ext; [| |exact H2]; [|done]. intros j. rewrite (open_refs_set _ _ _ _ _ Hk). lia.
Qed.
Lemma filealloc_entry s f s' : filealloc s = Ok (Some f, s') -> exists k y, f = Z.of_nat k /\
  ftable (snd s) !! k = Some y /\ f_ref y = 0 /\
  s' = (fst s, mkFilesys (<[k := with_fref 1 y]> (ftable (snd s))) (fsys (snd s)) (pipes (snd s))).
Proof using.
  assert (Hscan : forall l k f, first_unused l k = Some f ->
    exists n y, f = k + Z.of_nat n /\ l !! n = Some y /\ f_ref y = 0).
  { induction l as [|y l IH]; intros k g H; [done|]. cbn in H. destruct (Z.eqb_spec (f_ref y) 0).
    - injection H as <-. exists 0%nat, y. split; [lia | done].
    - apply IH in H as (n' & y' & -> & ? & ?). exists (S n'), y'. split; [lia | done]. }
  unfold filealloc. intros H. apply bind_inv in H as (r & s1 & [= <- <-] & H).
  destruct (first_unused _ 0) as [g|] eqn:Ef; [|done].
  apply Hscan in Ef as (n & y & -> & Hn & Hr). rewrite Z.add_0_l in H.
  apply bind_inv in H as (? & s2 & Hset & [= <- <-]).
  apply (set_file_inv _ _ _ _ _ _) with (2 := Hn) in Hset as ->. by exists n, y.
Qed.
Lemma kacct_filealloc cnt x b s o s' : filealloc s = Ok (o, s') -> kacct cnt x b s ->
  match o with
  | Some f => kacct (upd cnt f (cnt f + 1)) x b s' /\ cnt f = 0 /\
      exists k y, f = Z.of_nat k /\ ftable (snd s) !! k = Some y /\ f_ref y = 0 /\ f_type y = FD_NONE /\
        ftable (snd s') = <[k := with_fref 1 y]> (ftable (snd s))
  | None => kacct cnt x b s'
  end.
Proof using.
  intros H Hk. destruct o as [f|].
  2:{ unfold filealloc in H. apply bind_inv in H as (r & s1 & [= <- <-] & H).
      by destruct (first_unused _ 0); [apply bind_inv in H as (? & ? & _ & ?)|injection H as <-]. }
  apply filealloc_entry in H as (n & y & -> & Hn & Hr & ->). destruct (ka_files _ _ _ _ Hk n y Hn) as (Hc & _ & Hnone).
  split; [|split; [lia|]].
  - eapply kacct_ext; [| | |eapply (kacct_file _ _ _ _ _ _ (with_fref 1 y) 1 Hk Hn)]; try done; try lia.
    + intros f. by rewrite <- Hc, Hr.
    + intros j. cbv beta. rewrite !on_inode_none; [lia|left; cbn; by rewrite Hnone | left; by rewrite Hnone].
  - exists n, y. split_and!; try done. by apply Hnone.
Qed.
Lemma kacct_filedup cnt x b s f g s' : filedup f s = Ok (g, s') -> kacct cnt x b s ->
  g = f /\ kacct (upd cnt f (cnt f + 1)) x b s'.
Proof using.
  unfold filedup. intros H Hk. apply bind_inv in H as (y & s1 & Hat & H). apply file_at_inv in Hat as (-> & k & -> & Hy).
  destruct (Z.ltb_spec (f_ref y) 1); [done|]. apply bind_inv in H as (? & s2 & Hset & [= <- <-]). split; [done|].
  apply (set_file_inv _ _ _ _ _ _) with (2 := Hy) in Hset as ->. destruct (ka_files _ _ _ _ Hk k y Hy) as (Hc & _).
  eapply kacct_ext; [| | |eapply (kacct_file _ _ _ _ _ _ (with_fref (f_ref y + 1) y) (f_ref y + 1) Hk Hy)]; try done; try (cbn; lia).
  - intros z. by rewrite Hc.
  - intros j. cbv beta. rewrite (on_inode_same j y (with_fref (f_ref y + 1) y)); [lia | cbn; lia | done..].
Qed.

(** *** Code of the layers below *)
Lemma in_fs_inv {A} (f : F A) s a s' : in_fs f s = Ok (a, s') ->
  exists x, f (fsys (snd s)) = Ok (a, x) /\ s' = with_fs x s.
Proof using.
  unfold in_fs, zoom. destruct (f _) as [[v y]| | |]; [|done..]. intros [= <- <-]. by exists y.
Qed.
Definition same_files (s s' : kfiles) : Prop := ftable (snd s') = ftable (snd s) /\ fsys (snd s') = fsys (snd s).
#[local] Instance same_files_preorder : PreOrder same_files.
Proof using. split; [done|]. intros a b d [H1 H2] [H3 H4]. split; congruence. Qed.
Lemma same_in_vm {A} (v : V A) : respects same_files (in_vm v).
Proof using. intros s a s'. unfold in_vm, zoom. destruct (v _) as [[? ?]| | |]; [|done..]. by intros [= <- <-]. Qed.
Lemma same_pipe_call p j k : respects same_files (pipe_call p j k).
Proof using. unfold pipe_call, pipe_at, set_pipe. respects_with fail. by apply respects_modify. Qed.
Lemma same_pipeclose p w : respects same_files (pipeclose kend p w).
Proof using. unfold pipeclose, pipe_at. respects_with ltac:(first [apply same_pipe_call | apply same_in_vm]). Qed.
Lemma same_piperead p n k : respects same_files (piperead p n k).
Proof using. unfold piperead. respects_with ltac:(apply same_pipe_call). Qed.
Lemma same_pipewrite p l n k : respects same_files (pipewrite p l n k).
Proof using. unfold pipewrite. respects_with ltac:(apply same_pipe_call). Qed.
Lemma kacct_same cnt x b s s' : same_files s s' -> kacct cnt x b s -> kacct cnt x b s'.
Proof using. intros [H1 H2] [K1 K2]. split; [by rewrite H1 | by rewrite H1, H2]. Qed.
(** Inode code that keeps the account. *)
Lemma kacct_fs {A} cnt x b b' (f : F A) s a s' : in_fs f s = Ok (a, s') -> kacct cnt x b s ->
  (forall r t t', f t = Ok (a, t') -> acct r b t -> acct r b' t') -> kacct cnt x b' s'.
Proof using.
  intros H [K1 K2] Hf. apply in_fs_inv in H as (t & Ht & ->). split; [done|]. cbn. by eapply Hf.
Qed.
Lemma kacct_calm {A} cnt x b (f : F A) s a s' : respects quiet f -> in_fs f s = Ok (a, s') ->
  kacct cnt x b s -> kacct cnt x b s'.
Proof using.
  intros Hq H Hk. eapply kacct_fs; [exact H | done|]. intros r t t' Ht Ha. eapply acct_quiet; [|done]. by eapply Hq.
Qed.

(** *** Closing *)
Definition closed (y : file) : file := with_ftype FD_NONE (with_fref 0 (with_fref (f_ref y - 1) y)).
Lemma fileclose_steps cnt x b f s a s' : fileclose kend f s = Ok (a, s') -> kacct cnt x b s ->
  exists k y, f = Z.of_nat k /\ ftable (snd s) !! k = Some y /\ 0 < f_ref y /\
    (kacct (upd cnt f (cnt f - 1)) x b s' \/
     exists s1, kacct (upd cnt f (cnt f - 1)) (fun j => x j + on_inode j y) b s1 /\ f_ref y = 1 /\
       (match f_type y with
        | FD_PIPE => pipeclose kend (f_pipe y) (f_writable y)
        | FD_INODE => in_fs begin_op ;;; in_fs (iput (f_ip y)) ;;; in_fs end_op
        | FD_NONE => ret tt
        end) s1 = Ok (a, s')).
Proof using.
  unfold fileclose. intros H Hk. apply bind_inv in H as (y & s1 & Hat & H). apply file_at_inv in Hat as (-> & k & -> & Hy).
  exists k, y. split; [done|]. split; [done|]. destruct (Z.ltb_spec (f_ref y) 1); [done|]. split; [lia|].
  destruct (ka_files _ _ _ _ Hk k y Hy) as (Hc & _). pose proof (lookup_lt_Some _ _ _ Hy) as Hlt.
  apply bind_inv in H as (? & s2 & Hset & H). apply (set_file_inv _ _ _ _ _ _) with (2 := Hy) in Hset as ->.
  destruct (Z.gtb_spec (f_ref y - 1) 0).
  - left. injection H as <- <-.
    eapply kacct_ext; [| | |eapply (kacct_file _ _ _ _ _ _ (with_fref (f_ref y - 1) y) (f_ref y - 1) Hk Hy)];
      try done; try (cbn; lia).
    + intros z. by rewrite Hc.
    + intros j. cbv beta. rewrite (on_inode_same j y (with_fref (f_ref y - 1) y)); [lia | cbn; lia | done..].
  - right. apply bind_inv in H as (? & s3 & Hset & H).
    eapply set_file_inv in Hset; [|cbn; by apply list_lookup_insert_eq]. subst s3.
    apply bind_inv in H as (? & s4 & Hset & H).
    eapply set_file_inv in Hset; [|cbn; apply list_lookup_insert_eq; by rewrite length_insert]. subst s4.
    eexists. split; [|split; [|exact H]]; [|lia]. cbn [fst snd ftable fsys pipes].
    rewrite !list_insert_insert_eq. fold (closed y).
    eapply kacct_ext; [| | |eapply (kacct_file _ _ _ _ _ _ (closed y) 0 Hk Hy)]; try done.
    + intros z. rewrite <- Hc. by replace (f_ref y - 1) with 0 by lia.
    + intros j. cbv beta. rewrite (on_inode_none j (closed y)); [lia | by left].
Qed.
(** A file that is not open on an inode. *)
Lemma kacct_fileclose_fresh cnt x b f s a s' y : fileclose kend f s = Ok (a, s') -> kacct cnt x b s ->
  file_at f s = Ok (y, s) -> f_type y <> FD_INODE -> kacct (upd cnt f (cnt f - 1)) x b s'.
Proof using.
  intros H Hk Hat Hty. eapply fileclose_steps in H as (k & y' & -> & Hy & Hr & H); [|exact Hk].
  rewrite (file_at_run _ _ _ Hy) in Hat. injection Hat as ->. destruct H as [H|(s1 & K1 & _ & H)]; [done|].
  assert (K2 : kacct (upd cnt (Z.of_nat k) (cnt (Z.of_nat k) - 1)) x b s1).
  { eapply kacct_ext; [| | |exact K1]; try done. intros j. cbv beta. rewrite on_inode_none; [lia | by left]. }
  eapply kacct_same; [|exact K2]. destruct (f_type y); [by injection H as <- <- | by eapply same_pipeclose | done].
Qed.
Lemma kacct_fileclose cnt x b f s a s' : fileclose kend f s = Ok (a, s') -> kacct cnt x b s ->
  (forall j, 0 <= E j <= x j) -> (forall j, b j = true -> 0 < E j) -> kacct (upd cnt f (cnt f - 1)) x b s'.
Proof using.
  intros H Hk HE Hb. pose proof H as H0. eapply fileclose_steps in H as (k & y & -> & Hy & Hr & H); [|exact Hk].
  destruct (decide (f_type y = FD_INODE)) as [Hty|Hty].
  2:{ eapply kacct_fileclose_fresh; [exact H0 | done | by apply file_at_run | done]. }
  destruct H as [H|(s1 & K1 & H1 & H)]; [done|]. rewrite Hty in H.
  apply bind_inv in H as (? & s2 & Hbg & H). eapply kacct_calm in Hbg; [|apply quiet_log|exact K1].
  apply bind_inv in H as (? & s3 & Hp & H). apply in_fs_inv in Hp as (t & Ht & ->). destruct Hbg as [B1 B2].
  assert (Hone : forall j, on_inode j y = one (f_ip y = j)).
  { intros j. unfold on_inode, one. repeat case_decide; tauto. }
  set (R := open_refs (ftable (snd s2))) in *.
  assert (HR : 0 <= R (f_ip y)) by (apply sumZ_pos, on_inode_pos).
  eapply acct_iput in Ht; [| exact B2 | |].
  2:{ cbv beta. rewrite Hone. unfold one. rewrite decide_True by done. specialize (HE (f_ip y)). lia. }
  2:{ cbv beta. intros Hbz. specialize (Hb _ Hbz). rewrite Hone. unfold one. rewrite decide_True by done.
      specialize (HE (f_ip y)). lia. }
  eapply kacct_calm; [apply quiet_log | exact H|]. split; [done|]. cbn [with_fs fst snd ftable fsys]. fold R.
  eapply acct_ext; [| |exact Ht]; [|done]. intros z. unfold upd. rewrite !Hone. unfold one.
  destruct (Z.eqb_spec z (f_ip y)) as [->|]; [rewrite decide_True by done | rewrite decide_False by done]; lia.
Qed.

(** *** Reading and writing *)
Lemma kacct_off cnt x b s f o a s' : set_file f (with_off o) s = Ok (a, s') -> kacct cnt x b s -> kacct cnt x b s'.
Proof using.
  intros H Hk. assert (Hy : exists k y, f = Z.of_nat k /\ ftable (snd s) !! k = Some y).
  { unfold set_file in H. destruct (Z.ltb_spec f 0); [done|]. destruct (ftable _ !! _) as [y|] eqn:Ey; [|done].
    exists (Z.to_nat f), y. split; [lia | done]. }
  destruct Hy as (k & y & -> & Hy). apply (set_file_inv _ _ _ _ _ _) with (2 := Hy) in H as ->.
  destruct (ka_files _ _ _ _ Hk k y Hy) as (Hc & Hp & Hn).
  eapply kacct_ext; [| | |eapply (kacct_file _ _ _ _ _ _ (with_off o y) (f_ref y) Hk Hy)]; try done.
  - intros z. rewrite Hc. symmetry. apply upd_self.
  - intros j. cbv beta. rewrite (on_inode_same j y (with_off o y)); [lia | done..].
Qed.
(** [ilock], quiet code, [iunlock]. *)
Lemma kacct_ilock cnt x b s ip a s' : in_fs (ilock ip) s = Ok (a, s') -> kacct cnt x b s ->
  kacct cnt x (upd b ip true) s' /\ b ip = false.
Proof using.
  intros H [K1 K2]. apply in_fs_inv in H as (t & Ht & ->). eapply acct_ilock in Ht as (H1 & H2 & _); [|exact K2].
  by split.
Qed.
Lemma kacct_iunlock cnt x b s ip a s' : in_fs (iunlock ip) s = Ok (a, s') -> b ip = false ->
  kacct cnt x (upd b ip true) s -> kacct cnt x b s'.
Proof using.
  intros H Hb Hk. assert (K : kacct cnt x (upd (upd b ip true) ip false) s').
  { eapply kacct_fs; [exact H | exact Hk|]. intros r t t' Ht Ha. by eapply acct_iunlock. }
  eapply kacct_ext; [| | |exact K]; try done. upd_cases.
Qed.
Lemma kacct_fileread cnt x b f n k s a s' : fileread devsw f n k s = Ok (a, s') -> kacct cnt x b s -> kacct cnt x b s'.
Proof using Hdev.
  unfold fileread. intros H Hk. apply bind_inv in H as (y & s1 & Hat & H). apply file_at_inv in Hat as (-> & _).
  destruct (_ =? 0); [by injection H as <- <-|]. destruct (f_type y); [done| |].
  { eapply kacct_same; [|exact Hk]. by eapply same_piperead. }
  apply bind_inv in H as (? & s2 & Hl & H). eapply kacct_ilock in Hl as [Hl Hb]; [|exact Hk].
  apply bind_inv in H as ([v l] & s3 & Hr & H). eapply kacct_calm in Hr; [|by apply quiet_readi|exact Hl].
  apply bind_inv in H as (? & s4 & Ho & H).
  assert (K4 : kacct cnt x (upd b (f_ip y) true) s4).
  { destruct (v >? 0); [by eapply kacct_off | by injection Ho as <- <-]. }
  apply bind_inv in H as (? & s5 & Hu & [= <- <-]). by eapply kacct_iunlock.
Qed.
Lemma kacct_filestat cnt x b f s a s' : filestat f s = Ok (a, s') -> kacct cnt x b s -> kacct cnt x b s'.
Proof using.
  unfold filestat. intros H Hk. apply bind_inv in H as (y & s1 & Hat & H). apply file_at_inv in Hat as (-> & _).
  destruct (f_type y); [by injection H as <- <- | by injection H as <- <- |].
  apply bind_inv in H as (? & s2 & Hl & H). eapply kacct_ilock in Hl as [Hl Hb]; [|exact Hk].
  apply bind_inv in H as (st & s3 & Hr & H). eapply kacct_calm in Hr; [|unfold stati; quietly|exact Hl].
  apply bind_inv in H as (? & s5 & Hu & [= <- <-]). by eapply kacct_iunlock.
Qed.
Lemma kacct_filewrite cnt x b f l n k s a s' : filewrite devsw f l n k s = Ok (a, s') -> kacct cnt x b s -> kacct cnt x b s'.
Proof using Hdev.
  assert (Hloop : forall fuel i s v s', filewrite_loop devsw fuel f l n i s = Ok (v, s') -> kacct cnt x b s -> kacct cnt x b s').
  { induction fuel as [|fuel IH]; intros i s0 v s1 H Hk; [done|]. cbn [filewrite_loop] in H.
    destruct (i <? n); [|by injection H as <- <-].
    apply bind_inv in H as (? & s2 & Hb & H). eapply kacct_calm in Hb; [|apply quiet_log|exact Hk].
    apply bind_inv in H as (y & s3 & Hat & H). apply file_at_inv in Hat as (-> & _).
    apply bind_inv in H as (? & s4 & Hl & H). eapply kacct_ilock in Hl as [Hl Hbz]; [|exact Hb].
    apply bind_inv in H as (w & s5 & Hw & H). eapply kacct_calm in Hw; [|by apply quiet_writei|exact Hl].
    apply bind_inv in H as (? & s6 & Ho & H).
    assert (K6 : kacct cnt x (upd b (f_ip y) true) s6).
    { destruct (w >? 0); [by eapply kacct_off | by injection Ho as <- <-]. }
    apply bind_inv in H as (? & s7 & Hu & H). eapply kacct_iunlock in Hu; [|done..].
    apply bind_inv in H as (? & s8 & He & H). eapply kacct_calm in He; [|apply quiet_log|exact Hu].
    destruct (w <? 0); [by injection H as <- <-|]. destruct (negb _); [done|]. by eapply IH. }
  unfold filewrite. intros H Hk. apply bind_inv in H as (y & s1 & Hat & H). apply file_at_inv in Hat as (-> & _).
  destruct (_ =? 0); [by injection H as <- <-|]. destruct (f_type y); [done| |].
  { eapply kacct_same; [|exact Hk]. by eapply same_pipewrite. }
  apply bind_inv in H as (v & s2 & Hl & [= <- <-]). by eapply Hloop.
Qed.

(** *** Making a file of an entry just allocated *)
Lemma kacct_set_fresh cnt x b s k y g a s' : set_file (Z.of_nat k) g s = Ok (a, s') -> kacct cnt x b s ->
  ftable (snd s) !! k = Some y -> 0 < f_ref y -> f_type y <> FD_INODE -> f_ref (g y) = f_ref y ->
  kacct cnt (fun j => x j - on_inode j (g y)) b s' /\ ftable (snd s') = <[k := g y]> (ftable (snd s)).
Proof using.
  intros H Hk Hy Hr Hty Hg. apply (set_file_inv _ _ _ _ _ _) with (2 := Hy) in H as ->. split; [|done].
  destruct (ka_files _ _ _ _ Hk k y Hy) as (Hc & _).
  eapply kacct_ext; [| | |eapply (kacct_file _ _ _ _ _ _ (g y) (f_ref y) Hk Hy)]; try done; try lia.
  - intros z. rewrite Hc. symmetry. apply upd_self.
  - intros j. cbv beta. rewrite (on_inode_none j y); [lia | by left].
Qed.
Lemma kacct_pipealloc cnt x b s o s' : pipealloc kend s = Ok (o, s') -> kacct cnt x b s ->
  (forall j, 0 <= E j <= x j) -> (forall j, b j = true -> 0 < E j) ->
  match o with
  | Some (f0, f1) => f0 <> f1 /\ kacct (upd (upd cnt f0 (cnt f0 + 1)) f1 (cnt f1 + 1)) x b s'
  | None => kacct cnt x b s'
  end.
Proof using.
  unfold pipealloc. intros H Hk HE Hb. apply bind_inv in H as (o0 & s1 & H0 & H). eapply kacct_filealloc in H0; [|exact Hk].
  destruct o0 as [f0|]; [|by injection H as <- <-]. destruct H0 as (K1 & C0 & k0 & y0 & -> & Y0 & R0 & T0 & F0).
  apply bind_inv in H as (o1 & s2 & H1 & H). eapply kacct_filealloc in H1; [|exact K1]. destruct o1 as [f1|].
  2:{ apply bind_inv in H as (? & s3 & Hc & [= <- <-]). eapply kacct_fileclose in Hc; [|exact H1|done..].
      eapply kacct_ext; [| | |exact Hc]; try done. upd_cases. }
  destruct H1 as (K2 & C1 & k1 & y1 & -> & Y1 & R1 & T1 & F1).
  assert (Hne : Z.of_nat k0 <> Z.of_nat k1) by (intros He; rewrite He, upd_eq in C1; rewrite <- He in C1; lia).
  rewrite upd_ne in K2 by done. apply bind_inv in H as (p & s3 & Hp & H). apply same_in_vm in Hp as Sp.
  eapply kacct_same in K2; [|exact Sp]. destruct (p =? 0).
  { apply bind_inv in H as (? & s4 & Hc & H). eapply kacct_fileclose in Hc; [|exact K2|done..].
    apply bind_inv in H as (? & s5 & Hc1 & [= <- <-]). eapply kacct_fileclose in Hc1; [|exact Hc|done..].
    eapply kacct_ext; [| | |exact Hc1]; try done. upd_cases. }
  apply bind_inv in H as (junk & s4 & [= <- <-] & H). apply bind_inv in H as (? & s5 & [= <- <-] & H).
  set (s5 := (_, mkFilesys _ _ _)) in H. assert (K5 : kacct (upd (upd cnt (Z.of_nat k0) (cnt (Z.of_nat k0) + 1)) (Z.of_nat k1) (cnt (Z.of_nat k1) + 1)) x b s5) by (eapply kacct_same; [|exact K2]; done).
  assert (F5 : ftable (snd s5) = <[k1 := with_fref 1 y1]> (<[k0 := with_fref 1 y0]> (ftable (snd s)))).
  { unfold s5. cbn. destruct Sp as [-> _]. by rewrite F1, F0. }
  pose proof (lookup_lt_Some _ _ _ Y0) as L0. pose proof (lookup_lt_Some _ _ _ Y1) as L1. rewrite F0, length_insert in L1.
  apply bind_inv in H as (? & s6 & H6 & H). eapply (kacct_set_fresh _ _ _ _ _ (with_fref 1 y0)) in H6 as [K6 F6]; [|exact K5|..|done]; try done.
  2:{ rewrite F5, list_lookup_insert_ne by lia. by apply list_lookup_insert_eq. }
  2:{ cbn. by rewrite T0. }
  apply bind_inv in H as (? & s7 & H7 & [= <- <-]).
  eapply (kacct_set_fresh _ _ _ _ _ (with_fref 1 y1)) in H7 as [K7 F7]; [|exact K6|..|done]; try done.
  2:{ rewrite F6, list_lookup_insert_ne by lia. rewrite F5. apply list_lookup_insert_eq. by rewrite length_insert. }
  2:{ cbn. by rewrite T1. }
  split; [done|]. eapply kacct_ext; [| | |exact K7]; try done. intros j. cbv beta. rewrite !on_inode_none; [lia|by left..].
Qed.
End Accounts.
