(* ===== verification/SysfileCalls.v ===== *)
(** * SysfileCalls: every call keeps the accounts (src/src/sysfile.c)

    The system calls of sysfile.c as a whole: whatever a call does and however
    it ends, the reference counts still count the holders, and no inode stays
    locked. *)
From S2P Require Import Prelude CString Vm VmFacts Fs FsFacts FsFile Pipe File FileFacts Proc Syscall Sysfile Exec InodeRefs SysfileRefs.

(** ** Fetching arguments changes nothing *)
Definition unchanged (s s' : kstate) : Prop := s' = s.
#[export] Instance unchanged_preorder : PreOrder unchanged.
Proof. split; [done|]. intros a b d -> ->. done. Qed.
Section Fetch.
Context (c : nat).
Lemma pure_myproc : respects unchanged (myproc c).
Proof. unfold myproc, the_cpu. respects_with fail. Qed.
Lemma pure_current : respects unchanged (current c).
Proof. unfold current, myproc, the_cpu, the_proc. respects_with fail. Qed.
Lemma pure_user_addr va : respects unchanged (user_addr c va).
Proof. unfold user_addr. respects_with fail. Qed.
Lemma pure_load_user n : forall va, respects unchanged (load_user c va n).
Proof. induction n; intros; cbn [load_user]; respects_with ltac:(first [apply pure_user_addr | done]). Qed.
Lemma pure_scan_string n : forall va, respects unchanged (scan_string c va n).
Proof. induction n; intros; cbn [scan_string]; respects_with ltac:(first [apply pure_user_addr | done]). Qed.
Lemma pure_fetchint a : respects unchanged (fetchint c a).
Proof. unfold fetchint. respects_with ltac:(first [apply pure_current | apply pure_load_user]). Qed.
Lemma pure_fetchstr a : respects unchanged (fetchstr c a).
Proof. unfold fetchstr. respects_with ltac:(first [apply pure_current | apply pure_scan_string]). Qed.
Lemma pure_argint n : respects unchanged (argint c n).
Proof. unfold argint. respects_with ltac:(first [apply pure_current | apply pure_fetchint]). Qed.
Lemma pure_argptr n z : respects unchanged (argptr c n z).
Proof. unfold argptr. respects_with ltac:(first [apply pure_current | apply pure_argint]). Qed.
Lemma pure_argstr n : respects unchanged (argstr c n).
Proof. unfold argstr. respects_with ltac:(first [apply pure_argint | apply pure_fetchstr]). Qed.
Lemma pure_argfd n : respects unchanged (argfd c n).
Proof. unfold argfd. respects_with ltac:(first [apply pure_current | apply pure_argint]). Qed.
Lemma pure_arg_io : respects unchanged (arg_io c).
Proof. unfold arg_io. respects_with ltac:(first [apply pure_argfd | apply pure_argint | apply pure_argptr]). Qed.

(** Storing to user memory changes physical memory only. *)
Definition same_kernel (s s' : kstate) : Prop :=
  procs s' = procs s /\ cpus s' = cpus s /\ snd (kern s') = snd (kern s).
#[local] Instance same_kernel_preorder : PreOrder same_kernel.
Proof. split; [done|]. intros a b d (H1 & H2 & H3) (H4 & H5 & H6). split_and!; congruence. Qed.
Lemma same_store_user l : forall va, respects same_kernel (store_user c va l).
Proof.
  induction l as [|v l IH]; intros va; cbn [store_user]; [apply respects_ret|].
  apply respects_bind; [intros s a s' Hu; by rewrite (pure_user_addr va _ _ _ Hu)|].
  intros a. apply respects_bind; [|done]. intros s x s'. unfold in_kern, in_vm, zoom, set_pm, modify. by intros [= <- <-].
Qed.
End Fetch.
#[export] Hint Resolve pure_myproc pure_current pure_load_user pure_fetchint pure_fetchstr pure_argint pure_argptr pure_argstr pure_argfd pure_arg_io : xv6.

(** ** Descriptors *)
Section Calls.
Context (kend kdata : Z) (devsw : Z -> devops) (Hdev : quiet_devices devsw) (c : nat) (me : Z) (Hme : 0 <= me < NPROC).
(** The references and locks of the calls that other processes are in; such a
    call holds a reference to every inode it has locked. *)
Context (xi : Z -> Z) (key : Z -> Z * Z) (b : Z -> bool).
Context (Hxi : forall j, 0 <= xi j) (Hb : forall j, b j = true -> 0 < xi j).

Definition running (s : kstate) : Prop := cproc (cpus s c) = Some me.
(** The accounts of a state, with [cnt] and [x] the references to files and
    inodes from outside the file table. *)
Abbreviation accounts := (kacct xi key).
Definition holders_ok (s : kstate) : Prop :=
  running s /\ accounts (fd_refs (procs s)) (fun j => xi j + cwd_refs (procs s) j) b (kern s).

Lemma myproc_inv s x s' : running s -> myproc c s = Ok (x, s') -> x = me /\ s' = s.
Proof using.
  intros Hr. unfold myproc, the_cpu. intros H. apply bind_inv in H as (? & ? & [= <- <-] & H).
  rewrite Hr in H. by injection H as <- <-.
Qed.
Lemma current_inv s x s' : running s -> current c s = Ok (x, s') -> x = procs s me /\ s' = s.
Proof using.
  intros Hr. unfold current. intros H. apply bind_inv in H as (? & ? & Hm & H). apply myproc_inv in Hm as [-> ->]; [|done].
  by injection H as <- <-.
Qed.
Lemma in_kern_inv {A} (f : K A) s a s' : in_kern f s = Ok (a, s') -> exists x, f (kern s) = Ok (a, x) /\ s' = set_kern x s.
Proof using.
  unfold in_kern, zoom. destruct (f _) as [[v y]| | |]; [|done..]. intros [= <- <-]. by exists y.
Qed.

(** The table after descriptor [fd] of the process is set to [o]. *)
Lemma set_fd_inv fd o s a s' : set_fd me fd o s = Ok (a, s') -> forall old, ofile (procs s me) !! Z.to_nat fd = Some old ->
  kern s' = kern s /\ cpus s' = cpus s /\ (forall j, cwd_refs (procs s') j = cwd_refs (procs s) j) /\
  forall g, fd_refs (procs s') g = fd_refs (procs s) g - one (old = Some g) + one (o = Some g).
Proof using Hme.
  unfold set_fd, on_proc, set_proc. intros [= _ <-] old Hold. cbn [kern cpus procs set_procs].
  split; [done|]. split; [done|]. split.
  - intros j. unfold cwd_refs. rewrite over_procs_upd by done. unfold in_dir. cbn. lia.
  - intros g. unfold fd_refs. rewrite over_procs_upd by done. unfold fds at 2 3. cbn [ofile set_ofile].
    rewrite (sumZ_insert _ _ _ _ o Hold). lia.
Qed.
Lemma first_free_fd_spec l : forall k fd, first_free l k = Some fd -> exists n, fd = k + Z.of_nat n /\ l !! n = Some None.
Proof using.
  induction l as [|[f|] l IH]; intros k fd H; [done| |].
  - apply IH in H as (n & -> & Hn). exists (S n). split; [lia | done].
  - injection H as <-. exists 0%nat. split; [lia | done].
Qed.
Lemma fdalloc_inv f s fd s' : running s -> fdalloc c f s = Ok (fd, s') ->
  (fd = -1 /\ s' = s) \/
  (0 <= fd /\ kern s' = kern s /\ cpus s' = cpus s /\ (forall j, cwd_refs (procs s') j = cwd_refs (procs s) j) /\
   (forall g, fd_refs (procs s') g = upd (fd_refs (procs s)) f (fd_refs (procs s) f + 1) g) /\
   ofile (procs s' me) !! Z.to_nat fd = Some (Some f)).
Proof using Hme.
  intros Hr. unfold fdalloc. intros H. apply bind_inv in H as (? & s1 & Hm & H). apply myproc_inv in Hm as [-> ->]; [|done].
  apply bind_inv in H as (x & s2 & [= <- <-] & H). destruct (first_free _ 0) as [n|] eqn:Ef.
  2:{ left. by injection H as <- <-. }
  right. apply first_free_fd_spec in Ef as (k & -> & Hk). rewrite Z.add_0_l in *.
  apply bind_inv in H as (? & s3 & Hset & [= <- <-]).
  assert (Hof : ofile (procs s3 me) !! k = Some (Some f)).
  { injection Hset as _ <-. cbn. rewrite upd_eq. cbn. rewrite Nat2Z.id. by eapply list_lookup_insert_eq, lookup_lt_Some. }
  eapply set_fd_inv in Hset as (H1 & H2 & H3 & H4); [|by rewrite Nat2Z.id].
  split; [lia|]. split_and!; try done; [|by rewrite Nat2Z.id]. intros g. rewrite H4. unfold upd, one.
  rewrite decide_False by done. destruct (Z.eqb_spec g f) as [->|]; [rewrite decide_True by done | rewrite decide_False by congruence]; lia.
Qed.

Lemma holders_bounds s j : 0 <= xi j <= xi j + cwd_refs (procs s) j.
Proof using Hxi.
  specialize (Hxi j). assert (0 <= cwd_refs (procs s) j); [|lia]. apply sumZ_pos. intros x. apply one_pos.
Qed.

(** ** The calls, one by one *)
Ltac pure_step H x := let s1 := fresh "s" in let Q := fresh "Q" in
  apply bind_inv in H as (x & s1 & Q & H);
  match type of Q with ?f ?s0 = Ok _ =>
    assert (s1 = s0) as -> by (refine ((_ : respects unchanged f) _ _ _ Q); auto with xv6) end.
Lemma holders_kern s x :
  accounts (fd_refs (procs s)) (fun j => xi j + cwd_refs (procs s) j) b x -> running s -> holders_ok (set_kern x s).
Proof using. intros H Hr. by split. Qed.
Lemma argfd_inv n fd f s s' : running s -> argfd c n s = Ok (Some (fd, f), s') ->
  s' = s /\ ofile (procs s me) !! Z.to_nat fd = Some (Some f).
Proof using.
  intros Hr H. assert (s' = s) as -> by (by eapply pure_argfd). split; [done|]. unfold argfd in H. pure_step H r.
  destruct r as [n'|]; [|done]. apply bind_inv in H as (x & s1 & Hc & H). apply current_inv in Hc as [-> ->]; [|done].
  destruct (_ || _); [done|]. destruct (nth _ _ None) as [g|] eqn:En; [|done]. injection H as -> ->.
  rewrite nth_lookup in En. destruct (ofile _ !! Z.to_nat fd) as [o|]; cbn in En; congruence.
Qed.

Lemma dup_holders s a s' : sys_dup c s = Ok (a, s') -> holders_ok s -> holders_ok s'.
Proof using Hme.
  unfold sys_dup. intros H [Hr Ha]. pure_step H r. destruct r as [[fd f]|]; [|by injection H as <- <-].
  apply bind_inv in H as (fd' & s1 & Hf & H). apply fdalloc_inv in Hf as [[-> ->]|(Hpos & E1 & E2 & E3 & E4 & _)]; [by injection H as <- <- | | done].
  destruct (Z.ltb_spec fd' 0); [lia|]. apply bind_inv in H as (? & s2 & Hd & [= <- <-]).
  apply in_kern_inv in Hd as (t & Hd & ->). rewrite E1 in Hd. eapply kacct_filedup in Hd as [_ Hd]; [|exact Ha].
  apply holders_kern; [|unfold running; by rewrite E2]. eapply kacct_ext; [| | |exact Hd]; try done. intros j. by rewrite E3.
Qed.
Lemma kern_step_holders {A} (f : K A) s a s' : in_kern f s = Ok (a, s') -> holders_ok s ->
  (forall cnt x t t' b, f t = Ok (a, t') -> accounts cnt x b t -> accounts cnt x b t') -> holders_ok s'.
Proof using.
  intros H [Hr Ha] Hf. apply in_kern_inv in H as (t & Hx & ->). apply holders_kern; [|done]. by eapply Hf.
Qed.
Lemma store_holders va l s a s' : store_user c va l s = Ok (a, s') -> holders_ok s -> holders_ok s'.
Proof using.
  intros H [Hr Ha]. apply same_store_user in H as (H1 & H2 & H3). split; [unfold running; by rewrite H2|].
  rewrite H1. eapply kacct_same; [|exact Ha]. by split; rewrite H3.
Qed.
Lemma read_holders s a s' : sys_read devsw c s = Ok (a, s') -> holders_ok s -> holders_ok s'.
Proof using Hdev.
  unfold sys_read. intros H Ha. pure_step H r. destruct r as [[[f p] n]|]; [|by injection H as <- <-]. pure_step H x.
  apply bind_inv in H as ([v l] & s1 & Hk & H). eapply kern_step_holders in Hk; [|exact Ha|intros *; by apply kacct_fileread].
  apply bind_inv in H as (? & s2 & Hs & [= <- <-]). by eapply store_holders.
Qed.
Lemma write_holders s a s' : sys_write devsw c s = Ok (a, s') -> holders_ok s -> holders_ok s'.
Proof using Hdev.
  unfold sys_write. intros H Ha. pure_step H r. destruct r as [[[f p] n]|]; [|by injection H as <- <-]. pure_step H x.
  pure_step H l. eapply kern_step_holders; [exact H | exact Ha|]. intros *. by apply kacct_filewrite.
Qed.
Lemma fstat_holders s a s' : sys_fstat c s = Ok (a, s') -> holders_ok s -> holders_ok s'.
Proof using.
  unfold sys_fstat. intros H Ha. pure_step H r. destruct r as [[fd f]|]; [|by injection H as <- <-]. pure_step H q.
  destruct q as [st|]; [|by injection H as <- <-]. apply bind_inv in H as (o & s1 & Hk & H).
  eapply kern_step_holders in Hk; [|exact Ha|intros *; by apply kacct_filestat]. destruct o as [x|]; [|by injection H as <- <-].
  unfold store_stat in H. apply bind_inv in H as (? & s2 & Hs & [= <- <-]).
  repeat (apply bind_inv in Hs as (? & ? & ?Hst & Hs); eapply store_holders in Hst; [|done]). by eapply store_holders.
Qed.
Lemma close_holders s a s' : sys_close kend c s = Ok (a, s') -> holders_ok s -> holders_ok s'.
Proof using Hme Hxi Hb.
  unfold sys_close. intros H [Hr Ha]. apply bind_inv in H as (r & s1 & Hf & H). destruct r as [[fd f]|].
  2:{ injection H as <- <-. assert (s1 = s) as -> by (by eapply pure_argfd). by split. }
  apply argfd_inv in Hf as [-> Hfd]; [|done]. apply bind_inv in H as (p & s1 & Hm & H). apply myproc_inv in Hm as [-> ->]; [|done].
  apply bind_inv in H as (? & s2 & Hset & H). eapply set_fd_inv in Hset as (E1 & E2 & E3 & E4); [|exact Hfd].
  apply bind_inv in H as (? & s3 & Hc & [= <- <-]). apply in_kern_inv in Hc as (t & Hc & ->). rewrite E1 in Hc.
  eapply kacct_fileclose in Hc; [|exact Ha|apply holders_bounds|done].
  apply holders_kern; [|unfold running; by rewrite E2]. eapply kacct_ext; [| | |exact Hc]; try done.
  - intros g. rewrite E4. unfold upd, one. rewrite (decide_False (P := None = Some g)) by done.
    destruct (Z.eqb_spec g f) as [->|]; [rewrite decide_True by done | rewrite decide_False by congruence]; lia.
  - intros j. by rewrite E3.
Qed.

(** *** Calls on inodes *)
Lemma fs_step_holders {A} (f : F A) s a s' : fs_call f s = Ok (a, s') -> holders_ok s ->
  (forall r b t t', f t = Ok (a, t') -> acct xi key r b t -> acct xi key r b t') -> holders_ok s'.
Proof using.
  intros H Ha Hf. eapply kern_step_holders; [exact H | exact Ha|]. intros cnt x t t' b' Ht Hk.
  eapply kacct_fs; [exact Ht | exact Hk|]. intros r. apply Hf.
Qed.
Lemma log_holders e s a s' : fs_call (log_call e) s = Ok (a, s') -> holders_ok s -> holders_ok s'.
Proof using. intros H Ha. eapply fs_step_holders; [exact H | exact Ha|]. intros r b' t t' Ht. apply acct_quiet. by eapply quiet_log. Qed.
Lemma link_holders s a s' : sys_link devsw c s = Ok (a, s') -> holders_ok s -> holders_ok s'.
Proof using Hdev.
  unfold sys_link. intros H Ha. pure_step H old. destruct old as [old|]; [|by injection H as <- <-]. pure_step H new.
  destruct new as [new|]; [|by injection H as <- <-]. pure_step H x. eapply fs_step_holders; [exact H | exact Ha|].
  intros *. by apply acct_link.
Qed.
Lemma unlink_holders s a s' : sys_unlink devsw c s = Ok (a, s') -> holders_ok s -> holders_ok s'.
Proof using Hdev.
  unfold sys_unlink. intros H Ha. pure_step H path. destruct path as [path|]; [|by injection H as <- <-]. pure_step H x.
  eapply fs_step_holders; [exact H | exact Ha|]. intros *. by apply acct_unlink.
Qed.
Lemma end_holders s (a v : Z) s' : (fs_call end_op ;;; ret v) s = Ok (a, s') -> holders_ok s -> holders_ok s'.
Proof using. intros H Ha. apply bind_inv in H as (? & s1 & He & [= <- <-]). by eapply log_holders. Qed.
Lemma node_holders path ty mj mn x s a s' : fs_call (make_node devsw x path ty mj mn) s = Ok (a, s') ->
  holders_ok s -> holders_ok s'.
Proof using Hdev. intros H Ha. eapply fs_step_holders; [exact H | exact Ha|]. intros *. by apply acct_make_node. Qed.
Lemma mkdir_holders s a s' : sys_mkdir devsw c s = Ok (a, s') -> holders_ok s -> holders_ok s'.
Proof using Hdev.
  unfold sys_mkdir. intros H Ha. apply bind_inv in H as (? & s1 & Hl & H). eapply log_holders in Hl; [|done].
  pure_step H path. destruct path as [path|]; [|by eapply end_holders]. pure_step H y. by eapply node_holders.
Qed.
Lemma mknod_holders s a s' : sys_mknod devsw c s = Ok (a, s') -> holders_ok s -> holders_ok s'.
Proof using Hdev.
  unfold sys_mknod. intros H Ha. apply bind_inv in H as (? & s1 & Hl & H). eapply log_holders in Hl; [|done].
  pure_step H path. destruct path as [path|]; [|by eapply end_holders]. pure_step H mj.
  destruct mj as [mj|]; [|by eapply end_holders]. pure_step H mn. destruct mn as [mn|]; [|by eapply end_holders].
  pure_step H y. by eapply node_holders.
Qed.

(** The state of [open] and [chdir] between finding the inode and keeping it:
    one reference more to [ip], and perhaps its lock. *)
Lemma found_holders {A} (f : F (option A)) (ix : A -> Z) (b' : A -> Z -> bool) s o s' :
  fs_call f s = Ok (o, s') -> holders_ok s ->
  (forall r t t', f t = Ok (o, t') -> acct xi key r b t ->
     match o with Some v => acct xi key (upd r (ix v) (r (ix v) + 1)) (b' v) t' | None => acct xi key r b t' end) ->
  match o with
  | Some v => running s' /\ accounts (fd_refs (procs s'))
      (upd (fun j => xi j + cwd_refs (procs s') j) (ix v) (xi (ix v) + cwd_refs (procs s') (ix v) + 1)) (b' v) (kern s')
  | None => holders_ok s'
  end.
Proof using.
  intros H [Hr [K1 K2]] Hf. apply in_kern_inv in H as (t & Ht & ->). apply in_fs_inv in Ht as (y & Hy & ->).
  eapply Hf in Hy; [|exact K2]. destruct o as [v|]; [|by split]. split; [done|]. split; [done|].
  cbn [set_kern procs kern with_fs fst snd ftable fsys]. eapply acct_ext; [| |exact Hy]; [|done]. upd_cases.
Qed.
Lemma holders_unlock ip s a s' : fs_call (iunlock ip) s = Ok (a, s') -> forall cnt x, b ip = false ->
  running s -> accounts cnt x (upd b ip true) (kern s) ->
  running s' /\ procs s' = procs s /\ accounts cnt x b (kern s') /\ ftable (snd (kern s')) = ftable (snd (kern s)).
Proof using.
  intros H cnt x Hbz Hr Ha. apply in_kern_inv in H as (t & Ht & ->). apply in_fs_inv in Ht as Ht'. destruct Ht' as (y & _ & ->).
  eapply kacct_iunlock in Ht; [|done|exact Ha]. by split_and!.
Qed.
(** [iunlockput(ip); end_op(); return -1;] with the reference and lock of [ip]. *)
Lemma holders_drop ip s (a : Z) s' : (fs_call (iunlockput ip) ;;; fs_call end_op ;;; ret (-1)) s = Ok (a, s') -> b ip = false ->
  running s -> accounts (fd_refs (procs s))
    (upd (fun j => xi j + cwd_refs (procs s) j) ip (xi ip + cwd_refs (procs s) ip + 1)) (upd b ip true) (kern s) ->
  holders_ok s'.
Proof using Hxi.
  intros H Hbz Hr [K1 K2]. apply bind_inv in H as (? & s1 & Hu & H). eapply end_holders; [exact H|]. clear H s' a.
  apply in_kern_inv in Hu as (t & Ht & ->). apply in_fs_inv in Ht as (y & Hy & ->). split; [done|]. split; [done|].
  cbn [set_kern procs kern with_fs fst snd ftable fsys].
  pose proof (holders_bounds s ip) as Hbd. set (R := open_refs (ftable (snd (kern s)))) in *.
  assert (HR : 0 <= R ip) by (apply sumZ_pos, on_inode_pos).
  eapply acct_iunlockput in Hy; [|exact K2|cbv beta; rewrite upd_eq; lia].
  eapply acct_ext; [| |exact Hy]; upd_cases.
Qed.

Lemma open_holders s a s' : sys_open kend devsw c s = Ok (a, s') -> holders_ok s -> holders_ok s'.
Proof using Hdev Hme Hxi.
  unfold sys_open. intros H Ha. pure_step H path. destruct path as [path|]; [|by injection H as <- <-]. pure_step H om.
  destruct om as [om|]; [|by injection H as <- <-]. pure_step H x.
  apply bind_inv in H as (o & s1 & Ho & H). pose proof Ho as Ho0.
  eapply (found_holders _ (fun ip => ip) (fun ip => upd b ip true)) in Ho; [|exact Ha|].
  2:{ intros r t t' Ht Hacc. eapply acct_open_inode in Ht; [|done..]. destruct o as [ip|]; [by destruct Ht | done]. }
  destruct o as [ip|]; [|by injection H as <- <-]. destruct Ho as [Hr1 K1].
  assert (Hbz : b ip = false).
  { apply in_kern_inv in Ho0 as (t & Ht & _). apply in_fs_inv in Ht as (y & Hy & _).
    eapply acct_open_inode in Hy; [|done|exact (ka_inodes _ _ _ _ _ _ (proj2 Ha))]. by destruct Hy. }
  clear Ho0. apply bind_inv in H as (f & s2 & Hf & H). apply in_kern_inv in Hf as (t & Hf & ->).
  eapply kacct_filealloc in Hf; [|exact K1]. destruct f as [f|]; [|by eapply holders_drop].
  destruct Hf as (K2 & C0 & k & y & -> & Hy & Ry & Ty & Hft). pose proof (lookup_lt_Some _ _ _ Hy) as Hlt.
  assert (Hat : ftable (snd t) !! k = Some (with_fref 1 y)) by (rewrite Hft; by apply list_lookup_insert_eq).
  apply bind_inv in H as (fd & s3 & Hfd & H).
  apply fdalloc_inv in Hfd as [[-> ->]|(Hpos & E1 & E2 & E3 & E4 & _)]; [| |done].
  - cbn [Z.ltb] in H. destruct (-1 <? 0) eqn:Eneg; [|done]. apply bind_inv in H as (? & s4 & Hc & H).
    apply in_kern_inv in Hc as (t' & Hc & ->). eapply holders_drop; [exact H | done | done|]. cbn in Hc.
    eapply kacct_fileclose_fresh in Hc; [|exact K2|by apply file_at_run|cbn; by rewrite Ty].
    eapply kacct_ext; [| | |exact Hc]; try done. cbn. upd_cases.
  - destruct (Z.ltb_spec fd 0); [lia|]. apply bind_inv in H as (? & s4 & Hu & H).
    assert (Hr3 : running s3) by (unfold running; by rewrite E2).
    assert (K3 : accounts (fd_refs (procs s3)) (upd (fun j => xi j + cwd_refs (procs s3) j) ip (xi ip + cwd_refs (procs s3) ip + 1)) (upd b ip true) (kern s3)).
    { rewrite E1. eapply kacct_ext; [| | |exact K2]; try done. intros j. unfold upd. cbn. by rewrite !E3. }
    eapply holders_unlock in Hu as (Hr4 & P4 & K4 & F4); [|done|done|exact K3].
    apply bind_inv in H as (? & s5 & He & H). apply in_kern_inv in He as (t5 & He & ->).
    apply in_fs_inv in He as He'. destruct He' as (z & _ & ->). eapply kacct_calm in He; [|apply quiet_log|exact K4].
    apply bind_inv in H as (? & s6 & Hs & [= <- <-]). apply in_kern_inv in Hs as (t6 & Hs & ->). cbn in Hs.
    assert (H5 : ftable (snd (with_fs z (kern s4))) !! k = Some (with_fref 1 y)) by (cbn; by rewrite F4, E1).
    eapply kacct_set_fresh in Hs as [K6 _]; [|exact He|exact H5|done|cbn; by rewrite Ty|done].
    apply holders_kern; [|done]. eapply kacct_ext; [| | |exact K6]; try done.
    + cbn [set_kern procs]. intros g. by rewrite P4.
    + intros j. cbn [set_kern procs]. rewrite P4. cbv beta. unfold upd, on_inode, one. cbn.
      destruct (Z.eqb_spec j ip) as [->|]; [rewrite decide_True by (split; [lia | done]) |
        rewrite decide_False by (intros (_ & _ & ?); congruence)]; lia.
Qed.

Lemma chdir_holders s a s' : sys_chdir devsw c s = Ok (a, s') -> holders_ok s -> holders_ok s'.
Proof using Hdev Hme Hxi Hb.
  unfold sys_chdir. intros H Ha. apply bind_inv in H as (? & s1 & Hl & H). eapply log_holders in Hl; [|done].
  pure_step H path. destruct path as [path|]; [|by eapply end_holders].
  apply bind_inv in H as (p & s2 & Hm & H). apply myproc_inv in Hm as [-> ->]; [|apply Hl].
  apply bind_inv in H as (y & s2 & [= <- <-] & H). apply bind_inv in H as (o & s3 & Hf & H).
  eapply (found_holders _ (fun ip => ip) (fun _ => b)) in Hf as Hfound; [|exact Hl|].
  2:{ intros r t t' Ht Hacc. eapply acct_find_dir in Ht; [|done..]. destruct o as [ip|]; [by destruct Ht | done]. }
  destruct o as [ip|]; [|by injection H as <- <-]. destruct Hfound as [Hr3 [K1 K2]].
  assert (P3 : procs s3 = procs s1) by (apply in_kern_inv in Hf as (? & _ & ->); done). clear Hf.
  apply bind_inv in H as (? & s4 & Hp & H). apply in_kern_inv in Hp as (t & Ht & ->). apply in_fs_inv in Ht as (z & Hz & ->).
  apply bind_inv in H as (? & s5 & He & H). apply bind_inv in H as (? & s6 & [= <- <-] & [= <- <-]).
  destruct (cwd (procs s1 me)) as [w|] eqn:Ew; unfold cwd_of in Hz; rewrite Ew in Hz; cbn in Hz; [|done].
  rewrite <- P3 in Ew. clear P3.
  assert (Hw : 1 <= cwd_refs (procs s3) w).
  { assert (H1 : in_dir w (procs s3 me) = 1) by (unfold in_dir, one; by rewrite decide_True).
    rewrite <- H1. eapply (sumZ_member _ _ (Z.to_nat me)); [intros x'; apply one_pos|].
    unfold table_order. rewrite list_lookup_fmap, lookup_seqZ_lt by (unfold NPROC in *; lia). cbn. by rewrite Z2Nat.id by lia. }
  set (R := open_refs (ftable (snd (kern s3)))) in *. assert (HR : 0 <= R w) by (apply sumZ_pos, on_inode_pos).
  assert (Hup : forall f : Z -> Z, f w <= upd f ip (f ip + 1) w) by (intros f; unfold upd; destruct (Z.eqb_spec w ip) as [->|]; lia).
  specialize (Hup (fun j => xi j + cwd_refs (procs s3) j)). cbv beta in Hup. specialize (Hxi w).
  eapply acct_iput in Hz; [|exact K2|cbv beta; lia|cbv beta; intros Hbw; specialize (Hb _ Hbw); lia].
  set (X := fun j => xi j + (cwd_refs (procs s3) j - one (Some w = Some j) + one (Some ip = Some j))).
  assert (K4 : accounts (fd_refs (procs s3)) X b (with_fs z (kern s3))).
  { split; [done|]. cbn [with_fs fst snd ftable fsys]. eapply acct_ext; [| |exact Hz]; [|done]. intros j. unfold X, one. cbn. fold R.
    unfold upd. destruct (decide (Some w = Some j)), (decide (Some ip = Some j)); simplify_eq;
      repeat case Z.eqb_spec; intros; simplify_eq; lia. }
  apply in_kern_inv in He as (t' & He & ->). eapply kacct_calm in He; [|apply quiet_log|exact K4].
  split; [done|]. eapply kacct_ext; [| | |exact He]; try done.
  - intros g. cbn. unfold fd_refs. rewrite over_procs_upd by done.
    assert (Hs : fds g (set_cwd (Some ip) (procs s3 me)) = fds g (procs s3 me)) by done. lia.
  - intros j. unfold X. cbn. unfold cwd_refs. rewrite over_procs_upd by done.
    assert (Hd : in_dir j (procs s3 me) = one (Some w = Some j)) by (unfold in_dir; by rewrite Ew). rewrite Hd.
    unfold in_dir at 2. cbn. lia.
Qed.

Lemma pipe_holders s a s' : sys_pipe kend c s = Ok (a, s') -> holders_ok s -> holders_ok s'.
Proof using Hme Hxi Hb.
  unfold sys_pipe. intros H Ha. pure_step H q. destruct q as [p|]; [|by injection H as <- <-].
  apply bind_inv in H as (o & s1 & Hp & H). apply in_kern_inv in Hp as (t & Hp & ->). destruct Ha as [Hr Ha].
  eapply kacct_pipealloc in Hp; [|exact Ha|apply holders_bounds|done].
  destruct o as [[rf wf]|]; [|by injection H as <- <-]. destruct Hp as [Hne K1]. set (s1 := set_kern t s) in *.
  assert (Hr1 : running s1) by done. apply bind_inv in H as (p' & s2 & Hm & H). apply myproc_inv in Hm as [-> ->]; [|done].
  (* closing both files again *)
  assert (Hundo : forall s2 (v : Z) s3, running s2 -> kern s2 = t ->
    (forall g, fd_refs (procs s2) g = fd_refs (procs s) g) -> (forall j, cwd_refs (procs s2) j = cwd_refs (procs s) j) ->
    (in_kern (fileclose kend rf) ;;; in_kern (fileclose kend wf) ;;; ret (-1)) s2 = Ok (v, s3) -> holders_ok s3).
  { intros s2 v s3 Hr2 Hk2 Hf2 Hc2 Hrun. apply bind_inv in Hrun as (? & s4 & Hc & Hrun). apply in_kern_inv in Hc as (t4 & Hc & ->).
    rewrite Hk2 in Hc. eapply kacct_fileclose in Hc; [|exact K1|apply holders_bounds|done].
    apply bind_inv in Hrun as (? & s5 & Hw & [= <- <-]). apply in_kern_inv in Hw as (t5 & Hw & ->). cbn [kern set_kern] in Hw.
    eapply kacct_fileclose in Hw; [|exact Hc|apply holders_bounds|done]. apply holders_kern; [|done].
    eapply kacct_ext; [| | |exact Hw]; try done; cbn [procs set_kern].
    - intros g. rewrite Hf2. revert g. upd_cases.
    - intros j. by rewrite Hc2. }
  apply bind_inv in H as (fd0 & s2 & H0 & H). apply fdalloc_inv in H0 as [[-> ->]|(Hp0 & E1 & E2 & E3 & E4 & E5)]; [| |done].
  { apply bind_inv in H as (fd1 & s3 & [= <- <-] & H). cbn [Z.ltb Z.compare orb Z.geb] in H.
    apply bind_inv in H as (? & s4 & [= <- <-] & H). by eapply Hundo in H. }
  assert (Hr2 : running s2) by (unfold running; by rewrite E2).
  destruct (Z.ltb_spec fd0 0); [lia|]. apply bind_inv in H as (fd1 & s3 & H1 & H).
  apply fdalloc_inv in H1 as [[-> ->]|(Hp1 & F1 & F2 & F3 & F4 & _)]; [| |done].
  - cbn [orb Z.ltb Z.compare] in H. destruct (Z.geb_spec fd0 0); [|lia]. apply bind_inv in H as (? & s4 & Hset & H).
    eapply set_fd_inv in Hset as (G1 & G2 & G3 & G4); [|exact E5]. eapply Hundo in H; [done|..].
    + unfold running. by rewrite G2.
    + by rewrite G1, E1.
    + intros g. rewrite G4, E4. unfold upd, one. rewrite (decide_False (P := None = Some g)) by done.
      destruct (Z.eqb_spec g rf) as [->|]; [rewrite decide_True by done | rewrite decide_False by congruence]; unfold s1; cbn; lia.
    + intros j. by rewrite G3, E3.
  - destruct (Z.ltb_spec fd1 0); [lia|]. cbn [orb] in H.
    apply bind_inv in H as (? & s4 & Hs0 & H). apply bind_inv in H as (? & s5 & Hs1 & [= <- <-]).
    eapply store_holders; [exact Hs1|]. eapply store_holders; [exact Hs0|]. split; [unfold running; by rewrite F2|].
    rewrite F1, E1. eapply kacct_ext; [| | |exact K1]; try done.
    + intros g. rewrite F4. unfold upd. rewrite !E4. unfold upd, s1. cbn.
      destruct (Z.eqb_spec g wf) as [->|]; [|by destruct (Z.eqb_spec g rf)]. by destruct (Z.eqb_spec wf rf).
    + intros j. by rewrite F3, E3.
Qed.

(** *** [exec] *)
Definition kquiet (s s' : kfiles) : Prop := ftable (snd s') = ftable (snd s) /\ quiet (fsys (snd s)) (fsys (snd s')).
#[local] Instance kquiet_preorder : PreOrder kquiet.
Proof using.
  split; [done|]. intros x y z [H1 H2] [H3 H4]. split; [congruence | by transitivity (fsys (snd y))].
Qed.
Lemma kquiet_vm {A} (v : V A) : respects kquiet (in_vm v).
Proof using. intros s a s' H. apply same_in_vm in H as [H1 H2]. split; [done|]. by rewrite H2. Qed.
Lemma kquiet_fs {A} (f : F A) : respects quiet f -> respects kquiet (in_fs f).
Proof using. intros Hf s a s' H. apply in_fs_inv in H as (t & Ht & ->). split; [done|]. by eapply Hf. Qed.
Lemma kquiet_load_segments n pgdir ip : forall off size, respects kquiet (load_segments kend devsw n pgdir ip off size).
Proof using Hdev.
  assert (Hl : forall fuel d a o sz i, respects kquiet (loaduvm_loop devsw fuel d a ip o sz i)).
  { induction fuel; intros; cbn [loaduvm_loop];
      respects_with ltac:(first [apply kquiet_vm | apply kquiet_fs; by apply quiet_readi | solve [auto]]). }
  induction n; intros; cbn [load_segments]; unfold loaduvm;
    respects_with ltac:(first [apply kquiet_vm | apply kquiet_fs; by apply quiet_readi | solve [auto]]).
Qed.
Lemma kacct_kquiet cnt x b' s s' : kquiet s s' -> accounts cnt x b' s -> accounts cnt x b' s'.
Proof using. intros [H1 H2] [K1 K2]. split; [by rewrite H1|]. rewrite H1. by eapply acct_quiet. Qed.
(** Changes that keep descriptors and directories. *)
Definition same_holding (s s' : kstate) : Prop :=
  kern s' = kern s /\ cproc (cpus s' c) = cproc (cpus s c) /\
  forall p, ofile (procs s' p) = ofile (procs s p) /\ cwd (procs s' p) = cwd (procs s p).
#[local] Instance same_holding_preorder : PreOrder same_holding.
Proof using.
  split; [done|]. intros x y z (H1 & H2 & H3) (H4 & H5 & H6). split_and!; [congruence..|].
  intros p. destruct (H3 p), (H6 p). split; congruence.
Qed.
Lemma holding_on_proc p f : (forall y, ofile (f y) = ofile y /\ cwd (f y) = cwd y) -> respects same_holding (on_proc p f).
Proof using.
  intros Hf. apply respects_modify. intros s. split_and!; try done. intros q. cbn. unfold upd.
  destruct (Z.eqb_spec q p) as [->|]; [apply Hf | done].
Qed.
Lemma holding_on_cpu f : (forall y, cproc (f y) = cproc y) -> respects same_holding (on_cpu c f).
Proof using.
  intros Hf. apply respects_modify. intros s. split_and!; try done. cbn. by rewrite decide_True by done.
Qed.
Lemma holding_switchuvm p : respects same_holding (switchuvm c p).
Proof using.
  unfold switchuvm, pushcli, popcli, myproc, the_cpu, the_proc.
  respects_with ltac:(apply holding_on_cpu; by intros).
Qed.
Lemma over_procs_ext g t t' : (forall p, g (t' p) = g (t p)) -> over_procs g t' = over_procs g t.
Proof using.
  intros H. unfold over_procs. induction table_order as [|p l IH]; [done|]. cbn. rewrite H. unfold sumZ in IH. by rewrite IH.
Qed.
Lemma holding_ok s s' : same_holding s s' -> holders_ok s -> holders_ok s'.
Proof using.
  intros (H1 & H2 & H3) [Hr Ha]. split; [unfold running; by rewrite H2|]. rewrite H1.
  eapply kacct_ext; [| | |exact Ha]; try done.
  - intros g. apply over_procs_ext. intros p. unfold fds. by rewrite (proj1 (H3 p)).
  - intros j. cbv beta. f_equal. apply over_procs_ext. intros p. unfold in_dir. by rewrite (proj2 (H3 p)).
Qed.
Lemma vm_holders {A} (v : V A) s a s' : in_kern (in_vm v) s = Ok (a, s') -> holders_ok s -> holders_ok s'.
Proof using.
  intros H Ha. eapply kern_step_holders; [exact H | exact Ha|]. intros cnt x t t' b' Ht. apply kacct_kquiet.
  by eapply kquiet_vm.
Qed.
Lemma bad_none_holders d s a s' : exec_bad kend d None s = Ok (a, s') -> holders_ok s -> holders_ok s'.
Proof using.
  unfold exec_bad. intros H Ha. apply bind_inv in H as (? & s1 & H1 & [= <- <-]).
  destruct (d =? 0); [by injection H1 as <- <- | by eapply vm_holders].
Qed.
Lemma commit_holders path d size en sp s a s' : exec_commit kend c path d size en sp s = Ok (a, s') -> holders_ok s -> holders_ok s'.
Proof using.
  unfold exec_commit, the_proc. intros H Ha. apply bind_inv in H as (p & s1 & Hm & H).
  assert (s1 = s) as -> by (by eapply pure_myproc).
  apply bind_inv in H as (? & s2 & H2 & H). apply (holding_on_proc _ _) in H2; [|done]. eapply holding_ok in Ha; [|exact H2].
  apply bind_inv in H as (y & s3 & [= <- <-] & H).
  apply bind_inv in H as (? & s4 & H4 & H). apply (holding_on_proc _ _) in H4; [|done]. eapply holding_ok in Ha; [|exact H4].
  apply bind_inv in H as (? & s5 & H5 & H). apply (holding_on_proc _ _) in H5; [|done]. eapply holding_ok in Ha; [|exact H5].
  apply bind_inv in H as (? & s6 & H6 & H). apply (holding_on_proc _ _) in H6; [|done]. eapply holding_ok in Ha; [|exact H6].
  apply bind_inv in H as (? & s7 & H7 & H). apply holding_switchuvm in H7. eapply holding_ok in Ha; [|exact H7].
  apply bind_inv in H as (? & s8 & H8 & [= <- <-]). by eapply vm_holders.
Qed.
Lemma image_holders path argv d size en s a s' : exec_image kend c path argv d size en s = Ok (a, s') -> holders_ok s -> holders_ok s'.
Proof using.
  unfold exec_image. intros H Ha. apply bind_inv in H as (z & s1 & H1 & H). eapply vm_holders in H1; [|done].
  destruct (z =? 0); [by eapply bad_none_holders|]. apply bind_inv in H as (? & s2 & H2 & H). eapply vm_holders in H2; [|done].
  apply bind_inv in H as (o & s3 & H3 & H). eapply vm_holders in H3; [|done].
  destruct o; [by eapply commit_holders | by eapply bad_none_holders].
Qed.
Lemma kquiet_step {A} (f : K A) s a s' cnt x b' : in_kern f s = Ok (a, s') -> respects kquiet f -> running s ->
  accounts cnt x b' (kern s) -> running s' /\ procs s' = procs s /\ accounts cnt x b' (kern s').
Proof using.
  intros H Hf Hr Ha. apply in_kern_inv in H as (t & Ht & ->). split_and!; try done. eapply kacct_kquiet; [|exact Ha]. by eapply Hf.
Qed.
Lemma bad_some_holders d ip s a s' : exec_bad kend d (Some ip) s = Ok (a, s') -> b ip = false -> running s ->
  accounts (fd_refs (procs s)) (upd (fun j => xi j + cwd_refs (procs s) j) ip (xi ip + cwd_refs (procs s) ip + 1))
    (upd b ip true) (kern s) -> holders_ok s'.
Proof using Hxi.
  unfold exec_bad. intros H Hbz Hr Ha. apply bind_inv in H as (? & s1 & H1 & H). destruct (d =? 0).
  - injection H1 as <- <-. by eapply holders_drop.
  - eapply kquiet_step in H1 as (R1 & P1 & K1); [|apply kquiet_vm|done|exact Ha]. eapply holders_drop; [exact H|done|done|].
    by rewrite P1.
Qed.
Lemma exec_holders path argv s a s' : exec kend kdata devsw c path argv s = Ok (a, s') -> holders_ok s -> holders_ok s'.
Proof using Hdev Hxi.
  unfold exec. intros H Ha. pure_step H x. apply bind_inv in H as (? & s1 & H1 & H). eapply log_holders in H1; [|done].
  apply bind_inv in H as (o & s2 & H2 & H). eapply (found_holders _ (fun ip => ip) (fun _ => b)) in H2 as Hf; [|exact H1|].
  2:{ intros r t t' Ht Hacc. eapply acct_namei in Ht; [|done..]. destruct o as [ip|]; [by destruct Ht | done]. }
  destruct o as [ip|]; [|by eapply end_holders]. destruct Hf as [R2 K2]. clear H2.
  apply bind_inv in H as (? & s3 & H3 & H).
  assert (H3' : b ip = false /\ running s3 /\ procs s3 = procs s2 /\ accounts (fd_refs (procs s2))
    (upd (fun j => xi j + cwd_refs (procs s2) j) ip (xi ip + cwd_refs (procs s2) ip + 1)) (upd b ip true) (kern s3)).
  { apply in_kern_inv in H3 as (t & Ht & ->). eapply kacct_ilock in Ht as [Ht Hbz]; [|exact K2]. by split_and!. }
  destruct H3' as (Hbz & R3 & P3 & K3). clear H3 K2.
  apply bind_inv in H as ([r l] & s4 & H4 & H).
  eapply kquiet_step in H4 as (R4 & P4 & K4); [|apply kquiet_fs; by apply quiet_readi|done|exact K3]. rewrite P3 in P4. rewrite <- P4 in K4.
  destruct (u32 r <? ELFHDR); [by eapply bad_some_holders|]. apply bind_inv in H as (elf & s5 & H5 & H).
  assert (s5 = s4) as -> by (destruct (elf_of l); [by injection H5 as _ <- | done]). destruct (negb _); [by eapply bad_some_holders|].
  apply bind_inv in H as (d & s5' & H6 & H). eapply kquiet_step in H6 as (R5 & P5 & K5); [|apply kquiet_vm|done|exact K4]. rewrite <- P5 in K5.
  destruct (d =? 0); [by eapply bad_some_holders|]. apply bind_inv in H as (o & s6 & H7 & H).
  eapply kquiet_step in H7 as (R6 & P6 & K6); [|apply kquiet_load_segments|done|exact K5]. rewrite <- P6 in K6.
  destruct o as [size|]; [|by eapply bad_some_holders].
  apply bind_inv in H as (? & s7 & H8 & H). apply bind_inv in H as (? & s8 & H9 & H). eapply image_holders; [exact H|].
  eapply (holders_drop ip s6 (-1) s8); [|done|done|exact K6].
  rewrite (bind_Ok _ _ _ _ _ H8), (bind_Ok _ _ _ _ _ H9). done.
Qed.
Lemma fetch_argv_pure n : forall u i, respects unchanged (fetch_argv c n u i).
Proof using.
  induction n; intros; cbn [fetch_argv]; respects_with ltac:(first [apply pure_fetchint | apply pure_fetchstr | solve [auto]]).
Qed.
Hint Resolve fetch_argv_pure : xv6.
Lemma sys_exec_holders s a s' : sys_exec kend kdata devsw c s = Ok (a, s') -> holders_ok s -> holders_ok s'.
Proof using Hdev Hxi.
  unfold sys_exec. intros H Ha. pure_step H path. destruct path as [path|]; [|by injection H as <- <-]. pure_step H u.
  destruct u as [u|]; [|by injection H as <- <-]. pure_step H argv. destruct argv as [argv|]; [|by injection H as <- <-].
  by eapply exec_holders.
Qed.

(** ** All of them *)
Lemma file_call_holders num f s a s' : file_syscalls kend kdata devsw c num = Some f -> f s = Ok (a, s') ->
  holders_ok s -> holders_ok s'.
Proof using Hdev Hme Hxi Hb.
  unfold file_syscalls. intros Hf.
  repeat (match type of Hf with (match ?x with _ => _ end) = _ => destruct x end; try discriminate Hf);
    injection Hf as <-;
    eauto using pipe_holders, read_holders, fstat_holders, chdir_holders, dup_holders, open_holders, write_holders,
      mknod_holders, unlink_holders, link_holders, mkdir_holders, close_holders, sys_exec_holders.
Qed.
Lemma eax_holders v s : holders_ok s -> holders_ok (set_proc me (set_eax v) s).
Proof using Hme.
  intros [Hr Ha]. split; [done|]. eapply kacct_ext; [| | |exact Ha]; try done.
  - intros g. cbn. unfold fd_refs. rewrite over_procs_upd by done.
    assert (Hs : fds g (set_eax v (procs s me)) = fds g (procs s me)) by done. lia.
  - intros j. cbn. unfold cwd_refs. rewrite over_procs_upd by done.
    assert (Hs : in_dir j (set_eax v (procs s me)) = in_dir j (procs s me)) by done. lia.
Qed.
End Calls.

(** No file system call leaks.  Take the calls of sysfile.c as dispatched by
    [syscall] (an unknown number included), with device functions that leave
    references and locks alone, and accounts that are in order: every file's
    reference count is the number of descriptors of all processes that denote
    it, a file without references is closed, every inode's count is the number
    of open files and current directories on it plus the references [xi] of
    calls that other processes are in, and the inodes locked are those [b] of
    such calls.  Whatever call the process makes and whether it succeeds or
    fails at whatever step, when it returns the accounts are in order again, so
    it neither leaks nor drops a reference and leaves no lock behind, and every
    inode that another call holds is still the same inode. *)
Theorem file_calls_count_holders kend kdata devsw c me xi key b s s' :
  quiet_devices devsw -> 0 <= me < NPROC -> (forall j, 0 <= xi j) -> (forall j, b j = true -> 0 < xi j) ->
  holders_ok c me xi key b s -> syscall c (file_syscalls kend kdata devsw c) s = Ok (tt, s') ->
  holders_ok c me xi key b s'.
Proof.
  intros Hdev Hme Hxi Hb Hs H. unfold syscall in H. apply bind_inv in H as (p & s1 & Hm & H).
  eapply (myproc_inv c me) in Hm as [-> ->]; [|apply Hs]. apply bind_inv in H as (x & s1 & [= <- <-] & H).
  match type of H with (match ?t with _ => _ end) _ = _ => destruct t as [f|] eqn:Ef end.
  - destruct (_ && _); [|done]. apply bind_inv in H as (r & s1 & Hf & [= <-]). apply eax_holders; [done|].
    by eapply file_call_holders.
  - injection H as <-. by apply eax_holders.
Qed.
