(* ===== verification/SysfileTxn.v ===== *)
(** * SysfileTxn: every change of the disk is in a transaction (src/src/sysfile.c, src/src/file.c)

    [log_write] panics outside a transaction, and [begin_op] inside one can
    wait for itself.  Here: the calls of sysfile.c open and close transactions
    properly on every path, and change blocks only inside them. *)
From S2P Require Import Prelude CString Vm VmFacts Fs FsFacts FsFile Pipe File FileFacts Proc Syscall Sysfile Exec InodeRefs SysfileRefs SysfileCalls.

(** ** Traces of the log *)

(** Whether a transaction is open after the trace; [None] if a block was
    changed outside, a transaction opened inside another or none closed. *)
Fixpoint txn (inside : bool) (tr : list log_event) : option bool :=
  match tr with
  | [] => Some inside
  | Ev_begin :: tr' => if inside then None else txn true tr'
  | Ev_write _ :: tr' => if inside then txn true tr' else None
  | Ev_end :: tr' => if inside then txn false tr' else None
  end.
Lemma txn_app tr tr' b : txn b (tr ++ tr') = b' ← txn b tr; txn b' tr'.
Proof. revert b. induction tr as [|[] tr IH]; intros []; try done; apply IH. Qed.
Definition inside (s : fstate) : Prop := txn false (logged s) = Some true.
Definition outside (s : fstate) : Prop := txn false (logged s) = Some false.
Definition stays (s s' : fstate) : Prop := inside s -> inside s'.
#[export] Instance stays_preorder : PreOrder stays.
Proof. split; [intros s H; exact H|]. intros x y z H1 H2 H. by apply H2, H1. Qed.

Lemma stays_logged s s' : logged s' = logged s -> stays s s'.
Proof. unfold stays, inside. by intros ->. Qed.
Lemma stays_set_inode ip f : respects stays (set_inode ip f).
Proof. intros s a s'. unfold set_inode. destruct (if ip <? 0 then _ else _); [|done]. intros [= <- <-]. by apply stays_logged. Qed.
Lemma stays_inode_at ip : respects stays (inode_at ip).
Proof. intros s a s'. unfold inode_at. destruct (if ip <? 0 then _ else _); intros [= <- <-]. by apply stays_logged. Qed.
Lemma stays_set_disk f : respects stays (set_disk f).
Proof. apply respects_modify. intros s. by apply stays_logged. Qed.
Lemma stays_log_write b : respects stays (log_write b).
Proof. apply respects_modify. intros s. unfold stays, inside. cbn. intros H. by rewrite txn_app, H. Qed.
Create HintDb txn.
#[export] Hint Resolve stays_set_inode stays_inode_at stays_set_disk stays_log_write : txn.
Ltac stay := respects_with ltac:(first [solve [auto with txn] | apply respects_mfor; [apply _|] ]).
Lemma stays_balloc : respects stays balloc.
Proof. unfold balloc, readsb, bzero. stay. Qed.
Lemma stays_bfree b : respects stays (bfree b).
Proof. unfold bfree, readsb. stay. Qed.
Lemma stays_iupdate ip : respects stays (iupdate ip).
Proof. unfold iupdate. stay. Qed.
#[export] Hint Resolve stays_balloc stays_bfree stays_iupdate : txn.
Lemma stays_bmap ip bn : respects stays (bmap ip bn).
Proof. unfold bmap, bmap_slot, bmap_entry. stay. Qed.
Lemma stays_itrunc ip : respects stays (itrunc ip).
Proof. unfold itrunc. stay. Qed.
Lemma stays_iget dev inum : respects stays (iget dev inum).
Proof. unfold iget. stay. Qed.
Lemma stays_idup ip : respects stays (idup ip).
Proof. unfold idup. stay. Qed.
Lemma stays_ilock ip : respects stays (ilock ip).
Proof. unfold ilock, blocked. stay. Qed.
Lemma stays_iunlock ip : respects stays (iunlock ip).
Proof. unfold iunlock. stay. Qed.
#[export] Hint Resolve stays_bmap stays_itrunc stays_iget stays_idup stays_ilock stays_iunlock : txn.
Lemma stays_ialloc dev ty : respects stays (ialloc dev ty).
Proof. unfold ialloc, readsb. stay. Qed.
Lemma stays_iput ip : respects stays (iput ip).
Proof. unfold iput. stay. Qed.
Lemma stays_add_nlink ip d : respects stays (add_nlink ip d).
Proof. unfold add_nlink. stay. Qed.
#[export] Hint Resolve stays_ialloc stays_iput stays_add_nlink : txn.
Lemma stays_iunlockput ip : respects stays (iunlockput ip).
Proof. unfold iunlockput. stay. Qed.
#[export] Hint Resolve stays_iunlockput : txn.

Section Devices.
Context (devsw : Z -> devops).
(** Device functions do not use the log. *)
Definition silent_devices : Prop := forall major,
  (forall f, dev_read (devsw major) = Some f -> forall ip n, respects stays (f ip n)) /\
  (forall f, dev_write (devsw major) = Some f -> forall ip l, respects stays (f ip l)).
Context (Hdev : silent_devices).
Lemma stays_readi ip off n : respects stays (readi devsw ip off n).
Proof using Hdev.
  assert (Hl : forall fuel off n tot, respects stays (readi_loop fuel ip off n tot)).
  { induction fuel; intros; cbn [readi_loop]; stay. }
  unfold readi. apply respects_bind; [apply stays_inode_at|]. intros i.
  destruct (i_type i =? T_DEV); [|stay]. destruct (_ || _); [stay|].
  destruct (dev_read _) eqn:Ed; [|stay]. by apply (Hdev (i_major i)).
Qed.
Lemma stays_writei ip l off : respects stays (writei devsw ip l off).
Proof using Hdev.
  assert (Hl : forall fuel src off, respects stays (writei_loop fuel ip src off)).
  { induction fuel; intros; cbn [writei_loop]; stay. }
  unfold writei. apply respects_bind; [apply stays_inode_at|]. intros i.
  destruct (i_type i =? T_DEV); [|stay]. destruct (_ || _); [stay|].
  destruct (dev_write _) eqn:Ed; [|stay]. by apply (Hdev (i_major i)).
Qed.
Hint Resolve stays_readi stays_writei : txn.
Lemma stays_read_entry dp off : respects stays (read_entry devsw dp off).
Proof using Hdev. unfold read_entry. stay. Qed.
Hint Resolve stays_read_entry : txn.
Lemma stays_dirlookup dp nm : respects stays (dirlookup devsw dp nm).
Proof using Hdev.
  assert (Hl : forall fuel off, respects stays (dirlookup_loop devsw fuel dp off nm)).
  { induction fuel; intros; cbn [dirlookup_loop]; stay. }
  unfold dirlookup. stay.
Qed.
Lemma stays_isdirempty dp : respects stays (isdirempty devsw dp).
Proof using Hdev.
  assert (Hl : forall fuel off, respects stays (isdirempty_loop devsw fuel dp off)).
  { induction fuel; intros; cbn [isdirempty_loop]; stay. }
  unfold isdirempty. stay.
Qed.
Hint Resolve stays_dirlookup stays_isdirempty : txn.
Lemma stays_dirlink dp nm inum : respects stays (dirlink devsw dp nm inum).
Proof using Hdev.
  assert (Hl : forall fuel off, respects stays (free_entry devsw fuel dp off)).
  { induction fuel; intros; cbn [free_entry]; stay. }
  unfold dirlink. stay.
Qed.
Lemma stays_namex cwd path np : respects stays (namex devsw cwd path np).
Proof using Hdev.
  assert (Hl : forall fuel ip path nm, respects stays (namex_loop devsw fuel ip path np nm)).
  { induction fuel; intros; cbn [namex_loop]; stay. }
  unfold namex. stay.
Qed.
Hint Resolve stays_dirlink stays_namex : txn.
Lemma stays_namei cwd path : respects stays (namei devsw cwd path).
Proof using Hdev. unfold namei. stay. Qed.
Lemma stays_nameiparent cwd path : respects stays (nameiparent devsw cwd path).
Proof using Hdev. unfold nameiparent. stay. Qed.
Hint Resolve stays_namei stays_nameiparent : txn.
Lemma stays_create cwd path ty mj mn : respects stays (create devsw cwd path ty mj mn).
Proof using Hdev. unfold create. stay. Qed.
Hint Resolve stays_create : txn.

(** ** Code that closes the transaction it is in *)
Definition closes {A} (f : F A) : Prop := forall s a s', inside s -> f s = Ok (a, s') -> outside s'.
Lemma closes_end {A} (v : A) : closes (end_op ;;; ret v).
Proof using. intros s a s' Hs [= <- <-]. unfold outside. cbn. unfold inside in Hs. by rewrite txn_app, Hs. Qed.
Lemma closes_bind {A B} (f : F A) (k : A -> F B) : respects stays f -> (forall a, closes (k a)) -> closes (M_bind f k).
Proof using.
  intros Hf Hk s a s' Hs H. apply bind_inv in H as (x & s1 & H1 & H). eapply Hk; [|exact H]. by eapply Hf.
Qed.
Lemma closes_panic {A} msg : closes (@panic fstate A msg).
Proof using. by intros s a s'. Qed.
Ltac close := repeat first
  [ progress intros | apply closes_end | apply closes_panic
  | match goal with
    | |- closes (if ?b then _ else _) => destruct b
    | |- closes (match ?x with _ => _ end) => destruct x
    end
  | apply closes_bind; [solve [stay]|] ].
Lemma opens {A} (f : F A) s a s' : closes f -> outside s -> (begin_op ;;; f) s = Ok (a, s') -> outside s'.
Proof using.
  intros Hf Hs H. apply bind_inv in H as (? & s1 & [= <- <-] & H). eapply Hf; [|exact H].
  unfold inside. cbn. unfold outside in Hs. by rewrite txn_app, Hs.
Qed.
Lemma link_closes cwd old new s a s' : outside s -> link devsw cwd old new s = Ok (a, s') -> outside s'.
Proof using Hdev. intros Hs. apply opens; [|done]. unfold link_bad. close. Qed.
Lemma unlink_closes cwd path s a s' : outside s -> unlink devsw cwd path s = Ok (a, s') -> outside s'.
Proof using Hdev. intros Hs. apply opens; [|done]. unfold unlink_bad. close. Qed.
Lemma make_node_closes cwd path ty mj mn : closes (make_node devsw cwd path ty mj mn).
Proof using Hdev. unfold make_node. close. Qed.
End Devices.

(** ** The calls *)
Definition k_outside (s : kfiles) : Prop := outside (fsys (snd s)).
Definition same_fs (s s' : kfiles) : Prop := fsys (snd s') = fsys (snd s).
#[export] Instance same_fs_preorder : PreOrder same_fs.
Proof. split; [done|]. intros x y z H1 H2. unfold same_fs in *. congruence. Qed.
Lemma same_fs_files s s' : same_files s s' -> same_fs s s'.
Proof. by intros [_ ?]. Qed.
Lemma same_fs_file_at f : respects same_fs (file_at f).
Proof. intros s a s'. unfold file_at. by destruct (if f <? 0 then _ else _); intros [= <- <-]. Qed.
Lemma same_fs_set_file f g : respects same_fs (set_file f g).
Proof. intros s a s'. unfold set_file. by destruct (if f <? 0 then _ else _); intros [= <- <-]. Qed.
Lemma same_fs_filealloc : respects same_fs filealloc.
Proof. unfold filealloc. respects_with ltac:(apply same_fs_set_file). Qed.
Lemma same_fs_filedup f : respects same_fs (filedup f).
Proof. unfold filedup. respects_with ltac:(first [apply same_fs_set_file | apply same_fs_file_at]). Qed.
(** Inode code that does not use the log. *)
Definition mute (s s' : fstate) : Prop := logged s' = logged s.
#[export] Instance mute_preorder : PreOrder mute.
Proof. split; [done|]. intros x y z H1 H2. unfold mute in *. congruence. Qed.
Lemma mute_set_inode ip f : respects mute (set_inode ip f).
Proof. intros s a s'. unfold set_inode. by destruct (if ip <? 0 then _ else _); intros [= <- <-]. Qed.
Lemma mute_inode_at ip : respects mute (inode_at ip).
Proof. intros s a s'. unfold inode_at. by destruct (if ip <? 0 then _ else _); intros [= <- <-]. Qed.
Lemma mute_ilock ip : respects mute (ilock ip).
Proof. unfold ilock, blocked. respects_with ltac:(first [apply mute_set_inode | apply mute_inode_at]). Qed.
Lemma mute_iunlock ip : respects mute (iunlock ip).
Proof. unfold iunlock. respects_with ltac:(first [apply mute_set_inode | apply mute_inode_at]). Qed.

Section Calls.
Context (kend kdata : Z) (devsw : Z -> devops) (Hq : quiet_devices devsw) (Hdev : silent_devices devsw).
Lemma k_outside_fs s s' : same_fs s s' -> k_outside s -> k_outside s'.
Proof using. unfold k_outside. by intros ->. Qed.
Lemma in_fs_closes {A} (f : F A) s a s' : closes f -> inside (fsys (snd s)) -> in_fs f s = Ok (a, s') -> k_outside s'.
Proof using. intros Hf Hs H. apply in_fs_inv in H as (t & Ht & ->). by eapply Hf. Qed.
Lemma in_fs_stays {A} (f : F A) s a s' : respects stays f -> inside (fsys (snd s)) -> in_fs f s = Ok (a, s') -> inside (fsys (snd s')).
Proof using. intros Hf Hs H. apply in_fs_inv in H as (t & Ht & ->). by eapply Hf. Qed.
Lemma in_fs_begin s a s' : k_outside s -> in_fs begin_op s = Ok (a, s') -> inside (fsys (snd s')).
Proof using. intros Hs [= <- <-]. unfold inside. cbn. unfold k_outside, outside in Hs. by rewrite txn_app, Hs. Qed.
Lemma in_fs_end s a s' : inside (fsys (snd s)) -> in_fs end_op s = Ok (a, s') -> k_outside s'.
Proof using. intros Hs [= <- <-]. unfold k_outside, outside. cbn. unfold inside in Hs. by rewrite txn_app, Hs. Qed.
Lemma in_fs_mute {A} (f : F A) s a s' : respects mute f -> in_fs f s = Ok (a, s') -> k_outside s -> k_outside s'.
Proof using. intros Hf H. apply in_fs_inv in H as (t & Ht & ->). unfold k_outside, outside. cbn. by rewrite (Hf _ _ _ Ht). Qed.

Lemma fileclose_outside f s a s' : fileclose kend f s = Ok (a, s') -> k_outside s -> k_outside s'.
Proof using.
  unfold fileclose. intros H Hs. apply bind_inv in H as (y & s1 & Hat & H). apply same_fs_file_at in Hat.
  destruct (f_ref y <? 1); [done|]. apply bind_inv in H as (? & s2 & H2 & H). apply same_fs_set_file in H2.
  assert (K2 : k_outside s2) by (eapply k_outside_fs; [by transitivity s1 | done]).
  destruct (_ >? 0); [by injection H as <- <-|]. apply bind_inv in H as (? & s3 & H3 & H). apply same_fs_set_file in H3.
  apply bind_inv in H as (? & s4 & H4 & H). apply same_fs_set_file in H4.
  assert (K4 : k_outside s4) by (eapply k_outside_fs; [by transitivity s3 | done]).
  destruct (f_type y); [by injection H as <- <-| |].
  - eapply k_outside_fs; [|exact K4]. by eapply same_fs_files, same_pipeclose.
  - apply bind_inv in H as (? & s5 & H5 & H). eapply in_fs_begin in H5; [|done]. apply bind_inv in H as (? & s6 & H6 & H).
    eapply in_fs_stays in H6; [|apply stays_iput|done]. by eapply in_fs_end.
Qed.
Lemma fileclose_none k y s a s' : fileclose kend (Z.of_nat k) s = Ok (a, s') -> ftable (snd s) !! k = Some y ->
  f_type y = FD_NONE -> same_fs s s'.
Proof using.
  unfold fileclose. intros H Hy Ht. apply bind_inv in H as (y' & s1 & Hat & H). rewrite (file_at_run _ _ _ Hy) in Hat.
  injection Hat as <- <-. destruct (f_ref y <? 1); [done|]. rewrite Ht in H. revert H.
  match goal with |- ?f s = _ -> _ => intros H; refine ((_ : respects same_fs f) _ _ _ H) end.
  respects_with ltac:(apply same_fs_set_file).
Qed.
Lemma filewrite_outside f l n k s a s' : filewrite devsw f l n k s = Ok (a, s') -> k_outside s -> k_outside s'.
Proof using Hdev.
  assert (Hl : forall fuel i s v s', filewrite_loop devsw fuel f l n i s = Ok (v, s') -> k_outside s -> k_outside s').
  { induction fuel as [|fuel IH]; intros i s0 v s1 H Hs; [done|]. cbn [filewrite_loop] in H.
    destruct (i <? n); [|by injection H as <- <-].
    apply bind_inv in H as (? & s2 & H2 & H). eapply in_fs_begin in H2; [|done].
    apply bind_inv in H as (y & s3 & H3 & H). apply same_fs_file_at in H3. rewrite <- H3 in H2.
    apply bind_inv in H as (? & s4 & H4 & H). eapply in_fs_stays in H4; [|apply stays_ilock|done].
    apply bind_inv in H as (w & s5 & H5 & H). eapply in_fs_stays in H5; [|by apply stays_writei|done].
    apply bind_inv in H as (? & s6 & H6 & H).
    assert (K6 : inside (fsys (snd s6))).
    { destruct (w >? 0); [|by injection H6 as <- <-]. apply same_fs_set_file in H6. by rewrite H6. }
    apply bind_inv in H as (? & s7 & H7 & H). eapply in_fs_stays in H7; [|apply stays_iunlock|done].
    apply bind_inv in H as (? & s8 & H8 & H). eapply in_fs_end in H8; [|done].
    destruct (w <? 0); [by injection H as <- <-|]. destruct (negb _); [done|]. by eapply IH. }
  unfold filewrite. intros H Hs. apply bind_inv in H as (y & s1 & Hat & H). apply same_fs_file_at in Hat.
  assert (K1 : k_outside s1) by (by eapply k_outside_fs).
  destruct (_ =? 0); [by injection H as <- <-|]. destruct (f_type y); [done| |].
  - eapply k_outside_fs; [|exact K1]. by eapply same_fs_files, same_pipewrite.
  - apply bind_inv in H as (v & s2 & H2 & [= <- <-]). by eapply Hl.
Qed.
Lemma filestat_outside f s a s' : filestat f s = Ok (a, s') -> k_outside s -> k_outside s'.
Proof using.
  unfold filestat. intros H Hs. apply bind_inv in H as (y & s1 & Hat & H). apply same_fs_file_at in Hat.
  assert (K1 : k_outside s1) by (by eapply k_outside_fs).
  destruct (f_type y); [by injection H as <- <- | by injection H as <- <- |].
  apply bind_inv in H as (? & s2 & H2 & H). apply in_fs_mute in H2; [|apply mute_ilock|done].
  apply bind_inv in H as (st & s3 & H3 & H).
  apply in_fs_mute in H3; [|unfold stati; respects_with ltac:(apply mute_inode_at)|done].
  apply bind_inv in H as (? & s4 & H4 & [= <- <-]). by apply in_fs_mute in H4; [|apply mute_iunlock|].
Qed.
Lemma pipealloc_outside s a s' : pipealloc kend s = Ok (a, s') -> k_outside s -> k_outside s'.
Proof using.
  unfold pipealloc. intros H Hs. apply bind_inv in H as (o0 & s1 & H1 & H). apply same_fs_filealloc in H1.
  eapply k_outside_fs in Hs; [|exact H1]. destruct o0 as [f0|]; [|by injection H as <- <-].
  apply bind_inv in H as (o1 & s2 & H2 & H). apply same_fs_filealloc in H2. eapply k_outside_fs in Hs; [|exact H2].
  destruct o1 as [f1|].
  2:{ apply bind_inv in H as (? & s3 & H3 & [= <- <-]). by eapply fileclose_outside. }
  apply bind_inv in H as (p & s3 & H3 & H). apply same_in_vm, same_fs_files in H3. eapply k_outside_fs in Hs; [|exact H3].
  destruct (p =? 0).
  { apply bind_inv in H as (? & s4 & H4 & H). apply bind_inv in H as (? & s5 & H5 & [= <- <-]).
    eapply fileclose_outside; [exact H5|]. by eapply fileclose_outside. }
  apply bind_inv in H as (j & s4 & [= <- <-] & H). apply bind_inv in H as (? & s5 & [= <- <-] & H).
  apply bind_inv in H as (? & s6 & H6 & H). apply bind_inv in H as (? & s7 & H7 & [= <- <-]).
  apply same_fs_set_file in H6, H7. eapply k_outside_fs; [exact H7|]. by eapply k_outside_fs.
Qed.
Lemma open_inode_txn cwd path om s o s' : open_inode devsw cwd path om s = Ok (o, s') -> outside s ->
  match o with Some _ => inside s' | None => outside s' end.
Proof using Hdev.
  unfold open_inode. intros H Hs. apply bind_inv in H as (? & s1 & [= <- <-] & H).
  set (s1 := mkF _ _ _) in H. assert (H1 : inside s1) by (unfold inside; cbn; unfold outside in Hs; by rewrite txn_app, Hs).
  assert (Hend : forall (s2 : fstate), inside s2 -> (end_op ;;; ret None) s2 = Ok (o, s') ->
    match o with Some _ => inside s' | None => outside s' end).
  { intros s2 H2 He. pose proof (closes_end (@None Z) _ _ _ H2 He) as Hc. by assert (o = None) as -> by (injection He; congruence). }
  destruct (negb _).
  - apply bind_inv in H as (o1 & s2 & H2 & H). apply (stays_create _ Hdev) in H2. specialize (H2 H1).
    destruct o1 as [ip|]; [by injection H as <- <- | by eapply Hend; [|exact H]].
  - apply bind_inv in H as (o1 & s2 & H2 & H). apply (stays_namei _ Hdev) in H2. specialize (H2 H1).
    destruct o1 as [ip|]; [|by eapply Hend; [|exact H]]. apply bind_inv in H as (? & s3 & H3 & H). apply stays_ilock in H3. specialize (H3 H2).
    apply bind_inv in H as (i & s4 & H4 & H). apply stays_inode_at in H4. specialize (H4 H3).
    destruct (_ && _); [|by injection H as <- <-]. apply bind_inv in H as (? & s5 & H5 & H). apply stays_iunlockput in H5.
    eapply Hend; [|exact H]. by apply H5.
Qed.
Lemma find_dir_txn cwd path s o s' : find_dir devsw cwd path s = Ok (o, s') -> inside s ->
  match o with Some _ => inside s' | None => outside s' end.
Proof using Hdev.
  unfold find_dir. intros H Hs.
  assert (Hend : forall (s2 : fstate), inside s2 -> (end_op ;;; ret None) s2 = Ok (o, s') ->
    match o with Some _ => inside s' | None => outside s' end).
  { intros s2 H2 He. pose proof (closes_end (@None Z) _ _ _ H2 He) as Hc. by assert (o = None) as -> by (injection He; congruence). }
  apply bind_inv in H as (o1 & s2 & H2 & H). apply (stays_namei _ Hdev) in H2. specialize (H2 Hs).
  destruct o1 as [ip|]; [|by eapply Hend; [|exact H]]. apply bind_inv in H as (? & s3 & H3 & H). apply stays_ilock in H3. specialize (H3 H2).
  apply bind_inv in H as (i & s4 & H4 & H). apply stays_inode_at in H4. specialize (H4 H3). destruct (negb _).
  - apply bind_inv in H as (? & s5 & H5 & H). apply stays_iunlockput in H5. eapply Hend; [|exact H]. by apply H5.
  - apply bind_inv in H as (? & s5 & H5 & [= <- <-]). apply stays_iunlock in H5. by apply H5.
Qed.

(** *** Whole calls *)
Context (c : nat) (me : Z) (xi : Z -> Z) (key : Z -> Z * Z) (b : Z -> bool).
Definition fs_outside (s : kstate) : Prop := k_outside (kern s).
Definition fs_inside (s : kstate) : Prop := inside (fsys (snd (kern s))).
Ltac pure_step H x := let s1 := fresh "s" in let Q := fresh "Q" in
  apply bind_inv in H as (x & s1 & Q & H);
  match type of Q with ?f ?s0 = Ok _ =>
    assert (s1 = s0) as -> by (refine ((_ : respects unchanged f) _ _ _ Q); auto with xv6) end.
Lemma kern_outside {A} (f : K A) s a s' : in_kern f s = Ok (a, s') -> fs_outside s ->
  (forall t t', f t = Ok (a, t') -> k_outside t -> k_outside t') -> fs_outside s'.
Proof using. intros H Hs Hf. apply in_kern_inv in H as (t & Ht & ->). by eapply Hf. Qed.
Lemma fs_closes {A} (f : F A) s a s' : closes f -> fs_inside s -> fs_call f s = Ok (a, s') -> fs_outside s'.
Proof using. intros Hf Hs H. apply in_kern_inv in H as (t & Ht & ->). by eapply in_fs_closes. Qed.
Lemma fs_stays {A} (f : F A) s a s' : respects stays f -> fs_inside s -> fs_call f s = Ok (a, s') -> fs_inside s'.
Proof using. intros Hf Hs H. apply in_kern_inv in H as (t & Ht & ->). by eapply in_fs_stays. Qed.
Lemma fs_begin s a s' : fs_outside s -> fs_call begin_op s = Ok (a, s') -> fs_inside s'.
Proof using. intros Hs H. apply in_kern_inv in H as (t & Ht & ->). by eapply in_fs_begin. Qed.
Lemma fs_end s a s' : fs_inside s -> fs_call end_op s = Ok (a, s') -> fs_outside s'.
Proof using. intros Hs H. apply in_kern_inv in H as (t & Ht & ->). by eapply in_fs_end. Qed.
Lemma store_outside va l s a s' : store_user c va l s = Ok (a, s') -> fs_outside s -> fs_outside s'.
Proof using. intros H. apply same_store_user in H as (_ & _ & H3). unfold fs_outside, k_outside. by rewrite H3. Qed.
Lemma set_fd_kern p fd o s a s' : set_fd p fd o s = Ok (a, s') -> kern s' = kern s.
Proof using. by intros [= _ <-]. Qed.
Lemma fdalloc_kern f s a s' : fdalloc c f s = Ok (a, s') -> kern s' = kern s.
Proof using.
  unfold fdalloc. intros H. pure_step H p.
  apply bind_inv in H as (x & s1 & [= <- <-] & H). destruct (first_free _ _); [|by injection H as _ <-].
  by apply bind_inv in H as (? & s1 & [= _ <-] & [= _ <-]).
Qed.
Lemma sys_open_outside s a s' : sys_open kend devsw c s = Ok (a, s') -> holders_ok c me xi key b s ->
  fs_outside s -> fs_outside s'.
Proof using Hdev Hq.
  unfold sys_open. intros H Ha Hs. pure_step H path. destruct path as [path|]; [|by injection H as <- <-]. pure_step H om.
  destruct om as [om|]; [|by injection H as <- <-]. pure_step H x. apply bind_inv in H as (o & s1 & Ho & H).
  pose proof Ho as Ho'. apply in_kern_inv in Ho as (t & Ht & ->). apply in_fs_inv in Ht as (z & Hz & ->).
  pose proof (open_inode_txn _ _ _ _ _ _ Hz Hs) as Htx. destruct o as [ip|]; [|by injection H as <- <-].
  set (s1 := set_kern _ _) in *. assert (H1 : fs_inside s1) by done.
  assert (Hfiles : files_ok (fd_refs (procs s)) (ftable (snd (kern s1)))) by exact (ka_files _ _ _ _ _ _ (proj2 Ha)).
  assert (Hdrop : forall s2 (v : Z) s3, fs_inside s2 ->
    (fs_call (iunlockput ip) ;;; fs_call end_op ;;; ret (-1)) s2 = Ok (v, s3) -> fs_outside s3).
  { intros s2 v s3 H2 Hr. apply bind_inv in Hr as (? & s4 & H4 & Hr). eapply fs_stays in H4; [|apply stays_iunlockput|done].
    apply bind_inv in Hr as (? & s5 & H5 & [= <- <-]). by eapply fs_end. }
  apply bind_inv in H as (f & s2 & Hf & H). apply in_kern_inv in Hf as (t & Hf & ->).
  pose proof (same_fs_filealloc _ _ _ Hf) as Hsame. unfold same_fs in Hsame.
  set (s2 := set_kern t s1) in *. assert (H2 : fs_inside s2) by (unfold fs_inside; cbn; by rewrite Hsame).
  destruct f as [f|]; [|by eapply Hdrop; [|exact H]].
  apply bind_inv in H as (fd & s3 & Hfd & H). apply fdalloc_kern in Hfd.
  assert (H3 : fs_inside s3) by (unfold fs_inside; by rewrite Hfd). destruct (fd <? 0).
  - apply bind_inv in H as (? & s4 & Hc & H). apply in_kern_inv in Hc as (t4 & Hc & ->). rewrite Hfd in Hc.
    eapply Hdrop; [|exact H]. unfold fs_inside. cbn.
    assert (Hfresh : exists k y, f = Z.of_nat k /\ ftable (snd t) !! k = Some y /\ f_type y = FD_NONE).
    { apply filealloc_entry in Hf as (k & y & -> & Hy & Ry & ->). exists k, (with_fref 1 y). split; [done|].
      split; [cbn; by eapply list_lookup_insert_eq, lookup_lt_Some|]. cbn. by apply (Hfiles k y). }
    destruct Hfresh as (k & y & -> & Hy & Ty). eapply fileclose_none in Hc; [|exact Hy|done]. unfold same_fs in Hc.
    rewrite Hc. exact H2.
  - apply bind_inv in H as (? & s4 & Hu & H). eapply fs_stays in Hu; [|apply stays_iunlock|done].
    apply bind_inv in H as (? & s5 & He & H). eapply fs_end in He; [|done].
    apply bind_inv in H as (? & s6 & Hset & [= <- <-]). apply in_kern_inv in Hset as (t6 & Hset & ->).
    apply same_fs_set_file in Hset. unfold same_fs in Hset. unfold fs_outside, k_outside in *. cbn. by rewrite Hset.
Qed.
Lemma sys_chdir_outside s a s' : sys_chdir devsw c s = Ok (a, s') -> fs_outside s -> fs_outside s'.
Proof using Hdev.
  unfold sys_chdir. intros H Hs. apply bind_inv in H as (? & s1 & H1 & H). eapply fs_begin in H1; [|done].
  pure_step H path. destruct path as [path|].
  2:{ apply bind_inv in H as (? & s2 & H2 & [= <- <-]). by eapply fs_end. }
  pure_step H p.
  apply bind_inv in H as (y & s2 & [= <- <-] & H). apply bind_inv in H as (o & s3 & Hf & H).
  apply in_kern_inv in Hf as (t & Ht & ->). apply in_fs_inv in Ht as (z & Hz & ->).
  pose proof (find_dir_txn _ _ _ _ _ Hz H1) as Htx. destruct o as [ip|]; [|by injection H as <- <-].
  apply bind_inv in H as (? & s4 & H4 & H). eapply fs_stays in H4; [|apply stays_iput|done].
  apply bind_inv in H as (? & s5 & H5 & H). eapply fs_end in H5; [|done]. by apply bind_inv in H as (? & s6 & [= <- <-] & [= <- <-]).
Qed.
Lemma node_outside s a s' : sys_mkdir devsw c s = Ok (a, s') \/ sys_mknod devsw c s = Ok (a, s') ->
  fs_outside s -> fs_outside s'.
Proof using Hdev.
  intros H Hs.
  assert (Hfail : forall s2 (v : Z) s3, fs_inside s2 -> (fs_call end_op ;;; ret (-1)) s2 = Ok (v, s3) -> fs_outside s3).
  { intros s2 v s3 H2 Hr. apply bind_inv in Hr as (? & s4 & H4 & [= <- <-]). by eapply fs_end. }
  assert (Hnode : forall x path ty mj mn s2 v s3, fs_inside s2 -> fs_call (make_node devsw x path ty mj mn) s2 = Ok (v, s3) -> fs_outside s3).
  { intros x path ty mj mn s2 v s3 H2. apply fs_closes; [by apply make_node_closes | done]. }
  destruct H as [H|H]; apply bind_inv in H as (? & s1 & H1 & H); (eapply fs_begin in H1; [|done]); pure_step H path;
    (destruct path as [path|]; [|by eapply Hfail; [|exact H]]).
  - pure_step H y. by eapply Hnode; [|exact H].
  - pure_step H mj. destruct mj as [mj|]; [|by eapply Hfail; [|exact H]]. pure_step H mn.
    destruct mn as [mn|]; [|by eapply Hfail; [|exact H]]. pure_step H y. by eapply Hnode; [|exact H].
Qed.
Lemma sys_pipe_outside s a s' : sys_pipe kend c s = Ok (a, s') -> fs_outside s -> fs_outside s'.
Proof using.
  unfold sys_pipe. intros H Hs. pure_step H q. destruct q as [p|]; [|by injection H as <- <-].
  apply bind_inv in H as (o & s1 & Hp & H). eapply kern_outside in Hp; [|exact Hs|intros t t'; apply pipealloc_outside].
  destruct o as [[rf wf]|]; [|by injection H as <- <-]. pure_step H m.
  apply bind_inv in H as (fd0 & s2 & H0 & H). apply fdalloc_kern in H0. apply bind_inv in H as (fd1 & s3 & H1 & H).
  assert (K3 : fs_outside s3).
  { unfold fs_outside. assert (kern s3 = kern s2) as -> by (destruct (fd0 <? 0); [by injection H1 as _ <- | by eapply fdalloc_kern]).
    by rewrite H0. }
  destruct (_ || _).
  - apply bind_inv in H as (? & s4 & H4 & H). assert (K4 : fs_outside s4).
    { destruct (fd0 >=? 0); [|by injection H4 as _ <-]. unfold fs_outside. by rewrite (set_fd_kern _ _ _ _ _ _ H4). }
    apply bind_inv in H as (? & s5 & H5 & H). eapply kern_outside in H5; [|exact K4|intros t t'; apply fileclose_outside].
    apply bind_inv in H as (? & s6 & H6 & [= <- <-]). eapply kern_outside; [exact H6 | exact H5|]. intros t t'. apply fileclose_outside.
  - apply bind_inv in H as (? & s4 & H4 & H). apply bind_inv in H as (? & s5 & H5 & [= <- <-]).
    eapply store_outside; [exact H5|]. by eapply store_outside.
Qed.
Lemma sys_write_outside s a s' : sys_write devsw c s = Ok (a, s') -> fs_outside s -> fs_outside s'.
Proof using Hdev.
  unfold sys_write. intros H Hs. pure_step H r. destruct r as [[[g p] n]|]; [|by injection H as <- <-]. pure_step H x.
  pure_step H l. eapply kern_outside; [exact H | exact Hs|]. intros t t'. apply filewrite_outside.
Qed.
Lemma sys_link_outside s a s' : sys_link devsw c s = Ok (a, s') -> fs_outside s -> fs_outside s'.
Proof using Hdev.
  unfold sys_link. intros H Hs. pure_step H old. destruct old as [old|]; [|by injection H as <- <-]. pure_step H new.
  destruct new as [new|]; [|by injection H as <- <-]. pure_step H x. apply in_kern_inv in H as (t & Ht & ->).
  apply in_fs_inv in Ht as (z & Hz & ->). by eapply link_closes.
Qed.
Lemma sys_unlink_outside s a s' : sys_unlink devsw c s = Ok (a, s') -> fs_outside s -> fs_outside s'.
Proof using Hdev.
  unfold sys_unlink. intros H Hs. pure_step H path. destruct path as [path|]; [|by injection H as <- <-]. pure_step H x.
  apply in_kern_inv in H as (t & Ht & ->). apply in_fs_inv in Ht as (z & Hz & ->). by eapply unlink_closes.
Qed.
Lemma sys_close_outside s a s' : sys_close kend c s = Ok (a, s') -> fs_outside s -> fs_outside s'.
Proof using.
  unfold sys_close. intros H Hs. pure_step H r. destruct r as [[fd g]|]; [|by injection H as <- <-]. pure_step H p.
  apply bind_inv in H as (? & s1 & H1 & H). apply bind_inv in H as (? & s2 & H2 & [= <- <-]).
  eapply kern_outside; [exact H2|unfold fs_outside; by rewrite (set_fd_kern _ _ _ _ _ _ H1)|]. intros t t'. apply fileclose_outside.
Qed.
Lemma sys_dup_outside s a s' : sys_dup c s = Ok (a, s') -> fs_outside s -> fs_outside s'.
Proof using.
  unfold sys_dup. intros H Hs. pure_step H r. destruct r as [[fd g]|]; [|by injection H as <- <-].
  apply bind_inv in H as (fd' & s1 & H1 & H). apply fdalloc_kern in H1.
  assert (K1 : fs_outside s1) by (unfold fs_outside; by rewrite H1). destruct (fd' <? 0); [by injection H as <- <-|].
  apply bind_inv in H as (? & s2 & H2 & [= <- <-]). eapply kern_outside; [exact H2 | exact K1|].
  intros t t' Ht. apply k_outside_fs. by eapply same_fs_filedup.
Qed.
Lemma sys_fstat_outside s a s' : sys_fstat c s = Ok (a, s') -> fs_outside s -> fs_outside s'.
Proof using.
  unfold sys_fstat. intros H Hs. pure_step H r. destruct r as [[fd g]|]; [|by injection H as <- <-]. pure_step H q.
  destruct q as [st|]; [|by injection H as <- <-]. apply bind_inv in H as (o & s1 & H1 & H).
  eapply kern_outside in H1; [|exact Hs|intros t t'; apply filestat_outside]. destruct o as [x|]; [|by injection H as <- <-].
  unfold store_stat in H. apply bind_inv in H as (? & s2 & H2 & [= <- <-]).
  repeat (apply bind_inv in H2 as (? & ? & ?Hst & H2); eapply store_outside in Hst; [|done]). by eapply store_outside.
Qed.
(** [exec]: no transaction after the file was put. *)
Definition p_same_fs (s s' : kstate) : Prop := fsys (snd (kern s')) = fsys (snd (kern s)).
#[local] Instance p_same_fs_preorder : PreOrder p_same_fs.
Proof using. split; [done|]. intros x y z H1 H2. unfold p_same_fs in *. congruence. Qed.
Lemma p_same_vm {A} (v : V A) : respects p_same_fs (in_kern (in_vm v)).
Proof using. intros s a s' H. apply in_kern_inv in H as (t & Ht & ->). by apply same_in_vm in Ht as [_ ?]. Qed.
Lemma p_same_on_proc p f : respects p_same_fs (on_proc p f).
Proof using. by apply respects_modify. Qed.
Lemma p_same_on_cpu f : respects p_same_fs (on_cpu c f).
Proof using. by apply respects_modify. Qed.
Lemma p_same_bad d : respects p_same_fs (exec_bad kend d None).
Proof using. unfold exec_bad. respects_with ltac:(apply p_same_vm). Qed.
Lemma p_same_image path argv d size en : respects p_same_fs (exec_image kend c path argv d size en).
Proof using.
  unfold exec_image, exec_commit, switchuvm, pushcli, popcli, myproc, the_cpu, the_proc.
  respects_with ltac:(first [apply p_same_vm | apply p_same_on_proc | apply p_same_on_cpu | apply p_same_bad]).
Qed.
Definition k_stays (s s' : kfiles) : Prop := stays (fsys (snd s)) (fsys (snd s')).
#[local] Instance k_stays_preorder : PreOrder k_stays.
Proof using. split; [intros s H; exact H|]. intros x y z H1 H2 H. by apply H2, H1. Qed.
Lemma k_stays_vm {A} (v : V A) : respects k_stays (in_vm v).
Proof using. intros s a s' H. apply same_in_vm in H as [_ H]. unfold k_stays. by rewrite H. Qed.
Lemma k_stays_fs {A} (f : F A) : respects stays f -> respects k_stays (in_fs f).
Proof using. intros Hf s a s' H. apply in_fs_inv in H as (t & Ht & ->). by apply Hf in Ht. Qed.
Lemma k_stays_segments n d ip : forall off size, respects k_stays (load_segments kend devsw n d ip off size).
Proof using Hdev.
  assert (Hl : forall fuel d a o sz i, respects k_stays (loaduvm_loop devsw fuel d a ip o sz i)).
  { induction fuel; intros; cbn [loaduvm_loop];
      respects_with ltac:(first [apply k_stays_vm | apply k_stays_fs; by apply stays_readi | solve [auto]]). }
  induction n; intros; cbn [load_segments]; unfold loaduvm;
    respects_with ltac:(first [apply k_stays_vm | apply k_stays_fs; by apply stays_readi | solve [auto]]).
Qed.
Lemma kern_stays {A} (f : K A) s a s' : respects k_stays f -> fs_inside s -> in_kern f s = Ok (a, s') -> fs_inside s'.
Proof using. intros Hf Hs H. apply in_kern_inv in H as (t & Ht & ->). by apply (Hf _ _ _ Ht). Qed.
Lemma bad_outside d ip s a s' : exec_bad kend d (Some ip) s = Ok (a, s') -> fs_inside s -> fs_outside s'.
Proof using.
  unfold exec_bad. intros H Hs. apply bind_inv in H as (? & s1 & H1 & H).
  assert (K1 : fs_inside s1).
  { destruct (d =? 0); [by injection H1 as <- <-|]. by eapply kern_stays in H1; [|apply k_stays_vm|]. }
  apply bind_inv in H as (? & s2 & H2 & H). eapply fs_stays in H2; [|apply stays_iunlockput|done].
  apply bind_inv in H as (? & s3 & H3 & [= <- <-]). exact (fs_end _ _ _ H2 H3).
Qed.
Lemma exec_outside path argv s a s' : exec kend kdata devsw c path argv s = Ok (a, s') -> fs_outside s -> fs_outside s'.
Proof using Hdev.
  unfold exec. intros H Hs. pure_step H x. apply bind_inv in H as (? & s1 & H1 & H). eapply fs_begin in H1; [|done].
  apply bind_inv in H as (o & s2 & H2 & H). eapply fs_stays in H2; [|by apply stays_namei|done]. destruct o as [ip|].
  2:{ apply bind_inv in H as (? & s3 & H3 & [= <- <-]). by eapply fs_end. }
  apply bind_inv in H as (? & s3 & H3 & H). eapply fs_stays in H3; [|apply stays_ilock|done].
  apply bind_inv in H as ([r l] & s4 & H4 & H). eapply fs_stays in H4; [|by apply stays_readi|done].
  destruct (u32 r <? ELFHDR); [by eapply bad_outside|]. apply bind_inv in H as (elf & s5 & H5 & H).
  assert (s5 = s4) as -> by (destruct (elf_of l); [by injection H5 as _ <- | done]). destruct (negb _); [by eapply bad_outside|].
  apply bind_inv in H as (d & s6 & H6 & H). eapply kern_stays in H6; [|apply k_stays_vm|done].
  destruct (d =? 0); [by eapply bad_outside|]. apply bind_inv in H as (o & s7 & H7 & H).
  eapply kern_stays in H7; [|apply k_stays_segments|done]. destruct o as [size|]; [|by eapply bad_outside].
  apply bind_inv in H as (? & s8 & H8 & H). eapply fs_stays in H8; [|apply stays_iunlockput|done].
  apply bind_inv in H as (? & s9 & H9 & H). eapply fs_end in H9; [|done]. apply p_same_image in H.
  unfold fs_outside, k_outside in *. by rewrite H.
Qed.
Hint Resolve fetch_argv_pure : xv6.
Lemma sys_exec_outside s a s' : sys_exec kend kdata devsw c s = Ok (a, s') -> fs_outside s -> fs_outside s'.
Proof using Hdev.
  unfold sys_exec. intros H Hs. pure_step H path. destruct path as [path|]; [|by injection H as <- <-]. pure_step H u.
  destruct u as [u|]; [|by injection H as <- <-]. pure_step H argv. destruct argv as [argv|]; [|by injection H as <- <-].
  by eapply exec_outside.
Qed.
Lemma file_call_outside num f s a s' : file_syscalls kend kdata devsw c num = Some f -> num <> 5 -> f s = Ok (a, s') ->
  holders_ok c me xi key b s -> fs_outside s -> fs_outside s'.
Proof using Hdev Hq.
  unfold file_syscalls. intros Hf Hn.
  repeat (match type of Hf with (match ?x with _ => _ end) = _ => destruct x end; try discriminate Hf); try done;
    injection Hf as <-;
    eauto using sys_write_outside, sys_link_outside, sys_unlink_outside, sys_close_outside, sys_dup_outside,
      sys_fstat_outside, sys_pipe_outside, sys_chdir_outside, sys_open_outside, node_outside, sys_exec_outside.
Qed.
End Calls.

(** C8 Changes to the disk are transactions.  Take any call of sysfile.c but
    [read], made by [syscall] outside a transaction with the reference counts
    in order, and device functions that leave references, locks and the log
    alone.  On every path on which the call returns, errors included, it has
    opened and closed its transactions one after the other, never one inside
    another, and handed blocks to [log_write] only inside one, so that none of
    the panics of log.c for a misplaced call can happen.  ([read] opens no
    transaction.) *)
Theorem file_calls_in_transactions kend kdata devsw c me xi key b s s' :
  quiet_devices devsw -> silent_devices devsw -> holders_ok c me xi key b s -> fs_outside s ->
  s32 (tf_eax (tf (procs s me))) <> 5 ->
  syscall c (file_syscalls kend kdata devsw c) s = Ok (tt, s') -> fs_outside s'.
Proof.
  intros Hq Hdev Ha Hs Hn H. unfold syscall in H. apply bind_inv in H as (p & s1 & Hm & H).
  eapply (myproc_inv c me) in Hm as [-> ->]; [|apply Ha]. apply bind_inv in H as (x & s1 & [= <- <-] & H).
  match type of H with (match ?t with _ => _ end) _ = _ => destruct t as [f|] eqn:Ef end; [|by injection H as <-].
  destruct (_ && _); [|done]. apply bind_inv in H as (r & s1 & Hf & [= <-]). change (fs_outside s1).
  exact (file_call_outside kend kdata devsw Hq Hdev c me xi key b _ f s r s1 Ef Hn Hf Ha Hs).
Qed.
