(* ===== verification/DirFacts.v ===== *)
(** * DirFacts: a directory is a map from names to inodes (src/src/fs.c)

    The contents of a directory, cut into entries, read as a partial map from
    names to inode numbers; [dirlookup] and [dirlink] are lookup and insertion
    in it. *)
From S2P Require Import Prelude CString Fs FsFacts FsFile FsWitness.

(** ** Names *)

(** The characters of a name of a file: no NUL, at most [DIRSIZ]. *)
Definition name_ok (nm : list Z) : Prop := Forall (fun c => 0 < c < 256) nm /\ (length nm <= Z.to_nat DIRSIZ)%nat.
Lemma pad_cons nm n c : strncpy_chars (c :: nm) (S n) = c :: strncpy_chars nm n.
Proof. done. Qed.
Lemma u8_char c : 0 < c < 256 -> u8 c = c.
Proof. intros. unfold u8. apply Z.mod_small. lia. Qed.
(** Comparing with a padded name. *)
Lemma strncmp_pad n : forall p q, Forall (fun c => 0 < c < 256) p -> Forall (fun c => 0 < c < 256) q ->
  (length p <= n)%nat -> (length q <= n)%nat -> strncmp_chars n p (strncpy_chars q n) = 0 <-> p = q.
Proof.
  induction n as [|n IH]; intros p q Hp Hq Lp Lq; [destruct p, q; cbn in *; try lia; done|].
  destruct p as [|a p], q as [|b q]; cbn [strncmp_chars List.hd List.tl].
  - done.
  - inversion Hq; subst. change (u8 0 - u8 b = 0 <-> [] = b :: q). rewrite (u8_char b) by done. change (u8 0) with 0.
    split; [lia | done].
  - inversion Hp; subst. change (List.hd 0 (strncpy_chars [] (S n))) with 0. destruct (Z.eqb_spec a 0); [lia|].
    rewrite andb_false_r, (u8_char a) by done. change (u8 0) with 0. split; [lia | done].
  - rewrite pad_cons. cbn [List.hd List.tl]. inversion Hp; subst. inversion Hq; subst.
    unfold truthy. destruct (Z.eqb_spec a 0); [lia|]. cbn [negb andb]. destruct (Z.eqb_spec a b) as [->|Hne].
    + rewrite IH by (try done; cbn in *; lia). split; [by intros -> | by intros [= ->]].
    + rewrite !u8_char by done. split; [lia | by intros [= -> _]].
Qed.
Lemma namecmp_pad p q : name_ok p -> name_ok q -> namecmp p (strncpy_chars q (Z.to_nat DIRSIZ)) = 0 <-> p = q.
Proof. intros [Hp Lp] [Hq Lq]. by apply strncmp_pad. Qed.
Lemma de_name_dirent inum nm : de_name (dirent inum nm) = strncpy_chars nm (Z.to_nat DIRSIZ).
Proof. done. Qed.
Lemma de_inum_dirent inum nm : 0 <= inum < 2 ^ 16 -> de_inum (dirent inum nm) = inum.
Proof.
  intros H. unfold de_inum, dirent. cbn [app nth]. unfold u8. rewrite Z.shiftr_div_pow2 by lia.
  change (2 ^ 8) with 256. Z.div_mod_to_equations. lia.
Qed.
Lemma length_dirent inum nm : (length nm <= Z.to_nat DIRSIZ)%nat -> length (dirent inum nm) = Z.to_nat DIRENT.
Proof.
  intros H. unfold dirent, strncpy_chars. rewrite !length_app, length_take, length_replicate. cbn [length].
  change (Z.to_nat DIRENT) with 32%nat. change (Z.to_nat DIRSIZ) with 30%nat in *. lia.
Qed.

(** ** Entries *)
Definition entry (f : Z -> Z) (k : Z) : list Z := map f (seqZ (DIRENT * k) DIRENT).
Definition entries (f : Z -> Z) (n : Z) : list (list Z) := map (entry f) (seqZ 0 n).
(** The first entry in use with name [nm], from entry [k] on. *)
Fixpoint dir_search (l : list (list Z)) (nm : list Z) (k : Z) : option (Z * Z) :=
  match l with
  | [] => None
  | de :: l' =>
      if de_inum de =? 0 then dir_search l' nm (k + 1)
      else if namecmp nm (de_name de) =? 0 then Some (de_inum de, DIRENT * k)
      else dir_search l' nm (k + 1)
  end.
(** The map. *)
Definition dir_map (l : list (list Z)) (nm : list Z) : option Z := fst <$> dir_search l nm 0.
Fixpoint free_slot (l : list (list Z)) (k : Z) : Z :=
  match l with [] => k | de :: l' => if de_inum de =? 0 then k else free_slot l' (k + 1) end.

Lemma dir_search_shift l nm : forall k, fst <$> dir_search l nm k = dir_map l nm.
Proof.
  unfold dir_map. assert (H : forall k k', fst <$> dir_search l nm k = fst <$> dir_search l nm k').
  { induction l as [|de l IH]; intros k k'; [done|]. cbn. destruct (_ =? 0); [apply IH|]. destruct (_ =? 0); [done | apply IH]. }
  intros k. apply H.
Qed.
Lemma dir_map_cons de l nm : dir_map (de :: l) nm =
  if (negb (de_inum de =? 0)) && (namecmp nm (de_name de) =? 0) then Some (de_inum de) else dir_map l nm.
Proof.
  unfold dir_map at 1. cbn [dir_search]. destruct (de_inum de =? 0); [apply dir_search_shift|]. cbn [negb andb].
  destruct (namecmp nm (de_name de) =? 0); [done | apply dir_search_shift].
Qed.
(** A new entry in the first free slot. *)
Definition add_entry (l : list (list Z)) (de : list Z) : list (list Z) :=
  let k := Z.to_nat (free_slot l 0) in take k l ++ de :: drop (S k) l.
Lemma free_slot_shift l : forall k, free_slot l k = k + free_slot l 0.
Proof.
  induction l as [|de l IH]; intros k; cbn [free_slot]; [lia|]. destruct (_ =? 0); [lia|].
  rewrite (IH (k + 1)), (IH (0 + 1)). lia.
Qed.
Lemma free_slot_range l : 0 <= free_slot l 0 <= Z.of_nat (length l).
Proof.
  induction l as [|de l IH]; cbn [free_slot length]; [lia|]. destruct (_ =? 0); [lia|].
  rewrite (free_slot_shift l (0 + 1)). lia.
Qed.
Lemma add_entry_cons e l de : add_entry (e :: l) de = if de_inum e =? 0 then de :: l else e :: add_entry l de.
Proof.
  unfold add_entry. cbn [free_slot]. destruct (de_inum e =? 0); [done|]. rewrite Z.add_0_l, (free_slot_shift l 1).
  pose proof (free_slot_range l). replace (Z.to_nat (1 + free_slot l 0)) with (S (Z.to_nat (free_slot l 0))) by lia. done.
Qed.
Lemma dir_map_dirent inum nm q r : name_ok nm -> name_ok q -> 0 < inum < 2 ^ 16 ->
  dir_map (dirent inum nm :: r) q = if decide (q = nm) then Some inum else dir_map r q.
Proof.
  intros Hn Hq Hi. rewrite dir_map_cons, de_inum_dirent, de_name_dirent by lia. destruct (Z.eqb_spec inum 0); [lia|]. cbn [negb andb].
  destruct (Z.eqb_spec (namecmp q (strncpy_chars nm (Z.to_nat DIRSIZ))) 0) as [He|He]; rewrite namecmp_pad in He by done; by case_decide.
Qed.
Lemma add_entry_map l nm inum q : name_ok nm -> name_ok q -> 0 < inum < 2 ^ 16 -> dir_map l nm = None ->
  dir_map (add_entry l (dirent inum nm)) q = if decide (q = nm) then Some inum else dir_map l q.
Proof.
  intros Hn Hq Hi. pose proof (fun r => dir_map_dirent inum nm q r Hn Hq Hi) as Hde.
  induction l as [|e l IH]; intros Hnone; [apply Hde|]. rewrite dir_map_cons in Hnone. rewrite add_entry_cons, (dir_map_cons e l q).
  destruct (de_inum e =? 0) eqn:E0; cbn [negb andb] in *.
  - apply Hde.
  - rewrite dir_map_cons, E0. cbn [negb andb]. destruct (namecmp q (de_name e) =? 0) eqn:Eq.
    + case_decide as Hd; [|done]. subst q. by rewrite Eq in Hnone.
    + apply IH. by destruct (namecmp nm (de_name e) =? 0).
Qed.

(** ** Directories on disk *)
Record dir_ok (s : fstate) (j : nat) (i : inode) (n : Z) : Prop := mkDirOk {
  d_at : icache s !! j = Some i;
  d_fs : fs_ok s;
  d_tree : tree_ok s i;
  d_inode : inode_ok s i;
  d_type : i_type i = T_DIR;
  d_pos : 0 <= n;
  d_size : i_size i = DIRENT * n;
  d_mapped : mapped (fdisk s) i 0 (i_size i) }.
(** Its entries. *)
Definition dir_of (s : fstate) (i : inode) (n : Z) : list (list Z) := entries (byte_at (fdisk s) i) n.

Section Dir.
Context (devsw : Z -> devops) (s : fstate) (j : nat) (i : inode) (n : Z) (Hd : dir_ok s j i n).
Let f := byte_at (fdisk s) i.

Lemma dir_bound : DIRENT * n <= 8459776.
Proof using Hd. destruct Hd as [_ _ _ (_ & _ & H) _ _ <- _]. exact (proj2 H). Qed.
Lemma read_entry_run k : 0 <= k < n -> read_entry devsw (Z.of_nat j) (DIRENT * k) s = Ok (entry f k, s).
Proof using Hd.
  intros Hk. pose proof dir_bound as Hb. destruct Hd as [Hat Hfs Ht (_ & Hty & Hz) _ _ Hs Hm].
  unfold read_entry, readi. change DIRENT with 32 in *. rewrite bind_assoc, (bind_Ok _ _ _ _ _ (inode_at_run s j i Hat)).
  destruct (Z.eqb_spec (i_type i) T_DEV); [done|]. rewrite Hs.
  destruct (Z.gtb_spec (32 * k) (32 * n)); [lia|]. rewrite u32_small by lia.
  destruct (Z.ltb_spec (32 * k + 32) (32 * k)); [lia|]. cbn [orb].
  destruct (Z.gtb_spec (32 * k + 32) (32 * n)); [lia|].
  change (MAXFILE * BSIZE) with 8459776 in Hz. change DIRENT with 32.
  rewrite bind_assoc, (bind_Ok _ _ _ _ _ (readi_loop_there s j i 32 Hat (S (Z.to_nat 32)) (32 * k) 0 ltac:(lia) ltac:(lia)
    ltac:(change (MAXFILE * BSIZE) with 8459776; lia) ltac:(lia) ltac:(intros o Ho; apply Hm; rewrite Hs; lia))).
  by rewrite Z.sub_0_r.
Qed.
Lemma dirlookup_loop_run nm fuel : forall k, 0 <= k <= n -> n - k < Z.of_nat fuel ->
  dirlookup_loop devsw fuel (Z.of_nat j) (DIRENT * k) nm s =
  match dir_search (map (entry f) (seqZ k (n - k))) nm k with
  | None => Ok (None, s)
  | Some (inum, off) => (ip <- iget (i_dev i) inum ;; ret (Some (ip, off))) s
  end.
Proof using Hd.
  induction fuel as [|fuel IH]; intros k Hk Hf; [lia|]. cbn [dirlookup_loop].
  rewrite (bind_Ok _ _ _ _ _ (inode_at_run s j i (d_at _ _ _ _ Hd))), (d_size _ _ _ _ Hd).
  change DIRENT with 32. destruct (Z.ltb_spec (32 * k) (32 * n)) as [Hlt|Hge].
  2:{ by rewrite seqZ_nil by lia. }
  rewrite seqZ_cons by lia. cbn [map dir_search]. change 32 with DIRENT.
  rewrite (bind_Ok _ _ _ _ _ (read_entry_run k ltac:(change DIRENT with 32 in *; lia))).
  replace (DIRENT * k + DIRENT) with (DIRENT * (k + 1)) by lia.
  replace (Z.succ k) with (k + 1) by lia. replace (Z.pred (n - k)) with (n - (k + 1)) by lia.
  destruct (de_inum (entry f k) =? 0); [apply IH; lia|].
  destruct (namecmp nm (de_name (entry f k)) =? 0); [done | apply IH; lia].
Qed.
Lemma dirlookup_run nm : dirlookup devsw (Z.of_nat j) nm s =
  match dir_search (dir_of s i n) nm 0 with
  | None => Ok (None, s)
  | Some (inum, off) => (ip <- iget (i_dev i) inum ;; ret (Some (ip, off))) s
  end.
Proof using Hd.
  pose proof dir_bound as Hb. unfold dirlookup. rewrite (bind_Ok _ _ _ _ _ (inode_at_run s j i (d_at _ _ _ _ Hd))).
  rewrite (d_type _ _ _ _ Hd). cbn [negb Z.eqb Pos.eqb T_DIR]. pose proof (d_pos _ _ _ _ Hd). pose proof (d_size _ _ _ _ Hd) as Hz.
  change 0 with (DIRENT * 0) at 1. rewrite dirlookup_loop_run; [by rewrite Z.sub_0_r | lia|].
  rewrite Hz. change DIRENT with 32. lia.
Qed.
Lemma free_entry_run fuel : forall k, 0 <= k <= n -> n - k < Z.of_nat fuel ->
  free_entry devsw fuel (Z.of_nat j) (DIRENT * k) s =
  Ok (DIRENT * free_slot (map (entry f) (seqZ k (n - k))) k, s).
Proof using Hd.
  induction fuel as [|fuel IH]; intros k Hk Hf; [lia|]. cbn [free_entry].
  rewrite (bind_Ok _ _ _ _ _ (inode_at_run s j i (d_at _ _ _ _ Hd))), (d_size _ _ _ _ Hd).
  change DIRENT with 32. destruct (Z.ltb_spec (32 * k) (32 * n)) as [Hlt|Hge].
  2:{ by rewrite seqZ_nil by lia. }
  rewrite seqZ_cons by lia. cbn [map free_slot]. change 32 with DIRENT.
  rewrite (bind_Ok _ _ _ _ _ (read_entry_run k ltac:(change DIRENT with 32 in *; lia))).
  replace (DIRENT * k + DIRENT) with (DIRENT * (k + 1)) by lia.
  replace (Z.succ k) with (k + 1) by lia. replace (Z.pred (n - k)) with (n - (k + 1)) by lia.
  destruct (de_inum (entry f k) =? 0); [done | apply IH; lia].
Qed.
End Dir.

(** Writing a whole entry. *)
Lemma entry_splice f k de q : 0 <= k -> 0 <= q -> length de = Z.to_nat DIRENT ->
  entry (splice f (DIRENT * k) de) q = if q =? k then de else entry f q.
Proof.
  intros Hk Hq Hl. change (Z.to_nat DIRENT) with 32%nat in Hl. unfold entry. change DIRENT with 32. apply list_eq. intros m.
  rewrite list_lookup_fmap. destruct (decide (Z.of_nat m < 32)) as [Hm|Hm].
  - rewrite lookup_seqZ_lt by lia. cbn [fmap option_fmap option_map]. unfold splice. rewrite Hl. change (Z.of_nat 32) with 32.
    destruct (Z.eqb_spec q k) as [->|Hne].
    + destruct (Z.leb_spec (32 * k) (32 * k + Z.of_nat m)); [|lia]. destruct (Z.ltb_spec (32 * k + Z.of_nat m) (32 * k + 32)); [|lia].
      cbn [andb]. replace (Z.to_nat (32 * k + Z.of_nat m - 32 * k)) with m by lia.
      destruct (lookup_lt_is_Some_2 de m ltac:(lia)) as [v Hv]. by rewrite Hv, nth_lookup, Hv.
    + assert (He : (32 * k <=? 32 * q + Z.of_nat m) && (32 * q + Z.of_nat m <? 32 * k + 32) = false).
      { apply andb_false_iff. rewrite Z.leb_gt, Z.ltb_ge. lia. }
      rewrite He, list_lookup_fmap, lookup_seqZ_lt by lia. done.
  - rewrite lookup_seqZ_ge by lia. cbn. symmetry. destruct (q =? k); apply lookup_ge_None_2; [lia|].
    rewrite length_map, length_seqZ. lia.
Qed.
Lemma entries_splice f n de : 0 <= n -> length de = Z.to_nat DIRENT ->
  let k := free_slot (entries f n) 0 in
  entries (splice f (DIRENT * k) de) (Z.max n (k + 1)) = add_entry (entries f n) de.
Proof.
  intros Hn Hl k. pose proof (free_slot_range (entries f n)) as Hk. fold k in Hk.
  assert (Hlen : Z.of_nat (length (entries f n)) = n) by (unfold entries; rewrite length_map, length_seqZ; lia).
  assert (Hat : forall m, (Z.of_nat m < n) -> entries f n !! m = Some (entry f (Z.of_nat m))).
  { intros m Hm. unfold entries. rewrite list_lookup_fmap, lookup_seqZ_lt by lia. cbn. by rewrite Z.add_0_l. }
  unfold add_entry. fold k. apply list_eq. intros m. unfold entries at 1. rewrite list_lookup_fmap.
  destruct (decide (Z.of_nat m < Z.max n (k + 1))) as [Hm|Hm].
  - rewrite lookup_seqZ_lt by lia. cbn [fmap option_fmap option_map]. rewrite Z.add_0_l, entry_splice by (try done; lia).
    destruct (Z.eqb_spec (Z.of_nat m) k) as [He|Hne].
    + symmetry. apply list_lookup_middle. rewrite length_take. lia.
    + destruct (decide (Z.of_nat m < k)).
      * rewrite lookup_app_l by (rewrite length_take; lia). rewrite lookup_take_lt by lia. symmetry. apply Hat. lia.
      * rewrite lookup_app_r by (rewrite length_take; lia). rewrite length_take, lookup_cons_ne_0 by lia. rewrite lookup_drop.
        symmetry. rewrite Hat by lia. do 2 f_equal. lia.
  - rewrite lookup_seqZ_ge by lia. symmetry. apply lookup_ge_None_2. rewrite length_app, length_take. cbn [length]. rewrite length_drop. lia.
Qed.

(** ** Looking up and linking *)
Lemma iput_plain s k x : icache s !! k = Some x -> i_ref x <> 1 \/ has_flag (i_flags x) I_VALID = false ->
  iput (Z.of_nat k) s = Ok (tt, with_inode s k (with_ref (i_ref x - 1) x)).
Proof.
  intros Hk Hx. unfold iput. rewrite (bind_Ok _ _ _ _ _ (inode_at_run s k x Hk)).
  assert (Hc : (i_ref x =? 1) && has_flag (i_flags x) I_VALID && (i_nlink x =? 0) = false).
  { destruct Hx as [Hx| ->]; [by destruct (Z.eqb_spec (i_ref x) 1)|]. by rewrite andb_false_r. }
  rewrite Hc. erewrite bind_Ok; [|reflexivity]. by rewrite (set_inode_run s k _ x Hk).
Qed.
(** A reference got with [iget] and put back leaves the disk alone. *)
Lemma iget_iput s dev inum : iget dev inum s = Panic "iget: no inodes" \/
  exists ip s1 s2, iget dev inum s = Ok (ip, s1) /\ iput ip s1 = Ok (tt, s2) /\ fdisk s2 = fdisk s.
Proof.
  unfold iget. erewrite bind_Ok; [|reflexivity].
  pose proof (iget_scan_spec (icache s) dev inum 0 None) as Hs. destruct (iget_scan _ _ _ _ _) as [z|[z|]]; [| |by left].
  - right. destruct Hs as (k & x & -> & Hk & Hr & _). rewrite Z.add_0_l. rewrite (bind_Ok _ _ _ _ _ (set_inode_run s k _ x Hk)).
    do 3 eexists. split; [reflexivity|]. split; [eapply iput_plain|done].
    + cbn. by eapply list_lookup_insert_eq, lookup_lt_Some.
    + left. cbn. lia.
  - right. destruct Hs as (_ & [?|(_ & k & x & -> & Hk & Hr)]); [done|]. rewrite Z.add_0_l.
    rewrite (bind_Ok _ _ _ _ _ (set_inode_run s k _ x Hk)). do 3 eexists. split; [reflexivity|]. split; [eapply iput_plain|done].
    + cbn. by eapply list_lookup_insert_eq, lookup_lt_Some.
    + by right.
Qed.
Lemma dirlink_new devsw s j i n nm inum : dir_ok s j i n -> name_ok nm -> 0 < inum < 2 ^ 16 ->
  DIRENT * (n + 1) <= MAXFILE * BSIZE -> dir_map (dir_of s i n) nm = None ->
  dirlink devsw (Z.of_nat j) nm inum s = Panic "balloc: out of blocks" \/
  exists s' i' n', dirlink devsw (Z.of_nat j) nm inum s = Ok (0, s') /\ dir_ok s' j i' n' /\ i_inum i' = i_inum i /\
    dir_of s' i' n' = add_entry (dir_of s i n) (dirent inum nm).
Proof.
  intros Hd Hn Hi Hmax Hnone. pose proof (d_pos _ _ _ _ Hd) as Hp. pose proof (d_size _ _ _ _ Hd) as Hz.
  change DIRENT with 32 in Hz. set (k := free_slot (dir_of s i n) 0).
  assert (Hrun : dirlink devsw (Z.of_nat j) nm inum s =
    (r <- writei devsw (Z.of_nat j) (dirent inum nm) (DIRENT * k) ;; if negb (r =? DIRENT) then panic "dirlink" else ret 0) s).
  { unfold dirlink. erewrite bind_Ok; [|rewrite (dirlookup_run devsw s j i n Hd)].
    2:{ unfold dir_map in Hnone. by destruct (dir_search _ _ _). }
    cbv beta iota. rewrite (bind_Ok _ _ _ _ _ (inode_at_run s j i (d_at _ _ _ _ Hd))).
    erewrite bind_Ok; [reflexivity|]. pose proof (free_entry_run devsw s j i n Hd (S (Z.to_nat (i_size i))) 0 ltac:(lia) ltac:(lia)) as Hf.
    by rewrite Z.mul_0_r, Z.sub_0_r in Hf. }
  rewrite Hrun. clear Hrun.
  pose proof (free_slot_range (dir_of s i n)) as Hk. fold k in Hk.
  assert (Hlen : Z.of_nat (length (dir_of s i n)) = n) by (unfold dir_of, entries; rewrite length_map, length_seqZ; lia).
  pose proof (length_dirent inum nm (proj2 Hn)) as Hde. assert (Hde' : Z.of_nat (length (dirent inum nm)) = 32) by (by rewrite Hde).
  destruct Hd as [Hat Hfs Ht Hio Hty _ _ Hm]. change DIRENT with 32 in *.
  destruct (writei_run devsw s j i (dirent inum nm) (32 * k) Hat Hfs Ht Hio ltac:(lia) ltac:(lia))
    as [E|(s' & i' & E & [Fc Ff Ft Fi Fs Fb _ (Fd & Fn & Fty) Fk] & Hmap)].
  { left. unfold M_bind. by rewrite E. }
  right. rewrite (bind_Ok _ _ _ _ _ E), Hde'. cbn [negb Z.eqb Pos.eqb]. exists s', i', (Z.max n (k + 1)).
  split; [done|]. rewrite Hde' in Fs, Hmap.
  assert (Hsz' : i_size i' = 32 * Z.max n (k + 1)) by (rewrite Fs, Hz; lia). split; [|split; [done|]].
  - split; try done; try congruence; try lia.
    + rewrite Fc. apply list_lookup_insert_eq. by eapply lookup_lt_Some.
    + intros o Ho. rewrite Hsz' in Ho. destruct (decide (o < 32 * n)).
      * rewrite Fk; [apply Hm; lia | apply loc_of_valid, block_index; lia | apply Hm; lia].
      * apply Hmap. lia.
  - unfold dir_of. rewrite <- (entries_splice (byte_at (fdisk s) i) n _ Hp Hde). fold (dir_of s i n). fold k.
    unfold entries, entry. change DIRENT with 32. apply map_ext_in. intros q Hq. apply map_ext_in. intros o Ho.
    rewrite <- list_elem_of_In, elem_of_seqZ in Hq, Ho. apply Fb. lia.
Qed.

(** C16 A directory is a map.  [dirlookup] of a name in a well-formed directory
    returns without changing anything if the directory has no such name, and
    otherwise takes a reference to the inode the directory maps the name to.
    [dirlink] of a name that is there returns -1 and leaves the disk alone
    (or finds the inode table full, a panic); of a new name it runs out of
    disk blocks (a panic), or returns 0 with a well-formed directory that maps
    the name to the inode and every other name as before: no entry is
    overwritten or hidden. *)
Theorem directory_map devsw s j i n nm inum : dir_ok s j i n -> name_ok nm -> 0 < inum < 2 ^ 16 ->
  DIRENT * (n + 1) <= MAXFILE * BSIZE ->
  match dir_map (dir_of s i n) nm with
  | None =>
      dirlookup devsw (Z.of_nat j) nm s = Ok (None, s) /\
      (dirlink devsw (Z.of_nat j) nm inum s = Panic "balloc: out of blocks" \/
       exists s' i' n', dirlink devsw (Z.of_nat j) nm inum s = Ok (0, s') /\ dir_ok s' j i' n' /\
         forall q, name_ok q ->
           dir_map (dir_of s' i' n') q = if decide (q = nm) then Some inum else dir_map (dir_of s i n) q)
  | Some old =>
      (exists off, dirlookup devsw (Z.of_nat j) nm s = (ip <- iget (i_dev i) old ;; ret (Some (ip, off))) s) /\
      (dirlink devsw (Z.of_nat j) nm inum s = Panic "iget: no inodes" \/
       exists s', dirlink devsw (Z.of_nat j) nm inum s = Ok (-1, s') /\ fdisk s' = fdisk s)
  end.
Proof.
  intros Hd Hn Hi Hmax. pose proof (dirlookup_run devsw s j i n Hd nm) as Hl.
  destruct (dir_map (dir_of s i n) nm) as [old|] eqn:Em.
  - unfold dir_map in Em. destruct (dir_search (dir_of s i n) nm 0) as [[v off]|]; [|done]. injection Em as ->.
    split; [by exists off|]. unfold dirlink, M_bind. rewrite Hl. unfold M_bind, ret.
    destruct (iget_iput s (i_dev i) old) as [E|(ip & s1 & s2 & E1 & E2 & E3)].
    + left. by rewrite E.
    + right. exists s2. by rewrite E1, E2.
  - split.
    + unfold dir_map in Em. by destruct (dir_search (dir_of s i n) nm 0) as [[v off]|].
    + destruct (dirlink_new devsw s j i n nm inum Hd Hn Hi Hmax Em) as [E|(s' & i' & n' & E & Hd' & _ & Hof)]; [by left | right].
      exists s', i', n'. split; [done|]. split; [done|]. intros q Hq. rewrite Hof. by apply add_entry_map.
Qed.

(** ** The root directory of a small disk *)
Definition root_bytes : mem :=
  put_bytes (tiny_disk 0x3F) 2560 (dirent 1 [46] ++ dirent 1 [46; 46]).
Definition root_dir : inode := mkInode 1 1 1 I_VALID T_DIR 0 0 1 64 (5 :: replicate 12 0).
Definition root_fs : fstate := mkF root_bytes [root_dir] [].
Lemma root_at l : valid_loc l -> at_loc (fdisk root_fs) root_dir l <> 0 -> l = LD 0.
Proof.
  assert (Ha : forall k, k <> 0 -> 0 <= k -> addr_of root_dir k = 0).
  { intros k Hk Hp. unfold addr_of. cbn [i_addrs root_dir]. destruct (Z.to_nat k) as [|m] eqn:Em; [lia|]. cbn [nth].
    rewrite nth_lookup. destruct (replicate 12 0 !! m) as [x|] eqn:E; [|done]. by apply lookup_replicate in E as [-> _]. }
  intros Hv. destruct l; cbn [at_loc valid_loc] in *; unfold child; rewrite ?(Ha NDIRECT), ?(Ha (NDIRECT + 1)) by done; try done.
  destruct (decide (n = 0)) as [->|]; [done|]. by rewrite Ha by lia.
Qed.
Lemma root_dir_ok : dir_ok root_fs 0 root_dir 2.
Proof.
  assert (Hmeta : meta_used root_fs).
  { split; [by vm_compute|]. intros b Hb Hu.
    assert (Hall : forallb (fun b => (data_start root_fs <=? b) || used root_fs b) (seqZ 0 64) = true) by (vm_compute; reflexivity).
    rewrite forallb_forall in Hall. specialize (Hall b). rewrite Hu, orb_false_r, Z.leb_le in Hall.
    apply Hall, list_elem_of_In, elem_of_seqZ. change (fs_size root_fs) with 64 in Hb. lia. }
  split; [done | split; [done | by vm_compute] | | split; [by vm_compute | by vm_compute] | done | done | done |].
  - split; [done| |].
    + intros l l' H1 H2 Hne He. rewrite (root_at l H1 Hne). symmetry. apply root_at; [done|]. by rewrite <- He.
    + intros l Hl Hne. rewrite (root_at l Hl Hne). by vm_compute.
  - intros o Ho. change (i_size root_dir) with 64 in Ho. assert (o / BSIZE = 0) as -> by (unfold BSIZE; Z.div_mod_to_equations; lia).
    by vm_compute.
Qed.
Lemma directory_map_witness : exists s' i' n', dirlink no_devices 0 [102] 7 root_fs = Ok (0, s') /\
  dir_ok s' 0 i' n' /\ dir_map (dir_of s' i' n') [102] = Some 7 /\ dir_map (dir_of s' i' n') [46] = Some 1.
Proof.
  pose proof (directory_map no_devices root_fs 0 root_dir 2 [102] 7) as H.
  assert (Em : dir_map (dir_of root_fs root_dir 2) [102] = None) by (vm_compute; reflexivity). rewrite Em in H.
  assert (Ed : dir_map (dir_of root_fs root_dir 2) [46] = Some 1) by (vm_compute; reflexivity).
  assert (Hn : name_ok [102]) by (split; [apply Forall_cons; split; [lia | apply Forall_nil_2] | change (1 <= 30)%nat; lia]).
  assert (Hdot : name_ok [46]) by (split; [apply Forall_cons; split; [lia | apply Forall_nil_2] | change (1 <= 30)%nat; lia]).
  destruct H as [_ [E|(s' & i' & n' & E & Hd & Hq)]].
  - exact root_dir_ok.
  - exact Hn.
  - lia.
  - by vm_compute.
  - exfalso. by vm_compute in E.
  - exists s', i', n'. split; [exact E|]. split; [exact Hd|]. rewrite !Hq by done. by rewrite Ed.
Defined.
