(* ===== verification/SysfileWitness.v ===== *)
(** * SysfileWitness: one process on a small machine

    A process with one page of memory, on the disk of FsWitness with a root
    directory; its calls instantiate the theorems on the system calls. *)
From S2P Require Import Prelude CString Vm VmFacts Fs FsFacts FsFile FsWitness Pipe File FileFacts Proc Syscall Sysfile Exec InodeRefs SysfileRefs SysfileCalls SysfileTxn.

(** Page directory, page table and the page of the process at physical
    0x1000, 0x2000 and 0x3000. *)
Definition small_pgdir : Z := KERNBASE + 0x1000.
Definition small_memory (args : list Z) (path : list Z) : mem :=
  put_bytes (put_words (put32 (put32 (fun _ => 0) 0x1000 0x2007) 0x2000 0x3007) 0x3104 args) 0x3200 (path ++ [0]).
(** The disk of FsWitness with inode 1 a directory in block 5. *)
Definition root_disk : mem :=
  put_bytes (put_words (put16 (put16 (tiny_disk 0x3F) 1088 T_DIR) 1094 1) 1096 [64; 5]) 2560
    (dirent 1 dot ++ dirent 1 dotdot).
Definition root_inode : inode := mkInode 1 1 1 I_VALID T_DIR 0 0 1 64 (5 :: replicate 12 0).
Definition free_inode : inode := mkInode 0 0 0 0 0 0 0 0 0 [].
Definition free_file : file := mkFile FD_NONE 0 0 0 0 0 0.
Definition idle (n : Z) : proc :=
  mkProc 0 0 0 UNUSED 0 None (mkTf 0 0 0 0 0 0 0 0 []) Run None 0 (replicate 16 None) None [] false.
(** Process 0 makes system call [num] with its first arguments at 0x104. *)
Definition small_proc (num : Z) : proc :=
  mkProc 4096 small_pgdir 0 RUNNING 1 None (mkTf num 0 0 0 0 0 0x100 0 []) Run None 0 (replicate 16 None) (Some 0) [] false.
Definition small_machine (num : Z) (args path : list Z) : kstate :=
  mkK (upd idle 0 (small_proc num)) (Some 0) 2 ∅ (fun _ => mkCpu 0 true true (Some 0) small_pgdir None)
    (mkV (small_memory args path) 0,
     mkFilesys [free_file; free_file] (mkF root_disk [root_inode; free_inode; free_inode; free_inode] [])
       (fun _ => pipe_init [])).

Definition no_refs : Z -> Z := fun _ => 0.
Definition no_locks : Z -> bool := fun _ => false.
Definition no_keys : Z -> Z * Z := fun _ => (0, 0).
Lemma small_holders num args path : holders_ok 0 0 no_refs no_keys no_locks (small_machine num args path).
Proof.
  split; [done|]. split; cbn [small_machine kern snd ftable fsys].
  - intros f x Hx. destruct f as [|[|f]]; cbn in Hx; simplify_eq; by vm_compute.
  - intros j i Hi. destruct j as [|[|[|[|j]]]]; cbn in Hi; simplify_eq; split; by vm_compute.
Qed.
Lemma no_devices_quiet : quiet_devices no_devices.
Proof. intros major. by split. Qed.
Lemma no_devices_silent : silent_devices no_devices.
Proof. intros major. by split. Qed.

(** [open("/f", O_CREATE|O_RDWR)]. *)
Definition opening : kstate := small_machine 15 [0x200; 0x202] [47; 102].
(** The result of the call, the files and the trace of the log. *)
Definition observe (o : outcome (unit * kstate)) : option (Z * list Z * list Z * option bool) :=
  match o with
  | Ok (_, s) => Some (tf_eax (tf (procs s 0)), f_ref <$> ftable (snd (kern s)),
      i_ref <$> icache (fsys (snd (kern s))), txn false (logged (fsys (snd (kern s)))))
  | _ => None
  end.
Definition run_small (s : kstate) : outcome (unit * kstate) :=
  syscall 0 (file_syscalls 0 0 no_devices 0) s.
Example opening_runs :
  observe (syscall 0 (file_syscalls 0 0 no_devices 0) opening) = Some (0, [1; 0], [1; 1; 0; 0], Some false).
Proof. vm_compute. reflexivity. Qed.
Lemma opening_returns : exists s', syscall 0 (file_syscalls 0 0 no_devices 0) opening = Ok (tt, s').
Proof.
  pose proof opening_runs as H.
  destruct (syscall _ _ opening) as [[[] s']| | |]; [by exists s' | discriminate H..].
Qed.

Lemma file_calls_count_holders_witness :
  exists s', syscall 0 (file_syscalls 0 0 no_devices 0) opening = Ok (tt, s') /\ holders_ok 0 0 no_refs no_keys no_locks s'.
Proof.
  destruct opening_returns as (s' & E). exists s'. split; [exact E|].
  apply (file_calls_count_holders 0 0 no_devices 0 0 no_refs no_keys no_locks opening s').
  - exact no_devices_quiet.
  - unfold NPROC. lia.
  - intros j. apply Z.le_refl.
  - intros j Hj. discriminate Hj.
  - exact (small_holders 15 [0x200; 0x202] [47; 102]).
  - exact E.
Defined.
Lemma file_calls_in_transactions_witness :
  exists s', syscall 0 (file_syscalls 0 0 no_devices 0) opening = Ok (tt, s') /\ fs_outside s'.
Proof.
  destruct opening_returns as (s' & E). exists s'. split; [exact E|].
  apply (file_calls_in_transactions 0 0 no_devices 0 0 no_refs no_keys no_locks opening s').
  - exact no_devices_quiet.
  - exact no_devices_silent.
  - exact (small_holders 15 [0x200; 0x202] [47; 102]).
  - reflexivity.
  - intros H5. vm_compute in H5. discriminate H5.
  - exact E.
Defined.

Lemma small_space : user_space 0 0 opening.
Proof.
  split; [reflexivity | by vm_compute|]. intros va Hva. change (sz (procs opening 0)) with 4096 in Hva.
  assert (Hall : forallb (fun va => match user_byte 0 opening va with Some _ => true | None => false end) (seqZ 0 4096) = true)
    by (vm_compute; reflexivity).
  rewrite forallb_forall in Hall. specialize (Hall va). destruct (user_byte 0 opening va) as [v|]; [by exists v|].
  discriminate Hall. apply list_elem_of_In, elem_of_seqZ. lia.
Qed.
(** The arguments of [open] are fetched from the stack at 0x104, the path at
    the address that the first one gives. *)
Lemma user_pointers_checked_witness :
  argint 0 0 opening = Ok (Some 0x200, opening) /\
  (exists l, argstr 0 0 opening = Ok (l, opening) /\ fetched_str 0 0 opening 0x200 l) /\
  argptr 0 0 4096 opening = Ok (None, opening).
Proof.
  destruct (proj2 (user_pointers_checked 0 0 opening small_space) 0) as (o & E & _ & H).
  assert (E0 : argint 0 0 opening = Ok (Some 0x200, opening)) by (vm_compute; reflexivity).
  assert (Ho : o = Some 0x200) by (rewrite E0 in E; injection E as <-; reflexivity). subst o.
  split; [exact E|]. destruct H as (Hs & Hp & _). split; [exact Hs|].
  rewrite Hp. reflexivity.
Defined.

(** ** A negative count *)

(** The process has the root directory open as descriptor 0. *)
Definition dir_open (s : kstate) : kstate :=
  mkK (upd (procs s) 0 (set_ofile (<[0%nat := Some 0]> (ofile (procs s 0))) (procs s 0))) (initproc s) (nextpid s)
    (locks s) (cpus s)
    (fst (kern s), mkFilesys [mkFile FD_INODE 1 1 0 0 0 0; free_file]
      (mkF root_disk [mkInode 1 1 2 I_VALID T_DIR 0 0 1 64 (5 :: replicate 12 0); free_inode; free_inode; free_inode] [])
      (pipes (snd (kern s)))).
(** A negative count passes the check of [argptr]: [read(fd, p, 64)] with [p]
    one byte below the end of the process is refused, but [read(fd, p, -1)] is
    not, and [readi], whose count is unsigned, copies the whole file: the
    kernel faults on the first byte past the process. *)
Theorem negative_count_escapes :
  observe (run_small (dir_open (small_machine 5 [0; 4095; 64] []))) = Some (2 ^ 32 - 1, [1; 0], [2; 0; 0; 0], Some false) /\
  run_small (dir_open (small_machine 5 [0; 4095; 2 ^ 32 - 1] [])) = Fault.
Proof. split; vm_compute; reflexivity. Qed.
