(* ===== verification/ProcRefs.v ===== *)
(** * ProcRefs: processes and the files they hold (src/src/proc.c, src/src/sysfile.c)

    The reference counts under every interleaving: [fork] copies the
    descriptors of its caller and [exit] gives them back, the file system calls
    change those of their caller only, and nothing else touches them.  The
    machine of [ProcInv] is extended by the file system calls. *)
From S2P Require Import Prelude CString Vm VmFacts Fs FsFacts FsFile Pipe File FileFacts Proc ProcTable ProcFacts ProcInv.
From S2P Require Import Syscall Sysfile Exec InodeRefs SysfileRefs SysfileCalls SysfileTxn FsWitness SysfileWitness.

(** ** Code that leaves descriptors alone *)

(** Descriptors and directories are as they were. *)
Definition refs_kept (s s' : kstate) : Prop :=
  same_files (kern s) (kern s') /\ forall p, ofile (procs s' p) = ofile (procs s p) /\ cwd (procs s' p) = cwd (procs s p).
#[export] Instance refs_kept_preorder : PreOrder refs_kept.
Proof.
  split; [by split|]. intros a b d [[H1 H2] H3] [[H4 H5] H6]. split; [split; congruence|].
  intros p. destruct (H3 p), (H6 p). split; congruence.
Qed.
(** Nobody died. *)
Definition alive_kept (s s' : kstate) : Prop := forall p, alive (procs s p) -> alive (procs s' p).
#[export] Instance alive_kept_preorder : PreOrder alive_kept.
Proof. split; [by intros s p|]. intros a b d H1 H2 p H. by apply H2, H1. Qed.

Section Kept.
Context (kend kdata : Z) (c : nat).
Lemma kept_proc p f : (forall x, ofile (f x) = ofile x /\ cwd (f x) = cwd x) -> respects refs_kept (on_proc p f).
Proof using. intros H. apply respects_modify. intros s. split; [done|]. intros q. cbn. upd_cases; [apply H | done]. Qed.
Lemma kept_procs f : (forall t p, ofile (f t p) = ofile (t p) /\ cwd (f t p) = cwd (t p)) -> respects refs_kept (modify (set_procs f)).
Proof using. intros H. apply respects_modify. intros s. split; [done|]. intros q. apply H. Qed.
Lemma kept_vm {A} (v : V A) : respects refs_kept (in_kern (in_vm v)).
Proof using. intros s a s' (x & Hx & ->)%in_kern_inv. split; [by eapply same_in_vm | done]. Qed.
Lemma kept_locks f : respects refs_kept (modify (set_locks f)).
Proof using. apply respects_modify. intros s. by split. Qed.
Lemma kept_cpu f : respects refs_kept (on_cpu c f).
Proof using. apply respects_modify. intros s. by split. Qed.
Lemma kept_nextpid n : respects refs_kept (modify (set_nextpid n)).
Proof using. apply respects_modify. intros s. by split. Qed.

Lemma live_proc p f : (forall x, alive x -> alive (f x)) -> respects alive_kept (on_proc p f).
Proof using. intros H. apply respects_modify. intros s q. cbn. upd_cases; [apply H | done]. Qed.
Lemma live_procs f : (forall t p, alive (t p) -> alive (f t p)) -> respects alive_kept (modify (set_procs f)).
Proof using. intros H. apply respects_modify. intros s q. apply H. Qed.
Lemma live_same {A} (m : P A) : (forall s a s', m s = Ok (a, s') -> procs s' = procs s) -> respects alive_kept m.
Proof using. intros H s a s' E p. by rewrite (H _ _ _ E). Qed.
Lemma live_kern {A} (m : K A) : respects alive_kept (in_kern m).
Proof using. apply live_same. by intros s a s' (x & _ & ->)%in_kern_inv. Qed.
Lemma live_locks f : respects alive_kept (modify (set_locks f)).
Proof using. apply respects_modify. intros s. by intros p. Qed.
Lemma live_cpu f : respects alive_kept (on_cpu c f).
Proof using. apply respects_modify. intros s. by intros p. Qed.
Lemma wake_alive ch x : alive x -> alive (wake_one ch x).
Proof using. unfold wake_one. destruct (_ && _); [by right; left | done]. Qed.
End Kept.
Ltac kept_step := first
  [ apply kept_vm | apply kept_locks | apply kept_cpu | apply kept_nextpid | apply kept_proc; done
  | apply live_kern | apply live_locks | apply live_cpu
  | apply live_proc; first [done | by intros; right; left | by intros; right; right | by intros; left]
  | solve [eauto with kept] ].
Ltac kept := respects_with kept_step.
Create HintDb kept.

Section Calls.
Context (kend kdata : Z) (c : nat).
Lemma kept_pushcli : respects refs_kept (pushcli c). Proof using. apply kept_cpu. Qed.
Lemma live_pushcli : respects alive_kept (pushcli c). Proof using. apply live_cpu. Qed.
Hint Resolve kept_pushcli live_pushcli : kept.
Lemma kept_popcli : respects refs_kept (popcli c). Proof using. unfold popcli, the_cpu. kept. Qed.
Lemma live_popcli : respects alive_kept (popcli c). Proof using. unfold popcli, the_cpu. kept. Qed.
Hint Resolve kept_popcli live_popcli : kept.
Lemma kept_acquire lk : respects refs_kept (acquire c lk). Proof using. unfold acquire, holding, spin. kept. Qed.
Lemma live_acquire lk : respects alive_kept (acquire c lk). Proof using. unfold acquire, holding, spin. kept. Qed.
Lemma kept_release lk : respects refs_kept (release c lk). Proof using. unfold release, holding. kept. Qed.
Lemma live_release lk : respects alive_kept (release c lk). Proof using. unfold release, holding. kept. Qed.
Hint Resolve kept_acquire live_acquire kept_release live_release : kept.
Lemma kept_myproc : respects refs_kept (myproc c). Proof using. unfold myproc, the_cpu. kept. Qed.
Lemma live_myproc : respects alive_kept (myproc c). Proof using. unfold myproc, the_cpu. kept. Qed.
Hint Resolve kept_myproc live_myproc : kept.
Lemma kept_wakeup1 ch : respects refs_kept (wakeup1 ch).
Proof using. apply kept_procs. intros t p. unfold wake_one. by repeat case_match. Qed.
Lemma live_wakeup1 ch : respects alive_kept (wakeup1 ch).
Proof using. apply live_procs. intros t p H. case_match; [by apply wake_alive | done]. Qed.
Hint Resolve kept_wakeup1 live_wakeup1 : kept.
Lemma kept_switchuvm p : respects refs_kept (switchuvm c p). Proof using. unfold switchuvm, the_proc. kept. Qed.
Lemma live_switchuvm p : respects alive_kept (switchuvm c p). Proof using. unfold switchuvm, the_proc. kept. Qed.
Hint Resolve kept_switchuvm live_switchuvm : kept.
Lemma kept_sched k : respects refs_kept (sched c k). Proof using. unfold sched, holding, the_cpu, the_proc, switchkvm. kept. Qed.
Lemma live_sched k : respects alive_kept (sched c k). Proof using. unfold sched, holding, the_cpu, the_proc, switchkvm. kept. Qed.
Hint Resolve kept_sched live_sched : kept.
Lemma kept_sleep_on ch lk k : respects refs_kept (sleep_on c ch lk k). Proof using. unfold sleep_on, the_cpu. kept. Qed.
Lemma live_sleep_on ch lk k : respects alive_kept (sleep_on c ch lk k). Proof using. unfold sleep_on, the_cpu. kept. Qed.
Hint Resolve kept_sleep_on live_sleep_on : kept.

(** *** The calls of proc.c but [fork] and [exit] *)
Lemma kept_wait_turn : respects refs_kept (wait_turn kend c). Proof using. unfold wait_turn, the_proc. kept. Qed.
Lemma live_view s s' t : (forall p, alive (procs s p) -> alive (t p)) -> same_table t (procs s') -> alive_kept s s'.
Proof using. intros H Ht p Hp. apply (view_alive _ _ (Ht p)). by apply H. Qed.
Lemma live_wait_turn : respects alive_kept (wait_turn kend c).
Proof using.
  intros s r s' H. apply wait_turn_inv in H as (me & Hme & H). destruct r as [v|].
  - destruct H as (_ & _ & _ & _ & t' & Hr & Ht). eapply live_view; [|exact Ht]. intros p Hp.
    assert (Ht' : alive (t' p)).
    { destruct Hr as [->|(q & y & _ & _ & Hz & _ & _ & ->)]; [done|]. upd_cases; [|done]. unfold alive in Hp. rewrite Hz in Hp. naive_solver. }
    by upd_cases.
  - destruct H as (_ & _ & _ & _ & Ht). eapply live_view; [|exact Ht]. intros p Hp. upd_cases; [by left | done].
Qed.
Hint Resolve kept_wait_turn live_wait_turn : kept.
Lemma kept_wait : respects refs_kept (wait kend c). Proof using. unfold wait. kept. Qed.
Lemma live_wait : respects alive_kept (wait kend c). Proof using. unfold wait. kept. Qed.
Lemma kept_allocproc : respects refs_kept (allocproc c). Proof using. unfold allocproc. kept. Qed.
Lemma live_allocproc : respects alive_kept (allocproc c).
Proof using.
  intros s r s' H. apply allocproc_inv in H as (_ & _ & H). destruct r as [p|]; [|by eapply live_view; [|exact H]].
  destruct H as (_ & Hun & y & _ & _ & Ht). eapply live_view; [|exact Ht]. intros q Hq. upd_cases; [|done].
  unfold alive in Hq. rewrite Hun in Hq. naive_solver.
Qed.
Hint Resolve kept_wait live_wait kept_allocproc live_allocproc : kept.
Lemma kept_resume p : respects refs_kept (resume kend c p). Proof using. unfold resume, sched_return, the_proc. kept. Qed.
Lemma live_resume p : respects alive_kept (resume kend c p). Proof using. unfold resume, sched_return, the_proc. kept. Qed.
Hint Resolve kept_resume live_resume : kept.
Lemma kept_kill n : respects refs_kept (kill c n).
Proof using. unfold kill. kept. all: apply kept_proc; intros x; by destruct (is_state SLEEPING x). Qed.
Lemma live_kill n : respects alive_kept (kill c n).
Proof using. unfold kill. kept. all: apply live_proc; intros x Hx; destruct (is_state SLEEPING x); [by right; left | done]. Qed.
Lemma kept_growproc n : respects refs_kept (growproc kend c n). Proof using. unfold growproc, the_proc. kept. Qed.
Lemma live_growproc n : respects alive_kept (growproc kend c n). Proof using. unfold growproc, the_proc. kept. Qed.
Hint Resolve kept_kill live_kill kept_growproc live_growproc : kept.
Lemma kept_adopt_one me p : respects refs_kept (adopt_one me p). Proof using. unfold adopt_one, the_proc. kept. Qed.
Lemma live_adopt_one me p : respects alive_kept (adopt_one me p). Proof using. unfold adopt_one, the_proc. kept. Qed.
Lemma live_close_files me : respects alive_kept (close_files kend me).
Proof using. unfold close_files, the_proc. apply respects_mfor; [apply _|]. kept. Qed.
Hint Resolve kept_adopt_one live_adopt_one live_close_files : kept.

(** Every action but the end of [fork] and [exit]. *)
Lemma act_kept a s s' : act kend kdata c a s s' -> a <> Fork_rest -> a <> Exit -> refs_kept s s' /\ alive_kept s s'.
Proof using.
  intros H Hf He. destruct H as [s s' Hi Hn H | s s' p Hs H | s s' r Hr H | s s' np r Hr H | s s' Hr H | s s' r Hr H
    | s s' Hr H | s s' ch lk Hr Hlk H | s s' lk Hr H | s s' ch H | s s' n r Hr H | s s' n r Hr H | s s' lk Hlk H
    | s s' lk Hlk H | s b Hn]; try done;
  [ unfold scheduler_top in H | unfold scheduler_turn, the_proc in H | unfold fork_begin in H | | unfold yield in H | unfold sleep in H
  | unfold reacquire in H | unfold wakeup in H | | | | | split; [by split | by intros p] ];
  (split; (match type of H with ?f _ = _ =>
     match goal with |- ?R _ _ => refine ((_ : respects R f) _ _ _ H) end end); kept).
Qed.
End Calls.
#[export] Hint Resolve kept_pushcli live_pushcli kept_popcli live_popcli kept_acquire live_acquire kept_release live_release kept_myproc live_myproc kept_wakeup1 live_wakeup1 kept_switchuvm live_switchuvm kept_sched live_sched kept_sleep_on live_sleep_on kept_wait_turn live_wait_turn kept_wait live_wait kept_allocproc live_allocproc kept_resume live_resume kept_kill live_kill kept_growproc live_growproc kept_adopt_one live_adopt_one live_close_files : kept.

#[export] Instance action_eq : EqDecision action.
Proof. solve_decision. Defined.

(** ** The accounts of the whole machine *)
Definition FDS : nat := 16.
(** An entry that holds nothing. *)
Definition bare (x : proc) : Prop := ofile x = replicate FDS None /\ cwd x = None.
Lemma all_none (l : list (option Z)) : length l = FDS -> (forall j, (j < FDS)%nat -> l !! j = Some None) -> l = replicate FDS None.
Proof.
  intros Hl H. apply list_eq. intros j. destruct (decide (j < FDS)%nat) as [Hj|Hj].
  - rewrite H by done. symmetry. by apply lookup_replicate_2.
  - rewrite lookup_ge_None_2 by lia. symmetry. apply lookup_ge_None_2. rewrite length_replicate. lia.
Qed.
(** Loops with an invariant. *)
Lemma mfor_steps {S} (J : Z -> S -> Prop) lo hi f (s s' : S) : lo <= hi ->
  (forall i s s', lo <= i < hi -> J i s -> f i s = Ok (tt, s') -> J (i + 1) s') -> J lo s -> mfor lo hi f s = Ok (tt, s') -> J hi s'.
Proof.
  intros Hle Hf HJ H. unfold mfor in H. remember (Z.to_nat (hi - lo)) as n eqn:Hn. revert lo s Hle Hf HJ H Hn.
  induction n as [|n IH]; intros lo s Hle Hf HJ H Hn.
  - assert (lo = hi) as -> by lia. rewrite Z.sub_diag in H. by injection H as <-.
  - rewrite seqZ_cons in H by lia. cbn [mfor_list] in H. apply bind_inv in H as ([] & s1 & H1 & H2).
    apply (IH (lo + 1) s1); [lia| |by apply (Hf lo s); [lia|..]| |lia].
    + intros i t t' Hi. apply Hf. lia.
    + replace (Z.pred (hi - lo)) with (hi - (lo + 1)) in H2 by lia. replace (Z.succ lo) with (lo + 1) in H2 by lia. exact H2.
Qed.

Section Machine.
Context (kend kdata : Z) (devsw : Z -> devops) (Hdev : quiet_devices devsw).
Context (xi : Z -> Z) (key : Z -> Z * Z) (b : Z -> bool).
Context (Hxi : forall j, 0 <= xi j) (Hb : forall j, b j = true -> 0 < xi j).
Definition balanced (s : kstate) : Prop := kacct xi key (fd_refs (procs s)) (fun j => xi j + cwd_refs (procs s) j) b (kern s).
Record books (s : kstate) : Prop := mkBooks {
  bk_acct : balanced s;
  bk_len : forall p, in_tab p -> length (ofile (procs s p)) = FDS;
  bk_bare : forall p, in_tab p -> ~ alive (procs s p) -> bare (procs s p) }.

Lemma balanced_kept s s' : refs_kept s s' -> balanced s -> balanced s'.
Proof using.
  intros [Hf Hp] Ha. assert (Hg : forall g, (forall x y, ofile y = ofile x -> cwd y = cwd x -> g y = g x) ->
    over_procs g (procs s') = over_procs g (procs s)).
  { intros g H. unfold over_procs. induction table_order as [|p l IH]; [done|]. cbn. destruct (Hp p). unfold sumZ in IH. rewrite IH. f_equal. by apply H. }
  eapply kacct_ext; [| | |eapply kacct_same; [exact Hf | exact Ha]]; [| |done].
  - intros f. apply Hg. intros x y E _. unfold fds. by rewrite E.
  - intros j. cbv beta. f_equal. apply Hg. intros x y _ E. unfold in_dir. by rewrite E.
Qed.
Lemma books_kept s s' : refs_kept s s' -> alive_kept s s' -> books s -> books s'.
Proof using.
  intros Hr Hl [B1 B2 B3]. pose proof Hr as [_ Hp]. split; [by eapply balanced_kept| |].
  - intros p Hin. destruct (Hp p) as [-> _]. by apply B2.
  - intros p Hin Hd. destruct (Hp p) as [E1 E2]. unfold bare. rewrite E1, E2. apply B3; [done|]. intros Ha. by apply Hd, Hl.
Qed.

(** *** A descriptor and the directory of an entry *)
Definition others (p : Z) (s s' : kstate) : Prop := forall q, q <> p -> ofile (procs s' q) = ofile (procs s q) /\ cwd (procs s' q) = cwd (procs s q).
#[local] Instance others_preorder p : PreOrder (others p).
Proof using. split; [by intros s q|]. intros x y z H1 H2 q Hq. destruct (H1 q Hq), (H2 q Hq). split; congruence. Qed.
Lemma others_kept p s s' : refs_kept s s' -> others p s s'.
Proof using. intros [_ H] q _. apply H. Qed.
Lemma fd_change p fd o s old : in_tab p -> ofile (procs s p) !! Z.to_nat fd = Some old ->
  let s' := set_proc p (fun y => set_ofile (<[Z.to_nat fd := o]> (ofile y)) y) s in
  (forall g, fd_refs (procs s') g = fd_refs (procs s) g - one (old = Some g) + one (o = Some g)) /\
  (forall j, cwd_refs (procs s') j = cwd_refs (procs s) j) /\ kern s' = kern s.
Proof using.
  intros Hp Hold s'. destruct (set_fd_inv p Hp fd o s tt s' eq_refl old Hold) as (H1 & _ & H3 & H4). done.
Qed.
Lemma cwd_change p o s : in_tab p -> let s' := set_proc p (set_cwd o) s in
  (forall g, fd_refs (procs s') g = fd_refs (procs s) g) /\
  (forall j, cwd_refs (procs s') j = cwd_refs (procs s) j - one (cwd (procs s p) = Some j) + one (o = Some j)).
Proof using.
  intros Hp s'. unfold s', set_proc, fd_refs, cwd_refs. cbn [procs set_procs]. split.
  - intros g. rewrite over_procs_upd by done.
    assert (Hs : fds g (set_cwd o (procs s p)) = fds g (procs s p)) by done. lia.
  - intros j. rewrite over_procs_upd by done. done.
Qed.

(** ** fork *)

(** The entry [np] while its descriptors are filled in, [i] of them done. *)
Record filling (np : Z) (s0 : kstate) (i : Z) (s : kstate) : Prop := mkFilling {
  fl_acct : balanced s;
  fl_others : others np s0 s;
  fl_len : length (ofile (procs s np)) = FDS;
  fl_rest : forall j, (Z.to_nat i <= j < FDS)%nat -> ofile (procs s np) !! j = Some None;
  fl_cwd : cwd (procs s np) = None }.
Lemma dup_one np s0 i f s s' : in_tab np -> 0 <= i < NOFILE -> filling np s0 i s ->
  (g <- in_kern (filedup f) ;; on_proc np (fun y => set_ofile (<[Z.to_nat i := Some g]> (ofile y)) y)) s = Ok (tt, s') ->
  filling np s0 (i + 1) s'.
Proof using.
  intros Hnp Hi [F1 F2 F3 F4 F5] H. apply bind_inv in H as (g & s1 & Hd & [= <-]). apply in_kern_inv in Hd as (x & Hd & ->).
  eapply kacct_filedup in Hd as [-> Hd]; [|exact F1]. unfold NOFILE in Hi. unfold FDS in *.
  assert (Hold : ofile (procs (set_kern x s) np) !! Z.to_nat i = Some None) by (apply F4; lia).
  destruct (fd_change np i (Some f) (set_kern x s) None Hnp Hold) as (C1 & C2 & C3). split.
  - eapply kacct_ext; [| | |rewrite C3; exact Hd]; [| |done].
    + intros g. rewrite C1. unfold one. rewrite decide_False by done. unfold upd. cbn.
      destruct (Z.eqb_spec g f) as [->|]; [rewrite decide_True by done | rewrite decide_False by congruence]; lia.
    + intros j. by rewrite C2.
  - intros q Hq. cbn. rewrite upd_ne by done. by apply F2.
  - cbn. rewrite upd_eq. cbn. by rewrite length_insert.
  - intros j Hj. cbn. rewrite upd_eq. cbn. rewrite list_lookup_insert_ne by lia. apply F4. unfold FDS in Hj. lia.
  - cbn. by rewrite upd_eq.
Qed.
Lemma skip_one np s0 i s : filling np s0 i s -> 0 <= i -> filling np s0 (i + 1) s.
Proof using. intros [F1 F2 F3 F4 F5] Hi. split; try done. intros j Hj. apply F4. lia. Qed.
Lemma filling_kept np s0 i s s' : refs_kept s s' -> filling np s0 i s -> filling np s0 i s'.
Proof using.
  intros Hr [F1 F2 F3 F4 F5]. pose proof Hr as [_ Hp]. destruct (Hp np) as [E1 E2].
  split; [by eapply balanced_kept | etransitivity; [exact F2 | by apply others_kept] | by rewrite E1 | by rewrite E1 | by rewrite E2].
Qed.
(** [np->cwd = idup(proc->cwd)] *)
Lemma dup_cwd np s0 i w w' s s' : in_tab np -> filling np s0 i s -> in_kern (in_fs (idup w)) s = Ok (w', s') ->
  balanced (set_proc np (set_cwd (Some w')) s').
Proof using.
  intros Hnp [[F1a F1b] F2 F3 F4 F5] H. apply in_kern_inv in H as (x & H & ->). apply in_fs_inv in H as (y & Hy & ->).
  eapply acct_idup in Hy as [-> [Hy _ _]]; [|exact F1b].
  destruct (cwd_change np (Some w) (set_kern (with_fs y (kern s)) s) Hnp) as [C1 C2]. split.
  - intros f z Hz. rewrite C1. by apply F1a.
  - eapply acct_ext; [| |exact Hy]; [|done]. intros j. rewrite C2. cbn [kern snd fst with_fs ftable set_proc set_procs set_kern procs fsys]. unfold upd, one. rewrite F5. cbv beta.
    rewrite (decide_False (P := None = Some j)) by done. destruct (Z.eqb_spec j w) as [->|]; [rewrite decide_True by done | rewrite decide_False by congruence]; lia.
Qed.

Lemma fork_rest_books c s np r s' : kinv s -> Proc.running c s (In_fork np) -> books s -> fork_rest kend kdata c np s = Ok (r, s') -> books s'.
Proof using.
  intros Hk (me & Hme & Hpc) Hbk H. destruct (ki_me s c me Hk Hme) as (Hin & Hst & _).
  destruct (to_fork _ _ (ki_table s Hk) me np Hin) as [Hnp Hemb]; [done|].
  assert (Hdead : ~ alive (procs s np)) by (unfold alive; rewrite Hemb; naive_solver).
  destruct (bk_bare _ Hbk np Hnp Hdead) as [Bf Bw].
  pose proof H as Hv. apply fork_rest_inv in Hv as (me' & y & Hme' & _ & Hy & Ht).
  assert (Hlive : forall p, p <> np -> alive (procs s p) -> alive (procs s' p)).
  { intros p Hp Ha. apply (view_alive _ _ (Ht p)). by upd_cases. }
  (* what is left to show, from the balance and the other entries *)
  assert (Hend : balanced s' -> others np s s' -> length (ofile (procs s' np)) = FDS -> (refs_kept s s' \/ alive (procs s' np)) -> books s').
  { intros B1 Ho B2 B3. split; [done| |].
    - intros p Hp. destruct (decide (p = np)) as [->|Hne]; [done|]. destruct (Ho p Hne) as [-> _]. by apply Hbk.
    - intros p Hp Hd. destruct (decide (p = np)) as [->|Hne].
      + destruct B3 as [[_ B3]|B3].
        * destruct (B3 np) as [E1 E2]. unfold bare. by rewrite E1, E2.
        * by destruct Hd.
      + destruct (Ho p Hne) as [E1 E2]. unfold bare. rewrite E1, E2. apply Hbk; [done|]. intros Ha. by apply Hd, Hlive. }
  unfold fork_rest, the_proc in H. apply bind_inv in H as (m & s1 & Hm & H). apply myproc_run in Hm as [_ ->].
  apply bind_inv in H as (x & s1 & [= <- <-] & H). apply bind_inv in H as (d & s1 & Hd & H). apply kept_vm in Hd.
  apply bind_inv in H as (? & s2 & Hp & H). apply (kept_proc np (set_pgdir d)) in Hp; [|done].
  assert (Hk2 : refs_kept s s2) by (by etransitivity). clear Hd Hp. destruct (d =? 0).
  { assert (Hall : refs_kept s s').
    { etransitivity; [exact Hk2|]. match type of H with ?f _ = _ => refine ((_ : respects refs_kept f) _ _ _ H) end. kept. }
    apply Hend; [by eapply balanced_kept, Hbk | by apply others_kept | | by left]. destruct Hall as [_ Hall]. destruct (Hall np) as [-> _]. by apply Hbk. }
  do 3 (apply bind_inv in H as (? & ? & Hp & H); apply kept_proc in Hp; [|done]; match type of Hk2 with refs_kept ?a ?b =>
    match type of Hp with refs_kept b ?e => assert (refs_kept a e) by (by etransitivity); clear Hk2 Hp; rename select (refs_kept a e) into Hk2 end end).
  apply bind_inv in H as ([] & s3 & Hloop & H).
  assert (Hfill : filling np s NOFILE s3).
  { revert Hloop. apply mfor_steps; [done| |].
    - intros i t t' Hi Hf Hstep. destruct (nth (Z.to_nat i) (ofile (procs s m)) None); [by eapply dup_one|].
      injection Hstep as <-. apply skip_one; [done | lia].
    - pose proof Hk2 as [_ Hk3]. destruct (Hk3 np) as [E1 E2].
      split; [by eapply balanced_kept, Hbk | by apply others_kept | by rewrite E1, Bf | | by rewrite E2].
      intros j Hj. rewrite E1, Bf. apply lookup_replicate_2. lia. }
  clear Hloop Hk2. apply bind_inv in H as (w & s4 & Hw & H). apply of_option_run in Hw as [_ ->].
  apply bind_inv in H as (w' & s4 & Hi & H). pose proof (dup_cwd np s NOFILE w w' s3 s4 Hnp Hfill Hi) as Hbal.
  apply in_kern_inv in Hi as (? & _ & ->). apply bind_inv in H as (? & s5 & [= <- <-] & H). set (s5 := set_proc np _ _) in *.
  assert (Hk5 : refs_kept s5 s').
  { match type of H with ?f _ = _ => refine ((_ : respects refs_kept f) _ _ _ H) end. unfold the_proc. kept. }
  destruct Hfill as [_ F2 F3 _ _]. pose proof Hk5 as [_ Hk6]. apply Hend.
  - by eapply balanced_kept.
  - etransitivity; [exact F2|]. intros q Hq. destruct (Hk6 q) as [-> ->]. cbn. by rewrite upd_ne.
  - destruct (Hk6 np) as [-> _]. cbn. by rewrite upd_eq.
  - right. do 2 (apply bind_inv in H as (? & ? & _ & H)). apply bind_inv in H as (? & s7 & _ & H). apply bind_inv in H as (? & s6 & [= <- <-] & H).
    assert (Hl : alive_kept (set_proc np (set_state RUNNABLE) s7) s').
    { match type of H with ?f _ = _ => refine ((_ : respects alive_kept f) _ _ _ H) end. kept. }
    apply Hl. cbn. rewrite upd_eq. by right; left.
Qed.

(** ** exit *)

(** The entry [me] while its descriptors are closed, the first [i] are. *)
Record closing (me : Z) (s0 : kstate) (i : Z) (s : kstate) : Prop := mkClosing {
  cl_acct : balanced s;
  cl_others : others me s0 s;
  cl_len : length (ofile (procs s me)) = FDS;
  cl_done : forall j, (j < Z.to_nat i)%nat -> (j < FDS)%nat -> ofile (procs s me) !! j = Some None }.
Lemma holders_nonneg s j : 0 <= xi j <= xi j + cwd_refs (procs s) j.
Proof using Hxi. by apply holders_bounds. Qed.
Lemma close_one me s0 i s s' : in_tab me -> 0 <= i < NOFILE -> closing me s0 i s ->
  (x <- the_proc me ;;
   match nth (Z.to_nat i) (ofile x) None with
   | Some f => in_kern (fileclose kend f) ;;; on_proc me (fun y => set_ofile (<[Z.to_nat i := None]> (ofile y)) y)
   | None => ret tt
   end) s = Ok (tt, s') -> closing me s0 (i + 1) s'.
Proof using Hxi Hb.
  intros Hme Hi [F1 F2 F3 F4] H. apply bind_inv in H as (x & s1 & [= <- <-] & H). unfold NOFILE in Hi.
  destruct (lookup_lt_is_Some_2 (ofile (procs s me)) (Z.to_nat i)) as [o Ho]; [rewrite F3; unfold FDS; lia|].
  rewrite nth_lookup, Ho in H. cbn [default] in H. destruct o as [f|]; cbn in H.
  2:{ injection H as <-. split; [done..|]. intros j Hj Hj'. destruct (decide (j = Z.to_nat i)) as [->|]; [done | apply F4; [lia | done]]. }
  apply bind_inv in H as (? & s1 & Hc & [= <-]). apply in_kern_inv in Hc as (y & Hc & ->).
  eapply kacct_fileclose in Hc; [|exact F1|apply holders_nonneg|done].
  destruct (fd_change me i None (set_kern y s) (Some f) Hme Ho) as (C1 & C2 & C3). split.
  - eapply kacct_ext; [| | |rewrite C3; exact Hc]; [| |done].
    + intros g. rewrite C1. unfold one. rewrite (decide_False (P := None = Some g)) by done. unfold upd. cbn [set_kern procs].
      destruct (Z.eqb_spec g f) as [->|]; [rewrite decide_True by done | rewrite decide_False by congruence]; lia.
    + intros j. by rewrite C2.
  - intros q Hq. cbn. rewrite upd_ne by done. by apply F2.
  - cbn. rewrite upd_eq. cbn. by rewrite length_insert.
  - intros j Hj Hj'. cbn. rewrite upd_eq. cbn. destruct (decide (j = Z.to_nat i)) as [->|].
    + apply list_lookup_insert_eq. by rewrite F3.
    + rewrite list_lookup_insert_ne by done. apply F4; [lia | done].
Qed.
(** The current directory is given back inside a transaction. *)
Lemma drop_cwd me w s s1 s2 s3 : in_tab me -> cwd (procs s me) = Some w -> balanced s ->
  in_kern (in_fs begin_op) s = Ok (tt, s1) -> in_kern (in_fs (iput w)) s1 = Ok (tt, s2) -> in_kern (in_fs end_op) s2 = Ok (tt, s3) ->
  procs s3 = procs s /\ balanced (set_proc me (set_cwd None) s3).
Proof using Hxi Hb.
  intros Hme Hw Ha (x1 & H1 & ->)%in_kern_inv (x2 & H2 & ->)%in_kern_inv (x3 & H3 & ->)%in_kern_inv. split; [done|].
  eapply kacct_calm in H1; [|apply quiet_log|exact Ha]. destruct H1 as [K1 K2]. cbn [set_kern kern] in H2, H3.
  assert (Hpos : 1 <= cwd_refs (procs s) w).
  { assert (E : in_dir w (procs s me) = 1) by (unfold in_dir, one; by rewrite decide_True).
    rewrite <- E. eapply (sumZ_member _ _ (Z.to_nat me)); [intros x; apply one_pos|]. unfold in_tab, NPROC in Hme.
    unfold table_order. rewrite list_lookup_fmap, lookup_seqZ_lt by (unfold NPROC; lia). cbn. by rewrite Z2Nat.id by lia. }
  apply in_fs_inv in H2 as (y & Hy & ->). pose proof (Hxi w) as Hx.
  assert (HR : 0 <= open_refs (ftable (snd x1)) w) by (apply sumZ_pos, on_inode_pos).
  eapply acct_iput in Hy; [|exact K2|cbv beta; lia|cbv beta; intros Hbw; specialize (Hb _ Hbw); lia].
  destruct (cwd_change me None (set_kern x3 s) Hme) as [C1 C2].
  assert (K3 : kacct xi key (fd_refs (procs s)) (fun j => xi j + (cwd_refs (procs s) j - one (Some w = Some j))) b (with_fs y x1)).
  { split; [done|]. cbn [with_fs fst snd ftable fsys]. eapply acct_ext; [| |exact Hy]; [|done]. intros j. unfold upd, one.
    destruct (Z.eqb_spec j w) as [->|]; [rewrite decide_True by done | rewrite decide_False by congruence]; cbv beta; lia. }
  eapply kacct_calm in H3; [|apply quiet_log|exact K3].
  eapply kacct_ext; [| | |exact H3]; [| |done].
  - intros g. exact (C1 g).
  - intros j. pose proof (C2 j) as E. cbn [set_kern procs] in E. rewrite Hw in E. unfold one in E at 2. rewrite decide_False in E by done.
    change (cwd_refs (procs (set_proc me (set_cwd None) (set_kern x3 s))) j = cwd_refs (procs s) j - one (Some w = Some j) + 0) in E.
    change (xi j + cwd_refs (procs (set_proc me (set_cwd None) (set_kern x3 s))) j = xi j + (cwd_refs (procs s) j - one (Some w = Some j))). lia.
Qed.
Lemma exit_books c s s' : kinv s -> books s -> exit kend c s = Ok (tt, s') -> books s'.
Proof using Hxi Hb.
  intros Hk Hbk H. unfold exit, the_proc in H. apply bind_inv in H as (me & ? & Hm & H). apply myproc_run in Hm as [Hme ->].
  destruct (ki_me s c me Hk Hme) as (Hin & Hst & _). apply bind_inv in H as (i & ? & [= <- <-] & H). destruct (bool_decide _); [done|].
  apply bind_inv in H as ([] & s1 & Hc & H). pose proof Hc as Hl1. apply live_close_files in Hl1.
  assert (Hcl : closing me s NOFILE s1).
  { revert Hc. unfold close_files. apply mfor_steps; [done| |].
    - intros j t t' Hj Hf. by apply close_one.
    - split; [apply Hbk | done | by apply Hbk | intros j Hj; cbn in Hj; lia]. }
  destruct Hcl as [B1 Ho Hlen Hnone]. clear Hc.
  apply bind_inv in H as (x & ? & [= <- <-] & H). apply bind_inv in H as (w & ? & Hw & H). apply of_option_run in Hw as [Hw ->].
  apply bind_inv in H as ([] & s2 & H1 & H). apply bind_inv in H as ([] & s3 & H2 & H). apply bind_inv in H as ([] & s4 & H3 & H).
  destruct (drop_cwd me w s1 s2 s3 s4 Hin Hw B1 H1 H2 H3) as [P4 B4]. clear H1 H2 H3.
  apply bind_inv in H as (? & ? & [= <- <-] & H). set (s5 := set_proc me (set_cwd None) s4) in *.
  assert (Hr : refs_kept s5 s').
  { match type of H with ?f _ = _ => refine ((_ : respects refs_kept f) _ _ _ H) end. kept. all: apply respects_mfor; [apply _|]; kept. }
  assert (Hl : forall p, p <> me -> alive (procs s p) -> alive (procs s' p)).
  { apply bind_inv in H as (? & t1 & A1 & H). apply live_acquire in A1. apply bind_inv in H as (? & ? & [= <- <-] & H).
    apply bind_inv in H as (? & t2 & A2 & H). apply live_wakeup1 in A2. apply bind_inv in H as (? & t3 & A3 & H).
    apply (respects_mfor alive_kept 0 NPROC _ (live_adopt_one me)) in A3. apply bind_inv in H as (? & ? & [= <- <-] & H). apply live_sched in H.
    intros p Hp Ha. apply H. cbn. rewrite upd_ne by done. apply A3, A2, A1. unfold s5. cbn. rewrite upd_ne, P4 by done. by apply Hl1. }
  pose proof Hr as [_ Hr2]. split; [by eapply balanced_kept| |].
  - intros p Hp. destruct (Hr2 p) as [-> _]. unfold s5. cbn. upd_cases; cbn; rewrite P4; [done|].
    destruct (Ho p) as [-> _]; [done|]. by apply Hbk.
  - intros p Hp Hd. destruct (Hr2 p) as [E1 E2]. unfold bare. rewrite E1, E2. unfold s5. cbn. upd_cases; cbn; rewrite P4.
    + split; [|done]. apply all_none; [done|]. intros j Hj. apply Hnone; [|done]. change (Z.to_nat NOFILE) with FDS. done.
    + destruct (Ho p) as [-> ->]; [done|]. apply Hbk; [done|]. intros Ha. apply Hd. by apply Hl.
Qed.
Lemma act_books c a s s' : act kend kdata c a s s' -> kinv s -> books s -> books s'.
Proof using Hxi Hb.
  intros H Hk Hbk. destruct (decide (a = Fork_rest)) as [->|Hf]; [inversion H; subst; by eapply fork_rest_books|].
  destruct (decide (a = Exit)) as [->|He]; [inversion H; subst; by eapply exit_books|].
  destruct (act_kept kend kdata c a s s' H Hf He) as [Hr Hl]. by eapply books_kept.
Qed.
End Machine.

(** ** File system calls change the entry of their caller *)
Section Caller.
Context (kend kdata : Z) (devsw : Z -> devops) (c : nat) (me : Z).
Record own (s0 s : kstate) : Prop := mkOwn {
  ow_frame : frame s0 s;
  ow_me : cproc (cpus s c) = Some me;
  ow_other : forall p, p <> me -> procs s p = procs s0 p;
  ow_view : view (procs s me) = view (procs s0 me);
  ow_len : length (ofile (procs s me)) = length (ofile (procs s0 me));
  ow_locks : locks_ok s }.
Section From.
Context (s0 : kstate).
Lemma own_pure {A} (m : P A) : respects unchanged m -> keeps (own s0) m.
Proof using. intros H s a s' E Hs. by rewrite (H _ _ _ E). Qed.
Lemma own_myproc {A} (k : Z -> P A) : keeps (own s0) (k me) -> keeps (own s0) (p <- myproc c ;; k p).
Proof using.
  intros Hk s a s' H Hs. apply bind_inv in H as (p & s1 & Hm & H). apply myproc_run in Hm as [Hm ->].
  rewrite (ow_me _ _ Hs) in Hm. injection Hm as <-. by eapply Hk.
Qed.
Lemma own_kern {A} (m : K A) : keeps (own s0) (in_kern m).
Proof using.
  apply keeps_kern. intros x s [H1 H2 H3 H4 H5 H6]. split; try done. etransitivity; [exact H1 | apply frame_kern].
Qed.
Lemma own_proc f : (forall x, view (f x) = view x) -> (forall x, length (ofile (f x)) = length (ofile x)) -> keeps (own s0) (on_proc me f).
Proof using.
  intros Hf Hl. apply keeps_modify. intros s [H1 H2 H3 H4 H5 H6]. split; [etransitivity; [exact H1 | apply frame_proc] | done | | | | exact H6]; cbn.
  - intros p Hp. rewrite upd_ne by done. by apply H3.
  - by rewrite upd_eq, Hf.
  - by rewrite upd_eq, Hl.
Qed.
Lemma own_set_fd fd o : keeps (own s0) (set_fd me fd o).
Proof using. apply own_proc; [done|]. intros x. cbn. by rewrite length_insert. Qed.
Lemma own_store_user l : forall va, keeps (own s0) (store_user c va l).
Proof using.
  induction l as [|v l IH]; intros va; cbn [store_user]; [apply keeps_ret|]. apply keeps_bind; [apply own_pure, pure_user_addr|].
  intros a. apply keeps_bind; [apply own_kern | intros []; apply IH].
Qed.
Lemma own_switchuvm p : keeps (own s0) (switchuvm c p).
Proof using.
  intros s [] s' H [H1 H2 H3 H4 H5 H6]. pose proof (locks_switchuvm c p _ _ _ H H6) as H7. apply switchuvm_inv in H as (F & Ep & _). rewrite <- Ep in *. split; try done; [by etransitivity|].
  pose proof (fr_loc _ _ F c) as E. unfold loc in E. injection E as E _. congruence.
Qed.
Ltac own_step := first
  [ apply own_myproc | apply own_kern | apply own_set_fd | apply own_store_user | apply own_switchuvm
  | apply own_pure; solve [auto with xv6] | apply own_proc; done ].
Ltac owns := unfold the_proc, fs_call; repeat first
  [ apply keeps_ret | apply keeps_gets | apply keeps_of_option | apply keeps_fault | apply keeps_panic
  | own_step
  | match goal with |- keeps _ (M_bind _ _) => apply keeps_bind; [|intros ?] end
  | match goal with |- keeps _ (match ?x with _ => _ end) => destruct x eqn:? end ].
Lemma own_fdalloc f : keeps (own s0) (fdalloc c f).
Proof using. unfold fdalloc. owns. Qed.
Lemma own_store_stat st x : keeps (own s0) (store_stat c st x).
Proof using. unfold store_stat. owns. Qed.
Lemma own_file_call num f : file_syscalls kend kdata devsw c num = Some f -> keeps (own s0) f.
Proof using.
  unfold file_syscalls. intros Hf. pose proof fetch_argv_pure as Hfetch.
  repeat (match type of Hf with (match ?x with _ => _ end) = _ => destruct x end; try discriminate Hf); injection Hf as <-;
  unfold sys_pipe, sys_read, sys_exec, exec, exec_image, exec_bad, exec_commit, sys_fstat, sys_chdir, sys_dup, sys_open, sys_write,
    sys_mknod, sys_unlink, sys_link, sys_mkdir, sys_close; cbv zeta; owns;
  first [apply own_fdalloc | apply own_store_stat | by apply own_pure, Hfetch].
Qed.
End From.
End Caller.

(** ** Every interleaving of process and file system calls *)
Section Whole.
Context (kend kdata : Z) (devsw : Z -> devops) (Hdev : quiet_devices devsw).
(** An action of [ProcInv], or a file system call of a running process. *)
Definition sysstep (s s' : kstate) : Prop :=
  kstep kend kdata s s' \/
  exists c, Proc.running c s Run /\ syscall c (file_syscalls kend kdata devsw c) s = Ok (tt, s').
(** Between calls nobody is inside one. *)
Definition no_key (_ : Z) : Z * Z := (0, 0).
Definition exact (s : kstate) : Prop := books (fun _ => 0) no_key (fun _ => false) s.

Lemma own_start c me s : kinv s -> cproc (cpus s c) = Some me -> own c me s s.
Proof using. intros Hk Hme. split; try done. apply Hk. Qed.
Lemma own_kinv c me s s' : kinv s -> own c me s s' -> kinv s'.
Proof using.
  intros Hk [H1 H2 H3 H4 H5 H6]. assert (Ht : same_table (procs s) (procs s')).
  { intros p. destruct (decide (p = me)) as [->|Hp]; [done | by rewrite H3]. }
  apply (kinv_quiet s s'); try done. intros p. pose proof (ki_pcs s Hk p) as Hf. pose proof (Ht p) as E.
  unfold view in E. injection E as _ _ E _ _. by rewrite E.
Qed.
Lemma syscall_step c s s' : Proc.running c s Run -> kinv s -> exact s ->
  syscall c (file_syscalls kend kdata devsw c) s = Ok (tt, s') -> kinv s' /\ exact s'.
Proof using Hdev.
  intros (me & Hme & _) Hk Hx H. destruct (ki_me s c me Hk Hme) as (Hin & Hst & _).
  assert (Hh : holders_ok c me (fun _ => 0) no_key (fun _ => false) s) by (split; [done | apply Hx]).
  assert (Hboth : own c me s s' /\ holders_ok c me (fun _ => 0) no_key (fun _ => false) s').
  { unfold syscall in H. apply bind_inv in H as (p & s1 & Hm & H). apply myproc_run in Hm as [Hm ->]. assert (p = me) as -> by congruence.
    apply bind_inv in H as (x & s1 & [= <- <-] & H). pose proof (own_start c me s Hk Hme) as Ho.
    assert (Heax : forall v t, own c me s t -> own c me s (set_proc me (set_eax v) t)).
    { intros v t Ht. eapply (own_proc c me s (set_eax v)); [done | done | reflexivity | done]. }
    match type of H with (match ?t with _ => _ end) _ = _ => destruct t as [f|] eqn:Ef end.
    - destruct (_ && _); [|done]. apply bind_inv in H as (r & s1 & Hf & [= <-]). split; [apply Heax; by eapply own_file_call|].
      apply eax_holders; [done|]. by eapply file_call_holders.
    - injection H as <-. split; [by apply Heax | by apply eax_holders]. }
  destruct Hboth as [Ho Hh']. split; [by eapply own_kinv|]. destruct Ho as [O1 O2 O3 O4 O5 O6]. split; [apply Hh'| |].
  - intros p Hp. destruct (decide (p = me)) as [->|Hne]; [rewrite O5; by apply Hx | rewrite O3 by done; by apply Hx].
  - intros p Hp Hd. destruct (decide (p = me)) as [->|Hne]; [|rewrite O3 in * by done; by apply Hx].
    destruct Hd. apply (view_alive _ _ O4). right. by right.
Qed.
Lemma sysstep_keeps s s' : sysstep s s' -> kinv s -> exact s -> kinv s' /\ exact s'.
Proof using Hdev.
  intros [(c & a & H)|(c & Hr & H)] Hk Hx; [|by eapply syscall_step]. split; [by eapply act_kinv|].
  eapply act_books; [done | done | exact H | done | done].
Qed.
Lemma sysreach_keeps s s' : rtc sysstep s s' -> kinv s -> exact s -> kinv s' /\ exact s'.
Proof using Hdev. induction 1 as [|x y z H _ IH]; [done|]. intros Hk Hx. destruct (sysstep_keeps x y H Hk Hx). by apply IH. Qed.
End Whole.

(** C3 Reference counts are exact from boot on.  Start the machine with
    accounts in order and let the CPUs interleave, in any order, the scheduler,
    [fork], [exit], [wait], [kill], sleeping and waking, and every file system
    call of the processes: whenever no call is in progress, the count of every
    open file is the number of descriptors of all processes that denote it, a
    file with no descriptor is closed, the count of every inode is the number
    of open files and current directories on it, no inode is locked, and an
    entry of the process table that is unused, being made or a zombie holds
    nothing. *)
Theorem references_exact kend kdata devsw s0 s : quiet_devices devsw -> boot s0 -> exact s0 -> rtc (sysstep kend kdata devsw) s0 s ->
  (forall f x, ftable (snd (kern s)) !! f = Some x ->
     f_ref x = fd_refs (procs s) (Z.of_nat f) /\ (f_ref x = 0 -> f_type x = FD_NONE)) /\
  (forall j i, icache (fsys (snd (kern s))) !! j = Some i ->
     i_ref i = cwd_refs (procs s) (Z.of_nat j) + open_refs (ftable (snd (kern s))) (Z.of_nat j) /\ busy i = false) /\
  (forall p, in_tab p -> ~ alive (procs s p) -> bare (procs s p)).
Proof.
  intros Hdev Hboot Hx Hr. destruct (sysreach_keeps kend kdata devsw Hdev s0 s Hr (boot_kinv s0 Hboot) Hx) as [_ [[B1 B2] _ B3]].
  split; [|split; [|exact B3]].
  - intros f x Hf. destruct (B1 f x Hf) as (H1 & _ & H3). done.
  - intros j i Hi. destruct (B2 j i Hi) as [H1 H2 _ _ _]. done.
Qed.

(** ** Witness: init is scheduled and opens a file *)
Definition machine0 : kstate :=
  let s := opening in
  mkK (upd idle 0 (set_pc In_forkret (set_state RUNNABLE (procs s 0)))) (Some 0) 2 ∅ (fun _ => mkCpu 0 true true None 0 None) (kern s).
Definition machine_run : outcome (unit * kstate) :=
  (scheduler_top 0 ;;; scheduler_turn 0 0 0 ;;; syscall 0 (file_syscalls 0 0 no_devices 0)) machine0.
Lemma machine0_boot : boot machine0.
Proof. split; try done. intros p Hp. cbn. by rewrite upd_ne. Qed.
Lemma machine0_exact : exact machine0.
Proof.
  split.
  - split.
    + intros f x Hx. destruct f as [|[|f]]; cbn in Hx; simplify_eq; by vm_compute.
    + intros j i Hi. destruct j as [|[|[|[|j]]]]; cbn in Hi; simplify_eq; split; by vm_compute.
  - intros p _. cbn. by upd_cases.
  - intros p _ Hd. cbn in *. upd_cases; [|done]. rewrite upd_eq in Hd. destruct Hd. by right; left.
Qed.
Lemma machine_runs : observe machine_run = Some (0, [1; 0], [1; 1; 0; 0], Some false).
Proof. vm_compute. reflexivity. Qed.
Lemma machine_turns : match (scheduler_top 0 ;;; scheduler_turn 0 0 0) machine0 with
  Ok (_, s) => cproc (cpus s 0%nat) = Some 0 /\ pc (procs s 0) = Run | _ => False end.
Proof. vm_compute. done. Qed.
Lemma references_exact_witness : exists s, machine_run = Ok (tt, s) /\ f_ref <$> ftable (snd (kern s)) = [1; 0] /\
  (forall f x, ftable (snd (kern s)) !! f = Some x ->
     f_ref x = fd_refs (procs s) (Z.of_nat f) /\ (f_ref x = 0 -> f_type x = FD_NONE)) /\
  (forall j i, icache (fsys (snd (kern s))) !! j = Some i ->
     i_ref i = cwd_refs (procs s) (Z.of_nat j) + open_refs (ftable (snd (kern s))) (Z.of_nat j) /\ busy i = false) /\
  (forall p, in_tab p -> ~ alive (procs s p) -> bare (procs s p)).
Proof.
  pose proof machine_runs as H. unfold observe in H. destruct machine_run as [[[] s]| | |] eqn:E; [|discriminate H..].
  exists s. split; [done|]. split; [injection H; done|]. unfold machine_run in E.
  apply bind_inv in E as ([] & s1 & E1 & E). apply bind_inv in E as ([] & s2 & E2 & E3).
  apply (references_exact 0 0 no_devices machine0 s no_devices_quiet machine0_boot machine0_exact).
  eapply (rtc_l _ _ s1); [left; exists 0%nat, Top; by apply act_top|].
  assert (Hs1 : scanning 0 s1 0).
  { vm_compute in E1. injection E1 as <-. by split. }
  eapply (rtc_l _ _ s2); [left; exists 0%nat, Turn; by apply (act_turn _ _ _ _ _ 0)|]. apply rtc_once. right. exists 0%nat.
  split; [|exact E3]. pose proof machine_turns as Ht. rewrite (bind_Ok _ _ _ _ _ E1), E2 in Ht. by exists 0.
Defined.
