(* ===== verification/ExecFacts.v ===== *)
(** * ExecFacts: the program finds its arguments (src/src/exec.c) *)
From S2P Require Import Prelude CString Vm VmFacts Fs Pipe File Proc Syscall Sysfile Exec.

(** ** Words in memory *)
Lemma word_bytes_eq v : word_bytes v = [u8 v; u8 (Z.shiftr v 8); u8 (Z.shiftr v 16); u8 (Z.shiftr v 24)].
Proof. done. Qed.
Lemma length_words l : length (words_bytes l) = (4 * length l)%nat.
Proof.
  induction l as [|v l IH]; [done|]. change (words_bytes (v :: l)) with (word_bytes v ++ words_bytes l).
  rewrite length_app, IH. change (length (word_bytes v)) with 4%nat. cbn [length]. lia.
Qed.
Lemma get_word m a v : 0 <= v < 2 ^ 32 -> get32 (put_bytes m a (word_bytes v)) a = v.
Proof.
  intros Hv. rewrite <- (get_put32 m a v Hv) at 2. apply get32_agree. intros x Hx. rewrite word_bytes_eq.
  cbn [put_bytes]. unfold put32, put_word, upd. replace (a + 1 + 1) with (a + 2) by lia. replace (a + 2 + 1) with (a + 3) by lia. done.
Qed.
Lemma get_words l : forall m a k v, l !! k = Some v -> 0 <= v < 2 ^ 32 ->
  get32 (put_bytes m a (words_bytes l)) (a + 4 * Z.of_nat k) = v.
Proof.
  induction l as [|w l IH]; intros m a k v Hk Hv; [done|].
  change (words_bytes (w :: l)) with (word_bytes w ++ words_bytes l). rewrite put_bytes_app.
  change (Z.of_nat (length (word_bytes w))) with 4. destruct k as [|k].
  - injection Hk as ->. rewrite Z.add_0_r. rewrite <- (get_word m a v Hv) at 2. apply get32_agree. intros x Hx.
    rewrite put_bytes_at. destruct (Z.leb_spec (a + 4) x); [lia | done].
  - rewrite <- (IH (put_bytes m a (word_bytes w)) (a + 4) k v Hk Hv). f_equal. lia.
Qed.

(** ** The new stack *)
Section Stack.
Context (kend pgdir size pa : Z) (Hkend : KERNBASE <= kend).
Let base := size - PGSIZE.
Let frame := pa + KERNBASE.

(** The two pages [exec] allocates last: the upper one is at physical address
    [pa], the lower one is not accessible to the program; neither the page
    directory nor their page tables are in the upper page. *)
Definition guarded (m : mem) (va : Z) (user : bool) : Prop := exists t,
  table_at m pgdir (PDX va) = Some t /\ page_ok kend t /\ t <> frame /\
  let e := get32 m (pde_at t (PTX va)) in
  if user then present e = true /\ Z.land e PTE_U <> 0 /\ PTE_ADDR e = pa else Z.land e PTE_U = 0.
Record exec_stack (s : vstate) : Prop := mkStack {
  es_size : 2 * PGSIZE <= size <= KERNBASE /\ size mod PGSIZE = 0;
  es_frame : page_ok kend frame;
  es_dir : page_ok kend pgdir /\ pgdir <> frame;
  es_top : guarded (pm s) base true;
  es_below : guarded (pm s) (base - PGSIZE) false }.

Lemma guarded_agree m m' va user : page_ok kend pgdir /\ pgdir <> frame -> page_ok kend frame ->
  (forall x, ~ in_page frame x -> m' x = m x) -> guarded m va user -> guarded m' va user.
Proof using All.
  intros [Hd Hdf] Hf Hm (t & Ht & Hp & Htf & He). pose proof (PDX_range va) as HD. pose proof (PTX_range va) as HT.
  assert (Hpage : forall p x, page_ok kend p -> p <> frame -> in_page p x -> m' x = m x).
  { intros p x Hpo Hne Hx. apply Hm. intros Hin. apply Hne. eapply page_disjoint; [apply Hpo | apply Hf | done..]. }
  exists t. split.
  - unfold table_at in *. rewrite (entry_agree kend Hkend m m' pgdir (PDX va)); [done | done|]. intros x. by apply Hpage.
  - split; [done|]. split; [done|]. cbv zeta. rewrite (entry_agree kend Hkend m m' t (PTX va)); [done | done|]. intros x. by apply Hpage.
Qed.
Lemma stack_agree s s' : exec_stack s -> (forall x, ~ in_page frame x -> pm s' x = pm s x) -> exec_stack s'.
Proof using All. intros [H1 H2 H3 H4 H5] Hm. split; try done; by eapply guarded_agree. Qed.
Lemma uva2ka_run s va user : page_ok kend pgdir -> guarded (pm s) va user -> page_ok kend frame ->
  uva2ka pgdir va s = Ok (if user then frame else 0, s).
Proof using All.
  intros Hd (t & Ht & Hp & _ & He) Hfr. pose proof (PDX_range va) as HD. pose proof (PTX_range va) as HT.
  unfold uva2ka, walkpgdir. rewrite bind_assoc, (bind_Ok _ _ _ _ _ (load_pde kend Hkend pgdir (PDX va) s Hd HD)).
  unfold table_at in Ht. cbv zeta in Ht. destruct (present (get32 (pm s) (pde_at pgdir (PDX va)))) eqn:Hpr; [|done].
  unfold present in Hpr. rewrite Hpr. injection Ht as Ht.
  erewrite bind_Ok; [|reflexivity]. rewrite Ht. destruct (Z.eqb_spec (t + 4 * PTX va) 0).
  { destruct Hp as (_ & _ & Hr). unfold KERNBASE in Hr. lia. }
  rewrite (bind_Ok _ _ _ _ _ (load_pde kend Hkend t (PTX va) s Hp HT)). cbv zeta in He. set (e := get32 (pm s) (pde_at t (PTX va))) in *.
  destruct user.
  - destruct He as (He1 & He2 & He3). unfold present in He1. destruct (Z.land e PTE_P =? 0); [done|].
    destruct (Z.eqb_spec (Z.land e PTE_U) 0); [done|]. rewrite He3. unfold p2v. fold frame.
    by rewrite (page_u32 frame (proj2 (proj2 Hfr))).
  - rewrite He. by destruct (Z.land e PTE_P =? 0).
Qed.
(** What the program finds at [va], through the page table. *)
Definition seen (m : mem) : mem := fun va => match user_pa m pgdir va with Some a => m a | None => 0 end.
(** The zero-terminated string [a] at [p]. *)
Definition str_at (m : mem) (p : Z) (a : list Z) : Prop :=
  forall i, 0 <= i <= Z.of_nat (length a) -> m (p + i) = nth (Z.to_nat i) a 0.

Section Copies.
Context (s : vstate) (Hs : exec_stack s).
Lemma rounddown va k : 0 <= va -> va < 2 ^ 32 -> k * PGSIZE <= va < (k + 1) * PGSIZE -> PGROUNDDOWN va = k * PGSIZE.
Proof using All. intros H0 H1 Hk. rewrite PGROUNDDOWN_spec by lia. unfold PGSIZE in *. Z.div_mod_to_equations. lia. Qed.
Lemma base_index : base = (size / PGSIZE - 1) * PGSIZE /\ 1 <= size / PGSIZE - 1 /\ size <= 2 ^ 31.
Proof using All.
  destruct (es_size _ Hs) as [H1 H2]. unfold base, PGSIZE, KERNBASE in *. Z.div_mod_to_equations. lia.
Qed.
(** Copying into the stack page. *)
Lemma copyout_in va l : base <= va -> va + Z.of_nat (length l) <= size ->
  copyout pgdir va l s = Ok (0, mkV (put_bytes (pm s) (pa + (va - base)) l) (freelist s)).
Proof using All.
  intros H1 H2. unfold copyout. destruct base_index as (Hb & Hk & Hz). pose proof (es_frame _ Hs) as Hf.
  destruct l as [|x l]; [by destruct s|]. set (L := x :: l) in *.
  assert (HL : 1 <= Z.of_nat (length L)) by (unfold L; cbn [length]; lia).
  destruct (length L) as [|n] eqn:En; [lia|]. cbn [copyout_loop]. unfold L at 1. cbv iota. fold L.
  rewrite (rounddown va (size / PGSIZE - 1)) by (unfold base, PGSIZE in *; lia). rewrite <- Hb.
  rewrite (bind_Ok _ _ _ _ _ (uva2ka_run s base true (proj1 (es_dir _ Hs)) (es_top _ Hs) Hf)).
  destruct (Z.eqb_spec frame 0); [destruct Hf as (_ & _ & Hr); unfold KERNBASE in Hr; lia|].
  rewrite En, Z.min_r by (unfold base in *; lia). rewrite Nat2Z.id, take_ge, drop_ge by lia.
  erewrite bind_Ok; [|reflexivity]. cbn [copyout_loop]. unfold ret. do 4 f_equal.
  destruct Hf as (_ & _ & Hr). unfold v2p. rewrite u32_small; [unfold frame; lia|]. unfold frame, base, KERNBASE, PHYSTOP, PGSIZE in *. lia.
Qed.
(** Copying that starts in the page below. *)
Lemma copyout_below va l : base - PGSIZE <= va < base -> (0 < length l)%nat -> copyout pgdir va l s = Ok (-1, s).
Proof using All.
  intros H1 H2. unfold copyout. destruct base_index as (Hb & Hk & Hz). pose proof (es_frame _ Hs) as Hf.
  destruct l as [|x l]; [cbn in H2; lia|]. cbn [copyout_loop].
  rewrite (rounddown va (size / PGSIZE - 2)) by (unfold base, PGSIZE in *; lia).
  replace ((size / PGSIZE - 2) * PGSIZE) with (base - PGSIZE) by lia.
  by rewrite (bind_Ok _ _ _ _ _ (uva2ka_run s (base - PGSIZE) false (proj1 (es_dir _ Hs)) (es_below _ Hs) Hf)).
Qed.
Lemma seen_page va : base <= va < size -> seen (pm s) va = pm s (pa + (va - base)).
Proof using All.
  intros Hva. destruct base_index as (Hb & Hk & Hz). destruct (es_top _ Hs) as (t & Ht & _ & _ & He). cbv zeta in He.
  destruct He as (He1 & _ & He3).
  assert (Hd : va / 4096 = base / 4096) by (unfold base, PGSIZE in *; Z.div_mod_to_equations; lia).
  assert (HD : PDX va = PDX base) by (rewrite !PDX_spec by (unfold PGSIZE in *; lia); by rewrite Hd).
  assert (HT : PTX va = PTX base) by (rewrite !PTX_spec by (unfold PGSIZE in *; lia); by rewrite Hd).
  unfold seen, user_pa, translate. rewrite HD, HT, Ht. cbv zeta. rewrite He1. cbn [mbind option_bind].
  rewrite He3, u32_small by (unfold PGSIZE in *; lia). do 2 f_equal. unfold base, PGSIZE in *. Z.div_mod_to_equations. lia.
Qed.
Lemma seen_word a : base <= a -> a + 4 <= size -> get32 (seen (pm s)) a = get32 (pm s) (pa + (a - base)).
Proof using All.
  intros H1 H2. unfold get32. rewrite !seen_page by lia.
  replace (pa + (a - base) + 1) with (pa + (a + 1 - base)) by lia. replace (pa + (a - base) + 2) with (pa + (a + 2 - base)) by lia.
  by replace (pa + (a - base) + 3) with (pa + (a + 3 - base)) by lia.
Qed.
End Copies.

(** Bytes the strings take, each rounded up to a multiple of four, and the
    whole stack of the program. *)
Definition room (a : list Z) : Z := 4 * ((Z.of_nat (length a) + 4) / 4).
Definition strings_room (argv : list (list Z)) : Z := fold_right (fun a n => room a + n) 0 argv.
Definition stack_room (argv : list (list Z)) : Z := strings_room argv + 4 * (Z.of_nat (length argv) + 4).
Fixpoint pointers (argv : list (list Z)) (sp : Z) : list Z :=
  match argv with [] => [] | a :: argv' => sp - room a :: pointers argv' (sp - room a) end.
Definition arg_ok (a : list Z) : Prop := Z.of_nat (length a) < PGSIZE.

Lemma strings_room_pos argv : 0 <= strings_room argv.
Proof.
  induction argv as [|a argv IH]; [done|]. cbn [strings_room fold_right]. fold (strings_room argv). unfold room.
  assert (0 <= (Z.of_nat (length a) + 4) / 4) by (apply Z.div_pos; lia). lia.
Qed.
Lemma align4_spec x : 0 <= x < 2 ^ 32 -> align4 x = x - x mod 4.
Proof. intros Hx. by apply (low_mask x 2). Qed.
Lemma align4_room sp a : 0 <= sp < 2 ^ 32 -> sp mod 4 = 0 -> room a <= sp -> align4 (u32 (sp - (Z.of_nat (length a) + 1))) = sp - room a.
Proof.
  intros H1 H2 H3. unfold room in *. rewrite u32_small by (Z.div_mod_to_equations; lia).
  rewrite align4_spec by (Z.div_mod_to_equations; lia). Z.div_mod_to_equations. lia.
Qed.

(** One string is stored at its place, or does not fit. *)
Lemma push_one s sp a : exec_stack s -> arg_ok a -> base <= sp <= size -> sp mod 4 = 0 ->
  let p := sp - room a in
  align4 (u32 (sp - (Z.of_nat (length a) + 1))) = p /\
  copyout pgdir p (a ++ [0]) s =
    if base <=? p then Ok (0, mkV (put_bytes (pm s) (pa + (p - base)) (a ++ [0])) (freelist s)) else Ok (-1, s).
Proof using All.
  intros Hs Ha Hsp Hm p. destruct (base_index s Hs) as (Hb & Hk & Hz). unfold arg_ok in Ha.
  assert (Hr : Z.of_nat (length a) + 1 <= room a <= PGSIZE) by (unfold room, PGSIZE in *; Z.div_mod_to_equations; lia).
  assert (HP : PGSIZE <= base) by (rewrite Hb; unfold PGSIZE in *; lia). split; [apply align4_room; [unfold base in *; lia | done | unfold base in *; lia]|].
  destruct (Z.leb_spec base p).
  - apply copyout_in; [done | done|]. rewrite length_app. cbn [length]. lia.
  - apply copyout_below; [done | lia|]. rewrite length_app. cbn [length]. lia.
Qed.
(** What the loop over the strings leaves: pointers to the strings, or no room. *)
Definition pushed (m0 : mem) (argv : list (list Z)) (sp : Z) (ok : bool) (m : mem) : Prop :=
  (forall x, ~ in_page frame x \/ pa + (sp - base) <= x -> m x = m0 x) /\
  (ok = true -> forall k a, argv !! k = Some a -> exists p, pointers argv sp !! k = Some p /\
     sp - strings_room argv <= p /\ p + Z.of_nat (length a) < size /\ str_at (fun va => m (pa + (va - base))) p a).
Lemma stored_string m a p : str_at (fun va => put_bytes m (pa + (p - base)) (a ++ [0]) (pa + (va - base))) p a.
Proof using All.
  intros i Hi. rewrite put_bytes_at, length_app. cbn [length].
  replace (pa + (p - base) <=? pa + (p + i - base)) with true by lia.
  rewrite (proj2 (Z.ltb_lt (pa + (p + i - base)) (pa + (p - base) + Z.of_nat (length a + 1)))) by lia. cbn [andb].
  replace (pa + (p + i - base) - (pa + (p - base))) with i by lia.
  destruct (decide (i = Z.of_nat (length a))) as [->|].
  - rewrite Nat2Z.id, app_nth2, Nat.sub_diag, (nth_overflow a) by lia. done.
  - by rewrite app_nth1 by lia.
Qed.
Lemma push_strings_run argv : forall s argc sp, exec_stack s -> Forall arg_ok argv -> base <= sp <= size -> sp mod 4 = 0 ->
  argc <= MAXARG -> exists s',
  let ok := (argc + Z.of_nat (length argv) <=? MAXARG) && (base <=? sp - strings_room argv) in
  push_strings pgdir argv argc sp s = Ok (if ok then Some (sp - strings_room argv, pointers argv sp) else None, s') /\
  freelist s' = freelist s /\ pushed (pm s) argv sp ok (pm s').
Proof using All.
  induction argv as [|a argv IH]; intros s argc sp Hs Hok Hsp Hm Hc.
  { exists s. cbn. rewrite Z.add_0_r, Z.sub_0_r. replace (argc <=? MAXARG) with true by lia.
    replace (base <=? sp) with true by lia. split_and!; [done..|]. split; [done|]. intros _ k a Hk. done. }
  apply Forall_cons in Hok as [Ha Hok]. cbn [push_strings length]. rewrite Nat2Z.inj_succ.
  destruct (push_one s sp a Hs Ha Hsp Hm) as [Hal Hco]. rewrite Hal. cbv zeta in *. set (p := sp - room a) in *.
  assert (Hr : Z.of_nat (length a) + 1 <= room a) by (unfold room; Z.div_mod_to_equations; lia).
  assert (Hp4 : p mod 4 = 0) by (unfold p, room; Z.div_mod_to_equations; lia).
  pose proof (strings_room_pos argv) as Hpos.
  assert (Hroom : sp - strings_room (a :: argv) = p - strings_room argv) by (unfold p; cbn; fold (strings_room argv); lia).
  rewrite Hroom. destruct (Z.geb_spec argc MAXARG) as [Hge|Hlt].
  { exists s. rewrite (proj2 (Z.leb_gt (argc + Z.succ (Z.of_nat (length argv))) MAXARG)) by lia. by split_and!; [| |split]. }
  destruct (Z.leb_spec base p) as [Hb|Hb]; rewrite (bind_Ok _ _ _ _ _ Hco).
  2: { exists s. cbn [Z.ltb Z.compare]. rewrite (proj2 (Z.leb_gt base (p - strings_room argv))), andb_false_r by lia.
       by split_and!; [| |split]. }
  set (s1 := mkV _ _). cbn [Z.ltb Z.compare].
  assert (Hs1 : forall x, ~ in_page frame x \/ pa + (sp - base) <= x -> pm s1 x = pm s x).
  { intros x Hx. cbn. rewrite put_bytes_at, length_app. cbn [length]. unfold in_page, frame, base in *.
    destruct (Z.leb_spec (pa + (p - (size - PGSIZE))) x); [|done].
    destruct (Z.ltb_spec x (pa + (p - (size - PGSIZE)) + Z.of_nat (length a + 1))); [|done]. lia. }
  destruct (IH s1 (argc + 1) p) as (s2 & Hrun & Hfree & Hfr & Hstr); try done; try lia.
  { eapply stack_agree; [done|]. auto. }
  cbv zeta in *. replace (argc + 1 + Z.of_nat (length argv)) with (argc + Z.succ (Z.of_nat (length argv))) in * by lia.
  exists s2. rewrite (bind_Ok _ _ _ _ _ Hrun). set (ok := andb _ _) in *. split; [by destruct ok|]. split; [done|].
  split; [intros x Hx; rewrite Hfr by (destruct Hx; [by left | right; lia]); by apply Hs1|]. intros Hok1 [|k] b Hk; cbn in Hk.
  - injection Hk as <-. exists p. cbn [pointers]. split; [done|]. split_and!; [lia | lia|].
    intros i Hi. rewrite Hfr by (right; lia). by apply (stored_string (pm s) a p).
  - cbn [pointers]. fold p. rewrite Hroom. by apply Hstr.
Qed.

Lemma length_pointers argv : forall sp, length (pointers argv sp) = length argv.
Proof. induction argv as [|a argv IH]; intros sp; [done|]. cbn [pointers length]. by rewrite IH. Qed.

(** What [main] finds: a return address, [argc], [argv] and the strings. *)
Definition main_args (m : mem) (sp : Z) (argv : list (list Z)) : Prop :=
  let argc := Z.of_nat (length argv) in
  get32 m sp = 0xFFFFFFFF /\ get32 m (sp + 4) = argc /\ get32 m (sp + 8) = sp + 12 /\
  (forall k a, argv !! k = Some a -> str_at m (get32 m (sp + 12 + 4 * Z.of_nat k)) a) /\
  get32 m (sp + 12 + 4 * argc) = 0.

(** The words of [ustack], copied below the strings. *)
Lemma main_args_stored s s1 argv l : exec_stack s -> exec_stack s1 -> base <= size - stack_room argv ->
  pushed (pm s) argv size true (pm s1) -> (length argv <= 32)%nat ->
  let sp := size - stack_room argv in
  l = [0xFFFFFFFF; Z.of_nat (length argv); sp + 12] ++ pointers argv size ++ [0] ->
  main_args (seen (put_bytes (pm s1) (pa + (sp - base)) (words_bytes l))) sp argv.
Proof using All.
  intros Hs Hs1 Hfit [_ Hstr] Hargc sp Hl. specialize (Hstr eq_refl).
  set (m := put_bytes _ _ _). pose proof (strings_room_pos argv) as Hpos. destruct (base_index s Hs) as (Hb & Hk & Hz).
  assert (Hlen : length l = (length argv + 4)%nat) by (rewrite Hl, !length_app, length_pointers; cbn [length]; lia).
  assert (Hs2 : exec_stack (mkV m 0)).
  { eapply stack_agree; [exact Hs1|]. intros x Hx. cbn. unfold m. rewrite put_bytes_at, length_words, Hlen.
    unfold in_page, frame, base in *. destruct (Z.leb_spec (pa + (sp - (size - PGSIZE))) x); [|done].
    destruct (Z.ltb_spec x (pa + (sp - (size - PGSIZE)) + Z.of_nat (4 * (length argv + 4)))); [|done].
    unfold sp, stack_room in *. lia. }
  assert (Hw : forall k v, l !! k = Some v -> 0 <= v < 2 ^ 32 -> get32 (seen m) (sp + 4 * Z.of_nat k) = v).
  { intros k v Hkv Hv. pose proof (lookup_lt_Some _ _ _ Hkv). change m with (pm (mkV m 0)).
    rewrite seen_word by (try done; unfold sp, stack_room in *; lia). cbn [pm].
    replace (pa + (sp + 4 * Z.of_nat k - base)) with (pa + (sp - base) + 4 * Z.of_nat k) by lia. by apply get_words. }
  assert (Hsp : 0 <= sp /\ sp + 12 < 2 ^ 32) by (unfold sp, stack_room, base, PGSIZE in *; lia).
  split_and!.
  - rewrite <- (Z.add_0_r sp) at 1. by apply (Hw 0%nat); [subst l|].
  - apply (Hw 1%nat); [by subst l | lia].
  - apply (Hw 2%nat); [by subst l | lia].
  - intros k a Hka. destruct (Hstr k a Hka) as (p & Hp & Hlo & Hhi & Hst).
    replace (sp + 12 + 4 * Z.of_nat k) with (sp + 4 * Z.of_nat (3 + k)) by lia. rewrite (Hw (3 + k)%nat p).
    + intros i Hi. change m with (pm (mkV m 0)). rewrite seen_page by (try done; unfold sp, stack_room in *; lia). cbn [pm].
      unfold m. rewrite put_bytes_at, length_words, Hlen. rewrite (proj2 (Z.ltb_ge _ _)) by (unfold sp, stack_room in *; lia).
      rewrite andb_false_r. by apply Hst.
    + subst l. change ((pointers argv size ++ [0]) !! k = Some p). by rewrite lookup_app_l by (apply lookup_lt_Some in Hp; done).
    + unfold sp, stack_room, base, PGSIZE in *. lia.
  - replace (sp + 12 + 4 * Z.of_nat (length argv)) with (sp + 4 * Z.of_nat (3 + length argv)) by lia.
    apply Hw; [|lia]. subst l. change ((pointers argv size ++ [0]) !! length argv = Some 0).
    by rewrite lookup_app_r, length_pointers, Nat.sub_diag by (rewrite length_pointers; lia).
Qed.

(** C17 A program finds its arguments.  On the stack that [exec] prepares (a
    page of the program above an inaccessible one, at most 2 GB), pushing the
    arguments [argv], each a string shorter than a page, always returns and
    changes no memory outside the stack page.  It succeeds exactly when there
    are at most MAXARG arguments and their strings, rounded up to words, fit
    the page together with [argc], [argv] and the pointers; then the program,
    through its page table, finds a return address, [argc], a pointer to the
    array that follows, in it pointers to the strings in order, each
    zero-terminated, and a null pointer after the last. *)
Theorem exec_stack_roundtrip s argv : exec_stack s -> Forall arg_ok argv -> exists s',
  push_args pgdir argv size s =
    Ok (if (Z.of_nat (length argv) <=? MAXARG) && (stack_room argv <=? PGSIZE) then Some (size - stack_room argv) else None, s') /\
  freelist s' = freelist s /\
  (forall x, ~ in_page frame x -> pm s' x = pm s x) /\
  (Z.of_nat (length argv) <= MAXARG -> stack_room argv <= PGSIZE -> main_args (seen (pm s')) (size - stack_room argv) argv).
Proof using All.
  intros Hs Hok. destruct (base_index s Hs) as (Hb & Hk & Hz). pose proof (strings_room_pos argv) as Hpos.
  assert (Hm : size mod 4 = 0) by (destruct (es_size _ Hs) as [_ Hm]; unfold PGSIZE in Hm; Z.div_mod_to_equations; lia).
  destruct (push_strings_run argv s 0 size Hs Hok ltac:(unfold base, PGSIZE; lia) Hm ltac:(done)) as (s1 & Hrun & Hfl & Hp).
  cbv zeta in Hrun, Hp. rewrite Z.add_0_l in *. unfold push_args. rewrite (bind_Ok _ _ _ _ _ Hrun).
  assert (Hs1 : exec_stack s1) by (eapply stack_agree; [exact Hs | intros; apply (proj1 Hp); by left]).
  destruct (Z.leb_spec (Z.of_nat (length argv)) MAXARG) as [Hc|Hc].
  2: { exists s1. split_and!; [done | done | intros; apply (proj1 Hp); by left | lia]. }
  assert (HP : PGSIZE <= base) by (rewrite Hb; unfold PGSIZE in *; lia). unfold MAXARG in Hc.
  destruct (Z.leb_spec base (size - strings_room argv)) as [Hr|Hr]; cbn [andb] in *.
  2: { exists s1. rewrite (proj2 (Z.leb_gt (stack_room argv) PGSIZE)) by (unfold stack_room, base in *; lia).
       split_and!; [done | done | intros; apply (proj1 Hp); by left | unfold stack_room, base in *; lia]. }
  rewrite !u32_small by (unfold PGSIZE, base in *; lia). set (l := _ ++ _ ++ [0]).
  replace (size - strings_room argv - (3 + Z.of_nat (length argv) + 1) * 4) with (size - stack_room argv) by (unfold stack_room; lia).
  assert (Hl : l = [0xFFFFFFFF; Z.of_nat (length argv); size - stack_room argv + 12] ++ pointers argv size ++ [0]).
  { unfold l. by replace (size - strings_room argv - (Z.of_nat (length argv) + 1) * 4) with (size - stack_room argv + 12)
      by (unfold stack_room; lia). }
  assert (Hlen : length (words_bytes l) = (4 * (length argv + 4))%nat).
  { rewrite length_words, Hl, !length_app, length_pointers. cbn [length]. lia. }
  destruct (Z.leb_spec (stack_room argv) PGSIZE) as [Hf|Hf].
  - pose proof (copyout_in s1 Hs1 (size - stack_room argv) (words_bytes l)) as Hco. rewrite Hlen in Hco.
    rewrite (bind_Ok _ _ _ _ _ (Hco ltac:(unfold base; lia) ltac:(unfold stack_room; lia))).
    eexists. split; [reflexivity|]. split; [done|]. split.
    + intros x Hx. cbn [pm]. rewrite <- (proj1 Hp x) by (by left). rewrite put_bytes_at, Hlen.
      unfold in_page, frame, base in *. destruct (Z.leb_spec (pa + (size - stack_room argv - (size - PGSIZE))) x); [|done].
      rewrite (proj2 (Z.ltb_ge _ _)) by (unfold stack_room in *; lia). done.
    + intros _ _. cbn [pm]. apply (main_args_stored s s1 argv l Hs Hs1); [unfold base; lia | exact Hp | lia | exact Hl].
  - pose proof (copyout_below s1 Hs1 (size - stack_room argv) (words_bytes l)) as Hco. rewrite Hlen in Hco.
    rewrite (bind_Ok _ _ _ _ _ (Hco ltac:(unfold stack_room, base, PGSIZE in *; lia) ltac:(lia))).
    exists s1. split_and!; [done | done | intros; apply (proj1 Hp); by left | lia].
Qed.
End Stack.

(** ** Witness: a program of two pages, called with [cat] and [README] *)
Definition stack_mem : mem :=
  put32 (put32 (put32 (fun _ => 0) (v2p (page_w 3)) (v2p (page_w 4) + 7)) (v2p (page_w 4)) (v2p (page_w 6) + 3))
    (v2p (page_w 4) + 4) (v2p (page_w 5) + 7).
Definition two_pages : vstate := mkV stack_mem 0.
Definition cat_args : list (list Z) := [[99; 97; 116]; [82; 69; 65; 68; 77; 69]].
Lemma two_pages_ok : exec_stack end_w (page_w 3) (2 * PGSIZE) (v2p (page_w 5)) two_pages.
Proof.
  split; [done | done | done | |].
  - exists (page_w 4). split_and!; try done; by vm_compute.
  - exists (page_w 4). split_and!; try done; by vm_compute.
Qed.
Lemma exec_stack_roundtrip_witness : exists s', push_args (page_w 3) cat_args (2 * PGSIZE) two_pages = Ok (Some 8156, s') /\
  main_args (seen (page_w 3) (pm s')) 8156 cat_args.
Proof.
  destruct (exec_stack_roundtrip end_w (page_w 3) (2 * PGSIZE) (v2p (page_w 5)) ltac:(done) two_pages cat_args two_pages_ok
    ltac:(by repeat constructor)) as (s' & Hrun & _ & _ & Hm).
  exists s'. split; [exact Hrun | by apply Hm].
Defined.
