(* ===== verification/Trap.v ===== *)
(** * Trap: interrupts, traps and the clock (src/src/trap.c, sys_sleep and
    sys_uptime of src/src/sysproc.c)

    The state is that of the processes (Proc) with the clock [ticks].  The
    interrupt handlers of the devices are arguments, as is the table of system
    calls.  A call that ends in the scheduler ([exit], [yield], [sleep]) is
    over for its CPU here ([Exits], [Yields], [Gone]); what follows when the
    process runs again, on any CPU, is a definition of its own, [sleep_resumed]
    for [sys_sleep] and [trap_rest] for [trap]; [trap_returns] puts [trap] and
    its rest together.  Acknowledging the interrupt controller and the
    messages to the console are left out. *)
From S2P Require Import Prelude CString Vm VmFacts Fs Pipe File Proc ProcTable ProcFacts Syscall Sysfile Exec InodeRefs SysfileRefs SysfileCalls SysfileTxn SysfileWitness.

Definition T_SYSCALL : Z := 64.
Definition T_IRQ0 : Z := 32.
Definition IRQ_TIMER : Z := 0.
Definition IRQ_KBD : Z := 1.
Definition IRQ_COM1 : Z := 4.
Definition IRQ_MOUSE : Z := 12.
Definition IRQ_IDE : Z := 14.
Definition IRQ_SPURIOUS : Z := 31.
Definition DPL_USER : Z := 3.

Record tstate := mkT { kst : kstate; ticks : Z }.
Definition T : Type -> Type := M tstate.
Definition in_proc {A} : P A -> T A := zoom kst (fun k s => mkT k (ticks s)).

(** Whether the code goes on, or its CPU is back in the scheduler. *)
Inductive flow (A : Type) := Back (a : A) | Gone.
Arguments Back {A} a.
Arguments Gone {A}.

(** How [trap] leaves its CPU: back to where the trap came from, for good
    ([exit]), or by [yield], to go on with [trap_rest] later. *)
Inductive leave := Returns | Exits | Yields.

Section Traps.
(** The addresses of [tickslock] and [ticks], the device handlers and the
    system calls. *)
Context (kend : Z) (c : nat) (tickslock ticks_addr : Z).
Context (ideintr kbdintr uartintr : T unit) (mouseint : Z -> T unit) (syscalls : Z -> option (P Z)).
Definition ticks_chan : option channel := Some (Ch_addr ticks_addr).

(** ** The clock *)

(** Lines 50-55. *)
Definition timer_tick : T unit :=
  if decide (c = 0%nat) then
    in_proc (acquire c tickslock) ;;;
    modify (fun s => mkT (kst s) (u32 (ticks s + 1))) ;;;
    in_proc (wakeup c ticks_chan) ;;;
    in_proc (release c tickslock)
  else ret tt.
(** [sys_sleep] from the test of its loop on (lines 69-77), with the lock
    held.  The comparison is between unsigned numbers. *)
Definition sleep_turn (n ticks0 : Z) : T (flow Z) :=
  t <- gets ticks ;;
  if u32 (t - ticks0) <? u32 n then
    x <- in_proc (current c) ;;
    if truthy (killed x) then in_proc (release c tickslock) ;;; ret (Back (-1))
    else in_proc (sleep c ticks_chan tickslock) ;;; ret Gone
  else in_proc (release c tickslock) ;;; ret (Back 0).
Definition sys_sleep : T (flow Z) :=
  r <- in_proc (argint c 0) ;;
  match r with
  | None => ret (Back (-1))
  | Some n =>
      in_proc (acquire c tickslock) ;;;
      ticks0 <- gets ticks ;;
      sleep_turn n ticks0
  end.
(** [sys_sleep] when its process runs again: [sleep] takes the lock back and
    the loop goes on. *)
Definition sleep_resumed (n ticks0 : Z) : T (flow Z) :=
  in_proc (reacquire c tickslock) ;;; sleep_turn n ticks0.
Definition sys_uptime : T Z :=
  in_proc (acquire c tickslock) ;;;
  xticks <- gets ticks ;;
  in_proc (release c tickslock) ;;;
  ret (s32 xticks).

(** ** Traps *)

(** [if(proc && proc->killed && (tf->cs&3) == DPL_USER) exit();] *)
Definition exit_if_killed (tf : trapframe) : T leave :=
  p <- in_proc (the_cpu c) ;;
  match cproc p with
  | None => ret Returns
  | Some me =>
      x <- in_proc (the_proc me) ;;
      if truthy (killed x) && (Z.land (tf_cs tf) 3 =? DPL_USER) then in_proc (exit kend c) ;;; ret Exits else ret Returns
  end.
(** [if(proc->killed) exit();] *)
Definition exit_killed_call : T leave :=
  x <- in_proc (current c) ;;
  if truthy (killed x) then in_proc (exit kend c) ;;; ret Exits else ret Returns.
(** The switch (lines 49-100). *)
Definition dispatch (trapno : Z) (tf : trapframe) : T unit :=
  if trapno =? T_IRQ0 + IRQ_TIMER then timer_tick
  else if trapno =? T_IRQ0 + IRQ_IDE then ideintr
  else if trapno =? T_IRQ0 + IRQ_IDE + 1 then ret tt
  else if trapno =? T_IRQ0 + IRQ_KBD then kbdintr
  else if trapno =? T_IRQ0 + IRQ_COM1 then uartintr
  else if trapno =? T_IRQ0 + IRQ_MOUSE then (t <- gets ticks ;; mouseint t)
  else if (trapno =? T_IRQ0 + 7) || (trapno =? T_IRQ0 + IRQ_SPURIOUS) then ret tt
  else
    p <- in_proc (the_cpu c) ;;
    match cproc p with
    | None => panic "trap"
    | Some me =>
        if Z.land (tf_cs tf) 3 =? 0 then panic "trap"
        else in_proc (on_proc me (set_killed 1))
    end.
(** The check after [yield] (lines 113-115): what is left of [trap] when its
    process runs again. *)
Definition trap_rest (tf : trapframe) : T leave := exit_if_killed tf.
(** Lines 102-115. *)
Definition trap_end (trapno : Z) (tf : trapframe) : T leave :=
  r <- exit_if_killed tf ;;
  match r with
  | Returns =>
      p <- in_proc (the_cpu c) ;;
      match cproc p with
      | None => trap_rest tf
      | Some me =>
          x <- in_proc (the_proc me) ;;
          if is_state RUNNING x && (trapno =? T_IRQ0 + IRQ_TIMER) then in_proc (yield c) ;;; ret Yields
          else trap_rest tf
      end
  | _ => ret r
  end.
Definition trap (trapno : Z) (tf : trapframe) : T leave :=
  if trapno =? T_SYSCALL then
    r <- exit_killed_call ;;
    match r with
    | Returns =>
        me <- in_proc (myproc c) ;;
        in_proc (on_proc me (set_tf tf)) ;;;
        in_proc (syscall c syscalls) ;;;
        exit_killed_call
    | _ => ret r
    end
  else
    dispatch trapno tf ;;;
    trap_end trapno tf.
End Traps.

(** * Killed processes and the clock *)
Lemma in_proc_inv {A} (m : P A) s a s' : in_proc m s = Ok (a, s') -> m (kst s) = Ok (a, kst s') /\ ticks s' = ticks s.
Proof. unfold in_proc, zoom. destruct (m (kst s)) as [[b k]| | |]; try done. by intros [= <- <-]. Qed.
Ltac tinv :=
  repeat match goal with
  | H : M_bind _ _ _ = Ok _ |- _ => apply bind_inv in H; destruct H as (? & ? & ? & H)
  | H : gets _ _ = Ok (_, _) |- _ => apply gets_inv in H; destruct H as [? ->]; subst
  | H : ret _ _ = Ok (_, _) |- _ => apply ret_inv in H; destruct H as [? ->]; subst
  | H : modify _ _ = Ok (_, _) |- _ => apply modify_inv in H; subst
  | H : in_proc _ _ = Ok (_, _) |- _ => apply in_proc_inv in H; destruct H as [? ?]
  | H : panic _ _ = Ok _ |- _ => discriminate H
  | H : Back _ = Back _ |- _ => injection H as H; subst
  | H : Returns = _ |- _ => discriminate H
  | H : Back _ = Gone |- _ => discriminate H
  | H : Gone = Back _ |- _ => discriminate H
  | u : unit |- _ => destruct u
  end.
Section Traps.
Context (kend : Z) (c : nat) (tickslock ticks_addr : Z).
Context (ideintr kbdintr uartintr : T unit) (mouseint : Z -> T unit) (syscalls : Z -> option (P Z)).

(** The whole of [trap], from CPU [c] in state [s]: it returns at once, or,
    when it gave up the CPU, from the CPU [c'] on which its process [me] runs
    again, in whatever state [s2] the others left the machine. *)
Inductive trap_returns (trapno : Z) (tf : trapframe) (s : tstate) : nat -> tstate -> Prop :=
| returns_at_once s' :
    trap kend c tickslock ticks_addr ideintr kbdintr uartintr mouseint syscalls trapno tf s = Ok (Returns, s') ->
    trap_returns trapno tf s c s'
| returns_later me s1 c' s2 s' :
    trap kend c tickslock ticks_addr ideintr kbdintr uartintr mouseint syscalls trapno tf s = Ok (Yields, s1) ->
    cproc (cpus (kst s) c) = Some me -> cproc (cpus (kst s2) c') = Some me ->
    trap_rest kend c' tf s2 = Ok (Returns, s') ->
    trap_returns trapno tf s c' s'.

(** The process of CPU [d] is not killed. *)
Definition spared (d : nat) (s : tstate) : Prop :=
  forall me, cproc (cpus (kst s) d) = Some me -> killed (procs (kst s) me) = 0.
Lemma gets_in_proc {A} (f : kstate -> A) s : in_proc (gets f) s = Ok (f (kst s), s).
Proof. by destruct s. Qed.
Lemma exit_if_killed_back d tf s s' : exit_if_killed kend d tf s = Ok (Returns, s') -> Z.land (tf_cs tf) 3 = DPL_USER ->
  s' = s /\ spared d s.
Proof.
  unfold exit_if_killed, the_cpu, the_proc. intros H Hcs. rewrite (bind_Ok _ _ _ _ _ (gets_in_proc _ s)) in H. cbv beta in H.
  unfold spared. destruct (cproc (cpus (kst s) d)) as [me|]; [|by tinv].
  rewrite (bind_Ok _ _ _ _ _ (gets_in_proc _ s)) in H. cbv beta in H. rewrite Hcs, Z.eqb_refl, andb_true_r in H.
  unfold truthy in H. destruct (Z.eqb_spec (killed (procs (kst s) me)) 0) as [E|]; cbn [negb] in H; tinv.
  split; [done|]. by intros ? [= <-].
Qed.
Lemma current_is d k x k' : current d k = Ok (x, k') -> k' = k /\ exists me, cproc (cpus k d) = Some me /\ x = procs k me.
Proof.
  unfold current. intros H. apply bind_inv in H as (me & k1 & R & H). apply myproc_run in R as [Hme ->].
  injection H as <- <-. split; [done|]. by exists me.
Qed.
Lemma exit_killed_call_back s s' : exit_killed_call kend c s = Ok (Returns, s') -> spared c s'.
Proof.
  unfold exit_killed_call. intros H. apply bind_inv in H as (x & s1 & R & H). apply in_proc_inv in R as [R _].
  apply current_is in R as (E & me & Hme & ->).
  unfold truthy in H. destruct (Z.eqb_spec (killed (procs (kst s) me)) 0) as [Ek|]; cbn [negb] in H; tinv.
  intros me'. rewrite E, Hme. by intros [= <-].
Qed.
Lemma trap_end_back trapno tf s s' : trap_end kend c trapno tf s = Ok (Returns, s') -> Z.land (tf_cs tf) 3 = DPL_USER ->
  spared c s'.
Proof.
  intros H Hm. unfold trap_end in H. apply bind_inv in H as ([] & s0 & R0 & H); [|by tinv..].
  unfold the_cpu, the_proc in H. apply bind_inv in H as (p & s1 & R & H). rewrite gets_in_proc in R. injection R as <- <-.
  destruct (cproc _) eqn:Ec.
  - apply bind_inv in H as (x & s2 & R & H). rewrite gets_in_proc in R. injection R as <- <-.
    destruct (_ && _); [by tinv|]. by apply exit_if_killed_back in H as [-> Hsp].
  - by apply exit_if_killed_back in H as [-> Hsp].
Qed.
(** The only trap that yields is the clock's. *)
Lemma trap_yields trapno tf s s' :
  trap kend c tickslock ticks_addr ideintr kbdintr uartintr mouseint syscalls trapno tf s = Ok (Yields, s') ->
  trapno = T_IRQ0 + IRQ_TIMER.
Proof.
  assert (Hno : forall t s1 s2, exit_if_killed kend c t s1 = Ok (Yields, s2) -> False).
  { intros t s1 s2 H. unfold exit_if_killed in H. tinv. destruct (cproc _); tinv; [|done]. destruct (_ && _); by tinv. }
  assert (Hno' : forall s1 s2, exit_killed_call kend c s1 = Ok (Yields, s2) -> False).
  { intros s1 s2 H. unfold exit_killed_call in H. tinv. destruct (truthy _); by tinv. }
  unfold trap. intros H. destruct (Z.eqb_spec trapno T_SYSCALL) as [->|_].
  - apply bind_inv in H as ([] & s1 & R & H); [|by tinv|by apply Hno' in R]. tinv. by apply Hno' in H.
  - apply bind_inv in H as ([] & s1 & _ & H). unfold trap_end, trap_rest in H.
    apply bind_inv in H as ([] & s2 & R & H); [|by tinv|by apply Hno in R].
    apply bind_inv in H as (p & s3 & _ & H). destruct (cproc p); [|by apply Hno in H].
    apply bind_inv in H as (x & s4 & _ & H). destruct (Z.eqb_spec trapno (T_IRQ0 + IRQ_TIMER)); [done|].
    rewrite andb_false_r in H. by apply Hno in H.
Qed.

(** C38 A killed process does not return to user mode.  Whatever the trap (a
    system call, a device, the clock, a fault) and whatever the system call and
    the device handlers do, when [trap] returns to a frame of user mode, at
    once, or after it gave up the CPU and its process was scheduled again, on
    any CPU and with any changes by others in between, the process that returns
    is not killed.  Only the clock makes a process give up its CPU.  A process
    that faults in user mode does not return: it is killed and exits. *)
Theorem killed_leaves_user_mode trapno tf s :
  (forall d s', trap_returns trapno tf s d s' ->
     trapno = T_SYSCALL \/ Z.land (tf_cs tf) 3 = DPL_USER -> spared d s') /\
  (forall s', trap kend c tickslock ticks_addr ideintr kbdintr uartintr mouseint syscalls trapno tf s = Ok (Yields, s') ->
     trapno = T_IRQ0 + IRQ_TIMER) /\
  (forall me, 0 <= trapno < T_IRQ0 -> cproc (cpus (kst s) c) = Some me -> Z.land (tf_cs tf) 3 = DPL_USER ->
     trap kend c tickslock ticks_addr ideintr kbdintr uartintr mouseint syscalls trapno tf s =
     (in_proc (on_proc me (set_killed 1)) ;;; in_proc (exit kend c) ;;; ret Exits) s).
Proof.
  split_and!.
  - intros d s' [s'' H|me s1 c' s2 s'' H _ _ Hrest] Hm.
    + unfold trap in H. destruct (Z.eqb_spec trapno T_SYSCALL) as [->|Hs].
      * apply bind_inv in H as ([] & s1 & R & H); [|by tinv..]. tinv. by eapply exit_killed_call_back.
      * destruct Hm as [|Hm]; [done|]. apply bind_inv in H as ([] & s1 & _ & H). by eapply trap_end_back.
    + apply trap_yields in H as ->. destruct Hm as [Hm|Hm]; [done|].
      by apply exit_if_killed_back in Hrest as [-> Hsp].
  - apply trap_yields.
  - intros me Ht Hc Hm. unfold T_IRQ0 in Ht. unfold trap, dispatch, T_SYSCALL, T_IRQ0, IRQ_TIMER, IRQ_IDE, IRQ_KBD, IRQ_COM1, IRQ_MOUSE, IRQ_SPURIOUS.
    repeat match goal with |- context [trapno =? ?k] => rewrite (proj2 (Z.eqb_neq trapno k)) by lia end. cbn [orb].
    unfold the_cpu. rewrite bind_assoc, (bind_Ok _ _ _ _ _ (gets_in_proc _ s)). cbv beta. rewrite Hc, Hm.
    erewrite bind_Ok; [|reflexivity]. erewrite bind_Ok; [|reflexivity]. unfold trap_end, exit_if_killed, the_cpu, the_proc.
    rewrite bind_assoc, (bind_Ok _ _ _ _ _ (gets_in_proc _ _)). cbn [kst set_proc set_procs cpus]. rewrite Hc.
    rewrite bind_assoc, (bind_Ok _ _ _ _ _ (gets_in_proc _ _)). cbn [kst set_proc set_procs procs]. rewrite upd_eq, Hm. cbn [killed set_killed].
    change (truthy 1 && (DPL_USER =? DPL_USER)) with true. cbv iota. rewrite bind_assoc. apply bind_ext. intros [] s1 _. reflexivity.
Qed.
End Traps.

(** ** The clock *)
Section Clock.
Context (tickslock ticks_addr : Z) (Hlk : tickslock <> ptable_lock).
(** Process [p] sleeps on the clock. *)
Definition on_clock (k : kstate) (p : Z) : Prop :=
  in_tab p /\ state (procs k p) = SLEEPING /\ chan (procs k p) = ticks_chan ticks_addr.
Lemma acquire_same c lk k k' : acquire c lk k = Ok (tt, k') -> procs k' = procs k /\ cproc (cpus k' c) = cproc (cpus k c).
Proof.
  intros (_ & _ & H & _ & Hl & _)%acquire_inv. split; [done|]. specialize (Hl c). unfold loc in Hl. by injection Hl.
Qed.
Lemma release_same c lk k k' : release c lk k = Ok (tt, k') -> procs k' = procs k.
Proof. by intros (_ & _ & H & _)%release_inv. Qed.
(** After a tick nobody sleeps on the clock, and nothing else falls asleep. *)
Lemma timer_tick_inv s s' : timer_tick 0 tickslock ticks_addr s = Ok (tt, s') ->
  ticks s' = u32 (ticks s + 1) /\ forall p, ~ on_clock (kst s') p.
Proof.
  unfold timer_tick, wakeup. rewrite decide_True by done. intros H. tinv. cbn [kst ticks] in *. pinv.
  repeat match goal with R : acquire _ _ _ = _ |- _ => apply acquire_same in R as [? _] | R : release _ _ _ = _ |- _ => apply release_same in R end.
  match goal with R : wakeup1 _ _ = _ |- _ => apply wakeup1_inv in R as (_ & _ & Hw) end.
  split; [congruence|]. intros p (Hp & Hs & Hch). eapply Hw; [exact Hp| |]; congruence.
Qed.
(** The turn of [sys_sleep] on CPU [c]. *)
Lemma sleep_turn_inv c n t0 s r s' me : cproc (cpus (kst s) c) = Some me -> sleep_turn c tickslock ticks_addr n t0 s = Ok (r, s') ->
  ticks s' = ticks s /\
  match r with
  | Back z => procs (kst s') = procs (kst s) /\
      (z = 0 /\ u32 n <= u32 (ticks s - t0) \/ z = -1 /\ u32 (ticks s - t0) < u32 n /\ killed (procs (kst s) me) <> 0)
  | Gone => u32 (ticks s - t0) < u32 n /\ forall p, p <> me -> on_clock (kst s') p -> on_clock (kst s) p
  end.
Proof.
  intros Hme H. unfold sleep_turn in H. tinv. destruct (Z.ltb_spec (u32 (ticks s - t0)) (u32 n)) as [Hlt|Hge].
  - apply bind_inv in H as (x & s1 & R & H). apply in_proc_inv in R as [R Ht]. apply current_is in R as (Ek & me' & Hme' & ->).
    rewrite Hme in Hme'. injection Hme' as <-. unfold truthy in H.
    destruct (Z.eqb_spec (killed (procs (kst s) me)) 0) as [Hk|Hk]; cbn [negb] in H; tinv.
    + match goal with R : sleep _ _ _ _ = _ |- _ => apply (sleep_inv c) in R as (me' & Hme' & _ & Htab); [|done] end.
      rewrite Ek, Hme in Hme'. injection Hme' as <-. split; [congruence|]. split; [done|]. intros p Hp (H1 & H2 & H3).
      pose proof (view_fields _ _ (Htab p)) as Hv. rewrite upd_ne in Hv by done. rewrite Ek in Hv.
      destruct Hv as (V1 & _ & _ & V4 & _). split; [done|]. split; congruence.
    + match goal with R : release _ _ _ = _ |- _ => apply release_same in R end. split; [congruence|]. split; [congruence|]. by right.
  - tinv. match goal with R : release _ _ _ = _ |- _ => apply release_same in R end. split; [done|]. split; [done|]. by left.
Qed.

(** ** Processes in [sleep]

    [call p] is the argument and the starting time of the [sys_sleep] that
    process [p] is in.  The rest of the kernel puts no process to sleep on the
    clock and does not set it. *)
Definition runs (k : kstate) (c : nat) (me : Z) : Prop := cproc (cpus k c) = Some me /\ state (procs k me) = RUNNING.
Record clock := mkClock { now : tstate; call : Z -> option (Z * Z) }.
Inductive cstep : clock -> clock -> Prop :=
| c_tick t' s : timer_tick 0 tickslock ticks_addr (now s) = Ok (tt, t') -> cstep s (mkClock t' (call s))
| c_sleep c me n k r t' s : runs (kst (now s)) c me -> argint c 0 (kst (now s)) = Ok (Some n, k) ->
    sys_sleep c tickslock ticks_addr (now s) = Ok (r, t') ->
    cstep s (mkClock t' (upd (call s) me (match r with Gone => Some (n, ticks (now s)) | Back _ => None end)))
| c_resume c me n t0 r t' s : runs (kst (now s)) c me -> call s me = Some (n, t0) ->
    sleep_resumed c tickslock ticks_addr n t0 (now s) = Ok (r, t') ->
    cstep s (mkClock t' (upd (call s) me (match r with Gone => Some (n, t0) | Back _ => None end)))
| c_other t' s : ticks t' = ticks (now s) -> (forall p, on_clock (kst t') p -> on_clock (kst (now s)) p) -> cstep s (mkClock t' (call s)).

(** Everybody asleep has time left. *)
Definition time_left (s : clock) : Prop := forall p, on_clock (kst (now s)) p -> exists n t0,
  call s p = Some (n, t0) /\ u32 (ticks (now s) - t0) < u32 n.
Lemma on_clock_procs k k' p : procs k' = procs k -> on_clock k' p -> on_clock k p.
Proof. unfold on_clock. by intros ->. Qed.
(** A turn of [sys_sleep], by process [me]. *)
Lemma time_left_turn c me n t0 r t t' f s : time_left s -> cproc (cpus (kst t) c) = Some me -> ticks t = ticks (now s) ->
  (forall p, on_clock (kst t) p -> on_clock (kst (now s)) p) -> ~ on_clock (kst t) me ->
  sleep_turn c tickslock ticks_addr n t0 t = Ok (r, t') ->
  (forall p, p <> me -> f p = call s p) -> (r = Gone -> f me = Some (n, t0)) -> time_left (mkClock t' f).
Proof.
  intros Hs Hme Ht Hon Hno Hrun Hf Hfm p Hp. apply (sleep_turn_inv c n t0 t r t' me Hme) in Hrun as [Ht' Hr]. cbn [now call] in *.
  destruct r as [z|].
  - destruct Hr as [Hpr _]. apply (on_clock_procs _ _ _ Hpr) in Hp. destruct (decide (p = me)) as [->|Hpm]; [done|].
    destruct (Hs p (Hon p Hp)) as (m & t1 & Hc & Hlt). exists m, t1. rewrite Hf by done. split; [done|]. congruence.
  - destruct Hr as [Hlt Hoth]. destruct (decide (p = me)) as [->|Hpm].
    + exists n, t0. split; [by apply Hfm|]. congruence.
    + destruct (Hs p (Hon p (Hoth p Hpm Hp))) as (m & t1 & Hc & Hl). exists m, t1. rewrite Hf by done. split; [done|]. congruence.
Qed.
Lemma acquire_ready c lk s t : in_proc (acquire c lk) s = Ok (tt, t) ->
  procs (kst t) = procs (kst s) /\ cproc (cpus (kst t) c) = cproc (cpus (kst s) c) /\ ticks t = ticks s.
Proof. intros [R Ht]%in_proc_inv. by apply acquire_same in R as [? ?]. Qed.
Lemma reacquire_ready c s t me : runs (kst s) c me -> in_proc (reacquire c tickslock) s = Ok (tt, t) ->
  runs (kst t) c me /\ ticks t = ticks s /\ (forall p, on_clock (kst t) p -> on_clock (kst s) p) /\
  killed (procs (kst t) me) = killed (procs (kst s) me).
Proof.
  intros [Hme Hst] [R Ht]%in_proc_inv. apply (reacquire_inv c) in R as (me' & Hme' & Hfr & Htab); [|done].
  rewrite Hme in Hme'. injection Hme' as <-.
  assert (Hv : forall p, state (procs (kst t) p) = state (procs (kst s) p) /\ chan (procs (kst t) p) = chan (procs (kst s) p) /\
    killed (procs (kst t) p) = killed (procs (kst s) p)).
  { intros p. destruct (view_fields _ _ (Htab p)) as (V1 & _ & _ & V4 & V5). rewrite V1, V4, V5.
    destruct (decide (p = me)) as [->|]; [by rewrite upd_eq | by rewrite upd_ne]. }
  split.
  - split; [|by rewrite (proj1 (Hv me))]. pose proof (fr_loc _ _ Hfr c) as Hl. unfold loc in Hl. injection Hl as Hl _. congruence.
  - split; [done|]. split; [|apply Hv]. intros p (H1 & H2 & H3). destruct (Hv p) as (V1 & V2 & _). split; [done|]. split; congruence.
Qed.
Lemma runs_awake k c me : runs k c me -> ~ on_clock k me.
Proof. intros [_ H] (_ & H' & _). congruence. Qed.
Lemma cstep_time_left s s' : cstep s s' -> time_left s -> time_left s'.
Proof.
  intros Hst Hs. destruct Hst as [t' s Hrun|c me n k r t' s Hme Harg Hrun|c me n t0 r t' s Hme Hc Hrun|t' s Ht Hon].
  - apply timer_tick_inv in Hrun as [_ Hno]. intros p Hp. by destruct (Hno p Hp).
  - unfold sys_sleep in Hrun. apply bind_inv in Hrun as (o & t1 & R & Hrun). apply in_proc_inv in R as [R Ht1].
    rewrite Harg in R. injection R as <- Hk. assert (Hk' : k = kst (now s)) by exact (pure_argint c 0 _ _ _ Harg).
    apply bind_inv in Hrun as ([] & t2 & R & Hrun). apply acquire_ready in R as (Hp2 & Hc2 & Ht2).
    apply bind_inv in Hrun as (t0 & t3 & R & Hrun). apply gets_inv in R as [-> ->].
    assert (Htk : kst t1 = kst (now s)) by congruence. rewrite Htk in *. destruct Hme as [Hme Hst].
    eapply (time_left_turn c me n (ticks t2) r t2); [exact Hs | congruence | congruence | | | exact Hrun | |].
    + intros p. by apply on_clock_procs.
    + intros Hoc. apply (on_clock_procs _ _ _ Hp2) in Hoc. by apply (runs_awake (kst (now s)) c me).
    + intros p Hp. by rewrite upd_ne.
    + intros ->. rewrite upd_eq. congruence.
  - unfold sleep_resumed in Hrun. apply bind_inv in Hrun as ([] & t2 & R & Hrun).
    destruct (reacquire_ready c (now s) t2 me Hme R) as (Hr2 & Ht2 & Hon & _).
    eapply (time_left_turn c me n t0 r t2); [exact Hs | apply Hr2 | done | done | by eapply runs_awake | exact Hrun | |].
    + intros p Hp. by rewrite upd_ne.
    + intros ->. by rewrite upd_eq.
  - intros p Hp. cbn [now call] in *. rewrite Ht. by apply Hs, Hon.
Qed.

(** Sleeping by the clock.  Under every interleaving of clock ticks, calls of
    [sleep] and resumed sleepers, on any CPUs, and whatever the rest of the
    kernel does that neither sets the clock nor puts a process to sleep on it,
    no wakeup is lost: a process asleep in [sleep(n)] went to sleep fewer than
    [n] ticks ago (also when the clock wraps around), so nobody oversleeps.
    A resumed [sleep] returns 0 only after [n] ticks, and -1 only when the
    process was killed. *)
Theorem sleep_has_time_left s0 s : (forall p, ~ on_clock (kst (now s0)) p) -> rtc cstep s0 s ->
  time_left s /\
  forall c me n t0 z t', runs (kst (now s)) c me -> sleep_resumed c tickslock ticks_addr n t0 (now s) = Ok (Back z, t') ->
    z = 0 /\ u32 n <= u32 (ticks (now s) - t0) \/ z = -1 /\ killed (procs (kst (now s)) me) <> 0.
Proof.
  intros H0 Hr. split.
  - assert (Hinit : time_left s0) by (intros p Hp; by destruct (H0 p Hp)).
    clear H0. induction Hr as [|s1 s2 s3 Hst _ IH]; [done|]. by eapply IH, cstep_time_left.
  - intros c me n t0 z t' Hme Hrun. unfold sleep_resumed in Hrun. apply bind_inv in Hrun as ([] & t2 & R & Hrun).
    destruct (reacquire_ready c (now s) t2 me Hme R) as (Hr2 & Ht2 & _ & Hk).
    apply (sleep_turn_inv c n t0 t2 _ _ me (proj1 Hr2)) in Hrun as [_ [_ Hz]]. rewrite Ht2, Hk in Hz.
    destruct Hz as [?|(? & _ & ?)]; [by left | by right].
Qed.
End Clock.

(** ** Witnesses: process 0 of the small machine calls [sleep(5)] at time 100 *)
Definition at_100 : tstate := mkT (small_machine 13 [5] []) 100.
Definition clock_100 : clock := mkClock at_100 (fun _ => None).
Definition asleep_until (o : outcome (flow Z * tstate)) : option (procstate * option channel * Z) :=
  match o with Ok (Gone, s) => Some (state (procs (kst s) 0), chan (procs (kst s) 0), ticks s) | _ => None end.
Example sleeping_runs : asleep_until (sys_sleep 0 1 7 at_100) = Some (SLEEPING, Some (Ch_addr 7), 100).
Proof. vm_compute. reflexivity. Qed.
Lemma sleeping_returns : exists s, sys_sleep 0 1 7 at_100 = Ok (Gone, s) /\ on_clock 7 (kst s) 0.
Proof.
  pose proof sleeping_runs as H. destruct (sys_sleep 0 1 7 at_100) as [[[z|] s]| | |]; try discriminate H.
  injection H as H1 H2 H3. exists s. split; [reflexivity|]. split; [unfold in_tab, NPROC; lia|]. by split.
Qed.
Definition observed_arg (o : outcome (option Z * kstate)) : option Z := match o with Ok (r, _) => r | _ => None end.
Lemma sleep_argument : exists k, argint 0 0 (kst at_100) = Ok (Some 5, k).
Proof.
  assert (H : observed_arg (argint 0 0 (kst at_100)) = Some 5) by (vm_compute; reflexivity).
  destruct (argint 0 0 (kst at_100)) as [[o k]| | |]; try discriminate H. cbn in H. subst o. by exists k.
Qed.
Lemma sleep_has_time_left_witness : exists s, rtc (cstep 1 7) clock_100 s /\ on_clock 7 (kst (now s)) 0 /\ time_left 7 s.
Proof.
  destruct sleeping_returns as (s & Hrun & Hon). destruct sleep_argument as (k & Harg).
  set (s1 := mkClock s (upd (call clock_100) 0 (Some (5, 100)))).
  assert (Hst : rtc (cstep 1 7) clock_100 s1).
  { apply rtc_once. exact (c_sleep 1 7 0 0 5 k Gone s clock_100 (conj eq_refl eq_refl) Harg Hrun). }
  exists s1. split; [exact Hst|]. split; [exact Hon|].
  apply (sleep_has_time_left 1 7 ltac:(done) clock_100 s1); [|exact Hst].
  intros p (Hp & Hs & Hc). cbn in Hc. unfold upd in Hc. by destruct (p =? 0).
Defined.
Definition user_frame : trapframe := mkTf 0 0 0 0 USER_CS 0 0 0 [].
(** The clock interrupts process 0 in user mode: it gives up the CPU, runs again
    on CPU 1, where it is not killed, and returns. *)
Definition no_handler : T unit := ret tt.
Definition small_trap (trapno : Z) : T leave :=
  trap 0 0 1 7 no_handler no_handler no_handler (fun _ => no_handler) (fun _ => None) trapno user_frame.
Definition on_cpu_1 : tstate :=
  mkT (set_cpu 1 (fun u => mkCpu (ncli u) (intena u) (IF u) (Some 0) (cr3 u) (at_ u)) (kst at_100)) 103.
Definition yields (o : outcome (leave * tstate)) : bool := match o with Ok (Yields, _) => true | _ => false end.
Lemma clock_returns : trap_returns 0 0 1 7 no_handler no_handler no_handler (fun _ => no_handler) (fun _ => None)
  (T_IRQ0 + IRQ_TIMER) user_frame at_100 1 on_cpu_1.
Proof.
  assert (H : yields (small_trap (T_IRQ0 + IRQ_TIMER) at_100) = true) by (vm_compute; reflexivity).
  destruct (small_trap (T_IRQ0 + IRQ_TIMER) at_100) as [[[] s1]| | |] eqn:E; try discriminate H.
  apply (returns_later _ _ _ _ _ _ _ _ _ _ _ _ 0 s1 1 on_cpu_1); [exact E | reflexivity | reflexivity |].
  vm_compute. reflexivity.
Qed.
Lemma killed_leaves_user_mode_witness : trap_returns 0 0 1 7 no_handler no_handler no_handler (fun _ => no_handler) (fun _ => None)
  (T_IRQ0 + IRQ_TIMER) user_frame at_100 1 on_cpu_1 /\ spared 1 on_cpu_1.
Proof.
  split; [exact clock_returns|].
  apply (proj1 (killed_leaves_user_mode 0 0 1 7 no_handler no_handler no_handler (fun _ => no_handler) (fun _ => None)
    (T_IRQ0 + IRQ_TIMER) user_frame at_100) 1%nat on_cpu_1); [exact clock_returns | by right].
Defined.
