(* ===== verification/Bitmap.v ===== *)
(** * Bitmap: reading pictures (src/src/bitmap.c)

    The file is the bytes that [read] still delivers; a read returns at most
    what is left of it.  The state is that and the memory of the program. *)
From S2P Require Import Prelude CString.

Record bmstate := mkBm { bm : mem; rest : list Z }.
Definition BM : Type -> Type := M bmstate.
(** [read(fd, a, n)]; a negative count is not defined here. *)
Definition read_to (a n : Z) : BM unit :=
  if n <? 0 then fault
  else modify (fun s => mkBm (put_bytes (bm s) a (take (Z.to_nat n) (rest s))) (drop (Z.to_nat n) (rest s))).
(** [read] into a local structure: the bytes stored. *)
Definition read_local (n : Z) : BM (list Z) :=
  if n <? 0 then fault
  else
    s <- get ;;
    modify (fun s => mkBm (bm s) (drop (Z.to_nat n) (rest s))) ;;;
    ret (take (Z.to_nat n) (rest s)).

(** ** bitmap.h *)
Definition FILE_HEADER : Z := 14.
Definition INFO_HEADER : Z := 40.
(** [biWidth] and [biHeight]; a field that was not read is undefined. *)
Definition info_of (l : list Z) : option (Z * Z) :=
  if Z.of_nat (length l) <? 12 then None
  else
    let m := fun a => nth (Z.to_nat a) l 0 in
    Some (s32 (get32 m 4), s32 (get32 m 8)).

Definition readBitmapHeader : BM (option (Z * Z)) :=
  read_local FILE_HEADER ;;;
  l <- read_local INFO_HEADER ;;
  ret (info_of l).
(** The loop of lines 40-49, [n] rows left. *)
Fixpoint read_rows (n : nat) (buf rowBytes i : Z) : BM unit :=
  match n with
  | O => ret tt
  | S n =>
      read_to (buf + i * rowBytes) rowBytes ;;;
      (if Z.rem rowBytes 4 >? 0 then read_local (4 - Z.rem rowBytes 4) ;;; ret tt else ret tt) ;;;
      read_rows n buf rowBytes (i + 1)
  end.
(** The memory left and, unless the file could not be opened, the height and
    the width.  [file] is the contents of the file. *)
Definition readBitmapFile (file : option (list Z)) (result : Z) (m : mem) : outcome (option (Z * Z) * mem) :=
  match file with
  | None => Ok (None, m)
  | Some l =>
      match (h <- readBitmapHeader ;;
             h <- of_option h ;;
             let column := fst h in
             let row := snd h in
             let rowBytes := s32 (u32 (column * 3)) in
             read_rows (Z.to_nat row) result rowBytes 0 ;;;
             ret (Some (row, column))) (mkBm m l) with
      | Ok (r, s) => Ok (r, bm s)
      | Panic e => Panic e
      | Fault => Fault
      | OutOfFuel => OutOfFuel
      end
  end.

(** ** A picture file *)

(** The padding of a row to a multiple of four bytes. *)
Definition pad_len (n : Z) : Z := (4 - n mod 4) mod 4.
(** The rows with their padding. *)
Definition bmp_body (rows pads : list (list Z)) : list Z := concat (zip_with app rows pads).
Record bmp_ok (w h : Z) (fh ih : list Z) (rows pads : list (list Z)) : Prop := mkBmp {
  bo_file : Z.of_nat (length fh) = FILE_HEADER;
  bo_info : Z.of_nat (length ih) = INFO_HEADER;
  bo_width : get32 (fun a => nth (Z.to_nat a) ih 0) 4 = w;
  bo_height : get32 (fun a => nth (Z.to_nat a) ih 0) 8 = h;
  bo_size : 0 <= w < 2 ^ 29 /\ 0 <= h < 2 ^ 31;
  bo_rows : Z.of_nat (length rows) = h /\ length pads = length rows;
  bo_row : Forall (fun r => Z.of_nat (length r) = 3 * w) rows;
  bo_pad : Forall (fun p => Z.of_nat (length p) = pad_len (3 * w)) pads }.

Lemma read_rows_run w rows : forall pads m a i tail, 0 <= w < 2 ^ 29 -> length pads = length rows ->
  Forall (fun r => Z.of_nat (length r) = 3 * w) rows -> Forall (fun p => Z.of_nat (length p) = pad_len (3 * w)) pads ->
  read_rows (length rows) a (3 * w) i (mkBm m (bmp_body rows pads ++ tail)) =
    Ok (tt, mkBm (put_bytes m (a + i * (3 * w)) (concat rows)) tail).
Proof.
  induction rows as [|r rows IH]; intros [|p pads] m a i tail Hw Hlen Hr Hp; try done.
  apply Forall_cons in Hr as [Hr0 Hr]. apply Forall_cons in Hp as [Hp0 Hp].
  cbn [length read_rows concat]. unfold bmp_body. cbn [zip_with concat]. rewrite <- !app_assoc. fold (bmp_body rows pads).
  unfold read_to. rewrite (proj2 (Z.ltb_ge (3 * w) 0)) by lia. erewrite bind_Ok; [|reflexivity]. cbn [bm rest].
  rewrite take_app_length', drop_app_length' by lia.
  assert (Hpad : (if Z.rem (3 * w) 4 >? 0 then read_local (4 - Z.rem (3 * w) 4) ;;; ret tt else ret tt)
    (mkBm (put_bytes m (a + i * (3 * w)) r) (p ++ bmp_body rows pads ++ tail)) =
    Ok (tt, mkBm (put_bytes m (a + i * (3 * w)) r) (bmp_body rows pads ++ tail))).
  { rewrite Z.rem_mod_nonneg by lia. unfold pad_len in Hp0. pose proof (Z.mod_pos_bound (3 * w) 4 ltac:(lia)).
    destruct (Z.gtb_spec ((3 * w) mod 4) 0) as [Hgt|Hle].
    - rewrite Z.mod_small in Hp0 by lia. unfold read_local. rewrite (proj2 (Z.ltb_ge (4 - (3 * w) mod 4) 0)) by lia.
      rewrite bind_assoc. erewrite bind_Ok; [|reflexivity]. rewrite bind_assoc. erewrite bind_Ok; [|reflexivity].
      erewrite bind_Ok; [|reflexivity]. cbn [rest bm]. by rewrite drop_app_length' by lia.
    - replace ((3 * w) mod 4) with 0 in Hp0 by lia. change ((4 - 0) mod 4) with 0 in Hp0. destruct p; [done | cbn in Hp0; lia]. }
  rewrite (bind_Ok _ _ _ _ _ Hpad). rewrite IH by (try done; by injection Hlen).
  rewrite put_bytes_app. do 4 f_equal. lia.
Qed.

(** Pictures are read as they were stored.  For every uncompressed 24-bit
    bitmap file (two headers, then rows of three bytes per pixel, padded to
    multiples of four bytes, and anything after them), [readBitmapFile] returns
    its height and width, stores the rows one after the other without their
    padding at [result], and changes no other memory. *)
Theorem bitmap_rows w h fh ih rows pads tail result m : bmp_ok w h fh ih rows pads ->
  readBitmapFile (Some (fh ++ ih ++ bmp_body rows pads ++ tail)) result m =
    Ok (Some (h, w), put_bytes m result (concat rows)).
Proof.
  intros [H1 H2 H3 H4 H5 [H6 H7] H8 H9]. unfold readBitmapFile, readBitmapHeader, read_local, FILE_HEADER, INFO_HEADER in *.
  cbn [Z.ltb Z.compare]. rewrite !bind_assoc. repeat (erewrite bind_Ok; [|reflexivity]; try rewrite !bind_assoc). cbn [rest bm].
  rewrite (drop_app_length' fh) by lia. rewrite (take_app_length' ih), (drop_app_length' ih) by lia.
  unfold info_of. rewrite (proj2 (Z.ltb_ge (Z.of_nat (length ih)) 12)) by lia. rewrite H3, H4.
  rewrite !s32_small by lia. cbn [of_option]. erewrite bind_Ok; [|reflexivity]. cbn [fst snd].
  rewrite (u32_small (w * 3)), s32_small by lia. replace (w * 3) with (3 * w) by lia. replace (Z.to_nat h) with (length rows) by lia.
  rewrite (bind_Ok _ _ _ _ _ (read_rows_run w rows pads m result 0 tail ltac:(lia) H7 H8 H9)). cbn.
  by rewrite Z.add_0_r.
Qed.

(** ** Witness: a picture of two rows of one pixel *)
Definition tiny_info : list Z := [40; 0; 0; 0] ++ [1; 0; 0; 0] ++ [2; 0; 0; 0] ++ replicate 28 0.
Lemma tiny_bmp : bmp_ok 1 2 (replicate 14 7) tiny_info [[1; 2; 3]; [4; 5; 6]] [[9]; [9]].
Proof. split; try done; by repeat constructor. Qed.
Lemma bitmap_rows_witness :
  readBitmapFile (Some (replicate 14 7 ++ tiny_info ++ bmp_body [[1; 2; 3]; [4; 5; 6]] [[9]; [9]] ++ [])) 1000 (fun _ => 0) =
    Ok (Some (2, 1), put_bytes (fun _ => 0) 1000 [1; 2; 3; 4; 5; 6]).
Proof. exact (bitmap_rows 1 2 _ _ _ _ [] 1000 (fun _ => 0) tiny_bmp). Defined.
