(* ===== verification/Explorer.v ===== *)
(** * Explorer: the file manager and the desktop (src/src/explorer.c, src/src/desktop.c)

    The strings of the programs are in memory, at the addresses of their
    arrays and literals.  What the kernel answers to [stat] and [read] on a
    directory is an argument.  Walks over strings have the step bound [FUEL]. *)
From S2P Require Import Prelude CString.

Definition FUEL : nat := 1024.
Definition X : Type -> Type := M mem.
Definition lib (f : mem -> option mem) : X unit :=
  fun m => match f m with Some m' => Ok (tt, m') | None => OutOfFuel end.
Definition strcpy (s t : Z) : X unit := lib (fun m => Ulib.strcpy m s t FUEL).
Definition strcat (s t : Z) : X unit := lib (fun m => Ulib.strcat m s t FUEL).
Definition strcmp (p q : Z) : X Z :=
  fun m => match Ulib.strcmp m p q FUEL with Some v => Ok (v, m) | None => OutOfFuel end.
Definition string_at (a : Z) : X (list Z) :=
  fun m => match string_from m a FUEL with Some l => Ok (l, m) | None => OutOfFuel end.
Definition byte_at (a : Z) : X Z := gets (fun m => m a).
Definition set_byte (a v : Z) : X unit := modify (fun m => upd m a v).

(** Forward to the end of the string, and back to the character [c]. *)
Fixpoint to_end (fuel : nat) (s : Z) : X Z :=
  match fuel with
  | O => out_of_fuel
  | S fuel => v <- byte_at s ;; if truthy v then to_end fuel (s + 1) else ret s
  end.
Fixpoint back_to (fuel : nat) (c s : Z) : X Z :=
  match fuel with
  | O => out_of_fuel
  | S fuel => v <- byte_at s ;; if v =? c then ret s else back_to fuel c (s - 1)
  end.
Definition slash : Z := 47.
Definition dot : Z := 46.

(** ** Names *)

(** The loop of [fmtname] (explorer.c 54, desktop.c 36). *)
Fixpoint name_start (fuel : nat) (path p : Z) : X Z :=
  match fuel with
  | O => out_of_fuel
  | S fuel =>
      v <- byte_at p ;;
      if (p >=? path) && negb (v =? slash) then name_start fuel path (p - 1) else ret p
  end.
Definition fmtname (path : Z) : X Z :=
  e <- to_end FUEL path ;;
  p <- name_start FUEL path e ;;
  ret (p + 1).
(** The first loop of [suffix] (explorer.c 65-70): whether there is a dot, and
    the end of the string. *)
Fixpoint find_dot (fuel : nat) (s : Z) (point : bool) : X (bool * Z) :=
  match fuel with
  | O => out_of_fuel
  | S fuel =>
      v <- byte_at s ;;
      if truthy v then find_dot fuel (s + 1) (if v =? dot then true else point) else ret (point, s)
  end.
Definition suffix (t s : Z) : X unit :=
  let* (point, e) := find_dot FUEL s false in
  if negb point then set_byte t 0
  else
    p <- back_to FUEL dot e ;;
    strcpy t (p + 1).

(** ** Double clicks *)

(** What a double click does: go into a folder, start a program with these
    arguments, or nothing. *)
Inductive action := Enter | Launch (argv : list (list Z)) | Nothing.
(** The system calls of the new-folder dialog. *)
Inductive call := DeleteWindow (h : Z) | Mkdir (path : list Z) | FileSystemChanged.
Definition T_DIR : Z := 1.
Definition T_FILE : Z := 2.
Definition T_DEV : Z := 3.

Section Programs.
(** [stat_type path] is the type of the file, -1 when [stat] fails.  The
    addresses of the literals: slash, the empty string, [bmp], [txt],
    [imageviewer], [editor], [explorer], and the one-character string dot. *)
Context (stat_type : list Z -> Z).
Context (lit_slash lit_empty lit_bmp lit_txt lit_viewer lit_editor lit_explorer lit_dot : Z).

(** [if (fork() == 0) { c; exit(); }]: the child runs on its own copy of the
    memory.  (A [fork] that fails starts nothing.) *)
Definition in_child (c : X action) : X action :=
  fun m => match c m with Ok (a, _) => Ok (a, m) | Panic e => Panic e | Fault => Fault | OutOfFuel => OutOfFuel end.
(** [exec(argv1[0], argv1)] in the child. *)
Definition launch (s : Z) : X action := in_child (a <- string_at s ;; ret (Launch [a])).
(** [strcpy(argv2[0], prog); exec(argv2[0], argv2);] in the child:
    [argv2[0]] is the empty literal. *)
Definition launch_with (prog s : Z) : X action :=
  in_child (strcpy lit_empty prog ;;;
            a0 <- string_at lit_empty ;;
            a1 <- string_at s ;;
            ret (Launch [a0; a1])).

(** Explorer: [s] and [t] are its local arrays, [text] the name of the icon. *)
Definition iconOnLeftDoubleClick (wd caption s t text : Z) : X action :=
  strcpy s wd ;;;
  strcat s lit_slash ;;;
  strcat s text ;;;
  path <- string_at s ;;
  if stat_type path =? T_DIR then
    strcat wd lit_slash ;;;
    strcat wd text ;;;
    strcat caption text ;;;
    strcat caption lit_slash ;;;
    ret Enter
  else
    suffix t s ;;;
    c <- strcmp t lit_empty ;;
    if c =? 0 then launch s
    else
      c <- strcmp t lit_bmp ;;
      if c =? 0 then launch_with lit_viewer s
      else
        c <- strcmp t lit_txt ;;
        if c =? 0 then launch_with lit_editor s else ret Nothing.
(** Explorer, [backup]: whether the view changed. *)
Definition backup (wd caption : Z) : X bool :=
  c <- strcmp wd lit_dot ;;
  if c =? 0 then ret false
  else
    s <- to_end FUEL wd ;;
    s <- back_to FUEL slash s ;;
    set_byte s 0 ;;;
    s <- to_end FUEL caption ;;
    s <- back_to FUEL slash s ;;
    s <- back_to FUEL slash (s - 1) ;;
    set_byte (s + 1) 0 ;;;
    ret true.
(** Explorer, [newFolder]: the calls it makes, and [hDlog] afterwards; the
    dialog is closed first. *)
Definition newFolder (hDlog wd s filename : Z) : X (list call * Z) :=
  let calls := [DeleteWindow hDlog] in
  strcpy s wd ;;;
  strcat s lit_slash ;;;
  strcat s filename ;;;
  path <- string_at s ;;
  ret (calls ++ [Mkdir path; FileSystemChanged], -1).
(** Desktop: the icon's name is the path; a file that ends in [bmp] is also
    compared with [txt]. *)
Definition desktopDoubleClick (t text : Z) : X action :=
  path <- string_at text ;;
  if stat_type path =? T_DIR then launch_with lit_explorer text
  else
    suffix t text ;;;
    c <- strcmp t lit_empty ;;
    r <- (if c =? 0 then launch text
          else c <- strcmp t lit_bmp ;; if c =? 0 then launch_with lit_viewer text else ret Nothing) ;;
    c <- strcmp t lit_txt ;;
    if c =? 0 then launch_with lit_editor text else ret r.
End Programs.

(** * Navigation and double clicks *)

(** ** Walks over strings *)
Lemma to_end_run m l : forall a fuel, str_at m a l -> (length l < fuel)%nat -> to_end fuel a m = Ok (a + Z.of_nat (length l), m).
Proof.
  induction l as [|c l IH]; intros a [|fuel] H Hf; cbn [str_at length to_end] in *; try lia; (erewrite bind_Ok; [|reflexivity]).
  - rewrite H. cbn. by rewrite Z.add_0_r.
  - destruct H as (-> & Hc & Hl). unfold truthy. rewrite (proj2 (Z.eqb_neq c 0)) by lia. cbn [negb].
    rewrite (IH _ fuel Hl) by lia. do 2 f_equal. lia.
Qed.
Lemma find_dot_run m l : forall a fuel b, str_at m a l -> (length l < fuel)%nat ->
  find_dot fuel a b m = Ok (b || existsb (Z.eqb dot) l, a + Z.of_nat (length l), m).
Proof.
  induction l as [|c l IH]; intros a [|fuel] b H Hf; cbn [str_at length find_dot existsb] in *; try lia; (erewrite bind_Ok; [|reflexivity]).
  - rewrite H. cbn. by rewrite Z.add_0_r, orb_false_r.
  - destruct H as (-> & Hc & Hl). unfold truthy. rewrite (proj2 (Z.eqb_neq c 0)) by lia. cbn [negb].
    rewrite (IH _ fuel _ Hl) by lia. rewrite (Z.eqb_sym dot c). f_equal. f_equal. f_equal; [by destruct b, (c =? dot) | lia].
Qed.
(** Back over [n] characters other than [c]. *)
Lemma back_to_run m c n : forall p fuel, m p = c -> (forall i, 0 < i <= Z.of_nat n -> m (p + i) <> c) -> (n < fuel)%nat ->
  back_to fuel c (p + Z.of_nat n) m = Ok (p, m).
Proof.
  induction n as [|n IH]; intros p [|fuel] Hp Hn Hf; cbn [back_to]; try lia; (erewrite bind_Ok; [|reflexivity]).
  - rewrite Z.add_0_r, Hp. by rewrite Z.eqb_refl.
  - rewrite (proj2 (Z.eqb_neq _ _) (Hn (Z.of_nat (S n)) ltac:(lia))).
    replace (p + Z.of_nat (S n) - 1) with (p + Z.of_nat n) by lia. apply IH; [done | | lia]. intros i Hi. apply Hn. lia.
Qed.
(** An element of [k] in [l ++ c :: k]. *)
Lemma lookup_mid (l k : list Z) c d i : 0 < i -> k !! Z.to_nat (i - 1) = Some d -> (l ++ c :: k) !! (length l + Z.to_nat i)%nat = Some d.
Proof.
  intros Hi Hd. rewrite lookup_app_r by lia. replace (length l + Z.to_nat i - length l)%nat with (S (Z.to_nat (i - 1))) by lia. exact Hd.
Qed.
(** In the string [l ++ c :: k] at [a], with no [c] in [k]: back from its end. *)
Lemma back_in_string m a l c k fuel : str_at m a (l ++ c :: k) -> c ∉ k -> (S (length k) < fuel)%nat ->
  back_to fuel c (a + Z.of_nat (length (l ++ c :: k))) m = Ok (a + Z.of_nat (length l), m).
Proof.
  intros H Hk Hf. destruct (str_at_lookup _ _ _ H) as [H1 H2]. pose proof (str_at_range _ _ _ H) as Hr.
  rewrite length_app in *. cbn [length] in *.
  replace (a + Z.of_nat (length l + S (length k))) with (a + Z.of_nat (length l) + Z.of_nat (S (length k))) by lia.
  apply back_to_run; [apply H1; by rewrite lookup_app_r, Nat.sub_diag by lia | | done].
  intros i Hi. destruct (decide (i = Z.of_nat (S (length k)))) as [->|Hne].
  - replace (a + Z.of_nat (length l) + Z.of_nat (S (length k))) with (a + Z.of_nat (length l + S (length k))) by lia.
    rewrite H2. rewrite Forall_forall in Hr. specialize (Hr c ltac:(set_solver)). lia.
  - destruct (lookup_lt_is_Some_2 k (Z.to_nat (i - 1)) ltac:(lia)) as [d Hd].
    rewrite <- (Z2Nat.id i) by lia. replace (a + Z.of_nat (length l) + Z.of_nat (Z.to_nat i)) with (a + Z.of_nat (length l + Z.to_nat i)) by lia.
    rewrite (H1 _ d).
    + intros ->. apply Hk. by eapply list_elem_of_lookup_2.
    + by apply lookup_mid; [lia|].
Qed.

(** ** The arrays of the programs *)

(** [k] bytes at [p] are outside the array of 256 bytes at [a]. *)
Definition out (p k a : Z) : Prop := p + k <= a \/ a + 256 <= p.
Definition short (l : list Z) : Prop := Z.of_nat (length l) < 256.
Lemma fuel_ok l : short l -> (length l < FUEL)%nat.
Proof. unfold short, FUEL. lia. Qed.
(** Changes inside the array at [a] only. *)
Definition only (a : Z) (m m' : mem) : Prop := forall x, ~ (a <= x < a + 256) -> m' x = m x.
Lemma str_out p l a m m' : only a m m' -> out p (Z.of_nat (length l) + 1) a -> str_at m p l -> str_at m' p l.
Proof. unfold out, only. intros Ho Hout. apply str_at_agree. intros x Hx. apply Ho. lia. Qed.

Lemma strcpy_array m s t k : str_at m t k -> short k -> out t (Z.of_nat (length k) + 1) s -> exists m',
  strcpy s t m = Ok (tt, m') /\ str_at m' s k /\ only s m m'.
Proof.
  intros Hk Hs Ho. unfold short, out in *. destruct (strcpy_run k m s t FUEL Hk) as (m' & E & H1 & H2).
  { unfold clear_of. lia. } { by apply fuel_ok. }
  exists m'. unfold strcpy, lib. rewrite E. split; [done|]. split; [done|]. intros x Hx. apply H2. lia.
Qed.
Lemma strcat_array m s t l k : str_at m s l -> str_at m t k -> short (l ++ k) -> out t (Z.of_nat (length k) + 1) s -> exists m',
  strcat s t m = Ok (tt, m') /\ str_at m' s (l ++ k) /\ only s m m'.
Proof.
  intros Hl Hk Hs Ho. unfold short, out in *. rewrite length_app in Hs.
  destruct (strcat_strcmp m s t l k FUEL Hl Hk) as [_ Hc]; [unfold FUEL; lia..|].
  destruct Hc as (m' & E & H1 & H2); [unfold clear_of; lia|].
  exists m'. unfold strcat, lib. rewrite E. split; [done|]. split; [done|]. intros x Hx. apply H2. lia.
Qed.
Lemma strcmp_ok m p q l k : str_at m p l -> str_at m q k -> short l -> exists v, strcmp p q m = Ok (v, m) /\ (v = 0 <-> l = k).
Proof.
  intros Hl Hk Hs. destruct (strcmp_run m l p q k FUEL Hl Hk (fuel_ok _ Hs)) as (v & E & Hv).
  exists v. unfold strcmp. by rewrite E.
Qed.
Lemma string_at_ok m a l : str_at m a l -> short l -> string_at a m = Ok (l, m).
Proof. intros Hl Hs. unfold string_at. by rewrite (string_from_run m l a FUEL Hl (fuel_ok _ Hs)). Qed.

(** ** Entering a folder and coming back *)
Section Explorer.
Context (lit_slash lit_empty lit_bmp lit_txt lit_viewer lit_editor lit_dot : Z).
Context (wd caption s t text : Z).
(** The arrays do not overlap each other nor the literals. *)
Definition arrays : list Z := [wd; caption; s; t; text].
Definition literals : list Z := [lit_slash; lit_empty; lit_bmp; lit_txt; lit_viewer; lit_editor; lit_dot].
Record layout : Prop := mkLay {
  lay_nodup : NoDup arrays;
  lay_arrays : forall a b, a ∈ arrays -> b ∈ arrays -> a <> b -> out a 256 b;
  lay_literals : forall p a, p ∈ literals -> a ∈ arrays -> out p 16 a }.
Context (Hlay : layout).
(** The folder [w] is shown with caption [c], and the icon is named [n]. *)
Record view (m : mem) (w c n : list Z) : Prop := mkView {
  v_wd : str_at m wd w;
  v_caption : str_at m caption c;
  v_text : str_at m text n;
  v_slash : str_at m lit_slash [slash];
  v_dot : str_at m lit_dot [dot];
  v_short : short (w ++ slash :: n) /\ short (c ++ n ++ [slash]) }.

Lemma array_out a b l : a ∈ arrays -> b ∈ arrays -> a <> b -> short l -> out a (Z.of_nat (length l) + 1) b.
Proof using Hlay. intros Ha Hb Hne Hs. pose proof (lay_arrays Hlay a b Ha Hb Hne). unfold out, short in *. lia. Qed.
Lemma literal_out p a (l : list Z) : p ∈ literals -> a ∈ arrays -> (length l < 16)%nat -> out p (Z.of_nat (length l) + 1) a.
Proof using Hlay. intros Hp Ha Hl. pose proof (lay_literals Hlay p a Hp Ha). unfold out in *. lia. Qed.
Lemma array_ne : wd <> caption /\ wd <> s /\ wd <> t /\ wd <> text /\ caption <> s /\ caption <> t /\ caption <> text /\ s <> t /\ s <> text /\ t <> text.
Proof using Hlay. pose proof (lay_nodup Hlay) as H. unfold arrays in H. repeat (apply NoDup_cons in H as [? H]). set_solver. Qed.
(** Changes inside an array keep the strings elsewhere. *)
Lemma keep_array m m' a b l : only a m m' -> a ∈ arrays -> b ∈ arrays -> b <> a -> short l -> str_at m b l -> str_at m' b l.
Proof using Hlay. intros Ho Ha Hb Hne Hs. eapply str_out; [exact Ho|]. by apply array_out. Qed.
Lemma keep_literal m m' a p l : only a m m' -> a ∈ arrays -> p ∈ literals -> (length l < 16)%nat -> str_at m p l -> str_at m' p l.
Proof using Hlay. intros Ho Ha Hp Hl. eapply str_out; [exact Ho|]. by apply literal_out. Qed.
Lemma short_app l k : short (l ++ k) -> short l /\ short k.
Proof using. clear. unfold short. rewrite length_app. lia. Qed.

Lemma short_cons (x : Z) l : short (x :: l) -> short l.
Proof using. clear. unfold short. cbn [length]. lia. Qed.

(** Appending [x] and then [y] to an array. *)
Lemma strcat_two m a x y l kx ky : a ∈ arrays -> str_at m a l -> str_at m x kx -> str_at m y ky -> short (l ++ kx ++ ky) ->
  out x (Z.of_nat (length kx) + 1) a -> out y (Z.of_nat (length ky) + 1) a -> exists m',
  (forall B (k : X B), (strcat a x ;;; strcat a y ;;; k) m = k m') /\ str_at m' a (l ++ kx ++ ky) /\ only a m m'.
Proof using.
  clear. intros Ha Hl Hx Hy Hs Hox Hoy. rewrite app_assoc in *. pose proof (proj1 (short_app _ _ Hs)) as Hs1.
  destruct (strcat_array m a x l kx Hl Hx Hs1 Hox) as (m1 & E1 & H1 & O1).
  destruct (strcat_array m1 a y (l ++ kx) ky H1) as (m2 & E2 & H2 & O2); [by eapply str_out | done | done|].
  exists m2. split; [intros B k; by rewrite (bind_Ok _ _ _ _ _ E1), (bind_Ok _ _ _ _ _ E2)|]. split; [done|].
  intros z Hz. rewrite O2 by done. by apply O1.
Qed.
(** Membership in a list that is written out. *)
Ltac listed := unfold arrays, literals; repeat first [apply list_elem_of_here | apply list_elem_of_further].
(** The path of the icon in [s]. *)
Lemma path_built m w c n : view m w c n -> exists m',
  (forall B (k : X B), (strcpy s wd ;;; strcat s lit_slash ;;; strcat s text ;;; k) m = k m') /\
  str_at m' s (w ++ slash :: n) /\ only s m m'.
Proof using Hlay.
  intros [H1 H2 H3 H4 H5 [S1 S2]]. pose proof array_ne as Hne. pose proof (short_app _ _ S1) as [Sw Sn].
  pose proof (short_cons _ _ Sn) as Sn'.
  destruct (strcpy_array m s wd w H1 Sw) as (m1 & E1 & A1 & O1). { apply array_out; [listed | listed | tauto | done]. }
  destruct (strcat_two m1 s lit_slash text w [slash] n) as (m2 & E2 & A2 & O2).
  - listed.
  - done.
  - eapply keep_literal; [exact O1 | listed | listed | cbn; lia | done].
  - eapply keep_array; [exact O1 | listed | listed | intros ->; tauto | done | done].
  - done.
  - apply literal_out; [listed | listed | cbn; lia].
  - apply array_out; [listed | listed | intros ->; tauto | done].
  - exists m2. split; [intros B k; by rewrite (bind_Ok _ _ _ _ _ E1), E2|]. split; [exact A2|]. intros z Hz. rewrite O2 by done. by apply O1.
Qed.
Lemma view_after m m' w c n a : view m w c n -> only a m m' -> a = s \/ a = t -> view m' w c n.
Proof using Hlay.
  intros [H1 H2 H3 H4 H5 [S1 S2]] Ho Ha. destruct array_ne as (N1 & N2 & N3 & N4 & N5 & N6 & N7 & N8 & N9 & N10).
  pose proof (short_app _ _ S1) as [Sw Sn]. pose proof (short_app _ _ S2) as [Sc _].
  pose proof (short_cons _ _ Sn) as Sn'.
  assert (Hin : a ∈ arrays) by (destruct Ha as [-> | ->]; listed).
  assert (Hw : wd <> a /\ caption <> a /\ text <> a) by (destruct Ha as [-> | ->]; split_and!; congruence).
  destruct Hw as (W1 & W2 & W3). split; [| | | | |done].
  - exact (keep_array m m' a wd w Ho Hin ltac:(listed) W1 Sw H1).
  - exact (keep_array m m' a caption c Ho Hin ltac:(listed) W2 Sc H2).
  - exact (keep_array m m' a text n Ho Hin ltac:(listed) W3 Sn' H3).
  - exact (keep_literal m m' a lit_slash [slash] Ho Hin ltac:(listed) ltac:(cbn; lia) H4).
  - exact (keep_literal m m' a lit_dot [dot] Ho Hin ltac:(listed) ltac:(cbn; lia) H5).
Qed.
(** Back from [w/n], shown as [c ++ n ++ "/"] where [c] ends with a slash. *)
Lemma backup_run m w c n : str_at m wd (w ++ slash :: n) -> str_at m caption (c ++ slash :: n ++ [slash]) -> str_at m lit_dot [dot] ->
  short (w ++ slash :: n) -> short (c ++ slash :: n ++ [slash]) -> slash ∉ n -> exists m', backup lit_dot wd caption m = Ok (true, m') /\
  str_at m' wd w /\ str_at m' caption (c ++ [slash]).
Proof using Hlay.
  intros H1 H2 H3 S1 S2 Hn. pose proof array_ne as Hne. unfold backup.
  destruct (strcmp_ok m wd lit_dot _ _ H1 H3 S1) as (v & E & Hv). rewrite (bind_Ok _ _ _ _ _ E).
  assert (Hv0 : v <> 0) by (rewrite Hv; destruct w as [|x [|y w]]; cbn; [done | by intros [=] | by intros [=]]).
  rewrite (proj2 (Z.eqb_neq _ _) Hv0).
  rewrite (bind_Ok _ _ _ _ _ (to_end_run _ _ _ FUEL H1 (fuel_ok _ S1))).
  rewrite (bind_Ok _ _ _ _ _ (back_in_string _ _ _ _ _ FUEL H1 Hn ltac:(unfold short, FUEL in *; rewrite length_app in S1; cbn in S1; lia))).
  erewrite bind_Ok; [|reflexivity]. set (m1 := upd m _ 0).
  assert (A1 : str_at m1 wd w) by (by eapply str_at_cut).
  assert (O1 : only wd m m1).
  { intros x Hx. apply upd_ne. intros ->. apply Hx. unfold short in S1. rewrite length_app in S1. cbn in S1. lia. }
  assert (K2 : str_at m1 caption (c ++ slash :: n ++ [slash])) by (eapply keep_array; [exact O1 | listed | listed | intros ->; tauto | done | done]).
  rewrite (bind_Ok _ _ _ _ _ (to_end_run _ _ _ FUEL K2 (fuel_ok _ S2))).
  assert (K2' : str_at m1 caption ((c ++ slash :: n) ++ slash :: [])) by (by rewrite <- app_assoc).
  assert (Hl : length (c ++ slash :: n ++ [slash]) = length ((c ++ slash :: n) ++ slash :: [])) by (by rewrite <- app_assoc).
  rewrite Hl. rewrite (bind_Ok _ _ _ _ _ (back_in_string _ _ _ _ _ FUEL K2' ltac:(by apply not_elem_of_nil) ltac:(unfold FUEL; cbn; lia))).
  assert (Hb : back_to FUEL slash (caption + Z.of_nat (length (c ++ slash :: n)) - 1) m1 = Ok (caption + Z.of_nat (length c), m1)).
  { destruct (str_at_lookup _ _ _ K2) as [L1 _]. rewrite length_app. cbn [length].
    replace (caption + Z.of_nat (length c + S (length n)) - 1) with (caption + Z.of_nat (length c) + Z.of_nat (length n)) by lia.
    apply back_to_run.
    - apply L1. by rewrite lookup_app_r, Nat.sub_diag by lia.
    - intros i Hi. destruct (lookup_lt_is_Some_2 n (Z.to_nat (i - 1)) ltac:(lia)) as [d Hd].
      replace (caption + Z.of_nat (length c) + i) with (caption + Z.of_nat (length c + Z.to_nat i)) by lia. rewrite (L1 _ d).
      + intros ->. apply Hn. by eapply list_elem_of_lookup_2.
      + apply lookup_mid; [lia | by apply lookup_app_l_Some].
    - unfold short, FUEL in *. rewrite length_app in S2. cbn in S2. rewrite length_app in S2. cbn in S2. lia. }
  rewrite (bind_Ok _ _ _ _ _ Hb). erewrite bind_Ok; [|reflexivity]. eexists. split; [reflexivity|]. split.
  - eapply (keep_array m1 _ caption wd); [|listed | listed | tauto | exact (proj1 (short_app _ _ S1)) | exact A1].
    intros x Hx. apply upd_ne. intros ->. apply Hx. unfold short in S2. rewrite length_app in S2. cbn in S2. lia.
  - assert (K3 : str_at m1 caption ((c ++ [slash]) ++ n ++ [slash])) by (by rewrite <- app_assoc).
    apply str_at_cut in K3. rewrite length_app in K3. cbn [length] in K3.
    replace (caption + Z.of_nat (length c) + 1) with (caption + Z.of_nat (length c + 1)) by lia. done.
Qed.
Context (stat_type : list Z -> Z).
Let click : X action := iconOnLeftDoubleClick stat_type lit_slash lit_empty lit_bmp lit_txt lit_viewer lit_editor wd caption s t text.
Lemma enter_run m w c n : view m w c n -> stat_type (w ++ slash :: n) = T_DIR -> exists m', click m = Ok (Enter, m') /\
  str_at m' wd (w ++ slash :: n) /\ str_at m' caption (c ++ n ++ [slash]) /\ str_at m' lit_dot [dot].
Proof using Hlay.
  intros Hv Hst. destruct (path_built m w c n Hv) as (m1 & E1 & A1 & O1). pose proof (view_after _ _ _ _ _ s Hv O1 ltac:(by left)) as Hv1.
  destruct Hv1 as [H1 H2 H3 H4 H5 [S1 S2]]. pose proof array_ne as Hne. pose proof (short_app _ _ S1) as [Sw Sn].
  pose proof (short_cons _ _ Sn) as Sn'. pose proof (short_app _ _ S2) as [Sc _].
  unfold click, iconOnLeftDoubleClick. rewrite E1, (bind_Ok _ _ _ _ _ (string_at_ok _ _ _ A1 S1)), Hst, Z.eqb_refl.
  destruct (strcat_two m1 wd lit_slash text w [slash] n ltac:(listed) H1 H4 H3 S1) as (m2 & E2 & A2 & O2).
  { apply literal_out; [listed | listed | cbn; lia]. } { apply array_out; [listed | listed | intros ->; tauto | done]. }
  assert (K2 : str_at m2 caption c) by (eapply keep_array; [exact O2 | listed | listed | intros ->; tauto | done | done]).
  assert (K3 : str_at m2 text n) by (eapply keep_array; [exact O2 | listed | listed | intros ->; tauto | done | done]).
  assert (K4 : str_at m2 lit_slash [slash]) by (eapply keep_literal; [exact O2 | listed | listed | cbn; lia | done]).
  destruct (strcat_two m2 caption text lit_slash c n [slash] ltac:(listed) K2 K3 K4 S2) as (m3 & E3 & A3 & O3).
  { apply array_out; [listed | listed | intros ->; tauto | done]. } { apply literal_out; [listed | listed | cbn; lia]. }
  exists m3. rewrite E2, E3. split; [done|]. split; [|split; [done|]].
  - eapply keep_array; [exact O3 | listed | listed | intros ->; tauto | done | exact A2].
  - eapply keep_literal; [exact O3 | listed | listed | cbn; lia|]. eapply keep_literal; [exact O2 | listed | listed | cbn; lia | done].
Qed.

(** Entering a folder and going back.  With the folder [w] shown under a
    caption that ends in a slash, a double click on the icon of a folder [n]
    (no slash in its name, and room for the longer strings) makes [w/n] the
    folder shown and appends [n/] to the caption; the back button then restores
    both strings. *)
Theorem explorer_enter_back m w c n : view m w (c ++ [slash]) n -> slash ∉ n -> stat_type (w ++ slash :: n) = T_DIR ->
  exists m1 m2, click m = Ok (Enter, m1) /\ str_at m1 wd (w ++ slash :: n) /\ str_at m1 caption ((c ++ [slash]) ++ n ++ [slash]) /\
    backup lit_dot wd caption m1 = Ok (true, m2) /\ str_at m2 wd w /\ str_at m2 caption (c ++ [slash]).
Proof using Hlay.
  intros Hv Hn Hst. destruct (v_short _ _ _ _ Hv) as [S1 S2]. destruct (enter_run m w _ n Hv Hst) as (m1 & E1 & A1 & A2 & A3).
  destruct (backup_run m1 w c n A1) as (m2 & E2 & B1 & B2); try done.
  - by rewrite <- app_assoc in A2.
  - by rewrite <- app_assoc in S2.
  - by exists m1, m2.
Qed.

(** ** Opening a file *)

(** [suffix] leaves in the array [t] what follows the last dot. *)
Lemma suffix_run m l e : str_at m s (l ++ dot :: e) -> short (l ++ dot :: e) -> dot ∉ e -> exists m',
  suffix t s m = Ok (tt, m') /\ str_at m' t e /\ only t m m'.
Proof using Hlay.
  intros H Hs He. unfold suffix. rewrite (bind_Ok _ _ _ _ _ (find_dot_run m _ s FUEL false H (fuel_ok _ Hs))).
  assert (Hd : existsb (Z.eqb dot) (l ++ dot :: e) = true) by (rewrite existsb_app; cbn; by rewrite orb_true_r).
  rewrite Hd. cbn [orb negb]. pose proof (short_app _ _ Hs) as [_ Hse]. pose proof (short_cons _ _ Hse) as Hse'.
  rewrite (bind_Ok _ _ _ _ _ (back_in_string m s l dot e FUEL H He ltac:(unfold short, FUEL in *; cbn in Hse; lia))).
  apply strcpy_array; [|done|].
  - apply str_at_tail in H. by destruct H as (_ & _ & H).
  - pose proof (lay_arrays Hlay s t ltac:(listed) ltac:(listed) ltac:(apply array_ne)) as Ho.
    unfold out, short in *. rewrite length_app in Hs. cbn in Hs. lia.
Qed.
(** The literals that opening a file reads; copying a program's name over the
    empty literal stays clear of them. *)
Record names (m : mem) (viewer editor bmp txt : list Z) : Prop := mkNames {
  n_empty : str_at m lit_empty [];
  n_viewer : str_at m lit_viewer viewer;
  n_editor : str_at m lit_editor editor;
  n_bmp : str_at m lit_bmp bmp;
  n_txt : str_at m lit_txt txt;
  n_len : Forall (fun l => (length l < 16)%nat) [viewer; editor; bmp; txt];
  n_clear : clear_of lit_empty 16 lit_viewer 16 /\ clear_of lit_empty 16 lit_editor 16 }.
Lemma names_after m m' a v e b x : names m v e b x -> only a m m' -> a ∈ arrays -> names m' v e b x.
Proof using Hlay.
  intros [H1 H2 H3 H4 H5 H6 H7] Ho Ha. pose proof H6 as Hl. rewrite !Forall_cons in Hl. destruct Hl as (L1 & L2 & L3 & L4 & _).
  split; [..|done|done]; (eapply keep_literal; [exact Ho | done | listed | try done; cbn; lia | done]).
Qed.
(** Starting [prog] on the file whose path is in [s]. *)
Lemma launch_run m prog p path : str_at m prog p -> str_at m s path -> short path -> (length p < 16)%nat ->
  clear_of lit_empty 16 prog 16 -> launch_with lit_empty prog s m = Ok (Launch [p; path], m).
Proof using Hlay.
  intros Hp Hs Hsh Hl Hc. unfold launch_with, in_child.
  destruct (strcpy_run p m lit_empty prog FUEL Hp) as (m' & E & H1 & H2). { unfold clear_of in *. lia. } { unfold FUEL. lia. }
  assert (E1 : strcpy lit_empty prog m = Ok (tt, m')) by (unfold strcpy, lib; by rewrite E).
  rewrite (bind_Ok _ _ _ _ _ E1), (bind_Ok _ _ _ _ _ (string_at_ok _ _ _ H1 ltac:(unfold short; lia))).
  assert (Hs' : str_at m' s path).
  { revert Hs. apply str_at_agree. intros z Hz. apply H2. pose proof (lay_literals Hlay lit_empty s ltac:(listed) ltac:(listed)).
    unfold out, short in *. lia. }
  by rewrite (bind_Ok _ _ _ _ _ (string_at_ok _ _ _ Hs' Hsh)).
Qed.
(** What a double click on a file does, by what follows the last dot of its path. *)
Definition opens (viewer editor bmp txt ext path : list Z) : action :=
  if decide (ext = []) then Launch [path]
  else if decide (ext = bmp) then Launch [viewer; path]
  else if decide (ext = txt) then Launch [editor; path] else Nothing.

Lemma explorer_opens_at m w c n vi ed bm tx l ext : view m w c n -> names m vi ed bm tx ->
  stat_type (w ++ slash :: n) <> T_DIR -> w ++ slash :: n = l ++ dot :: ext -> dot ∉ ext ->
  exists m', click m = Ok (opens vi ed bm tx ext (w ++ slash :: n), m').
Proof using Hlay.
  intros Hv Hn Hst Hpath Hd. destruct (path_built m w c n Hv) as (m1 & E1 & A1 & O1).
  destruct (v_short _ _ _ _ Hv) as [S1 _]. pose proof (names_after _ _ s _ _ _ _ Hn O1 ltac:(listed)) as Hn1.
  unfold click, iconOnLeftDoubleClick. rewrite E1, (bind_Ok _ _ _ _ _ (string_at_ok _ _ _ A1 S1)), (proj2 (Z.eqb_neq _ _) Hst).
  rewrite Hpath in *. destruct (suffix_run m1 l ext A1 S1 Hd) as (m2 & E2 & A2 & O2). rewrite (bind_Ok _ _ _ _ _ E2).
  destruct (names_after _ _ t _ _ _ _ Hn1 O2 ltac:(listed)) as [N1 N2 N3 N4 N5 N6 N7].
  rewrite !Forall_cons in N6. destruct N6 as (L1 & L2 & L3 & L4 & _).
  pose proof (proj2 (short_app _ _ S1)) as Se. apply short_cons in Se.
  assert (A3 : str_at m2 s (l ++ dot :: ext)) by (eapply (keep_array m1 m2 t s); [exact O2 | listed | listed | apply array_ne | done | done]).
  destruct (strcmp_ok m2 t lit_empty _ _ A2 N1 Se) as (v0 & F0 & V0). destruct (strcmp_ok m2 t lit_bmp _ _ A2 N4 Se) as (v1 & F1 & V1).
  destruct (strcmp_ok m2 t lit_txt _ _ A2 N5 Se) as (v2 & F2 & V2).
  exists m2. rewrite (bind_Ok _ _ _ _ _ F0). unfold opens.
  destruct (Z.eqb_spec v0 0) as [Hv0|Hv0]; destruct (decide (ext = [])) as [He0|He0]; [|tauto|tauto|].
  - unfold launch, in_child. by rewrite (bind_Ok _ _ _ _ _ (string_at_ok _ _ _ A3 S1)).
  - rewrite (bind_Ok _ _ _ _ _ F1). destruct (Z.eqb_spec v1 0); destruct (decide (ext = bm)); [|tauto|tauto|]; [apply launch_run; tauto|].
    rewrite (bind_Ok _ _ _ _ _ F2). destruct (Z.eqb_spec v2 0); destruct (decide (ext = tx)); [|tauto|tauto|]; [apply launch_run; tauto | done].
Qed.

(** Opening a file.  A double click on the icon of a file that is not a
    folder looks at what follows the last dot of its path: a picture is opened
    with the viewer, a text with the editor, each given the path; when the
    path ends with a dot the file itself is run; otherwise nothing happens. *)
Theorem explorer_opens m w c n vi ed bm tx l ext : view m w c n -> names m vi ed bm tx ->
  stat_type (w ++ slash :: n) <> T_DIR -> w ++ slash :: n = l ++ dot :: ext -> dot ∉ ext ->
  exists m', click m = Ok (opens vi ed bm tx ext (w ++ slash :: n), m').
Proof using Hlay. apply explorer_opens_at. Qed.
(** A program's name has no dot, but every folder's path begins with one: the
    explorer starts no program by its name. *)
Theorem explorer_runs_nothing m w c n vi ed bm tx : view m (dot :: w) c n -> names m vi ed bm tx -> slash ∉ bm ++ tx ->
  stat_type ((dot :: w) ++ slash :: n) <> T_DIR -> dot ∉ w ++ n -> exists m', click m = Ok (Nothing, m').
Proof using Hlay.
  intros Hv Hn Hbt Hst Hd.
  destruct (explorer_opens_at m (dot :: w) c n vi ed bm tx [] (w ++ slash :: n) Hv Hn Hst eq_refl) as (m' & E).
  { intros He. apply Hd. apply elem_of_app in He as [He|He]; [set_solver|]. apply elem_of_cons in He as [[=]|He]. set_solver. }
  exists m'. rewrite E. unfold opens. rewrite !decide_False; [done|..].
  - intros Hx. apply Hbt. rewrite <- Hx. set_solver.
  - intros Hx. apply Hbt. rewrite <- Hx. set_solver.
  - by destruct w.
Qed.
End Explorer.

(** ** A concrete layout *)
Definition lay_mem (texts : list (Z * list Z)) : mem :=
  foldr (fun p m => put_bytes m p.1 (p.2 ++ [0])) (fun _ => 0) texts.
(** "imageviewer", "editor", "bmp", "txt". *)
Definition s_viewer : list Z := [105; 109; 97; 103; 101; 118; 105; 101; 119; 101; 114].
Definition s_editor : list Z := [101; 100; 105; 116; 111; 114].
Definition s_bmp : list Z := [98; 109; 112].
Definition s_txt : list Z := [116; 120; 116].
Definition demo_mem (w c n : list Z) : mem :=
  lay_mem [(0x1000, w); (0x1100, c); (0x1400, n); (0x2000, [slash]); (0x2010, []); (0x2020, s_bmp); (0x2030, s_txt);
           (0x2040, s_viewer); (0x2050, s_editor); (0x2060, [dot])].
Lemma demo_layout : layout 0x2000 0x2010 0x2020 0x2030 0x2040 0x2050 0x2060 0x1000 0x1100 0x1200 0x1300 0x1400.
Proof.
  split; unfold arrays, literals.
  - repeat (apply NoDup_cons; split; [rewrite ?elem_of_cons, elem_of_nil; lia|]). apply NoDup_nil_2.
  - intros a b Ha Hb. rewrite !elem_of_cons in Ha, Hb. rewrite elem_of_nil in Ha, Hb. unfold out. lia.
  - intros p a Hp Ha. set_unfold in Hp. set_unfold in Ha. unfold out. lia.
Qed.
(** The folder ".", the caption "E:/" and the icon "a.bmp" or "docs". *)
Lemma demo_view n : n = [97; 46; 98; 109; 112] \/ n = [100; 111; 99; 115] ->
  view 0x2000 0x2060 0x1000 0x1100 0x1400 (demo_mem [dot] [69; 58; slash] n) [dot] [69; 58; slash] n.
Proof. intros [-> | ->]; split; try (vm_compute; repeat split; reflexivity); unfold short; cbn; lia. Qed.
Lemma demo_names n : n = [97; 46; 98; 109; 112] \/ n = [100; 111; 99; 115] ->
  names 0x2010 0x2020 0x2030 0x2040 0x2050 (demo_mem [dot] [69; 58; slash] n) s_viewer s_editor s_bmp s_txt.
Proof.
  intros [-> | ->]; split; try (vm_compute; repeat split; reflexivity); try (unfold clear_of; lia);
    repeat (apply Forall_cons; split; [cbn; lia|]); apply Forall_nil_2.
Qed.
Lemma explorer_enter_back_witness : exists m1 m2,
  iconOnLeftDoubleClick (fun _ => T_DIR) 0x2000 0x2010 0x2020 0x2030 0x2040 0x2050 0x1000 0x1100 0x1200 0x1300 0x1400
    (demo_mem [dot] [69; 58; slash] [100; 111; 99; 115]) = Ok (Enter, m1) /\ str_at m1 0x1000 [dot; slash; 100; 111; 99; 115] /\
  backup 0x2060 0x1000 0x1100 m1 = Ok (true, m2) /\ str_at m2 0x1000 [dot].
Proof.
  destruct (explorer_enter_back 0x2000 0x2010 0x2020 0x2030 0x2040 0x2050 0x2060 0x1000 0x1100 0x1200 0x1300 0x1400 demo_layout
    (fun _ => T_DIR) (demo_mem [dot] [69; 58; slash] [100; 111; 99; 115]) [dot] [69; 58] [100; 111; 99; 115]) as (m1 & m2 & H1 & H2 & _ & H3 & H4 & _).
  - apply (demo_view [100; 111; 99; 115]). by right.
  - intros H. rewrite !elem_of_cons, elem_of_nil in H. unfold slash in H. lia.
  - reflexivity.
  - exists m1, m2. exact (conj H1 (conj H2 (conj H3 H4))).
Defined.
Lemma explorer_opens_witness : exists m',
  iconOnLeftDoubleClick (fun _ => T_FILE) 0x2000 0x2010 0x2020 0x2030 0x2040 0x2050 0x1000 0x1100 0x1200 0x1300 0x1400
    (demo_mem [dot] [69; 58; slash] [97; 46; 98; 109; 112]) = Ok (Launch [s_viewer; [dot; slash; 97; 46; 98; 109; 112]], m').
Proof.
  apply (explorer_opens 0x2000 0x2010 0x2020 0x2030 0x2040 0x2050 0x2060 0x1000 0x1100 0x1200 0x1300 0x1400 demo_layout
    (fun _ => T_FILE) _ [dot] [69; 58; slash] [97; 46; 98; 109; 112] s_viewer s_editor s_bmp s_txt [dot; slash; 97] s_bmp).
  - apply demo_view. by left.
  - apply demo_names. by left.
  - done.
  - reflexivity.
  - unfold s_bmp, dot. intros H. rewrite !elem_of_cons, elem_of_nil in H. lia.
Defined.
