(* ===== verification/Folder.v ===== *)
(** * Folder: the icons of a folder (src/src/explorer.c, src/src/desktop.c)

    [ls] reads a directory into the icons and the widgets of the window.  The
    entries that [read] delivers and the file types that [stat] finds are
    arguments; the descriptors of the process are counted, since [ls] keeps
    the one it opens and [open] fails when none is left. *)
From S2P Require Import Prelude CString Explorer.

(** An icon; the picture is the bitmap file that is read into it. *)
Record icon := mkIcon { leftTopX : Z; leftTopY : Z; picture : option string; caption_text : list Z }.
Definition no_icon : icon := mkIcon 0 0 None [].
(** [widgets]: the index of the icon a widget shows. *)
Record folder := mkFolder {
  fo_mem : mem;
  icons : Z -> icon;
  widgets : Z -> option Z;
  widgetsNum : Z;
  descriptors : Z;
  updates : Z }.
Definition F : Type -> Type := M folder.
Definition on_mem {A} (c : X A) : F A :=
  zoom fo_mem (fun m f => mkFolder m (icons f) (widgets f) (widgetsNum f) (descriptors f) (updates f)) c.
Definition set_icon (i : Z) (ic : icon) : F unit :=
  if i <? 50 then modify (fun f => mkFolder (fo_mem f) (upd (icons f) i ic) (widgets f) (widgetsNum f) (descriptors f) (updates f))
  else fault.
Definition add_widget (i : Z) : F unit :=
  f <- get ;;
  if widgetsNum f <? 32 then
    put (mkFolder (fo_mem f) (icons f) (upd (widgets f) (widgetsNum f) (Some i)) (widgetsNum f + 1) (descriptors f) (updates f))
  else fault.
Definition updateWindow : F unit :=
  modify (fun f => mkFolder (fo_mem f) (icons f) (widgets f) (widgetsNum f) (descriptors f) (updates f + 1)).
Definition NOFILE : Z := 16.
Definition DIRSIZ : nat := 30.

(** The loop that looks for the first dot of the name at [a]. *)
Fixpoint dot_index (fuel : nat) (a j : Z) : X Z :=
  match fuel with
  | O => out_of_fuel
  | S fuel =>
      e <- to_end FUEL a ;;
      if j <? e - a then (v <- byte_at (a + j) ;; if v =? dot then ret j else dot_index fuel a (j + 1)) else ret j
  end.
(** The three characters after index [j] of the name at [a]. *)
Definition after_is (a j c1 c2 c3 : Z) : X bool :=
  x <- byte_at (a + j + 1) ;;
  y <- byte_at (a + j + 2) ;;
  z <- byte_at (a + j + 3) ;;
  ret ((x =? c1) && (y =? c2) && (z =? c3)).
Definition choose_picture (ty a j : Z) : X (option string) :=
  if ty =? T_DIR then ret (Some "folder.bmp"%string)
  else if ty =? T_FILE then
    b <- after_is a j 98 109 112 ;;
    if b : bool then ret (Some "photo.bmp"%string)
    else
      b <- after_is a j 116 120 116 ;;
      ret (Some (if b : bool then "text.bmp" else "exec.bmp")%string)
  else ret None.

Section Listing.
(** [dir path]: the entries of a directory, inode number and name field;
    [None] when it cannot be opened, [Some None] when [fstat] of the opened
    file fails.  [buf] is the local array of 512 bytes,
    [de] the local entry, [pos i] the place of the [i]-th icon. *)
Context (stat_type : list Z -> Z) (dir : list Z -> option (option (list (Z * list Z)))).
Context (lit_dot lit_dotdot buf de : Z) (pos : Z -> Z * Z).

(** [stat] opens the file, so it needs a free descriptor. *)
Definition stat (path : list Z) : F Z :=
  d <- gets descriptors ;;
  ret (if d <? NOFILE then stat_type path else -1).
(** One turn of the loop, for the entry that was read; [p] is the place of the
    name in [buf], the result is [i]. *)
Definition ls_entry (p i : Z) (e : Z * list Z) : F Z :=
  on_mem (modify (fun m => put_bytes m de (u8 (fst e) :: u8 (Z.shiftr (fst e) 8) :: snd e))) ;;;
  if fst e =? 0 then ret i
  else
    on_mem (modify (fun m => Ulib.memmove m p (de + 2) DIRSIZ)) ;;;
    on_mem (set_byte (p + Z.of_nat DIRSIZ) 0) ;;;
    path <- on_mem (string_at buf) ;;
    ty <- stat path ;;
    if ty <? 0 then ret i
    else
      tmpName <- on_mem (fmtname buf) ;;
      c1 <- on_mem (strcmp tmpName lit_dot) ;;
      c2 <- on_mem (strcmp tmpName lit_dotdot) ;;
      if (c1 =? 0) || (c2 =? 0) || (ty =? T_DEV) then ret i
      else
        j <- on_mem (dot_index FUEL tmpName 0) ;;
        pic <- on_mem (choose_picture ty tmpName j) ;;
        name <- on_mem (string_at tmpName) ;;
        set_icon i (mkIcon (fst (pos i)) (snd (pos i)) pic name) ;;;
        add_widget i ;;;
        (when Z.rem (i + 1) 2 =? 0 do updateWindow) ;;;
        ret (i + 1).
Fixpoint ls_loop (p i : Z) (l : list (Z * list Z)) : F unit :=
  match l with
  | [] => ret tt
  | e :: l => i <- ls_entry p i e ;; ls_loop p i l
  end.
(** The descriptor is not closed, on no path. *)
Definition ls (path : Z) : F unit :=
  name <- on_mem (string_at path) ;;
  d <- gets descriptors ;;
  match (if d <? NOFILE then dir name else None) with
  | None => ret tt
  | Some st =>
      modify (fun f => mkFolder (fo_mem f) (icons f) (widgets f) (widgetsNum f) (descriptors f + 1) (updates f)) ;;;
      match st with
      | None => ret tt
      | Some l =>
          on_mem (strcpy buf path) ;;;
          p <- on_mem (to_end FUEL buf) ;;
          on_mem (set_byte p slash) ;;;
          ls_loop (p + 1) 0 l
      end
  end.
(** [first] is the number of widgets that are not icons: 3 in the explorer, 1
    on the desktop. *)
Definition refresh (first path : Z) : F unit :=
  modify (fun f => mkFolder (fo_mem f) (icons f) (widgets f) first (descriptors f) (updates f)) ;;;
  updateWindow ;;;
  ls path ;;;
  updateWindow.
End Listing.
(** The two programs: the places of the icons and the widgets that stay. *)
Section Programs.
Context (stat_type : list Z -> Z) (dir : list Z -> option (option (list (Z * list Z)))) (lit_dot lit_dotdot buf de : Z).
Definition explorer_pos (i : Z) : Z * Z := (50 + Z.rem i 6 * 140, 150 + Z.quot i 6 * 140).
Definition desktop_pos (i : Z) : Z * Z := (50 + Z.quot i 6 * 140, 50 + Z.rem i 6 * 140).
Definition explorer_ls (path : Z) : F unit := ls stat_type dir lit_dot lit_dotdot buf de explorer_pos path.
Definition desktop_ls (path : Z) : F unit := ls stat_type dir lit_dot lit_dotdot buf de desktop_pos path.
Definition explorer_refresh (wd : Z) : F unit := refresh stat_type dir lit_dot lit_dotdot buf de explorer_pos 3 wd.
Definition desktop_refresh : F unit := refresh stat_type dir lit_dot lit_dotdot buf de desktop_pos 1 lit_dot.
End Programs.

(** * The window shows the folder *)

(** ** The names of a directory *)
Fixpoint name_of (raw : list Z) : list Z :=
  match raw with [] => [] | c :: raw => if truthy c then c :: name_of raw else [] end.
(** An entry: a name without slashes, padded with zeros; names of at most 27
    characters, so that looking past the end of one stays in its field. *)
Record entry_ok (e : Z * list Z) : Prop := mkEntry {
  eo_name : exists k, snd e = name_of (snd e) ++ repeat 0 k;
  eo_len : length (snd e) = DIRSIZ;
  eo_chars : Forall (fun c => 0 < c < 256 /\ c <> slash) (name_of (snd e));
  eo_short : (length (name_of (snd e)) <= 27)%nat }.
(** What follows the first dot, three characters at most. *)
Fixpoint first_dot (n : list Z) : nat :=
  match n with [] => O | c :: n => if c =? dot then O else S (first_dot n) end.
Definition kind_of (n : list Z) : list Z := take 3 (drop (S (first_dot n)) n).
Definition picture_of (ty : Z) (n : list Z) : option string :=
  if ty =? T_DIR then Some "folder.bmp"%string
  else if ty =? T_FILE then
    Some (if decide (kind_of n = s_bmp) then "photo.bmp" else if decide (kind_of n = s_txt) then "text.bmp" else "exec.bmp")%string
  else None.

Lemma str_at_intro m l : forall a, (forall i c, l !! i = Some c -> m (a + Z.of_nat i) = c) -> m (a + Z.of_nat (length l)) = 0 ->
  Forall (fun c => 0 < c < 256) l -> str_at m a l.
Proof.
  induction l as [|c l IH]; intros a H H0 Hr; cbn [str_at length] in *; [by rewrite Z.add_0_r in H0|].
  apply Forall_cons in Hr as [Hc Hr]. split; [rewrite <- (Z.add_0_r a); by apply (H O)|]. split; [done|]. apply IH; [|by rewrite <- H0; f_equal; lia | done].
  intros i d Hd. rewrite <- (H (S i) d Hd). f_equal. lia.
Qed.
(** A byte of a name field, zero past the name. *)
Lemma raw_nth e k : entry_ok e -> nth k (snd e) 0 = nth k (name_of (snd e)) 0.
Proof.
  intros [[n Hn] _ _ _]. rewrite Hn at 1. set (x := name_of (snd e)). destruct (decide (k < length x)%nat).
  - by rewrite app_nth1 by lia.
  - rewrite app_nth2 by lia. rewrite nth_repeat. by rewrite nth_overflow by lia.
Qed.
Lemma nth_lookup_Some_inv (n : list Z) i c : n !! i = Some c -> nth i n 0 = c.
Proof. intros H. by rewrite (nth_lookup n i 0), H. Qed.
Lemma lookup_snoc_mid (l n : list Z) x i c : (l ++ x :: n) !! i = Some c ->
  (l ++ [x]) !! i = Some c \/ exists j, i = (length l + 1 + j)%nat /\ n !! j = Some c.
Proof.
  intros H. replace (l ++ x :: n) with ((l ++ [x]) ++ n) in H by (by rewrite <- app_assoc).
  apply lookup_app_Some in H as [H | [Hi H]]; [by left|]. right. rewrite length_app in *. cbn in *.
  exists (i - (length l + 1))%nat. split; [lia | done].
Qed.
Lemma nth_drop_add (n : list Z) k i : nth i (drop k n) 0 = nth (k + i) n 0.
Proof. by rewrite !nth_lookup, lookup_drop. Qed.
Lemma in_range a x b : a <= x < b -> (a <=? x) && (x <? b) = true.
Proof. intros H. apply andb_true_iff. split; lia. Qed.
Lemma out_range a x b : ~ (a <= x < b) -> (a <=? x) && (x <? b) = false.
Proof. intros H. apply andb_false_iff. lia. Qed.

(** ** The loops over a name *)
Lemma back_to_le c m : forall fuel s q, back_to fuel c s m = Ok (q, m) -> q <= s.
Proof.
  induction fuel as [|fuel IH]; intros s q H; [done|]. cbn [back_to] in H. erewrite bind_Ok in H by reflexivity.
  destruct (m s =? c); [injection H as <-; lia|]. apply IH in H. lia.
Qed.
Lemma name_start_run path m : forall fuel s q, back_to fuel slash s m = Ok (q, m) -> path <= q -> name_start fuel path s m = Ok (q, m).
Proof.
  induction fuel as [|fuel IH]; intros s q H Hq; [done|]. pose proof (back_to_le _ _ _ _ _ H) as Hle. cbn [back_to name_start] in *.
  erewrite bind_Ok in H by reflexivity. erewrite bind_Ok; [|reflexivity]. rewrite Z.geb_leb, (proj2 (Z.leb_le path s)) by lia.
  destruct (m s =? slash); [done|]. cbn. by apply IH.
Qed.
Lemma fmtname_run m a l n : str_at m a (l ++ slash :: n) -> slash ∉ n -> (length (l ++ slash :: n) < FUEL)%nat ->
  fmtname a m = Ok (a + Z.of_nat (length l) + 1, m).
Proof.
  intros H Hn Hf. unfold fmtname. rewrite (bind_Ok _ _ _ _ _ (to_end_run _ _ _ FUEL H Hf)).
  rewrite (bind_Ok _ _ _ _ _ (name_start_run a m _ _ _ (back_in_string m a l slash n FUEL H Hn ltac:(rewrite length_app in Hf; cbn in Hf; lia)) ltac:(lia))).
  done.
Qed.
Lemma dot_index_run m a n : str_at m a n -> (length n < FUEL)%nat -> forall r fuel j, drop j n = r -> (j <= length n)%nat -> (length r < fuel)%nat ->
  dot_index fuel a (Z.of_nat j) m = Ok (Z.of_nat (j + first_dot r), m).
Proof.
  intros H Hf r. destruct (str_at_lookup _ _ _ H) as [H1 _]. induction r as [|c r IH]; intros [|fuel] j Hr Hj Hfu; cbn [length] in *; try lia; cbn [dot_index];
    rewrite (bind_Ok _ _ _ _ _ (to_end_run _ _ _ FUEL H Hf)); replace (a + Z.of_nat (length n) - a) with (Z.of_nat (length n)) by lia.
  - apply (f_equal length) in Hr. rewrite length_drop in Hr. cbn in Hr. rewrite (proj2 (Z.ltb_ge _ _)) by lia. cbn [first_dot]. by rewrite Nat.add_0_r.
  - pose proof (f_equal length Hr) as Hlen. rewrite length_drop in Hlen. cbn in Hlen. rewrite (proj2 (Z.ltb_lt _ _)) by lia.
    assert (Hc : n !! j = Some c) by (rewrite <- (Nat.add_0_r j), <- lookup_drop, Hr; done).
    erewrite bind_Ok; [|reflexivity]. rewrite (H1 _ _ Hc). cbn [first_dot]. destruct (c =? dot); [by rewrite Nat.add_0_r|].
    replace (Z.of_nat j + 1) with (Z.of_nat (S j)) by lia. rewrite IH; [by rewrite Nat.add_succ_r | | lia | lia].
    replace (S j) with (j + 1)%nat by lia. by rewrite <- drop_drop, Hr.
Qed.
(** Three characters compared, zeros past the end. *)
Lemma three_eq (n : list Z) j c1 c2 c3 : c1 <> 0 -> c2 <> 0 -> c3 <> 0 ->
  (nth (j + 1) n 0 =? c1) && (nth (j + 2) n 0 =? c2) && (nth (j + 3) n 0 =? c3) = bool_decide (take 3 (drop (S j) n) = [c1; c2; c3]).
Proof.
  intros Hc1 Hc2 Hc3. replace (j + 1)%nat with (S j + 0)%nat by lia. replace (j + 2)%nat with (S j + 1)%nat by lia. replace (j + 3)%nat with (S j + 2)%nat by lia.
  rewrite <- !nth_drop_add. set (d := drop (S j) n). apply eq_true_iff_eq.
  rewrite bool_decide_eq_true, !andb_true_iff, !Z.eqb_eq. destruct d as [|x [|y [|z d]]]; cbn; naive_solver lia.
Qed.
Lemma choose_picture_run m a n ty j : (forall i, (i <= j + 3)%nat -> m (a + Z.of_nat i) = nth i n 0) -> j = first_dot n ->
  choose_picture ty a (Z.of_nat j) m = Ok (picture_of ty n, m).
Proof.
  intros H Hj. assert (Ha : forall c1 c2 c3, c1 <> 0 -> c2 <> 0 -> c3 <> 0 ->
    after_is a (Z.of_nat j) c1 c2 c3 m = Ok (bool_decide (kind_of n = [c1; c2; c3]), m)).
  { intros c1 c2 c3 H1 H2 H3. unfold after_is. do 3 (erewrite bind_Ok; [|reflexivity]). unfold ret, kind_of. rewrite <- Hj, <- three_eq by done.
    rewrite <- !H by lia. replace (a + Z.of_nat (j + 1)) with (a + Z.of_nat j + 1) by lia. replace (a + Z.of_nat (j + 2)) with (a + Z.of_nat j + 2) by lia.
    by replace (a + Z.of_nat (j + 3)) with (a + Z.of_nat j + 3) by lia. }
  unfold choose_picture, picture_of. destruct (ty =? T_DIR); [done|]. destruct (ty =? T_FILE); [|done].
  rewrite (bind_Ok _ _ _ _ _ (Ha 98 109 112 ltac:(lia) ltac:(lia) ltac:(lia))). unfold s_bmp, s_txt. case_bool_decide as E1.
  - by rewrite decide_True by done.
  - rewrite decide_False by done. rewrite (bind_Ok _ _ _ _ _ (Ha 116 120 116 ltac:(lia) ltac:(lia) ltac:(lia))).
    case_bool_decide as E2; [by rewrite decide_True by done | by rewrite decide_False by done].
Qed.
(** Code on the memory only. *)
Definition with_mem (f : folder) (m : mem) : folder := mkFolder m (icons f) (widgets f) (widgetsNum f) (descriptors f) (updates f).
Lemma on_mem_bind {A B} (c : X A) (k : A -> F B) f a m : c (fo_mem f) = Ok (a, m) -> M_bind (on_mem c) k f = k a (with_mem f m).
Proof. intros H. unfold M_bind, on_mem, zoom. by rewrite H. Qed.
Lemma on_mem_modify {B} (g : mem -> mem) (k : unit -> F B) f : M_bind (on_mem (modify g)) k f = k tt (with_mem f (g (fo_mem f))).
Proof. done. Qed.
Lemma fo_mem_with f m : fo_mem (with_mem f m) = m.
Proof. done. Qed.
Lemma with_mem_twice f m1 m2 : with_mem (with_mem f m1) m2 = with_mem f m2.
Proof. done. Qed.
Lemma on_mem_read {A B} (c : X A) (k : A -> F B) f a : c (fo_mem f) = Ok (a, fo_mem f) -> M_bind (on_mem c) k f = k a f.
Proof. intros H. rewrite (on_mem_bind _ _ _ _ _ H). by destruct f. Qed.

Section Folder.
Context (stat_type : list Z -> Z).
Context (lit_dot lit_dotdot buf de : Z) (pos : Z -> Z * Z).
(** The path of the folder, and the place of the names after it in [buf]. *)
Context (l : list Z).
Let p : Z := buf + Z.of_nat (length l) + 1.
Record space : Prop := mkSpace {
  sp_short : short l;
  sp_range : Forall (fun c => 0 < c < 256) l;
  sp_de : clear_of buf 512 de 32;
  sp_lits : clear_of buf 512 lit_dot 3 /\ clear_of buf 512 lit_dotdot 3 /\ clear_of de 32 lit_dot 3 /\ clear_of de 32 lit_dotdot 3 }.
Context (Hsp : space).
(** The memory while the entries are read. *)
Record reading (m : mem) : Prop := mkReading {
  rd_path : forall i c, (l ++ [slash]) !! i = Some c -> m (buf + Z.of_nat i) = c;
  rd_dot : str_at m lit_dot [dot];
  rd_dotdot : str_at m lit_dotdot [dot; dot] }.
Definition entry_read (m : mem) (e : Z * list Z) : mem := put_bytes m de (u8 (fst e) :: u8 (Z.shiftr (fst e) 8) :: snd e).
Definition entry_named (m : mem) (e : Z * list Z) : mem := upd (Ulib.memmove (entry_read m e) p (de + 2) DIRSIZ) (p + Z.of_nat DIRSIZ) 0.

Lemma entry_read_out m e x : length (snd e) = DIRSIZ -> ~ (de <= x < de + 32) -> entry_read m e x = m x.
Proof using. clear p Hsp. intros Hl Hx. unfold entry_read. rewrite put_bytes_at. cbn [length]. rewrite Hl. unfold DIRSIZ. rewrite out_range by lia. done. Qed.
Lemma entry_named_out m e x : length (snd e) = DIRSIZ -> ~ (de <= x < de + 32) -> ~ (p <= x < p + 31) -> entry_named m e x = m x.
Proof using Hsp.
  intros Hl Hx Hp. destruct Hsp as [Hs _ Hc _]. unfold clear_of, short, entry_named, Ulib.memmove, DIRSIZ, p in *. rewrite upd_ne by lia.
  rewrite copy_up_spec by lia. rewrite <- (entry_read_out m e x) by done. rewrite out_range by lia. done.
Qed.
Lemma entry_named_at m e k : length (snd e) = DIRSIZ -> (k <= 30)%nat -> entry_named m e (p + Z.of_nat k) = nth k (snd e) 0.
Proof using Hsp.
  intros Hl Hk. destruct Hsp as [Hs _ Hc _]. unfold clear_of, short, entry_named, Ulib.memmove, DIRSIZ, p in *. destruct (decide (k = 30%nat)) as [->|].
  { rewrite upd_eq. rewrite nth_overflow by lia. done. }
  rewrite upd_ne by lia. rewrite copy_up_spec by lia. rewrite in_range by lia. unfold entry_read. rewrite put_bytes_at. cbn [length]. rewrite Hl.
  rewrite in_range by lia. replace (Z.to_nat _) with (S (S k)) by lia. done.
Qed.
Lemma reading_read m e : reading m -> length (snd e) = DIRSIZ -> reading (entry_read m e).
Proof using Hsp.
  intros [H1 H2 H3] He. destruct Hsp as [Hs _ Hc (L1 & L2 & L3 & L4)]. unfold clear_of, short in *. split.
  - intros i c Hi. rewrite <- (H1 i c Hi). apply entry_read_out; [done|]. apply lookup_lt_Some in Hi. rewrite length_app in Hi. cbn in Hi. lia.
  - revert H2. apply str_at_agree. intros x Hx. cbn in Hx. apply entry_read_out; [done | lia].
  - revert H3. apply str_at_agree. intros x Hx. cbn in Hx. apply entry_read_out; [done | lia].
Qed.
Lemma reading_named m e : reading m -> length (snd e) = DIRSIZ -> reading (entry_named m e).
Proof using Hsp.
  intros [H1 H2 H3] He. destruct Hsp as [Hs _ Hc (L1 & L2 & L3 & L4)]. unfold clear_of, short in *. split.
  - intros i c Hi. rewrite <- (H1 i c Hi). apply entry_named_out; [done|..]; apply lookup_lt_Some in Hi; rewrite length_app in Hi; cbn in Hi; unfold p; lia.
  - revert H2. apply str_at_agree. intros x Hx. cbn in Hx. apply entry_named_out; [done | lia | unfold p; lia].
  - revert H3. apply str_at_agree. intros x Hx. cbn in Hx. apply entry_named_out; [done | lia | unfold p; lia].
Qed.
(** After [memmove], [buf] holds the path of the entry and [p] its name. *)
Lemma named_name m e : entry_ok e -> str_at (entry_named m e) p (name_of (snd e)).
Proof using Hsp.
  intros He. pose proof (eo_short _ He). apply str_at_intro.
  - intros i c Hi. pose proof (lookup_lt_Some _ _ _ Hi). rewrite entry_named_at by (apply He || lia). rewrite raw_nth by done.
    by apply nth_lookup_Some_inv.
  - rewrite entry_named_at by (apply He || lia). rewrite raw_nth by done. by apply nth_overflow.
  - eapply Forall_impl; [apply (eo_chars _ He)|]. by intros c [? _].
Qed.
Lemma named_path m e : reading m -> entry_ok e -> str_at (entry_named m e) buf (l ++ slash :: name_of (snd e)).
Proof using Hsp.
  intros Hr He. pose proof (rd_path _ (reading_named m e Hr (eo_len _ He))) as H1. pose proof (named_name m e He) as Hn.
  apply str_at_lookup in Hn as [H2 H3]. apply str_at_intro.
  - intros i c Hi. apply lookup_snoc_mid in Hi as [Hi | (j & -> & Hj)]; [by apply H1|]. rewrite <- (H2 j c Hj). f_equal. unfold p. lia.
  - rewrite <- H3. f_equal. unfold p. rewrite length_app. cbn [length]. lia.
  - apply Forall_app. split; [apply Hsp|]. constructor; [done|]. eapply Forall_impl; [apply (eo_chars _ He)|]. by intros c [? _].
Qed.

(** ** One entry *)

(** The entries that are shown: used, not the folder itself nor its parent,
    found by [stat], not a device. *)
Definition full (e : Z * list Z) : list Z := l ++ slash :: name_of (snd e).
Definition shown (e : Z * list Z) : Prop :=
  fst e <> 0 /\ 0 <= stat_type (full e) /\ stat_type (full e) <> T_DEV /\ name_of (snd e) <> [dot] /\ name_of (snd e) <> [dot; dot].
#[local] Instance shown_dec e : Decision (shown e).
Proof using. unfold shown. solve_decision. Defined.
Definition icon_of (i : Z) (e : Z * list Z) : icon :=
  mkIcon (fst (pos i)) (snd (pos i)) (picture_of (stat_type (full e)) (name_of (snd e))) (name_of (snd e)).
(** What the window shows of [i] entries so far. *)
Definition add_shown (f : folder) (m : mem) (i : Z) (e : Z * list Z) (n : Z) : folder :=
  mkFolder m (upd (icons f) i (icon_of i e)) (upd (widgets f) (widgetsNum f) (Some i)) (widgetsNum f + 1) (descriptors f) n.

Lemma full_short e : entry_ok e -> (length (full e) < FUEL)%nat.
Proof using Hsp. intros He. pose proof (eo_short _ He). destruct Hsp as [Hs _ _ _]. unfold short, full, FUEL in *. rewrite length_app. cbn [length]. lia. Qed.
Lemma no_slash e : entry_ok e -> slash ∉ name_of (snd e).
Proof using. clear. intros He Hin. pose proof (eo_chars _ He) as Hc. rewrite Forall_forall in Hc. by destruct (Hc _ Hin). Qed.
Lemma name_short e : entry_ok e -> short (name_of (snd e)).
Proof using. clear. intros He. pose proof (eo_short _ He). unfold short. lia. Qed.
Lemma first_dot_le n : (first_dot n <= length n)%nat.
Proof using. clear. induction n as [|c n IH]; cbn; [lia|]. destruct (c =? dot); lia. Qed.
(** The icon of a shown entry. *)
Lemma show_run f e i : entry_ok e -> exists n, 0 <= i < 50 /\ widgetsNum f < 32 ->
  (j <- on_mem (dot_index FUEL p 0) ;;
   pic <- on_mem (choose_picture (stat_type (full e)) p j) ;;
   name <- on_mem (string_at p) ;;
   set_icon i (mkIcon (fst (pos i)) (snd (pos i)) pic name) ;;;
   add_widget i ;;;
   (when Z.rem (i + 1) 2 =? 0 do updateWindow) ;;;
   ret (i + 1)) (with_mem f (entry_named (fo_mem f) e)) = Ok (i + 1, add_shown f (entry_named (fo_mem f) e) i e n).
Proof using Hsp.
  intros He. exists (if Z.rem (i + 1) 2 =? 0 then updates f + 1 else updates f). intros [Hi Hw].
  pose proof (named_name (fo_mem f) e He) as Hn. pose proof (name_short e He) as Sn. set (m := entry_named (fo_mem f) e) in *. set (g := with_mem f m).
  pose proof (dot_index_run m p _ Hn (fuel_ok _ Sn) _ FUEL 0 eq_refl ltac:(lia) ltac:(rewrite drop_0; by apply fuel_ok)) as Ej.
  change (Z.of_nat 0) with 0 in Ej. rewrite drop_0 in Ej. rewrite (on_mem_read _ _ g _ Ej).
  rewrite (on_mem_read _ _ g (picture_of (stat_type (full e)) (name_of (snd e)))).
  2: { apply choose_picture_run; [|done]. intros k Hk. pose proof (first_dot_le (name_of (snd e))). pose proof (eo_short _ He).
       cbn [g fo_mem with_mem]. unfold m. rewrite entry_named_at by (apply He || lia). by apply raw_nth. }
  rewrite (on_mem_read _ _ g (name_of (snd e))) by (by apply string_at_ok).
  unfold set_icon. rewrite (proj2 (Z.ltb_lt _ _)) by lia. erewrite bind_Ok; [|reflexivity].
  unfold add_widget. rewrite bind_assoc. erewrite bind_Ok; [|reflexivity]. cbn [widgetsNum g with_mem]. rewrite (proj2 (Z.ltb_lt _ _)) by lia.
  erewrite bind_Ok; [|reflexivity]. destruct (Z.rem (i + 1) 2 =? 0); (erewrite bind_Ok; [|reflexivity]); reflexivity.
Qed.
Lemma ls_entry_run f i e : reading (fo_mem f) -> entry_ok e -> descriptors f < NOFILE -> (shown e -> 0 <= i < 50 /\ widgetsNum f < 32) ->
  exists m n, reading m /\ ls_entry stat_type lit_dot lit_dotdot buf de pos p i e f =
    if decide (shown e) then Ok (i + 1, add_shown f m i e n) else Ok (i, with_mem f m).
Proof using Hsp.
  intros Hr He Hd Hw. unfold ls_entry. rewrite (on_mem_bind _ _ _ tt (entry_read (fo_mem f) e) eq_refl).
  destruct (Z.eqb_spec (fst e) 0) as [H0|H0].
  { exists (entry_read (fo_mem f) e), 0. split; [apply reading_read; [done | apply He]|]. rewrite decide_False; [done|]. by intros [? _]. }
  rewrite on_mem_modify, with_mem_twice, fo_mem_with. unfold set_byte. rewrite on_mem_modify, with_mem_twice, fo_mem_with.
  fold (entry_named (fo_mem f) e).
  destruct (show_run f e i He) as (n & En). set (m := entry_named (fo_mem f) e) in *. set (g := with_mem f m) in *.
  pose proof (reading_named _ e Hr (eo_len _ He)) as Hm. pose proof (named_path _ e Hr He) as Hp. pose proof (named_name (fo_mem f) e He) as Hn. fold m in Hm, Hp, Hn.
  pose proof (full_short e He) as Hf. exists m, n. split; [done|].
  assert (Es : string_at buf (fo_mem g) = Ok (full e, fo_mem g)) by (change (fo_mem g) with m; unfold string_at; by rewrite (string_from_run _ _ _ FUEL Hp Hf)).
  rewrite (on_mem_read _ _ _ _ Es). unfold stat. rewrite bind_assoc. erewrite bind_Ok; [|reflexivity]. cbn [descriptors g with_mem].
  rewrite (proj2 (Z.ltb_lt _ _) Hd). erewrite bind_Ok; [|reflexivity].
  destruct (Z.ltb_spec (stat_type (full e)) 0) as [Hs|Hs].
  { rewrite decide_False; [done|]. intros (_ & ? & _). lia. }
  rewrite (on_mem_read _ _ g _ (fmtname_run m buf l _ Hp (no_slash e He) Hf)). fold p.
  destruct (strcmp_ok m p lit_dot _ _ Hn (rd_dot _ Hm) (name_short e He)) as (c1 & F1 & V1).
  destruct (strcmp_ok m p lit_dotdot _ _ Hn (rd_dotdot _ Hm) (name_short e He)) as (c2 & F2 & V2).
  rewrite (on_mem_read _ _ g _ F1), (on_mem_read _ _ g _ F2).
  destruct ((c1 =? 0) || (c2 =? 0) || (stat_type (full e) =? T_DEV)) eqn:Eskip.
  - rewrite decide_False; [done|]. intros (_ & _ & ? & ? & ?). rewrite !orb_true_iff, !Z.eqb_eq, V1, V2 in Eskip. tauto.
  - apply orb_false_iff in Eskip as [Eskip E3]. apply orb_false_iff in Eskip as [E1 E2]. rewrite Z.eqb_neq in E1, E2, E3. rewrite V1 in E1. rewrite V2 in E2.
    assert (Hshow : shown e) by (unfold shown; tauto). rewrite decide_True by done. by apply En, Hw.
Qed.

(** ** The whole folder *)

(** The icons and widgets of the entries [sh], from icon [i] on. *)
Record listed_from (f f' : folder) (i : Z) (sh : list (Z * list Z)) : Prop := mkListed {
  li_num : widgetsNum f' = widgetsNum f + Z.of_nat (length sh);
  li_icons : forall k e, sh !! k = Some e -> icons f' (i + Z.of_nat k) = icon_of (i + Z.of_nat k) e;
  li_widgets : forall k e, sh !! k = Some e -> widgets f' (widgetsNum f + Z.of_nat k) = Some (i + Z.of_nat k);
  li_keep_icons : forall k, k < i -> icons f' k = icons f k;
  li_keep : forall w, w < widgetsNum f -> widgets f' w = widgets f w;
  li_desc : descriptors f' = descriptors f }.
Lemma listed_nil f m i : listed_from f (with_mem f m) i [].
Proof using. clear Hsp p. split; cbn; try done; lia. Qed.
Lemma listed_skip f m f' i sh : listed_from (with_mem f m) f' i sh -> listed_from f f' i sh.
Proof using. clear Hsp p. by intros [? ? ? ? ? ?]. Qed.
Lemma listed_cons f m n f' i e sh : listed_from (add_shown f m i e n) f' (i + 1) sh -> listed_from f f' i (e :: sh).
Proof using.
  clear Hsp p. intros [H1 H2 H3 H4 H5 H6]. unfold add_shown in *. cbn [widgetsNum icons widgets descriptors] in *. split.
  - rewrite H1. cbn [length]. lia.
  - intros [|k] e' Hk.
    + injection Hk as <-. rewrite Z.add_0_r, H4 by lia. apply upd_eq.
    + replace (i + Z.of_nat (S k)) with (i + 1 + Z.of_nat k) by lia. by apply H2.
  - intros [|k] e' Hk.
    + rewrite !Z.add_0_r, H5 by lia. apply upd_eq.
    + replace (i + Z.of_nat (S k)) with (i + 1 + Z.of_nat k) by lia. rewrite <- (H3 k e' Hk). f_equal. lia.
  - intros k Hk. rewrite H4 by lia. apply upd_ne. lia.
  - intros w Hw. rewrite H5 by lia. apply upd_ne. lia.
  - done.
Qed.
Lemma ls_loop_run es : forall f i, reading (fo_mem f) -> Forall entry_ok es -> descriptors f < NOFILE -> 0 <= i -> i <= widgetsNum f ->
  widgetsNum f + Z.of_nat (length (filter shown es)) <= 32 ->
  exists f', ls_loop stat_type lit_dot lit_dotdot buf de pos p i es f = Ok (tt, f') /\ listed_from f f' i (filter shown es).
Proof using Hsp.
  induction es as [|e es IH]; intros f i Hr He Hd Hi Hw Hroom.
  { exists (with_mem f (fo_mem f)). split; [by destruct f | apply listed_nil]. }
  apply Forall_cons in He as [He Hes]. cbn [ls_loop]. rewrite filter_cons in Hroom |- *.
  destruct (ls_entry_run f i e Hr He Hd) as (m & n & Hm & E). { intros Hs. rewrite decide_True in Hroom by done. cbn [length] in Hroom. lia. }
  destruct (decide (shown e)) as [Hs|Hs]; rewrite (bind_Ok _ _ _ _ _ E).
  - destruct (IH (add_shown f m i e n) (i + 1)) as (f' & E' & L'); try done; cbn [add_shown widgetsNum length] in *; try lia.
    exists f'. split; [done | by eapply listed_cons].
  - destruct (IH (with_mem f m) i) as (f' & E' & L'); try done. exists f'. split; [done | by eapply listed_skip].
Qed.

(** The beginning of [ls]: the path and a slash in [buf]. *)
Lemma path_copied m path : str_at m path l -> clear_of buf 512 path (Z.of_nat (length l) + 1) -> str_at m lit_dot [dot] -> str_at m lit_dotdot [dot; dot] ->
  exists m1, strcpy buf path m = Ok (tt, m1) /\ to_end FUEL buf m1 = Ok (buf + Z.of_nat (length l), m1) /\
    reading (upd m1 (buf + Z.of_nat (length l)) slash).
Proof using Hsp.
  intros Hp Hc H1 H2. destruct Hsp as [Hs _ _ (L1 & L2 & _)]. unfold clear_of, short in *.
  destruct (strcpy_run l m buf path FUEL Hp) as (m1 & E & A & O). { unfold clear_of. lia. } { unfold FUEL. lia. }
  exists m1. unfold strcpy, lib. rewrite E. split; [done|]. split; [apply to_end_run; [done | unfold FUEL; lia]|]. split.
  - intros i c Hi. apply str_at_lookup in A as [A _]. apply lookup_app_Some in Hi as [Hi|[Hi Hj]].
    + rewrite upd_ne; [by apply A|]. apply lookup_lt_Some in Hi. lia.
    + destruct (i - length l)%nat as [|k] eqn:Ek; [|done]. injection Hj as <-. replace i with (length l) by lia. apply upd_eq.
  - revert H1. apply str_at_agree. intros x Hx. cbn in Hx. rewrite upd_ne by lia. apply O. lia.
  - revert H2. apply str_at_agree. intros x Hx. cbn in Hx. rewrite upd_ne by lia. apply O. lia.
Qed.

Context (dir : list Z -> option (option (list (Z * list Z)))).
(** C39 The window shows the folder.  When the folder can be opened, with a free descriptor left for [stat]
    and room for the widgets, [ls] gives each entry that is in use, is not [.]
    or [..] and is not a device, in directory order, an icon at the place for
    its number with its name and the picture of its kind, and a widget that
    shows this icon, after the widgets already there; one descriptor stays
    open. *)
Theorem ls_shows_folder path f es : str_at (fo_mem f) path l -> clear_of buf 512 path (Z.of_nat (length l) + 1) ->
  str_at (fo_mem f) lit_dot [dot] -> str_at (fo_mem f) lit_dotdot [dot; dot] ->
  dir l = Some (Some es) -> Forall entry_ok es -> descriptors f + 1 < NOFILE -> 0 <= widgetsNum f ->
  widgetsNum f + Z.of_nat (length (filter shown es)) <= 32 ->
  exists f', ls stat_type dir lit_dot lit_dotdot buf de pos path f = Ok (tt, f') /\
    widgetsNum f' = widgetsNum f + Z.of_nat (length (filter shown es)) /\
    (forall k e, filter shown es !! k = Some e -> icons f' (Z.of_nat k) = icon_of (Z.of_nat k) e /\
      widgets f' (widgetsNum f + Z.of_nat k) = Some (Z.of_nat k)) /\
    (forall w, w < widgetsNum f -> widgets f' w = widgets f w) /\ descriptors f' = descriptors f + 1.
Proof using Hsp.
  intros Hp Hc H1 H2 Hdir Hes Hd H0 Hroom. pose proof (sp_short Hsp) as Hs.
  unfold ls. rewrite (on_mem_read _ _ _ _ (string_at_ok _ _ _ Hp Hs)). erewrite bind_Ok; [|reflexivity].
  rewrite (proj2 (Z.ltb_lt _ _)) by lia. rewrite Hdir. erewrite bind_Ok; [|reflexivity]. set (f1 := mkFolder _ _ _ _ _ _).
  destruct (path_copied (fo_mem f) path Hp Hc H1 H2) as (m1 & E1 & E2 & Hr).
  rewrite (on_mem_bind _ _ f1 _ _ E1), (on_mem_read _ _ (with_mem f1 m1) _ E2).
  rewrite (on_mem_bind _ _ (with_mem f1 m1) tt _ eq_refl), with_mem_twice.
  destruct (ls_loop_run es (with_mem f1 (upd m1 (buf + Z.of_nat (length l)) slash)) 0 Hr Hes Hd ltac:(lia) H0 Hroom) as (f' & E & [L1 L2 L3 _ L5 L6]).
  exists f'. split; [exact E|]. split; [exact L1|]. split; [|by split]. intros k e Hk. split; [exact (L2 k e Hk) | exact (L3 k e Hk)].
Qed.

(** Every listing keeps a descriptor; once they are used up, a refresh removes
    all icons and shows none. *)
Theorem refresh_exhausted path f first : str_at (fo_mem f) path l -> NOFILE <= descriptors f -> exists f',
  refresh stat_type dir lit_dot lit_dotdot buf de pos first path f = Ok (tt, f') /\ widgetsNum f' = first.
Proof using Hsp.
  intros Hp Hd. unfold refresh. do 2 (erewrite bind_Ok; [|reflexivity]). unfold ls. rewrite bind_assoc.
  erewrite on_mem_read by (apply string_at_ok; [exact Hp | apply Hsp]). rewrite bind_assoc. erewrite bind_Ok; [|reflexivity].
  cbn [descriptors]. rewrite (proj2 (Z.ltb_ge _ _)) by lia. erewrite bind_Ok; [|reflexivity]. eexists. split; [reflexivity | done].
Qed.
End Folder.

(** ** A concrete folder: [.], [a.bmp], a free entry and [docs] *)
Definition raw (n : list Z) : list Z := n ++ repeat 0 (DIRSIZ - length n).
Definition demo_entries : list (Z * list Z) := [(1, raw [dot]); (5, raw [97; 46; 98; 109; 112]); (0, raw []); (6, raw [100; 111; 99; 115])].
Definition demo_type (path : list Z) : Z := if decide (path = [dot; slash; 100; 111; 99; 115]) then T_DIR else T_FILE.
Definition demo_folder : folder :=
  mkFolder (lay_mem [(0x1000, [dot]); (0x2000, [dot]); (0x2010, [dot; dot])]) (fun _ => no_icon) (fun _ => None) 3 4 0.
Lemma demo_space : space 0x2000 0x2010 0x3000 0x4000 [dot].
Proof. split; unfold clear_of, short; cbn; try lia. by constructor. Qed.
Lemma name_of_raw n : Forall (fun c => 0 < c < 256 /\ c <> slash) n -> forall k, name_of (n ++ repeat 0 k) = n.
Proof.
  induction 1 as [|c n [Hc _] _ IH]; intros k; cbn [app name_of]; [by destruct k|].
  unfold truthy. rewrite (proj2 (Z.eqb_neq c 0)) by lia. cbn. by rewrite IH.
Qed.
Lemma raw_ok i n : Forall (fun c => 0 < c < 256 /\ c <> slash) n -> (length n <= 27)%nat -> entry_ok (i, raw n).
Proof.
  intros Hn Hl. split; cbn [snd]; unfold raw; rewrite ?name_of_raw by done; [by eexists | | done | done].
  rewrite length_app, repeat_length. unfold DIRSIZ. lia.
Qed.
Lemma demo_entries_ok : Forall entry_ok demo_entries.
Proof. repeat apply Forall_cons_2; try apply Forall_nil_2; (apply raw_ok; [unfold slash, dot; repeat constructor; lia | cbn; lia]). Qed.
Lemma ls_shows_folder_witness : exists f', explorer_ls demo_type (fun _ => Some (Some demo_entries)) 0x2000 0x2010 0x3000 0x4000 0x1000 demo_folder = Ok (tt, f') /\
  widgetsNum f' = 5 /\ icons f' 1 = mkIcon 190 150 (Some "folder.bmp"%string) [100; 111; 99; 115].
Proof.
  destruct (ls_shows_folder demo_type 0x2000 0x2010 0x3000 0x4000 explorer_pos [dot] demo_space (fun _ => Some (Some demo_entries)) 0x1000 demo_folder demo_entries)
    as (f' & E & H1 & H2 & _).
  - vm_compute. repeat split; reflexivity.
  - unfold clear_of. cbn. lia.
  - vm_compute. repeat split; reflexivity.
  - vm_compute. repeat split; reflexivity.
  - reflexivity.
  - exact demo_entries_ok.
  - unfold NOFILE. cbn. lia.
  - cbn. lia.
  - vm_compute. discriminate.
  - exists f'. split; [exact E|]. split; [exact H1|]. destruct (H2 1%nat _ (eq_refl : _ = Some (6, raw [100; 111; 99; 115]))) as [Hi _]. exact Hi.
Defined.
