(* ===== verification/Mp.v ===== *)
(** * Mp: finding the processors (src/src/mp.c)

    Memory is read by kernel virtual address.  The tables are the bytes the
    firmware left there; the structures of mp.h are read at their offsets. *)
From S2P Require Import Prelude CString.

Definition KERNBASE : Z := 0x80000000.
Definition p2v (a : Z) : Z := u32 (a + KERNBASE).
(** mp.h *)
Definition SIZEOF_MP : Z := 16.
Definition SIZEOF_MPCONF : Z := 44.
Definition SIZEOF_MPPROC : Z := 20.
Definition SIZEOF_MPIOAPIC : Z := 8.
Definition MPBOOT : Z := 0x02.
Definition MPPROC : Z := 0.
Definition MPBUS : Z := 1.
Definition MPIOAPIC : Z := 2.
Definition MPIOINTR : Z := 3.
Definition MPLINTR : Z := 4.
Definition NCPU : Z := 8.
(** "_MP_" and "PCMP". *)
Definition SIG_MP : list Z := [95; 77; 80; 95].
Definition SIG_PCMP : list Z := [80; 67; 77; 80].

(** [sum] adds in an [int] and returns a [uchar]. *)
Definition sum (m : mem) (addr len : Z) : Z :=
  u8 (zfor 0 len (fun i s => s32 (s + m (addr + i))) 0).
(** [memcmp(p, sig, 4) == 0] with a literal. *)
Definition has_sig (m : mem) (p : Z) (sig : list Z) : bool :=
  bool_decide (map m [p; p + 1; p + 2; p + 3] = sig).

(** The loop of [mpsearch1], from [p] to [e]; 0 when nothing is found. *)
Fixpoint mpsearch1_loop (m : mem) (fuel : nat) (p e : Z) : outcome Z :=
  match fuel with
  | O => OutOfFuel
  | S fuel =>
      if p <? e then
        if has_sig m p SIG_MP && (sum m p SIZEOF_MP =? 0) then Ok p
        else mpsearch1_loop m fuel (u32 (p + SIZEOF_MP)) e
      else Ok 0
  end.
Definition mpsearch1 (m : mem) (a len : Z) : outcome Z :=
  let addr := p2v a in
  mpsearch1_loop m (S (Z.to_nat ((len + 15) / 16))) addr (u32 (addr + len)).
Definition mpsearch (m : mem) : outcome Z :=
  let bda := u32 (0x400 + KERNBASE) in
  let p := u32 (Z.shiftl (Z.lor (Z.shiftl (m (bda + 0x0F)) 8) (m (bda + 0x0E))) 4) in
  let last := mpsearch1 m 0xF0000 0x10000 in
  let first := if truthy p then mpsearch1 m p 1024
               else
                 let p := u32 (Z.lor (Z.shiftl (m (bda + 0x14)) 8) (m (bda + 0x13)) * 1024) in
                 mpsearch1 m (u32 (p - 1024)) 1024 in
  match first with
  | Ok mp => if truthy mp then Ok mp else last
  | o => o
  end.
(** The floating pointer and the table header, if the table is accepted. *)
Definition mpconfig (m : mem) : outcome (option (Z * Z)) :=
  match mpsearch m with
  | Ok mp =>
      if (mp =? 0) || (get32 m (mp + 4) =? 0) then Ok None
      else
        let conf := p2v (get32 m (mp + 4)) in
        if negb (has_sig m conf SIG_PCMP) then Ok None
        else if negb (m (conf + 6) =? 1) && negb (m (conf + 6) =? 4) then Ok None
        else if negb (sum m conf (get16 m (conf + 4)) =? 0) then Ok None
        else Ok (Some (mp, conf))
  | Panic e => Panic e
  | Fault => Fault
  | OutOfFuel => OutOfFuel
  end.

(** The globals.  [ports] are the writes to I/O ports; [imcr] what port 0x23
    reads. *)
Record mpstate := mkMp {
  cpu_id : Z -> Z;
  bcpu : Z;
  ismp : Z;
  ncpu : Z;
  ioapicid : Z;
  lapic : Z;
  ports : list (Z * Z) }.
Definition mpbcpu (s : mpstate) : Z := bcpu s.
Definition set_bcpu (i : Z) (s : mpstate) : mpstate := mkMp (cpu_id s) i (ismp s) (ncpu s) (ioapicid s) (lapic s) (ports s).
Definition set_ismp (b : Z) (s : mpstate) : mpstate := mkMp (cpu_id s) (bcpu s) b (ncpu s) (ioapicid s) (lapic s) (ports s).
Definition set_ioapicid (i : Z) (s : mpstate) : mpstate := mkMp (cpu_id s) (bcpu s) (ismp s) (ncpu s) i (lapic s) (ports s).
Definition set_lapic (a : Z) (s : mpstate) : mpstate := mkMp (cpu_id s) (bcpu s) (ismp s) (ncpu s) (ioapicid s) a (ports s).
Definition new_cpu (s : mpstate) : mpstate :=
  mkMp (upd (cpu_id s) (ncpu s) (u8 (ncpu s))) (bcpu s) (ismp s) (ncpu s + 1) (ioapicid s) (lapic s) (ports s).
Definition outb (port v : Z) (s : mpstate) : mpstate :=
  mkMp (cpu_id s) (bcpu s) (ismp s) (ncpu s) (ioapicid s) (lapic s) (ports s ++ [(port, v)]).
Definition MPM : Type -> Type := M mpstate.

(** The case of a processor: entry number [ncpu] of [cpus] is filled in. *)
Definition add_proc (m : mem) (p : Z) : MPM unit :=
  n <- gets ncpu ;;
  (when negb (n =? m (p + 1)) do modify (set_ismp 0)) ;;;
  if n <? NCPU then
    (when truthy (Z.land (m (p + 3)) MPBOOT) do modify (set_bcpu n)) ;;;
    modify new_cpu
  else fault.
(** The loop over the table, from [p] to [e].  The messages are left out. *)
Fixpoint scan (m : mem) (fuel : nat) (p e : Z) : MPM unit :=
  match fuel with
  | O => out_of_fuel
  | S fuel =>
      if p <? e then
        if m p =? MPPROC then add_proc m p ;;; scan m fuel (p + SIZEOF_MPPROC) e
        else if m p =? MPIOAPIC then modify (set_ioapicid (m (p + 1))) ;;; scan m fuel (p + SIZEOF_MPIOAPIC) e
        else if (m p =? MPBUS) || (m p =? MPIOINTR) || (m p =? MPLINTR) then scan m fuel (p + 8) e
        else modify (set_ismp 0) ;;; scan m fuel p e
      else ret tt
  end.
Definition mpinit (m : mem) (imcr : Z) (fuel : nat) : MPM unit :=
  modify (set_bcpu 0) ;;;
  c <- (fun s => match mpconfig m with Ok c => Ok (c, s) | Panic e => Panic e | Fault => Fault | OutOfFuel => OutOfFuel end) ;;
  match c with
  | None => ret tt
  | Some (mp, conf) =>
      modify (set_ismp 1) ;;;
      modify (set_lapic (get32 m (conf + 36))) ;;;
      scan m fuel (conf + SIZEOF_MPCONF) (conf + get16 m (conf + 4)) ;;;
      b <- gets ismp ;;
      if negb (truthy b) then
        modify (fun s => set_ioapicid 0 (set_lapic 0 (mkMp (cpu_id s) (bcpu s) (ismp s) 1 (ioapicid s) (lapic s) (ports s))))
      else
        when truthy (m (mp + 12)) do
          (modify (outb 0x22 0x70) ;;; modify (outb 0x23 (Z.lor imcr 1)))
  end.

(** * The processors found are those of the table *)

(** ** The search *)
Definition is_mp (m : mem) (p : Z) : bool := has_sig m p SIG_MP && (sum m p SIZEOF_MP =? 0).
(** The first floating pointer among the [k] places from [p] on, 0 if none. *)
Fixpoint first_mp (m : mem) (p : Z) (k : nat) : Z :=
  match k with O => 0 | S k => if is_mp m p then p else first_mp m (p + SIZEOF_MP) k end.
Lemma mpsearch1_first m k : forall p fuel, 0 <= p -> p + 16 * Z.of_nat k < 2 ^ 32 -> (k < fuel)%nat ->
  mpsearch1_loop m fuel p (p + 16 * Z.of_nat k) = Ok (first_mp m p k).
Proof.
  induction k as [|k IH]; intros p [|fuel] Hp Hb Hf; try lia; cbn [mpsearch1_loop first_mp].
  - by rewrite (proj2 (Z.ltb_ge _ _)) by lia.
  - rewrite (proj2 (Z.ltb_lt _ _)) by lia. unfold is_mp. destruct (_ && _); [done|].
    replace (p + 16 * Z.of_nat (S k)) with (p + 16 + 16 * Z.of_nat k) by lia.
    unfold SIZEOF_MP. rewrite u32_small by lia. apply IH; lia.
Qed.
(** A range in low memory. *)
Lemma mpsearch1_low m a k : 0 <= a -> a + 16 * Z.of_nat k < KERNBASE ->
  mpsearch1 m a (16 * Z.of_nat k) = Ok (first_mp m (KERNBASE + a) k).
Proof.
  intros Ha Hb. unfold KERNBASE in *. unfold mpsearch1, p2v, KERNBASE. rewrite !u32_small by (rewrite ?u32_small; lia).
  rewrite (Z.add_comm a). apply mpsearch1_first; [lia | lia|].
  replace (16 * Z.of_nat k + 15) with (15 + Z.of_nat k * 16) by lia. rewrite Z_div_plus by lia. change (15 / 16) with 0. lia.
Qed.

(** ** The table *)
Inductive mpentry := EProc (apicid flags : Z) | EIoapic (no : Z) | EOther (ty : Z).
Definition entry_size (e : mpentry) : Z := match e with EProc _ _ => 20 | _ => 8 end.
Definition entry_at (m : mem) (p : Z) (e : mpentry) : Prop :=
  match e with
  | EProc a f => m p = MPPROC /\ m (p + 1) = a /\ m (p + 3) = f
  | EIoapic n => m p = MPIOAPIC /\ m (p + 1) = n
  | EOther t => m p = t /\ t ∈ [MPBUS; MPIOINTR; MPLINTR]
  end.
Fixpoint table_at (m : mem) (p : Z) (es : list mpentry) (e : Z) : Prop :=
  match es with
  | [] => p = e
  | x :: es => entry_at m p x /\ table_at m (p + entry_size x) es e
  end.
Definition procs_of (es : list mpentry) : list (Z * Z) := omap (fun e => match e with EProc a f => Some (a, f) | _ => None end) es.
Definition ioapics_of (es : list mpentry) : list Z := omap (fun e => match e with EIoapic n => Some n | _ => None end) es.
(** The processors are listed in the order of their numbers, from [n] on. *)
Definition in_order (n : Z) (l : list (Z * Z)) : Prop := map fst l = seqZ n (Z.of_nat (length l)).
#[export] Instance in_order_dec n l : Decision (in_order n l).
Proof. unfold in_order. solve_decision. Defined.
(** The last one with the boot flag. *)
Fixpoint boot_of (b n : Z) (l : list (Z * Z)) : Z :=
  match l with [] => b | (_, f) :: l => boot_of (if Z.testbit f 1 then n else b) (n + 1) l end.

Lemma table_le m es : forall p e, table_at m p es e -> p <= e.
Proof.
  induction es as [|x es IH]; intros p e H; cbn in H; [lia|]. destruct H as [_ H]. apply IH in H. destruct x; cbn in H; lia.
Qed.
Lemma in_order_cons n a f l : in_order n ((a, f) :: l) <-> a = n /\ in_order (n + 1) l.
Proof.
  unfold in_order. cbn [map length fst]. rewrite seqZ_cons by lia. replace (Z.pred (Z.of_nat (S (length l)))) with (Z.of_nat (length l)) by lia.
  replace (Z.succ n) with (n + 1) by lia. split; [by intros [= -> ->] | by intros [-> ->]].
Qed.

(** What scanning the entries [es] makes of the globals. *)
Record scanned (s s' : mpstate) (es : list mpentry) : Prop := mkScanned {
  sc_ncpu : ncpu s' = ncpu s + Z.of_nat (length (procs_of es));
  sc_ismp : ismp s' = if decide (in_order (ncpu s) (procs_of es)) then ismp s else 0;
  sc_bcpu : bcpu s' = boot_of (bcpu s) (ncpu s) (procs_of es);
  sc_ioapic : ioapicid s' = List.last (ioapics_of es) (ioapicid s);
  sc_lapic : lapic s' = lapic s;
  sc_ports : ports s' = ports s;
  sc_old : forall i, i < ncpu s -> cpu_id s' i = cpu_id s i;
  sc_ids : forall i, ncpu s <= i < ncpu s' -> cpu_id s' i = i }.
Lemma last_cons (x d : Z) l : List.last (x :: l) d = List.last l x.
Proof. revert x d. induction l as [|y l IH]; intros x d; [done|]. change (List.last (y :: l) d = List.last (y :: l) x). by rewrite !IH. Qed.
Lemma boot_bit f : truthy (Z.land f MPBOOT) = Z.testbit f 1.
Proof. unfold truthy, MPBOOT. change 0x02 with (2 ^ 1). rewrite land_bit by lia. apply negb_involutive. Qed.

(** One processor. *)
Definition after_proc (s : mpstate) (a f : Z) : mpstate :=
  mkMp (upd (cpu_id s) (ncpu s) (u8 (ncpu s))) (if Z.testbit f 1 then ncpu s else bcpu s) (if ncpu s =? a then ismp s else 0)
    (ncpu s + 1) (ioapicid s) (lapic s) (ports s).
Lemma add_proc_run m p a f s : entry_at m p (EProc a f) -> ncpu s < NCPU -> add_proc m p s = Ok (tt, after_proc s a f).
Proof.
  intros (_ & Ha & Hf) Hn. unfold add_proc. erewrite bind_Ok; [|reflexivity]. rewrite Ha, Hf, boot_bit, (proj2 (Z.ltb_lt _ _) Hn). unfold after_proc.
  destruct (ncpu s =? a), (Z.testbit f 1); cbn [negb]; repeat (erewrite bind_Ok; [|reflexivity]); reflexivity.
Qed.
Lemma scanned_proc s s' a f es : 0 <= ncpu s < NCPU -> scanned (after_proc s a f) s' es -> scanned s s' (EProc a f :: es).
Proof.
  unfold NCPU. intros Hn [H1 H2 H3 H4 H5 H6 H7 H8]. unfold after_proc in *. cbn [ncpu ismp bcpu ioapicid lapic ports cpu_id] in *.
  split; change (procs_of (EProc a f :: es)) with ((a, f) :: procs_of es); try done.
  - rewrite H1. cbn [length]. lia.
  - rewrite H2. destruct (Z.eqb_spec (ncpu s) a) as [E|E].
    + apply decide_ext. rewrite in_order_cons. naive_solver.
    + rewrite (decide_False (P := in_order (ncpu s) _)) by (rewrite in_order_cons; naive_solver). by case_decide.
  - intros i Hi. rewrite H7 by lia. apply upd_ne. lia.
  - intros i Hi. destruct (decide (i = ncpu s)) as [->|]; [|apply H8; lia]. rewrite H7 by lia. rewrite upd_eq. unfold u8. apply Z.mod_small. lia.
Qed.
Lemma scan_table m es : forall p e s fuel, table_at m p es e -> 0 <= ncpu s -> ncpu s + Z.of_nat (length (procs_of es)) <= NCPU -> (length es < fuel)%nat ->
  exists s', scan m fuel p e s = Ok (tt, s') /\ scanned s s' es.
Proof.
  induction es as [|x es IH]; intros p e s [|fuel] Ht H0 Hn Hf; cbn [length] in Hf; try lia; cbn [scan table_at] in *.
  - rewrite (proj2 (Z.ltb_ge _ _)) by lia. exists s. split; [done|]. by split; try done; cbn; intros; lia.
  - destruct Ht as [Hx Ht]. pose proof (table_le _ _ _ _ Ht) as Hle. rewrite (proj2 (Z.ltb_lt _ _)) by (destruct x; cbn in Hle; lia).
    destruct x as [a f|n|t]; cbn [entry_size] in *.
    + change (procs_of (EProc a f :: es)) with ((a, f) :: procs_of es) in Hn. cbn [length] in Hn.
      rewrite (proj1 Hx), Z.eqb_refl. rewrite (bind_Ok _ _ _ _ _ (add_proc_run m p a f s Hx ltac:(lia))).
      destruct (IH (p + 20) e (after_proc s a f) fuel Ht) as (s' & E & Hs); cbn [after_proc ncpu]; try lia.
      exists s'. split; [exact E|]. apply scanned_proc; [lia | done].
    + destruct Hx as [Hx Hx1]. rewrite Hx, Hx1. change (MPIOAPIC =? MPPROC) with false. rewrite Z.eqb_refl. cbv iota. erewrite bind_Ok; [|reflexivity].
      destruct (IH (p + 8) e (set_ioapicid n s) fuel Ht) as (s' & E & [H1 H2 H3 H4 H5 H6 H7 H8]); try done; try lia.
      exists s'. split; [exact E|]. split; try done. rewrite H4. symmetry. apply last_cons.
    + destruct Hx as [Hx Hx1]. rewrite Hx. destruct (IH (p + 8) e s fuel Ht) as (s' & E & [H1 H2 H3 H4 H5 H6 H7 H8]); try done; try lia.
      exists s'. split; [|by split].
      apply elem_of_cons in Hx1 as [->|Hx1]; [exact E|]. apply elem_of_cons in Hx1 as [->|Hx1]; [exact E|]. by apply list_elem_of_singleton in Hx1 as ->.
Qed.

(** The search looks at the first kilobyte of the extended BIOS data area or,
    when there is none, at the last kilobyte of base memory, then at the BIOS;
    it always returns. *)
Lemma low_or x y : 0 <= x < 256 -> 0 <= y < 256 -> 0 <= Z.lor (Z.shiftl x 8) y < 2 ^ 16.
Proof.
  intros Hx Hy. split; [apply Z.lor_nonneg; split; [apply Z.shiftl_nonneg; lia | lia]|].
  apply Z.log2_lt_cancel. change (Z.log2 (2 ^ 16)) with 16. rewrite Z.log2_lor by (try apply Z.shiftl_nonneg; lia).
  rewrite Z.shiftl_mul_pow2 by lia. apply Z.max_lub_lt.
  - destruct (decide (x = 0)) as [->|]; [done|]. apply Z.log2_lt_pow2; lia.
  - destruct (decide (y = 0)) as [->|]; [done|]. apply Z.log2_lt_pow2; lia.
Qed.
Definition bda_word (m : mem) (o : Z) : Z := Z.lor (Z.shiftl (m (KERNBASE + 0x401 + o)) 8) (m (KERNBASE + 0x400 + o)).
Definition first_place (m : mem) : Z :=
  if truthy (bda_word m 0x0E) then bda_word m 0x0E * 16 else bda_word m 0x13 * 1024 - 1024.
Lemma or_else (q r : Z) : match Ok q with Ok x => if truthy x then Ok x else Ok r | o => o end = Ok (if truthy q then q else r).
Proof. cbv beta iota. by destruct (truthy q). Qed.
Lemma mpsearch_places m : (forall x, 0 <= m x < 256) -> bda_word m 0x0E <> 0 \/ 0 < bda_word m 0x13 ->
  mpsearch m = Ok (let q := first_mp m (KERNBASE + first_place m) 64 in if truthy q then q else first_mp m (KERNBASE + 0xF0000) 4096).
Proof.
  intros Hm Hp. assert (Hlast : mpsearch1 m 0xF0000 0x10000 = Ok (first_mp m (KERNBASE + 0xF0000) 4096)).
  { apply (mpsearch1_low m 0xF0000 4096); unfold KERNBASE; lia. }
  assert (W : forall o, 0 <= bda_word m o < 2 ^ 16) by (intros o; apply low_or; apply Hm).
  unfold mpsearch. rewrite Hlast. change (u32 (0x400 + KERNBASE)) with (KERNBASE + 0x400).
  change (Z.lor _ (m (KERNBASE + 0x400 + 0x0E))) with (bda_word m 0x0E). change (Z.lor _ (m (KERNBASE + 0x400 + 0x13))) with (bda_word m 0x13).
  pose proof (W 0x0E) as W1. pose proof (W 0x13) as W2. unfold first_place.
  rewrite Z.shiftl_mul_pow2 by lia. rewrite (u32_small (bda_word m 0x0E * 2 ^ 4)) by lia.
  assert (Ht : truthy (bda_word m 0x0E * 2 ^ 4) = truthy (bda_word m 0x0E)) by (unfold truthy; f_equal; apply eq_true_iff_eq; rewrite !Z.eqb_eq; lia).
  rewrite Ht. destruct (truthy (bda_word m 0x0E)) eqn:Et; unfold truthy in Et.
  - change (2 ^ 4) with 16. pose proof (mpsearch1_low m (bda_word m 0x0E * 16) 64 ltac:(lia) ltac:(unfold KERNBASE; lia)) as E.
    change (16 * Z.of_nat 64) with 1024 in E. rewrite E. apply or_else.
  - apply negb_false_iff, Z.eqb_eq in Et. destruct Hp as [Hp|Hp]; [done|]. rewrite (u32_small (bda_word m 0x13 * 1024)) by lia. rewrite u32_small by lia.
    pose proof (mpsearch1_low m (bda_word m 0x13 * 1024 - 1024) 64 ltac:(lia) ltac:(unfold KERNBASE; lia)) as E.
    change (16 * Z.of_nat 64) with 1024 in E. rewrite E. apply or_else.
Qed.

(** The processors of the machine.  From the initial globals and an accepted
    table with at most [NCPU] processors, [mpinit] returns.  When the
    processors are listed in the order of their numbers it counts them, gives
    each [cpus] entry its own number, takes the one with the boot flag as the
    boot processor, the last I/O APIC and the local APIC address of the table;
    otherwise it falls back to one processor without APICs. *)
Theorem mpinit_finds_cpus m imcr fuel s mp conf es : mpconfig m = Ok (Some (mp, conf)) ->
  table_at m (conf + SIZEOF_MPCONF) es (conf + get16 m (conf + 4)) -> Z.of_nat (length (procs_of es)) <= NCPU ->
  ncpu s = 0 -> (length es < fuel)%nat -> exists s', mpinit m imcr fuel s = Ok (tt, s') /\
    if decide (in_order 0 (procs_of es)) then
      ismp s' = 1 /\ ncpu s' = Z.of_nat (length (procs_of es)) /\ (forall i, 0 <= i < ncpu s' -> cpu_id s' i = i) /\
      mpbcpu s' = boot_of 0 0 (procs_of es) /\ ioapicid s' = List.last (ioapics_of es) (ioapicid s) /\ lapic s' = get32 m (conf + 36)
    else ismp s' = 0 /\ ncpu s' = 1 /\ ioapicid s' = 0 /\ lapic s' = 0.
Proof.
  intros Hc Ht Hn H0 Hf. unfold mpinit. erewrite bind_Ok; [|reflexivity]. erewrite bind_Ok; [|by rewrite Hc]. cbv beta iota.
  do 2 (erewrite bind_Ok; [|reflexivity]). set (s1 := set_lapic _ _).
  destruct (scan_table m es _ _ s1 fuel Ht) as (s2 & E & [H1 H2 H3 H4 H5 _ _ H8]); cbn [s1 ncpu set_lapic set_ismp set_bcpu] in *; try lia.
  rewrite (bind_Ok _ _ _ _ _ E). erewrite bind_Ok; [|reflexivity]. rewrite H0 in *. case_decide.
  - cbn [ismp s1 set_lapic set_ismp] in H2. rewrite H2. cbn [truthy Z.eqb negb].
    destruct (truthy (m (mp + 12))); eexists; (split; [reflexivity|]); cbn [outb ismp ncpu cpu_id bcpu ioapicid lapic mpbcpu]; split_and!; auto.
  - rewrite H2. eexists. split; [reflexivity|]. done.
Qed.

(** An entry of an unknown type is never passed: [mpinit] does not return. *)
Theorem unknown_entry_hangs m fuel p e s : p < e -> m p ∉ [MPPROC; MPBUS; MPIOAPIC; MPIOINTR; MPLINTR] -> scan m fuel p e s = OutOfFuel.
Proof.
  intros Hp Hm. revert s. induction fuel as [|fuel IH]; intros s; [done|]. cbn [scan]. rewrite (proj2 (Z.ltb_lt _ _) Hp).
  rewrite !not_elem_of_cons in Hm. destruct Hm as (N1 & N2 & N3 & N4 & N5 & _).
  rewrite (proj2 (Z.eqb_neq _ _) N1), (proj2 (Z.eqb_neq _ _) N2), (proj2 (Z.eqb_neq _ _) N3), (proj2 (Z.eqb_neq _ _) N4), (proj2 (Z.eqb_neq _ _) N5).
  cbn [orb]. erewrite bind_Ok; [|reflexivity]. apply IH.
Qed.

(** ** Two processors and an I/O APIC *)
Definition two_cpus : list Z :=
  SIG_PCMP ++ [92; 0; 4; 145] ++ replicate 28 0 ++ [0; 0; 224; 254] ++ replicate 4 0 ++
  ([0; 0; 20; 3] ++ replicate 16 0) ++ ([0; 1; 20; 1] ++ replicate 16 0) ++ [2; 2; 17; 1; 0; 0; 192; 254].
Definition demo_tables : mem :=
  put_bytes (put_bytes (put_bytes (fun _ => 0) (KERNBASE + 0x40E) [0xC0; 0x9F]) (KERNBASE + 0x9FC00)
    (SIG_MP ++ [0x10; 0xFC; 0x09; 0x00; 1; 4; 139; 0; 0; 0; 0; 0])) (KERNBASE + 0x9FC10) two_cpus.
Definition mp_bss : mpstate := mkMp (fun _ => 0) 0 0 0 0 0 [].
Lemma mpinit_finds_cpus_witness : exists s', mpinit demo_tables 0 4 mp_bss = Ok (tt, s') /\
  ismp s' = 1 /\ ncpu s' = 2 /\ (forall i, 0 <= i < ncpu s' -> cpu_id s' i = i) /\ mpbcpu s' = 0 /\ ioapicid s' = 2 /\ lapic s' = 0xFEE00000.
Proof.
  apply (mpinit_finds_cpus demo_tables 0 4 mp_bss (KERNBASE + 0x9FC00) (KERNBASE + 0x9FC10) [EProc 0 3; EProc 1 1; EIoapic 2]).
  - vm_compute. reflexivity.
  - vm_compute. repeat split; reflexivity.
  - vm_compute. discriminate.
  - reflexivity.
  - cbn. lia.
Defined.
