(* ===== verification/Mkfs.v ===== *)
(** * Mkfs: the initial disk image (src/src/mkfs.c)

    The image is a memory of bytes laid out like the disk of the kernel (Fs);
    [extent] is the number of sectors the file has so far.  A buffer of 512
    bytes is a memory as well.  An exit with an error is a [Panic].  The host
    stores integers like the target: low byte first. *)
From S2P Require Import Prelude CString Fs.

Definition LOGSIZE : Z := 30.
Definition size : Z := 20480.
Definition nblocks : Z := 20446 - LOGSIZE.
Definition nlog : Z := LOGSIZE.
Definition ninodes : Z := 200.
Record mkstate := mkMk { img : mem; extent : Z; freeblock : Z; usedblocks : Z; freeinode : Z }.
Definition K : Type -> Type := M mkstate.

Definition xshort (x : Z) : Z := get16 (put16 (fun _ => 0) 0 x) 0.
Definition xint (x : Z) : Z := get32 (put32 (fun _ => 0) 0 x) 0.

Definition write_block (m : mem) (sec : Z) (buf : mem) : mem :=
  fun x => if (sec * 512 <=? x) && (x <? sec * 512 + 512) then buf (x - sec * 512) else m x.
Definition wsect (sec : Z) (buf : mem) : K unit :=
  modify (fun s => mkMk (write_block (img s) sec buf) (Z.max (extent s) (sec + 1)) (freeblock s) (usedblocks s) (freeinode s)).
Definition rsect (sec : Z) : K mem :=
  s <- get ;;
  if sec <? extent s then ret (fun x => img s (sec * 512 + x)) else panic "read".
Definition i2b (inum : Z) : Z := inum / IPB + 2.

(** [struct dinode] at [a], and its assignment. *)
Definition dinode_of (b : mem) (a inum : Z) : inode :=
  mkInode 0 inum 0 0 (s16 (get16 b a)) (s16 (get16 b (a + 2))) (s16 (get16 b (a + 4))) (s16 (get16 b (a + 6)))
    (get32 b (a + 8)) (map (fun k => get32 b (a + 12 + 4 * k)) (seqZ 0 (NDIRECT + 2))).
Definition store_dinode (b : mem) (a : Z) (i : inode) : mem :=
  put_words (put32 (put16 (put16 (put16 (put16 b a (i_type i)) (a + 2) (i_major i)) (a + 4) (i_minor i)) (a + 6) (i_nlink i))
    (a + 8) (i_size i)) (a + 12) (i_addrs i).
Definition winode (inum : Z) (ip : inode) : K unit :=
  buf <- rsect (i2b inum) ;;
  wsect (i2b inum) (store_dinode buf (inum mod IPB * DINODE) ip).
Definition rinode (inum : Z) : K inode :=
  buf <- rsect (i2b inum) ;;
  ret (dinode_of buf (inum mod IPB * DINODE) inum).

Definition ialloc (type : Z) : K Z :=
  inum <- gets freeinode ;;
  modify (fun s => mkMk (img s) (extent s) (freeblock s) (usedblocks s) (u32 (freeinode s + 1))) ;;;
  winode inum (mkInode 0 inum 0 0 (s16 (xshort type)) 0 0 (s16 (xshort 1)) (xint 0) (replicate 13 0)) ;;;
  ret inum.

(** One bitmap block with its first [temp] bits set (lines 245-256). *)
Definition bit_block (temp : Z) : mem :=
  zfor 0 temp (fun i buf => upd buf (i / 8) (u8 (Z.lor (buf (i / 8)) (Z.shiftl 1 (i mod 8))))) (fun _ => 0).
Fixpoint balloc_loop (fuel : nat) (used j : Z) : K unit :=
  match fuel with
  | O => out_of_fuel
  | S fuel =>
      if used >? 0 then
        wsect (ninodes / IPB + 3 + j) (bit_block (if used >? 4096 then 4096 else used)) ;;;
        balloc_loop fuel (used - 4096) (j + 1)
      else ret tt
  end.
Definition balloc (used : Z) : K unit := balloc_loop (S (Z.to_nat (used / 4096 + 1))) used 0.

(** [xint(freeblock++)] and [usedblocks++]. *)
Definition new_block : K Z :=
  b <- gets freeblock ;;
  modify (fun s => mkMk (img s) (extent s) (u32 (freeblock s + 1)) (u32 (usedblocks s + 1)) (freeinode s)) ;;;
  ret (xint b).
(** A block address in the inode, allocated if it is 0. *)
Definition get_slot (din : inode) (k : Z) : K (inode * Z) :=
  if xint (addr_of din k) =? 0 then b <- new_block ;; ret (with_addr k b din, xint b)
  else ret (din, xint (addr_of din k)).
(** The same in the index block [blk]. *)
Definition get_entry (blk k : Z) : K Z :=
  indirect <- rsect blk ;;
  if get32 indirect (4 * k) =? 0 then
    b <- new_block ;;
    wsect blk (put32 indirect (4 * k) b) ;;;
    ret (xint b)
  else ret (xint (get32 indirect (4 * k))).
(** The block of the file with number [fbn] (lines 283-323). *)
Definition file_block (din : inode) (fbn : Z) : K (inode * Z) :=
  if fbn <? NDIRECT then get_slot din fbn
  else if fbn <? NDIRECT + NINDIRECT then
    let* (din, a) := get_slot din NDIRECT in
    x <- get_entry a (fbn - NDIRECT) ;;
    ret (din, x)
  else
    let* (din, a) := get_slot din (NDIRECT + 1) in
    a <- get_entry a ((fbn - NDIRECT - NINDIRECT) / NINDIRECT) ;;
    x <- get_entry a ((fbn - NDIRECT - NINDIRECT) mod NINDIRECT) ;;
    ret (din, x).
(** The loop of [iappend] (lines 280-331): the inode and the final [off]. *)
Fixpoint iappend_loop (fuel : nat) (din : inode) (off : Z) (p : list Z) : K (inode * Z) :=
  match fuel with
  | O => out_of_fuel
  | S fuel =>
      match p with
      | [] => ret (din, off)
      | _ =>
          let fbn := off / 512 in
          if negb (fbn <? MAXFILE) then panic "assert"
          else
            let* (din, x) := file_block din fbn in
            let n1 := Z.min (Z.of_nat (length p)) ((fbn + 1) * 512 - off) in
            buf <- rsect x ;;
            wsect x (put_bytes buf (off - fbn * 512) (take (Z.to_nat n1) p)) ;;;
            iappend_loop fuel din (off + n1) (drop (Z.to_nat n1) p)
      end
  end.
Definition iappend (inum : Z) (p : list Z) : K unit :=
  din <- rinode inum ;;
  let* (din, off) := iappend_loop (S (length p)) din (xint (i_size din)) p in
  winode inum (with_size (xint off) din).

(** [while((cc = read(fd, buf, sizeof(buf))) > 0) iappend(inum, buf, cc);] *)
Fixpoint append_file (fuel : nat) (inum : Z) (l : list Z) : K unit :=
  match fuel with
  | O => out_of_fuel
  | S fuel =>
      match l with
      | [] => ret tt
      | _ => iappend inum (take 512 l) ;;; append_file fuel inum (drop 512 l)
      end
  end.
(** One file of the command line: its name, and its contents unless it cannot
    be opened (lines 121-145).  A leading underscore (95) is skipped. *)
Definition add_file (rootino : Z) (f : list Z * option (list Z)) : K unit :=
  let '(name, contents) := f in
  if bool_decide (47 ∈ name) then panic "assert"
  else
    match contents with
    | None => panic "open"
    | Some l =>
        let name := if List.hd 0 name =? 95 then List.tl name else name in
        inum <- ialloc T_FILE ;;
        iappend rootino (dirent (xshort inum) name) ;;;
        append_file (S (length l)) inum l
    end.
Fixpoint add_files (rootino : Z) (fs : list (list Z * option (list Z))) : K unit :=
  match fs with [] => ret tt | f :: fs => add_file rootino f ;;; add_files rootino fs end.

Definition super : mem :=
  put32 (put32 (put32 (put32 (fun _ => 0) 0 (xint size)) 4 (xint nblocks)) 8 (xint ninodes)) 12 (xint nlog).
Definition bitblocks : Z := size / (512 * 8) + 1.
Definition mkfs_start : mkstate :=
  let used := ninodes / IPB + 3 + bitblocks in mkMk (fun _ => 0) 0 used used 1.
Definition main (files : list (list Z * option (list Z))) : K unit :=
  s <- get ;;
  (if nblocks + usedblocks s + nlog =? size then ret tt else panic "assert") ;;;
  mfor 0 (nblocks + usedblocks s + nlog) (fun i => wsect i (fun _ => 0)) ;;;
  wsect 1 super ;;;
  rootino <- ialloc T_DIR ;;
  (if rootino =? ROOTINO then ret tt else panic "assert") ;;;
  iappend rootino (dirent (xshort rootino) [46]) ;;;
  iappend rootino (dirent (xshort rootino) [46; 46]) ;;;
  add_files rootino files ;;;
  din <- rinode rootino ;;
  let off := xint (i_size din) in
  let off := (off / BSIZE + 1) * BSIZE in
  winode rootino (with_size (xint off) din) ;;;
  used <- gets usedblocks ;;
  balloc used.
