(* ===== verification/MkfsTree.v ===== *)
(** * MkfsTree: the files of an image under construction (src/src/mkfs.c)

    The invariant of [mkfs]: the blocks of all files form disjoint trees below
    [freeblock], everything above is zero, and each file holds the bytes
    appended to it. *)
From S2P Require Import Prelude CString Fs FsFacts FsFile Mkfs.

Definition DATA : Z := 34.
Lemma xint_id x : 0 <= x < 2 ^ 32 -> xint x = x.
Proof. intros H. unfold xint. by apply get_put32. Qed.
Lemma get_put16 m a v : 0 <= v < 2 ^ 16 -> get16 (put16 m a v) a = v.
Proof.
  intros Hv. unfold get16, put16. rewrite upd_ne by lia. rewrite !upd_eq. unfold u8. rewrite Z.shiftr_div_pow2 by lia.
  rewrite (Z.mod_small (v / 2 ^ 8)); [|split; [apply Z.div_pos; lia | apply Z.div_lt_upper_bound; lia]].
  pose proof (Z.div_mod v (2 ^ 8) ltac:(lia)). lia.
Qed.
Lemma xshort_id x : 0 <= x < 2 ^ 16 -> xshort x = x.
Proof. apply get_put16. Qed.

(** [node j] is inode [j] as the program has it: in the image, or in the
    variable [din].  [cont j] is what the file holds. *)
Record inv (s : mkstate) (node : Z -> inode) (cont : Z -> list Z) : Prop := mkInv {
  iv_used : usedblocks s = freeblock s;
  iv_free : DATA <= freeblock s <= size;
  iv_extent : extent s = size;
  iv_fresh : forall x, freeblock s * BSIZE <= x -> img s x = 0;
  iv_addrs : forall j, length (i_addrs (node j)) = 13%nat;
  iv_live : forall j l, valid_loc l -> at_loc (img s) (node j) l <> 0 -> DATA <= at_loc (img s) (node j) l < freeblock s;
  iv_inj : forall j l j' l', valid_loc l -> valid_loc l' -> at_loc (img s) (node j) l <> 0 ->
    at_loc (img s) (node j) l = at_loc (img s) (node j') l' -> j = j' /\ l = l';
  iv_bytes : forall j o, 0 <= o < MAXFILE * BSIZE -> byte_at (img s) (node j) o = nth (Z.to_nat o) (cont j) 0;
  iv_dense : forall j bn, 0 <= bn < MAXFILE -> bn * BSIZE < Z.of_nat (length (cont j)) -> at_loc (img s) (node j) (loc_of bn) <> 0 }.

(** Block [x] of memory is in block number [at_loc ...] of inode [j] at [l]. *)
Lemma tree_in s node cont j l x : inv s node cont -> valid_loc l -> at_loc (img s) (node j) l <> 0 ->
  in_block (at_loc (img s) (node j) l) x -> DATA * BSIZE <= x < freeblock s * BSIZE.
Proof. intros H Hv Hne Hx. pose proof (iv_live _ _ _ H j l Hv Hne). unfold in_block, BSIZE in *. lia. Qed.
Lemma tree_disjoint s node cont j l j' l' x : inv s node cont -> valid_loc l -> valid_loc l' ->
  at_loc (img s) (node j) l <> 0 -> at_loc (img s) (node j') l' <> 0 ->
  in_block (at_loc (img s) (node j) l) x -> in_block (at_loc (img s) (node j') l') x -> j = j' /\ l = l'.
Proof. intros H Hv Hv' Hne Hne' Hx Hx'. apply (iv_inj _ _ _ H); try done. by eapply block_disjoint. Qed.
Lemma byte_block o b : 0 <= o -> in_block b (b * BSIZE + o mod BSIZE).
Proof. intros Ho. pose proof (Z.mod_pos_bound o BSIZE ltac:(done)). unfold in_block. lia. Qed.

(** ** Attaching the next free block *)
Section Attach.
Context (s s' : mkstate) (node : Z -> inode) (cont : Z -> list Z) (j : Z) (i' : inode) (l : loc).
Let m := img s.
Let m' := img s'.
Let b := freeblock s.
Context (Hinv : inv s node cont).
(** The bytes changed are entries of one index block of the file. *)
Context (P : Z -> Prop)
  (Hsame : forall x, ~ P x -> m' x = m x)
  (Hidx : forall x, P x -> exists pl, is_index pl /\ valid_loc pl /\ at_loc m (node j) pl <> 0 /\ in_block (at_loc m (node j) pl) x)
  (Hold : forall pl k, is_index pl -> valid_loc pl -> 0 <= k < NINDIRECT -> entry_loc pl k <> l ->
    at_loc m (node j) pl <> 0 -> get32 m' (entry_at (at_loc m (node j) pl) k) = get32 m (entry_at (at_loc m (node j) pl) k))
  (Hroots : forall n, 0 <= n < NDIRECT + 2 -> slot_loc n <> l -> addr_of i' n = addr_of (node j) n)
  (Hv : valid_loc l) (Hnew : at_loc m' i' l = b) (Habsent : at_loc m (node j) l = 0)
  (Hlen : length (i_addrs i') = 13%nat)
  (Hst : usedblocks s' = usedblocks s + 1 /\ freeblock s' = freeblock s + 1 /\ extent s' = extent s) (Hroom : b < size).
Let node' := upd node j i'.

Lemma attach_below x : P x -> DATA * BSIZE <= x < b * BSIZE.
Proof using All. intros Hx. destruct (Hidx x Hx) as (pl & _ & Hpv & Hne & Hin). by eapply tree_in. Qed.
Lemma attach_fresh x : b * BSIZE <= x -> m' x = 0.
Proof using All. intros Hx. rewrite Hsame; [by apply (iv_fresh _ _ _ Hinv)|]. intros HP. apply attach_below in HP. lia. Qed.
Lemma attach_b : b <> 0.
Proof using All. pose proof (iv_free _ _ _ Hinv). unfold b, DATA in *. lia. Qed.
Lemma attach_self l' : valid_loc l' -> at_loc m' i' l' = if decide (l' = l) then b else at_loc m (node j) l'.
Proof using All.
  intros Hl'. destruct (decide (l' = l)) as [->|Hne]; [done|].
  apply (at_grow m m' (node j) i' l b); try done; [|apply attach_b].
  intros k Hk. apply get32_zero. intros x Hx. apply attach_fresh. change NINDIRECT with 128 in Hk. unfold entry_at, BSIZE in *. lia.
Qed.
Lemma attach_other j' l' : j' <> j -> valid_loc l' -> at_loc m' (node j') l' = at_loc m (node j') l'.
Proof using All.
  intros Hj. apply at_agree. intros pl x _ Hpv Hne Hx. apply Hsame. intros HP. destruct (Hidx x HP) as (pl' & _ & Hpv' & Hne' & Hx').
  destruct (tree_disjoint s node cont j' pl j pl' x Hinv); try done.
Qed.
Lemma attach_at j' l' : valid_loc l' -> at_loc m' (node' j') l' = if decide (j' = j /\ l' = l) then b else at_loc m (node j') l'.
Proof using All.
  intros Hl'. unfold node'. destruct (decide (j' = j)) as [->|Hj].
  - rewrite upd_eq, attach_self by done. destruct (decide (l' = l)); [by rewrite decide_True by done | by rewrite decide_False by tauto].
  - rewrite upd_ne by done. rewrite decide_False by tauto. by apply attach_other.
Qed.
Lemma attach_reads j' o : 0 <= o < MAXFILE * BSIZE -> byte_at m' (node' j') o = byte_at m (node j') o.
Proof using All.
  intros Ho. pose proof (loc_of_valid _ (block_index o Ho)) as Hlv. unfold byte_at. rewrite attach_at by done. case_decide as Hc.
  - destruct Hc as [-> Hl]. rewrite Hl, Habsent. rewrite (proj2 (Z.eqb_neq _ _) attach_b). cbn. apply attach_fresh.
    pose proof (Z.mod_pos_bound o BSIZE ltac:(done)). lia.
  - destruct (Z.eqb_spec (at_loc m (node j') (loc_of (o / BSIZE))) 0) as [|Hne]; [done|]. apply Hsame. intros HP.
    destruct (Hidx _ HP) as (pl & Hpi & Hpv & Hpn & Hx).
    destruct (tree_disjoint s node cont j' (loc_of (o / BSIZE)) j pl _ Hinv Hlv Hpv Hne Hpn (byte_block o _ (proj1 Ho)) Hx) as [_ Heq].
    pose proof (loc_of_data (o / BSIZE)) as Hd. rewrite Heq in Hd. by destruct pl.
Qed.
Lemma attach_inv : inv s' node' cont.
Proof using All.
  destruct Hst as (S1 & S2 & S3). pose proof (iv_free _ _ _ Hinv) as Hf. split.
  - rewrite S1, S2. by rewrite (iv_used _ _ _ Hinv).
  - rewrite S2. unfold b in *. lia.
  - rewrite S3. apply Hinv.
  - intros x Hx. rewrite S2 in Hx. apply attach_fresh. unfold b, BSIZE in *. lia.
  - intros j'. unfold node', upd. destruct (j' =? j); [done | apply Hinv].
  - intros j' l' Hl'. fold m'. rewrite attach_at by done. rewrite S2. case_decide; [unfold b; lia|]. intros Hne.
    pose proof (iv_live _ _ _ Hinv j' l' Hl' Hne) as Hr. fold m in Hr. lia.
  - intros j1 l1 j2 l2 H1 H2. fold m'. rewrite !attach_at by done.
    case_decide as C1; case_decide as C2; [destruct C1, C2; by subst | | | by apply (iv_inj _ _ _ Hinv)].
    + intros _ He. pose proof (iv_live _ _ _ Hinv j2 l2 H2) as Hl. fold m in Hl. rewrite <- He in Hl. pose proof attach_b. unfold b in *. specialize (Hl attach_b). lia.
    + intros Hne He. pose proof (iv_live _ _ _ Hinv j1 l1 H1 Hne) as Hl. fold m in Hl. rewrite He in Hl. unfold b in *. lia.
  - intros j' o Ho. fold m'. rewrite attach_reads by done. by apply Hinv.
  - intros j' bn Hbn Hd. fold m'. rewrite attach_at by (by apply loc_of_valid). case_decide; [apply attach_b | by apply Hinv].
Qed.
End Attach.

(** ** The blocks of a file *)
Lemma inv_ext s node node' cont cont' : inv s node cont -> (forall j, node' j = node j) -> (forall j, cont' j = cont j) -> inv s node' cont'.
Proof.
  intros [H1 H2 H3 H4 H5 H6 H7 H8 H9] Hn Hc. split; try done.
  - intros j. by rewrite Hn.
  - intros j l. rewrite Hn. apply H6.
  - intros j l j' l'. rewrite !Hn. apply H7.
  - intros j o. rewrite Hn, Hc. apply H8.
  - intros j bn. rewrite Hn, Hc. apply H9.
Qed.
Definition set_addrs (a : list Z) (i : inode) : inode :=
  mkInode (i_dev i) (i_inum i) (i_ref i) (i_flags i) (i_type i) (i_major i) (i_minor i) (i_nlink i) (i_size i) a.
(** Only data blocks changed: inode [i] of file [j] became [i']. *)
Record moved (node : Z -> inode) (cont cont' : Z -> list Z) (j : Z) (s : mkstate) (i : inode) (s' : mkstate) (i' : inode) : Prop := mkMoved {
  mv_inv : inv s' (upd node j i') cont';
  mv_keep : forall l, valid_loc l -> at_loc (img s) i l <> 0 -> at_loc (img s') i' l = at_loc (img s) i l;
  mv_inodes : freeinode s' = freeinode s;
  mv_low : forall x, x < DATA * BSIZE -> img s' x = img s x;
  mv_meta : exists a, i' = set_addrs a i }.
Lemma moved_refl node cont j s i : inv s (upd node j i) cont -> moved node cont cont j s i s i.
Proof. intros H. split; try done. exists (i_addrs i). by destruct i. Qed.
Lemma moved_trans node c1 c2 c3 j s i s1 i1 s2 i2 : moved node c1 c2 j s i s1 i1 -> moved node c2 c3 j s1 i1 s2 i2 -> moved node c1 c3 j s i s2 i2.
Proof.
  intros [A1 A2 A3 A4 [a1 A5]] [B1 B2 B3 B4 [a2 B5]]. split; [done | | by rewrite B3 | |].
  - intros l Hl Hne. rewrite B2; [by apply A2 | done | by rewrite A2].
  - intros x Hx. by rewrite B4, A4.
  - exists a2. by rewrite B5, A5.
Qed.
Definition missing (s : mkstate) (i : inode) (l : loc) : Z := if at_loc (img s) i l =? 0 then 1 else 0.
(** A block at place [l] is there, at the cost of one block if it was missing. *)
Definition placed (node : Z -> inode) (cont : Z -> list Z) (j : Z) (l : loc) (s : mkstate) (i : inode) (s' : mkstate) (i' : inode) : Prop :=
  moved node cont cont j s i s' i' /\ at_loc (img s') i' l <> 0 /\ freeblock s' = freeblock s + missing s i l.

Definition with_block (s : mkstate) : mkstate := mkMk (img s) (extent s) (freeblock s + 1) (usedblocks s + 1) (freeinode s).
Lemma new_block_run s node cont : inv s node cont -> freeblock s < size -> new_block s = Ok (freeblock s, with_block s).
Proof.
  intros H Hr. pose proof (iv_free _ _ _ H) as Hf. unfold DATA, size in *. unfold new_block. do 2 (erewrite bind_Ok; [|reflexivity]).
  unfold ret, with_block. rewrite xint_id, (iv_used _ _ _ H), u32_small by lia. done.
Qed.
Lemma tree_xint s node cont j l : inv s node cont -> valid_loc l -> xint (at_loc (img s) (node j) l) = at_loc (img s) (node j) l.
Proof.
  intros H Hl. apply xint_id. destruct (decide (at_loc (img s) (node j) l = 0)) as [->|Hne]; [lia|].
  pose proof (iv_live _ _ _ H j l Hl Hne). pose proof (iv_free _ _ _ H). unfold DATA, size in *. lia.
Qed.
Lemma addr_of_with i n k b : length (i_addrs i) = 13%nat -> 0 <= n < 13 -> 0 <= k ->
  addr_of (with_addr n b i) k = if k =? n then b else addr_of i k.
Proof.
  intros Hl Hn Hk. unfold addr_of, with_addr. cbn [i_addrs]. rewrite !nth_lookup. destruct (Z.eqb_spec k n) as [->|Hne].
  - by rewrite list_lookup_insert_eq by lia.
  - by rewrite list_lookup_insert_ne by lia.
Qed.
Lemma slot_loc_inj n k : 0 <= n < 13 -> 0 <= k < 13 -> slot_loc n = slot_loc k -> n = k.
Proof.
  intros Hn Hk. unfold slot_loc. change NDIRECT with 11. repeat case_if; zbool; intros [=]; lia.
Qed.

(** Attaching the next free block, for the inode in the variable [din]. *)
Lemma attach node cont j s i s' i' l P : inv s (upd node j i) cont ->
  (forall x, ~ P x -> img s' x = img s x) ->
  (forall x, P x -> exists pl, is_index pl /\ valid_loc pl /\ at_loc (img s) i pl <> 0 /\ in_block (at_loc (img s) i pl) x) ->
  (forall pl k, is_index pl -> valid_loc pl -> 0 <= k < NINDIRECT -> entry_loc pl k <> l -> at_loc (img s) i pl <> 0 ->
    get32 (img s') (entry_at (at_loc (img s) i pl) k) = get32 (img s) (entry_at (at_loc (img s) i pl) k)) ->
  (forall n, 0 <= n < NDIRECT + 2 -> slot_loc n <> l -> addr_of i' n = addr_of i n) ->
  valid_loc l -> at_loc (img s') i' l = freeblock s -> at_loc (img s) i l = 0 -> length (i_addrs i') = 13%nat -> (exists a, i' = set_addrs a i) ->
  usedblocks s' = usedblocks s + 1 /\ freeblock s' = freeblock s + 1 /\ extent s' = extent s -> freeinode s' = freeinode s -> freeblock s < size ->
  placed node cont j l s i s' i'.
Proof.
  intros H Hsame Hidx Hold Hroots Hv Hnew Habs Hlen Hmeta Hst Hfi Hroom. rewrite <- (upd_eq node j i) in Hidx, Hold, Hroots, Habs.
  pose proof (attach_inv s s' _ cont j i' l H P Hsame Hidx Hold Hroots Hv Hnew Habs Hlen Hst Hroom) as Hinv'.
  pose proof (attach_self s s' _ cont j i' l H P Hsame Hidx Hold Hroots Hv Hnew Habs Hlen Hst Hroom) as Hself.
  pose proof (attach_below s s' _ cont j i' l H P Hsame Hidx Hold Hroots Hv Hnew Habs Hlen Hst Hroom) as Hbelow. rewrite upd_eq in *. pose proof (iv_free _ _ _ H) as Hf. split; [split; try done|].
  - apply (inv_ext _ _ _ cont _ Hinv'); [by intros k; unfold upd; destruct (k =? j) | done].
  - intros l' Hl' Hne. rewrite Hself by done. rewrite decide_False; [done|]. by intros ->.
  - intros x Hx. apply Hsame. intros HP. apply Hbelow in HP. lia.
  - rewrite Hnew. unfold missing. rewrite Habs. cbn [Z.eqb]. unfold DATA in *. split; [lia | apply Hst].
Qed.
Lemma get_slot_run node cont j s i n : inv s (upd node j i) cont -> 0 <= n < 13 -> freeblock s + missing s i (slot_loc n) <= size ->
  exists s' i', get_slot i n s = Ok ((i', at_loc (img s') i' (slot_loc n)), s') /\ placed node cont j (slot_loc n) s i s' i'.
Proof.
  intros H Hn Hroom. pose proof (slot_at (img s) i n ltac:(done)) as Ha. pose proof (slot_valid n ltac:(done)) as Hv.
  assert (Hx : xint (addr_of i n) = addr_of i n).
  { pose proof (tree_xint s _ cont j (slot_loc n) H Hv) as Hx. by rewrite upd_eq, Ha in Hx. }
  unfold get_slot. rewrite Hx. unfold missing in Hroom. rewrite Ha in Hroom. destruct (Z.eqb_spec (addr_of i n) 0) as [E|E].
  2: { exists s, i. rewrite Ha. split; [done|]. split; [by apply moved_refl|]. unfold missing. rewrite Ha, (proj2 (Z.eqb_neq _ _) E). split; [done | lia]. }
  rewrite (bind_Ok _ _ _ _ _ (new_block_run _ _ _ H ltac:(lia))).
  pose proof (iv_free _ _ _ H) as Hf. unfold ret. rewrite xint_id by (unfold DATA, size in *; lia).
  pose proof (iv_addrs _ _ _ H j) as Hlen. rewrite upd_eq in Hlen.
  assert (Hi' : at_loc (img s) (with_addr n (freeblock s) i) (slot_loc n) = freeblock s).
  { rewrite slot_at by done. rewrite addr_of_with by (done || lia). by rewrite Z.eqb_refl. }
  exists (with_block s), (with_addr n (freeblock s) i). cbn [img with_block]. rewrite Hi'. split; [done|].
  apply (attach _ _ _ _ _ _ _ _ (fun _ => False)); try done.
  - intros k Hk Hne. rewrite addr_of_with by (done || lia). destruct (Z.eqb_spec k n) as [->|]; done.
  - by rewrite Ha.
  - cbn. by rewrite length_insert.
  - by eexists.
  - lia.
Qed.

(** An entry of the index block at [pl]. *)
Lemma write_block_in m sec buf x : in_block sec x -> write_block m sec buf x = buf (x - sec * 512).
Proof. unfold in_block, BSIZE, write_block. intros Hx. rewrite (proj2 (andb_true_iff _ _)); [done|]. split; lia. Qed.
Lemma write_block_out m sec buf x : ~ in_block sec x -> write_block m sec buf x = m x.
Proof. unfold in_block, BSIZE, write_block. intros Hx. rewrite (proj2 (andb_false_iff _ _)); [done|]. lia. Qed.
Lemma get32_shift m a k : get32 (fun x => m (a + x)) k = get32 m (a + k).
Proof. unfold get32. by rewrite !Z.add_assoc. Qed.
(** Storing [b] in entry [k] of block [a]. *)
Definition entry_set (m : mem) (a k b : Z) : mem := write_block m a (put32 (fun x => m (a * 512 + x)) (4 * k) b).
Lemma entry_set_out m a k b x : 0 <= k < NINDIRECT -> ~ (entry_at a k <= x < entry_at a k + 4) -> entry_set m a k b x = m x.
Proof.
  intros Hk Hx. unfold entry_set. destruct (decide (in_block a x)); [|by apply write_block_out].
  rewrite write_block_in by done. unfold entry_at, BSIZE in Hx. rewrite put32_out by lia. f_equal. lia.
Qed.
Lemma entry_set_at m a k b : 0 <= k < NINDIRECT -> 0 <= b < 2 ^ 32 -> get32 (entry_set m a k b) (entry_at a k) = b.
Proof.
  intros Hk Hb. change NINDIRECT with 128 in Hk. etrans; [|exact (get_put32 (fun x => m (a * 512 + x)) (4 * k) b Hb)].
  unfold entry_set, get32, entry_at. rewrite !write_block_in by (unfold in_block, BSIZE; lia). change BSIZE with 512.
  do 4 (f_equal; try (f_equal; lia)).
Qed.
(** Changing an entry does not move its index block. *)
Lemma entry_set_index node cont j s i pl k b : inv s (upd node j i) cont -> is_index pl -> valid_loc pl -> 0 <= k < NINDIRECT -> at_loc (img s) i pl <> 0 ->
  at_loc (entry_set (img s) (at_loc (img s) i pl) k b) i pl = at_loc (img s) i pl.
Proof.
  intros H Hpi Hpv Hk Hne. destruct pl as [| | | |k0|]; try done. cbn [at_loc] in *. unfold child in *. assert (Hk0 : 0 <= k0 < NINDIRECT) by exact Hpv.
  destruct (Z.eqb_spec (addr_of i (NDIRECT + 1)) 0) as [|Hr]; [done|]. apply get32_agree. intros x Hx. apply entry_set_out; [done|]. intros Hx'.
  pose proof (tree_disjoint s _ cont j LDI j (LDE k0) x H) as Hd. rewrite upd_eq in Hd. cbn [at_loc] in Hd. unfold child in Hd.
  rewrite (proj2 (Z.eqb_neq _ _) Hr) in Hd. destruct Hd as [_ [=]]; try done; [exact (entry_in _ k0 x Hk0 Hx) | exact (entry_in _ k x Hk Hx')].
Qed.
Lemma get_entry_run node cont j s i pl k : inv s (upd node j i) cont -> is_index pl -> valid_loc pl -> 0 <= k < NINDIRECT ->
  at_loc (img s) i pl <> 0 -> freeblock s + missing s i (entry_loc pl k) <= size ->
  exists s', get_entry (at_loc (img s) i pl) k s = Ok (at_loc (img s') i (entry_loc pl k), s') /\ placed node cont j (entry_loc pl k) s i s' i.
Proof.
  intros H Hpi Hpv Hk Hne Hroom. pose proof (entry_loc_valid pl k Hpi Hpv Hk) as Hv.
  pose proof (entry_set_index node cont j s i pl k (freeblock s) H Hpi Hpv Hk Hne) as Hidx. set (a := at_loc (img s) i pl) in *.
  pose proof (iv_live _ _ _ H j pl Hpv) as Hlive. rewrite upd_eq in Hlive. specialize (Hlive Hne). fold a in Hlive.
  pose proof (iv_free _ _ _ H) as Hf. pose proof (iv_extent _ _ _ H) as He.
  assert (Hat : at_loc (img s) i (entry_loc pl k) = get32 (img s) (a * 512 + 4 * k)).
  { rewrite entry_at_loc by done. fold a. unfold child. by rewrite (proj2 (Z.eqb_neq _ _) Hne). }
  pose proof (tree_xint s _ cont j (entry_loc pl k) H Hv) as Hx. rewrite upd_eq, Hat in Hx.
  unfold get_entry, rsect. rewrite bind_assoc. erewrite bind_Ok; [|reflexivity]. rewrite (proj2 (Z.ltb_lt _ _)) by lia.
  erewrite bind_Ok; [|reflexivity]. rewrite get32_shift, Hx. unfold missing in Hroom. rewrite Hat in Hroom.
  destruct (Z.eqb_spec (get32 (img s) (a * 512 + 4 * k)) 0) as [E|E].
  2: { exists s. rewrite Hat. split; [done|]. split; [by apply moved_refl|]. unfold missing. rewrite Hat, (proj2 (Z.eqb_neq _ _) E). split; [done | lia]. }
  rewrite (bind_Ok _ _ _ _ _ (new_block_run _ _ _ H ltac:(lia))). erewrite bind_Ok; [|reflexivity].
  unfold ret. rewrite xint_id by (unfold DATA, size in *; lia).
  set (s' := mkMk _ _ _ _ _). change (img s') with (entry_set (img s) a k (freeblock s)).
  assert (Hnew : at_loc (entry_set (img s) a k (freeblock s)) i (entry_loc pl k) = freeblock s).
  { rewrite entry_at_loc by done. rewrite Hidx. unfold child. rewrite (proj2 (Z.eqb_neq _ _) Hne). apply entry_set_at; [done | unfold DATA, size in *; lia]. }
  exists s'. change (img s') with (entry_set (img s) a k (freeblock s)). rewrite Hnew. split; [done|].
  apply (attach _ _ _ _ _ _ _ _ (fun x => entry_at a k <= x < entry_at a k + 4)); try done.
  - intros x Hp. by apply entry_set_out.
  - intros x Hp. exists pl. split_and!; try done. by eapply entry_in.
  - intros pl' k' Hpi' Hpv' Hk' Hl' Hne'. apply get32_agree. intros x Hx1. apply entry_set_out; [done|]. intros Hx2.
    pose proof (tree_disjoint s _ cont j pl' j pl x H Hpv' Hpv) as Hd. rewrite upd_eq in Hd.
    destruct (Hd Hne' Hne (entry_in _ k' x Hk' Hx1) (entry_in _ k x Hk Hx2)) as [_ ->]. apply Hl'. f_equal. fold a in Hx1. unfold entry_at in *. lia.
  - by rewrite Hat.
  - pose proof (iv_addrs _ _ _ H j) as Hlen. by rewrite upd_eq in Hlen.
  - exists (i_addrs i). by destruct i.
  - cbn [s' usedblocks freeblock extent with_block]. lia.
  - lia.
Qed.

(** The places on the way to block [bn], and how many blocks are missing there. *)
Definition path_to (bn : Z) : list loc :=
  if bn <? NDIRECT then [LD bn]
  else if bn <? NDIRECT + NINDIRECT then [LI; LIE (bn - NDIRECT)]
  else let k := bn - NDIRECT - NINDIRECT in [LDI; LDE (k / NINDIRECT); LDD (k / NINDIRECT) (k mod NINDIRECT)].
Definition cost (s : mkstate) (i : inode) (bn : Z) : Z := foldr Z.add 0 (map (missing s i) (path_to bn)).
Lemma missing_le node c1 c2 j s i s' i' l : moved node c1 c2 j s i s' i' -> valid_loc l -> missing s' i' l <= missing s i l.
Proof.
  intros H Hl. unfold missing. destruct (Z.eqb_spec (at_loc (img s) i l) 0) as [|Hne]; [by destruct (_ =? 0)|].
  rewrite (mv_keep _ _ _ _ _ _ _ _ H l Hl Hne), (proj2 (Z.eqb_neq _ _) Hne). done.
Qed.
Lemma missing_nonneg s i l : 0 <= missing s i l <= 1.
Proof. unfold missing. destruct (_ =? 0); lia. Qed.
Lemma file_block_run node cont j s i bn : inv s (upd node j i) cont -> 0 <= bn < MAXFILE -> freeblock s + cost s i bn <= size ->
  exists s' i', file_block i bn s = Ok ((i', at_loc (img s') i' (loc_of bn)), s') /\ moved node cont cont j s i s' i' /\
    at_loc (img s') i' (loc_of bn) <> 0 /\ freeblock s' <= freeblock s + cost s i bn.
Proof.
  intros H Hbn Hroom. change MAXFILE with 16523 in Hbn. unfold file_block, cost, path_to, loc_of in *. change NDIRECT with 11 in *. change NINDIRECT with 128 in *.
  destruct (Z.ltb_spec bn 11) as [C1|C1]; cbn [map foldr] in *.
  { destruct (get_slot_run node cont j s i bn H) as (s' & i' & E & M & N & F); [lia | rewrite slot_direct by (change NDIRECT with 11; lia); lia|].
    rewrite slot_direct in * by (change NDIRECT with 11; lia). exists s', i'. split_and!; try done. lia. }
  replace (bn - 11 <? 128) with (bn <? 11 + 128) by (apply eq_true_iff_eq; rewrite !Z.ltb_lt; lia).
  destruct (Z.ltb_spec bn (11 + 128)) as [C2|C2]; cbn [map foldr] in *.
  - pose proof (missing_nonneg s i (LIE (bn - 11))).
    destruct (get_slot_run node cont j s i 11 H) as (s1 & i1 & E1 & M1 & N1 & F1); [lia | change (slot_loc 11) with LI; lia|]. change (slot_loc 11) with LI in *.
    rewrite (bind_Ok _ _ _ _ _ E1). cbv beta iota. pose proof (missing_le _ _ _ _ _ _ _ _ (LIE (bn - 11)) M1 ltac:(cbn; change NINDIRECT with 128; lia)).
    destruct (get_entry_run node cont j s1 i1 LI (bn - 11) (mv_inv _ _ _ _ _ _ _ _ M1)) as (s2 & E2 & M2 & N2 & F2); try done; [change NINDIRECT with 128; lia | cbn [entry_loc]; lia|].
    cbn [entry_loc] in *. rewrite (bind_Ok _ _ _ _ _ E2). exists s2, i1. split_and!; try done; [by eapply moved_trans | lia].
  - set (q := bn - 11 - 128) in *. assert (Hq : 0 <= q < 16384) by lia.
    assert (Hk : 0 <= q / 128 < 128) by (split; [apply Z.div_pos; lia | apply Z.div_lt_upper_bound; lia]). pose proof (Z.mod_pos_bound q 128 ltac:(lia)) as Hm.
    pose proof (missing_nonneg s i (LDE (q / 128))). pose proof (missing_nonneg s i (LDD (q / 128) (q mod 128))).
    destruct (get_slot_run node cont j s i 12 H) as (s1 & i1 & E1 & M1 & N1 & F1); [lia | change (slot_loc 12) with LDI; lia|]. change (slot_loc 12) with LDI in *.
    change (11 + 1) with 12. rewrite (bind_Ok _ _ _ _ _ E1). cbv beta iota. pose proof (missing_le _ _ _ _ _ _ _ _ (LDE (q / 128)) M1 Hk).
    destruct (get_entry_run node cont j s1 i1 LDI (q / 128) (mv_inv _ _ _ _ _ _ _ _ M1)) as (s2 & E2 & M2 & N2 & F2); try done; [cbn [entry_loc]; lia|].
    cbn [entry_loc] in *. rewrite (bind_Ok _ _ _ _ _ E2). pose proof (moved_trans _ _ _ _ _ _ _ _ _ _ _ M1 M2) as M12.
    pose proof (missing_le _ _ _ _ _ _ _ _ (LDD (q / 128) (q mod 128)) M12 (conj Hk Hm)).
    destruct (get_entry_run node cont j s2 i1 (LDE (q / 128)) (q mod 128) (mv_inv _ _ _ _ _ _ _ _ M2)) as (s3 & E3 & M3 & N3 & F3); try done; [cbn [entry_loc]; lia|].
    cbn [entry_loc] in *. rewrite (bind_Ok _ _ _ _ _ E3). exists s3, i1. split_and!; try done; [by eapply moved_trans | lia].
Qed.
