(* ===== verification/MkfsAppend.v ===== *)
(** * MkfsAppend: appending to a file of the image (src/src/mkfs.c) *)
From S2P Require Import Prelude CString Fs FsFacts FsFile Mkfs MkfsTree.

(** ** Storing bytes in a block of the file *)
Definition block_bytes (m : mem) (b o : Z) (l : list Z) : mem := write_block m b (put_bytes (fun x => m (b * 512 + x)) o l).
Lemma block_bytes_at m b o l x : 0 <= o -> o + Z.of_nat (length l) <= 512 -> block_bytes m b o l x = put_bytes m (b * 512 + o) l x.
Proof.
  intros Ho Hl. unfold block_bytes. rewrite put_bytes_at. destruct (decide (in_block b x)) as [Hb|Hb].
  - rewrite write_block_in by done. rewrite put_bytes_at. replace (b * 512 + (x - b * 512)) with x by lia. replace (x - b * 512 - o) with (x - (b * 512 + o)) by lia.
    destruct (Z.leb_spec o (x - b * 512)), (Z.leb_spec (b * 512 + o) x), (Z.ltb_spec (x - b * 512) (o + Z.of_nat (length l))),
      (Z.ltb_spec x (b * 512 + o + Z.of_nat (length l))); try lia; done.
  - rewrite write_block_out by done. unfold in_block, BSIZE in Hb. rewrite (proj2 (andb_false_iff _ _)); [done|]. lia.
Qed.
Lemma nth_splice (c l : list Z) o : 0 <= o -> splice (fun o => nth (Z.to_nat o) c 0) (Z.of_nat (length c)) l o = nth (Z.to_nat o) (c ++ l) 0.
Proof.
  intros Ho. unfold splice. destruct (Z.leb_spec (Z.of_nat (length c)) o) as [H1|H1]; cbn [andb].
  - rewrite app_nth2 by lia. replace (Z.to_nat (o - Z.of_nat (length c))) with (Z.to_nat o - length c)%nat by lia.
    destruct (Z.ltb_spec o (Z.of_nat (length c) + Z.of_nat (length l))); [done|]. rewrite !nth_overflow by lia. done.
  - by rewrite app_nth1 by lia.
Qed.
Section Write.
Context (node : Z -> inode) (cont : Z -> list Z) (j : Z) (s s' : mkstate) (i : inode) (l : list Z).
Let off := Z.of_nat (length (cont j)).
Let lb := loc_of (off / BSIZE).
Let b := at_loc (img s) i lb.
Context (H : inv s (upd node j i) cont) (Hb : b <> 0) (Hoff : off < MAXFILE * BSIZE) (Hl : off mod BSIZE + Z.of_nat (length l) <= BSIZE)
  (Hs : s' = mkMk (block_bytes (img s) b (off mod BSIZE) l) (extent s) (freeblock s) (usedblocks s) (freeinode s)).

Lemma write_out x : ~ in_block b x -> img s' x = img s x.
Proof using All. intros Hx. subst s'. cbn [img]. by apply write_block_out. Qed.
Lemma write_loc : valid_loc lb.
Proof using All. apply loc_of_valid, block_index. unfold off in *. lia. Qed.
Lemma write_at k l' : valid_loc l' -> at_loc (img s') (upd node j i k) l' = at_loc (img s) (upd node j i k) l'.
Proof using All.
  apply at_agree. intros pl x Hpi Hpv Hne Hx. apply write_out. intros Hx'.
  pose proof (tree_disjoint s _ cont k pl j lb x H Hpv write_loc Hne) as Hd. rewrite upd_eq in Hd. destruct (Hd Hb Hx Hx') as [_ Heq].
  pose proof (loc_of_data (off / BSIZE)) as Hdt. fold lb in Hdt. rewrite <- Heq in Hdt. by destruct pl.
Qed.
Lemma write_bytes k o : 0 <= o < MAXFILE * BSIZE ->
  byte_at (img s') (upd node j i k) o = nth (Z.to_nat o) (upd cont j (cont j ++ l) k) 0.
Proof using All.
  intros Ho. pose proof (iv_bytes _ _ _ H k o Ho) as Hold. pose proof (loc_of_valid _ (block_index o Ho)) as Hlv.
  pose proof (Z.mod_pos_bound off BSIZE ltac:(done)) as Hmod.
  unfold byte_at. rewrite write_at by done. unfold byte_at in Hold. set (bo := at_loc (img s) (upd node j i k) (loc_of (o / BSIZE))) in *.
  destruct (decide (k = j /\ o / BSIZE = off / BSIZE)) as [[-> He]|Hne].
  - assert (Hbo : bo = b) by (unfold bo; rewrite upd_eq, He; done). rewrite Hbo in *. rewrite (proj2 (Z.eqb_neq _ _) Hb) in *.
    rewrite upd_eq. rewrite <- nth_splice by lia. fold off. subst s'. cbn [img]. rewrite block_bytes_at by (change BSIZE with 512 in *; lia). rewrite put_bytes_at.
    unfold splice. rewrite <- Hold. rewrite (mod_in_block o off) by done. change BSIZE with 512.
    destruct (Z.leb_spec off o), (Z.ltb_spec o (off + Z.of_nat (length l))), (Z.leb_spec (b * 512 + off mod 512) (b * 512 + (off mod 512 + (o - off)))),
      (Z.ltb_spec (b * 512 + (off mod 512 + (o - off))) (b * 512 + off mod 512 + Z.of_nat (length l))); cbn [andb]; try lia; try done. f_equal. lia.
  - assert (Hsame : nth (Z.to_nat o) (upd cont j (cont j ++ l) k) 0 = nth (Z.to_nat o) (cont k) 0).
    { destruct (decide (k = j)) as [->|]; [|by rewrite upd_ne]. rewrite upd_eq. rewrite <- nth_splice by lia. fold off. unfold splice. rewrite (proj2 (andb_false_iff _ _)); [done|].
      destruct (Z.leb_spec off o); [right | by left]. apply Z.ltb_ge. destruct (decide (off + Z.of_nat (length l) <= o)); [done|]. exfalso. apply Hne. split; [done|].
      symmetry. apply (same_block off o (Z.of_nat (length l))); unfold off in *; lia. }
    rewrite Hsame, <- Hold. destruct (Z.eqb_spec bo 0) as [|Hbo]; [done|]. apply write_out. intros Hx.
    pose proof (tree_disjoint s _ cont k (loc_of (o / BSIZE)) j lb (bo * BSIZE + o mod BSIZE) H Hlv write_loc Hbo) as Hd. rewrite upd_eq in Hd.
    destruct (Hd Hb (byte_block o _ (proj1 Ho)) Hx) as [-> Heq]. apply Hne. split; [done|].
    apply loc_of_inj; [apply block_index; lia | apply block_index; unfold off in *; lia | done].
Qed.
Lemma write_moved : moved node cont (upd cont j (cont j ++ l)) j s i s' i.
Proof using All.
  pose proof (iv_live _ _ _ H j lb write_loc) as Hlive. rewrite upd_eq in Hlive. specialize (Hlive Hb). fold b in Hlive.
  split; [split | | by subst s' | | by exists (i_addrs i); destruct i].
  - subst s'. apply H.
  - subst s'. apply H.
  - subst s'. apply H.
  - intros x Hx. rewrite write_out; [apply (iv_fresh _ _ _ H); by subst s'|]. subst s'. cbn [freeblock] in Hx. unfold in_block, BSIZE in *. lia.
  - apply H.
  - intros k l' Hl' Hne. rewrite write_at in Hne |- * by done. subst s'. by apply (iv_live _ _ _ H).
  - intros k l1 k2 l2 H1 H2. rewrite !write_at by done. by apply (iv_inj _ _ _ H).
  - apply write_bytes.
  - intros k bn Hbn Hd. rewrite write_at by (by apply loc_of_valid). destruct (decide (k = j)) as [->|Hk].
    2: { rewrite upd_ne in Hd by done. by apply (iv_dense _ _ _ H). }
    destruct (decide (bn * BSIZE < off)) as [Ho|Ho]; [by apply (iv_dense _ _ _ H)|]. rewrite upd_eq, length_app in Hd.
    replace bn with (off / BSIZE); [by rewrite upd_eq|]. change BSIZE with 512 in *. Z.div_mod_to_equations. unfold off in *. lia.
  - intros l' Hl' Hne. pose proof (write_at j l' Hl') as Hw. by rewrite upd_eq in Hw.
  - intros x Hx. apply write_out. unfold in_block, BSIZE in *. lia.
Qed.
End Write.

(** ** How many blocks a file needs *)

(** Appending block number [bn] to a file: the block itself, and the index
    blocks it is the first one in. *)
Definition step_cost (bn : Z) : Z :=
  1 + (if bn =? 11 then 1 else 0) + (if bn =? 139 then 1 else 0) + (if (139 <=? bn) && ((bn - 139) mod 128 =? 0) then 1 else 0).
Fixpoint need (d : nat) : Z := match d with O => 0 | S d => need d + step_cost (Z.of_nat d) end.
Definition blocks (n : Z) : nat := Z.to_nat ((n + 511) / 512).
Lemma step_cost_pos bn : 1 <= step_cost bn.
Proof. unfold step_cost. repeat case_if; lia. Qed.
Lemma need_mono d d' : (d <= d')%nat -> need d <= need d'.
Proof. induction 1 as [|d' _ IH]; [lia|]. cbn [need]. pose proof (step_cost_pos (Z.of_nat d')). lia. Qed.

(** A block that is there has its index blocks. *)
Lemma loc_path s i bn l : at_loc (img s) i (loc_of bn) <> 0 -> 0 <= bn -> l ∈ path_to bn -> at_loc (img s) i l <> 0.
Proof.
  unfold path_to, loc_of. intros Hne Hbn. replace (bn - NDIRECT <? NINDIRECT) with (bn <? NDIRECT + NINDIRECT) in Hne by (apply eq_true_iff_eq; rewrite !Z.ltb_lt; lia).
  destruct (bn <? NDIRECT); [by intros ->%list_elem_of_singleton|]. destruct (bn <? NDIRECT + NINDIRECT).
  - cbn [at_loc] in Hne. unfold child in Hne. destruct (Z.eqb_spec (addr_of i NDIRECT) 0) as [|Hr]; [done|].
    intros [-> | ->%list_elem_of_singleton]%elem_of_cons; [done|]. cbn [at_loc]. unfold child. by rewrite (proj2 (Z.eqb_neq _ _) Hr).
  - set (k := bn - NDIRECT - NINDIRECT) in *. cbn [at_loc] in Hne. unfold child at 1 in Hne.
    destruct (Z.eqb_spec (child (img s) (addr_of i (NDIRECT + 1)) (k / NINDIRECT)) 0) as [|Hr]; [done|].
    intros [-> | [-> | ->%list_elem_of_singleton]%elem_of_cons]%elem_of_cons; cbn [at_loc]; [|done|].
    + unfold child in Hr. by destruct (Z.eqb_spec (addr_of i (NDIRECT + 1)) 0).
    + unfold child at 1. by rewrite (proj2 (Z.eqb_neq _ _) Hr).
Qed.
Lemma missing_there s i l : at_loc (img s) i l <> 0 -> missing s i l = 0.
Proof. intros Hne. unfold missing. by rewrite (proj2 (Z.eqb_neq _ _) Hne). Qed.
Lemma cost_there s i bn : at_loc (img s) i (loc_of bn) <> 0 -> 0 <= bn -> cost s i bn = 0.
Proof.
  intros Hne Hbn. unfold cost. pose proof (fun l => loc_path s i bn l Hne Hbn) as Hp. induction (path_to bn) as [|l ls IH]; [done|]. cbn [map foldr].
  rewrite missing_there by (apply Hp; by left). rewrite IH; [done|]. intros l' Hl'. apply Hp. by right.
Qed.
(** The next block of a file. *)
Lemma cost_next s i bn : 0 <= bn -> (0 < bn -> at_loc (img s) i (loc_of (bn - 1)) <> 0) -> cost s i bn <= step_cost bn.
Proof.
  intros Hbn Hprev. unfold cost, step_cost. assert (Hp : forall l, 0 < bn -> l ∈ path_to (bn - 1) -> missing s i l = 0).
  { intros l Hb Hl. apply missing_there. apply (loc_path s i (bn - 1)); [by apply Hprev | lia | done]. }
  unfold path_to in *. change NDIRECT with 11 in *. change NINDIRECT with 128 in *. change (11 + 128) with 139 in *.
  destruct (Z.ltb_spec bn 11) as [C1|C1]; cbn [map foldr].
  { pose proof (missing_nonneg s i (LD bn)). repeat case_if; lia. }
  destruct (Z.ltb_spec bn 139) as [C2|C2]; cbn [map foldr].
  - pose proof (missing_nonneg s i (LIE (bn - 11))). pose proof (missing_nonneg s i LI). rewrite (proj2 (Z.leb_gt 139 bn)) by lia. cbn [andb].
    destruct (Z.eqb_spec bn 11) as [->|Hne]; [repeat case_if; lia|]. rewrite (Hp LI).
    + repeat case_if; lia.
    + lia.
    + rewrite (proj2 (Z.ltb_ge _ _)) by lia. rewrite (proj2 (Z.ltb_lt _ _)) by lia. by left.
  - rewrite (proj2 (Z.leb_le _ _)) by lia. cbn [andb]. replace (bn - 11 - 128) with (bn - 139) in * by lia. set (q := bn - 139) in *.
    pose proof (missing_nonneg s i LDI). pose proof (missing_nonneg s i (LDE (q / 128))). pose proof (missing_nonneg s i (LDD (q / 128) (q mod 128))).
    rewrite (proj2 (Z.eqb_neq bn 11)) by lia. destruct (Z.eqb_spec bn 139) as [->|Hne].
    { destruct (Z.eqb_spec (q mod 128) 0) as [|Hq0]; [lia | by destruct Hq0]. }
    rewrite (proj2 (Z.ltb_ge (bn - 1) 11)) in Hp by lia. rewrite (proj2 (Z.ltb_ge (bn - 1) 139)) in Hp by lia.
    rewrite (Hp LDI) by (lia || by left). destruct (Z.eqb_spec (q mod 128) 0) as [Hq|Hq]; [lia|]. rewrite (Hp (LDE (q / 128))); [lia | lia|].
    replace (bn - 1 - 11 - 128) with (q - 1) by (unfold q; lia). replace ((q - 1) / 128) with (q / 128) by (Z.div_mod_to_equations; lia).
    apply list_elem_of_further, list_elem_of_here.
Qed.

(** ** The loop of [iappend] *)
Lemma moved_ext node c1 c2 c3 j s i s' i' : moved node c1 c2 j s i s' i' -> (forall k, c3 k = c2 k) -> moved node c1 c3 j s i s' i'.
Proof. intros [A B C D E] Hc. split; try done. by apply (inv_ext _ _ _ _ _ A). Qed.
(** The blocks before and after a chunk that stays in its block. *)
Lemma blocks_chunk off n : 0 <= off -> 0 < n -> off mod 512 + n <= 512 ->
  blocks (off + n) = S (Z.to_nat (off / 512)) /\ blocks off = if off mod 512 =? 0 then Z.to_nat (off / 512) else S (Z.to_nat (off / 512)).
Proof.
  intros Ho Hn Hb. unfold blocks. assert (0 <= off / 512) by (apply Z.div_pos; lia). split.
  - replace ((off + n + 511) / 512) with (off / 512 + 1) by (Z.div_mod_to_equations; lia). lia.
  - destruct (Z.eqb_spec (off mod 512) 0); [f_equal; Z.div_mod_to_equations; lia|].
    replace ((off + 511) / 512) with (off / 512 + 1) by (Z.div_mod_to_equations; lia). lia.
Qed.
(** One turn. *)
Lemma append_step node cont j s i l : let off := Z.of_nat (length (cont j)) in
  inv s (upd node j i) cont -> (0 < length l)%nat -> off mod 512 + Z.of_nat (length l) <= 512 -> off / 512 < MAXFILE ->
  freeblock s + need (blocks (off + Z.of_nat (length l))) <= size + need (blocks off) ->
  exists s1 i1 s2, file_block i (off / 512) s = Ok ((i1, at_loc (img s1) i1 (loc_of (off / 512))), s1) /\
    (forall B (k : K B), (buf <- rsect (at_loc (img s1) i1 (loc_of (off / 512))) ;;
                          wsect (at_loc (img s1) i1 (loc_of (off / 512))) (put_bytes buf (off - off / 512 * 512) l) ;;; k) s1 = k s2) /\
    moved node cont (upd cont j (cont j ++ l)) j s i s2 i1 /\
    freeblock s2 + need (blocks off) <= freeblock s + need (blocks (off + Z.of_nat (length l))).
Proof.
  intros off H Hl Hb Hfbn Hroom. assert (Ho : 0 <= off) by (unfold off; lia). assert (Hq : 0 <= off / 512) by (apply Z.div_pos; lia).
  destruct (blocks_chunk off (Z.of_nat (length l)) Ho ltac:(lia) Hb) as [B1 B2]. rewrite B1, B2 in *. cbn [need] in *. rewrite Z2Nat.id in * by done.
  assert (Hcost : freeblock s + cost s i (off / 512) + need (if off mod 512 =? 0 then Z.to_nat (off / 512) else S (Z.to_nat (off / 512))) <=
    freeblock s + (need (Z.to_nat (off / 512)) + step_cost (off / 512))).
  { destruct (Z.eqb_spec (off mod 512) 0) as [E|E].
    - assert (cost s i (off / 512) <= step_cost (off / 512)); [|lia]. apply cost_next; [done|]. intros Hp.
      pose proof (iv_dense _ _ _ H j (off / 512 - 1)) as Hd. rewrite upd_eq in Hd. apply Hd; [lia|]. fold off. unfold BSIZE. Z.div_mod_to_equations. lia.
    - cbn [need]. rewrite Z2Nat.id by done. rewrite cost_there; [lia | | done]. pose proof (iv_dense _ _ _ H j (off / 512)) as Hd. rewrite upd_eq in Hd.
      apply Hd; [lia|]. fold off. unfold BSIZE. Z.div_mod_to_equations. lia. }
  destruct (file_block_run node cont j s i (off / 512) H ltac:(lia) ltac:(lia)) as (s1 & i1 & E1 & M1 & N1 & F1).
  pose proof (mv_inv _ _ _ _ _ _ _ _ M1) as H1. set (b := at_loc (img s1) i1 (loc_of (off / 512))) in *.
  set (s2 := mkMk (block_bytes (img s1) b (off mod BSIZE) l) (extent s1) (freeblock s1) (usedblocks s1) (freeinode s1)).
  assert (Hmax : off < MAXFILE * BSIZE) by (change MAXFILE with 16523 in *; unfold BSIZE; Z.div_mod_to_equations; lia).
  pose proof (write_moved node cont j s1 s2 i1 l H1 N1 Hmax Hb eq_refl) as M2.
  exists s1, i1, s2. split; [done|]. split; [|split; [by eapply moved_trans | cbn [freeblock s2]; lia]].
  intros B k. pose proof (iv_live _ _ _ H1 j (loc_of (off / 512))) as Hlive. rewrite upd_eq in Hlive. fold b in Hlive.
  specialize (Hlive (loc_of_valid _ (conj Hq Hfbn)) N1). pose proof (iv_free _ _ _ H1). pose proof (iv_extent _ _ _ H1).
  unfold rsect. rewrite bind_assoc. erewrite bind_Ok; [|reflexivity]. rewrite (proj2 (Z.ltb_lt _ _)) by lia. do 2 (erewrite bind_Ok; [|reflexivity]).
  f_equal. unfold s2, block_bytes. f_equal; [|lia]. do 2 f_equal. unfold BSIZE. Z.div_mod_to_equations. lia.
Qed.
Lemma iappend_loop_run node j : forall fuel cont s i p, let off := Z.of_nat (length (cont j)) in
  inv s (upd node j i) cont -> (length p < fuel)%nat -> off + Z.of_nat (length p) <= MAXFILE * BSIZE ->
  freeblock s + need (blocks (off + Z.of_nat (length p))) <= size + need (blocks off) ->
  exists s' i', iappend_loop fuel i off p s = Ok ((i', off + Z.of_nat (length p)), s') /\
    moved node cont (upd cont j (cont j ++ p)) j s i s' i' /\
    freeblock s' + need (blocks off) <= freeblock s + need (blocks (off + Z.of_nat (length p))).
Proof.
  induction fuel as [|fuel IH]; intros cont s i p off H Hf Hmax Hroom; [lia|]. cbn [iappend_loop]. destruct p as [|c p'].
  { exists s, i. cbn [length] in *. rewrite Z.add_0_r in *. split; [done|]. split; [|lia]. apply (moved_ext _ _ cont); [by apply moved_refl|].
    intros k. unfold upd. destruct (Z.eqb_spec k j) as [->|]; [by rewrite app_nil_r | done]. }
  set (p := c :: p') in *. assert (Hp : (0 < length p)%nat) by (cbn; lia). assert (Ho : 0 <= off) by (unfold off; lia).
  assert (Hfbn : off / 512 < MAXFILE) by (change (MAXFILE * BSIZE) with (16523 * 512) in Hmax; change MAXFILE with 16523; Z.div_mod_to_equations; lia).
  rewrite (proj2 (Z.ltb_lt _ _) Hfbn). cbn [negb]. set (n1 := Z.min (Z.of_nat (length p)) ((off / 512 + 1) * 512 - off)).
  assert (Hn1 : 0 < n1 <= Z.of_nat (length p) /\ off mod 512 + n1 <= 512) by (unfold n1; Z.div_mod_to_equations; lia).
  assert (Lt : length (take (Z.to_nat n1) p) = Z.to_nat n1) by (rewrite length_take; lia).
  assert (Hmono : need (blocks (off + n1)) <= need (blocks (off + Z.of_nat (length p)))) by (apply need_mono; unfold blocks; apply Z2Nat.inj_le; try apply Z.div_pos; try lia; apply Z.div_le_mono; lia).
  destruct (append_step node cont j s i (take (Z.to_nat n1) p) H) as (s1 & i1 & s2 & E1 & E2 & M & F); rewrite ?Lt, ?Z2Nat.id by lia; fold off; try done; try lia.
  rewrite Lt, Z2Nat.id in F by lia. fold off in E1, E2, F. rewrite (bind_Ok _ _ _ _ _ E1). cbv beta iota. rewrite E2.
  assert (Lc : Z.of_nat (length (upd cont j (cont j ++ take (Z.to_nat n1) p) j)) = off + n1) by (rewrite upd_eq, length_app, Lt; unfold off; lia).
  assert (Ld : Z.of_nat (length (drop (Z.to_nat n1) p)) = Z.of_nat (length p) - n1) by (rewrite length_drop; lia).
  destruct (IH (upd cont j (cont j ++ take (Z.to_nat n1) p)) s2 i1 (drop (Z.to_nat n1) p) (mv_inv _ _ _ _ _ _ _ _ M)) as (s' & i' & E & M' & F');
    rewrite ?Lc, ?Ld; try lia.
  - replace (off + n1 + (Z.of_nat (length p) - n1)) with (off + Z.of_nat (length p)) by lia. lia.
  - rewrite Lc, Ld in *. replace (off + n1 + (Z.of_nat (length p) - n1)) with (off + Z.of_nat (length p)) in * by lia.
    exists s', i'. split; [done|]. split; [|lia]. apply (moved_ext _ _ _ _ _ _ _ _ _ (moved_trans _ _ _ _ _ _ _ _ _ _ _ M M')).
    intros k. unfold upd. destruct (Z.eqb_spec k j) as [->|]; [|done]. rewrite Z.eqb_refl. by rewrite <- app_assoc, take_drop.
Qed.

(** * The inodes of the image *)
Lemma dinode_place j : dinode_at j = 1024 + 64 * j.
Proof. unfold dinode_at, IBLOCK. change IPB with 8. change BSIZE with 512. change DINODE with 64. Z.div_mod_to_equations. lia. Qed.
Lemma get16_shift m a k : get16 (fun x => m (a + x)) k = get16 m (a + k).
Proof. unfold get16. by rewrite Z.add_assoc. Qed.
Lemma dinode_of_shift m a k j : dinode_of (fun x => m (a + x)) k j = dinode_of m (a + k) j.
Proof.
  unfold dinode_of. rewrite !get16_shift, get32_shift, !Z.add_assoc. f_equal. apply map_ext. intros q. rewrite get32_shift, !Z.add_assoc. done.
Qed.
Lemma dinode_of_agree m m' a j : (forall x, a <= x < a + 64 -> m' x = m x) -> dinode_of m' a j = dinode_of m a j.
Proof.
  intros H. unfold dinode_of. unfold get16. rewrite !H by lia. rewrite (get32_agree m m') by (intros x Hx; apply H; lia). f_equal.
  apply map_ext_in. intros q Hq. apply get32_agree. intros x Hx. apply H. apply list_elem_of_In, elem_of_seqZ in Hq. change (NDIRECT + 2) with 13 in Hq. lia.
Qed.

(** An inode that its 64 bytes can hold. *)
Record node_ok (j : Z) (i : inode) : Prop := mkNodeOk {
  no_cache : i_dev i = 0 /\ i_inum i = j /\ i_ref i = 0 /\ i_flags i = 0;
  no_short : Forall (fun v => 0 <= v < 2 ^ 15) [i_type i; i_major i; i_minor i; i_nlink i];
  no_size : 0 <= i_size i < 2 ^ 32;
  no_addrs : length (i_addrs i) = 13%nat;
  no_range : Forall (fun v => 0 <= v < 2 ^ 32) (i_addrs i) }.
Lemma put_words_lookup l : forall m a k v, Forall (fun v => 0 <= v < 2 ^ 32) l -> l !! k = Some v -> get32 (put_words m a l) (a + 4 * Z.of_nat k) = v.
Proof.
  induction l as [|w l IH]; intros m a [|k] v Hr Hk; try done; apply Forall_cons in Hr as [Hw Hr]; cbn [put_words].
  - injection Hk as <-. rewrite Z.add_0_r. erewrite get32_agree; [by apply get_put32|]. intros x Hx. apply put_words_out. lia.
  - replace (a + 4 * Z.of_nat (S k)) with (a + 4 + 4 * Z.of_nat k) by lia. by apply IH.
Qed.
Lemma put_words_all m a l : Forall (fun v => 0 <= v < 2 ^ 32) l -> map (fun k => get32 (put_words m a l) (a + 4 * k)) (seqZ 0 (Z.of_nat (length l))) = l.
Proof.
  intros Hr. apply list_eq. intros k. rewrite list_lookup_fmap. destruct (decide (k < length l)%nat) as [Hk|Hk].
  - rewrite lookup_seqZ_lt by lia. cbn [fmap option_fmap option_map]. destruct (lookup_lt_is_Some_2 l k Hk) as [v Hv]. rewrite Hv. f_equal.
    rewrite Z.add_0_l. by apply put_words_lookup.
  - rewrite lookup_seqZ_ge by lia. cbn. symmetry. apply lookup_ge_None. lia.
Qed.
Lemma s16_get_put m m' a v : 0 <= v < 2 ^ 15 -> (forall x, a <= x < a + 2 -> m' x = put16 m a v x) -> s16 (get16 m' a) = v.
Proof.
  intros Hv Hx. unfold get16. rewrite !Hx by lia. change (put16 m a v a + 256 * put16 m a v (a + 1)) with (get16 (put16 m a v) a).
  rewrite get_put16 by lia. unfold s16. rewrite Z.mod_small; lia.
Qed.
Lemma dinode_store m a j i : node_ok j i -> dinode_of (store_dinode m a i) a j = i.
Proof.
  intros [(C1 & C2 & C3 & C4) Hs Hz Hl Hr]. rewrite !Forall_cons in Hs. destruct Hs as (T1 & T2 & T3 & T4 & _).
  unfold dinode_of, store_dinode. set (m1 := put16 m a _). set (m2 := put16 m1 _ _). set (m3 := put16 m2 _ _). set (m4 := put16 m3 _ _). set (m5 := put32 m4 _ _).
  assert (O : forall x, x < a + 12 -> put_words m5 (a + 12) (i_addrs i) x = m5 x) by (intros x Hx; apply put_words_out; lia).
  rewrite (s16_get_put m _ a (i_type i) T1).
  2: { intros x Hx. rewrite O by lia. unfold m5. rewrite put32_out by lia. unfold m4. rewrite (put16_out m3) by lia. unfold m3. rewrite (put16_out m2) by lia.
       unfold m2. by rewrite (put16_out m1) by lia. }
  rewrite (s16_get_put m1 _ (a + 2) (i_major i) T2).
  2: { intros x Hx. rewrite O by lia. unfold m5. rewrite put32_out by lia. unfold m4. rewrite (put16_out m3) by lia. unfold m3. by rewrite (put16_out m2) by lia. }
  rewrite (s16_get_put m2 _ (a + 4) (i_minor i) T3).
  2: { intros x Hx. rewrite O by lia. unfold m5. rewrite put32_out by lia. unfold m4. by rewrite (put16_out m3) by lia. }
  rewrite (s16_get_put m3 _ (a + 6) (i_nlink i) T4).
  2: { intros x Hx. rewrite O by lia. unfold m5. by rewrite put32_out by lia. }
  rewrite (get32_agree m5) by (intros x Hx; apply O; lia). unfold m5. rewrite get_put32 by done. fold m5.
  replace (NDIRECT + 2) with (Z.of_nat (length (i_addrs i))) by (by rewrite Hl). rewrite put_words_all by done. destruct i. cbn in *. by subst.
Qed.
Lemma store_out m a i x : length (i_addrs i) = 13%nat -> ~ (a <= x < a + 64) -> store_dinode m a i x = m x.
Proof. intros Hl Hx. unfold store_dinode. rewrite put_words_out by (rewrite Hl; lia). rewrite put32_out, !put16_out by lia. done. Qed.

(** Reading and writing an inode. *)
Definition inode_set (m : mem) (j : Z) (i : inode) : mem :=
  write_block m (i2b j) (store_dinode (fun x => m (i2b j * 512 + x)) (j mod IPB * DINODE) i).
Lemma inode_place j : i2b j * 512 + j mod IPB * DINODE = 1024 + 64 * j /\ 0 <= j mod IPB * DINODE <= 448.
Proof. rewrite <- dinode_place. split; [done|]. change IPB with 8. change DINODE with 64. pose proof (Z.mod_pos_bound j 8 ltac:(lia)). lia. Qed.
Lemma inode_set_out m j i x : length (i_addrs i) = 13%nat -> ~ (1024 + 64 * j <= x < 1024 + 64 * j + 64) -> inode_set m j i x = m x.
Proof.
  intros Hl Hx. destruct (inode_place j) as [Hp _]. unfold inode_set. destruct (decide (in_block (i2b j) x)); [|by apply write_block_out].
  rewrite write_block_in by done. rewrite store_out by (done || lia). f_equal. lia.
Qed.
Lemma inode_set_at m j i : node_ok j i -> dinode_of (inode_set m j i) (1024 + 64 * j) j = i.
Proof.
  intros Hi. destruct (inode_place j) as [Hp Hb]. etrans; [|apply (dinode_store (fun x => m (i2b j * 512 + x)) (j mod IPB * DINODE) j i Hi)].
  rewrite <- Hp, <- dinode_of_shift. apply dinode_of_agree. intros x Hx. unfold inode_set. rewrite write_block_in by (unfold in_block, BSIZE; lia). f_equal. lia.
Qed.

(** ** The image between two calls *)
Record image (s : mkstate) (node : Z -> inode) (cont : Z -> list Z) : Prop := mkImage {
  im_inv : inv s node cont;
  im_sync : forall j, 0 <= j < ninodes -> dinode_of (img s) (1024 + 64 * j) j = node j;
  im_ok : forall j, node_ok j (node j);
  im_size : forall j, i_size (node j) = Z.of_nat (length (cont j));
  im_new : forall j, freeinode s <= j -> cont j = [] /\ i_addrs (node j) = replicate 13 0;
  im_first : 1 <= freeinode s <= ninodes;
  im_super : sb_of (img s) = mkSB size nblocks ninodes nlog;
  im_bitmap : forall x, 1024 + 64 * ninodes <= x < DATA * BSIZE -> img s x = 0 }.

Definition with_img (s : mkstate) (m : mem) : mkstate := mkMk m (extent s) (freeblock s) (usedblocks s) (freeinode s).
Lemma i2b_bound j : 0 <= j < ninodes -> 2 <= i2b j < 27.
Proof. unfold ninodes, i2b. change IPB with 8. intros. Z.div_mod_to_equations. lia. Qed.
Lemma rinode_run s j : extent s = size -> 0 <= j < ninodes -> rinode j s = Ok (dinode_of (img s) (1024 + 64 * j) j, s).
Proof.
  intros He Hj. pose proof (i2b_bound j Hj). unfold rinode, rsect. rewrite bind_assoc. erewrite bind_Ok; [|reflexivity].
  rewrite (proj2 (Z.ltb_lt _ _)) by (rewrite He; unfold size; lia). erewrite bind_Ok; [|reflexivity]. unfold ret.
  rewrite dinode_of_shift. by rewrite (proj1 (inode_place j)).
Qed.
Lemma winode_run s j i : extent s = size -> 0 <= j < ninodes -> winode j i s = Ok (tt, with_img s (inode_set (img s) j i)).
Proof.
  intros He Hj. pose proof (i2b_bound j Hj). unfold winode, rsect. rewrite bind_assoc. erewrite bind_Ok; [|reflexivity].
  rewrite (proj2 (Z.ltb_lt _ _)) by (rewrite He; unfold size; lia). erewrite bind_Ok; [|reflexivity]. unfold wsect, modify, with_img, inode_set.
  rewrite Z.max_l by (rewrite He; unfold size; lia). done.
Qed.
(** Trees depend on the addresses and the data blocks only. *)
Lemma at_loc_addrs m i i' l : i_addrs i' = i_addrs i -> at_loc m i' l = at_loc m i l.
Proof. intros H. by destruct l; cbn [at_loc]; unfold addr_of; rewrite H. Qed.
Lemma inv_low s s' node node' cont : inv s node cont -> (forall x, DATA * BSIZE <= x -> img s' x = img s x) ->
  usedblocks s' = usedblocks s -> freeblock s' = freeblock s -> extent s' = extent s -> (forall j, i_addrs (node' j) = i_addrs (node j)) -> inv s' node' cont.
Proof.
  intros H Hm Hu Hf He Hn. pose proof (iv_free _ _ _ H) as Hfree.
  assert (Hat : forall j l, valid_loc l -> at_loc (img s') (node' j) l = at_loc (img s) (node j) l).
  { intros j l Hl. rewrite (at_loc_addrs _ (node j)) by done. revert Hl. apply at_agree. intros pl x _ Hpv Hne Hx. apply Hm.
    pose proof (tree_in s node cont j pl x H Hpv Hne Hx). lia. }
  split.
  - rewrite Hu, Hf. apply H.
  - by rewrite Hf.
  - rewrite He. apply H.
  - intros x Hx. rewrite Hf in Hx. rewrite Hm by (change BSIZE with 512 in *; lia). by apply H.
  - intros j. rewrite Hn. apply H.
  - intros j l Hl. rewrite Hat by done. rewrite Hf. by apply H.
  - intros j l j' l' Hl Hl'. rewrite !Hat by done. by apply H.
  - intros j o Ho. rewrite <- (iv_bytes _ _ _ H j o Ho). pose proof (loc_of_valid _ (block_index o Ho)) as Hv. unfold byte_at. rewrite Hat by done.
    destruct (Z.eqb_spec (at_loc (img s) (node j) (loc_of (o / BSIZE))) 0) as [|Hne]; [done|]. apply Hm.
    pose proof (tree_in s node cont j _ _ H Hv Hne (byte_block o _ (proj1 Ho))). lia.
  - intros j bn Hbn Hd. rewrite Hat by (by apply loc_of_valid). by apply H.
Qed.
Lemma node_ok_addrs s node cont j i i' : inv s (upd node j i') cont -> node_ok j i -> (exists a, i' = set_addrs a i) -> node_ok j i'.
Proof.
  intros H [N1 N2 N3 N4 N5] [a ->]. pose proof (iv_addrs _ _ _ H j) as Hlen. rewrite upd_eq in Hlen. split; try done.
  apply Forall_lookup. intros k v Hk. pose proof (lookup_lt_Some _ _ _ Hk) as Hlt. rewrite Hlen in Hlt.
  pose proof (iv_live _ _ _ H j (slot_loc (Z.of_nat k)) (slot_valid (Z.of_nat k) ltac:(change (NDIRECT + 2) with 13; lia))) as Hl. rewrite upd_eq in Hl.
  rewrite slot_at in Hl by (change (NDIRECT + 2) with 13; lia). unfold addr_of in Hl. rewrite Nat2Z.id, nth_lookup, Hk in Hl. cbn in Hl.
  pose proof (iv_free _ _ _ H). unfold DATA, size in *. destruct (decide (v = 0)); lia.
Qed.

(** [winode] of inode [j] when its blocks are those of [i]. *)
Lemma image_winode s node cont j i : inv s (upd node j i) cont -> 0 <= j < ninodes -> node_ok j i -> i_size i = Z.of_nat (length (cont j)) ->
  (forall k, 0 <= k < ninodes -> k <> j -> dinode_of (img s) (1024 + 64 * k) k = node k) ->
  (forall k, k <> j -> node_ok k (node k) /\ i_size (node k) = Z.of_nat (length (cont k)) /\ (freeinode s <= k -> cont k = [] /\ i_addrs (node k) = replicate 13 0)) ->
  j < freeinode s <= ninodes -> sb_of (img s) = mkSB size nblocks ninodes nlog ->
  (forall x, 1024 + 64 * ninodes <= x < DATA * BSIZE -> img s x = 0) ->
  image (with_img s (inode_set (img s) j i)) (upd node j i) cont.
Proof.
  intros H Hj Hok Hsz Hsync Hoth Hfi Hsb Hbm. pose proof (no_addrs _ _ Hok) as Hlen. assert (Hn : ninodes = 200) by done. split.
  - apply (inv_low s _ (upd node j i)); try done. intros x Hx. apply inode_set_out; [done|]. unfold DATA, BSIZE in *. lia.
  - intros k Hk. cbn [img with_img]. destruct (decide (k = j)) as [->|Hne]; [rewrite upd_eq; by apply inode_set_at|].
    rewrite upd_ne, <- Hsync by done. apply dinode_of_agree. intros x Hx. apply inode_set_out; [done | lia].
  - intros k. destruct (decide (k = j)) as [->|Hne]; [by rewrite upd_eq | rewrite upd_ne by done; by apply Hoth].
  - intros k. destruct (decide (k = j)) as [->|Hne]; [by rewrite upd_eq | rewrite upd_ne by done; by apply Hoth].
  - intros k Hk. cbn [freeinode with_img] in Hk. rewrite upd_ne by lia. apply Hoth; lia.
  - cbn [freeinode with_img]. lia.
  - rewrite <- Hsb. unfold sb_of, BSIZE. cbn [img with_img]. f_equal; apply get32_agree; intros x Hx; apply inode_set_out; try done; lia.
  - intros x Hx. cbn [img with_img]. rewrite inode_set_out; [by apply Hbm | done | lia].
Qed.

(** ** [iappend], [ialloc] and whole files *)
Lemma upd_same_ext {A} (f : Z -> A) j k : upd f j (f j) k = f k.
Proof. apply upd_self. Qed.
Lemma image_ext s node node' cont cont' : image s node cont -> (forall j, node' j = node j) -> (forall j, cont' j = cont j) -> image s node' cont'.
Proof.
  intros [H1 H2 H3 H4 H5 H6 H7 H8] Hn Hc. split; try done; try (intros j; rewrite ?Hn, ?Hc; auto).
  by apply (inv_ext _ _ _ _ _ H1).
Qed.
Lemma sb_low m m' : (forall x, x < DATA * BSIZE -> m' x = m x) -> sb_of m' = sb_of m.
Proof. intros H. unfold sb_of. f_equal; apply get32_agree; intros x Hx; apply H; unfold DATA, BSIZE in *; lia. Qed.
(** What a call leaves behind: appended bytes, the types of the inodes, at most
    the blocks needed. *)
Record appended (s : mkstate) (node : Z -> inode) (cont : Z -> list Z) (j : Z) (p : list Z) (s' : mkstate) (node' : Z -> inode) : Prop := mkAppended {
  ap_image : image s' node' (upd cont j (cont j ++ p));
  ap_type : forall k, i_type (node' k) = i_type (node k);
  ap_first : freeinode s' = freeinode s;
  ap_blocks : freeblock s' + need (blocks (Z.of_nat (length (cont j)))) <= freeblock s + need (blocks (Z.of_nat (length (cont j)) + Z.of_nat (length p))) }.
Lemma iappend_run s node cont j p : image s node cont -> 0 <= j < freeinode s -> Z.of_nat (length (cont j)) + Z.of_nat (length p) <= MAXFILE * BSIZE ->
  freeblock s + need (blocks (Z.of_nat (length (cont j)) + Z.of_nat (length p))) <= size + need (blocks (Z.of_nat (length (cont j)))) ->
  exists s' node', iappend j p s = Ok (tt, s') /\ appended s node cont j p s' node'.
Proof.
  intros H Hj Hmax Hroom. pose proof (im_first _ _ _ H) as Hfi. assert (Hjn : 0 <= j < ninodes) by lia. pose proof (im_inv _ _ _ H) as Hinv.
  pose proof (iv_extent _ _ _ Hinv) as He. unfold iappend. rewrite (bind_Ok _ _ _ _ _ (rinode_run s j He Hjn)), (im_sync _ _ _ H j Hjn).
  set (i := node j). set (off := Z.of_nat (length (cont j))) in *.
  assert (Hmb : MAXFILE * BSIZE = 8459776) by done.
  assert (Hsz : xint (i_size i) = off) by (unfold i; rewrite (im_size _ _ _ H); apply xint_id; fold off; lia). rewrite Hsz.
  assert (Hup : inv s (upd node j i) cont) by (apply (inv_ext _ node _ cont); [done | intros k; apply upd_same_ext | done]).
  destruct (iappend_loop_run node j (S (length p)) cont s i p Hup ltac:(lia) Hmax Hroom) as (s1 & i1 & E1 & M & F). fold off in E1, F.
  rewrite (bind_Ok _ _ _ _ _ E1). cbv beta iota. rewrite xint_id by lia. destruct M as [M1 _ M3 M4 M5].
  rewrite (winode_run _ _ _ (iv_extent _ _ _ M1) Hjn). eexists _, (upd node j (with_size (off + Z.of_nat (length p)) i1)). split; [reflexivity|].
  pose proof (node_ok_addrs _ _ _ _ _ _ M1 (im_ok _ _ _ H j) M5) as [N1 N2 N3 N4 N5]. split; [| | done | done].
  - apply image_winode; try done.
    + apply (inv_low s1 s1 (upd node j i1)); try done. intros k. unfold upd. by destruct (k =? j).
    + split; try done. cbn [i_size with_size]. lia.
    + cbn [i_size with_size]. rewrite upd_eq, length_app. unfold off. lia.
    + intros k Hk Hne. rewrite <- (im_sync _ _ _ H k Hk). apply dinode_of_agree. intros x Hx. apply M4. unfold ninodes, DATA, BSIZE in *. lia.
    + intros k Hne. rewrite upd_ne by done. split; [apply H|]. split; [apply H|]. rewrite M3. apply H.
    + lia.
    + rewrite <- (im_super _ _ _ H). by apply sb_low.
    + intros x Hx. rewrite M4 by lia. by apply (im_bitmap _ _ _ H).
  - intros k. destruct (decide (k = j)) as [->|]; [|by rewrite upd_ne]. rewrite upd_eq. destruct M5 as [a ->]. done.
Qed.
(** The next inode, empty. *)
Definition new_node (j t : Z) : inode := mkInode 0 j 0 0 t 0 0 1 0 (replicate 13 0).
Lemma ialloc_run s node cont t : image s node cont -> freeinode s < ninodes -> 0 <= t < 2 ^ 15 ->
  exists s', ialloc t s = Ok (freeinode s, s') /\ image s' (upd node (freeinode s) (new_node (freeinode s) t)) cont /\
    freeinode s' = freeinode s + 1 /\ freeblock s' = freeblock s.
Proof.
  intros H Hn Ht. pose proof (im_first _ _ _ H) as Hfi. assert (Hnn : ninodes = 200) by done. unfold ialloc. set (j := freeinode s) in *. set (node1 := upd node j _).
  erewrite bind_Ok; [|reflexivity]. erewrite bind_Ok; [|reflexivity]. set (s1 := mkMk _ _ _ _ _). fold j.
  assert (Hfree : freeinode s1 = j + 1) by (cbn [s1 freeinode]; fold j; apply u32_small; lia).
  assert (Ei : mkInode 0 j 0 0 (s16 (xshort t)) 0 0 (s16 (xshort 1)) (xint 0) (replicate 13 0) = new_node j t).
  { unfold new_node. rewrite !xshort_id, xint_id by lia. unfold s16. rewrite !Z.mod_small by lia. f_equal; lia. }
  rewrite Ei. erewrite bind_Ok; [|apply winode_run; [exact (iv_extent _ _ _ (im_inv _ _ _ H)) | lia]].
  destruct (im_new _ _ _ H j ltac:(unfold j; lia)) as [Hc Ha].
  eexists. split; [reflexivity|]. split; [|split; [exact Hfree | done]]. apply image_winode; try done.
  - apply (inv_low s s1 node); try done; [apply H|]. intros k. unfold upd. destruct (Z.eqb_spec k j) as [->|]; [by rewrite Ha | done].
  - lia.
  - split; try done; cbn; try lia.
    + rewrite !Forall_cons. split_and!; try lia. done.
    + by repeat constructor.
  - by rewrite Hc.
  - intros k Hk _. apply (im_sync _ _ _ H k Hk).
  - intros k Hne. split; [apply H|]. split; [apply H|]. intros Hk. apply H. rewrite Hfree in Hk. fold j. lia.
  - lia.
  - apply H.
  - apply (im_bitmap _ _ _ H).
Qed.
Lemma append_file_run j : forall fuel l s node cont, image s node cont -> 0 <= j < freeinode s -> (length l < fuel)%nat ->
  Z.of_nat (length (cont j)) + Z.of_nat (length l) <= MAXFILE * BSIZE ->
  freeblock s + need (blocks (Z.of_nat (length (cont j)) + Z.of_nat (length l))) <= size + need (blocks (Z.of_nat (length (cont j)))) ->
  exists s' node', append_file fuel j l s = Ok (tt, s') /\ appended s node cont j l s' node'.
Proof.
  induction fuel as [|fuel IH]; intros l s node cont H Hj Hf Hmax Hroom; [lia|]. cbn [append_file]. destruct l as [|c l'].
  { exists s, node. split; [done|]. split; try done; [|cbn [length]; rewrite Z.add_0_r; lia]. apply (image_ext _ _ _ _ _ H); [done|].
    intros k. unfold upd. destruct (Z.eqb_spec k j) as [->|]; [by rewrite app_nil_r | done]. }
  set (l := c :: l') in *. assert (Hl : (0 < length l)%nat) by (cbn; lia). assert (Lt : (length (take 512 l) <= length l)%nat) by (rewrite length_take; lia).
  assert (Ll : (length (take 512 l) + length (drop 512 l) = length l)%nat) by (rewrite <- length_app, take_drop; done).
  assert (Hd : (length (drop 512 l) < length l)%nat) by (rewrite length_drop; lia).
  assert (Hmono : need (blocks (Z.of_nat (length (cont j)) + Z.of_nat (length (take 512 l)))) <= need (blocks (Z.of_nat (length (cont j)) + Z.of_nat (length l)))).
  { apply need_mono. unfold blocks. apply Z2Nat.inj_le; try apply Z.div_pos; try lia. apply Z.div_le_mono; lia. }
  destruct (iappend_run s node cont j (take 512 l) H Hj ltac:(lia) ltac:(lia)) as (s1 & node1 & E1 & [A1 A2 A3 A4]).
  rewrite (bind_Ok _ _ _ _ _ E1). assert (Lc : Z.of_nat (length (upd cont j (cont j ++ take 512 l) j)) = Z.of_nat (length (cont j)) + Z.of_nat (length (take 512 l))).
  { rewrite upd_eq, length_app. lia. }
  assert (Le : Z.of_nat (length (cont j)) + Z.of_nat (length (take 512 l)) + Z.of_nat (length (drop 512 l)) = Z.of_nat (length (cont j)) + Z.of_nat (length l)) by lia.
  destruct (IH (drop 512 l) s1 node1 _ A1) as (s2 & node2 & E2 & [B1 B2 B3 B4]); rewrite ?Lc, ?Le; try lia.
  rewrite Lc, Le in B4. exists s2, node2. split; [done|]. split; [| intros k; by rewrite B2 | by rewrite B3 | lia].
  apply (image_ext _ _ _ _ _ B1); [done|]. intros k. unfold upd. destruct (Z.eqb_spec k j) as [->|]; [|done]. rewrite Z.eqb_refl. by rewrite <- app_assoc, take_drop.
Qed.
