(* ===== verification/MkfsFacts.v ===== *)
(** * MkfsFacts: the image is a file system with the files given (src/src/mkfs.c) *)
From S2P Require Import Prelude CString Fs FsFacts FsFile DirFacts Mkfs MkfsTree MkfsAppend.

(** ** The empty image *)
Lemma zero_all n : forall a s, (forall x, img s x = 0) -> extent s = a -> 0 <= a -> exists s',
  mfor_list (seqZ a (Z.of_nat n)) (fun i => wsect i (fun _ => 0)) s = Ok (tt, s') /\ (forall x, img s' x = 0) /\ extent s' = a + Z.of_nat n /\
  freeblock s' = freeblock s /\ usedblocks s' = usedblocks s /\ freeinode s' = freeinode s.
Proof.
  induction n as [|n IH]; intros a s Hz He Ha.
  { exists s. split; [done|]. split; [done|]. split; [lia | done]. }
  rewrite seqZ_cons by lia. cbn [mfor_list]. erewrite bind_Ok; [|reflexivity]. replace (Z.pred (Z.of_nat (S n))) with (Z.of_nat n) by lia.
  destruct (IH (Z.succ a) (mkMk (write_block (img s) a (fun _ => 0)) (Z.max (extent s) (a + 1)) (freeblock s) (usedblocks s) (freeinode s))) as (s' & E & Z' & E' & R).
  - intros x. cbn [img]. unfold write_block. by destruct (_ && _).
  - cbn [extent]. lia.
  - lia.
  - exists s'. split; [done|]. split; [done|]. split; [lia | done].
Qed.
Definition empty_node (j : Z) : inode := mkInode 0 j 0 0 0 0 0 0 0 (replicate 13 0).
Lemma empty_at m j l : valid_loc l -> at_loc m (empty_node j) l = 0.
Proof.
  assert (A : forall n, addr_of (empty_node j) n = 0) by (intros n; unfold addr_of; change (i_addrs (empty_node j)) with (repeat 0 13); apply nth_repeat).
  intros _. destruct l; cbn [at_loc]; rewrite ?A; done.
Qed.
Lemma empty_image s : (forall x, img s x = 0) -> extent s = size -> usedblocks s = DATA -> freeblock s = DATA -> freeinode s = 1 ->
  image (with_img s (write_block (img s) 1 super)) empty_node (fun _ => []).
Proof.
  intros Hz He Hu Hf Hi. assert (Hhigh : forall x, 1024 <= x -> write_block (img s) 1 super x = 0).
  { intros x Hx. rewrite write_block_out; [done|]. unfold in_block, BSIZE. lia. }
  split.
  - split; cbn [img extent freeblock usedblocks with_img].
    + by rewrite Hu, Hf.
    + rewrite Hf. by unfold DATA, size.
    + done.
    + rewrite Hf. intros x Hx. apply Hhigh. unfold DATA, BSIZE in *. lia.
    + done.
    + intros j l Hl. by rewrite empty_at.
    + intros j l j' l' Hl Hl'. by rewrite empty_at.
    + intros j o Ho. unfold byte_at. rewrite empty_at by (by apply loc_of_valid, block_index). by destruct (Z.to_nat o).
    + intros j bn Hbn Hb. cbn [length] in Hb. unfold BSIZE in Hb. lia.
  - intros j Hj. cbn [img with_img]. transitivity (dinode_of (fun _ => 0) (1024 + 64 * j) j); [|reflexivity].
    apply dinode_of_agree. intros x Hx. apply Hhigh. lia.
  - intros j. split; try done; cbn; try lia; [rewrite !Forall_cons; split_and!; try lia; done | by repeat constructor].
  - done.
  - done.
  - cbn [freeinode with_img]. rewrite Hi. unfold ninodes. lia.
  - cbn [img with_img]. transitivity (sb_of (fun x => super (x - 512))); [|vm_compute; reflexivity].
    unfold sb_of. f_equal; apply get32_agree; intros x Hx; apply (write_block_in _ 1); unfold in_block, BSIZE in *; lia.
  - intros x Hx. apply Hhigh. unfold ninodes in Hx. lia.
Qed.

(** ** The files *)
Definition stripped (nm : list Z) : list Z := if List.hd 0 nm =? 95 then List.tl nm else nm.
(** A file of the command line: the name it gets is one to thirty characters,
    and its contents fit a file. *)
Record file_fits (f : list Z * list Z) : Prop := mkFits {
  ff_slash : slash ∉ f.1;
  ff_name : name_ok (stripped f.1);
  ff_size : Z.of_nat (length f.2) <= MAXFILE * BSIZE }.
(** The directory entries, from inode [n] on. *)
Fixpoint dirents (n : Z) (fs : list (list Z * list Z)) : list (list Z) :=
  match fs with [] => [] | f :: fs => dirent n (stripped f.1) :: dirents (n + 1) fs end.
Definition files_need (fs : list (list Z * list Z)) : Z := foldr (fun f n => need (blocks (Z.of_nat (length f.2))) + n) 0 fs.
Definition given (fs : list (list Z * list Z)) : list (list Z * option (list Z)) := map (fun f => (f.1, Some f.2)) fs.
Lemma dirent_length inum nm : length (dirent inum nm) = 32%nat.
Proof. unfold dirent, strncpy_chars. rewrite !length_app, length_take, length_replicate. change (Z.to_nat DIRSIZ) with 30%nat. cbn [length]. lia. Qed.
Lemma need_nonneg d : 0 <= need d.
Proof. change 0 with (need 0). apply need_mono. lia. Qed.
Lemma files_need_nonneg fs : 0 <= files_need fs.
Proof. induction fs as [|f fs IH]; [done|]. cbn. pose proof (need_nonneg (blocks (Z.of_nat (length f.2)))). fold (files_need fs). lia. Qed.
Lemma concat_dirents n fs : length (concat (dirents n fs)) = (32 * length fs)%nat.
Proof. revert n. induction fs as [|f fs IH]; intros n; [done|]. cbn [dirents concat length]. rewrite length_app, dirent_length, IH. lia. Qed.

(** One file: the next inode, its entry in the root directory, its contents. *)
Lemma add_file_run s node cont f : image s node cont -> 2 <= freeinode s < ninodes -> file_fits f ->
  let r := Z.of_nat (length (cont 1)) in r + 32 <= MAXFILE * BSIZE ->
  freeblock s + need (blocks (r + 32)) + need (blocks (Z.of_nat (length f.2))) <= size + need (blocks r) ->
  exists s' node', add_file 1 (f.1, Some f.2) s = Ok (tt, s') /\
    image s' node' (upd (upd cont 1 (cont 1 ++ dirent (freeinode s) (stripped f.1))) (freeinode s) f.2) /\
    (forall k, i_type (node' k) = if k =? freeinode s then T_FILE else i_type (node k)) /\ freeinode s' = freeinode s + 1 /\
    freeblock s' + need (blocks r) <= freeblock s + need (blocks (r + 32)) + need (blocks (Z.of_nat (length f.2))).
Proof.
  intros H Hn [F1 F2 F3] r Hr Hroom. set (j := freeinode s) in *. assert (Hnn : ninodes = 200) by done. pose proof (need_nonneg (blocks (Z.of_nat (length f.2)))) as Hn0.
  unfold add_file. rewrite bool_decide_eq_false_2 by exact F1. fold (stripped f.1).
  destruct (ialloc_run s node cont T_FILE H ltac:(fold j; lia) ltac:(unfold T_FILE; lia)) as (s1 & E1 & I1 & A1 & B1). fold j in E1, I1, A1. rewrite (bind_Ok _ _ _ _ _ E1).
  rewrite xshort_id by lia. set (de := dirent j (stripped f.1)). assert (Hde : length de = 32%nat) by apply dirent_length.
  destruct (iappend_run s1 _ cont 1 de I1) as (s2 & node2 & E2 & [I2 T2 A2 B2]); rewrite ?Hde; change (Z.of_nat 32) with 32; fold r; try lia.
  rewrite Hde in B2. change (Z.of_nat 32) with 32 in B2. fold r in B2. rewrite (bind_Ok _ _ _ _ _ E2).
  destruct (im_new _ _ _ H j ltac:(unfold j; lia)) as [Hc _].
  assert (Hcj : upd cont 1 (cont 1 ++ de) j = []) by (rewrite upd_ne by lia; exact Hc).
  assert (Hb0 : need (blocks 0) = 0) by reflexivity.
  destruct (append_file_run j (S (length f.2)) f.2 s2 node2 _ I2) as (s3 & node3 & E3 & [I3 T3 A3 B3]); rewrite ?Hcj; cbn [length]; change (Z.of_nat 0) with 0; rewrite ?Z.add_0_l, ?Hb0; try lia.
  rewrite Hcj in B3. cbn [length] in B3. change (Z.of_nat 0) with 0 in B3. rewrite Z.add_0_l, Hb0 in B3.
  exists s3, node3. split; [exact E3|]. split; [|split; [|split; lia]].
  - apply (image_ext _ _ _ _ _ I3); [done|]. intros k. rewrite Hcj. done.
  - intros k. rewrite T3, T2. unfold upd. by destruct (k =? j).
Qed.
Record all_added (s s' : mkstate) (node node' : Z -> inode) (cont cont' : Z -> list Z) (fs : list (list Z * list Z)) : Prop := mkAll {
  al_image : image s' node' cont';
  al_root : cont' 1 = cont 1 ++ concat (dirents (freeinode s) fs);
  al_files : forall k f, fs !! k = Some f -> cont' (freeinode s + Z.of_nat k) = f.2 /\ i_type (node' (freeinode s + Z.of_nat k)) = T_FILE;
  al_old : forall k, k < freeinode s -> k <> 1 -> cont' k = cont k;
  al_type : forall k, k < freeinode s -> i_type (node' k) = i_type (node k);
  al_first : freeinode s' = freeinode s + Z.of_nat (length fs);
  al_blocks : freeblock s' + need (blocks (Z.of_nat (length (cont 1)))) <=
    freeblock s + need (blocks (Z.of_nat (length (cont 1)) + 32 * Z.of_nat (length fs))) + files_need fs }.
Lemma add_files_run fs : forall s node cont, image s node cont -> 2 <= freeinode s -> freeinode s + Z.of_nat (length fs) <= ninodes -> Forall file_fits fs ->
  let r := Z.of_nat (length (cont 1)) in r + 32 * Z.of_nat (length fs) <= MAXFILE * BSIZE ->
  freeblock s + need (blocks (r + 32 * Z.of_nat (length fs))) + files_need fs <= size + need (blocks r) ->
  exists s' node' cont', add_files 1 (given fs) s = Ok (tt, s') /\ all_added s s' node node' cont cont' fs.
Proof.
  induction fs as [|f fs IH]; intros s node cont H Hj Hn Hfit r Hr Hroom.
  { exists s, node, cont. split; [done|]. split; try done; cbn [dirents concat length files_need foldr]; rewrite ?app_nil_r; try done; [lia|]. change (Z.of_nat 0) with 0. rewrite Z.mul_0_r, !Z.add_0_r. lia. }
  apply Forall_cons in Hfit as [Hf Hfit]. cbn [length files_need foldr] in *. fold (files_need fs) in *. pose proof (files_need_nonneg fs).
  replace (r + 32 * Z.of_nat (S (length fs))) with (r + 32 + 32 * Z.of_nat (length fs)) in * by lia.
  assert (Hmono : need (blocks (r + 32)) <= need (blocks (r + 32 + 32 * Z.of_nat (length fs)))).
  { apply need_mono. unfold blocks. apply Z2Nat.inj_le; try apply Z.div_pos; try (unfold r; lia). apply Z.div_le_mono; lia. }
  destruct (add_file_run s node cont f H ltac:(lia) Hf ltac:(fold r; lia) ltac:(fold r; lia)) as (s1 & node1 & E1 & I1 & T1 & A1 & B1). fold r in B1.
  set (cont1 := upd _ _ _) in I1. assert (Hc1 : cont1 1 = cont 1 ++ dirent (freeinode s) (stripped f.1)) by (unfold cont1; rewrite upd_ne by lia; apply upd_eq).
  assert (Hl1 : Z.of_nat (length (cont1 1)) = r + 32) by (rewrite Hc1, length_app, dirent_length; unfold r; lia).
  destruct (IH s1 node1 cont1 I1) as (s2 & node2 & cont2 & E2 & [L1 L2 L3 L4 L5 L6 L7]); rewrite ?Hl1, ?A1; try done; try lia.
  rewrite Hl1 in L7. exists s2, node2, cont2. split; [|split; try done].
  - change (given (f :: fs)) with ((f.1, Some f.2) :: given fs). cbn [add_files]. by rewrite (bind_Ok _ _ _ _ _ E1).
  - rewrite L2, Hc1, A1. cbn [dirents concat]. by rewrite <- app_assoc.
  - intros [|k] g Hk.
    + injection Hk as <-. rewrite Z.add_0_r. rewrite L4, L5, T1, Z.eqb_refl by lia. unfold cont1. by rewrite upd_eq.
    + replace (freeinode s + Z.of_nat (S k)) with (freeinode s1 + Z.of_nat k) by lia. by apply L3.
  - intros k Hk Hk1. rewrite L4 by lia. unfold cont1. rewrite !upd_ne by lia. done.
  - intros k Hk. rewrite L5 by lia. rewrite T1. by rewrite (proj2 (Z.eqb_neq _ _)) by lia.
  - rewrite L6. cbn [length]. lia.
  - cbn [length files_need foldr]. fold (files_need fs). fold r. replace (r + 32 * Z.of_nat (S (length fs))) with (r + 32 + 32 * Z.of_nat (length fs)) by lia. lia.
Qed.

(** ** The bitmap *)
Lemma bit_block_bits temp b : 0 <= temp -> 0 <= b -> Z.testbit (bit_block temp (b / 8)) (b mod 8) = (b <? temp).
Proof.
  intros Ht. revert b. unfold bit_block. apply (zfor_ind (fun i buf => forall b, 0 <= b -> Z.testbit (buf (b / 8)) (b mod 8) = (b <? i))); [done | |].
  - intros b Hb. rewrite Z.bits_0. symmetry. apply Z.ltb_ge. lia.
  - intros i buf Hi IH b Hb. pose proof (Z.mod_pos_bound b 8 ltac:(lia)). pose proof (Z.mod_pos_bound i 8 ltac:(lia)). unfold upd. destruct (Z.eqb_spec (b / 8) (i / 8)) as [E|E].
    + unfold u8. rewrite Z.mod_pow2_bits_low by lia. rewrite Z.lor_spec, <- E, IH by done. rewrite Z.shiftl_1_l, Z.pow2_bits_eqb by lia.
      destruct (Z.ltb_spec b i), (Z.ltb_spec b (i + 1)), (Z.eqb_spec (i mod 8) (b mod 8)); cbn [orb]; try done; exfalso; Z.div_mod_to_equations; lia.
    + rewrite IH by done. apply eq_true_iff_eq. rewrite !Z.ltb_lt. assert (b <> i) by congruence. lia.
Qed.
(** The same memory and counters, but for the bitmap blocks from [q] on. *)
Record bitmap_only (q : Z) (s s' : mkstate) : Prop := mkBitmapOnly {
  bo_img : forall x, ~ ((28 + q) * 512 <= x < DATA * BSIZE) -> img s' x = img s x;
  bo_extent : extent s' = extent s;
  bo_free : freeblock s' = freeblock s /\ usedblocks s' = usedblocks s /\ freeinode s' = freeinode s }.
Lemma balloc_loop_run U : 0 <= U <= size -> forall fuel q s, 0 <= q -> extent s = size -> (0 < fuel)%nat -> U - 4096 * q <= 4096 * (Z.of_nat fuel - 1) ->
  (forall x, (28 + q) * 512 <= x < DATA * BSIZE -> img s x = 0) -> exists s', balloc_loop fuel (U - 4096 * q) q s = Ok (tt, s') /\
  bitmap_only q s s' /\ forall b, 4096 * q <= b < size -> bit_used (img s') ninodes b = (b <? U).
Proof.
  intros HU. unfold size in *. induction fuel as [|fuel IH]; intros q s Hq He Hf0 Hf Hz; [lia|]. cbn [balloc_loop]. rewrite Z.gtb_ltb.
  destruct (Z.ltb_spec 0 (U - 4096 * q)) as [Hu|Hu].
  - erewrite bind_Ok; [|reflexivity]. change (ninodes / IPB + 3 + q) with (28 + q). set (t := if U - 4096 * q >? 4096 then 4096 else U - 4096 * q).
    assert (Ht : t = Z.min 4096 (U - 4096 * q)) by (unfold t; rewrite Z.gtb_ltb; destruct (Z.ltb_spec 4096 (U - 4096 * q)); lia).
    set (s1 := mkMk _ _ _ _ _). replace (U - 4096 * q - 4096) with (U - 4096 * (q + 1)) by lia.
    assert (O1 : forall x, ~ in_block (28 + q) x -> img s1 x = img s x) by (intros x Hx; by apply write_block_out).
    destruct (IH (q + 1) s1) as (s' & E & [B1 B2 B3] & Hb); cbn [s1 extent]; try lia.
    { intros x Hx. rewrite O1; [apply Hz; lia | unfold in_block, BSIZE; lia]. }
    exists s'. split; [done|]. split; [split; [| cbn [s1 extent] in B2; lia | done]|].
    { intros x Hx. unfold DATA, BSIZE in *. rewrite B1 by lia. apply O1. unfold in_block, BSIZE. lia. }
    intros b Hbr. destruct (decide (4096 * (q + 1) <= b)) as [Hge|Hlt]; [apply Hb; lia|]. unfold bit_used, bitmap_at. change (ninodes / IPB + 3) with 28. change BSIZE with 512 in *.
    assert (Hd : b / 8 = 512 * q + (b - 4096 * q) / 8 /\ b mod 8 = (b - 4096 * q) mod 8 /\ 0 <= (b - 4096 * q) / 8 < 512) by (Z.div_mod_to_equations; lia). destruct Hd as (D1 & D2 & D3).
    rewrite B1 by (unfold DATA; lia). cbn [s1 img]. rewrite write_block_in by (unfold in_block, BSIZE; lia). rewrite D1, D2.
    replace (28 * 512 + (512 * q + (b - 4096 * q) / 8) - (28 + q) * 512) with ((b - 4096 * q) / 8) by lia.
    rewrite bit_block_bits by lia. apply eq_true_iff_eq. rewrite !Z.ltb_lt. lia.
  - exists s. split; [done|]. split; [done|]. intros b Hb. unfold bit_used, bitmap_at. change (ninodes / IPB + 3) with 28. change BSIZE with 512 in *. unfold DATA in *.
    rewrite Hz by (Z.div_mod_to_equations; lia). rewrite Z.bits_0. symmetry. apply Z.ltb_ge. lia.
Qed.
