(* ===== verification/MkfsImage.v ===== *)
(** * MkfsImage: the kernel finds the files that mkfs was given (src/src/mkfs.c, src/src/fs.c) *)
From S2P Require Import Prelude CString Fs FsFacts FsFile DirFacts Mkfs MkfsTree MkfsAppend MkfsFacts.

(** ** The root directory *)
Lemma entry_nth C k : entry (fun o => nth (Z.to_nat o) C 0) k = map (fun q => nth (Z.to_nat (32 * k + q)) C 0) (seqZ 0 32).
Proof. unfold entry. change DIRENT with 32. rewrite <- (Z.add_0_r (32 * k)) at 1. rewrite <- fmap_add_seqZ, <- list_fmap_compose. done. Qed.
Lemma map_nth_all (d : list Z) : length d = 32%nat -> map (fun q => nth (Z.to_nat q) d 0) (seqZ 0 32) = d.
Proof.
  intros Hd. apply list_eq. intros q. rewrite list_lookup_fmap. destruct (decide (q < 32)%nat).
  - rewrite lookup_seqZ_lt by lia. destruct (lookup_lt_is_Some_2 d q ltac:(lia)) as [c Hc]. cbn [fmap option_fmap option_map]. rewrite Z.add_0_l, Nat2Z.id, nth_lookup, Hc. done.
  - rewrite lookup_seqZ_ge by lia. symmetry. apply lookup_ge_None_2. lia.
Qed.
(** Directory bytes that are entries, then zeros. *)
Lemma entries_concat (des : list (list Z)) : Forall (fun d => length d = 32%nat) des -> forall n, (length des <= n)%nat ->
  entries (fun o => nth (Z.to_nat o) (concat des) 0) (Z.of_nat n) = des ++ replicate (n - length des) (replicate 32 0).
Proof.
  assert (Hshift : forall (d C : list Z) n, length d = 32%nat ->
    map (entry (fun o => nth (Z.to_nat o) (d ++ C) 0)) (seqZ 1 (Z.of_nat n)) = entries (fun o => nth (Z.to_nat o) C 0) (Z.of_nat n)).
  { intros d C n Hd. unfold entries. rewrite <- (Z.add_0_r 1) at 1. rewrite <- fmap_add_seqZ, <- list_fmap_compose. apply map_ext_in. intros k Hk.
    apply list_elem_of_In, elem_of_seqZ in Hk. cbn. rewrite !entry_nth. apply map_ext_in. intros q Hq. apply list_elem_of_In, elem_of_seqZ in Hq.
    rewrite app_nth2 by lia. f_equal. lia. }
  induction 1 as [|d des Hd _ IH]; intros [|n] Hn; cbn [length] in Hn; try lia.
  - done.
  - unfold entries. cbn [concat]. transitivity (map (fun _ : Z => replicate 32 0) (seqZ 0 (Z.of_nat (S n)))).
    { apply map_ext_in. intros k Hk. rewrite entry_nth. transitivity (map (fun _ : Z => 0) (seqZ 0 32)); [|done]. apply map_ext. intros q. by destruct (Z.to_nat _). }
    apply list_eq. intros q. rewrite list_lookup_fmap. cbn [app length]. rewrite Nat.sub_0_r. destruct (decide (q < S n)%nat).
    + rewrite lookup_seqZ_lt, lookup_replicate_2 by lia. done.
    + rewrite lookup_seqZ_ge by lia. symmetry. apply lookup_replicate_None. lia.
  - unfold entries at 1. rewrite seqZ_cons by lia. cbn [map concat app]. f_equal.
    + rewrite entry_nth. etrans; [|exact (map_nth_all d Hd)]. apply map_ext_in. intros q Hq. apply list_elem_of_In, elem_of_seqZ in Hq. rewrite app_nth1 by lia. f_equal; lia.
    + replace (Z.pred (Z.of_nat (S n))) with (Z.of_nat n) by lia. change (Z.succ 0) with 1. rewrite Hshift by done. rewrite IH by lia. done.
Qed.
(** Looking a file up. *)
Lemma dirents_find fs : forall n k f r, Forall file_fits fs -> NoDup (map (fun f => stripped f.1) fs) -> 0 < n -> n + Z.of_nat (length fs) < 2 ^ 16 ->
  fs !! k = Some f -> dir_map (dirents n fs ++ r) (stripped f.1) = Some (n + Z.of_nat k).
Proof.
  induction fs as [|g fs IH]; intros n k f r Hf Hnd Hn Hb Hk; [done|]. apply Forall_cons in Hf as [Hg Hf]. cbn [map] in Hnd. apply NoDup_cons in Hnd as [Hnot Hnd].
  cbn [dirents app length] in *. destruct k as [|k].
  - injection Hk as <-. rewrite dir_map_dirent by (try apply Hg; lia). rewrite decide_True by done. f_equal. lia.
  - cbn in Hk. assert (Hin : f ∈ fs) by (by eapply list_elem_of_lookup_2). assert (Hff : file_fits f) by (rewrite Forall_forall in Hf; by apply Hf).
    rewrite dir_map_dirent by (try apply Hg; try apply Hff; lia). rewrite decide_False.
    + rewrite (IH (n + 1) k f r) by (done || lia). f_equal. lia.
    + intros He. apply Hnot. rewrite <- He. by apply (list_elem_of_fmap_2 (fun f => stripped f.1)).
Qed.

(** ** The finished image *)
Definition disk (s : mkstate) (cache : list inode) : fstate := mkF (img s) cache [].
(** Inode [j] as the kernel reads it from the image. *)
Definition loaded (s : mkstate) (j : Z) : inode := load_inode (img s) (empty_node j).
Definition root_entries (n : nat) : nat := 16 * ((2 + n) / 16 + 1).
(** The names are different from each other and from [.] and [..]. *)
Definition names_distinct (fs : list (list Z * list Z)) : Prop :=
  NoDup (map (fun f => stripped f.1) fs) /\ Forall (fun f => stripped f.1 <> [46] /\ stripped f.1 <> [46; 46]) fs.
(** The blocks needed, below the log. *)
Definition space_for (fs : list (list Z * list Z)) : Prop :=
  DATA + need (blocks (32 * (2 + Z.of_nat (length fs)))) + files_need fs <= size - nlog.
(** What the directory bytes say. *)
Definition root_list (fs : list (list Z * list Z)) : list (list Z) := dirent 1 [46] :: dirent 1 [46; 46] :: dirents 2 fs.

(** The image when all files are in: [finish] rounds the size of the root
    directory and writes the bitmap. *)
Record complete (s : mkstate) (node : Z -> inode) (cont : Z -> list Z) (fs : list (list Z * list Z)) : Prop := mkComplete {
  co_inv : inv s node cont;
  co_loaded : forall j, 0 <= j < ninodes -> loaded s j = node j;
  co_root : cont 1 = concat (root_list fs) /\ i_type (node 1) = T_DIR /\ i_size (node 1) = 32 * Z.of_nat (root_entries (length fs));
  co_files : forall k f, fs !! k = Some f -> cont (2 + Z.of_nat k) = f.2 /\ i_type (node (2 + Z.of_nat k)) = T_FILE /\
    i_size (node (2 + Z.of_nat k)) = Z.of_nat (length f.2);
  co_super : sb_of (img s) = mkSB size nblocks ninodes nlog;
  co_bits : forall b, 0 <= b < size -> bit_used (img s) ninodes b = (b <? freeblock s);
  co_log : freeblock s <= size - nlog }.

Section Complete.
Context (s : mkstate) (node : Z -> inode) (cont : Z -> list Z) (fs : list (list Z * list Z)) (c : list inode).
Context (H : complete s node cont fs).
Lemma complete_used b : 0 <= b < size -> used (disk s c) b = (b <? freeblock s).
Proof using H. intros Hb. unfold used, disk. cbn [fdisk]. rewrite (co_super _ _ _ _ H). cbn [sb_ninodes]. by apply (co_bits _ _ _ _ H). Qed.
Lemma complete_start : data_start (disk s c) = 33 /\ fs_size (disk s c) = size.
Proof using H. unfold data_start, fs_size, disk. cbn [fdisk]. by rewrite (co_super _ _ _ _ H). Qed.
Lemma complete_fs : fs_ok (disk s c).
Proof using H.
  destruct complete_start as [Hd Hs]. pose proof (iv_free _ _ _ (co_inv _ _ _ _ H)) as Hf. unfold DATA in Hf. split; [split|]; rewrite ?Hs, ?Hd.
  - cbn [disk fdisk]. rewrite (co_super _ _ _ _ H). done.
  - intros b Hb. rewrite complete_used by done. rewrite Z.ltb_ge. lia.
  - done.
Qed.
Lemma complete_tree j : 0 <= j < ninodes -> tree_ok (disk s c) (loaded s j).
Proof using H.
  intros Hj. rewrite (co_loaded _ _ _ _ H j Hj). destruct complete_start as [Hd Hs]. pose proof (co_inv _ _ _ _ H) as Hi. pose proof (iv_free _ _ _ Hi) as Hf. split.
  - apply Hi.
  - intros l l' Hl Hl' Hne He. by destruct (iv_inj _ _ _ Hi j l j l' Hl Hl' Hne He).
  - intros l Hl Hne. pose proof (iv_live _ _ _ Hi j l Hl Hne) as Hr. rewrite Hd, Hs. unfold DATA in *. cbn [disk fdisk]. split; [lia|]. rewrite complete_used by lia. lia.
Qed.
Lemma complete_bytes j o : 0 <= j < ninodes -> 0 <= o < MAXFILE * BSIZE -> byte_at (img s) (loaded s j) o = nth (Z.to_nat o) (cont j) 0.
Proof using H. intros Hj Ho. rewrite (co_loaded _ _ _ _ H j Hj). by apply (iv_bytes _ _ _ (co_inv _ _ _ _ H)). Qed.
Lemma complete_mapped j n : 0 <= j < ninodes -> n <= 512 * Z.of_nat (blocks (Z.of_nat (length (cont j)))) -> n <= MAXFILE * BSIZE -> mapped (img s) (loaded s j) 0 n.
Proof using H.
  intros Hj Hn Hm o Ho. rewrite (co_loaded _ _ _ _ H j Hj). apply (iv_dense _ _ _ (co_inv _ _ _ _ H)); [apply block_index; lia|].
  unfold blocks in Hn. rewrite Z2Nat.id in Hn by (apply Z.div_pos; lia). unfold BSIZE. Z.div_mod_to_equations. lia.
Qed.
End Complete.

(** Reading a whole file. *)
Lemma complete_read devsw s node cont fs k f : complete s node cont fs -> (2 + length fs <= Z.to_nat ninodes)%nat -> Forall file_fits fs -> fs !! k = Some f ->
  readi devsw 0 0 (Z.of_nat (length f.2)) (disk s [loaded s (2 + Z.of_nat k)]) = Ok ((Z.of_nat (length f.2), f.2), disk s [loaded s (2 + Z.of_nat k)]).
Proof.
  intros H Hlen Hfit Hk. assert (Hnn : ninodes = 200) by done. pose proof (lookup_lt_Some _ _ _ Hk) as Hlt. set (j := 2 + Z.of_nat k). assert (Hj : 0 <= j < ninodes) by (unfold j; lia).
  destruct (co_files _ _ _ _ H k f Hk) as (C1 & C2 & C3). fold j in C1, C2, C3. rewrite <- (co_loaded _ _ _ _ H j Hj) in C2, C3.
  assert (Hsz : Z.of_nat (length f.2) <= MAXFILE * BSIZE) by (rewrite Forall_forall in Hfit; apply Hfit; by eapply list_elem_of_lookup_2).
  assert (Hbig : MAXFILE * BSIZE = 8459776) by done. set (n := Z.of_nat (length f.2)) in *. set (i := loaded s j) in *. set (d := disk s [i]).
  assert (Hi : icache d !! 0%nat = Some i) by done. unfold readi. rewrite (bind_Ok _ _ _ _ _ (inode_at_run d 0 i Hi)). rewrite C2, C3.
  rewrite (proj2 (Z.eqb_neq T_FILE T_DEV)) by done. rewrite u32_small by lia. rewrite !Z.gtb_ltb. rewrite (proj2 (Z.ltb_ge n 0)) by lia. rewrite (proj2 (Z.ltb_ge (0 + n) 0)) by lia. cbn [orb].
  rewrite (proj2 (Z.ltb_ge n (0 + n))) by lia.
  rewrite (bind_Ok _ _ _ _ _ (readi_loop_there d 0 i n Hi (S (Z.to_nat n)) 0 0 ltac:(lia) ltac:(lia) ltac:(lia) ltac:(lia)
    ltac:(rewrite Z.sub_0_r; apply (complete_mapped s node cont fs); [done | done | rewrite C1; fold n; unfold blocks; rewrite Z2Nat.id by (apply Z.div_pos; lia); Z.div_mod_to_equations; lia | done]))).
  unfold ret. rewrite Z.sub_0_r. do 3 f_equal. apply list_eq. intros q. rewrite list_lookup_fmap. destruct (decide (q < length f.2)%nat) as [Hq|Hq].
  - rewrite lookup_seqZ_lt by lia. cbn [fmap option_fmap option_map]. change (fdisk d) with (img s). unfold i. rewrite (complete_bytes s node cont fs) by (done || lia). rewrite C1.
    rewrite Z.add_0_l, Nat2Z.id. destruct (lookup_lt_is_Some_2 f.2 q Hq) as [v Hv]. by rewrite Hv, nth_lookup, Hv.
  - rewrite lookup_seqZ_ge by lia. symmetry. apply lookup_ge_None_2. lia.
Qed.
(** The root directory. *)
Lemma root_list_len fs : length (root_list fs) = (2 + length fs)%nat.
Proof. unfold root_list. cbn [length]. do 2 f_equal. generalize 2. induction fs as [|f fs IH]; intros n; [done|]. cbn. by rewrite IH. Qed.
Lemma root_list_32 fs : Forall (fun d => length d = 32%nat) (root_list fs).
Proof.
  unfold root_list. repeat (apply Forall_cons; split; [apply dirent_length|]). generalize 2.
  induction fs as [|f fs IH]; intros n; [constructor|]. constructor; [apply dirent_length | apply IH].
Qed.
Lemma concat_len (des : list (list Z)) : Forall (fun d => length d = 32%nat) des -> length (concat des) = (32 * length des)%nat.
Proof. induction 1 as [|d des Hd _ IH]; [done|]. cbn [concat length]. rewrite length_app, Hd, IH. lia. Qed.
Lemma root_room n : (2 + n <= root_entries n)%nat /\ (root_entries n <= 18 + n)%nat.
Proof. unfold root_entries. pose proof (Nat.div_mod (2 + n) 16 ltac:(lia)). pose proof (Nat.mod_upper_bound (2 + n) 16 ltac:(lia)). lia. Qed.
Lemma complete_dir_map s node cont fs : complete s node cont fs -> (2 + length fs <= Z.to_nat ninodes)%nat ->
  dir_of (disk s [loaded s 1]) (loaded s 1) (Z.of_nat (root_entries (length fs))) =
  root_list fs ++ replicate (root_entries (length fs) - (2 + length fs)) (replicate 32 0).
Proof.
  intros H Hlen. assert (Hnn : ninodes = 200) by done. destruct (root_room (length fs)) as [R1 R2]. assert (Hbig : MAXFILE * BSIZE = 8459776) by done.
  unfold dir_of. cbn [disk fdisk]. rewrite <- root_list_len, <- entries_concat; [|apply root_list_32 | rewrite root_list_len; lia].
  unfold entries. apply map_ext_in. intros k Hk. apply list_elem_of_In, elem_of_seqZ in Hk. unfold entry. change DIRENT with 32. apply map_ext_in. intros o Ho.
  apply list_elem_of_In, elem_of_seqZ in Ho. rewrite (complete_bytes s node cont fs) by (done || lia). by rewrite (proj1 (co_root _ _ _ _ H)).
Qed.
Lemma complete_dir s node cont fs : complete s node cont fs -> (2 + length fs <= Z.to_nat ninodes)%nat -> ((2 + length fs) mod 16 <> 0)%nat ->
  dir_ok (disk s [loaded s 1]) 0 (loaded s 1) (Z.of_nat (root_entries (length fs))).
Proof.
  intros H Hlen Hmod. assert (Hnn : ninodes = 200) by done. destruct (root_room (length fs)) as [R1 R2]. assert (Hbig : MAXFILE * BSIZE = 8459776) by done.
  assert (H1 : 0 <= 1 < ninodes) by lia. destruct (co_root _ _ _ _ H) as (C1 & C2 & C3). rewrite <- (co_loaded _ _ _ _ H 1 H1) in C2, C3. split; try done.
  - by eapply complete_fs.
  - by eapply complete_tree.
  - split; [|split; [by rewrite C2|rewrite C3; lia]]. cbn [disk fdisk]. rewrite (co_super _ _ _ _ H). done.
  - lia.
  - cbn [disk fdisk]. rewrite C3. apply (complete_mapped s node cont fs); [done | done | | lia]. rewrite C1, concat_len, root_list_len by apply root_list_32.
    unfold blocks. rewrite Z2Nat.id by (apply Z.div_pos; lia). unfold root_entries.
    pose proof (Nat.div_mod (2 + length fs) 16 ltac:(lia)). pose proof (Nat.mod_upper_bound (2 + length fs) 16 ltac:(lia)).
    set (q := ((2 + length fs) / 16)%nat) in *. set (r := ((2 + length fs) mod 16)%nat) in *.
    transitivity (512 * (Z.of_nat q + 1)); [lia|]. apply Z.mul_le_mono_nonneg_l; [lia|]. apply Z.div_le_lower_bound; lia.
Qed.
Lemma complete_find s node cont fs k f : complete s node cont fs -> (2 + length fs <= Z.to_nat ninodes)%nat -> Forall file_fits fs -> names_distinct fs -> fs !! k = Some f ->
  dir_map (dir_of (disk s [loaded s 1]) (loaded s 1) (Z.of_nat (root_entries (length fs)))) (stripped f.1) = Some (2 + Z.of_nat k).
Proof.
  intros H Hlen Hfit [Hnd Hdots] Hk. assert (Hnn : ninodes = 200) by done. rewrite (complete_dir_map s node cont fs H Hlen). unfold root_list. cbn [app].
  assert (Hin : f ∈ fs) by (by eapply list_elem_of_lookup_2). rewrite Forall_forall in Hdots. destruct (Hdots f Hin) as [D1 D2].
  assert (Hf : name_ok (stripped f.1)) by (rewrite Forall_forall in Hfit; by apply Hfit).
  assert (Hn1 : name_ok [46]) by (split; [repeat (apply Forall_cons_2; [done|]); apply Forall_nil_2 | change (Z.to_nat DIRSIZ) with 30%nat; cbn; lia]). assert (Hn2 : name_ok [46; 46]) by (split; [repeat (apply Forall_cons_2; [done|]); apply Forall_nil_2 | change (Z.to_nat DIRSIZ) with 30%nat; cbn; lia]).
  rewrite dir_map_dirent by (done || lia). rewrite decide_False by done. rewrite dir_map_dirent by (done || lia). rewrite decide_False by done.
  by apply dirents_find; [| | lia | lia |].
Qed.

(** ** The run of [main] *)
Lemma zero_image n : 0 <= n -> exists s, mfor 0 n (fun i => wsect i (fun _ => 0)) mkfs_start = Ok (tt, s) /\ (forall x, img s x = 0) /\ extent s = n /\
  freeblock s = DATA /\ usedblocks s = DATA /\ freeinode s = 1.
Proof.
  intros Hn. unfold mfor. rewrite Z.sub_0_r. destruct (zero_all (Z.to_nat n) 0 mkfs_start) as (s & E & Z1 & Z2 & Z3); try done.
  rewrite Z2Nat.id in E, Z2 by done. by exists s.
Qed.
(** An empty file system. *)
Lemma empty_run : exists s, (forall B (k : K B), (mfor 0 (nblocks + DATA + nlog) (fun i => wsect i (fun _ => 0)) ;;; wsect 1 super ;;; k) mkfs_start = k s) /\
  image s empty_node (fun _ => []) /\ freeinode s = 1 /\ freeblock s = DATA.
Proof.
  destruct (zero_image (nblocks + DATA + nlog) ltac:(unfold nblocks, DATA, nlog, LOGSIZE; lia)) as (s0 & E0 & Z1 & Z2 & Z3 & Z4 & Z5).
  exists (with_img s0 (write_block (img s0) 1 super)). split; [|split; [exact (empty_image s0 Z1 Z2 Z4 Z3 Z5) | exact (conj Z5 Z3)]].
  intros B k. rewrite (bind_Ok _ _ _ _ _ E0). unfold wsect. rewrite (bind_Ok _ _ s0 tt (with_img s0 (write_block (img s0) 1 super))); [reflexivity|].
  unfold modify, with_img. rewrite Z.max_l; [reflexivity|]. rewrite Z2. unfold nblocks, DATA, nlog, LOGSIZE. lia.
Qed.
(** The root directory with its two entries. *)
Lemma root_run s0 : image s0 empty_node (fun _ => []) -> freeinode s0 = 1 -> freeblock s0 = DATA -> exists s node, (forall B (k : Z -> K B),
    (rootino <- ialloc T_DIR ;;
     (if rootino =? ROOTINO then ret tt else panic "assert") ;;;
     iappend rootino (dirent (xshort rootino) [46]) ;;;
     iappend rootino (dirent (xshort rootino) [46; 46]) ;;; k rootino) s0 = k 1 s) /\
  image s node (upd (fun _ => []) 1 (dirent 1 [46] ++ dirent 1 [46; 46])) /\ i_type (node 1) = T_DIR /\ freeinode s = 2 /\ freeblock s <= DATA + need (blocks 64).
Proof.
  intros I0 Hj Hb. destruct (ialloc_run s0 _ _ T_DIR I0) as (s2 & E2 & I2 & A2 & B2); [rewrite Hj; unfold ninodes; lia | unfold T_DIR; lia|].
  rewrite Hj in E2, I2, A2. rewrite Hb in B2. clear I0.
  assert (N0 : need (blocks 0) = 0) by reflexivity. assert (N1 : need (blocks 32) = 1) by reflexivity. assert (N2 : need (blocks 64) = 1) by reflexivity.
  assert (L : forall nm, length (dirent 1 nm) = 32%nat) by (intros nm; apply dirent_length). assert (Hbig : MAXFILE * BSIZE = 8459776) by reflexivity.
  assert (Hds : DATA = 34 /\ size = 20480) by (split; reflexivity).
  destruct (iappend_run s2 _ _ 1 (dirent 1 [46]) I2) as (s3 & node3 & E3 & [I3 T3 A3 B3]); rewrite ?L; cbn [length]; change (Z.of_nat 0 + Z.of_nat 32) with 32; change (Z.of_nat 0) with 0; try lia.
  rewrite L in B3. cbn [length] in B3. change (Z.of_nat 0 + Z.of_nat 32) with 32 in B3. change (Z.of_nat 0) with 0 in B3. cbn [app] in I3.
  destruct (iappend_run s3 _ _ 1 (dirent 1 [46; 46]) I3) as (s4 & node4 & E4 & [I4 T4 A4 B4]); rewrite ?upd_eq, ?L; change (Z.of_nat 32 + Z.of_nat 32) with 64; change (Z.of_nat 32) with 32; try lia.
  rewrite upd_eq, !L in B4. change (Z.of_nat 32 + Z.of_nat 32) with 64 in B4. change (Z.of_nat 32) with 32 in B4.
  exists s4, node4. split; [|split; [|split; [|split; lia]]].
  - intros B k. rewrite (bind_Ok _ _ _ _ _ E2). change (1 =? ROOTINO) with true. cbv iota. erewrite bind_Ok; [|reflexivity].
    rewrite xshort_id by lia. rewrite (bind_Ok _ _ _ _ _ E3), (bind_Ok _ _ _ _ _ E4). reflexivity.
  - apply (image_ext _ _ _ _ _ I4); [reflexivity|]. intros k. unfold upd. destruct (k =? 1); reflexivity.
  - rewrite T4, T3, upd_eq. reflexivity.
Qed.
(** The end: the size of the root directory rounded up, the bitmap written. *)
Lemma round_size n : (32 * (2 + Z.of_nat n) / BSIZE + 1) * BSIZE = 32 * Z.of_nat (root_entries n).
Proof.
  unfold root_entries, BSIZE. rewrite Nat2Z.inj_mul, Nat2Z.inj_add, Nat2Z.inj_div, Nat2Z.inj_add. change (Z.of_nat 16) with 16. change (Z.of_nat 2) with 2. change (Z.of_nat 1) with 1.
  replace (32 * (2 + Z.of_nat n) / 512) with ((2 + Z.of_nat n) / 16) by (Z.div_mod_to_equations; lia). lia.
Qed.
Lemma finish_run s node cont n : image s node cont -> Z.of_nat (length (cont 1)) = 32 * (2 + Z.of_nat n) -> (2 + n <= 200)%nat ->
  let root := with_size (32 * Z.of_nat (root_entries n)) (node 1) in exists s',
  (din <- rinode 1 ;; winode 1 (with_size (xint ((xint (i_size din) / BSIZE + 1) * BSIZE)) din) ;;; used <- gets usedblocks ;; balloc used) s = Ok (tt, s') /\
  inv s' (upd node 1 root) cont /\ (forall j, 0 <= j < ninodes -> loaded s' j = upd node 1 root j) /\ sb_of (img s') = mkSB size nblocks ninodes nlog /\
  (forall b, 0 <= b < size -> bit_used (img s') ninodes b = (b <? freeblock s')) /\ freeblock s' = freeblock s.
Proof.
  intros H Hr Hn root. assert (Hnn : ninodes = 200) by reflexivity. assert (H1 : 0 <= 1 < ninodes) by lia. pose proof (im_inv _ _ _ H) as Hinv. pose proof (iv_extent _ _ _ Hinv) as He.
  pose proof (iv_free _ _ _ Hinv) as Hf. destruct (root_room n) as [R1 R2]. pose proof (no_addrs _ _ (im_ok _ _ _ H 1)) as Hlen.
  rewrite (bind_Ok _ _ _ _ _ (rinode_run s 1 He H1)), (im_sync _ _ _ H 1 H1), (im_size _ _ _ H), Hr. rewrite (xint_id (32 * (2 + Z.of_nat n))) by lia. rewrite round_size, xint_id by lia.
  fold root. rewrite (bind_Ok _ _ _ _ _ (winode_run s 1 root He H1)). erewrite bind_Ok; [|reflexivity]. cbn [usedblocks with_img]. rewrite (iv_used _ _ _ Hinv).
  set (m1 := inode_set (img s) 1 root). assert (O1 : forall x, ~ (1088 <= x < 1152) -> m1 x = img s x) by (intros x Hx; apply inode_set_out; [exact Hlen | lia]).
  assert (Hok : node_ok 1 root). { destruct (im_ok _ _ _ H 1) as [N1 N2 N3 N4 N5]. split; try assumption. cbn [root with_size i_size]. lia. }
  unfold balloc. pose proof (Z.div_mod (freeblock s) 4096 ltac:(lia)). pose proof (Z.mod_pos_bound (freeblock s) 4096 ltac:(lia)). unfold DATA in Hf.
  assert (Hq : 0 <= freeblock s / 4096) by (apply Z.div_pos; lia).
  destruct (balloc_loop_run (freeblock s) ltac:(lia) (S (Z.to_nat (freeblock s / 4096 + 1))) 0 (with_img s m1) ltac:(lia) He ltac:(lia) ltac:(lia)) as (s2 & E2 & [B1 B2 (B3 & B4 & B5)] & Hbits).
  { intros x Hx. unfold DATA, BSIZE in Hx. cbn [img with_img]. rewrite O1 by lia. apply (im_bitmap _ _ _ H). unfold ninodes, DATA, BSIZE. lia. }
  rewrite Z.mul_0_r, Z.sub_0_r in E2. cbn [img with_img freeblock usedblocks extent] in *.
  assert (O2 : forall x, x < 28 * 512 \/ DATA * BSIZE <= x -> img s2 x = m1 x) by (intros x Hx; apply B1; unfold DATA, BSIZE in *; lia).
  exists s2. split; [exact E2|]. split; [|split; [|split; [|split; [|exact B3]]]].
  - apply (inv_low s s2 node); try assumption.
    + intros x Hx. rewrite O2 by (right; exact Hx). apply O1. unfold DATA, BSIZE in Hx. lia.
    + intros j. unfold upd. destruct (Z.eqb_spec j 1) as [->|]; reflexivity.
  - intros j Hj. transitivity (dinode_of (img s2) (1024 + 64 * j) j); [unfold loaded, load_inode; cbn [i_inum empty_node]; rewrite dinode_place; reflexivity|].
    rewrite (dinode_of_agree m1) by (intros x Hx; apply O2; lia). destruct (decide (j = 1)) as [->|Hne].
    + rewrite upd_eq. apply (inode_set_at (img s) 1 root Hok).
    + rewrite upd_ne by exact Hne. rewrite <- (im_sync _ _ _ H j Hj). apply dinode_of_agree. intros x Hx. apply O1. lia.
  - rewrite <- (im_super _ _ _ H). unfold sb_of, BSIZE. f_equal; apply get32_agree; intros x Hx; (rewrite O2 by (left; lia)); apply O1; lia.
  - intros b Hb. rewrite Hbits by lia. rewrite B3. reflexivity.
Qed.
Lemma main_run fs : Forall file_fits fs -> (2 + length fs <= Z.to_nat ninodes)%nat -> space_for fs -> exists s node cont,
  main (given fs) mkfs_start = Ok (tt, s) /\ complete s node cont fs.
Proof.
  intros Hfit Hlen Hroom. unfold space_for in Hroom. assert (Hnn : ninodes = 200) by reflexivity. assert (Hbig : MAXFILE * BSIZE = 8459776) by reflexivity.
  destruct empty_run as (s0 & E0 & I0 & J0 & B0). destruct (root_run s0 I0 J0 B0) as (s1 & node1 & E1 & I1 & T1 & J1 & B1). set (cont1 := upd _ _ _) in I1.
  assert (Hr1 : Z.of_nat (length (cont1 1)) = 64) by (unfold cont1; rewrite upd_eq, length_app, !dirent_length; reflexivity). assert (Hd : DATA = 34 /\ size = 20480 /\ nlog = 30) by (split_and!; reflexivity).
  destruct (add_files_run fs s1 node1 cont1 I1 ltac:(lia) ltac:(lia) Hfit) as (s2 & node2 & cont2 & E2 & [L1 L2 L3 L4 L5 L6 L7]).
  { rewrite Hr1. lia. } { rewrite Hr1. replace (64 + 32 * Z.of_nat (length fs)) with (32 * (2 + Z.of_nat (length fs))) by lia. lia. }
  rewrite Hr1 in L7. replace (64 + 32 * Z.of_nat (length fs)) with (32 * (2 + Z.of_nat (length fs))) in L7 by lia.
  assert (C1 : cont2 1 = concat (root_list fs)) by (rewrite L2, J1; unfold cont1; rewrite upd_eq; unfold root_list; cbn [concat]; by rewrite <- app_assoc).
  assert (Hr2 : Z.of_nat (length (cont2 1)) = 32 * (2 + Z.of_nat (length fs))) by (rewrite C1, concat_len, root_list_len by apply root_list_32; lia).
  destruct (finish_run s2 node2 cont2 (length fs) L1 Hr2 ltac:(lia)) as (s3 & E3 & F1 & F2 & F3 & F4 & F5).
  exists s3, (upd node2 1 (with_size (32 * Z.of_nat (root_entries (length fs))) (node2 1))), cont2. split.
  - unfold main. erewrite bind_Ok; [|reflexivity]. change (usedblocks mkfs_start) with DATA. change (nblocks + DATA + nlog =? size) with true. cbv iota.
    erewrite bind_Ok; [|reflexivity]. rewrite E0, E1, (bind_Ok _ _ _ _ _ E2). exact E3.
  - split; try assumption.
    + split; [exact C1|]. rewrite upd_eq. split; [cbn [with_size i_type]; rewrite L5 by lia; exact T1 | reflexivity].
    + intros k f Hk. destruct (L3 k f Hk) as [M1 M2]. rewrite J1 in M1, M2. rewrite upd_ne by lia. split; [exact M1|]. split; [exact M2|]. rewrite (im_size _ _ _ L1), M1. reflexivity.
    + rewrite F5. lia.
Qed.

(** C4 The disk image.  For files with distinct names of at most 30 characters
    that fit below the log, [mkfs] returns, and on the image the kernel has a
    well-formed file system: the bitmap marks exactly the blocks handed out;
    in the root directory each name leads to the inode of its file, whose
    blocks form a proper tree, and [readi] of it returns the contents given.
    Unless the number of entries is a multiple of 16, the root directory also
    satisfies the invariant that the directory operations rely on. *)
Theorem mkfs_image devsw fs : Forall file_fits fs -> names_distinct fs -> (2 + length fs <= Z.to_nat ninodes)%nat -> space_for fs ->
  exists s, main (given fs) mkfs_start = Ok (tt, s) /\
    let root := loaded s 1 in let n := Z.of_nat (root_entries (length fs)) in
    fs_ok (disk s [root]) /\ (forall b, 0 <= b < size -> used (disk s [root]) b = (b <? freeblock s)) /\ freeblock s <= size - nlog /\
    (((2 + length fs) mod 16 <> 0)%nat -> dir_ok (disk s [root]) 0 root n) /\
    forall k f, fs !! k = Some f -> let i := loaded s (2 + Z.of_nat k) in
      dir_map (dir_of (disk s [root]) root n) (stripped f.1) = Some (2 + Z.of_nat k) /\
      i_type i = T_FILE /\ i_size i = Z.of_nat (length f.2) /\ tree_ok (disk s [i]) i /\
      readi devsw 0 0 (Z.of_nat (length f.2)) (disk s [i]) = Ok ((Z.of_nat (length f.2), f.2), disk s [i]).
Proof.
  intros Hfit Hnd Hlen Hroom. destruct (main_run fs Hfit Hlen Hroom) as (s & node & cont & E & H). exists s. split; [exact E|].
  intros root n. split; [by eapply complete_fs|]. split; [intros b Hb; by eapply complete_used|]. split; [apply H|].
  split; [intros Hm; by eapply complete_dir|]. intros k f Hk i. pose proof (lookup_lt_Some _ _ _ Hk) as Hlt. assert (Hnn : ninodes = 200) by reflexivity.
  assert (Hj : 0 <= 2 + Z.of_nat k < ninodes) by lia. destruct (co_files _ _ _ _ H k f Hk) as (C1 & C2 & C3). rewrite <- (co_loaded _ _ _ _ H _ Hj) in C2, C3.
  split; [by eapply complete_find|]. split; [exact C2|]. split; [exact C3|]. split; [by eapply complete_tree | by eapply complete_read].
Qed.

(** Two files: [_a], stored as [a], and an empty file [b]. *)
Definition two_files : list (list Z * list Z) := [([95; 97], [1; 2; 3]); ([98], [])].
Lemma mkfs_image_witness : exists s, main (given two_files) mkfs_start = Ok (tt, s) /\
  readi (fun _ => mkDev None None) 0 0 3 (disk s [loaded s 2]) = Ok ((3, [1; 2; 3]), disk s [loaded s 2]).
Proof.
  destruct (mkfs_image (fun _ => mkDev None None) two_files) as (s & E & _ & _ & _ & _ & Hf).
  - repeat (apply Forall_cons_2 || apply Forall_nil_2); (split; cbn [fst snd]; [|split|]).
    all: try (change (MAXFILE * BSIZE) with 8459776; cbn; lia).
    all: try (unfold slash; intros Hin; rewrite ?elem_of_cons, elem_of_nil in Hin; lia).
    all: repeat constructor; lia.
  - split; [apply NoDup_cons; split; [cbn; intros Hin%list_elem_of_singleton; congruence | apply NoDup_singleton]|].
    repeat (apply Forall_cons_2 || apply Forall_nil_2); (split; cbn; congruence).
  - apply Nat.leb_le. reflexivity.
  - vm_compute. discriminate.
  - exists s. split; [exact E|]. destruct (Hf 0%nat _ eq_refl) as (_ & _ & _ & _ & Hr). exact Hr.
Defined.
