(* ===== verification/Programs.v ===== *)
(** * Programs: the small user programs (src/src/cat.c, echo.c, rm.c, mkdir.c, ln.c, kill.c, ls.c, init.c)

    The programs are written against the system calls they use, an interface
    (class [Os]) whose laws say what a caller sees: names with contents, what
    is left to read on a descriptor, what was written to one.  Strings are
    lists of characters without the NUL; the arguments of a program are those
    after its name.  [exit()] ends a program: the code behind it is not run.
    [printf] writes the rendering of its format ([Printf]), here given as a
    text; the outputs 1 and 2 are taken not to be files that are read. *)
From S2P Require Import Prelude CString Printf.
From Stdlib Require Ascii String.

Definition text (s : string) : list Z := map (fun c => Z.of_nat (Ascii.nat_of_ascii c)) (String.list_ascii_of_string s).
Definition nl : list Z := [10].
Definition DIRSIZ : nat := 30.
Definition space : Z := 32.
Definition slash : Z := 47.

(** ** What the system calls promise

    [desc] is, for an open descriptor, the name it was opened by and what is
    left to read; [spare] descriptors are free; [attr] is what [fstat] tells of
    a file: type, inode number and size. *)
Record view := mkView {
  store : list Z -> option (list Z);
  desc : Z -> option (list Z * list Z);
  written : Z -> list Z;
  spare : nat }.
Definition set_desc (fd : Z) (o : option (list Z * list Z)) (n : nat) (v : view) : view := mkView (store v) (upd (desc v) fd o) (written v) n.
Definition set_store (name : list Z) (o : option (list Z)) (v : view) : view :=
  mkView (fun x => if decide (x = name) then o else store v x) (desc v) (written v) (spare v).
Definition add_written (fd : Z) (l : list Z) (v : view) : view := mkView (store v) (desc v) (upd (written v) fd (written v fd ++ l)) (spare v).
(** Views are compared point by point. *)
Record same_view (v w : view) : Prop := mkSameView {
  sv_store : forall x, store v x = store w x;
  sv_desc : forall fd, desc v fd = desc w fd;
  sv_written : forall fd, written v fd = written w fd;
  sv_spare : spare v = spare w }.
#[export] Instance same_view_equiv : Equivalence same_view.
Proof.
  split; [by split|intros v w [A B C D]; split; done|]. intros u v w [A B C D] [A' B' C' D'].
  split; [intros x; by rewrite A|intros x; by rewrite B|intros x; by rewrite C|congruence].
Qed.
#[export] Instance spare_proper : Proper (same_view ==> eq) spare.
Proof. by intros v w [A B C D]. Qed.
#[export] Instance set_desc_proper fd o : Proper (eq ==> same_view ==> same_view) (set_desc fd o).
Proof. intros n ? <- v w [A B C D]. split; cbn; [done| |done|done]. intros x. unfold upd. by rewrite B. Qed.
#[export] Instance set_store_proper n o : Proper (same_view ==> same_view) (set_store n o).
Proof. intros v w [A B C D]. split; cbn; [|done..]. intros x. by rewrite A. Qed.
#[export] Instance add_written_proper fd l : Proper (same_view ==> same_view) (add_written fd l).
Proof. intros v w [A B C D]. split; cbn; [done|done| |done]. intros x. unfold upd. by rewrite !C. Qed.

Definition T_DIR : Z := 1.
Definition T_FILE : Z := 2.
Class Os := {
  world : Type;
  view_of : world -> view;
  attr : list Z -> Z * Z * Z;
  open : list Z -> M world Z;
  read : Z -> nat -> M world (option (list Z));
  write : Z -> list Z -> M world unit;
  close : Z -> M world unit;
  fstat : Z -> M world (option (Z * Z * Z));
  unlink : list Z -> M world Z;
  mkdir : list Z -> M world Z;
  link : list Z -> list Z -> M world Z;
  (** An existing name can be opened while a descriptor is left. *)
  open_law name w : exists fd w', open name w = Ok (fd, w') /\
    match store (view_of w) name with
    | Some c => (0 < spare (view_of w))%nat ->
        3 <= fd /\ desc (view_of w) fd = None /\ same_view (view_of w') (set_desc fd (Some (name, c)) (pred (spare (view_of w))) (view_of w))
    | None => fd = -1 /\ same_view (view_of w') (view_of w)
    end;
  (** A read delivers some of what is left, nothing at the end only; of a
      directory it delivers all there is room for. *)
  read_law fd n w name l : (0 < n)%nat -> desc (view_of w) fd = Some (name, l) -> exists k w', read fd n w = Ok (Some (take k l), w') /\
    (k <= n)%nat /\ (l <> [] -> (0 < k)%nat) /\ (fst (fst (attr name)) = T_DIR -> k = Nat.min n (length l)) /\
    same_view (view_of w') (set_desc fd (Some (name, drop k l)) (spare (view_of w)) (view_of w));
  write_law fd l w : exists w', write fd l w = Ok (tt, w') /\ same_view (view_of w') (add_written fd l (view_of w));
  close_law fd w : desc (view_of w) fd <> None -> exists w', close fd w = Ok (tt, w') /\
    same_view (view_of w') (set_desc fd None (S (spare (view_of w))) (view_of w));
  fstat_law fd w name l : desc (view_of w) fd = Some (name, l) -> fstat fd w = Ok (Some (attr name), w);
  unlink_law name w : exists r w', unlink name w = Ok (r, w') /\
    (r < 0 /\ same_view (view_of w') (view_of w) \/ 0 <= r /\ store (view_of w) name <> None /\ same_view (view_of w') (set_store name None (view_of w)));
  mkdir_law name w : exists r w', mkdir name w = Ok (r, w') /\
    (r < 0 /\ same_view (view_of w') (view_of w) \/
     0 <= r /\ store (view_of w) name = None /\ exists c, same_view (view_of w') (set_store name (Some c) (view_of w)));
  link_law old new w : exists r w', link old new w = Ok (r, w') /\
    (r < 0 /\ same_view (view_of w') (view_of w) \/
     0 <= r /\ store (view_of w) new = None /\ is_Some (store (view_of w) old) /\
       same_view (view_of w') (set_store new (store (view_of w) old) (view_of w))) }.

(** ** The programs *)
Section Code.
Context `{Os}.
Definition W : Type -> Type := M world.
(** Whether the program goes on or has called [exit]. *)
Inductive flow := Go | Exit.
Definition printf (fd : Z) (l : list Z) : W unit := write fd l.

(** *** cat.c *)
Definition CAT_BUF : nat := 512.
(** [while((n = read(fd, buf, sizeof(buf))) > 0) write(1, buf, n);] *)
Fixpoint cat (fuel : nat) (fd : Z) : W flow :=
  match fuel with
  | O => out_of_fuel
  | S fuel =>
      r <- read fd CAT_BUF ;;
      match r with
      | Some [] => ret Go
      | Some l => write 1 l ;;; cat fuel fd
      | None => printf 1 (text "cat: read error" ++ nl) ;;; ret Exit
      end
  end.
(** The loop of [main] (lines 30-37). *)
Fixpoint cat_files (fuel : nat) (args : list (list Z)) : W unit :=
  match args with
  | [] => ret tt
  | a :: args =>
      fd <- open a ;;
      if fd <? 0 then printf 1 (text "cat: cannot open " ++ a ++ nl)
      else
        f <- cat fuel fd ;;
        match f with
        | Exit => ret tt
        | Go => close fd ;;; cat_files fuel args
        end
  end.
Definition cat_main (fuel : nat) (args : list (list Z)) : W unit :=
  match args with
  | [] => cat fuel 0 ;;; ret tt
  | _ => cat_files fuel args
  end.

(** *** echo.c *)
Fixpoint echo_main (args : list (list Z)) : W unit :=
  match args with
  | [] => ret tt
  | a :: args => printf 1 (a ++ match args with [] => nl | _ => [space] end) ;;; echo_main args
  end.

(** *** rm.c, mkdir.c: one call for each name, up to the first that fails *)
Fixpoint rm_loop (args : list (list Z)) : W unit :=
  match args with
  | [] => ret tt
  | a :: args =>
      r <- unlink a ;;
      if r <? 0 then printf 2 (text "rm: " ++ a ++ text " failed to delete" ++ nl) else rm_loop args
  end.
Definition rm_main (args : list (list Z)) : W unit :=
  match args with [] => printf 2 (text "Usage: rm files..." ++ nl) | _ => rm_loop args end.
Fixpoint mkdir_loop (args : list (list Z)) : W unit :=
  match args with
  | [] => ret tt
  | a :: args =>
      r <- mkdir a ;;
      if r <? 0 then printf 2 (text "mkdir: " ++ a ++ text " failed to create" ++ nl) else mkdir_loop args
  end.
Definition mkdir_main (args : list (list Z)) : W unit :=
  match args with [] => printf 2 (text "Usage: mkdir files..." ++ nl) | _ => mkdir_loop args end.

(** *** ln.c *)
Definition ln_main (args : list (list Z)) : W unit :=
  match args with
  | [old; new] =>
      r <- link old new ;;
      if r <? 0 then printf 2 (text "link " ++ old ++ text " " ++ new ++ text ": failed" ++ nl) else ret tt
  | _ => printf 2 (text "Usage: ln old new" ++ nl)
  end.

(** *** kill.c, with the numbers that [atoi] of ulib.c reads *)
Fixpoint atoi_text (n : Z) (s : list Z) : Z :=
  match s with
  | c :: s => if (48 <=? c) && (c <=? 57) then atoi_text (s32 (n * 10 + c - 48)) s else n
  | [] => n
  end.
Fixpoint kill_main (kill : Z -> W Z) (args : list (list Z)) : W unit :=
  match args with
  | [] => ret tt
  | a :: args => kill (atoi_text 0 a) ;;; kill_main kill args
  end.

(** *** ulib.c *)
Definition stat (n : list Z) : W (option (Z * Z * Z)) :=
  fd <- open n ;;
  if fd <? 0 then ret None
  else
    r <- fstat fd ;;
    close fd ;;;
    ret r.

(** *** ls.c *)

(** What follows the last slash. *)
Fixpoint base_name (path : list Z) : list Z :=
  match path with
  | [] => []
  | c :: rest => if existsb (Z.eqb slash) (c :: rest) then base_name rest else c :: rest
  end.
(** Blank-padded to the width of a name; the static buffer ends with a zero. *)
Definition fmtname (path : list Z) : list Z :=
  let p := base_name path in
  if (DIRSIZ <=? length p)%nat then p else p ++ replicate (DIRSIZ - length p) space.
Definition ls_line (path : list Z) (st : Z * Z * Z) : list Z :=
  let '(type, ino, size) := st in
  let d v := number user_digits 10 (s32 v) in
  fmtname path ++ [space] ++ d type ++ [space] ++ d ino ++ [space] ++ d size ++ nl.
(** The bytes of [struct dirent]: the inode number and the name. *)
Definition DIRENT : nat := 32.
Definition de_inum (b : list Z) : Z := nth 0 b 0 + 256 * nth 1 b 0.
Fixpoint to_nul (l : list Z) : list Z := match l with [] => [] | c :: l => if c =? 0 then [] else c :: to_nul l end.
Definition de_name (b : list Z) : list Z := to_nul (take DIRSIZ (drop 2 b)).
(** The loop over the entries (lines 52-63). *)
Fixpoint ls_entries (fuel : nat) (fd : Z) (path : list Z) : W unit :=
  match fuel with
  | O => out_of_fuel
  | S fuel =>
      r <- read fd DIRENT ;;
      match r with
      | Some de =>
          if (length de =? DIRENT)%nat then
            if de_inum de =? 0 then ls_entries fuel fd path
            else
              let buf := path ++ [slash] ++ de_name de in
              st <- stat buf ;;
              match st with
              | None => printf 1 (text "ls: cannot stat " ++ buf ++ nl)
              | Some st => printf 1 (ls_line buf st)
              end ;;;
              ls_entries fuel fd path
          else ret tt
      | None => ret tt
      end
  end.
Definition ls (fuel : nat) (path : list Z) : W unit :=
  fd <- open path ;;
  if fd <? 0 then printf 2 (text "ls: cannot open " ++ path ++ nl)
  else
    st <- fstat fd ;;
    match st with
    | None => printf 2 (text "ls: cannot stat " ++ path ++ nl) ;;; close fd
    | Some st =>
        let type := fst (fst st) in
        (if type =? T_FILE then printf 1 (ls_line path st)
         else if type =? T_DIR then
           if (512 <? length path + 1 + DIRSIZ + 1)%nat then printf 1 (text "ls: path too long" ++ nl) else ls_entries fuel fd path
         else ret tt) ;;;
        close fd
    end.
Fixpoint ls_all (fuel : nat) (args : list (list Z)) : W unit :=
  match args with [] => ret tt | a :: args => ls fuel a ;;; ls_all fuel args end.
Definition ls_main (fuel : nat) (args : list (list Z)) : W unit :=
  match args with [] => ls fuel (text ".") | _ => ls_all fuel args end.
End Code.

(** * What the programs do *)
Section Runs.
Context `{Os}.
Abbreviation vw := view_of.
(** Equal views, point by point. *)
Ltac views :=
  repeat match goal with Hv : same_view _ _ |- _ => destruct Hv end;
  split; [intros x|intros x|intros x|]; cbn in *;
  repeat match goal with Hv : forall _, store _ _ = _ |- _ => rewrite Hv; clear Hv | Hv : forall _, desc _ _ = _ |- _ => rewrite Hv; clear Hv
         | Hv : forall _, written _ _ = _ |- _ => rewrite Hv; clear Hv end;
  unfold upd in *; repeat case_decide; repeat case Z.eqb_spec; intros; subst; cbn in *; rewrite <- ?app_assoc, ?app_nil_r; try done; try congruence; try lia.
Lemma cat_run fuel : forall fd name l w, desc (vw w) fd = Some (name, l) -> (length l < fuel)%nat -> exists w', cat fuel fd w = Ok (Go, w') /\
  same_view (vw w') (set_desc fd (Some (name, [])) (spare (vw w)) (add_written 1 l (vw w))).
Proof.
  induction fuel as [|fuel IH]; intros fd name l w Hd Hf; [lia|]. cbn [cat].
  destruct (read_law fd CAT_BUF w name l ltac:(unfold CAT_BUF; lia) Hd) as (k & w1 & E1 & _ & Hk & _ & V1). rewrite (bind_Ok _ _ _ _ _ E1).
  destruct l as [|c l].
  - rewrite take_nil. exists w1. split; [done|]. rewrite drop_nil in V1. views.
  - destruct k as [|k]; [exfalso; apply Nat.lt_irrefl with 0%nat, Hk; done|]. cbn [take]. change (c :: take k l) with (take (S k) (c :: l)).
    destruct (write_law 1 (take (S k) (c :: l)) w1) as (w2 & E2 & V2). rewrite (bind_Ok _ _ _ _ _ E2).
    destruct (IH fd name (drop (S k) (c :: l)) w2) as (w' & E & V).
    { rewrite (sv_desc _ _ V2). cbn. rewrite (sv_desc _ _ V1). cbn. apply upd_eq. }
    { rewrite length_drop. cbn in *. lia. }
    exists w'. split; [exact E|]. rewrite V, V2, V1. pose proof (take_drop (S k) (c :: l)) as Htd. revert Htd.
    generalize (take (S k) (c :: l)), (drop (S k) (c :: l)). intros a b Htd. clear -Htd. views.
Qed.

(** The contents of the files in order, up to a name that is not there. *)
Fixpoint cat_output (st : list Z -> option (list Z)) (args : list (list Z)) : list Z :=
  match args with
  | [] => []
  | a :: args => match st a with Some c => c ++ cat_output st args | None => text "cat: cannot open " ++ a ++ nl end
  end.
Lemma cat_output_ext st st' args : (forall x, st x = st' x) -> cat_output st args = cat_output st' args.
Proof. intros Hs. induction args as [|a args IH]; cbn [cat_output]; [done|]. rewrite Hs. destruct (st' a); [by rewrite IH|done]. Qed.
(** Open a file and read it to the end, then close it. *)
Lemma cat_file_run fuel a c w : store (vw w) a = Some c -> (0 < spare (vw w))%nat -> (length c < fuel)%nat ->
  exists fd w1 w2 w', open a w = Ok (fd, w1) /\ 0 <= fd /\ cat fuel fd w1 = Ok (Go, w2) /\ close fd w2 = Ok (tt, w') /\
    same_view (vw w') (add_written 1 c (vw w)).
Proof.
  intros Hs Hsp Hf. destruct (open_law a w) as (fd & w1 & E1 & H1). rewrite Hs in H1. destruct (H1 Hsp) as (Hfd & Hno & V1).
  assert (D1 : desc (vw w1) fd = Some (a, c)) by (rewrite (sv_desc _ _ V1); apply upd_eq).
  destruct (cat_run fuel fd a c w1 D1 Hf) as (w2 & E2 & V2).
  assert (D2 : desc (vw w2) fd = Some (a, [])) by (rewrite (sv_desc _ _ V2); apply upd_eq).
  destruct (close_law fd w2) as (w' & E & V); [by rewrite D2|]. exists fd, w1, w2, w'. split_and!; try done; [lia|].
  rewrite V, V2, V1. clear -Hno Hsp. destruct (spare (vw w)) as [|n] eqn:Hn; [lia|]. views.
Qed.
Lemma cat_files_run fuel args : forall w, (0 < spare (vw w))%nat -> (forall a c, a ∈ args -> store (vw w) a = Some c -> (length c < fuel)%nat) ->
  exists w', cat_files fuel args w = Ok (tt, w') /\ same_view (vw w') (add_written 1 (cat_output (store (vw w)) args) (vw w)).
Proof.
  induction args as [|a args IH]; intros w Hsp Hf; cbn [cat_files cat_output]; [exists w; split; [done|views]|].
  destruct (store (vw w) a) as [c|] eqn:Hs.
  - destruct (cat_file_run fuel a c w Hs Hsp) as (fd & w1 & w2 & w3 & E1 & Hfd & E2 & E3 & V3); [by apply (Hf a); [left|]|].
    rewrite (bind_Ok _ _ _ _ _ E1). destruct (Z.ltb_spec fd 0); [lia|]. rewrite (bind_Ok _ _ _ _ _ E2), (bind_Ok _ _ _ _ _ E3).
    destruct (IH w3) as (w' & E & V); [by rewrite V3 | intros b d Hb; rewrite (sv_store _ _ V3); apply Hf; by right |].
    exists w'. split; [exact E|]. rewrite (cat_output_ext _ (store (vw w))) in V by apply V3. rewrite V, V3. clear. views.
  - destruct (open_law a w) as (fd & w1 & E1 & H1). rewrite Hs in H1. destruct H1 as [-> V1]. rewrite (bind_Ok _ _ _ _ _ E1). cbn [Z.ltb Z.compare].
    destruct (write_law 1 (text "cat: cannot open " ++ a ++ nl) w1) as (w' & E & V). exists w'. split; [exact E|]. by rewrite V, V1.
Qed.

(** ** ls *)
Lemma stat_run n w : (0 < spare (vw w))%nat -> exists w', stat n w = Ok (match store (vw w) n with Some _ => Some (attr n) | None => None end, w') /\
  same_view (vw w') (vw w).
Proof.
  intros Hsp. unfold stat. destruct (open_law n w) as (fd & w1 & E1 & H1). rewrite (bind_Ok _ _ _ _ _ E1). destruct (store (vw w) n) as [c|].
  - destruct (H1 Hsp) as (Hfd & Hno & V1). destruct (Z.ltb_spec fd 0); [lia|].
    assert (D1 : desc (vw w1) fd = Some (n, c)) by (rewrite (sv_desc _ _ V1); apply upd_eq).
    rewrite (bind_Ok _ _ _ _ _ (fstat_law fd w1 n c D1)). destruct (close_law fd w1) as (w2 & E2 & V2); [by rewrite D1|]. rewrite (bind_Ok _ _ _ _ _ E2).
    exists w2. split; [done|]. rewrite V2, V1. clear -Hno Hsp. destruct (spare (vw w)) as [|m] eqn:Hn; [lia|]. views.
  - destruct H1 as [-> V1]. exists w1. by split.
Qed.
(** The line for one entry of the directory. *)
Definition entry_line (st : list Z -> option (list Z)) (path de : list Z) : list Z :=
  if de_inum de =? 0 then []
  else
    let buf := path ++ [slash] ++ de_name de in
    match st buf with Some _ => ls_line buf (attr buf) | None => text "ls: cannot stat " ++ buf ++ nl end.
Definition dir_lines (st : list Z -> option (list Z)) (path : list Z) (es : list (list Z)) : list Z := concat (map (entry_line st path) es).
Lemma dir_lines_ext st st' path es : (forall x, st x = st' x) -> dir_lines st path es = dir_lines st' path es.
Proof. intros Hs. unfold dir_lines. f_equal. apply map_ext. intros de. unfold entry_line. by rewrite Hs. Qed.
(** One turn of the loop prints the line of an entry. *)
Lemma entry_run (k : W unit) path de w : (0 < spare (vw w))%nat -> exists w',
  (if de_inum de =? 0 then k
   else
     let buf := path ++ [slash] ++ de_name de in
     st <- stat buf ;;
     match st with None => printf 1 (text "ls: cannot stat " ++ buf ++ nl) | Some st => printf 1 (ls_line buf st) end ;;; k) w = k w' /\
  same_view (vw w') (add_written 1 (entry_line (store (vw w)) path de) (vw w)).
Proof.
  intros Hsp. unfold entry_line. destruct (de_inum de =? 0); [exists w; split; [done|views]|]. cbv zeta. set (buf := path ++ [slash] ++ de_name de).
  destruct (stat_run buf w Hsp) as (w1 & E1 & V1). rewrite (bind_Ok _ _ _ _ _ E1).
  destruct (store (vw w) buf); [destruct (write_law 1 (ls_line buf (attr buf)) w1) as (w2 & E2 & V2) | destruct (write_law 1 (text "ls: cannot stat " ++ buf ++ nl) w1) as (w2 & E2 & V2)];
    exists w2; (split; [unfold printf; by rewrite (bind_Ok _ _ _ _ _ E2)|by rewrite V2, V1]).
Qed.
Lemma ls_entries_run es : forall fuel fd path w, desc (vw w) fd = Some (path, concat es) -> Forall (fun de => length de = DIRENT) es ->
  fst (fst (attr path)) = T_DIR -> (0 < spare (vw w))%nat -> (length es < fuel)%nat ->
  exists w', ls_entries fuel fd path w = Ok (tt, w') /\ same_view (vw w') (set_desc fd (Some (path, [])) (spare (vw w)) (add_written 1 (dir_lines (store (vw w)) path es) (vw w))).
Proof.
  induction es as [|de es IH]; intros fuel fd path w Hd Hl Ht Hsp Hf; (destruct fuel as [|fuel]; [cbn in Hf; lia|]); cbn [ls_entries].
  - destruct (read_law fd DIRENT w path _ ltac:(unfold DIRENT; lia) Hd) as (k & w1 & E1 & _ & _ & _ & V1). rewrite (bind_Ok _ _ _ _ _ E1).
    cbn [concat] in *. rewrite take_nil. exists w1. split; [done|]. rewrite V1, drop_nil. clear. views.
  - apply Forall_cons in Hl as [Hde Hl]. destruct (read_law fd DIRENT w path _ ltac:(unfold DIRENT; lia) Hd) as (k & w1 & E1 & _ & _ & Hk & V1).
    rewrite (bind_Ok _ _ _ _ _ E1). cbn [concat] in *. rewrite length_app, Hde in Hk. assert (k = length de) as -> by (rewrite Hk, Hde by done; lia).
    rewrite take_app_length, drop_app_length in *. rewrite Hde, Nat.eqb_refl.
    destruct (entry_run (ls_entries fuel fd path) path de w1) as (w2 & E2 & V2); [by rewrite V1|].
    destruct (IH fuel fd path w2) as (w' & E & V); try done.
    { rewrite (sv_desc _ _ V2). cbn. rewrite (sv_desc _ _ V1). apply upd_eq. }
    { rewrite V2. cbn. by rewrite V1. }
    { cbn in Hf. lia. }
    exists w'. split; [transitivity (ls_entries fuel fd path w2); [exact E2|exact E]|]. rewrite (dir_lines_ext _ (store (vw w))) in V by (intros x; rewrite (sv_store _ _ V2); apply V1).
    assert (He : entry_line (store (vw w1)) path de = entry_line (store (vw w)) path de) by (unfold entry_line; by rewrite (sv_store _ _ V1)). rewrite He in V2.
    rewrite V, V2, V1. unfold dir_lines. cbn [map concat]. generalize (entry_line (store (vw w)) path de), (concat (map (entry_line (store (vw w)) path) es)). clear. intros a b. views.
Qed.
Lemma ls_dir_run fuel path es w : store (vw w) path = Some (concat es) -> Forall (fun de => length de = DIRENT) es -> fst (fst (attr path)) = T_DIR ->
  (1 < spare (vw w))%nat -> (length path + 1 + DIRSIZ + 1 <= 512)%nat -> (length es < fuel)%nat ->
  exists w', ls fuel path w = Ok (tt, w') /\ same_view (vw w') (add_written 1 (dir_lines (store (vw w)) path es) (vw w)).
Proof.
  intros Hs Hl Ht Hsp Hlen Hf. unfold ls. destruct (open_law path w) as (fd & w1 & E1 & H1). rewrite Hs in H1. destruct (H1 ltac:(lia)) as (Hfd & Hno & V1).
  rewrite (bind_Ok _ _ _ _ _ E1). destruct (Z.ltb_spec fd 0); [lia|]. assert (D1 : desc (vw w1) fd = Some (path, concat es)) by (rewrite (sv_desc _ _ V1); apply upd_eq).
  rewrite (bind_Ok _ _ _ _ _ (fstat_law _ _ _ _ D1)). cbv zeta. rewrite Ht. change (T_DIR =? T_FILE) with false. rewrite Z.eqb_refl.
  destruct (Nat.ltb_spec 512 (length path + 1 + DIRSIZ + 1)); [lia|].
  destruct (ls_entries_run es fuel fd path w1 D1 Hl Ht) as (w2 & E2 & V2); [rewrite V1; cbn; lia|done|]. rewrite (bind_Ok _ _ _ _ _ E2).
  assert (D2 : desc (vw w2) fd = Some (path, [])) by (rewrite (sv_desc _ _ V2); apply upd_eq).
  destruct (close_law fd w2) as (w' & E & V); [by rewrite D2|]. exists w'. split; [exact E|]. rewrite (dir_lines_ext _ (store (vw w))) in V2 by apply V1.
  rewrite V, V2, V1. clear -Hno Hsp. destruct (spare (vw w)) as [|m] eqn:Hn; [lia|]. views.
Qed.

(** ** rm, echo *)
Definition remove (l : list (list Z)) (v : view) : view := foldl (fun v a => set_store a None v) v l.
#[local] Instance remove_proper l : Proper (same_view ==> same_view) (remove l).
Proof. induction l as [|a l IH]; intros v w Hv; cbn [remove foldl]; [done|]. apply IH. by rewrite Hv. Qed.
Lemma remove_store l : forall v x, store (remove l v) x = if decide (x ∈ l) then None else store v x.
Proof.
  induction l as [|a l IH]; intros v x; cbn [remove foldl]; [by rewrite decide_False by apply not_elem_of_nil|]. fold (remove l (set_store a None v)). rewrite IH. cbn.
  repeat case_decide; subst; try done; exfalso; set_solver.
Qed.
Definition rm_message (o : option (list Z)) : list Z := match o with Some a => text "rm: " ++ a ++ text " failed to delete" ++ nl | None => [] end.
Lemma rm_run args : forall w, exists n w', rm_loop args w = Ok (tt, w') /\ (n <= length args)%nat /\
  same_view (vw w') (add_written 2 (rm_message (args !! n)) (remove (take n args) (vw w))).
Proof.
  induction args as [|a args IH]; intros w; cbn [rm_loop].
  { exists 0%nat, w. split; [done|]. split; [done|]. cbn. clear. views. }
  destruct (unlink_law a w) as (r & w1 & E1 & H1). rewrite (bind_Ok _ _ _ _ _ E1). destruct H1 as [[Hr V1]|(Hr & _ & V1)]; destruct (Z.ltb_spec r 0); try lia.
  - destruct (write_law 2 (rm_message (Some a)) w1) as (w2 & E2 & V2). exists 0%nat, w2. split; [exact E2|]. split; [lia|]. by rewrite V2, V1.
  - destruct (IH w1) as (n & w' & E & Hn & V). exists (S n), w'. split; [exact E|]. split; [cbn; lia|]. rewrite V, V1. done.
Qed.
Fixpoint join (args : list (list Z)) : list Z :=
  match args with [] => [] | [a] => a ++ nl | a :: args => a ++ [space] ++ join args end.
Lemma echo_run args : forall w, exists w', echo_main args w = Ok (tt, w') /\ same_view (vw w') (add_written 1 (join args) (vw w)).
Proof.
  induction args as [|a args IH]; intros w; cbn [echo_main]; [exists w; split; [done|clear; cbn; views]|].
  destruct (write_law 1 (a ++ match args with [] => nl | _ => [space] end) w) as (w1 & E1 & V1). unfold printf. rewrite (bind_Ok _ _ _ _ _ E1).
  destruct (IH w1) as (w' & E & V). exists w'. split; [exact E|]. rewrite V, V1. clear. destruct args as [|b args]; cbn [join]; [views|].
  generalize (match args with [] => b ++ nl | _ :: _ => b ++ [space] ++ join args end). intros l. views.
Qed.
End Runs.

(** The programs do what they are for.  On every kernel that keeps the
    promises of the interface: cat writes the contents of its files one after
    the other, up to a file it cannot open; ls of a directory writes one line
    for each entry in use, in order; rm removes its names in order up to the
    first that fails, which it reports, and no other; echo writes its
    arguments.  All of them return with every file closed and change nothing
    else. *)
Theorem programs_behave `{Os} fuel w :
  (forall args, args <> [] -> (0 < spare (view_of w))%nat -> (forall a c, a ∈ args -> store (view_of w) a = Some c -> (length c < fuel)%nat) ->
    exists w', cat_main fuel args w = Ok (tt, w') /\ same_view (view_of w') (add_written 1 (cat_output (store (view_of w)) args) (view_of w))) /\
  (forall path es, store (view_of w) path = Some (concat es) -> Forall (fun de => length de = DIRENT) es -> fst (fst (attr path)) = T_DIR ->
    (1 < spare (view_of w))%nat -> (length path + 1 + DIRSIZ + 1 <= 512)%nat -> (length es < fuel)%nat ->
    exists w', ls fuel path w = Ok (tt, w') /\ same_view (view_of w') (add_written 1 (dir_lines (store (view_of w)) path es) (view_of w))) /\
  (forall args, args <> [] -> exists n w', rm_main args w = Ok (tt, w') /\ (n <= length args)%nat /\
    (forall x, store (view_of w') x = if decide (x ∈ take n args) then None else store (view_of w) x) /\
    written (view_of w') 2 = written (view_of w) 2 ++ rm_message (args !! n)) /\
  (forall args, exists w', echo_main args w = Ok (tt, w') /\ same_view (view_of w') (add_written 1 (join args) (view_of w))).
Proof.
  split; [|split; [|split]].
  - intros args Hne Hsp Hf. destruct args as [|a args]; [done|]. by apply cat_files_run.
  - intros path es Hs Hl Ht Hsp Hlen Hf. by apply ls_dir_run.
  - intros args Hne. destruct args as [|a args]; [done|]. destruct (rm_run (a :: args) w) as (n & w' & E & Hn & V). exists n, w'. split; [exact E|]. split; [done|].
    destruct V as [V1 _ V3 _]. split; [intros x; rewrite V1; apply remove_store|]. rewrite V3. cbn. f_equal.
    clear. generalize (take n (a :: args)), (view_of w). intros l. induction l as [|b l IH]; intros v; [done|]. exact (IH (set_store b None v)).
  - intros args. apply echo_run.
Qed.

(** ** kill *)

(** [atoi_text] of a text is [atoi] of the memory that holds it. *)
Lemma atoi_text_memory m l : forall a n fuel, str_at m a l -> (length l < fuel)%nat -> Ulib.atoi_from m a n fuel = Some (atoi_text n l).
Proof.
  induction l as [|c l IH]; intros a n [|fuel] Hs Hf; cbn [str_at length Ulib.atoi_from atoi_text] in *; try lia.
  - by rewrite Hs.
  - destruct Hs as (-> & _ & Hs). destruct ((48 <=? c) && (c <=? 57)); [apply IH; [done|lia]|done].
Qed.
Lemma atoi_text_digits ds : forall n, Forall (fun d => 0 <= d < 10) ds -> 0 <= n -> fold_left (fun n d => n * 10 + d) ds n < 2 ^ 31 ->
  atoi_text n (map (digit_char user_digits) ds) = fold_left (fun n d => n * 10 + d) ds n.
Proof.
  induction ds as [|d ds IH]; intros n Hds Hn Hv; [done|]. apply Forall_cons in Hds as [Hd Hr]. cbn [map atoi_text fold_left] in *.
  rewrite digit_char_dec by done. destruct (Z.leb_spec 48 (48 + d)), (Z.leb_spec (48 + d) 57); cbn [andb]; [|lia..].
  pose proof (horner_grows ds (n * 10 + d) ltac:(lia) Hr). replace (n * 10 + (48 + d) - 48) with (n * 10 + d) by lia.
  rewrite s32_small by lia. apply IH; [done|lia|done].
Qed.
(** Process numbers typed the way they are printed are the ones killed, in
    order. *)
Lemma kill_main_kills `{Os} (kill : Z -> W Z) pids w : Forall (fun p => 0 <= p < 2 ^ 31) pids ->
  kill_main kill (map (number user_digits 10) pids) w = mfor_list pids (fun p => kill p ;;; ret tt) w.
Proof.
  revert w. induction pids as [|p pids IH]; intros w Hp; [done|]. apply Forall_cons in Hp as [Hp Hps]. cbn [map kill_main mfor_list].
  assert (E : atoi_text 0 (number user_digits 10 p) = p).
  { destruct (numeral_canonical 10 ltac:(lia) p ltac:(lia)) as (Hval & Hrange & _). unfold number. rewrite Z.abs_eq by lia.
    destruct (Z.ltb_spec p 0); [lia|]. cbn [app]. rewrite atoi_text_digits; [done|done|lia|]. unfold horner in Hval. rewrite Hval. lia. }
  rewrite E, bind_assoc. apply bind_ext. intros a w' _. by apply IH.
Qed.

(** ** Witness: a kernel whose reads of files are short *)
Record toy := mkToy { t_view : view; t_next : Z }.
Definition sane (t : toy) : Prop := 3 <= t_next t /\ forall fd, t_next t <= fd -> desc (t_view t) fd = None.
Definition toy_world : Type := { t : toy | sane t }.
Definition t_of (w : toy_world) : view := t_view (proj1_sig w).
Definition toy_attr (name : list Z) : Z * Z * Z := if decide (name = text ".") then (T_DIR, 1, 64) else (T_FILE, 7, 5).
(** Descriptors in use keep the invariant, names and output do not matter. *)
Lemma sane_keep t v : sane t -> (forall fd, t_next t <= fd -> desc (t_view t) fd = None -> desc v fd = None) -> sane (mkToy v (t_next t)).
Proof. intros [H1 H2] Hv. split; [done|]. intros fd Hfd. apply Hv; [done|by apply H2]. Qed.
Definition keep (w : toy_world) (v : view) (Hv : forall fd, t_next (proj1_sig w) <= fd -> desc (t_of w) fd = None -> desc v fd = None) : toy_world :=
  exist _ (mkToy v (t_next (proj1_sig w))) (sane_keep _ v (proj2_sig w) Hv).
Lemma sane_open t name c : sane t -> sane (mkToy (set_desc (t_next t) (Some (name, c)) (pred (spare (t_view t))) (t_view t)) (t_next t + 1)).
Proof. intros [H1 H2]. split; [cbn; lia|]. intros fd Hfd. cbn in *. rewrite upd_ne by lia. apply H2. lia. Qed.
Definition toy_open (name : list Z) : M toy_world Z := fun w =>
  match store (t_of w) name, spare (t_of w) with
  | Some c, S _ => Ok (t_next (proj1_sig w), exist _ _ (sane_open _ name c (proj2_sig w)))
  | _, _ => Ok (-1, w)
  end.
Lemma known_desc w fd v : is_Some (desc (t_of w) fd) -> (forall x, x <> fd -> desc v x = desc (t_of w) x) ->
  forall x, t_next (proj1_sig w) <= x -> desc (t_of w) x = None -> desc v x = None.
Proof. intros [o Ho] Hv x Hx Hn. destruct (decide (x = fd)) as [->|Hne]; [congruence|by rewrite Hv]. Qed.
Lemma upd_others {A} (f : Z -> A) fd o x : x <> fd -> upd f fd o x = f x.
Proof. apply upd_ne. Qed.
Definition toy_step (w : toy_world) (fd : Z) (o : option (list Z * list Z)) (n : nat) (Hs : is_Some (desc (t_of w) fd)) : toy_world :=
  keep w (set_desc fd o n (t_of w)) (known_desc w fd (set_desc fd o n (t_of w)) Hs (fun x => upd_others (desc (t_of w)) fd o x)).
Definition toy_read (fd : Z) (n : nat) : M toy_world (option (list Z)) := fun w =>
  match desc (t_of w) fd as o return desc (t_of w) fd = o -> outcome (option (list Z) * toy_world) with
  | Some (name, l) => fun E =>
      let k := if decide (fst (fst (toy_attr name)) = T_DIR) then Nat.min n (length l) else Nat.min n 3 in
      Ok (Some (take k l), toy_step w fd (Some (name, drop k l)) (spare (t_of w)) (mk_is_Some _ _ E))
  | None => fun _ => Ok (None, w)
  end eq_refl.
Definition toy_close (fd : Z) : M toy_world unit := fun w =>
  match desc (t_of w) fd as o return desc (t_of w) fd = o -> outcome (unit * toy_world) with
  | Some x => fun E => Ok (tt, toy_step w fd None (S (spare (t_of w))) (mk_is_Some _ _ E))
  | None => fun _ => Ok (tt, w)
  end eq_refl.
Definition toy_write (fd : Z) (l : list Z) : M toy_world unit := fun w => Ok (tt, keep w (add_written fd l (t_of w)) (fun _ _ Hx => Hx)).
Definition toy_set (name : list Z) (o : option (list Z)) (w : toy_world) : toy_world := keep w (set_store name o (t_of w)) (fun _ _ Hx => Hx).
Definition toy_unlink (name : list Z) : M toy_world Z := fun w =>
  match store (t_of w) name with Some _ => Ok (0, toy_set name None w) | None => Ok (-1, w) end.
Definition toy_mkdir (name : list Z) : M toy_world Z := fun w =>
  match store (t_of w) name with Some _ => Ok (-1, w) | None => Ok (0, toy_set name (Some []) w) end.
Definition toy_link (old new : list Z) : M toy_world Z := fun w =>
  match store (t_of w) old, store (t_of w) new with Some c, None => Ok (0, toy_set new (Some c) w) | _, _ => Ok (-1, w) end.
#[export] Program Instance toy_os : Os :=
  {| world := toy_world; view_of := t_of; attr := toy_attr; open := toy_open; read := toy_read; write := toy_write; close := toy_close;
     fstat := fun fd w => Ok (match desc (t_of w) fd with Some (name, _) => Some (toy_attr name) | None => None end, w);
     unlink := toy_unlink; mkdir := toy_mkdir; link := toy_link |}.
Next Obligation.
  intros name w. unfold toy_open. destruct (store (t_of w) name) as [c|] eqn:Es; [|by do 2 eexists].
  destruct (spare (t_of w)) as [|m] eqn:Hsp; [do 2 eexists; split; [done|lia]|]. do 2 eexists. split; [done|]. intros _.
  destruct (proj2_sig w) as [H1 H2]. split; [done|]. split; [apply H2; lia|]. unfold t_of in *. cbn. rewrite Hsp. done.
Qed.
Next Obligation.
  intros fd n w name l Hn Hd. unfold toy_read.
  assert (Hgen : forall o (E : desc (t_of w) fd = o), o = Some (name, l) -> exists k w',
    (match o as o return desc (t_of w) fd = o -> outcome (option (list Z) * toy_world) with
     | Some (name, l) => fun E =>
       let k := if decide (fst (fst (toy_attr name)) = T_DIR) then Nat.min n (length l) else Nat.min n 3 in
       Ok (Some (take k l), toy_step w fd (Some (name, drop k l)) (spare (t_of w)) (mk_is_Some _ _ E))
     | None => fun _ => Ok (None, w) end) E = Ok (Some (take k l), w') /\ (k <= n)%nat /\ (l <> [] -> (0 < k)%nat) /\
     (fst (fst (toy_attr name)) = T_DIR -> k = Nat.min n (length l)) /\ same_view (t_of w') (set_desc fd (Some (name, drop k l)) (spare (t_of w)) (t_of w))).
  { intros o E ->. do 2 eexists. split; [reflexivity|]. split; [case_decide; lia|]. split; [|split; [intros Ht; by rewrite decide_True|done]].
    intros Hl. destruct l; [done|]. case_decide; cbn; lia. }
  by apply Hgen.
Qed.
Next Obligation. intros fd l w. eexists. by split. Qed.
Next Obligation.
  intros fd w Hd. unfold toy_close.
  assert (Hgen : forall o (E : desc (t_of w) fd = o), o <> None -> exists w',
    (match o as o return desc (t_of w) fd = o -> outcome (unit * toy_world) with
     | Some x => fun E => Ok (tt, toy_step w fd None (S (spare (t_of w))) (mk_is_Some _ _ E))
     | None => fun _ => Ok (tt, w) end) E = Ok (tt, w') /\ same_view (t_of w') (set_desc fd None (S (spare (t_of w))) (t_of w))).
  { intros [x|] E Ho; [|done]. eexists. by split. }
  by apply Hgen.
Qed.
Next Obligation. intros fd w name l Hd. cbn. by rewrite Hd. Qed.
Next Obligation.
  intros name w. unfold toy_unlink. destruct (store (t_of w) name) eqn:Es; do 2 eexists; (split; [done|]); [right|left]; done.
Qed.
Next Obligation.
  intros name w. unfold toy_mkdir. destruct (store (t_of w) name) eqn:Es; do 2 eexists; (split; [done|]); [left; done|right].
  split; [done|]. split; [done|]. by exists [].
Qed.
Next Obligation.
  intros old new w. unfold toy_link. destruct (store (t_of w) old) eqn:Eo, (store (t_of w) new) eqn:En; do 2 eexists; (split; [done|]); try (left; done).
  right. split; [done|]. split; [done|]. split; [by eexists|done].
Qed.
(** A directory with one file. *)
Definition name_a : list Z := text "a".
Definition entry_a : list Z := [7; 0] ++ name_a ++ replicate 29 0.
Definition files_w (x : list Z) : option (list Z) :=
  if decide (x = name_a) then Some (text "hello") else if decide (x = text "./a") then Some (text "hello") else if decide (x = text ".") then Some (entry_a ++ replicate 32 0) else None.
Lemma sane_w : sane (mkToy (mkView files_w (fun _ => None) (fun _ => []) 13) 3).
Proof. by split. Qed.
Definition world_w : toy_world := exist _ _ sane_w.
Lemma programs_behave_witness :
  (exists w', @cat_main toy_os 6 [name_a; text "b"; name_a] world_w = Ok (tt, w') /\ written (t_of w') 1 = text "hellocat: cannot open b" ++ nl) /\
  (exists w', @ls toy_os 3 (text ".") world_w = Ok (tt, w') /\ written (t_of w') 1 = fmtname name_a ++ text " 2 7 5" ++ nl) /\
  (exists n w', @rm_main toy_os [name_a; name_a] world_w = Ok (tt, w') /\ store (t_of w') (text "./a") = Some (text "hello") /\ (n <= 2)%nat).
Proof.
  split; [|split].
  - destruct (@programs_behave toy_os 6 world_w) as (Hc & _). destruct (Hc [name_a; text "b"; name_a]) as (w' & E & V); [done|cbn; lia| |].
    + intros a c Ha Hs. cbn in Hs. unfold files_w in Hs. repeat case_decide; simplify_eq; try (cbn; lia). exfalso. subst. repeat (apply elem_of_cons in Ha as [Ha|Ha]; [discriminate Ha|]). by apply elem_of_nil in Ha.
    + exists w'. split; [exact E|]. rewrite (sv_written _ _ V). by vm_compute.
  - destruct (@programs_behave toy_os 3 world_w) as (_ & Hl & _). destruct (Hl (text ".") [entry_a; replicate 32 0]) as (w' & E & V); try done; try (cbn; lia).
    + repeat constructor.
    + exists w'. split; [exact E|]. rewrite (sv_written _ _ V). by vm_compute.
  - destruct (@programs_behave toy_os 0 world_w) as (_ & _ & Hr & _). destruct (Hr [name_a; name_a]) as (n & w' & E & Hn & Hs & _); [done|]. exists n, w'. split; [exact E|]. split; [|done].
    rewrite Hs. rewrite decide_False; [by vm_compute|]. intros Hin. apply (subseteq_take n) in Hin. repeat (apply elem_of_cons in Hin as [Hin|Hin]; [discriminate Hin|]). by apply elem_of_nil in Hin.
Defined.

(** * init.c: the standard descriptors *)

(** Lines 16-21; [open] and [mknod] are the calls for the console. *)
Definition init_console {S} (open mknod : M S Z) (dup : Z -> M S Z) : M S unit :=
  r <- open ;;
  (if r <? 0 then mknod ;;; open ;;; ret tt else ret tt) ;;;
  dup 0 ;;;
  dup 0 ;;;
  ret tt.
(** Whether the device file exists, and what the descriptors 0, 1, ... refer to;
    the lowest free one is used. *)
Record console_fds := mkFds { con_node : bool; con_fds : list (list Z) }.
Definition con_open : M console_fds Z := fun s =>
  if con_node s then Ok (Z.of_nat (length (con_fds s)), mkFds true (con_fds s ++ [text "console"])) else Ok (-1, s).
Definition con_mknod : M console_fds Z := fun s => Ok (if con_node s then -1 else 0, mkFds true (con_fds s)).
Definition con_dup (fd : Z) : M console_fds Z := fun s =>
  match con_fds s !! Z.to_nat fd with
  | Some f => Ok (Z.of_nat (length (con_fds s)), mkFds (con_node s) (con_fds s ++ [f]))
  | None => Ok (-1, s)
  end.
(** Input, output and errors are the console, on the first start too, when the
    device file has to be made. *)
Lemma init_console_opens node : init_console con_open con_mknod con_dup (mkFds node []) = Ok (tt, mkFds true (replicate 3 (text "console"))).
Proof. by destruct node. Qed.

(** * zombie.c: a child that nobody waits for *)
Definition zombie_main {S} (fork : M S Z) (sleep : Z -> M S Z) : M S unit :=
  r <- fork ;;
  if 0 <? r then sleep 5 ;;; ret tt else ret tt.

(** * init.c: the desktop is restarted when it ends

    The parent after its first three calls; what [fork] and [wait] return
    decides how it goes on. *)
Inductive init_pc := Starting | Waiting (pid : Z) | Gone.
(** Lines 38-43, in the parent. *)
Definition after_fork (r : Z) : init_pc * list Z :=
  if r <? 0 then (Gone, text "init: fork failed" ++ nl) else (Waiting r, []).
(** [while((wpid=wait()) >= 0 && wpid != pid_desktop)]. *)
Definition after_wait (pid_desktop wpid : Z) : init_pc * list Z :=
  if (0 <=? wpid) && negb (wpid =? pid_desktop) then (Waiting pid_desktop, text "zombie!" ++ nl) else (Starting, []).
(** The children of init, and those of them that are desktops. *)
Record family := mkFamily { ipc : init_pc; kids : list Z; desktops : list Z }.
Definition without (p : Z) (l : list Z) : list Z := filter (fun x => x <> p) l.
Lemma without_one p q : without q [p] = if decide (p = q) then [] else [p].
Proof. unfold without. case_decide; [by rewrite filter_cons_False, filter_nil by auto|by rewrite filter_cons_True, filter_nil by done]. Qed.
(** What the kernel answers: [fork] a new process, [wait] a child that has
    ended, or -1 when there are none; orphans become children of init. *)
Inductive init_step : family -> family -> Prop :=
| init_forks p ks ds : 0 < p -> p ∉ ks -> init_step (mkFamily Starting ks ds) (mkFamily (fst (after_fork p)) (p :: ks) (p :: ds))
| init_fails ks ds : init_step (mkFamily Starting ks ds) (mkFamily (fst (after_fork (-1))) ks ds)
| init_waits p q ks ds : 0 < q -> q ∈ ks -> init_step (mkFamily (Waiting p) ks ds) (mkFamily (fst (after_wait p q)) (without q ks) (without q ds))
| init_alone p ds : init_step (mkFamily (Waiting p) [] ds) (mkFamily (fst (after_wait p (-1))) [] ds)
| init_adopts pc q ks ds : q ∉ ks -> init_step (mkFamily pc ks ds) (mkFamily pc (q :: ks) ds).
Definition at_home (f : family) : Prop :=
  desktops f ⊆ kids f /\ match ipc f with Starting | Gone => desktops f = [] | Waiting p => desktops f = [p] end.
Lemma init_step_home f g : init_step f g -> at_home f -> at_home g.
Proof.
  intros Hs [Hsub Hpc]. destruct Hs as [p ks ds Hp Hn|ks ds|p q ks ds Hq Hin|p ds|pc q ks ds Hn]; cbn in *.
  - subst ds. unfold after_fork. destruct (Z.ltb_spec p 0); [lia|]. split; [set_solver|done].
  - subst ds. split; [set_solver|done].
  - subst ds. unfold after_wait. destruct (Z.leb_spec 0 q); [|lia]. cbn [andb]. destruct (Z.eqb_spec q p) as [->|Hne]; cbn [negb fst]; split.
    + cbn [desktops]. rewrite without_one, decide_True by done. set_solver.
    + cbn [desktops]. by rewrite without_one, decide_True by done.
    + cbn [desktops kids]. rewrite without_one, decide_False by congruence. intros x Hx. apply list_elem_of_singleton in Hx as ->.
      apply list_elem_of_filter. split; [congruence|]. apply Hsub. by left.
    + cbn [desktops]. by rewrite without_one, decide_False by congruence.
  - exfalso. subst ds. specialize (Hsub p). set_solver.
  - split; [set_solver|done].
Qed.
(** One desktop at a time: whatever ends and in whichever order, a new desktop
    is started only when the last one has ended and has been waited for, and
    init waits for the one that runs. *)
Theorem one_desktop f : rtc init_step (mkFamily Starting [] []) f ->
  match ipc f with Starting | Gone => desktops f = [] | Waiting p => desktops f = [p] /\ p ∈ kids f end.
Proof.
  intros Hr. assert (Hh : at_home f).
  { remember (mkFamily Starting [] []) as f0 eqn:E. assert (H0 : at_home f0) by (subst; by split). clear E. induction Hr as [|x y z Hs _ IH]; [done|]. apply IH. by eapply init_step_home. }
  destruct Hh as [Hsub Hpc]. destruct (ipc f); try done. split; [done|]. apply Hsub. rewrite Hpc. by left.
Qed.
Lemma one_desktop_witness : desktops (mkFamily (Waiting 9) [9] [9]) = [9] /\ 9 ∈ [9].
Proof.
  apply (one_desktop (mkFamily (Waiting 9) [9] [9])).
  eapply rtc_l; [apply (init_forks 5 [] []); [lia|apply not_elem_of_nil]|]. eapply rtc_l; [apply (init_adopts _ 6); set_solver|].
  eapply rtc_l; [apply (init_waits 5 6); [lia|set_solver]|]. eapply rtc_l; [apply (init_waits 5 5); [lia|vm_compute; by left]|].
  apply rtc_once. apply (init_forks 9); [lia|vm_compute; apply not_elem_of_nil].
Defined.
