(* ===== verification/Apps.v ===== *)
(** * Apps: the windows that the programs open (main of src/src/imageviewer.c,
    desktop.c, explorer.c and editor.c, showDialog of explorer.c and editor.c)

    A program fills in its static objects, reads the pictures it needs and
    passes the address of a window to the kernel.  The static objects of a
    program are an enumeration with the names of the source and an address for
    each; code pointers are arguments.  Several assignments to the fields of an
    object that was just cleared are one store.  What a program does after its
    window is created (its folder listing, its event loop) is in [Explorer],
    [Folder], [Editor] and [Events]. *)
From S2P Require Import Prelude Programs CString Bitmap Editor Font GuiState Draw Gui WindowQueue Repaint WindowSyscalls GuiWitness Events Mouse MouseFacts Clicks InputWitness.

(** ** Strings in arrays of characters *)

(** The characters of [s] and a NUL from place [n] on; past the end of the
    array this writes over other memory. *)
Definition put_text (n : nat) (a s : list Z) : option (list Z) :=
  if (n + length s <? length a)%nat then Some (take n a ++ s ++ 0 :: drop (n + length s + 1) a) else None.
Definition copy_text (a s : list Z) : option (list Z) := put_text 0 a s.
Definition append_text (a s : list Z) : option (list Z) := n ← Draw.strlen a; put_text (Z.to_nat n) a s.
Definition text_of (a : list Z) : option (list Z) := n ← Draw.strlen a; Some (take (Z.to_nat n) a).
(** The array [a] holds the string [s]. *)
Definition holds_text (a s : list Z) : Prop := Forall (fun c => c <> 0) s /\ exists rest, a = s ++ 0 :: rest.
Lemma strlen_array s rest : Forall (fun c => c <> 0) s -> Draw.strlen (s ++ 0 :: rest) = Some (Z.of_nat (length s)).
Proof.
  induction 1 as [|c s Hc _ IH]; [done|]. cbn [app Draw.strlen length]. destruct (Z.eqb_spec c 0); [done|]. rewrite IH. cbn [option_map]. f_equal. lia.
Qed.
Lemma held_strlen a s : holds_text a s -> Draw.strlen a = Some (Z.of_nat (length s)).
Proof. intros [Hs [rest ->]]. by apply strlen_array. Qed.
Lemma text_of_holds a s : holds_text a s -> text_of a = Some s.
Proof. intros Ha. unfold text_of. rewrite (held_strlen a s Ha). destruct Ha as [_ [rest ->]]. cbn. by rewrite Nat2Z.id, take_app_length. Qed.
Lemma copy_text_run a s : (length s < length a)%nat -> Forall (fun c => c <> 0) s ->
  exists a', copy_text a s = Some a' /\ holds_text a' s /\ length a' = length a.
Proof.
  intros Hl Hs. unfold copy_text, put_text. rewrite take_0. cbn [Nat.add app]. destruct (Nat.ltb_spec (length s) (length a)); [|lia].
  eexists. split; [done|]. split; [split; [done|by eexists]|]. rewrite length_app. cbn [length]. rewrite length_drop. lia.
Qed.
Lemma append_text_run a t s : holds_text a t -> (length t + length s < length a)%nat -> Forall (fun c => c <> 0) s ->
  exists a', append_text a s = Some a' /\ holds_text a' (t ++ s) /\ length a' = length a.
Proof.
  intros Ha Hl Hs. unfold append_text. rewrite (held_strlen a t Ha). destruct Ha as [Ht [rest ->]]. cbn [mbind option_bind]. rewrite Nat2Z.id. unfold put_text.
  destruct (Nat.ltb_spec (length t + length s) (length (t ++ 0 :: rest))); [|lia]. eexists. split; [done|]. rewrite take_app_length. split.
  - split; [by apply Forall_app|]. eexists. by rewrite <- app_assoc.
  - repeat (rewrite length_app in * || rewrite length_drop in * || cbn [length] in * ). lia.
Qed.

(** ** What the programs are given to read

    [readBitmapFile] stores the picture of a file, if it can be opened, and
    returns its height and width. *)
Class Pictures := {
  readBitmapFile : list Z -> Z -> G (option (Z * Z));
  drawable : list Z -> Prop;
  size_of : list Z -> option (Z * Z);
  pixels_of : list Z -> (Z -> RGB) -> Z -> RGB;
  picture_law name p g me px : drawable name -> cr3 (g_cpu g) = Some me -> g_umem g !! (me, p) = Some (U_image px) ->
    readBitmapFile name p g = Ok (size_of name, set_umem (<[(me, p) := U_image (pixels_of name px)]> (g_umem g)) g) }.

(** ** Objects *)
Definition zeros : list Z := replicate 256 0.
Definition no_widgets : list Widget := replicate 32 (W_label 0).
Definition set_caption (c : list Z) (w : Window.t) : Window.t :=
  Window.mk (Window.show w) (Window.hasCaption w) (Window.hasMenu w) (Window.hasFooter w) (Window.last_leftTopX w) (Window.last_leftTopY w)
    (Window.leftTopX w) (Window.leftTopY w) (Window.width w) (Window.height w) c (Window.widgetsNum w) (Window.widgets w) (Window.onFileSystemChangedHandler w).
(** [window.widgets[window.widgetsNum] = x; window.widgetsNum++;] *)
Definition add_widget (x : Widget) (w : Window.t) : Window.t :=
  Window.mk (Window.show w) (Window.hasCaption w) (Window.hasMenu w) (Window.hasFooter w) (Window.last_leftTopX w) (Window.last_leftTopY w)
    (Window.leftTopX w) (Window.leftTopY w) (Window.width w) (Window.height w) (Window.caption w) (Window.widgetsNum w + 1)
    (<[Z.to_nat (Window.widgetsNum w) := x]> (Window.widgets w)) (Window.onFileSystemChangedHandler w).
Definition has_room (w : Window.t) : bool := (0 <=? Window.widgetsNum w) && (Window.widgetsNum w <? MAX_WIDGET_NUM).
Definition on_click (f : Z) (v : ImageView.t) : ImageView.t :=
  ImageView.mk (ImageView.leftTopX v) (ImageView.leftTopY v) (ImageView.width v) (ImageView.height v) (ImageView.alphaBG v) (ImageView.image v)
    (mkHandler (triggered (ImageView.onLeftClickHandler v)) f).
Definition view_sized (r : option (Z * Z)) (v : ImageView.t) : ImageView.t :=
  match r with
  | Some (h, w) => ImageView.mk (ImageView.leftTopX v) (ImageView.leftTopY v) w h (ImageView.alphaBG v) (ImageView.image v) (ImageView.onLeftClickHandler v)
  | None => v
  end.
Definition view_at (x y : Z) (v : ImageView.t) : ImageView.t :=
  ImageView.mk x y (ImageView.width v) (ImageView.height v) (ImageView.alphaBG v) (ImageView.image v) (ImageView.onLeftClickHandler v).
Definition button_sized (r : option (Z * Z)) (b : Button.t) : Button.t :=
  match r with
  | Some (h, w) => Button.mk (Button.image b) (Button.leftTopX b) (Button.leftTopY b) w h (Button.text b) (Button.onLeftClickHandler b)
  | None => b
  end.

(** A size that was read changes nothing but the size. *)
Lemma view_sized_same r v : ImageView.image (view_sized r v) = ImageView.image v /\ ImageView.leftTopX (view_sized r v) = ImageView.leftTopX v /\
  ImageView.leftTopY (view_sized r v) = ImageView.leftTopY v /\ ImageView.onLeftClickHandler (view_sized r v) = ImageView.onLeftClickHandler v.
Proof. by destruct r as [[h w]|]. Qed.
Lemma button_sized_same r b : Button.image (button_sized r b) = Button.image b /\ Button.leftTopX (button_sized r b) = Button.leftTopX b /\
  Button.leftTopY (button_sized r b) = Button.leftTopY b /\ Button.onLeftClickHandler (button_sized r b) = Button.onLeftClickHandler b /\
  Button.text (button_sized r b) = Button.text b.
Proof. by destruct r as [[h w]|]. Qed.

Section Code.
Context `{Pictures}.
Definition change_window (a : Z) (f : Window.t -> option Window.t) : G unit :=
  w <- load_window a ;; w <- of_option (f w) ;; ustore a (U_window w).
Definition push_widget (a : Z) (x : Widget) : G unit :=
  change_window a (fun w => if has_room w then Some (add_widget x w) else None).
Definition caption_copy (a : Z) (s : list Z) : G unit :=
  change_window a (fun w => c ← copy_text (Window.caption w) s; Some (set_caption c w)).
Definition caption_append (a : Z) (s : list Z) : G unit :=
  change_window a (fun w => c ← append_text (Window.caption w) s; Some (set_caption c w)).
Definition set_click (p f : Z) : G unit := v <- load_imageView p ;; ustore p (U_imageView (on_click f v)).
(** [readBitmapFile(name, p->image, &p->height, &p->width)] *)
Definition read_view (name : list Z) (p : Z) : G unit :=
  v <- load_imageView p ;;
  r <- readBitmapFile name (ImageView.image v) ;;
  v <- load_imageView p ;; ustore p (U_imageView (view_sized r v)).
Definition read_button (name : list Z) (p : Z) : G unit :=
  b <- load_button p ;;
  r <- readBitmapFile name (Button.image b) ;;
  b <- load_button p ;; ustore p (U_button (button_sized r b)).
(** The fields of a button, its text and its handler; [image] is not
    assigned when [None]. *)
Definition fill_button (p x y w h : Z) (image : option Z) (s : list Z) (f : Z) : G unit :=
  b <- load_button p ;;
  t <- of_option (copy_text (Button.text b) s) ;;
  ustore p (U_button (Button.mk (default (Button.image b) image) x y w h t (mkHandler (triggered (Button.onLeftClickHandler b)) f))).
End Code.
Definition cross : list Z := text "cross.bmp".

(** [hWind = createWindow(&window);], unless the program has called [exit]. *)
Definition create_window (a : Z) (go : bool) : G (option Z) :=
  if go then h <- sys_createWindow (Some a) ;; ret (Some h) else ret None.

(** [deleteWindow(hWind);], after which the program ends. *)
Definition close_window (hWind : Z) : G unit :=
  sys_deleteWindow (Some hWind) ;;;
  ret tt.

(** ** imageviewer.c *)
Module ImageViewer.
Inductive static := window | image | temp | closeButtonImageViewTemp | closeButtonImageView.
#[export] Instance static_eq_dec : EqDecision static.
Proof. solve_decision. Defined.
(** The window after line 26. *)
Definition blank : Window.t := Window.mk 1 1 0 1 0 0 300 200 600 500 zeros 0 no_widgets (mkHandler 0 0).
Section Main.
Context `{Pictures} (at_ : static -> Z) (closeWindow : Z).
(** Lines 32-41; [false]: the program exits. *)
Definition add_picture (file : list Z) : G bool :=
  ustore (at_ image) (U_imageView (ImageView.mk 0 0 0 0 0 (at_ temp) (mkHandler 0 0))) ;;;
  read_view file (at_ image) ;;;
  v <- load_imageView (at_ image) ;;
  w <- load_window (at_ window) ;;
  if (Window.width w <? ImageView.width v) || (Window.height w <? ImageView.height v) then ret false
  else
    ustore (at_ image) (U_imageView (view_at
      (Z.shiftr (Window.width w) 1 - Z.shiftr (ImageView.width v) 1)
      (Z.shiftr (Window.height w) 1 - Z.shiftr (ImageView.height v) 1) v)) ;;;
    push_widget (at_ window) (W_imageView (at_ image)) ;;;
    ret true.
Definition setup (arg : option (list Z)) : G bool :=
  ustore (at_ window) (U_window blank) ;;;
  caption_copy (at_ window) (text "ImageViewer") ;;;
  addCloseButton readBitmapFile (at_ window) (at_ closeButtonImageView) (at_ closeButtonImageViewTemp) ;;;
  set_click (at_ closeButtonImageView) closeWindow ;;;
  match arg with Some file => add_picture file | None => ret true end.
Definition main (arg : option (list Z)) : G (option Z) :=
  go <- setup arg ;;
  create_window (at_ window) go.
End Main.
End ImageViewer.

(** ** desktop.c *)
Module Desktop.
Inductive static := window | image | temp.
#[export] Instance static_eq_dec : EqDecision static.
Proof. solve_decision. Defined.
Definition blank (refresh : Z) : Window.t := Window.mk 1 0 0 0 0 0 0 0 1280 1024 zeros 0 no_widgets (mkHandler 0 refresh).
Section Main.
Context `{Pictures} (at_ : static -> Z) (refresh : Z).
Definition background_file : list Z := text "desktop_bg.bmp".
(** The window was cleared, so its first widget is number 0. *)
Definition setup : G bool :=
  ustore (at_ window) (U_window (blank refresh)) ;;;
  ustore (at_ image) (U_imageView (ImageView.mk 0 0 0 0 0 (at_ temp) (mkHandler 0 0))) ;;;
  read_view background_file (at_ image) ;;;
  push_widget (at_ window) (W_imageView (at_ image)) ;;;
  ret true.
Definition main : G (option Z) :=
  go <- setup ;;
  create_window (at_ window) go.
End Main.
End Desktop.

(** ** The dialogs of explorer.c and editor.c: a text box and a button *)
Module Dialog.
Inductive static := dialog | filenameBox | okButton | dialogCloseButtonImageViewTemp | dialogCloseButtonImageView.
#[export] Instance static_eq_dec : EqDecision static.
Proof. solve_decision. Defined.
Definition blank (y : Z) : Window.t := Window.mk 1 1 0 0 0 0 400 y 350 150 zeros 0 no_widgets (mkHandler 0 0).
Section Main.
Context `{Pictures} (at_ : static -> Z) (closeDialog ok : Z).
(** [count] gives the cursor and the length for the text of the box. *)
Definition setup (y : Z) (title name : list Z) (count : list Z -> option Z) : G unit :=
  ustore (at_ dialog) (U_window (blank y)) ;;;
  caption_copy (at_ dialog) title ;;;
  addCloseButton readBitmapFile (at_ dialog) (at_ dialogCloseButtonImageView) (at_ dialogCloseButtonImageViewTemp) ;;;
  set_click (at_ dialogCloseButtonImageView) closeDialog ;;;
  b <- load_textBox (at_ filenameBox) ;;
  t <- of_option (copy_text (TextBox.text b) name) ;;
  n <- of_option (count t) ;;
  ustore (at_ filenameBox) (U_textBox (TextBox.mk (TextBox.fixed b) 20 (150 - BORDER_WIDTH - 25 - 40) 150 25 n n t)) ;;;
  push_widget (at_ dialog) (W_textBox (at_ filenameBox)) ;;;
  fill_button (at_ okButton) (20 + 150 + 50) (150 - BORDER_WIDTH - 25 - 40 - 20) 100 50 None (text "OK") ok ;;;
  push_widget (at_ dialog) (W_button (at_ okButton)).
(** [hDlog = createWindow(&dialog);]; the result is the new [hDlog]. *)
Definition show (y : Z) (title name : list Z) (count : list Z -> option Z) : G Z :=
  setup y title name count ;;;
  sys_createWindow (Some (at_ dialog)).
Definition closeDialog_code (hDlog : Z) : G Z :=
  sys_deleteWindow (Some hDlog) ;;;
  ret (-1).
End Main.
End Dialog.

(** ** explorer.c *)
Module FileManager.
Inductive static := window | newFolderButton | backupButton | closeButtonImageViewTemp | closeButtonImageView | buttons_0 | buttons_1.
#[export] Instance static_eq_dec : EqDecision static.
Proof. solve_decision. Defined.
Definition blank (refresh : Z) : Window.t := Window.mk 1 1 1 1 0 0 100 100 900 800 zeros 0 no_widgets (mkHandler 0 refresh).
Section Main.
Context `{Pictures} (at_ : static -> Z) (closeWindow showDialog backup refresh : Z).
(** The working directory (lines 221-225). *)
Definition start_wd (wd : list Z) (arg : option (list Z)) : option (list Z) :=
  wd ← copy_text wd (text ".");
  match arg with Some a => wd ← append_text wd (text "/"); append_text wd a | None => Some wd end.
Definition top : Z := CAPTION_HEIGHT + BORDER_WIDTH + 10.
Definition setup (arg : option (list Z)) : G bool :=
  ustore (at_ window) (U_window (blank refresh)) ;;;
  caption_copy (at_ window) (text "Explorer:/") ;;;
  addCloseButton readBitmapFile (at_ window) (at_ closeButtonImageView) (at_ closeButtonImageViewTemp) ;;;
  set_click (at_ closeButtonImageView) closeWindow ;;;
  match arg with Some a => caption_append (at_ window) a ;;; caption_append (at_ window) (text "/") | None => ret tt end ;;;
  fill_button (at_ newFolderButton) 200 top 100 50 (Some (at_ buttons_0)) (text "Folder") showDialog ;;;
  read_button (text "folder-plus.bmp") (at_ newFolderButton) ;;;
  push_widget (at_ window) (W_button (at_ newFolderButton)) ;;;
  fill_button (at_ backupButton) 60 top 100 50 (Some (at_ buttons_1)) (text "Back") backup ;;;
  read_button (text "undo2.bmp") (at_ backupButton) ;;;
  push_widget (at_ window) (W_button (at_ backupButton)) ;;;
  ret true.
(** The second argument of [main] is the array [wd]; the result is the handle
    of the window and the folder to list. *)
Definition main (arg : option (list Z)) (wd : list Z) : G (option Z * list Z) :=
  wd <- of_option (start_wd wd arg) ;;
  go <- setup arg ;;
  h <- create_window (at_ window) go ;;
  ret (h, wd).
End Main.
(** The file manager first waits for a child to end. *)
Definition closeWindow_code (wait : G Z) (hWind : Z) : G unit :=
  wait ;;;
  close_window hWind.
(** showDialog (lines 271-304), up to its event loop. *)
Definition showDialog `{Pictures} (at_ : Dialog.static -> Z) (closeDialog newFolder : Z) : G Z :=
  Dialog.show at_ closeDialog newFolder 475 (text "New Folder") (text "NewFolderName") (fun _ => Some 13).
End FileManager.

(** ** editor.c *)
Module TextEditor.
Inductive static := mainwindow | text_box | closeButtonImageViewTemp | closeButtonImageView | saveFileButton | buttons.
#[export] Instance static_eq_dec : EqDecision static.
Proof. solve_decision. Defined.
Definition blank : Window.t := Window.mk 1 1 1 1 0 0 300 200 800 600 zeros 0 no_widgets (mkHandler 0 0).
Section Main.
Context `{Pictures} (at_ : static -> Z) (closeWindow showDialog : Z).
Definition cleared_box : TextBox.t := TextBox.mk 0 0 0 0 0 0 0 zeros.
Definition place_box (b : TextBox.t) : TextBox.t :=
  TextBox.mk (TextBox.fixed b) 10 105 780 465 (TextBox.cursor b) (TextBox.textLength b) (TextBox.text b).
(** Lines 79-93. *)
Definition add_widgets : G bool :=
  push_widget (at_ mainwindow) (W_textBox (at_ text_box)) ;;;
  ustore (at_ saveFileButton) (U_button (Button.mk 0 0 0 0 0 zeros (mkHandler 0 0))) ;;;
  fill_button (at_ saveFileButton) 30 50 100 50 (Some (at_ buttons)) (text "Save") showDialog ;;;
  read_button (text "logo.bmp") (at_ saveFileButton) ;;;
  push_widget (at_ mainwindow) (W_button (at_ saveFileButton)) ;;;
  ret true.
(** [contents] of a file, if it can be opened. *)
Definition setup (contents : list Z -> option (list Z)) (arg : option (list Z)) : G bool :=
  ustore (at_ mainwindow) (U_window blank) ;;;
  addCloseButton readBitmapFile (at_ mainwindow) (at_ closeButtonImageView) (at_ closeButtonImageViewTemp) ;;;
  set_click (at_ closeButtonImageView) closeWindow ;;;
  caption_copy (at_ mainwindow) (default (text "NewFile.txt") arg) ;;;
  match (match arg with Some a => c ← contents a; Some (Editor.cat c cleared_box) | None => Some cleared_box end) with
  | None => ret false
  | Some b =>
      ustore (at_ text_box) (U_textBox (place_box b)) ;;;
      add_widgets
  end.
Definition main (contents : list Z -> option (list Z)) (arg : option (list Z)) : G (option Z) :=
  go <- setup contents arg ;;
  create_window (at_ mainwindow) go.
End Main.
(** showDialog (lines 115-147), up to its event loop; [window] is the window
    whose caption is proposed. *)
Definition showDialog `{Pictures} (at_ : Dialog.static -> Z) (closeDialog saveFile window : Z) : G Z :=
  w <- load_window window ;;
  name <- of_option (text_of (Window.caption w)) ;;
  Dialog.show at_ closeDialog saveFile 375 (text "Save File") name Draw.strlen.
End TextEditor.

(** * What the programs leave in memory *)

(** ** The static objects of a program *)
Section Statics.
Context {static : Type} `{EqDecision static} (at_ : static -> Z) (me : nat).
Definition placed : Prop := (forall s t, at_ s = at_ t -> s = t) /\ forall s, at_ s <> 0.
Definition supd (σ : static -> uobj) (s : static) (o : uobj) : static -> uobj := fun t => if decide (t = s) then o else σ t.
Lemma supd_eq σ s o : supd σ s o s = o.
Proof. unfold supd. by rewrite decide_True. Qed.
Lemma supd_ne σ s t o : t <> s -> supd σ s o t = σ t.
Proof. intros Hn. unfold supd. by rewrite decide_False. Qed.

(** The memory of the program holds [σ]; nothing else has changed since [g0]. *)
Record statics (g0 g : gstate) (σ : static -> uobj) : Prop := mkStatics {
  st_objects : forall s, g_umem g !! (me, at_ s) = Some (σ s);
  st_others : forall k, (forall s, k <> (me, at_ s)) -> g_umem g !! k = g_umem g0 !! k;
  st_frame : g = set_umem (g_umem g) g0 }.
Lemma statics_start g σ : (forall s, g_umem g !! (me, at_ s) = Some (σ s)) -> statics g g σ.
Proof. intros Hs. split; [done|done|by destruct g]. Qed.
Lemma statics_ext g0 g σ σ' : (forall s, σ s = σ' s) -> statics g0 g σ -> statics g0 g σ'.
Proof. intros He [A B C]. split; [intros s; by rewrite <- He|done|done]. Qed.

Context (Hat : placed) (g0 : gstate) (Hcr3 : cr3 (g_cpu g0) = Some me).
Lemma statics_cr3 g σ : statics g0 g σ -> cr3 (g_cpu g) = Some me.
Proof using Hcr3. intros [_ _ ->]. done. Qed.
Lemma statics_put g σ s o : statics g0 g σ -> statics g0 (set_umem (<[(me, at_ s) := o]> (g_umem g)) g) (supd σ s o).
Proof using Hat.
  intros [A B C]. split.
  - intros t. cbn [g_umem set_umem]. unfold supd. case_decide as Ht; [subst; apply lookup_insert_eq|].
    rewrite lookup_insert_ne; [apply A|]. intros [= E]. apply Ht. by apply Hat.
  - intros k Hk. cbn [g_umem set_umem]. rewrite lookup_insert_ne by (intros E; by apply (Hk s)). by apply B.
  - cbn [g_umem set_umem]. rewrite C at 2. reflexivity.
Qed.
Lemma put_run g σ s o : statics g0 g σ -> exists g', ustore (at_ s) o g = Ok (tt, g') /\ statics g0 g' (supd σ s o).
Proof using Hat Hcr3.
  intros Hg. eexists. split; [|by apply statics_put]. unfold ustore. rewrite (statics_cr3 g σ Hg), (st_objects _ _ _ Hg). done.
Qed.
Lemma uload_statics g σ s : statics g0 g σ -> uload (at_ s) g = Ok (σ s, g).
Proof using Hcr3. intros Hg. unfold uload. by rewrite (statics_cr3 g σ Hg), (st_objects _ _ _ Hg). Qed.
Lemma load_window_statics g σ s w : statics g0 g σ -> σ s = U_window w -> load_window (at_ s) g = Ok (w, g).
Proof using Hcr3. intros Hg E. unfold load_window. by rewrite (bind_Ok _ _ _ _ _ (uload_statics g σ s Hg)), E. Qed.
Lemma load_imageView_statics g σ s w : statics g0 g σ -> σ s = U_imageView w -> load_imageView (at_ s) g = Ok (w, g).
Proof using Hcr3. intros Hg E. unfold load_imageView. by rewrite (bind_Ok _ _ _ _ _ (uload_statics g σ s Hg)), E. Qed.
Lemma load_button_statics g σ s w : statics g0 g σ -> σ s = U_button w -> load_button (at_ s) g = Ok (w, g).
Proof using Hcr3. intros Hg E. unfold load_button. by rewrite (bind_Ok _ _ _ _ _ (uload_statics g σ s Hg)), E. Qed.
Lemma load_textBox_statics g σ s w : statics g0 g σ -> σ s = U_textBox w -> load_textBox (at_ s) g = Ok (w, g).
Proof using Hcr3. intros Hg E. unfold load_textBox. by rewrite (bind_Ok _ _ _ _ _ (uload_statics g σ s Hg)), E. Qed.

(** ** The steps of a set-up *)
Lemma change_window_run g σ s f w w' : statics g0 g σ -> σ s = U_window w -> f w = Some w' ->
  exists g', change_window (at_ s) f g = Ok (tt, g') /\ statics g0 g' (supd σ s (U_window w')).
Proof using Hat Hcr3.
  intros Hg Hs Hf. unfold change_window. rewrite (bind_Ok _ _ _ _ _ (load_window_statics g σ s w Hg Hs)), Hf. cbn [of_option].
  erewrite bind_Ok; [|reflexivity]. by apply put_run.
Qed.
Lemma push_widget_run g σ s x w : statics g0 g σ -> σ s = U_window w -> has_room w = true ->
  exists g', push_widget (at_ s) x g = Ok (tt, g') /\ statics g0 g' (supd σ s (U_window (add_widget x w))).
Proof using Hat Hcr3. intros Hg Hs Hr. apply (change_window_run g σ s _ w); [done|done|by rewrite Hr]. Qed.
Lemma caption_copy_run g σ s t w c : statics g0 g σ -> σ s = U_window w -> copy_text (Window.caption w) t = Some c ->
  exists g', caption_copy (at_ s) t g = Ok (tt, g') /\ statics g0 g' (supd σ s (U_window (set_caption c w))).
Proof using Hat Hcr3. intros Hg Hs Hr. apply (change_window_run g σ s _ w); [done|done|by rewrite Hr]. Qed.
Lemma caption_append_run g σ s t w c : statics g0 g σ -> σ s = U_window w -> append_text (Window.caption w) t = Some c ->
  exists g', caption_append (at_ s) t g = Ok (tt, g') /\ statics g0 g' (supd σ s (U_window (set_caption c w))).
Proof using Hat Hcr3. intros Hg Hs Hr. apply (change_window_run g σ s _ w); [done|done|by rewrite Hr]. Qed.
Lemma set_click_run g σ s f v : statics g0 g σ -> σ s = U_imageView v ->
  exists g', set_click (at_ s) f g = Ok (tt, g') /\ statics g0 g' (supd σ s (U_imageView (on_click f v))).
Proof using Hat Hcr3.
  intros Hg Hs. unfold set_click. rewrite (bind_Ok _ _ _ _ _ (load_imageView_statics g σ s v Hg Hs)). by apply put_run.
Qed.
Lemma fill_button_run g σ s x y wd ht img t f b c : statics g0 g σ -> σ s = U_button b -> copy_text (Button.text b) t = Some c ->
  exists g', fill_button (at_ s) x y wd ht img t f g = Ok (tt, g') /\
    statics g0 g' (supd σ s (U_button (Button.mk (default (Button.image b) img) x y wd ht c (mkHandler (triggered (Button.onLeftClickHandler b)) f)))).
Proof using Hat Hcr3.
  intros Hg Hs Hc. unfold fill_button. rewrite (bind_Ok _ _ _ _ _ (load_button_statics g σ s b Hg Hs)), Hc. cbn [of_option].
  erewrite bind_Ok; [|reflexivity]. by apply put_run.
Qed.
Context `{Pictures}.
Lemma picture_run g σ s name px : statics g0 g σ -> σ s = U_image px -> drawable name ->
  exists g', readBitmapFile name (at_ s) g = Ok (size_of name, g') /\ statics g0 g' (supd σ s (U_image (pixels_of name px))).
Proof using Hat Hcr3.
  intros Hg Hs Hd. eexists. split; [|by apply statics_put]. apply picture_law; [done|by eapply statics_cr3|]. rewrite <- Hs. apply Hg.
Qed.
Lemma read_view_run g σ s i name v px : statics g0 g σ -> σ s = U_imageView v -> ImageView.image v = at_ i -> σ i = U_image px -> s <> i -> drawable name ->
  exists g', read_view name (at_ s) g = Ok (tt, g') /\
    statics g0 g' (supd (supd σ i (U_image (pixels_of name px))) s (U_imageView (view_sized (size_of name) v))).
Proof using Hat Hcr3.
  intros Hg Hs Hi Hpx Hne Hd. unfold read_view. rewrite (bind_Ok _ _ _ _ _ (load_imageView_statics g σ s v Hg Hs)), Hi.
  destruct (picture_run g σ i name px Hg Hpx Hd) as (g1 & E1 & H1). rewrite (bind_Ok _ _ _ _ _ E1).
  rewrite (bind_Ok _ _ _ _ _ (load_imageView_statics g1 _ s v H1 ltac:(by rewrite supd_ne))). by apply put_run.
Qed.
Lemma read_button_run g σ s i name v px : statics g0 g σ -> σ s = U_button v -> Button.image v = at_ i -> σ i = U_image px -> s <> i -> drawable name ->
  exists g', read_button name (at_ s) g = Ok (tt, g') /\
    statics g0 g' (supd (supd σ i (U_image (pixels_of name px))) s (U_button (button_sized (size_of name) v))).
Proof using Hat Hcr3.
  intros Hg Hs Hi Hpx Hne Hd. unfold read_button. rewrite (bind_Ok _ _ _ _ _ (load_button_statics g σ s v Hg Hs)), Hi.
  destruct (picture_run g σ i name px Hg Hpx Hd) as (g1 & E1 & H1). rewrite (bind_Ok _ _ _ _ _ E1).
  rewrite (bind_Ok _ _ _ _ _ (load_button_statics g1 _ s v H1 ltac:(by rewrite supd_ne))). by apply put_run.
Qed.
(** The cross in the upper right corner. *)
Definition cross_view (w : Window.t) (img : Z) : ImageView.t :=
  view_sized (size_of cross) (ImageView.mk (Window.width w - 25) 5 0 0 1 img (mkHandler 0 0)).
Lemma addCloseButton_run g σ a view img w v px : statics g0 g σ -> σ a = U_window w -> σ view = U_imageView v -> σ img = U_image px -> has_room w = true ->
  a <> view -> img <> view -> a <> img -> drawable cross ->
  exists g', addCloseButton readBitmapFile (at_ a) (at_ view) (at_ img) g = Ok (tt, g') /\
    statics g0 g' (supd (supd (supd σ img (U_image (pixels_of cross px))) view (U_imageView (cross_view w (at_ img)))) a
      (U_window (add_widget (W_imageView (at_ view)) w))).
Proof using Hat Hcr3.
  intros Hg Ha Hv Hi Hr N1 N2 N3 Hd. unfold addCloseButton.
  rewrite (bind_Ok _ _ _ _ _ (load_window_statics g σ a w Hg Ha)), (bind_Ok _ _ _ _ _ (load_imageView_statics g σ view v Hg Hv)).
  set (v1 := ImageView.mk _ _ _ _ _ _ _). destruct (put_run g σ view (U_imageView v1) Hg) as (g1 & E1 & H1). rewrite (bind_Ok _ _ _ _ _ E1).
  change [99; 114; 111; 115; 115; 46; 98; 109; 112] with cross.
  destruct (picture_run g1 _ img cross px H1 ltac:(by rewrite supd_ne) Hd) as (g2 & E2 & H2). rewrite (bind_Ok _ _ _ _ _ E2).
  rewrite (bind_Ok _ _ _ _ _ (load_imageView_statics g2 _ view v1 H2 ltac:(rewrite supd_ne by done; by rewrite supd_eq))).
  change (match size_of cross with Some (h, wd) => _ | None => v1 end) with (view_sized (size_of cross) v1).
  destruct (put_run g2 _ view (U_imageView (view_sized (size_of cross) v1)) H2) as (g3 & E3 & H3). rewrite (bind_Ok _ _ _ _ _ E3).
  rewrite (bind_Ok _ _ _ _ _ (load_window_statics g3 _ a w H3 ltac:(by rewrite !supd_ne))).
  unfold has_room in Hr. apply andb_true_iff in Hr as [Hr1 Hr2]. rewrite Z.leb_le in Hr1. rewrite Z.ltb_lt in Hr2.
  destruct (Z.ltb_spec (Window.widgetsNum w) 0); [lia|]. destruct (Z.leb_spec MAX_WIDGET_NUM (Window.widgetsNum w)); [lia|]. cbn [orb].
  change (Window.mk _ _ _ _ _ _ _ _ _ _ _ _ _ _) with (add_widget (W_imageView (at_ view)) w).
  destruct (put_run g3 _ a (U_window (add_widget (W_imageView (at_ view)) w)) H3) as (g4 & E4 & Hg4). exists g4. split; [exact E4|].
  eapply statics_ext; [|exact Hg4]. intros t. unfold supd. repeat case_decide; subst; done.
Qed.
(** [addCloseButton] and the assignment of its handler. *)
Lemma close_button_run g σ a view img w f : statics g0 g σ -> σ a = U_window w -> (exists v, σ view = U_imageView v) ->
  (exists px, σ img = U_image px) -> has_room w = true -> a <> view -> img <> view -> a <> img -> drawable cross ->
  exists g' px, (forall A (k : G A), (addCloseButton readBitmapFile (at_ a) (at_ view) (at_ img) ;;; set_click (at_ view) f ;;; k) g = k g') /\
    statics g0 g' (supd (supd (supd σ img (U_image px)) view (U_imageView (on_click f (cross_view w (at_ img))))) a
      (U_window (add_widget (W_imageView (at_ view)) w))).
Proof using Hat Hcr3.
  intros Hg Ha [v Hv] [px Hi] Hr N1 N2 N3 Hd. destruct (addCloseButton_run g σ a view img w v px) as (g1 & E1 & H1); try done.
  destruct (set_click_run g1 _ view f (cross_view w (at_ img)) H1) as (g2 & E2 & H2); [rewrite supd_ne by done; by rewrite supd_eq|].
  exists g2, (pixels_of cross px). split; [intros A k; by rewrite (bind_Ok _ _ _ _ _ E1), (bind_Ok _ _ _ _ _ E2)|]. eapply statics_ext; [|exact H2].
  intros t. unfold supd. repeat case_decide; subst; done.
Qed.
End Statics.

(** A button with a picture, made and added to the window. *)
Definition is_button (o : uobj) : Prop := exists b, o = U_button b /\ length (Button.text b) = 256%nat /\ triggered (Button.onLeftClickHandler b) = 0.
Definition button_for (b : Button.t) (y image : Z) (t : list Z) (f : Z) : Prop :=
  holds_text (Button.text b) t /\ Button.image b = image /\ Button.leftTopY b = y /\ Button.onLeftClickHandler b = mkHandler 0 f.
Lemma add_button_run {static} `{EqDecision static} `{Pictures} (at_ : static -> Z) me g0 g σ win btn img x y t f name w :
  placed at_ -> cr3 (g_cpu g0) = Some me -> statics at_ me g0 g σ -> σ win = U_window w -> has_room w = true -> is_button (σ btn) -> (exists px, σ img = U_image px) ->
  win <> btn -> win <> img -> btn <> img -> drawable name -> (length t < 256)%nat -> Forall (fun c => c <> 0) t ->
  exists g' b px, (forall A (k : G A), (fill_button (at_ btn) x y 100 50 (Some (at_ img)) t f ;;; read_button name (at_ btn) ;;;
      push_widget (at_ win) (W_button (at_ btn)) ;;; k) g = k g') /\
    statics at_ me g0 g' (supd (supd (supd σ img (U_image px)) btn (U_button b)) win (U_window (add_widget (W_button (at_ btn)) w))) /\ button_for b y (at_ img) t f.
Proof.
  intros Hat Hcr Hs Hw Hr (b & Hb & Hl & Htr) [px Hpx] N1 N2 N3 Hd Ht Hn.
  destruct (copy_text_run (Button.text b) t) as (c & Hc & Hh & _); [lia|done|].
  destruct (fill_button_run at_ me Hat g0 Hcr g σ btn x y 100 50 (Some (at_ img)) t f b c Hs Hb Hc) as (g1 & E1 & H1).
  set (b1 := Button.mk _ _ _ _ _ _ _) in H1.
  destruct (read_button_run at_ me Hat g0 Hcr g1 _ btn img name b1 px H1) as (g2 & E2 & H2); [apply supd_eq|done|by rewrite supd_ne|done|done|].
  destruct (push_widget_run at_ me Hat g0 Hcr g2 _ win (W_button (at_ btn)) w H2) as (g3 & E3 & H3); [by rewrite !supd_ne|done|].
  destruct (button_sized_same (size_of name) b1) as (B1 & B2 & B3 & B4 & B5).
  exists g3, (button_sized (size_of name) b1), (pixels_of name px).
  split; [intros A k; by rewrite (bind_Ok _ _ _ _ _ E1), (bind_Ok _ _ _ _ _ E2), (bind_Ok _ _ _ _ _ E3)|]. split.
  - eapply statics_ext; [|exact H3]. intros s. unfold supd. repeat case_decide; subst; done.
  - unfold button_for. rewrite B1, B3, B4, B5. cbn. by rewrite Htr.
Qed.

(** ** From the memory of a program to the stack of windows *)
Lemma widget_ok_mono um um' i x : um ⊆ um' -> widget_ok um i x -> widget_ok um' i x.
Proof.
  intros Hs. assert (Hl : forall k (o : uobj), um !! k = Some o -> um' !! k = Some o) by (intros k o Hk; by eapply lookup_weaken).
  destruct x; cbn [widget_ok]; [intros [l Ho]|intros (b & Ho & Ht)|intros (b & Ho & Ht & Hi)|intros (v & px & Ho & Hp)|intros (v & px & Ho & Ht & Hp)|done].
  - exists l. by apply Hl.
  - exists b. split; [by apply Hl|done].
  - exists b. split; [by apply Hl|]. split; [done|]. destruct Hi as [Hi|[px Hp]]; [by left|right]. exists px. by apply Hl.
  - exists v, px. split; by apply Hl.
  - exists v, px. split; [by apply Hl|]. split; [done|by apply Hl].
Qed.
Lemma window_ok_mono um um' i a : um ⊆ um' -> window_ok um i a -> window_ok um' i a.
Proof.
  intros Hs (Ha & w & Hw & Hc & Hl & Hn & Hf). split; [done|]. exists w. split; [by eapply lookup_weaken|]. split_and!; try done.
  eapply Forall_impl; [exact Hf|]. intros x. by apply widget_ok_mono.
Qed.
Section Opening.
Context {static : Type} `{EqDecision static} (at_ : static -> Z).
(** The windows shown so far are made of other objects. *)
Definition apart (me : nat) (g : gstate) (st : list entry) : Prop :=
  exists um, um ⊆ g_umem g /\ (forall s, um !! (me, at_ s) = None) /\ Forall (fun e => window_ok um (e_proc e) (e_window e)) st.
Lemma statics_inv me g0 g σ st : statics at_ me g0 g σ -> wm_inv g0 me st -> apart me g0 st -> wm_inv g me st.
Proof.
  intros [A B C] [I1 I2 I3 I4 I5 I6] (um & Hsub & Hnone & Hok).
  assert (Hum : um ⊆ g_umem g).
  { apply map_subseteq_spec. intros k o Hk. rewrite B; [by eapply lookup_weaken|]. intros s ->. by rewrite Hnone in Hk. }
  rewrite C. split; try done. rewrite Forall_forall in *. intros e He. split; [by destruct (I6 e He)|].
  apply (window_ok_mono um); [done|by apply Hok].
Qed.
(** The program brings its window to the top of the stack, in the state
    [good] describes. *)
Definition opens (kinds : static -> uobj -> Prop) (win : static) (good : nat -> gstate -> Prop) (main : G (option Z)) : Prop :=
  forall g me st, placed at_ -> cr3 (g_cpu g) = Some me -> (forall s, exists o, g_umem g !! (me, at_ s) = Some o /\ kinds s o) ->
  wm_inv g me st -> apart me g st ->
  exists g1 g', window_ok (g_umem g1) me (at_ win) /\ good me g1 /\
    sys_createWindow (Some (at_ win)) g1 = Ok ((Spec.create me (at_ win) st).1, g') /\
    main g = Ok (Some (Spec.create me (at_ win) st).1, g') /\ wm_inv g' me (Spec.create me (at_ win) st).2 /\
    redrawn (g_umem g1) (g_umem g') (mkEntry 0 me (at_ win)).
Lemma objects_of g me (kinds : static -> uobj -> Prop) : (forall s, exists o, g_umem g !! (me, at_ s) = Some o /\ kinds s o) ->
  exists σ, statics at_ me g g σ /\ forall s, kinds s (σ s).
Proof.
  intros Hk. exists (fun s => default (U_image (fun _ => mkRGB 0 0 0)) (g_umem g !! (me, at_ s))). split.
  - apply statics_start. intros s. by destruct (Hk s) as (o & -> & _).
  - intros s. by destruct (Hk s) as (o & -> & Ho).
Qed.
Lemma opens_intro kinds win (good : nat -> gstate -> Prop) (setup : G bool) :
  (forall g me σ, placed at_ -> cr3 (g_cpu g) = Some me -> statics at_ me g g σ -> (forall s, kinds s (σ s)) ->
    exists g1 σ', setup g = Ok (true, g1) /\ statics at_ me g g1 σ' /\ window_ok (g_umem g1) me (at_ win) /\ good me g1) ->
  opens kinds win good (go <- setup ;; create_window (at_ win) go).
Proof.
  intros Hset g me st Hat Hc Hk Hinv Hap. destruct (objects_of g me kinds Hk) as (σ & Hσ & Hkσ).
  destruct (Hset g me σ Hat Hc Hσ Hkσ) as (g1 & σ' & E1 & H1 & Hw & Hg).
  destruct (createWindow_refines g1 me st (at_ win) (statics_inv me g g1 σ' st H1 Hinv Hap) Hw) as (g' & E & Hi & _ & _ & Hrd).
  exists g1, g'. split; [done|]. split; [done|]. split; [done|]. split; [|done].
  rewrite (bind_Ok _ _ _ _ _ E1). unfold create_window. by rewrite (bind_Ok _ _ _ _ _ E).
Qed.
End Opening.

(** ** The cross can be clicked *)

(** The window [w] at [a] has, in its upper right corner and not hidden by its
    other widgets, the picture [v] at [view] that calls [f]. *)
Definition in_view (w : Window.t) (v : ImageView.t) (x y : Z) : bool :=
  in_rect x y (Window.leftTopX w + ImageView.leftTopX v) (Window.leftTopY w + ImageView.leftTopY v) (ImageView.width v) (ImageView.height v).
Record cross_at (a view f : Z) (w : Window.t) (v : ImageView.t) (me : nat) (g : gstate) : Prop := mkCross {
  cr_window : g_umem g !! (me, a) = Some (U_window w);
  cr_view : g_umem g !! (me, view) = Some (U_imageView v);
  cr_handler : ImageView.onLeftClickHandler v = mkHandler 0 f;
  cr_corner : ImageView.leftTopX v = Window.width w - 25 /\ ImageView.leftTopY v = 5;
  cr_first : head (window_widgets w) = Some (W_imageView view);
  cr_top : forall x y, in_view w v x y = true -> top_widget (g_umem g) me w x y = Some (W_imageView view) }.
Definition closable (a view f : Z) (me : nat) (g : gstate) : Prop := exists w v, cross_at a view f w v me g.
Lemma top_widget_first um me w x y view rest : window_widgets w = W_imageView view :: rest ->
  hit um me w x y (W_imageView view) = true -> Forall (fun k => hit um me w x y k = false) rest ->
  top_widget um me w x y = Some (W_imageView view).
Proof.
  intros Hw Hh Hr. unfold top_widget. rewrite Hw, filter_cons_True by done.
  rewrite filter_none; [done|]. eapply Forall_impl; [exact Hr|]. intros k Hk. by rewrite Hk.
Qed.
(** The size of the cross, when there is one. *)
Definition small_cross `{Pictures} : Prop := match size_of cross with Some (h, _) => h <= 25 | None => True end.
Ltac look := repeat first [rewrite supd_eq | rewrite supd_ne by discriminate]; try reflexivity; try eassumption.
(** One step of a set-up: [lem] says how it runs. *)
Ltac step lem g E Hs := edestruct lem as (g & E & Hs); [eassumption|eassumption|eassumption|look..|rewrite (bind_Ok _ _ _ _ _ E)].

(** ** A window of static objects *)
Section Made.
Context {static : Type} (at_ : static -> Z) (me : nat) (g0 g : gstate) (σ : static -> uobj) (Hs : statics at_ me g0 g σ).
Lemma view_ok s i v px : σ s = U_imageView v -> ImageView.image v = at_ i -> σ i = U_image px -> widget_ok (g_umem g) me (W_imageView (at_ s)).
Proof using Hs. intros E Hi Ei. exists v, px. by rewrite Hi, !(st_objects _ _ _ _ _ Hs), E, Ei. Qed.
Lemma box_ok s b : σ s = U_textBox b -> is_Some (Draw.strlen (TextBox.text b)) -> widget_ok (g_umem g) me (W_textBox (at_ s)).
Proof using Hs. intros E Ht. exists b. by rewrite (st_objects _ _ _ _ _ Hs), E. Qed.
Lemma button_ok s b t : σ s = U_button b -> holds_text (Button.text b) t ->
  (Button.image b = 0 \/ exists i px, Button.image b = at_ i /\ σ i = U_image px) -> widget_ok (g_umem g) me (W_button (at_ s)).
Proof using Hs.
  intros E Ht Hi. exists b. rewrite (st_objects _ _ _ _ _ Hs), E, (held_strlen _ _ Ht). split_and!; [done|done|].
  destruct Hi as [?|(i & px & Hi & Ei)]; [by left|right]. exists px. by rewrite Hi, (st_objects _ _ _ _ _ Hs), Ei.
Qed.
Lemma made_window_ok s w t : placed at_ -> σ s = U_window w -> holds_text (Window.caption w) t -> length (Window.widgets w) = 32%nat -> Window.widgetsNum w <= MAX_WIDGET_NUM ->
  Forall (widget_ok (g_umem g) me) (window_widgets w) -> window_ok (g_umem g) me (at_ s).
Proof using Hs.
  intros Hat E Ht Hl Hn Hw. split; [apply Hat|]. exists w. rewrite (st_objects _ _ _ _ _ Hs), E, (held_strlen _ _ Ht). by split_and!.
Qed.
(** The cross, with the other widgets not in its way. *)
Lemma made_closable `{Pictures} s view w w0 img f rest : σ s = U_window w -> σ view = U_imageView (on_click f (cross_view w0 img)) ->
  window_widgets w = W_imageView (at_ view) :: rest -> Window.width w0 = Window.width w -> small_cross ->
  (forall x y, Window.leftTopX w + Window.width w - 25 <= x -> y < Window.leftTopY w + 30 -> Forall (fun k => hit (g_umem g) me w x y k = false) rest) ->
  closable (at_ s) (at_ view) f me g.
Proof using Hs.
  intros E Ev Hw Hwd Hsm Hr. destruct (view_sized_same (size_of cross) (ImageView.mk (Window.width w0 - 25) 5 0 0 1 img (mkHandler 0 0))) as (_ & Hx & Hy & Hh).
  assert (Ec : ImageView.leftTopX (on_click f (cross_view w0 img)) = Window.width w - 25 /\ ImageView.leftTopY (on_click f (cross_view w0 img)) = 5 /\
    ImageView.onLeftClickHandler (on_click f (cross_view w0 img)) = mkHandler 0 f).
  { unfold cross_view. cbn [on_click ImageView.onLeftClickHandler ImageView.leftTopX ImageView.leftTopY]. by rewrite Hx, Hy, Hh, <- Hwd. }
  destruct Ec as (Ex & Ey & Ez).
  exists w, (on_click f (cross_view w0 img)). split; [by rewrite (st_objects _ _ _ _ _ Hs), E|by rewrite (st_objects _ _ _ _ _ Hs), Ev|done|done|by rewrite Hw|]. intros x y Hin. unfold in_view in Hin. rewrite Ex, Ey in Hin.
  apply (top_widget_first _ _ _ _ _ _ rest); [done| |].
  - cbn [hit]. by rewrite (st_objects _ _ _ _ _ Hs), Ev, Ex, Ey.
  - unfold in_rect in Hin. rewrite !andb_true_iff, !Z.geb_le, !Z.ltb_lt in Hin. apply Hr; [lia|]. unfold small_cross in Hsm. unfold cross_view in Hin.
    destruct (size_of cross) as [[h k]|]; cbn in Hin; lia.
Qed.
(** A button below the caption. *)
Lemma below s b w x y : σ s = U_button b -> 30 <= Button.leftTopY b -> y < Window.leftTopY w + 30 -> hit (g_umem g) me w x y (W_button (at_ s)) = false.
Proof using Hs.
  intros E Hb Hy. cbn [hit]. rewrite (st_objects _ _ _ _ _ Hs), E. unfold in_rect. destruct (Z.geb_spec y (Window.leftTopY w + Button.leftTopY b)); [lia|].
  by rewrite andb_false_r.
Qed.
End Made.

(** ** The image viewer *)
Definition is_image (o : uobj) : Prop := exists px, o = U_image px.
Definition is_view (o : uobj) : Prop := exists v, o = U_imageView v.
Definition is_box (o : uobj) : Prop := exists b, o = U_textBox b /\ length (TextBox.text b) = 256%nat.
Definition viewer_kinds (s : ImageViewer.static) : uobj -> Prop :=
  match s with
  | ImageViewer.temp | ImageViewer.closeButtonImageViewTemp => is_image
  | ImageViewer.closeButtonImageView => is_view
  | _ => fun _ => True
  end.
Lemma zeros_length : length zeros = 256%nat.
Proof. apply length_replicate. Qed.
Lemma copy_zeros s : (length s < 256)%nat -> Forall (fun c => c <> 0) s -> exists c, copy_text zeros s = Some c /\ holds_text c s /\ length c = 256%nat.
Proof. intros Hl Hs. rewrite <- zeros_length in *. by apply copy_text_run. Qed.
Section Viewer.
Context `{Pictures} (at_ : ImageViewer.static -> Z) (me : nat) (Hat : placed at_) (g0 : gstate) (Hcr3 : cr3 (g_cpu g0) = Some me).
Import ImageViewer.
Definition viewer_window (c : list Z) : Window.t := add_widget (W_imageView (at_ closeButtonImageView)) (set_caption c blank).
Definition viewer_objects (σ : static -> uobj) px c closeWindow : static -> uobj :=
  supd (supd (supd σ closeButtonImageViewTemp (U_image px)) closeButtonImageView
    (U_imageView (on_click closeWindow (cross_view blank (at_ closeButtonImageViewTemp))))) window (U_window (viewer_window c)).
(** Up to line 29. *)
Lemma viewer_first g σ closeWindow arg : statics at_ me g0 g σ -> (forall s, viewer_kinds s (σ s)) -> drawable cross ->
  exists g1 c px, setup at_ closeWindow arg g = match arg with Some file => add_picture at_ file | None => ret true end g1 /\
  statics at_ me g0 g1 (viewer_objects σ px c closeWindow) /\ holds_text c (text "ImageViewer") /\ length c = 256%nat.
Proof using Hat Hcr3.
  intros Hs Hk Hd. destruct (copy_zeros (text "ImageViewer")) as (c & Hc & Ht & Hl); [cbn; lia|by repeat constructor|]. unfold setup.
  destruct (put_run at_ me Hat g0 Hcr3 g σ window (U_window blank) Hs) as (g1 & E1 & H1). rewrite (bind_Ok _ _ _ _ _ E1).
  destruct (caption_copy_run at_ me Hat g0 Hcr3 g1 _ window (text "ImageViewer") blank c H1) as (g2 & E2 & H2); [look|exact Hc|]. rewrite (bind_Ok _ _ _ _ _ E2).
  destruct (close_button_run at_ me Hat g0 Hcr3 g2 _ window closeButtonImageView closeButtonImageViewTemp (set_caption c blank) closeWindow H2) as (g3 & px & E3 & H3);
    [look|look; exact (Hk closeButtonImageView)|look; exact (Hk closeButtonImageViewTemp)|done..|].
  exists g3, c, px. split; [apply E3|]. split; [|done]. eapply statics_ext; [|exact H3]. intros t. unfold viewer_objects. by destruct t; look.
Qed.
Definition picture (file : list Z) : ImageView.t := view_sized (size_of file) (ImageView.mk 0 0 0 0 0 (at_ temp) (mkHandler 0 0)).
Definition fits (file : list Z) : bool := (ImageView.width (picture file) <=? 600) && (ImageView.height (picture file) <=? 500).
Definition centred (file : list Z) : ImageView.t :=
  view_at (300 - Z.shiftr (ImageView.width (picture file)) 1) (250 - Z.shiftr (ImageView.height (picture file)) 1) (picture file).
(** Lines 32-41: a picture that does not fit ends the program. *)
Lemma viewer_picture g σ px c closeWindow file : statics at_ me g0 g (viewer_objects σ px c closeWindow) -> is_image (σ temp) -> drawable file ->
  exists g' q, add_picture at_ file g = Ok (fits file, g') /\
    if fits file then statics at_ me g0 g' (supd (supd (supd (viewer_objects σ px c closeWindow) temp (U_image q)) image (U_imageView (centred file))) window
      (U_window (add_widget (W_imageView (at_ image)) (viewer_window c))))
    else exists σ', statics at_ me g0 g' σ'.
Proof using Hat Hcr3.
  intros Hg [px0 Hpx] Hd. unfold add_picture.
  destruct (put_run at_ me Hat g0 Hcr3 g _ image (U_imageView (ImageView.mk 0 0 0 0 0 (at_ temp) (mkHandler 0 0))) Hg) as (g1 & E1 & H1). rewrite (bind_Ok _ _ _ _ _ E1).
  destruct (read_view_run at_ me Hat g0 Hcr3 g1 _ image temp file (ImageView.mk 0 0 0 0 0 (at_ temp) (mkHandler 0 0)) px0 H1) as (g2 & E2 & H2); [look|done|unfold viewer_objects; look|done|done|].
  rewrite (bind_Ok _ _ _ _ _ E2).
  rewrite (bind_Ok _ _ _ _ _ (load_imageView_statics at_ me g0 Hcr3 g2 _ image (picture file) H2 ltac:(look))).
  rewrite (bind_Ok _ _ _ _ _ (load_window_statics at_ me g0 Hcr3 g2 _ window (viewer_window c) H2 ltac:(unfold viewer_objects; look))).
  cbn [Window.width Window.height viewer_window add_widget set_caption blank]. unfold fits.
  destruct (Z.leb_spec (ImageView.width (picture file)) 600) as [L1|L1], (Z.leb_spec (ImageView.height (picture file)) 500) as [L2|L2],
    (Z.ltb_spec 600 (ImageView.width (picture file))) as [L3|L3], (Z.ltb_spec 500 (ImageView.height (picture file))) as [L4|L4]; try lia; cbn [andb orb];
    try (exists g2, px0; split; [done|by eexists]).
  change (view_at _ _ _) with (centred file).
  destruct (put_run at_ me Hat g0 Hcr3 g2 _ image (U_imageView (centred file)) H2) as (g3 & E3 & H3). rewrite (bind_Ok _ _ _ _ _ E3).
  destruct (push_widget_run at_ me Hat g0 Hcr3 g3 _ window (W_imageView (at_ image)) (viewer_window c) H3) as (g4 & E4 & H4); [unfold viewer_objects; look|done|].
  rewrite (bind_Ok _ _ _ _ _ E4). exists g4, (pixels_of file px0). split; [done|]. eapply statics_ext; [|exact H4]. intros t. unfold viewer_objects. by destruct t; look.
Qed.
End Viewer.
(** A picture in the middle of its window, in front of the other widgets. *)
Definition framed (a p : Z) (me : nat) (g : gstate) : Prop :=
  exists w v, g_umem g !! (me, a) = Some (U_window w) /\ g_umem g !! (me, p) = Some (U_imageView v) /\ last (window_widgets w) = Some (W_imageView p) /\
    0 <= ImageView.leftTopX v /\ ImageView.leftTopX v + ImageView.width v <= Window.width w /\
    0 <= ImageView.leftTopY v /\ ImageView.leftTopY v + ImageView.height v <= Window.height w /\
    Z.abs (2 * ImageView.leftTopX v + ImageView.width v - Window.width w) <= 1 /\
    Z.abs (2 * ImageView.leftTopY v + ImageView.height v - Window.height w) <= 1.
Lemma shiftr1 z : 2 * Z.shiftr z 1 = z - z mod 2.
Proof. rewrite Z.shiftr_div_pow2 by lia. change (2 ^ 1) with 2. pose proof (Z.div_mod z 2 ltac:(lia)). lia. Qed.
Lemma half_bounds z : 2 * Z.shiftr z 1 <= z <= 2 * Z.shiftr z 1 + 1.
Proof. rewrite shiftr1. pose proof (Z.mod_pos_bound z 2 ltac:(lia)). lia. Qed.
Section ViewerOpens.
Context `{Pictures} (at_ : ImageViewer.static -> Z) (closeWindow : Z).
Import ImageViewer.
(** A picture that leaves the cross free. *)
Definition clear_of_cross (file : list Z) : Prop := ImageView.height (picture at_ file) <= 440 \/ ImageView.width (picture at_ file) <= 550.
Definition viewer_ok (arg : option (list Z)) : Prop :=
  match arg with
  | Some file => drawable file /\ fits at_ file = true /\ clear_of_cross file /\ 0 <= ImageView.width (picture at_ file) /\ 0 <= ImageView.height (picture at_ file)
  | None => True
  end.
Definition viewer_good (arg : option (list Z)) (me : nat) (g : gstate) : Prop :=
  closable (at_ window) (at_ closeButtonImageView) closeWindow me g /\ match arg with Some file => framed (at_ window) (at_ image) me g | None => True end.
Lemma centred_size file : ImageView.width (centred at_ file) = ImageView.width (picture at_ file) /\ ImageView.height (centred at_ file) = ImageView.height (picture at_ file).
Proof. done. Qed.
Lemma viewer_opens arg : drawable cross -> small_cross -> viewer_ok arg ->
  opens at_ viewer_kinds window (viewer_good arg) (main at_ closeWindow arg).
Proof.
  intros Hc Hsm Hok. apply opens_intro. intros g me σ Hat Hcr Hs Hk.
  destruct (viewer_first at_ me Hat g Hcr g σ closeWindow arg Hs Hk Hc) as (g1 & c & px & E1 & H1 & Ht & Hl). rewrite E1. destruct arg as [file|].
  - destruct Hok as (Hd & Hfit & Hclear & Hw0 & Hh0).
    destruct (viewer_picture at_ me Hat g Hcr g1 σ px c closeWindow file H1 (Hk temp) Hd) as (g2 & q & E2 & H2). rewrite Hfit in *.
    exists g2. eexists. split; [exact E2|]. split; [exact H2|]. split; [|split].
    + eapply (made_window_ok at_ me g g2 _ H2 window (add_widget (W_imageView (at_ image)) (viewer_window at_ c))); try done.
      repeat apply Forall_cons_2; [| |done].
      * eapply (view_ok at_ me g g2 _ H2 closeButtonImageView closeButtonImageViewTemp); unfold viewer_objects; look. apply view_sized_same.
      * eapply (view_ok at_ me g g2 _ H2 image temp); look. apply view_sized_same.
    + eapply (made_closable at_ me g g2 _ H2 window closeButtonImageView (add_widget (W_imageView (at_ image)) (viewer_window at_ c)) blank); try done.
      intros x y Hx Hy. apply Forall_singleton. cbn [hit]. rewrite (st_objects _ _ _ _ _ H2). look. destruct (centred_size file) as [-> ->].
      cbn [Window.leftTopX Window.leftTopY Window.width add_widget viewer_window set_caption blank centred view_at ImageView.leftTopX ImageView.leftTopY] in *.
      pose proof (half_bounds (ImageView.width (picture at_ file))). pose proof (half_bounds (ImageView.height (picture at_ file))).
      apply not_true_is_false. unfold in_rect. rewrite !andb_true_iff, !Z.geb_le, !Z.ltb_lt. destruct Hclear; lia.
    + exists (add_widget (W_imageView (at_ image)) (viewer_window at_ c)), (centred at_ file).
      rewrite !(st_objects _ _ _ _ _ H2). split; [look|]. split; [look|]. split; [done|]. destruct (centred_size file) as [-> ->].
      unfold fits in Hfit. apply andb_true_iff in Hfit as [Hf1%Z.leb_le Hf2%Z.leb_le].
      pose proof (half_bounds (ImageView.width (picture at_ file))). pose proof (half_bounds (ImageView.height (picture at_ file))).
      cbn [centred view_at ImageView.leftTopX ImageView.leftTopY Window.width Window.height add_widget viewer_window set_caption blank]. lia.
  - exists g1. eexists. split; [done|]. split; [exact H1|]. split; [|split; [|done]].
    + eapply (made_window_ok at_ me g g1 _ H1 window (viewer_window at_ c)); try done.
      apply Forall_singleton. eapply (view_ok at_ me g g1 _ H1 closeButtonImageView closeButtonImageViewTemp); unfold viewer_objects; look. apply view_sized_same.
    + by eapply (made_closable at_ me g g1 _ H1 window closeButtonImageView (viewer_window at_ c) blank).
Qed.
End ViewerOpens.

(** ** The desktop *)
Definition desktop_kinds (s : Desktop.static) : uobj -> Prop := match s with Desktop.temp => is_image | _ => fun _ => True end.
(** A window over the whole screen with one picture at its origin. *)
Definition backdrop `{Pictures} (a p refresh : Z) (me : nat) (g : gstate) : Prop :=
  exists w v, g_umem g !! (me, a) = Some (U_window w) /\ g_umem g !! (me, p) = Some (U_imageView v) /\ window_widgets w = [W_imageView p] /\
    (Window.leftTopX w, Window.leftTopY w, Window.width w, Window.height w) = (0, 0, SCREEN_WIDTH, SCREEN_HEIGHT) /\
    Window.onFileSystemChangedHandler w = mkHandler 0 refresh /\ ImageView.leftTopX v = 0 /\ ImageView.leftTopY v = 0.
Lemma zeros_empty : holds_text zeros [].
Proof. split; [done|]. by exists (replicate 255 0). Qed.
Section DesktopOpens.
Context `{Pictures} (at_ : Desktop.static -> Z) (refresh : Z).
Import Desktop.
Lemma desktop_opens : drawable background_file ->
  opens at_ desktop_kinds window (backdrop (at_ window) (at_ image) refresh) (main at_ refresh).
Proof.
  intros Hd. apply opens_intro. intros g me σ Hat Hcr Hs Hk. destruct (Hk temp) as [px Hpx]. unfold setup.
  destruct (put_run at_ me Hat g Hcr g σ window (U_window (blank refresh)) Hs) as (g1 & E1 & H1). rewrite (bind_Ok _ _ _ _ _ E1).
  set (v := ImageView.mk 0 0 0 0 0 (at_ temp) (mkHandler 0 0)).
  destruct (put_run at_ me Hat g Hcr g1 _ image (U_imageView v) H1) as (g2 & E2 & H2). rewrite (bind_Ok _ _ _ _ _ E2).
  destruct (read_view_run at_ me Hat g Hcr g2 _ image temp background_file v px H2) as (g3 & E3 & H3); [look|done|look|done|done|]. rewrite (bind_Ok _ _ _ _ _ E3).
  destruct (push_widget_run at_ me Hat g Hcr g3 _ window (W_imageView (at_ image)) (blank refresh) H3) as (g4 & E4 & H4); [look|done|]. rewrite (bind_Ok _ _ _ _ _ E4).
  destruct (view_sized_same (size_of background_file) v) as (Hi & Hx & Hy & _).
  exists g4. eexists. split; [done|]. split; [exact H4|]. split.
  - eapply (made_window_ok at_ me g g4 _ H4 window (add_widget (W_imageView (at_ image)) (blank refresh)) []); try done; [apply zeros_empty|].
    apply Forall_singleton. eapply (view_ok at_ me g g4 _ H4 image temp); look.
  - exists (add_widget (W_imageView (at_ image)) (blank refresh)), (view_sized (size_of background_file) v). rewrite !(st_objects _ _ _ _ _ H4), Hx, Hy.
    split_and!; try done; look.
Qed.
End DesktopOpens.

(** ** The file manager *)
Definition manager_kinds (s : FileManager.static) : uobj -> Prop :=
  match s with
  | FileManager.window => fun _ => True
  | FileManager.newFolderButton | FileManager.backupButton => is_button
  | FileManager.closeButtonImageView => is_view
  | FileManager.closeButtonImageViewTemp | FileManager.buttons_0 | FileManager.buttons_1 => is_image
  end.
(** A button at [p] calls [f]; it is a widget of the window at [a]. *)
Definition offers (a p f : Z) (me : nat) (g : gstate) : Prop :=
  exists w b, g_umem g !! (me, a) = Some (U_window w) /\ g_umem g !! (me, p) = Some (U_button b) /\ W_button p ∈ window_widgets w /\
    Button.onLeftClickHandler b = mkHandler 0 f.
Section ManagerOpens.
Context `{Pictures} (at_ : FileManager.static -> Z) (closeWindow new_folder back refresh : Z).
Import FileManager.
Definition title (arg : option (list Z)) : list Z := text "Explorer:/" ++ match arg with Some a => a ++ text "/" | None => [] end.
Definition short_arg (arg : option (list Z)) : Prop := match arg with Some a => Forall (fun c => c <> 0) a /\ (length a < 240)%nat | None => True end.
(** The caption (lines 217-228). *)
Lemma manager_caption me g0 g σ w arg : placed at_ -> cr3 (g_cpu g0) = Some me -> statics at_ me g0 g σ -> σ window = U_window w ->
  holds_text (Window.caption w) (text "Explorer:/") -> length (Window.caption w) = 256%nat -> short_arg arg ->
  exists g' c, (match arg with Some a => caption_append (at_ window) a ;;; caption_append (at_ window) (text "/") | None => ret tt end) g = Ok (tt, g') /\
    statics at_ me g0 g' (supd σ window (U_window (set_caption c w))) /\ holds_text c (title arg).
Proof.
  intros Hat Hcr Hs Hw Ht Hl Ha. destruct arg as [a|]; cycle 1.
  { exists g, (Window.caption w). split; [done|]. split; [|done]. eapply statics_ext; [|exact Hs]. intros t. unfold supd. case_decide; [|done]. subst. rewrite Hw. by destruct w. }
  destruct Ha as [Hn Hla]. destruct (append_text_run (Window.caption w) _ a Ht) as (c1 & E1 & T1 & L1); [rewrite Hl; cbn [length text map]; cbn; lia|done|].
  destruct (append_text_run c1 _ (text "/") T1) as (c2 & E2 & T2 & L2); [rewrite L1, Hl, length_app; cbn; lia|by repeat constructor|].
  destruct (caption_append_run at_ me Hat g0 Hcr g σ window a w c1 Hs Hw E1) as (g1 & R1 & S1). rewrite (bind_Ok _ _ _ _ _ R1).
  destruct (caption_append_run at_ me Hat g0 Hcr g1 _ window (text "/") (set_caption c1 w) c2 S1) as (g2 & R2 & S2); [look|exact E2|].
  exists g2, c2. split; [exact R2|]. split; [|unfold title; by rewrite app_assoc]. eapply statics_ext; [|exact S2]. intros t. unfold supd. by case_decide.
Qed.
Definition manager_window (c : list Z) : Window.t :=
  add_widget (W_button (at_ backupButton)) (add_widget (W_button (at_ newFolderButton)) (set_caption c (add_widget (W_imageView (at_ closeButtonImageView)) (blank refresh)))).
Definition manager_good (arg : option (list Z)) (me : nat) (g : gstate) : Prop :=
  closable (at_ window) (at_ closeButtonImageView) closeWindow me g /\ offers (at_ window) (at_ newFolderButton) new_folder me g /\
  offers (at_ window) (at_ backupButton) back me g /\
  exists w, g_umem g !! (me, at_ window) = Some (U_window w) /\ holds_text (Window.caption w) (title arg) /\ Window.onFileSystemChangedHandler w = mkHandler 0 refresh.
Definition manager_objects (σ : static -> uobj) c p0 p1 p2 b1 b2 : static -> uobj := fun s =>
  match s with
  | window => U_window (manager_window c)
  | newFolderButton => U_button b1
  | backupButton => U_button b2
  | closeButtonImageViewTemp => U_image p0
  | closeButtonImageView => U_imageView (on_click closeWindow (cross_view (blank refresh) (at_ closeButtonImageViewTemp)))
  | buttons_0 => U_image p1
  | buttons_1 => U_image p2
  end.
Lemma manager_setup g me σ arg : placed at_ -> cr3 (g_cpu g) = Some me -> statics at_ me g g σ -> (forall s, manager_kinds s (σ s)) ->
  drawable cross -> drawable (text "folder-plus.bmp") -> drawable (text "undo2.bmp") -> short_arg arg ->
  exists g' c p0 p1 p2 b1 b2, setup at_ closeWindow new_folder back refresh arg g = Ok (true, g') /\
    statics at_ me g g' (manager_objects σ c p0 p1 p2 b1 b2) /\ holds_text c (title arg) /\
    button_for b1 top (at_ buttons_0) (text "Folder") new_folder /\ button_for b2 top (at_ buttons_1) (text "Back") back.
Proof.
  intros Hat Hcr Hs Hk Hd Hd1 Hd2 Ha. unfold setup. destruct (copy_zeros (text "Explorer:/")) as (c & Hc & Ht & Hl); [cbn; lia|by repeat constructor|].
  destruct (put_run at_ me Hat g Hcr g σ window (U_window (blank refresh)) Hs) as (g1 & E1 & H1). rewrite (bind_Ok _ _ _ _ _ E1).
  destruct (caption_copy_run at_ me Hat g Hcr g1 _ window (text "Explorer:/") (blank refresh) c H1) as (g2 & E2 & H2); [look|exact Hc|]. rewrite (bind_Ok _ _ _ _ _ E2).
  destruct (close_button_run at_ me Hat g Hcr g2 _ window closeButtonImageView closeButtonImageViewTemp (set_caption c (blank refresh)) closeWindow H2) as (g3 & p0 & E3 & H3);
    [look|look; exact (Hk closeButtonImageView)|look; exact (Hk closeButtonImageViewTemp)|done..|]. rewrite E3.
  destruct (manager_caption me g g3 _ _ arg Hat Hcr H3 ltac:(look) Ht Hl Ha) as (g4 & c' & E4 & H4 & Ht'). rewrite (bind_Ok _ _ _ _ _ E4).
  destruct (add_button_run at_ me g g4 _ window newFolderButton buttons_0 200 top (text "Folder") new_folder (text "folder-plus.bmp") _ Hat Hcr H4 ltac:(look)) as (g5 & b1 & p1 & E5 & H5 & B1);
    [done|look; exact (Hk newFolderButton)|look; exact (Hk buttons_0)|done..|cbn; lia|by repeat constructor|]. rewrite E5.
  destruct (add_button_run at_ me g g5 _ window backupButton buttons_1 60 top (text "Back") back (text "undo2.bmp") _ Hat Hcr H5 ltac:(look)) as (g6 & b2 & p2 & E6 & H6 & B2);
    [done|look; exact (Hk backupButton)|look; exact (Hk buttons_1)|done..|cbn; lia|by repeat constructor|]. rewrite E6.
  exists g6, c', p0, p1, p2, b1, b2. split; [done|]. split; [|done]. eapply statics_ext; [|exact H6]. intros t. unfold manager_objects. by destruct t; look.
Qed.
Lemma manager_opens arg : drawable cross -> small_cross -> drawable (text "folder-plus.bmp") -> drawable (text "undo2.bmp") -> short_arg arg ->
  opens at_ manager_kinds window (manager_good arg) (go <- setup at_ closeWindow new_folder back refresh arg ;; create_window (at_ window) go).
Proof.
  intros Hd Hsm Hd1 Hd2 Ha. apply opens_intro. intros g me σ Hat Hcr Hs Hk.
  destruct (manager_setup g me σ arg Hat Hcr Hs Hk Hd Hd1 Hd2 Ha) as (g' & c & p0 & p1 & p2 & b1 & b2 & E & H' & Ht & (B1 & B2 & B3 & B4) & (C1 & C2 & C3 & C4)).
  exists g'. eexists. split; [exact E|]. split; [exact H'|]. split.
  - eapply (made_window_ok at_ me g g' _ H' window (manager_window c)); try done. repeat apply Forall_cons_2; [| | |done].
    + eapply (view_ok at_ me g g' _ H' closeButtonImageView closeButtonImageViewTemp); [done|apply view_sized_same|done].
    + eapply (button_ok at_ me g g' _ H' newFolderButton b1); [done|exact B1|right; by exists buttons_0, p1].
    + eapply (button_ok at_ me g g' _ H' backupButton b2); [done|exact C1|right; by exists buttons_1, p2].
  - split_and!.
    + eapply (made_closable at_ me g g' _ H' window closeButtonImageView (manager_window c) (blank refresh)); try done. intros x y _ Hy.
      repeat apply Forall_cons_2; [| |done]; [eapply (below at_ me g g' _ H' newFolderButton b1)|eapply (below at_ me g g' _ H' backupButton b2)]; try done; [by rewrite B3|by rewrite C3].
    + exists (manager_window c), b1. rewrite !(st_objects _ _ _ _ _ H'). split_and!; try done. right. by left.
    + exists (manager_window c), b2. rewrite !(st_objects _ _ _ _ _ H'). split_and!; try done. right. right. by left.
    + exists (manager_window c). rewrite !(st_objects _ _ _ _ _ H'). by split_and!.
Qed.
End ManagerOpens.

(** ** The editor *)
Definition editor_kinds (s : TextEditor.static) : uobj -> Prop :=
  match s with
  | TextEditor.closeButtonImageView => is_view
  | TextEditor.closeButtonImageViewTemp | TextEditor.buttons => is_image
  | _ => fun _ => True
  end.
Lemma strlen_ends l : 0 ∈ l -> is_Some (Draw.strlen l).
Proof.
  induction l as [|c l IH]; intros Hz; [by apply elem_of_nil in Hz|]. cbn [Draw.strlen]. destruct (Z.eqb_spec c 0); [by eexists|].
  apply elem_of_cons in Hz as [?|Hz]; [done|]. destruct (IH Hz) as [m ->]. by eexists.
Qed.
Lemma cat_ends c : (length c < 256)%nat -> is_Some (Draw.strlen (TextBox.text (Editor.cat c Editor.empty_box))).
Proof.
  intros Hl. apply strlen_ends. unfold Editor.cat, Editor.empty_box. cbn [TextBox.text TextBox.set_text TextBox.set_cursor TextBox.set_textLength].
  rewrite take_ge by (unfold Editor.TEXT; lia). apply elem_of_app. right. rewrite drop_replicate. apply elem_of_replicate. split; [done|unfold Editor.TEXT; lia].
Qed.
(** A file of 256 characters fills the array and leaves no room for a NUL: the
    string in the text box does not end. *)
Lemma long_file_unterminated c : (256 <= length c)%nat -> Forall (fun k => k <> 0) c -> Draw.strlen (TextBox.text (Editor.cat c TextEditor.cleared_box)) = None.
Proof.
  intros Hl Hn. unfold Editor.cat. cbn [TextBox.text TextBox.set_text TextBox.set_cursor TextBox.set_textLength TextEditor.cleared_box].
  rewrite length_take. rewrite (drop_ge zeros) by (rewrite zeros_length; unfold Editor.TEXT; lia). rewrite app_nil_r.
  assert (Ht : Forall (fun k => k <> 0) (take Editor.TEXT c)) by (by apply Forall_take). clear Hn Hl. induction Ht as [|k l Hk _ IH]; [done|].
  cbn [Draw.strlen]. destruct (Z.eqb_spec k 0); [done|]. by rewrite IH.
Qed.
Section EditorOpens.
Context `{Pictures} (at_ : TextEditor.static -> Z) (closeWindow save : Z).
Import TextEditor.
(** The window shows the text and the name that [Editor.open_editor] gives. *)
Definition editor_good (e : Editor.editor) (me : nat) (g : gstate) : Prop :=
  closable (at_ mainwindow) (at_ closeButtonImageView) closeWindow me g /\ offers (at_ mainwindow) (at_ saveFileButton) save me g /\
  g_umem g !! (me, at_ text_box) = Some (U_textBox (Editor.box e)) /\
  exists w, g_umem g !! (me, at_ mainwindow) = Some (U_window w) /\ holds_text (Window.caption w) (Editor.caption e) /\ W_textBox (at_ text_box) ∈ window_widgets w.
Definition named_window (c : list Z) : Window.t := set_caption c (add_widget (W_imageView (at_ closeButtonImageView)) blank).
Definition editor_window (c : list Z) : Window.t :=
  add_widget (W_button (at_ saveFileButton)) (add_widget (W_textBox (at_ text_box)) (named_window c)).
Definition editor_objects (σ : static -> uobj) c p0 p1 b1 box : static -> uobj := fun s =>
  match s with
  | mainwindow => U_window (editor_window c)
  | text_box => U_textBox box
  | closeButtonImageViewTemp => U_image p0
  | closeButtonImageView => U_imageView (on_click closeWindow (cross_view blank (at_ closeButtonImageViewTemp)))
  | saveFileButton => U_button b1
  | buttons => U_image p1
  end.
Lemma editor_setup g me σ fs arg e : placed at_ -> cr3 (g_cpu g) = Some me -> statics at_ me g g σ -> (forall s, editor_kinds s (σ s)) ->
  drawable cross -> drawable (text "logo.bmp") -> Editor.open_editor fs arg = Some e -> (length (Editor.caption e) < 256)%nat -> Forall (fun c => c <> 0) (Editor.caption e) ->
  exists g' c p0 p1 b1, setup at_ closeWindow save (fun a => fs !! a) arg g = Ok (true, g') /\
    statics at_ me g g' (editor_objects σ c p0 p1 b1 (Editor.box e)) /\ holds_text c (Editor.caption e) /\ button_for b1 50 (at_ buttons) (text "Save") save.
Proof.
  intros Hat Hcr Hs Hk Hd Hd1 He Hl Hn. unfold setup. destruct (copy_zeros (Editor.caption e)) as (c & Hc & Ht & _); [done|done|].
  destruct (put_run at_ me Hat g Hcr g σ mainwindow (U_window blank) Hs) as (g1 & E1 & H1). rewrite (bind_Ok _ _ _ _ _ E1).
  destruct (close_button_run at_ me Hat g Hcr g1 _ mainwindow closeButtonImageView closeButtonImageViewTemp blank closeWindow H1) as (g2 & p0 & E2 & H2);
    [look|look; exact (Hk closeButtonImageView)|look; exact (Hk closeButtonImageViewTemp)|done..|]. rewrite E2.
  assert (Hcap : default (text "NewFile.txt") arg = Editor.caption e).
  { destruct arg as [a|]; unfold Editor.open_editor in He; [destruct (fs !! a); [|done]; cbn in He; by simplify_eq|by simplify_eq]. }
  rewrite Hcap. destruct (caption_copy_run at_ me Hat g Hcr g2 _ mainwindow (Editor.caption e) (add_widget (W_imageView (at_ closeButtonImageView)) blank) c H2) as (g3 & E3 & H3); [look|exact Hc|].
  rewrite (bind_Ok _ _ _ _ _ E3).
  assert (Hbox : exists b, match arg with Some a => c0 ← fs !! a; Some (Editor.cat c0 cleared_box) | None => Some cleared_box end = Some b /\ place_box b = Editor.box e).
  { destruct arg as [a|]; unfold Editor.open_editor in He; [destruct (fs !! a) as [c0|]; [|done]; cbn in He; simplify_eq; by eexists|simplify_eq; by eexists]. }
  destruct Hbox as (b & -> & Hb). rewrite Hb.
  destruct (put_run at_ me Hat g Hcr g3 _ text_box (U_textBox (Editor.box e)) H3) as (g4 & E4 & H4). rewrite (bind_Ok _ _ _ _ _ E4). unfold add_widgets.
  destruct (push_widget_run at_ me Hat g Hcr g4 _ mainwindow (W_textBox (at_ text_box)) (named_window c) H4) as (g5 & E5 & H5); [look|done|]. rewrite (bind_Ok _ _ _ _ _ E5).
  destruct (put_run at_ me Hat g Hcr g5 _ saveFileButton (U_button (Button.mk 0 0 0 0 0 zeros (mkHandler 0 0))) H5) as (g6 & E6 & H6). rewrite (bind_Ok _ _ _ _ _ E6).
  destruct (add_button_run at_ me g g6 _ mainwindow saveFileButton buttons 30 50 (text "Save") save (text "logo.bmp") _ Hat Hcr H6 ltac:(look)) as (g7 & b1 & p1 & E7 & H7 & B1);
    [done|look; by eexists|look; exact (Hk buttons)|done..|cbn; lia|by repeat constructor|]. rewrite E7.
  exists g7, c, p0, p1, b1. split; [done|]. split; [|done]. eapply statics_ext; [|exact H7]. intros t. by destruct t; look.
Qed.
Lemma editor_opens fs arg e : drawable cross -> small_cross -> drawable (text "logo.bmp") ->
  Editor.open_editor fs arg = Some e -> (length (Editor.caption e) < 256)%nat -> Forall (fun c => c <> 0) (Editor.caption e) ->
  is_Some (Draw.strlen (TextBox.text (Editor.box e))) ->
  opens at_ editor_kinds mainwindow (editor_good e) (main at_ closeWindow save (fun a => fs !! a) arg).
Proof.
  intros Hd Hsm Hd1 He Hl Hn Hend. apply opens_intro. intros g me σ Hat Hcr Hs Hk.
  destruct (editor_setup g me σ fs arg e Hat Hcr Hs Hk Hd Hd1 He Hl Hn) as (g' & c & p0 & p1 & b1 & E & H' & Ht & (B1 & B2 & B3 & B4)).
  exists g'. eexists. split; [exact E|]. split; [exact H'|]. split.
  - eapply (made_window_ok at_ me g g' _ H' mainwindow (editor_window c)); try done. repeat apply Forall_cons_2; [| | |done].
    + eapply (view_ok at_ me g g' _ H' closeButtonImageView closeButtonImageViewTemp); [done|apply view_sized_same|done].
    + by eapply (box_ok at_ me g g' _ H' text_box).
    + eapply (button_ok at_ me g g' _ H' saveFileButton b1); [done|exact B1|right; by exists buttons, p1].
  - split_and!.
    + eapply (made_closable at_ me g g' _ H' mainwindow closeButtonImageView (editor_window c) blank); try done. intros x y _ Hy.
      repeat apply Forall_cons_2; [done| |done]. eapply (below at_ me g g' _ H' saveFileButton b1); [done|rewrite B3; lia|done].
    + exists (editor_window c), b1. rewrite !(st_objects _ _ _ _ _ H'). split_and!; try done. right. right. by left.
    + by rewrite (st_objects _ _ _ _ _ H').
    + exists (editor_window c). rewrite !(st_objects _ _ _ _ _ H'). split_and!; try done. right. by left.
Qed.
End EditorOpens.

(** ** The dialogs *)
Definition is_plain_button (o : uobj) : Prop :=
  exists b, o = U_button b /\ length (Button.text b) = 256%nat /\ Button.image b = 0 /\ triggered (Button.onLeftClickHandler b) = 0.
Definition dialog_kinds (s : Dialog.static) : uobj -> Prop :=
  match s with
  | Dialog.dialog => fun _ => True
  | Dialog.filenameBox => is_box
  | Dialog.okButton => is_plain_button
  | Dialog.dialogCloseButtonImageView => is_view
  | Dialog.dialogCloseButtonImageViewTemp => is_image
  end.
Section DialogOpens.
Context `{Pictures} (at_ : Dialog.static -> Z) (closeDialog ok : Z).
Import Dialog.
(** The text box proposes [name], with the cursor behind it. *)
Definition dialog_good (name : list Z) (me : nat) (g : gstate) : Prop :=
  closable (at_ dialog) (at_ dialogCloseButtonImageView) closeDialog me g /\ offers (at_ dialog) (at_ okButton) ok me g /\
  exists b, g_umem g !! (me, at_ filenameBox) = Some (U_textBox b) /\ holds_text (TextBox.text b) name /\
    TextBox.cursor b = Z.of_nat (length name) /\ TextBox.textLength b = Z.of_nat (length name).
Definition dialog_window (y : Z) (c : list Z) : Window.t :=
  add_widget (W_button (at_ okButton)) (add_widget (W_textBox (at_ filenameBox)) (add_widget (W_imageView (at_ dialogCloseButtonImageView)) (set_caption c (blank y)))).
Definition dialog_objects (σ : static -> uobj) y c p0 b1 box : static -> uobj := fun s =>
  match s with
  | dialog => U_window (dialog_window y c)
  | filenameBox => U_textBox box
  | okButton => U_button b1
  | dialogCloseButtonImageViewTemp => U_image p0
  | dialogCloseButtonImageView => U_imageView (on_click closeDialog (cross_view (blank y) (at_ dialogCloseButtonImageViewTemp)))
  end.
Definition dialog_text (s : list Z) : Prop := (length s < 256)%nat /\ Forall (fun c => c <> 0) s.
Lemma dialog_setup g me σ y title name count : placed at_ -> cr3 (g_cpu g) = Some me -> statics at_ me g g σ -> (forall s, dialog_kinds s (σ s)) ->
  drawable cross -> dialog_text title -> dialog_text name -> (forall t, holds_text t name -> count t = Some (Z.of_nat (length name))) ->
  exists g' c p0 b1 box, Dialog.setup at_ closeDialog ok y title name count g = Ok (tt, g') /\ statics at_ me g g' (dialog_objects σ y c p0 b1 box) /\ holds_text c title /\
    button_for b1 55 0 (text "OK") ok /\ holds_text (TextBox.text box) name /\ TextBox.cursor box = Z.of_nat (length name) /\ TextBox.textLength box = Z.of_nat (length name).
Proof.
  intros Hat Hcr Hs Hk Hd [Lt Nt] [Ln Nn] Hcount. unfold Dialog.setup. destruct (copy_zeros title) as (c & Hc & Ht & _); [done|done|].
  destruct (Hk filenameBox) as (b & Hb & Lb). destruct (copy_text_run (TextBox.text b) name) as (t & Et & Tt & _); [lia|done|].
  destruct (Hk okButton) as (b0 & Hb0 & Lb0 & Ib0 & Tb0). destruct (copy_text_run (Button.text b0) (text "OK")) as (t0 & Et0 & Tt0 & _); [rewrite Lb0; cbn; lia|by repeat constructor|].
  destruct (put_run at_ me Hat g Hcr g σ dialog (U_window (blank y)) Hs) as (g1 & E1 & H1). rewrite (bind_Ok _ _ _ _ _ E1).
  destruct (caption_copy_run at_ me Hat g Hcr g1 _ dialog title (blank y) c H1) as (g2 & E2 & H2); [look|exact Hc|]. rewrite (bind_Ok _ _ _ _ _ E2).
  destruct (close_button_run at_ me Hat g Hcr g2 _ dialog dialogCloseButtonImageView dialogCloseButtonImageViewTemp (set_caption c (blank y)) closeDialog H2) as (g3 & p0 & E3 & H3);
    [look|look; exact (Hk dialogCloseButtonImageView)|look; exact (Hk dialogCloseButtonImageViewTemp)|done..|]. rewrite E3.
  rewrite (bind_Ok _ _ _ _ _ (load_textBox_statics at_ me g Hcr g3 _ filenameBox b H3 ltac:(look))), Et. cbn [of_option]. erewrite bind_Ok; [|reflexivity].
  rewrite (Hcount t Tt). cbn [of_option]. erewrite bind_Ok; [|reflexivity]. set (box := TextBox.mk _ _ _ _ _ _ _ _).
  destruct (put_run at_ me Hat g Hcr g3 _ filenameBox (U_textBox box) H3) as (g4 & E4 & H4). rewrite (bind_Ok _ _ _ _ _ E4).
  destruct (push_widget_run at_ me Hat g Hcr g4 _ dialog (W_textBox (at_ filenameBox)) _ H4 ltac:(look)) as (g5 & E5 & H5); [done|]. rewrite (bind_Ok _ _ _ _ _ E5).
  destruct (fill_button_run at_ me Hat g Hcr g5 _ okButton (20 + 150 + 50) (150 - BORDER_WIDTH - 25 - 40 - 20) 100 50 None (text "OK") ok b0 t0 H5) as (g6 & E6 & H6); [look|done|].
  rewrite (bind_Ok _ _ _ _ _ E6). cbn [default] in H6.
  destruct (push_widget_run at_ me Hat g Hcr g6 _ dialog (W_button (at_ okButton)) _ H6 ltac:(look)) as (g7 & E7 & H7); [done|].
  exists g7, c, p0. do 2 eexists. split; [exact E7|]. split; [eapply statics_ext; [|exact H7]; intros s; destruct s; look|]. split; [done|]. split; [|by split_and!].
  unfold button_for. cbn. rewrite Ib0, Tb0. by split_and!.
Qed.
Lemma dialog_opens y title name count : drawable cross -> small_cross -> dialog_text title -> dialog_text name ->
  (forall t, holds_text t name -> count t = Some (Z.of_nat (length name))) ->
  opens at_ dialog_kinds dialog (dialog_good name) (h <- Dialog.show at_ closeDialog ok y title name count ;; ret (Some h)).
Proof.
  intros Hd Hsm Lt Ln Hcount g me st Hat Hcr Hk Hinv Hap. destruct (objects_of at_ g me dialog_kinds Hk) as (σ & Hσ & Hkσ).
  destruct (dialog_setup g me σ y title name count Hat Hcr Hσ Hkσ Hd Lt Ln Hcount) as (g1 & c & p0 & b1 & box & E1 & H1 & Ht & (B1 & B2 & B3 & B4) & T1 & T2 & T3).
  assert (Hok : window_ok (g_umem g1) me (at_ dialog)).
  { eapply (made_window_ok at_ me g g1 _ H1 dialog (dialog_window y c)); try done. repeat apply Forall_cons_2; [| | |done].
    - eapply (view_ok at_ me g g1 _ H1 dialogCloseButtonImageView dialogCloseButtonImageViewTemp); [done|apply view_sized_same|done].
    - eapply (box_ok at_ me g g1 _ H1 filenameBox); [done|by rewrite (held_strlen _ _ T1)].
    - eapply (button_ok at_ me g g1 _ H1 okButton b1); [done|exact B1|by left]. }
  destruct (createWindow_refines g1 me st (at_ dialog) (statics_inv at_ me g g1 _ st H1 Hinv Hap) Hok) as (g' & E & Hi & _ & _ & Hrd).
  exists g1, g'. split; [done|]. split; [|split; [done|split; [|done]]].
  - split_and!.
    + eapply (made_closable at_ me g g1 _ H1 dialog dialogCloseButtonImageView (dialog_window y c) (blank y)); try done. intros x z _ Hz.
      repeat apply Forall_cons_2; [done| |done]. eapply (below at_ me g g1 _ H1 okButton b1); [done|rewrite B3; lia|done].
    + exists (dialog_window y c), b1. rewrite !(st_objects _ _ _ _ _ H1). split_and!; try done. right. right. by left.
    + exists box. by rewrite (st_objects _ _ _ _ _ H1).
  - unfold Dialog.show. rewrite bind_assoc, (bind_Ok _ _ _ _ _ E1), (bind_Ok _ _ _ _ _ E). done.
Qed.
End DialogOpens.
(** ** Closing *)
Lemma remove_entry q st1 st2 h me a : queue_rep q (st1 ++ mkEntry h me a :: st2) -> Spec.remove h (st1 ++ mkEntry h me a :: st2) = (0, st1 ++ st2).
Proof.
  intros Hrep. pose proof (rep_nodup _ _ Hrep) as Hnd. unfold Spec.remove, Spec.slots in *. rewrite map_app in *. cbn [map e_slot] in *.
  rewrite decide_True by (apply elem_of_app; right; by left). f_equal. rewrite filter_app, filter_cons_False by (cbn; auto).
  apply NoDup_app in Hnd as (_ & Hn & Hnd2). apply NoDup_cons in Hnd2 as [Hh _].
  rewrite !filter_all; [done|apply Forall_forall|apply Forall_forall]; intros e He Hs.
  - apply Hh. rewrite <- Hs. apply list_elem_of_fmap. by exists e.
  - apply (Hn (e_slot e)); [by apply list_elem_of_fmap; exists e|]. rewrite Hs. by left.
Qed.
Lemma delete_entry g me st1 st2 h p a : wm_inv g me (st1 ++ mkEntry h p a :: st2) -> st1 ++ st2 <> [] ->
  exists g', sys_deleteWindow (Some h) g = Ok (0, g') /\ wm_inv g' me (st1 ++ st2).
Proof.
  intros Hinv Hne. pose proof (remove_entry _ _ _ _ _ _ (inv_rep _ _ _ Hinv)) as Hr.
  destruct (deleteWindow_refines g me _ h Hinv) as (g' & E & Hi & _); [by rewrite Hr|]. rewrite Hr in *. by exists g'.
Qed.
(** Closing the dialog brings back the windows that were there. *)
Lemma dialog_closes g me st h a : wm_inv g me (st ++ [mkEntry h me a]) -> st <> [] ->
  exists g', Dialog.closeDialog_code h g = Ok (-1, g') /\ wm_inv g' me st.
Proof.
  intros Hinv Hne. destruct (delete_entry g me st [] h me a) as (g' & E & Hi); [done|by rewrite app_nil_r|]. rewrite app_nil_r in Hi. exists g'. split; [|done].
  unfold Dialog.closeDialog_code. by rewrite (bind_Ok _ _ _ _ _ E).
Qed.
(** Wherever the window of a program is in the stack, closing it leaves the
    others. *)
Lemma window_closes g me st1 st2 h a : wm_inv g me (st1 ++ mkEntry h me a :: st2) -> st1 ++ st2 <> [] ->
  exists g', close_window h g = Ok (tt, g') /\ wm_inv g' me (st1 ++ st2).
Proof. intros Hinv Hne. destruct (delete_entry _ _ _ _ _ _ _ Hinv Hne) as (g' & E & Hi). exists g'. unfold close_window. by rewrite (bind_Ok _ _ _ _ _ E). Qed.

(** ** The pictures of a file system

    The reader of bitmap.c over the pixels of an array: three bytes each. *)
Definition pixel_bytes (px : Z -> RGB) : mem := fun a =>
  let p := px (a / 3) in if a mod 3 =? 0 then rB p else if a mod 3 =? 1 then rG p else rR p.
Definition byte_pixels (m : mem) : Z -> RGB := fun k => mkRGB (m (3 * k)) (m (3 * k + 1)) (m (3 * k + 2)).
Definition read_picture (files : list Z -> option (list Z)) (name : list Z) (p : Z) : G (option (Z * Z)) :=
  px <- load_image p ;;
  fun g => match Bitmap.readBitmapFile (files name) 0 (pixel_bytes px) with
           | Ok (r, m) => (ustore p (U_image (byte_pixels m)) ;;; ret r) g
           | Panic e => Panic e
           | Fault => Fault
           | OutOfFuel => OutOfFuel
           end.
(** No file of the name, or a picture. *)
Definition picture_file (f : option (list Z)) : Prop :=
  match f with
  | None => True
  | Some l => exists w h fh ih rows pads tail, bmp_ok w h fh ih rows pads /\ l = fh ++ ih ++ bmp_body rows pads ++ tail
  end.
Definition result_of (f : option (list Z)) (px : Z -> RGB) : option (Z * Z) * (Z -> RGB) :=
  match Bitmap.readBitmapFile f 0 (pixel_bytes px) with Ok (r, m) => (r, byte_pixels m) | _ => (None, px) end.
Definition file_size (f : option (list Z)) : option (Z * Z) := (result_of f (fun _ => mkRGB 0 0 0)).1.
Lemma bitmap_reads f px : picture_file f -> exists m, Bitmap.readBitmapFile f 0 (pixel_bytes px) = Ok (file_size f, m).
Proof.
  unfold file_size, result_of. destruct f as [l|]; cbn [picture_file]; [|intros _; by eexists].
  intros (w & h & fh & ih & rows & pads & tail & Hb & ->). pose proof (bitmap_rows w h fh ih rows pads tail 0) as Hr.
  rewrite (Hr (pixel_bytes px) Hb), (Hr (pixel_bytes (fun _ => mkRGB 0 0 0)) Hb). by eexists.
Qed.
Program Definition pictures_of (files : list Z -> option (list Z)) : Pictures :=
  {| readBitmapFile := read_picture files; drawable := fun name => picture_file (files name);
     size_of := fun name => file_size (files name); pixels_of := fun name px => (result_of (files name) px).2 |}.
Next Obligation.
  intros files name p g me px Hd Hc Hp. unfold read_picture.
  assert (El : load_image p g = Ok (px, g)) by (unfold load_image; by rewrite (load_run g me p _ _ Hc Hp)).
  rewrite (bind_Ok _ _ _ _ _ El). destruct (bitmap_reads (files name) px Hd) as (m & E). unfold result_of. rewrite E. cbn [snd].
  unfold ustore, M_bind. by rewrite Hc, Hp.
Qed.

(** ** A picture of the size of the window hides the cross *)
Lemma viewer_cross_covered `{Pictures} (at_ : ImageViewer.static -> Z) me g σ closeWindow file :
  placed at_ -> cr3 (g_cpu g) = Some me -> statics at_ me g g σ -> (forall s, viewer_kinds s (σ s)) -> drawable cross -> drawable file -> size_of file = Some (500, 600) ->
  exists g1 w v, ImageViewer.setup at_ closeWindow (Some file) g = Ok (true, g1) /\
    g_umem g1 !! (me, at_ ImageViewer.window) = Some (U_window w) /\ g_umem g1 !! (me, at_ ImageViewer.image) = Some (U_imageView v) /\
    ImageView.onLeftClickHandler v = mkHandler 0 0 /\
    forall x y, 300 <= x < 900 -> 200 <= y < 700 -> top_widget (g_umem g1) me w x y = Some (W_imageView (at_ ImageViewer.image)).
Proof.
  intros Hat Hcr Hs Hk Hc Hd Hsz. destruct (viewer_first at_ me Hat g Hcr g σ closeWindow (Some file) Hs Hk Hc) as (g1 & c & px & E1 & H1 & _ & _).
  destruct (viewer_picture at_ me Hat g Hcr g1 σ px c closeWindow file H1 (Hk ImageViewer.temp) Hd) as (g2 & q & E2 & H2).
  assert (Hf : fits at_ file = true) by (unfold fits, picture; by rewrite Hsz). rewrite Hf in *. rewrite E1, E2.
  exists g2, (add_widget (W_imageView (at_ ImageViewer.image)) (viewer_window at_ c)), (centred at_ file). rewrite !(st_objects _ _ _ _ _ H2).
  split; [done|]. split; [look|]. split; [look|]. split; [apply view_sized_same|]. intros x y Hx Hy. unfold top_widget.
  change (window_widgets _) with ([W_imageView (at_ ImageViewer.closeButtonImageView)] ++ [W_imageView (at_ ImageViewer.image)]).
  rewrite filter_app, (filter_cons_True _ (W_imageView (at_ ImageViewer.image))), filter_nil; [apply last_snoc|].
  cbn [hit]. rewrite (st_objects _ _ _ _ _ H2). look. unfold centred, picture. rewrite Hsz. cbn. unfold in_rect. change (Z.shiftr 600 1) with 300. change (Z.shiftr 500 1) with 250. rewrite !andb_true_iff, !Z.geb_le, !Z.ltb_lt. lia.
Qed.

(** * A click on the cross closes the window *)

(** The cross stays where it is when its window is drawn. *)
Lemma cross_redrawn a view f w v me g um h : cross_at a view f w v me g -> redrawn (g_umem g) um (mkEntry h me a) ->
  exists w', um !! (me, a) = Some (U_window w') /\ window_widgets w' = window_widgets w /\ um !! (me, view) = Some (U_imageView v) /\
    Window.widgets w' = Window.widgets w /\ Window.onFileSystemChangedHandler w' = Window.onFileSystemChangedHandler w.
Proof.
  intros [C1 C2 _ _ _ _] [->|(w0 & Hw0 & ->)]; [by exists w|]. cbn [e_proc e_window] in *. assert (w0 = w) as -> by congruence. eexists.
  split; [apply lookup_insert_eq|]. split; [done|]. split; [|done]. by apply top_drawn_other.
Qed.
(** The process [p] is scheduled. *)
Definition run_as (p : nat) (g : gstate) : gstate := set_cpu (mkCpu (Some p) (Some p) (pgdirs (g_cpu g))) g.
Lemma run_as_inv g me st p : wm_inv g me st -> p ∈ pgdirs (g_cpu g) -> wm_inv (run_as p g) p st.
Proof. intros [I1 I2 I3 I4 I5 I6] Hp. by split. Qed.
(** The first thing the event loop does is to call the handler of the cross. *)
Lemma cross_first call a view f w v me g : cr3 (g_cpu g) = Some me -> g_umem g !! (me, a) = Some (U_window w) -> head (window_widgets w) = Some (W_imageView view) ->
  g_umem g !! (me, view) = Some (U_imageView v) -> ImageView.onLeftClickHandler v = mkHandler 1 f -> f <> 0 -> fires (Window.onFileSystemChangedHandler w) = false ->
  exists rest, handleEvent call a g = (call f 0 a ;;; rest) g.
Proof.
  intros Hc Hw Hh Hv Hf Hf0 Hfs.
  assert (Lw : load_window a g = Ok (w, g)) by (unfold load_window; by rewrite (load_run g me a _ _ Hc Hw)).
  assert (Lv : load_imageView view g = Ok (v, g)) by (unfold load_imageView; by rewrite (load_run g me view _ _ Hc Hv)).
  assert (Hx : 0 < Window.widgetsNum w /\ Window.widgets w !! 0%nat = Some (W_imageView view)).
  { unfold window_widgets in Hh. destruct (Z.to_nat (Window.widgetsNum w)) as [|n] eqn:En; [by rewrite take_0 in Hh|]. destruct (Window.widgets w); [done|]. cbn in *. split; [lia|done]. }
  destruct Hx as [Hn Hx]. eexists. unfold handleEvent. rewrite (bind_Ok _ _ _ _ _ Lw). unfold run_handler at 1. unfold fires in Hfs. rewrite Hfs.
  erewrite bind_Ok; [|reflexivity]. change (Z.to_nat (MAX_WIDGET_NUM + 2)) with 34%nat. cbn [handle_widgets]. rewrite (bind_Ok _ _ _ _ _ Lw).
  destruct (Z.ltb_spec 0 (Window.widgetsNum w)); [|lia]. unfold handle_widget. rewrite bind_assoc. erewrite bind_Ok; cycle 1.
  { unfold widget_now. rewrite (bind_Ok _ _ _ _ _ Lw). unfold widget_at. change ((0 <? 0) || (MAX_WIDGET_NUM <=? 0)) with false. change (Z.to_nat 0) with 0%nat. rewrite Hx. reflexivity. }
  cbv iota. rewrite bind_assoc, (bind_Ok _ _ _ _ _ Lv). unfold run_handler. rewrite Hf. cbn [triggered handlerFunction].
  destruct (Z.eqb_spec f 0); [done|]. cbn [Z.eqb Pos.eqb negb andb]. rewrite bind_assoc. reflexivity.
Qed.
Lemma raise_back st e : e ∈ st -> NoDup (Spec.slots st) -> Spec.raise (e_slot e) st = filter (fun k => e_slot k <> e_slot e) st ++ [e].
Proof. intros [k Hk]%list_elem_of_lookup Hnd. unfold Spec.raise. by destruct (filter_delete st k e Hk Hnd) as [_ ->]. Qed.

(** C12 A click on the cross closes the window, end to end.  The pointer is on
    the cross of a window that no other window hides there, no icon is focused
    and no file system event is pending.  The mouse handler of the
    kernel returns and, when the owner of the window runs next, the first thing
    its event loop does is to call the handler of the cross; this handler
    closes the window: the call succeeds, and the other windows are left in
    their order. *)
Theorem cross_closes g me st h o a view f w v : wm_inv g me st -> idle g -> cross_at a view f w v o g -> f <> 0 ->
  fires (Window.onFileSystemChangedHandler w) = false ->
  topmost (g_umem g) (x_position (g_mouse g)) (y_position (g_mouse g)) st = Some (mkEntry h o a) -> h <> 0 \/ last st = Some (mkEntry h o a) ->
  in_view w v (x_position (g_mouse g)) (y_position (g_mouse g)) = true -> filter (fun e => e_slot e <> h) st <> [] ->
  exists g1, handleLeftClick g = Ok (tt, g1) /\
    (forall call, exists rest, handleEvent call a (run_as o g1) = (call f 0 a ;;; rest) (run_as o g1)) /\
    exists g2, close_window h (run_as o g1) = Ok (tt, g2) /\ wm_inv g2 o (filter (fun e => e_slot e <> h) st).
Proof.
  intros Hinv Hidle Hcr Hf0 Hfs Htop Hor Hin Hne. set (e := mkEntry h o a) in *.
  assert (He : e ∈ st) by (unfold topmost in Htop; by apply last_elem, list_elem_of_filter in Htop as [_ Htop]).
  destruct (left_click_run g me st e w (W_imageView view) view (U_imageView v) (U_imageView (ImageView.set_triggered 1 v)))
    as (g1 & um & E1 & Hi1 & Hrd & Hum & _); try done; [exact (cr_window _ _ _ _ _ _ _ Hcr)|exact (cr_top _ _ _ _ _ _ _ Hcr _ _ Hin)|exact (cr_view _ _ _ _ _ _ _ Hcr)|].
  destruct (cross_redrawn a view f w v o g um h Hcr Hrd) as (w' & W1 & W2 & W3 & W4 & W5).
  exists g1. split; [done|]. pose proof (raise_back st e He (rep_nodup _ _ (inv_rep _ _ _ Hinv))) as Hr. rewrite Hr in Hi1.
  assert (Hpg : o ∈ pgdirs (g_cpu g1)).
  { pose proof (inv_windows _ _ _ Hi1) as Hall. apply Forall_app in Hall as [_ Hall]. apply Forall_cons in Hall as [[Hp _] _]. exact Hp. }
  split.
  - intros call. apply (cross_first call a view f w' (ImageView.set_triggered 1 v) o); try done.
    + cbn [g_umem run_as set_cpu]. rewrite Hum. cbn [e_proc e]. rewrite lookup_insert_ne; [done|]. congruence.
    + rewrite W2. apply Hcr.
    + cbn [g_umem run_as set_cpu]. rewrite Hum. apply lookup_insert_eq.
    + unfold ImageView.set_triggered. cbn. by rewrite (cr_handler _ _ _ _ _ _ _ Hcr).
    + by rewrite W5.
  - destruct (window_closes (run_as o g1) o (filter (fun k => e_slot k <> h) st) [] h a) as (g2 & E2 & Hi2).
    + by apply (run_as_inv g1 me).
    + by rewrite app_nil_r.
    + exists g2. rewrite app_nil_r in Hi2. by split.
Qed.

(** * The programs put their windows on the screen *)
Lemma start_wd_run wd arg : length wd = 256%nat -> short_arg arg ->
  exists wd', FileManager.start_wd wd arg = Some wd' /\ holds_text wd' (text "." ++ match arg with Some a => text "/" ++ a | None => [] end).
Proof.
  intros Hl Ha. unfold FileManager.start_wd. destruct (copy_text_run wd (text ".")) as (w1 & E1 & T1 & L1); [rewrite Hl; cbn; lia|by repeat constructor|].
  rewrite E1. cbn [mbind option_bind]. destruct arg as [a|]; [|by exists w1]. destruct Ha as [Hn Hla].
  destruct (append_text_run w1 _ (text "/") T1) as (w2 & E2 & T2 & L2); [rewrite L1, Hl; cbn; lia|by repeat constructor|]. rewrite E2. cbn [mbind option_bind].
  destruct (append_text_run w2 _ a T2) as (w3 & E3 & T3 & _); [rewrite L2, L1, Hl; cbn; lia|done|]. exists w3. split; [done|]. by rewrite app_assoc.
Qed.
Lemma opens_ext {static} (at_ : static -> Z) kinds win good (c d : G (option Z)) : (forall g, c g = d g) ->
  opens at_ kinds win good c -> opens at_ kinds win good d.
Proof.
  intros He Ho g me st Hat Hc Hk Hi Ha. destruct (Ho g me st Hat Hc Hk Hi Ha) as (g1 & g' & ? & ? & ? & Hr & ? & ?). exists g1, g'. by rewrite <- He.
Qed.

(** ** Witness: the image viewer, started without a picture *)
Definition viewer_at (s : ImageViewer.static) : Z :=
  match s with
  | ImageViewer.window => 1000 | ImageViewer.image => 2000 | ImageViewer.temp => 3000
  | ImageViewer.closeButtonImageViewTemp => 4000 | ImageViewer.closeButtonImageView => 5000
  end.
Lemma viewer_placed : placed viewer_at.
Proof. split; [intros [] []; done|by intros []]. Qed.
Definition black : uobj := U_image (fun _ => mkRGB 0 0 0).
Definition viewer_memory : gmap (nat * Z) uobj :=
  <[(1%nat, 1000) := U_window plain_window]> (<[(1%nat, 2000) := black]> (<[(1%nat, 3000) := black]> (<[(1%nat, 4000) := black]>
    (<[(1%nat, 5000) := U_imageView demo_view]> ∅)))).
Definition viewer_start : gstate := set_umem viewer_memory (demo empty_queue).
(** A cross of one column and two rows; there are no other files. *)
Definition some_files (name : list Z) : option (list Z) :=
  if decide (name = cross) then Some (replicate 14 7 ++ tiny_info ++ bmp_body [[1; 2; 3]; [4; 5; 6]] [[9]; [9]] ++ []) else None.
Lemma some_cross : picture_file (some_files cross).
Proof. unfold some_files. rewrite decide_True by done. exists 1, 2, (replicate 14 7), tiny_info, [[1; 2; 3]; [4; 5; 6]], [[9]; [9]], []. split; [apply tiny_bmp|done]. Qed.

(** ** Witness: a desktop and a window with a cross, the pointer on it *)
Definition crossed_window : Window.t :=
  Window.mk 1 1 0 0 400 300 400 300 300 200 [65; 0] 1 ([W_imageView 310] ++ replicate 31 (W_other 9 0)) no_handler.
Definition crossed_view : ImageView.t := ImageView.mk 275 5 18 18 1 320 (mkHandler 0 77).
Definition crossed_memory : gmap (nat * Z) uobj :=
  <[(1%nat, 300) := U_window crossed_window]> (<[(1%nat, 310) := U_imageView crossed_view]> (<[(1%nat, 320) := black]> demo_um)).
Definition crossed : gstate := set_umem crossed_memory (form 678 308).
Lemma crossed_inv : wm_inv crossed 1 form_stack.
Proof.
  destruct (form_inv 678 308) as [I1 I2 I3 I4 I5 _]. split; try done.
  constructor; [|constructor; [|done]]; (split; [simpl; set_solver|]); (split; [done|]).
  - exists plain_window. split; [vm_compute; reflexivity|]. split; [by eexists|]. by repeat split.
  - exists crossed_window. split; [vm_compute; reflexivity|]. split; [by eexists|]. do 2 (split; [done|]).
    constructor; [|constructor]. exists crossed_view. eexists. split; vm_compute; reflexivity.
Qed.
Lemma crossed_cross : cross_at 300 310 77 crossed_window crossed_view 1 crossed.
Proof.
  split; try (vm_compute; reflexivity); [by split|]. intros x y Hin. apply (top_widget_first _ _ _ _ _ _ []); [done| |constructor].
  cbn [hit]. change (g_umem crossed !! (1%nat, 310)) with (Some (U_imageView crossed_view)). exact Hin.
Qed.
Lemma cross_closes_witness :
  exists g1 g2, handleLeftClick crossed = Ok (tt, g1) /\ close_window 1 (run_as 1 g1) = Ok (tt, g2) /\ wm_inv g2 1 [mkEntry 0 1 200].
Proof.
  destruct (cross_closes crossed 1 form_stack 1 1 300 310 77 crossed_window crossed_view) as (g1 & E1 & _ & g2 & E2 & Hi).
  - exact crossed_inv.
  - done.
  - exact crossed_cross.
  - lia.
  - reflexivity.
  - vm_compute. reflexivity.
  - by left.
  - reflexivity.
  - vm_compute. congruence.
  - exists g1, g2. exact (conj E1 (conj E2 Hi)).
Defined.
